(* ===== verification/_CoqProject ===== *)
-Q . S2P
Prelude.v
ArithSpec.v
Spl.v
IsacFixArith.v
IsacFixDec.v
IsacFixStream.v
IsacFixTables.v
IsacFixEntropy.v
IsacFixLogist.v
IsacFixBwe.v
IsacFixUpdate.v
IsacFixRate.v
IsacCrc.v
IsacMainArith.v
IlbcPack.v
IlbcApi.v
VcText.v
VcIce.v
VcRenderer.v
VcSignal.v
VcAdapter.v
VcCapture.v
G711.v
ByteIo.v
CowBuffer.v
RtpExtMap.v
RtpPacket.v
RtpMem.v
RtpParse.v
RtpLayout.v
RtpRoundtrip.v
RtpBuild.v
RtpExtend.v
RtpExtensions.v
RtpReach.v
Rtcp.v
RtcpFields.v
RtcpReports.v
RtcpFeedback.v
RtcpTmmb.v
RtcpNack.v
RtcpReceive.v
TransportChunk.v
TransportFeedback.v
TransportSend.v
TransportWire.v
TransportSafe.v
OrderedMap.v
RemoteProxy.v
RemoteReports.v
RemoteReach.v
SendHistory.v
FeedbackAdapter.v
SendFlight.v
SendRuns.v
SendTimes.v
FecPacket.v
FecParity.v
FecMasks.v
FecTables.v
FecChoice.v
FecEncode.v
FecRecover.v
FecDecode.v
FecSound.v
FecBlock.v
FecOrder.v
FecLoss.v
FecErrors.v
RedPacket.v
FecGenerator.v
FecReceiver.v
FecHanded.v
FecChannel.v
RedSender.v
RedRun.v
