(* ===== verification/Prelude.v ===== *)
(** * A video chat client: its own logic, the speech codecs and the protocols it carries

    The program is a Qt client for video calls over a copy of WebRTC. The window
    [VideoChat] (src/video_chat.cpp) signs in at a server and keeps the list of
    peers; [MyWidget] and the observers (src/mywidget.cpp, src/peer_connection)
    exchange session descriptions and ICE candidates by text; the capturer
    (src/peer_connection/video_capturer.cpp) sends camera frames through WebRTC's
    video adapter and broadcaster (src/webrtc/media/base) to its sinks, one of
    which is the renderer (src/peer_connection/video_renderer.cpp). Speech is
    coded by the codecs under src/webrtc/modules/audio_coding/codecs, of which
    the tree holds iSAC in fixed and in floating point, iLBC and G.711, as C code.
    Media travels in RTP packets with header extensions and is controlled by RTCP
    packets (src/webrtc/modules/rtp_rtcp/source); the times at which packets arrive
    are collected (src/webrtc/modules/remote_bitrate_estimator) and sent back to the
    sender of the media in transport feedback messages, which keeps a history of what it sent
    (src/webrtc/modules/congestion_controller/rtp). Packets that are lost are recovered from
    parity packets sent along with the media.

    ** Files

    - [Prelude]: machine integers, the statements of a C function ([stmt], with the
      outcomes [Next], [Return], [Fault] and [Spin]), record updates, rules for total
      correctness ([total], [wp]) and for invariants ([keeps]), tactics and hints.
    - [ArithSpec]: the arithmetic coder on unbounded integers, the specification of
      both iSAC coders. [Spl]: the interface of common_audio/signal_processing, which
      is not in the tree.
    - [IsacFixArith], [IsacFixDec]: encoder and decoder by histograms
      (fix/source/arith_routines.c, arith_routines_hist.c), whose state is the record of
      the bit stream. [IsacFixStream]: the payload (isacfix.c) and the interface
      [Encodes]/[Decodes] against which the clients of the coder are proved.
    - [IsacFixTables], [IsacFixEntropy]: tables and side information of a frame
      (entropy_coding.c). [IsacFixLogist]: coding of the spectrum
      (arith_routines_logist.c).
    - [IsacFixBwe], [IsacFixRate]: bandwidth estimator and rate model
      (bandwidth_estimator.c). [IsacFixUpdate]: the estimate of a received packet (decode_bwe.c,
      isacfix.c), which composes the entropy decoder with the estimator.
    - [IsacCrc], [IsacMainArith]: checksum and arithmetic coder of iSAC in floating point
      (main/source/crc.c, arith_routines*.c).
    - [IlbcPack], [IlbcApi]: packing of the parameters of iLBC (pack_bits.c,
      unpack_bits.c, index_conv_*.c, swap_bytes.c) and the decoding of packets (ilbc.c, decode.c).
      [G711]: both laws of G.711 and linear samples (g711.h, g711.c, pcm16b.c).
    - [VcText]: the operations on text of Qt and the C++ library that the client uses.
      [VcIce]: exchange of candidates. [VcRenderer]: the renderer. [VcSignal]: the
      window. [VcAdapter]: video_adapter.cc. [VcCapture]: capturer, broadcaster and
      sinks (video_capturer.cpp, video_broadcaster.cc, video_source_base.cc), which calls the
      adapter.
    - [ByteIo], [CowBuffer]: byte_io.h, and buffer.h with copy_on_write_buffer.cc as a heap of
      counted blocks.
    - [RtpExtMap], [RtpExtensions]: the map of the header extensions and the values of
      each ([Extension], with its promise [Faithful]). [RtpPacket]: the methods of rtp_packet.cc
      as statements on the members and the buffer; [RtpMem], [RtpLayout]: rules for its
      memory and the relation [built] of members and bytes; [RtpBuild], [RtpExtend]: the
      methods keep it; [RtpParse], [RtpRoundtrip]: parsing; [RtpReach]: packets that
      programs build.
    - [Rtcp]: rtcp_packet.cc, common_header.cc and compound_packet.cc; [Sink] is the buffer
      with the packets handed to the callback, and the class [RtcpLaws] says what a message
      promises to the compound packet that holds it. [RtcpFields], [RtcpReports],
      [RtcpFeedback], [RtcpTmmb], [RtcpNack]: the messages under rtcp_packet/, each with its
      operations, an instance of [RtcpLaws] and its parser. [RtcpReceive]: the loop of
      rtcp_receiver.cc that picks the parser of each block.
    - [TransportChunk]: [LastChunk] of transport_feedback.cc. [TransportFeedback]: the
      message. [TransportSend]: the status of packets that an object represents, and what its
      methods do to it. [TransportWire], [TransportSafe]: writing, and reading of
      messages and of arbitrary bytes.
    - [OrderedMap]: std::map with integer keys, of both ends of the feedback.
    - [RemoteProxy]: remote_estimator_proxy.cc, which is the client of [TransportFeedback].
      [RemoteReports], [RemoteReach]: what it reports, and the states it reaches.
    - [SendHistory]: send_time_history.cc. [FeedbackAdapter]: transport_feedback_adapter.cc,
      which looks up the packets of a message in the history. [SendFlight]: its counters of bytes.
      [SendRuns]: runs of calls of the adapter. [SendTimes]: from the proxy over the
      wire to the adapter.
    - [FecPacket]: one packet in forward_error_correction.cc, its parity and recovery, with
      ulpfec_header_reader_writer.cc. [FecParity], [FecRecover]: what a FEC packet holds, and
      what it gives back. [FecMasks], [FecTables], [FecChoice]: the masks that say which packets
      it protects (forward_error_correction_internal.cc, fec_private_tables_*.cc). [FecEncode]:
      the encoder. [FecDecode]: the decoder; [FecSound]: what it recovers was sent. [FecBlock]:
      from the encoder to the decoder. [FecOrder]: sorting, search and merge of its lists.
      [FecLoss]: the invariant of a block of which one packet is lost. [FecErrors]: packets
      that are too long.
    - [RedPacket], [FecGenerator]: ulpfec_generator.cc, which gathers media packets, calls the
      encoder of [FecEncode] and wraps the FEC packets. [FecReceiver]: ulpfec_receiver_impl.cc,
      which unpacks RED packets and calls the decoder of [FecDecode]. [FecHanded]: what the receiver
      hands over is what the decoder has, up to the marks of packets that were handed over.
      [FecChannel]: from the generator to the receiver. [RedSender]: rtp_sender_video.cc, which
      sends an [RtpPacket] in RED with the packets of the generator. [RedRun]: its runs.

    ** What the theorems show

    - The arithmetic coders are lossless and refine the specification: any sequence of
      coding calls is decoded to its symbols, the error code and the length are
      those the intervals determine ([blocks_roundtrip], [blocks_outcome], [main_roundtrip],
      [main_encode_total]). Proved against the interface, the side information and the
      spectrum of a frame survive the payload ([side_roundtrip], [RcCoef_roundtrip],
      [Gain2_coding], [spectrum_roundtrip]), with the bounds and the termination this
      needs ([Piecewise_cdf], [clip_terminates], [wide_env_decodable]).
    - The bandwidth estimator keeps its invariant through any packets and the two
      ends agree on the delay, and on the rate after some indices without a sudden
      reduction ([bwe_reachable_safe], [ends_agree]); packets of any
      content are handled safely, and those of the encoder arrive as they were meant
      ([UpdateBwEstimate_safe], [UpdateBwEstimate_payload]); the rate model bounds the sizes it asks
      for ([GetMinBytes_bounds]).
    - The CRC table computes the polynomial division ([GetCrc_bitwise], [GetCrc_detects_byte]).
    - Packing of iLBC is a bijection and the decoder of packets accepts exactly the
      right sizes ([pack_unpack], [unpack_pack], [params_transport], [Decode_outcome]);
      G.711 loses at most the step of the segment ([g711_transport], [bit_search_equiv]).
    - Buffers that share memory behave as values in any sequence of calls ([cow_refines]); the readers and writers
      of byte_io.h that are written out agree with the generic ones ([byte_io_specialised]).
    - An RTP packet that allowed calls of its methods build is parsed to the same members,
      extensions and payload ([rtp_roundtrip], [extension_transport]), these calls keep
      it well formed ([packet_type_safety]), and parsing of any bytes is safe ([Parse_safe]). Allowed
      are all calls whose assertions hold, but that extensions need a buffer of whole words,
      payloads are below 2^63 bytes and headers are copied of packets without padding; what the code
      does otherwise is shown ([padding_past_buffer], [payload_size_wraps], [padding_bit_copied]).
    - RTCP messages arrive complete and in order, however they are spread over packets
      ([compound_transport], [rtcp_transport], [nack_transport], [remb_rate]), and any bytes are
      received safely ([receive_safe]).
    - A transport feedback message refines a list of statuses and does not add up
      rounding errors ([add_received_packet]), arrives with what it represents
      ([feedback_roundtrip]), and is parsed safely from any bytes ([ParseFrom_safe]). The proxy
      reports every arrival once and the other side has its time to half a tick
      ([arrivals_delivered], [request_reported]). The adapter of the sender has the times
      of the receiver exactly, up to one offset ([arrival_times_seen]), and its counters are
      the bytes of the packets in flight ([bytes_in_flight]).
    - For media packets of at most 1488 bytes - longer ones overrun arrays ([protect_overrun],
      [long_packet_overruns]) - every media packet of a block is in the parity of a FEC packet, for every choice of masks
      and with gaps between the packets ([EncodeFec_outcomes]); whatever arrives, the decoder
      recovers only packets that were sent ([recovered_as_sent]), and if one media packet of
      a block is lost and the rest arrives in any order, it comes back ([lost_packet_recovered]).
    - The generator never holds another code than that of the packets it gathered
      ([generator_runs]); what the sender gives to the network parses to the packets that the
      receiver takes ([red_packets_sent]); any RED packet is taken apart safely and as its RED header
      decides, with the flaws that this shows ([AddReceivedRedPacket_outcome]); and the receiver hands over exactly the media packets of a
      block of which one was lost on the way ([protected_block_arrives]).
    - The capturer keeps the limits of the adapter equal to the joint wants of the
      sinks, and each sink gets exactly the frames of the adapter, within the size, black and not
      marked as rotated as it wants ([capture_respects_wants]); the adapter
      chooses the best factor and limits the rate ([adapt_frame], [keep_frame_rate]);
      partial updates need the previous frame ([partial_update_previous]).
    - The window shows the peers of a reply or a notification ([sign_in_reply],
      [notification]), and candidates pass from one client to the other ([ice_exchange]).
    - The error behaviour of each part, where the code faults, loops or refuses what it
      should accept: [EncTerminate_overrun], [flat_cell_rejected], [search_never_ends],
      [index_past_buffer], [main_spectrum_lost], [Decode20Ms_inverted], [index_divides_by_zero],
      [ExceedAgo_wraps], [renderer_deadlock], [control_read_faults], [calling_stops_polling],
      [failed_login_is_final], [destructor_faults], [aspect_exceeds_maximum], [UpdateBwEstimate1_overread],
      [scaling_drops_rotation], [partial_update_after_black], [padding_past_buffer],
      [promotion_without_entries], [padding_bit_copied], [payload_size_wraps], [consistent_objects], [jump_stops_process],
      [first_unacked_never], [long_packet_overruns], [first_block_cut].

    ** Conventions

    Signed overflow wraps around; the unwrapped sequence numbers of 64 bits, which
    a packet moves by less than 2^16, are not bounded. Assertions of debug builds (RTC_DCHECK)
    are not executed by the model, as in a release build, and are hypotheses where a
    theorem needs them; the one that no code waits in [AddRtpPacketAndGenerateFec] is a failure,
    since behind it the list of packets would point to arrays that are written again.
    RTC_CHECK is a [Fault]. A memory access outside its object, a null pointer
    and a division by zero are [Fault], or [None] in functions on bytes. A loop carries fuel
    where its end is not structural, and a theorem that it ends shows that the fuel is enough:
    the byte loops of the coders take at most the length of the buffer, the searches at
    most the 16-bit range of the candidate, the loop of [FindScale] at most 27 rounds,
    a callback empties the buffer of an RTCP packet so that room is made in three rounds
    ([room_fuel]), rates of 64 bits are shifted less than 64 times ([scale_fuel]), masks have 16
    bits ([mask_fuel]), each block of requests and of a received packet takes an item or
    a byte ([nack_fuel], [ParseCompoundPacket], [parse_chunks]), each message reports an entry of
    the map ([SendPeriodicFeedbacks]), each recovery takes away a FEC packet ([AttemptRecovery]), and the numbers before a received packet are those up to its own
    ([unreceived_fuel]). [Spin] is also the outcome of waiting
    for a mutex that nobody unlocks. Slots and methods under one lock are atomic. Text
    received, and whether a connection succeeds, are arguments of the slots, as are clocks
    and memory that is not initialised. Functions that are not in the tree are classes with
    laws ([Spl], [Libyuv], [Pixels], [NtpTimeLaws]), each with an instance that shows that its laws can
    hold, or parameters of a section.

    ** Not modelled

    The signal processing of the codecs (transforms, filter banks, pitch and LPC analysis, the
    search of the code book), which rests on common_audio/signal_processing or on
    floating point; the other API functions of isacfix.c; the encoder of iLBC; the
    conversion of LPC coefficients in entropy_coding.c; Opus, G.722 and the
    other codecs, which wrap third-party code; the extensions for the color space and the
    generic frame descriptor; the RTCP messages SDES, XR and APP, which the receiver hands on
    unparsed, and the state of its handlers; the interval between reports, which the proxy computes
    in double precision; FlexFEC, and the rest of the sender of video; the set-up of the connection
    (backend.cpp, the rest of mywidget.cpp), which is a sequence of calls into WebRTC; the
    rest of WebRTC, Abseil and OpenSSL, which are third-party code; tests. *)

From Stdlib Require Export ZArith Lia.
From stdpp Require Export base list option.

#[export] Set Default Goal Selector "!".

(** ** Machine integers

    A C integer of width [w] is a [Z]; every operation that can leave the
    range of its type is followed by one of these conversions. *)

Declare Scope c_scope.
Delimit Scope c_scope with C.

Open Scope Z_scope.

Definition u8 (z : Z) : Z := z mod 2 ^ 8.
Definition u16 (z : Z) : Z := z mod 2 ^ 16.
Definition u32 (z : Z) : Z := z mod 2 ^ 32.
Definition u64 (z : Z) : Z := z mod 2 ^ 64.
Definition s16 (z : Z) : Z := (z + 2 ^ 15) mod 2 ^ 16 - 2 ^ 15.
Definition s32 (z : Z) : Z := (z + 2 ^ 31) mod 2 ^ 32 - 2 ^ 31.
Definition s64 (z : Z) : Z := (z + 2 ^ 63) mod 2 ^ 64 - 2 ^ 63.

(** ** Statements of a C function

    A statement runs in a store [S] (the structures reachable through the
    function's pointer arguments). It completes, executes a [return] with a
    value of type [R], accesses memory outside an object, or, for a loop whose
    model carries fuel, exhausts that fuel. *)

Inductive outcome (S R A : Type) : Type :=
| Next (a : A) (s : S)
| Return (r : R) (s : S)
| Fault
| Spin.

Arguments Next {S R A} a s.
Arguments Return {S R A} r s.
Arguments Fault {S R A}.
Arguments Spin {S R A}.

Definition stmt (S R A : Type) : Type := S -> outcome S R A.

Definition ret {S R A} (a : A) : stmt S R A := fun s => Next a s.

Definition bind {S R A B} (m : stmt S R A) (k : A -> stmt S R B) : stmt S R B :=
  fun s =>
    match m s with
    | Next a s' => k a s'
    | Return r s' => Return r s'
    | Fault => Fault
    | Spin => Spin
    end.

Definition get {S R} : stmt S R S := fun s => Next s s.
Definition put {S R} (s : S) : stmt S R unit := fun _ => Next tt s.
Definition modify {S R} (f : S -> S) : stmt S R unit := fun s => Next tt (f s).
Definition return_ {S R A} (r : R) : stmt S R A := fun s => Return r s.

(** A function on a part of the store, given by its projection and its update. *)
Definition zoom {S T R A} (proj : S -> T) (upd : T -> S -> S) (m : stmt T R A) : stmt S R A :=
  fun s =>
    match m (proj s) with
    | Next a t => Next a (upd t s)
    | Return r t => Return r (upd t s)
    | Fault => Fault
    | Spin => Spin
    end.

(** A memory access: [None] is an access outside the object. *)
Definition mem {S R A} (o : option A) : stmt S R A :=
  fun s => match o with Some a => Next a s | None => Fault end.

(** The boundary of a function: a [return] inside its body is its result. *)
Definition fn {S R R'} (m : stmt S R R) : stmt S R' R :=
  fun s =>
    match m s with
    | Next r s' => Next r s'
    | Return r s' => Next r s'
    | Fault => Fault
    | Spin => Spin
    end.

(** Run a statement whose [return] the caller handles. *)
Definition try {S R R' A} (m : stmt S R A) : stmt S R' (R + A) :=
  fun s =>
    match m s with
    | Next a s' => Next (inr a) s'
    | Return r s' => Next (inl r) s'
    | Fault => Fault
    | Spin => Spin
    end.

Notation "'let!' x := m 'in' k" := (bind m (fun x => k))
  (at level 10, x binder, m at level 200, k at level 200,
   format "'[v' 'let!'  x  :=  m  'in' '/' k ']'") : c_scope.
Notation "m ;; k" := (bind m (fun _ => k))
  (at level 100, k at level 200, right associativity) : c_scope.

(** Division by zero is undefined, as is a shift by the width or more. *)
Definition cdiv (a b : Z) : option Z := if b =? 0 then None else Some (Z.quot a b).

(** ** Updates of structure fields

    [s <| f := v |>] is the structure [s] with field [f] replaced. A structure
    type declares its eta expansion as an instance of [Eta]; the setter of a
    field is derived from it. *)

Class Eta (R : Type) := eta : R -> R.
Class Setter {R T : Type} (proj : R -> T) := set : (T -> T) -> R -> R.

Ltac derive_setter :=
  lazymatch goal with
  | |- @Setter ?R ?T ?proj =>
      let inst := constr:(_ : Eta R) in
      let inst := lazymatch inst with ?i => i end in
      let e := eval red in inst in
      match eval pattern proj in e with
      | ?g _ =>
          let t := constr:(fun f : T -> T => g (fun r : R => f (proj r))) in
          let t := eval cbv beta in t in
          exact t
      end
  end.

#[export] Hint Extern 0 (Setter _) => derive_setter : typeclass_instances.

Notation "s <| f := v |>" := (set (proj := f) (fun _ => v) s)
  (at level 1, f at level 0, left associativity, format "s  <|  f  :=  v  |>") : c_scope.

(** Array accesses: an index outside the array is a fault, as opposed to
    stdpp's insertion, which would leave the array unchanged. *)
Definition store (l : list Z) (i : nat) (v : Z) : option (list Z) :=
  if decide (i < length l)%nat then Some (<[i:=v]> l) else None.

(** Indexing with a C integer: a negative index is outside the array. *)
Definition zget (l : list Z) (i : Z) : option Z :=
  if i <? 0 then None else l !! Z.to_nat i.

(** ** Ranges *)

Definition is_u8 (z : Z) : Prop := 0 <= z < 2 ^ 8.
Definition is_u16 (z : Z) : Prop := 0 <= z < 2 ^ 16.
Definition is_u32 (z : Z) : Prop := 0 <= z < 2 ^ 32.
Definition is_s16 (z : Z) : Prop := - 2 ^ 15 <= z < 2 ^ 15.
Definition is_s32 (z : Z) : Prop := - 2 ^ 31 <= z < 2 ^ 31.

(** ** Automation *)

Create HintDb cint.
Create HintDb keeps.

(** Unfold the widths and the range predicates. *)
Ltac widths :=
  unfold is_u8, is_u16, is_u32, is_s16, is_s32, u8, u16, u32, s16, s32 in *;
  change (2 ^ 8) with 256 in *; change (2 ^ 15) with 32768 in *;
  change (2 ^ 16) with 65536 in *; change (2 ^ 31) with 2147483648 in *;
  change (2 ^ 32) with 4294967296 in *; change (2 ^ 24) with 16777216 in *.

(** Linear goals over machine integers. *)
Ltac clia := widths; lia.

(** Goals with divisions and remainders by constants. *)
Ltac dmlia := widths; Z.div_mod_to_equations; lia.

(** Run the statement monad. *)
Ltac run := unfold bind, ret, get, put, return_, mem, fn in *; cbn beta iota in *.

(** Split the first conditional of the goal and turn its test into a
    proposition. *)
Ltac bcase :=
  match goal with
  | |- context [if ?b then _ else _] =>
      let E := fresh "E" in destruct b eqn:E
  end;
  repeat match goal with
  | H : (_ =? _) = true |- _ => apply Z.eqb_eq in H
  | H : (_ =? _) = false |- _ => apply Z.eqb_neq in H
  | H : (_ <? _) = true |- _ => apply Z.ltb_lt in H
  | H : (_ <? _) = false |- _ => apply Z.ltb_ge in H
  | H : (_ <=? _) = true |- _ => apply Z.leb_le in H
  | H : (_ <=? _) = false |- _ => apply Z.leb_gt in H
  end.

(** ** Lemmas on statements *)

Lemma bind_Next {S R A B} (m : stmt S R A) (k : A -> stmt S R B) s a s' :
  m s = Next a s' -> bind m k s = k a s'.
Proof. intros E. unfold bind. by rewrite E. Qed.

Lemma zoom_Next {S T R A} (proj : S -> T) upd (m : stmt T R A) s a t :
  m (proj s) = Next a t -> zoom proj upd m s = Next a (upd t s).
Proof. intros E. unfold zoom. by rewrite E. Qed.

Lemma bind_mem {S R A B} (o : option A) (k : A -> stmt S R B) s a :
  o = Some a -> bind (mem o) k s = k a s.
Proof. intros ->. done. Qed.

Lemma bind_get {S R B} (k : S -> stmt S R B) s : bind get k s = k s s.
Proof. done. Qed.

Lemma bind_put {S R B} (k : unit -> stmt S R B) s s' : bind (put s') k s = k tt s'.
Proof. done. Qed.

Lemma bind_Return {S R A B} (m : stmt S R A) (k : A -> stmt S R B) s r s' :
  m s = Return r s' -> bind m k s = Return r s'.
Proof. intros E. unfold bind. by rewrite E. Qed.

Lemma fn_Next {S R R'} (m : stmt S R R) s r s' :
  m s = Next r s' -> @fn S R R' m s = Next r s'.
Proof. intros E. unfold fn. by rewrite E. Qed.

Lemma fn_Return {S R R'} (m : stmt S R R) s r s' :
  m s = Return r s' -> @fn S R R' m s = Next r s'.
Proof. intros E. unfold fn. by rewrite E. Qed.

Lemma try_Next {S R R' A} (m : stmt S R A) s a s' :
  m s = Next a s' -> @try S R R' A m s = Next (inr a) s'.
Proof. intros E. unfold try. by rewrite E. Qed.

Lemma try_Return {S R R' A} (m : stmt S R A) s r s' :
  m s = Return r s' -> @try S R R' A m s = Next (inl r) s'.
Proof. intros E. unfold try. by rewrite E. Qed.

(** ** Total correctness

    From a store that satisfies [P] the statement completes, in a store and with
    a value that satisfy [Q]. *)

Definition total {S R A} (P : S -> Prop) (m : stmt S R A) (Q : A -> S -> Prop) : Prop :=
  forall s, P s -> exists a s', m s = Next a s' /\ Q a s'.

Lemma total_bind {S R A B} P Q (Q' : B -> S -> Prop) (m : stmt S R A) (k : A -> stmt S R B) :
  total P m Q -> (forall a, total (Q a) (k a) Q') -> total P (bind m k) Q'.
Proof.
  intros Hm Hk s Hs. destruct (Hm s Hs) as (a & s1 & E & H1). rewrite (bind_Next _ _ _ _ _ E).
  by apply Hk.
Qed.

Lemma total_get {S R B} (P : S -> Prop) (k : S -> stmt S R B) Q :
  (forall b, P b -> total (fun s => s = b) (k b) Q) -> total P (bind get k) Q.
Proof. intros Hk s Hs. rewrite bind_get. by apply (Hk s Hs s). Qed.

Lemma total_ret {S R A} (P : S -> Prop) (a : A) (Q : A -> S -> Prop) :
  (forall s, P s -> Q a s) -> total (R:=R) P (ret a) Q.
Proof. intros HQ s Hs. exists a, s. split; [reflexivity|by apply HQ]. Qed.

Lemma total_fn {S R R'} P (m : stmt S R R) Q : total P m Q -> total P (@fn S R R' m) Q.
Proof.
  intros Hm s Hs. destruct (Hm s Hs) as (a & s1 & E & H1). exists a, s1.
  split; [by apply fn_Next|done].
Qed.

Lemma total_mem {S R A B} (P : S -> Prop) (o : option A) a (k : A -> stmt S R B) Q :
  o = Some a -> total P (k a) Q -> total P (bind (mem o) k) Q.
Proof. intros -> Hk s Hs. by apply Hk. Qed.

Lemma total_weaken {S R A} (P P' : S -> Prop) (m : stmt S R A) (Q Q' : A -> S -> Prop) :
  total P m Q -> (forall s, P' s -> P s) -> (forall a s, Q a s -> Q' a s) -> total P' m Q'.
Proof.
  intros Hm HP HQ s Hs. destruct (Hm s (HP s Hs)) as (a & s1 & E & H1). exists a, s1. eauto.
Qed.

Lemma total_modify {S R} (P : S -> Prop) (f : S -> S) (Q : unit -> S -> Prop) :
  (forall s, P s -> Q tt (f s)) -> total (R:=R) P (modify f) Q.
Proof. intros HQ s Hs. exists tt, (f s). split; [reflexivity|by apply HQ]. Qed.

Lemma total_put {S R} (P : S -> Prop) (s' : S) (Q : unit -> S -> Prop) :
  (forall s, P s -> Q tt s') -> total (R:=R) P (put s') Q.
Proof. intros HQ s Hs. exists tt, s'. split; [reflexivity|by apply (HQ s)]. Qed.

Lemma total_skip {S R A B} (P : S -> Prop) (a : A) (k : A -> stmt S R B) Q :
  total P (k a) Q -> total P (bind (ret a) k) Q.
Proof. done. Qed.

(** An assignment takes [P] to the precondition of what follows. *)
Lemma total_assign {S R B} (P P' : S -> Prop) (f : S -> S) (k : stmt S R B) Q :
  (forall s, P s -> P' (f s)) -> total P' k Q -> total P (bind (modify f) (fun _ => k)) Q.
Proof. intros Hf Hk s Hs. by apply Hk, Hf. Qed.

Lemma total_fix {S R A} (P : S -> Prop) (m : stmt S R A) Q :
  (forall s0, P s0 -> total (fun s => s = s0) m Q) -> total P m Q.
Proof. intros Hm s Hs. by apply (Hm s Hs). Qed.

Lemma total_assign_eq {S R B} (s0 : S) (f : S -> S) (k : stmt S R B) Q :
  total (fun s => s = f s0) k Q -> total (fun s => s = s0) (bind (modify f) (fun _ => k)) Q.
Proof. intros Hk s ->. by apply Hk. Qed.

Lemma total_pure {S R A} (X : Prop) (P : S -> Prop) (m : stmt S R A) Q :
  (X -> total P m Q) -> total (fun s => X /\ P s) m Q.
Proof. intros Hm s [HX Hs]. by apply Hm. Qed.

(** ** Weakest preconditions

    From the store [s] the statement ends without a fault: it completes as [Q]
    says, or it executes a [return] as [QR] says. *)

Definition wp {S R A} (m : stmt S R A) (s : S) (Q : A -> S -> Prop) (QR : R -> S -> Prop) : Prop :=
  match m s with Next a s' => Q a s' | Return r s' => QR r s' | Fault | Spin => False end.

Lemma wp_bind {S R A B} (m : stmt S R A) (k : A -> stmt S R B) s Q QR :
  wp m s (fun a s' => wp (k a) s' Q QR) QR -> wp (bind m k) s Q QR.
Proof. unfold wp, bind. by destruct (m s). Qed.

Lemma wp_mono {S R A} (m : stmt S R A) s (Q Q' : A -> S -> Prop) (QR QR' : R -> S -> Prop) :
  wp m s Q QR -> (forall a s', Q a s' -> Q' a s') -> (forall r s', QR r s' -> QR' r s') ->
  wp m s Q' QR'.
Proof. unfold wp. destruct (m s); auto. Qed.

Lemma wp_post {S R A} (m : stmt S R A) s (Q Q' : A -> S -> Prop) (QR : R -> S -> Prop) :
  wp m s Q QR -> (forall a s', Q a s' -> Q' a s') -> wp m s Q' QR.
Proof. intros Hm HQ. by eapply wp_mono. Qed.

Lemma wp_seq {S R A B} (m : stmt S R A) (k : A -> stmt S R B) s Q Q' QR :
  wp m s Q QR -> (forall a s', Q a s' -> wp (k a) s' Q' QR) -> wp (bind m k) s Q' QR.
Proof. intros Hm Hk. apply wp_bind. by eapply wp_post. Qed.

Lemma wp_ret {S R A} (a : A) (s : S) Q (QR : R -> S -> Prop) : Q a s -> wp (ret a) s Q QR.
Proof. done. Qed.

Lemma wp_return {S R A} (r : R) (s : S) (Q : A -> S -> Prop) QR : QR r s -> wp (return_ r) s Q QR.
Proof. done. Qed.

Lemma wp_get {S R} (s : S) Q (QR : R -> S -> Prop) : Q s s -> wp get s Q QR.
Proof. done. Qed.

Lemma wp_modify {S R} (f : S -> S) (s : S) Q (QR : R -> S -> Prop) :
  Q tt (f s) -> wp (modify f) s Q QR.
Proof. done. Qed.

Lemma wp_mem {S R A} (o : option A) a (s : S) Q (QR : R -> S -> Prop) :
  o = Some a -> Q a s -> wp (mem o) s Q QR.
Proof. by intros ->. Qed.

Lemma wp_fn {S R R'} (m : stmt S R R) (s : S) Q (QR : R' -> S -> Prop) :
  wp m s Q Q -> wp (fn m) s Q QR.
Proof. unfold wp, fn. by destruct (m s). Qed.

Lemma wp_Next {S R A} (m : stmt S R A) s a s' Q (QR : R -> S -> Prop) :
  m s = Next a s' -> Q a s' -> wp m s Q QR.
Proof. unfold wp. by intros ->. Qed.

Lemma wp_elim {S R A} (m : stmt S R A) s a s' Q (QR : R -> S -> Prop) :
  wp m s Q QR -> m s = Next a s' -> Q a s'.
Proof. unfold wp. intros Hw E. by rewrite E in Hw. Qed.

Lemma wp_run {S R A} (m : stmt S R A) s Q :
  wp m s Q (fun _ _ => False) -> exists a s', m s = Next a s' /\ Q a s'.
Proof. unfold wp. destruct (m s); try done. eauto. Qed.

(** One statement of a sequence. *)
Ltac wp_step :=
  lazymatch goal with
  | |- wp (bind _ _) _ _ _ => apply wp_bind
  | |- wp (ret _) _ _ _ => apply wp_ret
  | |- wp (return_ _) _ _ _ => apply wp_return
  | |- wp get _ _ _ => apply wp_get
  | |- wp (modify _) _ _ _ => apply wp_modify
  | |- wp (fn _) _ _ _ => apply wp_fn
  end; cbv beta.

Ltac wp_steps := repeat wp_step.

(** ** Preservation

    Whatever a statement does, if it completes or returns it keeps [P]. *)

Definition keeps {S R A} (P : S -> Prop) (m : stmt S R A) : Prop :=
  forall s, P s -> match m s with Next _ s' | Return _ s' => P s' | Fault | Spin => True end.

Lemma keeps_bind {S R A B} P (m : stmt S R A) (k : A -> stmt S R B) :
  keeps P m -> (forall a, keeps P (k a)) -> keeps P (bind m k).
Proof.
  intros Hm Hk s Hs. specialize (Hm s Hs). unfold bind.
  destruct (m s) as [a s'|r s'| |]; [by apply Hk|done..].
Qed.

Lemma keeps_Next {S R A} (P : S -> Prop) (m : stmt S R A) s a s' : keeps P m -> P s -> m s = Next a s' -> P s'.
Proof. intros Hk Hs E. specialize (Hk s Hs). by rewrite E in Hk. Qed.

Lemma keeps_get {S R} (P : S -> Prop) : keeps P (@get S R).
Proof. intros s Hs. exact Hs. Qed.

Lemma keeps_ret {S R A} (P : S -> Prop) (a : A) : keeps P (@ret S R A a).
Proof. intros s Hs. exact Hs. Qed.

Lemma keeps_return {S R A} (P : S -> Prop) (r : R) : keeps P (@return_ S R A r).
Proof. intros s Hs. exact Hs. Qed.

Lemma keeps_mem {S R A} (P : S -> Prop) (o : option A) : keeps P (@mem S R A o).
Proof. intros s Hs. by destruct o. Qed.

Lemma keeps_fault {S R A} (P : S -> Prop) : keeps P (fun _ => @Fault S R A).
Proof. done. Qed.

Lemma keeps_modify {S R} (P : S -> Prop) (f : S -> S) :
  (forall s, P s -> P (f s)) -> keeps P (@modify S R f).
Proof. intros Hf s Hs. by apply Hf. Qed.

Lemma keeps_fn {S R R'} P (m : stmt S R R) : keeps P m -> keeps P (@fn S R R' m).
Proof. intros Hm s Hs. specialize (Hm s Hs). unfold fn. by destruct (m s). Qed.

#[export] Hint Resolve keeps_get keeps_ret keeps_return keeps_mem keeps_fault : keeps.

Lemma cdiv_pos a b : 0 <= a -> 0 < b -> cdiv a b = Some (a / b).
Proof.
  intros Ha Hb. unfold cdiv. rewrite (proj2 (Z.eqb_neq b 0)) by lia.
  by rewrite Z.quot_div_nonneg.
Qed.

(** ** Lemmas on lists *)

Lemma Forall2_of_Forall {A B} (P : A -> Prop) (Q : B -> Prop) l k :
  Forall P l -> Forall Q k -> length l = length k -> Forall2 (fun a b => P a /\ Q b) l k.
Proof.
  intros Hl. revert k. induction Hl as [|a l Ha _ IH]; intros [|b k] Hk HL; try done.
  apply Forall_cons_1 in Hk as [Hb Hk]. constructor; [done|]. apply IH; [done|]. by injection HL.
Qed.

(** ** Lemmas on machine integers *)

Lemma u8_id z : is_u8 z -> u8 z = z.
Proof. intros. apply Z.mod_small. clia. Qed.

Lemma u16_id z : is_u16 z -> u16 z = z.
Proof. intros. apply Z.mod_small. clia. Qed.

Lemma u32_id z : is_u32 z -> u32 z = z.
Proof. intros. apply Z.mod_small. clia. Qed.

Lemma s16_id z : is_s16 z -> s16 z = z.
Proof. intros. unfold s16. rewrite Z.mod_small; clia. Qed.

Lemma s32_id z : is_s32 z -> s32 z = z.
Proof. intros. unfold s32. rewrite Z.mod_small; clia. Qed.

Lemma s64_id z : - 2 ^ 63 <= z < 2 ^ 63 -> s64 z = z.
Proof. intros Hz. unfold s64. rewrite Z.mod_small; lia. Qed.

Lemma u8_range z : is_u8 (u8 z).
Proof. apply Z.mod_pos_bound. lia. Qed.

Lemma u16_range z : is_u16 (u16 z).
Proof. apply Z.mod_pos_bound. lia. Qed.

Lemma u32_range z : is_u32 (u32 z).
Proof. apply Z.mod_pos_bound. lia. Qed.

Lemma s16_range z : is_s16 (s16 z).
Proof. unfold s16. pose proof (Z.mod_pos_bound (z + 2 ^ 15) (2 ^ 16)). clia. Qed.

Lemma s32_range z : is_s32 (s32 z).
Proof. unfold s32. pose proof (Z.mod_pos_bound (z + 2 ^ 31) (2 ^ 32)). clia. Qed.

#[export] Hint Resolve u8_range u16_range u32_range s16_range s32_range : cint.

(** The two ways an unsigned sum can wrap: the C idiom [s += a; if (s < a)]
    tests exactly for the carry. *)
Lemma u32_add_carry a b :
  is_u32 a -> is_u32 b ->
  (u32 (a + b) <? b) = true -> u32 (a + b) = a + b - 2 ^ 32 /\ 2 ^ 32 <= a + b.
Proof.
  intros Ha Hb E. apply Z.ltb_lt in E.
  assert (2 ^ 32 <= a + b) as Hc.
  { destruct (Z_lt_le_dec (a + b) (2 ^ 32)); [|done].
    rewrite u32_id in E; clia. }
  split; [|done]. unfold u32.
  rewrite <- (Z.mod_small (a + b - 2 ^ 32) (2 ^ 32)) by clia.
  rewrite <- (Z_mod_plus_full (a + b - 2 ^ 32) 1). f_equal. lia.
Qed.

Lemma u32_add_nocarry a b :
  is_u32 a -> is_u32 b ->
  (u32 (a + b) <? b) = false -> u32 (a + b) = a + b /\ a + b < 2 ^ 32.
Proof.
  intros Ha Hb E. apply Z.ltb_ge in E.
  destruct (Z_lt_le_dec (a + b) (2 ^ 32)).
  - split; [|done]. rewrite u32_id; clia.
  - exfalso. revert E. unfold u32.
    replace (a + b) with (a + b - 2 ^ 32 + 1 * 2 ^ 32) by lia.
    rewrite Z_mod_plus_full, Z.mod_small; clia.
Qed.

(** Shifts by constants as multiplications and divisions. *)
Lemma shiftr_div z n : 0 <= n -> Z.shiftr z n = z / 2 ^ n.
Proof. apply Z.shiftr_div_pow2. Qed.

Lemma shiftl_mul z n : 0 <= n -> Z.shiftl z n = z * 2 ^ n.
Proof. apply Z.shiftl_mul_pow2. Qed.

Lemma land_low16 z : Z.land z 0xFFFF = z mod 2 ^ 16.
Proof. change 0xFFFF with (Z.ones 16). apply Z.land_ones. lia. Qed.

Lemma land_low8 z : Z.land z 0xFF = z mod 2 ^ 8.
Proof. change 0xFF with (Z.ones 8). apply Z.land_ones. lia. Qed.

(** A mask of [n] ones from bit [k] on. *)
Lemma land_mask z k n :
  0 <= k -> 0 <= n -> Z.land z (Z.shiftl (Z.ones n) k) = (z / 2 ^ k) mod 2 ^ n * 2 ^ k.
Proof.
  intros Hk Hn. rewrite <- Z.shiftr_div_pow2, <- Z.land_ones, <- Z.shiftl_mul_pow2 by lia.
  apply Z.bits_inj'. intros i Hi. rewrite Z.land_spec, !Z.shiftl_spec by lia.
  destruct (Z_lt_le_dec i k).
  - rewrite !(Z.testbit_neg_r _ (i - k)) by lia. apply andb_false_r.
  - rewrite Z.land_spec, Z.shiftr_spec by lia. by replace (i - k + k) with i by lia.
Qed.

(** Bits below and above position [n] do not interact. *)
Lemma lor_disjoint a b n :
  0 <= n -> a mod 2 ^ n = 0 -> 0 <= b < 2 ^ n -> Z.lor a b = a + b.
Proof.
  intros Hn Ha Hb. assert (Z.land a b = 0) as E.
  { apply Z.bits_inj'. intros i Hi.
    rewrite Z.land_spec, Z.bits_0. destruct (Z_lt_le_dec i n).
    - rewrite <- (Z.mod_pow2_bits_low a n i), Ha, Z.bits_0 by lia. done.
    - rewrite <- (Z.mod_small b (2 ^ n)), Z.mod_pow2_bits_high by lia. apply andb_false_r. }
  rewrite Z.add_nocarry_lxor by done. symmetry. by apply Z.lxor_lor.
Qed.

(** The renormalisation test of both coders: no bit of the top byte is set. *)
Lemma land_top8 z : is_u32 z -> (Z.land z 0xFF000000 =? 0) = (z <? 2 ^ 24).
Proof.
  intros Hz. change 0xFF000000 with (Z.shiftl (Z.ones 8) 24).
  rewrite land_mask by lia. change (2 ^ 8) with 256.
  destruct (Z.ltb_spec z (2 ^ 24)).
  - rewrite Z.div_small by clia. done.
  - apply Z.eqb_neq. dmlia.
Qed.
