(* ===== verification/ArithSpec.v ===== *)
(** * Specification of the arithmetic coder

    What the range coders of iSAC compute, on unbounded integers. The coder
    holds an interval of code values [low, low + rng], counted in units of the
    byte position [nb + 4], where [nb] bytes have left the 32-bit window. A
    symbol with cumulative frequencies [lo, hi] (out of 65536) narrows the
    interval; renormalisation moves whole bytes out of the window. A stream of
    bytes belongs to the interval when its first [nb + 4] bytes, read as a
    big-endian number, lie in it. The two implementations, with 16-bit words
    ([IsacFixArith]) and with bytes ([IsacMainArith]), refine this one. *)

From S2P Require Import Prelude.

(** ** Byte streams as numbers *)

(** The first [m] bytes of a stream as a big-endian number. *)
Fixpoint pre (bs : nat -> Z) (m : nat) : Z :=
  match m with
  | O => 0
  | S k => pre bs k * 256 + bs k
  end.

Definition is_bytes (bs : nat -> Z) : Prop := forall i, 0 <= bs i < 256.

(** ** The coder *)

Record ac := AC { low : Z; rng : Z; nb : nat }.

Definition ac_init : ac := AC 0 (2 ^ 32 - 1) 0.

Definition scale (w c : Z) : Z := w * c / 65536.

Definition narrow (a : ac) (iv : Z * Z) : ac :=
  AC (low a + scale (rng a) iv.1 + 1)
     (scale (rng a) iv.2 - scale (rng a) iv.1 - 1) (nb a).

(** The number of bytes that leave the window. *)
Definition nshift (w : Z) : nat :=
  if 2 ^ 24 <=? w then 0
  else if 2 ^ 16 <=? w then 1
  else if 2 ^ 8 <=? w then 2 else 3.

Definition shift (k : nat) (a : ac) : ac :=
  AC (low a * 256 ^ Z.of_nat k) (rng a * 256 ^ Z.of_nat k) (nb a + k).

Definition renorm (a : ac) : ac := shift (nshift (rng a)) a.

Definition step (a : ac) (iv : Z * Z) : ac := renorm (narrow a iv).

Definition steps (a : ac) (ivs : list (Z * Z)) : ac := foldl step a ivs.

(** The number of bytes of a finished stream, and those bytes as a number. *)
Definition final_len (a : ac) : nat :=
  if 0x01FFFFFF <? rng a then nb a + 1 else nb a + 2.

Definition final_val (a : ac) : Z :=
  if 0x01FFFFFF <? rng a then (low a + 2 ^ 24) / 2 ^ 24
  else (low a + 2 ^ 16) / 2 ^ 16.

(** ** Well-formed states, intervals and membership *)

Definition ac_ok (a : ac) : Prop :=
  0 <= low a /\ 2 ^ 24 <= rng a < 2 ^ 32 /\
  low a + rng a < 256 ^ Z.of_nat (nb a + 4).

Definition iv_ok (iv : Z * Z) : Prop := 0 <= iv.1 /\ iv.1 < iv.2 /\ iv.2 < 65536.

Definition contains (a : ac) (bs : nat -> Z) : Prop :=
  low a <= pre bs (nb a + 4) <= low a + rng a.

(** The stream's position inside the interval: what a decoder holds. *)
Definition offset (a : ac) (bs : nat -> Z) : Z := pre bs (nb a + 4) - low a.

(** ** Lemmas *)

Lemma pre_S bs k : pre bs (S k) = pre bs k * 256 + bs k.
Proof. done. Qed.

Lemma pre_add bs m k :
  is_bytes bs ->
  exists r, 0 <= r < 256 ^ Z.of_nat k /\ pre bs (m + k) = pre bs m * 256 ^ Z.of_nat k + r.
Proof.
  intros Hb. induction k as [|k IH].
  - exists 0. rewrite Nat.add_0_r. simpl. lia.
  - destruct IH as (r & Hr & E). exists (r * 256 + bs (m + k)%nat).
    rewrite Nat.add_succ_r. simpl pre. rewrite E, Nat2Z.inj_succ, Z.pow_succ_r by lia.
    specialize (Hb (m + k)%nat). nia.
Qed.

Lemma pre_range bs m : is_bytes bs -> 0 <= pre bs m < 256 ^ Z.of_nat m.
Proof. intros Hb. destruct (pre_add bs 0 m Hb) as (r & Hr & E). simpl in E. lia. Qed.

Lemma pre_ext bs bs' m :
  (forall i, (i < m)%nat -> bs i = bs' i) -> pre bs m = pre bs' m.
Proof.
  intros E. induction m as [|m IH]; [done|]. simpl.
  rewrite IH by (intros; apply E; lia). rewrite E by lia. done.
Qed.

Lemma pow256_pos k : 0 < 256 ^ Z.of_nat k.
Proof. apply Z.pow_pos_nonneg; lia. Qed.

Lemma pow256_S k : 256 ^ Z.of_nat (S k) = 256 ^ Z.of_nat k * 256.
Proof. rewrite Nat2Z.inj_succ, Z.pow_succ_r by lia. lia. Qed.

#[export] Hint Resolve pow256_pos : cint.

Lemma scale_mono w c c' : 0 <= w -> c <= c' -> scale w c <= scale w c'.
Proof. intros. apply Z.div_le_mono; nia. Qed.

Lemma scale_nonneg w c : 0 <= w -> 0 <= c -> 0 <= scale w c.
Proof. intros. apply Z.div_pos; nia. Qed.

Lemma scale_le w c : 0 <= w -> 0 <= c < 65536 -> scale w c <= w.
Proof. intros. apply Z.div_le_upper_bound; nia. Qed.

(** The product the coders compute on the two halves of the width. *)
Lemma scale_split w c : w / 65536 * c + w mod 65536 * c / 65536 = scale w c.
Proof.
  unfold scale. pose proof (Z_div_mod_eq_full w 65536) as E.
  replace (w * c) with (w / 65536 * c * 65536 + w mod 65536 * c) by nia.
  by rewrite Z.div_add_l by lia.
Qed.

(** Distinct frequencies are at least 256 code values apart. *)
Lemma scale_gap w c c' :
  2 ^ 24 <= w -> 0 <= c -> c < c' -> scale w c + 256 <= scale w c'.
Proof.
  intros Hw Hc Hcc. unfold scale.
  rewrite <- (Z.div_add (w * c) 256 65536) by lia.
  apply Z.div_le_mono; [lia|]. change (2 ^ 24) with (256 * 65536) in Hw. nia.
Qed.

Lemma scale_lt_inv w c c' : 0 <= w -> scale w c < scale w c' -> c < c'.
Proof.
  intros Hw Hlt. destruct (Z_lt_le_dec c c'); [done|].
  pose proof (scale_mono w c' c Hw ltac:(lia)). lia.
Qed.

(** The same on machine words: no intermediate result wraps. *)
Lemma scale_words w c :
  is_u32 w -> 0 <= c < 65536 ->
  u32 (u32 (Z.shiftr w 16 * c) + Z.shiftr (u32 (Z.land w 0xFFFF * c)) 16) = scale w c.
Proof.
  intros Hw Hc. rewrite land_low16, !shiftr_div by lia. change (2 ^ 16) with 65536.
  pose proof (scale_split w c). pose proof (scale_le w c).
  assert (0 <= w mod 65536 < 65536) by (apply Z.mod_pos_bound; lia).
  assert (0 <= w / 65536 < 65536) by dmlia.
  rewrite (u32_id (w mod 65536 * c)) by (widths; nia).
  rewrite (u32_id (w / 65536 * c)) by (widths; nia).
  pose proof (scale_nonneg w c). rewrite scale_split. apply u32_id. clia.
Qed.

Lemma nshift_spec w :
  1 <= w < 2 ^ 32 -> 2 ^ 24 <= w * 256 ^ Z.of_nat (nshift w) < 2 ^ 32.
Proof.
  intros Hw. unfold nshift. repeat bcase; widths;
    match goal with |- context [256 ^ ?e] =>
      let v := eval compute in (256 ^ e) in change (256 ^ e) with v end; lia.
Qed.

Lemma nshift_small w : w < 2 ^ 24 -> 1 <= w -> nshift w = S (nshift (w * 256)).
Proof. intros. unfold nshift. repeat bcase; widths; try lia. Qed.

Lemma nshift_big w : 2 ^ 24 <= w -> nshift w = 0%nat.
Proof. intros. unfold nshift. bcase; lia. Qed.

Lemma renorm_big a : 2 ^ 24 <= rng a -> renorm a = a.
Proof.
  intros. unfold renorm. rewrite nshift_big by done. destruct a. unfold shift. simpl.
  f_equal; lia.
Qed.

Lemma renorm_shift1 a : 1 <= rng a < 2 ^ 24 -> renorm (shift 1 a) = renorm a.
Proof.
  intros. unfold renorm. rewrite (nshift_small (rng a)) by lia.
  unfold shift. cbn [low rng nb]. change (256 ^ Z.of_nat 1) with 256.
  rewrite pow256_S. f_equal; lia.
Qed.

Lemma narrow_ok a iv :
  ac_ok a -> iv_ok iv ->
  low a < low (narrow a iv) /\ 255 <= rng (narrow a iv) <= rng a /\
  low (narrow a iv) + rng (narrow a iv) <= low a + rng a.
Proof.
  intros (Hl & Hr & Hs) (H1 & H2 & H3). simpl.
  pose proof (scale_gap (rng a) iv.1 iv.2 ltac:(lia) ltac:(lia) ltac:(lia)).
  pose proof (scale_nonneg (rng a) iv.1 ltac:(lia) ltac:(lia)).
  pose proof (scale_le (rng a) iv.2 ltac:(lia) ltac:(lia)). lia.
Qed.

Lemma shift_bound l r k n :
  0 <= l -> 0 <= r -> l + r < 256 ^ Z.of_nat (n + 4) ->
  l * 256 ^ Z.of_nat k + r * 256 ^ Z.of_nat k < 256 ^ Z.of_nat (n + k + 4).
Proof.
  intros. replace (n + k + 4)%nat with (n + 4 + k)%nat by lia.
  rewrite (Nat2Z.inj_add (n + 4) k), Z.pow_add_r by lia.
  pose proof (pow256_pos k). nia.
Qed.

Lemma step_ok a iv : ac_ok a -> iv_ok iv -> ac_ok (step a iv).
Proof.
  intros Ha Hiv. pose proof (narrow_ok a iv Ha Hiv) as (Hl & Hr & Hs).
  destruct Ha as (Hl0 & Hr0 & Hs0). unfold step, renorm, ac_ok.
  pose proof (nshift_spec (rng (narrow a iv)) ltac:(lia)).
  pose proof (pow256_pos (nshift (rng (narrow a iv)))).
  split_and!.
  - apply Z.mul_nonneg_nonneg; lia.
  - simpl in *; lia.
  - simpl in *; lia.
  - apply shift_bound; [lia|lia|]. simpl in *. lia.
Qed.

Lemma steps_ok a ivs : ac_ok a -> Forall iv_ok ivs -> ac_ok (steps a ivs).
Proof.
  intros Ha Hivs. revert a Ha. induction Hivs as [|iv ivs Hiv _ IH]; intros a Ha; [done|].
  apply IH. by apply step_ok.
Qed.

Lemma ac_init_ok : ac_ok ac_init.
Proof. split_and!; done. Qed.

Lemma contains_shift k a bs :
  is_bytes bs -> contains (shift k a) bs -> contains a bs.
Proof.
  intros Hb [H1 H2]. unfold shift, contains in *; simpl in *.
  destruct (pre_add bs (nb a + 4) k Hb) as (r & Hr & E).
  replace (nb a + k + 4)%nat with (nb a + 4 + k)%nat in * by lia.
  rewrite E in *. pose proof (pow256_pos k). nia.
Qed.

Lemma contains_narrow a iv bs :
  ac_ok a -> iv_ok iv -> contains (narrow a iv) bs ->
  contains a bs /\ scale (rng a) iv.1 < offset a bs <= scale (rng a) iv.2.
Proof.
  intros Ha Hiv. pose proof (narrow_ok a iv Ha Hiv).
  unfold contains, offset. simpl in *. lia.
Qed.

Lemma contains_step a iv bs :
  is_bytes bs -> ac_ok a -> iv_ok iv -> contains (step a iv) bs ->
  contains (narrow a iv) bs /\ contains a bs /\
  scale (rng a) iv.1 < offset a bs <= scale (rng a) iv.2.
Proof.
  intros Hb Ha Hiv Hc. apply contains_shift in Hc; [|done].
  split; [done|]. by apply contains_narrow.
Qed.

Lemma contains_steps a ivs bs :
  is_bytes bs -> ac_ok a -> Forall iv_ok ivs -> contains (steps a ivs) bs -> contains a bs.
Proof.
  intros Hb Ha Hivs. revert a Ha. induction Hivs as [|iv ivs Hiv _ IH]; intros a Ha Hc; [done|].
  apply IH in Hc; [|by apply step_ok]. by apply contains_step in Hc as (_ & ? & _).
Qed.

Lemma steps_app a ivs ivs' : steps a (ivs ++ ivs') = steps (steps a ivs) ivs'.
Proof. apply foldl_app. Qed.

(** A stream that starts with the bytes of a finished encoding belongs to the
    encoder's interval, whatever follows them. *)
Lemma final_contains a bs :
  ac_ok a -> is_bytes bs -> pre bs (final_len a) = final_val a -> contains a bs.
Proof.
  intros (Hl & Hr & Hs) Hb. unfold final_len, final_val, contains. bcase; intros Hp.
  - destruct (pre_add bs (nb a + 1) 3 Hb) as (r & Hr' & E').
    replace (nb a + 1 + 3)%nat with (nb a + 4)%nat in E' by lia.
    rewrite E', Hp. change (256 ^ Z.of_nat 3) with 16777216 in *. dmlia.
  - destruct (pre_add bs (nb a + 2) 2 Hb) as (r & Hr' & E').
    replace (nb a + 2 + 2)%nat with (nb a + 4)%nat in E' by lia.
    rewrite E', Hp. change (256 ^ Z.of_nat 2) with 65536 in *. dmlia.
Qed.

(** ** Symbols *)

(** A cumulative frequency table: 16-bit entries in nondecreasing order. *)
Definition cdf_ok (cdf : list Z) : Prop :=
  (forall i c, cdf !! i = Some c -> 0 <= c < 65536) /\
  (forall i j c d, (i <= j)%nat -> cdf !! i = Some c -> cdf !! j = Some d -> c <= d).

(** The table has a symbol [s] of positive frequency, and its interval. *)
Definition sym_iv (cdf : list Z) (s : nat) (iv : Z * Z) : Prop :=
  cdf !! s = Some iv.1 /\ cdf !! S s = Some iv.2 /\ iv.1 < iv.2.

Lemma sym_iv_ok cdf s iv : cdf_ok cdf -> sym_iv cdf s iv -> iv_ok iv.
Proof.
  intros [Hr _] (H1 & H2 & Hlt). apply Hr in H1 as ?. apply Hr in H2 as ?.
  unfold iv_ok. lia.
Qed.

(** At most one symbol's interval holds a given code value. *)
Lemma sym_unique cdf w x s s' iv iv' :
  cdf_ok cdf -> 0 <= w ->
  sym_iv cdf s iv -> sym_iv cdf s' iv' ->
  scale w iv.1 < x <= scale w iv.2 -> scale w iv'.1 < x <= scale w iv'.2 -> s = s'.
Proof.
  intros [_ Hm] Hw (A1 & A2 & _) (B1 & B2 & _) Hx Hx'.
  destruct (Nat.lt_trichotomy s s') as [?|[?|?]]; [|done|].
  - assert (S s <= s')%nat as Hle by lia.
    pose proof (scale_mono w _ _ Hw (Hm _ _ _ _ Hle A2 B1)). lia.
  - assert (S s' <= s)%nat as Hle by lia.
    pose proof (scale_mono w _ _ Hw (Hm _ _ _ _ Hle B2 A1)). lia.
Qed.

(** A table entry is above the code value exactly from the symbol on. *)
Lemma sym_compare cdf w x s iv i c :
  cdf_ok cdf -> 0 <= w -> sym_iv cdf s iv ->
  scale w iv.1 < x <= scale w iv.2 -> cdf !! i = Some c ->
  (i <= s)%nat <-> scale w c < x.
Proof.
  intros [_ Hm] Hw (A1 & A2 & _) Hx Hi. split; intros H.
  - pose proof (scale_mono w _ _ Hw (Hm _ _ _ _ H Hi A1)). lia.
  - destruct (le_lt_dec i s); [done|].
    assert (S s <= i)%nat as Hsi by lia.
    pose proof (scale_mono w _ _ Hw (Hm _ _ _ _ Hsi A2 Hi)). lia.
Qed.

(** ** Checking tables *)

Fixpoint ascending (le : Z -> Z -> bool) (l : list Z) : bool :=
  match l with
  | a :: (b :: _) as l' => le a b && ascending le l'
  | _ => true
  end.

Definition cdf_okb (cdf : list Z) : bool :=
  forallb (fun c => (0 <=? c) && (c <? 65536)) cdf && ascending Z.leb cdf.

(** Every symbol of the table has a positive frequency. *)
Definition cdf_denseb (cdf : list Z) : bool :=
  forallb (fun c => (0 <=? c) && (c <? 65536)) cdf && ascending Z.ltb cdf.

Lemma ascending_lookup le l i c d :
  ascending le l = true -> l !! i = Some c -> l !! S i = Some d -> le c d = true.
Proof.
  revert i. induction l as [|a l IH]; intros i Ha Hc Hd; [done|].
  destruct l as [|b l]; [by destruct i|]. cbn [ascending] in Ha. apply andb_true_iff in Ha as [H1 H2].
  destruct i as [|i]; [by simplify_eq/=|]. by apply (IH i).
Qed.

Lemma ascending_mono l i j c d :
  ascending Z.leb l = true -> (i <= j)%nat -> l !! i = Some c -> l !! j = Some d -> c <= d.
Proof.
  intros Ha Hij Hc. revert d. induction Hij as [|j Hij IH]; intros d Hd; [by simplify_eq|].
  destruct (lookup_lt_is_Some_2 l j) as [e Ee]; [apply lookup_lt_Some in Hd; lia|].
  specialize (IH e Ee). pose proof (ascending_lookup _ _ _ _ _ Ha Ee Hd) as H%Z.leb_le. lia.
Qed.

Lemma cdf_okb_ok cdf : cdf_okb cdf = true -> cdf_ok cdf.
Proof.
  intros [H1 H2]%andb_true_iff. split.
  - intros i c Hc. rewrite forallb_forall in H1. apply list_elem_of_lookup_2, list_elem_of_In in Hc.
    apply H1 in Hc. lia.
  - intros i j c d Hij Hc Hd. by eapply ascending_mono.
Qed.

Lemma ascending_weaken l : ascending Z.ltb l = true -> ascending Z.leb l = true.
Proof.
  induction l as [|a [|b l] IH]; try done. cbn [ascending].
  intros [H1 H2]%andb_true_iff. apply andb_true_iff. split; [lia|by apply IH].
Qed.

Lemma cdf_denseb_okb cdf : cdf_denseb cdf = true -> cdf_okb cdf = true.
Proof.
  intros [H1 H2]%andb_true_iff. apply andb_true_iff. split; [done|by apply ascending_weaken].
Qed.

Lemma cdf_denseb_sym cdf n :
  cdf_denseb cdf = true -> (S n < length cdf)%nat -> exists iv, sym_iv cdf n iv.
Proof.
  intros [_ H2]%andb_true_iff Hn.
  destruct (lookup_lt_is_Some_2 cdf n ltac:(lia)) as [c Ec].
  destruct (lookup_lt_is_Some_2 cdf (S n) Hn) as [d Ed].
  exists (c, d). split_and!; [done|done|]. apply Z.ltb_lt. by eapply ascending_lookup.
Qed.
