(* ===== verification/Spl.v ===== *)
(** * Interface of the signal processing library

    The codecs call macros and functions of
    [common_audio/signal_processing/include/signal_processing_library.h], a
    directory that is not part of this source tree. They are operations of the
    class [SplOps]; what the codecs rely on, on the operand ranges they use, is
    the class [SplLaws]. [spl_ref] is a concrete implementation of both. *)

From S2P Require Import Prelude.

Class SplOps := {
  spl_umul : Z -> Z -> Z;          (* WEBRTC_SPL_UMUL *)
  spl_umul_32_16 : Z -> Z -> Z;    (* WEBRTC_SPL_UMUL_32_16 *)
  spl_rshift_u32 : Z -> Z -> Z;    (* WEBRTC_SPL_RSHIFT_U32 *)
  spl_mul : Z -> Z -> Z;           (* WEBRTC_SPL_MUL *)
  spl_mul_16_u16 : Z -> Z -> Z;    (* WEBRTC_SPL_MUL_16_U16 *)
  spl_sat : Z -> Z -> Z -> Z;      (* WEBRTC_SPL_SAT(max, x, min) *)
  spl_shift_w32 : Z -> Z -> Z;     (* WEBRTC_SPL_SHIFT_W32 *)
  spl_mul_16_32_rsft11 : Z -> Z -> Z; (* WEBRTC_SPL_MUL_16_32_RSFT11 *)
  spl_get_size_in_bits : Z -> Z;   (* WebRtcSpl_GetSizeInBits *)
  spl_div_w32_w16 : Z -> Z -> Z;   (* WebRtcSpl_DivW32W16 *)
}.

Class SplLaws `{SplOps} := {
  spl_umul_spec a b : is_u32 a -> is_u32 b -> spl_umul a b = u32 (a * b);
  spl_umul_32_16_spec a b : is_u32 a -> is_u16 b -> spl_umul_32_16 a b = u32 (a * b);
  spl_rshift_u32_spec a n : is_u32 a -> 0 <= n < 32 -> spl_rshift_u32 a n = a / 2 ^ n;
  spl_mul_spec a b : is_s32 a -> is_s32 b -> is_s32 (a * b) -> spl_mul a b = a * b;
  spl_mul_16_u16_spec a b : is_s16 a -> is_u16 b -> spl_mul_16_u16 a b = a * b;
  spl_sat_spec hi x lo : lo <= hi -> spl_sat hi x lo = Z.max lo (Z.min hi x);
  spl_shift_w32_left x n : 0 <= n < 32 -> is_s32 (x * 2 ^ n) -> spl_shift_w32 x n = x * 2 ^ n;
  spl_shift_w32_right x n : -32 < n < 0 -> is_s32 x -> spl_shift_w32 x n = x / 2 ^ (- n);
  spl_get_size_in_bits_spec n :
    0 < n < 2 ^ 32 ->
    2 ^ (spl_get_size_in_bits n - 1) <= n < 2 ^ spl_get_size_in_bits n;
  spl_get_size_in_bits_0 : spl_get_size_in_bits 0 = 0;
  spl_div_w32_w16_spec a b : is_s32 a -> is_s16 b -> b <> 0 -> spl_div_w32_w16 a b = Z.quot a b;
}.

(** ** A concrete implementation *)

#[export] Instance spl_ref : SplOps := {
  spl_umul a b := u32 (u32 a * u32 b);
  spl_umul_32_16 a b := u32 (u32 a * u16 b);
  spl_rshift_u32 a n := Z.shiftr (u32 a) n;
  spl_mul a b := s32 (s32 a * s32 b);
  spl_mul_16_u16 a b := s32 (s16 a * u16 b);
  spl_sat hi x lo := if hi <? x then hi else if x <? lo then lo else x;
  spl_shift_w32 x n := if 0 <=? n then s32 (Z.shiftl x n) else Z.shiftr x (- n);
  spl_mul_16_32_rsft11 a b := s32 (Z.shiftr (s16 a * s32 b) 11);
  spl_get_size_in_bits n := if n =? 0 then 0 else Z.log2 n + 1;
  spl_div_w32_w16 a b := if b =? 0 then 0x7FFFFFFF else Z.quot a b;
}.

#[export] Instance spl_ref_laws : SplLaws.
Proof.
  split; simpl.
  - intros a b Ha Hb. by rewrite (u32_id a), (u32_id b).
  - intros a b Ha Hb. by rewrite (u32_id a), (u16_id b).
  - intros a n Ha Hn. rewrite u32_id by done. apply shiftr_div. lia.
  - intros a b Ha Hb Hab. by rewrite (s32_id a), (s32_id b), s32_id.
  - intros a b Ha Hb. rewrite s16_id, u16_id by done. apply s32_id. widths. nia.
  - intros hi x lo H. repeat bcase; lia.
  - intros x n Hn Hx. rewrite (proj2 (Z.leb_le 0 n)), shiftl_mul by lia. by apply s32_id.
  - intros x n Hn Hx. rewrite (proj2 (Z.leb_gt 0 n)), shiftr_div; first [lia | done].
  - intros n Hn. rewrite (proj2 (Z.eqb_neq n 0)) by lia.
    pose proof (Z.log2_spec n ltac:(lia)). rewrite Z.add_simpl_r. unfold Z.succ in *. lia.
  - done.
  - intros a b Ha Hb Hn. by rewrite (proj2 (Z.eqb_neq b 0)).
Qed.
