(* ===== verification/IsacFixArith.v ===== *)
(** * Arithmetic encoder of iSAC fixed point

    [isac/fix/source/arith_routines_hist.c] (encoder) and
    [isac/fix/source/arith_routines.c]: the encoder's bit stream structure
    [Bitstr_enc], the interval update with its carry propagation and
    renormalisation, [WebRtcIsacfix_EncHistMulti] and
    [WebRtcIsacfix_EncTerminate], and the proof that they refine [ArithSpec]. *)

From S2P Require Import Prelude Spl ArithSpec.

Open Scope c_scope.

#[local] Arguments Nat.mul : simpl never.
#[local] Arguments Nat.add : simpl never.
#[local] Arguments Z.mul : simpl never.
#[local] Arguments pre : simpl never.

(** ** Data *)

Definition STREAM_MAXW16_60MS : nat := 200.
Definition ISAC_DISALLOWED_BITSTREAM_LENGTH : Z := 6440.

(** [full = 0]: the first byte of the word at [stream_index] is filled, the
    second is empty; [full = 1]: both are empty. *)
Record Bitstr_enc := mkBitstr_enc {
  e_stream : list Z;
  e_W_upper : Z;
  e_streamval : Z;
  e_stream_index : Z;
  e_full : Z;
}.

(** The state [WebRtcIsacfix_EncodeImpl] starts a frame from. *)
Definition enc_reset (s : Bitstr_enc) : Bitstr_enc :=
  mkBitstr_enc (e_stream s) 0xFFFFFFFF 0 0 1.

Definition set_stream (l : list Z) (s : Bitstr_enc) : Bitstr_enc :=
  mkBitstr_enc l (e_W_upper s) (e_streamval s) (e_stream_index s) (e_full s).
Definition set_streamval (v : Z) (s : Bitstr_enc) : Bitstr_enc :=
  mkBitstr_enc (e_stream s) (e_W_upper s) v (e_stream_index s) (e_full s).
Definition set_full (f : Z) (s : Bitstr_enc) : Bitstr_enc :=
  mkBitstr_enc (e_stream s) (e_W_upper s) (e_streamval s) (e_stream_index s) f.

(** ** Operations *)

(** [while (!(++( *--ptr)))]: increment the words before [ptr] until one does
    not wrap. Decrementing a pointer to the first word leaves the buffer. *)
Fixpoint inc_prev (ptr : nat) (l : list Z) : option (list Z) :=
  match ptr with
  | O => None
  | S q =>
      match l !! q with
      | None => None
      | Some w =>
          let w' := u16 (w + 1) in
          let l' := <[q:=w']> l in
          if w' =? 0 then inc_prev q l' else Some l'
      end
  end.

(** The carry into the bytes already written. *)
Definition propagate_carry (ptr : nat) (full : Z) (l : list Z) : option (list Z) :=
  if full =? 0 then
    match l !! ptr with
    | None => None
    | Some w =>
        let negCarry := u16 (w + 0x0100) in
        let l' := <[ptr:=negCarry]> l in
        if negCarry =? 0 then inc_prev ptr l' else Some l'
    end
  else inc_prev ptr l.

(** [streamval += v; if (streamval < v)] propagate the carry. *)
Definition add_streamval (ptr : nat) (v : Z) : stmt Bitstr_enc Z unit :=
  let! s := get in
  let sv := u32 (e_streamval s + v) in
  if sv <? v then
    let! l := mem (propagate_carry ptr (e_full s) (e_stream s)) in
    put (set_stream l (set_streamval sv s))
  else put (set_streamval sv s).

(** Move the top byte of [streamval] to the stream; the result is the new
    stream pointer. *)
Definition put_byte (ptr : nat) : stmt Bitstr_enc Z nat :=
  let! s := get in
  if e_full s =? 0 then
    let! w := mem (e_stream s !! ptr) in
    let! l := mem (store (e_stream s) ptr (u16 (w + u16 (Z.shiftr (e_streamval s) 24)))) in
    put (set_full 1 (set_stream l s)) ;; ret (S ptr)
  else
    let! l := mem (store (e_stream s) ptr
                     (u16 (Z.shiftl (Z.shiftr (e_streamval s) 24) 8))) in
    put (set_full 0 (set_stream l s)) ;; ret ptr.

(** The renormalisation loop, with the length check of the stream. *)
Fixpoint enc_renorm (fuel : nat) (ptr : nat) (W_upper : Z) : stmt Bitstr_enc Z (nat * Z) :=
  match fuel with
  | O => fun _ => Spin
  | S fuel' =>
      if Z.land W_upper 0xFF000000 =? 0 then
        let W_upper := u32 (Z.shiftl W_upper 8) in
        let! ptr := put_byte ptr in
        if bool_decide (STREAM_MAXW16_60MS - 1 < ptr)%nat
        then return_ (- ISAC_DISALLOWED_BITSTREAM_LENGTH)
        else
          let! s := get in
          put (set_streamval (u32 (Z.shiftl (e_streamval s) 8)) s) ;;
          enc_renorm fuel' ptr W_upper
      else ret (ptr, W_upper)
  end.

(** Each iteration fills one byte and the loop returns when 400 are filled. *)
Definition renorm_fuel : nat := 401.

Section enc.
Context `{SplOps}.

(** The interval update: the new lower end and the new width. *)
Definition enc_interval (W_upper cdfLo cdfHi : Z) : Z * Z :=
  let W_upper_LSB := Z.land W_upper 0x0000FFFF in
  let W_upper_MSB := Z.shiftr W_upper 16 in
  let W_lower := spl_umul W_upper_MSB cdfLo in
  let W_lower := u32 (W_lower + Z.shiftr (u32 (W_upper_LSB * cdfLo)) 16) in
  let W_upper := spl_umul W_upper_MSB cdfHi in
  let W_upper := u32 (W_upper + Z.shiftr (u32 (W_upper_LSB * cdfHi)) 16) in
  let W_lower := u32 (W_lower + 1) in
  (W_lower, u32 (W_upper - W_lower)).

(** One symbol with cumulative frequencies [cdfLo] and [cdfHi]. *)
Definition enc_symbol (ptr : nat) (W_upper cdfLo cdfHi : Z) : stmt Bitstr_enc Z (nat * Z) :=
  let '(W_lower, W_upper) := enc_interval W_upper cdfLo cdfHi in
  add_streamval ptr W_lower ;;
  enc_renorm renorm_fuel ptr W_upper.

Fixpoint EncHistMulti_loop (k : nat) (data : list Z) (cdf : list (list Z))
    (ptr : nat) (W_upper : Z) : stmt Bitstr_enc Z (nat * Z) :=
  match k with
  | O => ret (ptr, W_upper)
  | S k' =>
      match data, cdf with
      | d :: data', c :: cdf' =>
          let! cdfLo := mem (zget c d) in
          let! cdfHi := mem (zget c (d + 1)) in
          let! r := enc_symbol ptr W_upper cdfLo cdfHi in
          EncHistMulti_loop k' data' cdf' r.1 r.2
      | _, _ => fun _ => Fault
      end
  end.

(** The end of both multi-symbol encoders: store the locals and return 0. *)
Definition enc_finish (ptr : nat) (W_upper : Z) : stmt Bitstr_enc Z Z :=
  let! s := get in
  put (mkBitstr_enc (e_stream s) W_upper (e_streamval s) (u16 (Z.of_nat ptr)) (e_full s)) ;;
  ret 0.

Definition WebRtcIsacfix_EncHistMulti {R} (data : list Z) (cdf : list (list Z))
    (lenData : Z) : stmt Bitstr_enc R Z :=
  fn (let! s := get in
      let! r := EncHistMulti_loop (Z.to_nat lenData) data cdf
                  (Z.to_nat (e_stream_index s)) (e_W_upper s) in
      enc_finish r.1 r.2).

End enc.

(** The one-byte ending. *)
Definition terminate_one (streamPtr : nat) : stmt Bitstr_enc Z nat :=
  add_streamval streamPtr 0x01000000 ;;
  put_byte streamPtr.

(** The two-byte ending. *)
Definition terminate_two (streamPtr : nat) : stmt Bitstr_enc Z nat :=
  add_streamval streamPtr 0x00010000 ;;
  let! s := get in
  if negb (e_full s =? 0) then
    let! l := mem (store (e_stream s) streamPtr (u16 (Z.shiftr (e_streamval s) 16))) in
    put (set_stream l s) ;; ret (S streamPtr)
  else
    let! w := mem (e_stream s !! streamPtr) in
    let! l := mem (store (e_stream s) streamPtr
                     (Z.lor w (u16 (Z.shiftr (e_streamval s) 24)))) in
    let! l := mem (store l (S streamPtr)
                     (Z.land (u16 (Z.shiftr (e_streamval s) 8)) 0xFF00)) in
    put (set_stream l s) ;; ret (S streamPtr).

(** Finish the stream with the fewest bytes that determine the interval. *)
Definition WebRtcIsacfix_EncTerminate {R} : stmt Bitstr_enc R Z :=
  fn (let! s := get in
      let streamPtr := Z.to_nat (e_stream_index s) in
      let! streamPtr :=
        (if 0x01FFFFFF <? e_W_upper s then terminate_one streamPtr
         else terminate_two streamPtr) in
      let! s := get in
      ret (s16 (Z.shiftl (Z.of_nat streamPtr) 1 + (if e_full s =? 0 then 1 else 0)))).

(** ** The bytes of a word buffer *)

Definition wbyte (l : list Z) (i : nat) : Z :=
  match l !! (i / 2)%nat with
  | Some w => if Nat.even i then w / 256 else w mod 256
  | None => 0
  end.

Lemma wbyte_bytes l : Forall is_u16 l -> is_bytes (wbyte l).
Proof.
  intros Hl i. unfold wbyte. destruct (l !! (i / 2)%nat) as [w|] eqn:E; [|lia].
  apply (Forall_lookup_1 _ _ _ _ Hl) in E. destruct (Nat.even i); dmlia.
Qed.

Lemma wbyte_even l p w : l !! p = Some w -> wbyte l (2 * p) = w / 256.
Proof.
  intros E. unfold wbyte. rewrite (Nat.mul_comm 2 p), Nat.div_mul, E by lia.
  rewrite Nat.mul_comm, Nat.even_mul. done.
Qed.

Lemma wbyte_odd l p w : l !! p = Some w -> wbyte l (2 * p + 1) = w mod 256.
Proof.
  intros E. unfold wbyte.
  replace ((2 * p + 1) / 2)%nat with p by (apply (Nat.div_unique _ 2 p 1); lia).
  rewrite E, Nat.even_add, Nat.even_mul. done.
Qed.

Lemma pre_word1 l p w : l !! p = Some w ->
  pre (wbyte l) (2 * p + 1) = pre (wbyte l) (2 * p) * 256 + w / 256.
Proof. intros E. rewrite Nat.add_1_r, pre_S. by rewrite (wbyte_even _ _ _ E). Qed.

Lemma pre_word2 l p w : l !! p = Some w ->
  pre (wbyte l) (2 * p + 2) = pre (wbyte l) (2 * p) * 65536 + w.
Proof.
  intros E. replace (2 * p + 2)%nat with (S (2 * p + 1)) by lia.
  rewrite pre_S, (wbyte_odd _ _ _ E), (pre_word1 _ _ _ E). dmlia.
Qed.

(** Words from the position on do not affect the bytes before it. *)
Lemma pre_same l l' m p :
  (m <= 2 * p)%nat -> (forall j, (j < p)%nat -> l !! j = l' !! j) ->
  pre (wbyte l) m = pre (wbyte l') m.
Proof.
  intros Hm E. apply pre_ext. intros i Hi. unfold wbyte. rewrite E; [done|].
  apply Nat.Div0.div_lt_upper_bound. lia.
Qed.

Lemma pre_insert l p v m :
  (m <= 2 * p)%nat -> pre (wbyte (<[p:=v]> l)) m = pre (wbyte l) m.
Proof. intros Hm. apply (pre_same _ _ _ p Hm). intros. apply list_lookup_insert_ne. lia. Qed.

Lemma pre_insert1 l p v : (p < length l)%nat ->
  pre (wbyte (<[p:=v]> l)) (2 * p + 1) = pre (wbyte l) (2 * p) * 256 + v / 256.
Proof.
  intros Hp. rewrite (pre_word1 _ p v), pre_insert by (lia || by apply list_lookup_insert_eq).
  done.
Qed.

Lemma pre_insert2 l p v : (p < length l)%nat ->
  pre (wbyte (<[p:=v]> l)) (2 * p + 2) = pre (wbyte l) (2 * p) * 65536 + v.
Proof.
  intros Hp. rewrite (pre_word2 _ p v), pre_insert by (lia || by apply list_lookup_insert_eq).
  done.
Qed.

Lemma store_some l i v : (i < length l)%nat -> store l i v = Some (<[i:=v]> l).
Proof. intros. unfold store. by rewrite decide_True. Qed.

(** ** Representation of the specification's state

    [erep s ptr a]: the buffer, the pending bytes and the pointer [ptr] of [s]
    stand for the interval that starts at [low a]. *)

Record erep (s : Bitstr_enc) (ptr : nat) (a : ac) : Prop := {
  erep_len : length (e_stream s) = STREAM_MAXW16_60MS;
  erep_u16 : Forall is_u16 (e_stream s);
  erep_ptr : (ptr < STREAM_MAXW16_60MS)%nat;
  erep_sv : is_u32 (e_streamval s);
  erep_full : e_full s = 0 \/ e_full s = 1;
  erep_nb : Z.of_nat (nb a) = 2 * Z.of_nat ptr + (1 - e_full s);
  erep_half : e_full s = 0 -> exists w, e_stream s !! ptr = Some w /\ w mod 256 = 0;
  erep_low : low a = pre (wbyte (e_stream s)) (nb a) * 2 ^ 32 + e_streamval s;
}.

Lemma pow256_word p : 256 ^ Z.of_nat (2 * S p) = 256 ^ Z.of_nat (2 * p) * 65536.
Proof.
  replace (2 * S p)%nat with (S (S (2 * p))) by lia. rewrite !pow256_S. lia.
Qed.

(** The carry loop adds one to the number the words before [ptr] spell; it
    stays inside the buffer exactly because that number is not maximal. *)
Lemma inc_prev_spec ptr l :
  Forall is_u16 l -> (ptr <= length l)%nat ->
  pre (wbyte l) (2 * ptr) + 1 < 256 ^ Z.of_nat (2 * ptr) ->
  exists l', inc_prev ptr l = Some l' /\ Forall is_u16 l' /\ length l' = length l /\
    pre (wbyte l') (2 * ptr) = pre (wbyte l) (2 * ptr) + 1 /\
    (forall j, (ptr <= j)%nat -> l' !! j = l !! j).
Proof.
  revert l. induction ptr as [|q IH]; intros l Hl Hlen Hlt; [cbv in Hlt; done|].
  destruct (lookup_lt_is_Some_2 l q ltac:(lia)) as [w Ew].
  pose proof (Forall_lookup_1 _ _ _ _ Hl Ew) as Hw. simpl inc_prev. rewrite Ew.
  rewrite pow256_word in Hlt.
  replace (2 * S q)%nat with (2 * q + 2)%nat in * by lia.
  rewrite (pre_word2 _ _ _ Ew) in *.
  set (l1 := <[q:=u16 (w + 1)]> l).
  assert (Hl1 : Forall is_u16 l1) by (apply Forall_insert; auto with cint).
  assert (E1 : l1 !! q = Some (u16 (w + 1))) by (apply list_lookup_insert_eq; lia).
  assert (L1 : length l1 = length l) by apply length_insert.
  assert (P1 : pre (wbyte l1) (2 * q) = pre (wbyte l) (2 * q)) by (apply pre_insert; lia).
  bcase.
  - assert (w = 65535) as -> by (widths; dmlia).
    destruct (IH l1 Hl1 ltac:(lia) ltac:(rewrite P1; lia)) as (l' & -> & Hl' & L' & P' & S').
    exists l'. split_and!; [done|done|lia| |].
    + assert (E2 : l' !! q = Some (u16 (65535 + 1))) by (rewrite S' by lia; done).
      rewrite (pre_word2 _ _ _ E2), P', P1, E. lia.
    + intros j Hj. rewrite S' by lia. apply list_lookup_insert_ne. lia.
  - exists l1. split_and!; [done|done|done| |].
    + rewrite (pre_word2 _ _ _ E1), P1. rewrite u16_id; [lia|].
      assert (w <> 65535) by (intros ->; done). clia.
    + intros j Hj. apply list_lookup_insert_ne. lia.
Qed.

Lemma propagate_carry_spec s ptr a :
  erep s ptr a ->
  pre (wbyte (e_stream s)) (nb a) + 1 < 256 ^ Z.of_nat (nb a) ->
  exists l', propagate_carry ptr (e_full s) (e_stream s) = Some l' /\
    Forall is_u16 l' /\ length l' = STREAM_MAXW16_60MS /\
    pre (wbyte l') (nb a) = pre (wbyte (e_stream s)) (nb a) + 1 /\
    (e_full s = 0 -> exists w, l' !! ptr = Some w /\ w mod 256 = 0).
Proof.
  intros [Hlen Hu Hptr _ Hf Hnb Hhalf _] Hlt. unfold propagate_carry. bcase.
  - destruct (Hhalf E) as (w & Ew & Hw). rewrite Ew.
    pose proof (Forall_lookup_1 _ _ _ _ Hu Ew) as Hwr.
    assert (nb a = 2 * ptr + 1)%nat as En by lia. rewrite En in *.
    rewrite (pre_word1 _ _ _ Ew) in Hlt |- *.
    set (l1 := <[ptr:=u16 (w + 0x0100)]> (e_stream s)).
    assert (Hl1 : Forall is_u16 l1) by (apply Forall_insert; auto with cint).
    assert (E1 : l1 !! ptr = Some (u16 (w + 0x0100))) by (apply list_lookup_insert_eq; lia).
    assert (L1 : length l1 = STREAM_MAXW16_60MS) by (unfold l1; by rewrite length_insert).
    assert (P1 : pre (wbyte l1) (2 * ptr) = pre (wbyte (e_stream s)) (2 * ptr))
      by (apply pre_insert; lia).
    bcase.
    + rewrite Nat.add_1_r, pow256_S in Hlt.
      assert (w / 256 = 255) as Ew' by dmlia.
      destruct (inc_prev_spec ptr l1 Hl1 ltac:(lia) ltac:(rewrite P1; lia))
        as (l' & -> & Hl' & L' & P' & S').
      assert (E2 : l' !! ptr = Some (u16 (w + 0x0100))) by (rewrite S' by lia; done).
      exists l'. split_and!; [done|done|lia| |].
      * rewrite (pre_word1 _ _ _ E2), P', P1, E0, Ew'. change (0 / 256) with 0. lia.
      * intros _. eexists. split; [exact E2|]. by rewrite E0.
    + exists l1. split_and!; [done|done|done| |].
      * rewrite (pre_word1 _ _ _ E1), P1. dmlia.
      * intros _. exists (u16 (w + 0x0100)). split; [done|]. dmlia.
  - assert (e_full s = 1) as Ef by lia. rewrite Ef in *.
    assert (nb a = 2 * ptr)%nat as En by lia. rewrite En in *.
    destruct (inc_prev_spec ptr _ Hu ltac:(lia) Hlt) as (l' & -> & Hl' & L' & P' & _).
    exists l'. split_and!; done || lia.
Qed.

Lemma add_streamval_spec s ptr a v r :
  erep s ptr a -> is_u32 v -> low a + v < 256 ^ Z.of_nat (nb a + 4) ->
  exists s', add_streamval ptr v s = Next tt s' /\ e_full s' = e_full s /\
    erep s' ptr (AC (low a + v) r (nb a)).
Proof.
  intros Hr Hv Hlt. pose proof Hr as [Hlen Hu Hptr Hsv Hf Hnb Hhalf Hlow].
  unfold add_streamval. run. rewrite Nat2Z.inj_add, Z.pow_add_r in Hlt by lia.
  change (256 ^ Z.of_nat 4) with (2 ^ 32) in Hlt.
  destruct (u32 (e_streamval s + v) <? v) eqn:E.
  - destruct (u32_add_carry _ _ Hsv Hv E) as [Es Hc].
    destruct (propagate_carry_spec s ptr a Hr) as (l' & -> & Hl' & L' & P' & H'); [nia|].
    eexists. split; [done|]. split; [done|]. split; simpl; try done.
    + auto with cint.
    + rewrite P'. lia.
  - destruct (u32_add_nocarry _ _ Hsv Hv E) as [Es Hc].
    eexists. split; [done|]. split; [done|]. split; simpl; try done.
    + auto with cint.
    + lia.
Qed.

(** Storing the top byte of [streamval] appends it to the bytes written. *)
Lemma put_byte_spec s ptr a :
  erep s ptr a ->
  exists s' ptr', put_byte ptr s = Next ptr' s' /\
    e_streamval s' = e_streamval s /\ e_full s' = 1 - e_full s /\
    Z.of_nat (nb a) + 1 = 2 * Z.of_nat ptr' + (1 - e_full s') /\
    length (e_stream s') = STREAM_MAXW16_60MS /\ Forall is_u16 (e_stream s') /\
    (e_full s' = 0 -> exists w, e_stream s' !! ptr' = Some w /\ w mod 256 = 0) /\
    pre (wbyte (e_stream s')) (S (nb a)) =
      pre (wbyte (e_stream s)) (nb a) * 256 + e_streamval s / 2 ^ 24.
Proof.
  intros [Hlen Hu Hptr Hsv Hf Hnb Hhalf _]. unfold put_byte. run.
  rewrite shiftr_div by lia. bcase.
  - destruct (Hhalf E) as (w & Ew & Hw). rewrite Ew, store_some by lia.
    pose proof (Forall_lookup_1 _ _ _ _ Hu Ew) as Hwr.
    rewrite (u16_id (e_streamval s / 2 ^ 24)) by dmlia.
    rewrite u16_id by dmlia.
    do 2 eexists. split; [done|]. simpl. rewrite E in *.
    assert (nb a = 2 * ptr + 1)%nat as En by lia. rewrite En.
    split_and!; try done || lia.
    + by rewrite length_insert.
    + apply Forall_insert; [done|]. dmlia.
    + replace (S (2 * ptr + 1)) with (2 * ptr + 2)%nat by lia.
      rewrite pre_insert2, (pre_word1 _ _ _ Ew) by lia. dmlia.
  - rewrite shiftl_mul by lia. rewrite store_some by lia.
    rewrite u16_id by dmlia.
    do 2 eexists. split; [done|]. simpl. assert (e_full s = 1) as Ef by lia. rewrite Ef in *.
    assert (nb a = 2 * ptr)%nat as En by lia. rewrite En.
    split_and!; try done || lia.
    + by rewrite length_insert.
    + apply Forall_insert; [done|]. dmlia.
    + intros _. eexists. split; [apply list_lookup_insert_eq; lia|]. dmlia.
    + replace (S (2 * ptr)) with (2 * ptr + 1)%nat by lia.
      rewrite pre_insert1 by lia. dmlia.
Qed.

(** Renormalisation moves [nshift] bytes out of the window, or reports that
    the stream would exceed 400 bytes. *)
Lemma enc_renorm_spec fuel s ptr a :
  erep s ptr a -> 1 <= rng a < 2 ^ 32 -> (nshift (rng a) < fuel)%nat ->
  if decide (nb a + nshift (rng a) < 400)%nat
  then exists s' ptr', enc_renorm fuel ptr (rng a) s = Next (ptr', rng (renorm a)) s' /\
         erep s' ptr' (renorm a)
  else exists s', enc_renorm fuel ptr (rng a) s =
         Return (- ISAC_DISALLOWED_BITSTREAM_LENGTH) s'.
Proof.
  revert s ptr a. induction fuel as [|fuel IH]; intros s ptr a Hr Hrng Hfuel; [lia|].
  cbn [enc_renorm]. rewrite land_top8 by clia.
  destruct (Z.ltb_spec (rng a) (2 ^ 24)).
  - rewrite (nshift_small (rng a)) in Hfuel |- * by lia.
    rewrite shiftl_mul by lia. rewrite u32_id by clia.
    destruct (put_byte_spec s ptr a Hr) as (s1 & ptr1 & E1 & Esv & Ef & Enb & L1 & U1 & Hh & P1).
    pose proof Hr as [_ _ Hptr Hsv Hf Hnb _ Hlow].
    rewrite !(bind_Next _ _ _ _ _ E1). case_bool_decide as Hmax; unfold STREAM_MAXW16_60MS in *.
    + rewrite decide_False by lia. by eexists.
    + run.
      assert (Hr1 : erep (set_streamval (u32 (Z.shiftl (e_streamval s1) 8)) s1) ptr1 (shift 1 a)).
      { split; simpl; [done|done|unfold STREAM_MAXW16_60MS; lia|auto with cint|lia|lia|done|].
        rewrite Nat.add_1_r, P1, Hlow, Esv, shiftl_mul by lia. dmlia. }
      assert (Er : rng (shift 1 a) = rng a * 256) by done.
      change (rng a * 2 ^ 8) with (rng a * 256).
      specialize (IH _ _ _ Hr1). rewrite Er in IH. specialize (IH ltac:(lia) ltac:(lia)).
      rewrite <- (renorm_shift1 a) by lia.
      replace (nb a + S (nshift (rng a * 256)))%nat
        with (nb (shift 1 a) + nshift (rng a * 256))%nat by (simpl; lia).
      exact IH.
  - rewrite nshift_big, Nat.add_0_r by lia. rewrite decide_True.
    + exists s, ptr. rewrite renorm_big by lia. done.
    + pose proof (erep_ptr _ _ _ Hr). pose proof (erep_nb _ _ _ Hr).
      pose proof (erep_full _ _ _ Hr). unfold STREAM_MAXW16_60MS in *. lia.
Qed.

(** ** Refinement *)

(** A structure between two calls: it represents [a], and its width field
    holds the interval's width. *)
Record enc_state (s : Bitstr_enc) (a : ac) : Prop := {
  es_rep : erep s (Z.to_nat (e_stream_index s)) a;
  es_rng : e_W_upper s = rng a;
  es_ok : ac_ok a;
}.

(** [data[k]] is a symbol of positive frequency of [cdf[k]]. *)
Definition sym_of (d : Z) (c : list Z) (iv : Z * Z) : Prop :=
  cdf_ok c /\ exists n, d = Z.of_nat n /\ sym_iv c n iv.

Lemma sym_of_ok d c iv : sym_of d c iv -> iv_ok iv.
Proof. intros (Hc & n & _ & Hs). by eapply sym_iv_ok. Qed.

Lemma syms_of_ok data cdf ivs : Forall3 sym_of data cdf ivs -> Forall iv_ok ivs.
Proof. induction 1; constructor; eauto using sym_of_ok. Qed.

Lemma zget_nat c n v : c !! n = Some v -> zget c (Z.of_nat n) = Some v.
Proof.
  intros E. unfold zget. rewrite (proj2 (Z.ltb_ge _ _)) by lia. by rewrite Nat2Z.id.
Qed.

Lemma sym_of_get d c iv :
  sym_of d c iv -> zget c d = Some iv.1 /\ zget c (d + 1) = Some iv.2.
Proof.
  intros (_ & n & -> & E1 & E2 & _). split; [by apply zget_nat|].
  replace (Z.of_nat n + 1) with (Z.of_nat (S n)) by lia. by apply zget_nat.
Qed.

Lemma nb_step a iv : (nb a <= nb (step a iv))%nat.
Proof. unfold step, renorm. simpl. lia. Qed.

Lemma nb_steps a ivs : (nb a <= nb (steps a ivs))%nat.
Proof.
  revert a. induction ivs as [|iv ivs IH]; intros a; [done|].
  etrans; [apply (nb_step a iv)|]. apply IH.
Qed.

Lemma enc_reset_state s :
  length (e_stream s) = STREAM_MAXW16_60MS -> Forall is_u16 (e_stream s) ->
  enc_state (enc_reset s) ac_init.
Proof.
  intros HL HU. split; [|done|apply ac_init_ok].
  split; simpl; try done; unfold STREAM_MAXW16_60MS in *; lia || clia.
Qed.

Section refinement.
Context `{SplLaws}.

Lemma enc_interval_spec W lo hi :
  is_u32 W -> 2 ^ 24 <= W -> iv_ok (lo, hi) ->
  enc_interval W lo hi = (scale W lo + 1, scale W hi - scale W lo - 1).
Proof.
  intros HW Hbig (Hlo & Hlt & Hhi). simpl in *.
  pose proof (scale_gap W lo hi Hbig Hlo Hlt).
  pose proof (scale_nonneg W lo ltac:(lia) Hlo).
  pose proof (scale_le W hi ltac:(lia) ltac:(lia)).
  assert (Hm : is_u32 (Z.shiftr W 16)) by (rewrite shiftr_div by lia; dmlia).
  unfold enc_interval. rewrite !spl_umul_spec, !scale_words by (done || clia).
  rewrite (u32_id (scale W lo + 1)) by clia.
  rewrite u32_id by clia. f_equal. lia.
Qed.

Lemma enc_symbol_spec s ptr a lo hi :
  erep s ptr a -> ac_ok a -> iv_ok (lo, hi) ->
  if decide (nb (step a (lo, hi)) < 400)%nat
  then exists s' ptr', enc_symbol ptr (rng a) lo hi s = Next (ptr', rng (step a (lo, hi))) s' /\
         erep s' ptr' (step a (lo, hi))
  else exists s', enc_symbol ptr (rng a) lo hi s =
         Return (- ISAC_DISALLOWED_BITSTREAM_LENGTH) s'.
Proof.
  intros Hr Ha Hiv. pose proof (narrow_ok a (lo, hi) Ha Hiv) as (Hn1 & Hn2 & Hn3).
  destruct Ha as (Hl & Hrg & Hs). unfold enc_symbol.
  rewrite enc_interval_spec by (done || clia).
  pose proof (scale_nonneg (rng a) lo ltac:(lia) ltac:(destruct Hiv; simpl in *; lia)).
  cbn [narrow low rng nb fst snd] in Hn1, Hn2, Hn3.
  destruct (add_streamval_spec s ptr a (scale (rng a) lo + 1)
              (rng (narrow a (lo, hi))) Hr) as (s1 & E1 & _ & Hr1); [clia|lia|].
  rewrite !(bind_Next _ _ _ _ _ E1).
  replace (AC (low a + (scale (rng a) lo + 1)) (rng (narrow a (lo, hi))) (nb a))
    with (narrow a (lo, hi)) in Hr1 by (unfold narrow; simpl; f_equal; lia).
  apply (enc_renorm_spec renorm_fuel) in Hr1; [exact Hr1|simpl; lia|].
  unfold renorm_fuel, nshift. repeat bcase; lia.
Qed.

Lemma EncHistMulti_loop_spec s ptr a data cdf ivs :
  erep s ptr a -> ac_ok a -> Forall3 sym_of data cdf ivs ->
  if decide (nb (steps a ivs) < 400)%nat
  then exists s' ptr',
    EncHistMulti_loop (length data) data cdf ptr (rng a) s = Next (ptr', rng (steps a ivs)) s' /\
    erep s' ptr' (steps a ivs)
  else exists s', EncHistMulti_loop (length data) data cdf ptr (rng a) s =
    Return (- ISAC_DISALLOWED_BITSTREAM_LENGTH) s'.
Proof.
  intros Hr Ha Hd. revert s ptr a Hr Ha.
  induction Hd as [|d c [lo hi] data cdf ivs Hdc Hd IH]; intros s ptr a Hr Ha.
  - rewrite decide_True; [by exists s, ptr|].
    destruct Hr as [_ _ Hptr _ Hf Hnb _ _]. unfold STREAM_MAXW16_60MS in *. simpl. lia.
  - cbn [length EncHistMulti_loop]. destruct (sym_of_get _ _ _ Hdc) as [E1 E2].
    apply sym_of_ok in Hdc as Hiv. rewrite !(bind_mem _ _ _ _ E1), !(bind_mem _ _ _ _ E2).
    pose proof (enc_symbol_spec s ptr a lo hi Hr Ha Hiv) as Hs.
    change (steps a ((lo, hi) :: ivs)) with (steps (step a (lo, hi)) ivs).
    pose proof (nb_steps (step a (lo, hi)) ivs).
    destruct (decide (nb (step a (lo, hi)) < 400)%nat).
    + destruct Hs as (s1 & ptr1 & E3 & Hr1). cbn [fst snd]. rewrite !(bind_Next _ _ _ _ _ E3).
      apply IH; [done|]. by apply step_ok.
    + destruct Hs as (s1 & E3). rewrite decide_False by lia.
      cbn [fst snd]. rewrite (bind_Return _ _ _ _ _ E3). by eexists.
Qed.

Lemma erep_index s ptr a W :
  erep s ptr a ->
  erep (mkBitstr_enc (e_stream s) W (e_streamval s) (u16 (Z.of_nat ptr)) (e_full s)) ptr a /\
  Z.to_nat (u16 (Z.of_nat ptr)) = ptr.
Proof.
  intros [HL HU Hp Hsv Hf Hn Hh Hl]. split; [by split|].
  unfold STREAM_MAXW16_60MS in *. rewrite u16_id; [lia|clia].
Qed.

(** A call either appends the symbols or reports a stream of 400 bytes. *)
Lemma EncHistMulti_spec {R} s a data cdf ivs :
  enc_state s a -> Forall3 sym_of data cdf ivs ->
  if decide (nb (steps a ivs) < 400)%nat
  then exists s', @WebRtcIsacfix_EncHistMulti _ R data cdf (Z.of_nat (length data)) s = Next 0 s' /\
         enc_state s' (steps a ivs)
  else exists s', @WebRtcIsacfix_EncHistMulti _ R data cdf (Z.of_nat (length data)) s =
         Next (- ISAC_DISALLOWED_BITSTREAM_LENGTH) s'.
Proof.
  intros [Hr Hw Ha] Hd. pose proof (EncHistMulti_loop_spec _ _ _ _ _ _ Hr Ha Hd) as Hs.
  unfold WebRtcIsacfix_EncHistMulti, fn. rewrite bind_get, Nat2Z.id, Hw.
  destruct (decide (nb (steps a ivs) < 400)%nat).
  - destruct Hs as (s1 & ptr1 & E1 & Hr1). rewrite (bind_Next _ _ _ _ _ E1).
    eexists. split; [done|].
    destruct (erep_index _ _ _ (rng (steps a ivs)) Hr1) as [Hr2 Hi].
    split; simpl; [by rewrite Hi|done|]. eapply steps_ok; eauto using syms_of_ok.
  - destruct Hs as (s1 & E1). rewrite (bind_Return _ _ _ _ _ E1). by eexists.
Qed.
End refinement.

(** ** Termination of the stream *)

(** The bytes a finished structure holds, and their number. *)
Definition finished (s : Bitstr_enc) (a : ac) : Prop :=
  length (e_stream s) = STREAM_MAXW16_60MS /\ Forall is_u16 (e_stream s) /\
  pre (wbyte (e_stream s)) (final_len a) = final_val a.

Lemma final_low_1 P sv : 0 <= sv < 2 ^ 32 -> (P * 2 ^ 32 + sv) / 2 ^ 24 = P * 256 + sv / 2 ^ 24.
Proof. intros. dmlia. Qed.

Lemma final_low_2 P sv : 0 <= sv < 2 ^ 32 -> (P * 2 ^ 32 + sv) / 2 ^ 16 = P * 65536 + sv / 2 ^ 16.
Proof. intros. dmlia. Qed.

(** The second word of the two-byte ending when the first byte of a word is
    already in place. *)
Lemma two_byte_split P w sv l ptr :
  l !! ptr = Some w -> is_u16 w -> w mod 256 = 0 -> is_u32 sv -> (S ptr < length l)%nat ->
  pre (wbyte l) (2 * ptr) = P ->
  pre (wbyte (<[S ptr:=Z.land (u16 (Z.shiftr sv 8)) 0xFF00]>
               (<[ptr:=Z.lor w (u16 (Z.shiftr sv 24))]> l))) (2 * ptr + 3) =
  (P * 256 + w / 256) * 65536 + sv / 2 ^ 16.
Proof.
  intros Ew Hw Hm Hsv Hlen HP. rewrite !shiftr_div by lia.
  rewrite (u16_id (sv / 2 ^ 24)) by dmlia.
  rewrite (lor_disjoint _ _ 8) by (lia || dmlia).
  change 0xFF00 with (Z.shiftl (Z.ones 8) 8). rewrite land_mask by lia.
  replace (2 * ptr + 3)%nat with (2 * S ptr + 1)%nat by lia.
  rewrite pre_insert1 by (rewrite length_insert; lia).
  replace (2 * S ptr)%nat with (2 * ptr + 2)%nat by lia.
  rewrite pre_insert2 by lia. rewrite HP. dmlia.
Qed.

(** What both endings establish: the pointer and [full] count the bytes. *)
Definition ended (s : Bitstr_enc) (ptr n : nat) (v : Z) : Prop :=
  length (e_stream s) = STREAM_MAXW16_60MS /\ Forall is_u16 (e_stream s) /\
  2 * Z.of_nat ptr + (if e_full s =? 0 then 1 else 0) = Z.of_nat n /\
  pre (wbyte (e_stream s)) n = v.

Lemma terminate_one_spec s ptr a :
  erep s ptr a -> low a + 2 ^ 24 < 256 ^ Z.of_nat (nb a + 4) ->
  exists s' ptr', terminate_one ptr s = Next ptr' s' /\
    ended s' ptr' (nb a + 1) ((low a + 2 ^ 24) / 2 ^ 24).
Proof.
  intros Hr Hlt. unfold terminate_one.
  destruct (add_streamval_spec s ptr a (2 ^ 24) 0 Hr ltac:(clia) Hlt) as (s1 & E1 & _ & Hr1).
  rewrite (bind_Next _ _ _ _ _ E1).
  destruct (put_byte_spec _ _ _ Hr1) as (s2 & ptr2 & E2 & Esv & Ef & Enb & L2 & U2 & _ & P2).
  pose proof Hr1 as [_ _ _ Hsv Hf _ _ Hlow]. simpl in Hlow, Enb, P2.
  exists s2, ptr2. split; [done|]. split_and!; [done|done| |].
  - bcase; lia.
  - rewrite Nat.add_1_r, P2, Hlow, final_low_1; done.
Qed.

Lemma terminate_two_spec s ptr a :
  erep s ptr a -> low a + 2 ^ 16 < 256 ^ Z.of_nat (nb a + 4) ->
  if decide (nb a + 2 <= 400)%nat
  then exists s' ptr', terminate_two ptr s = Next ptr' s' /\
    ended s' ptr' (nb a + 2) ((low a + 2 ^ 16) / 2 ^ 16)
  else terminate_two ptr s = Fault.
Proof.
  intros Hr Hlt. unfold terminate_two.
  destruct (add_streamval_spec s ptr a (2 ^ 16) 0 Hr ltac:(clia) Hlt) as (s1 & E1 & Ef1 & Hr1).
  rewrite !(bind_Next _ _ _ _ _ E1), !bind_get.
  pose proof Hr1 as [HL HU Hptr Hsv Hf Hnb Hh Hlow]. simpl in Hlow, Hnb.
  destruct (Z.eqb_spec (e_full s1) 0) as [Ef|Ef]; cbn [negb].
  - destruct (Hh Ef) as (w & Ew & Hw). pose proof (Forall_lookup_1 _ _ _ _ HU Ew) as Hwr.
    rewrite !(bind_mem _ _ _ _ Ew), store_some by lia. run. unfold store.
    rewrite length_insert, HL.
    destruct (decide (S ptr < STREAM_MAXW16_60MS)%nat) as [Hin|Hout];
      unfold STREAM_MAXW16_60MS in Hin || unfold STREAM_MAXW16_60MS in Hout.
    + rewrite decide_True by lia. do 2 eexists. split; [done|]. split_and!; simpl.
      * by rewrite !length_insert.
      * apply Forall_insert; [apply Forall_insert; [done|]|].
        -- rewrite shiftr_div, (u16_id (_ / _)), (lor_disjoint _ _ 8) by (lia || dmlia). dmlia.
        -- change 0xFF00 with (Z.shiftl (Z.ones 8) 8). rewrite land_mask by lia. dmlia.
      * rewrite Ef, Z.eqb_refl. lia.
      * assert (nb a = 2 * ptr + 1)%nat as En by lia. rewrite En in *.
        replace (2 * ptr + 1 + 2)%nat with (2 * ptr + 3)%nat by lia.
        assert (S ptr < length (e_stream s1))%nat as Hlen by (rewrite HL; exact Hin).
        rewrite (two_byte_split _ _ _ _ _ Ew Hwr Hw Hsv Hlen eq_refl).
        rewrite Hlow, final_low_2, (pre_word1 _ _ _ Ew) by done. lia.
    + rewrite decide_False by (unfold STREAM_MAXW16_60MS in *; lia). done.
  - rewrite store_some by lia. unfold STREAM_MAXW16_60MS in *.
    rewrite decide_True by lia. run. do 2 eexists. split; [done|]. split_and!; simpl.
    + by rewrite length_insert.
    + apply Forall_insert; auto with cint.
    + rewrite (proj2 (Z.eqb_neq _ _)) by lia. lia.
    + assert (nb a = 2 * ptr)%nat as En by lia. rewrite En in *.
      rewrite pre_insert2, Hlow, final_low_2 by (done || lia).
      rewrite shiftr_div, u16_id by (lia || dmlia). done.
Qed.

(** [WebRtcIsacfix_EncTerminate] writes the final bytes, or, when the two-byte
    ending starts in the middle of the last word of the buffer, writes past it. *)
Lemma EncTerminate_spec {R} s a :
  enc_state s a ->
  if decide (final_len a <= 400)%nat
  then exists s', @WebRtcIsacfix_EncTerminate R s = Next (Z.of_nat (final_len a)) s' /\ finished s' a
  else @WebRtcIsacfix_EncTerminate R s = Fault.
Proof.
  intros [Hr Hw (Hl & Hrg & Hs)]. unfold WebRtcIsacfix_EncTerminate, fn, final_len.
  pose proof (erep_nb _ _ _ Hr) as Hnb. pose proof (erep_ptr _ _ _ Hr) as Hptr.
  pose proof (erep_full _ _ _ Hr) as Hfull. unfold STREAM_MAXW16_60MS in Hptr.
  rewrite bind_get, Hw. destruct (Z.ltb_spec 0x01FFFFFF (rng a)) as [Hbig|Hsmall].
  - rewrite decide_True by lia.
    destruct (terminate_one_spec _ _ _ Hr ltac:(clia)) as (s1 & p1 & E1 & L1 & U1 & N1 & P1).
    rewrite (bind_Next _ _ _ _ _ E1). run. rewrite shiftl_mul by lia.
    exists s1. split; [f_equal; rewrite s16_id; clia|]. split_and!; [done|done|].
    unfold final_len, final_val. rewrite (proj2 (Z.ltb_lt _ _)); done.
  - pose proof (terminate_two_spec _ _ _ Hr ltac:(clia)) as Ht.
    destruct (decide (nb a + 2 <= 400)%nat) as [Hle|Hgt].
    + destruct Ht as (s1 & p1 & E1 & L1 & U1 & N1 & P1).
      rewrite (bind_Next _ _ _ _ _ E1). run. rewrite shiftl_mul by lia.
      exists s1. split; [f_equal; rewrite s16_id; clia|]. split_and!; [done|done|].
      unfold final_len, final_val. rewrite (proj2 (Z.ltb_ge _ _)); done.
    + unfold bind. by rewrite Ht.
Qed.

(** ** Deciding which symbols can be coded *)

Definition sym_lookup (d : Z) (c : list Z) : option (Z * Z) :=
  if cdf_okb c then
    lo ← zget c d; hi ← zget c (d + 1);
    if lo <? hi then Some (lo, hi) else None
  else None.

Fixpoint syms_lookup (data : list Z) (cdf : list (list Z)) : option (list (Z * Z)) :=
  match data, cdf with
  | [], [] => Some []
  | d :: data', c :: cdf' =>
      iv ← sym_lookup d c; ivs ← syms_lookup data' cdf'; Some (iv :: ivs)
  | _, _ => None
  end.

Lemma zget_Some c i v : zget c i = Some v -> 0 <= i /\ c !! Z.to_nat i = Some v.
Proof. unfold zget. destruct (Z.ltb_spec i 0); [done|]. auto. Qed.

Lemma sym_lookup_ok d c iv : sym_lookup d c = Some iv -> sym_of d c iv.
Proof.
  unfold sym_lookup. destruct (cdf_okb c) eqn:Eok; [|done].
  destruct (zget c d) as [lo|] eqn:E1; [|done]. simpl.
  destruct (zget c (d + 1)) as [hi|] eqn:E2; [|done]. simpl.
  destruct (Z.ltb_spec lo hi); [|done]. intros [= <-].
  apply zget_Some in E1 as [Hd E1]. apply zget_Some in E2 as [_ E2].
  split; [by apply cdf_okb_ok|]. exists (Z.to_nat d). split; [lia|].
  split_and!; [done| |done]. simpl. by replace (S (Z.to_nat d)) with (Z.to_nat (d + 1)) by lia.
Qed.

Lemma syms_lookup_ok data cdf ivs : syms_lookup data cdf = Some ivs -> Forall3 sym_of data cdf ivs.
Proof.
  revert cdf ivs. induction data as [|d data IH]; intros [|c cdf] ivs; simpl; try done.
  - intros [= <-]. constructor.
  - destruct (sym_lookup d c) as [iv|] eqn:E1; [|done]. simpl.
    destruct (syms_lookup data cdf) as [ivs'|] eqn:E2; [|done]. simpl. intros [= <-].
    constructor; [by apply sym_lookup_ok|by apply IH].
Qed.

(** Every index below the number of symbols of a dense table can be coded. *)
Lemma dense_sym_of c d :
  cdf_denseb c = true -> 0 <= d < Z.of_nat (length c) - 1 -> exists iv, sym_of d c iv.
Proof.
  intros Hc Hd. destruct (cdf_denseb_sym c (Z.to_nat d) Hc ltac:(lia)) as [iv Hiv].
  exists iv. split; [by apply cdf_okb_ok, cdf_denseb_okb|]. exists (Z.to_nat d). split; [lia|done].
Qed.

Lemma dense_syms_of cdf data :
  Forall2 (fun c d => cdf_denseb c = true /\ 0 <= d < Z.of_nat (length c) - 1) cdf data ->
  exists ivs, Forall3 sym_of data cdf ivs.
Proof.
  induction 1 as [|c d cdf data [Hc Hd] _ [ivs IH]]; [exists []; constructor|].
  destruct (dense_sym_of c d Hc Hd) as [iv Hiv]. exists (iv :: ivs). by constructor.
Qed.
