(* ===== verification/IsacFixDec.v ===== *)
(** * Arithmetic decoder of iSAC fixed point

    [isac/fix/source/arith_routines_hist.c] (decoder): the bit stream structure
    [Bitstr_dec], [WebRtcIsacfix_DecHistBisectMulti] (binary search of the
    frequency table) and [WebRtcIsacfix_DecHistOneStepMulti] (linear search
    from an initial index), and the proof that on a stream of the encoder's
    interval they return the encoded symbols, follow the encoder's interval and
    report the encoder's stream length. *)

From S2P Require Import Prelude Spl ArithSpec IsacFixArith.

Open Scope c_scope.

#[local] Arguments Nat.mul : simpl never.
#[local] Arguments Nat.add : simpl never.
#[local] Arguments Z.mul : simpl never.
#[local] Arguments pre : simpl never.

(** ** Data *)

Definition INTERNAL_STREAM_SIZE_W16 : nat := 305.

Record Bitstr_dec := mkBitstr_dec {
  d_stream : list Z;
  d_W_upper : Z;
  d_streamval : Z;
  d_stream_index : Z;
  d_full : Z;
  d_stream_size : Z;
}.

Definition set_dfull (f : Z) (s : Bitstr_dec) : Bitstr_dec :=
  mkBitstr_dec (d_stream s) (d_W_upper s) (d_streamval s) (d_stream_index s) f (d_stream_size s).

(** A decoder's return value, with the symbols it has written so far. *)
Definition dec_ret : Type := Z * list Z.

(** ** Operations *)

(** The pointer and the code value a call starts with: the first call of a
    stream reads the first two words. *)
Definition dec_start {R} : stmt Bitstr_dec R (nat * Z) :=
  let! s := get in
  let ptr := Z.to_nat (d_stream_index s) in
  if d_stream_index s =? 0 then
    let! w0 := mem (d_stream s !! ptr) in
    let! w1 := mem (d_stream s !! S ptr) in
    ret (S (S ptr), Z.lor (u32 (Z.shiftl w0 16)) w1)
  else ret (ptr, d_streamval s).

(** Read the next byte into the code value. *)
Definition dec_byte {R} (ptr : nat) (streamval : Z) : stmt Bitstr_dec R (nat * Z) :=
  let! s := get in
  let! w := mem (d_stream s !! ptr) in
  if d_full s =? 0 then
    put (set_dfull 1 s) ;;
    ret (S ptr, Z.lor (u32 (Z.shiftl streamval 8)) (Z.land w 0x00FF))
  else
    put (set_dfull 0 s) ;;
    ret (ptr, Z.lor (u32 (Z.shiftl streamval 8)) (Z.shiftr w 8)).

Fixpoint dec_renorm {R} (fuel : nat) (ptr : nat) (W_upper streamval : Z) :
    stmt Bitstr_dec R (nat * Z * Z) :=
  match fuel with
  | O => fun _ => Spin
  | S fuel' =>
      if Z.land W_upper 0xFF000000 =? 0 then
        let! r := dec_byte ptr streamval in
        dec_renorm fuel' r.1 (u32 (Z.shiftl W_upper 8)) r.2
      else ret (ptr, W_upper, streamval)
  end.

(** Each iteration reads a byte and the buffer has 610. *)
Definition dec_fuel : nat := 612.

(** The number of bytes of the original stream, from the final width. *)
Definition dec_length (s : Bitstr_dec) : Z :=
  let n := d_stream_index s * 2 in
  let half := if d_full s =? 0 then 1 else 0 in
  if 0x01FFFFFF <? d_W_upper s then s16 (n - 3 + half) else s16 (n - 2 + half).

(** The end of a call: store the locals and return the length. *)
Definition dec_finish {R} (ptr : nat) (W_upper streamval : Z) (data : list Z) :
    stmt Bitstr_dec R dec_ret :=
  let! s := get in
  put (mkBitstr_dec (d_stream s) W_upper streamval (u16 (Z.of_nat ptr)) (d_full s)
         (d_stream_size s)) ;;
  let! s := get in
  ret (dec_length s, data).

Section dec.
Context `{SplOps}.

(** The code value a table entry stands for. *)
Definition W_tmp_of (W_upper_MSB W_upper_LSB c : Z) : Z :=
  u32 (spl_umul_32_16 W_upper_MSB c + Z.shiftr (u32 (W_upper_LSB * c)) 16).

(** With the halves of the width as the binary search computes them ... *)
Definition dec_scale (W_upper c : Z) : Z :=
  W_tmp_of (Z.shiftr W_upper 16) (Z.land W_upper 0x0000FFFF) c.

(** ... and as the linear search does. *)
Definition dec_scale1 (W_upper c : Z) : Z :=
  W_tmp_of (spl_rshift_u32 W_upper 16) (Z.land W_upper 0x0000FFFF) c.

(** Binary search. [W] is the width the table is scaled with, [pos] the offset
    of [cdfPtr] in the table; the result is the symbol and the two ends. *)
Fixpoint bisect {R} (fuel : nat) (cdf : list Z) (W streamval : Z)
    (sizeTmp pos W_lower W_upper : Z) : stmt Bitstr_dec R (Z * Z * Z) :=
  match fuel with
  | O => fun _ => Spin
  | S fuel' =>
      let! c := mem (zget cdf pos) in
      let W_tmp := dec_scale W c in
      let sizeTmp := Z.quot sizeTmp 2 in
      if sizeTmp =? 0 then
        if W_tmp <? streamval then ret (s16 pos, W_tmp, W_upper)
        else ret (s16 (pos - 1), W_lower, W_tmp)
      else if W_tmp <? streamval then
        bisect fuel' cdf W streamval sizeTmp (pos + sizeTmp) W_tmp W_upper
      else
        bisect fuel' cdf W streamval sizeTmp (pos - sizeTmp) W_lower W_tmp
  end.

(** [sizeTmp] is a positive 16-bit integer. *)
Definition bisect_fuel : nat := 17.

Fixpoint DecHistBisectMulti_loop (k : nat) (cdf : list (list Z)) (cdfSize : list Z)
    (ptr : nat) (W_lower W_upper streamval : Z) (data : list Z) :
    stmt Bitstr_dec dec_ret (nat * Z * Z * list Z) :=
  match k with
  | O => ret (ptr, W_upper, streamval, data)
  | S k' =>
      match cdf, cdfSize with
      | c :: cdf', size :: cdfSize' =>
          let sizeTmp := s16 (Z.quot size 2) in
          let! r := bisect bisect_fuel c W_upper streamval sizeTmp (sizeTmp - 1)
                      W_lower W_upper in
          let '(d, W_lower, W_upper) := r in
          let data := data ++ [d] in
          let W_lower := u32 (W_lower + 1) in
          let W_upper := u32 (W_upper - W_lower) in
          let streamval := u32 (streamval - W_lower) in
          let! r := dec_renorm dec_fuel ptr W_upper streamval in
          let '(ptr, W_upper, streamval) := r in
          if W_upper =? 0 then return_ (-2, data)
          else DecHistBisectMulti_loop k' cdf' cdfSize' ptr W_lower W_upper streamval data
      | _, _ => fun _ => Fault
      end
  end.

Definition WebRtcIsacfix_DecHistBisectMulti {R} (cdf : list (list Z)) (cdfSize : list Z)
    (lenData : Z) : stmt Bitstr_dec R dec_ret :=
  fn (let! s := get in
      if d_W_upper s =? 0 then return_ (-2, [])
      else
        let! r := dec_start in
        let! r := DecHistBisectMulti_loop (Z.to_nat lenData) cdf cdfSize r.1 0
                    (d_W_upper s) r.2 [] in
        let '(ptr, W_upper, streamval, data) := r in
        dec_finish ptr W_upper streamval data).

(** Linear search upwards from an entry below the code value. *)
Fixpoint search_up (fuel : nat) (cdf : list Z) (W streamval : Z) (pos : nat) (W_tmp : Z)
    (data : list Z) : stmt Bitstr_dec dec_ret (Z * Z * Z) :=
  match fuel with
  | O => fun _ => Spin
  | S fuel' =>
      let W_lower := W_tmp in
      let! c0 := mem (cdf !! pos) in
      if c0 =? 65535 then return_ (-3, data)
      else
        let! c := mem (cdf !! S pos) in
        let W_tmp := dec_scale1 W c in
        if streamval <=? W_tmp then ret (s16 (Z.of_nat (S pos) - 1), W_lower, W_tmp)
        else search_up fuel' cdf W streamval (S pos) W_tmp data
  end.

(** Linear search downwards from an entry not below the code value. *)
Fixpoint search_down (cdf : list Z) (W streamval : Z) (pos : nat) (W_tmp : Z)
    (data : list Z) : stmt Bitstr_dec dec_ret (Z * Z * Z) :=
  let W_upper := W_tmp in
  match pos with
  | O => return_ (-3, data)
  | S q =>
      let! c := mem (cdf !! q) in
      let W_tmp := dec_scale1 W c in
      if W_tmp <? streamval then ret (s16 (Z.of_nat q), W_tmp, W_upper)
      else search_down cdf W streamval q W_tmp data
  end.

Fixpoint DecHistOneStepMulti_loop (k : nat) (cdf : list (list Z)) (initIndex : list Z)
    (ptr : nat) (W_upper streamval : Z) (data : list Z) :
    stmt Bitstr_dec dec_ret (nat * Z * Z * list Z) :=
  match k with
  | O => ret (ptr, W_upper, streamval, data)
  | S k' =>
      match cdf, initIndex with
      | c :: cdf', i0 :: initIndex' =>
          let pos := Z.to_nat i0 in
          let! c0 := mem (c !! pos) in
          let W_tmp := dec_scale1 W_upper c0 in
          let! r := (if W_tmp <? streamval
                     then search_up (length c) c W_upper streamval pos W_tmp data
                     else search_down c W_upper streamval pos W_tmp data) in
          let '(d, W_lower, W_upper) := r in
          let data := data ++ [d] in
          let W_lower := u32 (W_lower + 1) in
          let W_upper := u32 (W_upper - W_lower) in
          let streamval := u32 (streamval - W_lower) in
          let! r := dec_renorm dec_fuel ptr W_upper streamval in
          let '(ptr, W_upper, streamval) := r in
          DecHistOneStepMulti_loop k' cdf' initIndex' ptr W_upper streamval data
      | _, _ => fun _ => Fault
      end
  end.

Definition WebRtcIsacfix_DecHistOneStepMulti {R} (cdf : list (list Z)) (initIndex : list Z)
    (lenData : Z) : stmt Bitstr_dec R dec_ret :=
  fn (let! s := get in
      if d_W_upper s =? 0 then return_ (-2, [])
      else
        let! r := dec_start in
        let! r := DecHistOneStepMulti_loop (Z.to_nat lenData) cdf initIndex r.1
                    (d_W_upper s) r.2 [] in
        let '(ptr, W_upper, streamval, data) := r in
        dec_finish ptr W_upper streamval data).

End dec.

(** ** Representation

    [drep s ptr sv a]: the decoder has read the first [nb a + 4] bytes of its
    buffer, and its code value is the stream's offset in the interval of [a]. *)

(** The words from [stream_size] on are zero, as the reset leaves them. *)
Definition tail0 (s : Bitstr_dec) : Prop :=
  forall i w, d_stream s !! i = Some w -> d_stream_size s <= Z.of_nat i -> w = 0.

Record drep (s : Bitstr_dec) (ptr : nat) (sv : Z) (a : ac) : Prop := {
  drep_len : length (d_stream s) = INTERNAL_STREAM_SIZE_W16;
  drep_u16 : Forall is_u16 (d_stream s);
  drep_tail : tail0 s;
  drep_full : d_full s = 0 \/ d_full s = 1;
  drep_nb : Z.of_nat (nb a) + 4 = 2 * Z.of_nat ptr + (1 - d_full s);
  drep_sv : sv = offset a (wbyte (d_stream s));
}.

(** A decoder between two calls on the stream [d_stream s]: new, or after
    symbols that led the encoder to [a]. *)
Record dec_state (s : Bitstr_dec) (a : ac) : Prop := {
  ds_rng : d_W_upper s = rng a;
  ds_ok : ac_ok a;
  ds_rep :
    (a = ac_init /\ d_stream_index s = 0 /\ d_full s = 1 /\
     length (d_stream s) = INTERNAL_STREAM_SIZE_W16 /\ Forall is_u16 (d_stream s) /\ tail0 s) \/
    (0 < d_stream_index s /\
     drep s (Z.to_nat (d_stream_index s)) (d_streamval s) a);
}.

Lemma dec_start_spec {R} s a :
  dec_state s a ->
  exists ptr sv, @dec_start R s = Next (ptr, sv) s /\ drep s ptr sv a.
Proof.
  intros [_ _ [(-> & Hi & Hf & HL & HU & HT)|[Hi Hr]]]; unfold dec_start; rewrite bind_get.
  - rewrite Hi, Z.eqb_refl. change (Z.to_nat 0) with 0%nat.
    destruct (lookup_lt_is_Some_2 (d_stream s) 0 ltac:(rewrite HL; unfold INTERNAL_STREAM_SIZE_W16; lia))
      as [w0 E0].
    destruct (lookup_lt_is_Some_2 (d_stream s) 1 ltac:(rewrite HL; unfold INTERNAL_STREAM_SIZE_W16; lia))
      as [w1 E1].
    rewrite (bind_mem _ _ _ _ E0), (bind_mem _ _ _ _ E1).
    pose proof (Forall_lookup_1 _ _ _ _ HU E0). pose proof (Forall_lookup_1 _ _ _ _ HU E1).
    do 2 eexists. split; [done|]. split; [done|done|done|lia|simpl; lia|].
    rewrite shiftl_mul, u32_id, (lor_disjoint _ _ 16) by (lia || dmlia).
    unfold offset. simpl. change (0 + 4)%nat with (2 * 1 + 2)%nat.
    rewrite (pre_word2 _ _ _ E1). change (2 * 1)%nat with (2 * 0 + 2)%nat.
    rewrite (pre_word2 _ _ _ E0). change (pre _ (2 * 0)) with 0. lia.
  - rewrite (proj2 (Z.eqb_neq _ _)) by lia. eauto.
Qed.

(** Reading a byte extends the code value by the stream's next byte. *)
Lemma dec_byte_spec {R} s ptr sv a :
  drep s ptr sv a -> 0 <= sv < 2 ^ 24 -> (nb a + 4 < 2 * INTERNAL_STREAM_SIZE_W16)%nat ->
  exists s' ptr' sv', @dec_byte R ptr sv s = Next (ptr', sv') s' /\
    drep s' ptr' sv' (shift 1 a) /\ d_stream s' = d_stream s.
Proof.
  intros [HL HU HT Hf Hnb Hsv] Hr Hin. unfold dec_byte. rewrite bind_get.
  destruct (lookup_lt_is_Some_2 (d_stream s) ptr ltac:(lia)) as [w Ew].
  pose proof (Forall_lookup_1 _ _ _ _ HU Ew) as Hw. rewrite (bind_mem _ _ _ _ Ew).
  rewrite shiftl_mul, u32_id by (lia || clia).
  assert (Hoff : offset (shift 1 a) (wbyte (d_stream s)) =
                   sv * 256 + wbyte (d_stream s) (nb a + 4)).
  { unfold offset in *. simpl. replace (nb a + 1 + 4)%nat with (S (nb a + 4)) by lia.
    rewrite pre_S. change (256 ^ Z.of_nat 1) with 256. lia. }
  bcase; run.
  - replace (nb a + 4)%nat with (2 * ptr + 1)%nat in Hoff by lia.
    rewrite (wbyte_odd _ _ _ Ew) in Hoff.
    do 3 eexists. split; [done|]. split; [|done]. split; simpl; try done; try lia.
    rewrite Hoff, land_low8, (lor_disjoint _ _ 8) by (lia || dmlia). done.
  - replace (nb a + 4)%nat with (2 * ptr)%nat in Hoff by lia.
    rewrite (wbyte_even _ _ _ Ew) in Hoff.
    do 3 eexists. split; [done|]. split; [|done]. split; simpl; try done; try lia.
    rewrite Hoff, shiftr_div, (lor_disjoint _ _ 8) by (lia || dmlia). done.
Qed.

Lemma offset_contains a bs : contains a bs <-> 0 <= offset a bs <= rng a.
Proof. unfold contains, offset. lia. Qed.

Lemma dec_renorm_spec {R} fuel s ptr sv a :
  drep s ptr sv a -> 1 <= rng a < 2 ^ 32 -> (nshift (rng a) < fuel)%nat ->
  (nb (renorm a) + 4 <= 2 * INTERNAL_STREAM_SIZE_W16)%nat ->
  contains (renorm a) (wbyte (d_stream s)) ->
  exists s' ptr' sv', @dec_renorm R fuel ptr (rng a) sv s = Next (ptr', rng (renorm a), sv') s' /\
    drep s' ptr' sv' (renorm a) /\ d_stream s' = d_stream s.
Proof.
  revert s ptr sv a. induction fuel as [|fuel IH]; intros s ptr sv a Hr Hrng Hf Hin Hc; [lia|].
  cbn [dec_renorm]. rewrite land_top8 by clia.
  destruct (Z.ltb_spec (rng a) (2 ^ 24)).
  - rewrite <- (renorm_shift1 a) in Hin, Hc |- * by lia.
    rewrite (nshift_small (rng a)) in Hf by lia.
    rewrite shiftl_mul, u32_id by (lia || clia).
    assert (contains (shift 1 a) (wbyte (d_stream s))) as Hc1.
    { eapply contains_shift, Hc. apply wbyte_bytes, Hr. }
    assert (contains a (wbyte (d_stream s))) as Hc0.
    { eapply contains_shift, Hc1. apply wbyte_bytes, Hr. }
    apply offset_contains in Hc0. rewrite <- (drep_sv _ _ _ _ Hr) in Hc0.
    assert (nb a + 4 < 2 * INTERNAL_STREAM_SIZE_W16)%nat as Hin1 by (simpl in Hin; lia).
    destruct (@dec_byte_spec R s ptr sv a Hr ltac:(lia) Hin1) as (s1 & p1 & v1 & E1 & Hr1 & S1).
    rewrite (bind_Next _ _ _ _ _ E1). cbn [fst snd].
    change (rng a * 2 ^ 8) with (rng (shift 1 a)).
    destruct (IH s1 p1 v1 (shift 1 a) Hr1) as (s2 & p2 & v2 & E2 & Hr2 & S2);
      [|change (rng (shift 1 a)) with (rng a * 256); lia|done|by rewrite S1|].
    + change (rng (shift 1 a)) with (rng a * 256). lia.
    + exists s2, p2, v2. rewrite S2. done.
  - rewrite renorm_big by lia. eauto 10.
Qed.

Section search.
Context `{SplLaws}.

Lemma dec_scale_spec W c : is_u32 W -> 0 <= c < 65536 -> dec_scale W c = scale W c.
Proof.
  intros HW Hc. unfold dec_scale, W_tmp_of.
  rewrite spl_umul_32_16_spec, scale_words; [done|done|done| |clia].
  rewrite shiftr_div by lia. dmlia.
Qed.

Lemma dec_scale1_spec W c : is_u32 W -> 0 <= c < 65536 -> dec_scale1 W c = scale W c.
Proof.
  intros HW Hc. rewrite <- (dec_scale_spec W c HW Hc). unfold dec_scale1, dec_scale.
  by rewrite spl_rshift_u32_spec, shiftr_div by (done || lia).
Qed.

(** The loop invariant of the binary search: the symbol lies between the table
    positions [pos - 2^j] and [pos + 2^j], whose code values, where they are
    inside the table, are the current ends. *)
Lemma bisect_spec {R} j fuel cdf W x s iv pos W_lower W_upper st :
  cdf_ok cdf -> is_u32 W -> sym_iv cdf s iv -> scale W iv.1 < x <= scale W iv.2 ->
  (j < fuel)%nat -> Z.of_nat (length cdf) < 2 ^ 15 ->
  0 <= pos < Z.of_nat (length cdf) ->
  -1 <= pos - 2 ^ Z.of_nat j -> pos + 2 ^ Z.of_nat j <= Z.of_nat (length cdf) ->
  pos - 2 ^ Z.of_nat j <= Z.of_nat s < pos + 2 ^ Z.of_nat j ->
  (forall c, zget cdf (pos - 2 ^ Z.of_nat j) = Some c -> W_lower = scale W c) ->
  (forall c, zget cdf (pos + 2 ^ Z.of_nat j) = Some c -> W_upper = scale W c) ->
  @bisect _ R fuel cdf W x (2 ^ Z.of_nat j) pos W_lower W_upper st =
    Next (Z.of_nat s, scale W iv.1, scale W iv.2) st.
Proof.
  intros Hc HW Hs Hx Hj Hlen. revert fuel pos W_lower W_upper Hj.
  pose proof Hs as (A1 & A2 & _).
  induction j as [|j IH]; intros [|fuel] pos W_lower W_upper Hj Hpos Hlo Hhi Hin HL HU; try lia;
    cbn [bisect];
    (destruct (lookup_lt_is_Some_2 cdf (Z.to_nat pos) ltac:(lia)) as [c Ec]);
    (assert (zget cdf pos = Some c) as Eg by (rewrite <- (zget_nat _ _ _ Ec); f_equal; lia));
    rewrite (bind_mem _ _ _ _ Eg), (dec_scale_spec W c HW (proj1 Hc _ _ Ec));
    pose proof (sym_compare cdf W x s iv _ c Hc ltac:(clia) Hs Hx Ec) as Hcmp.
  - change (Z.quot (2 ^ Z.of_nat 0) 2 =? 0) with true. cbn iota.
    change (2 ^ Z.of_nat 0) with 1 in *. destruct (Z.ltb_spec (scale W c) x) as [Hlt|Hge].
    + assert (pos = Z.of_nat s) as -> by lia. rewrite Nat2Z.id in Ec.
      assert (W_upper = scale W iv.2) as ->.
      { apply HU. rewrite <- (zget_nat _ _ _ A2). f_equal. lia. }
      assert (c = iv.1) as -> by congruence. rewrite s16_id by clia. done.
    + assert (pos = Z.of_nat (S s)) as -> by lia. rewrite Nat2Z.id in Ec.
      assert (W_lower = scale W iv.1) as ->.
      { apply HL. rewrite <- (zget_nat _ _ _ A1). f_equal. lia. }
      assert (c = iv.2) as -> by congruence. rewrite s16_id by clia.
      replace (Z.of_nat (S s) - 1) with (Z.of_nat s) by lia. done.
  - rewrite Nat2Z.inj_succ, Z.pow_succ_r in * by lia.
    rewrite (Z.mul_comm 2 (2 ^ _)), Z.quot_mul by lia.
    assert (0 < 2 ^ Z.of_nat j) by (apply Z.pow_pos_nonneg; lia).
    rewrite (proj2 (Z.eqb_neq _ _)) by lia.
    destruct (Z.ltb_spec (scale W c) x) as [Hlt|Hge]; apply IH; try lia.
    + intros c' Ec'. replace (pos + 2 ^ Z.of_nat j - 2 ^ Z.of_nat j) with pos in Ec' by lia.
      congruence.
    + intros c' Ec'. apply HU. rewrite <- Ec'. f_equal. lia.
    + intros c' Ec'. apply HL. rewrite <- Ec'. f_equal. lia.
    + intros c' Ec'. replace (pos - 2 ^ Z.of_nat j + 2 ^ Z.of_nat j) with pos in Ec' by lia.
      congruence.
Qed.

Lemma search_up_spec fuel cdf W x s iv pos c data st :
  cdf_ok cdf -> is_u32 W -> sym_iv cdf s iv -> scale W iv.1 < x <= scale W iv.2 ->
  Z.of_nat (length cdf) < 2 ^ 15 ->
  cdf !! pos = Some c -> (pos <= s)%nat -> (s < pos + fuel)%nat ->
  search_up fuel cdf W x pos (scale W c) data st =
    Next (Z.of_nat s, scale W iv.1, scale W iv.2) st.
Proof.
  intros Hc HW Hs Hx Hlen. revert pos c. pose proof Hs as (A1 & A2 & Hlt).
  apply lookup_lt_Some in A2 as Hl2.
  induction fuel as [|fuel IH]; intros pos c Ec Hpos Hf; [lia|].
  cbn [search_up]. rewrite (bind_mem _ _ _ _ Ec).
  rewrite (proj2 (Z.eqb_neq c 65535)).
  2:{ pose proof (proj2 Hc _ _ _ _ Hpos Ec A1). pose proof (proj1 Hc _ _ A2). lia. }
  destruct (lookup_lt_is_Some_2 cdf (S pos) ltac:(lia)) as [c' Ec'].
  rewrite (bind_mem _ _ _ _ Ec'), (dec_scale1_spec W c' HW (proj1 Hc _ _ Ec')).
  pose proof (sym_compare cdf W x s iv _ c' Hc ltac:(clia) Hs Hx Ec') as Hcmp.
  destruct (Z.leb_spec x (scale W c')).
  - assert (pos = s) as -> by lia. rewrite s16_id by clia.
    replace (Z.of_nat (S s) - 1) with (Z.of_nat s) by lia.
    by replace c with iv.1 by congruence; replace c' with iv.2 by congruence.
  - apply IH; [done|lia|lia].
Qed.

Lemma search_down_spec cdf W x s iv pos c data st :
  cdf_ok cdf -> is_u32 W -> sym_iv cdf s iv -> scale W iv.1 < x <= scale W iv.2 ->
  Z.of_nat (length cdf) < 2 ^ 15 ->
  cdf !! pos = Some c -> (s < pos)%nat ->
  search_down cdf W x pos (scale W c) data st =
    Next (Z.of_nat s, scale W iv.1, scale W iv.2) st.
Proof.
  intros Hc HW Hs Hx Hlen. revert c. pose proof Hs as (A1 & A2 & Hlt).
  apply lookup_lt_Some in A2 as Hl2.
  induction pos as [|q IH]; intros c Ec Hpos; [lia|].
  cbn [search_down]. apply lookup_lt_Some in Ec as Hl.
  destruct (lookup_lt_is_Some_2 cdf q ltac:(lia)) as [c' Ec'].
  rewrite (bind_mem _ _ _ _ Ec'), (dec_scale1_spec W c' HW (proj1 Hc _ _ Ec')).
  pose proof (sym_compare cdf W x s iv _ c' Hc ltac:(clia) Hs Hx Ec') as Hcmp.
  destruct (Z.ltb_spec (scale W c') x).
  - assert (q = s) as -> by lia. rewrite s16_id by clia.
    by replace c with iv.2 by congruence; replace c' with iv.1 by congruence.
  - apply IH; [done|lia].
Qed.
End search.

(** ** Following the encoder *)

(** After a symbol, the decoder's new width and code value are those of the
    encoder's next interval. *)
Lemma dec_advance {R} s ptr sv a iv :
  drep s ptr sv a -> ac_ok a -> iv_ok iv ->
  (nb (step a iv) + 4 <= 2 * INTERNAL_STREAM_SIZE_W16)%nat ->
  contains (step a iv) (wbyte (d_stream s)) ->
  let W_lower := u32 (scale (rng a) iv.1 + 1) in
  exists s' ptr' sv',
    @dec_renorm R dec_fuel ptr (u32 (scale (rng a) iv.2 - W_lower)) (u32 (sv - W_lower)) s =
      Next (ptr', rng (step a iv), sv') s' /\
    drep s' ptr' sv' (step a iv) /\ d_stream s' = d_stream s.
Proof.
  intros Hr Ha Hiv Hin Hc. pose proof (narrow_ok a iv Ha Hiv) as (Hn1 & Hn2 & Hn3).
  pose proof Ha as (Hl & Hrg & Hs). pose proof Hiv as (Hi1 & Hi2 & Hi3).
  pose proof (scale_nonneg (rng a) iv.1 ltac:(lia) Hi1).
  pose proof (scale_le (rng a) iv.2 ltac:(lia) ltac:(lia)).
  destruct (contains_step a iv _ (wbyte_bytes _ (drep_u16 _ _ _ _ Hr)) Ha Hiv Hc) as (Hcn & _ & Hx).
  rewrite <- (drep_sv _ _ _ _ Hr) in Hx. cbn [narrow low rng nb] in Hn1, Hn2, Hn3.
  cbv zeta. rewrite (u32_id (scale (rng a) iv.1 + 1)) by clia.
  rewrite (u32_id (scale (rng a) iv.2 - _)), (u32_id (sv - _)) by clia.
  assert (Hr' : drep s ptr (sv - (scale (rng a) iv.1 + 1)) (narrow a iv)).
  { destruct Hr as [HL HU HT Hf Hnb Hsv]. split; try done. rewrite Hsv. unfold offset. simpl. lia. }
  replace (scale (rng a) iv.2 - (scale (rng a) iv.1 + 1)) with (rng (narrow a iv)) by (simpl; lia).
  apply (@dec_renorm_spec R dec_fuel) in Hr'; [exact Hr'|simpl; lia| |done|done].
  unfold dec_fuel, nshift. repeat bcase; lia.
Qed.

(** A stream of the final interval determines the next symbol's window. *)
Lemma next_window s ptr sv a iv ivs :
  drep s ptr sv a -> ac_ok a -> iv_ok iv -> Forall iv_ok ivs ->
  contains (steps (step a iv) ivs) (wbyte (d_stream s)) ->
  contains (step a iv) (wbyte (d_stream s)) /\ is_u32 (rng a) /\
  scale (rng a) iv.1 < sv <= scale (rng a) iv.2.
Proof.
  intros Hr Ha Hiv Hivs Hc. assert (HU := wbyte_bytes _ (drep_u16 _ _ _ _ Hr)).
  assert (contains (step a iv) (wbyte (d_stream s))) as Hc1
    by (eapply contains_steps, Hc; eauto using step_ok).
  destruct (contains_step a iv _ HU Ha Hiv Hc1) as (_ & _ & Hx).
  rewrite <- (drep_sv _ _ _ _ Hr) in Hx. destruct Ha as (_ & Hrg & _). split_and!; done || clia.
Qed.

(** An initial search index is inside its table. *)
Definition init_ok (c : list Z) (i : Z) : Prop :=
  0 <= i < Z.of_nat (length c) /\ Z.of_nat (length c) < 2 ^ 15.

(** A table for binary search: [2^(k+1) - 1] entries and the size [2^(k+1)]. *)
Definition size_ok (c : list Z) (size : Z) : Prop :=
  exists k, (k < 14)%nat /\ size = 2 ^ Z.of_nat (S k) /\
    Z.of_nat (length c) = 2 ^ Z.of_nat (S k) - 1.

Section multi.
Context `{SplLaws}.

Lemma DecHistOneStepMulti_loop_spec s ptr sv a data cdf ivs inits acc :
  drep s ptr sv a -> ac_ok a -> Forall3 sym_of data cdf ivs -> Forall2 init_ok cdf inits ->
  (nb (steps a ivs) + 4 <= 2 * INTERNAL_STREAM_SIZE_W16)%nat ->
  contains (steps a ivs) (wbyte (d_stream s)) ->
  exists s' ptr' sv',
    DecHistOneStepMulti_loop (length data) cdf inits ptr (rng a) sv acc s =
      Next (ptr', rng (steps a ivs), sv', acc ++ data) s' /\
    drep s' ptr' sv' (steps a ivs) /\ d_stream s' = d_stream s.
Proof.
  intros Hr Ha Hd. revert s ptr sv a inits acc Hr Ha.
  induction Hd as [|d c iv data cdf ivs Hdc Hd IH]; intros s ptr sv a inits acc Hr Ha Hi Hin Hc.
  - exists s, ptr, sv. rewrite app_nil_r. done.
  - inversion Hi as [|c' i cdf' inits' [Hi1 Hi2] Hi' E1 E2]; subst. cbn [length DecHistOneStepMulti_loop].
    change (steps a (iv :: ivs)) with (steps (step a iv) ivs) in *.
    apply sym_of_ok in Hdc as Hiv. destruct Hdc as (Hcdf & n & -> & Hs).
    destruct (next_window _ _ _ _ _ _ Hr Ha Hiv (syms_of_ok _ _ _ Hd) Hc) as (Hc1 & HW & Hx).
    destruct (lookup_lt_is_Some_2 c (Z.to_nat i) ltac:(lia)) as [c0 Ec0].
    rewrite (bind_mem _ _ _ _ Ec0), (dec_scale1_spec _ _ HW (proj1 Hcdf _ _ Ec0)).
    pose proof (sym_compare c (rng a) sv n iv _ c0 Hcdf ltac:(clia) Hs Hx Ec0) as Hcmp.
    assert ((if scale (rng a) c0 <? sv
             then search_up (length c) c (rng a) sv (Z.to_nat i) (scale (rng a) c0) acc
             else search_down c (rng a) sv (Z.to_nat i) (scale (rng a) c0) acc) s =
            Next (Z.of_nat n, scale (rng a) iv.1, scale (rng a) iv.2) s) as Esearch.
    { destruct Hs as (A1 & A2 & A3). apply lookup_lt_Some in A2 as ?.
      bcase; [apply search_up_spec|apply search_down_spec]; try done; lia. }
    rewrite (bind_Next _ _ _ _ _ Esearch).
    pose proof (nb_steps (step a iv) ivs).
    destruct (@dec_advance dec_ret s ptr sv a iv Hr Ha Hiv ltac:(lia) Hc1)
      as (s1 & p1 & v1 & E1 & Hr1 & S1).
    rewrite (bind_Next _ _ _ _ _ E1).
    destruct (IH s1 p1 v1 (step a iv) inits' (acc ++ [Z.of_nat n]) Hr1) as (s2 & p2 & v2 & E2 & Hr2 & S2);
      [by apply step_ok|done|done|by rewrite S1|].
    exists s2, p2, v2. rewrite <- app_assoc in E2. rewrite S2, S1. done.
Qed.

Lemma DecHistBisectMulti_loop_spec s ptr sv a data cdf ivs sizes W_lower acc :
  drep s ptr sv a -> ac_ok a -> Forall3 sym_of data cdf ivs -> Forall2 size_ok cdf sizes ->
  (nb (steps a ivs) + 4 <= 2 * INTERNAL_STREAM_SIZE_W16)%nat ->
  contains (steps a ivs) (wbyte (d_stream s)) ->
  exists s' ptr' sv',
    DecHistBisectMulti_loop (length data) cdf sizes ptr W_lower (rng a) sv acc s =
      Next (ptr', rng (steps a ivs), sv', acc ++ data) s' /\
    drep s' ptr' sv' (steps a ivs) /\ d_stream s' = d_stream s.
Proof.
  intros Hr Ha Hd. revert s ptr sv a sizes W_lower acc Hr Ha.
  induction Hd as [|d c iv data cdf ivs Hdc Hd IH]; intros s ptr sv a sizes W_lower acc Hr Ha Hi Hin Hc.
  - exists s, ptr, sv. rewrite app_nil_r. done.
  - inversion Hi as [|c' i cdf' sizes' (k & Hk & -> & Hlen) Hi' E1 E2]; subst.
    cbn [length DecHistBisectMulti_loop].
    change (steps a (iv :: ivs)) with (steps (step a iv) ivs) in *.
    apply sym_of_ok in Hdc as Hiv. destruct Hdc as (Hcdf & n & -> & Hs).
    destruct (next_window _ _ _ _ _ _ Hr Ha Hiv (syms_of_ok _ _ _ Hd) Hc) as (Hc1 & HW & Hx).
    assert (Hk2 : 0 < 2 ^ Z.of_nat k <= 2 ^ 13).
    { split; [apply Z.pow_pos_nonneg; lia|]. apply Z.pow_le_mono_r; lia. }
    assert (Eq : s16 (Z.quot (2 ^ Z.of_nat (S k)) 2) = 2 ^ Z.of_nat k).
    { rewrite Nat2Z.inj_succ, Z.pow_succ_r, Z.mul_comm, Z.quot_mul by lia.
      apply s16_id. widths. change (2 ^ 13) with 8192 in Hk2. lia. }
    rewrite Nat2Z.inj_succ, Z.pow_succ_r in Hlen by lia. rewrite Eq.
    destruct Hs as (A1 & A2 & A3). apply lookup_lt_Some in A2 as Hl2.
    assert (Ebis := @bisect_spec _ _ dec_ret k bisect_fuel c (rng a) sv n iv (2 ^ Z.of_nat k - 1)
      W_lower (rng a) s Hcdf HW ltac:(done) Hx).
    rewrite (bind_Next _ _ _ _ _ (Ebis ltac:(unfold bisect_fuel; lia) ltac:(change (2 ^ 13) with 8192 in *; widths; lia)
      ltac:(lia) ltac:(lia) ltac:(lia) ltac:(lia)
      ltac:(intros c' Ec'; replace (_ - _ - _) with (-1) in Ec' by lia; done)
      ltac:(intros c' Ec'; unfold zget in Ec'; destruct (_ <? 0); [done|];
            apply lookup_lt_Some in Ec'; lia))).
    pose proof (nb_steps (step a iv) ivs).
    destruct (@dec_advance dec_ret s ptr sv a iv Hr Ha Hiv ltac:(lia) Hc1)
      as (s1 & p1 & v1 & E1 & Hr1 & S1).
    rewrite (bind_Next _ _ _ _ _ E1).
    assert (ac_ok (step a iv)) as Ha1 by by apply step_ok.
    rewrite (proj2 (Z.eqb_neq _ _)) by (destruct Ha1; lia).
    destruct (IH s1 p1 v1 (step a iv) sizes' (u32 (scale (rng a) iv.1 + 1)) (acc ++ [Z.of_nat n]) Hr1)
      as (s2 & p2 & v2 & E2 & Hr2 & S2); [done|done|done|by rewrite S1|].
    exists s2, p2, v2. rewrite <- app_assoc in E2. rewrite S2, S1. done.
Qed.

(** The end of a call: the decoder's length is the encoder's. *)
Lemma dec_finish_spec {R} s ptr sv a data :
  drep s ptr sv a -> ac_ok a -> (nb a + 4 <= 2 * INTERNAL_STREAM_SIZE_W16)%nat ->
  exists s', @dec_finish R ptr (rng a) sv data s = Next (Z.of_nat (final_len a), data) s' /\
    dec_state s' a /\ d_stream s' = d_stream s.
Proof.
  intros [HL HU HT Hf Hnb Hsv] Ha Hin. unfold INTERNAL_STREAM_SIZE_W16 in Hin.
  assert (dec_length (mkBitstr_dec (d_stream s) (rng a) sv (u16 (Z.of_nat ptr)) (d_full s)
            (d_stream_size s)) = Z.of_nat (final_len a)) as El.
  { unfold dec_length, final_len. simpl. rewrite (u16_id (Z.of_nat ptr)) by clia.
    destruct (0x01FFFFFF <? rng a); rewrite s16_id; repeat bcase; clia. }
  unfold dec_finish. run. rewrite El. eexists. split; [done|].
  split; [|done]. split; simpl; [done|done|].
  right. rewrite u16_id, Nat2Z.id by clia. split; [lia|]. by split.
Qed.

Lemma dec_state_rng_nz s a : dec_state s a -> (d_W_upper s =? 0) = false.
Proof. intros [-> (_ & H1 & _) _]. apply Z.eqb_neq. lia. Qed.

Lemma DecHistOneStepMulti_spec {R} s a data cdf ivs inits :
  dec_state s a -> Forall3 sym_of data cdf ivs -> Forall2 init_ok cdf inits ->
  (nb (steps a ivs) + 4 <= 2 * INTERNAL_STREAM_SIZE_W16)%nat ->
  contains (steps a ivs) (wbyte (d_stream s)) ->
  exists s', @WebRtcIsacfix_DecHistOneStepMulti _ R cdf inits (Z.of_nat (length data)) s =
      Next (Z.of_nat (final_len (steps a ivs)), data) s' /\
    dec_state s' (steps a ivs) /\ d_stream s' = d_stream s.
Proof.
  intros Hs Hd Hi Hin Hc. unfold WebRtcIsacfix_DecHistOneStepMulti, fn.
  rewrite bind_get, (dec_state_rng_nz s a Hs), (ds_rng _ _ Hs), Nat2Z.id.
  destruct (@dec_start_spec dec_ret s a Hs) as (p0 & v0 & E0 & Hr0).
  rewrite (bind_Next _ _ _ _ _ E0). cbn [fst snd].
  destruct (DecHistOneStepMulti_loop_spec s p0 v0 a data cdf ivs inits [] Hr0 (ds_ok _ _ Hs) Hd Hi Hin Hc)
    as (s1 & p1 & v1 & E1 & Hr1 & S1).
  rewrite (bind_Next _ _ _ _ _ E1).
  assert (ac_ok (steps a ivs)) by (eapply steps_ok; eauto using syms_of_ok, ds_ok).
  destruct (@dec_finish_spec dec_ret s1 p1 v1 (steps a ivs) data Hr1) as (s2 & E2 & Hs2 & S2); [done..|].
  cbn [app]. rewrite E2. exists s2. by rewrite S2.
Qed.

Lemma DecHistBisectMulti_spec {R} s a data cdf ivs sizes :
  dec_state s a -> Forall3 sym_of data cdf ivs -> Forall2 size_ok cdf sizes ->
  (nb (steps a ivs) + 4 <= 2 * INTERNAL_STREAM_SIZE_W16)%nat ->
  contains (steps a ivs) (wbyte (d_stream s)) ->
  exists s', @WebRtcIsacfix_DecHistBisectMulti _ R cdf sizes (Z.of_nat (length data)) s =
      Next (Z.of_nat (final_len (steps a ivs)), data) s' /\
    dec_state s' (steps a ivs) /\ d_stream s' = d_stream s.
Proof.
  intros Hs Hd Hi Hin Hc. unfold WebRtcIsacfix_DecHistBisectMulti, fn.
  rewrite bind_get, (dec_state_rng_nz s a Hs), (ds_rng _ _ Hs), Nat2Z.id.
  destruct (@dec_start_spec dec_ret s a Hs) as (p0 & v0 & E0 & Hr0).
  rewrite (bind_Next _ _ _ _ _ E0). cbn [fst snd].
  destruct (DecHistBisectMulti_loop_spec s p0 v0 a data cdf ivs sizes 0 [] Hr0 (ds_ok _ _ Hs) Hd Hi Hin Hc)
    as (s1 & p1 & v1 & E1 & Hr1 & S1).
  rewrite (bind_Next _ _ _ _ _ E1).
  assert (ac_ok (steps a ivs)) by (eapply steps_ok; eauto using syms_of_ok, ds_ok).
  destruct (@dec_finish_spec dec_ret s1 p1 v1 (steps a ivs) data Hr1) as (s2 & E2 & Hs2 & S2); [done..|].
  cbn [app]. rewrite E2. exists s2. by rewrite S2.
Qed.
End multi.

(** Tables after those of the symbols are not looked at. *)
Lemma DecHistBisectMulti_loop_extra `{SplOps} cdf cdf' sizes sizes' ptr W_lower W_upper sv acc s :
  length cdf = length sizes ->
  DecHistBisectMulti_loop (length cdf) (cdf ++ cdf') (sizes ++ sizes') ptr W_lower W_upper sv acc s =
  DecHistBisectMulti_loop (length cdf) cdf sizes ptr W_lower W_upper sv acc s.
Proof.
  revert sizes ptr W_lower W_upper sv acc s.
  induction cdf as [|c cdf IH]; intros [|z sizes] ptr W_lower W_upper sv acc s HL; try done.
  injection HL as HL. cbn [length app DecHistBisectMulti_loop]. unfold bind.
  destruct (bisect _ _ _ _ _ _ _ _ s) as [[[d l] u] s1|r s1| |]; try done.
  destruct (dec_renorm _ _ _ _ s1) as [[[p w] v] s2|r s2| |]; try done.
  destruct (w =? 0); [done|]. by apply IH.
Qed.

Lemma DecHistBisectMulti_extra `{SplOps} {R} cdf cdf' sizes n s :
  length cdf = length sizes -> n = Z.of_nat (length cdf) ->
  @WebRtcIsacfix_DecHistBisectMulti _ R (cdf ++ cdf') sizes n s =
  @WebRtcIsacfix_DecHistBisectMulti _ R cdf sizes n s.
Proof.
  intros HL ->. unfold WebRtcIsacfix_DecHistBisectMulti, fn, bind, get.
  destruct (d_W_upper s =? 0); [done|]. destruct (dec_start s) as [[p v] s1|r s1| |]; try done.
  rewrite Nat2Z.id. cbn [fst snd].
  pose proof (DecHistBisectMulti_loop_extra cdf cdf' sizes [] p 0 (d_W_upper s) v [] s1 HL) as E.
  rewrite app_nil_r in E. by rewrite E.
Qed.
