(* ===== verification/IsacFixStream.v ===== *)
(** * The interface of the arithmetic coder of iSAC fixed point

    What the entropy coder relies on: [Encodes] and [Decodes] state that an
    encoding or decoding routine appends, or reads, the symbols of given
    frequency intervals. Both are closed under the sequencing the callers use.
    The byte order conversion and the reset of the decoder of [isacfix.c]
    connect the two sides: what [Encodes] has written, [Decodes] reads. *)

From S2P Require Import Prelude Spl ArithSpec IsacFixArith IsacFixDec.

Open Scope c_scope.

#[local] Arguments Nat.mul : simpl never.
#[local] Arguments Nat.add : simpl never.
#[local] Arguments Z.mul : simpl never.
#[local] Arguments Nat.div : simpl never.
#[local] Arguments Nat.modulo : simpl never.
#[local] Arguments pre : simpl never.

(** ** Byte order ([isacfix.c]) *)

Fixpoint read_be16_loop (k i : nat) (src dest : list Z) : option (list Z) :=
  match k with
  | O => Some dest
  | S k' =>
      a ← src !! (2 * i)%nat;
      b ← src !! (2 * i + 1)%nat;
      dest ← store dest i (u16 (Z.lor (Z.shiftl a 8) b));
      read_be16_loop k' (S i) src dest
  end.

Definition read_be16 (src : list Z) (nbytes : nat) (dest : list Z) : option (list Z) :=
  dest ← read_be16_loop (nbytes / 2) 0 src dest;
  if (nbytes mod 2 =? 1)%nat then
    a ← src !! (nbytes - 1)%nat;
    store dest (nbytes / 2) (u16 (Z.shiftl a 8))
  else Some dest.

Fixpoint write_be16_loop (k i : nat) (src dest : list Z) : option (list Z) :=
  match k with
  | O => Some dest
  | S k' =>
      w ← src !! i;
      dest ← store dest (2 * i) (u8 (Z.shiftr w 8));
      dest ← store dest (2 * i + 1) (u8 w);
      write_be16_loop k' (S i) src dest
  end.

Definition write_be16 (src : list Z) (nbytes : nat) (dest : list Z) : option (list Z) :=
  dest ← write_be16_loop (nbytes / 2) 0 src dest;
  if (nbytes mod 2 =? 1)%nat then
    w ← src !! (nbytes / 2)%nat;
    dest ← store dest (nbytes - 1) (u8 (Z.shiftr w 8));
    store dest nbytes 0
  else Some dest.

Definition InitializeDecoderBitstream (stream_size_bytes : Z) : Bitstr_dec :=
  mkBitstr_dec (replicate INTERNAL_STREAM_SIZE_W16 0) 0xFFFFFFFF 0 0 1
    (Z.shiftr (stream_size_bytes + 1) 1).

Definition set_dstream (l : list Z) (s : Bitstr_dec) : Bitstr_dec :=
  mkBitstr_dec l (d_W_upper s) (d_streamval s) (d_stream_index s) (d_full s) (d_stream_size s).

(** What [WebRtcIsacfix_Decode] does with a payload before decoding. *)
Definition load_payload (encoded : list Z) (len : nat) : option Bitstr_dec :=
  let s := InitializeDecoderBitstream (Z.of_nat len) in
  l ← read_be16 encoded len (d_stream s);
  Some (set_dstream l s).

(** ** Bytes and words *)

Definition is_bytes_list (l : list Z) : Prop := Forall is_u8 l.

Lemma read_be16_loop_spec k i src dest :
  is_bytes_list src -> Forall is_u16 dest ->
  (2 * (i + k) <= length src)%nat -> (i + k <= length dest)%nat ->
  exists dest', read_be16_loop k i src dest = Some dest' /\
    length dest' = length dest /\ Forall is_u16 dest' /\
    (forall j, (j < i \/ i + k <= j)%nat -> dest' !! j = dest !! j) /\
    (forall j a b, (i <= j < i + k)%nat -> src !! (2 * j)%nat = Some a ->
       src !! (2 * j + 1)%nat = Some b -> dest' !! j = Some (a * 256 + b)).
Proof.
  revert i dest. induction k as [|k IH]; intros i dest Hs Hd Hls Hld.
  { exists dest. split_and!; try done. intros; lia. }
  cbn [read_be16_loop].
  destruct (lookup_lt_is_Some_2 src (2 * i) ltac:(lia)) as [a Ea].
  destruct (lookup_lt_is_Some_2 src (2 * i + 1) ltac:(lia)) as [b Eb].
  pose proof (Forall_lookup_1 _ _ _ _ Hs Ea) as Ha. pose proof (Forall_lookup_1 _ _ _ _ Hs Eb) as Hb.
  assert (Ew : u16 (Z.lor (Z.shiftl a 8) b) = a * 256 + b).
  { rewrite shiftl_mul, (lor_disjoint _ _ 8), u16_id by (lia || dmlia). done. }
  rewrite Ea, Eb. simpl. rewrite store_some, Ew by lia. simpl.
  destruct (IH (S i) (<[i:=a * 256 + b]> dest)) as (d & -> & L & U & Hlow & Hhi).
  { done. } { apply Forall_insert; [done|]. clia. } { lia. } { rewrite length_insert. lia. }
  exists d. rewrite length_insert in L. split_and!; [done|done|done| |].
  - intros j Hj. rewrite Hlow by lia. apply list_lookup_insert_ne. lia.
  - intros j a' b' Hj Ea' Eb'. destruct (decide (j = i)) as [->|].
    + rewrite Hlow, list_lookup_insert_eq by lia. congruence.
    + by apply (Hhi j); [lia|..].
Qed.

Definition nth_byte (l : list Z) (i : nat) : Z := default 0 (l !! i).

Lemma nth_byte_word (src : list Z) j a b (l : list Z) :
  src !! (2 * j)%nat = Some a -> src !! (2 * j + 1)%nat = Some b -> is_u8 a -> is_u8 b ->
  l !! j = Some (a * 256 + b) ->
  wbyte l (2 * j) = a /\ wbyte l (2 * j + 1) = b.
Proof.
  intros Ea Eb Ha Hb E. rewrite (wbyte_even _ _ _ E), (wbyte_odd _ _ _ E).
  split; dmlia.
Qed.

Lemma even_or_odd n : n = (2 * (n / 2) + n mod 2)%nat /\ (n mod 2 = 0 \/ n mod 2 = 1)%nat.
Proof.
  pose proof (Nat.div_mod_eq n 2). pose proof (Nat.mod_upper_bound n 2 ltac:(lia)). lia.
Qed.

(** The words read hold the bytes of the source. *)
Lemma read_be16_spec src n dest :
  is_bytes_list src -> Forall is_u16 dest ->
  (n <= length src)%nat -> (n <= 2 * length dest)%nat ->
  exists dest', read_be16 src n dest = Some dest' /\
    length dest' = length dest /\ Forall is_u16 dest' /\
    (forall i, (i < n)%nat -> wbyte dest' i = nth_byte src i) /\
    (forall j, (n < 2 * j + 1)%nat -> dest' !! j = dest !! j).
Proof.
  intros Hs Hd Hls Hld. destruct (even_or_odd n) as [En Hm].
  destruct (read_be16_loop_spec (n / 2) 0 src dest) as (d & E & L & U & Hk & Hw);
    [done|done|lia|lia|].
  assert (Hb : forall i, (i < 2 * (n / 2))%nat -> wbyte d i = nth_byte src i).
  { intros i Hi. destruct (even_or_odd i) as [Ei Hmi].
    assert (i / 2 < n / 2)%nat as Hlt by lia.
    destruct (lookup_lt_is_Some_2 src (2 * (i / 2)) ltac:(lia)) as [a Ea].
    destruct (lookup_lt_is_Some_2 src (2 * (i / 2) + 1) ltac:(lia)) as [b Eb].
    specialize (Hw (i / 2)%nat a b ltac:(lia) Ea Eb).
    destruct (nth_byte_word _ _ _ _ _ Ea Eb (Forall_lookup_1 _ _ _ _ Hs Ea)
      (Forall_lookup_1 _ _ _ _ Hs Eb) Hw) as [W0 W1].
    unfold nth_byte. destruct Hmi as [Z0|Z1]; rewrite Ei.
    - rewrite Z0, Nat.add_0_r, W0, Ea. done.
    - rewrite Z1, W1, Eb. done. }
  unfold read_be16. rewrite E. simpl. destruct (Nat.eqb_spec (n mod 2) 1) as [Hodd|Hev].
  - destruct (lookup_lt_is_Some_2 src (n - 1) ltac:(lia)) as [a Ea]. rewrite Ea. simpl.
    pose proof (Forall_lookup_1 _ _ _ _ Hs Ea) as Ha.
    rewrite store_some, shiftl_mul, u16_id by (lia || clia).
    eexists. split; [done|]. split_and!.
    + by rewrite length_insert.
    + apply Forall_insert; [done|]. clia.
    + intros i Hi. destruct (decide (i = n - 1)%nat) as [->|].
      * replace (n - 1)%nat with (2 * (n / 2))%nat in * by lia.
        rewrite (wbyte_even _ _ (a * 2 ^ 8)) by (apply list_lookup_insert_eq; lia).
        unfold nth_byte. rewrite Ea. simpl. dmlia.
      * rewrite <- Hb by lia. unfold wbyte. rewrite list_lookup_insert_ne; [done|].
        destruct (even_or_odd i). lia.
    + intros j Hj. rewrite list_lookup_insert_ne by lia. apply Hk. lia.
  - exists d. split_and!; try done; intros i Hi; [apply Hb|apply Hk]; lia.
Qed.

Lemma write_be16_loop_spec k i src dest :
  Forall is_u16 src -> is_bytes_list dest ->
  (i + k <= length src)%nat -> (2 * (i + k) <= length dest)%nat ->
  exists dest', write_be16_loop k i src dest = Some dest' /\
    length dest' = length dest /\ is_bytes_list dest' /\
    (forall j, (j < 2 * i)%nat -> dest' !! j = dest !! j) /\
    (forall j, (2 * i <= j < 2 * (i + k))%nat -> dest' !! j = Some (wbyte src j)).
Proof.
  revert i dest. induction k as [|k IH]; intros i dest Hs Hd Hls Hld.
  { exists dest. split_and!; try done. intros; lia. }
  cbn [write_be16_loop].
  destruct (lookup_lt_is_Some_2 src i ltac:(lia)) as [w Ew].
  pose proof (Forall_lookup_1 _ _ _ _ Hs Ew) as Hw. rewrite Ew. simpl.
  rewrite store_some by lia. simpl. rewrite store_some by (rewrite length_insert; lia). simpl.
  rewrite shiftr_div, (u8_id (w / 2 ^ 8)) by (lia || dmlia).
  destruct (IH (S i) (<[(2 * i + 1)%nat:=u8 w]> (<[(2 * i)%nat:=w / 2 ^ 8]> dest)))
    as (d & -> & L & U & Hlow & Hhi).
  { done. } { apply Forall_insert; [apply Forall_insert; [done|dmlia]|auto with cint]. }
  { lia. } { rewrite !length_insert. lia. }
  rewrite !length_insert in L. exists d. split_and!; [done|done|done| |].
  - intros j Hj. rewrite Hlow, !list_lookup_insert_ne by lia. done.
  - intros j Hj. destruct (decide (j < 2 * S i)%nat); [|apply Hhi; lia].
    rewrite Hlow by lia. destruct (decide (j = 2 * i)%nat) as [->|].
    + rewrite list_lookup_insert_ne, list_lookup_insert_eq by lia.
      by rewrite (wbyte_even _ _ _ Ew).
    + replace j with (2 * i + 1)%nat by lia.
      rewrite list_lookup_insert_eq by (rewrite length_insert; lia).
      by rewrite (wbyte_odd _ _ _ Ew).
Qed.

(** The bytes written are those of the words, and one more for an odd number. *)
Lemma write_be16_spec src n dest :
  Forall is_u16 src -> is_bytes_list dest ->
  (n <= 2 * length src)%nat -> (n + n mod 2 <= length dest)%nat ->
  exists dest', write_be16 src n dest = Some dest' /\
    length dest' = length dest /\ is_bytes_list dest' /\
    (forall i, (i < n)%nat -> dest' !! i = Some (wbyte src i)).
Proof.
  intros Hs Hd Hls Hld. destruct (even_or_odd n) as [En Hm].
  destruct (write_be16_loop_spec (n / 2) 0 src dest) as (d & E & L & U & _ & Hw);
    [done|done|lia|lia|].
  unfold write_be16. rewrite E. simpl. destruct (Nat.eqb_spec (n mod 2) 1) as [Hodd|Hev].
  - destruct (lookup_lt_is_Some_2 src (n / 2) ltac:(lia)) as [w Ew]. rewrite Ew. simpl.
    pose proof (Forall_lookup_1 _ _ _ _ Hs Ew) as Hwr.
    rewrite shiftr_div, (u8_id (w / 2 ^ 8)) by (lia || dmlia).
    rewrite store_some by lia. simpl. rewrite store_some by (rewrite length_insert; lia).
    eexists. split; [done|]. split_and!.
    + by rewrite !length_insert.
    + apply Forall_insert; [apply Forall_insert; [done|dmlia]|clia].
    + intros i Hi. rewrite list_lookup_insert_ne by lia.
      destruct (decide (i = n - 1)%nat) as [->|].
      * rewrite list_lookup_insert_eq by lia.
        replace (n - 1)%nat with (2 * (n / 2))%nat by lia. by rewrite (wbyte_even _ _ _ Ew).
      * rewrite list_lookup_insert_ne by lia. apply Hw. lia.
  - exists d. split_and!; try done. intros i Hi. apply Hw. lia.
Qed.

(** ** The interface *)

(** The routine appends the symbols of [ivs]: it results in [ok], or, when the
    stream would reach 400 bytes, in a value that satisfies [err]. *)
Class Encodes {R A} (E : stmt Bitstr_enc R A) (ivs : list (Z * Z)) (ok : A) (err : A -> Prop) := {
  encodes_ivs : Forall iv_ok ivs;
  encodes_run s a : enc_state s a ->
    if decide (nb (steps a ivs) < 400)%nat
    then exists s', E s = Next ok s' /\ enc_state s' (steps a ivs)
    else exists r s', E s = Next r s' /\ err r;
}.

(** The routine reads the symbols of [ivs] from a stream that holds them; its
    result may depend on the length the encoder's stream has at that point. *)
Class Decodes {R A} (D : stmt Bitstr_dec R A) (ivs : list (Z * Z)) (res : nat -> A) := {
  decodes_ivs : Forall iv_ok ivs;
  decodes_run s a : dec_state s a ->
    (nb (steps a ivs) + 4 <= 2 * INTERNAL_STREAM_SIZE_W16)%nat ->
    contains (steps a ivs) (wbyte (d_stream s)) ->
    exists s', D s = Next (res (final_len (steps a ivs))) s' /\
      dec_state s' (steps a ivs) /\ d_stream s' = d_stream s;
}.

(** The error code of a stream that would reach 400 bytes. *)
Definition bits_exceeded (z : Z) : Prop := z = - ISAC_DISALLOWED_BITSTREAM_LENGTH.

Lemma dec_state_u16 s a : dec_state s a -> Forall is_u16 (d_stream s).
Proof. intros [_ _ [(_ & _ & _ & _ & HU & _)|[_ HU]]]; [done|apply HU]. Qed.

Lemma encodes_bind {R A B} (E : stmt Bitstr_enc B A) (k : A -> stmt Bitstr_enc B B)
    ivs ivs' ok ok' (err : A -> Prop) (err' : B -> Prop) :
  Encodes E ivs ok err ->
  (forall r s, err r -> exists r', fn (R' := R) (k r) s = Next r' s /\ err' r') ->
  Encodes (fn (R' := R) (k ok)) ivs' ok' err' ->
  Encodes (fn (R' := R) (bind E k)) (ivs ++ ivs') ok' err'.
Proof.
  intros HE Herr HK. split; [apply Forall_app; split; [apply HE|apply HK]|].
  intros s a Ha. rewrite steps_app. pose proof (@encodes_run _ _ _ _ _ _ HE s a Ha) as Hs.
  pose proof (nb_steps (steps a ivs) ivs').
  destruct (decide (nb (steps a ivs) < 400)%nat).
  - destruct Hs as (s1 & E1 & Ha1). unfold fn. rewrite (bind_Next _ _ _ _ _ E1).
    apply HK, Ha1.
  - destruct Hs as (r & s1 & E1 & Hr). rewrite decide_False by lia.
    destruct (Herr r s1 Hr) as (r' & E2 & Hr'). exists r', s1. split; [|done].
    unfold fn in *. rewrite (bind_Next _ _ _ _ _ E1).
    destruct (k r s1); congruence.
Qed.

Lemma encodes_ret {R B} (r : B) (err : B -> Prop) :
  Encodes (fn (R' := R) (ret r)) [] r err.
Proof.
  split; [done|]. intros s a Ha. rewrite decide_True; [by exists s|].
  destruct Ha as [[_ _ Hp _ Hf Hn _ _] _ _]. simpl. unfold STREAM_MAXW16_60MS in Hp. lia.
Qed.

Lemma decodes_bind {R A B} (D : stmt Bitstr_dec B A) (k : A -> stmt Bitstr_dec B B)
    ivs ivs' res res' :
  Decodes D ivs res ->
  (forall n, Decodes (fn (R' := R) (k (res n))) ivs' res') ->
  Decodes (fn (R' := R) (bind D k)) (ivs ++ ivs') res'.
Proof.
  intros HD HK. split; [apply Forall_app; split; [apply HD|apply (HK 0%nat)]|].
  intros s a Ha. rewrite steps_app. intros Hin Hc.
  assert (contains (steps a ivs) (wbyte (d_stream s))) as Hc1.
  { eapply contains_steps, Hc.
    - apply wbyte_bytes, (dec_state_u16 _ _ Ha).
    - apply steps_ok; [apply Ha|apply HD].
    - apply (HK 0%nat). }
  pose proof (nb_steps (steps a ivs) ivs').
  destruct (@decodes_run _ _ _ _ _ HD s a Ha ltac:(lia) Hc1) as (s1 & E1 & Ha1 & S1).
  rewrite <- S1 in Hc.
  destruct (@decodes_run _ _ _ _ _ (HK (final_len (steps a ivs))) s1 _ Ha1 Hin Hc)
    as (s2 & E2 & Ha2 & S2).
  exists s2. unfold fn in *. rewrite (bind_Next _ _ _ _ _ E1). rewrite S2. done.
Qed.

(** The last step of a routine, after its last symbol. *)
Lemma decodes_last {R A B} (D : stmt Bitstr_dec B A) (k : A -> stmt Bitstr_dec B B)
    ivs (res : nat -> A) (res' : nat -> B) :
  Decodes D ivs res ->
  (forall n s, fn (R' := R) (k (res n)) s = Next (res' n) s) ->
  Decodes (fn (R' := R) (bind D k)) ivs res'.
Proof.
  intros HD HK. split; [apply decodes_ivs|]. intros s a Ha Hin Hc.
  destruct (decodes_run s a Ha Hin Hc) as (s1 & E1 & Ha1 & S1).
  exists s1. split; [|done]. unfold fn in *. rewrite (bind_Next _ _ _ _ _ E1). apply HK.
Qed.

Lemma decodes_ret {R B} (r : B) : Decodes (fn (R' := R) (ret r)) [] (fun _ => r).
Proof. split; [done|]. intros s a Ha Hin Hc. by exists s. Qed.

Section hist.
Context `{SplLaws}.

Lemma EncHistMulti_encodes {R} data cdf ivs n :
  Forall3 sym_of data cdf ivs -> n = Z.of_nat (length data) ->
  Encodes (@WebRtcIsacfix_EncHistMulti _ R data cdf n) ivs 0
    bits_exceeded.
Proof.
  intros Hd ->. split; [by eapply syms_of_ok|]. intros s a Ha.
  pose proof (@EncHistMulti_spec _ _ R s a data cdf ivs Ha Hd) as Hs. case_decide; [done|].
  destruct Hs as (s' & E). by exists (- ISAC_DISALLOWED_BITSTREAM_LENGTH), s'.
Qed.

Lemma DecHistOneStepMulti_decodes {R} data cdf ivs inits n :
  Forall3 sym_of data cdf ivs -> Forall2 init_ok cdf inits -> n = Z.of_nat (length data) ->
  Decodes (@WebRtcIsacfix_DecHistOneStepMulti _ R cdf inits n) ivs (fun l => (Z.of_nat l, data)).
Proof.
  intros Hd Hi ->. split; [by eapply syms_of_ok|]. intros s a Ha Hin Hc.
  by apply DecHistOneStepMulti_spec.
Qed.

Lemma DecHistBisectMulti_decodes {R} data cdf ivs sizes n :
  Forall3 sym_of data cdf ivs -> Forall2 size_ok cdf sizes -> n = Z.of_nat (length data) ->
  Decodes (@WebRtcIsacfix_DecHistBisectMulti _ R cdf sizes n) ivs (fun l => (Z.of_nat l, data)).
Proof.
  intros Hd Hi ->. split; [by eapply syms_of_ok|]. intros s a Ha Hin Hc.
  by apply DecHistBisectMulti_spec.
Qed.
End hist.

(** ** The two sides connected *)

(** A decoder that has loaded a payload starts at the initial interval. *)
Lemma load_payload_spec encoded n :
  is_bytes_list encoded -> (n <= length encoded)%nat -> (n <= 2 * INTERNAL_STREAM_SIZE_W16)%nat ->
  exists s, load_payload encoded n = Some s /\ dec_state s ac_init /\
    (forall i, (i < n)%nat -> wbyte (d_stream s) i = nth_byte encoded i).
Proof.
  intros Hb Hl Hn. unfold load_payload. cbn [InitializeDecoderBitstream d_stream].
  destruct (read_be16_spec encoded n (replicate INTERNAL_STREAM_SIZE_W16 0))
    as (d & -> & L & U & Hw & Hk); [done| |done|by rewrite length_replicate|].
  { apply Forall_replicate. clia. }
  eexists. split; [done|]. split; [|done].
  split; [done|apply ac_init_ok|]. left. split_and!; try done.
  intros i w Ei Hi. cbn [set_dstream InitializeDecoderBitstream d_stream d_stream_size] in Ei, Hi.
  rewrite shiftr_div in Hi by lia. rewrite Hk in Ei by dmlia.
  by apply lookup_replicate in Ei as [-> _].
Qed.

(** A frame: the routine [E] on a reset structure, then the terminator. [st]
    is the status in the result of [E]; the frame's result is the length of the
    stream, or the error code, with the result of [E]. *)
Definition encode_frame {A} (st : A -> Z) (E : stmt Bitstr_enc Z A) (s : Bitstr_enc) :
    outcome Bitstr_enc Z (Z * A) :=
  (let! r := E in
   if st r <? 0 then ret (st r, r)
   else let! len := WebRtcIsacfix_EncTerminate in ret (len, r)) (enc_reset s).

Section frame.
Context {A : Type} (st : A -> Z) (E : stmt Bitstr_enc Z A) (ivs : list (Z * Z)) (ok : A).
Context (s : Bitstr_enc).
Hypothesis HE : Encodes E ivs ok (fun r => bits_exceeded (st r)).
Hypothesis Hok : st ok = 0.
Hypothesis HL : length (e_stream s) = STREAM_MAXW16_60MS.
Hypothesis HU : Forall is_u16 (e_stream s).

(** The outcome of a frame: the error code, the length of the stream, or a
    write outside the buffer when the terminator starts at byte 399. *)
Lemma encode_frame_spec :
  let a := steps ac_init ivs in
  if decide (nb a < 400)%nat then
    if decide (final_len a <= 400)%nat
    then exists s', encode_frame st E s = Next (Z.of_nat (final_len a), ok) s' /\ finished s' a
    else encode_frame st E s = Fault
  else exists r s', encode_frame st E s = Next (- ISAC_DISALLOWED_BITSTREAM_LENGTH, r) s'.
Proof using HE Hok HL HU.
  intros a. pose proof (encodes_run _ _ (enc_reset_state s HL HU)) as Hs.
  unfold encode_frame. fold a in Hs. destruct (decide (nb a < 400)%nat).
  - destruct Hs as (s1 & E1 & Ha). rewrite (bind_Next _ _ _ _ _ E1), Hok.
    change (0 <? 0) with false. cbn iota.
    pose proof (@EncTerminate_spec Z s1 a Ha) as Ht.
    destruct (decide (final_len a <= 400)%nat); [|by unfold bind; rewrite Ht].
    destruct Ht as (s2 & E2 & Hf). exists s2. split; [|done].
    by rewrite (bind_Next _ _ _ _ _ E2).
  - destruct Hs as (r & s1 & E1 & Hr). exists r, s1. rewrite (bind_Next _ _ _ _ _ E1).
    by rewrite Hr.
Qed.

(** A non-negative result is the length of a finished stream. *)
Lemma encode_frame_len len r s' :
  encode_frame st E s = Next (len, r) s' -> 0 <= len ->
  let a := steps ac_init ivs in
  (nb a < 400)%nat /\ (final_len a <= 400)%nat /\ len = Z.of_nat (final_len a) /\ r = ok /\
  finished s' a.
Proof using HE Hok HL HU.
  intros Ee Hlen a. pose proof encode_frame_spec as Hs.
  fold a in Hs. cbv zeta in Hs. repeat case_decide.
  - destruct Hs as (s1 & E1 & Hf). rewrite Ee in E1. by simplify_eq.
  - congruence.
  - destruct Hs as (r1 & s1 & E1). rewrite Ee in E1. simplify_eq. done.
Qed.

(** Whatever a client encodes and decodes through the interface survives the
    payload: a buffer that starts with its bytes decodes to it, whatever
    follows them. *)
Lemma frame_roundtrip {B} (D : stmt Bitstr_dec Z B) res len r s' buf extra :
  Decodes D ivs res ->
  encode_frame st E s = Next (len, r) s' -> 0 <= len ->
  is_bytes_list buf -> len < Z.of_nat (length buf) ->
  is_bytes_list extra -> (Z.to_nat len + length extra <= 2 * INTERNAL_STREAM_SIZE_W16)%nat ->
  r = ok /\
  exists encoded d d',
    write_be16 (e_stream s') (Z.to_nat len) buf = Some encoded /\
    load_payload (take (Z.to_nat len) encoded ++ extra) (Z.to_nat len + length extra) = Some d /\
    D d = Next (res (Z.to_nat len)) d'.
Proof using HE Hok HL HU.
  intros HD Ee Hlen Hbuf Hroom Hx Hmax.
  destruct (encode_frame_len len r s' Ee Hlen) as (Hn & Hf & -> & -> & L' & U' & P').
  split; [done|]. set (a := steps ac_init ivs) in *. rewrite Nat2Z.id in *.
  pose proof (Nat.mod_upper_bound (final_len a) 2 ltac:(lia)).
  destruct (write_be16_spec (e_stream s') (final_len a) buf U' Hbuf)
    as (enc & Ew & Le & Ue & We); [rewrite L'; unfold STREAM_MAXW16_60MS; lia|lia|].
  set (payload := take (final_len a) enc ++ extra).
  assert (Lp : length payload = (final_len a + length extra)%nat).
  { unfold payload. rewrite length_app, length_take. lia. }
  destruct (load_payload_spec payload (final_len a + length extra)) as (d & Ed & Hd & Hw);
    [|lia|done|].
  { apply Forall_app. split; [by apply Forall_take|done]. }
  assert (contains a (wbyte (d_stream d))) as Hc.
  { apply final_contains.
    - apply steps_ok; [apply ac_init_ok|apply HE].
    - apply wbyte_bytes, (dec_state_u16 _ _ Hd).
    - rewrite <- P'. apply pre_ext. intros i Hi. rewrite Hw by lia. unfold nth_byte, payload.
      rewrite lookup_app_l by (rewrite length_take; lia).
      rewrite lookup_take_lt by lia. by rewrite We. }
  destruct (@decodes_run _ _ _ _ _ HD d ac_init Hd) as (d' & ED & _); [|done|].
  { fold a. unfold INTERNAL_STREAM_SIZE_W16. lia. }
  by exists enc, d, d'.
Qed.
End frame.

(** ** Sequences of calls

    The entropy coder is a sequence of calls, each with its own symbols, tables
    and search; an error of one ends the sequence. *)

Inductive search := OneStep (initIndex : list Z) | Bisect (cdfSize : list Z).

Record block := mkBlock {
  b_data : list Z;
  b_cdf : list (list Z);
  b_search : search;
}.

Definition search_ok (b : block) : Prop :=
  match b_search b with
  | OneStep initIndex => Forall2 init_ok (b_cdf b) initIndex
  | Bisect cdfSize => Forall2 size_ok (b_cdf b) cdfSize
  end.

Section blocks.
Context `{SplOps}.

Fixpoint encode_blocks (bs : list block) : stmt Bitstr_enc Z Z :=
  match bs with
  | [] => ret 0
  | b :: bs' =>
      let! status := WebRtcIsacfix_EncHistMulti (b_data b) (b_cdf b)
                       (Z.of_nat (length (b_data b))) in
      if status <? 0 then return_ status else encode_blocks bs'
  end.

Definition decode_block {R} (b : block) : stmt Bitstr_dec R dec_ret :=
  let n := Z.of_nat (length (b_data b)) in
  match b_search b with
  | OneStep initIndex => WebRtcIsacfix_DecHistOneStepMulti (b_cdf b) initIndex n
  | Bisect cdfSize => WebRtcIsacfix_DecHistBisectMulti (b_cdf b) cdfSize n
  end.

(** The result of the last call and the symbols of every call. *)
Fixpoint decode_blocks (bs : list block) (err : Z) (acc : list (list Z)) :
    stmt Bitstr_dec (Z * list (list Z)) (Z * list (list Z)) :=
  match bs with
  | [] => ret (err, acc)
  | b :: bs' =>
      let! r := decode_block b in
      if r.1 <? 0 then return_ (r.1, acc) else decode_blocks bs' r.1 (acc ++ [r.2])
  end.
End blocks.

(** The symbols of every call belong to their tables. *)
Definition block_ivs (b : block) (ivs : list (Z * Z)) : Prop :=
  Forall3 sym_of (b_data b) (b_cdf b) ivs.

Section blocks_spec.
Context `{SplLaws}.

Lemma encode_blocks_encodes {R} bs ivss :
  Forall2 block_ivs bs ivss ->
  Encodes (fn (R' := R) (encode_blocks bs)) (concat ivss) 0
    bits_exceeded.
Proof.
  induction 1 as [|b ivs bs ivss Hb Hbs IH]; [apply encodes_ret|].
  simpl. eapply encodes_bind; [by apply EncHistMulti_encodes| |exact IH].
  intros r s ->. by eexists.
Qed.

Lemma decode_block_decodes {R} b ivs :
  block_ivs b ivs -> search_ok b ->
  Decodes (@decode_block _ R b) ivs (fun l => (Z.of_nat l, b_data b)).
Proof.
  intros Hb Hs. unfold decode_block, search_ok in *. destruct (b_search b).
  - by apply DecHistOneStepMulti_decodes.
  - by apply DecHistBisectMulti_decodes.
Qed.

Lemma decode_blocks_decodes {R} b bs ivss err acc :
  Forall2 block_ivs (b :: bs) ivss -> Forall search_ok (b :: bs) ->
  Decodes (fn (R' := R) (decode_blocks (b :: bs) err acc)) (concat ivss)
    (fun l => (Z.of_nat l, acc ++ map b_data (b :: bs))).
Proof.
  revert b ivss err acc. induction bs as [|b' bs IH]; intros b ivss err acc Hb Hs;
    inversion Hb as [|? ivs ? ivss' Hb1 Hbs]; subst; inversion Hs as [|?? Hs1 Hss]; subst.
  - inversion Hbs; subst. simpl concat. rewrite app_nil_r.
    eapply decodes_last; [by apply decode_block_decodes|].
    intros n s. simpl. by rewrite (proj2 (Z.ltb_ge _ _)) by lia.
  - eapply decodes_bind; [by apply decode_block_decodes|].
    intros n. simpl fst. simpl snd. rewrite (proj2 (Z.ltb_ge _ _)) by lia.
    specialize (IH b' ivss' (Z.of_nat n) (acc ++ [b_data b]) Hbs Hss).
    rewrite <- app_assoc in IH. exact IH.
Qed.
End blocks_spec.

(** ** Properties *)

(** A concrete sequence for the witnesses: one call of each kind. *)
Definition demo_blocks : list block :=
  [mkBlock [2; 0; 1] [[0; 100; 40000; 65535]; [0; 1; 65535]; [0; 3; 65000; 65535]]
     (OneStep [1; 1; 2]);
   mkBlock [1; 3] [[0; 8000; 30000]; [0; 10; 20; 30; 40; 65535; 65535]] (Bisect [4; 8])].

Definition demo_ivs : list (list (Z * Z)) :=
  [[(40000, 65535); (0, 1); (3, 65000)]; [(8000, 30000); (30, 40)]].

Definition demo_enc : Bitstr_enc := mkBitstr_enc (replicate 200 0xABCD) 5 6 7 0.

Lemma demo_blocks_ivs : Forall2 block_ivs demo_blocks demo_ivs.
Proof. do 2 (constructor; [by apply syms_lookup_ok|]). constructor. Qed.

Lemma demo_blocks_search : Forall search_ok demo_blocks.
Proof.
  constructor; [|constructor; [|constructor]]; unfold search_ok; cbn [b_search b_cdf].
  - repeat (constructor; [split; simpl; lia|]). constructor.
  - constructor; [exists 1%nat|constructor; [exists 2%nat|constructor]]; split_and!; done || lia.
Qed.

Lemma demo_enc_ok : length (e_stream demo_enc) = STREAM_MAXW16_60MS /\ Forall is_u16 (e_stream demo_enc).
Proof. split; [done|]. apply Forall_replicate. clia. Qed.

(** C1. The arithmetic coder of iSAC fixed point is lossless. Take any sequence
    of calls of [WebRtcIsacfix_EncHistMulti] with symbols of positive frequency,
    on a reset bit stream, followed by [WebRtcIsacfix_EncTerminate]. When the
    result is a length, the payload [write_be16] produces, followed by any other
    bytes, is loaded by the decoder, the corresponding calls of
    [WebRtcIsacfix_DecHistOneStepMulti] (any initial index inside the table) and
    [WebRtcIsacfix_DecHistBisectMulti] return the symbols, and the last call
    returns the length of the encoder's payload. *)
Theorem blocks_roundtrip `{SplLaws} b bs ivss s len s' buf extra :
  Forall2 block_ivs (b :: bs) ivss -> Forall search_ok (b :: bs) ->
  length (e_stream s) = STREAM_MAXW16_60MS -> Forall is_u16 (e_stream s) ->
  encode_frame id (fn (encode_blocks (b :: bs))) s = Next (len, 0) s' -> 0 <= len ->
  is_bytes_list buf -> len < Z.of_nat (length buf) ->
  is_bytes_list extra -> (Z.to_nat len + length extra <= 2 * INTERNAL_STREAM_SIZE_W16)%nat ->
  exists encoded d d',
    write_be16 (e_stream s') (Z.to_nat len) buf = Some encoded /\
    load_payload (take (Z.to_nat len) encoded ++ extra) (Z.to_nat len + length extra) = Some d /\
    fn (R' := Z) (decode_blocks (b :: bs) 0 []) d = Next (len, map b_data (b :: bs)) d'.
Proof.
  intros Hb Hs HL HU Ee Hlen Hbuf Hroom Hx Hmax.
  destruct (frame_roundtrip id _ (concat ivss) 0 s (encode_blocks_encodes _ _ Hb) eq_refl HL HU
    _ _ len 0 s' buf extra (decode_blocks_decodes b bs ivss 0 [] Hb Hs) Ee Hlen Hbuf Hroom Hx Hmax)
    as (_ & enc & d & d' & E1 & E2 & E3).
  exists enc, d, d'. rewrite Z2Nat.id in E3 by done. done.
Qed.

Lemma blocks_roundtrip_witness :
  exists len s' encoded d d',
    encode_frame id (fn (encode_blocks demo_blocks)) demo_enc = Next (len, 0) s' /\
    write_be16 (e_stream s') (Z.to_nat len) (replicate 401 0) = Some encoded /\
    load_payload (take (Z.to_nat len) encoded ++ [7; 255]) (Z.to_nat len + 2) = Some d /\
    fn (R' := Z) (decode_blocks demo_blocks 0 []) d = Next (len, [[2; 0; 1]; [1; 3]]) d'.
Proof.
  do 2 eexists.
  edestruct (blocks_roundtrip (hd (mkBlock [] [] (OneStep [])) demo_blocks) (tl demo_blocks)
    demo_ivs demo_enc) with (buf := replicate 401 0) (extra := [7; 255])
    as (enc & d & d' & E1 & E2 & E3).
  - exact demo_blocks_ivs.
  - exact demo_blocks_search.
  - apply demo_enc_ok.
  - apply demo_enc_ok.
  - vm_compute. reflexivity.
  - done.
  - apply Forall_replicate. clia.
  - vm_compute. reflexivity.
  - repeat constructor; clia.
  - vm_compute. lia.
  - exists enc, d, d'. split; [vm_compute; reflexivity|]. done.
Defined.

(** C25. The outcome of a frame is determined by the intervals alone. With [a]
    the specification's coder after all symbols, [WebRtcIsacfix_EncHistMulti]
    reports [-ISAC_DISALLOWED_BITSTREAM_LENGTH] exactly when 400 bytes or more
    have left the window; otherwise the terminator returns the length of the
    final stream, which holds the bytes of the specification, unless that length
    is 401, when it writes outside the buffer. No loop runs out of fuel. *)
Theorem blocks_outcome `{SplLaws} bs ivss s :
  Forall2 block_ivs bs ivss ->
  length (e_stream s) = STREAM_MAXW16_60MS -> Forall is_u16 (e_stream s) ->
  let a := steps ac_init (concat ivss) in
  if decide (nb a < 400)%nat then
    if decide (final_len a <= 400)%nat
    then exists s', encode_frame id (fn (encode_blocks bs)) s = Next (Z.of_nat (final_len a), 0) s' /\
           pre (wbyte (e_stream s')) (final_len a) = final_val a
    else encode_frame id (fn (encode_blocks bs)) s = Fault
  else exists r s', encode_frame id (fn (encode_blocks bs)) s =
         Next (- ISAC_DISALLOWED_BITSTREAM_LENGTH, r) s'.
Proof.
  intros Hb HL HU a.
  pose proof (encode_frame_spec id _ _ 0 s (encode_blocks_encodes bs ivss Hb) eq_refl HL HU) as Hs.
  fold a in Hs. cbv zeta in Hs. repeat case_decide; [|done..].
  destruct Hs as (s' & E & _ & _ & P). eauto.
Qed.

Lemma blocks_outcome_witness :
  exists s', encode_frame id (fn (encode_blocks demo_blocks)) demo_enc = Next (5, 0) s' /\
    pre (wbyte (e_stream s')) 5 = final_val (steps ac_init (concat demo_ivs)).
Proof.
  pose proof (blocks_outcome demo_blocks demo_ivs demo_enc demo_blocks_ivs
    (proj1 demo_enc_ok) (proj2 demo_enc_ok)) as Hs.
  cbv zeta in Hs. rewrite decide_True in Hs by (apply Nat.ltb_lt; vm_compute; reflexivity).
  rewrite decide_True in Hs by (apply Nat.leb_le; vm_compute; reflexivity).
  replace (final_len (steps ac_init (concat demo_ivs))) with 5%nat in Hs
    by (vm_compute; reflexivity).
  exact Hs.
Defined.

(** The symbols of the overrun: 399 of one byte each, then one that leaves a
    width below [0x02000000]. *)
Definition overrun_block : block :=
  mkBlock (replicate 400 0) (replicate 399 [0; 256; 65535] ++ [[0; 300; 65535]])
    (OneStep (replicate 400 0)).

Definition overrun_ivs : list (Z * Z) := replicate 399 (0, 256) ++ [(0, 300)].

(** [WebRtcIsacfix_EncTerminate] can write outside the 200 words of
    [Bitstr_enc.stream]. A call of [WebRtcIsacfix_EncHistMulti] with 400 symbols
    of positive frequency succeeds on a reset structure, with 399 bytes in the
    stream, and the terminator then stores its second byte in [stream[200]]. *)
Theorem EncTerminate_overrun `{SplLaws} s :
  length (e_stream s) = STREAM_MAXW16_60MS -> Forall is_u16 (e_stream s) ->
  exists s', fn (R' := Z) (encode_blocks [overrun_block]) (enc_reset s) = Next 0 s' /\
    @WebRtcIsacfix_EncTerminate Z s' = Fault.
Proof.
  intros HL HU.
  assert (Hb : Forall2 block_ivs [overrun_block] [overrun_ivs]).
  { constructor; [|constructor]. apply syms_lookup_ok. vm_compute. reflexivity. }
  pose proof (@encodes_run _ _ _ _ _ _ (encode_blocks_encodes (R := Z) _ _ Hb) _ _ (enc_reset_state s HL HU)) as Hs.
  rewrite decide_True in Hs by (apply Nat.ltb_lt; vm_compute; reflexivity).
  destruct Hs as (s' & E & Ha). exists s'. split; [done|].
  pose proof (@EncTerminate_spec Z s' _ Ha) as Ht. rewrite decide_False in Ht; [done|].
  apply Nat.lt_nge, Nat.ltb_lt. vm_compute. reflexivity.
Qed.

Lemma EncTerminate_overrun_witness :
  exists s', fn (R' := Z) (encode_blocks [overrun_block]) (enc_reset demo_enc) = Next 0 s' /\
    @WebRtcIsacfix_EncTerminate Z s' = Fault.
Proof. apply EncTerminate_overrun; apply demo_enc_ok. Defined.
