(* ===== verification/IsacFixTables.v ===== *)
(** * Tables of the pitch and spectrum side information of iSAC fixed point

    [pitch_gain_tables.c], [pitch_lag_tables.c], [spectrum_ar_model_tables.c]
    and the two tables of [entropy_coding.c]: frequency tables, quantisation
    levels, index limits and initial search indices, with the elements an
    initialiser leaves out as zeros. *)

From S2P Require Import Prelude.

(** ** Pitch gains ([pitch_gain_tables.c]) *)

Definition WebRtcIsacfix_kPitchGainCdf : list Z :=
  [0; 2; 4; 6; 64; 901; 903; 905; 16954; 16956; 16961; 17360; 17362; 17364; 17366; 17368;
   17370; 17372; 17374; 17411; 17514; 17516; 17583; 18790; 18796; 18802; 20760; 20777; 20782;
   21722; 21724; 21728; 21738; 21740; 21742; 21744; 21746; 21748; 22224; 22227; 22230; 23214;
   23229; 23239; 25086; 25108; 25120; 26088; 26094; 26098; 26175; 26177; 26179; 26181; 26183;
   26185; 26484; 26507; 26522; 27705; 27731; 27750; 29767; 29799; 29817; 30866; 30883; 30885;
   31025; 31029; 31031; 31033; 31035; 31037; 31114; 31126; 31134; 32687; 32722; 32767; 35718;
   35742; 35757; 36943; 36952; 36954; 37115; 37128; 37130; 37132; 37134; 37136; 37143; 37145;
   37152; 38843; 38863; 38897; 47458; 47467; 47474; 49040; 49061; 49063; 49145; 49157; 49159;
   49161; 49163; 49165; 49167; 49169; 49171; 49757; 49770; 49782; 61333; 61344; 61346; 62860;
   62883; 62885; 62887; 62889; 62891; 62893; 62895; 62897; 62899; 62901; 62903; 62905; 62907;
   62909; 65496; 65498; 65500; 65521; 65523; 65525; 65527; 65529; 65531; 65533; 65535; 65535;
   65535; 65535; 65535; 65535; 65535; 65535; 65535; 65535; 65535; 65535; 65535; 65535; 65535;
   65535; 65535; 65535; 65535; 65535; 65535; 65535; 65535; 65535; 65535; 65535; 65535; 65535;
   65535; 65535; 65535; 65535; 65535; 65535; 65535; 65535; 65535; 65535; 65535; 65535; 65535;
   65535; 65535; 65535; 65535; 65535; 65535; 65535; 65535; 65535; 65535; 65535; 65535; 65535;
   65535; 65535; 65535; 65535; 65535; 65535; 65535; 65535; 65535; 65535; 65535; 65535; 65535;
   65535; 65535; 65535; 65535; 65535; 65535; 65535; 65535; 65535; 65535; 65535; 65535; 65535;
   65535; 65535; 65535; 65535; 65535; 65535; 65535; 65535; 65535; 65535; 65535; 65535; 65535;
   65535; 65535; 65535; 65535; 65535; 65535; 65535; 65535; 65535; 65535; 65535; 65535; 65535;
   65535; 65535; 65535; 65535; 65535].

Definition WebRtcIsacfix_kLowerlimiGain : list Z :=
  [-7; -2; -1].

Definition WebRtcIsacfix_kUpperlimitGain : list Z :=
  [0; 3; 1].

Definition WebRtcIsacfix_kMultsGain : list Z :=
  [18; 3].

Definition WebRtcIsacfix_kCdfTableSizeGain : list Z :=
  [256].

Definition WebRtcIsacfix_kPitchGain1 : list Z :=
  [843; 1092; 1336; 1222; 1405; 1656; 1500; 1815; 1843; 1838; 1839; 1843; 1843; 1843; 1843;
   1843; 1843; 1843; 814; 846; 1092; 1013; 1174; 1383; 1391; 1511; 1584; 1734; 1753; 1843;
   1843; 1843; 1843; 1843; 1843; 1843; 524; 689; 777; 845; 947; 1069; 1090; 1263; 1380; 1447;
   1559; 1676; 1645; 1749; 1843; 1843; 1843; 1843; 81; 477; 563; 611; 706; 806; 849; 1012;
   1192; 1128; 1330; 1489; 1425; 1576; 1826; 1741; 1843; 1843; 0; 290; 305; 356; 488; 575; 602;
   741; 890; 835; 1079; 1196; 1182; 1376; 1519; 1506; 1680; 1843; 0; 47; 97; 69; 289; 381; 385;
   474; 617; 664; 803; 1079; 935; 1160; 1269; 1265; 1506; 1741; 0; 0; 0; 0; 112; 120; 190; 283;
   442; 343; 526; 809; 684; 935; 1134; 1020; 1265; 1506; 0; 0; 0; 0; 0; 0; 0; 111; 256; 87;
   373; 597; 430; 684; 935; 770; 1020; 1265].

Definition WebRtcIsacfix_kPitchGain2 : list Z :=
  [1760; 1525; 1285; 1747; 1671; 1393; 1843; 1826; 1555; 1843; 1784; 1606; 1843; 1843; 1711;
   1843; 1843; 1814; 1389; 1275; 1040; 1564; 1414; 1252; 1610; 1495; 1343; 1753; 1592; 1405;
   1804; 1720; 1475; 1843; 1814; 1581; 1208; 1061; 856; 1349; 1148; 994; 1390; 1253; 1111;
   1495; 1343; 1178; 1770; 1465; 1234; 1814; 1581; 1342; 1040; 793; 713; 1053; 895; 737; 1128;
   1003; 861; 1277; 1094; 981; 1475; 1192; 1019; 1581; 1342; 1098; 855; 570; 483; 833; 648;
   540; 948; 744; 572; 1009; 844; 636; 1234; 934; 685; 1342; 1217; 984; 537; 318; 124; 603;
   423; 350; 687; 479; 322; 791; 581; 430; 987; 671; 488; 1098; 849; 597; 283; 27; 0; 397; 222;
   38; 513; 271; 124; 624; 325; 157; 737; 484; 233; 849; 597; 343; 27; 0; 0; 141; 0; 0; 256;
   69; 0; 370; 87; 0; 484; 229; 0; 597; 343; 87].

Definition WebRtcIsacfix_kPitchGain3 : list Z :=
  [1843; 1843; 1711; 1843; 1818; 1606; 1843; 1827; 1511; 1814; 1639; 1393; 1760; 1525; 1285;
   1656; 1419; 1176; 1835; 1718; 1475; 1841; 1650; 1387; 1648; 1498; 1287; 1600; 1411; 1176;
   1522; 1299; 1040; 1419; 1176; 928; 1773; 1461; 1128; 1532; 1355; 1202; 1429; 1260; 1115;
   1398; 1151; 1025; 1172; 1080; 790; 1176; 928; 677; 1475; 1147; 1019; 1276; 1096; 922; 1214;
   1010; 901; 1057; 893; 800; 1040; 796; 734; 928; 677; 424; 1137; 897; 753; 1120; 830; 710;
   875; 751; 601; 795; 642; 583; 790; 544; 475; 677; 474; 140; 987; 750; 482; 697; 573; 450;
   691; 487; 303; 661; 394; 332; 537; 303; 220; 424; 168; 0; 737; 484; 229; 624; 348; 153; 441;
   261; 136; 397; 166; 51; 283; 27; 0; 168; 0; 0; 484; 229; 0; 370; 57; 0; 256; 43; 0; 141; 0;
   0; 27; 0; 0; 0; 0; 0].

Definition WebRtcIsacfix_kPitchGain4 : list Z :=
  [1843; 1843; 1843; 1843; 1841; 1843; 1500; 1821; 1843; 1222; 1434; 1656; 843; 1092; 1336;
   504; 757; 1007; 1843; 1843; 1843; 1838; 1791; 1843; 1265; 1505; 1599; 965; 1219; 1425; 730;
   821; 1092; 249; 504; 757; 1783; 1819; 1843; 1351; 1567; 1727; 1096; 1268; 1409; 805; 961;
   1131; 444; 670; 843; 0; 249; 504; 1425; 1655; 1743; 1096; 1324; 1448; 822; 1019; 1199; 490;
   704; 867; 81; 450; 555; 0; 0; 249; 1247; 1428; 1530; 881; 1073; 1283; 610; 759; 939; 278;
   464; 645; 0; 200; 270; 0; 0; 0; 935; 1163; 1410; 528; 790; 1068; 377; 499; 717; 173; 240;
   274; 0; 43; 62; 0; 0; 0; 684; 935; 1182; 343; 551; 735; 161; 262; 423; 0; 55; 27; 0; 0; 0;
   0; 0; 0; 430; 684; 935; 87; 377; 597; 0; 46; 256; 0; 0; 0; 0; 0; 0; 0; 0; 0].

Definition WebRtcIsacfix_kTransform : list (list Z) :=
  [[-2048; -2048; -2048; -2048];
   [2748; 916; -916; -2748];
   [2048; -2048; -2048; 2048];
   [916; -2748; 2748; -916]].

(** ** Pitch lags ([pitch_lag_tables.c]) *)

Definition WebRtcIsacfix_kPitchLagCdf1Lo : list Z :=
  [0; 134; 336; 549; 778; 998; 1264; 1512; 1777; 2070; 2423; 2794; 3051; 3361; 3708; 3979;
   4315; 4610; 4933; 5269; 5575; 5896; 6155; 6480; 6816; 7129; 7477; 7764; 8061; 8358; 8718;
   9020; 9390; 9783; 10177; 10543; 10885; 11342; 11795; 12213; 12680; 13096; 13524; 13919;
   14436; 14903; 15349; 15795; 16267; 16734; 17266; 17697; 18130; 18632; 19080; 19447; 19884;
   20315; 20735; 21288; 21764; 22264; 22723; 23193; 23680; 24111; 24557; 25022; 25537; 26082;
   26543; 27090; 27620; 28139; 28652; 29149; 29634; 30175; 30692; 31273; 31866; 32506; 33059;
   33650; 34296; 34955; 35629; 36295; 36967; 37726; 38559; 39458; 40364; 41293; 42256; 43215;
   44231; 45253; 46274; 47359; 48482; 49678; 50810; 51853; 53016; 54148; 55235; 56263; 57282;
   58363; 59288; 60179; 61076; 61806; 62474; 63129; 63656; 64160; 64533; 64856; 65152; 65535;
   65535; 65535; 65535; 65535; 65535].

Definition WebRtcIsacfix_kPitchLagCdf2Lo : list Z :=
  [0; 429; 3558; 5861; 8558; 11639; 15210; 19502; 24773; 31983; 42602; 48567; 52601; 55676;
   58160; 60172; 61889; 63235; 65383; 65535].

Definition WebRtcIsacfix_kPitchLagCdf3Lo : list Z :=
  [0; 65535].

Definition WebRtcIsacfix_kPitchLagCdf4Lo : list Z :=
  [0; 2966; 6368; 11182; 19431; 37793; 48532; 55353; 60626; 65535].

Definition WebRtcIsacfix_kPitchLagPtrLo : list (list Z) :=
  [WebRtcIsacfix_kPitchLagCdf1Lo; WebRtcIsacfix_kPitchLagCdf2Lo; WebRtcIsacfix_kPitchLagCdf3Lo;
   WebRtcIsacfix_kPitchLagCdf4Lo].

Definition WebRtcIsacfix_kPitchLagSizeLo : list Z :=
  [128].

Definition WebRtcIsacfix_kLowerLimitLo : list Z :=
  [-140; -9; 0; -4].

Definition WebRtcIsacfix_kUpperLimitLo : list Z :=
  [-20; 9; 0; 4].

Definition WebRtcIsacfix_kInitIndLo : list Z :=
  [10; 1; 5].

Definition WebRtcIsacfix_kMeanLag2Lo : list Z :=
  [-17627; -16207; -14409; -12319; -10253; -8200; -6054; -3986; -1948; -19; 1937; 3974; 6064;
   8155; 10229; 12270; 14296; 16127; 17520].

Definition WebRtcIsacfix_kMeanLag4Lo : list Z :=
  [-7949; -6063; -4036; -1941; 38; 1977; 4060; 6059; 0].

Definition WebRtcIsacfix_kPitchLagCdf1Mid : list Z :=
  [0; 28; 61; 88; 121; 149; 233; 331; 475; 559; 624; 661; 689; 712; 745; 791; 815; 843; 866;
   922; 959; 1024; 1061; 1117; 1178; 1238; 1280; 1350; 1453; 1513; 1564; 1625; 1671; 1741;
   1788; 1904; 2072; 2421; 2626; 2770; 2840; 2900; 2942; 3012; 3068; 3115; 3147; 3194; 3254;
   3319; 3366; 3520; 3678; 3780; 3850; 3911; 3957; 4032; 4106; 4185; 4292; 4474; 4683; 4842;
   5019; 5191; 5321; 5428; 5540; 5675; 5763; 5847; 5959; 6127; 6304; 6564; 6839; 7090; 7263;
   7421; 7556; 7728; 7872; 7984; 8142; 8361; 8580; 8743; 8938; 9227; 9409; 9539; 9674; 9795;
   9930; 10060; 10177; 10382; 10614; 10861; 11038; 11271; 11415; 11629; 11792; 12044; 12193;
   12416; 12574; 12821; 13007; 13235; 13445; 13654; 13901; 14134; 14488; 15000; 15703; 16285;
   16504; 16797; 17086; 17328; 17579; 17807; 17998; 18268; 18538; 18836; 19087; 19274; 19474;
   19716; 19935; 20270; 20833; 21303; 21532; 21741; 21978; 22207; 22523; 22770; 23054; 23613;
   23943; 24204; 24399; 24651; 24832; 25074; 25270; 25549; 25759; 26015; 26150; 26424; 26713;
   27048; 27342; 27504; 27681; 27854; 28021; 28207; 28412; 28664; 28859; 29064; 29278; 29548;
   29748; 30107; 30377; 30656; 30856; 31164; 31452; 31755; 32011; 32328; 32626; 32919; 33319;
   33789; 34329; 34925; 35396; 35973; 36443; 36964; 37551; 38156; 38724; 39357; 40023; 40908;
   41587; 42602; 43924; 45037; 45810; 46597; 47421; 48291; 49092; 50051; 51448; 52719; 53440;
   54241; 54944; 55977; 56676; 57299; 57872; 58389; 59059; 59688; 60237; 60782; 61094; 61573;
   61890; 62290; 62658; 63030; 63217; 63454; 63622; 63882; 64003; 64273; 64427; 64529; 64581;
   64697; 64758; 64902; 65414; 65535; 65535; 65535; 65535; 65535; 65535; 65535; 65535; 65535;
   65535; 65535; 65535; 65535; 65535].

Definition WebRtcIsacfix_kPitchLagCdf2Mid : list Z :=
  [0; 71; 335; 581; 836; 1039; 1323; 1795; 2258; 2608; 3005; 3591; 4243; 5344; 7163; 10583;
   16848; 28078; 49448; 57007; 60357; 61850; 62837; 63437; 63872; 64188; 64377; 64614; 64774;
   64949; 65039; 65115; 65223; 65360; 65474; 65535].

Definition WebRtcIsacfix_kPitchLagCdf3Mid : list Z :=
  [0; 65535].

Definition WebRtcIsacfix_kPitchLagCdf4Mid : list Z :=
  [0; 28; 246; 459; 667; 1045; 1523; 2337; 4337; 11347; 44231; 56709; 60781; 62243; 63161;
   63969; 64608; 65062; 65502; 65535].

Definition WebRtcIsacfix_kPitchLagPtrMid : list (list Z) :=
  [WebRtcIsacfix_kPitchLagCdf1Mid; WebRtcIsacfix_kPitchLagCdf2Mid;
   WebRtcIsacfix_kPitchLagCdf3Mid; WebRtcIsacfix_kPitchLagCdf4Mid].

Definition WebRtcIsacfix_kPitchLagSizeMid : list Z :=
  [256].

Definition WebRtcIsacfix_kLowerLimitMid : list Z :=
  [-280; -17; 0; -9].

Definition WebRtcIsacfix_kUpperLimitMid : list Z :=
  [-40; 17; 0; 9].

Definition WebRtcIsacfix_kInitIndMid : list Z :=
  [18; 1; 10].

Definition WebRtcIsacfix_kMeanLag2Mid : list Z :=
  [-17297; -16250; -15416; -14343; -13341; -12363; -11270; -10355; -9122; -8217; -7172; -6083;
   -5102; -4004; -3060; -1982; -952; -18; 935; 1976; 3040; 4032; 5082; 6065; 7257; 8202; 9264;
   10225; 11242; 12234; 13337; 14336; 15374; 16187; 17347].

Definition WebRtcIsacfix_kMeanLag4Mid : list Z :=
  [-8811; -8081; -7203; -6003; -5057; -4025; -2983; -1964; -891; 29; 921; 1920; 2988; 4064;
   5187; 6079; 7173; 8074; 8849].

Definition WebRtcIsacfix_kPitchLagCdf1Hi : list Z :=
  [0; 7; 18; 33; 69; 105; 156; 228; 315; 612; 680; 691; 709; 724; 735; 738; 742; 746; 749; 753;
   756; 760; 764; 774; 782; 785; 789; 796; 800; 803; 807; 814; 818; 822; 829; 832; 847; 854;
   858; 869; 876; 883; 898; 908; 934; 977; 1010; 1050; 1060; 1064; 1075; 1078; 1086; 1089;
   1093; 1104; 1111; 1122; 1133; 1136; 1151; 1162; 1183; 1209; 1252; 1281; 1339; 1364; 1386;
   1401; 1411; 1415; 1426; 1430; 1433; 1440; 1448; 1455; 1462; 1477; 1487; 1495; 1502; 1506;
   1509; 1516; 1524; 1531; 1535; 1542; 1553; 1556; 1578; 1589; 1611; 1625; 1639; 1643; 1654;
   1665; 1672; 1687; 1694; 1705; 1708; 1719; 1730; 1744; 1752; 1759; 1791; 1795; 1820; 1867;
   1886; 1915; 1936; 1943; 1965; 1987; 2041; 2099; 2161; 2175; 2200; 2211; 2226; 2233; 2244;
   2251; 2266; 2280; 2287; 2298; 2309; 2316; 2331; 2342; 2356; 2378; 2403; 2418; 2447; 2497;
   2544; 2602; 2863; 2895; 2903; 2935; 2950; 2971; 3004; 3011; 3018; 3029; 3040; 3062; 3087;
   3127; 3152; 3170; 3199; 3243; 3293; 3322; 3340; 3377; 3402; 3427; 3474; 3518; 3543; 3579;
   3601; 3637; 3659; 3706; 3731; 3760; 3818; 3847; 3869; 3901; 3920; 3952; 4068; 4169; 4220;
   4271; 4524; 4571; 4604; 4632; 4672; 4730; 4777; 4806; 4857; 4904; 4951; 5002; 5031; 5060;
   5107; 5150; 5212; 5266; 5331; 5382; 5432; 5490; 5544; 5610; 5700; 5762; 5812; 5874; 5972;
   6022; 6091; 6163; 6232; 6305; 6402; 6540; 6685; 6880; 7090; 7271; 7379; 7452; 7542; 7625;
   7687; 7770; 7843; 7911; 7966; 8024; 8096; 8190; 8252; 8320; 8411; 8501; 8585; 8639; 8751;
   8842; 8918; 8986; 9066; 9127; 9203; 9269; 9345; 9406; 9464; 9536; 9612; 9667; 9735; 9844;
   9931; 10036; 10119; 10199; 10260; 10358; 10441; 10514; 10666; 10734; 10872; 10951; 11053;
   11125; 11223; 11324; 11516; 11664; 11737; 11816; 11892; 12008; 12120; 12200; 12280; 12392;
   12490; 12576; 12685; 12812; 12917; 13003; 13108; 13210; 13300; 13384; 13470; 13579; 13673;
   13771; 13879; 13999; 14136; 14201; 14368; 14614; 14759; 14867; 14958; 15030; 15121; 15189;
   15280; 15385; 15461; 15555; 15653; 15768; 15884; 15971; 16069; 16145; 16210; 16279; 16380;
   16463; 16539; 16615; 16688; 16818; 16919; 17017; 18041; 18338; 18523; 18649; 18790; 18917;
   19047; 19167; 19315; 19460; 19601; 19731; 19858; 20068; 20173; 20318; 20466; 20625; 20741;
   20911; 21045; 21201; 21396; 21588; 21816; 22022; 22305; 22547; 22786; 23072; 23322; 23600;
   23879; 24168; 24433; 24769; 25120; 25511; 25895; 26289; 26792; 27219; 27683; 28077; 28566;
   29094; 29546; 29977; 30491; 30991; 31573; 32105; 32594; 33173; 33788; 34497; 35181; 35833;
   36488; 37255; 37921; 38645; 39275; 39894; 40505; 41167; 41790; 42431; 43096; 43723; 44385;
   45134; 45858; 46607; 47349; 48091; 48768; 49405; 49955; 50555; 51167; 51985; 52611; 53078;
   53494; 53965; 54435; 54996; 55601; 56125; 56563; 56838; 57244; 57566; 57967; 58297; 58771;
   59093; 59419; 59647; 59886; 60143; 60461; 60693; 60917; 61170; 61416; 61634; 61891; 62122;
   62310; 62455; 62632; 62839; 63103; 63436; 63639; 63805; 63906; 64015; 64192; 64355; 64475;
   64558; 64663; 64742; 64811; 64865; 64916; 64956; 64981; 65025; 65068; 65115; 65195; 65314;
   65419; 65535; 65535; 65535; 65535; 65535; 65535; 65535; 65535; 65535; 65535; 65535; 65535;
   65535; 65535; 65535; 65535; 65535; 65535; 65535; 65535; 65535; 65535; 65535; 65535; 65535;
   65535; 65535; 65535; 65535; 65535; 65535; 65535; 65535; 65535; 65535; 65535; 65535; 65535].

Definition WebRtcIsacfix_kPitchLagCdf2Hi : list Z :=
  [0; 7; 11; 22; 37; 52; 56; 59; 81; 85; 89; 96; 115; 130; 137; 152; 170; 181; 193; 200; 207;
   233; 237; 259; 289; 318; 363; 433; 592; 992; 1607; 3062; 6149; 12206; 25522; 48368; 58223;
   61918; 63640; 64584; 64943; 65098; 65206; 65268; 65294; 65335; 65350; 65372; 65387; 65402;
   65413; 65420; 65428; 65435; 65439; 65450; 65454; 65468; 65472; 65476; 65483; 65491; 65498;
   65505; 65516; 65520; 65528; 65535].

Definition WebRtcIsacfix_kPitchLagCdf3Hi : list Z :=
  [0; 65535].

Definition WebRtcIsacfix_kPitchLagCdf4Hi : list Z :=
  [0; 7; 19; 30; 41; 48; 63; 74; 82; 96; 122; 152; 215; 330; 701; 2611; 10931; 48106; 61177;
   64341; 65112; 65238; 65309; 65338; 65364; 65379; 65401; 65427; 65453; 65465; 65476; 65490;
   65509; 65528; 65535].

Definition WebRtcIsacfix_kPitchLagPtrHi : list (list Z) :=
  [WebRtcIsacfix_kPitchLagCdf1Hi; WebRtcIsacfix_kPitchLagCdf2Hi; WebRtcIsacfix_kPitchLagCdf3Hi;
   WebRtcIsacfix_kPitchLagCdf4Hi].

Definition WebRtcIsacfix_kPitchLagSizeHi : list Z :=
  [512].

Definition WebRtcIsacfix_kLowerLimitHi : list Z :=
  [-552; -34; 0; -16].

Definition WebRtcIsacfix_kUpperLimitHi : list Z :=
  [-80; 32; 0; 17].

Definition WebRtcIsacfix_kInitIndHi : list Z :=
  [34; 1; 18].

Definition WebRtcIsacfix_kMeanLag2Hi : list Z :=
  [-17482; -16896; -16220; -15929; -15329; -14848; -14336; -13807; -13312; -12800; -12218;
   -11720; -11307; -10649; -10396; -9742; -9148; -8668; -8297; -7718; -7155; -6656; -6231;
   -5600; -5129; -4610; -4110; -3521; -3040; -2525; -2016; -1506; -995; -477; -5; 469; 991;
   1510; 2025; 2526; 3079; 3555; 4124; 4601; 5131; 5613; 6194; 6671; 7140; 7645; 8207; 8601;
   9132; 9728; 10359; 10752; 11302; 11776; 12288; 12687; 13204; 13759; 14295; 14810; 15360;
   15764; 16350].

Definition WebRtcIsacfix_kMeanLag4Hi : list Z :=
  [-8175; -7659; -7205; -6684; -6215; -5651; -5180; -4566; -4087; -3536; -3096; -2532; -1990;
   -1482; -959; -440; 11; 451; 954; 1492; 2020; 2562; 3059; 3577; 4113; 4618; 5134; 5724; 6060;
   6758; 7015; 7716; 8066; 8741].

(** ** Spectrum model ([spectrum_ar_model_tables.c]) *)

Definition WebRtcIsacfix_kRc1Cdf : list Z :=
  [0; 2; 4; 129; 7707; 57485; 65495; 65527; 65529; 65531; 65533; 65535].

Definition WebRtcIsacfix_kRc2Cdf : list Z :=
  [0; 2; 4; 7; 531; 25298; 64525; 65526; 65529; 65531; 65533; 65535].

Definition WebRtcIsacfix_kRc3Cdf : list Z :=
  [0; 2; 4; 6; 620; 22898; 64843; 65527; 65529; 65531; 65533; 65535].

Definition WebRtcIsacfix_kRc4Cdf : list Z :=
  [0; 2; 4; 6; 35; 10034; 60733; 65506; 65529; 65531; 65533; 65535].

Definition WebRtcIsacfix_kRc5Cdf : list Z :=
  [0; 2; 4; 6; 36; 7567; 56727; 65385; 65529; 65531; 65533; 65535].

Definition WebRtcIsacfix_kRc6Cdf : list Z :=
  [0; 2; 4; 6; 14; 6579; 57360; 65409; 65529; 65531; 65533; 65535].

Definition WebRtcIsacfix_kRc1Levels : list Z :=
  [-32104; -29007; -23202; -15496; -9279; -2577; 5934; 17535; 24512; 29503; 32104].

Definition WebRtcIsacfix_kRc2Levels : list Z :=
  [-32104; -29503; -23494; -15261; -7309; -1399; 6158; 16381; 24512; 29503; 32104].

Definition WebRtcIsacfix_kRc3Levels : list Z :=
  [-32104; -29503; -23157; -15186; -7347; -1359; 5829; 17535; 24512; 29503; 32104].

Definition WebRtcIsacfix_kRc4Levels : list Z :=
  [-32104; -29503; -24512; -15362; -6665; -342; 6596; 14585; 24512; 29503; 32104].

Definition WebRtcIsacfix_kRc5Levels : list Z :=
  [-32104; -29503; -24512; -15005; -6564; -106; 7123; 14920; 24512; 29503; 32104].

Definition WebRtcIsacfix_kRc6Levels : list Z :=
  [-32104; -29503; -24512; -15096; -6656; -37; 7036; 14847; 24512; 29503; 32104].

Definition WebRtcIsacfix_kRcBound : list Z :=
  [-32768; -31441; -27566; -21458; -13612; -4663; 4663; 13612; 21458; 27566; 31441; 32767].

Definition WebRtcIsacfix_kRcInitInd : list Z :=
  [5; 5; 5; 5; 5; 5].

Definition WebRtcIsacfix_kRcCdfPtr : list (list Z) :=
  [WebRtcIsacfix_kRc1Cdf; WebRtcIsacfix_kRc2Cdf; WebRtcIsacfix_kRc3Cdf; WebRtcIsacfix_kRc4Cdf;
   WebRtcIsacfix_kRc5Cdf; WebRtcIsacfix_kRc6Cdf].

Definition WebRtcIsacfix_kRcLevPtr : list (list Z) :=
  [WebRtcIsacfix_kRc1Levels; WebRtcIsacfix_kRc2Levels; WebRtcIsacfix_kRc3Levels;
   WebRtcIsacfix_kRc4Levels; WebRtcIsacfix_kRc5Levels; WebRtcIsacfix_kRc6Levels].

Definition WebRtcIsacfix_kGainCdf : list Z :=
  [0; 2; 4; 6; 8; 10; 12; 14; 16; 1172; 11119; 29411; 51699; 64445; 65527; 65529; 65531; 65533;
   65535].

Definition WebRtcIsacfix_kGain2Lev : list Z :=
  [128; 128; 128; 128; 128; 215; 364; 709; 1268; 1960; 3405; 6078; 11286; 17827; 51918; 134498;
   487432; 2048000].

Definition WebRtcIsacfix_kGain2Bound : list Z :=
  [0; 21; 35; 59; 99; 166; 280; 475; 815; 1414; 2495; 4505; 8397; 16405; 34431; 81359; 240497;
   921600; 2147483647].

Definition WebRtcIsacfix_kGainPtr : list (list Z) :=
  [WebRtcIsacfix_kGainCdf].

Definition WebRtcIsacfix_kGainInitInd : list Z :=
  [11].

Definition WebRtcIsacfix_kCos : list (list Z) :=
  [[512; 512; 511; 510; 508; 507; 505; 502; 499; 496; 493; 489; 485; 480; 476; 470; 465; 459;
    453; 447; 440; 433; 426; 418; 410; 402; 394; 385; 376; 367; 357; 348; 338; 327; 317; 306;
    295; 284; 273; 262; 250; 238; 226; 214; 202; 190; 177; 165; 152; 139; 126; 113; 100; 87;
    73; 60; 47; 33; 20; 7];
   [512; 510; 508; 503; 498; 491; 483; 473; 462; 450; 437; 422; 406; 389; 371; 352; 333; 312;
    290; 268; 244; 220; 196; 171; 145; 120; 93; 67; 40; 13; -13; -40; -67; -93; -120; -145;
    -171; -196; -220; -244; -268; -290; -312; -333; -352; -371; -389; -406; -422; -437; -450;
    -462; -473; -483; -491; -498; -503; -508; -510; -512];
   [512; 508; 502; 493; 480; 465; 447; 426; 402; 376; 348; 317; 284; 250; 214; 177; 139; 100;
    60; 20; -20; -60; -100; -139; -177; -214; -250; -284; -317; -348; -376; -402; -426; -447;
    -465; -480; -493; -502; -508; -512; -512; -508; -502; -493; -480; -465; -447; -426; -402;
    -376; -348; -317; -284; -250; -214; -177; -139; -100; -60; -20];
   [511; 506; 495; 478; 456; 429; 398; 362; 322; 279; 232; 183; 133; 80; 27; -27; -80; -133;
    -183; -232; -279; -322; -362; -398; -429; -456; -478; -495; -506; -511; -511; -506; -495;
    -478; -456; -429; -398; -362; -322; -279; -232; -183; -133; -80; -27; 27; 80; 133; 183;
    232; 279; 322; 362; 398; 429; 456; 478; 495; 506; 511];
   [511; 502; 485; 459; 426; 385; 338; 284; 226; 165; 100; 33; -33; -100; -165; -226; -284;
    -338; -385; -426; -459; -485; -502; -511; -511; -502; -485; -459; -426; -385; -338; -284;
    -226; -165; -100; -33; 33; 100; 165; 226; 284; 338; 385; 426; 459; 485; 502; 511; 511; 502;
    485; 459; 426; 385; 338; 284; 226; 165; 100; 33];
   [510; 498; 473; 437; 389; 333; 268; 196; 120; 40; -40; -120; -196; -268; -333; -389; -437;
    -473; -498; -510; -510; -498; -473; -437; -389; -333; -268; -196; -120; -40; 40; 120; 196;
    268; 333; 389; 437; 473; 498; 510; 510; 498; 473; 437; 389; 333; 268; 196; 120; 40; -40;
    -120; -196; -268; -333; -389; -437; -473; -498; -510]].

(** ** Frame length and bandwidth ([entropy_coding.c]) *)

Definition kFrameLenCdf : list Z :=
  [0; 21845; 43690; 65535].

Definition kFrameLenCdfPtr : list (list Z) :=
  [kFrameLenCdf].

Definition kFrameLenInitIndex : list Z :=
  [1].

Definition kBwCdf : list Z :=
  [0; 2731; 5461; 8192; 10923; 13653; 16384; 19114; 21845; 24576; 27306; 30037; 32768; 35498;
   38229; 40959; 43690; 46421; 49151; 51882; 54613; 57343; 60074; 62804; 65535].

Definition kBwCdfPtr : list (list Z) :=
  [kBwCdf].

Definition kBwInitIndex : list Z :=
  [7].
