(* ===== verification/IsacFixEntropy.v ===== *)
(** * Side information of iSAC fixed point

    [entropy_coding.c], lines 1481 to 1985: the routines that quantise, encode
    and decode the frame length, the bandwidth index, the pitch gains and lags,
    and the reflection coefficients and gain of the spectrum model. Arrays a
    routine updates through a pointer are part of its result. The theorems are
    proved against the interface of [IsacFixStream]: each encoder and decoder
    pair codes the same intervals, and the decoder reconstructs the values the
    encoder has quantised to. *)

From S2P Require Import Prelude Spl ArithSpec IsacFixArith IsacFixDec IsacFixStream IsacFixTables.

Open Scope c_scope.

(** ** Constants of [settings.h] *)

Definition PITCH_SUBFRAMES : nat := 4.
Definition AR_ORDER : nat := 6.
Definition ISAC_DISALLOWED_FRAME_MODE_ENCODER : Z := 6430.
Definition ISAC_DISALLOWED_FRAME_MODE_DECODER : Z := 6630.
Definition ISAC_RANGE_ERROR_DECODE_FRAME_LENGTH : Z := 6640.
Definition ISAC_RANGE_ERROR_DECODE_BANDWIDTH : Z := 6650.
Definition ISAC_RANGE_ERROR_DECODE_PITCH_GAIN : Z := 6660.
Definition ISAC_RANGE_ERROR_DECODE_PITCH_LAG : Z := 6670.

(** The part of [IsacSaveEncoderData] the routines below write. *)
Record IsacSaveEncoderData := mkSave {
  startIdx : Z;
  pitchGain_index : list Z;
  meanGain : list Z;
  pitchIndex : list Z;
}.

Definition set_pitchGain_index (l : list Z) (e : IsacSaveEncoderData) :=
  mkSave (startIdx e) l (meanGain e) (pitchIndex e).
Definition set_meanGain (l : list Z) (e : IsacSaveEncoderData) :=
  mkSave (startIdx e) (pitchGain_index e) l (pitchIndex e).
Definition set_pitchIndex (l : list Z) (e : IsacSaveEncoderData) :=
  mkSave (startIdx e) (pitchGain_index e) (meanGain e) l.

(** Stores with a C index. *)
Definition zstore (l : list Z) (i v : Z) : option (list Z) :=
  if i <? 0 then None else store l (Z.to_nat i) v.

(** [if (encData != NULL) ...] *)
Definition save {S R} (encData : option IsacSaveEncoderData)
    (f : IsacSaveEncoderData -> option IsacSaveEncoderData) :
    stmt S R (option IsacSaveEncoderData) :=
  match encData with
  | None => ret None
  | Some e => let! e' := mem (f e) in ret (Some e')
  end.

(** ** Scalar quantisation by a table of bounds *)

(** [while (x > bound[index + 1]) index++] *)
Fixpoint quant_up {S R} (fuel : nat) (x : Z) (bound : list Z) (index : Z) : stmt S R Z :=
  match fuel with
  | O => fun _ => Spin
  | Datatypes.S fuel' =>
      let! b := mem (zget bound (index + 1)) in
      if b <? x then quant_up fuel' x bound (s16 (index + 1)) else ret index
  end.

(** [while (x < bound[--index]) ;] *)
Fixpoint quant_down {S R} (fuel : nat) (x : Z) (bound : list Z) (index : Z) : stmt S R Z :=
  match fuel with
  | O => fun _ => Spin
  | Datatypes.S fuel' =>
      let index := s16 (index - 1) in
      let! b := mem (zget bound index) in
      if x <? b then quant_down fuel' x bound index else ret index
  end.

(** Both loops leave the table before the fuel is used up. *)
Definition quant_index {S R} (x : Z) (bound : list Z) (init : Z) : stmt S R Z :=
  let! b := mem (zget bound init) in
  if b <? x then quant_up (Datatypes.S (length bound)) x bound init
  else quant_down (Datatypes.S (length bound)) x bound init.

(** ** Reflection coefficients *)

(** The levels of a vector of indices. *)
Fixpoint levels {S R} (lev : list (list Z)) (index : list Z) : stmt S R (list Z) :=
  match lev, index with
  | [], [] => ret []
  | l :: lev', i :: index' =>
      let! v := mem (zget l i) in
      let! vs := levels lev' index' in
      ret (v :: vs)
  | _, _ => fun _ => Fault
  end.

Fixpoint quant_rc {S R} (RCQ15 : list Z) (init : list Z) (lev : list (list Z)) :
    stmt S R (list Z * list Z) :=
  match RCQ15, init, lev with
  | [], [], [] => ret ([], [])
  | x :: RCQ15', i0 :: init', l :: lev' =>
      let! i := quant_index x WebRtcIsacfix_kRcBound (s16 i0) in
      let! v := mem (zget l i) in
      let! r := quant_rc RCQ15' init' lev' in
      ret (i :: r.1, v :: r.2)
  | _, _, _ => fun _ => Fault
  end.

Section entropy.
Context `{SplOps}.

Definition WebRtcIsacfix_DecodeRcCoef {R} (RCQ15 : list Z) : stmt Bitstr_dec R (Z * list Z) :=
  fn (let! r := WebRtcIsacfix_DecHistOneStepMulti WebRtcIsacfix_kRcCdfPtr
                  WebRtcIsacfix_kRcInitInd (Z.of_nat AR_ORDER) in
      let '(err, index) := r in
      if err <? 0 then return_ (err, RCQ15)
      else
        let! RCQ15 := levels WebRtcIsacfix_kRcLevPtr index in
        ret (0, RCQ15)).

Definition WebRtcIsacfix_EncodeRcCoef {R} (RCQ15 : list Z) : stmt Bitstr_enc R (Z * list Z) :=
  fn (let! r := quant_rc RCQ15 WebRtcIsacfix_kRcInitInd WebRtcIsacfix_kRcLevPtr in
      let '(index, RCQ15) := r in
      let! status := WebRtcIsacfix_EncHistMulti index WebRtcIsacfix_kRcCdfPtr
                       (Z.of_nat AR_ORDER) in
      ret (status, RCQ15)).

(** ** Squared gain *)

Definition WebRtcIsacfix_DecodeGain2 {R} (gainQ10 : Z) : stmt Bitstr_dec R (Z * Z) :=
  fn (let! r := WebRtcIsacfix_DecHistOneStepMulti WebRtcIsacfix_kGainPtr
                  WebRtcIsacfix_kGainInitInd 1 in
      let '(err, data) := r in
      if err <? 0 then return_ (err, gainQ10)
      else
        let! index := mem (data !! 0%nat) in
        let! gainQ10 := mem (zget WebRtcIsacfix_kGain2Lev index) in
        ret (0, gainQ10)).

Definition WebRtcIsacfix_EncodeGain2 {R} (gainQ10 : Z) : stmt Bitstr_enc R (Z * Z) :=
  fn (let! init := mem (WebRtcIsacfix_kGainInitInd !! 0%nat) in
      let! index := quant_index gainQ10 WebRtcIsacfix_kGain2Bound (s16 init) in
      let! gainQ10 := mem (zget WebRtcIsacfix_kGain2Lev index) in
      let! status := WebRtcIsacfix_EncHistMulti [index] WebRtcIsacfix_kGainPtr 1 in
      ret (status, gainQ10)).

(** ** Pitch gains *)

(** The four gains of a combined index. *)
Definition gains_of {S R} (index_comb : Z) : stmt S R (list Z) :=
  let! g1 := mem (zget WebRtcIsacfix_kPitchGain1 index_comb) in
  let! g2 := mem (zget WebRtcIsacfix_kPitchGain2 index_comb) in
  let! g3 := mem (zget WebRtcIsacfix_kPitchGain3 index_comb) in
  let! g4 := mem (zget WebRtcIsacfix_kPitchGain4 index_comb) in
  ret [g1; g2; g3; g4].

Definition WebRtcIsacfix_DecodePitchGain {R} (PitchGains_Q12 : list Z) :
    stmt Bitstr_dec R (Z * list Z) :=
  fn (let! r := WebRtcIsacfix_DecHistBisectMulti [WebRtcIsacfix_kPitchGainCdf]
                  WebRtcIsacfix_kCdfTableSizeGain 1 in
      let '(err, data) := r in
      if err <? 0 then return_ (- ISAC_RANGE_ERROR_DECODE_PITCH_GAIN, PitchGains_Q12)
      else
        let! index_comb := mem (data !! 0%nat) in
        if (index_comb <? 0) || (144 <=? index_comb)
        then return_ (- ISAC_RANGE_ERROR_DECODE_PITCH_GAIN, PitchGains_Q12)
        else
          let! gains := gains_of index_comb in
          ret (0, gains)).

(** [if (i < lo) i = lo; else if (i > hi) i = hi; i -= lo;] *)
Definition clip_index (i lo hi : Z) : Z :=
  let i := if i <? lo then lo else if hi <? i then hi else i in
  s16 (i - lo).

(** [sum += row[j] * x[j] >> sh] over a row of the transform. *)
Fixpoint transform_row (row x : list Z) (sh acc : Z) : Z :=
  match row, x with
  | r :: row', v :: x' => transform_row row' x' sh (s32 (acc + Z.shiftr (r * v) sh))
  | _, _ => acc
  end.

Definition gain_index {S R} (SQ15 : list Z) (k : nat) : stmt S R Z :=
  let! row := mem (WebRtcIsacfix_kTransform !! k) in
  let CQ17 := transform_row row SQ15 10 0 in
  let! lo := mem (WebRtcIsacfix_kLowerlimiGain !! k) in
  let! hi := mem (WebRtcIsacfix_kUpperlimitGain !! k) in
  ret (clip_index (s16 (Z.shiftr (s32 (CQ17 + 8192)) 14)) lo hi).

Definition WebRtcIsacfix_EncodePitchGain {R} (PitchGains_Q12 : list Z)
    (encData : option IsacSaveEncoderData) :
    stmt Bitstr_enc R (Z * list Z * option IsacSaveEncoderData) :=
  fn (let SQ15 := map (fun g => s16 (Z.shiftr (g * 33) 2)) PitchGains_Q12 in
      let! i0 := gain_index SQ15 0 in
      let! i1 := gain_index SQ15 1 in
      let! i2 := gain_index SQ15 2 in
      let! m0 := mem (WebRtcIsacfix_kMultsGain !! 0%nat) in
      let! m1 := mem (WebRtcIsacfix_kMultsGain !! 1%nat) in
      let index_comb := s16 (spl_mul m0 i0 + spl_mul m1 i1 + i2) in
      let! gains := gains_of index_comb in
      let! status := WebRtcIsacfix_EncHistMulti [index_comb] [WebRtcIsacfix_kPitchGainCdf] 1 in
      if status <? 0 then return_ (status, gains, encData)
      else
        let! encData := save encData (fun e =>
          l ← zstore (pitchGain_index e) (startIdx e) index_comb;
          Some (set_pitchGain_index l e)) in
        ret (0, gains, encData)).

(** ** Pitch lags *)

(** What the voicing classification selects. *)
Record lag_class := mkLagClass {
  lag_shft : Z;
  lag_cdf : list (list Z);
  lag_size : list Z;
  lag_mean2 : list Z;
  lag_mean4 : list Z;
  lag_lower : list Z;
  lag_upper : list Z;
  lag_init : list Z;
}.

Definition lag_class_of (meangainQ12 : Z) : lag_class :=
  if meangainQ12 <=? 819 then
    mkLagClass (-1) WebRtcIsacfix_kPitchLagPtrLo WebRtcIsacfix_kPitchLagSizeLo
      WebRtcIsacfix_kMeanLag2Lo WebRtcIsacfix_kMeanLag4Lo
      WebRtcIsacfix_kLowerLimitLo WebRtcIsacfix_kUpperLimitLo WebRtcIsacfix_kInitIndLo
  else if meangainQ12 <=? 1638 then
    mkLagClass 0 WebRtcIsacfix_kPitchLagPtrMid WebRtcIsacfix_kPitchLagSizeMid
      WebRtcIsacfix_kMeanLag2Mid WebRtcIsacfix_kMeanLag4Mid
      WebRtcIsacfix_kLowerLimitMid WebRtcIsacfix_kUpperLimitMid WebRtcIsacfix_kInitIndMid
  else
    mkLagClass 1 WebRtcIsacfix_kPitchLagPtrHi WebRtcIsacfix_kPitchLagSizeHi
      WebRtcIsacfix_kMeanLag2Hi WebRtcIsacfix_kMeanLag4Hi
      WebRtcIsacfix_kLowerLimitHi WebRtcIsacfix_kUpperLimitHi WebRtcIsacfix_kInitIndHi.

Definition mean_gain (PitchGain_Q12 : list Z) : Z :=
  Z.shiftr (foldl (fun s g => s32 (s + g)) 0 (take 4 PitchGain_Q12)) 2.

(** The inverse transform both sides apply to the quantisation indices. *)
Definition lags_of {S R} (cl : lag_class) (index : list Z) : stmt S R (list Z) :=
  let! i0 := mem (index !! 0%nat) in
  let! l0 := mem (lag_lower cl !! 0%nat) in
  let CQ11 := spl_shift_w32 (i0 + l0) (11 - lag_shft cl) in
  let! t0 := mem (WebRtcIsacfix_kTransform !! 0%nat) in
  let lags := map (fun t => s16 (Z.shiftr (spl_mul_16_32_rsft11 t CQ11) 5)) t0 in
  let! i1 := mem (index !! 1%nat) in
  let! CQ10 := mem (zget (lag_mean2 cl) i1) in
  let! t1 := mem (WebRtcIsacfix_kTransform !! 1%nat) in
  let lags := zip_with (fun p t => s16 (p + s16 (Z.shiftr (Z.shiftr (t * s16 CQ10) 10) 5))) lags t1 in
  let! i3 := mem (index !! 3%nat) in
  let! CQ10 := mem (zget (lag_mean4 cl) i3) in
  let! t3 := mem (WebRtcIsacfix_kTransform !! 3%nat) in
  ret (zip_with (fun p t => s16 (p + s16 (Z.shiftr (Z.shiftr (t * s16 CQ10) 10) 5))) lags t3).

Definition WebRtcIsacfix_DecodePitchLag {R} (PitchGain_Q12 PitchLags_Q7 : list Z) :
    stmt Bitstr_dec R (Z * list Z) :=
  fn (let cl := lag_class_of (mean_gain PitchGain_Q12) in
      let! r := WebRtcIsacfix_DecHistBisectMulti (lag_cdf cl) (lag_size cl) 1 in
      let '(err, index0) := r in
      if err <? 0 then return_ (- ISAC_RANGE_ERROR_DECODE_PITCH_LAG, PitchLags_Q7)
      else
        let! i0 := mem (index0 !! 0%nat) in
        if i0 <? 0 then return_ (- ISAC_RANGE_ERROR_DECODE_PITCH_LAG, PitchLags_Q7)
        else
          let! r := WebRtcIsacfix_DecHistOneStepMulti (drop 1 (lag_cdf cl)) (lag_init cl) 3 in
          let '(err, index) := r in
          if err <? 0 then return_ (- ISAC_RANGE_ERROR_DECODE_PITCH_LAG, PitchLags_Q7)
          else
            let! lags := lags_of cl (i0 :: index) in
            ret (0, lags)).

Definition lag_index {S R} (cl : lag_class) (PitchLagsQ7 : list Z) (k : nat) : stmt S R Z :=
  let! row := mem (WebRtcIsacfix_kTransform !! k) in
  let CQ17 := spl_shift_w32 (transform_row row PitchLagsQ7 2 0) (lag_shft cl) in
  let! lo := mem (lag_lower cl !! k) in
  let! hi := mem (lag_upper cl !! k) in
  ret (clip_index (s16 (Z.shiftr (s32 (CQ17 + 65536)) 17)) lo hi).

(** Index [k], stored in the saved data as it is found. *)
Definition lag_index_saved {S R} (cl : lag_class) (PitchLagsQ7 : list Z) (k : nat)
    (encData : option IsacSaveEncoderData) : stmt S R (Z * option IsacSaveEncoderData) :=
  let! i := lag_index cl PitchLagsQ7 k in
  let! encData := save encData (fun e =>
    l ← zstore (pitchIndex e) (Z.of_nat PITCH_SUBFRAMES * startIdx e + Z.of_nat k) i;
    Some (set_pitchIndex l e)) in
  ret (i, encData).

Definition WebRtcIsacfix_EncodePitchLag {R} (PitchLagsQ7 PitchGain_Q12 : list Z)
    (encData : option IsacSaveEncoderData) :
    stmt Bitstr_enc R (Z * list Z * option IsacSaveEncoderData) :=
  fn (let meangainQ12 := mean_gain PitchGain_Q12 in
      let! encData := save encData (fun e =>
        l ← zstore (meanGain e) (startIdx e) meangainQ12;
        Some (set_meanGain l e)) in
      let cl := lag_class_of meangainQ12 in
      let! r0 := lag_index_saved cl PitchLagsQ7 0 encData in
      let! r1 := lag_index_saved cl PitchLagsQ7 1 r0.2 in
      let! r2 := lag_index_saved cl PitchLagsQ7 2 r1.2 in
      let! r3 := lag_index_saved cl PitchLagsQ7 3 r2.2 in
      let index := [r0.1; r1.1; r2.1; r3.1] in
      let! lags := lags_of cl index in
      let! status := WebRtcIsacfix_EncHistMulti index (lag_cdf cl) (Z.of_nat PITCH_SUBFRAMES) in
      ret (status, lags, r3.2)).

(** ** Frame length and bandwidth *)

Definition WebRtcIsacfix_DecodeFrameLen {R} (framesamples : Z) : stmt Bitstr_dec R (Z * Z) :=
  fn (let! r := WebRtcIsacfix_DecHistOneStepMulti kFrameLenCdfPtr kFrameLenInitIndex 1 in
      let '(err, data) := r in
      if err <? 0 then return_ (- ISAC_RANGE_ERROR_DECODE_FRAME_LENGTH, framesamples)
      else
        let! frame_mode := mem (data !! 0%nat) in
        if frame_mode =? 1 then ret (err, 480)
        else if frame_mode =? 2 then ret (err, 960)
        else ret (- ISAC_DISALLOWED_FRAME_MODE_DECODER, framesamples)).

Definition WebRtcIsacfix_EncodeFrameLen {R} (framesamples : Z) : stmt Bitstr_enc R Z :=
  fn (let '(frame_mode, status) :=
        if framesamples =? 480 then (1, 0)
        else if framesamples =? 960 then (2, 0)
        else (0, - ISAC_DISALLOWED_FRAME_MODE_ENCODER) in
      if status <? 0 then return_ status
      else WebRtcIsacfix_EncHistMulti [frame_mode] kFrameLenCdfPtr 1).

Definition WebRtcIsacfix_DecodeSendBandwidth {R} (BWno : Z) : stmt Bitstr_dec R (Z * Z) :=
  fn (let! r := WebRtcIsacfix_DecHistOneStepMulti kBwCdfPtr kBwInitIndex 1 in
      let '(err, data) := r in
      if err <? 0 then return_ (- ISAC_RANGE_ERROR_DECODE_BANDWIDTH, BWno)
      else
        let! BWno32 := mem (data !! 0%nat) in
        ret (err, s16 BWno32)).

Definition WebRtcIsacfix_EncodeReceiveBandwidth {R} (BWno : Z) : stmt Bitstr_enc R Z :=
  fn (WebRtcIsacfix_EncHistMulti [BWno] kBwCdfPtr 1).

End entropy.

(** ** Pure steps

    Quantisation and table look-ups do not touch the bit stream. *)

Definition pure {A} (m : forall S R, stmt S R A) (a : A) : Prop := forall S R s, m S R s = Next a s.

Lemma encodes_pure {R A B} (m : forall S R, stmt S R A) (k : A -> stmt Bitstr_enc B B) a ivs ok err :
  pure m a -> Encodes (fn (R' := R) (k a)) ivs ok err ->
  Encodes (fn (R' := R) (bind (m Bitstr_enc B) k)) ivs ok err.
Proof.
  intros Hm [Hi HE]. split; [done|]. intros s c Hc. specialize (HE s c Hc).
  unfold fn in *. by rewrite (bind_Next _ _ _ _ _ (Hm _ _ s)).
Qed.

Lemma encodes_tail {R A} (E : stmt Bitstr_enc A A) ivs ok err :
  Encodes E ivs ok err -> Encodes (fn (R' := R) E) ivs ok err.
Proof.
  intros [Hi HE]. split; [done|]. intros s a Ha. specialize (HE s a Ha). unfold fn.
  case_decide; [destruct HE as (s' & -> & Ha')|destruct HE as (r & s' & -> & Hr)]; eauto.
Qed.

Lemma decodes_pure {R A B} (m : forall S R, stmt S R A) (k : A -> stmt Bitstr_dec B B) a ivs res :
  pure m a -> Decodes (fn (R' := R) (k a)) ivs res ->
  Decodes (fn (R' := R) (bind (m Bitstr_dec B) k)) ivs res.
Proof.
  intros Hm [Hi HD]. split; [done|]. intros s c Hc Hin Hcon.
  destruct (HD s c Hc Hin Hcon) as (s' & E & HR). exists s'. split; [|done].
  unfold fn in *. by rewrite (bind_Next _ _ _ _ _ (Hm _ _ s)).
Qed.

Lemma decodes_ext {R A} (D D' : stmt Bitstr_dec R A) ivs res :
  (forall s, D s = D' s) -> Decodes D' ivs res -> Decodes D ivs res.
Proof. intros E [Hi HD]. split; [done|]. intros s c. rewrite E. apply HD. Qed.

(** The last call of an encoder, whose status is part of the result. *)
Lemma encodes_last {R A B} (E : stmt Bitstr_enc B A) (k : A -> stmt Bitstr_enc B B)
    ivs ok ok' (err : A -> Prop) (err' : B -> Prop) :
  Encodes E ivs ok err ->
  (forall s, fn (R' := R) (k ok) s = Next ok' s) ->
  (forall r s, err r -> exists r', fn (R' := R) (k r) s = Next r' s /\ err' r') ->
  Encodes (fn (R' := R) (bind E k)) ivs ok' err'.
Proof.
  intros HE Hok Herr. rewrite <- (app_nil_r ivs). eapply encodes_bind; [done|done|].
  split; [done|]. intros s a Ha. rewrite decide_True.
  - exists s. by rewrite Hok.
  - destruct Ha as [[_ _ Hp _ Hf Hn _ _] _ _]. simpl. unfold STREAM_MAXW16_60MS in Hp. lia.
Qed.

(** ** Quantisation *)

Lemma zget_in (l : list Z) i : 0 <= i < Z.of_nat (length l) -> exists v, zget l i = Some v.
Proof.
  intros Hi. unfold zget. rewrite (proj2 (Z.ltb_ge _ _)) by lia.
  apply lookup_lt_is_Some_2. lia.
Qed.


(** The index of the cell of [bound] that holds [x]. *)
Definition in_cell (bound : list Z) (x index : Z) : Prop :=
  exists lo hi, zget bound index = Some lo /\ zget bound (index + 1) = Some hi /\ lo <= x <= hi.

Section quant.
Context (bound : list Z) (x lo0 hi0 : Z).
Hypothesis Hlen : Z.of_nat (length bound) < 2 ^ 15.
Hypothesis Hlo0 : zget bound 0 = Some lo0.
Hypothesis Hhi0 : zget bound (Z.of_nat (length bound) - 1) = Some hi0.
Hypothesis Hx : lo0 <= x <= hi0.

Lemma quant_up_spec fuel i b :
  zget bound i = Some b -> b < x -> Z.of_nat (length bound) <= i + Z.of_nat fuel ->
  exists j, 0 <= j < Z.of_nat (length bound) - 1 /\ in_cell bound x j /\
    pure (fun S R => quant_up fuel x bound i) j.
Proof.
  revert i b. induction fuel as [|fuel IH]; intros i b Eb Hb Hf;
    apply zget_Some in Eb as Hi; destruct Hi as [Hi Hl%lookup_lt_Some]; [lia|].
  assert (i < Z.of_nat (length bound) - 1) as Hin.
  { destruct (Z_lt_le_dec i (Z.of_nat (length bound) - 1)); [done|].
    replace i with (Z.of_nat (length bound) - 1) in Eb by lia. rewrite Hhi0 in Eb. simplify_eq. lia. }
  destruct (zget_in bound (i + 1) ltac:(lia)) as [b' Eb'].
  destruct (Z.ltb_spec b' x) as [Hlt|Hge].
  - destruct (IH (i + 1) b' Eb' Hlt ltac:(lia)) as (j & Hj & Hcell & Hp).
    exists j. split_and!; [lia|lia|done|]. intros S R s. cbn [quant_up].
    rewrite (bind_mem _ _ _ _ Eb'), (proj2 (Z.ltb_lt _ _)), s16_id by (done || clia). apply Hp.
  - exists i. split_and!; [lia|lia| |].
    + exists b, b'. split_and!; [done|done|lia|lia].
    + intros S R s. cbn [quant_up]. rewrite (bind_mem _ _ _ _ Eb'), (proj2 (Z.ltb_ge _ _)); done.
Qed.

Lemma quant_down_spec fuel i b :
  zget bound i = Some b -> x <= b -> 0 < i < Z.of_nat fuel -> 
  exists j, 0 <= j < Z.of_nat (length bound) - 1 /\ in_cell bound x j /\
    pure (fun S R => quant_down fuel x bound i) j.
Proof.
  revert i b. induction fuel as [|fuel IH]; intros i b Eb Hb Hf; [lia|].
  apply zget_Some in Eb as Hi; destruct Hi as [Hi Hl%lookup_lt_Some].
  destruct (zget_in bound (i - 1) ltac:(lia)) as [b' Eb'].
  assert (Es : s16 (i - 1) = i - 1) by (apply s16_id; clia).
  destruct (Z.ltb_spec x b') as [Hlt|Hge].
  - assert (i - 1 <> 0) as Hnz by (intros E0; rewrite E0 in Eb'; simplify_eq; lia).
    destruct (IH (i - 1) b' Eb' ltac:(lia) ltac:(lia)) as (j & Hj & Hcell & Hp).
    exists j. split_and!; [lia|lia|done|]. intros S R s. cbn [quant_down]. rewrite Es.
    rewrite (bind_mem _ _ _ _ Eb'), (proj2 (Z.ltb_lt _ _)) by done. apply Hp.
  - exists (i - 1). split_and!; [lia|lia| |].
    + exists b', b. replace (i - 1 + 1) with i by lia. done.
    + intros S R s. cbn [quant_down]. rewrite Es, (bind_mem _ _ _ _ Eb'), (proj2 (Z.ltb_ge _ _)); done.
Qed.

(** Quantisation ends with the index of a cell that holds the value. *)
Lemma quant_index_spec init :
  0 < init < Z.of_nat (length bound) ->
  exists j, 0 <= j < Z.of_nat (length bound) - 1 /\ in_cell bound x j /\
    pure (fun S R => quant_index x bound init) j.
Proof.
  intros Hi. destruct (zget_in bound init ltac:(lia)) as [b Eb].
  unfold quant_index. destruct (Z.ltb_spec b x) as [Hlt|Hge].
  - destruct (quant_up_spec (S (length bound)) init b Eb Hlt ltac:(lia)) as (j & Hj & Hc & Hp).
    exists j. split_and!; [lia|lia|done|]. intros S R s.
    rewrite (bind_mem _ _ _ _ Eb), (proj2 (Z.ltb_lt _ _)) by done. apply Hp.
  - destruct (quant_down_spec (S (length bound)) init b Eb Hge ltac:(lia)) as (j & Hj & Hc & Hp).
    exists j. split_and!; [lia|lia|done|]. intros S R s.
    rewrite (bind_mem _ _ _ _ Eb), (proj2 (Z.ltb_ge _ _)) by done. apply Hp.
Qed.
End quant.

(** ** Tables *)

(** Every index below [n - 1] can be coded with the first [n] entries. *)
Lemma prefix_sym_of c n d :
  cdf_okb c = true -> ascending Z.ltb (take n c) = true -> (n <= length c)%nat ->
  0 <= d < Z.of_nat n - 1 -> exists iv, sym_of d c iv.
Proof.
  intros Hok Ha Hn Hd.
  destruct (lookup_lt_is_Some_2 c (Z.to_nat d) ltac:(lia)) as [lo Elo].
  destruct (lookup_lt_is_Some_2 c (S (Z.to_nat d)) ltac:(lia)) as [hi Ehi].
  exists (lo, hi). split; [by apply cdf_okb_ok|]. exists (Z.to_nat d). split; [lia|].
  split_and!; [done|done|]. apply Z.ltb_lt, (ascending_lookup _ _ (Z.to_nat d) _ _ Ha).
  - by rewrite lookup_take_lt by lia.
  - by rewrite lookup_take_lt by lia.
Qed.

Lemma syms_of_1 d c iv : sym_of d c iv -> Forall3 sym_of [d] [c] [iv].
Proof. intros. constructor; [done|constructor]. Qed.

Lemma size_ok_of c k :
  (k < 14)%nat -> Z.of_nat (length c) = 2 ^ Z.of_nat (S k) - 1 -> size_ok c (2 ^ Z.of_nat (S k)).
Proof. intros. exists k. done. Qed.

(** ** Reflection coefficients *)

Lemma quant_rc_spec RC init lev :
  length RC = length init ->
  Forall2 (fun i l => 0 < i < 12 /\ length l = 11%nat) init lev -> Forall is_s16 RC ->
  exists index vals,
    pure (fun S R => quant_rc RC init lev) (index, vals) /\
    pure (fun S R => levels lev index) vals /\
    Forall (fun i => 0 <= i < 11) index /\ length index = length RC /\
    Forall2 (in_cell WebRtcIsacfix_kRcBound) RC index.
Proof.
  intros HL Hil. revert RC HL. induction Hil as [|i l init lev [Hi Hl] _ IH];
    intros [|x RC] HL HRC; try done.
  - exists [], []. by repeat split.
  - apply Forall_cons_1 in HRC as [Hx HRC]. injection HL as HL.
    destruct (IH RC HL HRC) as (index & vals & P1 & P2 & B & L & C).
    assert (Ei : s16 i = i) by (apply s16_id; clia).
    destruct (quant_index_spec WebRtcIsacfix_kRcBound x (-32768) 32767) with (init := i)
      as (j & Hj & Hc & Hp); [reflexivity|reflexivity|reflexivity|clia|simpl; lia|].
    destruct (zget_in l j ltac:(rewrite Hl; simpl in Hj; lia)) as [v Ev].
    exists (j :: index), (v :: vals). split_and!.
    + intros S R s. cbn [quant_rc]. rewrite Ei, (bind_Next _ _ _ _ _ (Hp S R s)).
      rewrite (bind_mem _ _ _ _ Ev), (bind_Next _ _ _ _ _ (P1 S R s)). done.
    + intros S R s. cbn [levels]. rewrite (bind_mem _ _ _ _ Ev), (bind_Next _ _ _ _ _ (P2 S R s)). done.
    + constructor; [simpl in Hj; lia|done].
    + simpl. lia.
    + by constructor.
Qed.

Lemma rc_tables :
  Forall2 (fun i l => 0 < i < 12 /\ length l = 11%nat) WebRtcIsacfix_kRcInitInd WebRtcIsacfix_kRcLevPtr /\
  Forall (fun c => cdf_denseb c = true /\ length c = 12%nat) WebRtcIsacfix_kRcCdfPtr /\
  Forall2 init_ok WebRtcIsacfix_kRcCdfPtr WebRtcIsacfix_kRcInitInd.
Proof. split_and!; repeat (constructor; [done|]); constructor. Qed.

(** A length is not an error code. *)
Ltac no_error := cbn beta iota; rewrite (proj2 (Z.ltb_ge _ 0)) by lia.

Section routines.
Context `{SplLaws}.

(** What an encoder and a decoder routine promise each other: they code the
    same intervals, and the decoder's result is [res]. *)
Definition coded {A B} (E : forall R, stmt Bitstr_enc R A) (D : forall R, stmt Bitstr_dec R B)
    (ok : A) (err : A -> Prop) (res : nat -> B) : Prop :=
  exists ivs, (forall R, Encodes (E R) ivs ok err) /\ (forall R, Decodes (D R) ivs res).

(** The same for routines that code one symbol. *)
Definition coded1 {A B} (E : forall R, stmt Bitstr_enc R A) (D : forall R, stmt Bitstr_dec R B)
    (ok : A) (err : A -> Prop) (res : nat -> B) : Prop :=
  exists iv, (forall R, Encodes (E R) [iv] ok err) /\ (forall R, Decodes (D R) [iv] res).

Lemma RcCoef_coded RC RC0 :
  length RC = AR_ORDER -> Forall is_s16 RC ->
  exists index vals, Forall2 (in_cell WebRtcIsacfix_kRcBound) RC index /\
    pure (fun S R => levels WebRtcIsacfix_kRcLevPtr index) vals /\
    coded (fun R => WebRtcIsacfix_EncodeRcCoef RC) (fun R => WebRtcIsacfix_DecodeRcCoef RC0)
      (0, vals) (fun r => bits_exceeded r.1) (fun _ => (0, vals)).
Proof.
  intros HL HRC. destruct rc_tables as (T1 & T2 & T3).
  destruct (quant_rc_spec RC WebRtcIsacfix_kRcInitInd _ HL T1 HRC) as (index & vals & P1 & P2 & B & L & C).
  exists index, vals. split_and!; [done|done|].
  assert (exists ivs, Forall3 sym_of index WebRtcIsacfix_kRcCdfPtr ivs) as [ivs Hivs].
  { apply dense_syms_of.
    pose proof (Forall2_of_Forall _ _ _ _ T2 B (eq_sym (eq_trans L HL))) as HF.
    eapply Forall2_impl; [|exact HF]. intros c d [[Hc Hlc] Hd]. rewrite Hlc. split; [done|lia]. }
  exists ivs. rewrite HL in L. split; intros R0.
  - eapply (encodes_pure (fun S R => quant_rc _ _ _)); [exact P1|]. cbn beta iota.
    eapply encodes_last; [apply EncHistMulti_encodes; [done|by rewrite L]|done|].
    intros r s ->. by eexists.
  - eapply decodes_last; [apply DecHistOneStepMulti_decodes; [done|done|by rewrite L]|].
    intros n s. no_error. unfold fn.
    by rewrite (bind_Next _ _ _ _ _ (P2 _ _ s)).
Qed.

(** ** Squared gain *)

Lemma Gain2_coded x x0 :
  0 <= x < 2 ^ 31 ->
  exists i v, in_cell WebRtcIsacfix_kGain2Bound x i /\ zget WebRtcIsacfix_kGain2Lev i = Some v /\
    coded (fun R => WebRtcIsacfix_EncodeGain2 x) (fun R => WebRtcIsacfix_DecodeGain2 x0)
      (0, v) (fun r => bits_exceeded r.1) (fun _ => (0, v)).
Proof.
  intros Hx.
  destruct (quant_index_spec WebRtcIsacfix_kGain2Bound x 0 2147483647) with (init := 11)
    as (j & Hj & Hc & Hp); [reflexivity|reflexivity|reflexivity|lia|done|].
  change (Z.of_nat (length WebRtcIsacfix_kGain2Bound) - 1) with 18 in Hj.
  destruct (zget_in WebRtcIsacfix_kGain2Lev j ltac:(simpl; lia)) as [v Ev].
  destruct (dense_sym_of WebRtcIsacfix_kGainCdf j ltac:(reflexivity) ltac:(simpl; lia)) as [iv Hiv].
  exists j, v. split_and!; [done|done|]. exists [iv]. split; intros R0.
  - eapply (encodes_pure (fun S R => mem _)); [done|].
    eapply (encodes_pure (fun S R => quant_index _ _ _)); [exact Hp|].
    eapply (encodes_pure (fun S R => mem _)); [intros S R s; by rewrite Ev|].
    eapply encodes_last; [by apply EncHistMulti_encodes; [apply syms_of_1|]|done|].
    intros r s ->. by eexists.
  - eapply decodes_last.
    + apply DecHistOneStepMulti_decodes; [by apply syms_of_1| |done].
      constructor; [split; simpl; lia|constructor].
    + intros n s. no_error. unfold fn. erewrite bind_mem by reflexivity. by rewrite (bind_mem _ _ _ _ Ev).
Qed.

(** ** Frame length and bandwidth *)

Lemma FrameLen_coded framesamples f0 :
  framesamples = 480 \/ framesamples = 960 ->
  coded1 (fun R => WebRtcIsacfix_EncodeFrameLen framesamples) (fun R => WebRtcIsacfix_DecodeFrameLen f0)
    0 bits_exceeded (fun n => (Z.of_nat n, framesamples)).
Proof.
  intros Hf. set (mode := if framesamples =? 480 then 1 else 2).
  destruct (dense_sym_of kFrameLenCdf mode ltac:(reflexivity) ltac:(unfold mode; bcase; simpl; lia))
    as [iv Hiv]. exists iv. split; intros R0.
  - unfold mode in *. destruct Hf as [-> | ->];
      by apply encodes_tail, EncHistMulti_encodes; [apply syms_of_1|].
  - eapply decodes_last.
    + apply DecHistOneStepMulti_decodes; [by apply syms_of_1| |done].
      constructor; [split; simpl; lia|constructor].
    + intros n s. no_error. unfold fn. erewrite bind_mem by reflexivity.
      unfold mode. by destruct Hf as [-> | ->].
Qed.

Lemma Bandwidth_coded BWno b0 :
  0 <= BWno <= 23 ->
  coded1 (fun R => WebRtcIsacfix_EncodeReceiveBandwidth BWno) (fun R => WebRtcIsacfix_DecodeSendBandwidth b0)
    0 bits_exceeded (fun n => (Z.of_nat n, BWno)).
Proof.
  intros Hb.
  destruct (dense_sym_of kBwCdf BWno ltac:(reflexivity) ltac:(simpl; lia)) as [iv Hiv].
  exists iv. split; intros R0.
  - by apply encodes_tail, EncHistMulti_encodes; [apply syms_of_1|].
  - eapply decodes_last.
    + apply DecHistOneStepMulti_decodes; [by apply syms_of_1| |done].
      constructor; [split; simpl; lia|constructor].
    + intros n s. no_error. unfold fn. erewrite bind_mem by reflexivity.
      by rewrite s16_id by clia.
Qed.

(** ** Pitch gains *)

Lemma clip_index_range i lo hi :
  lo <= hi -> hi - lo < 2 ^ 15 -> 0 <= clip_index i lo hi <= hi - lo.
Proof. intros H1 H2. unfold clip_index. rewrite s16_id; repeat bcase; clia. Qed.

Lemma gain_index_spec SQ15 k lo hi row :
  WebRtcIsacfix_kTransform !! k = Some row ->
  WebRtcIsacfix_kLowerlimiGain !! k = Some lo -> WebRtcIsacfix_kUpperlimitGain !! k = Some hi ->
  lo <= hi -> hi - lo < 2 ^ 15 ->
  exists i, 0 <= i <= hi - lo /\ pure (fun S R => gain_index SQ15 k) i.
Proof.
  intros E1 E2 E3 H1 H2.
  exists (clip_index (s16 (Z.shiftr (s32 (transform_row row SQ15 10 0 + 8192)) 14)) lo hi).
  split; [by apply clip_index_range|]. intros S R s. unfold gain_index.
  by rewrite (bind_mem _ _ _ _ E1), (bind_mem _ _ _ _ E2), (bind_mem _ _ _ _ E3).
Qed.

Lemma gains_of_spec i :
  0 <= i < 144 -> exists gains, length gains = 4%nat /\ pure (fun S R => gains_of i) gains.
Proof.
  intros Hi.
  destruct (zget_in WebRtcIsacfix_kPitchGain1 i ltac:(simpl; lia)) as [g1 E1].
  destruct (zget_in WebRtcIsacfix_kPitchGain2 i ltac:(simpl; lia)) as [g2 E2].
  destruct (zget_in WebRtcIsacfix_kPitchGain3 i ltac:(simpl; lia)) as [g3 E3].
  destruct (zget_in WebRtcIsacfix_kPitchGain4 i ltac:(simpl; lia)) as [g4 E4].
  exists [g1; g2; g3; g4]. split; [done|]. intros S R s. unfold gains_of.
  by rewrite (bind_mem _ _ _ _ E1), (bind_mem _ _ _ _ E2), (bind_mem _ _ _ _ E3), (bind_mem _ _ _ _ E4).
Qed.

(** The saved data has room for the current half of the packet. *)
Definition save_ok (encData : option IsacSaveEncoderData) : Prop :=
  match encData with
  | None => True
  | Some e => 0 <= startIdx e <= 1 /\ length (pitchGain_index e) = 2%nat /\
      length (meanGain e) = 2%nat /\ length (pitchIndex e) = 8%nat
  end.

Definition put_gain (i : Z) (e : IsacSaveEncoderData) : IsacSaveEncoderData :=
  set_pitchGain_index (<[Z.to_nat (startIdx e) := i]> (pitchGain_index e)) e.

Lemma zstore_in l i v :
  0 <= i < Z.of_nat (length l) -> zstore l i v = Some (<[Z.to_nat i := v]> l).
Proof.
  intros Hi. unfold zstore. rewrite (proj2 (Z.ltb_ge _ _)) by lia. apply store_some. lia.
Qed.

Lemma save_gain encData i :
  save_ok encData ->
  pure (fun S R => save encData (fun e =>
          l ← zstore (pitchGain_index e) (startIdx e) i; Some (set_pitchGain_index l e)))
       (put_gain i <$> encData).
Proof.
  intros Hs S R s. destruct encData as [e|]; [|done]. destruct Hs as (H1 & H2 & _).
  unfold save. by rewrite zstore_in by lia.
Qed.

Lemma PitchGain_coded gains gains0 encData :
  save_ok encData ->
  exists i gains', 0 <= i < 144 /\ length gains' = 4%nat /\ pure (fun S R => gains_of i) gains' /\
    coded (fun R => WebRtcIsacfix_EncodePitchGain gains encData) (fun R => WebRtcIsacfix_DecodePitchGain gains0)
      (0, gains', put_gain i <$> encData)
      (fun r => bits_exceeded r.1.1) (fun _ => (0, gains')).
Proof.
  intros Hs. set (SQ15 := map (fun g => s16 (Z.shiftr (g * 33) 2)) gains).
  destruct (gain_index_spec SQ15 0 (-7) 0 [-2048; -2048; -2048; -2048]) as (i0 & Hi0 & P0); try done.
  destruct (gain_index_spec SQ15 1 (-2) 3 [2748; 916; -916; -2748]) as (i1 & Hi1 & P1); try done.
  destruct (gain_index_spec SQ15 2 (-1) 1 [2048; -2048; -2048; 2048]) as (i2 & Hi2 & P2); try done.
  set (i := s16 (spl_mul 18 i0 + spl_mul 3 i1 + i2)).
  assert (Hi : 0 <= i < 144).
  { unfold i. rewrite !spl_mul_spec, s16_id by clia. lia. }
  destruct (gains_of_spec i Hi) as (gains' & HL & PG).
  destruct (prefix_sym_of WebRtcIsacfix_kPitchGainCdf 145 i) as [iv Hiv];
    [by vm_compute|by vm_compute|simpl; lia|lia|].
  exists i, gains'. split_and!; [lia|lia|done|done|]. exists [iv]. split; intros R0.
  - eapply (encodes_pure (fun S R => gain_index SQ15 0)); [exact P0|].
    eapply (encodes_pure (fun S R => gain_index SQ15 1)); [exact P1|].
    eapply (encodes_pure (fun S R => gain_index SQ15 2)); [exact P2|].
    do 2 (eapply (encodes_pure (fun S R => mem _)); [done|]).
    eapply (encodes_pure (fun S R => gains_of _)); [exact PG|].
    eapply encodes_last; [by apply EncHistMulti_encodes; [apply syms_of_1|]| |].
    + intros s. simpl. unfold fn. by rewrite (bind_Next _ _ _ _ _ (save_gain encData i Hs _ _ s)).
    + intros r s ->. by eexists.
  - eapply decodes_last.
    + apply DecHistBisectMulti_decodes; [by apply syms_of_1| |done].
      constructor; [by apply (size_ok_of _ 7); [lia|]|constructor].
    + intros n s. no_error. unfold fn. erewrite bind_mem by reflexivity.
      rewrite (proj2 (Z.ltb_ge _ _)), (proj2 (Z.leb_gt _ _)) by lia. simpl.
      by rewrite (bind_Next _ _ _ _ _ (PG _ _ s)).
Qed.

(** ** Pitch lags *)

(** A classification's tables fit together: [c0] is searched by bisection,
    and every index inside the limits can be coded and has its mean values. *)
Record lag_ok (cl : lag_class) (c0 c1 c2 c3 : list Z) (l0 u0 l1 u1 l2 u2 l3 u3 : Z) : Prop := {
  lo_cdf : lag_cdf cl = [c0; c1; c2; c3];
  lo_lower : lag_lower cl = [l0; l1; l2; l3];
  lo_upper : lag_upper cl = [u0; u1; u2; u3];
  lo_lims : l0 <= u0 < l0 + 2 ^ 15 /\ l1 <= u1 < l1 + 2 ^ 15 /\ l2 <= u2 < l2 + 2 ^ 15 /\
            l3 <= u3 < l3 + 2 ^ 15;
  lo_size : Forall2 size_ok [c0] (lag_size cl);
  lo_c0 : cdf_okb c0 = true /\ ascending Z.ltb (take (Z.to_nat (u0 - l0 + 2)) c0) = true /\
          u0 - l0 + 2 <= Z.of_nat (length c0);
  lo_c1 : cdf_denseb c1 = true /\ Z.of_nat (length c1) = u1 - l1 + 2;
  lo_c2 : cdf_denseb c2 = true /\ Z.of_nat (length c2) = u2 - l2 + 2;
  lo_c3 : cdf_denseb c3 = true /\ Z.of_nat (length c3) = u3 - l3 + 2;
  lo_mean : Z.of_nat (length (lag_mean2 cl)) = u1 - l1 + 1 /\
            Z.of_nat (length (lag_mean4 cl)) = u3 - l3 + 1;
  lo_init : Forall2 init_ok [c1; c2; c3] (lag_init cl);
}.

Lemma lag_class_ok g : exists c0 c1 c2 c3 l0 u0 l1 u1 l2 u2 l3 u3,
  lag_ok (lag_class_of g) c0 c1 c2 c3 l0 u0 l1 u1 l2 u2 l3 u3.
Proof.
  unfold lag_class_of. repeat case_match; do 12 eexists; split;
    try (simpl; reflexivity); try (vm_compute; intuition congruence).
  all: try (constructor; [|constructor]).
  all: try (by apply (size_ok_of _ 6); [lia|]); try (by apply (size_ok_of _ 7); [lia|]);
       try (by apply (size_ok_of _ 8); [lia|]).
  all: repeat (constructor; [split; simpl; lia|]); constructor.
Qed.

Lemma lag_index_spec cl lags k row lo hi :
  WebRtcIsacfix_kTransform !! k = Some row -> lag_lower cl !! k = Some lo ->
  lag_upper cl !! k = Some hi -> lo <= hi < lo + 2 ^ 15 ->
  exists i, 0 <= i <= hi - lo /\ pure (fun S R => lag_index cl lags k) i.
Proof.
  intros E1 E2 E3 H1.
  exists (clip_index (s16 (Z.shiftr (s32 (spl_shift_w32 (transform_row row lags 2 0)
            (lag_shft cl) + 65536)) 17)) lo hi).
  split; [apply clip_index_range; lia|]. intros S R s. unfold lag_index.
  by rewrite (bind_mem _ _ _ _ E1), (bind_mem _ _ _ _ E2), (bind_mem _ _ _ _ E3).
Qed.

Definition put_mean (g : Z) (e : IsacSaveEncoderData) : IsacSaveEncoderData :=
  set_meanGain (<[Z.to_nat (startIdx e) := g]> (meanGain e)) e.

Definition put_lag (k : nat) (i : Z) (e : IsacSaveEncoderData) : IsacSaveEncoderData :=
  set_pitchIndex (<[Z.to_nat (4 * startIdx e + Z.of_nat k) := i]> (pitchIndex e)) e.

Lemma save_mean encData g :
  save_ok encData ->
  pure (fun S R => save encData (fun e =>
          l ← zstore (meanGain e) (startIdx e) g; Some (set_meanGain l e)))
       (put_mean g <$> encData) /\ save_ok (put_mean g <$> encData).
Proof.
  intros Hs. destruct encData as [e|]; [|done]. destruct Hs as (H1 & H2 & H3 & H4).
  split; [intros S R s; unfold save; by rewrite zstore_in by lia|].
  simpl. by rewrite length_insert.
Qed.

Lemma lag_index_saved_spec cl lags k row lo hi encData :
  WebRtcIsacfix_kTransform !! k = Some row -> lag_lower cl !! k = Some lo ->
  lag_upper cl !! k = Some hi -> lo <= hi < lo + 2 ^ 15 -> (k < 4)%nat -> save_ok encData ->
  exists i, 0 <= i <= hi - lo /\ pure (fun S R => lag_index cl lags k) i /\
    pure (fun S R => lag_index_saved cl lags k encData) (i, put_lag k i <$> encData) /\
    save_ok (put_lag k i <$> encData).
Proof.
  intros E1 E2 E3 H1 Hk Hs.
  destruct (lag_index_spec cl lags k row lo hi E1 E2 E3 H1) as (i & Hi & Hp).
  exists i. split_and!; [lia|lia|done| |].
  - intros S R s. unfold lag_index_saved. rewrite (bind_Next _ _ _ _ _ (Hp S R s)).
    destruct encData as [e|]; [|done]. destruct Hs as (? & ? & ? & ?). unfold save.
    by rewrite zstore_in by (unfold PITCH_SUBFRAMES; lia).
  - destruct encData as [e|]; [|done]. destruct Hs as (? & ? & ? & ?). simpl.
    by rewrite length_insert.
Qed.

Lemma lags_of_spec cl c0 c1 c2 c3 l0 u0 l1 u1 l2 u2 l3 u3 i0 i1 i2 i3 :
  lag_ok cl c0 c1 c2 c3 l0 u0 l1 u1 l2 u2 l3 u3 ->
  0 <= i1 <= u1 - l1 -> 0 <= i3 <= u3 - l3 ->
  exists lags, length lags = 4%nat /\ pure (fun S R => lags_of cl [i0; i1; i2; i3]) lags.
Proof.
  intros Hl H1 H3. destruct (lo_mean _ _ _ _ _ _ _ _ _ _ _ _ _ Hl) as [L2 L4].
  destruct (zget_in (lag_mean2 cl) i1 ltac:(lia)) as [m2 E2].
  destruct (zget_in (lag_mean4 cl) i3 ltac:(lia)) as [m4 E4].
  assert (Elo : lag_lower cl !! 0%nat = Some l0) by by rewrite (lo_lower _ _ _ _ _ _ _ _ _ _ _ _ _ Hl).
  eexists. split; [|intros S R s; unfold lags_of].
  2: { erewrite bind_mem by reflexivity. rewrite (bind_mem _ _ _ _ Elo).
       do 2 (erewrite bind_mem by reflexivity). rewrite (bind_mem _ _ _ _ E2).
       do 2 (erewrite bind_mem by reflexivity). rewrite (bind_mem _ _ _ _ E4).
       erewrite bind_mem by reflexivity. reflexivity. }
  done.
Qed.

(** The saved data after the four indices. *)
Definition put_lags (g i0 i1 i2 i3 : Z) (e : IsacSaveEncoderData) : IsacSaveEncoderData :=
  put_lag 3 i3 (put_lag 2 i2 (put_lag 1 i1 (put_lag 0 i0 (put_mean g e)))).

Lemma DecodePitchLag_decodes {R0} gains lags0 lags' c0 c1 c2 c3 l0 u0 l1 u1 l2 u2 l3 u3 i0 i1 i2 i3 iv0 ivs :
  lag_ok (lag_class_of (mean_gain gains)) c0 c1 c2 c3 l0 u0 l1 u1 l2 u2 l3 u3 -> 0 <= i0 ->
  sym_of i0 c0 iv0 -> Forall3 sym_of [i1; i2; i3] [c1; c2; c3] ivs ->
  pure (fun S R => lags_of (lag_class_of (mean_gain gains)) [i0; i1; i2; i3]) lags' ->
  Decodes (@WebRtcIsacfix_DecodePitchLag _ R0 gains lags0) ([iv0] ++ ivs) (fun _ => (0, lags')).
Proof.
  intros [Ecdf _ _ _ Hsz _ _ _ _ _ Hini] Hi0 Hiv0 Hivs PL.
  eapply decodes_bind.
  - eapply decodes_ext; [|apply (DecHistBisectMulti_decodes [i0] [c0]); [by apply syms_of_1|exact Hsz|done]].
    intros s. rewrite Ecdf. apply (DecHistBisectMulti_extra [c0] [c1; c2; c3]); [|done].
    exact (Forall2_length Hsz).
  - intros n. no_error. eapply (decodes_pure (fun S R => mem ([i0] !! 0%nat))); [by intros S R s|].
    rewrite (proj2 (Z.ltb_ge i0 0)) by lia.
    eapply decodes_last; [apply (DecHistOneStepMulti_decodes [i1; i2; i3]); [by rewrite Ecdf|by rewrite Ecdf|done]|].
    intros m s. no_error. unfold fn. by rewrite (bind_Next _ _ _ _ _ (PL _ _ s)).
Qed.

Lemma PitchLag_coded lags lags0 gains encData :
  save_ok encData ->
  exists i0 i1 i2 i3 lags', length lags' = 4%nat /\
    (forall k i, [i0; i1; i2; i3] !! k = Some i ->
       pure (fun S R => lag_index (lag_class_of (mean_gain gains)) lags k) i) /\
    pure (fun S R => lags_of (lag_class_of (mean_gain gains)) [i0; i1; i2; i3]) lags' /\
    coded (fun R => WebRtcIsacfix_EncodePitchLag lags gains encData) (fun R => WebRtcIsacfix_DecodePitchLag gains lags0)
      (0, lags', put_lags (mean_gain gains) i0 i1 i2 i3 <$> encData)
      (fun r => bits_exceeded r.1.1) (fun _ => (0, lags')).
Proof.
  intros Hs. destruct (lag_class_ok (mean_gain gains))
    as (c0 & c1 & c2 & c3 & l0 & u0 & l1 & u1 & l2 & u2 & l3 & u3 & Hl).
  set (cl := lag_class_of (mean_gain gains)) in *.
  pose proof Hl as [Ecdf Elo Eup (Hk0 & Hk1 & Hk2 & Hk3) Hsz (Hc0 & Ha0 & Hn0) Hc1 Hc2 Hc3 _ Hini].
  destruct (save_mean encData (mean_gain gains) Hs) as [Pm Hs0].
  destruct (lag_index_saved_spec cl lags 0 [-2048; -2048; -2048; -2048] l0 u0 (put_mean (mean_gain gains) <$> encData))
    as (i0 & Hi0 & Q0 & P0 & Hs1); [done|by rewrite Elo|by rewrite Eup|done|lia|done|].
  destruct (lag_index_saved_spec cl lags 1 [2748; 916; -916; -2748] l1 u1 _ ltac:(done)
    ltac:(by rewrite Elo) ltac:(by rewrite Eup) Hk1 ltac:(lia) Hs1) as (i1 & Hi1 & Q1 & P1 & Hs2).
  destruct (lag_index_saved_spec cl lags 2 [2048; -2048; -2048; 2048] l2 u2 _ ltac:(done)
    ltac:(by rewrite Elo) ltac:(by rewrite Eup) Hk2 ltac:(lia) Hs2) as (i2 & Hi2 & Q2 & P2 & Hs3).
  destruct (lag_index_saved_spec cl lags 3 [916; -2748; 2748; -916] l3 u3 _ ltac:(done)
    ltac:(by rewrite Elo) ltac:(by rewrite Eup) Hk3 ltac:(lia) Hs3) as (i3 & Hi3 & Q3 & P3 & Hs4).
  destruct (lags_of_spec cl _ _ _ _ _ _ _ _ _ _ _ _ i0 i1 i2 i3 Hl Hi1 Hi3) as (lags' & HL & PL).
  destruct (prefix_sym_of c0 _ i0 Hc0 Ha0 ltac:(lia) ltac:(lia)) as [iv0 Hiv0].
  destruct (dense_syms_of [c1; c2; c3] [i1; i2; i3]) as [ivs Hivs].
  { repeat (constructor; [split; [apply Hc1 || apply Hc2 || apply Hc3|lia]|]). constructor. }
  exists i0, i1, i2, i3, lags'. split_and!; [done| |done|].
  { intros k i Hk. do 4 (destruct k as [|k]; [by simplify_eq/=|]). done. }
  exists ([iv0] ++ ivs). split; intros R0.
  - eapply (encodes_pure (fun S R => save _ _)); [exact Pm|].
    eapply (encodes_pure (fun S R => lag_index_saved cl lags 0 _)); [exact P0|].
    eapply (encodes_pure (fun S R => lag_index_saved cl lags 1 _)); [exact P1|].
    eapply (encodes_pure (fun S R => lag_index_saved cl lags 2 _)); [exact P2|].
    eapply (encodes_pure (fun S R => lag_index_saved cl lags 3 _)); [exact P3|].
    eapply (encodes_pure (fun S R => lags_of cl _)); [exact PL|].
    eapply encodes_last; [apply EncHistMulti_encodes; [|done]| |].
    + change (Forall3 sym_of [i0; i1; i2; i3] (lag_cdf cl) ([iv0] ++ ivs)).
      rewrite Ecdf. by constructor.
    + intros s. unfold put_lags. destruct encData; done.
    + intros r s ->. by eexists.
  - eapply (DecodePitchLag_decodes gains lags0 lags' _ _ _ _ _ _ _ _ _ _ _ _ i0 i1 i2 i3); [exact Hl|lia|done..].
Qed.
End routines.

(** ** The side information of a frame

    The order of [WebRtcIsacfix_EncodeImpl] and [WebRtcIsacfix_DecodeImpl]:
    frame length, bandwidth index, pitch gains, pitch lags, each ending the
    frame when it fails. *)

Section side.
Context `{SplOps}.

Definition encode_side {R} (framesamples BWno : Z) (gains lags : list Z)
    (encData : option IsacSaveEncoderData) : stmt Bitstr_enc R (Z * list Z * list Z) :=
  fn (let! status := WebRtcIsacfix_EncodeFrameLen framesamples in
      if status <? 0 then return_ (status, gains, lags) else
      let! status := WebRtcIsacfix_EncodeReceiveBandwidth BWno in
      if status <? 0 then return_ (status, gains, lags) else
      let! r := WebRtcIsacfix_EncodePitchGain gains encData in
      let '(status, gains, encData) := r in
      if status <? 0 then return_ (status, gains, lags) else
      let! r := WebRtcIsacfix_EncodePitchLag lags gains encData in
      let '(status, lags, encData) := r in
      ret (status, gains, lags)).

Definition decode_side {R} : stmt Bitstr_dec R (Z * Z * Z * list Z * list Z) :=
  fn (let! r := WebRtcIsacfix_DecodeFrameLen 0 in
      let '(err, framesamples) := r in
      if err <? 0 then return_ (err, framesamples, 0, [], []) else
      let! r := WebRtcIsacfix_DecodeSendBandwidth 0 in
      let '(err, BWno) := r in
      if err <? 0 then return_ (err, framesamples, BWno, [], []) else
      let! r := WebRtcIsacfix_DecodePitchGain [0; 0; 0; 0] in
      let '(err, gains) := r in
      if err <? 0 then return_ (err, framesamples, BWno, gains, []) else
      let! r := WebRtcIsacfix_DecodePitchLag gains [0; 0; 0; 0] in
      let '(err, lags) := r in
      ret (err, framesamples, BWno, gains, lags)).
End side.

Lemma side_coded `{SplLaws} framesamples BWno gains lags encData :
  framesamples = 480 \/ framesamples = 960 -> 0 <= BWno <= 23 -> save_ok encData ->
  exists ivs gains' lags', length gains' = 4%nat /\ length lags' = 4%nat /\
    Encodes (@encode_side _ Z framesamples BWno gains lags encData) ivs (0, gains', lags')
      (fun r => bits_exceeded r.1.1) /\
    Decodes (@decode_side _ Z) ivs (fun _ => (0, framesamples, BWno, gains', lags')).
Proof.
  intros Hf Hb Hs.
  destruct (FrameLen_coded framesamples 0 Hf) as (iv1 & E1 & D1).
  destruct (Bandwidth_coded BWno 0 Hb) as (iv2 & E2 & D2).
  destruct (PitchGain_coded gains [0; 0; 0; 0] encData Hs) as (i & gains' & _ & LG & _ & ivs3 & E3 & D3).
  assert (Hs' : save_ok (put_gain i <$> encData)).
  { destruct encData as [e|]; [|done]. destruct Hs as (? & ? & ? & ?). simpl. by rewrite length_insert. }
  destruct (PitchLag_coded lags [0; 0; 0; 0] gains' _ Hs')
    as (j0 & j1 & j2 & j3 & lags' & LL & _ & _ & ivs4 & E4 & D4).
  exists ([iv1] ++ [iv2] ++ ivs3 ++ ivs4), gains', lags'. split_and!; [done|done| |].
  - unfold encode_side. eapply encodes_bind; [apply E1|by intros r s ->; eexists|].
    eapply encodes_bind; [apply E2|by intros r s ->; eexists|].
    eapply encodes_bind; [apply E3|by intros [[st g] e] s Hr; hnf in Hr; simpl in *; subst; eexists|].
    eapply encodes_last; [apply E4|done|]. intros [[st g] e] s Hr. by eexists.
  - unfold decode_side. eapply decodes_bind; [apply D1|]. intros n. no_error.
    eapply decodes_bind; [apply D2|]. intros n2. no_error.
    eapply decodes_bind; [apply D3|]. intros n3. no_error.
    eapply decodes_last; [apply D4|done].
Qed.

Lemma levels_lookup lev index vals :
  pure (fun S R => levels lev index) vals ->
  Forall3 (fun l i v => zget l i = Some v) lev index vals.
Proof.
  intros Hp. specialize (Hp unit unit tt). revert index vals Hp.
  induction lev as [|l lev IH]; intros [|i index] vals Hp; try done.
  - injection Hp as <-. constructor.
  - cbn [levels] in Hp. unfold bind, mem, ret in Hp.
    destruct (zget l i) as [v|] eqn:Ev; [|done].
    specialize (IH index). destruct (levels lev index tt) as [vs []| | |]; try done.
    injection Hp as <-. constructor; [done|]. by apply IH.
Qed.

(** ** Properties *)

(** C26. The side information of a frame survives the payload. For a valid frame
    length and bandwidth index and any pitch gains and lags, when the frame is
    encoded (frame length, bandwidth, pitch gains, pitch lags, terminator), the
    decoder of a buffer that starts with the payload returns no error, the same
    frame length and bandwidth index, and exactly the quantised gains and lags
    the encoder continues with, whatever the voicing class. *)
Theorem side_roundtrip `{SplLaws} framesamples BWno gains lags encData s len status gains' lags' s' buf extra :
  framesamples = 480 \/ framesamples = 960 -> 0 <= BWno <= 23 -> save_ok encData ->
  length (e_stream s) = STREAM_MAXW16_60MS -> Forall is_u16 (e_stream s) ->
  encode_frame (fun r => r.1.1) (encode_side framesamples BWno gains lags encData) s =
    Next (len, (status, gains', lags')) s' -> 0 <= len ->
  is_bytes_list buf -> len < Z.of_nat (length buf) ->
  is_bytes_list extra -> (Z.to_nat len + length extra <= 2 * INTERNAL_STREAM_SIZE_W16)%nat ->
  exists encoded d d',
    write_be16 (e_stream s') (Z.to_nat len) buf = Some encoded /\
    load_payload (take (Z.to_nat len) encoded ++ extra) (Z.to_nat len + length extra) = Some d /\
    @decode_side _ Z d = Next (0, framesamples, BWno, gains', lags') d'.
Proof.
  intros Hf Hb Hs HL HU Ee Hlen Hbuf Hroom Hx Hmax.
  destruct (side_coded framesamples BWno gains lags encData Hf Hb Hs)
    as (ivs & g & l & _ & _ & HE & HD).
  destruct (frame_roundtrip (fun r => r.1.1) _ ivs (0, g, l) s HE eq_refl HL HU _ _ _ _ _ _ _ HD Ee
    Hlen Hbuf Hroom Hx Hmax) as (Er & enc & d & d' & E1 & E2 & E3).
  simplify_eq. by exists enc, d, d'.
Qed.

Lemma side_roundtrip_witness :
  exists len status gains' lags' s' encoded d d',
    encode_frame (fun r => r.1.1)
      (encode_side 960 17 [1500; 1700; 1650; 1620] [8000; 8100; 8050; 8210] None) demo_enc =
      Next (len, (status, gains', lags')) s' /\
    write_be16 (e_stream s') (Z.to_nat len) (replicate 401 0) = Some encoded /\
    load_payload (take (Z.to_nat len) encoded ++ [1; 2; 3]) (Z.to_nat len + 3) = Some d /\
    @decode_side _ Z d = Next (0, 960, 17, gains', lags') d'.
Proof.
  do 5 eexists.
  edestruct (side_roundtrip 960 17 [1500; 1700; 1650; 1620] [8000; 8100; 8050; 8210] None demo_enc)
    with (buf := replicate 401 0) (extra := [1; 2; 3]) as (enc & d & d' & E1 & E2 & E3).
  - by right.
  - lia.
  - done.
  - apply demo_enc_ok.
  - apply demo_enc_ok.
  - vm_compute. reflexivity.
  - done.
  - apply Forall_replicate. clia.
  - vm_compute. reflexivity.
  - repeat constructor; clia.
  - vm_compute. lia.
  - exists enc, d, d'. split; [vm_compute; reflexivity|]. done.
Defined.

(** The reflection coefficients of the spectrum model survive the payload,
    up to quantisation: the decoder returns the coefficients the encoder has
    replaced its own by, and those are the levels of cells of
    [WebRtcIsacfix_kRcBound] that hold the original values. *)
Theorem RcCoef_roundtrip `{SplLaws} RCQ15 RC0 s len r s' buf extra :
  length RCQ15 = AR_ORDER -> Forall is_s16 RCQ15 ->
  length (e_stream s) = STREAM_MAXW16_60MS -> Forall is_u16 (e_stream s) ->
  encode_frame fst (WebRtcIsacfix_EncodeRcCoef RCQ15) s = Next (len, r) s' -> 0 <= len ->
  is_bytes_list buf -> len < Z.of_nat (length buf) ->
  is_bytes_list extra -> (Z.to_nat len + length extra <= 2 * INTERNAL_STREAM_SIZE_W16)%nat ->
  exists index,
    Forall2 (in_cell WebRtcIsacfix_kRcBound) RCQ15 index /\
    Forall3 (fun lev i v => zget lev i = Some v) WebRtcIsacfix_kRcLevPtr index r.2 /\
    exists encoded d d',
      write_be16 (e_stream s') (Z.to_nat len) buf = Some encoded /\
      load_payload (take (Z.to_nat len) encoded ++ extra) (Z.to_nat len + length extra) = Some d /\
      @WebRtcIsacfix_DecodeRcCoef _ Z RC0 d = Next (0, r.2) d'.
Proof.
  intros HRC HS HL HU Ee Hlen Hbuf Hroom Hx Hmax.
  destruct (RcCoef_coded RCQ15 RC0 HRC HS) as (index & vals & Hc & Hp & ivs & HE & HD).
  exists index.
  destruct (frame_roundtrip fst _ ivs (0, vals) s (HE Z) eq_refl HL HU _ _ _ _ _ _ _ (HD Z) Ee
    Hlen Hbuf Hroom Hx Hmax) as (-> & enc & d & d' & E1 & E2 & E3).
  split_and!; [done|by apply levels_lookup|]. by exists enc, d, d'.
Qed.

Lemma RcCoef_roundtrip_witness :
  exists len r s' index,
    encode_frame fst (WebRtcIsacfix_EncodeRcCoef [-32768; 32767; 0; 12345; -9999; 4663]) demo_enc =
      Next (len, r) s' /\
    Forall2 (in_cell WebRtcIsacfix_kRcBound) [-32768; 32767; 0; 12345; -9999; 4663] index /\
    Forall3 (fun lev i v => zget lev i = Some v) WebRtcIsacfix_kRcLevPtr index r.2 /\
    exists encoded d d',
      write_be16 (e_stream s') (Z.to_nat len) (replicate 401 0) = Some encoded /\
      load_payload (take (Z.to_nat len) encoded ++ []) (Z.to_nat len + 0) = Some d /\
      @WebRtcIsacfix_DecodeRcCoef _ Z [] d = Next (0, r.2) d'.
Proof.
  do 3 eexists.
  edestruct (RcCoef_roundtrip [-32768; 32767; 0; 12345; -9999; 4663] [] demo_enc)
    with (buf := replicate 401 0) (extra := @nil Z) as (index & C & L & Hd).
  - done.
  - repeat constructor; clia.
  - apply demo_enc_ok.
  - apply demo_enc_ok.
  - vm_compute. reflexivity.
  - done.
  - apply Forall_replicate. clia.
  - vm_compute. reflexivity.
  - constructor.
  - vm_compute. lia.
  - exists index. split; [vm_compute; reflexivity|]. done.
Defined.

(** Quantisation of the squared gain ends for every non-negative 32-bit
    value, at a cell of [WebRtcIsacfix_kGain2Bound] that holds it, and the decoder
    returns that cell's level, which the encoder continues with. *)
Theorem Gain2_coding `{SplLaws} x x0 :
  0 <= x < 2 ^ 31 ->
  exists i v ivs,
    in_cell WebRtcIsacfix_kGain2Bound x i /\ zget WebRtcIsacfix_kGain2Lev i = Some v /\
    Encodes (@WebRtcIsacfix_EncodeGain2 _ Z x) ivs (0, v) (fun r => bits_exceeded r.1) /\
    Decodes (@WebRtcIsacfix_DecodeGain2 _ Z x0) ivs (fun _ => (0, v)).
Proof.
  intros Hx. destruct (Gain2_coded x x0 Hx) as (i & v & Hc & Hv & ivs & HE & HD).
  exists i, v, ivs. auto.
Qed.

Lemma Gain2_coding_witness :
  exists i v ivs,
    in_cell WebRtcIsacfix_kGain2Bound 0 i /\ zget WebRtcIsacfix_kGain2Lev i = Some v /\
    Encodes (@WebRtcIsacfix_EncodeGain2 _ Z 0) ivs (0, v) (fun r => bits_exceeded r.1) /\
    Decodes (@WebRtcIsacfix_DecodeGain2 _ Z 7) ivs (fun _ => (0, v)).
Proof. apply Gain2_coding. lia. Defined.

(** A frame length other than 480 and 960 is refused with
    [-ISAC_DISALLOWED_FRAME_MODE_ENCODER] before anything is written, and a stream
    that carries the unused frame mode 0 is refused by the decoder with
    [-ISAC_DISALLOWED_FRAME_MODE_DECODER]. *)
Theorem FrameLen_errors `{SplLaws} framesamples f0 :
  framesamples <> 480 -> framesamples <> 960 ->
  (forall s, @WebRtcIsacfix_EncodeFrameLen _ Z framesamples s =
     Next (- ISAC_DISALLOWED_FRAME_MODE_ENCODER) s) /\
  Encodes (@WebRtcIsacfix_EncHistMulti _ Z [0] kFrameLenCdfPtr 1) [(0, 21845)] 0 bits_exceeded /\
  Decodes (@WebRtcIsacfix_DecodeFrameLen _ Z f0) [(0, 21845)]
    (fun _ => (- ISAC_DISALLOWED_FRAME_MODE_DECODER, f0)).
Proof.
  intros H1 H2. assert (Hs : Forall3 sym_of [0] kFrameLenCdfPtr [(0, 21845)]) by by apply syms_lookup_ok.
  split_and!.
  - intros s. unfold WebRtcIsacfix_EncodeFrameLen.
    by rewrite (proj2 (Z.eqb_neq _ _) H1), (proj2 (Z.eqb_neq _ _) H2).
  - by apply EncHistMulti_encodes.
  - eapply decodes_last; [apply DecHistOneStepMulti_decodes; [exact Hs| |done]|].
    + constructor; [split; simpl; lia|constructor].
    + intros n s. no_error. unfold fn. by erewrite bind_mem by reflexivity.
Qed.

Lemma FrameLen_errors_witness :
  (forall s, @WebRtcIsacfix_EncodeFrameLen _ Z 320 s =
     Next (- ISAC_DISALLOWED_FRAME_MODE_ENCODER) s) /\
  Encodes (@WebRtcIsacfix_EncHistMulti _ Z [0] kFrameLenCdfPtr 1) [(0, 21845)] 0 bits_exceeded /\
  Decodes (@WebRtcIsacfix_DecodeFrameLen _ Z 5) [(0, 21845)]
    (fun _ => (- ISAC_DISALLOWED_FRAME_MODE_DECODER, 5)).
Proof. apply FrameLen_errors; lia. Defined.
