(* ===== verification/IsacFixLogist.v ===== *)
(** * Logistic coding of the spectrum of iSAC fixed point

    [arith_routines_logist.c]: the piecewise linear cumulative distribution,
    [WebRtcIsacfix_EncLogisticMulti2] with its clipping of improbable samples,
    and [WebRtcIsacfix_DecLogisticMulti2] with its integer square root, its
    search along the quantisation grid and its reads past the end of the
    stream. The theorems: the distribution is monotone and within 16 bits,
    clipping ends, and on a stream of the encoder the decoder returns the
    clipped samples, unless its flatness test fires on the way to one. *)

From S2P Require Import Prelude Spl ArithSpec IsacFixArith IsacFixDec IsacFixStream IsacFixTables IsacFixEntropy.

Open Scope c_scope.

#[local] Arguments Nat.mul : simpl never.
#[local] Arguments Nat.add : simpl never.
#[local] Arguments Z.mul : simpl never.
#[local] Arguments pre : simpl never.

(** ** Tables *)

Definition kHistEdges : list Z :=
  [-327680; -314573; -301466; -288359; -275252; -262144; -249037; -235930; -222823; -209716;
   -196608; -183501; -170394; -157287; -144180; -131072; -117965; -104858; -91751; -78644;
   -65536; -52429; -39322; -26215; -13108; 0; 13107; 26214; 39321; 52428; 65536; 78643; 91750;
   104857; 117964; 131072; 144179; 157286; 170393; 183500; 196608; 209715; 222822; 235929;
   249036; 262144; 275251; 288358; 301465; 314572; 327680].

Definition kCdfSlope : list Z :=
  [5; 5; 5; 5; 5; 5; 5; 5; 5; 5; 5; 5; 13; 23; 47; 87; 154; 315; 700; 1088; 2471; 6064; 14221;
   21463; 36634; 36924; 19750; 13270; 5806; 2312; 1095; 660; 316; 145; 86; 41; 32; 5; 5; 5; 5;
   5; 5; 5; 5; 5; 5; 5; 5; 2; 0].

Definition kCdfLogistic : list Z :=
  [0; 2; 4; 6; 8; 10; 12; 14; 16; 18; 20; 22; 24; 29; 38; 57; 92; 153; 279; 559; 994; 1983;
   4408; 10097; 18682; 33336; 48105; 56005; 61313; 63636; 64560; 64998; 65262; 65389; 65447;
   65481; 65497; 65510; 65512; 65514; 65516; 65518; 65520; 65522; 65524; 65526; 65528; 65530;
   65532; 65534; 65535].

(** ** Operations *)

Section logist.
Context `{SplOps}.

Definition WebRtcIsacfix_Piecewise (xinQ15 : Z) : option Z :=
  e50 ← kHistEdges !! 50%nat;
  e0 ← kHistEdges !! 0%nat;
  let qtmp1 := spl_sat e50 xinQ15 e0 in
  let ind := spl_mul 5 (s32 (qtmp1 - e0)) in
  let ind := Z.shiftr ind 16 in
  e ← zget kHistEdges ind;
  let qtmp1 := s32 (qtmp1 - e) in
  slope ← zget kCdfSlope ind;
  let qtmp2 := u16 (spl_rshift_u32 (spl_umul_32_16 (u32 qtmp1) slope) 15) in
  y ← zget kCdfLogistic ind;
  Some (u16 (y + qtmp2)).

(** The distribution at a grid point, scaled by the side information. *)
Definition cdf_at {S R} (x env : Z) : stmt S R Z :=
  mem (WebRtcIsacfix_Piecewise (spl_mul_16_u16 x env)).

Section clipping.
Context {S R : Type} (cdf_of : Z -> stmt S R Z).

(** [while ((cdfLo + 1) >= cdfHi)]: move the sample towards zero. [cdf_of] is
    the distribution with the sample's side information. *)
Fixpoint clip_loop (fuel : nat) (dataQ7 cdfLo cdfHi : Z) : stmt S R (Z * Z * Z) :=
  match fuel with
  | O => fun _ => Spin
  | Datatypes.S fuel' =>
      if cdfHi <=? u32 (cdfLo + 1) then
        if 0 <? dataQ7 then
          let dataQ7 := s16 (dataQ7 - 128) in
          let cdfHi := cdfLo in
          let! cdfLo := cdf_of (dataQ7 - 64) in
          clip_loop fuel' dataQ7 cdfLo cdfHi
        else
          let dataQ7 := s16 (dataQ7 + 128) in
          let cdfLo := cdfHi in
          let! cdfHi := cdf_of (dataQ7 + 64) in
          clip_loop fuel' dataQ7 cdfLo cdfHi
      else ret (dataQ7, cdfLo, cdfHi)
  end.

(** A sample takes 512 values on its grid of step 128. *)
Definition clip_fuel : nat := 513.

(** A sample and its interval, after clipping. *)
Definition clip (dataQ7 : Z) : stmt S R (Z * Z * Z) :=
  let! cdfLo := cdf_of (dataQ7 - 64) in
  let! cdfHi := cdf_of (dataQ7 + 64) in
  clip_loop clip_fuel dataQ7 cdfLo cdfHi.
End clipping.

(** The interval update of this file. *)
Definition log_interval (W_upper cdfLo cdfHi : Z) : Z * Z :=
  let W_upper_LSB := u16 W_upper in
  let W_upper_MSB := u16 (spl_rshift_u32 W_upper 16) in
  let W_lower := spl_umul_32_16 cdfLo W_upper_MSB in
  let W_lower := u32 (W_lower + Z.shiftr (u32 (cdfLo * W_upper_LSB)) 16) in
  let W_upper := spl_umul_32_16 cdfHi W_upper_MSB in
  let W_upper := u32 (W_upper + Z.shiftr (u32 (cdfHi * W_upper_LSB)) 16) in
  let W_lower := u32 (W_lower + 1) in
  (W_lower, u32 (W_upper - W_lower)).

Definition log_put_byte (ptr : nat) : stmt Bitstr_enc Z nat :=
  let! s := get in
  if e_full s =? 0 then
    let! w := mem (e_stream s !! ptr) in
    let! l := mem (store (e_stream s) ptr (u16 (w + u16 (spl_rshift_u32 (e_streamval s) 24)))) in
    put (set_full 1 (set_stream l s)) ;; ret (S ptr)
  else
    let! l := mem (store (e_stream s) ptr
                     (u16 (Z.shiftl (Z.shiftr (e_streamval s) 24) 8))) in
    put (set_full 0 (set_stream l s)) ;; ret ptr.

Fixpoint log_renorm (fuel : nat) (ptr : nat) (W_upper : Z) : stmt Bitstr_enc Z (nat * Z) :=
  match fuel with
  | O => fun _ => Spin
  | S fuel' =>
      if Z.land W_upper 0xFF000000 =? 0 then
        let W_upper := u32 (Z.shiftl W_upper 8) in
        let! ptr := log_put_byte ptr in
        if bool_decide (STREAM_MAXW16_60MS - 1 < ptr)%nat
        then return_ (- ISAC_DISALLOWED_BITSTREAM_LENGTH)
        else
          let! s := get in
          put (set_streamval (u32 (Z.shiftl (e_streamval s) 8)) s) ;;
          log_renorm fuel' ptr W_upper
      else ret (ptr, W_upper)
  end.

Definition log_symbol (ptr : nat) (W_upper cdfLo cdfHi : Z) : stmt Bitstr_enc Z (nat * Z) :=
  let '(W_lower, W_upper) := log_interval W_upper cdfLo cdfHi in
  add_streamval ptr W_lower ;;
  log_renorm renorm_fuel ptr W_upper.

(** The samples clipped so far are [acc]; the result carries the array. *)
Fixpoint EncLogisticMulti2_loop (n : nat) (k : Z) (dataQ7 envQ8 acc : list Z)
    (ptr : nat) (W_upper : Z) : stmt Bitstr_enc (Z * list Z) (nat * Z * list Z) :=
  match n with
  | O => ret (ptr, W_upper, acc ++ dataQ7)
  | S n' =>
      match dataQ7 with
      | [] => fun _ => Fault
      | d :: data' =>
          let! env := mem (envQ8 !! 0%nat) in
          let! r := clip (fun x => cdf_at x env) d in
          let '(d, cdfLo, cdfHi) := r in
          let envQ8 := drop (Z.to_nat (Z.land (Z.land k 1) (Z.shiftr k 1))) envQ8 in
          let! r := try (log_symbol ptr W_upper cdfLo cdfHi) in
          match r with
          | inl status => return_ (status, acc ++ d :: data')
          | inr (ptr, W_upper) =>
              EncLogisticMulti2_loop n' (k + 1) data' envQ8 (acc ++ [d]) ptr W_upper
          end
      end
  end.

(** The status and the array of samples after the call. *)
Definition WebRtcIsacfix_EncLogisticMulti2 {R} (dataQ7 envQ8 : list Z) (lenData : Z) :
    stmt Bitstr_enc R (Z * list Z) :=
  fn (let! s := get in
      let! r := EncLogisticMulti2_loop (Z.to_nat lenData) 0 dataQ7 envQ8 []
                  (Z.to_nat (e_stream_index s)) (e_W_upper s) in
      let '(ptr, W_upper, dataQ7) := r in
      let! s := get in
      put (mkBitstr_enc (e_stream s) W_upper (e_streamval s) (u16 (Z.of_nat ptr)) (e_full s)) ;;
      ret (0, dataQ7)).

(** ** Decoder *)

(** The iteration of the square root: at most eleven times, with the variables
    [res] and [newRes] it leaves. Division by zero has no behaviour. *)
Fixpoint sqrt_loop (i : nat) (inSqrt newRes : Z) : option (Z * Z) :=
  let res := newRes in
  if res =? 0 then None
  else
    let newRes := Z.shiftr (s32 (Z.quot inSqrt res + res)) 1 in
    if newRes =? res then Some (res, newRes)
    else match i with
         | O => Some (res, newRes)
         | S i' => sqrt_loop i' inSqrt newRes
         end.

Definition env_sqrt (env res : Z) : option (Z * Z) :=
  let inSqrt := if env <? 0 then s32 (- env) else env in
  if res =? 0 then None
  else sqrt_loop 10 inSqrt (Z.shiftr (s32 (Z.quot inSqrt res + res)) 1).

(** The code value of a candidate. *)
Definition log_W {R} (W_upper candQ7 root : Z) : stmt Bitstr_dec R Z :=
  let W_upper_LSB := u16 (Z.land W_upper 0x0000FFFF) in
  let W_upper_MSB := u16 (spl_rshift_u32 W_upper 16) in
  let! cdfTmp := cdf_at candQ7 root in
  ret (u32 (u32 (cdfTmp * W_upper_MSB) + Z.shiftr (u32 (cdfTmp * W_upper_LSB)) 16)).

(** The two loops of the search. [W_at] computes the code value of a candidate,
    [fail] is the result of the error check. *)
Section loops.
Context {S R : Type} (W_at : Z -> stmt S R Z) (fail : R) (streamVal : Z).

(** [while (streamVal > W_tmp)] *)
Fixpoint log_up (fuel : nat) (candQ7 W_lower W_tmp : Z) : stmt S R (Z * Z * Z) :=
  match fuel with
  | O => fun _ => Spin
  | Datatypes.S fuel' =>
      if W_tmp <? streamVal then
        let W_lower := W_tmp in
        let candQ7 := s16 (candQ7 + 128) in
        let! W_tmp := W_at candQ7 in
        if W_lower =? W_tmp then return_ fail
        else log_up fuel' candQ7 W_lower W_tmp
      else ret (candQ7, W_lower, W_tmp)
  end.

(** [while ( !(streamVal > W_tmp) )] *)
Fixpoint log_down (fuel : nat) (candQ7 W_upper W_tmp : Z) : stmt S R (Z * Z * Z) :=
  match fuel with
  | O => fun _ => Spin
  | Datatypes.S fuel' =>
      if streamVal <=? W_tmp then
        let W_upper := W_tmp in
        let candQ7 := s16 (candQ7 - 128) in
        let! W_tmp := W_at candQ7 in
        if W_upper =? W_tmp then return_ fail
        else log_down fuel' candQ7 W_upper W_tmp
      else ret (candQ7, W_tmp, W_upper)
  end.

(** The candidates are the 512 points of a grid and the state of the loop is
    its candidate: a search that has not ended after 513 steps never ends. *)
Definition search_fuel : nat := 514.

(** The sample with dither [d] that the code value selects, and its interval. *)
Definition log_search (d : Z) : stmt S R (Z * Z * Z) :=
  let candQ7 := s16 (- d + 64) in
  let! W_tmp := W_at candQ7 in
  if W_tmp <? streamVal then
    let W_lower := W_tmp in
    let candQ7 := s16 (candQ7 + 128) in
    let! W_tmp := W_at candQ7 in
    let! r := log_up search_fuel candQ7 W_lower W_tmp in
    let '(candQ7, W_lower, W_upper) := r in
    ret (s16 (candQ7 - 64), W_lower, W_upper)
  else
    let W_upper := W_tmp in
    let candQ7 := s16 (candQ7 - 128) in
    let! W_tmp := W_at candQ7 in
    let! r := log_down search_fuel candQ7 W_upper W_tmp in
    let '(candQ7, W_lower, W_upper) := r in
    ret (s16 (candQ7 + 64), W_lower, W_upper).
End loops.

(** The next byte, or a zero after the end of the stream, where the pointer
    stays and [offset] counts. *)
Definition log_byte {R} (ptr : nat) (offset streamVal : Z) : stmt Bitstr_dec R (nat * Z * Z) :=
  let! s := get in
  if Z.of_nat ptr <? d_stream_size s then
    let! r := dec_byte ptr streamVal in
    ret (r.1, offset, r.2)
  else
    let streamVal := u32 (Z.shiftl streamVal 8) in
    if d_full s =? 0 then
      put (set_dfull 1 s) ;; ret (ptr, offset + 1, streamVal)
    else
      put (set_dfull 0 s) ;; ret (ptr, offset, streamVal).

Fixpoint log_dec_renorm {R} (fuel : nat) (ptr : nat) (offset W_upper streamVal : Z) :
    stmt Bitstr_dec R (nat * Z * Z * Z) :=
  match fuel with
  | O => fun _ => Spin
  | S fuel' =>
      if Z.land W_upper 0xFF000000 =? 0 then
        let! r := log_byte ptr offset streamVal in
        let '(ptr, offset, streamVal) := r in
        log_dec_renorm fuel' ptr offset (u32 (Z.shiftl W_upper 8)) streamVal
      else ret (ptr, offset, W_upper, streamVal)
  end.

(** A zero width never leaves the loop; any other leaves it after three. *)
Definition log_dec_fuel : nat := 5.

(** The locals of the decoder: the pointer, the offset, the width and the code
    value. *)
Definition dec_locals : Type := nat * Z * Z * Z.

Definition log_dec_sample {R} (fail : R) (root d : Z) (l : dec_locals) :
    stmt Bitstr_dec R (Z * dec_locals) :=
  let '(ptr, offset, W_upper, streamVal) := l in
  let! r := log_search (fun c => log_W W_upper c root) fail streamVal d in
  let '(d, W_lower, W_upper) := r in
  let W_lower := u32 (W_lower + 1) in
  let W_upper := u32 (W_upper - W_lower) in
  let streamVal := u32 (streamVal - W_lower) in
  let! l := log_dec_renorm log_dec_fuel ptr offset W_upper streamVal in
  ret (d, l).

(** [for (k4 = 0; k4 < 4; k4++)]: [acc] is decoded, [dataQ7] is dither. *)
Fixpoint log_dec_group (n : nat) (root : Z) (dataQ7 acc : list Z) (l : dec_locals) :
    stmt Bitstr_dec dec_ret (list Z * list Z * dec_locals) :=
  match n with
  | O => ret (dataQ7, acc, l)
  | S n' =>
      match dataQ7 with
      | [] => fun _ => Fault
      | d :: data' =>
          let! r := log_dec_sample (-1, acc ++ dataQ7) root d l in
          log_dec_group n' root data' (acc ++ [r.1]) r.2
      end
  end.

Fixpoint DecLogisticMulti2_loop (groups : nat) (envQ8 dataQ7 acc : list Z) (res : Z) (l : dec_locals) :
    stmt Bitstr_dec dec_ret (list Z * list Z * dec_locals) :=
  match groups with
  | O => ret (dataQ7, acc, l)
  | S groups' =>
      match envQ8 with
      | [] => fun _ => Fault
      | env :: env' =>
          let! r := mem (env_sqrt env res) in
          let '(res, newRes) := r in
          let tmpARSpecQ8 := u16 newRes in
          let! r := log_dec_group 4 tmpARSpecQ8 dataQ7 acc l in
          let '(dataQ7, acc, l) := r in
          DecLogisticMulti2_loop groups' env' dataQ7 acc res l
      end
  end.

(** The number of bytes, as an [int]. *)
Definition log_length (s : Bitstr_dec) : Z :=
  let n := d_stream_index s * 2 in
  let half := if d_full s =? 0 then 1 else 0 in
  if 0x01FFFFFF <? d_W_upper s then n - 3 + half else n - 2 + half.

Definition WebRtcIsacfix_DecLogisticMulti2 {R} (dataQ7 envQ8 : list Z) (lenData : Z) :
    stmt Bitstr_dec R dec_ret :=
  fn (let! s := get in
      let! r := dec_start in
      let '(ptr, streamVal) := r in
      let! env0 := mem (envQ8 !! 0%nat) in
      let res := s32 (Z.shiftl 1 (Z.shiftr (spl_get_size_in_bits (u32 env0)) 1)) in
      let! r := DecLogisticMulti2_loop (Z.to_nat ((lenData + 3) / 4)) envQ8 dataQ7 [] res
                  (ptr, 0, d_W_upper s, streamVal) in
      let '(rest, acc, (ptr, offset, W_upper, streamVal)) := r in
      let! s := get in
      put (mkBitstr_dec (d_stream s) W_upper streamVal (u16 (Z.of_nat ptr + offset)) (d_full s)
             (d_stream_size s)) ;;
      let! s := get in
      ret (log_length s, acc ++ rest)).

End logist.

(** ** The distribution *)

Definition edge (i : nat) : Z := default 0 (kHistEdges !! i).
Definition slope (i : nat) : Z := default 0 (kCdfSlope !! i).
Definition level (i : nat) : Z := default 0 (kCdfLogistic !! i).

(** The first and last argument of segment [i]. *)
Definition seg_lo (i : nat) : Z := (Z.of_nat i * 65536 + 4) / 5 - 327680.
Definition seg_hi (i : nat) : Z := Z.min 327680 ((Z.of_nat i * 65536 + 65535) / 5 - 327680).

Definition seg (x : Z) : nat := Z.to_nat (5 * (x + 327680) / 65536).

(** The value on segment [i]. *)
Definition line (i : nat) (x : Z) : Z := level i * 32768 + (x - edge i) * slope i.

Definition sat (x : Z) : Z := Z.max (-327680) (Z.min 327680 x).

(** What [WebRtcIsacfix_Piecewise] computes. *)
Definition pw (x : Z) : Z := line (seg (sat x)) (sat x) / 32768.

(** The tables: every segment starts at or after its edge, rises, and ends
    below the level of the next. *)
Definition tables_ok : bool :=
  forallb (fun i => (edge i <=? seg_lo i) && (0 <=? slope i) && (slope i <? 65536) && (0 <=? level i) &&
                    (line i (seg_hi i) / 32768 <=? level (S i)) && (level (S i) <? 65536) &&
                    (edge (S i) <=? seg_lo (S i)) && (seg_hi i - edge i <? 65536) &&
                    ((level i <? level (S i))))
    (seq 0 50).

Lemma tables_ok_true : tables_ok = true.
Proof. vm_compute. reflexivity. Qed.

Record seg_facts (i : nat) : Prop := {
  sf_edge : edge i <= seg_lo i;
  sf_slope : 0 <= slope i < 65536;
  sf_level : 0 <= level i;
  sf_top : line i (seg_hi i) / 32768 <= level (S i);
  sf_next : level (S i) < 65536;
  sf_width : seg_hi i - edge i < 65536;
  sf_rise : level i < level (S i);
}.

Lemma seg_facts_of i : (i < 50)%nat -> seg_facts i.
Proof.
  intros Hi. pose proof tables_ok_true as Ht. unfold tables_ok in Ht.
  rewrite forallb_forall in Ht. specialize (Ht i (proj2 (in_seq 50 0 i) ltac:(lia))).
  rewrite !andb_true_iff in Ht. split; lia.
Qed.

Lemma sat_range x : -327680 <= sat x <= 327680.
Proof. unfold sat. lia. Qed.

Lemma sat_id x : -327680 <= x <= 327680 -> sat x = x.
Proof. unfold sat. lia. Qed.

Lemma sat_mono x y : x <= y -> sat x <= sat y.
Proof. unfold sat. lia. Qed.

Lemma seg_spec x :
  -327680 <= x <= 327680 -> (seg x <= 50)%nat /\ seg_lo (seg x) <= x <= seg_hi (seg x).
Proof.
  intros Hx. unfold seg, seg_lo, seg_hi.
  assert (0 <= 5 * (x + 327680) / 65536 <= 50) by dmlia.
  rewrite Z2Nat.id by lia. split; [lia|]. apply Z.min_case_strong; intros; dmlia.
Qed.

Lemma seg_last x : -327680 <= x <= 327680 -> seg x = 50%nat -> x = 327680.
Proof. intros Hx Hs. unfold seg in Hs. dmlia. Qed.

Lemma level_mono i j : (i <= j <= 50)%nat -> level i <= level j.
Proof.
  intros [Hij Hj]. induction Hij as [|j Hij IH]; [lia|].
  specialize (IH ltac:(lia)). pose proof (sf_rise j (seg_facts_of j ltac:(lia))). lia.
Qed.

Lemma line_mono i x y : (i < 50)%nat -> x <= y -> line i x <= line i y.
Proof.
  intros Hi Hxy. destruct (sf_slope i (seg_facts_of i Hi)). unfold line.
  assert ((x - edge i) * slope i <= (y - edge i) * slope i); [|lia].
  apply Z.mul_le_mono_nonneg_r; lia.
Qed.

Lemma line_50 : line 50 327680 / 32768 = 65535.
Proof. reflexivity. Qed.

(** The value lies between the levels at the ends of its segment. *)
Lemma line_range x :
  -327680 <= x <= 327680 -> (seg x < 50)%nat ->
  level (seg x) <= line (seg x) x / 32768 <= level (S (seg x)).
Proof.
  intros Hx Hs. destruct (seg_spec x Hx) as [_ Hseg].
  pose proof (seg_facts_of (seg x) Hs) as [He Hsl Hl Ht Hn Hw Hr]. split.
  - apply Z.div_le_lower_bound; [lia|]. unfold line. nia.
  - etrans; [|exact Ht]. apply Z.div_le_mono; [lia|]. apply line_mono; lia.
Qed.

Lemma pw_range x : 0 <= pw x <= 65535.
Proof.
  unfold pw. pose proof (sat_range x) as Hx. destruct (seg_spec _ Hx) as [Hs _].
  destruct (decide (seg (sat x) = 50%nat)) as [E|E].
  - rewrite E, (seg_last _ Hx E), line_50. lia.
  - pose proof (line_range _ Hx ltac:(lia)).
    pose proof (seg_facts_of (seg (sat x)) ltac:(lia)) as [_ _ ? _ ? _ _]. lia.
Qed.

Lemma seg_mono x y : -327680 <= x -> x <= y -> (seg x <= seg y)%nat.
Proof. intros. unfold seg. apply Z2Nat.inj_le; dmlia. Qed.

Lemma pw_mono x y : x <= y -> pw x <= pw y.
Proof.
  intros Hxy%sat_mono. unfold pw. pose proof (sat_range x) as Hx. pose proof (sat_range y) as Hy.
  revert Hxy Hx Hy. generalize (sat x) (sat y). clear x y. intros x y Hxy Hx Hy.
  destruct (seg_spec x Hx) as [Sx _]. destruct (seg_spec y Hy) as [Sy _].
  pose proof (seg_mono x y ltac:(lia) Hxy) as Hs.
  destruct (decide (seg x = seg y)) as [E|E].
  - rewrite <- E. destruct (decide (seg x = 50%nat)) as [E'|E'].
    + rewrite (seg_last x Hx E'), (seg_last y Hy ltac:(congruence)). done.
    + apply Z.div_le_mono; [lia|]. apply line_mono; lia.
  - pose proof (line_range x Hx ltac:(lia)) as Rx.
    pose proof (level_mono (S (seg x)) (seg y) ltac:(lia)) as Hl.
    destruct (decide (seg y = 50%nat)) as [E'|E'].
    + rewrite E' in *. rewrite (seg_last y Hy E'), line_50. change (level 50) with 65535 in Hl. lia.
    + pose proof (line_range y Hy ltac:(lia)). lia.
Qed.

Lemma zget_default l i : 0 <= i < Z.of_nat (length l) -> zget l i = Some (default 0 (l !! Z.to_nat i)).
Proof.
  intros Hi. unfold zget. rewrite (proj2 (Z.ltb_ge _ _)) by lia.
  by destruct (lookup_lt_is_Some_2 l (Z.to_nat i) ltac:(lia)) as [v ->].
Qed.

Section piecewise.
Context `{SplLaws}.

(** The code computes [pw], inside its tables and without wrapping. *)
Lemma Piecewise_spec x : WebRtcIsacfix_Piecewise x = Some (pw x).
Proof.
  unfold WebRtcIsacfix_Piecewise. simpl.
  rewrite spl_sat_spec by lia. change (Z.max (-327680) (Z.min 327680 x)) with (sat x).
  pose proof (pw_range x) as Hp. unfold pw in *.
  pose proof (sat_range x) as Hx. revert Hp Hx. generalize (sat x). clear x. intros x Hp Hx.
  destruct (seg_spec x Hx) as [Hs [Hlo Hhi]].
  rewrite s32_id, spl_mul_spec, shiftr_div by (lia || clia).
  replace (5 * (x - -327680) / 2 ^ 16) with (Z.of_nat (seg x)) by (unfold seg; dmlia).
  rewrite !zget_default by (simpl; lia). rewrite !Nat2Z.id. simpl.
  fold (edge (seg x)) (slope (seg x)) (level (seg x)).
  assert (0 <= x - edge (seg x) < 65536 /\ 0 <= slope (seg x) < 65536) as [Hd Hsl].
  { destruct (decide (seg x = 50%nat)) as [E|E].
    - rewrite E, (seg_last x Hx E). change (edge 50) with 327680. change (slope 50) with 0. lia.
    - pose proof (seg_facts_of (seg x) ltac:(lia)) as [He ? _ _ _ Hw _]. lia. }
  rewrite s32_id, u32_id by clia. rewrite spl_umul_32_16_spec by clia.
  assert (0 <= (x - edge (seg x)) * slope (seg x) < 2 ^ 32) as Hm by (widths; nia).
  rewrite u32_id, spl_rshift_u32_spec by (done || lia || apply u32_range).
  unfold line in *. rewrite Z.div_add_l in * by lia. change (2 ^ 15) with 32768.
  assert (0 <= level (seg x)) as Hl.
  { destruct (decide (seg x = 50%nat)) as [E|E]; [by rewrite E|].
    apply (sf_level _ (seg_facts_of (seg x) ltac:(lia))). }
  assert (0 <= (x - edge (seg x)) * slope (seg x) / 32768) by (apply Z.div_pos; lia).
  rewrite (u16_id (_ / _)), u16_id by clia. done.
Qed.
End piecewise.

(** ** Clipping *)

(** The distribution at grid point [c] with side information [e]. *)
Definition cp (e c : Z) : Z := pw (c * e).

Lemma cp_mono e c c' : 0 <= e -> c <= c' -> cp e c <= cp e c'.
Proof. intros. apply pw_mono. nia. Qed.

Lemma cp_range e c : 0 <= cp e c <= 65535.
Proof. apply pw_range. Qed.

(** The interval of a sample. *)
Definition sample_iv (e d : Z) : Z * Z := (cp e (d - 64), cp e (d + 64)).

(** A sample that is coded as it is: its probability is at least 2/65536. *)
Definition codable (e d : Z) : Prop := cp e (d - 64) + 1 < cp e (d + 64).

Lemma pw_0 : pw 0 = 33336.
Proof. reflexivity. Qed.

(** Samples within half a step of zero are never clipped. *)
Lemma codable_small e d : 1 <= e -> -64 <= d <= 64 -> codable e d.
Proof.
  intros He Hd. unfold codable, cp. destruct (Z_lt_le_dec d 0).
  - pose proof (pw_mono ((d - 64) * e) (-64) ltac:(nia)) as H1.
    pose proof (pw_mono 0 ((d + 64) * e) ltac:(nia)) as H2. rewrite pw_0 in H2.
    change (pw (-64)) with 33264 in H1. lia.
  - pose proof (pw_mono ((d - 64) * e) 0 ltac:(nia)) as H1.
    pose proof (pw_mono 64 ((d + 64) * e) ltac:(nia)) as H2. rewrite pw_0 in H1.
    change (pw 64) with 33408 in H2. lia.
Qed.

(** [clip_to e d d']: [d'] is the first codable point of the grid of [d] on the
    way to zero. *)
Inductive clip_to (e : Z) : Z -> Z -> Prop :=
| clip_here d : codable e d -> clip_to e d d
| clip_down d d' : ~ codable e d -> 0 < d -> clip_to e (d - 128) d' -> clip_to e d d'
| clip_up d d' : ~ codable e d -> d <= 0 -> clip_to e (d + 128) d' -> clip_to e d d'.

Lemma clip_to_codable e d d' : clip_to e d d' -> codable e d'.
Proof. by induction 1. Qed.

Lemma clip_to_grid e d d' : clip_to e d d' -> (d' - d) mod 128 = 0.
Proof. induction 1; [by rewrite Z.sub_diag| |]; dmlia. Qed.

Lemma clip_to_det e d d1 d2 : clip_to e d d1 -> clip_to e d d2 -> d1 = d2.
Proof. intros H1. revert d2. induction H1; intros d2; inversion 1; subst; done || lia || auto. Qed.

(** Clipping moves towards zero and stays in range. *)
Lemma clip_to_range e d d' :
  1 <= e -> clip_to e d d' -> Z.min (-64) d <= d' <= Z.max 64 d.
Proof.
  intros He. induction 1 as [d Hd|d d' Hn Hd _ IH|d d' Hn Hd _ IH]; [lia| |].
  - assert (64 < d) by (destruct (Z_lt_le_dec 64 d); [done|by destruct Hn; apply codable_small; lia]). lia.
  - assert (d < -64) by (destruct (Z_lt_le_dec d (-64)); [done|by destruct Hn; apply codable_small; lia]). lia.
Qed.

(** The side information of the encoder. *)
Definition env_ok (e : Z) : Prop := 1 <= e < 2 ^ 16.

(** Both ends of the sample's interval fit the 16-bit operand of the product. *)
Definition sample_ok (d : Z) : Prop := -2 ^ 15 + 64 <= d < 2 ^ 15 - 64.

Lemma cdf_at_spec `{SplLaws} {S R} x e (s : S) :
  is_s16 x -> is_u16 e -> cdf_at (R := R) x e s = Next (cp e x) s.
Proof.
  intros Hx He. unfold cdf_at, cp.
  by rewrite spl_mul_16_u16_spec, Piecewise_spec.
Qed.

(** [cdf_of] computes the distribution with side information [e] in [s]. *)
Definition computes {S R} (cdf_of : Z -> stmt S R Z) (e : Z) (s : S) : Prop :=
  forall x, is_s16 x -> cdf_of x s = Next (cp e x) s.

Lemma cdf_at_computes `{SplLaws} {S R} e (s : S) :
  env_ok e -> computes (R := R) (fun x => cdf_at x e) e s.
Proof. intros He x Hx. apply cdf_at_spec; [done|]. unfold env_ok in He. clia. Qed.

Lemma clip_loop_spec e d fuel :
  env_ok e -> sample_ok d -> Z.abs d <= 128 * Z.of_nat fuel - 64 ->
  exists d', clip_to e d d' /\
    forall S R (f : Z -> stmt S R Z) s, computes f e s ->
      clip_loop f fuel d (cp e (d - 64)) (cp e (d + 64)) s =
        Next (d', cp e (d' - 64), cp e (d' + 64)) s.
Proof.
  intros He. revert d. induction fuel as [|fuel IH]; intros d Hd Hf; [lia|].
  assert (Hw : u32 (cp e (d - 64) + 1) = cp e (d - 64) + 1).
  { pose proof (cp_range e (d - 64)). apply u32_id. clia. }
  cbn [clip_loop]. rewrite Hw.
  destruct (Z.leb_spec (cp e (d + 64)) (cp e (d - 64) + 1)) as [Hle|Hgt].
  2: { exists d. split; [by constructor|]. done. }
  assert (Hn : ~ codable e d) by (unfold codable; lia).
  assert (Z.abs d > 64) as Habs.
  { destruct (Z_gt_le_dec (Z.abs d) 64); [done|]. destruct Hn. apply codable_small; unfold env_ok in He; lia. }
  unfold sample_ok in *. destruct (Z.ltb_spec 0 d).
  - destruct (IH (d - 128)) as (d' & Hc & E); [clia|lia|].
    exists d'. split; [by apply clip_down|]. intros S R f s Hs.
    rewrite s16_id by clia. rewrite (bind_Next _ _ _ _ _ (Hs (d - 128 - 64) ltac:(clia))).
    specialize (E S R f s Hs). replace (d - 128 + 64) with (d - 64) in E by lia. apply E.
  - destruct (IH (d + 128)) as (d' & Hc & E); [clia|lia|].
    exists d'. split; [by apply clip_up|]. intros S R f s Hs.
    rewrite s16_id by clia. rewrite (bind_Next _ _ _ _ _ (Hs (d + 128 + 64) ltac:(clia))).
    specialize (E S R f s Hs). replace (d + 128 - 64) with (d + 64) in E by lia. apply E.
Qed.

(** Clipping ends, at the first codable point. *)
Lemma clip_spec e d :
  env_ok e -> sample_ok d ->
  exists d', clip_to e d d' /\
    forall S R (f : Z -> stmt S R Z) s, computes f e s ->
      clip f d s = Next (d', (sample_iv e d').1, (sample_iv e d').2) s.
Proof.
  intros He Hd. destruct (clip_loop_spec e d clip_fuel He Hd) as (d' & Hc & E).
  { unfold sample_ok, clip_fuel in *. change (2 ^ 15) with 32768 in Hd. lia. }
  exists d'. split; [done|]. intros S R f s Hs. unfold clip, sample_ok, env_ok in *.
  rewrite (bind_Next _ _ _ _ _ (Hs (d - 64) ltac:(clia))).
  rewrite (bind_Next _ _ _ _ _ (Hs (d + 64) ltac:(clia))). by apply E.
Qed.

Lemma codable_iv e d : codable e d -> iv_ok (sample_iv e d).
Proof.
  unfold codable, iv_ok, sample_iv. simpl. pose proof (cp_range e (d - 64)).
  pose proof (cp_range e (d + 64)). lia.
Qed.

Lemma clip_run e d d' :
  env_ok e -> sample_ok d -> clip_to e d d' ->
  forall S R (f : Z -> stmt S R Z) s, computes f e s ->
    clip f d s = Next (d', (sample_iv e d').1, (sample_iv e d').2) s.
Proof.
  intros He Hd Hc. destruct (clip_spec e d He Hd) as (d1 & Hc1 & E).
  by rewrite (clip_to_det _ _ _ _ Hc Hc1).
Qed.

Definition log_ivs (envs data : list Z) : list (Z * Z) := zip_with sample_iv envs data.

Lemma log_ivs_ok envs data data' : Forall3 clip_to envs data data' -> Forall iv_ok (log_ivs envs data').
Proof.
  induction 1 as [|e d d' envs data data' Hc _ IH]; constructor; [|done].
  by eapply codable_iv, clip_to_codable.
Qed.

(** ** Encoder *)

(** The side information of each sample: four samples to an entry, [r] of them
    left for the first. *)
Definition expand (r : nat) (env : list Z) : list Z :=
  match env with
  | [] => []
  | e :: env' => replicate r e ++ concat (map (replicate 4) env')
  end.

Lemma expand_4 env : expand 4 env = concat (map (replicate 4) env).
Proof. by destruct env. Qed.

(** The pointer of the side information moves after every fourth sample. *)
Lemma expand_step k e env r :
  0 <= k -> Z.of_nat r = 4 - k mod 4 ->
  exists r', expand r (e :: env) =
      e :: expand r' (drop (Z.to_nat (Z.land (Z.land k 1) (Z.shiftr k 1))) (e :: env)) /\
    Z.of_nat r' = 4 - (k + 1) mod 4.
Proof.
  intros Hk Hr. assert (Hl : Z.land (Z.land k 1) (Z.shiftr k 1) = if k mod 4 =? 3 then 1 else 0).
  { change 1 with (Z.ones 1) at 1. rewrite Z.land_ones, shiftr_div by lia.
    change (2 ^ 1) with 2.
    assert (k mod 2 = 0 \/ k mod 2 = 1) as [E|E] by dmlia; rewrite E.
    - rewrite (proj2 (Z.eqb_neq _ _)) by dmlia. apply Z.land_0_l.
    - rewrite Z.land_comm. change 1 with (Z.ones 1) at 1. rewrite Z.land_ones by lia.
      change (2 ^ 1) with 2. bcase; dmlia. }
  rewrite Hl. bcase.
  - exists 4%nat. assert (r = 1%nat) as -> by lia. split; [|dmlia]. simpl. by rewrite expand_4.
  - exists (r - 1)%nat. split; [|dmlia].
    assert (0 <= k mod 4 < 4) by (apply Z.mod_pos_bound; lia).
    destruct r as [|r]; [lia|]. replace (S r - 1)%nat with r by lia. done.
Qed.

Section encode.
Context `{SplLaws}.

Lemma log_interval_spec W lo hi :
  is_u32 W -> 2 ^ 24 <= W -> iv_ok (lo, hi) ->
  log_interval W lo hi = (scale W lo + 1, scale W hi - scale W lo - 1).
Proof.
  intros HW Hbig Hiv. rewrite <- (enc_interval_spec W lo hi HW Hbig Hiv).
  destruct Hiv as (Hlo & Hlt & Hhi). simpl in *.
  unfold log_interval, enc_interval. rewrite spl_rshift_u32_spec by (done || lia).
  rewrite land_low16, !shiftr_div by lia. fold (u16 W).
  rewrite (u16_id (W / 2 ^ 16)) by dmlia.
  assert (is_u16 (W / 2 ^ 16)) by dmlia.
  rewrite !spl_umul_32_16_spec, !spl_umul_spec by (done || clia).
  by rewrite !(Z.mul_comm (W / 2 ^ 16)), !(Z.mul_comm (u16 W)).
Qed.

Lemma log_put_byte_eq ptr s :
  is_u32 (e_streamval s) -> log_put_byte ptr s = put_byte ptr s.
Proof.
  intros Hs. unfold log_put_byte, put_byte. rewrite !bind_get.
  by rewrite spl_rshift_u32_spec, shiftr_div by (done || lia).
Qed.

Lemma log_renorm_eq fuel ptr W s :
  is_u32 (e_streamval s) -> log_renorm fuel ptr W s = enc_renorm fuel ptr W s.
Proof.
  revert ptr W s. induction fuel as [|fuel IH]; intros ptr W s Hs; [done|].
  cbn [log_renorm enc_renorm]. destruct (Z.land W 0xFF000000 =? 0); [|done].
  unfold bind, get, put. rewrite log_put_byte_eq by done.
  destruct (put_byte ptr s) as [ptr' s'|r s'| |]; [|done..].
  destruct (bool_decide _); [done|]. apply IH. simpl. auto with cint.
Qed.

Lemma add_streamval_u32 ptr v s s' :
  add_streamval ptr v s = Next tt s' -> is_u32 (e_streamval s').
Proof.
  unfold add_streamval. run. bcase.
  - destruct (propagate_carry _ _ _); [|done]. intros [= <-]. simpl. auto with cint.
  - intros [= <-]. simpl. auto with cint.
Qed.

Lemma log_symbol_eq ptr W lo hi s :
  is_u32 W -> 2 ^ 24 <= W -> iv_ok (lo, hi) ->
  log_symbol ptr W lo hi s = enc_symbol ptr W lo hi s.
Proof.
  intros HW Hbig Hiv. unfold log_symbol, enc_symbol.
  rewrite log_interval_spec, enc_interval_spec by done. unfold bind.
  destruct (add_streamval ptr _ s) as [[] s'|r s'| |] eqn:E; [|done..].
  apply log_renorm_eq. by eapply add_streamval_u32.
Qed.

Lemma EncLogisticMulti2_loop_spec s ptr a k r env envs rest data data' acc :
  erep s ptr a -> ac_ok a -> 0 <= k -> Z.of_nat r = 4 - k mod 4 ->
  expand r env = envs ++ rest ->
  Forall3 clip_to envs data data' -> Forall env_ok envs -> Forall sample_ok data ->
  if decide (nb (steps a (log_ivs envs data')) < 400)%nat
  then exists s' ptr',
    EncLogisticMulti2_loop (length data) k data env acc ptr (rng a) s =
      Next (ptr', rng (steps a (log_ivs envs data')), acc ++ data') s' /\
    erep s' ptr' (steps a (log_ivs envs data'))
  else exists l s', EncLogisticMulti2_loop (length data) k data env acc ptr (rng a) s =
    Return (- ISAC_DISALLOWED_BITSTREAM_LENGTH, l) s'.
Proof.
  intros Hr Ha Hk HR Hex Hc. revert s ptr a k r env acc Hr Ha Hk HR Hex.
  induction Hc as [|e d d' envs data data' Hc Hcs IH]; intros s ptr a k r env acc Hr Ha Hk HR Hex He Hd.
  - rewrite decide_True; [by exists s, ptr|].
    destruct Hr as [_ _ Hptr _ Hf Hnb _ _]. unfold STREAM_MAXW16_60MS in *. simpl. lia.
  - apply Forall_cons_1 in He as [He Hes]. apply Forall_cons_1 in Hd as [Hd Hds].
    destruct env as [|e' env]; [done|].
    destruct (expand_step k e' env r Hk HR) as (r' & Ex & HR'). rewrite Ex in Hex.
    simpl in Hex. injection Hex as -> Hex.
    cbn [length EncLogisticMulti2_loop]. rewrite (bind_mem _ _ _ e) by done.
    rewrite (bind_Next _ _ _ _ _ (clip_run e d d' He Hd Hc _ _ _ s (cdf_at_computes e s He))).
    pose proof (codable_iv _ _ (clip_to_codable _ _ _ Hc)) as Hiv.
    change (log_ivs (e :: envs) (d' :: data')) with (sample_iv e d' :: log_ivs envs data').
    change (steps a (sample_iv e d' :: log_ivs envs data'))
      with (steps (step a (sample_iv e d')) (log_ivs envs data')).
    destruct (sample_iv e d') as [lo hi]. cbn [fst snd].
    pose proof (enc_symbol_spec s ptr a lo hi Hr Ha Hiv) as Hs.
    rewrite <- (log_symbol_eq ptr (rng a) lo hi s) in Hs by (done || destruct Ha; clia).
    pose proof (nb_steps (step a (lo, hi)) (log_ivs envs data')).
    destruct (decide (nb (step a (lo, hi)) < 400)%nat).
    + destruct Hs as (s1 & ptr1 & E3 & Hr1). rewrite !(bind_Next _ _ _ _ _ (try_Next _ _ _ _ E3)).
      specialize (IH s1 ptr1 (step a (lo, hi)) (k + 1) r' _ (acc ++ [d']) Hr1
        ltac:(by apply step_ok) ltac:(lia) HR' Hex Hes Hds).
      rewrite <- app_assoc in IH. exact IH.
    + destruct Hs as (s1 & E3). rewrite decide_False by lia.
      rewrite !(bind_Next _ _ _ _ _ (try_Return _ _ _ _ E3)). by do 2 eexists.
Qed.

(** Encoding the spectrum appends the intervals of the clipped samples and
    leaves those samples in the array. *)
Lemma EncLogisticMulti2_encodes {R} env data data' n :
  Forall3 clip_to (take (length data) (expand 4 env)) data data' ->
  Forall env_ok env -> Forall sample_ok data -> n = Z.of_nat (length data) ->
  Encodes (@WebRtcIsacfix_EncLogisticMulti2 _ R data env n)
    (log_ivs (take (length data) (expand 4 env)) data') (0, data')
    (fun r => bits_exceeded r.1).
Proof.
  intros Hc He Hd ->. split; [by eapply log_ivs_ok|]. intros s a [Hr Hw Ha].
  set (envs := take (length data) (expand 4 env)) in *.
  assert (Hes : Forall env_ok envs).
  { apply Forall_take. rewrite expand_4. clear -He. induction He as [|e env He _ IH]; [constructor|].
    simpl. repeat (constructor; [done|]). done. }
  pose proof (EncLogisticMulti2_loop_spec s _ a 0 4 env envs (drop (length data) (expand 4 env))
    data data' [] Hr Ha ltac:(lia) eq_refl ltac:(symmetry; apply take_drop) Hc Hes Hd) as Hs.
  unfold WebRtcIsacfix_EncLogisticMulti2, fn. rewrite bind_get, Nat2Z.id, Hw.
  destruct (decide (nb (steps a (log_ivs envs data')) < 400)%nat).
  - destruct Hs as (s1 & ptr1 & E1 & Hr1). rewrite (bind_Next _ _ _ _ _ E1).
    eexists. split; [done|].
    destruct (erep_index _ _ _ (rng (steps a (log_ivs envs data'))) Hr1) as [Hr2 Hi].
    split; simpl; [by rewrite Hi|done|]. apply steps_ok; [done|]. by eapply log_ivs_ok.
  - destruct Hs as (l & s1 & E1). rewrite (bind_Return _ _ _ _ _ E1). by do 2 eexists.
Qed.
End encode.

(** ** Decoder: search *)

(** No cell the search crosses between its first candidate [c0] and the sample
    [d] is flat; the cell next to [c0] is not tested. *)
Definition no_flat (e c0 d : Z) : Prop :=
  (forall c, c0 + 128 <= c -> c + 128 <= d - 64 -> cp e c < cp e (c + 128)) /\
  (forall c, d + 64 <= c - 128 -> c <= c0 - 128 -> cp e (c - 128) < cp e c).

(** The dither selects the grid of the sample. *)
Definition on_grid (dither d : Z) : Prop := -128 < dither < 128 /\ (d + dither) mod 128 = 0.

Section search.
Context `{SplLaws}.

Lemma log_W_spec {R} W c e s :
  is_u32 W -> is_s16 c -> is_u16 e -> @log_W _ R W c e s = Next (scale W (cp e c)) s.
Proof.
  intros HW Hc He. unfold log_W. rewrite (bind_Next _ _ _ _ _ (cdf_at_spec c e s Hc He)).
  pose proof (cp_range e c) as Hp. unfold ret. f_equal.
  rewrite spl_rshift_u32_spec, land_low16 by (done || lia).
  rewrite (u16_id (W / 2 ^ 16)), (u16_id (W mod 2 ^ 16)) by dmlia.
  rewrite <- (scale_words W (cp e c)) by (done || lia).
  by rewrite land_low16, (shiftr_div W), !(Z.mul_comm (cp e c)) by lia.
Qed.

End search.

Section target.
Context {S R : Type} (W_at : Z -> stmt S R Z) (fail : R) (W e d x : Z) (s : S).
Hypothesis HW_at : forall c, is_s16 c -> W_at c s = Next (scale W (cp e c)) s.
Hypothesis HW : is_u32 W.
Hypothesis Hbig : 2 ^ 24 <= W.
Hypothesis He : env_ok e.
Hypothesis Hd : sample_ok d.
Hypothesis Hx : scale W (cp e (d - 64)) < x <= scale W (cp e (d + 64)).

Lemma cp_above c : c <= d - 64 -> scale W (cp e c) < x.
Proof using HW He Hx.
  intros Hc. pose proof (cp_mono e c (d - 64) ltac:(unfold env_ok in He; lia) Hc) as Hm.
  pose proof (scale_mono W _ _ ltac:(clia) Hm). lia.
Qed.

Lemma cp_below c : d + 64 <= c -> x <= scale W (cp e c).
Proof using HW He Hx.
  intros Hc. pose proof (cp_mono e (d + 64) c ltac:(unfold env_ok in He; lia) Hc) as Hm.
  pose proof (scale_mono W _ _ ltac:(clia) Hm). lia.
Qed.

Lemma scale_cp_neq c c' : cp e c < cp e c' -> scale W (cp e c) < scale W (cp e c').
Proof using Hbig.
  intros Hlt. pose proof (cp_range e c). pose proof (scale_gap W (cp e c) (cp e c') Hbig ltac:(lia) Hlt). lia.
Qed.

Lemma sample_cell_neq : cp e (d - 64) < cp e (d + 64).
Proof using HW Hx. eapply (scale_lt_inv W); [clia|lia]. Qed.

Lemma log_up_spec fuel j c :
  c = d + 64 - 128 * Z.of_nat j -> (j < fuel)%nat -> - 2 ^ 15 <= c ->
  (forall c', c <= c' -> c' + 128 <= d - 64 -> cp e c' < cp e (c' + 128)) ->
  log_up W_at fail x fuel c (scale W (cp e (c - 128))) (scale W (cp e c)) s =
    Next (d + 64, scale W (cp e (d - 64)), scale W (cp e (d + 64))) s.
Proof using Type*.
  revert j c. induction fuel as [|fuel IH]; intros j c Hc Hf Hlo Hflat; [lia|].
  cbn [log_up]. unfold sample_ok, env_ok in *. destruct j as [|j].
  - assert (c = d + 64) as -> by lia. rewrite (proj2 (Z.ltb_ge _ _)) by (apply Hx).
    by replace (d + 64 - 128) with (d - 64) by lia.
  - rewrite (proj2 (Z.ltb_lt _ _)) by (apply cp_above; lia).
    rewrite s16_id by clia.
    rewrite (bind_Next _ _ _ _ _ (HW_at (c + 128) ltac:(clia))).
    assert (cp e c < cp e (c + 128)) as Hne.
    { destruct j as [|j]; [|apply Hflat; lia].
      replace c with (d - 64) by lia. replace (d - 64 + 128) with (d + 64) by lia.
      apply sample_cell_neq. }
    pose proof (scale_cp_neq _ _ Hne). rewrite (proj2 (Z.eqb_neq _ _)) by lia.
    rewrite <- (IH j (c + 128)); [|lia|lia|lia|intros c' Hc'; apply Hflat; lia].
    by replace (c + 128 - 128) with c by lia.
Qed.

Lemma log_down_spec fuel j c :
  c = d - 64 + 128 * Z.of_nat j -> (j < fuel)%nat -> c < 2 ^ 15 ->
  (forall c', c' <= c -> d + 64 <= c' - 128 -> cp e (c' - 128) < cp e c') ->
  log_down W_at fail x fuel c (scale W (cp e (c + 128))) (scale W (cp e c)) s =
    Next (d - 64, scale W (cp e (d - 64)), scale W (cp e (d + 64))) s.
Proof using Type*.
  revert j c. induction fuel as [|fuel IH]; intros j c Hc Hf Hlo Hflat; [lia|].
  cbn [log_down]. unfold sample_ok, env_ok in *. destruct j as [|j].
  - assert (c = d - 64) as -> by lia. rewrite (proj2 (Z.leb_gt _ _)) by (apply Hx).
    by replace (d - 64 + 128) with (d + 64) by lia.
  - rewrite (proj2 (Z.leb_le _ _)) by (apply cp_below; lia).
    rewrite s16_id by clia.
    rewrite (bind_Next _ _ _ _ _ (HW_at (c - 128) ltac:(clia))).
    assert (cp e (c - 128) < cp e c) as Hne.
    { destruct j as [|j]; [|apply Hflat; lia].
      replace c with (d + 64) by lia. replace (d + 64 - 128) with (d - 64) by lia.
      apply sample_cell_neq. }
    pose proof (scale_cp_neq _ _ Hne). rewrite (proj2 (Z.eqb_neq _ _)) by lia.
    rewrite <- (IH j (c - 128)); [|lia|lia|lia|intros c' Hc'; apply Hflat; lia].
    by replace (c - 128 + 128) with c by lia.
Qed.

(** The search ends at the sample of the code value. *)
Lemma log_search_spec dither :
  on_grid dither d -> no_flat e (64 - dither) d ->
  log_search W_at fail x dither s =
    Next (d, scale W (cp e (d - 64)), scale W (cp e (d + 64))) s.
Proof using Type*.
  intros [Hdi Hg] [Hup Hdn]. unfold log_search, sample_ok, env_ok in *.
  set (c0 := 64 - dither) in *. replace (- dither + 64) with c0 by (unfold c0; lia).
  rewrite s16_id by (unfold c0; clia).
  rewrite (bind_Next _ _ _ _ _ (HW_at c0 ltac:(unfold c0; clia))).
  assert (exists m, d + 64 = c0 + 128 * m) as [m Hm].
  { exists ((d + dither) / 128). unfold c0. pose proof (Z_div_mod_eq_full (d + dither) 128). lia. }
  destruct (Z.ltb_spec (scale W (cp e c0)) x) as [Hlt|Hge].
  - assert (1 <= m) as Hm1.
    { destruct (Z_lt_le_dec m 1); [|done]. pose proof (cp_below c0 ltac:(lia)). lia. }
    rewrite s16_id by (unfold c0; clia).
    rewrite (bind_Next _ _ _ _ _ (HW_at (c0 + 128) ltac:(unfold c0; clia))).
    pose proof (log_up_spec search_fuel (Z.to_nat (m - 1)) (c0 + 128) ltac:(lia)
      ltac:(unfold search_fuel; unfold c0 in *; change (2 ^ 15) with 32768 in *; lia)
      ltac:(unfold c0; change (2 ^ 15) with 32768; lia) Hup) as E.
    replace (c0 + 128 - 128) with c0 in E by lia. rewrite (bind_Next _ _ _ _ _ E).
    unfold ret. rewrite s16_id by clia. by replace (d + 64 - 64) with d by lia.
  - assert (m <= 0) as Hm1.
    { destruct (Z_lt_le_dec m 1); [lia|]. pose proof (cp_above c0 ltac:(lia)). lia. }
    rewrite s16_id by (unfold c0; clia).
    rewrite (bind_Next _ _ _ _ _ (HW_at (c0 - 128) ltac:(unfold c0; clia))).
    pose proof (log_down_spec search_fuel (Z.to_nat (- m)) (c0 - 128) ltac:(lia)
      ltac:(unfold search_fuel; unfold c0 in *; change (2 ^ 15) with 32768 in *; lia)
      ltac:(unfold c0; change (2 ^ 15) with 32768; lia)
      ltac:(intros c' H1 H2; apply Hdn; lia)) as E.
    replace (c0 - 128 + 128) with c0 in E by lia. rewrite (bind_Next _ _ _ _ _ E).
    unfold ret. rewrite s16_id by clia. by replace (d - 64 + 64) with d by lia.
Qed.
End target.

(** ** Decoder: reading past the end *)

(** The pointer has stopped at the end of the stream, or counts alone. *)
Definition at_end (s : Bitstr_dec) (ptr off : nat) : Prop :=
  off = 0%nat \/ d_stream_size s <= Z.of_nat ptr.

Lemma dec_byte_size {R} ptr sv s r s' :
  @dec_byte R ptr sv s = Next r s' -> d_stream_size s' = d_stream_size s.
Proof.
  unfold dec_byte. run. destruct (d_stream s !! ptr); [|done]. bcase; intros [= <- <-]; done.
Qed.

(** Past the end the code value gets the zeros that the buffer holds there. *)
Lemma log_byte_spec {R} s ptr off sv a :
  drep s (ptr + off) sv a -> at_end s ptr off -> 0 <= sv < 2 ^ 24 ->
  (nb a + 4 < 2 * INTERNAL_STREAM_SIZE_W16)%nat ->
  exists s' ptr' off' sv', @log_byte R ptr (Z.of_nat off) sv s = Next (ptr', Z.of_nat off', sv') s' /\
    drep s' (ptr' + off') sv' (shift 1 a) /\ at_end s' ptr' off' /\ d_stream s' = d_stream s.
Proof.
  intros Hr Hend Hsv Hin.
  destruct (@dec_byte_spec R s (ptr + off) sv a Hr Hsv Hin) as (s1 & p1 & v1 & E1 & Hr1 & S1).
  unfold log_byte. rewrite bind_get. destruct (Z.ltb_spec (Z.of_nat ptr) (d_stream_size s)) as [Hlt|Hge].
  - assert (off = 0%nat) as -> by (destruct Hend; lia). rewrite Nat.add_0_r in E1.
    rewrite (bind_Next _ _ _ _ _ E1). exists s1, p1, 0%nat, v1. rewrite Nat.add_0_r.
    split_and!; [done|done|by left|done].
  - pose proof Hr as [HL _ HT Hf Hnb _]. unfold dec_byte in E1. rewrite bind_get in E1.
    destruct (lookup_lt_is_Some_2 (d_stream s) (ptr + off) ltac:(lia)) as [w Ew].
    rewrite (bind_mem _ _ _ _ Ew) in E1. assert (w = 0) as -> by (apply (HT _ _ Ew); lia).
    rewrite Z.land_0_l, Z.shiftr_0_l, Z.lor_0_r in E1.
    destruct (d_full s =? 0); run; simplify_eq.
    + exists (set_dfull 1 s), ptr, (S off), (u32 (Z.shiftl sv 8)).
      split_and!; [do 2 f_equal; f_equal; lia| |by right|done].
      by replace (ptr + S off)%nat with (S (ptr + off)) by lia.
    + exists (set_dfull 0 s), ptr, off, (u32 (Z.shiftl sv 8)). by split_and!.
Qed.

Lemma log_dec_renorm_spec {R} fuel s ptr off sv a :
  drep s (ptr + off) sv a -> at_end s ptr off -> 1 <= rng a < 2 ^ 32 -> (nshift (rng a) < fuel)%nat ->
  (nb (renorm a) + 4 <= 2 * INTERNAL_STREAM_SIZE_W16)%nat ->
  contains (renorm a) (wbyte (d_stream s)) ->
  exists s' ptr' off' sv',
    @log_dec_renorm R fuel ptr (Z.of_nat off) (rng a) sv s =
      Next (ptr', Z.of_nat off', rng (renorm a), sv') s' /\
    drep s' (ptr' + off') sv' (renorm a) /\ at_end s' ptr' off' /\ d_stream s' = d_stream s.
Proof.
  revert s ptr off sv a. induction fuel as [|fuel IH]; intros s ptr off sv a Hr Hend Hrng Hf Hin Hc; [lia|].
  cbn [log_dec_renorm]. rewrite land_top8 by clia.
  destruct (Z.ltb_spec (rng a) (2 ^ 24)).
  - rewrite <- (renorm_shift1 a) in Hin, Hc |- * by lia.
    rewrite (nshift_small (rng a)) in Hf by lia.
    rewrite shiftl_mul, u32_id by (lia || clia).
    assert (HB := wbyte_bytes _ (drep_u16 _ _ _ _ Hr)).
    pose proof (contains_shift _ _ _ HB (contains_shift _ _ _ HB Hc)) as Hc0.
    apply offset_contains in Hc0. rewrite <- (drep_sv _ _ _ _ Hr) in Hc0.
    assert (nb a + 4 < 2 * INTERNAL_STREAM_SIZE_W16)%nat as Hin1 by (simpl in Hin; lia).
    destruct (@log_byte_spec R s ptr off sv a Hr Hend ltac:(lia) Hin1)
      as (s1 & p1 & o1 & v1 & E1 & Hr1 & Hend1 & S1).
    rewrite (bind_Next _ _ _ _ _ E1).
    change (rng a * 2 ^ 8) with (rng (shift 1 a)).
    assert (Er : rng (shift 1 a) = rng a * 256) by done.
    destruct (IH s1 p1 o1 v1 (shift 1 a) Hr1 Hend1 ltac:(rewrite Er; lia) ltac:(rewrite Er; lia) Hin ltac:(by rewrite S1))
      as (s2 & p2 & o2 & v2 & E2 & Hr2 & Hend2 & S2).
    exists s2, p2, o2, v2. rewrite S2. done.
  - rewrite renorm_big by lia. exists s, ptr, off, sv. done.
Qed.

Section decode.
Context `{SplLaws}.

(** What the decoder needs of a sample: the side information, the sample the
    encoder has coded and the dither. *)
Record decodable (e d dither : Z) : Prop := {
  dc_env : env_ok e;
  dc_sample : sample_ok d;
  dc_code : codable e d;
  dc_grid : on_grid dither d;
  dc_flat : no_flat e (64 - dither) d;
}.

Lemma log_dec_sample_spec {R} (fail : R) s ptr off sv a e d dither ivs :
  drep s (ptr + off) sv a -> at_end s ptr off -> ac_ok a -> decodable e d dither ->
  Forall iv_ok ivs ->
  (nb (steps a (sample_iv e d :: ivs)) + 4 <= 2 * INTERNAL_STREAM_SIZE_W16)%nat ->
  contains (steps a (sample_iv e d :: ivs)) (wbyte (d_stream s)) ->
  exists s' ptr' off' sv',
    log_dec_sample fail e dither (ptr, Z.of_nat off, rng a, sv) s =
      Next (d, (ptr', Z.of_nat off', rng (step a (sample_iv e d)), sv')) s' /\
    drep s' (ptr' + off') sv' (step a (sample_iv e d)) /\ at_end s' ptr' off' /\
    d_stream s' = d_stream s.
Proof.
  intros Hr Hend Ha [He Hd Hco Hg Hfl] Hivs Hin Hc.
  pose proof (codable_iv e d Hco) as Hiv.
  change (steps a (sample_iv e d :: ivs)) with (steps (step a (sample_iv e d)) ivs) in *.
  destruct (next_window _ _ _ _ _ _ Hr Ha Hiv Hivs Hc) as (Hc1 & HW & Hx).
  pose proof (narrow_ok a _ Ha Hiv) as (Hn1 & Hn2 & Hn3). pose proof Ha as (Hl & Hrg & _).
  pose proof Hiv as (Hi1 & Hi2 & Hi3). unfold sample_iv in Hi1, Hi2, Hi3. simpl in Hi1, Hi2, Hi3.
  pose proof (scale_nonneg (rng a) (cp e (d - 64)) ltac:(lia) Hi1).
  pose proof (scale_le (rng a) (cp e (d + 64)) ltac:(lia) ltac:(lia)).
  unfold log_dec_sample.
  assert (HWa : forall c, is_s16 c -> (fun c => log_W (R := R) (rng a) c e) c s =
    Next (scale (rng a) (cp e c)) s).
  { intros c Hcs. apply log_W_spec; [done|done|]. unfold env_ok in He. clia. }
  pose proof (log_search_spec _ fail (rng a) e d sv s HWa HW ltac:(lia) He Hd Hx dither Hg Hfl) as Es.
  rewrite (bind_Next _ _ _ _ _ Es).
  cbn [narrow low rng nb sample_iv fst snd] in Hn1, Hn2, Hn3. simpl in Hx.
  rewrite (u32_id (scale (rng a) (cp e (d - 64)) + 1)) by clia.
  rewrite (u32_id (scale (rng a) (cp e (d + 64)) - _)), (u32_id (sv - _)) by clia.
  assert (Hr' : drep s (ptr + off) (sv - (scale (rng a) (cp e (d - 64)) + 1)) (narrow a (sample_iv e d))).
  { destruct Hr as [HL HU HT Hf Hnb Hsv]. split; try done. rewrite Hsv. unfold offset. simpl. lia. }
  replace (scale (rng a) (cp e (d + 64)) - (scale (rng a) (cp e (d - 64)) + 1))
    with (rng (narrow a (sample_iv e d))) by (simpl; lia).
  pose proof (nb_steps (step a (sample_iv e d)) ivs) as Hnb.
  destruct (@log_dec_renorm_spec R log_dec_fuel s ptr off _ _ Hr' Hend) as (s1 & p1 & o1 & v1 & E1 & HR);
    [simpl; lia| |fold (step a (sample_iv e d)); lia|done|].
  { unfold log_dec_fuel, nshift. repeat bcase; lia. }
  rewrite (bind_Next _ _ _ _ _ E1). by exists s1, p1, o1, v1.
Qed.

(** A group of samples that share their side information. *)
Lemma log_dec_group_spec s ptr off sv a e ds dithers rest acc ivs :
  drep s (ptr + off) sv a -> at_end s ptr off -> ac_ok a ->
  Forall2 (decodable e) ds dithers -> Forall iv_ok ivs ->
  let a' := steps a (map (sample_iv e) ds) in
  (nb (steps a' ivs) + 4 <= 2 * INTERNAL_STREAM_SIZE_W16)%nat ->
  contains (steps a' ivs) (wbyte (d_stream s)) ->
  exists s' ptr' off' sv',
    log_dec_group (length ds) e (dithers ++ rest) acc (ptr, Z.of_nat off, rng a, sv) s =
      Next (rest, acc ++ ds, (ptr', Z.of_nat off', rng a', sv')) s' /\
    drep s' (ptr' + off') sv' a' /\ at_end s' ptr' off' /\ ac_ok a' /\ d_stream s' = d_stream s.
Proof.
  intros Hr Hend Ha Hds. revert s ptr off sv a acc Hr Hend Ha.
  induction Hds as [|d dither ds dithers Hd Hds IH];
    intros s ptr off sv a acc Hr Hend Ha Hivs a' Hin Hc.
  - exists s, ptr, off, sv. rewrite app_nil_r. done.
  - cbn [length app log_dec_group].
    assert (Hok : Forall iv_ok (map (sample_iv e) ds ++ ivs)).
    { apply Forall_app. split; [|done]. clear -Hds. induction Hds as [|?? ? ? Hd _ IH]; constructor; [|done].
      by eapply codable_iv, dc_code. }
    unfold a' in *. rewrite <- steps_app in Hin, Hc.
    destruct (log_dec_sample_spec (-1, acc ++ dither :: dithers ++ rest) s ptr off sv a e d dither
      (map (sample_iv e) ds ++ ivs) Hr Hend Ha Hd Hok Hin Hc) as (s1 & p1 & o1 & v1 & E1 & Hr1 & Hend1 & S1).
    rewrite (bind_Next _ _ _ _ _ E1). cbn [fst snd].
    assert (ac_ok (step a (sample_iv e d))) as Ha1 by (apply step_ok; [done|by eapply codable_iv, dc_code]).
    change (steps a ((map (sample_iv e) (d :: ds)) ++ ivs))
      with (steps (step a (sample_iv e d)) (map (sample_iv e) ds ++ ivs)) in Hin, Hc.
    rewrite steps_app in Hin, Hc.
    destruct (IH s1 p1 o1 v1 (step a (sample_iv e d)) (acc ++ [d]) Hr1 Hend1 Ha1 Hivs Hin ltac:(by rewrite S1))
      as (s2 & p2 & o2 & v2 & E2 & Hr2 & Hend2 & Ha2 & S2).
    exists s2, p2, o2, v2. rewrite E2, <- app_assoc, S2. done.
Qed.

(** The roots the decoder computes from the squared side information. *)
Fixpoint roots_of (env : list Z) (res : Z) : option (list Z) :=
  match env with
  | [] => Some []
  | e :: env' =>
      r ← env_sqrt e res;
      es ← roots_of env' r.1;
      Some (u16 r.2 :: es)
  end.

Lemma log_ivs_4 e es ds4 ds :
  length ds4 = 4%nat -> log_ivs (expand 4 (e :: es)) (ds4 ++ ds) =
    map (sample_iv e) ds4 ++ log_ivs (expand 4 es) ds.
Proof.
  intros HL. do 4 (destruct ds4 as [|? ds4]; [done|]). destruct ds4; [|done].
  unfold log_ivs. cbn [map app]. rewrite (expand_4 es). done.
Qed.

(** Splitting the samples of the first group off. *)
Lemma decodable_4 e es ds dithers :
  Forall3 decodable (expand 4 (e :: es)) ds dithers ->
  exists ds4 ds' di4 dithers', ds = ds4 ++ ds' /\ dithers = di4 ++ dithers' /\ length ds4 = 4%nat /\
    Forall2 (decodable e) ds4 di4 /\ Forall3 decodable (expand 4 es) ds' dithers'.
Proof.
  rewrite (expand_4 es). cbn [expand replicate app]. intros Hd.
  do 4 (inversion_clear Hd as [|? ? ? ? ? ? ? Hd']; rename Hd' into Hd).
  eexists [_; _; _; _], _, [_; _; _; _], _. split_and!; [done|done|done| |done].
  repeat (constructor; [done|]). constructor.
Qed.

Lemma log_ivs_decodable envs ds dithers :
  Forall3 decodable envs ds dithers -> Forall iv_ok (log_ivs envs ds).
Proof.
  induction 1; constructor; [|done]. by eapply codable_iv, dc_code.
Qed.

Lemma DecLogisticMulti2_loop_spec s ptr off sv a env es res ds dithers rest acc :
  drep s (ptr + off) sv a -> at_end s ptr off -> ac_ok a ->
  roots_of env res = Some es -> Forall3 decodable (expand 4 es) ds dithers ->
  let a' := steps a (log_ivs (expand 4 es) ds) in
  (nb a' + 4 <= 2 * INTERNAL_STREAM_SIZE_W16)%nat ->
  contains a' (wbyte (d_stream s)) ->
  exists s' ptr' off' sv',
    DecLogisticMulti2_loop (length env) env (dithers ++ rest) acc res (ptr, Z.of_nat off, rng a, sv) s =
      Next (rest, acc ++ ds, (ptr', Z.of_nat off', rng a', sv')) s' /\
    drep s' (ptr' + off') sv' a' /\ ac_ok a' /\ d_stream s' = d_stream s.
Proof.
  intros Hr Hend Ha. revert s ptr off sv a es res ds dithers acc Hr Hend Ha.
  induction env as [|e env IH]; intros s ptr off sv a es res ds dithers acc Hr Hend Ha Hro Hd a' Hin Hc.
  - injection Hro as <-. inversion Hd; subst. exists s, ptr, off, sv. rewrite app_nil_r. done.
  - cbn [roots_of] in Hro. destruct (env_sqrt e res) as [[res' nr]|] eqn:Esq; [|done].
    simpl in Hro. destruct (roots_of env res') as [es'|] eqn:Ero; [|done].
    simpl in Hro. injection Hro as <-.
    destruct (decodable_4 _ _ _ _ Hd) as (ds4 & ds' & di4 & dithers' & -> & -> & L4 & Hd4 & Hd').
    cbn [length DecLogisticMulti2_loop]. rewrite (bind_mem _ _ _ _ Esq).
    unfold a' in *. rewrite log_ivs_4, steps_app in * by done. rewrite <- app_assoc, <- L4.
    destruct (log_dec_group_spec s ptr off sv a (u16 nr) ds4 di4 (dithers' ++ rest) acc
      (log_ivs (expand 4 es') ds') Hr Hend Ha Hd4 ltac:(by eapply log_ivs_decodable) Hin Hc)
      as (s1 & p1 & o1 & v1 & E1 & Hr1 & Hend1 & Ha1 & S1).
    rewrite (bind_Next _ _ _ _ _ E1).
    destruct (IH s1 p1 o1 v1 _ es' res' ds' dithers' (acc ++ ds4) Hr1 Hend1 Ha1 Ero Hd' Hin ltac:(by rewrite S1))
      as (s2 & p2 & o2 & v2 & E2 & Hr2 & Ha2 & S2).
    rewrite L4. exists s2, p2, o2, v2. rewrite E2, <- app_assoc, S2. done.
Qed.

(** The starting point of the square root of a frame. *)
Definition first_res (env0 : Z) : Z :=
  s32 (Z.shiftl 1 (Z.shiftr (spl_get_size_in_bits (u32 env0)) 1)).

(** Decoding the spectrum reads the intervals of the samples and returns the
    samples in place of the dither. *)
Lemma DecLogisticMulti2_decodes {R} env0 env es ds dithers n :
  roots_of (env0 :: env) (first_res env0) = Some es ->
  Forall3 decodable (expand 4 es) ds dithers -> n = 4 * Z.of_nat (length (env0 :: env)) ->
  Decodes (@WebRtcIsacfix_DecLogisticMulti2 _ R dithers (env0 :: env) n)
    (log_ivs (expand 4 es) ds) (fun l => (Z.of_nat l, ds)).
Proof.
  intros Hro Hd ->. split; [by eapply log_ivs_decodable|]. intros s a Hs Hin Hc.
  unfold WebRtcIsacfix_DecLogisticMulti2, fn. rewrite bind_get.
  destruct (@dec_start_spec dec_ret s a Hs) as (p0 & v0 & E0 & Hr0).
  rewrite (bind_Next _ _ _ _ _ E0), (bind_mem _ _ _ env0) by done. fold (first_res env0).
  rewrite (ds_rng _ _ Hs).
  replace (Z.to_nat ((4 * Z.of_nat (length (env0 :: env)) + 3) / 4)) with (length (env0 :: env))
    by dmlia.
  destruct (DecLogisticMulti2_loop_spec s p0 0 v0 a (env0 :: env) es (first_res env0) ds dithers [] []
    ltac:(by rewrite Nat.add_0_r) ltac:(by left) (ds_ok _ _ Hs) Hro Hd Hin Hc)
    as (s1 & p1 & o1 & v1 & E1 & Hr1 & Ha1 & S1).
  change (Z.of_nat 0) with 0 in E1. rewrite app_nil_r in E1. rewrite (bind_Next _ _ _ _ _ E1). cbn [app]. run.
  destruct Hr1 as [HL HU HT Hf Hnb Hsv]. unfold INTERNAL_STREAM_SIZE_W16 in Hin.
  set (a' := steps a (log_ivs (expand 4 es) ds)) in *.
  assert (Ei : u16 (Z.of_nat p1 + Z.of_nat o1) = Z.of_nat (p1 + o1)) by (rewrite u16_id; clia).
  rewrite Ei. eexists. split; [|split].
  - do 2 f_equal; [|by rewrite app_nil_r]. unfold log_length, final_len. simpl.
    destruct (0x01FFFFFF <? rng a'); bcase; lia.
  - split; simpl; [done|done|]. right. split; [lia|]. rewrite Nat2Z.id. by split.
  - done.
Qed.
End decode.

(** ** When the search meets no flat cell *)

(** Over 6656 arguments, up to the last but one segment, the line rises by more
    than one unit. *)
Definition rises_ok : bool :=
  forallb (fun i => (32768 <=? 6656 * slope i) &&
                    (32768 <=? line (S i) (seg_lo (S i)) - line i (seg_hi i) +
                               6655 * Z.min (slope i) (slope (S i)))) (seq 0 48) &&
  (32768 <=? 6656 * slope 48).

Lemma rises_ok_true : rises_ok = true.
Proof. vm_compute. reflexivity. Qed.

Lemma rise_same i : (i <= 48)%nat -> 32768 <= 6656 * slope i.
Proof.
  intros Hi. pose proof rises_ok_true as [Ht H48]%andb_true_iff.
  destruct (decide (i = 48%nat)) as [->|]; [lia|]. rewrite forallb_forall in Ht.
  specialize (Ht i (proj2 (in_seq 48 0 i) ltac:(lia))). rewrite andb_true_iff in Ht. lia.
Qed.

Lemma rise_next i : (i < 48)%nat ->
  32768 <= line (S i) (seg_lo (S i)) - line i (seg_hi i) + 6655 * Z.min (slope i) (slope (S i)).
Proof.
  intros Hi. pose proof rises_ok_true as [Ht _]%andb_true_iff. rewrite forallb_forall in Ht.
  specialize (Ht i (proj2 (in_seq 48 0 i) ltac:(lia))). rewrite andb_true_iff in Ht. lia.
Qed.

Lemma seg_hi_lo i : (i < 49)%nat -> seg_lo (S i) = seg_hi i + 1.
Proof.
  intros Hi. unfold seg_lo, seg_hi. rewrite Z.min_r by dmlia. dmlia.
Qed.

Lemma line_step x :
  -327680 <= x -> x + 6656 <= 314572 ->
  line (seg x) x + 32768 <= line (seg (x + 6656)) (x + 6656).
Proof.
  intros Hx Hy. destruct (seg_spec x ltac:(lia)) as [_ Sx].
  destruct (seg_spec (x + 6656) ltac:(lia)) as [_ Sy].
  assert (seg (x + 6656) <= 48)%nat as H48 by (unfold seg; dmlia).
  assert (seg (x + 6656) = seg x \/ seg (x + 6656) = S (seg x)) as [E|E] by (unfold seg; dmlia).
  - rewrite E in *. pose proof (rise_same (seg x) H48). unfold line. nia.
  - rewrite E in *. pose proof (rise_next (seg x) ltac:(lia)) as Hr.
    pose proof (seg_hi_lo (seg x) ltac:(lia)) as Hs.
    destruct (sf_slope (seg x) (seg_facts_of (seg x) ltac:(lia))) as [S0 _].
    destruct (sf_slope (S (seg x)) (seg_facts_of (S (seg x)) ltac:(lia))) as [S1 _].
    unfold line in *. set (s0 := slope (seg x)) in *. set (s1 := slope (S (seg x))) in *.
    set (t := seg_hi (seg x) - x) in *. set (u := x + 6656 - seg_lo (S (seg x))) in *.
    assert (t * Z.min s0 s1 <= t * s0) by (apply Z.mul_le_mono_nonneg_l; lia).
    assert (u * Z.min s0 s1 <= u * s1) by (apply Z.mul_le_mono_nonneg_l; lia).
    assert (t * Z.min s0 s1 + u * Z.min s0 s1 = 6655 * Z.min s0 s1) by (rewrite <- Z.mul_add_distr_r; f_equal; lia).
    replace (x - edge (seg x)) with (seg_hi (seg x) - edge (seg x) - t) by lia.
    replace (x + 6656 - edge (S (seg x))) with (seg_lo (S (seg x)) - edge (S (seg x)) + u) by lia.
    rewrite Z.mul_sub_distr_r, Z.mul_add_distr_r. lia.
Qed.

Lemma pw_rise x y : -327680 <= x -> x + 6656 <= y -> y <= 314572 -> pw x < pw y.
Proof.
  intros Hx Hxy Hy. pose proof (pw_mono (x + 6656) y Hxy).
  enough (pw x < pw (x + 6656)) by lia. unfold pw. rewrite !sat_id by lia.
  pose proof (line_step x Hx ltac:(lia)).
  enough (line (seg x) x / 32768 + 1 <= line (seg (x + 6656)) (x + 6656) / 32768) by lia.
  apply Z.div_le_lower_bound; [lia|]. pose proof (Z.mul_div_le (line (seg x) x) 32768). lia.
Qed.

(** With side information of at least 52/256 a coded sample is always found. *)
Lemma wide_no_flat e d dither :
  52 <= e -> -64 <= dither <= 64 -> codable e d -> no_flat e (64 - dither) d.
Proof.
  intros He Hdi Hc. unfold codable, cp in Hc.
  pose proof (pw_range ((d + 64) * e)). pose proof (pw_range ((d - 64) * e)). split.
  - intros c Hc1 Hc2. apply pw_rise; [nia|nia|].
    destruct (Z_le_gt_dec ((d - 64) * e) 314572); [nia|].
    pose proof (pw_mono 314573 ((d - 64) * e) ltac:(lia)) as Hm. change (pw 314573) with 65534 in Hm. lia.
  - intros c Hc1 Hc2. apply pw_rise; [|nia|nia].
    destruct (Z_le_gt_dec (-327680) ((d + 64) * e)); [nia|].
    pose proof (pw_mono ((d + 64) * e) (-327680) ltac:(lia)) as Hm. change (pw (-327680)) with 0 in Hm. lia.
Qed.

(** ** Properties *)

(** The piecewise linear distribution is a cumulative distribution: for every
    argument the look-ups stay inside the three tables, the value is a 16-bit
    integer computed without wrapping, and it is monotone, from 0 at the left end
    to 65535 at the right. *)
Theorem Piecewise_cdf `{SplLaws} x y :
  x <= y ->
  exists px py, WebRtcIsacfix_Piecewise x = Some px /\ WebRtcIsacfix_Piecewise y = Some py /\
    0 <= px <= py /\ py <= 65535 /\
    (x <= -327680 -> px = 0) /\ (327680 <= y -> py = 65535).
Proof.
  intros Hxy. exists (pw x), (pw y). rewrite !Piecewise_spec.
  pose proof (pw_mono x y Hxy). pose proof (pw_range x). pose proof (pw_range y).
  split_and!; try done || lia.
  - intros Hx. unfold pw. by replace (sat x) with (-327680) by (unfold sat; lia).
  - intros Hy. unfold pw. by replace (sat y) with 327680 by (unfold sat; lia).
Qed.

Lemma Piecewise_cdf_witness :
  exists px py, WebRtcIsacfix_Piecewise (-400000) = Some px /\ WebRtcIsacfix_Piecewise 500000 = Some py /\
    0 <= px <= py /\ py <= 65535 /\
    (-400000 <= -327680 -> px = 0) /\ (327680 <= 500000 -> py = 65535).
Proof. apply Piecewise_cdf. lia. Defined.

(** C36. Clipping of improbable samples ends, for positive side information and
    samples whose interval fits 16 bits, at the first point of the sample's grid
    (step 128) on the way to zero whose probability is at least 2/65536; the
    frequencies it leaves are those of that point. *)
Theorem clip_terminates `{SplLaws} e d :
  env_ok e -> sample_ok d ->
  exists d', clip_to e d d' /\ codable e d' /\ (d' - d) mod 128 = 0 /\
    Z.min (-64) d <= d' <= Z.max 64 d /\
    forall s : Bitstr_enc, clip (R := Z) (fun x => cdf_at x e) d s = Next (d', cp e (d' - 64), cp e (d' + 64)) s.
Proof.
  intros He Hd. destruct (clip_spec e d He Hd) as (d' & Hc & E). exists d'.
  split_and!; [done|by eapply clip_to_codable|by eapply clip_to_grid|..].
  - eapply clip_to_range, Hc. unfold env_ok in He. lia.
  - eapply clip_to_range, Hc. unfold env_ok in He. lia.
  - intros s. by apply E, cdf_at_computes.
Qed.

Lemma clip_terminates_witness :
  exists d', clip_to 300 20000 d' /\ codable 300 d' /\ (d' - 20000) mod 128 = 0 /\
    Z.min (-64) 20000 <= d' <= Z.max 64 20000 /\
    forall s : Bitstr_enc, clip (R := Z) (fun x => cdf_at x 300) 20000 s = Next (d', cp 300 (d' - 64), cp 300 (d' + 64)) s.
Proof. apply clip_terminates; [unfold env_ok|unfold sample_ok]; lia. Defined.

(** C27. Coding of the spectrum is lossless up to clipping. Let the decoder's
    squared side information have the encoder's side information as its integer
    square roots, and let each sample lie on the grid of its dither. When the
    frame is encoded, the decoder of the payload returns the samples the encoder
    has left in its array, and the payload's length, provided that no cell on the
    way to a sample is flat. *)
Theorem spectrum_roundtrip `{SplLaws} sq0 sq env data data' dithers s len r s' buf extra :
  roots_of (sq0 :: sq) (first_res sq0) = Some env ->
  Forall env_ok env -> Forall sample_ok data -> length data = (4 * length env)%nat ->
  Forall3 clip_to (expand 4 env) data data' ->
  Forall3 decodable (expand 4 env) data' dithers ->
  length (e_stream s) = STREAM_MAXW16_60MS -> Forall is_u16 (e_stream s) ->
  encode_frame fst (WebRtcIsacfix_EncLogisticMulti2 data env (Z.of_nat (length data))) s =
    Next (len, r) s' -> 0 <= len ->
  is_bytes_list buf -> len < Z.of_nat (length buf) ->
  is_bytes_list extra -> (Z.to_nat len + length extra <= 2 * INTERNAL_STREAM_SIZE_W16)%nat ->
  r = (0, data') /\
  exists encoded d d',
    write_be16 (e_stream s') (Z.to_nat len) buf = Some encoded /\
    load_payload (take (Z.to_nat len) encoded ++ extra) (Z.to_nat len + length extra) = Some d /\
    @WebRtcIsacfix_DecLogisticMulti2 _ Z dithers (sq0 :: sq) (4 * Z.of_nat (length (sq0 :: sq))) d =
      Next (len, data') d'.
Proof.
  intros Hro He Hd HL Hc Hdec HLs HU Ee Hlen Hbuf Hroom Hx Hmax.
  assert (Ht : take (length data) (expand 4 env) = expand 4 env).
  { apply take_ge. rewrite HL, expand_4. clear. induction env as [|e env IH]; simpl in *; lia. }
  assert (HE := @EncLogisticMulti2_encodes _ _ Z env data data' _ ltac:(by rewrite Ht) He Hd eq_refl).
  rewrite Ht in HE.
  destruct (frame_roundtrip fst _ _ (0, data') s HE eq_refl HLs HU _ _ len r s' buf extra
    (DecLogisticMulti2_decodes sq0 sq env data' dithers _ Hro Hdec eq_refl)
    Ee Hlen Hbuf Hroom Hx Hmax) as (-> & enc & d & d' & E1 & E2 & E3).
  split; [done|]. exists enc, d, d'. rewrite Z2Nat.id in E3 by done. done.
Qed.

(** Checking the result of clipping by evaluation. *)
Lemma clip_check e d d' lo hi :
  env_ok e -> sample_ok d -> clip (R := unit) (fun x => cdf_at x e) d tt = Next (d', lo, hi) tt -> clip_to e d d'.
Proof.
  intros He Hd E. destruct (clip_spec e d He Hd) as (d1 & Hc & E1).
  rewrite E1 in E by by apply cdf_at_computes. by simplify_eq.
Qed.

Lemma decodable_wide e d dither :
  52 <= e < 2 ^ 16 -> sample_ok d -> -64 <= dither <= 64 -> codable e d -> (d + dither) mod 128 = 0 ->
  decodable e d dither.
Proof.
  intros He Hd Hdi Hc Hg. split; [unfold env_ok; lia|done|done|split; [lia|done]|].
  apply wide_no_flat; [lia|done|done].
Qed.

(** The two groups of the witness: side information 300 and 52. *)
Definition demo_env : list Z := [300; 52].
Definition demo_data : list Z := [20000; -130; 5; 64; -700; 1; 0; 300].
Definition demo_clipped : list Z := [1056; -130; 5; 64; -700; 1; 0; 300].
Definition demo_dithers : list Z := [-32; 2; -5; 64; 60; -1; 0; -44].

Lemma demo_clip : Forall3 clip_to (expand 4 demo_env) demo_data demo_clipped.
Proof.
  repeat (constructor;
    [eapply clip_check; [unfold env_ok; lia|unfold sample_ok; lia|vm_compute; reflexivity]|]).
  constructor.
Qed.

Lemma demo_decodable : Forall3 decodable (expand 4 demo_env) demo_clipped demo_dithers.
Proof.
  repeat (constructor;
    [apply decodable_wide; [lia|unfold sample_ok; lia|lia|vm_compute; reflexivity|reflexivity]|]).
  constructor.
Qed.

Lemma spectrum_roundtrip_witness :
  exists len s' encoded d d',
    encode_frame fst (WebRtcIsacfix_EncLogisticMulti2 demo_data demo_env 8) demo_enc =
      Next (len, (0, demo_clipped)) s' /\
    write_be16 (e_stream s') (Z.to_nat len) (replicate 401 0) = Some encoded /\
    load_payload (take (Z.to_nat len) encoded ++ [9]) (Z.to_nat len + 1) = Some d /\
    @WebRtcIsacfix_DecLogisticMulti2 _ Z demo_dithers [90000; 2704] 8 d = Next (len, demo_clipped) d'.
Proof.
  do 2 eexists.
  edestruct (spectrum_roundtrip 90000 [2704] demo_env demo_data demo_clipped demo_dithers demo_enc)
    with (buf := replicate 401 0) (extra := [9]) as (_ & enc & d & d' & E1 & E2 & E3).
  - vm_compute. reflexivity.
  - repeat (constructor; [unfold env_ok; lia|]). constructor.
  - repeat (constructor; [unfold sample_ok; lia|]). constructor.
  - done.
  - exact demo_clip.
  - exact demo_decodable.
  - apply demo_enc_ok.
  - apply demo_enc_ok.
  - vm_compute. reflexivity.
  - done.
  - apply Forall_replicate. clia.
  - vm_compute. reflexivity.
  - repeat constructor; clia.
  - vm_compute. lia.
  - exists enc, d, d'. split; [vm_compute; reflexivity|]. done.
Defined.

(** A decoder never misses a coded sample whose side information is at least
    52: whatever the sample and the dither, no cell of its search is flat. *)
Theorem wide_env_decodable e d dither :
  52 <= e < 2 ^ 16 -> sample_ok d -> codable e d ->
  -64 <= dither <= 64 -> (d + dither) mod 128 = 0 -> decodable e d dither.
Proof. intros. by apply decodable_wide. Qed.

Lemma wide_env_decodable_witness : decodable 60 192 64.
Proof.
  apply wide_env_decodable; [lia|unfold sample_ok; lia|vm_compute; reflexivity|lia|reflexivity].
Defined.

(** The flat cell: with side information 7 the cell below [22345] has probability
    zero and the one above has 2/65536. *)
Definition flat_data : list Z := [22409; 0; 0; 0].
Definition flat_dithers : list Z := [-9; 0; 0; 0].

(** Below that bound the decoder can refuse a stream of the encoder. With
    side information 7 the encoder codes the sample 22409 unchanged, and the
    decoder, given the same side information and the right dither, returns -1,
    because a cell between its first candidate and the sample is flat. *)
Theorem flat_cell_rejected :
  exists len s' encoded d d',
    encode_frame fst (WebRtcIsacfix_EncLogisticMulti2 flat_data [7] 4) demo_enc =
      Next (len, (0, flat_data)) s' /\
    write_be16 (e_stream s') (Z.to_nat len) (replicate 401 0) = Some encoded /\
    load_payload (take (Z.to_nat len) encoded) (Z.to_nat len) = Some d /\
    roots_of [49] (first_res 49) = Some [7] /\
    Forall2 on_grid flat_dithers flat_data /\
    @WebRtcIsacfix_DecLogisticMulti2 _ Z flat_dithers [49] 4 d = Next (-1, flat_dithers) d'.
Proof.
  do 5 eexists. split; [vm_compute; reflexivity|]. split; [vm_compute; reflexivity|].
  split; [vm_compute; reflexivity|]. split; [vm_compute; reflexivity|].
  split; [repeat (constructor; [split; [lia|reflexivity]|]); constructor|].
  vm_compute. reflexivity.
Qed.

(** The candidates of dither 0 with root 2: none is above the code value, and no
    two successive ones are equal, also where the 16-bit candidate wraps. *)
Definition hang_ok : bool :=
  forallb (fun j => let c := s16 (64 + 128 * Z.of_nat j) in
                    (scale 0xFFFFFFFF (cp 2 c) <? 0xFFFFFFFF) &&
                    negb (scale 0xFFFFFFFF (cp 2 c) =? scale 0xFFFFFFFF (cp 2 (s16 (c + 128)))))
    (seq 0 512).

Lemma hang_ok_true : hang_ok = true.
Proof. vm_compute. reflexivity. Qed.

Lemma hang_point c :
  is_s16 c -> c mod 128 = 64 ->
  scale 0xFFFFFFFF (cp 2 c) < 0xFFFFFFFF /\
  scale 0xFFFFFFFF (cp 2 c) <> scale 0xFFFFFFFF (cp 2 (s16 (c + 128))).
Proof.
  intros Hc Hm. pose proof hang_ok_true as Ht. unfold hang_ok in Ht. rewrite forallb_forall in Ht.
  assert (exists q, c = 64 + 128 * q) as [q ->] by (exists (c / 128); dmlia). clear Hm.
  set (j := if 0 <=? q then q else q + 512).
  assert (Hj : 0 <= j < 512) by (unfold j; bcase; clia).
  specialize (Ht (Z.to_nat j) (proj2 (in_seq 512 0 (Z.to_nat j)) ltac:(lia))).
  cbv zeta in Ht. rewrite Z2Nat.id in Ht by lia.
  assert (Ej : s16 (64 + 128 * j) = 64 + 128 * q).
  { unfold j, s16. bcase; [rewrite Z.mod_small; clia|].
    replace (64 + 128 * (q + 512) + 2 ^ 15) with (64 + 128 * q + 2 ^ 15 + 1 * 2 ^ 16) by clia.
    rewrite Z_mod_plus_full, Z.mod_small; clia. }
  rewrite Ej in Ht.
  apply andb_true_iff in Ht as [H1 H2%negb_true_iff]. lia.
Qed.

Lemma hang_up `{SplLaws} {R} fuel (fail : R) c W_lower s :
  is_s16 c -> c mod 128 = 64 ->
  log_up (fun c => log_W 0xFFFFFFFF c 2) fail 0xFFFFFFFF fuel c W_lower (scale 0xFFFFFFFF (cp 2 c)) s = Spin.
Proof.
  revert c W_lower. induction fuel as [|fuel IH]; intros c W_lower Hc Hm; [done|].
  cbn [log_up]. destruct (hang_point c Hc Hm) as [H1 H2].
  rewrite (proj2 (Z.ltb_lt _ _)) by done.
  rewrite (bind_Next _ _ _ _ _ (log_W_spec 0xFFFFFFFF (s16 (c + 128)) 2 s ltac:(clia) (s16_range _) ltac:(clia))).
  rewrite (proj2 (Z.eqb_neq _ _)) by done. apply IH; [apply s16_range|]. dmlia.
Qed.

(** The decoder's search need not end on a malformed stream. With side
    information 4 (root 2) and a payload of eight bytes 0xFF, no candidate reaches
    the code value, the 16-bit candidate wraps and the loop runs for ever: the
    model exhausts its fuel, and so it does with any other amount. *)
Theorem search_never_ends :
  exists d, load_payload (replicate 8 255) 8 = Some d /\
    @WebRtcIsacfix_DecLogisticMulti2 _ Z [0; 0; 0; 0] [4] 4 d = Spin /\
    forall fuel (fail : dec_ret) W_lower,
      log_up (fun c => log_W 0xFFFFFFFF c 2) fail 0xFFFFFFFF fuel 192 W_lower (scale 0xFFFFFFFF (cp 2 192)) d = Spin.
Proof.
  eexists. split; [vm_compute; reflexivity|]. split; [vm_compute; reflexivity|].
  intros fuel fail W_lower. apply hang_up; [clia|done].
Qed.

(** A decoder at the end of the longest stream it accepts. *)
Definition full_stream : Bitstr_dec :=
  mkBitstr_dec (replicate INTERNAL_STREAM_SIZE_W16 0) 0xFFFFFFFF 0x3ABCDEF1 300 1 300.

(** [WebRtcIsacfix_DecLogisticMulti2] bounds its own reads by [stream_size] but
    not the index it leaves. From the end of a stream of 600 bytes, sixteen
    samples succeed and leave [stream_index] at 306, outside the 305 words of the
    buffer, and the next histogram decoder, here that of the pitch gains of the
    second half of a packet, reads outside it. *)
Theorem index_past_buffer :
  exists r s, @WebRtcIsacfix_DecLogisticMulti2 _ Z (replicate 16 0) [100; 100; 100; 100] 16 full_stream = Next r s /\
    0 <= r.1 /\ Z.of_nat INTERNAL_STREAM_SIZE_W16 < d_stream_index s /\
    @WebRtcIsacfix_DecodePitchGain _ Z [0; 0; 0; 0] s = Fault.
Proof.
  do 2 eexists. split; [vm_compute; reflexivity|]. split; [vm_compute; congruence|].
  split; [vm_compute; reflexivity|]. vm_compute. reflexivity.
Qed.
