(* ===== verification/IsacFixBwe.v ===== *)
(** * iSAC fixed point: bandwidth estimator

    Models the estimator of [isac/fix/source/bandwidth_estimator.c]. [BwEstimatorstr] is the
    estimator both ends of a call keep: [rec...] fields describe the link from
    the far end to here, [send...] fields the link from here to the far end, as
    the far end reports it in the index (0 to 23) of every payload.

    A function is a statement on its structure; a division by zero and a shift
    by 32 or more are faults. Signed arithmetic that leaves its type wraps. The
    assertions [RTC_DCHECK] are not compiled in release builds and are not part
    of the model. *)

From S2P Require Import Prelude Spl.

Open Scope c_scope.

(** ** Data *)

Definition kQRateTable : list Z :=
  [10000; 11115; 12355; 13733; 15265; 16967; 18860; 20963; 23301; 25900; 28789; 32000].

Definition KQRate01 : list Z :=
  [65536000; 72843264; 80969728; 90000589; 100040704; 111194931;
   123600896; 137383117; 152705434; 169738240; 188671590; 209715200].

Definition kBitsByteSec : Z := 4369000.
Definition kRecHeaderRate : list Z := [9333; 4666].
Definition kInvBandwidth : list Z := [55539; 25978; 73213; 29284].
Definition kSamplesIn25msec : Z := 400.

Definition MIN_ISAC_BW : Z := 10000.
Definition MAX_ISAC_BW : Z := 32000.
Definition MIN_ISAC_MD : Z := 5.
Definition MAX_ISAC_MD : Z := 25.
Definition DELAY_CORRECTION_MAX : Z := 717.
Definition DELAY_CORRECTION_MED : Z := 819.
Definition HEADER_SIZE : Z := 35.
Definition INIT_FRAME_LEN : Z := 60.
Definition INIT_BN_EST : Z := 20000.
Definition INIT_BN_EST_Q7 : Z := 2560000.
Definition INIT_REC_BN_EST_Q5 : Z := 789312.
Definition INIT_HDR_RATE : Z := 4666.
Definition ISAC_RANGE_ERROR_BW_ESTIMATOR : Z := 6240.
Definition FS_1_HALF : Z := 24000.
Definition FS3 : Z := 48000.
Definition FRAMESAMPLES_10ms : Z := 160.
Definition SAMPLES_PER_MSEC : Z := 16.

Record IsacBandwidthInfo := mkBwInfo {
  in_use : Z;
  send_bw_avg : Z;
  send_max_delay_avg : Z;
  bottleneck_idx : Z;
  jitter_info : Z;
}.

Record BwEstimatorstr := mkBwe {
  prevFrameSizeMs : Z;
  prevRtpNumber : Z;
  prevSendTime : Z;
  prevArrivalTime : Z;
  prevRtpRate : Z;
  lastUpdate : Z;
  lastReduction : Z;
  countUpdates : Z;
  recBw : Z;
  recBwInv : Z;
  recBwAvg : Z;
  recBwAvgQ : Z;
  minBwInv : Z;
  maxBwInv : Z;
  recJitter : Z;
  recJitterShortTerm : Z;
  recJitterShortTermAbs : Z;
  recMaxDelay : Z;
  recMaxDelayAvgQ : Z;
  recHeaderRate : Z;
  sendBwAvg : Z;
  sendMaxDelayAvg : Z;
  countRecPkts : Z;
  highSpeedRec : Z;
  countHighSpeedRec : Z;
  inWaitPeriod : Z;
  startWaitPeriod : Z;
  countHighSpeedSent : Z;
  highSpeedSend : Z;
  external_bw_info : IsacBandwidthInfo;
}.

#[export] Instance eta_BwInfo : Eta IsacBandwidthInfo := fun i =>
  mkBwInfo (in_use i) (send_bw_avg i) (send_max_delay_avg i) (bottleneck_idx i) (jitter_info i).

#[export] Instance eta_Bwe : Eta BwEstimatorstr := fun b =>
  mkBwe (prevFrameSizeMs b) (prevRtpNumber b) (prevSendTime b) (prevArrivalTime b) (prevRtpRate b)
    (lastUpdate b) (lastReduction b) (countUpdates b) (recBw b) (recBwInv b) (recBwAvg b)
    (recBwAvgQ b) (minBwInv b) (maxBwInv b) (recJitter b) (recJitterShortTerm b)
    (recJitterShortTermAbs b) (recMaxDelay b) (recMaxDelayAvgQ b) (recHeaderRate b) (sendBwAvg b)
    (sendMaxDelayAvg b) (countRecPkts b) (highSpeedRec b) (countHighSpeedRec b) (inWaitPeriod b)
    (startWaitPeriod b) (countHighSpeedSent b) (highSpeedSend b) (external_bw_info b).

(** A statement on the estimator. *)
Abbreviation bwe A := (stmt BwEstimatorstr Z A).

(** A signed integer as a condition. *)
Definition truthy (z : Z) : bool := negb (z =? 0).

(** Initialisation. [startWaitPeriod] and the other fields of
    [external_bw_info] keep what the memory held. *)
Definition WebRtcIsacfix_InitBandwidthEstimator (b : BwEstimatorstr) : BwEstimatorstr :=
  b <| prevFrameSizeMs := INIT_FRAME_LEN |>
    <| prevRtpNumber := 0 |>
    <| prevSendTime := 0 |>
    <| prevArrivalTime := 0 |>
    <| prevRtpRate := 1 |>
    <| lastUpdate := 0 |>
    <| lastReduction := 0 |>
    <| countUpdates := -9 |>
    <| recBwInv := 43531 |>
    <| recBw := INIT_BN_EST |>
    <| recBwAvgQ := INIT_BN_EST_Q7 |>
    <| recBwAvg := INIT_REC_BN_EST_Q5 |>
    <| recJitter := 327680 |>
    <| recJitterShortTerm := 0 |>
    <| recJitterShortTermAbs := 40960 |>
    <| recMaxDelay := 10 |>
    <| recMaxDelayAvgQ := 5120 |>
    <| recHeaderRate := INIT_HDR_RATE |>
    <| countRecPkts := 0 |>
    <| sendBwAvg := INIT_BN_EST_Q7 |>
    <| sendMaxDelayAvg := 5120 |>
    <| countHighSpeedRec := 0 |>
    <| highSpeedRec := 0 |>
    <| countHighSpeedSent := 0 |>
    <| highSpeedSend := 0 |>
    <| inWaitPeriod := 0 |>
    <| maxBwInv := kInvBandwidth !!! 3%nat |>
    <| minBwInv := kInvBandwidth !!! 2%nat |>
    <| external_bw_info := (external_bw_info b) <| in_use := 0 |> |>.

Section Bwe.
Context `{SplOps}.

(** ** What the far end reports *)

(** The jitter bit of the index selects the delay that enters the average. *)
Definition update_send_delay (md : Z) : bwe unit :=
  let! b := get in
  let sum := s32 (spl_mul 461 (sendMaxDelayAvg b) + 51 * Z.shiftl md 9) in
  put (b <| sendMaxDelayAvg := Z.shiftr sum 9 |>).

(** The high speed flag is set after 66 reports in a row above 28000 bps. *)
Definition update_high_speed_send : bwe unit :=
  let! b := get in
  if (28000 <? spl_rshift_u32 (sendBwAvg b) 7) && negb (truthy (highSpeedSend b)) then
    let c := s16 (countHighSpeedSent b + 1) in
    let b := b <| countHighSpeedSent := c |> in
    put (if 66 <=? c then b <| highSpeedSend := 1 |> else b)
  else if negb (truthy (highSpeedSend b)) then
    put (b <| countHighSpeedSent := 0 |>)
  else ret tt.

Definition WebRtcIsacfix_UpdateUplinkBwRec {R} (Index : Z) : stmt BwEstimatorstr R Z :=
  fn (
  (if (Index <? 0) || (23 <? Index) then return_ (- ISAC_RANGE_ERROR_BW_ESTIMATOR) else ret tt) ;;
  let! RateInd :=
    (if 11 <? Index
     then update_send_delay MAX_ISAC_MD ;; ret (u16 (Index - 12))
     else update_send_delay MIN_ISAC_MD ;; ret (u16 Index)) in
  let! rate := mem (zget kQRateTable RateInd) in
  modify (fun b => b <| sendBwAvg := u32 (461 * sendBwAvg b + 51 * u32 (Z.shiftl (u32 rate) 7)) |>) ;;
  modify (fun b => b <| sendBwAvg := spl_rshift_u32 (sendBwAvg b) 9 |>) ;;
  update_high_speed_send ;;
  ret 0).

(** ** The estimate on this side *)

(** A change of the frame size changes the header rate and the limits. *)
Definition frame_size_change (frameSize : Z) : bwe unit :=
  let! b := get in
  let change (hdr max min : nat) : bwe unit :=
    if negb (frameSize =? prevFrameSizeMs b) && (0 <? countUpdates b) then
      let! h := mem (kRecHeaderRate !! hdr) in
      let! mx := mem (kInvBandwidth !! max) in
      let! mn := mem (kInvBandwidth !! min) in
      let! q := mem (cdiv 1073741824 (u32 (recBw b + h))) in
      put (b <| countUpdates := 10 |> <| recHeaderRate := h |> <| maxBwInv := mx |>
             <| minBwInv := mn |> <| recBwInv := q |>)
    else ret tt in
  if frameSize =? 60 then change 1%nat 3%nat 2%nat else change 0%nat 1%nat 0%nat.

(** Rate of the packet, headers included; [size_t] has 64 bits. *)
Definition rec_rtp_rate (frameSize pksize : Z) (b : BwEstimatorstr) : Z :=
  let bits := (kBitsByteSec * pksize) mod 2 ^ 64 in
  if frameSize =? 60
  then u16 (s16 (Z.shiftr bits 15) + recHeaderRate b)
  else u16 (u16 (Z.shiftr bits 14) + recHeaderRate b).

(** The arrival clock has wrapped: start the measurement again. *)
Definition timer_wrap (rtpNumber frameSize arrivalTime recRtpRate : Z) (b : BwEstimatorstr)
    : BwEstimatorstr :=
  b <| prevArrivalTime := arrivalTime |>
    <| lastUpdate := arrivalTime |>
    <| lastReduction := u32 (arrivalTime + FS3) |>
    <| countRecPkts := 0 |>
    <| prevFrameSizeMs := frameSize |>
    <| prevRtpRate := recRtpRate |>
    <| prevRtpNumber := rtpNumber |>.

(** The wait period ends after 1.5 seconds. *)
Definition wait_period (arrivalTime : Z) (b : BwEstimatorstr) : BwEstimatorstr :=
  if truthy (inWaitPeriod b) && (FS_1_HALF <? u32 (arrivalTime - startWaitPeriod b))
  then b <| inWaitPeriod := 0 |> else b.

Definition reset_update_time (arrivalTime : Z) (b : BwEstimatorstr) : BwEstimatorstr :=
  b <| lastReduction := u32 (arrivalTime + FS3) |>
    <| lastUpdate := arrivalTime |>
    <| countRecPkts := 0 |>.

(** Reduction of the estimate by 2^(time since the last reduction). *)
Definition apply_reduction (arrivalTime : Z) : bwe unit :=
  let! b := get in
  let msec := s32 (u32 (arrivalTime - lastReduction b)) in
  let msec := if 208000 <? msec then 208000 else msec in
  let exponent := spl_umul 0x4C (u32 msec) in
  let n := spl_rshift_u32 exponent 24 in
  let! shifted :=
    mem (if n <? 32
         then Some (spl_rshift_u32 (Z.lor 0x01000000 (Z.land exponent 0x00FFFFFF)) n)
         else None) in
  let reductionFactor := spl_rshift_u32 shifted 11 in
  (if truthy reductionFactor then
     modify (fun b => b <| recBwInv := u32 (spl_mul (s32 (recBwInv b)) (s32 reductionFactor)) |>) ;;
     modify (fun b => b <| recBwInv := u32 (Z.shiftr (s32 (recBwInv b)) 13) |>)
   else
     let kInitRate := INIT_BN_EST + INIT_HDR_RATE in
     modify (fun b => b <| recBwInv := (1073741824 + kInitRate / 2) / kInitRate |>)) ;;
  modify (fun b => b <| lastReduction := arrivalTime |>).

(** If the estimate was not updated for three seconds although most packets
    arrived, it is reduced. *)
Definition reduce_estimate (frameSizeSampl arrivalTime sendTimeDiff : Z) : bwe unit :=
  let! b := get in
  if sendTimeDiff <=? frameSizeSampl * 2 then
    if FS3 <? u32 (arrivalTime - lastUpdate b) then
      let! q := mem (cdiv (u32 (arrivalTime - lastUpdate b)) (u32 frameSizeSampl)) in
      let numPktsExpected := s32 q in
      if s32 (922 * numPktsExpected) <? s32 (Z.shiftl (countRecPkts b) 10)
      then apply_reduction arrivalTime
      else modify (reset_update_time arrivalTime)
    else ret tt
  else modify (reset_update_time arrivalTime).

(** A packet that is very late starts a wait period and an immediate reduction;
    the result is the correction factor and the flag [immediateSet]. *)
Definition late_packet (frameSizeSampl arrivalTime arrTimeDiff sendTimeDiff : Z)
    : bwe (Z * bool) :=
  let! b := get in
  if negb (truthy (highSpeedSend b) && truthy (highSpeedRec b)) && (frameSizeSampl <? arrTimeDiff)
  then
    let lateDiff :=
      if 0 <? sendTimeDiff then s32 (arrTimeDiff - sendTimeDiff - frameSizeSampl * 2)
      else s32 (arrTimeDiff - frameSizeSampl) in
    let wait := b <| inWaitPeriod := 1 |> <| startWaitPeriod := arrivalTime |> in
    if 8000 <? lateDiff then put wait ;; ret (DELAY_CORRECTION_MAX, true)
    else if 5120 <? lateDiff then put wait ;; ret (DELAY_CORRECTION_MED, true)
    else ret (DELAY_CORRECTION_MED, false)
  else ret (DELAY_CORRECTION_MED, false).

(** Weight of the new measurement, in Q13. *)
Definition update_weight : bwe Z :=
  let! b := get in
  let c := countUpdates b in
  put (b <| countUpdates := s32 (c + 1) |>) ;;
  if 99 <? c then ret 82
  else ret (u16 (spl_div_w32_w16 (8192 + Z.shiftr (s32 (c + 1)) 1) (s16 (s32 (c + 1))))).

(** Inverse rate of the last packet in Q30, before it is limited. *)
Definition packet_bw_inv (arrTimeDiff pksize : Z) : Z :=
  let numBytesInv :=
    u16 (spl_div_w32_w16 (s32 (524288 + Z.shiftr (pksize + HEADER_SIZE) 1))
                         (s16 (pksize + HEADER_SIZE))) in
  let byteSecondsPerBit := u32 (arrTimeDiff * 8389) in
  let tempUpper := spl_rshift_u32 byteSecondsPerBit 15 in
  let tempLower := Z.land byteSecondsPerBit 0x7FFF in
  let tempUpper := u32 (spl_mul tempUpper numBytesInv) in
  let tempLower := spl_rshift_u32 (u32 (spl_mul tempLower numBytesInv)) 15 in
  spl_rshift_u32 (u32 (tempUpper + tempLower)) 4.

(** Projected arrival time difference, in Q10. *)
Definition arr_time_proj (recBwAvgInv pksize : Z) : Z :=
  let arrTimeProj := u32 (spl_mul 8000 recBwAvgInv) in
  let arrTimeProj := spl_rshift_u32 arrTimeProj 4 in
  let arrTimeProj := u32 (spl_mul (s32 (s32 pksize + HEADER_SIZE)) arrTimeProj) in
  spl_rshift_u32 arrTimeProj 12.

(** The three jitter averages. *)
Definition update_jitter (weight arrTimeNoise sign : Z) (b : BwEstimatorstr) : BwEstimatorstr :=
  let weight := Z.shiftr weight 3 in
  let jitter :=
    Z.shiftr (s32 (weight * s32 (Z.shiftl arrTimeNoise 5) + (1024 - weight) * recJitter b)) 10 in
  let jitter := if 327680 <? jitter then 327680 else jitter in
  let abs :=
    Z.shiftr (s32 (51 * s32 (Z.shiftl arrTimeNoise 3) + spl_mul 973 (recJitterShortTermAbs b))) 10 in
  let short :=
    s32 (205 * s32 (Z.shiftl arrTimeNoise 3) * sign + spl_mul 3891 (recJitterShortTerm b)) in
  let short := if short <? 0 then - Z.shiftr (s32 (- short)) 12 else Z.shiftr short 12 in
  b <| recJitter := jitter |> <| recJitterShortTermAbs := abs |> <| recJitterShortTerm := short |>.

Definition limit_arr_time_diff (frameSizeSampl arrTimeDiff : Z) : Z :=
  let arrTimeDiff :=
    if frameSizeSampl + kSamplesIn25msec <? arrTimeDiff
    then frameSizeSampl + kSamplesIn25msec else arrTimeDiff in
  if arrTimeDiff <? frameSizeSampl - FRAMESAMPLES_10ms
  then frameSizeSampl - FRAMESAMPLES_10ms else arrTimeDiff.

(** Bottle neck and jitter estimation from one packet. *)
Definition update_estimate (frameSizeSampl arrivalTime arrTimeDiff pksize : Z) : bwe unit :=
  let! weight := update_weight in
  let arrTimeDiff := limit_arr_time_diff frameSizeSampl arrTimeDiff in
  let! b := get in
  let currBwInv := packet_bw_inv arrTimeDiff pksize in
  let currBwInv :=
    if currBwInv <? maxBwInv b then maxBwInv b
    else if minBwInv b <? currBwInv then minBwInv b else currBwInv in
  modify (fun b => b <| recBwInv := u32 (spl_umul weight currBwInv
                                         + spl_umul (u32 (8192 - weight)) (recBwInv b)) |>) ;;
  modify (fun b => b <| recBwInv := spl_rshift_u32 (recBwInv b) 13 |>) ;;
  modify (reset_update_time arrivalTime) ;;
  let! b := get in
  let! inv := mem (cdiv (u32 (0x80000000 + recBwAvg b / 2)) (recBwAvg b)) in
  let recBwAvgInv := s32 inv in
  let arrTimeProj := arr_time_proj recBwAvgInv pksize in
  let diffQ := s32 (Z.shiftl arrTimeDiff 6) in
  if s32 arrTimeProj <? diffQ
  then modify (update_jitter weight (s32 (u32 (diffQ - arrTimeProj))) 1)
  else modify (update_jitter weight (s32 (u32 (arrTimeProj - diffQ))) (-1)).

(** The packet that follows the previous one: lateness, then the update of the
    estimates; the result is that of [late_packet]. *)
Definition consecutive_packet
    (frameSizeSampl arrivalTime pksize recRtpRate sendTimeDiff : Z) : bwe (Z * bool) :=
  let! b := get in
  let arrTimeDiff := s32 (u32 (arrivalTime - prevArrivalTime b)) in
  let! late := late_packet frameSizeSampl arrivalTime arrTimeDiff sendTimeDiff in
  let! b := get in
  (if (Z.shiftr (s32 (recBwAvg b)) 5 <? prevRtpRate b)
      && (Z.shiftr (s32 (recBwAvg b)) 5 <? recRtpRate)
      && negb (truthy (inWaitPeriod b))
   then update_estimate frameSizeSampl arrivalTime arrTimeDiff pksize
   else ret tt) ;;
  ret late.

(** What is done once the first packets have been received. *)
Definition measure (rtpNumber frameSizeSampl sendTime arrivalTime pksize recRtpRate : Z)
    : bwe (Z * bool) :=
  modify (wait_period arrivalTime) ;;
  let! b := get in
  let sendTimeDiff := s32 (u32 (sendTime - prevSendTime b)) in
  reduce_estimate frameSizeSampl arrivalTime sendTimeDiff ;;
  let! b := get in
  if rtpNumber =? prevRtpNumber b + 1
  then consecutive_packet frameSizeSampl arrivalTime pksize recRtpRate sendTimeDiff
  else ret (DELAY_CORRECTION_MED, false).

(** The inverse rate is kept between the inverses of the largest and of the
    smallest rate. *)
Definition limit_bw_inv (b : BwEstimatorstr) : BwEstimatorstr :=
  if minBwInv b <? recBwInv b then b <| recBwInv := minBwInv b |>
  else if recBwInv b <? maxBwInv b then b <| recBwInv := maxBwInv b |> else b.

(** Fields stored for the next packet. *)
Definition store_packet (rtpNumber frameSize sendTime arrivalTime recRtpRate : Z)
    (b : BwEstimatorstr) : BwEstimatorstr :=
  let b := b <| prevFrameSizeMs := frameSize |> <| prevRtpRate := recRtpRate |>
             <| prevRtpNumber := rtpNumber |> in
  let b :=
    if negb (prevArrivalTime b =? 0xffffffff)
    then b <| recMaxDelay := s32 (spl_mul 3 (recJitter b)) |> else b in
  b <| prevArrivalTime := arrivalTime |> <| prevSendTime := sendTime |>.

(** The rate of the estimate, corrected at once for a very late packet. *)
Definition new_rate (delayCorrFactor : Z) (immediateSet : bool) : bwe unit :=
  let! b := get in
  let! q := mem (cdiv 1073741824 (recBwInv b)) in
  put (b <| recBw := u32 (q - recHeaderRate b) |>) ;;
  if immediateSet then
    modify (fun b => b <| recBw := spl_umul delayCorrFactor (recBw b) |>) ;;
    modify (fun b => b <| recBw := spl_rshift_u32 (recBw b) 10 |>) ;;
    modify (fun b => if recBw b <? MIN_ISAC_BW then b <| recBw := MIN_ISAC_BW |> else b) ;;
    let! b := get in
    let! q := mem (cdiv 1073741824 (u32 (recBw b + recHeaderRate b))) in
    put (b <| recBwAvg := u32 (Z.shiftl (u32 (recBw b + recHeaderRate b)) 5) |>
           <| recBwAvgQ := u32 (Z.shiftl (recBw b) 7) |>
           <| recJitterShortTerm := 0 |>
           <| recBwInv := q |>)
  else ret tt.

(** A packet that did not arrive before the previous one. *)
Definition process_packet (rtpNumber frameSize sendTime arrivalTime pksize recRtpRate : Z) : bwe Z :=
  modify (fun b => b <| countRecPkts := s16 (countRecPkts b + 1) |>) ;;
  let frameSizeSampl := SAMPLES_PER_MSEC * frameSize in
  let! b := get in
  let! late :=
    (if 0 <? countUpdates b
     then measure rtpNumber frameSizeSampl sendTime arrivalTime pksize recRtpRate
     else
       modify (reset_update_time arrivalTime) ;;
       modify (fun b => b <| countUpdates := s32 (countUpdates b + 1) |>) ;;
       ret (DELAY_CORRECTION_MED, false)) in
  modify limit_bw_inv ;;
  modify (store_packet rtpNumber frameSize sendTime arrivalTime recRtpRate) ;;
  new_rate late.1 late.2 ;;
  ret 0.

Definition WebRtcIsacfix_UpdateUplinkBwImpl {R}
    (rtpNumber frameSize sendTime arrivalTime pksize Index : Z) : stmt BwEstimatorstr R Z :=
  fn (
  let! errCode := WebRtcIsacfix_UpdateUplinkBwRec (s16 Index) in
  (if errCode <? 0 then return_ errCode else ret tt) ;;
  frame_size_change frameSize ;;
  let! b := get in
  let recRtpRate := rec_rtp_rate frameSize pksize b in
  (if arrivalTime <? prevArrivalTime b
   then put (timer_wrap rtpNumber frameSize arrivalTime recRtpRate b) ;; return_ 0
   else ret tt) ;;
  process_packet rtpNumber frameSize sendTime arrivalTime pksize recRtpRate).

(** ** The index for the far end *)

(** The rate from the far end to here, adjusted by the sign of the jitter. *)
Definition WebRtcIsacfix_GetDownlinkBandwidth (b : BwEstimatorstr) : option Z :=
  match cdiv 0x80000000 (u32 (recJitterShortTermAbs b)) with
  | None => None
  | Some q =>
      let rec_jitter_short_term_abs_inv := s32 q in
      let jitter_sign :=
        s32 (Z.shiftr (recJitterShortTerm b) 4 * rec_jitter_short_term_abs_inv) in
      let jitter_sign :=
        if jitter_sign <? 0 then - Z.shiftr (s32 (- jitter_sign)) 19
        else Z.shiftr jitter_sign 19 in
      let temp := 9830 + Z.shiftr (s32 (38 * jitter_sign * jitter_sign)) 8 in
      let bw_adjust :=
        if jitter_sign <? 0 then
          let temp := Z.shiftr (s32 (- spl_mul jitter_sign temp)) 8 in
          s32 (u32 (65536 + temp))
        else s32 (65536 - Z.shiftr (s32 (jitter_sign * temp)) 8) in
      let bw_adjust := Z.shiftr bw_adjust 2 in
      let rate := u32 (spl_umul (recBw b) (u32 bw_adjust)) in
      let rate := Z.shiftr rate 14 in
      let rate :=
        if rate <? MIN_ISAC_BW then MIN_ISAC_BW
        else if MAX_ISAC_BW <? rate then MAX_ISAC_BW else rate in
      Some (u16 rate)
  end.

Definition WebRtcIsacfix_GetDownlinkMaxDelay (b : BwEstimatorstr) : Z :=
  let d := s16 (Z.shiftr (recMaxDelay b) 15) in
  if d <? MIN_ISAC_MD then MIN_ISAC_MD else if MAX_ISAC_MD <? d then MAX_ISAC_MD else d.

(** The first of the entries 1 to 10 of the table that reaches the rate, or
    11. *)
Fixpoint rate_loop {S R} (fuel : nat) (rate rateInd : Z) : stmt S R Z :=
  match fuel with
  | O => fun _ => Spin
  | Datatypes.S fuel =>
      if rateInd <? 11 then
        let! q := mem (zget kQRateTable rateInd) in
        if rate <=? q then ret rateInd else rate_loop fuel rate (u16 (rateInd + 1))
      else ret rateInd
  end.

(** The entry or its predecessor, and the update of the quantised average. *)
Definition quantise_rate (rate rateInd : Z) : bwe Z :=
  let! b := get in
  let tempTerm1 := Z.shiftr (s32 (spl_mul (recBwAvgQ b) 25)) 7 in
  let tempTermX := s32 (u32 (spl_umul 461 (recBwAvgQ b) - tempTerm1)) in
  let tempTermY := s32 (Z.shiftl rate 16) in
  let! q := mem (zget KQRate01 rateInd) in
  let! q' := mem (zget KQRate01 (rateInd - 1)) in
  let tempTerm1 := s32 (tempTermX + q - tempTermY) in
  let tempTerm2 := s32 (tempTermY - tempTermX - q') in
  let rateInd := if tempTerm2 <? tempTerm1 then u16 (rateInd - 1) else rateInd in
  let! q := mem (zget KQRate01 rateInd) in
  let tempTermX := s32 (tempTermX + q) in
  put (b <| recBwAvgQ := u32 (Z.shiftr tempTermX 9) |>) ;;
  ret rateInd.

(** The high speed flag is set after 66 averages in a row above 28000 bps. *)
Definition update_high_speed_rec : bwe unit :=
  let! b := get in
  if (3584000 <? recBwAvgQ b) && negb (truthy (highSpeedRec b)) then
    let c := s16 (countHighSpeedRec b + 1) in
    let b := b <| countHighSpeedRec := c |> in
    put (if 66 <=? c then b <| highSpeedRec := 1 |> else b)
  else if negb (truthy (highSpeedRec b)) then put (b <| countHighSpeedRec := 0 |>)
  else ret tt.

(** The delay bit, 0 or 12, and the update of its average. *)
Definition quantise_delay (maxDelay : Z) : bwe Z :=
  let! b := get in
  let tempMax := 652800 in
  let tempMin := 130560 in
  let tempTermX := s32 (spl_mul (recMaxDelayAvgQ b) 461) in
  let tempTermY := s32 (Z.shiftl maxDelay 18) in
  let tempTerm1 := s32 (tempTermX + tempMax - tempTermY) in
  let tempTerm2 := s32 (tempTermY - tempTermX - tempMin) in
  if tempTerm2 <? tempTerm1
  then put (b <| recMaxDelayAvgQ := Z.shiftr (s32 (tempTermX + tempMin)) 9 |>) ;; ret 0
  else put (b <| recMaxDelayAvgQ := Z.shiftr (s32 (tempTermX + tempMax)) 9 |>) ;; ret 12.

Definition WebRtcIsacfix_GetDownlinkBwIndexImpl {R} : stmt BwEstimatorstr R Z :=
  fn (
  let! b := get in
  (if truthy (in_use (external_bw_info b))
   then return_ (u16 (bottleneck_idx (external_bw_info b))) else ret tt) ;;
  let! rate := mem (WebRtcIsacfix_GetDownlinkBandwidth b) in
  modify (fun b => b <| recBwAvg := u32 (922 * recBwAvg b
                          + 102 * u32 (Z.shiftl (u32 (rate + recHeaderRate b)) 5)) |>) ;;
  modify (fun b => b <| recBwAvg := spl_rshift_u32 (recBwAvg b) 10 |>) ;;
  let! rateInd := rate_loop 11 rate 1 in
  let! rateInd := quantise_rate rate rateInd in
  update_high_speed_rec ;;
  let! b := get in
  let maxDelay := WebRtcIsacfix_GetDownlinkMaxDelay b in
  let! maxDelayBit := quantise_delay maxDelay in
  ret (u16 (rateInd + maxDelayBit))).

(** ** What the encoder reads *)

Definition clamp (val min max : Z) : Z :=
  if val <? min then min else if max <? val then max else val.

Definition WebRtcIsacfix_GetUplinkBandwidth (b : BwEstimatorstr) : Z :=
  if truthy (in_use (external_bw_info b)) then s16 (send_bw_avg (external_bw_info b))
  else clamp (s16 (Z.shiftr (sendBwAvg b) 7)) MIN_ISAC_BW MAX_ISAC_BW.

Definition WebRtcIsacfix_GetUplinkMaxDelay (b : BwEstimatorstr) : Z :=
  if truthy (in_use (external_bw_info b)) then s16 (send_max_delay_avg (external_bw_info b))
  else clamp (s16 (Z.shiftr (sendMaxDelayAvg b) 9)) MIN_ISAC_MD MAX_ISAC_MD.

Definition WebRtcIsacfixBw_GetBandwidthInfo {R} (bwinfo : IsacBandwidthInfo)
    : stmt BwEstimatorstr R IsacBandwidthInfo :=
  let! b := get in
  let bwinfo := bwinfo <| in_use := 1 |> in
  let bwinfo := bwinfo <| send_bw_avg := WebRtcIsacfix_GetUplinkBandwidth b |> in
  let bwinfo := bwinfo <| send_max_delay_avg := WebRtcIsacfix_GetUplinkMaxDelay b |> in
  let! idx := WebRtcIsacfix_GetDownlinkBwIndexImpl in
  let bwinfo := bwinfo <| bottleneck_idx := s16 idx |> in
  ret (bwinfo <| jitter_info := 0 |>).

Definition WebRtcIsacfixBw_SetBandwidthInfo (bwinfo : IsacBandwidthInfo) (b : BwEstimatorstr)
    : BwEstimatorstr :=
  b <| external_bw_info := bwinfo |>.

End Bwe.


(** ** Invariant

    [bwe_core lo pa t hi sb sd rd b]: the estimator [b] is sound at time [t], was
    updated at [lo] or later and has [pa] as its previous arrival time, its inverse rate is at most [hi], and the averages that the far end and the
    index depend on are [sb], [sd] and [rd]. *)

Record bwe_core (lo pa t hi sb sd rd : Z) (b : BwEstimatorstr) : Prop := {
  core_mode : (recHeaderRate b = 4666 /\ maxBwInv b = 29284 /\ minBwInv b = 73213)
              \/ (recHeaderRate b = 9333 /\ maxBwInv b = 25978 /\ minBwInv b = 55539);
  core_bw : 9999 <= recBw b <= 32000;
  core_inv : 25977 <= recBwInv b <= hi;
  core_avg : 469312 <= recBwAvg b <= 1322656;
  core_avgQ : 1280000 <= recBwAvgQ b <= 4096400;
  core_jitter : recJitter b <= 327680;
  core_abs : is_s32 (recJitterShortTermAbs b);
  core_count : is_s32 (countUpdates b);
  core_rec : highSpeedRec b = 0 /\ 0 <= countHighSpeedRec b < 66
             \/ highSpeedRec b = 1 /\ countHighSpeedRec b = 66;
  core_send : highSpeedSend b = 0 /\ 0 <= countHighSpeedSent b < 66
              \/ highSpeedSend b = 1 /\ countHighSpeedSent b = 66;
  core_arrival : prevArrivalTime b = pa;
  core_update : 0 <= lo <= lastUpdate b /\ lastUpdate b <= t;
  core_reduction : 0 < countUpdates b ->
    lastReduction b = u32 (lastUpdate b + FS3) \/ lastUpdate b + FS3 < lastReduction b <= t;
  core_external : in_use (external_bw_info b) = 0;
  core_sb : sendBwAvg b = sb;
  core_sd : sendMaxDelayAvg b = sd;
  core_rd : recMaxDelayAvgQ b = rd;
}.

(** Largest inverse rate between two packets. *)
Definition INV_MAX : Z := 73217.

Record bwe_inv (b : BwEstimatorstr) : Prop := {
  inv_core : bwe_core (lastUpdate b) (prevArrivalTime b) (prevArrivalTime b) INV_MAX
               (sendBwAvg b) (sendMaxDelayAvg b) (recMaxDelayAvgQ b) b;
  inv_time : is_u32 (prevArrivalTime b);
  inv_sendBw : 1280000 <= sendBwAvg b <= 4096000;
  inv_sendDelay : 2560 <= sendMaxDelayAvg b <= 12800;
  inv_recDelay : 2560 <= recMaxDelayAvgQ b <= 12800;
}.

(** The arguments [EstimateBandwidth] passes, for a packet that arrives less
    than 2^31 samples (37 hours) after the last update. *)
Record packet := mkPacket {
  pk_rtp : Z;
  pk_frame : Z;
  pk_send : Z;
  pk_arrival : Z;
  pk_size : Z;
  pk_index : Z;
}.

Definition packet_ok (p : packet) (b : BwEstimatorstr) : Prop :=
  (pk_frame p = 30 \/ pk_frame p = 60)
  /\ is_u32 (pk_arrival p) /\ pk_arrival p - lastUpdate b < 2 ^ 31
  /\ 1 <= pk_size p <= 600 /\ is_u16 (pk_index p).

Definition receive `{SplOps} {R} (p : packet) : stmt BwEstimatorstr R Z :=
  WebRtcIsacfix_UpdateUplinkBwImpl (pk_rtp p) (pk_frame p) (pk_send p) (pk_arrival p)
    (pk_size p) (pk_index p).

(** States of an estimator that receives packets and computes indices. *)
Inductive bwe_reachable `{SplOps} : BwEstimatorstr -> Prop :=
| reach_init b : bwe_reachable (WebRtcIsacfix_InitBandwidthEstimator b)
| reach_packet b p r b' :
    bwe_reachable b -> packet_ok p b -> receive (R:=Z) p b = Next r b' -> bwe_reachable b'
| reach_index b i b' :
    bwe_reachable b -> WebRtcIsacfix_GetDownlinkBwIndexImpl (R:=Z) b = Next i b' ->
    bwe_reachable b'.

(** ** Proofs *)

(** Fields of an updated structure. *)
Ltac fields := cbn [set prevFrameSizeMs prevRtpNumber prevSendTime prevArrivalTime
  prevRtpRate lastUpdate lastReduction countUpdates recBw recBwInv recBwAvg recBwAvgQ minBwInv
  maxBwInv recJitter recJitterShortTerm recJitterShortTermAbs recMaxDelay recMaxDelayAvgQ
  recHeaderRate sendBwAvg sendMaxDelayAvg countRecPkts highSpeedRec countHighSpeedRec inWaitPeriod
  startWaitPeriod countHighSpeedSent highSpeedSend external_bw_info in_use send_bw_avg
  send_max_delay_avg bottleneck_idx jitter_info] in *.

(** Arithmetic on the constants of the estimator. *)
Ltac consts := unfold INV_MAX, MIN_ISAC_BW, MAX_ISAC_BW, MIN_ISAC_MD, MAX_ISAC_MD,
  DELAY_CORRECTION_MAX, DELAY_CORRECTION_MED, HEADER_SIZE, INIT_BN_EST, INIT_BN_EST_Q7,
  INIT_REC_BN_EST_Q5, INIT_HDR_RATE, FS3, SAMPLES_PER_MSEC, kSamplesIn25msec,
  FRAMESAMPLES_10ms in *.

Ltac klia := consts; clia.

(** The invariant of an updated structure from that of the original. *)
Ltac core := split; fields; try assumption; try (exact eq_refl).

Lemma init_inv b : bwe_inv (WebRtcIsacfix_InitBandwidthEstimator b).
Proof.
  unfold WebRtcIsacfix_InitBandwidthEstimator. split; [core|..]; fields; cbn; klia.
Qed.

Lemma core_later lo pa t t' hi sb sd rd b :
  bwe_core lo pa t hi sb sd rd b -> t <= t' -> bwe_core lo pa t' hi sb sd rd b.
Proof.
  intros [] Ht. split; try assumption; [lia|]. intros Hc.
  destruct (core_reduction0 Hc) as [?|?]; [by left|right; lia].
Qed.

Lemma core_wider lo pa t hi hi' sb sd rd b :
  bwe_core lo pa t hi sb sd rd b -> hi <= hi' -> bwe_core lo pa t hi' sb sd rd b.
Proof. intros [] Ht. split; try assumption. lia. Qed.

Section Proofs.
Context `{SplLaws} (lo pa : Z).

Lemma rshift_u32 a n : is_u32 a -> 0 <= n < 32 -> spl_rshift_u32 a n = a / 2 ^ n.
Proof. apply spl_rshift_u32_spec. Qed.

(** *** Reports of the far end *)

Definition delay_of (i : Z) : Z := if 11 <? i then 25 else 5.
Definition rate_of (i : Z) : Z := kQRateTable !!! Z.to_nat (if 11 <? i then i - 12 else i).

Lemma rate_of_range i : 0 <= i <= 23 ->
  zget kQRateTable (u16 (if 11 <? i then i - 12 else i)) = Some (rate_of i)
  /\ 10000 <= rate_of i <= 32000.
Proof.
  intros Hi. assert (i = 0 \/ i = 1 \/ i = 2 \/ i = 3 \/ i = 4 \/ i = 5 \/ i = 6 \/ i = 7 \/ i = 8
    \/ i = 9 \/ i = 10 \/ i = 11 \/ i = 12 \/ i = 13 \/ i = 14 \/ i = 15 \/ i = 16 \/ i = 17
    \/ i = 18 \/ i = 19 \/ i = 20 \/ i = 21 \/ i = 22 \/ i = 23) as Hc by lia.
  repeat destruct Hc as [->|Hc]; [..|subst i]; (split; [vm_compute; reflexivity|vm_compute; split; discriminate]).
Qed.

Lemma update_high_speed_send_ok t hi sb sd rd :
  total (bwe_core lo pa t hi sb sd rd) update_high_speed_send (fun _ => bwe_core lo pa t hi sb sd rd).
Proof.
  apply total_get. intros b I. bcase.
  - apply andb_true_iff in E as [_ E]. apply negb_true_iff, negb_false_iff, Z.eqb_eq in E.
    apply total_put. intros _ _. destruct I as []. destruct core_send0; [|lia].
    rewrite s16_id by clia. bcase; core; lia.
  - clear E. bcase; [|apply total_ret; intros s ->; done].
    apply negb_true_iff, negb_false_iff, Z.eqb_eq in E.
    apply total_put. intros _ _. destruct I as []. core; lia.
Qed.

Lemma update_send_delay_ok t hi sb sd rd md :
  md = 5 \/ md = 25 -> 2560 <= sd <= 12800 ->
  total (bwe_core lo pa t hi sb sd rd) (update_send_delay md)
    (fun _ => bwe_core lo pa t hi sb ((461 * sd + 51 * (512 * md)) / 512) rd).
Proof.
  intros Hmd Hsd. apply total_get. intros b I. apply total_put. intros _ _.
  destruct I as []. core. rewrite core_sd0, spl_mul_spec by clia.
  rewrite shiftl_mul, s32_id, shiftr_div by (first [clia | destruct Hmd; subst md; clia]).
  f_equal. lia.
Qed.

Lemma UpdateUplinkBwRec_ok {R} t hi sb sd rd i :
  0 <= i <= 23 -> 1280000 <= sb <= 4096000 -> 2560 <= sd <= 12800 ->
  total (R:=R) (bwe_core lo pa t hi sb sd rd) (WebRtcIsacfix_UpdateUplinkBwRec i)
    (fun r b => r = 0 /\ bwe_core lo pa t hi ((461 * sb + 6528 * rate_of i) / 512)
                          ((461 * sd + 51 * (512 * delay_of i)) / 512) rd b).
Proof.
  intros Hi Hsb Hsd. destruct (rate_of_range i Hi) as [Hr Hrange].
  apply total_fn. rewrite (proj2 (Z.ltb_ge i 0)), (proj2 (Z.ltb_ge 23 i)) by lia. cbn [orb].
  apply total_skip.
  eapply (total_bind _ (fun k b => k = u16 (if 11 <? i then i - 12 else i) /\ bwe_core lo pa t hi sb
    ((461 * sd + 51 * (512 * delay_of i)) / 512) rd b)).
  { unfold delay_of. destruct (11 <? i).
    all: eapply total_bind; [apply update_send_delay_ok; klia|].
    all: intros ?; apply total_ret; intros s I; split; [reflexivity|exact I]. }
  intros k. apply total_pure. intros Ek. rewrite Ek. eapply total_mem; [exact Hr|].
  apply (total_assign _ (bwe_core lo pa t hi (461 * sb + 6528 * rate_of i)
    ((461 * sd + 51 * (512 * delay_of i)) / 512) rd)).
  { intros b []. core. rewrite core_sb0, shiftl_mul, (u32_id (rate_of i)) by clia.
    change (2 ^ 7) with 128. rewrite (u32_id (rate_of i * 128)), u32_id; clia. }
  apply (total_assign _ (bwe_core lo pa t hi ((461 * sb + 6528 * rate_of i) / 512)
    ((461 * sd + 51 * (512 * delay_of i)) / 512) rd)).
  { intros b []. core. rewrite core_sb0. apply spl_rshift_u32_spec; clia. }
  eapply total_bind; [apply update_high_speed_send_ok|].
  intros ?. apply total_ret. intros b I. split; [reflexivity|exact I].
Qed.

(** *** Measurement *)

Lemma frame_size_change_ok t sb sd rd frameSize :
  total (bwe_core lo pa t INV_MAX sb sd rd) (frame_size_change frameSize)
    (fun _ => bwe_core lo pa t INV_MAX sb sd rd).
Proof.
  apply total_get. intros b I.
  assert (forall h mx mn : Z, 0 < countUpdates b ->
    (h = 4666 /\ mx = 29284 /\ mn = 73213) \/ (h = 9333 /\ mx = 25978 /\ mn = 55539) ->
    cdiv 1073741824 (u32 (recBw b + h)) = Some (1073741824 / (recBw b + h))
    /\ bwe_core lo pa t INV_MAX sb sd rd (b <| countUpdates := 10 |> <| recHeaderRate := h |>
         <| maxBwInv := mx |> <| minBwInv := mn |> <| recBwInv := 1073741824 / (recBw b + h) |>)) as Hch.
  { intros h mx mn Hc Hm. pose proof (core_bw _ _ _ _ _ _ _ _ I) as Hbw.
    rewrite u32_id, cdiv_pos by clia. split; [reflexivity|].
    destruct I as []. core; [consts; Z.div_mod_to_equations; nia|clia|].
    intros _. by apply core_reduction0. }
  destruct (frameSize =? 60).
  all: match goal with |- context [if ?c then _ else _] => destruct c eqn:E end;
    [|apply total_ret; intros s ->; done].
  all: apply andb_true_iff in E as [_ E]; apply Z.ltb_lt in E.
  all: do 3 (eapply total_mem; [reflexivity|]).
  - destruct (Hch 4666 29284 73213 E) as [Hq Hb]; [lia|].
    eapply total_mem; [exact Hq|]. apply total_put. intros _ _. exact Hb.
  - destruct (Hch 9333 25978 55539 E) as [Hq Hb]; [lia|].
    eapply total_mem; [exact Hq|]. apply total_put. intros _ _. exact Hb.
Qed.

Lemma reset_update_time_ok t hi sb sd rd b :
  bwe_core lo pa t hi sb sd rd b -> bwe_core lo pa t hi sb sd rd (reset_update_time t b).
Proof. intros []. unfold reset_update_time. core; [lia|by left]. Qed.

(** The inverse rate grows by the reduction factor. *)
Lemma reduced_inv inv rf :
  25977 <= inv <= INV_MAX -> 8192 <= rf <= 15910 ->
  25977 <= u32 (Z.shiftr (s32 (u32 (spl_mul (s32 inv) (s32 rf)))) 13) <= 150000.
Proof.
  intros Hi Hr. unfold INV_MAX in *. rewrite (s32_id inv), (s32_id rf) by clia.
  assert (25977 * 8192 <= inv * rf <= 73217 * 15910) by nia.
  rewrite spl_mul_spec, (u32_id (inv * rf)), s32_id, shiftr_div by clia.
  change (2 ^ 13) with 8192.
  assert (25977 <= inv * rf / 8192 <= 150000) by (Z.div_mod_to_equations; lia).
  rewrite u32_id; clia.
Qed.

(** Between two reductions the inverse rate at most doubles. *)
Lemma apply_reduction_ok t sb sd rd b0 :
  is_u32 t -> 0 < countUpdates b0 -> FS3 < t - lastUpdate b0 < 2 ^ 31 ->
  bwe_core lo pa t INV_MAX sb sd rd b0 ->
  total (fun b => b = b0) (apply_reduction t)
    (fun _ b => bwe_core lo pa t 150000 sb sd rd b /\ countUpdates b = countUpdates b0).
Proof.
  intros Ht Hc Hlate I. apply total_get. intros b ->.
  assert (0 <= t - lastReduction b0 < 2 ^ 31) as Hred.
  { destruct I as []. destruct (core_reduction0 Hc) as [->|?]; [|klia].
    rewrite u32_id; klia. }
  rewrite (u32_id (t - lastReduction b0)), (s32_id (t - lastReduction b0)) by clia.
  cbv zeta. set (msec := if 208000 <? t - lastReduction b0 then 208000 else t - lastReduction b0).
  assert (0 <= msec <= 208000) as Hm by (unfold msec; bcase; lia).
  rewrite spl_umul_spec, (u32_id msec) by (auto with cint; clia).
  rewrite (u32_id (0x4C * msec)), rshift_u32 by clia.
  rewrite (Z.div_small (0x4C * msec)) by clia. cbn [Z.ltb Z.compare].
  change 0x00FFFFFF with (Z.ones 24). rewrite Z.land_ones, Z.mod_small by clia.
  rewrite (lor_disjoint _ _ 24) by first [reflexivity|clia].
  eapply total_mem; [reflexivity|]. rewrite (rshift_u32 _ 0) by clia.
  change (2 ^ 0) with 1. rewrite Z.div_1_r, rshift_u32 by clia. change (2 ^ 11) with 2048.
  set (rf := _ / 2048).
  assert (8192 <= rf <= 15910) as Hrf by (unfold rf; Z.div_mod_to_equations; lia).
  unfold truthy. rewrite (proj2 (Z.eqb_neq rf 0)) by lia. cbn [negb].
  intros b ->. exists tt. eexists. split; [reflexivity|]. split; [|reflexivity].
  destruct I as []. core; [by apply reduced_inv|intros _; right; klia].
Qed.

Definition frame_samples (f : Z) : Prop := f = 480 \/ f = 960.

(** The estimator while a packet that arrived at [t] is measured. *)
Definition measuring (t hi sb sd rd : Z) (b : BwEstimatorstr) : Prop :=
  bwe_core lo pa t hi sb sd rd b /\ 0 < countUpdates b.

Lemma reduce_estimate_ok t sb sd rd f d :
  is_u32 t -> frame_samples f ->
  total (fun b => measuring t INV_MAX sb sd rd b /\ t - lastUpdate b < 2 ^ 31)
    (reduce_estimate f t d) (fun _ => measuring t 150000 sb sd rd).
Proof.
  intros Ht Hf. apply total_get. intros b [[I Hc] Hlate].
  assert (measuring t 150000 sb sd rd (reset_update_time t b)) as Hreset.
  { split; [|exact Hc]. apply reset_update_time_ok.
    eapply core_wider; [exact I|]. by vm_compute. }
  bcase; [|apply total_modify; intros s ->; exact Hreset].
  pose proof (core_update _ _ _ _ _ _ _ _ I) as Hu. rewrite (u32_id (t - lastUpdate b)) by clia.
  bcase; [|apply total_ret; intros s ->; split; [|exact Hc]; eapply core_wider; [exact I|]; by vm_compute].
  rewrite u32_id, cdiv_pos by (destruct Hf; subst f; clia).
  eapply total_mem; [reflexivity|]. cbv zeta. bcase.
  - eapply total_weaken; [apply (apply_reduction_ok t sb sd rd b); clia || done|done|].
    intros a s [I' E']. split; [exact I'|]. lia.
  - apply total_modify. intros s ->. exact Hreset.
Qed.

Lemma late_packet_ok t sb sd rd f a d :
  total (measuring t 150000 sb sd rd) (late_packet f t a d)
    (fun r b => 0 <= r.1 <= 1024 /\ measuring t 150000 sb sd rd b).
Proof.
  apply total_get. intros b [I Hc]. destruct I as [].
  bcase; [cbv zeta; destruct (8000 <? _); [|bcase]|].
  all: try (eapply (total_bind _ (fun _ => measuring t 150000 sb sd rd));
    [apply total_put; intros _ _; split; [core|exact Hc]|intros ?]).
  all: apply total_ret; intros s Hs.
  all: split; [by vm_compute|].
  1,2: exact Hs.
  all: subst s; split; [by split|exact Hc].
Qed.

Lemma wait_period_ok t hi sb sd rd b :
  bwe_core lo pa t hi sb sd rd b -> bwe_core lo pa t hi sb sd rd (wait_period t b)
  /\ countUpdates (wait_period t b) = countUpdates b
  /\ lastUpdate (wait_period t b) = lastUpdate b.
Proof.
  intros I. unfold wait_period. bcase; [|done]. split; [|split; reflexivity].
  destruct I as []. core.
Qed.

Lemma update_weight_ok t hi sb sd rd :
  total (measuring t hi sb sd rd) update_weight
    (fun w b => 0 <= w <= 4096 /\ bwe_core lo pa t hi sb sd rd b).
Proof.
  apply total_get. intros b [I Hc].
  apply (total_bind _ (fun _ => bwe_core lo pa t hi sb sd rd)).
  { apply total_put. intros _ _. destruct I as []. core; [apply s32_range|]. intros _.
    by apply core_reduction0. }
  intros ?. bcase; apply total_ret; intros s I'; (split; [|exact I']); [lia|].
  rewrite (s32_id (countUpdates b + 1)), (s16_id (countUpdates b + 1)), shiftr_div by clia.
  assert (2 <= countUpdates b + 1 <= 100) as Hcount by lia.
  set (c := countUpdates b + 1) in *. change (2 ^ 1) with 2.
  rewrite spl_div_w32_w16_spec by dmlia. rewrite Z.quot_div_nonneg by dmlia.
  assert (0 <= (8192 + c / 2) / c <= 4096).
  { split; [apply Z.div_pos; dmlia|]. apply Zlt_succ_le, Z.div_lt_upper_bound; [lia|]. dmlia. }
  rewrite u16_id; clia.
Qed.

(** The limits keep the measured inverse rate in the range of the estimate. *)
Lemma limit_curr t hi sb sd rd b x :
  bwe_core lo pa t hi sb sd rd b ->
  25977 <= (if x <? maxBwInv b then maxBwInv b else if minBwInv b <? x then minBwInv b else x)
  <= 73213.
Proof. intros []. repeat bcase; lia. Qed.

(** A convex combination of inverse rates. *)
Lemma averaged_inv w c inv :
  0 <= w <= 4096 -> 25977 <= c <= 73213 -> 25977 <= inv <= 150000 ->
  25977 <= spl_rshift_u32 (u32 (spl_umul w c + spl_umul (u32 (8192 - w)) inv)) 13 <= 150000.
Proof.
  intros Hw Hc Hi. rewrite (u32_id (8192 - w)), !spl_umul_spec by clia.
  assert (25977 * w <= w * c <= 150000 * w) by nia.
  assert (25977 * (8192 - w) <= (8192 - w) * inv <= 150000 * (8192 - w)) by nia.
  rewrite (u32_id (w * c)), (u32_id ((8192 - w) * inv)), u32_id, rshift_u32 by clia.
  change (2 ^ 13) with 8192. Z.div_mod_to_equations. lia.
Qed.

Lemma update_jitter_ok t hi sb sd rd w n sg b :
  bwe_core lo pa t hi sb sd rd b -> bwe_core lo pa t hi sb sd rd (update_jitter w n sg b).
Proof.
  intros []. unfold update_jitter. core; [bcase; lia|].
  match goal with |- context [s32 ?x] => pose proof (s32_range (51 * s32 (Z.shiftl n 3) + spl_mul 973 (recJitterShortTermAbs b))) as Hr end.
  rewrite shiftr_div by lia. change (2 ^ 10) with 1024. dmlia.
Qed.

Lemma update_estimate_ok t sb sd rd f d pk :
  is_u32 t ->
  total (measuring t 150000 sb sd rd) (update_estimate f t d pk)
    (fun _ => bwe_core lo pa t 150000 sb sd rd).
Proof.
  intros Ht. eapply total_bind; [apply update_weight_ok|]. intros w. apply total_pure. intros Hw.
  apply total_get. intros b I. cbv zeta.
  match goal with |- context [spl_umul w ?x] => set (c := x) end.
  assert (25977 <= c <= 73213) as Hc by (apply (limit_curr t 150000 sb sd rd b); exact I).
  do 3 apply total_assign_eq.
  match goal with |- total (fun s => s = ?x) _ _ => assert (bwe_core lo pa t 150000 sb sd rd x) as I' end.
  { apply reset_update_time_ok. destruct I as []. core. by apply averaged_inv. }
  eapply total_weaken; [|intros s ->; exact I'|intros a s Hs; exact Hs]. clear b I c Hc I'.
  apply total_get. intros b I. pose proof (core_avg _ _ _ _ _ _ _ _ I).
  rewrite (u32_id (_ + _)), cdiv_pos by dmlia.
  eapply total_mem; [reflexivity|]. cbv zeta.
  bcase; apply total_modify; intros s ->; by apply update_jitter_ok.
Qed.

Lemma consecutive_packet_ok t sb sd rd f pk rate d :
  is_u32 t ->
  total (measuring t 150000 sb sd rd) (consecutive_packet f t pk rate d)
    (fun r b => 0 <= r.1 <= 1024 /\ bwe_core lo pa t 150000 sb sd rd b).
Proof.
  intros Ht. apply total_get. intros b Hb. cbv zeta.
  eapply total_weaken; [|intros s ->; exact Hb|intros a s Hs; exact Hs].
  eapply total_bind; [apply late_packet_ok|]. intros r. apply total_pure. intros Hr.
  apply total_get. intros b' Hb'.
  eapply total_weaken; [|intros s ->; exact Hb'|intros a s Hs; exact Hs].
  apply (total_bind _ (fun _ => bwe_core lo pa t 150000 sb sd rd)).
  { bcase; [by apply update_estimate_ok|]. apply total_ret. intros s [I _]. exact I. }
  intros ?. apply total_ret. intros s Hs. split; [exact Hr|exact Hs].
Qed.

Lemma measure_ok t sb sd rd rtp f send pk rate :
  is_u32 t -> frame_samples f ->
  total (fun b => measuring t INV_MAX sb sd rd b /\ t - lastUpdate b < 2 ^ 31)
    (measure rtp f send t pk rate)
    (fun r b => 0 <= r.1 <= 1024 /\ bwe_core lo pa t 150000 sb sd rd b).
Proof.
  intros Ht Hf.
  apply (total_assign _ (fun b => measuring t INV_MAX sb sd rd b /\ t - lastUpdate b < 2 ^ 31)).
  { intros b [[I Hc] Hl]. destruct (wait_period_ok _ _ _ _ _ _ I) as (I' & E & E').
    unfold measuring. rewrite E, E'. done. }
  apply total_get. intros b Hb. cbv zeta.
  eapply (total_weaken (fun b => measuring t INV_MAX sb sd rd b /\ t - lastUpdate b < 2 ^ 31));
    [|intros s ->; exact Hb|intros a s Hs; exact Hs].
  eapply total_bind; [by apply reduce_estimate_ok|]. intros ?.
  apply total_get. intros b' Hb'.
  bcase; [|apply total_ret; intros s ->; split; [by vm_compute|apply Hb']].
  eapply total_weaken; [by apply consecutive_packet_ok|intros s ->; exact Hb'|done].
Qed.

Lemma limit_bw_inv_ok t hi sb sd rd b :
  bwe_core lo pa t hi sb sd rd b ->
  bwe_core lo pa t INV_MAX sb sd rd (limit_bw_inv b)
  /\ maxBwInv (limit_bw_inv b) <= recBwInv (limit_bw_inv b) <= minBwInv (limit_bw_inv b).
Proof.
  intros []. unfold limit_bw_inv. repeat bcase; (split; [core|fields]; klia).
Qed.

Lemma store_packet_ok t hi sb sd rd rtp f send rate b :
  bwe_core lo pa t hi sb sd rd b ->
  bwe_core lo t t hi sb sd rd (store_packet rtp f send t rate b)
  /\ maxBwInv (store_packet rtp f send t rate b) = maxBwInv b
  /\ minBwInv (store_packet rtp f send t rate b) = minBwInv b
  /\ recBwInv (store_packet rtp f send t rate b) = recBwInv b.
Proof.
  intros []. unfold store_packet. cbv zeta.
  bcase; (split; [core|split; [reflexivity|split; reflexivity]]).
Qed.

Lemma new_rate_ok pa' t sb sd rd dcf imm :
  0 <= dcf <= 1024 ->
  total (fun b => bwe_core lo pa' t INV_MAX sb sd rd b /\ maxBwInv b <= recBwInv b <= minBwInv b)
    (new_rate dcf imm)
    (fun _ => bwe_core lo pa' t INV_MAX sb sd rd).
Proof.
  intros Hd. apply total_get. intros b [I Hlim].
  pose proof (core_inv _ _ _ _ _ _ _ _ I). rewrite cdiv_pos by lia.
  eapply total_mem; [reflexivity|].
  assert (9999 <= 1073741824 / recBwInv b - recHeaderRate b <= 32000) as Hbw.
  { pose proof (core_mode _ _ _ _ _ _ _ _ I) as Hm. Z.div_mod_to_equations. nia. }
  rewrite u32_id by clia. set (bw := _ - recHeaderRate b) in *.
  apply (total_bind _ (fun _ => bwe_core lo pa' t INV_MAX sb sd rd)).
  { apply total_put. intros _ _. destruct I as []. core. }
  intros ?. destruct imm; [|by apply total_ret]. clear b bw I Hlim Hbw H1.
  apply total_fix. intros b I. do 3 apply total_assign_eq. cbv beta.
  match goal with |- total (fun s => s = ?x) _ _ =>
    assert (bwe_core lo pa' t INV_MAX sb sd rd x /\ 10000 <= recBw x) as Hx end.
  { pose proof (core_bw _ _ _ _ _ _ _ _ I). assert (0 <= dcf * recBw b <= 1024 * 32000) by nia.
    fields. rewrite spl_umul_spec, (u32_id (dcf * _)), rshift_u32 by clia. consts.
    change (2 ^ 10) with 1024. destruct I as [].
    bcase; (split; [core; dmlia|fields; dmlia]). }
  destruct Hx as [I' Hmin]. apply total_get. intros b' ->.
  match goal with |- total (fun s => s = ?x) _ _ => set (b' := x) in * end. clearbody b'.
  destruct I' as []. rewrite (u32_id (recBw b' + _)), cdiv_pos by clia.
  eapply total_mem; [reflexivity|]. apply total_put. intros _ _.
  rewrite !shiftl_mul, !u32_id by clia. core; consts; [Z.div_mod_to_equations; nia|clia|clia].
Qed.

Lemma process_packet_ok t sb sd rd rtp f send pk rate :
  is_u32 t -> t - lo < 2 ^ 31 -> f = 30 \/ f = 60 ->
  total (bwe_core lo pa t INV_MAX sb sd rd) (process_packet rtp f send t pk rate)
    (fun r b => r = 0 /\ bwe_core lo t t INV_MAX sb sd rd b).
Proof.
  intros Ht Hlate Hf. apply (total_assign _ (bwe_core lo pa t INV_MAX sb sd rd)).
  { intros b []. core. }
  cbv zeta. apply total_get. intros b I.
  apply (total_bind _ (fun r b => 0 <= r.1 <= 1024 /\ bwe_core lo pa t 150000 sb sd rd b)).
  { bcase.
    - eapply total_weaken; [apply (measure_ok t sb sd rd); [done|]|intros s ->|done].
      + unfold frame_samples. klia.
      + pose proof (core_update _ _ _ _ _ _ _ _ I). split; [by split|lia].
    - do 2 apply total_assign_eq. apply total_ret. intros s ->. split; [by vm_compute|].
      apply (core_wider _ _ _ INV_MAX); [|by vm_compute]. apply reset_update_time_ok in I. destruct I as [].
      core; [apply s32_range|by left]. }
  intros r. apply total_pure. intros Hr. clear b I. apply total_fix. intros b I.
  do 2 apply total_assign_eq. destruct (limit_bw_inv_ok _ _ _ _ _ _ I) as [I1 Hlim].
  destruct (store_packet_ok _ _ _ _ _ rtp f send rate _ I1) as (I2 & E1 & E2 & E3).
  match goal with |- total (fun s => s = ?x) _ _ => set (b' := x) in * end.
  eapply total_bind.
  - eapply total_weaken; [apply (new_rate_ok t t sb sd rd); exact Hr| |intros a s Hs; exact Hs].
    intros s ->. split; [exact I2|]. rewrite E1, E2, E3. exact Hlim.
  - intros ?. apply total_ret. intros s I3. split; [reflexivity|exact I3].
Qed.

End Proofs.

Section Packets.
Context `{SplLaws}.

(** A packet with a valid index: the far end's report is averaged and all that
    the estimator keeps stays in its range. *)
Lemma receive_valid {R} p b :
  bwe_inv b -> packet_ok p b -> 0 <= s16 (pk_index p) <= 23 ->
  exists b', receive (R:=R) p b = Next 0 b' /\ exists lo, bwe_core lo (pk_arrival p) (pk_arrival p)
    INV_MAX ((461 * sendBwAvg b + 6528 * rate_of (s16 (pk_index p))) / 512)
    ((461 * sendMaxDelayAvg b + 51 * (512 * delay_of (s16 (pk_index p)))) / 512)
    (recMaxDelayAvgQ b) b'.
Proof.
  intros [I Htime Hsb Hsd Hrd] (Hf & Ht & Hlate & Hpk & Hidx) Hi.
  unfold receive, WebRtcIsacfix_UpdateUplinkBwImpl.
  destruct (UpdateUplinkBwRec_ok (R:=Z) _ _ _ _ _ _ _ _ Hi Hsb Hsd _ I) as (r & b1 & E1 & Er & I1).
  destruct (frame_size_change_ok _ _ _ _ _ _ (pk_frame p) _ I1) as ([] & b2 & E2 & I2).
  subst r. pose proof (core_arrival _ _ _ _ _ _ _ _ I2) as Hpa.
  destruct (Z.ltb_spec (pk_arrival p) (prevArrivalTime b)) as [Hwrap|Hnext].
  - eexists. split.
    + eapply fn_Return. rewrite (bind_Next _ _ _ _ _ E1). cbn [Z.ltb Z.compare].
      change (bind (ret tt) ?k b1) with (k tt b1). cbv beta.
      rewrite (bind_Next _ _ _ _ _ E2), bind_get, Hpa. cbv zeta.
      rewrite (proj2 (Z.ltb_lt _ _) Hwrap). reflexivity.
    + exists (pk_arrival p). clear Hlate. destruct I2 as []. unfold timer_wrap. core; [clia|by left].
  - destruct (process_packet_ok _ _ _ _ _ _ (pk_rtp p) (pk_frame p) (pk_send p) (pk_size p)
      (rec_rtp_rate (pk_frame p) (pk_size p) b2) Ht Hlate Hf _ (core_later _ _ _ _ _ _ _ _ _ I2 Hnext))
      as (r & b3 & E3 & -> & I3).
    exists b3. split; [|by exists (lastUpdate b)].
    eapply fn_Next. rewrite (bind_Next _ _ _ _ _ E1). cbn [Z.ltb Z.compare].
    change (bind (ret tt) ?k b1) with (k tt b1). cbv beta.
    rewrite (bind_Next _ _ _ _ _ E2), bind_get, Hpa. cbv zeta.
    rewrite (proj2 (Z.ltb_ge _ _) Hnext). exact E3.
Qed.

Lemma core_bwe_inv lo t sb sd rd b :
  is_u32 t -> 1280000 <= sb <= 4096000 -> 2560 <= sd <= 12800 -> 2560 <= rd <= 12800 ->
  bwe_core lo t t INV_MAX sb sd rd b -> bwe_inv b.
Proof.
  intros Ht Hsb Hsd Hrd []. subst t sb sd rd. split; try done. split; try done. lia.
Qed.

Lemma receive_invalid {R} p b :
  ~ 0 <= s16 (pk_index p) <= 23 -> receive (R:=R) p b = Next (-6240) b.
Proof.
  intros Hi. unfold receive, WebRtcIsacfix_UpdateUplinkBwImpl, WebRtcIsacfix_UpdateUplinkBwRec.
  replace ((s16 (pk_index p) <? 0) || (23 <? s16 (pk_index p))) with true; [reflexivity|].
  symmetry. apply orb_true_iff. rewrite !Z.ltb_lt. lia.
Qed.

Lemma report_range i sb sd :
  0 <= i <= 23 -> 1280000 <= sb <= 4096000 -> 2560 <= sd <= 12800 ->
  1280000 <= (461 * sb + 6528 * rate_of i) / 512 <= 4096000
  /\ 2560 <= (461 * sd + 51 * (512 * delay_of i)) / 512 <= 12800.
Proof.
  intros Hi Hsb Hsd. destruct (rate_of_range i Hi) as [_ Hr].
  split; [Z.div_mod_to_equations; lia|]. unfold delay_of. bcase; Z.div_mod_to_equations; lia.
Qed.

(** Every packet is processed and keeps the invariant. *)
Lemma receive_inv {R} p b :
  bwe_inv b -> packet_ok p b ->
  exists r b', receive (R:=R) p b = Next r b' /\ bwe_inv b'
    /\ recMaxDelayAvgQ b' = recMaxDelayAvgQ b.
Proof.
  intros I Hp. destruct (decide (0 <= s16 (pk_index p) <= 23)) as [Hi|Hi].
  - destruct (receive_valid (R:=R) p b I Hp Hi) as (b' & E & lo & C).
    exists 0, b'. split; [exact E|]. split; [|apply C]. destruct I as [], Hp as (_ & Ht & _).
    destruct (report_range _ _ _ Hi inv_sendBw0 inv_sendDelay0). eapply core_bwe_inv; [..|exact C]; done.
  - exists (-6240), b. split; [by apply receive_invalid|done].
Qed.

(** *** The index *)

Definition rate01_of (i : Z) : Z := KQRate01 !!! Z.to_nat (if 11 <? i then i - 12 else i).

(** The table of tenths agrees with the table of rates. *)
Lemma rate01_of_range k : 0 <= k <= 11 ->
  zget KQRate01 k = Some (rate01_of k) /\ 65536000 <= rate01_of k <= 209715200
  /\ -5 <= 10 * rate01_of k - 65536 * rate_of k <= 5
  /\ rate01_of (k + 12) = rate01_of k /\ rate_of (k + 12) = rate_of k.
Proof.
  intros Hi. assert (k = 0 \/ k = 1 \/ k = 2 \/ k = 3 \/ k = 4 \/ k = 5 \/ k = 6 \/ k = 7 \/ k = 8
    \/ k = 9 \/ k = 10 \/ k = 11) as Hc by lia.
  repeat destruct Hc as [->|Hc]; [..|subst k]; (split_and!; vm_compute; first [reflexivity|discriminate]).
Qed.

Lemma rate01_of_mono k : 1 <= k <= 11 -> rate01_of (k - 1) < rate01_of k.
Proof.
  intros Hi. assert (k = 1 \/ k = 2 \/ k = 3 \/ k = 4 \/ k = 5 \/ k = 6 \/ k = 7 \/ k = 8
    \/ k = 9 \/ k = 10 \/ k = 11) as Hc by lia.
  repeat destruct Hc as [->|Hc]; [..|subst k]; reflexivity.
Qed.

Lemma rate_loop_spec {S R} rate fuel k (s : S) :
  1 <= k <= 11 -> 11 - k < Z.of_nat fuel -> (1 < k -> rate_of (k - 1) < rate) ->
  exists j, rate_loop (R:=R) fuel rate k s = Next j s /\ 1 <= j <= 11
    /\ (1 < j -> rate_of (j - 1) < rate) /\ (j < 11 -> rate <= rate_of j).
Proof.
  revert k. induction fuel as [|fuel IH]; intros k Hk Hf Hlow; [lia|]. cbn [rate_loop].
  bcase; [|exists k; repeat split; try reflexivity; lia].
  destruct (rate_of_range k ltac:(lia)) as [Hz _]. rewrite (proj2 (Z.ltb_ge 11 k)), u16_id in Hz by clia.
  rewrite (bind_mem _ _ _ _ Hz). bcase; [exists k; repeat split; try reflexivity; lia|].
  rewrite u16_id by clia. apply IH; [lia..|]. intros _. by rewrite Z.add_simpl_r.
Qed.

(** Nine tenths of the quantised average, in Q16. *)
Definition avg09 (a : Z) : Z := 461 * a - 25 * a / 128.

Lemma quantise_rate_spec rate k b :
  1280000 <= recBwAvgQ b <= 4096400 -> 10000 <= rate <= 32000 -> 1 <= k <= 11 ->
  exists j, quantise_rate rate k b
      = Next j (b <| recBwAvgQ := (avg09 (recBwAvgQ b) + rate01_of j) / 512 |>)
    /\ (j = k - 1 \/ j = k)
    /\ Z.abs (avg09 (recBwAvgQ b) + rate01_of j - 65536 * rate)
       <= Z.abs (avg09 (recBwAvgQ b) + rate01_of (2 * k - 1 - j) - 65536 * rate).
Proof.
  intros Ha Hr Hk. unfold quantise_rate. rewrite bind_get.
  set (a := recBwAvgQ b) in *. set (X := avg09 a).
  assert (1280000 * 460 <= X <= 1887700000) as HX by (unfold X, avg09; Z.div_mod_to_equations; lia).
  assert (s32 (u32 (spl_umul 461 a - Z.shiftr (s32 (spl_mul a 25)) 7)) = X) as ->.
  { rewrite spl_umul_spec, spl_mul_spec, (u32_id (461 * a)), (s32_id (a * 25)), shiftr_div by clia.
    replace (461 * a - a * 25 / 2 ^ 7) with X by (unfold X, avg09; f_equal; f_equal; lia).
    rewrite u32_id, s32_id; clia. }
  cbv zeta. rewrite shiftl_mul, (s32_id (rate * 2 ^ 16)) by clia.
  destruct (rate01_of_range k ltac:(lia)) as (Hz & Hq & _).
  destruct (rate01_of_range (k - 1) ltac:(lia)) as (Hz' & Hq' & _).
  pose proof (rate01_of_mono k Hk) as Hmono.
  rewrite (bind_mem _ _ _ _ Hz), (bind_mem _ _ _ _ Hz'). cbv zeta.
  rewrite (s32_id (X + rate01_of k - _)), (s32_id (_ - X - _)) by clia.
  bcase.
  - exists (k - 1). rewrite u16_id, (bind_mem _ _ _ _ Hz'), (s32_id (X + _)), shiftr_div, u32_id by dmlia.
    split; [reflexivity|]. split; [by left|]. replace (2 * k - 1 - (k - 1)) with k by lia. clia.
  - exists k. rewrite (bind_mem _ _ _ _ Hz), (s32_id (X + _)), shiftr_div, u32_id by dmlia.
    split; [reflexivity|]. split; [by right|]. replace (2 * k - 1 - k) with (k - 1) by lia. clia.
Qed.

Lemma quantise_delay_spec d b :
  2560 <= recMaxDelayAvgQ b <= 12800 -> 5 <= d <= 25 ->
  exists bit, quantise_delay d b
      = Next bit (b <| recMaxDelayAvgQ :=
                    (461 * recMaxDelayAvgQ b + 51 * (512 * if bit =? 12 then 25 else 5)) / 512 |>)
    /\ (bit = 0 \/ bit = 12).
Proof.
  intros Hq Hd. unfold quantise_delay. rewrite bind_get. cbv zeta.
  rewrite spl_mul_spec, shiftl_mul by clia. set (q := recMaxDelayAvgQ b) in *.
  change (2 ^ 18) with 262144.
  rewrite (s32_id (q * 461)), (s32_id (d * _)), (s32_id (_ + 652800 - _)), (s32_id (_ - 130560)),
    (s32_id (_ + 130560)), (s32_id (_ + 652800)), !shiftr_div by clia.
  bcase.
  - exists 0. split; [|by left]. cbn [Z.eqb]. replace (q * 461 + 130560) with (461 * q + 51 * (512 * 5)) by lia.
    reflexivity.
  - exists 12. split; [|by right]. cbn [Z.eqb Pos.eqb].
    replace (q * 461 + 652800) with (461 * q + 51 * (512 * 25)) by lia. reflexivity.
Qed.

Lemma limited_rate x :
  10000 <= u16 (if x <? MIN_ISAC_BW then MIN_ISAC_BW
                else if MAX_ISAC_BW <? x then MAX_ISAC_BW else x) <= 32000.
Proof. consts. repeat bcase; rewrite u16_id; clia. Qed.

Lemma GetDownlinkBandwidth_spec b :
  is_s32 (recJitterShortTermAbs b) -> recJitterShortTermAbs b <> 0 ->
  exists rate, WebRtcIsacfix_GetDownlinkBandwidth b = Some rate /\ 10000 <= rate <= 32000.
Proof.
  intros Hr Hn. unfold WebRtcIsacfix_GetDownlinkBandwidth, cdiv.
  rewrite (proj2 (Z.eqb_neq _ 0)) by dmlia.
  eexists. split; [reflexivity|]. apply limited_rate.
Qed.

Lemma GetDownlinkMaxDelay_range b : 5 <= WebRtcIsacfix_GetDownlinkMaxDelay b <= 25.
Proof. unfold WebRtcIsacfix_GetDownlinkMaxDelay. consts. repeat bcase; lia. Qed.

Lemma update_high_speed_rec_ok b t hi sb sd rd lo pa :
  bwe_core lo pa t hi sb sd rd b ->
  exists b', update_high_speed_rec b = Next tt b' /\ bwe_core lo pa t hi sb sd rd b'
    /\ recBwAvgQ b' = recBwAvgQ b.
Proof.
  intros []. unfold update_high_speed_rec. rewrite bind_get. bcase.
  - apply andb_true_iff in E as [_ E]. apply negb_true_iff, negb_false_iff, Z.eqb_eq in E.
    destruct core_rec0; [|lia]. cbv zeta. rewrite s16_id by clia. eexists. split; [reflexivity|].
    bcase; (split; [core; lia|reflexivity]).
  - clear E. bcase; [|eexists; split; [reflexivity|]; split; [by split|reflexivity]].
    apply negb_true_iff, negb_false_iff, Z.eqb_eq in E. eexists. split; [reflexivity|].
    split; [core; lia|reflexivity].
Qed.

Lemma average_rate_ok lo pa t hi sb sd rd rate b :
  10000 <= rate <= 32000 -> bwe_core lo pa t hi sb sd rd b ->
  bwe_core lo pa t hi sb sd rd
    (b <| recBwAvg := spl_rshift_u32 (u32 (922 * recBwAvg b
         + 102 * u32 (Z.shiftl (u32 (rate + recHeaderRate b)) 5))) 10 |>).
Proof.
  intros Hr []. core. rewrite shiftl_mul, (u32_id (rate + _)) by clia. change (2 ^ 5) with 32.
  rewrite (u32_id ((rate + _) * 32)), u32_id, rshift_u32 by clia. change (2 ^ 10) with 1024.
  Z.div_mod_to_equations. lia.
Qed.

Lemma avg_range a k :
  1280000 <= a <= 4096400 -> 0 <= k <= 11 ->
  1280000 <= (avg09 a + rate01_of k) / 512 <= 4096400.
Proof.
  intros Ha Hk. destruct (rate01_of_range k Hk) as (_ & Hq & _).
  unfold avg09. Z.div_mod_to_equations. lia.
Qed.

Lemma split_index j bit :
  0 <= j <= 11 -> bit = 0 \/ bit = 12 ->
  rate01_of (j + bit) = rate01_of j /\ delay_of (j + bit) = (if bit =? 12 then 25 else 5).
Proof.
  intros Hj Hb. destruct (rate01_of_range j Hj) as (_ & _ & _ & E & _). unfold delay_of.
  destruct Hb; subst bit; (split; [by rewrite ?Z.add_0_r|]).
  - by rewrite (proj2 (Z.ltb_ge 11 (j + 0))) by lia.
  - by rewrite (proj2 (Z.ltb_lt 11 (j + 12))) by lia.
Qed.

(** The index and the averages it updates. *)
Lemma index_spec {R} b :
  bwe_inv b -> recJitterShortTermAbs b <> 0 ->
  exists i b', WebRtcIsacfix_GetDownlinkBwIndexImpl (R:=R) b = Next i b' /\ 0 <= i <= 23
    /\ bwe_core (lastUpdate b) (prevArrivalTime b) (prevArrivalTime b) INV_MAX (sendBwAvg b)
         (sendMaxDelayAvg b) ((461 * recMaxDelayAvgQ b + 51 * (512 * delay_of i)) / 512) b'
    /\ recBwAvgQ b' = (avg09 (recBwAvgQ b) + rate01_of i) / 512.
Proof.
  intros [I Htime Hsb Hsd Hrd] Hn.
  destruct (GetDownlinkBandwidth_spec b) as (rate & Erate & Hrate); [apply I|exact Hn|].
  assert (in_use (external_bw_info b) = 0) as Huse by apply I.
  apply (average_rate_ok _ _ _ _ _ _ _ rate) in I; [|exact Hrate].
  match type of I with bwe_core _ _ _ _ _ _ _ ?x => set (b1 := x) in * end.
  destruct (rate_loop_spec (R:=Z) rate 11 1 b1) as (k & Ek & Hk & _); [lia..|].
  destruct (quantise_rate_spec rate k b1 (core_avgQ _ _ _ _ _ _ _ _ I) Hrate Hk) as (j & Ej & Hj & _).
  assert (0 <= j <= 11) as Hj' by lia.
  match type of Ej with _ = Next _ ?x => set (b2 := x) in * end.
  assert (bwe_core (lastUpdate b) (prevArrivalTime b) (prevArrivalTime b) INV_MAX (sendBwAvg b)
    (sendMaxDelayAvg b) (recMaxDelayAvgQ b) b2) as I2.
  { destruct I as []. unfold b2. core. by apply avg_range. }
  destruct (update_high_speed_rec_ok _ _ _ _ _ _ _ _ I2) as (b3 & E3 & I3 & Hb3).
  destruct (quantise_delay_spec (WebRtcIsacfix_GetDownlinkMaxDelay b3) b3) as (bit & Ebit & Hbit).
  { rewrite (core_rd _ _ _ _ _ _ _ _ I3). exact Hrd. }
  { apply GetDownlinkMaxDelay_range. }
  destruct (split_index j bit Hj' Hbit) as [Hq Hd].
  exists (j + bit). eexists. split; [|split; [lia|split]].
  - apply fn_Next. rewrite bind_get. unfold truthy. rewrite Huse. cbn [Z.eqb negb].
    change (bind (ret tt) ?f b) with (f tt b). cbv beta. rewrite (bind_mem _ _ _ _ Erate).
    change (bind (modify ?f1) (fun _ => bind (modify ?f2) (fun _ => ?k)) b) with (k (f2 (f1 b))).
    cbv beta. change ((b <| recBwAvg := _ |>) <| recBwAvg := _ |>) with b1.
    rewrite (bind_Next _ _ _ _ _ Ek), (bind_Next _ _ _ _ _ Ej), (bind_Next _ _ _ _ _ E3), bind_get.
    cbv zeta. rewrite (bind_Next _ _ _ _ _ Ebit), u16_id by clia. reflexivity.
  - rewrite Hd. destruct I3 as []. core. by rewrite core_rd0.
  - fields. rewrite Hb3, Hq. reflexivity.
Qed.

Lemma index_needs_jitter {R} b i b' :
  in_use (external_bw_info b) = 0 ->
  WebRtcIsacfix_GetDownlinkBwIndexImpl (R:=R) b = Next i b' -> recJitterShortTermAbs b <> 0.
Proof.
  intros Hu E Hz. revert E. unfold WebRtcIsacfix_GetDownlinkBwIndexImpl, fn. rewrite bind_get.
  unfold truthy, WebRtcIsacfix_GetDownlinkBandwidth, cdiv. rewrite Hu, Hz. discriminate.
Qed.

Lemma index_inv {R} b i b' :
  bwe_inv b -> WebRtcIsacfix_GetDownlinkBwIndexImpl (R:=R) b = Next i b' ->
  0 <= i <= 23 /\ bwe_inv b' /\ sendBwAvg b' = sendBwAvg b /\ sendMaxDelayAvg b' = sendMaxDelayAvg b
  /\ recBwAvgQ b' = (avg09 (recBwAvgQ b) + rate01_of i) / 512
  /\ recMaxDelayAvgQ b' = (461 * recMaxDelayAvgQ b + 51 * (512 * delay_of i)) / 512.
Proof.
  intros I E. pose proof (index_needs_jitter b i b' ltac:(apply I) E) as Hn.
  destruct (index_spec (R:=R) b I Hn) as (i1 & b1 & E1 & Hi & C & Havg).
  rewrite E in E1. injection E1 as <- <-. split; [exact Hi|].
  split; [|split; [apply C|split; [apply C|split; [exact Havg|apply C]]]].
  destruct I as []. destruct (report_range i (sendBwAvg b) (recMaxDelayAvgQ b) Hi) as [_ Hr]; [done..|].
  eapply core_bwe_inv; [..|exact C]; done.
Qed.

Lemma reachable_inv b : bwe_reachable b -> bwe_inv b.
Proof.
  induction 1 as [b|b p r b' _ I Hp E|b i b' _ I E].
  - apply init_inv.
  - destruct (receive_inv (R:=Z) p b I Hp) as (r1 & b1 & E1 & I1 & _).
    rewrite E in E1. injection E1 as <- <-. exact I1.
  - by apply (index_inv b i b' I E).
Qed.

Lemma uplink_reads b :
  bwe_inv b ->
  WebRtcIsacfix_GetUplinkBandwidth b = sendBwAvg b / 128
  /\ 10000 <= WebRtcIsacfix_GetUplinkBandwidth b <= 32000
  /\ WebRtcIsacfix_GetUplinkMaxDelay b = sendMaxDelayAvg b / 512
  /\ 5 <= WebRtcIsacfix_GetUplinkMaxDelay b <= 25.
Proof.
  intros [I _ Hsb Hsd _]. unfold WebRtcIsacfix_GetUplinkBandwidth, WebRtcIsacfix_GetUplinkMaxDelay, truthy.
  rewrite (core_external _ _ _ _ _ _ _ _ I). cbn [Z.eqb negb]. rewrite !shiftr_div by lia.
  change (2 ^ 7) with 128. change (2 ^ 9) with 512.
  assert (10000 <= sendBwAvg b / 128 <= 32000) by (Z.div_mod_to_equations; lia).
  assert (5 <= sendMaxDelayAvg b / 512 <= 25) by (Z.div_mod_to_equations; lia).
  rewrite !s16_id by clia. unfold clamp. consts. repeat bcase; lia.
Qed.

End Packets.

(** Two ends of a call. [linked n a b]: [b] has received every index that [a] has computed, in
    order; meanwhile both have processed other packets. A packet on which [a] reduces its
    estimate at once resets its quantised average of the rate, which [b] does not learn: [n]
    is the number of indices that [b] has received since the last reset, or [None] if there
    was none. *)
Inductive linked `{SplOps} : option nat -> BwEstimatorstr -> BwEstimatorstr -> Prop :=
| linked_init a b :
    linked None (WebRtcIsacfix_InitBandwidthEstimator a) (WebRtcIsacfix_InitBandwidthEstimator b)
| linked_near n a b p r a' :
    linked n a b -> packet_ok p a -> receive (R:=Z) p a = Next r a' ->
    linked (if recBwAvgQ a' =? recBwAvgQ a then n else Some O) a' b
| linked_far n a b i b' :
    linked n a b -> WebRtcIsacfix_GetDownlinkBwIndexImpl (R:=Z) b = Next i b' -> linked n a b'
| linked_exchange n a b i a' p r b' :
    linked n a b -> WebRtcIsacfix_GetDownlinkBwIndexImpl (R:=Z) a = Next i a' ->
    packet_ok p b -> pk_index p = i -> receive (R:=Z) p b = Next r b' -> linked (S <$> n) a' b'.

(** How far the averages can be from each other, in 1/128 bps: as far as their ranges allow
    after a reset; each index then takes away a tenth, up to the rounding of the weights. *)
Fixpoint drift (n : nat) : Z :=
  match n with
  | O => 2816400
  | S n => 461 * drift n / 512 + 1275
  end.

Definition tolerance (n : option nat) : Z := match n with None => 12800 | Some n => drift n end.

Lemma drift_range n : 12800 <= drift n <= 2816400.
Proof. induction n as [|n IH]; cbn [drift]; [lia|]. Z.div_mod_to_equations. lia. Qed.

Lemma drift_mono n m : (n <= m)%nat -> drift m <= drift n.
Proof.
  induction 1 as [|m Hm IH]; [lia|]. cbn [drift]. pose proof (drift_range m). Z.div_mod_to_equations. lia.
Qed.

(** One exchange contracts the difference of the averages, up to the rounding of
    the weights. *)
Lemma exchange_tracks s a i d :
  0 <= i <= 23 -> 1280000 <= a <= 4096400 -> 12800 <= d <= 2816400 -> Z.abs (s - a) <= d ->
  Z.abs ((461 * s + 6528 * rate_of i) / 512 - (avg09 a + rate01_of i) / 512) <= 461 * d / 512 + 1275.
Proof.
  intros Hi Ha Hd Hsa.
  assert (-5 <= 10 * rate01_of i - 65536 * rate_of i <= 5 /\ 10000 <= rate_of i <= 32000) as [Hq Hr].
  { split; [|exact (proj2 (rate_of_range i Hi))]. destruct (Z_le_gt_dec i 11).
    - destruct (rate01_of_range i) as (_ & _ & Hq & _); [lia|exact Hq].
    - destruct (rate01_of_range (i - 12)) as (_ & _ & Hq & E1 & E2); [lia|].
      rewrite Z.sub_add in E1, E2. rewrite E1, E2. exact Hq. }
  unfold avg09. Z.div_mod_to_equations. lia.
Qed.

Lemma tolerance_step n : 12800 <= tolerance n <= 2816400 /\ tolerance (S <$> n) = 461 * tolerance n / 512 + 1275.
Proof. destruct n as [n|]; cbn [tolerance fmap option_fmap option_map]; [|done]. split; [apply drift_range|done]. Qed.

Lemma linked_inv `{SplLaws} n a b :
  linked n a b -> bwe_inv a /\ bwe_inv b /\ sendMaxDelayAvg b = recMaxDelayAvgQ a
    /\ Z.abs (sendBwAvg b - recBwAvgQ a) <= tolerance n.
Proof.
  induction 1 as [a b|n a b p r a' _ IH Hp E|n a b i b' _ IH E|n a b i a' p r b' _ IH E Hp Hi E'].
  - split; [apply init_inv|]. split; [apply init_inv|]. by vm_compute.
  - destruct IH as (Ia & Ib & Hd & Ht). destruct (receive_inv (R:=Z) p a Ia Hp) as (r1 & a1 & E1 & I1 & Hrd).
    rewrite E in E1. injection E1 as <- <-. rewrite Hrd. do 3 (split; [done|]).
    destruct (Z.eqb_spec (recBwAvgQ a') (recBwAvgQ a)) as [->|_]; [done|].
    destruct I1 as [I1 _ _ _ _], Ib as [_ _ Hsb _ _]. pose proof (core_avgQ _ _ _ _ _ _ _ _ I1). cbn [tolerance drift]. lia.
  - destruct IH as (Ia & Ib & Hd & Ht).
    destruct (index_inv b i b' Ib E) as (_ & I' & Hsb & Hsd & _). rewrite Hsb, Hsd. done.
  - destruct IH as (Ia & Ib & Hd & Ht). destruct (index_inv a i a' Ia E) as (Hir & Ia' & _ & _ & Havg & Hrd).
    assert (s16 (pk_index p) = i) as Hs by (rewrite Hi; apply s16_id; clia).
    destruct (receive_valid (R:=Z) p b Ib Hp ltac:(rewrite Hs; exact Hir)) as (b1 & E1 & lo & C).
    rewrite E' in E1. injection E1 as -> <-. rewrite Hs in C.
    split; [exact Ia'|]. destruct Ib as [], Hp as (_ & Hta & _).
    destruct (report_range i _ _ Hir inv_sendBw0 inv_sendDelay0) as [Hr1 Hr2].
    split; [eapply core_bwe_inv; [..|exact C]; done|].
    rewrite (core_sb _ _ _ _ _ _ _ _ C), (core_sd _ _ _ _ _ _ _ _ C), Havg, Hrd, Hd.
    split; [reflexivity|]. destruct (tolerance_step n) as [Hn ->]. apply exchange_tracks; [exact Hir|apply Ia|exact Hn|exact Ht].
Qed.

(** ** Properties of the bandwidth estimator *)


(** C34. While every index of one end reaches the other in order, the delay the far
    end's encoder works with is exactly the quantised average of the near end. Its rate is
    within 101 bps of the near end's quantised average as long as the near end has not
    reduced its estimate at once, which resets the average without a word to the far end; after
    such a reduction the bound is the whole range of rates, it shrinks by a tenth with each
    index up to a rounding ([drift]), and after 100 indices without another reduction it is
    102 bps. *)
Theorem ends_agree `{SplLaws} n a b :
  linked n a b ->
  WebRtcIsacfix_GetUplinkMaxDelay b = recMaxDelayAvgQ a / 512
  /\ Z.abs (WebRtcIsacfix_GetUplinkBandwidth b - recBwAvgQ a / 128)
     <= match n with None => 101 | Some k => if (100 <=? k)%nat then 102 else drift k / 128 + 1 end.
Proof.
  intros Hl. destruct (linked_inv n a b Hl) as (_ & Ib & Hd & Ht).
  destruct (uplink_reads b Ib) as (-> & _ & -> & _). rewrite Hd. split; [reflexivity|].
  destruct n as [k|]; cbn [tolerance] in Ht; [|Z.div_mod_to_equations; lia].
  destruct (Nat.leb_spec 100 k) as [Hk|_]; [|Z.div_mod_to_equations; lia].
  pose proof (drift_mono 100 k Hk) as Hm. change (drift 100) with 12872 in Hm. Z.div_mod_to_equations. lia.
Qed.

(** A structure as [memset] leaves it. *)
Definition zero_bwe : BwEstimatorstr :=
  mkBwe 0 0 0 0 0 0 0 0 0 0 0 0 0 0 0 0 0 0 0 0 0 0 0 0 0 0 0 0 0 (mkBwInfo 0 0 0 0 0).


(** Two ends after one exchange. *)
Lemma ends_agree_witness :
  exists n a b, linked n a b /\ WebRtcIsacfix_GetUplinkMaxDelay b = recMaxDelayAvgQ a / 512
    /\ countUpdates b = -8.
Proof.
  assert (linked None (WebRtcIsacfix_InitBandwidthEstimator zero_bwe)
                 (WebRtcIsacfix_InitBandwidthEstimator zero_bwe)) as H0 by constructor.
  epose proof (linked_exchange _ _ _ 7 _ (mkPacket 1 60 960 960 100 7) _ _ H0
    ltac:(vm_compute; reflexivity) ltac:(vm_compute; intuition discriminate) ltac:(reflexivity)
    ltac:(vm_compute; reflexivity)) as H1.
  eexists _, _, _. split; [exact H1|]. split; [|reflexivity]. exact (proj1 (ends_agree _ _ _ H1)).
Defined.

(** Packets [k], [k + 1], ... of a sender with frames of 60 ms and 202 bytes, of
    which every one takes 1230 samples through the bottle neck. *)
Definition steady_packet (k : Z) : packet := mkPacket k 60 (960 * k) (1230 * k) 202 0.

Fixpoint receive_steady `{SplOps} (n : nat) (k : Z) : bwe unit :=
  match n with
  | O => ret tt
  | S n => receive (steady_packet k) ;; receive_steady n (k + 1)
  end.

(** The short term jitter, by which the computation of the index divides,
    can become zero: after 171 packets that arrive at the projected times, the
    index divides by zero. *)
Theorem index_divides_by_zero :
  exists b, receive_steady 171 1 (WebRtcIsacfix_InitBandwidthEstimator zero_bwe) = Next tt b
    /\ recJitterShortTermAbs b = 0
    /\ WebRtcIsacfix_GetDownlinkBwIndexImpl (R:=Z) b = Fault.
Proof. eexists. split; [vm_compute; reflexivity|]. split; reflexivity. Qed.

(** What the decoder's estimator hands over is what the encoder's estimator
    reads: rate, delay and index of an encoder that was given the information are
    those the decoder would have computed. *)
Theorem bandwidth_info_transfer `{SplLaws} d e info :
  bwe_reachable d -> recJitterShortTermAbs d <> 0 ->
  exists info' d' i,
    WebRtcIsacfixBw_GetBandwidthInfo (R:=Z) info d = Next info' d'
    /\ WebRtcIsacfix_GetDownlinkBwIndexImpl (R:=Z) d = Next i d'
    /\ WebRtcIsacfix_GetUplinkBandwidth (WebRtcIsacfixBw_SetBandwidthInfo info' e)
       = WebRtcIsacfix_GetUplinkBandwidth d
    /\ WebRtcIsacfix_GetUplinkMaxDelay (WebRtcIsacfixBw_SetBandwidthInfo info' e)
       = WebRtcIsacfix_GetUplinkMaxDelay d
    /\ WebRtcIsacfix_GetDownlinkBwIndexImpl (R:=Z) (WebRtcIsacfixBw_SetBandwidthInfo info' e)
       = Next i (WebRtcIsacfixBw_SetBandwidthInfo info' e).
Proof.
  intros Hd Hn. apply reachable_inv in Hd as I.
  destruct (index_spec (R:=Z) d I Hn) as (i & d' & E & Hi & _).
  destruct (uplink_reads d I) as (_ & Hbw & _ & Hmd).
  eexists _, d', i. split; [|split; [exact E|]].
  - unfold WebRtcIsacfixBw_GetBandwidthInfo. rewrite bind_get. cbv zeta.
    rewrite (bind_Next _ _ _ _ _ E). reflexivity.
  - split; [|split].
    + unfold WebRtcIsacfix_GetUplinkBandwidth at 1. cbn. apply s16_id. clia.
    + unfold WebRtcIsacfix_GetUplinkMaxDelay at 1. cbn. apply s16_id. clia.
    + unfold WebRtcIsacfix_GetDownlinkBwIndexImpl, fn. cbn. rewrite s16_id, u16_id by clia. reflexivity.
Qed.

(** The decoder's estimator after initialisation. *)
Lemma bandwidth_info_transfer_witness :
  exists info' d', WebRtcIsacfixBw_GetBandwidthInfo (R:=Z) (mkBwInfo 0 0 0 0 0)
    (WebRtcIsacfix_InitBandwidthEstimator zero_bwe) = Next info' d'
    /\ WebRtcIsacfix_GetUplinkBandwidth (WebRtcIsacfixBw_SetBandwidthInfo info' zero_bwe) = 20000.
Proof.
  destruct (bandwidth_info_transfer (WebRtcIsacfix_InitBandwidthEstimator zero_bwe) zero_bwe
    (mkBwInfo 0 0 0 0 0) (reach_init zero_bwe) ltac:(vm_compute; discriminate))
    as (info' & d' & i & E & _ & Hbw & _).
  exists info', d'. split; [exact E|]. rewrite Hbw. reflexivity.
Defined.

