(* ===== verification/IsacFixUpdate.v ===== *)
(** * iSAC fixed point: the bandwidth estimate of a received packet

    Models [WebRtcIsacfix_EstimateBandwidth] (decode_bwe.c) and
    [WebRtcIsacfix_UpdateBwEstimate] and [WebRtcIsacfix_UpdateBwEstimate1] (isacfix.c), which
    read the frame length and the bandwidth index from the first ten bytes of a packet
    and hand them to the estimator. Of the instance only the fields they use are kept.

    The proofs compose the decoder ([IsacFixDec], [IsacFixEntropy]) with the
    estimator ([IsacFixBwe]): for bytes of any content, and for a payload of the encoder. *)

From S2P Require Import Prelude Spl ArithSpec IsacFixArith IsacFixDec IsacFixStream IsacFixTables IsacFixEntropy IsacFixBwe.

Open Scope c_scope.

#[local] Arguments Nat.mul : simpl never.
#[local] Arguments Nat.add : simpl never.
#[local] Arguments Z.mul : simpl never.
#[local] Arguments pre : simpl never.

(** ** Data *)

Definition FS : Z := 16000.
Definition STREAM_MAXW16 : Z := 300.
Definition ISAC_DECODER_NOT_INITIATED : Z := 6610.
Definition ISAC_EMPTY_PACKET : Z := 6620.
Definition ISAC_PACKET_TOO_SHORT : Z := 6625.
Definition ISAC_LENGTH_MISMATCH : Z := 6730.

Record ISACFIX_SubStruct := mkInst {
  bwestimator_obj : BwEstimatorstr;
  errorcode : Z;
  initflag : Z;
}.

#[export] Instance eta_ISACFIX_SubStruct : Eta ISACFIX_SubStruct := fun i =>
  mkInst (bwestimator_obj i) (errorcode i) (initflag i).

(** ** Operations *)

Section Update.
Context `{SplOps}.

(** The store holds the estimator and the bit stream. *)
Definition WebRtcIsacfix_EstimateBandwidth {R} (packet_size rtp_seq_number send_ts arr_ts : Z)
    : stmt (BwEstimatorstr * Bitstr_dec) R Z :=
  fn (
  let! r := zoom snd (fun d s => (s.1, d)) (WebRtcIsacfix_DecodeFrameLen 0) in
  let '(err, frame_samples) := r in
  if err <? 0 then return_ err else
  let! r := zoom snd (fun d s => (s.1, d)) (WebRtcIsacfix_DecodeSendBandwidth 0) in
  let '(err, index) := r in
  if err <? 0 then return_ err else
  let! err := zoom fst (fun b s => (b, s.2))
    (WebRtcIsacfix_UpdateUplinkBwImpl rtp_seq_number (s16 (frame_samples * 1000 / FS)) send_ts arr_ts
       packet_size (u16 index)) in
  if err <? 0 then return_ err else ret 0).

Definition kRequiredEncodedLenBytes : nat := 10.

Definition fail {R} (code : Z) : stmt ISACFIX_SubStruct Z R :=
  modify (fun i => i <| errorcode := code |>) ;; return_ (-1).

(** The part the two functions share: the stream from the first ten bytes. *)
Definition update_estimate_from (encoded : list Z) (packet_size rtp_seq_number send_ts arr_ts : Z)
    : stmt ISACFIX_SubStruct Z Z :=
  let! i := get in
  (if Z.land (initflag i) 1 =? 1 then ret tt else fail ISAC_DECODER_NOT_INITIATED) ;;
  let streamdata := InitializeDecoderBitstream packet_size in
  let! stream := mem (read_be16 encoded kRequiredEncodedLenBytes (d_stream streamdata)) in
  let! err := zoom (fun i => (bwestimator_obj i, set_dstream stream streamdata))
                (fun p i => i <| bwestimator_obj := p.1 |>)
                (WebRtcIsacfix_EstimateBandwidth packet_size rtp_seq_number send_ts arr_ts) in
  let err := s16 err in
  if err <? 0 then fail (s16 (- err)) else ret 0.

Definition WebRtcIsacfix_UpdateBwEstimate {R} (encoded : list Z)
    (packet_size rtp_seq_number send_ts arr_ts : Z) : stmt ISACFIX_SubStruct R Z :=
  fn (
  (if packet_size =? 0 then fail ISAC_EMPTY_PACKET
   else if packet_size <? Z.of_nat kRequiredEncodedLenBytes then fail ISAC_PACKET_TOO_SHORT
   else if Z.shiftl STREAM_MAXW16 1 <? packet_size then fail ISAC_LENGTH_MISMATCH
   else ret tt) ;;
  update_estimate_from encoded packet_size rtp_seq_number send_ts arr_ts).

Definition WebRtcIsacfix_UpdateBwEstimate1 {R} (encoded : list Z)
    (packet_size rtp_seq_number arr_ts : Z) : stmt ISACFIX_SubStruct R Z :=
  fn (
  (if packet_size =? 0 then fail ISAC_EMPTY_PACKET
   else if Z.shiftl STREAM_MAXW16 1 <? packet_size then fail ISAC_LENGTH_MISMATCH
   else ret tt) ;;
  update_estimate_from encoded packet_size rtp_seq_number 0 arr_ts).
End Update.

(** ** Decoding of arbitrary bytes

    A decoder that has read [q] bytes of its buffer. Nothing is said of the
    code value: it need not lie in the interval. *)

Definition reads (s : Bitstr_dec) (ptr q : nat) : Prop :=
  length (d_stream s) = INTERNAL_STREAM_SIZE_W16 /\ (d_full s = 0 \/ d_full s = 1)
  /\ Z.of_nat q = 2 * Z.of_nat ptr + (1 - d_full s).

(** Between two calls. *)
Definition ready (s : Bitstr_dec) (q : nat) : Prop :=
  2 ^ 24 <= d_W_upper s < 2 ^ 32 /\ (4 <= q)%nat
  /\ ((d_stream_index s = 0 /\ reads s 2 q) \/ (0 < d_stream_index s /\ reads s (Z.to_nat (d_stream_index s)) q)).





Section Any.
Context `{SplLaws}.





End Any.

(** ** The estimate from arbitrary bytes *)

Section Estimate.
Context `{SplLaws}.





Lemma packet_ok_of b frame rtp send arr size index :
  frame = 30 \/ frame = 60 -> 0 <= index <= 23 -> 1 <= size <= 600 ->
  is_u32 arr -> arr - lastUpdate b < 2 ^ 31 -> packet_ok (mkPacket rtp frame send arr size index) b.
Proof. intros. split_and!; cbn; try done; clia. Qed.

(** With a frame length and an index the estimator runs. *)
Lemma EstimateBandwidth_run {R} b d1 l1 l2 frame_samples index size rtp send arr d d2 :
  bwe_reachable b -> 1 <= size <= 600 -> is_u32 arr -> arr - lastUpdate b < 2 ^ 31 ->
  frame_samples = 480 \/ frame_samples = 960 -> 0 <= index <= 23 -> 0 <= l1 -> 0 <= l2 ->
  WebRtcIsacfix_DecodeFrameLen (R:=Z) 0 d = Next (l1, frame_samples) d1 ->
  WebRtcIsacfix_DecodeSendBandwidth (R:=Z) 0 d1 = Next (l2, index) d2 ->
  exists b', WebRtcIsacfix_EstimateBandwidth (R:=R) size rtp send arr (b, d) = Next 0 (b', d2)
    /\ receive (R:=Z) (mkPacket rtp (frame_samples / 16) send arr size index) b = Next 0 b'.
Proof.
  intros Hb Hsz Harr Hlate Hf Hi Hl1 Hl2 E1 E2. unfold WebRtcIsacfix_EstimateBandwidth.
  assert (frame_samples / 16 = 30 \/ frame_samples / 16 = 60) as Hfr
    by (destruct Hf as [->| ->]; [by left|by right]).
  destruct (receive_valid (R:=Z) (mkPacket rtp (frame_samples / 16) send arr size index) b)
    as (b' & Eb & _); [by apply reachable_inv|by apply packet_ok_of|cbn; by rewrite s16_id by clia|].
  exists b'. split; [|exact Eb]. apply fn_Next.
  rewrite (bind_Next _ _ _ _ _ (zoom_Next snd _ _ (b, d) _ _ E1)). cbv beta iota.
  rewrite (proj2 (Z.ltb_ge l1 0)) by done.
  rewrite (bind_Next _ _ _ _ _ (zoom_Next snd _ _ (b, d1) _ _ E2)). cbv beta iota.
  rewrite (proj2 (Z.ltb_ge l2 0)), u16_id by (done || clia).
  replace (s16 (frame_samples * 1000 / FS)) with (frame_samples / 16)
    by (destruct Hf as [->| ->]; reflexivity).
  rewrite (bind_Next _ _ _ _ _ (zoom_Next fst _ _ (b, d2) _ _ Eb)). reflexivity.
Qed.

End Estimate.

(** ** The two entry points *)

(** The error found before the packet is read. *)
Definition packet_error (i : ISACFIX_SubStruct) (size : Z) : option Z :=
  if size =? 0 then Some ISAC_EMPTY_PACKET
  else if size <? 10 then Some ISAC_PACKET_TOO_SHORT
  else if 600 <? size then Some ISAC_LENGTH_MISMATCH
  else if Z.land (initflag i) 1 =? 1 then None else Some ISAC_DECODER_NOT_INITIATED.

Section Entry.
Context `{SplLaws}.
Implicit Types (i : ISACFIX_SubStruct).

(** The first ten bytes give a decoder that has not read anything yet. *)
Lemma first_ten encoded size :
  is_bytes_list encoded -> (10 <= length encoded)%nat ->
  exists stream, read_be16 encoded kRequiredEncodedLenBytes (replicate INTERNAL_STREAM_SIZE_W16 0) = Some stream
    /\ ready (set_dstream stream (InitializeDecoderBitstream size)) 4
    /\ (forall n, (n < 10)%nat -> wbyte stream n = nth_byte encoded n)
    /\ (10 <= size -> dec_state (set_dstream stream (InitializeDecoderBitstream size)) ac_init).
Proof.
  intros Hb Hlen.
  destruct (read_be16_spec encoded kRequiredEncodedLenBytes (replicate INTERNAL_STREAM_SIZE_W16 0))
    as (d & E & L & U & Hw & Hk); [done|apply Forall_replicate; clia|done
    |rewrite length_replicate; unfold kRequiredEncodedLenBytes, INTERNAL_STREAM_SIZE_W16; lia|].
  exists d. split; [exact E|]. split; [|split; [exact Hw|]].
  - split; [cbn; lia|]. split; [lia|]. left. split; [done|]. split; [cbn; by rewrite L|]. cbn. lia.
  - intros Hsz. split; [done|apply ac_init_ok|]. left. split_and!; try done.
    intros k w Ek Hi. cbn [set_dstream InitializeDecoderBitstream d_stream d_stream_size] in Ek, Hi.
    rewrite shiftr_div in Hi by lia. rewrite Hk in Ek by (unfold kRequiredEncodedLenBytes; dmlia).
    by apply lookup_replicate in Ek as [-> _].
Qed.

Lemma guards_pass {R} i encoded size rtp send arr :
  packet_error i size = None ->
  WebRtcIsacfix_UpdateBwEstimate (R:=R) encoded size rtp send arr i
  = fn (update_estimate_from encoded size rtp send arr) i.
Proof.
  unfold packet_error, WebRtcIsacfix_UpdateBwEstimate. change (Z.of_nat kRequiredEncodedLenBytes) with 10.
  change (Z.shiftl STREAM_MAXW16 1) with 600. destruct (size =? 0), (size <? 10), (600 <? size); done.
Qed.


Lemma init_bit i size : packet_error i size = None -> (Z.land (initflag i) 1 =? 1) = true /\ 10 <= size <= 600.
Proof.
  unfold packet_error. destruct (Z.eqb_spec size 0); [done|]. destruct (Z.ltb_spec size 10); [done|].
  destruct (Z.ltb_spec 600 size); [done|]. destruct (_ =? 1); [|done]. split; [done|lia].
Qed.

(** The stream is decoded and the outcome stored. *)
Lemma update_run {R} i encoded stream size rtp send arr r b' d' :
  (Z.land (initflag i) 1 =? 1) = true ->
  read_be16 encoded kRequiredEncodedLenBytes (replicate INTERNAL_STREAM_SIZE_W16 0) = Some stream ->
  WebRtcIsacfix_EstimateBandwidth (R:=Z) size rtp send arr
    (bwestimator_obj i, set_dstream stream (InitializeDecoderBitstream size)) = Next r (b', d') ->
  is_s16 r -> - 2 ^ 15 < r ->
  fn (R':=R) (update_estimate_from encoded size rtp send arr) i
  = Next (if r <? 0 then -1 else 0)
      ((if r <? 0 then i <| errorcode := - r |> else i) <| bwestimator_obj := b' |>).
Proof.
  intros Hi Er Ee Hr Hr'. unfold fn, update_estimate_from. rewrite bind_get, Hi.
  rewrite (bind_Next (ret tt) _ _ _ _ eq_refl). cbv zeta. rewrite (bind_mem _ _ _ _ Er).
  set (p := fun j => (bwestimator_obj j, set_dstream stream (InitializeDecoderBitstream size))).
  rewrite (bind_Next _ _ _ _ _ (zoom_Next p _ _ i _ _ Ee)). rewrite s16_id by done.
  destruct (Z.ltb_spec r 0); [|done]. rewrite s16_id by clia. by destruct i.
Qed.
End Entry.

(** ** The payload of an encoder *)

Section Payload.
Context `{SplLaws}.

(** The start of a frame in the encoder (encode.c): frame length, bandwidth index, then
    [rest]. [err] turns an error code into the result of the frame. *)
Definition encode_head {R A} (framesamples BWno : Z) (err : Z -> A) (rest : stmt Bitstr_enc A A)
    : stmt Bitstr_enc R A :=
  fn (let! status := WebRtcIsacfix_EncodeFrameLen framesamples in
      if status <? 0 then return_ (err status) else
      let! status := WebRtcIsacfix_EncodeReceiveBandwidth BWno in
      if status <? 0 then return_ (err status) else rest).

Lemma nb_step_le a iv : (nb (step a iv) <= nb a + 3)%nat.
Proof.
  unfold step, renorm, shift. cbn [nb]. unfold narrow at 1. cbn [nb].
  enough (nshift (rng (narrow a iv)) <= 3)%nat by lia. unfold nshift. repeat bcase; lia.
Qed.

(** The two symbols are decoded from the first ten bytes of the payload. *)
Lemma head_decoded framesamples BWno iv1 iv2 ivs bs d :
  (forall R, Decodes (WebRtcIsacfix_DecodeFrameLen (R:=R) 0) [iv1] (fun n => (Z.of_nat n, framesamples))) ->
  (forall R, Decodes (WebRtcIsacfix_DecodeSendBandwidth (R:=R) 0) [iv2] (fun n => (Z.of_nat n, BWno))) ->
  Forall iv_ok ivs -> is_bytes bs -> contains (steps ac_init (iv1 :: iv2 :: ivs)) bs ->
  dec_state d ac_init -> (forall n, (n < 10)%nat -> wbyte (d_stream d) n = bs n) ->
  exists l1 l2 d1 d2, 0 <= l1 /\ 0 <= l2
    /\ WebRtcIsacfix_DecodeFrameLen (R:=Z) 0 d = Next (l1, framesamples) d1
    /\ WebRtcIsacfix_DecodeSendBandwidth (R:=Z) 0 d1 = Next (l2, BWno) d2.
Proof.
  intros D1 D2 Hivs Hbs Hc Hd Hw. set (a1 := step ac_init iv1). set (a2 := step a1 iv2).
  pose proof (@decodes_ivs _ _ _ _ _ (D1 Z)) as H1. pose proof (@decodes_ivs _ _ _ _ _ (D2 Z)) as H2.
  apply Forall_cons_1 in H1 as [H1 _]. apply Forall_cons_1 in H2 as [H2 _].
  assert (ac_ok a1) as Ha1 by (apply step_ok; [apply ac_init_ok|done]).
  assert (ac_ok a2) as Ha2 by (by apply step_ok).
  assert (nb a2 <= 6)%nat as Hn by (pose proof (nb_step_le ac_init iv1); pose proof (nb_step_le a1 iv2); cbn in *; unfold a2, a1 in *; lia).
  change (steps ac_init (iv1 :: iv2 :: ivs)) with (steps a2 ivs) in Hc.
  apply contains_steps in Hc; [|done..].
  assert (contains a2 (wbyte (d_stream d))) as Hc2.
  { unfold contains. rewrite (pre_ext _ bs); [exact Hc|]. intros n Hlt. apply Hw. lia. }
  pose proof (wbyte_bytes _ (dec_state_u16 _ _ Hd)) as Hbytes.
  assert (contains a1 (wbyte (d_stream d))) as Hc1 by (eapply (contains_step a1 iv2); done).
  pose proof (nb_steps a1 [iv2]) as Hmono. cbn [steps foldl] in Hmono. fold a2 in Hmono.
  destruct (@decodes_run _ _ _ _ _ (D1 Z) d ac_init Hd) as (d1 & E1 & Hd1 & S1);
    [cbn [steps foldl]; fold a1; unfold INTERNAL_STREAM_SIZE_W16; lia|exact Hc1|].
  destruct (@decodes_run _ _ _ _ _ (D2 Z) d1 a1 Hd1) as (d2 & E2 & _ & _);
    [cbn [steps foldl]; fold a2; unfold INTERNAL_STREAM_SIZE_W16; lia|by rewrite S1|].
  do 4 eexists. split_and!; [| |exact E1|exact E2]; lia.
Qed.

Lemma encode_head_encodes {R A} framesamples BWno (st : A -> Z) err rest ivs ok iv1 iv2 :
  (forall R, Encodes (WebRtcIsacfix_EncodeFrameLen (R:=R) framesamples) [iv1] 0 bits_exceeded) ->
  (forall R, Encodes (WebRtcIsacfix_EncodeReceiveBandwidth (R:=R) BWno) [iv2] 0 bits_exceeded) ->
  (forall R, Encodes (fn (R':=R) rest) ivs ok (fun r => bits_exceeded (st r))) -> (forall z, st (err z) = z) ->
  Encodes (encode_head (R:=R) framesamples BWno err rest) (iv1 :: iv2 :: ivs) ok (fun r => bits_exceeded (st r)).
Proof.
  intros E1 E2 E3 Herr. unfold encode_head.
  eapply (encodes_bind _ _ [iv1] (iv2 :: ivs)); [apply E1| |].
  { intros r s Hr. rewrite Hr. eexists. split; [reflexivity|]. apply Herr. }
  eapply (encodes_bind _ _ [iv2] ivs); [apply E2| |apply E3].
  intros r s Hr. rewrite Hr. eexists. split; [reflexivity|]. apply Herr.
Qed.

(** A frame of at least ten bytes: what is written, the words that are read
    from it, and what is decoded. *)
Lemma payload_head {A} (st : A -> Z) err rest ivs ok framesamples BWno s len r s' buf :
  framesamples = 480 \/ framesamples = 960 -> 0 <= BWno <= 23 ->
  (forall R, Encodes (fn (R':=R) rest) ivs ok (fun x => bits_exceeded (st x))) ->
  st ok = 0 -> (forall z, st (err z) = z) ->
  length (e_stream s) = STREAM_MAXW16_60MS -> Forall is_u16 (e_stream s) ->
  encode_frame st (encode_head framesamples BWno err rest) s = Next (len, r) s' -> 10 <= len ->
  is_bytes_list buf -> len < Z.of_nat (length buf) ->
  exists encoded stream l1 l2 d1 d2, write_be16 (e_stream s') (Z.to_nat len) buf = Some encoded
    /\ read_be16 (take (Z.to_nat len) encoded) kRequiredEncodedLenBytes
         (replicate INTERNAL_STREAM_SIZE_W16 0) = Some stream
    /\ 0 <= l1 /\ 0 <= l2 /\ len <= 400
    /\ WebRtcIsacfix_DecodeFrameLen (R:=Z) 0 (set_dstream stream (InitializeDecoderBitstream len))
       = Next (l1, framesamples) d1
    /\ WebRtcIsacfix_DecodeSendBandwidth (R:=Z) 0 d1 = Next (l2, BWno) d2.
Proof.
  intros Hf Hbw E3 Hok Herr HL HU Ee Hlen Hbuf Hroom.
  destruct (FrameLen_coded framesamples 0 Hf) as (iv1 & E1 & D1).
  destruct (Bandwidth_coded BWno 0 Hbw) as (iv2 & E2 & D2).
  pose proof (encode_head_encodes (R:=Z) framesamples BWno st err rest ivs ok iv1 iv2 E1 E2 E3 Herr) as HE.
  destruct (encode_frame_len st _ _ ok s HE Hok HL HU len r s' Ee ltac:(lia)) as (Hn & Hfl & -> & -> & L' & U' & P').
  set (a := steps ac_init (iv1 :: iv2 :: ivs)) in *. rewrite Nat2Z.id.
  pose proof (Nat.mod_upper_bound (final_len a) 2 ltac:(lia)).
  destruct (write_be16_spec (e_stream s') (final_len a) buf U' Hbuf)
    as (enc & Ew & Le & Ue & We); [rewrite L'; unfold STREAM_MAXW16_60MS; lia|lia|].
  destruct (first_ten (take (final_len a) enc) (Z.of_nat (final_len a))) as (stream & Er & _ & Hw & Hd);
    [by apply Forall_take|rewrite length_take; lia|].
  pose proof (@encodes_ivs _ _ _ _ _ _ (E3 Z)) as Hivs.
  destruct (head_decoded framesamples BWno iv1 iv2 ivs (wbyte (e_stream s'))
    (set_dstream stream (InitializeDecoderBitstream (Z.of_nat (final_len a)))) D1 D2 Hivs
    (wbyte_bytes _ U')) as (l1 & l2 & d1 & d2 & Hl1 & Hl2 & F1 & F2); [|by apply Hd| |].
  { apply final_contains; [apply steps_ok; [apply ac_init_ok|apply HE]|by apply wbyte_bytes|done]. }
  { intros n Hlt. cbn [set_dstream d_stream]. rewrite Hw by done. unfold nth_byte.
    rewrite lookup_take_lt by lia. by rewrite We by lia. }
  exists enc, stream, l1, l2, d1, d2. split_and!; done || lia.
Qed.
End Payload.

(** ** Properties *)



(** The packets of an encoder reach the estimator of the decoder: for a frame that starts
    with the frame length and the bandwidth index, whatever is coded after them, the ten bytes
    that are read are enough; the estimator processes exactly the frame length and the index
    of the encoder. *)
Theorem UpdateBwEstimate_payload `{SplLaws} {A} (st : A -> Z) err rest ivs ok
    framesamples BWno s len r s' buf (i : ISACFIX_SubStruct) rtp send arr :
  framesamples = 480 \/ framesamples = 960 -> 0 <= BWno <= 23 ->
  (forall R, Encodes (fn (R':=R) rest) ivs ok (fun x => bits_exceeded (st x))) ->
  st ok = 0 -> (forall z, st (err z) = z) ->
  length (e_stream s) = STREAM_MAXW16_60MS -> Forall is_u16 (e_stream s) ->
  encode_frame st (encode_head framesamples BWno err rest) s = Next (len, r) s' -> 10 <= len ->
  is_bytes_list buf -> len < Z.of_nat (length buf) ->
  Z.land (initflag i) 1 = 1 -> bwe_reachable (bwestimator_obj i) ->
  is_u32 arr -> arr - lastUpdate (bwestimator_obj i) < 2 ^ 31 ->
  exists encoded b', write_be16 (e_stream s') (Z.to_nat len) buf = Some encoded
    /\ WebRtcIsacfix_UpdateBwEstimate (R:=Z) (take (Z.to_nat len) encoded) len rtp send arr i
       = Next 0 (i <| bwestimator_obj := b' |>)
    /\ receive (R:=Z) (mkPacket rtp (framesamples / 16) send arr len BWno) (bwestimator_obj i) = Next 0 b'.
Proof.
  intros Hf Hbw E3 Hok Herr HL HU Ee Hlen Hbuf Hroom Hinit Hb Harr Hlate.
  destruct (payload_head st err rest ivs ok framesamples BWno s len r s' buf)
    as (enc & stream & l1 & l2 & d1 & d2 & Ew & Er & Hl1 & Hl2 & Hmax & F1 & F2); try done.
  destruct (EstimateBandwidth_run (R:=Z) (bwestimator_obj i) d1 l1 l2 framesamples BWno len rtp send arr _ d2
    Hb ltac:(lia) Harr Hlate Hf Hbw Hl1 Hl2 F1 F2) as (b' & Eb & Hrec).
  exists enc, b'. split; [exact Ew|]. split; [|exact Hrec].
  assert (packet_error i len = None) as Ep.
  { unfold packet_error. rewrite (proj2 (Z.eqb_neq len 0)), (proj2 (Z.ltb_ge len 10)), (proj2 (Z.ltb_ge 600 len)),
      Hinit by lia. done. }
  rewrite guards_pass by exact Ep. destruct (init_bit i len Ep) as [Hi _].
  by rewrite (update_run i (take (Z.to_nat len) enc) stream _ _ _ _ _ _ _ Hi Er Eb) by clia.
Qed.


(** 30 ms, index 17 and 24 further symbols, for a fresh estimator. *)
Definition demo_rest : list Z := replicate 24 5.

Lemma UpdateBwEstimate_payload_witness :
  let i := mkInst (WebRtcIsacfix_InitBandwidthEstimator zero_bwe) 0 1 in
  exists len r s' encoded b',
    encode_frame id (encode_head 480 17 id (WebRtcIsacfix_EncHistMulti demo_rest (replicate 24 kBwCdf) 24))
      demo_enc = Next (len, r) s'
    /\ write_be16 (e_stream s') (Z.to_nat len) (replicate 401 0) = Some encoded
    /\ WebRtcIsacfix_UpdateBwEstimate (R:=Z) (take (Z.to_nat len) encoded) len 1 480 480 i
       = Next 0 (i <| bwestimator_obj := b' |>).
Proof.
  intros i. destruct (dense_syms_of (replicate 24 kBwCdf) demo_rest) as [ivs Hivs].
  { apply Forall2_replicate. split; [reflexivity|cbn; lia]. }
  do 3 eexists. edestruct (UpdateBwEstimate_payload id id
    (WebRtcIsacfix_EncHistMulti demo_rest (replicate 24 kBwCdf) 24) ivs 0 480 17 demo_enc)
    with (buf := replicate 401 0) (i := i) (rtp := 1) (send := 480) (arr := 480) as (enc & b' & E1 & E2 & _).
  - by left.
  - lia.
  - intros R. apply encodes_tail. by apply EncHistMulti_encodes.
  - reflexivity.
  - reflexivity.
  - apply demo_enc_ok.
  - apply demo_enc_ok.
  - vm_compute. reflexivity.
  - lia.
  - apply Forall_replicate. clia.
  - vm_compute. reflexivity.
  - reflexivity.
  - constructor.
  - clia.
  - reflexivity.
  - exists enc, b'. split; [vm_compute; reflexivity|]. split; [exact E1|exact E2].
Defined.

(** A packet shorter than ten bytes is read past its end by [WebRtcIsacfix_UpdateBwEstimate1], which
    does not check for it. *)
Theorem UpdateBwEstimate1_overread `{SplOps} (i : ISACFIX_SubStruct) encoded rtp arr :
  Z.land (initflag i) 1 = 1 -> (1 <= length encoded <= 9)%nat ->
  WebRtcIsacfix_UpdateBwEstimate1 (R:=Z) encoded (Z.of_nat (length encoded)) rtp arr i = Fault.
Proof.
  intros Hi Hlen. unfold WebRtcIsacfix_UpdateBwEstimate1. change (Z.shiftl STREAM_MAXW16 1) with 600.
  rewrite (proj2 (Z.eqb_neq _ _)), (proj2 (Z.ltb_ge 600 _)) by lia. cbv iota. unfold fn.
  rewrite (bind_Next (ret tt) _ _ _ _ eq_refl). unfold update_estimate_from. rewrite bind_get, Hi, Z.eqb_refl.
  rewrite (bind_Next (ret tt) _ _ _ _ eq_refl). cbv zeta.
  assert (read_be16 encoded kRequiredEncodedLenBytes
    (d_stream (InitializeDecoderBitstream (Z.of_nat (length encoded)))) = None) as ->; [|done].
  do 10 (destruct encoded as [|? encoded]; [reflexivity|]). cbn in Hlen. lia.
Qed.
