(* ===== verification/IsacFixRate.v ===== *)
(** * iSAC fixed point: rate model of the encoder

    Models the rest of [isac/fix/source/bandwidth_estimator.c]: the state
    [RateModel] with which the encoder decides how far a payload is padded
    ([GetMinBytes], [UpdateRateModel]), the choice of the frame length and the
    signal to noise ratio. [StillBuffered] is the time in milliseconds that the
    data waiting at the bottle neck of the network will take. *)

From S2P Require Import Prelude Spl IsacFixBwe.

Open Scope c_scope.

(** ** Data *)

Definition Thld_30_60 : Z := 18000.
Definition Thld_60_30 : Z := 27000.
Definition BURST_LEN : Z := 3.
Definition BURST_INTERVAL : Z := 800.
Definition INIT_BURST_LEN : Z := 5.
Definition INIT_RATE : Z := 10240000.
Definition FS8 : Z := 128000.

Record RateModel := mkRateModel {
  PrevExceed : Z;
  ExceedAgo : Z;
  BurstCounter : Z;
  InitCounter : Z;
  StillBuffered : Z;
}.

#[export] Instance eta_RateModel : Eta RateModel := fun r =>
  mkRateModel (PrevExceed r) (ExceedAgo r) (BurstCounter r) (InitCounter r) (StillBuffered r).

Section Rate.
Context `{SplOps}.

(** ** Operations *)

Abbreviation rm A := (stmt RateModel Z A).

(** Smallest rate, in Q9, of the next packet of a burst. *)
Definition burst_rate (FrameSamples BottleNeck DelayBuildUp : Z) : rm Z :=
  let! r := get in
  let! MinRate :=
    (if StillBuffered r <? Z.shiftr ((512 - 512 / BURST_LEN) * DelayBuildUp) 9 then
       let! inv_Q12 := mem (cdiv 4096 (BURST_LEN * FrameSamples)) in
       ret (s32 ((512 + SAMPLES_PER_MSEC * Z.shiftr (DelayBuildUp * inv_Q12) 3) * BottleNeck))
     else
       let! inv_Q12 := mem (cdiv 4096 FrameSamples) in
       let den := spl_mul SAMPLES_PER_MSEC (StillBuffered r - DelayBuildUp) in
       let MinRate :=
         if StillBuffered r <? DelayBuildUp then
           s32 ((512 + SAMPLES_PER_MSEC * Z.shiftr ((DelayBuildUp - StillBuffered r) * inv_Q12) 3)
                * BottleNeck)
         else if FrameSamples <=? den then 0
         else s32 ((512 - Z.shiftr (s32 (den * inv_Q12)) 3) * BottleNeck) in
       ret (if MinRate <? spl_mul 532 BottleNeck
            then s32 (MinRate + spl_mul 22 BottleNeck) else MinRate)) in
  modify (fun r => r <| BurstCounter := s16 (BurstCounter r - 1) |>) ;;
  ret MinRate.

(** Smallest rate, in Q9. *)
Definition min_rate (FrameSamples BottleNeck DelayBuildUp : Z) : rm Z :=
  let! r := get in
  if 0 <? InitCounter r then
    put (r <| InitCounter := s16 (InitCounter r - 1) |>) ;;
    ret (if InitCounter r <=? INIT_BURST_LEN then INIT_RATE else 0)
  else if truthy (BurstCounter r) then burst_rate FrameSamples BottleNeck DelayBuildUp
  else ret 0.

(** When the bottle neck was last exceeded by at least 1%. *)
Definition track_exceed (StreamSize FrameSamples BottleNeck : Z) : rm unit :=
  let! r := get in
  let! rate := mem (cdiv (s32 (StreamSize * FS8)) FrameSamples) in
  let ms := Z.quot FrameSamples SAMPLES_PER_MSEC in
  if Z.shiftr (517 * BottleNeck) 9 <? rate then
    if truthy (PrevExceed r) then
      let ago := s16 (ExceedAgo r - BURST_INTERVAL / (BURST_LEN - 1)) in
      put (r <| ExceedAgo := if ago <? 0 then 0 else ago |>)
    else put (r <| ExceedAgo := s16 (ExceedAgo r + ms) |> <| PrevExceed := 1 |>)
  else put (r <| PrevExceed := 0 |> <| ExceedAgo := s16 (ExceedAgo r + ms) |>).

(** A new burst, when the bottle neck was not exceeded for a long time. *)
Definition start_burst (r : RateModel) : RateModel :=
  if (BURST_INTERVAL <? ExceedAgo r) && (BurstCounter r =? 0) then
    r <| BurstCounter := if truthy (PrevExceed r) then BURST_LEN - 1 else BURST_LEN |>
  else r.

(** The buffer delay, kept between 0 and 2000 ms. *)
Definition update_buffer (TransmissionTime frame_ms : Z) (r : RateModel) : RateModel :=
  let r := r <| StillBuffered := s16 (StillBuffered r + TransmissionTime) |> in
  let r := r <| StillBuffered := s16 (StillBuffered r - frame_ms) |> in
  let r := if StillBuffered r <? 0 then r <| StillBuffered := 0 |> else r in
  if 2000 <? StillBuffered r then r <| StillBuffered := 2000 |> else r.

Definition WebRtcIsacfix_GetMinBytes {R} (StreamSize FrameSamples BottleNeck DelayBuildUp : Z)
    : stmt RateModel R Z :=
  fn (
  let! MinRate := min_rate FrameSamples BottleNeck DelayBuildUp in
  let MinRate := Z.shiftr (s32 (MinRate + 256)) 9 in
  let MinBytes := u16 (u32 (s32 (MinRate * FrameSamples)) / FS8) in
  let StreamSize := if StreamSize <? MinBytes then s16 MinBytes else StreamSize in
  track_exceed StreamSize FrameSamples BottleNeck ;;
  modify start_burst ;;
  let! t := mem (cdiv (s32 (StreamSize * 8000)) BottleNeck) in
  let TransmissionTime := s16 t in
  modify (update_buffer TransmissionTime (Z.quot FrameSamples SAMPLES_PER_MSEC)) ;;
  ret MinBytes).

Definition WebRtcIsacfix_UpdateRateModel {R} (StreamSize FrameSamples BottleNeck : Z)
    : stmt RateModel R unit :=
  let! t := mem (cdiv (s32 (StreamSize * 8000)) BottleNeck) in
  let TransmissionTime := s16 t in
  modify (fun r => r <| InitCounter := 0 |>) ;;
  modify (fun r => r <| StillBuffered := s16 (StillBuffered r + TransmissionTime) |>) ;;
  modify (fun r => r <| StillBuffered := s16 (StillBuffered r - Z.shiftr FrameSamples 4) |>) ;;
  modify (fun r => if StillBuffered r <? 0 then r <| StillBuffered := 0 |> else r).

Definition WebRtcIsacfix_InitRateModel (r : RateModel) : RateModel :=
  r <| PrevExceed := 0 |> <| ExceedAgo := 0 |> <| BurstCounter := 0 |>
    <| InitCounter := INIT_BURST_LEN + 10 |> <| StillBuffered := 1 |>.

(** ** Frame length and signal to noise ratio *)

Definition WebRtcIsacfix_GetNewFrameLength (bottle_neck current_framesamples : Z) : Z :=
  if current_framesamples =? 480 then
    if bottle_neck <? Thld_30_60 then 960 else current_framesamples
  else if current_framesamples =? 960 then
    if Thld_60_30 <=? bottle_neck then 480 else current_framesamples
  else -1.

Definition WebRtcIsacfix_GetSnr (bottle_neck framesamples : Z) : Z :=
  if framesamples =? 480 then s16 (-22500 + s16 (Z.shiftr (500 * bottle_neck) 10))
  else if framesamples =? 960 then s16 (-22500 + s16 (Z.shiftr (500 * bottle_neck) 10))
  else -1.

End Rate.

(** Fields of an updated structure. *)
Ltac rate_fields :=
  cbn [set PrevExceed ExceedAgo BurstCounter InitCounter StillBuffered] in *.

(** ** Invariant *)

Record rate_inv (r : RateModel) : Prop := {
  rate_prev : PrevExceed r = 0 \/ PrevExceed r = 1;
  rate_ago : is_s16 (ExceedAgo r);
  rate_burst : 0 <= BurstCounter r <= 3;
  rate_init : 0 <= InitCounter r <= 15;
  rate_still : 0 <= StillBuffered r <= 2000;
}.

(** The arguments of the encoder: payload, frame length, rate and delay. *)
Record rate_args (size f bn d : Z) : Prop := {
  arg_size : 0 <= size <= 600;
  arg_frame : frame_samples f;
  arg_bn : 10000 <= bn <= 32000;
  arg_delay : 5 <= d <= 25;
}.

(** Bytes of a packet at [x] (bps in Q9), as [GetMinBytes] computes them. *)
Definition packet_bytes (x f : Z) : Z := (x + 256) / 512 * f / 128000.

Lemma packet_bytes_bound rf bn f :
  0 <= rf -> frame_samples f -> 10000 <= bn <= 32000 -> rf * f <= 552960 ->
  0 <= packet_bytes (rf * bn) f <= 270 /\ 8192 * 8000 * packet_bytes (rf * bn) f <= rf * f * bn + 256 * f.
Proof.
  intros Hr Hf Hb Hrf. unfold packet_bytes.
  assert (0 <= (rf * bn + 256) / 512) by (apply Z.div_pos; nia).
  assert (512 * ((rf * bn + 256) / 512) <= rf * bn + 256) as H1 by (apply Z.mul_div_le; lia).
  set (q := (rf * bn + 256) / 512) in *. clearbody q.
  assert (rf * f * bn <= 552960 * 32000) by nia.
  assert (512 * (q * f) <= rf * f * bn + 256 * f) by (destruct Hf; subst f; lia).
  assert (0 <= q * f) by (destruct Hf; subst f; lia).
  set (u := q * f) in *. clearbody u. set (v := rf * f * bn) in *. clearbody v.
  destruct Hf; subst f; Z.div_mod_to_equations; lia.
Qed.

(** Time a packet of the minimal size takes through the bottle neck. *)
Lemma transmission_bound rf bn f m t :
  frame_samples f -> 10000 <= bn -> 8192 * 8000 * m <= rf * f * bn + 256 * f ->
  rf * f + 25 <= 8192 * (t + 1) -> m * 8000 / bn <= t.
Proof.
  intros Hf Hb Hm Ht. apply Zlt_succ_le, Z.div_lt_upper_bound; [lia|].
  assert (rf * f * bn + 25 * bn <= 8192 * (t + 1) * bn) by nia.
  assert (bn * Z.succ t = (t + 1) * bn) as -> by lia.
  destruct Hf; subst f; lia.
Qed.

Section RateModel.
Context `{SplLaws}.

Lemma rate_fits rf bn : 0 <= rf <= 1000 -> 10000 <= bn <= 32000 -> s32 (rf * bn) = rf * bn.
Proof. intros Hr Hb. apply s32_id. widths. nia. Qed.

(** A rate below 104% of the bottle neck is raised by 4.3%. *)
Lemma raise_rate rf bn :
  0 <= rf <= 900 -> 10000 <= bn <= 32000 ->
  (if rf * bn <? spl_mul 532 bn then s32 (rf * bn + spl_mul 22 bn) else rf * bn)
  = (if rf <? 532 then rf + 22 else rf) * bn.
Proof.
  intros Hr Hb. rewrite !spl_mul_spec by clia. bcase; bcase; try nia.
  rewrite <- Z.mul_add_distr_r. apply rate_fits; lia.
Qed.

(** The rate, relative to the bottle neck in Q9, when the buffer holds at least
    two thirds of the allowed delay. *)
Definition full_buffer_rate (sb d f inv : Z) : Z :=
  if sb <? d then 512 + 16 * ((d - sb) * inv / 8)
  else if f <=? 16 * (sb - d) then 0 else 512 - 16 * (sb - d) * inv / 8.

Lemma full_buffer_rate_bounds sb d f inv :
  0 <= sb <= 2000 -> 5 <= d <= 25 -> 342 * d / 512 <= sb -> (f = 480 /\ inv = 8 \/ f = 960 /\ inv = 4) ->
  let rf := full_buffer_rate sb d f inv in
  let rf' := if rf <? 532 then rf + 22 else rf in
  0 <= rf <= 900 /\ rf' * f <= 552960 /\ rf' * f + 25 <= 8192 * (Z.max d sb + 3 - sb + f / 16).
Proof.
  intros Hs Hd Hfull Hf. cbv zeta. unfold full_buffer_rate.
  destruct Hf as [[-> ->]|[-> ->]]; repeat bcase; Z.div_mod_to_equations; lia.
Qed.

(** The rate of a burst packet fills the buffer up to the allowed delay. *)
Lemma burst_rate_spec size f bn d r :
  rate_args size f bn d -> rate_inv r -> 0 < BurstCounter r ->
  exists rf, burst_rate f bn d r = Next (rf * bn) (r <| BurstCounter := BurstCounter r - 1 |>)
    /\ 0 <= rf /\ rf * f <= 552960
    /\ rf * f + 25 <= 8192 * (Z.max d (StillBuffered r) + 3 - StillBuffered r + f / 16).
Proof.
  intros [_ Hf Hbn Hd] [] Hb. unfold burst_rate. rewrite bind_get.
  change (512 - 512 / BURST_LEN) with 342. rewrite shiftr_div by lia. change (2 ^ 9) with 512.
  assert (s16 (BurstCounter r - 1) = BurstCounter r - 1) as Hburst by (apply s16_id; clia).
  destruct (Z.ltb_spec (StillBuffered r) (342 * d / 512)) as [Hlow|Hhigh].
  - assert (exists inv, cdiv 4096 (BURST_LEN * f) = Some inv /\ (f = 480 /\ inv = 2 \/ f = 960 /\ inv = 1))
      as (inv & Ei & Hi).
    { destruct Hf; subst f; [exists 2|exists 1]; (split; [reflexivity|lia]). }
    exists (512 + 16 * (d * inv / 8)).
    assert (0 <= 512 + 16 * (d * inv / 8) <= 1000) as Hr
      by (destruct Hi as [[-> ->]|[-> ->]]; Z.div_mod_to_equations; lia).
    split.
    + unfold bind at 1 2. rewrite Ei. cbn [mem]. unfold ret, modify, bind. rewrite Hburst.
      rewrite shiftr_div by lia. consts. rewrite rate_fits by assumption. reflexivity.
    + destruct Hi as [[-> ->]|[-> ->]]; Z.div_mod_to_equations; lia.
  - assert (exists inv, cdiv 4096 f = Some inv /\ (f = 480 /\ inv = 8 \/ f = 960 /\ inv = 4))
      as (inv & Ei & Hi).
    { destruct Hf; subst f; [exists 8|exists 4]; (split; [reflexivity|lia]). }
    destruct (full_buffer_rate_bounds (StillBuffered r) d f inv) as (H1 & H2 & H3); [assumption..|].
    set (rf := full_buffer_rate (StillBuffered r) d f inv) in *.
    exists (if rf <? 532 then rf + 22 else rf). split; [|split; [bcase; lia|split; assumption]].
    unfold bind at 1 2. rewrite Ei. cbn [mem]. unfold ret, modify, bind. rewrite Hburst.
    rewrite !shiftr_div by lia. consts. change (2 ^ 3) with 8.
    rewrite (spl_mul_spec 16) by clia.
    match goal with |- Next (if ?x <? _ then _ else _) _ = _ => assert (x = rf * bn) as -> end.
    { unfold rf, full_buffer_rate in *. repeat bcase; try lia; rewrite ?(s32_id (16 * _ * _)).
      all: try (rewrite rate_fits; lia). destruct Hi as [[-> ->]|[-> ->]]; clia. }
    rewrite raise_rate by assumption. reflexivity.
Qed.

(** The minimal size: at most 270 bytes and, after the initial burst, no more
    than the buffer may take. *)
Lemma min_rate_spec size f bn d r :
  rate_args size f bn d -> rate_inv r ->
  exists x r', min_rate f bn d r = Next x r' /\ rate_inv r' /\ StillBuffered r' = StillBuffered r
    /\ 0 <= x <= 100000000 /\ 0 <= packet_bytes x f <= 270
    /\ (InitCounter r = 0 ->
        packet_bytes x f * 8000 / bn
        <= Z.max d (StillBuffered r) + 2 - StillBuffered r + f / 16).
Proof.
  intros Ha I. assert (Ha' := Ha). destruct Ha as [_ Hf Hbn Hd]. assert (I' := I). destruct I as [].
  unfold min_rate. rewrite bind_get. bcase.
  - eexists _, _. split; [reflexivity|]. rewrite s16_id by clia.
    split; [split; rate_fields; try assumption; lia|]. split; [reflexivity|].
    unfold packet_bytes, INIT_RATE, INIT_BURST_LEN.
    bcase; (split; [lia|]); (split; [|lia]); destruct Hf; subst f; vm_compute; split; discriminate.
  - bcase.
    + unfold truthy in E0. apply negb_true_iff, Z.eqb_neq in E0.
      destruct (burst_rate_spec size f bn d r Ha' I') as (rf & E1 & Hr & Hmax & Hfill); [lia|].
      exists (rf * bn). eexists. split; [exact E1|].
      destruct (packet_bytes_bound rf bn f) as [Hm Hm']; [assumption..|].
      split; [split; rate_fields; try assumption; lia|]. split; [reflexivity|].
      assert (rf <= 1152) by (destruct Hf; subst f; lia).
      split; [nia|]. split; [exact Hm|]. intros _.
      eapply transmission_bound; [exact Hf|apply Hbn|exact Hm'|]. lia.
    + exists 0, r. split; [reflexivity|]. split; [exact I'|]. split; [reflexivity|]. split; [lia|].
      destruct (packet_bytes_bound 0 bn f) as [Hm Hm']; [lia|assumption|assumption|lia|].
      rewrite Z.mul_0_l in Hm, Hm'. split; [exact Hm|]. intros _.
      eapply (transmission_bound 0); [exact Hf|apply Hbn|lia|]. destruct Hf; subst f; dmlia.
Qed.

Lemma track_exceed_ok size f bn r :
  frame_samples f -> rate_inv r ->
  exists r', track_exceed size f bn r = Next tt r' /\ rate_inv r'
    /\ StillBuffered r' = StillBuffered r /\ InitCounter r' = InitCounter r.
Proof.
  intros Hf []. unfold track_exceed. rewrite bind_get.
  assert (exists q, cdiv (s32 (size * FS8)) f = Some q) as [q Eq]
    by (unfold cdiv; destruct Hf; subst f; eexists; reflexivity).
  rewrite (bind_mem _ _ _ _ Eq). cbv zeta. bcase; [bcase|]; eexists; (split; [reflexivity|]);
    (split; [split; rate_fields; try assumption; try lia|split; reflexivity]); auto with cint.
  bcase; [clia|]. auto with cint.
Qed.

Lemma start_burst_ok r :
  rate_inv r -> rate_inv (start_burst r) /\ StillBuffered (start_burst r) = StillBuffered r.
Proof.
  intros I. assert (I' := I). destruct I as []. unfold start_burst. bcase; [|done].
  split; [|reflexivity]. split; rate_fields; try assumption. unfold BURST_LEN. bcase; lia.
Qed.

(** The buffer after a packet of [size] bytes. *)
Lemma update_buffer_spec r size f bn :
  0 <= StillBuffered r <= 2000 -> 0 <= size <= 600 -> frame_samples f -> 10000 <= bn ->
  cdiv (s32 (size * 8000)) bn = Some (size * 8000 / bn)
  /\ update_buffer (s16 (size * 8000 / bn)) (Z.quot f SAMPLES_PER_MSEC) r
     = r <| StillBuffered := Z.max 0 (Z.min 2000 (StillBuffered r + size * 8000 / bn - f / 16)) |>.
Proof.
  intros Hs Hz Hf Hb. rewrite s32_id, cdiv_pos by clia. split; [reflexivity|].
  assert (0 <= size * 8000 / bn <= 480) as Ht.
  { split; [apply Z.div_pos; lia|]. apply Z.div_le_upper_bound; lia. }
  set (t := size * 8000 / bn) in *. clearbody t. unfold update_buffer, SAMPLES_PER_MSEC. rate_fields.
  rewrite (s16_id t), (s16_id (StillBuffered r + t)) by clia.
  assert (exists ms, Z.quot f 16 = ms /\ f / 16 = ms /\ 30 <= ms <= 60) as (ms & -> & -> & Hms).
  { destruct Hf; subst f; eexists; split; [reflexivity|split; [reflexivity|]|reflexivity|split; [reflexivity|]].
    all: vm_compute; split; discriminate. }
  rewrite s16_id by clia. destruct (Z.ltb_spec (StillBuffered r + t - ms) 0); rate_fields.
  - unfold set. cbn. f_equal. lia.
  - bcase; unfold set; cbn; f_equal; lia.
Qed.

End RateModel.

(** The rate model keeps its counters and its buffer (0 to 2000 ms) in range
    and asks for at most 270 bytes; after the initial burst a packet of the
    minimal size takes the buffer of the bottle neck at most 2 ms above the
    allowed delay, or above its previous value if that was larger. *)
Theorem GetMinBytes_bounds `{SplLaws} size f bn d r :
  rate_args size f bn d -> rate_inv r ->
  exists m r', WebRtcIsacfix_GetMinBytes (R:=Z) size f bn d r = Next m r' /\ rate_inv r'
    /\ 0 <= m <= 270
    /\ (InitCounter r = 0 -> size <= m -> StillBuffered r' <= Z.max d (StillBuffered r) + 2).
Proof.
  intros Ha I. destruct (min_rate_spec size f bn d r Ha I) as (x & r1 & E1 & I1 & Hs1 & Hx & Hm & Hfill).
  destruct Ha as [Hsize Hf Hbn Hd].
  assert (u16 (u32 (s32 (Z.shiftr (s32 (x + 256)) 9 * f)) / FS8) = packet_bytes x f) as Em.
  { rewrite (s32_id (x + 256)), shiftr_div by clia. unfold packet_bytes in *. change (2 ^ 9) with 512.
    assert (0 <= (x + 256) / 512 * f < 2 ^ 31) by (destruct Hf; subst f; dmlia).
    unfold FS8. rewrite s32_id, u32_id, u16_id by clia. reflexivity. }
  set (m := packet_bytes x f) in *.
  set (size' := if size <? m then s16 m else size).
  assert (Hsize' : size' = Z.max size m) by (unfold size'; bcase; rewrite ?s16_id; clia).
  destruct (track_exceed_ok size' f bn r1 Hf I1) as (r2 & E2 & I2 & Hs2 & _).
  destruct (start_burst_ok r2 I2) as [I3 Hs3].
  rewrite Hs1 in Hs2. rewrite Hs2 in Hs3.
  destruct (update_buffer_spec (start_burst r2) size' f bn) as [Et Hbuf]; [apply I3|lia|exact Hf|lia|].
  eexists m, _. split; [|split; [|split; [exact Hm|]]].
  - unfold WebRtcIsacfix_GetMinBytes. apply fn_Next. rewrite (bind_Next _ _ _ _ _ E1). cbv zeta.
    rewrite Em. fold size'. rewrite (bind_Next _ _ _ _ _ E2).
    change (bind (modify ?g) ?k r2) with (k tt (g r2)). cbv beta. rewrite (bind_mem _ _ _ _ Et).
    unfold bind, modify, ret. rewrite Hbuf. reflexivity.
  - destruct I3 as []. split; rate_fields; try assumption. lia.
  - intros Hi Hle. rate_fields. rewrite Hs3. assert (size' = m) as -> by lia. specialize (Hfill Hi). lia.
Qed.

(** A packet of a burst. *)
Lemma GetMinBytes_bounds_witness :
  rate_args 60 480 20000 10 /\ rate_inv (mkRateModel 0 900 3 0 4)
  /\ exists m r', WebRtcIsacfix_GetMinBytes (R:=Z) 60 480 20000 10 (mkRateModel 0 900 3 0 4) = Next m r'
       /\ 60 <= m /\ StillBuffered r' <= 12.
Proof.
  assert (rate_args 60 480 20000 10) as Ha by (split; [lia|by left|lia|lia]).
  assert (rate_inv (mkRateModel 0 900 3 0 4)) as Hr by (split; cbn; clia).
  split; [exact Ha|]. split; [exact Hr|].
  destruct (GetMinBytes_bounds _ _ _ _ _ Ha Hr) as (m & r' & E & _ & _ & Hb).
  assert (60 <= m) as Hm.
  { pose proof (f_equal (fun o => match o with Next m _ => m | _ => 0 end) E) as Em.
    cbv beta iota in Em. rewrite <- Em. vm_compute. discriminate. }
  exists m, r'. split; [exact E|]. split; [exact Hm|]. exact (Hb eq_refl Hm).
Defined.

(** The model over a sequence of payloads with constant parameters. *)
Fixpoint send_payloads `{SplOps} (sizes : list Z) (f bn d : Z) : stmt RateModel Z unit :=
  match sizes with
  | [] => ret tt
  | size :: sizes => WebRtcIsacfix_GetMinBytes size f bn d ;; send_payloads sizes f bn d
  end.

(** The 16-bit counter of the time since the bottle neck was exceeded has no
    upper limit: 33 seconds of payloads at the rate of the bottle neck, with a
    buffer of more than the allowed delay, make it wrap to a negative time. *)
Theorem ExceedAgo_wraps :
  exists r, send_payloads (repeat 75 15 ++ 400 :: repeat 75 1077) 480 20000 10
              (WebRtcIsacfix_InitRateModel (mkRateModel 0 0 0 0 0)) = Next tt r
    /\ ExceedAgo r < 0 /\ StillBuffered r = 131.
Proof. eexists. split; [vm_compute; reflexivity|]. split; reflexivity. Qed.

(** The frame length of the encoder has a hysteresis: it stays one of the two
    lengths, a second decision at the same rate changes nothing, rates between
    18000 and 26999 bps never change it, and any other frame length is an error. *)
Theorem frame_length_hysteresis bn f :
  (frame_samples f ->
     let f' := WebRtcIsacfix_GetNewFrameLength bn f in
     frame_samples f' /\ WebRtcIsacfix_GetNewFrameLength bn f' = f'
     /\ (18000 <= bn < 27000 -> f' = f)
     /\ (bn < 18000 -> f' = 960) /\ (27000 <= bn -> f' = 480))
  /\ (~ frame_samples f -> WebRtcIsacfix_GetNewFrameLength bn f = -1).
Proof.
  unfold frame_samples, WebRtcIsacfix_GetNewFrameLength, Thld_30_60, Thld_60_30. cbv zeta. split.
  - intros [->| ->]; cbn [Z.eqb Pos.eqb]; repeat bcase; lia.
  - intros Hf. repeat bcase; lia.
Qed.

(** The thresholds at 20 kbps. *)
Lemma frame_length_hysteresis_witness :
  frame_samples 960 /\ WebRtcIsacfix_GetNewFrameLength 20000 960 = 960.
Proof.
  split; [by right|]. destruct (frame_length_hysteresis 20000 960) as [Hf _].
  destruct (Hf (or_intror eq_refl)) as (_ & _ & Hmid & _). apply Hmid. lia.
Defined.
