(* ===== verification/IsacCrc.v ===== *)
(** * Checksum of the iSAC payload

    [isac/main/source/crc.c]: the table-driven checksum [WebRtcIsac_GetCrc] over
    the bytes of a payload. It is the bit-serial division by the polynomial
    [0x04c11db7] (most significant bit first, initial state all ones, result
    complemented), and it detects every change confined to one byte. *)

From S2P Require Import Prelude Spl.

Definition POLYNOMIAL : Z := 0x04c11db7.

Definition kCrcTable : list Z :=
  [0; 79764919; 159529838; 222504665; 319059676; 398814059; 445009330; 507990021; 638119352;
   583659535; 797628118; 726387553; 890018660; 835552979; 1015980042; 944750013; 1276238704;
   1221641927; 1167319070; 1095957929; 1595256236; 1540665371; 1452775106; 1381403509;
   1780037320; 1859660671; 1671105958; 1733955601; 2031960084; 2111593891; 1889500026;
   1952343757; 2552477408; 2632100695; 2443283854; 2506133561; 2334638140; 2414271883;
   2191915858; 2254759653; 3190512472; 3135915759; 3081330742; 3009969537; 2905550212;
   2850959411; 2762807018; 2691435357; 3560074640; 3505614887; 3719321342; 3648080713;
   3342211916; 3287746299; 3467911202; 3396681109; 4063920168; 4143685023; 4223187782;
   4286162673; 3779000052; 3858754371; 3904687514; 3967668269; 881225847; 809987520;
   1023691545; 969234094; 662832811; 591600412; 771767749; 717299826; 311336399; 374308984;
   453813921; 533576470; 25881363; 88864420; 134795389; 214552010; 2023205639; 2086057648;
   1897238633; 1976864222; 1804852699; 1867694188; 1645340341; 1724971778; 1587496639;
   1516133128; 1461550545; 1406951526; 1302016099; 1230646740; 1142491917; 1087903418;
   2896545431; 2825181984; 2770861561; 2716262478; 3215044683; 3143675388; 3055782693;
   3001194130; 2326604591; 2389456536; 2200899649; 2280525302; 2578013683; 2640855108;
   2418763421; 2498394922; 3769900519; 3832873040; 3912640137; 3992402750; 4088425275;
   4151408268; 4197601365; 4277358050; 3334271071; 3263032808; 3476998961; 3422541446;
   3585640067; 3514407732; 3694837229; 3640369242; 1762451694; 1842216281; 1619975040;
   1682949687; 2047383090; 2127137669; 1938468188; 2001449195; 1325665622; 1271206113;
   1183200824; 1111960463; 1543535498; 1489069629; 1434599652; 1363369299; 622672798;
   568075817; 748617968; 677256519; 907627842; 853037301; 1067152940; 995781531; 51762726;
   131386257; 177728840; 240578815; 269590778; 349224269; 429104020; 491947555; 4046411278;
   4126034873; 4172115296; 4234965207; 3794477266; 3874110821; 3953728444; 4016571915;
   3609705398; 3555108353; 3735388376; 3664026991; 3290680682; 3236090077; 3449943556;
   3378572211; 3174993278; 3120533705; 3032266256; 2961025959; 2923101090; 2868635157;
   2813903052; 2742672763; 2604032198; 2683796849; 2461293480; 2524268063; 2284983834;
   2364738477; 2175806836; 2238787779; 1569362073; 1498123566; 1409854455; 1355396672;
   1317987909; 1246755826; 1192025387; 1137557660; 2072149281; 2135122070; 1912620623;
   1992383480; 1753615357; 1816598090; 1627664531; 1707420964; 295390185; 358241886; 404320391;
   483945776; 43990325; 106832002; 186451547; 266083308; 932423249; 861060070; 1041341759;
   986742920; 613929101; 542559546; 756411363; 701822548; 3316196985; 3244833742; 3425377559;
   3370778784; 3601682597; 3530312978; 3744426955; 3689838204; 3819031489; 3881883254;
   3928223919; 4007849240; 4037393693; 4100235434; 4180117107; 4259748804; 2310601993;
   2373574846; 2151335527; 2231098320; 2596047829; 2659030626; 2470359227; 2550115596;
   2947551409; 2876312838; 2788305887; 2733848168; 3165939309; 3094707162; 3040238851;
   2985771188].

Section crc.
Context `{SplOps}.

(** One byte of the loop. *)
Definition crc_step (crc_state byte : Z) : option Z :=
  let crc_tbl_indx := Z.land (Z.lxor (spl_rshift_u32 crc_state 24) byte) 0xFF in
  t ← zget kCrcTable crc_tbl_indx;
  Some (Z.lxor (u32 (Z.shiftl crc_state 8)) t).

Fixpoint crc_loop (bytes : list Z) (crc_state : Z) : option Z :=
  match bytes with
  | [] => Some crc_state
  | b :: bytes' => s ← crc_step crc_state b; crc_loop bytes' s
  end.

(** The return value and the checksum; a null pointer has no bytes. The loop
    reads [len_bitstream_in_bytes] bytes of the buffer. *)
Definition WebRtcIsac_GetCrc (bitstream : option (list Z)) (len_bitstream_in_bytes crc : Z) :
    option (Z * Z) :=
  match bitstream with
  | None => Some (-1, crc)
  | Some bytes =>
      if Z.of_nat (length bytes) <? len_bitstream_in_bytes then None
      else
        s ← crc_loop (take (Z.to_nat len_bitstream_in_bytes) bytes) 0xFFFFFFFF;
        Some (0, u32 (Z.lnot s))
  end.
End crc.

(** ** The bit-serial checksum *)

Definition bit_step (s : Z) : Z :=
  let s2 := u32 (Z.shiftl s 1) in
  if Z.testbit s 31 then Z.lxor s2 POLYNOMIAL else s2.

Definition byte_step (s b : Z) : Z := Nat.iter 8 bit_step (Z.lxor s (Z.shiftl b 24)).

Definition crc_spec (bytes : list Z) : Z := u32 (Z.lnot (foldl byte_step 0xFFFFFFFF bytes)).

(** ** Bits of words *)

Lemma u32_bits z i : 0 <= i -> Z.testbit (u32 z) i = if i <? 32 then Z.testbit z i else false.
Proof.
  intros Hi. unfold u32. destruct (Z.ltb_spec i 32).
  - by rewrite Z.mod_pow2_bits_low by lia.
  - by rewrite Z.mod_pow2_bits_high by lia.
Qed.

Lemma is_u32_bits z : is_u32 z -> forall i, 32 <= i -> Z.testbit z i = false.
Proof. intros Hz i Hi. rewrite <- (u32_id z Hz), u32_bits by lia. by rewrite (proj2 (Z.ltb_ge _ _)). Qed.

Lemma bits_is_u32 z : 0 <= z -> (forall i, 32 <= i -> Z.testbit z i = false) -> is_u32 z.
Proof.
  intros Hz Hb. assert (z = u32 z) as ->; [|apply u32_range].
  apply Z.bits_inj'. intros i Hi. rewrite u32_bits by done.
  destruct (Z.ltb_spec i 32); [done|]. by apply Hb.
Qed.

Lemma lxor_u32 a b : is_u32 a -> is_u32 b -> is_u32 (Z.lxor a b).
Proof.
  intros Ha Hb. apply bits_is_u32.
  - apply Z.lxor_nonneg. clia.
  - intros i Hi. by rewrite Z.lxor_spec, (is_u32_bits a), (is_u32_bits b).
Qed.

Lemma u32_lxor a b : u32 (Z.lxor a b) = Z.lxor (u32 a) (u32 b).
Proof.
  apply Z.bits_inj'. intros i Hi. rewrite Z.lxor_spec, !u32_bits, Z.lxor_spec by done.
  by destruct (i <? 32).
Qed.

#[local] Hint Resolve lxor_u32 u32_range : cint.

Lemma bit_step_u32 s : is_u32 (bit_step s).
Proof. unfold bit_step. destruct (Z.testbit s 31); [apply lxor_u32; [apply u32_range|unfold POLYNOMIAL; clia]|apply u32_range]. Qed.

(** The step is linear. *)
Lemma bit_step_lxor a b : bit_step (Z.lxor a b) = Z.lxor (bit_step a) (bit_step b).
Proof.
  unfold bit_step. rewrite Z.lxor_spec, Z.shiftl_lxor, u32_lxor.
  destruct (Z.testbit a 31), (Z.testbit b 31); simpl.
  - rewrite (Z.lxor_assoc (u32 (Z.shiftl a 1))), <- (Z.lxor_assoc POLYNOMIAL), (Z.lxor_comm POLYNOMIAL).
    by rewrite (Z.lxor_assoc (u32 (Z.shiftl b 1))), Z.lxor_nilpotent, Z.lxor_0_r.
  - by rewrite !Z.lxor_assoc, (Z.lxor_comm POLYNOMIAL).
  - by rewrite Z.lxor_assoc.
  - done.
Qed.

Lemma bit_steps_lxor n a b :
  Nat.iter n bit_step (Z.lxor a b) = Z.lxor (Nat.iter n bit_step a) (Nat.iter n bit_step b).
Proof. induction n as [|n IH]; [done|]. simpl. by rewrite IH, bit_step_lxor. Qed.

(** A word below [2^(32-n)] is only shifted. *)
Lemma bit_steps_low n z :
  (n <= 32)%nat -> 0 <= z < 2 ^ (32 - Z.of_nat n) -> Nat.iter n bit_step z = z * 2 ^ Z.of_nat n.
Proof.
  induction n as [|n IH]; intros Hn Hz; [simpl; lia|].
  assert (Hp : 2 ^ (32 - Z.of_nat n) = 2 * 2 ^ (32 - Z.of_nat (S n))).
  { rewrite <- Z.pow_succ_r by lia. f_equal. lia. }
  simpl Nat.iter. rewrite IH by lia. unfold bit_step.
  assert (E : 2 ^ (32 - Z.of_nat (S n)) * 2 ^ Z.of_nat n = 2 ^ 31) by (rewrite <- Z.pow_add_r by lia; f_equal; lia).
  assert (0 < 2 ^ Z.of_nat n) by (apply Z.pow_pos_nonneg; lia).
  assert (0 <= z * 2 ^ Z.of_nat n < 2 ^ 31) as Hr by nia.
  assert (Z.testbit (z * 2 ^ Z.of_nat n) 31 = false) as ->.
  { rewrite <- (Z.mod_small _ (2 ^ 31) Hr). apply Z.mod_pow2_bits_high. lia. }
  rewrite shiftl_mul, u32_id by (lia || clia).
  rewrite Nat2Z.inj_succ, Z.pow_succ_r by lia. change (2 ^ 1) with 2. lia.
Qed.

(** ** The table *)

Definition table_ok : bool :=
  forallb (fun i => default 0 (kCrcTable !! i) =? Nat.iter 8 bit_step (Z.shiftl (Z.of_nat i) 24)) (seq 0 256).

Lemma table_ok_true : table_ok = true.
Proof. vm_compute. reflexivity. Qed.

Lemma table_spec i :
  0 <= i < 256 -> zget kCrcTable i = Some (Nat.iter 8 bit_step (Z.shiftl i 24)).
Proof.
  intros Hi. pose proof table_ok_true as Ht. unfold table_ok in Ht. rewrite forallb_forall in Ht.
  specialize (Ht (Z.to_nat i) (proj2 (in_seq 256 0 (Z.to_nat i)) ltac:(lia))).
  apply Z.eqb_eq in Ht. rewrite Z2Nat.id in Ht by lia. rewrite <- Ht.
  unfold zget. rewrite (proj2 (Z.ltb_ge _ _)) by lia.
  by destruct (lookup_lt_is_Some_2 kCrcTable (Z.to_nat i) ltac:(simpl; lia)) as [v ->].
Qed.

(** The top byte and the rest of a word. *)
Lemma word_split s : is_u32 s -> s = Z.lxor (Z.shiftl (s / 2 ^ 24) 24) (s mod 2 ^ 24).
Proof.
  intros Hs. apply Z.bits_inj'. intros i Hi. rewrite Z.lxor_spec, Z.shiftl_spec by done.
  destruct (Z_lt_le_dec i 24).
  - rewrite (Z.testbit_neg_r _ (i - 24)) by lia. by rewrite Z.mod_pow2_bits_low by lia.
  - rewrite Z.mod_pow2_bits_high by lia. rewrite Z.div_pow2_bits by lia.
    replace (i - 24 + 24) with i by lia. by rewrite xorb_false_r.
Qed.

Lemma lxor_u8 a b : is_u8 a -> is_u8 b -> is_u8 (Z.lxor a b).
Proof.
  intros Ha Hb. assert (Z.lxor a b = u8 (Z.lxor a b)) as ->; [|apply u8_range].
  apply Z.bits_inj'. intros i Hi. unfold u8. destruct (Z_lt_le_dec i 8).
  - by rewrite Z.mod_pow2_bits_low by lia.
  - rewrite Z.mod_pow2_bits_high, Z.lxor_spec by lia.
    rewrite <- (Z.mod_small a (2 ^ 8)), <- (Z.mod_small b (2 ^ 8)) by clia.
    by rewrite !Z.mod_pow2_bits_high by lia.
Qed.

Section spec.
Context `{SplLaws}.

(** A table step is eight bit steps. *)
Lemma crc_step_spec s b :
  is_u32 s -> is_u8 b -> crc_step s b = Some (byte_step s b).
Proof.
  intros Hs Hb. unfold crc_step, byte_step.
  rewrite spl_rshift_u32_spec by (done || lia).
  assert (Hi : is_u8 (Z.lxor (s / 2 ^ 24) b)) by (apply lxor_u8; [dmlia|done]).
  rewrite land_low8. fold (u8 (Z.lxor (s / 2 ^ 24) b)). rewrite u8_id by done.
  rewrite table_spec by (unfold is_u8 in Hi; clia). simpl mbind. f_equal.
  rewrite (word_split s Hs) at 3.
  rewrite (Z.lxor_comm (Z.shiftl (s / 2 ^ 24) 24)), Z.lxor_assoc, <- Z.shiftl_lxor.
  rewrite bit_steps_lxor, (bit_steps_low 8 (s mod 2 ^ 24)) by (lia || dmlia). f_equal.
  rewrite shiftl_mul by lia. dmlia.
Qed.

Lemma byte_step_u32 s b : is_u32 s -> is_u8 b -> is_u32 (byte_step s b).
Proof. intros Hs Hb. unfold byte_step. cbn [Nat.iter nat_rect]. apply bit_step_u32. Qed.

Lemma crc_loop_spec bytes s :
  is_u32 s -> Forall is_u8 bytes -> crc_loop bytes s = Some (foldl byte_step s bytes).
Proof.
  intros Hs Hb. revert s Hs. induction Hb as [|b bytes Hb _ IH]; intros s Hs; [done|].
  simpl. rewrite crc_step_spec by done. simpl. apply IH. by apply byte_step_u32.
Qed.

Lemma GetCrc_spec bytes len c :
  Forall is_u8 bytes -> 0 <= len <= Z.of_nat (length bytes) ->
  WebRtcIsac_GetCrc (Some bytes) len c = Some (0, crc_spec (take (Z.to_nat len) bytes)).
Proof.
  intros Hb Hlen. unfold WebRtcIsac_GetCrc. rewrite (proj2 (Z.ltb_ge _ _)) by lia.
  by rewrite crc_loop_spec by (clia || by apply Forall_take).
Qed.
End spec.

(** ** Detection *)

(** The low bytes of the table entries are distinct. *)
Definition low_bytes : list Z := map (fun t => t mod 256) kCrcTable.

Lemma low_bytes_NoDup : NoDup low_bytes.
Proof. apply (bool_decide_unpack _). vm_compute. reflexivity. Qed.

Lemma table_low_inj i j a b :
  zget kCrcTable i = Some a -> zget kCrcTable j = Some b -> a mod 256 = b mod 256 -> i = j.
Proof.
  unfold zget. destruct (Z.ltb_spec i 0), (Z.ltb_spec j 0); try done. intros Ea Eb E.
  assert (Z.to_nat i = Z.to_nat j); [|lia].
  apply (NoDup_lookup low_bytes _ _ (a mod 256) low_bytes_NoDup); unfold low_bytes.
  - by rewrite list_lookup_fmap, Ea.
  - by rewrite list_lookup_fmap, Eb, E.
Qed.

Section detect.
Context `{SplLaws}.

(** Two steps with the same result have the same table index and the same
    lower 24 bits before. *)
Lemma crc_step_inj s s' b b' :
  is_u32 s -> is_u32 s' -> is_u8 b -> is_u8 b' -> crc_step s b = crc_step s' b' ->
  Z.lxor (s / 2 ^ 24) b = Z.lxor (s' / 2 ^ 24) b' /\ s mod 2 ^ 24 = s' mod 2 ^ 24.
Proof.
  intros Hs Hs' Hb Hb'. unfold crc_step. rewrite !spl_rshift_u32_spec by (done || lia).
  assert (Hi : is_u8 (Z.lxor (s / 2 ^ 24) b)) by (apply lxor_u8; [dmlia|done]).
  assert (Hi' : is_u8 (Z.lxor (s' / 2 ^ 24) b')) by (apply lxor_u8; [dmlia|done]).
  rewrite !land_low8. fold (u8 (Z.lxor (s / 2 ^ 24) b)) (u8 (Z.lxor (s' / 2 ^ 24) b')).
  rewrite !u8_id by done. set (i := Z.lxor (s / 2 ^ 24) b) in *. set (i' := Z.lxor (s' / 2 ^ 24) b') in *.
  assert (Et : exists t, zget kCrcTable i = Some t) by (rewrite table_spec by (unfold is_u8 in Hi; clia); eauto).
  assert (Et' : exists t, zget kCrcTable i' = Some t) by (rewrite table_spec by (unfold is_u8 in Hi'; clia); eauto).
  destruct Et as [t Et], Et' as [t' Et']. rewrite Et, Et'. simpl. intros [= E].
  assert (Elow : t mod 2 ^ 8 = t' mod 2 ^ 8).
  { apply Z.bits_inj'. intros n Hn. destruct (Z_lt_le_dec n 8).
    - rewrite !Z.mod_pow2_bits_low by lia. apply (f_equal (fun z => Z.testbit z n)) in E.
      rewrite !Z.lxor_spec, !u32_bits, !Z.shiftl_spec_low in E by lia.
      by destruct (n <? 32).
    - by rewrite !Z.mod_pow2_bits_high by lia. }
  assert (Ei : i = i') by (by eapply table_low_inj). split; [done|].
  rewrite <- Ei, Et in Et'. injection Et' as <-.
  assert (E2 : u32 (Z.shiftl s 8) = u32 (Z.shiftl s' 8)).
  { rewrite <- (Z.lxor_0_r (u32 (Z.shiftl s 8))), <- (Z.lxor_nilpotent t), <- Z.lxor_assoc, E.
    by rewrite Z.lxor_assoc, Z.lxor_nilpotent, Z.lxor_0_r. }
  rewrite !shiftl_mul in E2 by lia. dmlia.
Qed.

Lemma lxor_cancel_r a b c : Z.lxor a c = Z.lxor b c -> a = b.
Proof.
  intros E. rewrite <- (Z.lxor_0_r a), <- (Z.lxor_nilpotent c), <- Z.lxor_assoc, E.
  by rewrite Z.lxor_assoc, Z.lxor_nilpotent, Z.lxor_0_r.
Qed.

(** A byte acts injectively on the states, a state on the bytes. *)
Lemma byte_step_inj_l s s' b : is_u32 s -> is_u32 s' -> is_u8 b -> byte_step s b = byte_step s' b -> s = s'.
Proof.
  intros Hs Hs' Hb E.
  destruct (crc_step_inj s s' b b) as [E1 E2]; try done; [by rewrite !crc_step_spec, E by done|].
  apply lxor_cancel_r in E1. pose proof (Z_div_mod_eq_full s (2 ^ 24)).
  pose proof (Z_div_mod_eq_full s' (2 ^ 24)). lia.
Qed.

Lemma byte_step_inj_r s b b' : is_u32 s -> is_u8 b -> is_u8 b' -> byte_step s b = byte_step s b' -> b = b'.
Proof.
  intros Hs Hb Hb' E.
  destruct (crc_step_inj s s b b') as [E1 _]; try done; [by rewrite !crc_step_spec, E by done|].
  rewrite !(Z.lxor_comm (s / 2 ^ 24)) in E1. by apply lxor_cancel_r in E1.
Qed.

Lemma foldl_u32 bytes s : is_u32 s -> Forall is_u8 bytes -> is_u32 (foldl byte_step s bytes).
Proof.
  intros Hs Hb. revert s Hs. induction Hb; intros s Hs; [done|]. simpl. apply IHHb. by apply byte_step_u32.
Qed.

Lemma foldl_inj bytes s s' :
  is_u32 s -> is_u32 s' -> Forall is_u8 bytes ->
  foldl byte_step s bytes = foldl byte_step s' bytes -> s = s'.
Proof.
  intros Hs Hs' Hb. revert s s' Hs Hs'. induction Hb as [|b bytes Hb _ IH]; intros s s' Hs Hs' E; [done|].
  simpl in E. apply IH in E; [|by apply byte_step_u32..]. by eapply byte_step_inj_l.
Qed.

Lemma u32_lnot_inj a b : is_u32 a -> is_u32 b -> u32 (Z.lnot a) = u32 (Z.lnot b) -> a = b.
Proof. intros Ha Hb. unfold Z.lnot, Z.pred. dmlia. Qed.
End detect.

(** ** Properties *)

(** C37. The checksum of a payload is the remainder of the bit-serial division: the
    table lookups stay inside the table, and for every buffer of bytes and every
    length within it the result is 0 and the checksum [crc_spec] of the bytes. *)
Theorem GetCrc_bitwise `{SplLaws} bytes len c :
  Forall is_u8 bytes -> 0 <= len <= Z.of_nat (length bytes) ->
  WebRtcIsac_GetCrc (Some bytes) len c = Some (0, crc_spec (take (Z.to_nat len) bytes)).
Proof. apply GetCrc_spec. Qed.

(** The check value of the algorithm: the digits 1 to 9. *)
Lemma GetCrc_bitwise_witness :
  WebRtcIsac_GetCrc (Some [49; 50; 51; 52; 53; 54; 55; 56; 57]) 9 0 =
    Some (0, crc_spec [49; 50; 51; 52; 53; 54; 55; 56; 57]) /\
  crc_spec [49; 50; 51; 52; 53; 54; 55; 56; 57] = 0xFC891918.
Proof.
  split; [|vm_compute; reflexivity].
  apply (GetCrc_bitwise [49; 50; 51; 52; 53; 54; 55; 56; 57]); [|simpl; lia].
  repeat (constructor; [clia|]). constructor.
Defined.

(** The checksum detects every error confined to one byte: two payloads of
    the same length that differ in exactly one byte have different checksums. *)
Theorem GetCrc_detects_byte `{SplLaws} pre post b b' c :
  Forall is_u8 pre -> Forall is_u8 post -> is_u8 b -> is_u8 b' -> b <> b' ->
  let len := Z.of_nat (length pre + S (length post)) in
  exists x y, WebRtcIsac_GetCrc (Some (pre ++ b :: post)) len c = Some (0, x) /\
    WebRtcIsac_GetCrc (Some (pre ++ b' :: post)) len c = Some (0, y) /\ x <> y.
Proof.
  intros Hpre Hpost Hb Hb' Hne len.
  assert (Hspec : forall d, is_u8 d -> WebRtcIsac_GetCrc (Some (pre ++ d :: post)) len c =
    Some (0, u32 (Z.lnot (foldl byte_step (byte_step (foldl byte_step 0xFFFFFFFF pre) d) post)))).
  { intros d Hd. rewrite GetCrc_spec.
    - unfold crc_spec. rewrite take_ge by (rewrite length_app; simpl; lia).
      by rewrite foldl_app.
    - apply Forall_app. by split; [|constructor].
    - rewrite length_app. simpl. lia. }
  do 2 eexists. rewrite !Hspec by done. split_and!; [done..|].
  assert (is_u32 (foldl byte_step 0xFFFFFFFF pre)) as Hs by (apply foldl_u32; [clia|done]).
  intros E%u32_lnot_inj; [|by apply foldl_u32; [apply byte_step_u32|]..].
  apply foldl_inj in E; [|by apply byte_step_u32..|done]. apply byte_step_inj_r in E; done.
Qed.

Lemma GetCrc_detects_byte_witness :
  exists x y, WebRtcIsac_GetCrc (Some [1; 2; 3]) 3 0 = Some (0, x) /\
    WebRtcIsac_GetCrc (Some [1; 130; 3]) 3 0 = Some (0, y) /\ x <> y.
Proof.
  apply (GetCrc_detects_byte [1] [3] 2 130 0); try (repeat constructor; clia); clia.
Defined.
