(* ===== verification/IsacMainArith.v ===== *)
(** * Arithmetic coder of iSAC (floating point codec)

    [isac/main/source/arith_routines.c], [arith_routines_hist.c] and
    [arith_routines_logist.c]: the byte oriented coder of the wideband and
    super-wideband codec, with the structure [Bitstr] that both directions
    share. It refines the same [ArithSpec] as the 16-bit coder of iSAC fixed
    point, with other limits: histogram coding checks nothing but the buffer of
    600 bytes, logistic encoding stops at 400 bytes and logistic decoding at a
    look-ahead of 400 bytes. *)

From S2P Require Import Prelude Spl ArithSpec IsacFixArith IsacFixDec IsacFixStream IsacFixLogist.

Open Scope c_scope.

#[local] Arguments Nat.mul : simpl never.
#[local] Arguments Nat.add : simpl never.
#[local] Arguments Z.mul : simpl never.
#[local] Arguments pre : simpl never.

(** ** Data *)

Definition STREAM_SIZE_MAX : nat := 600.
Definition STREAM_SIZE_MAX_60 : nat := 400.

Record Bitstr := mkBitstr {
  b_stream : list Z;
  b_W_upper : Z;
  b_streamval : Z;
  b_stream_index : Z;
}.

(** The reset before a frame is coded or decoded. *)
Definition WebRtcIsac_ResetBitstream (s : Bitstr) : Bitstr := mkBitstr (b_stream s) 0xFFFFFFFF 0 0.

Definition set_bytes (l : list Z) (s : Bitstr) : Bitstr :=
  mkBitstr l (b_W_upper s) (b_streamval s) (b_stream_index s).
Definition set_sv (v : Z) (s : Bitstr) : Bitstr :=
  mkBitstr (b_stream s) (b_W_upper s) v (b_stream_index s).

(** ** Encoder *)

(** [while (!(++( *--stream_ptr)))] on bytes. *)
Fixpoint carry_bytes (ptr : nat) (l : list Z) : option (list Z) :=
  match ptr with
  | O => None
  | S q =>
      match l !! q with
      | None => None
      | Some b =>
          let b' := u8 (b + 1) in
          let l' := <[q:=b']> l in
          if b' =? 0 then carry_bytes q l' else Some l'
      end
  end.

(** [streamval += v], and the carry. *)
Definition add_sv {R} (ptr : nat) (v : Z) : stmt Bitstr R unit :=
  let! s := get in
  let sv := u32 (b_streamval s + v) in
  if sv <? v then
    let! l := mem (carry_bytes ptr (b_stream s)) in
    put (set_bytes l (set_sv sv s))
  else put (set_sv sv s).

(** [*stream_ptr++ = (uint8_t) (v >> n)] *)
Definition write_byte {R} (ptr : nat) (v : Z) : stmt Bitstr R nat :=
  let! s := get in
  let! l := mem (store (b_stream s) ptr (u8 v)) in
  put (set_bytes l s) ;; ret (S ptr).

(** The renormalisation loop; the logistic encoder checks the length. *)
Fixpoint enc_bytes (limited : bool) (fuel : nat) (ptr : nat) (W_upper : Z) :
    stmt Bitstr Z (nat * Z) :=
  match fuel with
  | O => fun _ => Spin
  | S fuel' =>
      if Z.land W_upper 0xFF000000 =? 0 then
        let W_upper := u32 (Z.shiftl W_upper 8) in
        let! s := get in
        let! ptr := write_byte ptr (Z.shiftr (b_streamval s) 24) in
        if limited && bool_decide (STREAM_SIZE_MAX_60 - 1 < ptr)%nat
        then return_ (- ISAC_DISALLOWED_BITSTREAM_LENGTH)
        else
          let! s := get in
          put (set_sv (u32 (Z.shiftl (b_streamval s) 8)) s) ;;
          enc_bytes limited fuel' ptr W_upper
      else ret (ptr, W_upper)
  end.

(** Each iteration writes a byte of the 600. *)
Definition bytes_fuel : nat := 602.

(** A table value scaled to the width. *)
Definition W_scale (W_upper c : Z) : Z :=
  let W_upper_LSB := Z.land W_upper 0x0000FFFF in
  let W_upper_MSB := Z.shiftr W_upper 16 in
  u32 (u32 (W_upper_MSB * c) + Z.shiftr (u32 (W_upper_LSB * c)) 16).

(** One symbol with cumulative frequencies [cdf_lo] and [cdf_hi]. *)
Definition put_symbol (limited : bool) (ptr : nat) (W_upper cdf_lo cdf_hi : Z) :
    stmt Bitstr Z (nat * Z) :=
  let W_lower := W_scale W_upper cdf_lo in
  let W_upper := W_scale W_upper cdf_hi in
  let W_lower := u32 (W_lower + 1) in
  let W_upper := u32 (W_upper - W_lower) in
  add_sv ptr W_lower ;;
  enc_bytes limited bytes_fuel ptr W_upper.

Fixpoint EncHist_loop (k : nat) (data : list Z) (cdf : list (list Z))
    (ptr : nat) (W_upper : Z) : stmt Bitstr Z (nat * Z) :=
  match k with
  | O => ret (ptr, W_upper)
  | S k' =>
      match data, cdf with
      | d :: data', c :: cdf' =>
          let! cdf_lo := mem (zget c d) in
          let! cdf_hi := mem (zget c (d + 1)) in
          let! r := put_symbol false ptr W_upper cdf_lo cdf_hi in
          EncHist_loop k' data' cdf' r.1 r.2
      | _, _ => fun _ => Fault
      end
  end.

(** Store the locals at the end of an encoding call. *)
Definition enc_store {R} (ptr : nat) (W_upper : Z) : stmt Bitstr R unit :=
  let! s := get in
  put (mkBitstr (b_stream s) W_upper (b_streamval s) (u32 (Z.of_nat ptr))).

(** The C function has no result; here it is 0. *)
Definition WebRtcIsac_EncHistMulti {R} (data : list Z) (cdf : list (list Z)) (N : Z) :
    stmt Bitstr R Z :=
  fn (let! s := get in
      let! r := EncHist_loop (Z.to_nat N) data cdf (Z.to_nat (b_stream_index s)) (b_W_upper s) in
      enc_store r.1 r.2 ;; ret 0).

Definition WebRtcIsac_EncTerminate {R} : stmt Bitstr R Z :=
  let! s := get in
  let ptr := Z.to_nat (b_stream_index s) in
  if 0x01FFFFFF <? b_W_upper s then
    add_sv ptr 0x01000000 ;;
    let! s := get in
    let! ptr := write_byte ptr (Z.shiftr (b_streamval s) 24) in
    ret (Z.of_nat ptr)
  else
    add_sv ptr 0x00010000 ;;
    let! s := get in
    let! ptr := write_byte ptr (Z.shiftr (b_streamval s) 24) in
    let! ptr := write_byte ptr (Z.land (Z.shiftr (b_streamval s) 16) 0x00FF) in
    ret (Z.of_nat ptr).

(** ** Logistic distribution *)

Definition kHistEdgesQ15 : list Z :=
  [-327680; -314573; -301466; -288359; -275252; -262144; -249037; -235930; -222823; -209716;
   -196608; -183501; -170394; -157287; -144180; -131072; -117965; -104858; -91751; -78644;
   -65536; -52429; -39322; -26215; -13108; 0; 13107; 26214; 39321; 52428;
   65536; 78643; 91750; 104857; 117964; 131072; 144179; 157286; 170393; 183500;
   196608; 209715; 222822; 235929; 249036; 262144; 275251; 288358; 301465; 314572;
   327680].

Definition kCdfSlopeQ0 : list Z :=
  [5; 5; 5; 5; 5; 5; 5; 5; 5; 5;
   5; 5; 13; 23; 47; 87; 154; 315; 700; 1088;
   2471; 6064; 14221; 21463; 36634; 36924; 19750; 13270; 5806; 2312;
   1095; 660; 316; 145; 86; 41; 32; 5; 5; 5;
   5; 5; 5; 5; 5; 5; 5; 5; 5; 2; 0].

Definition kCdfQ16 : list Z :=
  [0; 2; 4; 6; 8; 10; 12; 14; 16; 18;
   20; 22; 24; 29; 38; 57; 92; 153; 279; 559;
   994; 1983; 4408; 10097; 18682; 33336; 48105; 56005; 61313; 63636;
   64560; 64998; 65262; 65389; 65447; 65481; 65497; 65510; 65512; 65514;
   65516; 65518; 65520; 65522; 65524; 65526; 65528; 65530; 65532; 65534;
   65535].

Definition piecewise (xinQ15 : Z) : option Z :=
  e0 ← kHistEdgesQ15 !! 0%nat;
  e50 ← kHistEdgesQ15 !! 50%nat;
  let qtmp2 := xinQ15 in
  let qtmp2 := if qtmp2 <? e0 then e0 else qtmp2 in
  let qtmp2 := if e50 <? qtmp2 then e50 else qtmp2 in
  let qtmp1 := s32 (qtmp2 - e0) in
  let ind := Z.shiftr (s32 (qtmp1 * 5)) 16 in
  e ← zget kHistEdgesQ15 ind;
  let qtmp1 := s32 (qtmp2 - e) in
  slope ← zget kCdfSlopeQ0 ind;
  let qtmp2 := s32 (slope * qtmp1) in
  let qtmp3 := Z.shiftr qtmp2 15 in
  y ← zget kCdfQ16 ind;
  Some (u32 (y + qtmp3)).

(** [piecewise(x * *envQ8)], the product in an [int]. *)
Definition piecewise_at {S R} (env x : Z) : stmt S R Z := mem (piecewise (s32 (x * env))).

(** How far the pointer to the side information moves after sample [k]. *)
Definition env_advance (isSWB12kHz k : Z) : nat :=
  Z.to_nat (if negb (isSWB12kHz =? 0) then Z.land k 1 else Z.land (Z.land k 1) (Z.shiftr k 1)).

(** The samples clipped so far are [acc]; the result carries the array. *)
Fixpoint EncLogistic_loop (n : nat) (k : Z) (dataQ7 envQ8 acc : list Z) (isSWB12kHz : Z)
    (ptr : nat) (W_upper : Z) : stmt Bitstr (Z * list Z) (nat * Z * list Z) :=
  match n with
  | O => ret (ptr, W_upper, acc ++ dataQ7)
  | S n' =>
      match dataQ7 with
      | [] => fun _ => Fault
      | d :: data' =>
          let! env := mem (envQ8 !! 0%nat) in
          let! r := clip (piecewise_at env) d in
          let '(d, cdf_lo, cdf_hi) := r in
          let envQ8 := drop (env_advance isSWB12kHz k) envQ8 in
          let! r := try (put_symbol true ptr W_upper cdf_lo cdf_hi) in
          match r with
          | inl status => return_ (status, acc ++ d :: data')
          | inr (ptr, W_upper) =>
              EncLogistic_loop n' (k + 1) data' envQ8 (acc ++ [d]) isSWB12kHz ptr W_upper
          end
      end
  end.

(** The status and the array of samples after the call. *)
Definition WebRtcIsac_EncLogisticMulti2 {R} (dataQ7 envQ8 : list Z) (N isSWB12kHz : Z) :
    stmt Bitstr R (Z * list Z) :=
  fn (let! s := get in
      let! r := EncLogistic_loop (Z.to_nat N) 0 dataQ7 envQ8 [] isSWB12kHz
                  (Z.to_nat (b_stream_index s)) (b_W_upper s) in
      let '(ptr, W_upper, dataQ7) := r in
      enc_store ptr W_upper ;; ret (0, dataQ7)).

(** ** Decoder *)

(** The code value a call starts with, and the pointer, which stays at the last
    byte read. *)
Definition read_first {R} : stmt Bitstr R (nat * Z) :=
  let! s := get in
  let ptr := Z.to_nat (b_stream_index s) in
  if b_stream_index s =? 0 then
    let! b0 := mem (b_stream s !! ptr) in
    let! b1 := mem (b_stream s !! (ptr + 1)%nat) in
    let! b2 := mem (b_stream s !! (ptr + 2)%nat) in
    let! b3 := mem (b_stream s !! (ptr + 3)%nat) in
    let streamval := u32 (Z.shiftl b0 24) in
    let streamval := Z.lor streamval (Z.shiftl b1 16) in
    let streamval := Z.lor streamval (Z.shiftl b2 8) in
    ret ((ptr + 3)%nat, Z.lor streamval b3)
  else ret (ptr, b_streamval s).

(** The renormalisation loop. [guard] is the check of the logistic decoder:
    the result when the next byte is outside the first 400. *)
Fixpoint dec_bytes {R} (guard : option R) (fuel : nat) (ptr : nat) (W_upper streamval : Z) :
    stmt Bitstr R (nat * Z * Z) :=
  match fuel with
  | O => fun _ => Spin
  | S fuel' =>
      if Z.land W_upper 0xFF000000 =? 0 then
        let read : stmt Bitstr R (nat * Z * Z) :=
          let! s := get in
          let! b := mem (b_stream s !! S ptr) in
          let streamval := Z.lor (u32 (Z.shiftl streamval 8)) b in
          dec_bytes guard fuel' (S ptr) (u32 (Z.shiftl W_upper 8)) streamval in
        match guard with
        | Some fail =>
            if bool_decide (STREAM_SIZE_MAX_60 <= ptr + 1)%nat then return_ fail else read
        | None => read
        end
      else ret (ptr, W_upper, streamval)
  end.

(** The interval of the decoded symbol starts at zero again. *)
Definition dec_shift {R} (guard : option R) (ptr : nat) (W_lower W_upper streamval : Z) :
    stmt Bitstr R (nat * Z * Z) :=
  let W_lower := u32 (W_lower + 1) in
  let W_upper := u32 (W_upper - W_lower) in
  let streamval := u32 (streamval - W_lower) in
  dec_bytes guard bytes_fuel ptr W_upper streamval.

(** Store the locals and return the length of the original stream. *)
Definition dec_store {R A} (ptr : nat) (W_upper streamval : Z) (data : A) :
    stmt Bitstr R (Z * A) :=
  let! s := get in
  put (mkBitstr (b_stream s) W_upper streamval (u32 (Z.of_nat ptr))) ;;
  let! s := get in
  ret (if 0x01FFFFFF <? W_upper then s32 (b_stream_index s - 2) else s32 (b_stream_index s - 1), data).

(** Binary search, as in iSAC fixed point but with [int] positions. *)
Fixpoint bisect_main {R} (fuel : nat) (cdf : list Z) (W streamval : Z)
    (size_tmp pos W_lower W_upper : Z) : stmt Bitstr R (Z * Z * Z) :=
  match fuel with
  | O => fun _ => Spin
  | S fuel' =>
      let! c := mem (zget cdf pos) in
      let W_tmp := W_scale W c in
      let size_tmp := Z.shiftr size_tmp 1 in
      if size_tmp =? 0 then
        if W_tmp <? streamval then ret (pos, W_tmp, W_upper)
        else ret (pos - 1, W_lower, W_tmp)
      else if W_tmp <? streamval then
        bisect_main fuel' cdf W streamval size_tmp (pos + size_tmp) W_tmp W_upper
      else
        bisect_main fuel' cdf W streamval size_tmp (pos - size_tmp) W_lower W_tmp
  end.

Fixpoint DecHistBisect_loop (k : nat) (cdf : list (list Z)) (cdf_size : list Z)
    (ptr : nat) (W_lower W_upper streamval : Z) (data : list Z) :
    stmt Bitstr dec_ret (nat * Z * Z * list Z) :=
  match k with
  | O => ret (ptr, W_upper, streamval, data)
  | S k' =>
      match cdf, cdf_size with
      | c :: cdf', size :: cdf_size' =>
          let size_tmp := Z.shiftr size 1 in
          let! r := bisect_main bisect_fuel c W_upper streamval size_tmp (size_tmp - 1)
                      W_lower W_upper in
          let '(d, W_lower, W_upper) := r in
          let data := data ++ [d] in
          let! r := dec_shift None ptr W_lower W_upper streamval in
          let '(ptr, W_upper, streamval) := r in
          if W_upper =? 0 then return_ (-2, data)
          else DecHistBisect_loop k' cdf' cdf_size' ptr (u32 (W_lower + 1)) W_upper streamval data
      | _, _ => fun _ => Fault
      end
  end.

Definition WebRtcIsac_DecHistBisectMulti {R} (cdf : list (list Z)) (cdf_size : list Z) (N : Z) :
    stmt Bitstr R dec_ret :=
  fn (let! s := get in
      if b_W_upper s =? 0 then return_ (-2, [])
      else
        let! r := read_first in
        let! r := DecHistBisect_loop (Z.to_nat N) cdf cdf_size r.1 0 (b_W_upper s) r.2 [] in
        let '(ptr, W_upper, streamval, data) := r in
        dec_store ptr W_upper streamval data).

(** Linear search upwards and downwards. *)
Fixpoint step_up (fuel : nat) (cdf : list Z) (W streamval : Z) (pos : nat) (W_tmp : Z)
    (data : list Z) : stmt Bitstr dec_ret (Z * Z * Z) :=
  match fuel with
  | O => fun _ => Spin
  | S fuel' =>
      let W_lower := W_tmp in
      let! c0 := mem (cdf !! pos) in
      if c0 =? 65535 then return_ (-3, data)
      else
        let! c := mem (cdf !! S pos) in
        let W_tmp := W_scale W c in
        if streamval <=? W_tmp then ret (Z.of_nat (S pos) - 1, W_lower, W_tmp)
        else step_up fuel' cdf W streamval (S pos) W_tmp data
  end.

Fixpoint step_down (cdf : list Z) (W streamval : Z) (pos : nat) (W_tmp : Z)
    (data : list Z) : stmt Bitstr dec_ret (Z * Z * Z) :=
  let W_upper := W_tmp in
  match pos with
  | O => return_ (-3, data)
  | S q =>
      let! c := mem (cdf !! q) in
      let W_tmp := W_scale W c in
      if W_tmp <? streamval then ret (Z.of_nat q, W_tmp, W_upper)
      else step_down cdf W streamval q W_tmp data
  end.

Fixpoint DecHistOneStep_loop (k : nat) (cdf : list (list Z)) (init_index : list Z)
    (ptr : nat) (W_upper streamval : Z) (data : list Z) :
    stmt Bitstr dec_ret (nat * Z * Z * list Z) :=
  match k with
  | O => ret (ptr, W_upper, streamval, data)
  | S k' =>
      match cdf, init_index with
      | c :: cdf', i0 :: init_index' =>
          let pos := Z.to_nat i0 in
          let! c0 := mem (c !! pos) in
          let W_tmp := W_scale W_upper c0 in
          let! r := (if W_tmp <? streamval
                     then step_up (length c) c W_upper streamval pos W_tmp data
                     else step_down c W_upper streamval pos W_tmp data) in
          let '(d, W_lower, W_upper) := r in
          let! r := dec_shift None ptr W_lower W_upper streamval in
          let '(ptr, W_upper, streamval) := r in
          DecHistOneStep_loop k' cdf' init_index' ptr W_upper streamval (data ++ [d])
      | _, _ => fun _ => Fault
      end
  end.

Definition WebRtcIsac_DecHistOneStepMulti {R} (cdf : list (list Z)) (init_index : list Z) (N : Z) :
    stmt Bitstr R dec_ret :=
  fn (let! s := get in
      if b_W_upper s =? 0 then return_ (-2, [])
      else
        let! r := read_first in
        let! r := DecHistOneStep_loop (Z.to_nat N) cdf init_index r.1 (b_W_upper s) r.2 [] in
        let '(ptr, W_upper, streamval, data) := r in
        dec_store ptr W_upper streamval data).

(** The samples decoded so far are [acc]. *)
Fixpoint DecLogistic_loop (n : nat) (k : Z) (envQ8 ditherQ7 : list Z) (isSWB12kHz : Z)
    (ptr : nat) (W_upper streamval : Z) (acc : list Z) :
    stmt Bitstr dec_ret (nat * Z * Z * list Z) :=
  match n with
  | O => ret (ptr, W_upper, streamval, acc)
  | S n' =>
      let! dither := mem (ditherQ7 !! 0%nat) in
      let! env := mem (envQ8 !! 0%nat) in
      let W_at := fun candQ7 =>
        let! cdf_tmp := piecewise_at env candQ7 in ret (W_scale W_upper cdf_tmp) in
      let! r := log_search W_at (-1, acc) streamval dither in
      let '(d, W_lower, W_upper) := r in
      let acc := acc ++ [d] in
      let envQ8 := drop (env_advance isSWB12kHz k) envQ8 in
      let! r := dec_shift (Some (-1, acc)) ptr W_lower W_upper streamval in
      let '(ptr, W_upper, streamval) := r in
      DecLogistic_loop n' (k + 1) envQ8 (drop 1 ditherQ7) isSWB12kHz ptr W_upper streamval acc
  end.

Definition WebRtcIsac_DecLogisticMulti2 {R} (envQ8 ditherQ7 : list Z) (N isSWB12kHz : Z) :
    stmt Bitstr R dec_ret :=
  fn (let! s := get in
      let first := if b_stream_index s =? 0 then
          bool_decide (STREAM_SIZE_MAX_60 <= Z.to_nat (b_stream_index s) + 3)%nat
        else false in
      if first then return_ (-1, [])
      else
        let! r := read_first in
        let! r := DecLogistic_loop (Z.to_nat N) 0 envQ8 ditherQ7 isSWB12kHz r.1 (b_W_upper s) r.2 [] in
        let '(ptr, W_upper, streamval, data) := r in
        dec_store ptr W_upper streamval data).

(** ** The distribution *)

Definition widths_ok : bool := forallb (fun i => seg_hi i - edge i <? 13200) (seq 0 50).

Lemma seg_width i : (i < 50)%nat -> seg_hi i - edge i < 13200.
Proof.
  intros Hi. assert (H : widths_ok = true) by (vm_compute; reflexivity).
  unfold widths_ok in H. rewrite forallb_forall in H.
  specialize (H i (proj2 (in_seq 50 0 i) ltac:(lia))). lia.
Qed.

(** The two codecs evaluate the same distribution. *)
Lemma piecewise_spec x : piecewise x = Some (pw x).
Proof.
  unfold piecewise. change kHistEdgesQ15 with kHistEdges. change kCdfSlopeQ0 with kCdfSlope.
  change kCdfQ16 with kCdfLogistic. cbn [lookup list_lookup kHistEdges mbind option_bind].
  replace (if 327680 <? (if x <? -327680 then -327680 else x) then 327680
           else if x <? -327680 then -327680 else x) with (sat x)
    by (unfold sat; destruct (Z.ltb_spec x (-327680)); bcase; lia).
  pose proof (pw_range x) as Hp. unfold pw in *.
  pose proof (sat_range x) as Hx. revert Hp Hx. generalize (sat x). clear x. intros x Hp Hx.
  destruct (seg_spec x Hx) as [Hs [Hlo Hhi]].
  rewrite (s32_id (x - -327680)), (s32_id (_ * 5)), shiftr_div by (lia || clia).
  replace ((x - -327680) * 5 / 2 ^ 16) with (Z.of_nat (seg x)) by (unfold seg; dmlia).
  rewrite !zget_default by (simpl; lia). rewrite !Nat2Z.id. simpl.
  fold (edge (seg x)) (slope (seg x)) (level (seg x)).
  assert (0 <= x - edge (seg x) < 13200 /\ 0 <= slope (seg x) < 65536 /\ 0 <= level (seg x)) as (Hd & Hsl & Hl).
  { destruct (decide (seg x = 50%nat)) as [E|E].
    - rewrite E, (seg_last x Hx E). change (edge 50) with 327680. change (slope 50) with 0.
      change (level 50) with 65535. lia.
    - pose proof (seg_facts_of (seg x) ltac:(lia)) as [He ? ? _ _ _ _].
      pose proof (seg_width (seg x) ltac:(lia)). lia. }
  rewrite (s32_id (x - _)) by clia. rewrite s32_id by (widths; nia).
  rewrite shiftr_div by lia. change (2 ^ 15) with 32768.
  unfold line in *. rewrite Z.div_add_l, (Z.mul_comm (x - _)) in * by lia.
  rewrite u32_id by clia. done.
Qed.

(** ** The bytes of the stream *)

Lemma nth_byte_bytes l : Forall is_u8 l -> is_bytes (nth_byte l).
Proof.
  intros Hl i. unfold nth_byte. destruct (l !! i) as [b|] eqn:E; simpl; [|lia].
  apply (Forall_lookup_1 _ _ _ _ Hl) in E. clia.
Qed.

Lemma pre_nth_insert l p v m :
  (m <= p)%nat -> pre (nth_byte (<[p:=v]> l)) m = pre (nth_byte l) m.
Proof.
  intros Hm. apply pre_ext. intros i Hi. unfold nth_byte.
  by rewrite list_lookup_insert_ne by lia.
Qed.

Lemma pre_nth_get l p b : l !! p = Some b -> pre (nth_byte l) (S p) = pre (nth_byte l) p * 256 + b.
Proof. intros E. rewrite pre_S. unfold nth_byte at 2. by rewrite E. Qed.

Lemma pre_nth_put l p v : (p < length l)%nat ->
  pre (nth_byte (<[p:=v]> l)) (S p) = pre (nth_byte l) p * 256 + v.
Proof.
  intros Hp. rewrite (pre_nth_get _ p v), pre_nth_insert; [done|lia|].
  by apply list_lookup_insert_eq.
Qed.

(** The carry adds one to the number the bytes before [ptr] spell. *)
Lemma carry_bytes_spec ptr l :
  Forall is_u8 l -> (ptr <= length l)%nat ->
  pre (nth_byte l) ptr + 1 < 256 ^ Z.of_nat ptr ->
  exists l', carry_bytes ptr l = Some l' /\ Forall is_u8 l' /\ length l' = length l /\
    pre (nth_byte l') ptr = pre (nth_byte l) ptr + 1 /\
    (forall j, (ptr <= j)%nat -> l' !! j = l !! j).
Proof.
  revert l. induction ptr as [|q IH]; intros l Hl Hlen Hlt; [cbv in Hlt; done|].
  destruct (lookup_lt_is_Some_2 l q ltac:(lia)) as [b Eb].
  pose proof (Forall_lookup_1 _ _ _ _ Hl Eb) as Hb. simpl carry_bytes. rewrite Eb.
  rewrite pow256_S in Hlt. rewrite (pre_nth_get _ _ _ Eb) in *.
  set (l1 := <[q:=u8 (b + 1)]> l).
  assert (Hl1 : Forall is_u8 l1) by (apply Forall_insert; auto with cint).
  assert (E1 : l1 !! q = Some (u8 (b + 1))) by (apply list_lookup_insert_eq; lia).
  assert (L1 : length l1 = length l) by apply length_insert.
  assert (P1 : pre (nth_byte l1) q = pre (nth_byte l) q) by (by apply pre_nth_insert).
  bcase.
  - assert (b = 255) as -> by dmlia.
    destruct (IH l1 Hl1 ltac:(lia) ltac:(rewrite P1; lia)) as (l' & -> & Hl' & L' & P' & S').
    exists l'. split_and!; [done|done|lia| |].
    + assert (E2 : l' !! q = Some (u8 (255 + 1))) by (rewrite S' by lia; done).
      rewrite (pre_nth_get _ _ _ E2), P', P1, E. lia.
    + intros j Hj. rewrite S' by lia. apply list_lookup_insert_ne. lia.
  - exists l1. split_and!; [done|done|done| |].
    + rewrite (pre_nth_get _ _ _ E1), P1. rewrite u8_id; [lia|].
      assert (b <> 255) by (intros ->; done). clia.
    + intros j Hj. apply list_lookup_insert_ne. lia.
Qed.

(** ** Refinement of the encoder *)

(** The buffer and the pending bytes stand for the interval that starts at
    [low a]; the stream pointer is at [nb a]. *)
Record mrep (s : Bitstr) (a : ac) : Prop := {
  mr_len : length (b_stream s) = STREAM_SIZE_MAX;
  mr_u8 : Forall is_u8 (b_stream s);
  mr_in : (nb a <= STREAM_SIZE_MAX)%nat;
  mr_sv : is_u32 (b_streamval s);
  mr_low : low a = pre (nth_byte (b_stream s)) (nb a) * 2 ^ 32 + b_streamval s;
}.

(** A structure between two encoding calls. *)
Record menc (s : Bitstr) (a : ac) : Prop := {
  me_rep : mrep s a;
  me_rng : b_W_upper s = rng a;
  me_idx : b_stream_index s = Z.of_nat (nb a);
  me_ok : ac_ok a;
}.

Lemma add_sv_spec {R} s a v r :
  mrep s a -> is_u32 v -> low a + v < 256 ^ Z.of_nat (nb a + 4) ->
  exists s', @add_sv R (nb a) v s = Next tt s' /\ mrep s' (AC (low a + v) r (nb a)).
Proof.
  intros [HL HU Hin Hsv Hlow] Hv Hlt. unfold add_sv. run.
  rewrite Nat2Z.inj_add, Z.pow_add_r in Hlt by lia.
  change (256 ^ Z.of_nat 4) with (2 ^ 32) in Hlt.
  destruct (u32 (b_streamval s + v) <? v) eqn:E.
  - apply u32_add_carry in E as [E Hge]; [|done..].
    destruct (carry_bytes_spec (nb a) (b_stream s) HU ltac:(lia)) as (l' & -> & U' & L' & P' & _).
    { apply (Zmult_lt_reg_r _ _ (2 ^ 32)); [done|]. lia. }
    eexists. split; [done|]. split; simpl; [by rewrite L'|done|done|auto with cint|].
    rewrite P', E. lia.
  - apply u32_add_nocarry in E as [E Hlt']; [|done..].
    eexists. split; [done|]. split; simpl; [done|done|done|auto with cint|]. rewrite E. lia.
Qed.

(** A byte of the stream, in place or outside the buffer. *)
Lemma write_byte_spec {R} s p v :
  length (b_stream s) = STREAM_SIZE_MAX ->
  if decide (p < STREAM_SIZE_MAX)%nat
  then @write_byte R p v s = Next (S p) (set_bytes (<[p:=u8 v]> (b_stream s)) s)
  else @write_byte R p v s = Fault.
Proof.
  intros HL. unfold write_byte. run. unfold store. rewrite HL. by case_decide.
Qed.

Lemma mrep_shift s a :
  mrep s a -> (nb a < STREAM_SIZE_MAX)%nat ->
  mrep (set_sv (u32 (Z.shiftl (b_streamval s) 8))
         (set_bytes (<[nb a:=u8 (Z.shiftr (b_streamval s) 24)]> (b_stream s)) s)) (shift 1 a).
Proof.
  intros [HL HU Hin Hsv Hlow] Hlt. split; simpl.
  - by rewrite length_insert.
  - apply Forall_insert; auto with cint.
  - lia.
  - auto with cint.
  - rewrite Nat.add_1_r, pre_nth_put, Hlow by lia. change (256 ^ Z.of_nat 1) with 256.
    rewrite shiftr_div, shiftl_mul by lia. dmlia.
Qed.

(** The outcome of renormalisation: the specification's state, or, when
    [limited], the error at 400 bytes, or a write outside the buffer. *)
Lemma enc_bytes_spec limited fuel s a :
  mrep s a -> 1 <= rng a < 2 ^ 32 -> (nshift (rng a) < fuel)%nat ->
  match enc_bytes limited fuel (nb a) (rng a) s with
  | Next r s' => r = (nb (renorm a), rng (renorm a)) /\ mrep s' (renorm a)
  | Return r _ => r = - ISAC_DISALLOWED_BITSTREAM_LENGTH /\ limited = true /\ (400 <= nb (renorm a))%nat
  | Fault => (STREAM_SIZE_MAX < nb (renorm a))%nat
  | Spin => False
  end.
Proof.
  revert s a. induction fuel as [|fuel IH]; intros s a Hr Hrng Hf; [lia|].
  cbn [enc_bytes]. rewrite land_top8 by clia.
  destruct (Z.ltb_spec (rng a) (2 ^ 24)) as [Hlt|Hge].
  - rewrite <- (renorm_shift1 a) by lia. rewrite (nshift_small (rng a)) in Hf by lia.
    rewrite shiftl_mul, u32_id by (lia || clia). rewrite bind_get.
    pose proof (write_byte_spec (R := Z) s (nb a) (Z.shiftr (b_streamval s) 24) (mr_len _ _ Hr)) as Hw.
    assert (Hnb : (nb a + 1 <= nb (renorm (shift 1 a)))%nat) by (unfold renorm; simpl; lia).
    destruct (decide (nb a < STREAM_SIZE_MAX)%nat) as [Hin|Hout].
    + rewrite (bind_Next _ _ _ _ _ Hw).
      destruct (limited && bool_decide (STREAM_SIZE_MAX_60 - 1 < S (nb a))%nat) eqn:E.
      * apply andb_true_iff in E as [-> E%bool_decide_eq_true]. unfold STREAM_SIZE_MAX_60 in E.
        simpl. split_and!; [done|done|lia].
      * rewrite bind_get, bind_put.
        specialize (IH _ _ (mrep_shift s a Hr Hin)).
        change (rng (shift 1 a)) with (rng a * 256) in IH. specialize (IH ltac:(lia) ltac:(lia)).
        change (nb (shift 1 a)) with (nb a + 1)%nat in IH. rewrite Nat.add_1_r in IH. exact IH.
    + unfold bind. rewrite Hw. lia.
  - rewrite renorm_big by lia. done.
Qed.

Lemma W_scale_spec W c : is_u32 W -> 0 <= c < 65536 -> W_scale W c = scale W c.
Proof. intros. unfold W_scale. by apply scale_words. Qed.

Lemma put_symbol_spec limited s a lo hi :
  mrep s a -> ac_ok a -> iv_ok (lo, hi) ->
  match put_symbol limited (nb a) (rng a) lo hi s with
  | Next r s' => r = (nb (step a (lo, hi)), rng (step a (lo, hi))) /\ mrep s' (step a (lo, hi))
  | Return r _ => r = - ISAC_DISALLOWED_BITSTREAM_LENGTH /\ limited = true /\
      (400 <= nb (step a (lo, hi)))%nat
  | Fault => (STREAM_SIZE_MAX < nb (step a (lo, hi)))%nat
  | Spin => False
  end.
Proof.
  intros Hr Ha Hiv. pose proof (narrow_ok a (lo, hi) Ha Hiv) as (Hn1 & Hn2 & Hn3).
  destruct Ha as (Hl & Hrg & Hs). pose proof Hiv as (Hi1 & Hi2 & Hi3). simpl in Hi1, Hi2, Hi3.
  cbn [narrow low rng nb fst snd] in Hn1, Hn2, Hn3. unfold put_symbol.
  rewrite !W_scale_spec by clia.
  pose proof (scale_nonneg (rng a) lo ltac:(lia) Hi1).
  pose proof (scale_le (rng a) hi ltac:(lia) ltac:(lia)).
  rewrite (u32_id (scale (rng a) lo + 1)), (u32_id (_ - _)) by clia.
  destruct (@add_sv_spec Z s a (scale (rng a) lo + 1)
              (rng (narrow a (lo, hi))) Hr) as (s1 & E1 & Hr1); [clia|lia|].
  rewrite (bind_Next _ _ _ _ _ E1).
  replace (AC (low a + (scale (rng a) lo + 1)) (rng (narrow a (lo, hi))) (nb a))
    with (narrow a (lo, hi)) in Hr1 by (unfold narrow; simpl; f_equal; lia).
  apply (enc_bytes_spec limited bytes_fuel) in Hr1; [|simpl; lia|].
  - replace (scale (rng a) hi - (scale (rng a) lo + 1)) with (rng (narrow a (lo, hi))) by (simpl; lia).
    exact Hr1.
  - unfold bytes_fuel, nshift. repeat bcase; lia.
Qed.

Lemma EncHist_loop_spec s a data cdf ivs :
  mrep s a -> ac_ok a -> Forall3 sym_of data cdf ivs ->
  match EncHist_loop (length data) data cdf (nb a) (rng a) s with
  | Next r s' => r = (nb (steps a ivs), rng (steps a ivs)) /\ mrep s' (steps a ivs)
  | Fault => (STREAM_SIZE_MAX < nb (steps a ivs))%nat
  | _ => False
  end.
Proof.
  intros Hr Ha Hd. revert s a Hr Ha.
  induction Hd as [|d c [lo hi] data cdf ivs Hdc Hd IH]; intros s a Hr Ha; [done|].
  cbn [length EncHist_loop]. destruct (sym_of_get _ _ _ Hdc) as [E1 E2].
  apply sym_of_ok in Hdc as Hiv. rewrite (bind_mem _ _ _ _ E1), (bind_mem _ _ _ _ E2).
  cbn [fst snd]. pose proof (put_symbol_spec false s a lo hi Hr Ha Hiv) as Hs.
  change (steps a ((lo, hi) :: ivs)) with (steps (step a (lo, hi)) ivs).
  pose proof (nb_steps (step a (lo, hi)) ivs). unfold bind.
  destruct (put_symbol _ _ _ _ _ s) as [r s1|r s1| |]; [|by destruct Hs as (_ & ? & _)|lia|done].
  destruct Hs as [-> Hr1]. apply IH; [done|]. by apply step_ok.
Qed.

Lemma enc_store_spec {R} s a :
  mrep s a -> ac_ok a ->
  exists s', @enc_store R (nb a) (rng a) s = Next tt s' /\ menc s' a.
Proof.
  intros [HL HU Hin Hsv Hlow] Ha. unfold enc_store. run. eexists. split; [done|].
  split; simpl; [by split|done| |done]. unfold STREAM_SIZE_MAX in Hin. apply u32_id. clia.
Qed.

(** The side information each of [n] samples is coded with. *)
Fixpoint env_seq (n : nat) (k : Z) (envQ8 : list Z) (isSWB12kHz : Z) : option (list Z) :=
  match n with
  | O => Some []
  | S n' =>
      e ← envQ8 !! 0%nat;
      es ← env_seq n' (k + 1) (drop (env_advance isSWB12kHz k) envQ8) isSWB12kHz;
      Some (e :: es)
  end.

Lemma piecewise_computes {S R} e (s : S) : env_ok e -> computes (R := R) (piecewise_at e) e s.
Proof.
  intros He x Hx. unfold piecewise_at, env_ok in *.
  rewrite s32_id by (widths; nia). by rewrite piecewise_spec.
Qed.

Lemma EncLogistic_loop_spec s a k env swb envs data data' acc :
  mrep s a -> ac_ok a -> env_seq (length data) k env swb = Some envs ->
  Forall3 clip_to envs data data' -> Forall env_ok envs -> Forall sample_ok data ->
  match EncLogistic_loop (length data) k data env acc swb (nb a) (rng a) s with
  | Next r s' => r = (nb (steps a (log_ivs envs data')), rng (steps a (log_ivs envs data')), acc ++ data') /\
      mrep s' (steps a (log_ivs envs data'))
  | Return r _ => r.1 = - ISAC_DISALLOWED_BITSTREAM_LENGTH /\ (400 <= nb (steps a (log_ivs envs data')))%nat
  | Fault => (STREAM_SIZE_MAX < nb (steps a (log_ivs envs data')))%nat
  | Spin => False
  end.
Proof.
  intros Hr Ha Hex Hc. revert s a k env acc Hr Ha Hex.
  induction Hc as [|e d d' envs data data' Hc Hcs IH]; intros s a k env acc Hr Ha Hex He Hd; [done|].
  apply Forall_cons_1 in He as [He Hes]. apply Forall_cons_1 in Hd as [Hd Hds].
  cbn [length env_seq] in Hex. destruct (env !! 0%nat) as [e'|] eqn:Ee; [|done]. cbn [mbind option_bind] in Hex.
  destruct (env_seq _ _ _ _) as [es|] eqn:Ex; [|done]. injection Hex as -> ->.
  cbn [length EncLogistic_loop]. rewrite (bind_mem _ _ _ _ Ee).
  rewrite (bind_Next _ _ _ _ _ (clip_run e d d' He Hd Hc _ _ _ s (piecewise_computes e s He))).
  pose proof (codable_iv _ _ (clip_to_codable _ _ _ Hc)) as Hiv.
  change (steps a (log_ivs (e :: envs) (d' :: data')))
    with (steps (step a (sample_iv e d')) (log_ivs envs data')).
  destruct (sample_iv e d') as [lo hi]. cbn [fst snd].
  pose proof (put_symbol_spec true s a lo hi Hr Ha Hiv) as Hs.
  pose proof (nb_steps (step a (lo, hi)) (log_ivs envs data')) as Hnb.
  unfold bind, try. destruct (put_symbol _ _ _ _ _ s) as [r s1|r s1| |]; [| |lia|done].
  - destruct Hs as [-> Hr1].
    specialize (IH s1 (step a (lo, hi)) (k + 1) _ (acc ++ [d']) Hr1 ltac:(by apply step_ok) Ex Hes Hds).
    rewrite <- app_assoc in IH. exact IH.
  - destruct Hs as (-> & _ & Hge). simpl. split; [done|lia].
Qed.

(** ** The interface of the encoder *)

(** The routine appends the symbols of [ivs]; it fails only with 400 bytes or
    more in the stream, and leaves the buffer only with more than 600. *)
Class MEncodes {R A} (E : stmt Bitstr R A) (ivs : list (Z * Z)) (ok : A) (err : A -> Prop) := {
  mencodes_ivs : Forall iv_ok ivs;
  mencodes_run s a : menc s a ->
    match E s with
    | Next r s' => (r = ok /\ menc s' (steps a ivs)) \/ (err r /\ (400 <= nb (steps a ivs))%nat)
    | Fault => (STREAM_SIZE_MAX < nb (steps a ivs))%nat
    | _ => False
    end;
}.

Lemma EncHistMulti_mencodes {R} data cdf ivs n :
  Forall3 sym_of data cdf ivs -> n = Z.of_nat (length data) ->
  MEncodes (@WebRtcIsac_EncHistMulti R data cdf n) ivs 0 (fun _ => False).
Proof.
  intros Hd ->. split; [by eapply syms_of_ok|]. intros s a [Hr Hw Hi Ha].
  pose proof (EncHist_loop_spec s a data cdf ivs Hr Ha Hd) as Hs.
  unfold WebRtcIsac_EncHistMulti, fn. rewrite bind_get, Hw, Hi, !Nat2Z.id. unfold bind.
  destruct (EncHist_loop _ _ _ _ _ s) as [r s1|r s1| |]; [|done|done|done].
  destruct Hs as [-> Hr1].
  assert (ac_ok (steps a ivs)) as Ha1 by (eapply steps_ok; eauto using syms_of_ok).
  destruct (@enc_store_spec Z s1 _ Hr1 Ha1) as (s2 & E2 & H2). cbn [fst snd]. rewrite E2. by left.
Qed.

Lemma EncLogisticMulti2_mencodes {R} data env swb envs data' n :
  env_seq (length data) 0 env swb = Some envs -> Forall3 clip_to envs data data' ->
  Forall env_ok envs -> Forall sample_ok data -> n = Z.of_nat (length data) ->
  MEncodes (@WebRtcIsac_EncLogisticMulti2 R data env n swb) (log_ivs envs data') (0, data')
    (fun r => bits_exceeded r.1).
Proof.
  intros Hex Hc He Hd ->. split; [by eapply log_ivs_ok|]. intros s a [Hr Hw Hi Ha].
  pose proof (EncLogistic_loop_spec s a 0 env swb envs data data' [] Hr Ha Hex Hc He Hd) as Hs.
  unfold WebRtcIsac_EncLogisticMulti2, fn. rewrite bind_get, Hw, Hi, !Nat2Z.id. unfold bind.
  destruct (EncLogistic_loop _ _ _ _ _ _ _ _ s) as [r s1|r s1| |]; [|right; done|done|done].
  destruct Hs as [-> Hr1]. cbn [app].
  assert (ac_ok (steps a (log_ivs envs data'))) as Ha1 by (apply steps_ok; [done|by eapply log_ivs_ok]).
  destruct (@enc_store_spec (Z * list Z) s1 _ Hr1 Ha1) as (s2 & E2 & H2). rewrite E2. by left.
Qed.

(** The terminator writes the final bytes, unless they leave the buffer. *)
Lemma MEncTerminate_spec {R} s a :
  menc s a ->
  if decide (final_len a <= STREAM_SIZE_MAX)%nat
  then exists s', @WebRtcIsac_EncTerminate R s = Next (Z.of_nat (final_len a)) s' /\
    length (b_stream s') = STREAM_SIZE_MAX /\ Forall is_u8 (b_stream s') /\
    pre (nth_byte (b_stream s')) (final_len a) = final_val a
  else @WebRtcIsac_EncTerminate R s = Fault.
Proof.
  intros [Hr Hw Hi (Hl & Hrg & Hs)]. unfold WebRtcIsac_EncTerminate, final_len, final_val.
  rewrite bind_get, Hw, Hi, Nat2Z.id. destruct (Z.ltb_spec 0x01FFFFFF (rng a)) as [Hbig|Hsmall].
  - destruct (@add_sv_spec R s a (2 ^ 24) 0 Hr ltac:(clia) ltac:(clia)) as (s1 & E1 & [HL HU Hin Hsv Hlow]).
    rewrite (bind_Next _ _ _ _ _ E1), bind_get. simpl in Hlow.
    pose proof (@write_byte_spec R s1 (nb a) (Z.shiftr (b_streamval s1) 24) HL) as Hw1.
    rewrite Nat.add_1_r. destruct (decide (nb a < STREAM_SIZE_MAX)%nat).
    + rewrite decide_True by lia. rewrite (bind_Next _ _ _ _ _ Hw1). eexists. split; [done|].
      simpl. split_and!; [by rewrite length_insert|apply Forall_insert; auto with cint|].
      rewrite pre_nth_put, Hlow, final_low_1 by (done || lia).
      rewrite shiftr_div, u8_id by (lia || dmlia). done.
    + rewrite decide_False by lia. unfold bind. by rewrite Hw1.
  - destruct (@add_sv_spec R s a (2 ^ 16) 0 Hr ltac:(clia) ltac:(clia)) as (s1 & E1 & [HL HU Hin Hsv Hlow]).
    rewrite (bind_Next _ _ _ _ _ E1), bind_get. simpl in Hlow.
    pose proof (@write_byte_spec R s1 (nb a) (Z.shiftr (b_streamval s1) 24) HL) as Hw1.
    replace (nb a + 2)%nat with (S (S (nb a))) by lia.
    destruct (decide (nb a < STREAM_SIZE_MAX)%nat).
    + rewrite (bind_Next _ _ _ _ _ Hw1).
      set (s2 := set_bytes _ s1). assert (HL2 : length (b_stream s2) = STREAM_SIZE_MAX) by (simpl; by rewrite length_insert).
      pose proof (@write_byte_spec R s2 (S (nb a)) (Z.land (Z.shiftr (b_streamval s1) 16) 0x00FF) HL2) as Hw2.
      destruct (decide (S (nb a) < STREAM_SIZE_MAX)%nat).
      * rewrite decide_True by lia. rewrite (bind_Next _ _ _ _ _ Hw2). eexists. split; [done|].
        simpl. split_and!; [by rewrite !length_insert|do 2 (apply Forall_insert; auto with cint)|].
        rewrite pre_nth_put by (rewrite length_insert; lia). rewrite pre_nth_put, Hlow, final_low_2 by (done || lia).
        rewrite land_low8, !shiftr_div, !u8_id by (lia || dmlia). dmlia.
      * rewrite decide_False by lia. unfold bind. by rewrite Hw2.
    + rewrite decide_False by lia. unfold bind. by rewrite Hw1.
Qed.

(** ** Refinement of the decoder *)

(** The decoder has read [nb a + 4] bytes, the last one at its pointer
    [nb a + 3], and its code value is the stream's offset in the interval. *)
Record mdrep (s : Bitstr) (sv : Z) (a : ac) : Prop := {
  md_len : length (b_stream s) = STREAM_SIZE_MAX;
  md_u8 : Forall is_u8 (b_stream s);
  md_off : sv = offset a (nth_byte (b_stream s));
}.

Record mdec (s : Bitstr) (a : ac) : Prop := {
  mdc_rng : b_W_upper s = rng a;
  mdc_ok : ac_ok a;
  mdc_len : length (b_stream s) = STREAM_SIZE_MAX;
  mdc_u8 : Forall is_u8 (b_stream s);
  mdc_pos : (a = ac_init /\ b_stream_index s = 0) \/
    (b_stream_index s = Z.of_nat (nb a + 3) /\ b_streamval s = offset a (nth_byte (b_stream s)));
}.

Lemma read_first_spec {R} s a :
  mdec s a -> exists sv, @read_first R s = Next ((nb a + 3)%nat, sv) s /\ mdrep s sv a.
Proof.
  intros [_ _ HL HU [[-> Hi]|[Hi Hsv]]]; unfold read_first; rewrite bind_get, Hi.
  - rewrite Z.eqb_refl. change (Z.to_nat 0) with 0%nat.
    destruct (lookup_lt_is_Some_2 (b_stream s) 0 ltac:(rewrite HL; unfold STREAM_SIZE_MAX; lia)) as [b0 E0].
    destruct (lookup_lt_is_Some_2 (b_stream s) 1 ltac:(rewrite HL; unfold STREAM_SIZE_MAX; lia)) as [b1 E1].
    destruct (lookup_lt_is_Some_2 (b_stream s) 2 ltac:(rewrite HL; unfold STREAM_SIZE_MAX; lia)) as [b2 E2].
    destruct (lookup_lt_is_Some_2 (b_stream s) 3 ltac:(rewrite HL; unfold STREAM_SIZE_MAX; lia)) as [b3 E3].
    rewrite (bind_mem _ _ _ _ E0), (bind_mem _ _ _ _ E1), (bind_mem _ _ _ _ E2), (bind_mem _ _ _ _ E3).
    pose proof (Forall_lookup_1 _ _ _ _ HU E0). pose proof (Forall_lookup_1 _ _ _ _ HU E1).
    pose proof (Forall_lookup_1 _ _ _ _ HU E2). pose proof (Forall_lookup_1 _ _ _ _ HU E3).
    eexists. split; [done|]. split; [done|done|].
    unfold offset. change (nb ac_init + 4)%nat with 4%nat. change (low ac_init) with 0.
    rewrite (pre_nth_get _ _ _ E3), (pre_nth_get _ _ _ E2), (pre_nth_get _ _ _ E1), (pre_nth_get _ _ _ E0).
    change (pre _ 0) with 0. rewrite !shiftl_mul, u32_id by (lia || clia).
    rewrite (lor_disjoint (b0 * 2 ^ 24) _ 24) by (lia || dmlia).
    rewrite (lor_disjoint (b0 * 2 ^ 24 + b1 * 2 ^ 16) _ 16) by (lia || dmlia).
    rewrite (lor_disjoint _ b3 8) by (lia || dmlia). clia.
  - rewrite (proj2 (Z.eqb_neq _ _)) by lia. rewrite Nat2Z.id. eexists. split; [done|]. by split.
Qed.

(** The number of bytes a decoder may look at. *)
Definition limit {R} (guard : option R) : nat :=
  match guard with Some _ => STREAM_SIZE_MAX_60 | None => STREAM_SIZE_MAX end.

(** A decoder that would look further fails, with its check or without. *)
Definition past_limit {S R A} (guard : option R) (s : S) : outcome S R A :=
  match guard with Some fail => Return fail s | None => Fault end.

Lemma dec_bytes_spec {R} (guard : option R) fuel s sv a :
  mdrep s sv a -> 1 <= rng a < 2 ^ 32 -> (nshift (rng a) < fuel)%nat ->
  contains (renorm a) (nth_byte (b_stream s)) -> (nb a + 4 <= limit guard)%nat ->
  dec_bytes guard fuel (nb a + 3) (rng a) sv s =
    if decide (nb (renorm a) + 4 <= limit guard)%nat
    then Next ((nb (renorm a) + 3)%nat, rng (renorm a), offset (renorm a) (nth_byte (b_stream s))) s
    else past_limit guard s.
Proof.
  revert sv a. induction fuel as [|fuel IH]; intros sv a Hr Hrng Hf Hc Hlim; [lia|].
  cbn [dec_bytes]. rewrite land_top8 by clia. pose proof Hr as [HL HU Hsv].
  pose proof (nth_byte_bytes _ HU) as HB.
  destruct (Z.ltb_spec (rng a) (2 ^ 24)) as [Hlt|Hge].
  2: { rewrite renorm_big by lia. rewrite decide_True by lia. by rewrite Hsv. }
  rewrite <- (renorm_shift1 a) in Hc |- * by lia. rewrite (nshift_small (rng a)) in Hf by lia.
  pose proof (contains_shift _ _ _ HB Hc) as Hc1.
  pose proof (contains_shift _ _ _ HB Hc1) as Hc0.
  apply offset_contains in Hc0. rewrite <- Hsv in Hc0.
  assert (Hnb : (nb a + 1 <= nb (renorm (shift 1 a)))%nat) by (unfold renorm; simpl; lia).
  assert (Hread : (nb a + 5 <= limit guard)%nat ->
    bind get (fun s0 => bind (mem (b_stream s0 !! S (nb a + 3)))
      (fun b => dec_bytes guard fuel (S (nb a + 3)) (u32 (Z.shiftl (rng a) 8))
                  (Z.lor (u32 (Z.shiftl sv 8)) b))) s =
    if decide (nb (renorm (shift 1 a)) + 4 <= limit guard)%nat
    then Next ((nb (renorm (shift 1 a)) + 3)%nat, rng (renorm (shift 1 a)),
                offset (renorm (shift 1 a)) (nth_byte (b_stream s))) s
    else past_limit guard s).
  { intros Hl. rewrite bind_get.
    assert (S (nb a + 3) < length (b_stream s))%nat as Hin.
    { rewrite HL. destruct guard; simpl in Hl; unfold STREAM_SIZE_MAX, STREAM_SIZE_MAX_60 in *; lia. }
    destruct (lookup_lt_is_Some_2 _ _ Hin) as [b Eb]. pose proof (Forall_lookup_1 _ _ _ _ HU Eb) as Hb.
    rewrite (bind_mem _ _ _ _ Eb). rewrite !shiftl_mul, !u32_id by (lia || clia).
    rewrite (lor_disjoint _ _ 8) by (lia || dmlia).
    replace (S (nb a + 3)) with (nb (shift 1 a) + 3)%nat by (simpl; lia).
    change (rng a * 2 ^ 8) with (rng (shift 1 a)).
    assert (Er : rng (shift 1 a) = rng a * 256) by done. apply IH.
    - split; [done|done|]. unfold offset in *. simpl.
      replace (nb a + 1 + 4)%nat with (S (nb a + 4)) by lia.
      rewrite (pre_nth_get _ _ b) by (by replace (nb a + 4)%nat with (S (nb a + 3)) by lia).
      change (256 ^ Z.of_nat 1) with 256. change (2 ^ 8) with 256. lia.
    - rewrite Er. lia.
    - rewrite Er. lia.
    - done.
    - simpl. lia. }
  destruct guard as [fail|]; cbn [limit past_limit] in *.
  - case_bool_decide; [|apply Hread; lia]. by rewrite decide_False by lia.
  - destruct (decide (nb a + 5 <= STREAM_SIZE_MAX)%nat); [by apply Hread|].
    rewrite decide_False by lia. rewrite bind_get. unfold bind, mem.
    by rewrite lookup_ge_None_2 by lia.
Qed.

Lemma dec_shift_spec {R} (guard : option R) s sv a iv :
  mdrep s sv a -> ac_ok a -> iv_ok iv -> (nb a + 4 <= limit guard)%nat ->
  contains (step a iv) (nth_byte (b_stream s)) ->
  dec_shift guard (nb a + 3) (scale (rng a) iv.1) (scale (rng a) iv.2) sv s =
    if decide (nb (step a iv) + 4 <= limit guard)%nat
    then Next ((nb (step a iv) + 3)%nat, rng (step a iv), offset (step a iv) (nth_byte (b_stream s))) s
    else past_limit guard s.
Proof.
  intros [HL HU Hsv] Ha Hiv Hlim Hc. pose proof (narrow_ok a iv Ha Hiv) as (Hn1 & Hn2 & Hn3).
  pose proof Ha as (Hl & Hrg & Hs). pose proof Hiv as (Hi1 & Hi2 & Hi3).
  pose proof (scale_nonneg (rng a) iv.1 ltac:(lia) Hi1).
  pose proof (scale_le (rng a) iv.2 ltac:(lia) ltac:(lia)).
  destruct (contains_step a iv _ (nth_byte_bytes _ HU) Ha Hiv Hc) as (Hcn & _ & Hx).
  rewrite <- Hsv in Hx. cbn [narrow low rng nb] in Hn1, Hn2, Hn3.
  unfold dec_shift. rewrite (u32_id (scale (rng a) iv.1 + 1)) by clia.
  rewrite (u32_id (scale (rng a) iv.2 - _)), (u32_id (sv - _)) by clia.
  replace (scale (rng a) iv.2 - (scale (rng a) iv.1 + 1)) with (rng (narrow a iv)) by (simpl; lia).
  apply (dec_bytes_spec guard bytes_fuel s _ (narrow a iv)); [|simpl; lia| |done|done].
  - split; [done|done|]. rewrite Hsv. unfold offset. simpl. lia.
  - unfold bytes_fuel, nshift. repeat bcase; lia.
Qed.

Lemma mnext_window s sv a iv ivs :
  mdrep s sv a -> ac_ok a -> iv_ok iv -> Forall iv_ok ivs ->
  contains (steps (step a iv) ivs) (nth_byte (b_stream s)) ->
  contains (step a iv) (nth_byte (b_stream s)) /\ is_u32 (rng a) /\
  scale (rng a) iv.1 < sv <= scale (rng a) iv.2.
Proof.
  intros [HL HU Hsv] Ha Hiv Hivs Hc. pose proof (nth_byte_bytes _ HU) as HB.
  assert (contains (step a iv) (nth_byte (b_stream s))) as Hc1
    by (eapply contains_steps, Hc; eauto using step_ok).
  destruct (contains_step a iv _ HB Ha Hiv Hc1) as (_ & _ & Hx).
  rewrite <- Hsv in Hx. destruct Ha as (_ & Hrg & _). split_and!; done || clia.
Qed.

(** ** Searches *)

Lemma bisect_main_spec {R} j fuel cdf W x s iv pos W_lower W_upper st :
  cdf_ok cdf -> is_u32 W -> sym_iv cdf s iv -> scale W iv.1 < x <= scale W iv.2 ->
  (j < fuel)%nat -> 0 <= pos < Z.of_nat (length cdf) ->
  -1 <= pos - 2 ^ Z.of_nat j -> pos + 2 ^ Z.of_nat j <= Z.of_nat (length cdf) ->
  pos - 2 ^ Z.of_nat j <= Z.of_nat s < pos + 2 ^ Z.of_nat j ->
  (forall c, zget cdf (pos - 2 ^ Z.of_nat j) = Some c -> W_lower = scale W c) ->
  (forall c, zget cdf (pos + 2 ^ Z.of_nat j) = Some c -> W_upper = scale W c) ->
  @bisect_main R fuel cdf W x (2 ^ Z.of_nat j) pos W_lower W_upper st =
    Next (Z.of_nat s, scale W iv.1, scale W iv.2) st.
Proof.
  intros Hc HW Hs Hx Hj. revert fuel pos W_lower W_upper Hj. pose proof Hs as (A1 & A2 & _).
  induction j as [|j IH]; intros [|fuel] pos W_lower W_upper Hj Hpos Hlo Hhi Hin HL HU; try lia;
    cbn [bisect_main];
    (destruct (lookup_lt_is_Some_2 cdf (Z.to_nat pos) ltac:(lia)) as [c Ec]);
    (assert (zget cdf pos = Some c) as Eg by (rewrite <- (zget_nat _ _ _ Ec); f_equal; lia));
    rewrite (bind_mem _ _ _ _ Eg), (W_scale_spec W c HW (proj1 Hc _ _ Ec));
    pose proof (sym_compare cdf W x s iv _ c Hc ltac:(clia) Hs Hx Ec) as Hcmp.
  - change (Z.shiftr (2 ^ Z.of_nat 0) 1 =? 0) with true. cbn iota.
    change (2 ^ Z.of_nat 0) with 1 in *. destruct (Z.ltb_spec (scale W c) x) as [Hlt|Hge].
    + assert (pos = Z.of_nat s) as -> by lia. rewrite Nat2Z.id in Ec.
      assert (W_upper = scale W iv.2) as ->.
      { apply HU. rewrite <- (zget_nat _ _ _ A2). f_equal. lia. }
      by assert (c = iv.1) as -> by congruence.
    + assert (pos = Z.of_nat (S s)) as -> by lia. rewrite Nat2Z.id in Ec.
      assert (W_lower = scale W iv.1) as ->.
      { apply HL. rewrite <- (zget_nat _ _ _ A1). f_equal. lia. }
      assert (c = iv.2) as -> by congruence.
      by replace (Z.of_nat (S s) - 1) with (Z.of_nat s) by lia.
  - rewrite Nat2Z.inj_succ, Z.pow_succ_r in * by lia.
    rewrite shiftr_div, (Z.mul_comm 2 (2 ^ _)) by lia. change (2 ^ 1) with 2. rewrite Z.div_mul by lia.
    assert (0 < 2 ^ Z.of_nat j) by (apply Z.pow_pos_nonneg; lia).
    rewrite (proj2 (Z.eqb_neq _ _)) by lia.
    destruct (Z.ltb_spec (scale W c) x) as [Hlt|Hge]; apply IH; try lia.
    + intros c' Ec'. replace (pos + 2 ^ Z.of_nat j - 2 ^ Z.of_nat j) with pos in Ec' by lia. congruence.
    + intros c' Ec'. apply HU. rewrite <- Ec'. f_equal. lia.
    + intros c' Ec'. apply HL. rewrite <- Ec'. f_equal. lia.
    + intros c' Ec'. replace (pos - 2 ^ Z.of_nat j + 2 ^ Z.of_nat j) with pos in Ec' by lia. congruence.
Qed.

Lemma step_up_spec fuel cdf W x s iv pos c data st :
  cdf_ok cdf -> is_u32 W -> sym_iv cdf s iv -> scale W iv.1 < x <= scale W iv.2 ->
  cdf !! pos = Some c -> (pos <= s)%nat -> (s < pos + fuel)%nat ->
  step_up fuel cdf W x pos (scale W c) data st = Next (Z.of_nat s, scale W iv.1, scale W iv.2) st.
Proof.
  intros Hc HW Hs Hx. revert pos c. pose proof Hs as (A1 & A2 & Hlt).
  apply lookup_lt_Some in A2 as Hl2.
  induction fuel as [|fuel IH]; intros pos c Ec Hpos Hf; [lia|].
  cbn [step_up]. rewrite (bind_mem _ _ _ _ Ec).
  rewrite (proj2 (Z.eqb_neq c 65535)).
  2:{ pose proof (proj2 Hc _ _ _ _ Hpos Ec A1). pose proof (proj1 Hc _ _ A2). lia. }
  destruct (lookup_lt_is_Some_2 cdf (S pos) ltac:(lia)) as [c' Ec'].
  rewrite (bind_mem _ _ _ _ Ec'), (W_scale_spec W c' HW (proj1 Hc _ _ Ec')).
  pose proof (sym_compare cdf W x s iv _ c' Hc ltac:(clia) Hs Hx Ec') as Hcmp.
  destruct (Z.leb_spec x (scale W c')).
  - assert (pos = s) as -> by lia. replace (Z.of_nat (S s) - 1) with (Z.of_nat s) by lia.
    by replace c with iv.1 by congruence; replace c' with iv.2 by congruence.
  - apply IH; [done|lia|lia].
Qed.

Lemma step_down_spec cdf W x s iv pos c data st :
  cdf_ok cdf -> is_u32 W -> sym_iv cdf s iv -> scale W iv.1 < x <= scale W iv.2 ->
  cdf !! pos = Some c -> (s < pos)%nat ->
  step_down cdf W x pos (scale W c) data st = Next (Z.of_nat s, scale W iv.1, scale W iv.2) st.
Proof.
  intros Hc HW Hs Hx. revert c. pose proof Hs as (A1 & A2 & Hlt).
  apply lookup_lt_Some in A2 as Hl2.
  induction pos as [|q IH]; intros c Ec Hpos; [lia|].
  cbn [step_down]. apply lookup_lt_Some in Ec as Hl.
  destruct (lookup_lt_is_Some_2 cdf q ltac:(lia)) as [c' Ec'].
  rewrite (bind_mem _ _ _ _ Ec'), (W_scale_spec W c' HW (proj1 Hc _ _ Ec')).
  pose proof (sym_compare cdf W x s iv _ c' Hc ltac:(clia) Hs Hx Ec') as Hcmp.
  destruct (Z.ltb_spec (scale W c') x).
  - assert (q = s) as -> by lia.
    by replace c with iv.2 by congruence; replace c' with iv.1 by congruence.
  - apply IH; [done|lia].
Qed.

(** ** Decoding loops *)

(** The result of a loop that has followed the encoder to [a]. *)
Definition reached {A} (a : ac) (s : Bitstr) (data : A) : nat * Z * Z * A :=
  ((nb a + 3)%nat, rng a, offset a (nth_byte (b_stream s)), data).

Lemma DecHistOneStep_loop_spec s sv a data cdf ivs inits acc :
  mdrep s sv a -> ac_ok a -> Forall3 sym_of data cdf ivs -> Forall2 init_ok cdf inits ->
  (nb (steps a ivs) + 4 <= STREAM_SIZE_MAX)%nat ->
  contains (steps a ivs) (nth_byte (b_stream s)) ->
  DecHistOneStep_loop (length data) cdf inits (nb a + 3) (rng a) sv acc s =
    Next (reached (steps a ivs) s (acc ++ data)) s.
Proof.
  intros Hr Ha Hd. revert sv a inits acc Hr Ha.
  induction Hd as [|d c iv data cdf ivs Hdc Hd IH]; intros sv a inits acc Hr Ha Hi Hin Hc.
  - rewrite app_nil_r. destruct Hr as [_ _ ->]. done.
  - inversion Hi as [|c' i cdf' inits' [Hi1 Hi2] Hi' E1 E2]; subst. cbn [length DecHistOneStep_loop].
    change (steps a (iv :: ivs)) with (steps (step a iv) ivs) in *.
    apply sym_of_ok in Hdc as Hiv. destruct Hdc as (Hcdf & n & -> & Hs).
    destruct (mnext_window _ _ _ _ _ Hr Ha Hiv (syms_of_ok _ _ _ Hd) Hc) as (Hc1 & HW & Hx).
    destruct (lookup_lt_is_Some_2 c (Z.to_nat i) ltac:(lia)) as [c0 Ec0].
    rewrite (bind_mem _ _ _ _ Ec0), (W_scale_spec _ _ HW (proj1 Hcdf _ _ Ec0)).
    pose proof (sym_compare c (rng a) sv n iv _ c0 Hcdf ltac:(clia) Hs Hx Ec0) as Hcmp.
    assert ((if scale (rng a) c0 <? sv
             then step_up (length c) c (rng a) sv (Z.to_nat i) (scale (rng a) c0) acc
             else step_down c (rng a) sv (Z.to_nat i) (scale (rng a) c0) acc) s =
            Next (Z.of_nat n, scale (rng a) iv.1, scale (rng a) iv.2) s) as Esearch.
    { destruct Hs as (A1 & A2 & A3). apply lookup_lt_Some in A2 as ?.
      bcase; [apply step_up_spec|apply step_down_spec]; try done; lia. }
    rewrite (bind_Next _ _ _ _ _ Esearch).
    pose proof (nb_steps (step a iv) ivs). pose proof (nb_step a iv).
    pose proof (@dec_shift_spec dec_ret None s sv a iv Hr Ha Hiv ltac:(cbn [limit]; lia) Hc1) as E1.
    rewrite decide_True in E1 by (cbn [limit]; lia). rewrite (bind_Next _ _ _ _ _ E1).
    rewrite (IH _ (step a iv) inits'); [by rewrite <- app_assoc| |by apply step_ok|done|done|done].
    destruct Hr. by split.
Qed.

Lemma DecHistBisect_loop_spec s sv a data cdf ivs sizes W_lower acc :
  mdrep s sv a -> ac_ok a -> Forall3 sym_of data cdf ivs -> Forall2 size_ok cdf sizes ->
  (nb (steps a ivs) + 4 <= STREAM_SIZE_MAX)%nat ->
  contains (steps a ivs) (nth_byte (b_stream s)) ->
  DecHistBisect_loop (length data) cdf sizes (nb a + 3) W_lower (rng a) sv acc s =
    Next (reached (steps a ivs) s (acc ++ data)) s.
Proof.
  intros Hr Ha Hd. revert sv a sizes W_lower acc Hr Ha.
  induction Hd as [|d c iv data cdf ivs Hdc Hd IH]; intros sv a sizes W_lower acc Hr Ha Hi Hin Hc.
  - rewrite app_nil_r. destruct Hr as [_ _ ->]. done.
  - inversion Hi as [|c' i cdf' sizes' (k & Hk & -> & Hlen) Hi' E1 E2]; subst.
    cbn [length DecHistBisect_loop].
    change (steps a (iv :: ivs)) with (steps (step a iv) ivs) in *.
    apply sym_of_ok in Hdc as Hiv. destruct Hdc as (Hcdf & n & -> & Hs).
    destruct (mnext_window _ _ _ _ _ Hr Ha Hiv (syms_of_ok _ _ _ Hd) Hc) as (Hc1 & HW & Hx).
    assert (0 < 2 ^ Z.of_nat k) as Hk2 by (apply Z.pow_pos_nonneg; lia).
    rewrite Nat2Z.inj_succ, Z.pow_succ_r in Hlen by lia.
    rewrite Nat2Z.inj_succ, Z.pow_succ_r by lia.
    assert (Eq : Z.shiftr (2 * 2 ^ Z.of_nat k) 1 = 2 ^ Z.of_nat k).
    { rewrite shiftr_div, Z.mul_comm by lia. change (2 ^ 1) with 2. by rewrite Z.div_mul by lia. }
    rewrite Eq. pose proof Hs as (A1 & A2 & A3). apply lookup_lt_Some in A2 as Hl2.
    assert (Ebis := @bisect_main_spec dec_ret k bisect_fuel c (rng a) sv n iv (2 ^ Z.of_nat k - 1)
      W_lower (rng a) s Hcdf HW Hs Hx ltac:(unfold bisect_fuel; lia)
      ltac:(lia) ltac:(lia) ltac:(lia) ltac:(lia)
      ltac:(intros c' Ec'; replace (_ - _ - _) with (-1) in Ec' by lia; done)
      ltac:(intros c' Ec'; unfold zget in Ec'; destruct (_ <? 0); [done|];
            apply lookup_lt_Some in Ec'; lia)).
    rewrite (bind_Next _ _ _ _ _ Ebis).
    pose proof (nb_steps (step a iv) ivs). pose proof (nb_step a iv).
    pose proof (@dec_shift_spec dec_ret None s sv a iv Hr Ha Hiv ltac:(cbn [limit]; lia) Hc1) as E1.
    rewrite decide_True in E1 by (cbn [limit]; lia). rewrite (bind_Next _ _ _ _ _ E1).
    assert (ac_ok (step a iv)) as Ha1 by by apply step_ok.
    rewrite (proj2 (Z.eqb_neq _ _)) by (destruct Ha1; lia).
    rewrite (IH _ (step a iv) sizes'); [by rewrite <- app_assoc| |done|done|done|done].
    destruct Hr. by split.
Qed.

(** On a stream of the encoder the logistic decoder returns the samples when it
    looks at no more than 400 bytes, and -1 otherwise. *)
Lemma DecLogistic_loop_spec s sv a k env swb envs ds dithers acc :
  mdrep s sv a -> ac_ok a -> env_seq (length ds) k env swb = Some envs ->
  Forall3 decodable envs ds dithers -> (nb a + 4 <= STREAM_SIZE_MAX_60)%nat ->
  contains (steps a (log_ivs envs ds)) (nth_byte (b_stream s)) ->
  if decide (nb (steps a (log_ivs envs ds)) + 4 <= STREAM_SIZE_MAX_60)%nat
  then DecLogistic_loop (length ds) k env dithers swb (nb a + 3) (rng a) sv acc s =
         Next (reached (steps a (log_ivs envs ds)) s (acc ++ ds)) s
  else exists l, DecLogistic_loop (length ds) k env dithers swb (nb a + 3) (rng a) sv acc s =
         Return (-1, l) s.
Proof.
  intros Hr Ha Hex Hd. revert sv a k env acc Hr Ha Hex.
  induction Hd as [|e d dither envs ds dithers Hd Hds IH]; intros sv a k env acc Hr Ha Hex Hlim Hc.
  { rewrite decide_True by done. rewrite app_nil_r. destruct Hr as [_ _ ->]. done. }
  cbn [length env_seq] in Hex. destruct (env !! 0%nat) as [e'|] eqn:Ee; [|done]. cbn [mbind option_bind] in Hex.
  destruct (env_seq _ _ _ _) as [es|] eqn:Ex; [|done]. injection Hex as -> ->.
  pose proof (codable_iv e d (dc_code _ _ _ Hd)) as Hiv.
  pose proof (log_ivs_decodable _ _ _ Hds) as Hivs.
  change (steps a (log_ivs (e :: envs) (d :: ds)))
    with (steps (step a (sample_iv e d)) (log_ivs envs ds)) in *.
  destruct (mnext_window _ _ _ _ _ Hr Ha Hiv Hivs Hc) as (Hc1 & HW & Hx).
  pose proof Ha as (_ & Hrg & _). cbn [length DecLogistic_loop].
  rewrite (bind_mem _ _ _ dither) by done. rewrite (bind_mem _ _ _ _ Ee).
  assert (HWa : forall c, is_s16 c -> (fun candQ7 => bind (R := dec_ret) (piecewise_at e candQ7)
      (fun cdf_tmp => ret (W_scale (rng a) cdf_tmp))) c s = Next (scale (rng a) (cp e c)) s).
  { intros c Hcs. rewrite (bind_Next _ _ _ _ _ (piecewise_computes e s (dc_env _ _ _ Hd) c Hcs)).
    unfold ret. rewrite W_scale_spec; [done|done|]. pose proof (cp_range e c). lia. }
  destruct Hd as [He Hdr Hco Hg Hfl].
  pose proof (log_search_spec _ (-1, acc) (rng a) e d sv s HWa HW ltac:(lia) He Hdr Hx dither Hg Hfl) as Es.
  rewrite (bind_Next _ _ _ _ _ Es).
  pose proof (nb_steps (step a (sample_iv e d)) (log_ivs envs ds)).
  pose proof (@dec_shift_spec dec_ret (Some (-1, acc ++ [d])) s sv a (sample_iv e d) Hr Ha Hiv Hlim Hc1) as E1.
  cbn [limit past_limit] in E1. cbn [sample_iv fst snd] in E1.
  destruct (decide (nb (step a (sample_iv e d)) + 4 <= STREAM_SIZE_MAX_60)%nat) as [Hin|Hout].
  - rewrite (bind_Next _ _ _ _ _ E1).
    assert (Hr1 : mdrep s (offset (step a (sample_iv e d)) (nth_byte (b_stream s))) (step a (sample_iv e d)))
      by (destruct Hr; by split).
    specialize (IH _ _ (k + 1) _ (acc ++ [d]) Hr1 ltac:(by apply step_ok) Ex Hin Hc).
    rewrite <- app_assoc in IH. exact IH.
  - rewrite decide_False by lia. exists (acc ++ [d]). by rewrite (bind_Return _ _ _ _ _ E1).
Qed.

(** The end of a decoding call. *)
Lemma dec_store_spec {R A} s a (data : A) :
  ac_ok a -> length (b_stream s) = STREAM_SIZE_MAX -> Forall is_u8 (b_stream s) ->
  (nb a + 4 <= STREAM_SIZE_MAX)%nat ->
  exists s', @dec_store R A (nb a + 3) (rng a) (offset a (nth_byte (b_stream s))) data s =
      Next (Z.of_nat (final_len a), data) s' /\ mdec s' a /\ b_stream s' = b_stream s.
Proof.
  intros Ha HL HU Hin. unfold STREAM_SIZE_MAX in Hin. unfold dec_store. run. simpl b_stream_index.
  rewrite u32_id by clia. eexists. split; [|split].
  - do 2 f_equal. unfold final_len. destruct (0x01FFFFFF <? rng a); rewrite s32_id; clia.
  - split; simpl; [done|done|done|done|]. by right.
  - done.
Qed.

(** ** The interface of the decoder *)

Class MDecodes {R A} (D : stmt Bitstr R A) (ivs : list (Z * Z)) (res : nat -> A) := {
  mdecodes_ivs : Forall iv_ok ivs;
  mdecodes_run s a : mdec s a ->
    (nb (steps a ivs) + 4 <= STREAM_SIZE_MAX_60)%nat ->
    contains (steps a ivs) (nth_byte (b_stream s)) ->
    exists s', D s = Next (res (final_len (steps a ivs))) s' /\
      mdec s' (steps a ivs) /\ b_stream s' = b_stream s;
}.

Lemma mdec_rng_nz s a : mdec s a -> (b_W_upper s =? 0) = false.
Proof. intros [-> (_ & H1 & _) _ _ _]. apply Z.eqb_neq. lia. Qed.

Lemma DecHistOneStepMulti_mdecodes {R} data cdf ivs inits n :
  Forall3 sym_of data cdf ivs -> Forall2 init_ok cdf inits -> n = Z.of_nat (length data) ->
  MDecodes (@WebRtcIsac_DecHistOneStepMulti R cdf inits n) ivs (fun l => (Z.of_nat l, data)).
Proof.
  intros Hd Hi ->. split; [by eapply syms_of_ok|]. intros s a Hs Hin Hc.
  unfold WebRtcIsac_DecHistOneStepMulti, fn.
  rewrite bind_get, (mdec_rng_nz s a Hs), (mdc_rng _ _ Hs), Nat2Z.id.
  destruct (@read_first_spec dec_ret s a Hs) as (v0 & E0 & Hr0). rewrite (bind_Next _ _ _ _ _ E0).
  unfold STREAM_SIZE_MAX_60 in Hin.
  pose proof (DecHistOneStep_loop_spec s v0 a data cdf ivs inits [] Hr0 (mdc_ok _ _ Hs) Hd Hi
    ltac:(unfold STREAM_SIZE_MAX; lia) Hc) as E1.
  cbn [fst snd]. rewrite (bind_Next _ _ _ _ _ E1).
  assert (ac_ok (steps a ivs)) by (eapply steps_ok; eauto using syms_of_ok, mdc_ok).
  destruct (@dec_store_spec dec_ret _ s (steps a ivs) data) as (s2 & E2 & H2);
    [done|apply Hr0|apply Hr0|unfold STREAM_SIZE_MAX; lia|].
  unfold reached. cbn [app]. rewrite E2. by exists s2.
Qed.

Lemma DecHistBisectMulti_mdecodes {R} data cdf ivs sizes n :
  Forall3 sym_of data cdf ivs -> Forall2 size_ok cdf sizes -> n = Z.of_nat (length data) ->
  MDecodes (@WebRtcIsac_DecHistBisectMulti R cdf sizes n) ivs (fun l => (Z.of_nat l, data)).
Proof.
  intros Hd Hi ->. split; [by eapply syms_of_ok|]. intros s a Hs Hin Hc.
  unfold WebRtcIsac_DecHistBisectMulti, fn.
  rewrite bind_get, (mdec_rng_nz s a Hs), (mdc_rng _ _ Hs), Nat2Z.id.
  destruct (@read_first_spec dec_ret s a Hs) as (v0 & E0 & Hr0). rewrite (bind_Next _ _ _ _ _ E0).
  unfold STREAM_SIZE_MAX_60 in Hin.
  pose proof (DecHistBisect_loop_spec s v0 a data cdf ivs sizes 0 [] Hr0 (mdc_ok _ _ Hs) Hd Hi
    ltac:(unfold STREAM_SIZE_MAX; lia) Hc) as E1.
  cbn [fst snd]. rewrite (bind_Next _ _ _ _ _ E1).
  assert (ac_ok (steps a ivs)) by (eapply steps_ok; eauto using syms_of_ok, mdc_ok).
  destruct (@dec_store_spec dec_ret _ s (steps a ivs) data) as (s2 & E2 & H2);
    [done|apply Hr0|apply Hr0|unfold STREAM_SIZE_MAX; lia|].
  unfold reached. cbn [app]. rewrite E2. by exists s2.
Qed.

(** The outcome of the logistic decoder on a stream of the encoder. *)
Lemma DecLogisticMulti2_outcome {R} s a env swb envs ds dithers :
  mdec s a -> env_seq (length ds) 0 env swb = Some envs -> Forall3 decodable envs ds dithers ->
  (nb a + 4 <= STREAM_SIZE_MAX_60)%nat ->
  contains (steps a (log_ivs envs ds)) (nth_byte (b_stream s)) ->
  let a' := steps a (log_ivs envs ds) in
  if decide (nb a' + 4 <= STREAM_SIZE_MAX_60)%nat
  then exists s', @WebRtcIsac_DecLogisticMulti2 R env dithers (Z.of_nat (length ds)) swb s =
      Next (Z.of_nat (final_len a'), ds) s' /\ mdec s' a' /\ b_stream s' = b_stream s
  else exists l, @WebRtcIsac_DecLogisticMulti2 R env dithers (Z.of_nat (length ds)) swb s = Next (-1, l) s.
Proof.
  intros Hs Hex Hd Hlim Hc a'. unfold WebRtcIsac_DecLogisticMulti2, fn. rewrite bind_get.
  assert (Hf : (if b_stream_index s =? 0 then
      bool_decide (STREAM_SIZE_MAX_60 <= Z.to_nat (b_stream_index s) + 3)%nat else false) = false).
  { destruct (Z.eqb_spec (b_stream_index s) 0) as [->|]; [|done]. by vm_compute. }
  rewrite Hf, (mdc_rng _ _ Hs), Nat2Z.id.
  destruct (@read_first_spec dec_ret s a Hs) as (v0 & E0 & Hr0). rewrite (bind_Next _ _ _ _ _ E0). cbn [fst snd].
  pose proof (DecLogistic_loop_spec s v0 a 0 env swb envs ds dithers [] Hr0 (mdc_ok _ _ Hs) Hex Hd Hlim Hc) as E1.
  fold a' in E1. unfold STREAM_SIZE_MAX_60 in *. case_decide.
  - rewrite (bind_Next _ _ _ _ _ E1). unfold reached. cbn [app].
    assert (ac_ok a') as Ha' by (apply steps_ok; [apply Hs|by eapply log_ivs_decodable]).
    destruct (@dec_store_spec dec_ret _ s a' ds Ha') as (s2 & E2 & H2);
      [apply Hr0|apply Hr0|unfold STREAM_SIZE_MAX; lia|]. rewrite E2. by exists s2.
  - destruct E1 as [l E1]. rewrite (bind_Return _ _ _ _ _ E1). by exists l.
Qed.

Lemma DecLogisticMulti2_mdecodes {R} env swb envs ds dithers n :
  env_seq (length ds) 0 env swb = Some envs -> Forall3 decodable envs ds dithers ->
  n = Z.of_nat (length ds) ->
  MDecodes (@WebRtcIsac_DecLogisticMulti2 R env dithers n swb) (log_ivs envs ds)
    (fun l => (Z.of_nat l, ds)).
Proof.
  intros Hex Hd ->. split; [by eapply log_ivs_decodable|]. intros s a Hs Hin Hc.
  pose proof (nb_steps a (log_ivs envs ds)).
  pose proof (@DecLogisticMulti2_outcome R s a env swb envs ds dithers Hs Hex Hd ltac:(lia) Hc) as Ho.
  cbv zeta in Ho. by rewrite decide_True in Ho by done.
Qed.

(** ** Sequences of calls

    A frame is a sequence of histogram and logistic calls; an error ends it. *)

Inductive mcall :=
| MHist (data : list Z) (cdf : list (list Z)) (how : search)
| MLogist (dataQ7 envQ8 ditherQ7 : list Z) (isSWB12kHz : Z).

Definition mencode_call {R} (c : mcall) : stmt Bitstr R (Z * list Z) :=
  match c with
  | MHist data cdf _ =>
      let! status := WebRtcIsac_EncHistMulti data cdf (Z.of_nat (length data)) in ret (status, data)
  | MLogist dataQ7 envQ8 _ swb =>
      WebRtcIsac_EncLogisticMulti2 dataQ7 envQ8 (Z.of_nat (length dataQ7)) swb
  end.

Definition mdecode_call {R} (c : mcall) : stmt Bitstr R dec_ret :=
  match c with
  | MHist data cdf (OneStep init) => WebRtcIsac_DecHistOneStepMulti cdf init (Z.of_nat (length data))
  | MHist data cdf (Bisect sizes) => WebRtcIsac_DecHistBisectMulti cdf sizes (Z.of_nat (length data))
  | MLogist dataQ7 envQ8 ditherQ7 swb =>
      WebRtcIsac_DecLogisticMulti2 envQ8 ditherQ7 (Z.of_nat (length dataQ7)) swb
  end.

(** Run the calls in order, collecting what each leaves in its array. *)
Fixpoint calls (run : mcall -> stmt Bitstr (Z * list (list Z)) (Z * list Z))
    (cs : list mcall) (status : Z) (acc : list (list Z)) :
    stmt Bitstr (Z * list (list Z)) (Z * list (list Z)) :=
  match cs with
  | [] => ret (status, acc)
  | c :: cs' =>
      let! r := run c in
      if r.1 <? 0 then return_ (r.1, acc) else calls run cs' r.1 (acc ++ [r.2])
  end.

(** A frame of the encoder: reset, calls, terminator. *)
Definition main_encode (cs : list mcall) (s : Bitstr) : outcome Bitstr Z (Z * list (list Z)) :=
  (let! r := fn (calls mencode_call cs 0 []) in
   if r.1 <? 0 then ret r
   else let! len := WebRtcIsac_EncTerminate in ret (len, r.2)) (WebRtcIsac_ResetBitstream s).

(** A frame of the decoder, on a structure that holds the payload. *)
Definition main_decode (cs : list mcall) (s : Bitstr) : outcome Bitstr Z (Z * list (list Z)) :=
  fn (calls mdecode_call cs 0 []) (WebRtcIsac_ResetBitstream s).

(** The call's symbols belong to its tables, or its samples to their grids; [out]
    is what the encoder leaves in the array. *)
Inductive mcoded : mcall -> list (Z * Z) -> list Z -> Prop :=
| coded_onestep data cdf ivs init :
    Forall3 sym_of data cdf ivs -> Forall2 init_ok cdf init ->
    mcoded (MHist data cdf (OneStep init)) ivs data
| coded_bisect data cdf ivs sizes :
    Forall3 sym_of data cdf ivs -> Forall2 size_ok cdf sizes ->
    mcoded (MHist data cdf (Bisect sizes)) ivs data
| coded_logist data env swb envs data' dithers :
    env_seq (length data) 0 env swb = Some envs -> Forall sample_ok data ->
    Forall3 clip_to envs data data' -> Forall3 decodable envs data' dithers ->
    mcoded (MLogist data env dithers swb) (log_ivs envs data') data'.

Lemma clip_to_length envs data data' : Forall3 clip_to envs data data' -> length data' = length data.
Proof. induction 1; simpl; congruence. Qed.

Lemma decodable_env envs ds dithers : Forall3 decodable envs ds dithers -> Forall env_ok envs.
Proof. induction 1; constructor; [|done]. by eapply dc_env. Qed.

Lemma mencode_call_mencodes {R} c ivs out :
  mcoded c ivs out -> MEncodes (@mencode_call R c) ivs (0, out) (fun r => bits_exceeded r.1).
Proof.
  assert (Hh : forall data cdf how ivs, Forall3 sym_of data cdf ivs ->
    MEncodes (@mencode_call R (MHist data cdf how)) ivs (0, data) (fun r => bits_exceeded r.1)).
  { intros data cdf how ivs' Hd. split; [by eapply syms_of_ok|]. intros s a Hs.
    pose proof (@mencodes_run _ _ _ _ _ _ (@EncHistMulti_mencodes R data cdf ivs' _ Hd eq_refl) s a Hs) as He.
    simpl. unfold bind. destruct (WebRtcIsac_EncHistMulti _ _ _ s) as [r s1|r s1| |]; try done.
    destruct He as [[-> H1]|[[] _]]. by left. }
  intros [data cdf ivs' init Hd _|data cdf ivs' sizes Hd _|data env swb envs data' dithers Hx Hs Hc Hd];
    [by apply Hh|by apply Hh|].
  apply EncLogisticMulti2_mencodes; [done|done|by eapply decodable_env|done|done].
Qed.

Lemma mdecode_call_mdecodes {R} c ivs out :
  mcoded c ivs out -> MDecodes (@mdecode_call R c) ivs (fun l => (Z.of_nat l, out)).
Proof.
  intros [data cdf ivs' init Hd Hi|data cdf ivs' sizes Hd Hi|data env swb envs data' dithers Hx Hs Hc Hd].
  - by apply DecHistOneStepMulti_mdecodes.
  - by apply DecHistBisectMulti_mdecodes.
  - pose proof (clip_to_length _ _ _ Hc) as HL.
    apply DecLogisticMulti2_mdecodes; [by rewrite HL|done|by rewrite HL].
Qed.

Lemma calls_mencodes {R} cs ivss outs acc :
  Forall3 mcoded cs ivss outs ->
  MEncodes (fn (R' := R) (calls mencode_call cs 0 acc)) (concat ivss) (0, acc ++ outs)
    (fun r => bits_exceeded r.1).
Proof.
  intros Hc. revert acc. induction Hc as [|c ivs out cs ivss outs Hc Hcs IH]; intros acc.
  { split; [done|]. intros s a Hs. simpl. rewrite app_nil_r. by left. }
  pose proof (@mencode_call_mencodes (Z * list (list Z)) c ivs out Hc) as H1. simpl concat.
  split; [apply Forall_app; split; [apply H1|apply (IH [])]|]. intros s a Hs.
  pose proof (@mencodes_run _ _ _ _ _ _ H1 s a Hs) as H2. rewrite steps_app.
  pose proof (nb_steps (steps a ivs) (concat ivss)). simpl calls. unfold fn, bind.
  destruct (mencode_call c s) as [r s1|r s1| |]; [|done|lia|done].
  destruct H2 as [[-> H2]|[Hr Hge]].
  - specialize (IH (acc ++ [out])). rewrite <- app_assoc in IH.
    pose proof (@mencodes_run _ _ _ _ _ _ IH s1 _ H2) as H3. simpl. exact H3.
  - rewrite Hr. simpl. right. split; [done|lia].
Qed.

Lemma mdec_bytes s a : mdec s a -> is_bytes (nth_byte (b_stream s)).
Proof. intros Hs. apply nth_byte_bytes, Hs. Qed.

Lemma calls_decode c cs ivss outs status acc s a :
  Forall3 mcoded (c :: cs) ivss outs -> mdec s a ->
  (nb (steps a (concat ivss)) + 4 <= STREAM_SIZE_MAX_60)%nat ->
  contains (steps a (concat ivss)) (nth_byte (b_stream s)) ->
  exists s', calls mdecode_call (c :: cs) status acc s =
    Next (Z.of_nat (final_len (steps a (concat ivss))), acc ++ outs) s'.
Proof.
  intros Hc. revert Hc. revert c ivss outs status acc s a.
  induction cs as [|c' cs IH]; intros c ivss outs status acc s a Hc Hs Hin Hcon;
    inversion Hc as [|? ivs out ? ivss' outs' Hc1 Hcs]; subst; simpl concat in *; rewrite steps_app in *;
    pose proof (@mdecode_call_mdecodes (Z * list (list Z)) c ivs out Hc1) as H1;
    pose proof (nb_steps (steps a ivs) (concat ivss')).
  - inversion Hcs; subst. simpl concat in *. cbn [steps foldl] in *.
    destruct (@mdecodes_run _ _ _ _ _ H1 s a Hs Hin Hcon) as (s1 & E1 & _).
    cbn [calls]. rewrite (bind_Next _ _ _ _ _ E1). cbn [fst snd].
    rewrite (proj2 (Z.ltb_ge _ _)) by lia. by exists s1.
  - assert (Hivs : Forall iv_ok (concat ivss')).
    { clear -Hcs. revert Hcs. generalize (c' :: cs). intros l Hl. induction Hl as [|?????? Hc _ IH]; [constructor|].
      simpl. apply Forall_app. split; [|done]. apply (@mdecode_call_mdecodes Z _ _ _ Hc). }
    assert (contains (steps a ivs) (nth_byte (b_stream s))) as Hc0.
    { eapply contains_steps, Hcon; [by eapply mdec_bytes| |done].
      apply steps_ok; [apply Hs|apply H1]. }
    destruct (@mdecodes_run _ _ _ _ _ H1 s a Hs ltac:(lia) Hc0) as (s1 & E1 & Hs1 & S1).
    cbn [calls]. rewrite (bind_Next _ _ _ _ _ E1). cbn [fst snd].
    rewrite (proj2 (Z.ltb_ge _ _)) by lia. rewrite <- S1 in Hcon.
    destruct (IH c' ivss' outs' (Z.of_nat (final_len (steps a ivs))) (acc ++ [out]) s1 _ Hcs Hs1 Hin Hcon)
      as (s2 & E2). rewrite <- app_assoc in E2. by exists s2.
Qed.

Lemma reset_menc s :
  length (b_stream s) = STREAM_SIZE_MAX -> Forall is_u8 (b_stream s) ->
  menc (WebRtcIsac_ResetBitstream s) ac_init.
Proof.
  intros HL HU. split; [|done|done|apply ac_init_ok].
  split; simpl; [done|done|lia|clia|]. change (pre _ 0) with 0. lia.
Qed.

Lemma reset_mdec s :
  length (b_stream s) = STREAM_SIZE_MAX -> Forall is_u8 (b_stream s) ->
  mdec (WebRtcIsac_ResetBitstream s) ac_init.
Proof. intros HL HU. split; simpl; [done|apply ac_init_ok|done|done|]. by left. Qed.

(** What an encoded frame holds. *)
Lemma main_encode_spec cs ivss outs s :
  Forall3 mcoded cs ivss outs ->
  length (b_stream s) = STREAM_SIZE_MAX -> Forall is_u8 (b_stream s) ->
  let a := steps ac_init (concat ivss) in
  match main_encode cs s with
  | Next r s' =>
      (r = (Z.of_nat (final_len a), outs) /\ length (b_stream s') = STREAM_SIZE_MAX /\
       Forall is_u8 (b_stream s') /\ pre (nth_byte (b_stream s')) (final_len a) = final_val a) \/
      (r.1 = - ISAC_DISALLOWED_BITSTREAM_LENGTH /\ (400 <= nb a)%nat)
  | Fault => (STREAM_SIZE_MAX < final_len a)%nat
  | _ => False
  end.
Proof.
  intros Hc HL HU a. pose proof (reset_menc s HL HU) as Hs.
  pose proof (@mencodes_run _ _ _ _ _ _ (@calls_mencodes Z cs ivss outs [] Hc) _ _ Hs) as He.
  fold a in He. unfold main_encode, bind at 1.
  assert (nb a < final_len a)%nat by (unfold final_len; bcase; lia).
  destruct (fn (calls mencode_call cs 0 []) _) as [r s1|r s1| |]; [|done|lia|done].
  destruct He as [[-> He]|[Hr Hge]].
  - cbn [fst snd app]. change (0 <? 0) with false. cbn iota.
    pose proof (@MEncTerminate_spec Z s1 a He) as Ht.
    destruct (decide (final_len a <= STREAM_SIZE_MAX)%nat).
    + destruct Ht as (s2 & E2 & H2). rewrite (bind_Next _ _ _ _ _ E2). by left.
    + unfold bind. rewrite Ht. lia.
  - rewrite Hr. cbn. by right.
Qed.

(** A decoder structure that holds the encoder's bytes is in its interval. *)
Lemma payload_contains a s d :
  ac_ok a -> pre (nth_byte (b_stream s)) (final_len a) = final_val a ->
  Forall is_u8 (b_stream d) ->
  take (final_len a) (b_stream d) = take (final_len a) (b_stream s) ->
  contains a (nth_byte (b_stream d)).
Proof.
  intros Ha Hp HU Ht. apply final_contains; [done|by apply nth_byte_bytes|].
  rewrite <- Hp. apply pre_ext. intros i Hi. unfold nth_byte.
  rewrite <- (lookup_take_lt (b_stream d) (final_len a) i) by done.
  rewrite Ht. by rewrite lookup_take_lt by done.
Qed.

(** ** Properties *)

(** A frame with one call of each kind, and a buffer with old contents. *)
Definition demo_calls : list mcall :=
  [MHist [2; 0; 1] [[0; 100; 40000; 65535]; [0; 1; 65535]; [0; 3; 65000; 65535]] (OneStep [1; 1; 2]);
   MHist [1; 3] [[0; 8000; 30000]; [0; 10; 20; 30; 40; 65535; 65535]] (Bisect [4; 8]);
   MLogist demo_data demo_env demo_dithers 0].

Definition demo_call_ivs : list (list (Z * Z)) :=
  demo_ivs ++ [log_ivs (expand 4 demo_env) demo_clipped].

Definition demo_bits : Bitstr := mkBitstr (replicate 600 0xC5) 5 6 7.

Lemma demo_bits_ok : length (b_stream demo_bits) = STREAM_SIZE_MAX /\ Forall is_u8 (b_stream demo_bits).
Proof. split; [done|]. apply Forall_replicate. clia. Qed.

Lemma demo_calls_coded : Forall3 mcoded demo_calls demo_call_ivs [[2; 0; 1]; [1; 3]; demo_clipped].
Proof.
  pose proof demo_blocks_search as Hs. apply Forall_cons_1 in Hs as [H1 Hs]. apply Forall_cons_1 in Hs as [H2 _].
  constructor; [constructor; [by apply syms_lookup_ok|exact H1]|].
  constructor; [constructor; [by apply syms_lookup_ok|exact H2]|].
  constructor; [|constructor]. apply coded_logist.
  - vm_compute. reflexivity.
  - repeat (constructor; [unfold sample_ok; lia|]). constructor.
  - exact demo_clip.
  - exact demo_decodable.
Qed.

(** C23. The byte oriented coder of iSAC is lossless. Take any sequence of calls of
    [WebRtcIsac_EncHistMulti] with symbols of positive frequency and of
    [WebRtcIsac_EncLogisticMulti2] with decodable samples, on a reset structure,
    followed by [WebRtcIsac_EncTerminate]. When the result is a length of at most
    397 bytes, any structure whose buffer starts with those bytes, whatever
    follows them, decodes by the corresponding calls to the symbols and the
    clipped samples, and the last call returns that length. *)
Theorem main_roundtrip c cs ivss outs s len r s' d :
  Forall3 mcoded (c :: cs) ivss outs ->
  length (b_stream s) = STREAM_SIZE_MAX -> Forall is_u8 (b_stream s) ->
  main_encode (c :: cs) s = Next (len, r) s' -> 0 <= len <= 397 ->
  length (b_stream d) = STREAM_SIZE_MAX -> Forall is_u8 (b_stream d) ->
  take (Z.to_nat len) (b_stream d) = take (Z.to_nat len) (b_stream s') ->
  r = outs /\ exists d', main_decode (c :: cs) d = Next (len, outs) d'.
Proof.
  intros Hc HL HU Ee Hlen HLd HUd Ht. pose proof (main_encode_spec _ _ _ s Hc HL HU) as Hs.
  cbv zeta in Hs. rewrite Ee in Hs. destruct Hs as [([= -> ->] & L' & U' & P')|[E _]]; [|unfold ISAC_DISALLOWED_BITSTREAM_LENGTH in E; simpl in E; lia].
  split; [done|]. set (a := steps ac_init (concat ivss)) in *. rewrite Nat2Z.id in Ht.
  assert (nb a < final_len a)%nat by (unfold final_len; bcase; lia).
  assert (Hok : ac_ok a).
  { apply steps_ok; [apply ac_init_ok|]. apply (@calls_mencodes Z _ _ _ [] Hc). }
  pose proof (payload_contains a s' d Hok P' HUd Ht) as Hcon.
  destruct (calls_decode c cs ivss outs 0 [] _ ac_init Hc (reset_mdec d HLd HUd)) as (d' & Ed);
    [fold a; unfold STREAM_SIZE_MAX_60; lia|exact Hcon|].
  exists d'. unfold main_decode. rewrite (fn_Next _ _ _ _ Ed). done.
Qed.

Lemma main_roundtrip_witness :
  exists s' d', main_encode demo_calls demo_bits = Next (9, [[2; 0; 1]; [1; 3]; demo_clipped]) s' /\
    main_decode demo_calls s' = Next (9, [[2; 0; 1]; [1; 3]; demo_clipped]) d'.
Proof.
  pose proof (main_encode_spec _ _ _ demo_bits demo_calls_coded (proj1 demo_bits_ok) (proj2 demo_bits_ok)) as Hs.
  cbv zeta in Hs.
  replace (final_len (steps ac_init (concat demo_call_ivs))) with 9%nat in Hs by (vm_compute; reflexivity).
  replace (nb (steps ac_init (concat demo_call_ivs))) with 8%nat in Hs by (vm_compute; reflexivity).
  destruct (main_encode demo_calls demo_bits) as [r s'|r s'| |] eqn:Ee; [|destruct Hs| |destruct Hs].
  2: { unfold STREAM_SIZE_MAX in Hs. lia. }
  destruct Hs as [(-> & L & U & _)|[_ ?]]; [|lia].
  destruct (main_roundtrip _ _ _ _ _ _ _ s' s' demo_calls_coded (proj1 demo_bits_ok) (proj2 demo_bits_ok)
    Ee ltac:(lia) L U eq_refl) as (_ & d' & Ed). exists s', d'. split; [reflexivity|exact Ed].
Defined.

(** When a frame of the byte oriented coder fits, it is coded. With [a] the
    specification's coder after all symbols and fewer than 400 bytes out of its
    window, no call fails, no loop runs out of fuel, nothing is written outside the
    buffer, and the result is the length and the bytes of the specification. *)
Theorem main_encode_total cs ivss outs s :
  Forall3 mcoded cs ivss outs ->
  length (b_stream s) = STREAM_SIZE_MAX -> Forall is_u8 (b_stream s) ->
  let a := steps ac_init (concat ivss) in
  (nb a < 400)%nat ->
  exists s', main_encode cs s = Next (Z.of_nat (final_len a), outs) s' /\
    pre (nth_byte (b_stream s')) (final_len a) = final_val a.
Proof.
  intros Hc HL HU a Hn. pose proof (main_encode_spec _ _ _ s Hc HL HU) as Hs.
  cbv zeta in Hs. fold a in Hs.
  assert (final_len a <= nb a + 2)%nat by (unfold final_len; bcase; lia).
  destruct (main_encode cs s) as [r s'|r s'| |]; [|done| |done].
  - destruct Hs as [(-> & _ & _ & P)|[_ Hge]]; [by exists s'|lia].
  - unfold STREAM_SIZE_MAX in Hs. lia.
Qed.

Lemma main_encode_total_witness :
  exists s', main_encode demo_calls demo_bits = Next (9, [[2; 0; 1]; [1; 3]; demo_clipped]) s' /\
    pre (nth_byte (b_stream s')) 9 = final_val (steps ac_init (concat demo_call_ivs)).
Proof.
  destruct (main_encode_total demo_calls demo_call_ivs [[2; 0; 1]; [1; 3]; demo_clipped] demo_bits
    demo_calls_coded (proj1 demo_bits_ok) (proj2 demo_bits_ok)) as (s' & E & P).
  - apply Nat.ltb_lt. vm_compute. reflexivity.
  - exists s'.
    replace (final_len (steps ac_init (concat demo_call_ivs))) with 9%nat in E, P by (vm_compute; reflexivity).
    split; [exact E|exact P].
Defined.

(** A spectrum of 362 samples, all zero, with the widest distribution: 400 bytes. *)
Definition lost_call : mcall := MLogist (replicate 362 0) (replicate 91 1) (replicate 362 0) 0.

(** [WebRtcIsac_DecLogisticMulti2] rejects the longest payloads its encoder
    produces. The encoder stops at 400 bytes; the decoder, which holds four bytes
    more than have left the window, checks those against the same 400. A spectrum
    that the encoder codes in 399 bytes or more (with the terminator) decodes to
    the error -1, although the payload is intact. *)
Theorem main_spectrum_lost data env dithers swb ivs out s len r s' d :
  mcoded (MLogist data env dithers swb) ivs out ->
  length (b_stream s) = STREAM_SIZE_MAX -> Forall is_u8 (b_stream s) ->
  main_encode [MLogist data env dithers swb] s = Next (len, r) s' -> 399 <= len ->
  length (b_stream d) = STREAM_SIZE_MAX -> Forall is_u8 (b_stream d) ->
  take (Z.to_nat len) (b_stream d) = take (Z.to_nat len) (b_stream s') ->
  exists d', main_decode [MLogist data env dithers swb] d = Next (-1, []) d'.
Proof.
  intros Hm HL HU Ee Hlen HLd HUd Ht.
  assert (Hc : Forall3 mcoded [MLogist data env dithers swb] [ivs] [out]) by (constructor; [done|constructor]).
  pose proof (main_encode_spec _ _ _ s Hc HL HU) as Hs.
  cbv zeta in Hs. rewrite Ee in Hs. destruct Hs as [([= -> ->] & L' & U' & P')|[E _]]; [|unfold ISAC_DISALLOWED_BITSTREAM_LENGTH in E; simpl in E; lia].
  simpl concat in *. rewrite app_nil_r in *. set (a := steps ac_init ivs) in *. rewrite Nat2Z.id in Ht.
  assert (final_len a <= nb a + 2)%nat by (unfold final_len; bcase; lia).
  inversion Hm as [| |? ? ? envs ? ? Hx Hsm Hcl Hde]; subst.
  pose proof (clip_to_length _ _ _ Hcl) as HLo. rewrite <- HLo in Hx.
  assert (Hok : ac_ok a) by (apply steps_ok; [apply ac_init_ok|by eapply log_ivs_decodable]).
  pose proof (payload_contains a s' d Hok P' HUd Ht) as Hcon.
  pose proof (@DecLogisticMulti2_outcome (Z * list (list Z)) _ ac_init env swb envs out dithers
    (reset_mdec d HLd HUd) Hx Hde ltac:(unfold STREAM_SIZE_MAX_60; simpl; lia) Hcon) as Ho.
  cbv zeta in Ho. fold a in Ho. rewrite decide_False in Ho by (unfold STREAM_SIZE_MAX_60; lia).
  destruct Ho as [l Ho]. rewrite HLo in Ho. exists (WebRtcIsac_ResetBitstream d). unfold main_decode.
  apply fn_Return. cbn [calls mdecode_call]. by rewrite (bind_Next _ _ _ _ _ Ho).
Qed.

Lemma lost_coded :
  mcoded lost_call (log_ivs (replicate 362 1) (replicate 362 0)) (replicate 362 0).
Proof.
  assert (Hco : codable 1 0) by (apply codable_small; lia). apply coded_logist.
  - vm_compute. reflexivity.
  - apply Forall_replicate. unfold sample_ok. lia.
  - generalize 362%nat. intros n. induction n as [|n IH]; constructor; [by constructor|done].
  - generalize 362%nat. intros n. induction n as [|n IH]; constructor; [|done].
    split; [unfold env_ok; lia|unfold sample_ok; lia|done|split; [lia|done]|split; intros; lia].
Qed.

Lemma main_spectrum_lost_witness :
  exists s' d', main_encode [lost_call] demo_bits = Next (400, [replicate 362 0]) s' /\
    main_decode [lost_call] s' = Next (-1, []) d'.
Proof.
  assert (Hc : Forall3 mcoded [lost_call] [log_ivs (replicate 362 1) (replicate 362 0)] [replicate 362 0])
    by (constructor; [exact lost_coded|constructor]).
  pose proof (main_encode_spec _ _ _ demo_bits Hc (proj1 demo_bits_ok) (proj2 demo_bits_ok)) as Hs.
  cbv zeta in Hs.
  assert (Hcc : concat [log_ivs (replicate 362 1) (replicate 362 0)] =
    log_ivs (replicate 362 1) (replicate 362 0)) by apply app_nil_r. rewrite Hcc in Hs.
  assert (Hnb : nb (steps ac_init (log_ivs (replicate 362 1) (replicate 362 0))) = 399%nat)
    by (vm_compute; reflexivity).
  assert (Hfl : final_len (steps ac_init (log_ivs (replicate 362 1) (replicate 362 0))) = 400%nat)
    by (vm_compute; reflexivity).
  rewrite Hnb, Hfl in Hs.
  destruct (main_encode [lost_call] demo_bits) as [r s'|r s'| |] eqn:Ee; [|destruct Hs| |destruct Hs].
  2: { unfold STREAM_SIZE_MAX in Hs. lia. }
  destruct Hs as [(-> & L & U & _)|[_ ?]]; [|lia].
  destruct (main_spectrum_lost _ _ _ _ _ _ _ _ _ s' s' lost_coded (proj1 demo_bits_ok) (proj2 demo_bits_ok)
    Ee ltac:(lia) L U eq_refl) as [d' Ed]. exists s', d'. split; [reflexivity|exact Ed].
Defined.
