(* ===== verification/IlbcPack.v ===== *)
(** * Bit packing of iLBC

    [ilbc/pack_bits.c] and [ilbc/unpack_bits.c]: the layout of a frame's
    parameters in 19 (20 ms) or 25 (30 ms) words, three classes of bits ordered
    by their importance. Both functions are straight-line code that moves masked
    and shifted fields; they are given here as the programs they are, one line
    per assignment, with an interpreter. A decision procedure follows each bit
    through a program; from its answer on the programs follow the theorems: the
    two functions are inverse to each other, in both directions and both modes.
    [index_conv_enc.c], [index_conv_dec.c] and [swap_bytes.c], which the codec
    runs before and after, are modelled too. *)

From S2P Require Import Prelude.

(** ** Data *)

(** The locations of [iLBC_bits] that the two functions use. *)
Inductive field :=
| lsf (i : Z)
| cb_index (i : Z)
| gain_index (i : Z)
| idxForMax
| state_first
| idxVec (i : Z)
| startIdx.

Definition field_eqb (f g : field) : bool :=
  match f, g with
  | lsf i, lsf j | cb_index i, cb_index j | gain_index i, gain_index j | idxVec i, idxVec j => i =? j
  | idxForMax, idxForMax | state_first, state_first | startIdx, startIdx => true
  | _, _ => false
  end.

(** The sizes of the arrays of the structure. *)
Definition in_struct (f : field) : bool :=
  match f with
  | lsf i => (0 <=? i) && (i <? 6)
  | cb_index i | gain_index i => (0 <=? i) && (i <? 15)
  | idxVec i => (0 <=? i) && (i <? 58)
  | _ => true
  end.

(** The structure: a value at each location. *)
Definition iLBC_bits : Type := field -> Z.

Definition set_field (b : iLBC_bits) (f : field) (v : Z) : iLBC_bits :=
  fun g => if field_eqb f g then v else b g.

(** Conversion to the type of the location: [int16_t], or [size_t]. *)
Definition to_field (f : field) (v : Z) : Z :=
  match f with
  | idxForMax | startIdx => v mod 2 ^ 64
  | _ => s16 v
  end.

Definition NO_OF_WORDS_20MS : nat := 19.
Definition NO_OF_WORDS_30MS : nat := 25.

(** ** Packing *)

(** A term [((x & mask) >> r) << l]; a mask of -1 is no mask. *)
Record term := Term { t_field : field; t_mask : Z; t_shr : Z; t_shl : Z }.

Definition whole (f : field) : term := Term f (-1) 0 0.
Definition masked (f : field) (m : Z) : term := Term f m 0 0.
Definition term_shr (t : term) (n : Z) : term := Term (t_field t) (t_mask t) n (t_shl t).
Definition term_shl (t : term) (n : Z) : term := Term (t_field t) (t_mask t) (t_shr t) n.

#[local] Coercion whole : field >-> term.

Declare Scope bits_scope.
Notation "f .& m" := (masked f m) (at level 40, left associativity) : bits_scope.
Notation "t .>> n" := (term_shr t n) (at level 41, left associativity) : bits_scope.
Notation "t .<< n" := (term_shl t n) (at level 41, left associativity) : bits_scope.
Open Scope bits_scope.

Definition term_val (b : iLBC_bits) (t : term) : Z :=
  Z.shiftl (Z.shiftr (Z.land (b (t_field t)) (t_mask t)) (t_shr t)) (t_shl t).

(** A word is the disjunction of its terms, stored in a [uint16_t] each time. *)
Definition pack_word (b : iLBC_bits) (ts : list term) : Z :=
  foldl (fun w t => u16 (Z.lor w (term_val b t))) 0 ts.

(** Class 1 bits of ULP. *)
Definition pack_class1 (mode : Z) : list (list term) :=
  if mode =? 20 then
    [[lsf 0 .<< 10; lsf 1 .<< 3; (lsf 2 .& 0x70) .>> 4];
     [(lsf 2 .& 0xF) .<< 12; startIdx .<< 10; state_first .<< 9; idxForMax .<< 3;
      (cb_index 0 .& 0x70) .>> 4];
     [(cb_index 0 .& 0xE) .<< 12; (gain_index 0 .& 0x18) .<< 8; (gain_index 1 .& 0x8) .<< 7;
      (cb_index 3 .& 0xFE) .<< 2; (gain_index 3 .& 0x10) .>> 2; (gain_index 4 .& 0x8) .>> 2;
      (gain_index 6 .& 0x10) .>> 4]]
  else
    [[lsf 0 .<< 10; lsf 1 .<< 3; (lsf 2 .& 0x70) .>> 4];
     [(lsf 2 .& 0xF) .<< 12; lsf 3 .<< 6; (lsf 4 .& 0x7E) .>> 1];
     [(lsf 4 .& 0x1) .<< 15; lsf 5 .<< 8; startIdx .<< 5; state_first .<< 4;
      (idxForMax .& 0x3C) .>> 2];
     [(idxForMax .& 0x3) .<< 14; (cb_index 0 .& 0x78) .<< 7; (gain_index 0 .& 0x10) .<< 5;
      (gain_index 1 .& 0x8) .<< 5; cb_index 3 .& 0xFC; (gain_index 3 .& 0x10) .>> 3;
      (gain_index 4 .& 0x8) .>> 3]].

(** One bit of each sample index [idxVec[n]], [idxVec[n + 1]], ... *)
Definition pack_state_bits (n : Z) (shifts : list Z) : list term :=
  map (fun i => (idxVec (n + (15 - i)) .& 0x4) .>> 2 .<< i) shifts.

Definition down15to0 : list Z := [15; 14; 13; 12; 11; 10; 9; 8; 7; 6; 5; 4; 3; 2; 1; 0].
Definition down15to7 : list Z := [15; 14; 13; 12; 11; 10; 9; 8; 7].
Definition down15to6 : list Z := [15; 14; 13; 12; 11; 10; 9; 8; 7; 6].
Definition down14to0 : list Z := [14; 12; 10; 8; 6; 4; 2; 0].

(** Class 2 bits of ULP. *)
Definition pack_class2 (mode : Z) : list (list term) :=
  map (fun k => pack_state_bits (16 * k) down15to0) [0; 1; 2] ++
  if mode =? 20 then
    [pack_state_bits 48 down15to7 ++
     [(gain_index 1 .& 0x4) .<< 4; (gain_index 3 .& 0xC) .<< 2; (gain_index 4 .& 0x4) .<< 1;
      (gain_index 6 .& 0x8) .>> 1; (gain_index 7 .& 0xC) .>> 2]]
  else
    [pack_state_bits 48 down15to6 ++
     [(cb_index 0 .& 0x6) .<< 3; gain_index 0 .& 0x8; gain_index 1 .& 0x4; cb_index 3 .& 0x2;
      (cb_index 6 .& 0x80) .>> 7];
     [(cb_index 6 .& 0x7E) .<< 9; (cb_index 9 .& 0xFE) .<< 2; (cb_index 12 .& 0xE0) .>> 5];
     [(cb_index 12 .& 0x1E) .<< 11; (gain_index 3 .& 0xC) .<< 8; (gain_index 4 .& 0x6) .<< 7;
      (gain_index 6 .& 0x18) .<< 3; (gain_index 7 .& 0xC) .<< 2; (gain_index 9 .& 0x10) .>> 1;
      (gain_index 10 .& 0x8) .>> 1; (gain_index 12 .& 0x10) .>> 3; (gain_index 13 .& 0x8) .>> 3]].

(** Class 3 bits of ULP. *)
Definition pack_class3 (mode : Z) : list (list term) :=
  map (fun k => map (fun i => (idxVec (8 * k + (14 - i) / 2) .& 0x3) .<< i) down14to0) [0; 1; 2; 3; 4; 5; 6] ++
  if mode =? 20 then
    [[(idxVec 56 .& 0x3) .<< 14; (cb_index 0 .& 1) .<< 13; cb_index 1 .<< 6;
      (cb_index 2 .& 0x7E) .>> 1];
     [(cb_index 2 .& 0x1) .<< 15; (gain_index 0 .& 0x7) .<< 12; (gain_index 1 .& 0x3) .<< 10;
      gain_index 2 .<< 7; (cb_index 3 .& 0x1) .<< 6; (cb_index 4 .& 0x7E) .>> 1];
     [(cb_index 4 .& 0x1) .<< 15; cb_index 5 .<< 8; whole (cb_index 6)];
     [cb_index 7 .<< 8; whole (cb_index 8)];
     [(gain_index 3 .& 0x3) .<< 14; (gain_index 4 .& 0x3) .<< 12; gain_index 5 .<< 9;
      (gain_index 6 .& 0x7) .<< 6; (gain_index 7 .& 0x3) .<< 4; gain_index 8 .<< 1]]
  else
    [[(idxVec 56 .& 0x3) .<< 14; (idxVec 57 .& 0x3) .<< 12; (cb_index 0 .& 1) .<< 11;
      cb_index 1 .<< 4; (cb_index 2 .& 0x78) .>> 3];
     [(cb_index 2 .& 0x7) .<< 13; (gain_index 0 .& 0x7) .<< 10; (gain_index 1 .& 0x3) .<< 8;
      (gain_index 2 .& 0x7) .<< 5; (cb_index 3 .& 0x1) .<< 4; (cb_index 4 .& 0x78) .>> 3];
     [(cb_index 4 .& 0x7) .<< 13; cb_index 5 .<< 6; (cb_index 6 .& 0x1) .<< 5;
      (cb_index 7 .& 0xF8) .>> 3];
     [(cb_index 7 .& 0x7) .<< 13; cb_index 8 .<< 5; (cb_index 9 .& 0x1) .<< 4;
      (cb_index 10 .& 0xF0) .>> 4];
     [(cb_index 10 .& 0xF) .<< 12; cb_index 11 .<< 4; (cb_index 12 .& 0x1) .<< 3;
      (cb_index 13 .& 0xE0) .>> 5];
     [(cb_index 13 .& 0x1F) .<< 11; cb_index 14 .<< 3; (gain_index 3 .& 0x3) .<< 1;
      gain_index 4 .& 0x1];
     [gain_index 5 .<< 13; (gain_index 6 .& 0x7) .<< 10; (gain_index 7 .& 0x3) .<< 8;
      gain_index 8 .<< 5; (gain_index 9 .& 0xF) .<< 1; (gain_index 10 .& 0x4) .>> 2];
     [(gain_index 10 .& 0x3) .<< 14; gain_index 11 .<< 11; (gain_index 12 .& 0xF) .<< 7;
      (gain_index 13 .& 0x7) .<< 4; gain_index 14 .<< 1]].

Definition pack_program (mode : Z) : list (list term) :=
  pack_class1 mode ++ pack_class2 mode ++ pack_class3 mode.

(** Store words from position [n] on. *)
Fixpoint store_words (l : list Z) (n : nat) (ws : list Z) : option (list Z) :=
  match ws with
  | [] => Some l
  | w :: ws' =>
      if decide (n < length l)%nat then store_words (<[n:=w]> l) (S n) ws' else None
  end.

Definition WebRtcIlbcfix_PackBits (bitstream : list Z) (enc_bits : iLBC_bits) (mode : Z) :
    option (list Z) :=
  store_words bitstream 0 (map (pack_word enc_bits) (pack_program mode)).

(** ** Unpacking *)

(** An expression [(((w & m1) >> r) << l) & m2] of the current word. *)
Record expr := Expr { e_m1 : Z; e_shr : Z; e_shl : Z; e_m2 : Z }.

Definition ALL : Z := -1.
Definition shr (r m : Z) : expr := Expr ALL r 0 m.          (* (w >> r) & m *)
Definition shl (l m : Z) : expr := Expr ALL 0 l m.          (* (w << l) & m *)
Definition low (m l : Z) : expr := Expr m 0 l ALL.          (* (w & m) << l *)
Definition bit2 (i : Z) : expr := Expr ALL i 2 0x4.         (* ((w >> i) << 2) & 4 *)

Definition expr_val (w : Z) (e : expr) : Z :=
  Z.land (Z.shiftl (Z.shiftr (Z.land w (e_m1 e)) (e_shr e)) (e_shl e)) (e_m2 e).

Inductive op :=
| Assign (f : field) (e : expr)
| OrIn (f : field) (e : expr).

Notation "f ::= e" := (Assign f e) (at level 60, no associativity) : bits_scope.
Notation "f |= e" := (OrIn f e) (at level 60, no associativity) : bits_scope.

Definition run_op (w : Z) (b : iLBC_bits) (o : op) : iLBC_bits :=
  match o with
  | Assign f e => set_field b f (to_field f (expr_val w e))
  | OrIn f e => set_field b f (to_field f (Z.lor (b f) (expr_val w e)))
  end.

(** Class 1. *)
Definition unpack_class1 (mode : Z) : list (list op) :=
  if mode =? 20 then
    [[lsf 0 ::= shr 10 ALL; lsf 1 ::= shr 3 0x7F; lsf 2 ::= low 0x7 4];
     [lsf 2 |= shr 12 0xF; startIdx ::= shr 10 0x3; state_first ::= shr 9 0x1;
      idxForMax ::= shr 3 0x3F; cb_index 0 ::= low 0x7 4];
     [cb_index 0 |= shr 12 0xE; gain_index 0 ::= shr 8 0x18;
      gain_index 1 ::= shr 7 0x8; cb_index 3 ::= shr 2 0xFE;
      gain_index 3 ::= shl 2 0x10; gain_index 4 ::= shl 2 0x8;
      gain_index 6 ::= shl 4 0x10]]
  else
    [[lsf 0 ::= shr 10 ALL; lsf 1 ::= shr 3 0x7F; lsf 2 ::= low 0x7 4];
     [lsf 2 |= shr 12 0xF; lsf 3 ::= shr 6 0x3F; lsf 4 ::= shl 1 0x7E];
     [lsf 4 |= shr 15 0x1; lsf 5 ::= shr 8 0x7F; startIdx ::= shr 5 0x7;
      state_first ::= shr 4 0x1; idxForMax ::= shl 2 0x3C];
     [idxForMax |= shr 14 0x3; cb_index 0 ::= shr 7 0x78;
      gain_index 0 ::= shr 5 0x10; gain_index 1 ::= shr 5 0x8;
      cb_index 3 ::= shr 0 0xFC; gain_index 3 ::= shl 3 0x10;
      gain_index 4 ::= shl 3 0x8]].

Definition unpack_state_bits (n : Z) (shifts : list Z) : list op :=
  map (fun i => idxVec (n + (15 - i)) ::= bit2 i) shifts.

(** Class 2. *)
Definition unpack_class2 (mode : Z) : list (list op) :=
  map (fun k => unpack_state_bits (16 * k) down15to0) [0; 1; 2] ++
  if mode =? 20 then
    [unpack_state_bits 48 down15to7 ++
     [gain_index 1 |= shr 4 0x4; gain_index 3 |= shr 2 0xC;
      gain_index 4 |= shr 1 0x4; gain_index 6 |= shl 1 0x8;
      gain_index 7 ::= shl 2 0xC]]
  else
    [unpack_state_bits 48 down15to6 ++
     [cb_index 0 |= shr 3 0x6; gain_index 0 |= shr 0 0x8;
      gain_index 1 |= shr 0 0x4; cb_index 3 |= shr 0 0x2; cb_index 6 ::= shl 7 0x80];
     [cb_index 6 |= shr 9 0x7E; cb_index 9 ::= shr 2 0xFE;
      cb_index 12 ::= shl 5 0xE0];
     [cb_index 12 |= shr 11 0x1E; gain_index 3 |= shr 8 0xC;
      gain_index 4 |= shr 7 0x6; gain_index 6 ::= shr 3 0x18;
      gain_index 7 ::= shr 2 0xC; gain_index 9 ::= shl 1 0x10;
      gain_index 10 ::= shl 1 0x8; gain_index 12 ::= shl 3 0x10;
      gain_index 13 ::= shl 3 0x8]].

(** Class 3. *)
Definition unpack_class3 (mode : Z) : list (list op) :=
  map (fun k => map (fun i => idxVec (8 * k + (14 - i) / 2) |= shr i 0x3) down14to0) [0; 1; 2; 3; 4; 5; 6] ++
  if mode =? 20 then
    [[idxVec 56 |= shr 14 0x3; cb_index 0 |= shr 13 0x1; cb_index 1 ::= shr 6 0x7F;
      cb_index 2 ::= shl 1 0x7E];
     [cb_index 2 |= shr 15 0x1; gain_index 0 |= shr 12 0x7;
      gain_index 1 |= shr 10 0x3; gain_index 2 ::= shr 7 0x7;
      cb_index 3 |= shr 6 0x1; cb_index 4 ::= shl 1 0x7E];
     [cb_index 4 |= shr 15 0x1; cb_index 5 ::= shr 8 0x7F;
      cb_index 6 ::= shr 0 0xFF];
     [cb_index 7 ::= shr 8 ALL; cb_index 8 ::= shr 0 0xFF];
     [gain_index 3 |= shr 14 0x3; gain_index 4 |= shr 12 0x3;
      gain_index 5 ::= shr 9 0x7; gain_index 6 |= shr 6 0x7;
      gain_index 7 |= shr 4 0x3; gain_index 8 ::= shr 1 0x7]]
  else
    [[idxVec 56 |= shr 14 0x3; idxVec 57 |= shr 12 0x3; cb_index 0 |= shr 11 1;
      cb_index 1 ::= shr 4 0x7F; cb_index 2 ::= shl 3 0x78];
     [cb_index 2 |= shr 13 0x7; gain_index 0 |= shr 10 0x7;
      gain_index 1 |= shr 8 0x3; gain_index 2 ::= shr 5 0x7;
      cb_index 3 |= shr 4 0x1; cb_index 4 ::= shl 3 0x78];
     [cb_index 4 |= shr 13 0x7; cb_index 5 ::= shr 6 0x7F; cb_index 6 |= shr 5 0x1;
      cb_index 7 ::= shl 3 0xF8];
     [cb_index 7 |= shr 13 0x7; cb_index 8 ::= shr 5 0xFF; cb_index 9 |= shr 4 0x1;
      cb_index 10 ::= shl 4 0xF0];
     [cb_index 10 |= shr 12 0xF; cb_index 11 ::= shr 4 0xFF;
      cb_index 12 |= shr 3 0x1; cb_index 13 ::= shl 5 0xE0];
     [cb_index 13 |= shr 11 0x1F; cb_index 14 ::= shr 3 0xFF;
      gain_index 3 |= shr 1 0x3; gain_index 4 |= shr 0 0x1];
     [gain_index 5 ::= shr 13 0x7; gain_index 6 |= shr 10 0x7;
      gain_index 7 |= shr 8 0x3; gain_index 8 ::= shr 5 0x7;
      gain_index 9 |= shr 1 0xF; gain_index 10 |= shl 2 0x4];
     [gain_index 10 |= shr 14 0x3; gain_index 11 ::= shr 11 0x7;
      gain_index 12 |= shr 7 0xF; gain_index 13 |= shr 4 0x7;
      gain_index 14 ::= shr 1 0x7]].

Definition unpack_program (mode : Z) : list (list op) :=
  unpack_class1 mode ++ unpack_class2 mode ++ unpack_class3 mode.

(** Run the operations of each word, from position [n] of the stream on. *)
Fixpoint run_words (stream : list Z) (n : nat) (prog : list (list op)) (b : iLBC_bits) :
    option iLBC_bits :=
  match prog with
  | [] => Some b
  | ops :: prog' =>
      w ← stream !! n;
      run_words stream (S n) prog' (foldl (run_op w) b ops)
  end.

(** The indicator of an empty frame, from the last bit, and the parameters. *)
Definition WebRtcIlbcfix_UnpackBits (bitstream : list Z) (enc_bits : iLBC_bits) (mode : Z) :
    option (Z * iLBC_bits) :=
  let prog := unpack_program mode in
  b ← run_words bitstream 0 prog enc_bits;
  w ← bitstream !! (length prog - 1)%nat;
  Some (if Z.land w 0x1 =? 1 then 1 else 0, b).

(** ** Following the bits *)

(** Bit [i] of a location. *)
Definition bit_of (b : iLBC_bits) (s : field * Z) : bool := Z.testbit (b s.1) s.2.

(** The bit of a location that bit [p] of a term is. *)
Definition term_sources (p : Z) (t : term) : list (field * Z) :=
  if (t_shl t <=? p) && Z.testbit (t_mask t) (p - t_shl t + t_shr t)
  then [(t_field t, p - t_shl t + t_shr t)] else [].

Definition word_sources (ts : list term) (p : Z) : list (field * Z) := flat_map (term_sources p) ts.

Lemma existsb_flat_map {A B} (f : A -> list B) (P : B -> bool) l :
  existsb P (flat_map f l) = existsb (fun a => existsb P (f a)) l.
Proof. induction l as [|a l IH]; [done|]. simpl. by rewrite existsb_app, IH. Qed.

Lemma term_val_bit b t p :
  0 <= p -> 0 <= t_shr t ->
  Z.testbit (term_val b t) p = existsb (bit_of b) (term_sources p t).
Proof.
  intros Hp Hr. unfold term_val, term_sources. rewrite Z.shiftl_spec by lia.
  destruct (Z.leb_spec (t_shl t) p) as [Hle|Hgt]; [|by rewrite Z.testbit_neg_r by lia].
  rewrite Z.shiftr_spec, Z.land_spec by lia. cbn [andb].
  destruct (Z.testbit (t_mask t) (p - t_shl t + t_shr t)); simpl;
    by rewrite ?andb_true_r, ?andb_false_r, ?orb_false_r.
Qed.

Definition term_okb (t : term) : bool := (0 <=? t_shr t) && in_struct (t_field t).

Lemma pack_word_bit b ts p :
  forallb term_okb ts = true -> 0 <= p < 16 ->
  Z.testbit (pack_word b ts) p = existsb (bit_of b) (word_sources ts p).
Proof.
  intros Hts Hp. unfold pack_word, word_sources. rewrite existsb_flat_map.
  assert (G : forall w, Z.testbit (foldl (fun w t => u16 (Z.lor w (term_val b t))) w ts) p =
    Z.testbit w p || existsb (fun t => existsb (bit_of b) (term_sources p t)) ts).
  { revert Hts. induction ts as [|t ts IH]; intros Hts w; simpl; [by rewrite orb_false_r|].
    apply andb_true_iff in Hts as [[Ht _]%andb_true_iff Hts]. rewrite (IH Hts). unfold u16.
    rewrite Z.mod_pow2_bits_low, Z.lor_spec, term_val_bit by lia. by rewrite orb_assoc. }
  rewrite G. by rewrite Z.bits_0.
Qed.

Lemma pack_word_u16 b ts : is_u16 (pack_word b ts).
Proof.
  unfold pack_word. assert (G : forall w, is_u16 w ->
    is_u16 (foldl (fun w t => u16 (Z.lor w (term_val b t))) w ts)).
  { induction ts as [|t ts IH]; intros w Hw; simpl; [done|]. apply IH. auto with cint. }
  apply G. clia.
Qed.

(** The bit of the word that bit [i] of an expression is. *)
Definition expr_source (i : Z) (e : expr) : option Z :=
  if Z.testbit (e_m2 e) i && (e_shl e <=? i) && Z.testbit (e_m1 e) (i - e_shl e + e_shr e)
  then Some (i - e_shl e + e_shr e) else None.

Lemma expr_val_bit w e i :
  0 <= i -> 0 <= e_shr e ->
  Z.testbit (expr_val w e) i =
    match expr_source i e with Some p => Z.testbit w p | None => false end.
Proof.
  intros Hi Hr. unfold expr_val, expr_source. rewrite Z.land_spec, Z.shiftl_spec by lia.
  destruct (Z.testbit (e_m2 e) i); [|apply andb_false_r]. rewrite andb_true_r. cbn [andb].
  destruct (Z.leb_spec (e_shl e) i) as [Hle|Hgt]; [|by rewrite Z.testbit_neg_r by lia].
  rewrite Z.shiftr_spec, Z.land_spec by lia. cbn [andb].
  destruct (Z.testbit (e_m1 e) _); by rewrite ?andb_true_r, ?andb_false_r.
Qed.

(** A bound on the value of an expression of a 16-bit word. *)
Definition expr_bound (e : expr) : Z :=
  if 0 <=? e_m2 e then e_m2 e
  else Z.shiftl (Z.shiftr (Z.land (e_m1 e) 0xFFFF) (e_shr e)) (e_shl e).

Definition expr_okb (e : expr) : bool :=
  (0 <=? e_shr e) && (0 <=? e_shl e) && ((0 <=? e_m2 e) || (e_m2 e =? -1)) &&
  (expr_bound e <? 2 ^ 15).

Lemma land_le a b : 0 <= b -> 0 <= Z.land a b <= b.
Proof.
  intros Hb. split; [apply Z.land_nonneg; by right|].
  destruct (Z.lt_ge_cases b (Z.land a b)) as [Hlt|]; [|done]. exfalso.
  assert (E : Z.ldiff b (Z.land a b) = b - Z.land a b).
  { symmetry. apply Z.sub_nocarry_ldiff. apply Z.bits_inj'. intros n _.
    rewrite Z.ldiff_spec, Z.land_spec, Z.bits_0. by destruct (Z.testbit a n), (Z.testbit b n). }
  assert (0 <= Z.ldiff b (Z.land a b)) by (apply Z.ldiff_nonneg; by left). lia.
Qed.

Lemma expr_val_small w e : is_u16 w -> expr_okb e = true -> 0 <= expr_val w e < 2 ^ 15.
Proof.
  intros Hw [[[H1 H2]%andb_true_iff H3]%andb_true_iff H4]%andb_true_iff.
  unfold expr_bound in H4. unfold expr_val. destruct (Z.leb_spec 0 (e_m2 e)) as [Hm|Hm].
  - pose proof (land_le (Z.shiftl (Z.shiftr (Z.land w (e_m1 e)) (e_shr e)) (e_shl e)) _ Hm). lia.
  - assert (e_m2 e = -1) as -> by (apply orb_true_iff in H3; lia). rewrite Z.land_m1_r.
    replace (Z.land w (e_m1 e)) with (Z.land w (Z.land (e_m1 e) 0xFFFF)).
    2: { rewrite (Z.land_comm (e_m1 e)), Z.land_assoc, land_low16. f_equal. apply Z.mod_small. clia. }
    assert (Hn : 0 <= Z.land (e_m1 e) 0xFFFF) by (apply Z.land_nonneg; by right).
    pose proof (land_le w _ Hn) as Hl. rewrite !shiftr_div, !shiftl_mul in * by lia.
    assert (0 < 2 ^ e_shr e) by (apply Z.pow_pos_nonneg; lia).
    assert (0 < 2 ^ e_shl e) by (apply Z.pow_pos_nonneg; lia).
    pose proof (Z.div_le_mono _ _ (2 ^ e_shr e) ltac:(lia) (proj2 Hl)).
    pose proof (Z.div_pos _ (2 ^ e_shr e) (proj1 Hl) ltac:(lia)). nia.
Qed.

(** ** The value a program leaves in a location *)

Definition op_field (o : op) : field := match o with Assign f _ | OrIn f _ => f end.
Definition op_expr (o : op) : expr := match o with Assign _ e | OrIn _ e => e end.
Definition is_assign (o : op) : bool := match o with Assign _ _ => true | OrIn _ _ => false end.

(** The operations on a location, each with the number of its word. *)
Fixpoint ops_on (f : field) (n : nat) (prog : list (list op)) : list (nat * op) :=
  match prog with
  | [] => []
  | ops :: prog' =>
      map (fun o => (n, o)) (List.filter (fun o => field_eqb (op_field o) f) ops) ++ ops_on f (S n) prog'
  end.

Definition word (stream : list Z) (n : nat) : Z := default 0 (stream !! n).

Definition op_val (stream : list Z) (v : Z) (no : nat * op) : Z :=
  let x := expr_val (word stream no.1) (op_expr no.2) in
  to_field (op_field no.2) (if is_assign no.2 then x else Z.lor v x).

Lemma field_eqb_eq f g : field_eqb f g = true <-> f = g.
Proof.
  split; [|intros ->; destruct g; simpl; auto using Z.eqb_refl].
  destruct f, g; simpl; try done; intros E%Z.eqb_eq; congruence.
Qed.

Lemma foldl_run_op w ops b f :
  foldl (run_op w) b ops f =
  foldl (fun v o => to_field f (if is_assign o then expr_val w (op_expr o)
                                else Z.lor v (expr_val w (op_expr o)))) (b f)
    (List.filter (fun o => field_eqb (op_field o) f) ops).
Proof.
  revert b. induction ops as [|o ops IH]; intros b; [done|]. simpl. rewrite IH.
  destruct (field_eqb (op_field o) f) eqn:E.
  - apply field_eqb_eq in E as <-. simpl. f_equal. destruct o as [g e|g e]; simpl; unfold set_field;
      by rewrite (proj2 (field_eqb_eq g g) eq_refl).
  - f_equal. destruct o as [g e|g e]; simpl in *; unfold set_field; by rewrite E.
Qed.

Lemma run_words_spec stream n prog b :
  (n + length prog <= length stream)%nat ->
  exists b', run_words stream n prog b = Some b' /\
    forall f, b' f = foldl (op_val stream) (b f) (ops_on f n prog).
Proof.
  revert n b. induction prog as [|ops prog IH]; intros n b HL; [by exists b|]. simpl in HL.
  destruct (lookup_lt_is_Some_2 stream n ltac:(lia)) as [w Ew].
  destruct (IH (S n) (foldl (run_op w) b ops) ltac:(lia)) as (b' & Eb & Hb).
  exists b'. simpl. rewrite Ew. split; [done|]. intros f. rewrite Hb, foldl_app. f_equal.
  rewrite foldl_run_op.
  assert (G : forall l v, Forall (fun o => field_eqb (op_field o) f = true) l ->
    foldl (fun v o => to_field f (if is_assign o then expr_val w (op_expr o)
                                  else Z.lor v (expr_val w (op_expr o)))) v l =
    foldl (op_val stream) v (map (fun o => (n, o)) l)).
  { intros l. induction l as [|o l IHl]; intros v Hl; [done|]. apply Forall_cons_1 in Hl as [Ho Hl].
    simpl. rewrite (IHl _ Hl). f_equal. unfold op_val, word. simpl. rewrite Ew.
    by apply field_eqb_eq in Ho as ->. }
  apply G. apply List.Forall_forall. intros o Ho. apply List.filter_In in Ho. apply Ho.
Qed.

(** A location is set by its first operation, and extended by the others. *)
Definition shape_okb (l : list (nat * op)) : bool :=
  match l with
  | [] => false
  | o :: l' => is_assign o.2 && forallb (fun o => negb (is_assign o.2)) l' &&
      forallb (fun o => expr_okb (op_expr o.2)) l
  end.

(** The bits of the stream that bit [i] of a location is read from. *)
Definition loc_sources (l : list (nat * op)) (i : Z) : list (nat * Z) :=
  flat_map (fun o => match expr_source i (op_expr o.2) with Some p => [(o.1, p)] | None => [] end) l.

Definition stream_bit (stream : list Z) (s : nat * Z) : bool := Z.testbit (word stream s.1) s.2.

Lemma to_field_small f v : 0 <= v < 2 ^ 15 -> to_field f v = v.
Proof.
  intros Hv. unfold to_field. destruct f; try (apply s16_id; clia);
    (apply Z.mod_small; change (2 ^ 64) with 18446744073709551616; clia).
Qed.

Lemma lor_small a b n : 0 <= n -> 0 <= a < 2 ^ n -> 0 <= b < 2 ^ n -> 0 <= Z.lor a b < 2 ^ n.
Proof.
  intros Hn Ha Hb. assert (0 <= Z.lor a b) by (apply Z.lor_nonneg; lia). split; [done|].
  rewrite <- (Z.mod_small a (2 ^ n)), <- (Z.mod_small b (2 ^ n)) by done.
  rewrite <- !Z.land_ones, <- Z.land_lor_distr_l, Z.land_ones by done.
  apply Z.mod_pos_bound. apply Z.pow_pos_nonneg; lia.
Qed.

Lemma word_u16 stream n : Forall is_u16 stream -> is_u16 (word stream n).
Proof.
  intros HU. unfold word. destruct (stream !! n) as [w|] eqn:E; simpl; [|clia].
  by apply (Forall_lookup_1 _ _ _ _ HU) in E.
Qed.

Lemma loc_bits stream l v0 :
  Forall is_u16 stream -> shape_okb l = true ->
  let v := foldl (op_val stream) v0 l in
  0 <= v < 2 ^ 15 /\
  forall i, 0 <= i -> Z.testbit v i = existsb (stream_bit stream) (loc_sources l i).
Proof.
  intros HU. destruct l as [|o l]; [done|]. cbn [shape_okb].
  intros [[Ha Hn]%andb_true_iff He]%andb_true_iff. cbn [foldl].
  assert (Hex : forall o, expr_okb (op_expr o.2) = true ->
    let x := expr_val (word stream o.1) (op_expr o.2) in 0 <= x < 2 ^ 15 /\
    forall i, 0 <= i -> Z.testbit x i = existsb (stream_bit stream)
      (match expr_source i (op_expr o.2) with Some p => [(o.1, p)] | None => [] end)).
  { intros o' Ho'. split; [apply expr_val_small; [by apply word_u16|done]|]. intros i Hi.
    rewrite expr_val_bit by (unfold expr_okb in Ho'; rewrite !andb_true_iff in Ho'; lia).
    destruct (expr_source i _); simpl; by rewrite ?orb_false_r. }
  apply andb_true_iff in He as [He0 He]. destruct (Hex o He0) as [R0 B0].
  assert (G : forall v srcs, 0 <= v < 2 ^ 15 ->
    (forall i, 0 <= i -> Z.testbit v i = existsb (stream_bit stream) (srcs i)) ->
    let v' := foldl (op_val stream) v l in 0 <= v' < 2 ^ 15 /\
    forall i, 0 <= i -> Z.testbit v' i = existsb (stream_bit stream) (srcs i ++ loc_sources l i)).
  { revert Hn He. clear -Hex. induction l as [|o' l IH]; intros Hn He v srcs Hv Hb.
    { split; [done|]. intros i Hi. simpl. by rewrite app_nil_r, Hb. }
    simpl in Hn, He. apply andb_true_iff in Hn as [Hn0 Hn]. apply andb_true_iff in He as [He0 He].
    destruct (Hex o' He0) as [R B]. cbn [foldl].
    assert (Hl : 0 <= Z.lor v (expr_val (word stream o'.1) (op_expr o'.2)) < 2 ^ 15)
      by (apply lor_small; lia).
    apply negb_true_iff in Hn0.
    assert (Eo : op_val stream v o' = Z.lor v (expr_val (word stream o'.1) (op_expr o'.2)))
      by (unfold op_val; rewrite Hn0, to_field_small; done).
    rewrite Eo.
    assert (Hb' : forall i, 0 <= i -> Z.testbit (Z.lor v (expr_val (word stream o'.1) (op_expr o'.2))) i =
      existsb (stream_bit stream) (srcs i ++ (match expr_source i (op_expr o'.2) with
        | Some p => [(o'.1, p)] | None => [] end))).
    { intros i Hi. rewrite Z.lor_spec, existsb_app, Hb, B by done. done. }
    destruct (IH Hn He _ (fun i => srcs i ++ _) Hl Hb') as [R' B'].
    split; [exact R'|]. intros i Hi. rewrite B' by done. simpl. by rewrite <- app_assoc. }
  assert (Eo : op_val stream v0 o = expr_val (word stream o.1) (op_expr o.2))
    by (unfold op_val; rewrite Ha, to_field_small; done).
  rewrite Eo. apply (G _ _ R0 B0).
Qed.

(** ** The layout *)

(** The parameters of a frame and their widths in bits. *)
Definition fields (mode : Z) : list (field * Z) :=
  (if mode =? 20 then
     [(lsf 0, 6); (lsf 1, 7); (lsf 2, 7); (startIdx, 2); (state_first, 1); (idxForMax, 6);
      (cb_index 0, 7); (cb_index 1, 7); (cb_index 2, 7); (cb_index 3, 8); (cb_index 4, 7);
      (cb_index 5, 7); (cb_index 6, 8); (cb_index 7, 8); (cb_index 8, 8);
      (gain_index 0, 5); (gain_index 1, 4); (gain_index 2, 3); (gain_index 3, 5); (gain_index 4, 4);
      (gain_index 5, 3); (gain_index 6, 5); (gain_index 7, 4); (gain_index 8, 3)]
   else
     [(lsf 0, 6); (lsf 1, 7); (lsf 2, 7); (lsf 3, 6); (lsf 4, 7); (lsf 5, 7);
      (startIdx, 3); (state_first, 1); (idxForMax, 6);
      (cb_index 0, 7); (cb_index 1, 7); (cb_index 2, 7); (cb_index 3, 8); (cb_index 4, 7);
      (cb_index 5, 7); (cb_index 6, 8); (cb_index 7, 8); (cb_index 8, 8); (cb_index 9, 8);
      (cb_index 10, 8); (cb_index 11, 8); (cb_index 12, 8); (cb_index 13, 8); (cb_index 14, 8);
      (gain_index 0, 5); (gain_index 1, 4); (gain_index 2, 3); (gain_index 3, 5); (gain_index 4, 4);
      (gain_index 5, 3); (gain_index 6, 5); (gain_index 7, 4); (gain_index 8, 3); (gain_index 9, 5);
      (gain_index 10, 4); (gain_index 11, 3); (gain_index 12, 5); (gain_index 13, 4);
      (gain_index 14, 3)]) ++
  map (fun i => (idxVec (Z.of_nat i), 3)) (seq 0 (if mode =? 20 then 57 else 58)).

Definition width (mode : Z) (f : field) : Z :=
  match find (fun fw => field_eqb fw.1 f) (fields mode) with Some fw => fw.2 | None => 0 end.

Definition words_of (mode : Z) : nat := if mode =? 20 then NO_OF_WORDS_20MS else NO_OF_WORDS_30MS.

(** Every parameter of the mode has a value of its width. *)
Definition fits (mode : Z) (b : iLBC_bits) : Prop :=
  forall f w, In (f, w) (fields mode) -> 0 <= b f < 2 ^ w.

Definition src_eqb (s t : field * Z) : bool := field_eqb s.1 t.1 && (s.2 =? t.2).

(** A bit above the width of its parameter. *)
Definition high_bit (mode : Z) (s : field * Z) : bool :=
  (0 <? width mode s.1) && (width mode s.1 <=? s.2).

(** Where bit [i] of a location comes from, through the stream. *)
Definition through (mode : Z) (f : field) (i : Z) : list (field * Z) :=
  flat_map (fun s => if (0 <=? s.2) && (s.2 <? 16)
                     then word_sources (nth s.1 (pack_program mode) []) s.2 else [])
    (loc_sources (ops_on f 0 (unpack_program mode)) i).

Definition bits15 : list Z := [0; 1; 2; 3; 4; 5; 6; 7; 8; 9; 10; 11; 12; 13; 14].

(** Packing and unpacking returns each bit of the location and no other. *)
Definition returns (mode : Z) (fw : field * Z) : bool :=
  shape_okb (ops_on fw.1 0 (unpack_program mode)) && (0 <? fw.2) && (fw.2 <=? 15) &&
  forallb (fun i =>
    if i <? fw.2 then
      existsb (src_eqb (fw.1, i)) (through mode fw.1 i) &&
      forallb (fun s => src_eqb (fw.1, i) s || high_bit mode s) (through mode fw.1 i)
    else
      forallb (high_bit mode) (through mode fw.1 i) &&
      forallb (fun s => 16 <=? s.2) (loc_sources (ops_on fw.1 0 (unpack_program mode)) i))
    bits15.

(** The operations of the unpacking program stay in the structure and in the
    parameters of the mode. *)
Definition prog_okb (mode : Z) : bool :=
  forallb (forallb (fun o => in_struct (op_field o) && (0 <? width mode (op_field o))))
    (unpack_program mode).

(** Bit [p] of word [n], unpacked and packed again. *)
Definition back (mode : Z) (n : nat) (p : Z) : list (nat * Z) :=
  flat_map (fun s => loc_sources (ops_on s.1 0 (unpack_program mode)) s.2)
    (word_sources (nth n (pack_program mode) []) p).

Definition pos_eqb (s t : nat * Z) : bool := (s.1 =? t.1)%nat && (s.2 =? t.2).

(** Every bit of the stream but the last returns. *)
Definition restores (mode : Z) : bool :=
  forallb (fun n => forallb (fun p =>
    let srcs := back mode n p in
    forallb (fun s => 0 <? width mode s.1) (word_sources (nth n (pack_program mode) []) p) &&
    if (n =? words_of mode - 1)%nat && (p =? 0)
    then match word_sources (nth n (pack_program mode) []) p with [] => true | _ => false end
    else existsb (pos_eqb (n, p)) srcs && forallb (pos_eqb (n, p)) srcs) (bits15 ++ [15]))
    (seq 0 (words_of mode)).

Definition layout_ok (mode : Z) : bool :=
  (length (pack_program mode) =? words_of mode)%nat &&
  (length (unpack_program mode) =? words_of mode)%nat &&
  forallb (forallb term_okb) (pack_program mode) && prog_okb mode &&
  forallb (returns mode) (fields mode) && restores mode.

Lemma layout_20 : layout_ok 20 = true.
Proof. vm_compute. reflexivity. Qed.

Lemma layout_30 : layout_ok 30 = true.
Proof. vm_compute. reflexivity. Qed.

Lemma layout_facts mode : mode = 20 \/ mode = 30 -> layout_ok mode = true.
Proof. intros [->| ->]; [apply layout_20|apply layout_30]. Qed.

Lemma layout_split mode :
  layout_ok mode = true ->
  length (pack_program mode) = words_of mode /\ length (unpack_program mode) = words_of mode /\
  (forall n, forallb term_okb (nth n (pack_program mode) []) = true) /\
  prog_okb mode = true /\ (forall fw, In fw (fields mode) -> returns mode fw = true) /\
  restores mode = true.
Proof.
  unfold layout_ok. intros H. repeat (apply andb_true_iff in H as [H ?]).
  split_and!; [by apply Nat.eqb_eq|by apply Nat.eqb_eq| |done|by apply forallb_forall|done].
  intros n. destruct (nth_in_or_default n (pack_program mode) []) as [Hin| ->]; [|done].
  match goal with Ht : forallb (forallb term_okb) _ = true |- _ => by apply (proj1 (forallb_forall _ _) Ht) end.
Qed.

(** ** Storing the words *)

Lemma store_words_spec l n ws :
  (n + length ws <= length l)%nat ->
  exists l', store_words l n ws = Some l' /\ length l' = length l /\
    (forall i, (i < n)%nat -> l' !! i = l !! i) /\
    (forall i, (n <= i < n + length ws)%nat -> l' !! i = ws !! (i - n)%nat) /\
    (forall i, (n + length ws <= i)%nat -> l' !! i = l !! i).
Proof.
  revert l n. induction ws as [|w ws IH]; intros l n HL; simpl in *.
  { exists l. split_and!; try done. intros; lia. }
  rewrite decide_True by lia.
  destruct (IH (<[n:=w]> l) (S n)) as (l' & E & L & H1 & H2 & H3); [rewrite length_insert; lia|].
  rewrite length_insert in L. exists l'. split_and!; [done|done| | |].
  - intros i Hi. rewrite H1 by lia. apply list_lookup_insert_ne. lia.
  - intros i Hi. destruct (decide (i = n)) as [->|].
    + rewrite H1, list_lookup_insert_eq, Nat.sub_diag by lia. done.
    + rewrite H2 by lia. by replace (i - n)%nat with (S (i - S n)) by lia.
  - intros i Hi. rewrite H3 by lia. apply list_lookup_insert_ne. lia.
Qed.

Lemma PackBits_spec stream b mode :
  (length (pack_program mode) <= length stream)%nat -> Forall is_u16 stream ->
  exists s', WebRtcIlbcfix_PackBits stream b mode = Some s' /\ length s' = length stream /\
    Forall is_u16 s' /\
    (forall n, (n < length (pack_program mode))%nat ->
       word s' n = pack_word b (nth n (pack_program mode) [])) /\
    drop (length (pack_program mode)) s' = drop (length (pack_program mode)) stream.
Proof.
  intros HL HU. unfold WebRtcIlbcfix_PackBits.
  destruct (store_words_spec stream 0 (map (pack_word b) (pack_program mode)))
    as (s' & E & L & _ & H2 & H3); [rewrite length_map; lia|]. rewrite length_map in *.
  exists s'. split_and!; [done|done| | |].
  - apply Forall_lookup_2. intros i x Ei.
    destruct (decide (i < length (pack_program mode))%nat).
    + rewrite H2, list_lookup_fmap in Ei by lia. apply fmap_Some in Ei as (ts & _ & ->).
      apply pack_word_u16.
    + rewrite H3 in Ei by lia. by apply (Forall_lookup_1 _ _ _ _ HU) in Ei.
  - intros n Hn. unfold word. rewrite H2, Nat.sub_0_r, list_lookup_fmap by lia.
    destruct (lookup_lt_is_Some_2 (pack_program mode) n Hn) as [ts Ets]. rewrite Ets. simpl.
    by rewrite (nth_lookup_Some _ _ _ _ Ets).
  - apply list_eq. intros i. rewrite !lookup_drop. apply H3. lia.
Qed.

(** ** The two functions are inverse to each other *)

Lemma find_In {A} (P : A -> bool) l a : find P l = Some a -> In a l /\ P a = true.
Proof. apply find_some. Qed.

Lemma width_fits mode b f : fits mode b -> 0 < width mode f -> 0 <= b f < 2 ^ width mode f.
Proof.
  intros Hf. unfold width. destruct (find _ (fields mode)) as [[g w]|] eqn:E; [|simpl; lia].
  apply find_In in E as [Hin Hg%field_eqb_eq]. simpl in Hg. subst g. intros _. by apply Hf.
Qed.

Lemma bit_above v w i : 0 <= v < 2 ^ w -> w <= i -> Z.testbit v i = false.
Proof.
  intros Hv Hi. destruct (Z.lt_ge_cases w 0); [rewrite Z.pow_neg_r in Hv by lia; lia|].
  rewrite <- (Z.mod_small v (2 ^ w)) by done. apply Z.mod_pow2_bits_high. lia.
Qed.

Lemma existsb_false {A} (P : A -> bool) l : (forall a, In a l -> P a = false) -> existsb P l = false.
Proof.
  intros H. induction l as [|a l IH]; [done|]. simpl. rewrite H by (by left). apply IH.
  intros a' Ha'. apply H. by right.
Qed.

Lemma existsb_ext {A} (P Q : A -> bool) l : (forall a, In a l -> P a = Q a) -> existsb P l = existsb Q l.
Proof.
  intros H. induction l as [|a l IH]; [done|]. simpl. rewrite H by (by left). f_equal. apply IH.
  intros a' Ha'. apply H. by right.
Qed.

(** A list of sources of which one is [s] and the others read zero. *)
Lemma existsb_one {A} (P : A -> bool) (eqb : A -> A -> bool) l s :
  (forall t, eqb s t = true -> P t = P s) ->
  existsb (eqb s) l = true -> (forall t, In t l -> eqb s t = true \/ P t = false) ->
  existsb P l = P s.
Proof.
  intros Heq Hex Hall. destruct (P s) eqn:Ep.
  - apply existsb_exists in Hex as (t & Hin & Ht). apply existsb_exists. exists t.
    split; [done|]. by rewrite (Heq t Ht).
  - apply existsb_false. intros t Ht. destruct (Hall t Ht) as [E|E]; [|done].
    by rewrite (Heq t E).
Qed.

Lemma src_eqb_eq s t : src_eqb s t = true -> s = t.
Proof.
  destruct s, t. unfold src_eqb. simpl. intros [E1%field_eqb_eq E2%Z.eqb_eq]%andb_true_iff. congruence.
Qed.

Lemma pos_eqb_eq s t : pos_eqb s t = true -> s = t.
Proof.
  destruct s, t. unfold pos_eqb. simpl. intros [E1%Nat.eqb_eq E2%Z.eqb_eq]%andb_true_iff. congruence.
Qed.

Lemma high_bit_zero mode b s : fits mode b -> high_bit mode s = true -> bit_of b s = false.
Proof.
  intros Hf [H1 H2]%andb_true_iff. apply (bit_above _ (width mode s.1)); [|lia].
  apply width_fits; [done|lia].
Qed.

(** A bit of the packed stream in terms of the parameters. *)
Lemma stream_bit_packed mode b s' s :
  (forall n, forallb term_okb (nth n (pack_program mode) []) = true) -> Forall is_u16 s' ->
  (forall n, word s' n = pack_word b (nth n (pack_program mode) [])) ->
  stream_bit s' s = existsb (bit_of b)
    (if (0 <=? s.2) && (s.2 <? 16) then word_sources (nth s.1 (pack_program mode) []) s.2 else []).
Proof.
  intros Ht HU Hw. unfold stream_bit. destruct (Z.leb_spec 0 s.2) as [H0|H0]; cbn [andb].
  - destruct (Z.ltb_spec s.2 16); [by rewrite Hw, pack_word_bit by done|].
    apply (bit_above _ 16); [apply word_u16; done|lia].
  - by rewrite Z.testbit_neg_r by lia.
Qed.

Lemma bits_eq v v' : 0 <= v < 2 ^ 15 -> 0 <= v' < 2 ^ 15 ->
  (forall i, In i bits15 -> Z.testbit v i = Z.testbit v' i) -> v = v'.
Proof.
  intros Hv Hv' H. apply Z.bits_inj'. intros i Hi. destruct (Z.lt_ge_cases i 15).
  - apply H. unfold bits15. simpl. lia.
  - by rewrite !(bit_above _ 15) by done.
Qed.

(** Each parameter returns. *)
Lemma returns_spec mode b s' fw v0 :
  (forall n, forallb term_okb (nth n (pack_program mode) []) = true) -> Forall is_u16 s' ->
  (forall n, word s' n = pack_word b (nth n (pack_program mode) [])) ->
  fits mode b -> In fw (fields mode) -> returns mode fw = true ->
  foldl (op_val s') v0 (ops_on fw.1 0 (unpack_program mode)) = b fw.1.
Proof.
  intros Ht HU Hw Hf Hin [[[Hs H0]%andb_true_iff H15]%andb_true_iff Hb]%andb_true_iff.
  destruct fw as [f w]. cbn [fst snd] in *. pose proof (Hf f w Hin) as Hv.
  destruct (loc_bits s' _ v0 HU Hs) as [Hr Hbits].
  assert (2 ^ w <= 2 ^ 15) by (apply Z.pow_le_mono_r; lia).
  apply bits_eq; [done|lia|]. intros i Hi.
  assert (0 <= i) as Hi0 by (unfold bits15 in Hi; simpl in Hi; lia). rewrite (Hbits i Hi0).
  assert (E : existsb (stream_bit s') (loc_sources (ops_on f 0 (unpack_program mode)) i) =
              existsb (bit_of b) (through mode f i)).
  { unfold through. rewrite existsb_flat_map. apply existsb_ext. intros s _.
    by apply stream_bit_packed. }
  rewrite E. rewrite forallb_forall in Hb. specialize (Hb i Hi). cbv beta in Hb.
  destruct (Z.ltb_spec i w) as [Hiw|Hiw].
  - apply andb_true_iff in Hb as [He Ha]. change (Z.testbit (b f) i) with (bit_of b (f, i)).
    apply (existsb_one _ src_eqb); [by intros t ->%src_eqb_eq|done|].
    intros t Htin. rewrite forallb_forall in Ha. specialize (Ha t Htin).
    apply orb_true_iff in Ha as [Ha|Ha]; [by left|right]. by eapply high_bit_zero.
  - apply andb_true_iff in Hb as [Ha _]. rewrite (bit_above (b f) w) by done.
    apply existsb_false. intros t Htin. rewrite forallb_forall in Ha. by eapply high_bit_zero, Ha.
Qed.

Lemma ops_on_bound f k prog no : In no (ops_on f k prog) -> (k <= no.1 < k + length prog)%nat.
Proof.
  revert k. induction prog as [|ops prog IH]; intros k; simpl; [done|].
  intros [Hin|Hin]%in_app_or; [|specialize (IH _ Hin); lia].
  apply in_map_iff in Hin as (o & <- & _). simpl. lia.
Qed.

(** Only the words of the program matter. *)
Lemma foldl_op_val_take stream N f prog v :
  (length prog <= N)%nat ->
  foldl (op_val stream) v (ops_on f 0 prog) = foldl (op_val (take N stream)) v (ops_on f 0 prog).
Proof.
  intros HN. assert (H : forall no, In no (ops_on f 0 prog) -> (no.1 < N)%nat).
  { intros no Hin. apply ops_on_bound in Hin. lia. }
  revert v H. generalize (ops_on f 0 prog). intros l. induction l as [|no l IH]; intros v H; [done|].
  simpl. rewrite IH by (intros; apply H; by right). f_equal. unfold op_val, word.
  by rewrite lookup_take_lt by (apply H; by left).
Qed.

Lemma not_in_prog mode f k prog :
  forallb (forallb (fun o => in_struct (op_field o) && (0 <? width mode (op_field o)))) prog = true ->
  width mode f = 0 -> ops_on f k prog = [].
Proof.
  intros Hp Hw. revert k Hp. induction prog as [|ops prog IH]; intros k Hp; [done|].
  simpl in Hp. apply andb_true_iff in Hp as [Ho Hp]. simpl. rewrite (IH _ Hp), app_nil_r.
  replace (List.filter _ ops) with (@nil op); [done|]. symmetry. clear -Ho Hw.
  induction ops as [|o ops IH]; [done|]. simpl in *. apply andb_true_iff in Ho as [[_ Ho]%andb_true_iff Hos].
  destruct (field_eqb (op_field o) f) eqn:E; [|by apply IH].
  apply field_eqb_eq in E as <-. lia.
Qed.

Lemma word_take N stream n : word (take N stream) n = if decide (n < N)%nat then word stream n else 0.
Proof.
  unfold word. case_decide; [by rewrite lookup_take_lt|]. by rewrite lookup_take_ge by lia.
Qed.

(** The words the packed stream starts with, and nothing after them. *)
Lemma packed_words mode b s' :
  (forall n, (n < length (pack_program mode))%nat ->
     word s' n = pack_word b (nth n (pack_program mode) [])) ->
  forall n, word (take (length (pack_program mode)) s') n = pack_word b (nth n (pack_program mode) []).
Proof.
  intros H n. rewrite word_take. case_decide; [by apply H|]. by rewrite nth_overflow by lia.
Qed.

Lemma UnpackBits_spec stream b mode :
  (length (unpack_program mode) <= length stream)%nat -> (0 < length (unpack_program mode))%nat ->
  exists b', WebRtcIlbcfix_UnpackBits stream b mode =
      Some (if Z.land (word stream (length (unpack_program mode) - 1)) 0x1 =? 1 then 1 else 0, b') /\
    forall f, b' f = foldl (op_val stream) (b f) (ops_on f 0 (unpack_program mode)).
Proof.
  intros HL H0. destruct (run_words_spec stream 0 (unpack_program mode) b ltac:(lia)) as (b' & E & Hb).
  exists b'. split; [|done]. unfold WebRtcIlbcfix_UnpackBits. rewrite E. simpl.
  destruct (lookup_lt_is_Some_2 stream (length (unpack_program mode) - 1) ltac:(lia)) as [w Ew].
  unfold word. by rewrite Ew.
Qed.

Lemma land_1_bit w : (Z.land w 0x1 =? 1) = Z.testbit w 0.
Proof.
  change 0x1 with (Z.ones 1). rewrite Z.land_ones, Z.bit0_odd, Zmod_odd by lia.
  by destruct (Z.odd w).
Qed.

Lemma words_pos mode : (0 < words_of mode)%nat.
Proof. unfold words_of, NO_OF_WORDS_20MS, NO_OF_WORDS_30MS. destruct (mode =? 20); lia. Qed.

Lemma restores_at mode n p :
  restores mode = true -> (n < words_of mode)%nat -> 0 <= p < 16 ->
  forallb (fun s => 0 <? width mode s.1) (word_sources (nth n (pack_program mode) []) p) = true /\
  if (n =? words_of mode - 1)%nat && (p =? 0)
  then word_sources (nth n (pack_program mode) []) p = []
  else existsb (pos_eqb (n, p)) (back mode n p) = true /\
       forallb (pos_eqb (n, p)) (back mode n p) = true.
Proof.
  intros Hr Hn Hp. unfold restores in Hr. rewrite forallb_forall in Hr.
  specialize (Hr n (proj2 (in_seq (words_of mode) 0 n) ltac:(lia))). rewrite forallb_forall in Hr.
  assert (In p (bits15 ++ [15])) as Hin by (cbn; lia).
  specialize (Hr p Hin). cbv beta zeta in Hr. apply andb_true_iff in Hr as [Hw Hr]. split; [done|].
  destruct ((n =? words_of mode - 1)%nat && (p =? 0)); [by destruct (word_sources _ p)|].
  by apply andb_true_iff in Hr.
Qed.

(** The last bit of a packed frame is zero. *)
Lemma last_bit_zero mode b :
  restores mode = true -> (forall n, forallb term_okb (nth n (pack_program mode) []) = true) ->
  Z.testbit (pack_word b (nth (words_of mode - 1) (pack_program mode) [])) 0 = false.
Proof.
  intros Hr Ht. pose proof (words_pos mode).
  destruct (restores_at mode (words_of mode - 1) 0 Hr ltac:(lia) ltac:(lia)) as [_ Hb].
  rewrite Nat.eqb_refl in Hb. cbn [andb Z.eqb] in Hb. by rewrite pack_word_bit, Hb.
Qed.

(** A bit whose sources, unpacked, are that bit of the stream. *)
Lemma restored_bit mode stream b' n p :
  (forall f, 0 < width mode f -> In (f, width mode f) (fields mode) /\ 0 <= b' f < 2 ^ 15 /\
     forall i, 0 <= i -> Z.testbit (b' f) i =
       existsb (stream_bit stream) (loc_sources (ops_on f 0 (unpack_program mode)) i)) ->
  (forall m, forallb term_okb (nth m (pack_program mode) []) = true) -> 0 <= p < 16 ->
  forallb (fun s => 0 <? width mode s.1) (word_sources (nth n (pack_program mode) []) p) = true ->
  existsb (pos_eqb (n, p)) (back mode n p) = true /\ forallb (pos_eqb (n, p)) (back mode n p) = true ->
  existsb (bit_of b') (word_sources (nth n (pack_program mode) []) p) = Z.testbit (word stream n) p.
Proof.
  intros Hloc Ht Hp Hw [He Ha]. change (Z.testbit (word stream n) p) with (stream_bit stream (n, p)).
  rewrite <- (existsb_one (stream_bit stream) pos_eqb (back mode n p) (n, p)).
  - unfold back. rewrite existsb_flat_map. apply existsb_ext. intros [f i] Hin. unfold bit_of. simpl.
    rewrite forallb_forall in Hw. specialize (Hw _ Hin). simpl in Hw.
    apply Hloc; [lia|]. unfold word_sources in Hin. apply in_flat_map in Hin as (t & Ht' & Hin).
    specialize (Ht n). rewrite forallb_forall in Ht. specialize (Ht t Ht').
    unfold term_okb in Ht. apply andb_true_iff in Ht as [Ht _]. unfold term_sources in Hin.
    destruct (Z.leb_spec (t_shl t) p); [|done]. destruct (Z.testbit _ _); [|done].
    destruct Hin as [[= _ <-]|[]]. lia.
  - by intros t ->%pos_eqb_eq.
  - done.
  - intros t Htin. left. rewrite forallb_forall in Ha. by apply Ha.
Qed.

(** Packing, then unpacking the words of the mode alone. *)
Lemma pack_unpack_words mode b b0 stream :
  mode = 20 \/ mode = 30 -> fits mode b ->
  (words_of mode <= length stream)%nat -> Forall is_u16 stream ->
  exists s', WebRtcIlbcfix_PackBits stream b mode = Some s' /\ Forall is_u16 s' /\
    length s' = length stream /\ drop (words_of mode) s' = drop (words_of mode) stream /\
    forall s'', take (words_of mode) s'' = take (words_of mode) s' -> (words_of mode <= length s'')%nat ->
      exists b', WebRtcIlbcfix_UnpackBits s'' b0 mode = Some (0, b') /\
        (forall f w, In (f, w) (fields mode) -> b' f = b f) /\
        (forall f, width mode f = 0 -> b' f = b0 f).
Proof.
  intros Hm Hf HL HU. destruct (layout_split mode (layout_facts mode Hm)) as (L1 & L2 & Ht & Hp & Hr & Hre).
  pose proof (words_pos mode).
  destruct (PackBits_spec stream b mode ltac:(lia) HU) as (s' & Es & Ls & Us & Hw & Hd).
  exists s'. rewrite <- L1. split_and!; [done|done|done|done|]. rewrite L1. intros s'' Ht' HL'.
  destruct (UnpackBits_spec s'' b0 mode ltac:(lia) ltac:(lia)) as (b' & Eb & Hb).
  exists b'. split_and!.
  - assert (E : word s'' (words_of mode - 1) = word s' (words_of mode - 1)).
    { pose proof (word_take (words_of mode) s'' (words_of mode - 1)) as E1.
      pose proof (word_take (words_of mode) s' (words_of mode - 1)) as E2.
      rewrite decide_True in E1, E2 by lia. congruence. }
    rewrite Eb, land_1_bit, L2, E, Hw by lia. by rewrite last_bit_zero.
  - intros f w Hin. rewrite Hb, (foldl_op_val_take _ (words_of mode)), Ht' by lia.
    apply (returns_spec mode b _ (f, w)); [done|by apply Forall_take| |done|done|by apply Hr].
    rewrite <- L1. by apply packed_words.
  - intros f Hf0. by rewrite Hb, (not_in_prog mode f 0 _ Hp Hf0).
Qed.

(** ** Properties *)

(** Unpacking is the inverse of packing. In both modes, for parameters within
    their widths and a buffer of at least 19 or 25 words, [WebRtcIlbcfix_PackBits]
    writes exactly those words, and [WebRtcIlbcfix_UnpackBits] of the result,
    whatever its output structure held, reports a frame that is not empty, returns
    every parameter of the mode, and leaves the other locations alone. *)
Theorem pack_unpack mode b b0 stream :
  mode = 20 \/ mode = 30 -> fits mode b ->
  (words_of mode <= length stream)%nat -> Forall is_u16 stream ->
  exists s' b', WebRtcIlbcfix_PackBits stream b mode = Some s' /\ length s' = length stream /\
    drop (words_of mode) s' = drop (words_of mode) stream /\
    WebRtcIlbcfix_UnpackBits s' b0 mode = Some (0, b') /\
    (forall f w, In (f, w) (fields mode) -> b' f = b f) /\
    (forall f, width mode f = 0 -> b' f = b0 f).
Proof.
  intros Hm Hf HL HU.
  destruct (pack_unpack_words mode b b0 stream Hm Hf HL HU) as (s' & Es & Us & Ls & Hd & Hun).
  destruct (Hun s' eq_refl ltac:(lia)) as (b' & Eb & H1 & H2). by exists s', b'.
Qed.

(** A frame with every bit of some of its parameters set. *)
Definition demo_params : iLBC_bits := fun f =>
  match f with
  | lsf i => i + 5 | cb_index i => 127 - i | gain_index i => i mod 8 | idxVec i => i mod 7
  | idxForMax => 63 | state_first => 1 | startIdx => 3
  end.

Definition fitsb (mode : Z) (b : iLBC_bits) : bool :=
  forallb (fun fw => (0 <=? b fw.1) && (b fw.1 <? 2 ^ fw.2)) (fields mode).

Lemma fitsb_fits mode b : fitsb mode b = true -> fits mode b.
Proof.
  unfold fitsb. rewrite forallb_forall. intros H f w Hin. specialize (H (f, w) Hin). simpl in H. lia.
Qed.

Lemma pack_unpack_witness :
  exists s' b', WebRtcIlbcfix_PackBits (replicate 26 0xFFFF) demo_params 30 = Some s' /\
    length s' = 26%nat /\ drop 25 s' = [0xFFFF] /\
    WebRtcIlbcfix_UnpackBits s' (fun _ => -1) 30 = Some (0, b') /\ b' (cb_index 14) = 113.
Proof.
  destruct (pack_unpack 30 demo_params (fun _ => -1) (replicate 26 0xFFFF)) as (s' & b' & E1 & E2 & E3 & E4 & E5 & _).
  - by right.
  - apply fitsb_fits. vm_compute. reflexivity.
  - vm_compute. lia.
  - apply Forall_replicate. clia.
  - exists s', b'. split_and!; [exact E1|exact E2|exact E3|exact E4|].
    rewrite (E5 (cb_index 14) 8); [reflexivity|]. vm_compute. tauto.
Defined.

(** Fields that are unpacked are within their widths. *)
Lemma unpacked_fits mode stream b0 b' :
  Forall is_u16 stream -> (forall fw, In fw (fields mode) -> returns mode fw = true) ->
  (forall f, b' f = foldl (op_val stream) (b0 f) (ops_on f 0 (unpack_program mode))) -> fits mode b'.
Proof.
  intros HU Hr Hb f w Hin. pose proof (Hr _ Hin) as Hret. unfold returns in Hret.
  apply andb_true_iff in Hret as [[[Hs Hw0]%andb_true_iff Hw15]%andb_true_iff Hbits].
  cbn [fst snd] in *. pose proof (loc_bits stream _ (b0 f) HU Hs) as [Hrange Hbv].
  rewrite <- Hb in Hrange, Hbv. split; [lia|].
  destruct (Z.lt_ge_cases (b' f) (2 ^ w)) as [|Hge]; [done|exfalso].
  assert (Hlog : w <= Z.log2 (b' f) < 15).
  { split; [apply Z.log2_le_pow2; lia|apply Z.log2_lt_pow2; lia]. }
  assert (Hbit : Z.testbit (b' f) (Z.log2 (b' f)) = true) by (apply Z.bit_log2; lia).
  rewrite Hbv in Hbit by lia. apply existsb_exists in Hbit as (s & Hsin & Hsb).
  rewrite forallb_forall in Hbits. specialize (Hbits (Z.log2 (b' f)) ltac:(cbn; lia)).
  cbv beta in Hbits. rewrite (proj2 (Z.ltb_ge _ _)) in Hbits by lia.
  apply andb_true_iff in Hbits as [_ H16]. rewrite forallb_forall in H16. specialize (H16 s Hsin).
  unfold stream_bit in Hsb. rewrite (bit_above _ 16) in Hsb; [done|by apply word_u16|lia].
Qed.

(** The bits of a field of positive width. *)
Lemma unpacked_bits mode stream b0 b' f :
  Forall is_u16 stream -> (forall fw, In fw (fields mode) -> returns mode fw = true) ->
  (forall f, b' f = foldl (op_val stream) (b0 f) (ops_on f 0 (unpack_program mode))) ->
  0 < width mode f ->
  In (f, width mode f) (fields mode) /\ 0 <= b' f < 2 ^ 15 /\
    forall i, 0 <= i -> Z.testbit (b' f) i =
      existsb (stream_bit stream) (loc_sources (ops_on f 0 (unpack_program mode)) i).
Proof.
  intros HU Hr Hb Hw. assert (Hin : In (f, width mode f) (fields mode)).
  { unfold width in *. destruct (find _ (fields mode)) as [[g w]|] eqn:E; [|simpl in Hw; lia].
    apply find_In in E as [Hin Hg%field_eqb_eq]. simpl in *. by subst. }
  split; [done|]. rewrite Hb. apply loc_bits; [done|].
  specialize (Hr _ Hin). unfold returns in Hr. rewrite !andb_true_iff in Hr. apply Hr.
Qed.

(** Packing is the inverse of unpacking, so the layout wastes no bit: any 19 or
    25 words whose last bit is zero are unpacked to parameters within their widths,
    and packing those restores the words. *)
Theorem unpack_pack mode stream b0 out :
  mode = 20 \/ mode = 30 -> length stream = words_of mode -> Forall is_u16 stream ->
  Z.testbit (word stream (words_of mode - 1)) 0 = false ->
  length out = words_of mode -> Forall is_u16 out ->
  exists b', WebRtcIlbcfix_UnpackBits stream b0 mode = Some (0, b') /\ fits mode b' /\
    WebRtcIlbcfix_PackBits out b' mode = Some stream.
Proof.
  intros Hm HL HU Hlast HLo HUo.
  destruct (layout_split mode (layout_facts mode Hm)) as (L1 & L2 & Ht & Hp & Hr & Hre).
  pose proof (words_pos mode) as H0.
  destruct (UnpackBits_spec stream b0 mode ltac:(lia) ltac:(lia)) as (b' & Eb & Hb).
  pose proof (fun f => unpacked_bits mode stream b0 b' f HU Hr Hb) as Hloc.
  exists b'. split; [by rewrite Eb, land_1_bit, L2, Hlast|].
  destruct (PackBits_spec out b' mode ltac:(lia) HUo) as (s' & Es & Ls & Us & Hw & _).
  split; [by apply (unpacked_fits mode stream b0)|].
  rewrite Es. f_equal. apply (list_eq_same_length _ _ (words_of mode)); [lia|lia|].
  intros n x y Hn Ex Ey. assert (x = word s' n) as -> by (unfold word; by rewrite Ex).
  assert (y = word stream n) as -> by (unfold word; by rewrite Ey).
  apply Z.bits_inj'. intros p Hp0. destruct (Z.lt_ge_cases p 16) as [Hp16|Hp16].
  2: { by rewrite !(bit_above _ 16) by (done || by apply word_u16). }
  destruct (restores_at mode n p Hre Hn ltac:(lia)) as [Hws Hback].
  rewrite Hw, pack_word_bit by (done || lia).
  destruct (Nat.eqb_spec n (words_of mode - 1)) as [->|Hne]; cbn [andb] in Hback.
  + destruct (Z.eqb_spec p 0) as [->|]; [by rewrite Hback, Hlast|].
    by apply (restored_bit mode stream b').
  + by apply (restored_bit mode stream b').
Qed.

Definition demo_words : list Z := replicate 18 0xABCD ++ [0x7EFE].

Lemma unpack_pack_witness :
  exists b', WebRtcIlbcfix_UnpackBits demo_words (fun _ => 77) 20 = Some (0, b') /\ fits 20 b' /\
    WebRtcIlbcfix_PackBits (replicate 19 1) b' 20 = Some demo_words.
Proof.
  apply (unpack_pack 20 demo_words (fun _ => 77) (replicate 19 1)).
  - by left.
  - reflexivity.
  - repeat (constructor; [clia|]). constructor.
  - reflexivity.
  - reflexivity.
  - apply Forall_replicate. clia.
Defined.

(** ** Index conversion and byte order *)

Definition conv_enc (v : Z) : Z :=
  if (108 <=? v) && (v <? 172) then s16 (v - 64)
  else if 236 <=? v then s16 (v - 128) else v.

Definition conv_dec (v : Z) : Z :=
  if (44 <=? v) && (v <? 108) then s16 (v + 64)
  else if (108 <=? v) && (v <? 128) then s16 (v + 128) else v.

(** The loops over [k = 4, 5] on the array [cb_index]. *)
Definition WebRtcIlbcfix_IndexConvEnc (b : iLBC_bits) : iLBC_bits :=
  foldl (fun b k => set_field b (cb_index k) (conv_enc (b (cb_index k)))) b [4; 5].

Definition WebRtcIlbcfix_IndexConvDec (b : iLBC_bits) : iLBC_bits :=
  foldl (fun b k => set_field b (cb_index k) (conv_dec (b (cb_index k)))) b [4; 5].

Fixpoint swap_loop (k : nat) (n : nat) (input output : list Z) : option (list Z) :=
  match k with
  | O => Some output
  | S k' =>
      w ← input !! n;
      output ← store output n (u16 (Z.lor (Z.shiftr w 8) (Z.shiftl w 8)));
      swap_loop k' (S n) input output
  end.

Definition WebRtcIlbcfix_SwapBytes (input : list Z) (wordLength : nat) (output : list Z) :
    option (list Z) := swap_loop wordLength 0 input output.

Definition swap16 (w : Z) : Z := w mod 256 * 256 + w / 256.

Lemma swap16_spec w : is_u16 w -> u16 (Z.lor (Z.shiftr w 8) (Z.shiftl w 8)) = swap16 w.
Proof.
  intros Hw. rewrite Z.lor_comm, shiftr_div, shiftl_mul by lia.
  rewrite (lor_disjoint _ _ 8) by (lia || dmlia). unfold swap16. dmlia.
Qed.

Lemma swap16_u16 w : is_u16 w -> is_u16 (swap16 w).
Proof. unfold swap16. intros. dmlia. Qed.

Lemma swap16_twice w : is_u16 w -> swap16 (swap16 w) = w.
Proof. unfold swap16. intros. dmlia. Qed.

Lemma swap_loop_spec k n input output :
  Forall is_u16 input -> (n + k <= length input)%nat -> (n + k <= length output)%nat ->
  swap_loop k n input output =
    Some (take n output ++ map swap16 (take k (drop n input)) ++ drop (n + k) output).
Proof.
  intros HU. revert n output. induction k as [|k IH]; intros n output Hi Ho; cbn [swap_loop].
  { by rewrite take_0, Nat.add_0_r, app_nil_l, take_drop. }
  destruct (lookup_lt_is_Some_2 input n ltac:(lia)) as [w Ew]. rewrite Ew. cbn [mbind option_bind].
  unfold store. rewrite decide_True by lia. cbn [mbind option_bind].
  pose proof (Forall_lookup_1 _ _ _ _ HU Ew) as Hw. rewrite swap16_spec by done.
  rewrite IH by (rewrite ?length_insert; lia). f_equal.
  rewrite (drop_S input w n Ew). cbn [firstn map].
  rewrite (take_S_r _ n (swap16 w)) by (apply list_lookup_insert_eq; lia).
  rewrite take_insert_ge, drop_insert_lt by lia. rewrite <- app_assoc. cbn [app].
  by replace (S n + k)%nat with (n + S k)%nat by lia.
Qed.

(** Swapping [n] words of [l] in place. *)
Lemma SwapBytes_spec l n output :
  Forall is_u16 l -> (n <= length l)%nat -> (n <= length output)%nat ->
  WebRtcIlbcfix_SwapBytes l n output = Some (map swap16 (take n l) ++ drop n output).
Proof. intros. unfold WebRtcIlbcfix_SwapBytes. by rewrite swap_loop_spec. Qed.

(** What [WebRtcIlbcfix_EncodeImpl] does with its parameters at the end, on a
    little endian machine (the output buffer is [bytes]). *)
Definition send_params (b : iLBC_bits) (mode : Z) (bytes : list Z) : option (list Z) :=
  bytes ← WebRtcIlbcfix_PackBits bytes (WebRtcIlbcfix_IndexConvEnc b) mode;
  WebRtcIlbcfix_SwapBytes bytes (words_of mode) bytes.

(** What [WebRtcIlbcfix_DecodeImpl] does with a good packet first; the first
    component tells whether no bit error was detected. *)
Definition receive_params (bytes : list Z) (no_of_words : nat) (mode : Z) (b0 : iLBC_bits) :
    option (bool * iLBC_bits) :=
  swapped ← WebRtcIlbcfix_SwapBytes bytes no_of_words (replicate NO_OF_WORDS_30MS 0);
  r ← WebRtcIlbcfix_UnpackBits swapped b0 mode;
  let '(last_bit, b) := r in
  let bad := (b startIdx <? 1) || ((mode =? 20) && (3 <? b startIdx)) ||
             ((mode =? 30) && (5 <? b startIdx)) || (last_bit =? 1) in
  Some (if bad then (false, b) else (true, WebRtcIlbcfix_IndexConvDec b)).

(** The codebook indices the encoder produces for the second and third stage. *)
Definition stage_index (v : Z) : Prop := 0 <= v < 44 \/ 108 <= v < 172 \/ 236 <= v < 256.

(** Decide the comparisons of the goal. *)
Ltac compare :=
  repeat match goal with
  | |- context [?x <=? ?y] =>
      first [rewrite (proj2 (Z.leb_le x y)) by lia | rewrite (proj2 (Z.leb_gt x y)) by lia]
  | |- context [?x <? ?y] =>
      first [rewrite (proj2 (Z.ltb_lt x y)) by lia | rewrite (proj2 (Z.ltb_ge x y)) by lia]
  end; cbn [andb].

Lemma conv_enc_spec v :
  stage_index v -> conv_enc v = if v <? 44 then v else if v <? 172 then v - 64 else v - 128.
Proof.
  intros [Hv|[Hv|Hv]]; unfold conv_enc; compare; rewrite ?s16_id by clia; done.
Qed.

Lemma conv_round v : stage_index v -> conv_dec (conv_enc v) = v /\ 0 <= conv_enc v < 128.
Proof.
  intros Hv. rewrite conv_enc_spec by done.
  destruct Hv as [Hv|[Hv|Hv]]; compare; (split; [|lia]); unfold conv_dec; compare;
    rewrite ?s16_id by clia; lia.
Qed.

Lemma IndexConvEnc_at b f :
  WebRtcIlbcfix_IndexConvEnc b f =
  match f with cb_index 4 => conv_enc (b (cb_index 4)) | cb_index 5 => conv_enc (b (cb_index 5)) | _ => b f end.
Proof.
  destruct f as [i|i|i| | |i|]; try done.
  unfold WebRtcIlbcfix_IndexConvEnc, set_field. cbn [foldl field_eqb].
  change (4 =? 5) with false. cbn iota. destruct (Z.eqb_spec 5 i) as [<-|]; [done|].
  destruct (Z.eqb_spec 4 i) as [<-|]; [done|]. destruct i as [|p|p]; [done| |done].
  do 3 (destruct p as [p|p|]; try done).
Qed.

Lemma IndexConvDec_at b f :
  WebRtcIlbcfix_IndexConvDec b f =
  match f with cb_index 4 => conv_dec (b (cb_index 4)) | cb_index 5 => conv_dec (b (cb_index 5)) | _ => b f end.
Proof.
  destruct f as [i|i|i| | |i|]; try done.
  unfold WebRtcIlbcfix_IndexConvDec, set_field. cbn [foldl field_eqb].
  change (4 =? 5) with false. cbn iota. destruct (Z.eqb_spec 5 i) as [<-|]; [done|].
  destruct (Z.eqb_spec 4 i) as [<-|]; [done|]. destruct i as [|p|p]; [done| |done].
  do 3 (destruct p as [p|p|]; try done).
Qed.

Lemma words_le mode : (words_of mode <= NO_OF_WORDS_30MS)%nat.
Proof. unfold words_of, NO_OF_WORDS_20MS, NO_OF_WORDS_30MS. destruct (mode =? 20); lia. Qed.

Lemma map_swap16_twice l : Forall is_u16 l -> map swap16 (map swap16 l) = l.
Proof. induction 1 as [|w l Hw _ IH]; [done|]. simpl. by rewrite swap16_twice, IH. Qed.

(** The parameters the encoder sends are within their widths. *)
Lemma sent_fits mode b :
  mode = 20 \/ mode = 30 ->
  (forall f w, In (f, w) (fields mode) -> f <> cb_index 4 -> f <> cb_index 5 -> 0 <= b f < 2 ^ w) ->
  stage_index (b (cb_index 4)) -> stage_index (b (cb_index 5)) ->
  fits mode (WebRtcIlbcfix_IndexConvEnc b).
Proof.
  intros Hm Hf H4 H5. destruct (conv_round _ H4) as [R4 W4]. destruct (conv_round _ H5) as [R5 W5].
  assert (Hw : width mode (cb_index 4) = 7 /\ width mode (cb_index 5) = 7 /\ 0 < width mode startIdx)
    by (destruct Hm as [->| ->]; vm_compute; done).
  assert (Hu : forall f w, In (f, w) (fields mode) -> w = width mode f).
  { intros f w Hin. assert (Hc : forallb (fun fw => width mode fw.1 =? fw.2) (fields mode) = true)
      by (destruct Hm as [->| ->]; vm_compute; reflexivity).
    rewrite forallb_forall in Hc. specialize (Hc _ Hin). simpl in Hc. lia. }
  intros f w Hin. rewrite IndexConvEnc_at.
    destruct (field_eqb f (cb_index 4)) eqn:E4.
    { apply field_eqb_eq in E4 as ->. rewrite (Hu _ _ Hin). destruct Hw as (-> & _). lia. }
    destruct (field_eqb f (cb_index 5)) eqn:E5.
    { apply field_eqb_eq in E5 as ->. rewrite (Hu _ _ Hin). destruct Hw as (_ & -> & _). lia. }
    assert (f <> cb_index 4) as N4 by (intros ->; by rewrite (proj2 (field_eqb_eq _ _) eq_refl) in E4).
    assert (f <> cb_index 5) as N5 by (intros ->; by rewrite (proj2 (field_eqb_eq _ _) eq_refl) in E5).
    specialize (Hf f w Hin N4 N5). destruct f as [|i| | | | |]; try done.
    destruct i as [|p|p]; [done| |done]. do 3 (destruct p as [p|p|]; try done).
Qed.

(** C35. A frame's parameters survive the transport. For parameters within their
    widths, codebook indices of the second and third stage among those the search
    produces, and a start position the decoder accepts, the words that
    [IndexConvEnc], [PackBits] and [SwapBytes] produce are taken by [SwapBytes],
    [UnpackBits], the bit error checks of [WebRtcIlbcfix_DecodeImpl] and
    [IndexConvDec] to the same parameters. *)
Theorem params_transport mode b b0 bytes :
  mode = 20 \/ mode = 30 ->
  (forall f w, In (f, w) (fields mode) -> f <> cb_index 4 -> f <> cb_index 5 -> 0 <= b f < 2 ^ w) ->
  stage_index (b (cb_index 4)) -> stage_index (b (cb_index 5)) ->
  1 <= b startIdx <= (if mode =? 20 then 3 else 5) ->
  (words_of mode <= length bytes)%nat -> Forall is_u16 bytes ->
  exists bytes' b', send_params b mode bytes = Some bytes' /\ length bytes' = length bytes /\
    receive_params bytes' (words_of mode) mode b0 = Some (true, b') /\
    forall f w, In (f, w) (fields mode) -> b' f = b f.
Proof.
  intros Hm Hf H4 H5 Hst HL HU. destruct (conv_round _ H4) as [R4 _]. destruct (conv_round _ H5) as [R5 _].
  pose proof (sent_fits mode b Hm Hf H4 H5) as Hfit.
  destruct (pack_unpack_words mode _ b0 bytes Hm Hfit HL HU) as (s' & Es & Us & Ls & _ & Hun).
  pose proof (words_le mode). pose proof (words_pos mode). set (n := words_of mode) in *.
  destruct (Hun (take n s' ++ drop n (replicate NO_OF_WORDS_30MS 0))) as (b' & Eb & Hb & _).
  { rewrite take_app_length'; [done|]. rewrite length_take. lia. }
  { rewrite length_app, length_take. lia. }
  exists (map swap16 (take n s') ++ drop n s'), (WebRtcIlbcfix_IndexConvDec b').
  split_and!.
  - unfold send_params. rewrite Es. simpl. fold n. by rewrite SwapBytes_spec by (done || lia).
  - rewrite length_app, length_map, length_take, length_drop. lia.
  - assert (Hus : Forall is_u16 (map swap16 (take n s') ++ drop n s')).
    { apply Forall_app. split; [|by apply Forall_drop]. apply Forall_fmap.
      eapply Forall_impl; [|by apply Forall_take]. intros w Hw'. by apply swap16_u16. }
    unfold receive_params. fold n. rewrite SwapBytes_spec;
      [|done|rewrite length_app, length_map, length_take, length_drop; lia|rewrite length_replicate; lia].
    rewrite take_app_length' by (rewrite length_map, length_take; lia).
    rewrite map_swap16_twice by (by apply Forall_take). cbn [mbind option_bind]. rewrite Eb.
    cbn [mbind option_bind].
    assert (b' startIdx = b startIdx) as ->.
    { assert (Hin : exists w, In (startIdx, w) (fields mode)).
      { destruct Hm as [->| ->]; eexists; vm_compute; tauto. }
      destruct Hin as [w Hin]. rewrite (Hb _ _ Hin). apply IndexConvEnc_at. }
    destruct Hm as [->| ->]; simpl in Hst; compare; done.
  - intros f w Hin. rewrite IndexConvDec_at. pose proof (Hb f w Hin) as E. rewrite IndexConvEnc_at in E.
    destruct f as [|i| | | | |]; try done. destruct i as [|p|p]; [done| |done].
    do 3 (destruct p as [p|p|]; try done); by rewrite E.
Qed.

Definition demo_frame : iLBC_bits :=
  set_field (set_field demo_params (cb_index 4) 250) (cb_index 5) 110.

Lemma params_transport_witness :
  exists bytes' b', send_params demo_frame 20 (replicate 19 0) = Some bytes' /\ length bytes' = 19%nat /\
    receive_params bytes' 19 20 (fun _ => 9) = Some (true, b') /\ b' (cb_index 4) = 250 /\ b' (idxVec 56) = 0.
Proof.
  destruct (params_transport 20 demo_frame (fun _ => 9) (replicate 19 0)) as (bs & b' & E1 & E2 & E3 & E4).
  - by left.
  - assert (H : forallb (fun fw => field_eqb fw.1 (cb_index 4) || field_eqb fw.1 (cb_index 5) ||
        ((0 <=? demo_frame fw.1) && (demo_frame fw.1 <? 2 ^ fw.2))) (fields 20) = true)
      by (vm_compute; reflexivity).
    intros f w Hin N4 N5. rewrite forallb_forall in H. specialize (H _ Hin). cbn [fst snd] in H.
    apply orb_true_iff in H as [[H|H]%orb_true_iff|H]; [by apply field_eqb_eq in H|by apply field_eqb_eq in H|lia].
  - right. right. vm_compute. split; [discriminate|reflexivity].
  - right. left. vm_compute. split; [discriminate|reflexivity].
  - vm_compute. split; discriminate.
  - vm_compute. lia.
  - apply Forall_replicate. clia.
  - exists bs, b'. split_and!; [exact E1|exact E2|exact E3| |].
    + rewrite (E4 (cb_index 4) 7); [reflexivity|]. vm_compute. tauto.
    + rewrite (E4 (idxVec 56) 3); [reflexivity|]. vm_compute. tauto.
Defined.
