(* ===== verification/IlbcApi.v ===== *)
(** * Frame handling of iLBC

    [ilbc/ilbc.c], [init_decode.c], [init_encode.c] and the control flow of
    [decode.c]: which payload lengths the decoder accepts, how it switches
    between frames of 20 and 30 ms, what it does with bit errors and failures.
    The signal processing of a frame (dequantisation, residual, concealment,
    enhancer, synthesis) is the class [IlbcDsp]; what the frame handling relies
    on, that it keeps the frame size fields and produces a block of samples, is
    [IlbcDspLaws]. *)

From S2P Require Import Prelude IlbcPack.

(** ** Data *)

Record IlbcDecoder := mkIlbcDecoder {
  il_mode : Z; il_blockl : Z; il_nsub : Z; il_nasub : Z; il_no_of_bytes : Z; il_no_of_words : Z;
  il_lpc_n : Z; il_state_short_len : Z;
  il_syntMem : list Z; il_lsfdeqold : list Z; il_last_lag : Z;
  il_consPLICount : Z; il_prev_enh_pl : Z; il_perSquare : Z; il_prevScale : Z; il_prevPLI : Z;
  il_prevLag : Z; il_prevLpc : list Z; il_prevResidual : list Z; il_seed : Z;
  il_old_syntdenum : list Z; il_hpimemx : list Z; il_hpimemy : list Z;
  il_use_enhancer : Z; il_enh_buf : list Z; il_enh_period : list Z;
}.

Definition LPC_FILTERORDER : nat := 10.
Definition NSUB_MAX : nat := 6.
Definition NO_OF_BYTES_20MS : Z := 38.
Definition NO_OF_BYTES_30MS : Z := 50.
Definition ENH_BUFL : nat := 640.

Definition WebRtcIlbcfix_kLsfMean : list Z :=
  [2308; 3652; 5434; 7885; 10255; 12559; 15160; 17513; 20328; 22752].

(** [memset] and [memcpy] of 16-bit words at the start of an array. *)
Definition overwrite (src dst : list Z) : list Z := src ++ drop (length src) dst.

Definition set_prev_enh_pl (v : Z) (d : IlbcDecoder) : IlbcDecoder :=
  mkIlbcDecoder (il_mode d) (il_blockl d) (il_nsub d) (il_nasub d) (il_no_of_bytes d)
    (il_no_of_words d) (il_lpc_n d) (il_state_short_len d) (il_syntMem d) (il_lsfdeqold d)
    (il_last_lag d) (il_consPLICount d) v (il_perSquare d) (il_prevScale d) (il_prevPLI d)
    (il_prevLag d) (il_prevLpc d) (il_prevResidual d) (il_seed d) (il_old_syntdenum d)
    (il_hpimemx d) (il_hpimemy d) (il_use_enhancer d) (il_enh_buf d) (il_enh_period d).

(** The fields that depend on the frame size: samples, subframes, bytes, ... *)
Definition frame_size (mode : Z) : option (Z * Z * Z * Z * Z * Z * Z) :=
  if mode =? 30 then Some (240, 6, 4, 2, NO_OF_BYTES_30MS, 25, 58)
  else if mode =? 20 then Some (160, 4, 2, 1, NO_OF_BYTES_20MS, 19, 57)
  else None.

(** The result and the decoder; with an unknown mode only [mode] is set. *)
Definition WebRtcIlbcfix_InitDecode (d : IlbcDecoder) (mode use_enhancer : Z) : Z * IlbcDecoder :=
  match frame_size mode with
  | None =>
      (-1, mkIlbcDecoder mode (il_blockl d) (il_nsub d) (il_nasub d) (il_no_of_bytes d)
        (il_no_of_words d) (il_lpc_n d) (il_state_short_len d) (il_syntMem d) (il_lsfdeqold d)
        (il_last_lag d) (il_consPLICount d) (il_prev_enh_pl d) (il_perSquare d) (il_prevScale d)
        (il_prevPLI d) (il_prevLag d) (il_prevLpc d) (il_prevResidual d) (il_seed d)
        (il_old_syntdenum d) (il_hpimemx d) (il_hpimemy d) (il_use_enhancer d) (il_enh_buf d)
        (il_enh_period d))
  | Some (blockl, nsub, nasub, lpc_n, no_of_bytes, no_of_words, state_short_len) =>
      (blockl, mkIlbcDecoder mode blockl nsub nasub no_of_bytes no_of_words lpc_n state_short_len
        (overwrite (replicate LPC_FILTERORDER 0) (il_syntMem d))
        (overwrite WebRtcIlbcfix_kLsfMean (il_lsfdeqold d))
        20 0 0 0 (il_prevScale d) 0 120
        (overwrite (4096 :: replicate LPC_FILTERORDER 0) (il_prevLpc d))
        (overwrite (replicate 240 0) (il_prevResidual d)) 777
        (overwrite (concat (replicate NSUB_MAX (4096 :: replicate LPC_FILTERORDER 0)))
           (il_old_syntdenum d))
        (overwrite [0; 0] (il_hpimemx d)) (overwrite [0; 0; 0; 0] (il_hpimemy d))
        use_enhancer
        (overwrite (replicate (ENH_BUFL + 3) 0) (il_enh_buf d))
        (overwrite (replicate 8 160) (il_enh_period d)))
  end.

(** ** Decoding a frame *)

(** The signal processing of a frame: of good parameters ([None] is an error of
    [WebRtcIlbcfix_DecodeResidual]), of a lost frame, and the rest, from the
    residual and filters of either, to samples. *)
Class IlbcDsp := {
  residual : Type;
  dsp_good : IlbcDecoder -> iLBC_bits -> option (IlbcDecoder * residual);
  dsp_lost : IlbcDecoder -> IlbcDecoder * residual;
  dsp_output : IlbcDecoder -> residual -> IlbcDecoder * list Z;
}.

(** The fields of the frame size and the enhancer. *)
Definition config (d : IlbcDecoder) : list Z :=
  [il_mode d; il_blockl d; il_nsub d; il_nasub d; il_no_of_bytes d; il_no_of_words d; il_lpc_n d;
   il_state_short_len d; il_use_enhancer d].

Class IlbcDspLaws `{IlbcDsp} := {
  dsp_good_config d b d' r : dsp_good d b = Some (d', r) -> config d' = config d;
  dsp_lost_config d : config (dsp_lost d).1 = config d;
  dsp_output_config d r : config (dsp_output d r).1 = config d;
  dsp_output_block d r : 0 <= il_blockl d -> Z.of_nat (length (dsp_output d r).2) = il_blockl d;
}.

Section api.
Context `{IlbcDsp}.

(** The status 0 or -1, the block of samples, and the decoder. [junk] is what the
    parameter structure on the stack holds; a missing word is a fault. *)
Definition WebRtcIlbcfix_DecodeImpl (junk : iLBC_bits) (bytes : list Z) (d : IlbcDecoder) (mode : Z) :
    option (Z * list Z * IlbcDecoder) :=
  let finish mode d r :=
    let '(d, samples) := dsp_output d r in
    let d := set_prev_enh_pl 0 d in
    let d := if mode =? 0 then set_prev_enh_pl 1 d else d in
    Some (0, samples, d) in
  if negb (mode =? 0) then
    r ← receive_params bytes (Z.to_nat (il_no_of_words d)) (il_mode d) junk;
    let '(good, b) := r in
    if good : bool then
      match dsp_good d b with
      | Some (d, r) => finish mode d r
      | None => Some (-1, [], (WebRtcIlbcfix_InitDecode d (il_mode d) (il_use_enhancer d)).2)
      end
    else let '(d, r) := dsp_lost d in finish 0 d r
  else let '(d, r) := dsp_lost d in finish 0 d r.

(** [while (i * no_of_bytes < len)]; [fails] is the test of the status that ends
    the loop, [encoded] the words from frame [i] on, [out] the samples so far. *)
Fixpoint decode_frames (fails : Z -> bool) (junk : iLBC_bits) (fuel : nat) (i len : Z)
    (encoded out : list Z) (d : IlbcDecoder) : option (Z * list Z * IlbcDecoder) :=
  match fuel with
  | O => None
  | S fuel' =>
      if i * il_no_of_bytes d <? len then
        r ← WebRtcIlbcfix_DecodeImpl junk encoded d 1;
        let '(status, samples, d) := r in
        if fails status then Some (-1, out ++ samples, d)
        else decode_frames fails junk fuel' (i + 1) len (drop (Z.to_nat (il_no_of_words d)) encoded)
               (out ++ samples) d
      else Some (i * il_blockl d, out, d)
  end.

(** [len == n || len == 2 * n || len == 3 * n] *)
Definition frames_of (len n : Z) : bool := (len =? n) || (len =? 2 * n) || (len =? 3 * n).

(** At most three frames. *)
Definition frames_fuel : nat := 4.

Definition WebRtcIlbcfix_Decode (junk : iLBC_bits) (d : IlbcDecoder) (encoded : list Z) (len : Z) :
    option (Z * list Z * IlbcDecoder) :=
  let run := decode_frames (fun status => status =? -1) junk frames_fuel 0 len encoded [] in
  if frames_of len (il_no_of_bytes d) then run d
  else if il_mode d =? 20 then
    if frames_of len NO_OF_BYTES_30MS
    then run (WebRtcIlbcfix_InitDecode d 30 (il_use_enhancer d)).2
    else Some (-1, [], d)
  else
    if frames_of len NO_OF_BYTES_20MS
    then run (WebRtcIlbcfix_InitDecode d 20 (il_use_enhancer d)).2
    else Some (-1, [], d).

(** [if (!WebRtcIlbcfix_DecodeImpl(...)) return -1] *)
Definition WebRtcIlbcfix_Decode20Ms (junk : iLBC_bits) (d : IlbcDecoder) (encoded : list Z) (len : Z) :
    option (Z * list Z * IlbcDecoder) :=
  if frames_of len (il_no_of_bytes d)
  then decode_frames (fun status => status =? 0) junk frames_fuel 0 len encoded [] d
  else Some (-1, [], d).

Definition WebRtcIlbcfix_Decode30Ms (junk : iLBC_bits) (d : IlbcDecoder) (encoded : list Z) (len : Z) :
    option (Z * list Z * IlbcDecoder) :=
  if frames_of len (il_no_of_bytes d)
  then decode_frames (fun status => status =? 0) junk frames_fuel 0 len encoded [] d
  else Some (-1, [], d).

(** [RTC_CHECK(WebRtcIlbcfix_DecodeImpl(..., 0))]: the inner [None] is the
    abort of the process. *)
Fixpoint DecodePlc_loop (junk : iLBC_bits) (n : nat) (out : list Z) (d : IlbcDecoder) :
    option (option (list Z * IlbcDecoder)) :=
  match n with
  | O => Some (Some (out, d))
  | S n' =>
      r ← WebRtcIlbcfix_DecodeImpl junk [0] d 0;
      let '(status, samples, d) := r in
      if status =? 0 then Some None else DecodePlc_loop junk n' (out ++ samples) d
  end.

Definition WebRtcIlbcfix_DecodePlc (junk : iLBC_bits) (d : IlbcDecoder) (noOfLostFrames : nat) :
    option (option (Z * list Z * IlbcDecoder)) :=
  r ← DecodePlc_loop junk noOfLostFrames [] d;
  match r with
  | None => Some None
  | Some (out, d) => Some (Some (Z.of_nat noOfLostFrames * il_blockl d, out, d))
  end.

Definition WebRtcIlbcfix_DecoderInit (d : IlbcDecoder) (mode : Z) : Z * IlbcDecoder :=
  if (mode =? 20) || (mode =? 30) then (0, (WebRtcIlbcfix_InitDecode d mode 1).2) else (-1, d).

Definition WebRtcIlbcfix_DecoderInit20Ms (d : IlbcDecoder) : IlbcDecoder :=
  (WebRtcIlbcfix_InitDecode d 20 1).2.

Definition WebRtcIlbcfix_Decoderinit30Ms (d : IlbcDecoder) : IlbcDecoder :=
  (WebRtcIlbcfix_InitDecode d 30 1).2.

Definition WebRtcIlbcfix_NetEqPlc (d : IlbcDecoder) : Z * IlbcDecoder :=
  (0, mkIlbcDecoder (il_mode d) (il_blockl d) (il_nsub d) (il_nasub d) (il_no_of_bytes d)
    (il_no_of_words d) (il_lpc_n d) (il_state_short_len d) (il_syntMem d) (il_lsfdeqold d)
    (il_last_lag d) (il_consPLICount d) 2 (il_perSquare d) (il_prevScale d) (il_prevPLI d)
    (il_prevLag d) (il_prevLpc d) (il_prevResidual d) (il_seed d) (il_old_syntdenum d)
    (il_hpimemx d) (il_hpimemy d) (il_use_enhancer d)
    (overwrite (replicate ENH_BUFL 0) (il_enh_buf d)) (il_enh_period d)).
End api.

(** ** Invariant *)

(** The frame size fields are those of the mode. *)
Definition config_ok (d : IlbcDecoder) : Prop :=
  match frame_size (il_mode d) with
  | Some (blockl, nsub, nasub, lpc_n, no_of_bytes, no_of_words, state_short_len) =>
      config d = [il_mode d; blockl; nsub; nasub; no_of_bytes; no_of_words; lpc_n;
                  state_short_len; il_use_enhancer d]
  | None => False
  end.

Lemma config_ok_same d d' : config d' = config d -> config_ok d -> config_ok d'.
Proof.
  unfold config_ok, config. intros E. injection E as E1 E2 E3 E4 E5 E6 E7 E8 E9.
  rewrite E1, E2, E3, E4, E5, E6, E7, E8, E9. done.
Qed.

Lemma config_cases d :
  config_ok d ->
  (il_mode d = 20 /\ il_blockl d = 160 /\ il_no_of_bytes d = 38 /\ il_no_of_words d = 19) \/
  (il_mode d = 30 /\ il_blockl d = 240 /\ il_no_of_bytes d = 50 /\ il_no_of_words d = 25).
Proof.
  unfold config_ok, frame_size, config.
  destruct (Z.eqb_spec (il_mode d) 30) as [E|]; [|destruct (Z.eqb_spec (il_mode d) 20) as [E|]; [|done]];
    intros Hc; injection Hc as ? ? ? ? ? ? ?; [right|left]; split_and!; done.
Qed.

Lemma InitDecode_config d mode e :
  mode = 20 \/ mode = 30 ->
  let d' := (WebRtcIlbcfix_InitDecode d mode e).2 in
  config_ok d' /\ il_mode d' = mode /\ il_use_enhancer d' = e.
Proof. intros [->| ->]; done. Qed.

Lemma InitDecode_same d :
  config_ok d -> config (WebRtcIlbcfix_InitDecode d (il_mode d) (il_use_enhancer d)).2 = config d.
Proof.
  intros Hc. unfold config_ok in Hc. unfold WebRtcIlbcfix_InitDecode.
  destruct (frame_size (il_mode d)) as [[[[[[[? ?] ?] ?] ?] ?] ?]|]; [|done]. by rewrite Hc.
Qed.

Lemma set_prev_enh_pl_config v d : config (set_prev_enh_pl v d) = config d.
Proof. done. Qed.

(** ** Decoding a frame *)

Lemma receive_params_total bytes mode b0 :
  mode = 20 \/ mode = 30 -> Forall is_u16 bytes -> (words_of mode <= length bytes)%nat ->
  exists r, receive_params bytes (words_of mode) mode b0 = Some r.
Proof.
  intros Hm HU HL. pose proof (words_le mode). pose proof (words_pos mode).
  destruct (layout_split mode (layout_facts mode Hm)) as (_ & L2 & _).
  unfold receive_params. rewrite SwapBytes_spec by (done || rewrite ?length_replicate; lia).
  cbn [mbind option_bind].
  destruct (UnpackBits_spec (map swap16 (take (words_of mode) bytes) ++
    drop (words_of mode) (replicate NO_OF_WORDS_30MS 0)) b0 mode) as (b' & E & _).
  { rewrite L2, length_app, length_map, length_take. lia. }
  { lia. }
  rewrite E. cbn [mbind option_bind]. by eexists.
Qed.

Section laws.
Context `{IlbcDspLaws}.

(** What a call of the frame decoder leaves. *)
Definition frame_result (d : IlbcDecoder) (st : Z) (samples : list Z) (d' : IlbcDecoder) : Prop :=
  config d' = config d /\
  ((st = 0 /\ Z.of_nat (length samples) = il_blockl d) \/
   (st = -1 /\ samples = [] /\ d' = (WebRtcIlbcfix_InitDecode d (il_mode d) (il_use_enhancer d)).2)).

Lemma output_result d d1 r mode :
  config_ok d -> config d1 = config d ->
  frame_result d 0 (dsp_output d1 r).2
    (let d2 := set_prev_enh_pl 0 (dsp_output d1 r).1 in if mode =? 0 then set_prev_enh_pl 1 d2 else d2).
Proof.
  intros Hc E. split.
  - assert (E2 : config (dsp_output d1 r).1 = config d) by (by rewrite dsp_output_config).
    by destruct (mode =? 0).
  - left. split; [done|]. assert (Eb : il_blockl d1 = il_blockl d) by (unfold config in E; by injection E).
    rewrite dsp_output_block; [done|]. destruct (config_cases d Hc); lia.
Qed.

Lemma DecodeImpl_plc junk bytes d :
  config_ok d ->
  exists samples d', WebRtcIlbcfix_DecodeImpl junk bytes d 0 = Some (0, samples, d') /\
    frame_result d 0 samples d'.
Proof.
  intros Hc. unfold WebRtcIlbcfix_DecodeImpl. cbn [Z.eqb negb].
  pose proof (dsp_lost_config d) as E. destruct (dsp_lost d) as [d1 r]. simpl in E.
  pose proof (output_result d d1 r 0 Hc E) as Hr. destruct (dsp_output d1 r) as [d2 samples].
  by eexists _, _.
Qed.

Lemma DecodeImpl_good junk bytes d :
  config_ok d -> Forall is_u16 bytes -> il_no_of_words d <= Z.of_nat (length bytes) ->
  exists st samples d', WebRtcIlbcfix_DecodeImpl junk bytes d 1 = Some (st, samples, d') /\
    frame_result d st samples d'.
Proof.
  intros Hc HU HL. unfold WebRtcIlbcfix_DecodeImpl. cbn [Z.eqb negb].
  assert (Hw : Z.to_nat (il_no_of_words d) = words_of (il_mode d) /\ (il_mode d = 20 \/ il_mode d = 30)).
  { destruct (config_cases d Hc) as [(E1 & _ & _ & E4)|(E1 & _ & _ & E4)]; rewrite E1, E4; split; auto. }
  destruct Hw as [Ew Hm]. rewrite Ew.
  destruct (receive_params_total bytes (il_mode d) junk Hm HU ltac:(lia)) as [[good b] Er].
  rewrite Er. cbn [mbind option_bind]. destruct good.
  - destruct (dsp_good d b) as [[d1 r]|] eqn:Eg.
    + pose proof (output_result d d1 r 1 Hc (dsp_good_config _ _ _ _ Eg)) as Hr.
      destruct (dsp_output d1 r) as [d2 samples]. by eexists _, _, _.
    + eexists _, _, _. split; [done|]. split; [by apply InitDecode_same|]. by right.
  - pose proof (dsp_lost_config d) as E. destruct (dsp_lost d) as [d1 r]. simpl in E.
    pose proof (output_result d d1 r 0 Hc E) as Hr. destruct (dsp_output d1 r) as [d2 samples].
    by eexists _, _, _.
Qed.

(** ** The loop over the frames of a payload *)

Lemma decode_frames_spec junk fuel i n encoded out d :
  config_ok d -> Forall is_u16 encoded -> 0 <= i <= n ->
  (n - i) * il_no_of_words d <= Z.of_nat (length encoded) -> n - i < Z.of_nat fuel ->
  exists r out' d', decode_frames (fun st => st =? -1) junk fuel i (n * il_no_of_bytes d) encoded out d =
      Some (r, out', d') /\ config d' = config d /\
    ((r = n * il_blockl d /\ Z.of_nat (length out') = Z.of_nat (length out) + (n - i) * il_blockl d) \/
     (r = -1 /\ exists d0, config d0 = config d /\
        d' = (WebRtcIlbcfix_InitDecode d0 (il_mode d0) (il_use_enhancer d0)).2)).
Proof.
  revert i encoded out d. induction fuel as [|fuel IH]; intros i encoded out d Hc HU Hi HL Hf; [lia|].
  cbn [decode_frames]. pose proof (config_cases d Hc) as Hcc.
  destruct (Z.ltb_spec (i * il_no_of_bytes d) (n * il_no_of_bytes d)) as [Hlt|Hge].
  2: { assert (i = n) as -> by nia. eexists _, _, _. split; [done|]. split; [done|]. left. lia. }
  assert (i < n) as Hin by nia.
  destruct (DecodeImpl_good junk encoded d Hc HU ltac:(nia)) as (st & samples & d1 & E & Hcf & Hr).
  rewrite E. cbn [mbind option_bind].
  assert (Hfields : il_no_of_bytes d1 = il_no_of_bytes d /\ il_no_of_words d1 = il_no_of_words d /\
    il_blockl d1 = il_blockl d) by (unfold config in Hcf; by injection Hcf).
  destruct Hfields as (F1 & F2 & F3). destruct Hr as [[-> Hlen]|(-> & -> & ->)]; cbn [Z.eqb].
  - destruct (IH (i + 1) (drop (Z.to_nat (il_no_of_words d1)) encoded) (out ++ samples) d1)
      as (r & out' & d' & E' & Hcf' & Hr').
    + by eapply config_ok_same.
    + by apply Forall_drop.
    + lia.
    + rewrite length_drop, F2. nia.
    + lia.
    + rewrite F1 in E'. rewrite E'. eexists _, _, _. split; [done|]. split; [by rewrite Hcf'|].
      rewrite F3, length_app in Hr'. destruct Hr' as [[-> Hl]|(-> & d0 & Hc0 & ->)].
      * left. split; [done|lia].
      * right. split; [done|]. exists d0. by rewrite Hc0.
  - eexists _, _, _. split; [done|]. split; [done|]. right. split; [done|]. by exists d.
Qed.
End laws.

(** ** Properties *)

(** A concrete signal processing and a new decoder, for the witnesses. *)
#[export] Instance demo_dsp : IlbcDsp := {
  residual := unit;
  dsp_good d b := if b (lsf 0) =? 63 then None else Some (d, tt);
  dsp_lost d := (d, tt);
  dsp_output d _ := (d, replicate (Z.to_nat (il_blockl d)) (il_seed d));
}.

#[export] Instance demo_dsp_laws : IlbcDspLaws.
Proof.
  split; simpl; try done.
  - intros d b d' r. by destruct (b (lsf 0) =? 63); [|intros [= <- _]].
  - intros d r Hb. rewrite length_replicate. lia.
Qed.

Definition demo_decoder : IlbcDecoder :=
  WebRtcIlbcfix_DecoderInit20Ms
    (mkIlbcDecoder 0 0 0 0 0 0 0 0 [] [] 0 0 0 0 0 0 0 [] [] 0 [] [] [] 0 [] []).

Definition no_params : iLBC_bits := fun _ => 0.

Definition block_of (mode : Z) : Z := if mode =? 20 then 160 else 240.
Definition bytes_of (mode : Z) : Z := if mode =? 20 then NO_OF_BYTES_20MS else NO_OF_BYTES_30MS.

(** The outcome of a payload of [n] frames of mode [m]. *)
Definition payload_result (e : Z) (r : Z) (out : list Z) (d' : IlbcDecoder) (n m : Z) : Prop :=
  il_mode d' = m /\
  ((r = n * block_of m /\ Z.of_nat (length out) = n * block_of m) \/
   (r = -1 /\ exists d0, d' = (WebRtcIlbcfix_InitDecode d0 m e).2)).

Lemma bytes_of_inj n m n' m' :
  1 <= n <= 3 -> 1 <= n' <= 3 -> m = 20 \/ m = 30 -> m' = 20 \/ m' = 30 ->
  n * bytes_of m = n' * bytes_of m' -> n = n' /\ m = m'.
Proof.
  intros Hn Hn' Hm Hm'. unfold bytes_of, NO_OF_BYTES_20MS, NO_OF_BYTES_30MS.
  destruct Hm as [->| ->], Hm' as [->| ->]; simpl; lia.
Qed.

Lemma config_bytes d :
  config_ok d -> (il_mode d = 20 \/ il_mode d = 30) /\ il_no_of_bytes d = bytes_of (il_mode d) /\
  il_blockl d = block_of (il_mode d) /\ il_no_of_bytes d = 2 * il_no_of_words d.
Proof. intros Hc. destruct (config_cases d Hc) as [(-> & -> & -> & ->)|(-> & -> & -> & ->)]; auto. Qed.

Lemma frames_of_count len n : frames_of len n = true <-> exists k, 1 <= k <= 3 /\ len = k * n.
Proof.
  unfold frames_of. rewrite !orb_true_iff, !Z.eqb_eq. split.
  - intros [[->| ->]| ->]; [exists 1|exists 2|exists 3]; lia.
  - intros (k & Hk & ->). assert (k = 1 \/ k = 2 \/ k = 3) as [->|[->| ->]] by lia; lia.
Qed.

(** The run on a decoder [d1] of the payload's mode. *)
Lemma payload_run `{IlbcDspLaws} junk d1 encoded len :
  config_ok d1 -> Forall is_u16 encoded -> len <= 2 * Z.of_nat (length encoded) ->
  frames_of len (bytes_of (il_mode d1)) = true ->
  exists r out d', decode_frames (fun st => st =? -1) junk frames_fuel 0 len encoded [] d1 =
      Some (r, out, d') /\ config_ok d' /\
    forall n m, 1 <= n <= 3 -> m = 20 \/ m = 30 -> len = n * bytes_of m ->
      payload_result (il_use_enhancer d1) r out d' n m.
Proof.
  intros Hc1 HU HL (k & Hk & ->)%frames_of_count. destruct (config_bytes d1 Hc1) as (Hm1 & Eb & El & Ew).
  destruct (decode_frames_spec junk frames_fuel 0 k encoded [] d1 Hc1 HU ltac:(lia))
    as (r & out & d' & E & Hcf & Hr); [nia|unfold frames_fuel; lia|].
  rewrite Eb in E. eexists _, _, _. split; [exact E|]. split; [by eapply config_ok_same|].
  intros n m Hn Hm En. destruct (bytes_of_inj k (il_mode d1) n m Hk Hn Hm1 Hm En) as [<- <-].
  split; [unfold config in Hcf; by injection Hcf|]. rewrite <- El.
  destruct Hr as [[-> Hl]|(-> & d0 & Hc0 & ->)]; [left|right].
  - split; [done|]. simpl in Hl. lia.
  - split; [done|]. exists d0. unfold config in Hc0. injection Hc0 as E1 _ _ _ _ _ _ _ E9.
    by rewrite E1, E9.
Qed.

(** [WebRtcIlbcfix_Decode] accepts the payloads of one to three frames of either
    size and nothing else. On a decoder whose fields belong to its mode, a payload
    of [n] frames of mode [m] switches the decoder to [m] and yields [n] blocks of
    samples, or, when the signal processing of a frame fails, -1 and a decoder as
    initialised for [m]; any other length yields -1 and leaves the decoder alone. *)
Theorem Decode_outcome `{IlbcDspLaws} junk d encoded len :
  config_ok d -> Forall is_u16 encoded -> len <= 2 * Z.of_nat (length encoded) ->
  exists r out d', WebRtcIlbcfix_Decode junk d encoded len = Some (r, out, d') /\ config_ok d' /\
    (forall n m, 1 <= n <= 3 -> m = 20 \/ m = 30 -> len = n * bytes_of m ->
       payload_result (il_use_enhancer d) r out d' n m) /\
    (frames_of len NO_OF_BYTES_20MS = false -> frames_of len NO_OF_BYTES_30MS = false ->
       r = -1 /\ out = [] /\ d' = d).
Proof.
  intros Hc HU HL. destruct (config_bytes d Hc) as (Hm1 & Eb & _ & _). unfold WebRtcIlbcfix_Decode.
  assert (Hgood : forall m', frames_of len (bytes_of m') = true -> m' = 20 \/ m' = 30 ->
    frames_of len NO_OF_BYTES_20MS = false -> frames_of len NO_OF_BYTES_30MS = false -> False).
  { intros m' Hf [->| ->] F1 F2;
      [change (bytes_of 20) with NO_OF_BYTES_20MS in Hf|change (bytes_of 30) with NO_OF_BYTES_30MS in Hf]; congruence. }
  assert (Hbad : frames_of len NO_OF_BYTES_20MS = false -> frames_of len NO_OF_BYTES_30MS = false ->
    forall n m, 1 <= n <= 3 -> m = 20 \/ m = 30 -> len = n * bytes_of m ->
    payload_result (il_use_enhancer d) (-1) [] d n m).
  { intros F1 F2 n m Hn Hm En. destruct (Hgood m); [apply frames_of_count; by exists n|done..]. }
  rewrite Eb. destruct (frames_of len (bytes_of (il_mode d))) eqn:Ef.
  { destruct (payload_run junk d encoded len Hc HU HL Ef) as (r & out & d' & E & Hc' & Hr).
    exists r, out, d'. split_and!; [done|done|done|]. intros F1 F2. by destruct (Hgood _ Ef Hm1 F1 F2). }
  destruct (Z.eqb_spec (il_mode d) 20) as [Em|Em].
  - rewrite Em in Ef. destruct (frames_of len NO_OF_BYTES_30MS) eqn:F30; [|exists (-1), [], d; split_and!; [done|done|exact (Hbad Ef eq_refl)|done]].
    destruct (payload_run junk (WebRtcIlbcfix_InitDecode d 30 (il_use_enhancer d)).2 encoded len)
      as (r & out & d' & E & Hc' & Hr); [done|done|done|done|]. by exists r, out, d'.
  - assert (il_mode d = 30) as Em' by lia. rewrite Em' in Ef.
    destruct (frames_of len NO_OF_BYTES_20MS) eqn:F20; [|exists (-1), [], d; split_and!; [done|done|exact (Hbad eq_refl Ef)|done]].
    destruct (payload_run junk (WebRtcIlbcfix_InitDecode d 20 (il_use_enhancer d)).2 encoded len)
      as (r & out & d' & E & Hc' & Hr); [done|done|done|done|]. by exists r, out, d'.
Qed.

Lemma demo_decoder_ok : config_ok demo_decoder.
Proof. reflexivity. Qed.

Lemma Decode_outcome_witness :
  exists r out d', WebRtcIlbcfix_Decode no_params demo_decoder (replicate 50 0x0102) 100 = Some (r, out, d') /\
    il_mode d' = 30 /\ r = 480 /\ Z.of_nat (length out) = 480.
Proof.
  destruct (Decode_outcome no_params demo_decoder (replicate 50 0x0102) 100) as (r & out & d' & E & _ & Hr & _).
  - exact demo_decoder_ok.
  - apply Forall_replicate. clia.
  - vm_compute. discriminate.
  - exists r, out, d'. split; [exact E|].
    destruct (Hr 2 30 ltac:(lia) ltac:(by right) eq_refl) as [Hm [[-> Hl]|[-> _]]].
    + split_and!; [done|reflexivity|exact Hl].
    + exfalso. vm_compute in E. discriminate E.
Defined.

(** [WebRtcIlbcfix_Decode20Ms] and [WebRtcIlbcfix_Decode30Ms] read the status of
    the frame decoder the wrong way round: of a payload of one frame they report -1
    exactly when the frame was decoded, and a block of samples exactly when it was
    rejected and nothing was written. [WebRtcIlbcfix_Decode] reports the opposite. *)
Theorem Decode20Ms_inverted `{IlbcDspLaws} junk d encoded st samples d' :
  config_ok d -> Forall is_u16 encoded -> il_no_of_words d <= Z.of_nat (length encoded) ->
  WebRtcIlbcfix_DecodeImpl junk encoded d 1 = Some (st, samples, d') ->
  let len := il_no_of_bytes d in
  WebRtcIlbcfix_Decode20Ms junk d encoded len =
    Some (if st =? 0 then -1 else il_blockl d, samples, d') /\
  WebRtcIlbcfix_Decode30Ms junk d encoded len =
    Some (if st =? 0 then -1 else il_blockl d, samples, d') /\
  WebRtcIlbcfix_Decode junk d encoded len =
    Some (if st =? 0 then il_blockl d else -1, samples, d').
Proof.
  intros Hc HU HL Ei. cbv zeta.
  destruct (DecodeImpl_good junk encoded d Hc HU HL) as (st' & samples' & d1 & E & Hcf & Hr).
  rewrite Ei in E. injection E as <- <- <-.
  assert (Hf : frames_of (il_no_of_bytes d) (il_no_of_bytes d) = true)
    by (unfold frames_of; by rewrite Z.eqb_refl).
  assert (Hb : il_no_of_bytes d' = il_no_of_bytes d /\ il_blockl d' = il_blockl d)
    by (unfold config in Hcf; by injection Hcf). destruct Hb as [Hb Hl].
  assert (0 < il_no_of_bytes d) as Hpos by (destruct (config_cases d Hc); lia).
  unfold WebRtcIlbcfix_Decode20Ms, WebRtcIlbcfix_Decode30Ms, WebRtcIlbcfix_Decode, frames_fuel. rewrite Hf.
  cbn [decode_frames]. rewrite Z.mul_0_l, (proj2 (Z.ltb_lt 0 _) Hpos), Ei. cbn [mbind option_bind app].
  rewrite Hb, Hl, Z.add_0_l, !Z.mul_1_l, Z.ltb_irrefl.
  destruct Hr as [[-> _]|(-> & -> & _)]; simpl; done.
Qed.

Lemma Decode20Ms_inverted_witness :
  exists samples d', WebRtcIlbcfix_DecodeImpl no_params (replicate 19 0x0102) demo_decoder 1 = Some (0, samples, d') /\
    WebRtcIlbcfix_Decode20Ms no_params demo_decoder (replicate 19 0x0102) 38 = Some (-1, samples, d').
Proof.
  eexists _, _. split; [vm_compute; reflexivity|].
  apply (Decode20Ms_inverted no_params demo_decoder (replicate 19 0x0102) 0).
  - exact demo_decoder_ok.
  - apply Forall_replicate. clia.
  - vm_compute. discriminate.
  - vm_compute. reflexivity.
Defined.

(** [WebRtcIlbcfix_DecodePlc] ends the process. The frame decoder returns 0 for a
    concealed frame, and [RTC_CHECK] of that 0 fails at the first frame, although
    concealment cannot fail. *)
Theorem DecodePlc_aborts `{IlbcDspLaws} junk d n :
  config_ok d ->
  (exists samples d', WebRtcIlbcfix_DecodeImpl junk [0] d 0 = Some (0, samples, d') /\
     Z.of_nat (length samples) = il_blockl d) /\
  WebRtcIlbcfix_DecodePlc junk d (S n) = Some None.
Proof.
  intros Hc. destruct (DecodeImpl_plc junk [0] d Hc) as (samples & d' & E & _ & Hr).
  split; [destruct Hr as [[_ Hl]|[? _]]; [by exists samples, d'|done]|].
  unfold WebRtcIlbcfix_DecodePlc. cbn [DecodePlc_loop]. by rewrite E.
Qed.

Lemma DecodePlc_aborts_witness :
  (exists samples d', WebRtcIlbcfix_DecodeImpl no_params [0] demo_decoder 0 = Some (0, samples, d') /\
     Z.of_nat (length samples) = 160) /\
  WebRtcIlbcfix_DecodePlc no_params demo_decoder 1 = Some None.
Proof. apply (DecodePlc_aborts no_params demo_decoder 0). exact demo_decoder_ok. Defined.
