(* ===== verification/VcText.v ===== *)
(** * Text of the chat client

    The operations of [QString], [QStringList] and the C library that the chat
    client uses on text. A text is a list of 8-bit characters: the protocols the
    client speaks (the sign-in server's replies, the candidate lines) are ASCII,
    where characters and bytes coincide. *)

From Stdlib Require Export Ascii.
From stdpp Require Export strings sets.
From S2P Require Import Prelude.

Definition str : Type := list ascii.

Definition lit (s : string) : str := String.list_ascii_of_string s.

Definition LF : ascii := "010"%char.
Definition CR : ascii := "013"%char.
Definition NUL : ascii := "000"%char.
Definition DQUOTE : ascii := "034"%char.
Definition COMMA : ascii := ","%char.

Definition is_ch (c x : ascii) : bool := bool_decide (x = c).

(** ** Splitting *)

(** [QString::split(QChar)]: the parts between the separators, empty parts
    included. *)
Fixpoint split_on (c : ascii) (s : str) : list str :=
  match s with
  | [] => [[]]
  | x :: s =>
      if is_ch c x then [] :: split_on c s
      else match split_on c s with
           | [] => [[x]]
           | h :: t => (x :: h) :: t
           end
  end.

(** [QString::SkipEmptyParts]. *)
Definition skip_empty (l : list str) : list str :=
  filter (fun s => s <> []) l.

(** Does the text start with the prefix? *)
Fixpoint starts_with (p s : str) : bool :=
  match p, s with
  | [], _ => true
  | c :: p, x :: s => is_ch c x && starts_with p s
  | _ :: _, [] => false
  end.

(** [QString::split(QRegExp(sep))] for a literal separator of two characters or
    more: leftmost matches that do not overlap. [skip] characters of a match
    remain to be dropped. *)
Fixpoint split_lit (sep : str) (skip : nat) (s : str) : list str :=
  match s with
  | [] => [[]]
  | x :: s' =>
      match skip with
      | S skip => split_lit sep skip s'
      | O =>
          if starts_with sep s then [] :: split_lit sep (pred (length sep)) s'
          else match split_lit sep 0 s' with
               | [] => [[x]]
               | h :: t => (x :: h) :: t
               end
      end
  end.

(** ** Numbers *)

Definition is_digit (c : ascii) : bool := (48 <=? nat_of_ascii c)%nat && (nat_of_ascii c <=? 57)%nat.

Definition digit_val (c : ascii) : Z := Z.of_nat (nat_of_ascii c) - 48.

(** Value of a text of digits, most significant first. *)
Definition digits_val (acc : Z) (s : str) : Z :=
  fold_left (fun a c => 10 * a + digit_val c) s acc.

Definition is_space (c : ascii) : bool :=
  ((9 <=? nat_of_ascii c) && (nat_of_ascii c <=? 13))%nat || is_ch " "%char c.

Fixpoint drop_while (f : ascii -> bool) (s : str) : str :=
  match s with
  | x :: s' => if f x then drop_while f s' else s
  | [] => []
  end.

Fixpoint take_while (f : ascii -> bool) (s : str) : str :=
  match s with
  | x :: s' => if f x then x :: take_while f s' else []
  | [] => []
  end.

(** An optional sign: its value and what follows it. *)
Definition sign_of (s : str) : Z * str :=
  match s with
  | x :: s' => if is_ch "-"%char x then (-1, s') else if is_ch "+"%char x then (1, s') else (1, s)
  | [] => (1, [])
  end.

(** [atoi]: the leading digits, 0 if there are none. *)
Definition atoi (s : str) : Z :=
  let '(sg, s) := sign_of (drop_while is_space s) in
  s32 (sg * digits_val 0 (take_while is_digit s)).

(** A number in decimal with blanks around it, and nothing else. *)
Definition parse_decimal (s : str) : option Z :=
  let '(sg, s) := sign_of (drop_while is_space s) in
  let ds := take_while is_digit s in
  match ds, drop_while is_space (drop_while is_digit s) with
  | _ :: _, [] => Some (sg * digits_val 0 ds)
  | _, _ => None
  end.

(** [QString::toInt] and [toUShort]: 0 when the text is not a number of the
    type. *)
Definition to_int (s : str) : Z :=
  match parse_decimal s with
  | Some n => if (- 2 ^ 31 <=? n) && (n <? 2 ^ 31) then n else 0
  | None => 0
  end.

Definition to_ushort (s : str) : Z :=
  match parse_decimal s with
  | Some n => if (0 <=? n) && (n <? 2 ^ 16) then n else 0
  | None => 0
  end.

(** Decimal text of an integer; [fuel] digits are enough for the integers of
    less than [fuel] digits. *)
Fixpoint show_nat (fuel : nat) (n : Z) (acc : str) : str :=
  match fuel with
  | O => acc
  | S fuel =>
      let acc := ascii_of_nat (Z.to_nat (48 + n mod 10)) :: acc in
      if n <? 10 then acc else show_nat fuel (n / 10) acc
  end.

(** [%d] of a 32-bit integer. *)
Definition show_int (n : Z) : str :=
  if n <? 0 then "-"%char :: show_nat 11 (- n) [] else show_nat 11 n [].

(** A C string ends at the first zero byte. *)
Definition c_str (s : str) : str := take_while (fun x => negb (is_ch NUL x)) s.

(** [QString::replace(before, "")] for a nonempty [before]. *)
Definition remove_all (before : str) (s : str) : str := concat (split_lit before 0 s).

(** ** Lemmas *)

Lemma is_ch_eq c x : is_ch c x = true <-> x = c.
Proof. apply bool_decide_eq_true. Qed.

Lemma is_ch_neq c x : is_ch c x = false <-> x <> c.
Proof. apply bool_decide_eq_false. Qed.

Lemma split_on_nonempty c s : split_on c s <> [].
Proof. destruct s as [|x s]; [done|]. cbn. destruct (is_ch c x); [done|]. by destruct (split_on c s). Qed.

(** A text without the separator is one part. *)
Lemma split_on_none c s : c ∉ s -> split_on c s = [s].
Proof.
  induction s as [|x s IH]; intros Hc; [done|]. apply not_elem_of_cons in Hc as [Hx Hs]. cbn.
  rewrite (proj2 (is_ch_neq c x)) by congruence. by rewrite IH.
Qed.

(** The first separator ends the first part. *)
Lemma split_on_app c a b : c ∉ a -> split_on c (a ++ c :: b) = a :: split_on c b.
Proof.
  induction a as [|x a IH]; intros Hc; cbn.
  - by rewrite (proj2 (is_ch_eq c c)).
  - apply not_elem_of_cons in Hc as [Hx Hs]. rewrite (proj2 (is_ch_neq c x)) by congruence.
    by rewrite IH.
Qed.

(** Characters of terminated lines. *)
Lemma lines_free (c x : ascii) (ls : list str) :
  x <> c -> Forall (fun l => x ∉ l) ls -> x ∉ concat (map (fun l => l ++ [c]) ls).
Proof.
  intros Hx. induction 1 as [|l ls Hl _ IH]; [apply not_elem_of_nil|]. cbn [map concat].
  rewrite !elem_of_app, elem_of_cons, elem_of_nil. tauto.
Qed.

(** Lines that are all terminated. *)
Lemma split_on_lines c ls :
  Forall (fun l => c ∉ l) ls -> split_on c (concat (map (fun l => l ++ [c]) ls)) = ls ++ [[]].
Proof.
  induction 1 as [|l ls Hl _ IH]; [done|]. cbn [map concat]. rewrite <- app_assoc. cbn [app].
  by rewrite split_on_app, IH.
Qed.

Lemma skip_empty_cons s l : s <> [] -> skip_empty (s :: l) = s :: skip_empty l.
Proof. intros Hs. unfold skip_empty. by rewrite filter_cons_True. Qed.

Lemma skip_empty_all l : Forall (fun s => s <> []) l -> skip_empty l = l.
Proof. induction 1 as [|s l Hs _ IH]; [done|]. by rewrite skip_empty_cons, IH. Qed.

Lemma skip_empty_app l k : skip_empty (l ++ k) = skip_empty l ++ skip_empty k.
Proof. apply list.filter_app. Qed.

Lemma starts_with_app p s : starts_with p (p ++ s) = true.
Proof. induction p as [|c p IH]; [done|]. cbn. by rewrite (proj2 (is_ch_eq c c)), IH. Qed.

(** The separator does not start inside [a] when [a ++ sep ++ b] is read. *)
Definition free_of (sep a b : str) : Prop :=
  forall k, (k < length a)%nat -> starts_with sep (drop k (a ++ b)) = false.

Lemma split_lit_skip sep n s : split_lit sep n s = split_lit sep 0 (drop n s).
Proof.
  revert n. induction s as [|x s IH]; intros n; [by rewrite drop_nil; destruct n|].
  destruct n as [|n]; [done|]. cbn [split_lit drop]. apply IH.
Qed.

Lemma split_lit_app sep a b :
  sep <> [] -> free_of sep a (sep ++ b) -> split_lit sep 0 (a ++ sep ++ b) = a :: split_lit sep 0 b.
Proof.
  intros Hsep. induction a as [|x a IH]; intros Hf.
  - cbn [app]. destruct sep as [|c sep]; [done|]. cbn [app split_lit].
    pose proof (starts_with_app (c :: sep) b) as E. cbn [app] in E. rewrite E. f_equal. cbn [length pred].
    by rewrite split_lit_skip, drop_app_length.
  - cbn [app split_lit]. pose proof (Hf 0%nat ltac:(cbn; lia)) as H0. cbn [drop app] in H0.
    rewrite H0, IH; [done|]. intros k Hk. apply (Hf (S k)). cbn. lia.
Qed.

Lemma split_lit_none sep a : free_of sep a [] -> split_lit sep 0 a = [a].
Proof.
  induction a as [|x a IH]; intros Hf; [done|]. cbn [split_lit].
  pose proof (Hf 0%nat ltac:(cbn; lia)) as H0. rewrite app_nil_r in H0. cbn [drop] in H0.
  rewrite H0, IH; [done|]. intros k Hk. apply (Hf (S k)). cbn. lia.
Qed.

(** The separator cannot start in a text without its first character. *)
Lemma free_of_first c sep a b : c ∉ a -> free_of (c :: sep) a b.
Proof.
  intros Hc k Hk. rewrite drop_app_le by lia.
  destruct (drop k a) as [|x d] eqn:E.
  - apply (f_equal length) in E. rewrite length_drop in E. cbn in E. lia.
  - cbn. rewrite (proj2 (is_ch_neq c x)); [done|]. intros ->. apply Hc.
    rewrite <- (take_drop k a), E. apply elem_of_app. right. left.
Qed.

Lemma take_while_all f s t :
  Forall (fun c => f c = true) s -> match t with [] => True | x :: _ => f x = false end ->
  take_while f (s ++ t) = s /\ drop_while f (s ++ t) = t.
Proof.
  induction 1 as [|x s Hx _ IH]; intros Ht; cbn.
  - destruct t as [|y t]; [done|]. cbn. by rewrite Ht.
  - rewrite Hx. destruct (IH Ht) as [-> ->]. done.
Qed.

Lemma is_digit_spec c : is_digit c = true -> is_space c = false /\ is_ch "-"%char c = false /\ is_ch "+"%char c = false.
Proof. destruct c as [[] [] [] [] [] [] [] []]; intros E; first [discriminate E | done]. Qed.

(** A text of digits is read as their value. *)
Lemma parse_digits ds :
  ds <> [] -> Forall (fun c => is_digit c = true) ds -> parse_decimal ds = Some (digits_val 0 ds).
Proof.
  intros Hn Hd. unfold parse_decimal. destruct ds as [|c ds]; [done|].
  destruct (is_digit_spec c) as (Hs & Hm & Hp); [by apply Forall_cons_1 in Hd as [? _]|].
  cbn [drop_while]. rewrite Hs. cbn [sign_of]. rewrite Hm, Hp.
  destruct (take_while_all is_digit (c :: ds) [] Hd I) as [E1 E2]. rewrite app_nil_r in E1, E2.
  rewrite E1, E2. cbn [drop_while]. by rewrite Z.mul_1_l.
Qed.

Lemma digits_val_nonneg acc ds :
  0 <= acc -> Forall (fun c => is_digit c = true) ds -> 0 <= digits_val acc ds.
Proof.
  intros Ha Hd. revert acc Ha. induction Hd as [|c ds Hc _ IH]; intros acc Ha; [done|].
  apply IH. unfold is_digit in Hc. apply andb_true_iff in Hc as [Hc _]. apply Nat.leb_le in Hc.
  unfold digit_val. lia.
Qed.

Lemma to_int_digits ds :
  ds <> [] -> Forall (fun c => is_digit c = true) ds -> digits_val 0 ds < 2 ^ 31 ->
  to_int ds = digits_val 0 ds.
Proof.
  intros Hn Hd Hr. unfold to_int. rewrite parse_digits by done.
  rewrite (proj2 (Z.ltb_lt _ _) Hr), andb_true_r.
  pose proof (digits_val_nonneg 0 ds ltac:(lia) Hd). bcase; lia.
Qed.
