(* ===== verification/VcIce.v ===== *)
(** * Chat client: exchange of ICE candidates

    Models [peer_connection/myconnectionobserver.cpp] ([OnIceCandidate]) and the
    candidate part of [mywidget.cpp] ([OnLocalIceCandidate],
    [OnRemoteICEClicked]). The user of one client copies the lines of the text
    field "own ICE" into the field "remote ICE" of the other client. The parser of
    candidates and the peer connection are the parameters [CreateIceCandidate] and
    [AddIceCandidate]. *)

From S2P Require Import Prelude VcText.

Open Scope Z_scope.

Definition BUFLEN : nat := 1024.

(** ** The observer *)

Definition remove_last_if (c : ascii) (s : str) : str :=
  match last s with
  | Some x => if is_ch c x then take (length s - 1) s else s
  | None => s
  end.

Definition quoted (s : str) : str := [DQUOTE] ++ s ++ [DQUOTE].

(** The four characters backslash, r, backslash, n. *)
Definition CRLF_TEXT : str := lit "\r\n".

(** The format of [snprintf]. *)
Definition candidate_json (mlineIdx : Z) (sdpMid iceStr : str) : str :=
  lit "{" ++ quoted (lit "sdpMLineIndex") ++ lit ":" ++ show_int mlineIdx ++ lit ","
  ++ quoted (lit "sdpMid") ++ lit ":" ++ quoted (c_str sdpMid) ++ lit ","
  ++ quoted (lit "candidate") ++ lit ":" ++ quoted (c_str iceStr ++ CRLF_TEXT) ++ lit "}".

(** The text of the signal [signalIceCandidate]; [iceStr] is what
    [candidate->ToString] returns. *)
Definition OnIceCandidate (mlineIdx : Z) (sdpMid iceStr : str) : str :=
  let iceStr := remove_last_if LF iceStr in
  let iceStr := remove_last_if CR iceStr in
  let buf := take (BUFLEN - 1) (candidate_json mlineIdx sdpMid iceStr) in
  c_str buf.

(** ** The widget *)

(** The slot connected to [signalIceCandidate]. *)
Definition OnLocalIceCandidate (ownICEText iceCandidate : str) : str :=
  ownICEText ++ iceCandidate ++ [LF].

(** The third nonempty piece between quotation marks of every comma separated
    part that has one. *)
Definition remainingParts (iceLine : str) : list str :=
  omap (fun part => skip_empty (split_on DQUOTE part) !! 2%nat) (split_on COMMA iceLine).

(** What a line says: the media line, its name and the candidate. *)
Definition parse_ice_line (iceLine : str) : option (Z * str * str) :=
  match remainingParts iceLine with
  | [a; b; c] => Some (atoi a, b, remove_all CRLF_TEXT c)
  | _ => None
  end.

Section PeerConnection.
Context {Candidate : Type}.
Context (CreateIceCandidate : str -> Z -> str -> option Candidate).
Context (AddIceCandidate : Candidate -> bool).

(** What becomes of a line that has three parts. *)
Inductive ice_event :=
| CannotParse (sdpMid : str) (sdpMLineIndex : Z) (candidate : str)
| NotApplied (c : Candidate)
| Applied (c : Candidate).

Definition remote_candidate (line : Z * str * str) : ice_event :=
  let '(sdpMLineIndex, sdpMid, candidate) := line in
  match CreateIceCandidate sdpMid sdpMLineIndex candidate with
  | None => CannotParse sdpMid sdpMLineIndex candidate
  | Some c => if AddIceCandidate c then Applied c else NotApplied c
  end.

Definition OnRemoteICEClicked (remoteICEText : str) : list ice_event :=
  map remote_candidate (omap parse_ice_line (split_on LF remoteICEText)).

End PeerConnection.

(** ** Proofs *)

(** Text that survives the format: a nonempty line without the characters the
    parser splits at. *)
Definition plain (s : str) : Prop :=
  s <> [] /\ Forall (fun c => c <> DQUOTE /\ c <> COMMA /\ c <> LF /\ c <> CR /\ c <> NUL
                              /\ c <> "\"%char) s.

(** A candidate as the peer connection reports it: the attribute may end in a
    line break. *)
Record candidate := mkCandidate {
  cand_mline : Z;
  cand_mid : str;
  cand_text : str;
  cand_break : str;
}.

Definition candidate_ok (c : candidate) : Prop :=
  plain (cand_mid c) /\ plain (cand_text c)
  /\ (cand_break c = [] \/ cand_break c = [LF] \/ cand_break c = [CR; LF])
  /\ (length (candidate_json (cand_mline c) (cand_mid c) (cand_text c)) < BUFLEN)%nat.

Definition observe (c : candidate) : str :=
  OnIceCandidate (cand_mline c) (cand_mid c) (cand_text c ++ cand_break c).

Lemma plain_not_in x s : plain s -> (x = DQUOTE \/ x = COMMA \/ x = LF \/ x = NUL \/ x = CR \/ x = "\"%char) ->
  x ∉ s.
Proof. intros [_ Hs] Hx Hin. rewrite Forall_forall in Hs. apply Hs in Hin. intuition congruence. Qed.

Lemma c_str_id s : NUL ∉ s -> c_str s = s.
Proof.
  intros Hs. destruct (take_while_all (fun x => negb (is_ch NUL x)) s []) as [E _]; [|done|].
  - rewrite Forall_forall. intros x Hx. rewrite (proj2 (is_ch_neq NUL x)); [done|]. by intros ->.
  - by rewrite app_nil_r in E.
Qed.

Lemma remove_last_if_snoc c s : remove_last_if c (s ++ [c]) = s.
Proof.
  unfold remove_last_if. rewrite last_snoc, (proj2 (is_ch_eq c c)) by done.
  rewrite length_app. cbn. rewrite Nat.add_sub. apply take_app_length.
Qed.

Lemma remove_last_if_not c s : c ∉ s -> remove_last_if c s = s.
Proof.
  intros Hs. unfold remove_last_if. destruct (last s) as [x|] eqn:E; [|done].
  rewrite (proj2 (is_ch_neq c x)); [done|]. intros ->. apply Hs.
  apply last_Some_elem_of in E. done.
Qed.

(** The line break at the end of a candidate is removed. *)
Lemma strip_break t k :
  plain t -> (k = [] \/ k = [LF] \/ k = [CR; LF]) ->
  remove_last_if CR (remove_last_if LF (t ++ k)) = t.
Proof.
  intros Ht Hk. assert ((LF ∉ t) /\ (CR ∉ t)) as [Hl Hc] by (split; apply plain_not_in; tauto).
  destruct Hk as [->|[->| ->]].
  - by rewrite app_nil_r, (remove_last_if_not LF), (remove_last_if_not CR).
  - by rewrite (remove_last_if_snoc LF), (remove_last_if_not CR).
  - replace (t ++ [CR; LF]) with ((t ++ [CR]) ++ [LF]) by (by rewrite <- app_assoc).
    by rewrite !remove_last_if_snoc.
Qed.

(** Characters of a printed integer. *)
Lemma show_nat_chars fuel n acc x :
  0 <= n -> x ∈ show_nat fuel n acc -> x ∈ acc \/ is_digit x = true.
Proof.
  revert n acc. induction fuel as [|fuel IH]; intros n acc Hn Hx; [by left|]. cbn in Hx.
  assert (is_digit (ascii_of_nat (Z.to_nat (48 + n mod 10))) = true) as Hd.
  { pose proof (Z.mod_pos_bound n 10). unfold is_digit.
    rewrite nat_ascii_embedding by lia. apply andb_true_iff. rewrite !Nat.leb_le. lia. }
  destruct (n <? 10).
  - apply elem_of_cons in Hx as [->|Hx]; [by right|by left].
  - apply IH in Hx as [Hx|Hx]; [|by right|by apply Z.div_pos].
    apply elem_of_cons in Hx as [->|Hx]; [by right|by left].
Qed.

Lemma show_int_chars n x : x ∈ show_int n -> x = "-"%char \/ is_digit x = true.
Proof.
  unfold show_int. bcase; intros Hx; [apply elem_of_cons in Hx as [->|Hx]; [by left|]|].
  all: apply show_nat_chars in Hx as [Hx|Hx]; [by apply not_elem_of_nil in Hx|by right|lia].
Qed.

Lemma show_int_free n x : is_digit x = false -> x <> "-"%char -> x ∉ show_int n.
Proof. intros Hd Hm Hx. apply show_int_chars in Hx as [->|Hx]; congruence. Qed.

(** A decidable fact about closed texts. *)
Ltac char_check := apply (bool_decide_unpack _); vm_compute; exact I.

(** The three parts of a line. *)
Definition part_mline (n : Z) : str := lit "{" ++ quoted (lit "sdpMLineIndex") ++ lit ":" ++ show_int n.
Definition part_mid (mid : str) : str := quoted (lit "sdpMid") ++ lit ":" ++ quoted mid.
Definition part_cand (t : str) : str :=
  quoted (lit "candidate") ++ lit ":" ++ quoted (t ++ CRLF_TEXT) ++ lit "}".

Lemma candidate_json_parts n mid t :
  plain mid -> plain t ->
  candidate_json n mid t = part_mline n ++ COMMA :: part_mid mid ++ COMMA :: part_cand t.
Proof.
  intros Hm Ht. unfold candidate_json. rewrite !c_str_id by (apply plain_not_in; tauto).
  unfold part_mline, part_mid, part_cand. rewrite <- !app_assoc. reflexivity.
Qed.

Lemma split_quoted s t :
  DQUOTE ∉ s -> skip_empty (split_on DQUOTE (quoted s ++ t)) = skip_empty (s :: split_on DQUOTE t).
Proof.
  intros Hs. unfold quoted. rewrite <- !app_assoc. cbn [app].
  pose proof (split_on_app DQUOTE [] (s ++ DQUOTE :: t)) as E. cbn [app] in E.
  rewrite E by apply not_elem_of_nil. by rewrite split_on_app.
Qed.

(** The pieces the parser takes from the three parts. *)
Lemma pieces_mline n :
  skip_empty (split_on DQUOTE (part_mline n)) !! 2%nat = Some (lit ":" ++ show_int n).
Proof.
  unfold part_mline, quoted. rewrite <- !app_assoc.
  change (lit "{" ++ [DQUOTE] ++ ?x) with (lit "{" ++ DQUOTE :: x).
  rewrite split_on_app by (char_check). cbn [app]. rewrite split_on_app by (char_check).
  rewrite split_on_none; [reflexivity|]. apply not_elem_of_cons. split; [done|].
  by apply show_int_free.
Qed.

Lemma pieces_mid mid :
  plain mid -> skip_empty (split_on DQUOTE (part_mid mid)) !! 2%nat = Some mid.
Proof.
  intros Hm. unfold part_mid. rewrite split_quoted by (char_check).
  rewrite skip_empty_cons by done. unfold quoted.
  change (lit ":" ++ [DQUOTE] ++ mid ++ [DQUOTE]) with (lit ":" ++ DQUOTE :: mid ++ [DQUOTE]).
  rewrite split_on_app by (char_check). rewrite split_on_app by (apply plain_not_in; tauto).
  rewrite !skip_empty_cons by (done || apply Hm). done.
Qed.

Lemma pieces_cand t :
  plain t -> skip_empty (split_on DQUOTE (part_cand t)) !! 2%nat = Some (t ++ CRLF_TEXT).
Proof.
  intros Ht. unfold part_cand. rewrite split_quoted by (char_check).
  rewrite skip_empty_cons by done. unfold quoted. rewrite <- !app_assoc.
  change (lit ":" ++ [DQUOTE] ++ ?x) with (lit ":" ++ DQUOTE :: x).
  rewrite split_on_app by (char_check). cbn [app].
  replace (t ++ CRLF_TEXT ++ DQUOTE :: lit "}") with ((t ++ CRLF_TEXT) ++ DQUOTE :: lit "}")
    by (by rewrite <- app_assoc).
  rewrite split_on_app; [|apply not_elem_of_app; split; [apply plain_not_in; tauto|char_check]].
  rewrite !skip_empty_cons; [done|..|done]. destruct Ht as [Hn _]. by destruct t.
Qed.

Lemma remove_crlf_text t : plain t -> remove_all CRLF_TEXT (t ++ CRLF_TEXT) = t.
Proof.
  intros Ht. unfold remove_all.
  replace (t ++ CRLF_TEXT) with (t ++ CRLF_TEXT ++ []) by (by rewrite app_nil_r).
  rewrite split_lit_app; [cbn; by rewrite app_nil_r|done|].
  apply free_of_first. apply plain_not_in; tauto.
Qed.

(** No part holds the separators of the outer levels. *)
Lemma parts_free x n mid t :
  plain mid -> plain t -> (x = COMMA \/ x = LF \/ x = NUL) ->
  (x ∉ part_mline n) /\ (x ∉ part_mid mid) /\ (x ∉ part_cand t).
Proof.
  intros Hm Ht Hx.
  assert (x ∉ show_int n) by (apply show_int_free; destruct Hx as [->|[->| ->]]; done).
  assert (x ∉ mid) by (apply plain_not_in; tauto).
  assert (x ∉ t) by (apply plain_not_in; tauto).
  unfold part_mline, part_mid, part_cand, quoted, CRLF_TEXT, lit. cbn.
  repeat (rewrite elem_of_cons || rewrite elem_of_app || rewrite elem_of_nil).
  destruct Hx as [->|[->| ->]]; (split_and!; intuition discriminate).
Qed.

(** The line of a candidate is one line and says what the candidate says, except
    for the number of its media line. *)
Lemma observe_spec c :
  candidate_ok c ->
  (LF ∉ observe c) /\ parse_ice_line (observe c) = Some (0, cand_mid c, cand_text c).
Proof.
  intros (Hm & Ht & Hb & Hlen). unfold observe, OnIceCandidate. rewrite strip_break by done.
  unfold BUFLEN in *. rewrite take_ge by lia. rewrite candidate_json_parts by done.
  set (n := cand_mline c). set (mid := cand_mid c) in *. set (t := cand_text c) in *.
  destruct (parts_free NUL n mid t Hm Ht ltac:(tauto)) as (Hn1 & Hn2 & Hn3).
  destruct (parts_free LF n mid t Hm Ht ltac:(tauto)) as (Hl1 & Hl2 & Hl3).
  destruct (parts_free COMMA n mid t Hm Ht ltac:(tauto)) as (Hc1 & Hc2 & Hc3).
  rewrite c_str_id; [split|].
  - rewrite !elem_of_app, !elem_of_cons, !elem_of_app, !elem_of_cons. intuition discriminate.
  - unfold parse_ice_line, remainingParts.
    rewrite !split_on_app, split_on_none by done. cbn [omap list_omap].
    rewrite pieces_mline, pieces_mid, pieces_cand by done.
    rewrite remove_crlf_text by done. reflexivity.
  - rewrite !elem_of_app, !elem_of_cons, !elem_of_app, !elem_of_cons. intuition discriminate.
Qed.

(** The text field after a sequence of candidates. *)
Definition own_ice_text (cs : list candidate) : str :=
  fold_left (fun text c => OnLocalIceCandidate text (observe c)) cs [].

Lemma own_ice_text_lines cs : own_ice_text cs = concat (map (fun l => l ++ [LF]) (map observe cs)).
Proof.
  assert (forall acc, fold_left (fun text c => OnLocalIceCandidate text (observe c)) cs acc
    = acc ++ concat (map (fun l => l ++ [LF]) (map observe cs))) as E; [|apply (E [])].
  induction cs as [|c cs IH]; intros acc; cbn [fold_left map concat]; [by rewrite app_nil_r|].
  rewrite IH. unfold OnLocalIceCandidate. by rewrite <- !app_assoc.
Qed.

(** ** Property *)

(** C39. The candidates one client shows, pasted into the other, are applied
    there one by one and in order with their media name and candidate text, but
    always for media line 0, whatever the number of their media line was. *)
Theorem ice_exchange {Candidate : Type} create (add : Candidate -> bool) cs :
  Forall candidate_ok cs ->
  OnRemoteICEClicked create add (own_ice_text cs)
  = map (fun c => remote_candidate create add (0, cand_mid c, cand_text c)) cs.
Proof.
  intros Hcs. unfold OnRemoteICEClicked. rewrite own_ice_text_lines, split_on_lines.
  - rewrite omap_app. unfold omap. cbn [list_omap]. rewrite app_nil_r.
    induction Hcs as [|c cs Hc _ IH]; [done|]. cbn [map list_omap].
    destruct (observe_spec c Hc) as [_ ->]. cbn [map]. by rewrite IH.
  - rewrite Forall_map. eapply Forall_impl; [exact Hcs|]. intros c Hc. by apply observe_spec.
Qed.

(** A candidate of the video line. *)
Definition video_candidate : candidate :=
  mkCandidate 1 (lit "video") (lit "candidate:1 1 udp 2122260223 10.0.0.2 50001 typ host") [CR; LF].

Lemma ice_exchange_witness :
  OnRemoteICEClicked (fun mid idx text => Some (mid, idx, text)) (fun _ => true)
    (own_ice_text [video_candidate])
  = [Applied (lit "video", 0, lit "candidate:1 1 udp 2122260223 10.0.0.2 50001 typ host")].
Proof.
  rewrite (ice_exchange _ _ [video_candidate]); [reflexivity|]. constructor; [|constructor].
  split_and!; [split; [done|]; repeat (constructor; [split_and!; discriminate|]); constructor..| |].
  - right. right. reflexivity.
  - vm_compute. lia.
Defined.
