(* ===== verification/VcRenderer.v ===== *)
(** * Chat client: the renderer of a video track

    Models [peer_connection/video_renderer.cpp] with the size of a rotated buffer
    from [I420Buffer::Rotate] (webrtc/api/video/i420_buffer.cc). Frames are
    delivered to [OnFrame] one after the other. A [QMutex] is not recursive:
    locking one that nobody unlocks never returns, which is the outcome [Spin].
    libyuv, which is not part of the source tree, is the class [Libyuv]. *)

From S2P Require Import Prelude.

Open Scope c_scope.

(** ** Interface of libyuv *)

Class Libyuv := {
  (** One past the last byte of the destination that [I420ToABGR] writes, for a
      stride, a width and a height. *)
  I420ToABGR_end : Z -> Z -> Z -> Z;
}.

Class LibyuvLaws `{Libyuv} := {
  I420ToABGR_end_spec stride w h :
    0 < w -> 0 < h -> I420ToABGR_end stride w h <= (h - 1) * stride + 4 * w;
}.

#[export] Instance libyuv_ref : Libyuv := {
  I420ToABGR_end stride w h := (h - 1) * stride + 4 * w;
}.

#[export] Instance libyuv_ref_laws : LibyuvLaws.
Proof. split. intros. apply Z.le_refl. Qed.

(** ** Data *)

Inductive VideoRotation := kVideoRotation_0 | kVideoRotation_90 | kVideoRotation_180 | kVideoRotation_270.

#[export] Instance VideoRotation_eq_dec : EqDecision VideoRotation.
Proof. solve_decision. Defined.

Record VideoFrame := mkFrame {
  frame_width : Z;
  frame_height : Z;
  frame_rotation : VideoRotation;
}.

(** [image_] is the size of the array it points to, [None] the null pointer; a
    mutex is [true] while it is locked. *)
Record VideoRenderer := mkRenderer {
  image_ : option Z;
  width_ : Z;
  height_ : Z;
  mutex_setSize : bool;
  mutex_onFrame : bool;
}.

#[export] Instance eta_VideoRenderer : Eta VideoRenderer := fun v =>
  mkRenderer (image_ v) (width_ v) (height_ v) (mutex_setSize v) (mutex_onFrame v).

(** The renderer as its constructor leaves it. *)
Definition new_renderer : VideoRenderer := mkRenderer None 0 0 false false.

(** ** Operations *)

Abbreviation vr A := (stmt VideoRenderer unit A).

Definition lock_setSize : vr unit := fun v =>
  if mutex_setSize v then Spin else Next tt (v <| mutex_setSize := true |>).

Definition unlock_setSize : vr unit := modify (fun v => v <| mutex_setSize := false |>).

Definition lock_onFrame : vr unit := fun v =>
  if mutex_onFrame v then Spin else Next tt (v <| mutex_onFrame := true |>).

Definition unlock_onFrame : vr unit := modify (fun v => v <| mutex_onFrame := false |>).

Definition setSize {R} (width height : Z) : stmt VideoRenderer R unit :=
  fn (
  lock_setSize ;;
  let! v := get in
  (if (width_ v =? width) && (height_ v =? height) then return_ tt else ret tt) ;;
  modify (fun v => v <| width_ := width |>) ;;
  modify (fun v => v <| height_ := height |>) ;;
  modify (fun v => v <| image_ := Some (s32 (width * height * 4)) |>) ;;
  unlock_setSize).

(** Width and height of the buffer that [I420Buffer::Rotate] returns. *)
Definition Rotate (rotation : VideoRotation) (width height : Z) : Z * Z :=
  match rotation with
  | kVideoRotation_90 | kVideoRotation_270 => (height, width)
  | kVideoRotation_0 | kVideoRotation_180 => (width, height)
  end.

(** Size of the buffer that is drawn. *)
Definition drawn_size (f : VideoFrame) : Z * Z :=
  if decide (frame_rotation f = kVideoRotation_0) then (frame_width f, frame_height f)
  else Rotate (frame_rotation f) (frame_width f) (frame_height f).

(** The conversion writes to the image; without an image it does nothing. *)
Definition draw `{Libyuv} (width height : Z) : vr unit := fun v =>
  match image_ v with
  | None => Next tt v
  | Some size => if I420ToABGR_end (width_ v * 4) width height <=? size then Next tt v else Fault
  end.

Definition OnFrame `{Libyuv} (f : VideoFrame) : vr unit :=
  lock_onFrame ;;
  setSize (drawn_size f).1 (drawn_size f).2 ;;
  draw (drawn_size f).1 (drawn_size f).2 ;;
  unlock_onFrame.

(** The frames of a track. *)
Fixpoint OnFrames `{Libyuv} (fs : list VideoFrame) : vr unit :=
  match fs with
  | [] => ret tt
  | f :: fs => OnFrame f ;; OnFrames fs
  end.

(** ** Proofs *)

(** Sizes whose image has less than 2^31 bytes. *)
Definition frame_ok (f : VideoFrame) : Prop :=
  0 < frame_width f /\ 0 < frame_height f /\ frame_width f * frame_height f * 4 < 2 ^ 31.

(** The image has the size the renderer remembers. *)
Definition image_ok (v : VideoRenderer) : Prop :=
  match image_ v with
  | None => width_ v = 0 /\ height_ v = 0
  | Some size => 0 < width_ v /\ 0 < height_ v /\ size = width_ v * height_ v * 4
  end.

Lemma drawn_size_ok f :
  frame_ok f -> 0 < (drawn_size f).1 /\ 0 < (drawn_size f).2
    /\ (drawn_size f).1 * (drawn_size f).2 * 4 < 2 ^ 31.
Proof.
  intros (Hw & Hh & Hs). unfold drawn_size, Rotate. case_decide; [done|].
  destruct (frame_rotation f); cbn; lia.
Qed.

Lemma draw_ok `{LibyuvLaws} v :
  image_ok v -> draw (width_ v) (height_ v) v = Next tt v.
Proof.
  unfold image_ok, draw. destruct (image_ v) as [size|]; [|done].
  intros (Hw & Hh & ->). pose proof (I420ToABGR_end_spec (width_ v * 4) (width_ v) (height_ v) Hw Hh).
  rewrite (proj2 (Z.leb_le _ _)); [done|]. lia.
Qed.

(** One frame: it never returns if the mutex of [setSize] is locked, and leaves it
    locked if the size is the current one. *)
Lemma OnFrame_spec `{LibyuvLaws} f v :
  frame_ok f -> image_ok v -> mutex_onFrame v = false ->
  if mutex_setSize v then OnFrame f v = Spin
  else exists v', OnFrame f v = Next tt v' /\ image_ok v' /\ mutex_onFrame v' = false
    /\ (width_ v', height_ v') = drawn_size f
    /\ mutex_setSize v' = bool_decide ((width_ v, height_ v) = drawn_size f).
Proof.
  intros Hf Hv Hm. destruct (drawn_size_ok f Hf) as (Hw & Hh & Hs).
  unfold OnFrame, lock_onFrame. destruct (drawn_size f) as [w h] eqn:Ed. cbn [fst snd] in *.
  rewrite (bind_Next _ _ v tt (v <| mutex_onFrame := true |>)) by (by rewrite Hm).
  destruct (mutex_setSize v) eqn:El.
  { assert (mutex_setSize (v <| mutex_onFrame := true |>) = true) as E1 by exact El.
    unfold setSize, fn, lock_setSize, bind. by rewrite E1. }
  destruct (decide (width_ v = w /\ height_ v = h)) as [[Ew Eh]|Hne].
  - set (v1 := v <| mutex_onFrame := true |> <| mutex_setSize := true |>).
    rewrite (bind_Next _ _ _ tt v1).
    2:{ unfold setSize, fn, bind, lock_setSize, modify, get, ret, return_. cbn. rewrite ?El. cbn.
        rewrite Ew, Eh, !Z.eqb_refl. reflexivity. }
    rewrite (bind_Next _ _ _ tt v1).
    2:{ rewrite <- Ew, <- Eh. apply (draw_ok v1). exact Hv. }
    eexists. split; [reflexivity|]. cbn. rewrite Ew, Eh, bool_decide_true by done.
    split_and!; done.
  - set (v1 := mkRenderer (Some (w * h * 4)) w h false true).
    rewrite (bind_Next _ _ _ tt v1).
    2:{ unfold setSize, fn, bind, lock_setSize, modify, get, ret, return_. cbn. rewrite ?El. cbn.
        rewrite s32_id by (widths; nia).
        destruct (width_ v =? w) eqn:E1, (height_ v =? h) eqn:E2; try reflexivity.
        apply Z.eqb_eq in E1, E2. exfalso. by apply Hne. }
    rewrite (bind_Next _ _ _ tt v1) by (by apply (draw_ok v1)).
    eexists. split; [reflexivity|]. cbn.
    rewrite bool_decide_false by (intros E; apply Hne; by simplify_eq).
    split_and!; done.
Qed.

(** No frame but the last has the size of the one before it; [s] is the size before
    the first. *)
Fixpoint no_early_repeat (s : Z * Z) (fs : list VideoFrame) : Prop :=
  match fs with
  | [] | [_] => True
  | f :: fs => s <> drawn_size f /\ no_early_repeat (drawn_size f) fs
  end.

Lemma OnFrames_spec `{LibyuvLaws} fs v :
  Forall frame_ok fs -> image_ok v -> mutex_onFrame v = false -> mutex_setSize v = false ->
  (no_early_repeat (width_ v, height_ v) fs -> exists v', OnFrames fs v = Next tt v' /\ image_ok v')
  /\ (~ no_early_repeat (width_ v, height_ v) fs -> OnFrames fs v = Spin).
Proof.
  revert v. induction fs as [|f fs IH]; intros v Hfs Hv Hm Hs; [split; [by exists v|done]|].
  apply Forall_cons_1 in Hfs as [Hf Hfs].
  pose proof (OnFrame_spec f v Hf Hv Hm) as Hstep. rewrite Hs in Hstep.
  destruct Hstep as (v' & E & Hv' & Hm' & Hsize & Hs').
  cbn [OnFrames]. rewrite (bind_Next _ _ _ _ _ E).
  destruct fs as [|g fs]; [split; [by exists v'|done]|]. cbn [no_early_repeat].
  destruct (decide ((width_ v, height_ v) = drawn_size f)) as [Heq|Hne].
  - rewrite bool_decide_true in Hs' by done. apply Forall_cons_1 in Hfs as [Hg _].
    pose proof (OnFrame_spec g v' Hg Hv' Hm') as Hstep. rewrite Hs' in Hstep.
    split; [by intros [? _]|]. intros _. cbn [OnFrames]. unfold bind at 1. by rewrite Hstep.
  - rewrite bool_decide_false in Hs' by done.
    destruct (IH v' Hfs Hv' Hm' Hs') as [IH1 IH2]. rewrite Hsize in IH1, IH2.
    split; [intros [_ Hr]; by apply IH1|]. intros Hr. apply IH2. tauto.
Qed.

(** ** Property *)

(** C40. A renderer draws a sequence of frames, without writing outside its image,
    exactly when no frame but the last has the size of its predecessor; otherwise
    the delivery of a frame never returns: [setSize] returns with its mutex locked
    when the size is the current one, and the next frame waits for that mutex. *)
Theorem renderer_deadlock `{LibyuvLaws} fs :
  Forall frame_ok fs ->
  (no_early_repeat (0, 0) fs -> exists v, OnFrames fs new_renderer = Next tt v /\ image_ok v)
  /\ (~ no_early_repeat (0, 0) fs -> OnFrames fs new_renderer = Spin).
Proof. intros Hfs. by apply (OnFrames_spec fs new_renderer). Qed.

(** The third frame of 640 by 480 pixels is never drawn. *)
Lemma renderer_deadlock_witness :
  let f := mkFrame 640 480 kVideoRotation_0 in
  frame_ok f /\ (exists v, OnFrames [f; f] new_renderer = Next tt v /\ image_ok v)
  /\ OnFrames [f; f; f] new_renderer = Spin.
Proof.
  intros f. assert (frame_ok f) as Hf by (split_and!; reflexivity).
  split; [exact Hf|]. split.
  - apply (proj1 (renderer_deadlock [f; f] ltac:(repeat constructor; exact Hf))).
    split; [discriminate|exact I].
  - apply (proj2 (renderer_deadlock [f; f; f] ltac:(repeat constructor; exact Hf))).
    intros (_ & Hr & _). apply Hr. reflexivity.
Defined.
