(* ===== verification/VcSignal.v ===== *)
(** * Chat client: signalling

    Models the slots of [video_chat.cpp]. The client signs in at a server over the
    socket [control_socket] and then waits for notifications over [data_socket]
    with a request that the server answers when there is something to report; the
    slot [onDataRead] closes the socket and issues the next request.

    A slot is a statement on the window [VideoChat]. What the outside decides is an
    argument: the texts of the input fields, what [readAll] returns and whether
    [waitForConnected] succeeds (the signal [connected] is emitted before it
    returns, so the slot connected to it runs inside). Requests written to a
    socket are appended to [sent]. Access through a null pointer and past the end
    of a [QStringList] are faults. The backend ([initLocalInfo]) only counts its
    calls, and a JSON message is parsed without an effect, as in the code. *)

From stdpp Require Import gmap.
From S2P Require Import Prelude VcText.

Open Scope Z_scope.
Open Scope c_scope.

(** ** Data *)

Inductive SocketState := UnconnectedState | ConnectedState.

Inductive Socket := Control | Data.

(** [None] is the null pointer. *)
Record VideoChat := mkVideoChat {
  my_id : Z;
  control_socket : option SocketState;
  data_socket : option SocketState;
  username : str;
  host : str;
  port : Z;
  peers : gmap str Z;
  isLoggedIn : bool;
  isSigningOut : bool;
  isCalling : bool;
  shown : list str;
  sent : list (Socket * str);
  local_infos : nat;
}.

#[export] Instance eta_VideoChat : Eta VideoChat := fun w =>
  mkVideoChat (my_id w) (control_socket w) (data_socket w) (username w) (host w) (port w) (peers w)
    (isLoggedIn w) (isSigningOut w) (isCalling w) (shown w) (sent w) (local_infos w).

(** The constructor; [id0] and [port0] are what the memory held. *)
Definition new_VideoChat (id0 port0 : Z) : VideoChat :=
  mkVideoChat id0 None None [] [] port0 ∅ false false false [] [] 0.

(** ** Slots *)

Abbreviation vc A := (stmt VideoChat unit A).

Definition CRLF2 : str := [CR; LF; CR; LF].

Definition write (s : Socket) (request : str) : vc unit :=
  modify (fun w => w <| sent := sent w ++ [(s, request)] |>).

(** [list[i]] of a [QStringList]. *)
Definition at_ (l : list str) (i : nat) : vc str := mem (l !! i).

Definition sign_in_request (user : str) : str :=
  lit "GET /sign_in?" ++ user ++ lit " HTTP/1.0" ++ CRLF2.

Definition wait_request (id : Z) : str :=
  lit "GET /wait?peer_id=" ++ show_int id ++ lit " HTTP/1.0" ++ CRLF2.

Definition sign_out_request (id : Z) : str :=
  lit "GET /sign_out?peer_id=" ++ show_int id ++ lit " HTTP/1.0" ++ CRLF2.

Definition onControlConnect : vc unit :=
  let! w := get in
  if isSigningOut w then ret tt
  else
    write Control (sign_in_request (username w)) ;;
    modify (fun w => w <| isLoggedIn := true |>).

Definition onDataConnect : vc unit :=
  let! w := get in
  write Data (wait_request (my_id w)).

(** [connectToHost] and [waitForConnected]; [Close], which is called after a
    failure, is empty. *)
Definition connect_control (ok : bool) : vc unit :=
  if ok
  then modify (fun w => w <| control_socket := Some ConnectedState |>) ;; onControlConnect
  else modify (fun w => w <| control_socket := Some UnconnectedState |>).

Definition connect_data (ok : bool) : vc unit :=
  if ok
  then modify (fun w => w <| data_socket := Some ConnectedState |>) ;; onDataConnect
  else modify (fun w => w <| data_socket := Some UnconnectedState |>).

Definition InitializeConnection (ok : bool) : vc unit :=
  modify (fun w => w <| control_socket := None |>) ;;
  modify (fun w => w <| shown := [] |>) ;;
  modify (fun w => w <| control_socket := Some UnconnectedState |>) ;;
  connect_control ok.

Definition on_login_btn_clicked (host_text port_text username_text : str) (ok : bool) : vc unit :=
  fn (
  let! w := get in
  (if control_socket w is Some _ then return_ tt else ret tt) ;;
  modify (fun w => w <| host := host_text |>) ;;
  modify (fun w => w <| port := to_ushort port_text |>) ;;
  modify (fun w => w <| username := username_text |>) ;;
  let! w := get in
  if negb (bool_decide (host w = [])) && negb (bool_decide (username w = []))
     && negb (port w =? 0)
  then
    InitializeConnection ok ;;
    modify (fun w => w <| local_infos := S (local_infos w) |>)
  else ret tt).

(** The regular expression "Pragma: (\d+)": the captured text of the first match,
    empty if there is none. *)
Fixpoint capture_pragma (s : str) : str :=
  match s with
  | [] => []
  | _ :: s' =>
      if starts_with (lit "Pragma: ") s && negb (bool_decide (take_while is_digit (drop 8 s) = []))
      then take_while is_digit (drop 8 s)
      else capture_pragma s'
  end.

(** The fields of a line of the peer list. *)
Definition peer_fields (p : str) : list str := skip_empty (split_on COMMA p).

(** The names in the list that [onControlRead] shows. *)
Fixpoint control_names (user : str) (list_peers : list str) (list_name : list str) : vc (list str) :=
  match list_peers with
  | [] => ret list_name
  | p :: list_peers =>
      let tmp := peer_fields p in
      let! name := at_ tmp 0 in
      let! st := at_ tmp 2 in
      control_names user list_peers
        (if negb (bool_decide (name = user)) && negb (to_int st =? 0)
         then list_name ++ [name] else list_name)
  end.

(** The same loop in [onDataRead], which also records the identifiers. *)
Fixpoint data_names (list_peers : list str) (list_name : list str) : vc (list str) :=
  match list_peers with
  | [] => ret list_name
  | p :: list_peers =>
      let tmp := peer_fields p in
      let! name := at_ tmp 0 in
      let! i := at_ tmp 1 in
      let! st := at_ tmp 2 in
      let! w := get in
      if negb (bool_decide (name = username w)) && negb (to_int st =? 0)
      then
        modify (fun w => w <| peers := <[name := to_int i]> (peers w) |>) ;;
        data_names list_peers (list_name ++ [name])
      else data_names list_peers list_name
  end.

Definition response_parts (recv : str) : list str := skip_empty (split_lit CRLF2 0 recv).

Definition onControlRead (recv : str) (ok : bool) : vc unit :=
  let body := response_parts recv in
  let! b0 := at_ body 0 in
  modify (fun w => w <| my_id := to_int (capture_pragma b0) |>) ;;
  let! b1 := at_ body 1 in
  let! w := get in
  let! list_name := control_names (username w) (skip_empty (split_on LF b1)) [] in
  modify (fun w => w <| shown := list_name |>) ;;
  modify (fun w => match data_socket w with
                   | None => w <| data_socket := Some UnconnectedState |>
                   | Some _ => w
                   end) ;;
  let! w := get in
  match data_socket w with
  | Some UnconnectedState => connect_data ok
  | _ => ret tt
  end.

Definition onDataRead (recv : str) (ok : bool) : vc unit :=
  fn (
  let! w := get in
  (if data_socket w is Some _ then ret tt else fun _ => Fault) ;;
  let body := response_parts recv in
  let! b1 := at_ body 1 in
  (if negb (starts_with (lit "{") b1) then
     let! list_name := data_names (skip_empty (split_on LF b1)) [] in
     modify (fun w => w <| shown := list_name |>)
   else if isCalling w then return_ tt else ret tt) ;;
  modify (fun w => w <| data_socket := Some UnconnectedState |>) ;;
  connect_data ok).

(** A double click on a name of the list; [peers[name]] inserts a missing key. *)
Definition on_listView_peers_doubleClicked (name : str) : vc unit :=
  modify (fun w => match peers w !! name with
                   | Some _ => w
                   | None => w <| peers := <[name := 0]> (peers w) |>
                   end) ;;
  modify (fun w => w <| isCalling := true |>).

(** The destructor, which reads from both sockets before it tests them. *)
Definition delete_VideoChat : vc unit :=
  let! w := get in
  (if control_socket w is Some _ then ret tt else fun _ => Fault) ;;
  (if data_socket w is Some _ then ret tt else fun _ => Fault) ;;
  modify (fun w => w <| isSigningOut := true |>) ;;
  let! w := get in
  (match control_socket w with
   | Some ConnectedState =>
       write Control (sign_out_request (my_id w)) ;;
       modify (fun w => w <| control_socket := Some UnconnectedState |>)
   | _ => ret tt
   end) ;;
  match data_socket w with
  | Some ConnectedState => modify (fun w => w <| data_socket := Some UnconnectedState |>)
  | _ => ret tt
  end.

(** ** Runs *)

(** What can happen to an open window. *)
Inductive vc_event :=
| Login (host_text port_text username_text : str) (ok : bool)
| ControlRead (recv : str) (ok : bool)
| DataRead (recv : str) (ok : bool)
| DoubleClick (name : str).

Definition handle (e : vc_event) : vc unit :=
  match e with
  | Login h p u ok => on_login_btn_clicked h p u ok
  | ControlRead recv ok => onControlRead recv ok
  | DataRead recv ok => onDataRead recv ok
  | DoubleClick name => on_listView_peers_doubleClicked name
  end.

Inductive vc_steps : VideoChat -> VideoChat -> Prop :=
| steps_refl w : vc_steps w w
| steps_event w e w' w'' : handle e w = Next tt w' -> vc_steps w' w'' -> vc_steps w w''.

(** ** Texts of the server *)

(** A line of the peer list: name, identifier and whether the peer is signed in. *)
Record entry := mkEntry {
  entry_name : str;
  entry_id : str;
  entry_on : bool;
}.

Definition entry_line (e : entry) : str :=
  entry_name e ++ COMMA :: entry_id e ++ COMMA :: (if entry_on e then lit "1" else lit "0").

Definition is_number (ds : str) : Prop :=
  ds <> [] /\ Forall (fun c => is_digit c = true) ds /\ digits_val 0 ds < 2 ^ 31.

Definition entry_ok (e : entry) : Prop :=
  entry_name e <> [] /\ Forall (fun c => c <> COMMA /\ c <> LF /\ c <> CR /\ c <> "{"%char) (entry_name e)
  /\ is_number (entry_id e).

Definition peer_list (es : list entry) : str := concat (map (fun l => l ++ [LF]) (map entry_line es)).

(** A reply: a header without an empty line, an empty line and the peer list. *)
Definition reply (header : str) (es : list entry) : str := header ++ CRLF2 ++ peer_list es.

Definition header_ok (header : str) (es : list entry) : Prop :=
  header <> [] /\ free_of CRLF2 header (CRLF2 ++ peer_list es) /\ es <> [] /\ Forall entry_ok es.

(** The peers a user sees: the others that are signed in. *)
Definition visible (user : str) (es : list entry) : list entry :=
  filter (fun e => entry_name e <> user /\ entry_on e = true) es.

(** ** Proofs *)

Lemma digits_free x ds :
  is_digit x = false -> Forall (fun c => is_digit c = true) ds -> x ∉ ds.
Proof. intros Hx Hd Hin. rewrite Forall_forall in Hd. apply Hd in Hin. congruence. Qed.

Lemma digit_not_sep x : x = COMMA \/ x = LF \/ x = CR -> is_digit x = false.
Proof. by intros [->|[->| ->]]. Qed.

Lemma entry_line_free x e :
  entry_ok e -> x = LF \/ x = CR -> x ∉ entry_line e.
Proof.
  intros (_ & Hn & _ & Hd & _) Hx. unfold entry_line.
  rewrite elem_of_app, elem_of_cons, elem_of_app, elem_of_cons.
  assert (x ∉ entry_id e) by (apply digits_free; [apply digit_not_sep; tauto|done]).
  assert (x ∉ (if entry_on e then lit "1" else lit "0")).
  { destruct (entry_on e), Hx; subst x; apply (bool_decide_unpack _); vm_compute; exact I. }
  assert (x ∉ entry_name e).
  { intros Hin. rewrite Forall_forall in Hn. apply Hn in Hin. intuition congruence. }
  destruct Hx; subst x; intuition discriminate.
Qed.

Lemma entry_fields e :
  entry_ok e ->
  peer_fields (entry_line e) = [entry_name e; entry_id e; if entry_on e then lit "1" else lit "0"].
Proof.
  intros (Hne & Hn & Hie & Hd & _). unfold peer_fields, entry_line.
  rewrite split_on_app. 2:{ intros Hin. rewrite Forall_forall in Hn. apply Hn in Hin. tauto. }
  rewrite split_on_app by (apply digits_free; [reflexivity|done]).
  rewrite split_on_none by (destruct (entry_on e); apply (bool_decide_unpack _); vm_compute; exact I).
  apply skip_empty_all. repeat constructor; try done. by destruct (entry_on e).
Qed.

Lemma peer_list_lines es :
  Forall entry_ok es -> skip_empty (split_on LF (peer_list es)) = map entry_line es.
Proof.
  intros Hes. unfold peer_list. rewrite split_on_lines.
  - rewrite skip_empty_app, skip_empty_all; [by rewrite app_nil_r|].
    rewrite Forall_map. eapply Forall_impl; [exact Hes|]. intros e (Hne & _). unfold entry_line.
    by destruct (entry_name e).
  - rewrite Forall_map. eapply Forall_impl; [exact Hes|]. intros e He. apply entry_line_free; tauto.
Qed.

(** The two parts of a reply. *)
Lemma reply_parts header es :
  header_ok header es -> response_parts (reply header es) = [header; peer_list es].
Proof.
  intros (Hh & Hfree & Hne & Hes). unfold response_parts, reply.
  rewrite split_lit_app by done. rewrite split_lit_none.
  - apply skip_empty_all. repeat constructor; [done|]. unfold peer_list.
    destruct es as [|e es]; [done|]. cbn. by destruct (entry_line e).
  - apply free_of_first, lines_free; [done|]. rewrite Forall_map.
    eapply Forall_impl; [exact Hes|]. intros e He. apply entry_line_free; tauto.
Qed.

Lemma entry_name_shown user e :
  negb (bool_decide (entry_name e = user)) && negb (to_int (if entry_on e then lit "1" else lit "0") =? 0)
  = bool_decide (entry_name e <> user /\ entry_on e = true).
Proof.
  destruct (entry_on e).
  - rewrite andb_true_r. apply eq_true_iff_eq. rewrite negb_true_iff, bool_decide_eq_false, bool_decide_eq_true. tauto.
  - cbn. rewrite andb_false_r. symmetry. apply bool_decide_eq_false. by intros [_ ?].
Qed.

Lemma visible_cons user e es :
  visible user (e :: es)
  = if bool_decide (entry_name e <> user /\ entry_on e = true) then e :: visible user es else visible user es.
Proof. unfold visible. cbn. case_decide as H; [by rewrite bool_decide_true|by rewrite bool_decide_false]. Qed.

(** The loop of [onControlRead] over a peer list. *)
Lemma control_names_spec user es acc w :
  Forall entry_ok es ->
  control_names user (map entry_line es) acc w = Next (acc ++ map entry_name (visible user es)) w.
Proof.
  intros Hes. revert acc. induction Hes as [|e es He _ IH]; intros acc; [by rewrite app_nil_r|].
  cbn [map control_names]. rewrite (entry_fields e He).
  change (bind (at_ [?a; ?b; ?c] 0) ?k w) with (k a w). cbv beta.
  change (bind (at_ [?a; ?b; ?c] 2) ?k w) with (k c w). cbv beta.
  rewrite entry_name_shown, visible_cons, IH.
  destruct (bool_decide _); [|done]. by rewrite <- app_assoc.
Qed.

(** The identifiers [onDataRead] records. *)
Definition record_peers (es : list entry) (m : gmap str Z) : gmap str Z :=
  fold_left (fun m e => <[entry_name e := to_int (entry_id e)]> m) es m.

Lemma data_names_spec es acc w :
  Forall entry_ok es ->
  data_names (map entry_line es) acc w
  = Next (acc ++ map entry_name (visible (username w) es))
      (w <| peers := record_peers (visible (username w) es) (peers w) |>).
Proof.
  intros Hes. revert acc w. induction Hes as [|e es He _ IH]; intros acc w.
  { rewrite app_nil_r. by destruct w. }
  cbn [map data_names]. rewrite (entry_fields e He).
  change (bind (at_ [?a; ?b; ?c] 0) ?k w) with (k a w). cbv beta.
  change (bind (at_ [?a; ?b; ?c] 1) ?k w) with (k b w). cbv beta.
  change (bind (at_ [?a; ?b; ?c] 2) ?k w) with (k c w). cbv beta.
  rewrite bind_get, entry_name_shown, visible_cons.
  destruct (bool_decide _); [|apply IH].
  change (bind (modify ?f) (fun _ => ?k) w) with (k (f w)). cbv beta.
  rewrite IH, <- app_assoc. reflexivity.
Qed.

(** The first match of the regular expression. *)
Lemma capture_pragma_spec pre ds post :
  free_of (lit "Pragma: ") pre (lit "Pragma: " ++ ds ++ post) -> is_number ds ->
  match post with [] => True | x :: _ => is_digit x = false end ->
  capture_pragma (pre ++ lit "Pragma: " ++ ds ++ post) = ds.
Proof.
  intros Hfree (Hn & Hd & _) Hpost. induction pre as [|x pre IH].
  - cbn [app]. destruct (take_while_all is_digit ds post Hd Hpost) as [E _].
    change (capture_pragma ?s) with
      (if starts_with (lit "Pragma: ") s && negb (bool_decide (take_while is_digit (drop 8 s) = []))
       then take_while is_digit (drop 8 s) else capture_pragma (tail s)).
    rewrite starts_with_app. change (drop 8 (lit "Pragma: " ++ ?t)) with t.
    by rewrite E, bool_decide_false.
  - cbn [app capture_pragma]. pose proof (Hfree 0%nat ltac:(cbn; lia)) as H0.
    change (drop 0 ?s) with s in H0. cbn [app] in H0. rewrite H0. cbn [andb].
    apply IH. intros k Hk. apply (Hfree (S k)). cbn. lia.
Qed.

Lemma to_int_number ds : is_number ds -> to_int ds = digits_val 0 ds.
Proof. intros (Hn & Hd & Hr). by apply to_int_digits. Qed.

(** The data socket is created and connected when it is not connected. *)
Lemma connect_data_first w ok :
  data_socket w = None ->
  (modify (fun w => match data_socket w with
                    | None => w <| data_socket := Some UnconnectedState |>
                    | Some _ => w
                    end) ;;
   let! w := get in
   match data_socket w with
   | Some UnconnectedState => connect_data ok
   | _ => ret tt
   end) w
  = Next tt (if ok
             then w <| data_socket := Some ConnectedState |> <| sent := sent w ++ [(Data, wait_request (my_id w))] |>
             else w <| data_socket := Some UnconnectedState |>).
Proof.
  intros Hw. destruct w as [i c d u h po ps l so ca sh se lo]. cbn in Hw. subst d. by destruct ok.
Qed.

Lemma connect_data_again w ok :
  (modify (fun w => w <| data_socket := Some UnconnectedState |>) ;; connect_data ok) w
  = Next tt (if ok
             then w <| data_socket := Some ConnectedState |> <| sent := sent w ++ [(Data, wait_request (my_id w))] |>
             else w <| data_socket := Some UnconnectedState |>).
Proof. by destruct w, ok. Qed.

Lemma record_peers_other es m k :
  k ∉ map entry_name es -> record_peers es m !! k = m !! k.
Proof.
  revert m. induction es as [|e es IH]; intros m Hk; [done|].
  apply not_elem_of_cons in Hk as [Hne Hk]. cbn. rewrite IH by done. by apply lookup_insert_ne.
Qed.

Lemma record_peers_lookup es m e :
  NoDup (map entry_name es) -> e ∈ es ->
  record_peers es m !! entry_name e = Some (to_int (entry_id e)).
Proof.
  revert m. induction es as [|e' es IH]; intros m Hnd He; [by apply not_elem_of_nil in He|].
  cbn [map] in Hnd. apply NoDup_cons in Hnd as [Hn Hnd]. apply elem_of_cons in He as [->|He].
  - cbn. rewrite record_peers_other by done. apply lookup_insert_eq.
  - cbn. by apply IH.
Qed.

Lemma visible_NoDup user es : NoDup (map entry_name es) -> NoDup (map entry_name (visible user es)).
Proof.
  intros Hnd. assert (map entry_name (visible user es) `sublist_of` map entry_name es) as Hsub.
  { clear Hnd. induction es as [|e es IH]; [done|]. rewrite visible_cons. cbn [map].
    destruct (bool_decide _); by constructor. }
  by eapply sublist_NoDup.
Qed.

Lemma entry_ok_start e es :
  entry_ok e -> starts_with (lit "{") (peer_list (e :: es)) = false.
Proof.
  intros (Hne & Hn & _). unfold peer_list, entry_line. cbn [map concat].
  destruct (entry_name e) as [|c name]; [done|]. apply Forall_cons_1 in Hn as [Hc _]. cbn.
  destruct Hc as (_ & _ & _ & Hc). by rewrite (proj2 (is_ch_neq _ _) Hc).
Qed.

(** *** Lists that are too short *)

Definition short_line (p : str) : Prop := (length (peer_fields p) < 3)%nat.

Lemma control_names_outcome user l acc w :
  (Exists short_line l /\ control_names user l acc w = Fault)
  \/ (Forall (fun p => ~ short_line p) l /\ exists names, control_names user l acc w = Next names w).
Proof.
  revert acc. induction l as [|p l IH]; intros acc; [right; split; [constructor|by exists acc]|].
  cbn [control_names]. cbv zeta.
  destruct (peer_fields p) as [|a [|b [|c k]]] eqn:E.
  1-3: left; split; [by constructor; unfold short_line; rewrite E; cbn; lia|reflexivity].
  change (bind (at_ (?a :: ?l) 0) ?k w) with (k a w). cbv beta.
  change (bind (at_ (?a :: ?b :: ?c :: ?l) 2) ?k w) with (k c w). cbv beta.
  destruct (IH (if negb (bool_decide (a = user)) && negb (to_int c =? 0) then acc ++ [a] else acc))
    as [[Hl ->]|[Hl [names ->]]].
  - left. split; [by apply Exists_cons_tl|done].
  - right. split; [constructor; [unfold short_line; rewrite E; cbn; lia|done]|by exists names].
Qed.

(** *** What no slot changes *)

Ltac keeps_steps :=
  repeat first
    [ solve [auto with keeps]
    | apply keeps_bind; [|intros ?]
    | apply keeps_fn
    | apply keeps_modify; intros ? ?; repeat case_match; cbn; by auto
    | case_match ].

Lemma data_names_keeps (P : VideoChat -> Prop) l acc :
  (forall w m, P w -> P (w <| peers := m |>)) -> keeps P (data_names l acc).
Proof.
  intros HP. revert acc. induction l as [|p l IH]; intros acc; cbn [data_names].
  - apply keeps_ret.
  - unfold at_. repeat (apply keeps_bind; [auto with keeps|intros ?]). destruct (_ && _); [|apply IH].
    apply keeps_bind; [apply keeps_modify; intros w Hw; by apply HP|intros ?; apply IH].
Qed.

Lemma control_names_keeps (P : VideoChat -> Prop) user l acc : keeps P (control_names user l acc).
Proof.
  intros w Hw. by destruct (control_names_outcome user l acc w) as [[_ ->]|[_ [names ->]]].
Qed.

(** The flag of a call is never taken back. *)
Lemma handle_calling e : keeps (fun w => isCalling w = true) (handle e).
Proof.
  destruct e; cbn [handle];
    unfold on_login_btn_clicked, InitializeConnection, onControlRead, onDataRead,
      on_listView_peers_doubleClicked, connect_control, connect_data, onControlConnect, onDataConnect,
      write, at_; cbv zeta.
  all: keeps_steps; try apply control_names_keeps; try (apply data_names_keeps; intros; assumption).
Qed.

(** A control socket is never removed. *)
Lemma handle_control e : keeps (fun w => control_socket w <> None) (handle e).
Proof.
  destruct e as [h p u ok|recv ok|recv ok|name]; cbn [handle].
  - intros w Hw. unfold on_login_btn_clicked, fn. rewrite bind_get.
    destruct (control_socket w) eqn:E; [|done]. cbn. by rewrite E.
  - unfold onControlRead, connect_data, onDataConnect, write, at_; cbv zeta.
    keeps_steps; try apply control_names_keeps.
  - unfold onDataRead, connect_data, onDataConnect, write, at_; cbv zeta.
    keeps_steps; try (apply data_names_keeps; intros; assumption).
  - unfold on_listView_peers_doubleClicked. keeps_steps.
Qed.

(** The login does not create the data socket. *)
Lemma login_data h p u ok : keeps (fun w => data_socket w = None) (on_login_btn_clicked h p u ok).
Proof.
  unfold on_login_btn_clicked, InitializeConnection, connect_control, onControlConnect, write.
  keeps_steps.
Qed.

Lemma steps_keep (P : VideoChat -> Prop) w w' :
  (forall e, keeps P (handle e)) -> vc_steps w w' -> P w -> P w'.
Proof.
  intros HP. induction 1 as [w|w e w' w'' E _ IH]; intros Hw; [done|]. apply IH.
  specialize (HP e w Hw). by rewrite E in HP.
Qed.

(** ** Properties *)

(** C38. The reply to the sign-in request: the window takes the identifier of the
    first Pragma line, shows the names of the other peers that are signed in, in
    the order of the reply, and starts to wait for notifications. *)
Theorem sign_in_reply pre ds post es w ok :
  let header := pre ++ lit "Pragma: " ++ ds ++ post in
  header_ok header es ->
  free_of (lit "Pragma: ") pre (lit "Pragma: " ++ ds ++ post) -> is_number ds ->
  match post with [] => True | x :: _ => is_digit x = false end ->
  data_socket w = None ->
  exists w', onControlRead (reply header es) ok w = Next tt w'
    /\ my_id w' = digits_val 0 ds
    /\ shown w' = map entry_name (visible (username w) es)
    /\ data_socket w' = Some (if ok then ConnectedState else UnconnectedState)
    /\ sent w' = sent w ++ (if ok then [(Data, wait_request (digits_val 0 ds))] else []).
Proof.
  intros header Hh Hfree Hds Hpost Hw. eexists. split.
  - unfold onControlRead. rewrite (reply_parts header es Hh).
    change (bind (at_ [?a; ?b] 0) ?k w) with (k a w). cbv beta.
    change (bind (modify ?f) (fun _ => ?k) w) with (k (f w)). cbv beta.
    set (w1 := w <| my_id := _ |>).
    change (bind (at_ [?a; ?b] 1) ?k w1) with (k b w1). cbv beta.
    rewrite bind_get, peer_list_lines by apply Hh.
    rewrite (bind_Next _ _ _ _ _ (control_names_spec (username w1) es [] w1 ltac:(apply Hh))).
    change (bind (modify ?f) (fun _ => ?k) w1) with (k (f w1)). cbv beta.
    rewrite connect_data_first by exact Hw. reflexivity.
  - assert (to_int (capture_pragma header) = digits_val 0 ds) as Hid.
    { unfold header. rewrite capture_pragma_spec by done. by apply to_int_number. }
    destruct ok; cbn; rewrite ?Hid, ?app_nil_r; done.
Qed.

(** A reply of the server to which two peers are known. *)
Definition sample_header : str :=
  lit "HTTP/1.1 200 Added" ++ [CR; LF] ++ lit "Pragma: 7" ++ [CR; LF] ++ lit "Connection: close".

Definition sample_peers : list entry :=
  [mkEntry (lit "bob") (lit "7") true; mkEntry (lit "alice") (lit "3") true;
   mkEntry (lit "carol") (lit "5") false].

Definition signed_in (user : str) : VideoChat :=
  (new_VideoChat 0 0) <| username := user |> <| control_socket := Some ConnectedState |>.

(** Decide a closed fact on texts. *)
Ltac text_check := apply (bool_decide_unpack _); vm_compute; exact I.

Lemma free_of_check sep a b :
  forallb (fun k => negb (starts_with sep (drop k (a ++ b)))) (seq 0 (length a)) = true -> free_of sep a b.
Proof.
  rewrite forallb_forall. intros Hall k Hk. apply negb_true_iff, Hall, in_seq. lia.
Qed.

Lemma sample_header_ok : header_ok sample_header sample_peers.
Proof.
  split; [done|]. split; [apply free_of_check; vm_compute; reflexivity|]. split; [done|].
  repeat constructor; try done; try discriminate.
Qed.

Lemma sign_in_reply_witness :
  exists w', onControlRead (reply sample_header sample_peers) true (signed_in (lit "bob")) = Next tt w'
    /\ my_id w' = 7 /\ shown w' = [lit "alice"].
Proof.
  destruct (sign_in_reply (lit "HTTP/1.1 200 Added" ++ [CR; LF]) (lit "7")
    ([CR; LF] ++ lit "Connection: close") sample_peers (signed_in (lit "bob")) true
    sample_header_ok) as (w' & E & Hid & Hs & _).
  - apply free_of_check. vm_compute. reflexivity.
  - split; [done|]. split; [repeat constructor|reflexivity].
  - reflexivity.
  - reflexivity.
  - exists w'. split; [exact E|]. split; [exact Hid|exact Hs].
Defined.

(** A notification with a peer list: the window shows the other peers that are
    signed in, can look up the identifier of each of them, and sends the next
    request on a new connection; until a call is made a message to this peer also
    leads to the next request. *)
Theorem notification header es w ok :
  header_ok header es -> NoDup (map entry_name es) -> data_socket w <> None ->
  (exists w', onDataRead (reply header es) ok w = Next tt w'
    /\ shown w' = map entry_name (visible (username w) es)
    /\ (forall e, e ∈ visible (username w) es ->
          peers w' !! entry_name e = Some (digits_val 0 (entry_id e)))
    /\ sent w' = sent w ++ (if ok then [(Data, wait_request (my_id w))] else []))
  /\ (forall b0 message rest recv, response_parts recv = b0 :: message :: rest ->
      starts_with (lit "{") message = true -> isCalling w = false ->
      exists w', onDataRead recv ok w = Next tt w'
        /\ sent w' = sent w ++ (if ok then [(Data, wait_request (my_id w))] else [])).
Proof.
  intros Hh Hnd Hd. destruct (data_socket w) as [d|] eqn:Ed; [|done]. split.
  - eexists. split.
    + unfold onDataRead. apply fn_Next. rewrite bind_get, Ed.
      change (bind (ret tt) (fun _ => ?k) w) with (k w). cbv beta zeta.
      rewrite (reply_parts header es Hh). change (bind (at_ [?a; ?b] 1) ?k w) with (k b w). cbv beta.
      destruct es as [|e es]; [by destruct Hh as (_ & _ & ? & _)|].
      destruct Hh as (_ & _ & _ & Hes). rewrite entry_ok_start by (by apply Forall_cons_1 in Hes as [? _]).
      cbn [negb]. rewrite peer_list_lines by done.
      erewrite (bind_Next _ _ w tt).
      2:{ erewrite bind_Next by (by apply data_names_spec). reflexivity. }
      apply connect_data_again.
    + cbn [app]. assert (forall e, e ∈ visible (username w) es ->
        record_peers (visible (username w) es) (peers w) !! entry_name e = Some (digits_val 0 (entry_id e))) as Hlook.
      { intros e He. rewrite record_peers_lookup by (done || by apply visible_NoDup).
        f_equal. apply to_int_number. apply list_elem_of_filter in He as [_ He].
        destruct Hh as (_ & _ & _ & Hes). rewrite Forall_forall in Hes. by apply Hes. }
      destruct ok; cbn; rewrite ?app_nil_r; done.
  - intros b0 message rest recv Hparts Hjson Hcall. eexists. split.
    + unfold onDataRead. apply fn_Next. rewrite bind_get, Ed.
      change (bind (ret tt) (fun _ => ?k) w) with (k w). cbv beta zeta. rewrite Hparts.
      change (bind (at_ (?a :: ?b :: ?l) 1) ?k w) with (k b w). cbv beta. rewrite Hjson, Hcall.
      apply connect_data_again.
    + destruct ok; cbn; by rewrite ?app_nil_r.
Qed.

Lemma notification_witness :
  exists w', onDataRead (reply sample_header sample_peers) true
      ((signed_in (lit "bob")) <| data_socket := Some ConnectedState |>) = Next tt w'
    /\ shown w' = [lit "alice"] /\ peers w' !! lit "alice" = Some 3.
Proof.
  destruct (notification sample_header sample_peers
    ((signed_in (lit "bob")) <| data_socket := Some ConnectedState |>) true sample_header_ok)
    as [(w' & E & Hs & Hp & _) _].
  - text_check.
  - discriminate.
  - exists w'. split; [exact E|]. split; [exact Hs|].
    apply (Hp (mkEntry (lit "alice") (lit "3") true)). apply list_elem_of_filter.
    split; [split; [discriminate|reflexivity]|]. right. left.
Defined.

(** The reply to the sign-in request is not checked: the slot reads past the
    end of a list exactly when the text it receives at once has no second part, as
    when the header and the peer list arrive one after the other, or when a line of
    the peer list has fewer than three fields; otherwise it completes. *)
Theorem control_read_faults recv ok w :
  let bad := (length (response_parts recv) < 2)%nat
    \/ exists b1, response_parts recv !! 1%nat = Some b1 /\ Exists short_line (skip_empty (split_on LF b1)) in
  (onControlRead recv ok w = Fault <-> bad)
  /\ (~ bad -> exists w', onControlRead recv ok w = Next tt w').
Proof.
  cbv zeta. unfold onControlRead. cbv zeta.
  destruct (response_parts recv) as [|b0 [|b1 l]]; cbn [length].
  1,2: split; [split; [intros _; left; lia|reflexivity]|intros Hn; exfalso; apply Hn; left; lia].
  change (bind (at_ (?a :: ?l) 0) ?k w) with (k a w). cbv beta.
  change (bind (modify ?f) (fun _ => ?k) w) with (k (f w)). cbv beta.
  set (w1 := w <| my_id := _ |>).
  change (bind (at_ (?a :: ?b :: ?l) 1) ?k w1) with (k b w1). cbv beta. rewrite bind_get.
  destruct (control_names_outcome (username w1) (skip_empty (split_on LF b1)) [] w1)
    as [[Hs E]|[Hl [names E]]].
  - unfold bind at 1 2. rewrite E. split; [|intros Hn; exfalso; apply Hn; right; by exists b1].
    split; [intros _; right; by exists b1|reflexivity].
  - rewrite (bind_Next _ _ _ _ _ E).
    assert (exists w', (let! x := modify (fun w => w <| shown := names |>) in
      modify (fun w => match data_socket w with
                       | None => w <| data_socket := Some UnconnectedState |>
                       | Some _ => w
                       end) ;;
      let! w := get in
      match data_socket w with
      | Some UnconnectedState => connect_data ok
      | _ => ret tt
      end) w1 = Next tt w') as [w' Ew].
    { destruct w1 as [i c d u h po ps lg so ca sh se lo].
      destruct d as [[]|], ok; eexists; reflexivity. }
    rewrite Ew. split; [|by exists w']. split; [done|]. intros [Hn|(b & Hb & Hx)]; [lia|].
    injection Hb as <-. exfalso. apply Exists_exists in Hx as (p & Hp & Hx).
    rewrite Forall_forall in Hl. by apply (Hl p).
Qed.

(** The header of the sample reply in a segment of its own. *)
Lemma control_read_faults_witness :
  onControlRead (sample_header ++ CRLF2) true (signed_in (lit "bob")) = Fault
  /\ exists w', onControlRead (reply sample_header sample_peers) true (signed_in (lit "bob")) = Next tt w'.
Proof.
  split.
  - apply (proj1 (control_read_faults (sample_header ++ CRLF2) true (signed_in (lit "bob")))).
    left. vm_compute. lia.
  - apply (proj2 (control_read_faults (reply sample_header sample_peers) true (signed_in (lit "bob")))).
    rewrite reply_parts by exact sample_header_ok. intros [Hn|(b1 & Hb & Hx)]; [cbn in Hn; lia|].
    injection Hb as <-. revert Hx. rewrite peer_list_lines by apply sample_header_ok.
    intros Hx. repeat (inversion Hx as [? ? Hs|? ? Hs]; subst; clear Hx; [revert Hs; vm_compute; lia|rename Hs into Hx]).
    inversion Hx.
Defined.

(** After a double click the window is calling for ever, and each message from
    a peer, such as the answer to the call, is dropped without a new request to the
    server: the window no longer waits for notifications. *)
Theorem calling_stops_polling name w w1 w2 b0 message rest recv ok :
  on_listView_peers_doubleClicked name w = Next tt w1 -> vc_steps w1 w2 ->
  data_socket w2 <> None ->
  response_parts recv = b0 :: message :: rest -> starts_with (lit "{") message = true ->
  onDataRead recv ok w2 = Next tt w2.
Proof.
  intros E Hs Hd Hp Hj.
  assert (isCalling w1 = true) as Hc by (injection E as <-; reflexivity).
  apply (steps_keep _ _ _ handle_calling Hs) in Hc.
  unfold onDataRead. apply fn_Return. rewrite bind_get.
  destruct (data_socket w2); [|done]. change (bind (ret tt) (fun _ => ?k) w2) with (k w2). cbv beta zeta.
  rewrite Hp. change (bind (at_ (?a :: ?b :: ?l) 1) ?k w2) with (k b w2). cbv beta.
  rewrite Hj, Hc. reflexivity.
Qed.

Lemma calling_stops_polling_witness :
  exists w1, on_listView_peers_doubleClicked (lit "alice")
      ((signed_in (lit "bob")) <| data_socket := Some ConnectedState |>) = Next tt w1
    /\ onDataRead (sample_header ++ CRLF2 ++ lit "{ answer }") true w1 = Next tt w1.
Proof.
  eexists. split; [reflexivity|].
  eapply calling_stops_polling; [reflexivity|apply steps_refl|discriminate|vm_compute; reflexivity|reflexivity].
Defined.

(** A sign-in that fails to connect cannot be repeated: whatever happens
    later, the login button does nothing. *)
Theorem failed_login_is_final h p u w w1 w2 :
  h <> [] -> u <> [] -> to_ushort p <> 0 -> control_socket w = None ->
  on_login_btn_clicked h p u false w = Next tt w1 -> vc_steps w1 w2 ->
  isLoggedIn w1 = isLoggedIn w
  /\ forall h' p' u' ok', on_login_btn_clicked h' p' u' ok' w2 = Next tt w2.
Proof.
  intros Hh Hu Hp Hc E Hs.
  assert (w1 = w <| host := h |> <| port := to_ushort p |> <| username := u |>
    <| control_socket := None |> <| shown := [] |> <| control_socket := Some UnconnectedState |>
    <| control_socket := Some UnconnectedState |> <| local_infos := S (local_infos w) |>) as ->.
  { revert E. unfold on_login_btn_clicked, fn. rewrite bind_get, Hc.
    unfold bind, ret, modify, get. cbn.
    rewrite !bool_decide_false, (proj2 (Z.eqb_neq _ _)) by done. by intros [= <-]. }
  split; [reflexivity|]. intros h' p' u' ok'.
  assert (control_socket w2 <> None) as Hn by (by apply (steps_keep _ _ _ handle_control Hs)).
  unfold on_login_btn_clicked. apply fn_Return. rewrite bind_get.
  by destruct (control_socket w2).
Qed.

Lemma failed_login_is_final_witness :
  exists w1, on_login_btn_clicked (lit "localhost") (lit "8888") (lit "bob") false (new_VideoChat 0 0) = Next tt w1
    /\ on_login_btn_clicked (lit "localhost") (lit "8888") (lit "bob") true w1 = Next tt w1.
Proof.
  eexists. split; [reflexivity|].
  edestruct (failed_login_is_final (lit "localhost") (lit "8888") (lit "bob") (new_VideoChat 0 0))
    as [_ Hl]; [discriminate|discriminate|vm_compute; discriminate|reflexivity|reflexivity|apply steps_refl|].
  apply Hl.
Defined.

(** The destructor reads through both sockets before it tests whether they
    exist: it faults exactly when one of them was never created, as in a window
    that is closed before the reply to its sign-in arrived. *)
Theorem destructor_faults w :
  (delete_VideoChat w = Fault <-> control_socket w = None \/ data_socket w = None)
  /\ (forall id0 port0, delete_VideoChat (new_VideoChat id0 port0) = Fault)
  /\ (forall h p u ok id0 port0 w1,
        on_login_btn_clicked h p u ok (new_VideoChat id0 port0) = Next tt w1 -> delete_VideoChat w1 = Fault).
Proof.
  split; [|split; [reflexivity|]].
  - unfold delete_VideoChat. rewrite bind_get.
    destruct w as [i [[]|] [[]|] u h po ps lg so ca sh se lo]; split;
      first [done | by intros [?|?] | by left | by right].
  - intros h p u ok id0 port0 w1 E. assert (data_socket w1 = None) as Hd.
    { pose proof (login_data h p u ok (new_VideoChat id0 port0) eq_refl) as Hk. by rewrite E in Hk. }
    unfold delete_VideoChat. rewrite bind_get, Hd. by destruct (control_socket w1).
Qed.
