(* ===== verification/VcAdapter.v ===== *)
(** * Chat client: the video adapter

    Models [webrtc/media/base/video_adapter.cc], which the capturer of the client
    asks for the size and the rate of the frames it sends: the scale factors of
    [FindScale], the rate limit of [KeepFrame], [AdaptFrameResolution] and the
    requests of sources and sinks. The critical section makes every method
    atomic; log messages are left out.

    [int] has 32 bits and [int64_t] 64. The loop of [FindScale] has fuel 40: the
    denominator doubles in every second round, so that 31 rounds bring an input of
    2^26 pixels below one pixel. Single precision arithmetic, used for the aspect
    ratio, is [f32]: the integer significand and the exponent of a positive number,
    rounded to the nearest with ties to even. *)

From Stdlib Require Import Sorted.
From S2P Require Import Prelude.

Open Scope c_scope.

(** [std::abs] of an [int] and of an [int64_t]. *)
Definition abs32 (z : Z) : Z := s32 (Z.abs z).
Definition abs64 (z : Z) : Z := s64 (Z.abs z).

Definition INT_MAX : Z := 2 ^ 31 - 1.
Definition kNumNanosecsPerSec : Z := 1000000000.

(** ** Single precision numbers *)

Record f32 := mkF32 { f32_m : Z; f32_e : Z }.

(** [n / d] times [2 ^ e], rounded to 24 bits. *)
Definition f32_round (n d e : Z) : f32 :=
  if n <=? 0 then mkF32 0 0
  else
    let quotient k := if 0 <=? k then n / (d * 2 ^ k) else n * 2 ^ (- k) / d in
    let k0 := Z.log2 n - Z.log2 d - 24 in
    let k := if 2 ^ 24 <=? quotient k0 then k0 + 1 else k0 in
    let '(n', d') := if 0 <=? k then (n, d * 2 ^ k) else (n * 2 ^ (- k), d) in
    let q := n' / d' in
    let r := n' mod d' in
    let up := (d' <? 2 * r) || ((d' =? 2 * r) && Z.odd q) in
    mkF32 (if up then q + 1 else q) (e + k).

Definition f32_of_int (n : Z) : f32 := f32_round n 1 0.
Definition f32_mul (a b : f32) : f32 := f32_round (f32_m a * f32_m b) 1 (f32_e a + f32_e b).
Definition f32_div (a b : f32) : f32 := f32_round (f32_m a) (f32_m b) (f32_e a - f32_e b).

(** [static_cast<int>]. *)
Definition f32_to_int (a : f32) : Z :=
  s32 (if 0 <=? f32_e a then f32_m a * 2 ^ f32_e a else f32_m a / 2 ^ (- f32_e a)).

(** ** Scale factors *)

Record Fraction := mkFraction { numerator : Z; denominator : Z }.

Definition scale_pixel_count {S R} (f : Fraction) (input_pixels : Z) : stmt S R Z :=
  mem (cdiv (s32 (numerator f * numerator f * input_pixels)) (s32 (denominator f * denominator f))).

Definition roundUp {S R} (value_to_round multiple max_value : Z) : stmt S R Z :=
  let! q := mem (cdiv (s32 (value_to_round + multiple - 1)) multiple) in
  let rounded_value := s32 (q * multiple) in
  let! q' := mem (cdiv max_value multiple) in
  ret (if rounded_value <=? max_value then rounded_value else s32 (q' * multiple)).

(** The next factor: 2/3 or 3/4 of the current one. *)
Definition next_scale (f : Fraction) : Fraction :=
  if (Z.rem (numerator f) 3 =? 0) && (Z.rem (denominator f) 2 =? 0)
  then mkFraction (Z.quot (numerator f) 3) (Z.quot (denominator f) 2)
  else mkFraction (s32 (numerator f * 3)) (s32 (denominator f * 4)).

Fixpoint scale_loop {S R} (fuel : nat) (input_pixels target_pixels max_pixels : Z)
    (current_scale best_scale : Fraction) (min_pixel_diff : Z) : stmt S R Fraction :=
  match fuel with
  | O => fun _ => Spin
  | Datatypes.S fuel =>
      let! pixels := scale_pixel_count current_scale input_pixels in
      if target_pixels <? pixels then
        let current_scale := next_scale current_scale in
        let! output_pixels := scale_pixel_count current_scale input_pixels in
        let diff := abs32 (s32 (target_pixels - output_pixels)) in
        if (output_pixels <=? max_pixels) && (diff <? min_pixel_diff)
        then scale_loop fuel input_pixels target_pixels max_pixels current_scale current_scale diff
        else scale_loop fuel input_pixels target_pixels max_pixels current_scale best_scale min_pixel_diff
      else ret best_scale
  end.

Definition FindScale {S R} (input_pixels target_pixels max_pixels : Z) : stmt S R Fraction :=
  if input_pixels <=? target_pixels then ret (mkFraction 1 1)
  else
    let min_pixel_diff :=
      if input_pixels <=? max_pixels then abs32 (s32 (input_pixels - target_pixels)) else INT_MAX in
    scale_loop 40 input_pixels target_pixels max_pixels (mkFraction 1 1) (mkFraction 1 1) min_pixel_diff.

(** ** The adapter *)

Record VideoAdapter := mkAdapter {
  frames_in_ : Z;
  frames_out_ : Z;
  frames_scaled_ : Z;
  adaption_changes_ : Z;
  previous_width_ : Z;
  previous_height_ : Z;
  required_resolution_alignment_ : Z;
  next_frame_timestamp_ns_ : option Z;
  target_landscape_aspect_ratio_ : option (Z * Z);
  max_landscape_pixel_count_ : option Z;
  target_portrait_aspect_ratio_ : option (Z * Z);
  max_portrait_pixel_count_ : option Z;
  max_fps_ : option Z;
  resolution_request_target_pixel_count_ : Z;
  resolution_request_max_pixel_count_ : Z;
  max_framerate_request_ : Z;
}.

#[export] Instance eta_VideoAdapter : Eta VideoAdapter := fun a =>
  mkAdapter (frames_in_ a) (frames_out_ a) (frames_scaled_ a) (adaption_changes_ a)
    (previous_width_ a) (previous_height_ a) (required_resolution_alignment_ a)
    (next_frame_timestamp_ns_ a) (target_landscape_aspect_ratio_ a) (max_landscape_pixel_count_ a)
    (target_portrait_aspect_ratio_ a) (max_portrait_pixel_count_ a) (max_fps_ a)
    (resolution_request_target_pixel_count_ a) (resolution_request_max_pixel_count_ a)
    (max_framerate_request_ a).

Definition new_VideoAdapter (required_resolution_alignment : Z) : VideoAdapter :=
  mkAdapter 0 0 0 0 0 0 required_resolution_alignment None None None None None None
    INT_MAX INT_MAX INT_MAX.

Definition opt_min (n : Z) (o : option Z) : Z :=
  match o with Some m => Z.min n m | None => n end.

(** The frame rate limit, when frames are at least [interval] apart. *)
Definition keep_at (frame_interval_ns in_timestamp_ns : Z) (a : VideoAdapter) : bool * VideoAdapter :=
  let reset := (true, a <| next_frame_timestamp_ns_ :=
                             Some (s64 (in_timestamp_ns + Z.quot frame_interval_ns 2)) |>) in
  match next_frame_timestamp_ns_ a with
  | Some next =>
      let time_until_next_frame_ns := s64 (next - in_timestamp_ns) in
      if abs64 time_until_next_frame_ns <? s64 (2 * frame_interval_ns) then
        if 0 <? time_until_next_frame_ns then (false, a)
        else (true, a <| next_frame_timestamp_ns_ := Some (s64 (next + frame_interval_ns)) |>)
      else reset
  | None => reset
  end.

Definition KeepFrame (in_timestamp_ns : Z) (a : VideoAdapter) : bool * VideoAdapter :=
  let max_fps := opt_min (max_framerate_request_ a) (max_fps_ a) in
  if max_fps <=? 0 then (false, a)
  else
    let frame_interval_ns := Z.quot kNumNanosecsPerSec max_fps in
    if frame_interval_ns <=? 0 then (true, a)
    else keep_at frame_interval_ns in_timestamp_ns a.

(** The part of the input that is used. *)
Definition crop (target_aspect_ratio : option (Z * Z)) (in_width in_height : Z) : Z * Z :=
  match target_aspect_ratio with
  | None => (in_width, in_height)
  | Some (w, h) =>
      if (w <=? 0) || (h <=? 0) then (in_width, in_height)
      else
        let requested_aspect := f32_div (f32_of_int w) (f32_of_int h) in
        (Z.min in_width (f32_to_int (f32_mul (f32_of_int in_height) requested_aspect)),
         Z.min in_height (f32_to_int (f32_div (f32_of_int in_width) requested_aspect)))
  end.

(** Frames are counted, and so are changes of the size. *)
Definition count_frame (scale : Fraction) (out_width out_height : Z) (a : VideoAdapter) : VideoAdapter :=
  let a := a <| frames_out_ := s32 (frames_out_ a + 1) |> in
  let a := if numerator scale =? denominator scale then a
           else a <| frames_scaled_ := s32 (frames_scaled_ a + 1) |> in
  let a := if negb (previous_width_ a =? 0)
              && (negb (previous_width_ a =? out_width) || negb (previous_height_ a =? out_height))
           then a <| adaption_changes_ := s32 (adaption_changes_ a + 1) |> else a in
  a <| previous_width_ := out_width |> <| previous_height_ := out_height |>.

(** The limits for a frame: aspect ratio and largest number of pixels. *)
Definition frame_limits (in_width in_height : Z) (a : VideoAdapter) : option (Z * Z) * Z :=
  if in_height <? in_width
  then (target_landscape_aspect_ratio_ a,
        opt_min (resolution_request_max_pixel_count_ a) (max_landscape_pixel_count_ a))
  else (target_portrait_aspect_ratio_ a,
        opt_min (resolution_request_max_pixel_count_ a) (max_portrait_pixel_count_ a)).

(** [Some (cropped_width, cropped_height, out_width, out_height)], or [None] for a
    frame that is dropped. *)
Definition AdaptFrameResolution {R} (in_width in_height in_timestamp_ns : Z)
    : stmt VideoAdapter R (option (Z * Z * Z * Z)) :=
  fn (
  modify (fun a => a <| frames_in_ := s32 (frames_in_ a + 1) |>) ;;
  let! a := get in
  let '(target_aspect_ratio, max_pixel_count) := frame_limits in_width in_height a in
  let target_pixel_count := Z.min (resolution_request_target_pixel_count_ a) max_pixel_count in
  (if max_pixel_count <=? 0 then return_ None
   else
     let '(keep, a') := KeepFrame in_timestamp_ns a in
     put a' ;;
     if keep then ret tt else return_ None) ;;
  let '(cropped_width, cropped_height) := crop target_aspect_ratio in_width in_height in
  let! scale := FindScale (s32 (cropped_width * cropped_height)) target_pixel_count max_pixel_count in
  let multiple := s32 (denominator scale * required_resolution_alignment_ a) in
  let! cropped_width := roundUp cropped_width multiple in_width in
  let! cropped_height := roundUp cropped_height multiple in_height in
  let! qw := mem (cdiv cropped_width (denominator scale)) in
  let! qh := mem (cdiv cropped_height (denominator scale)) in
  let out_width := s32 (qw * numerator scale) in
  let out_height := s32 (qh * numerator scale) in
  modify (count_frame scale out_width out_height) ;;
  ret (Some (cropped_width, cropped_height, out_width, out_height))).

(** ** Requests *)

Definition OnOutputFormatRequest
    (target_landscape_aspect_ratio : option (Z * Z)) (max_landscape_pixel_count : option Z)
    (target_portrait_aspect_ratio : option (Z * Z)) (max_portrait_pixel_count : option Z)
    (max_fps : option Z) (a : VideoAdapter) : VideoAdapter :=
  a <| target_landscape_aspect_ratio_ := target_landscape_aspect_ratio |>
    <| max_landscape_pixel_count_ := max_landscape_pixel_count |>
    <| target_portrait_aspect_ratio_ := target_portrait_aspect_ratio |>
    <| max_portrait_pixel_count_ := max_portrait_pixel_count |>
    <| max_fps_ := max_fps |>
    <| next_frame_timestamp_ns_ := None |>.

(** The variant with one aspect ratio for both orientations. *)
Definition OnOutputFormatRequest_aspect
    (target_aspect_ratio : option (Z * Z)) (max_pixel_count max_fps : option Z) (a : VideoAdapter)
    : VideoAdapter :=
  let '(landscape, portrait) :=
    match target_aspect_ratio with
    | Some (w, h) =>
        if (0 <? w) && (0 <? h)
        then (Some (Z.max w h, Z.min w h), Some (Z.min w h, Z.max w h)) else (None, None)
    | None => (None, None)
    end in
  OnOutputFormatRequest landscape max_pixel_count portrait max_pixel_count max_fps a.

(** The variant for a format: width, height and the interval between frames. *)
Definition OnOutputFormatRequest_format (format : option (Z * Z * Z)) (a : VideoAdapter) : VideoAdapter :=
  match format with
  | Some (w, h, interval) =>
      OnOutputFormatRequest_aspect (Some (w, h)) (Some (s32 (w * h)))
        (if 0 <? interval then Some (s32 (Z.quot kNumNanosecsPerSec interval)) else None) a
  | None => OnOutputFormatRequest_aspect None None None a
  end.

Definition OnResolutionFramerateRequest (target_pixel_count : option Z)
    (max_pixel_count max_framerate_fps : Z) (a : VideoAdapter) : VideoAdapter :=
  a <| resolution_request_max_pixel_count_ := max_pixel_count |>
    <| resolution_request_target_pixel_count_ := default max_pixel_count target_pixel_count |>
    <| max_framerate_request_ := max_framerate_fps |>.

Lemma abs32_id z : - 2 ^ 31 < z < 2 ^ 31 -> abs32 (s32 z) = Z.abs z.
Proof. intros Hz. unfold abs32. rewrite (s32_id z) by clia. apply s32_id. clia. Qed.

(** ** The series of scale factors *)

(** 1, 3/4, 1/2, 3/8, 1/4, ... *)
Definition series (k : nat) : Fraction :=
  if Nat.even k then mkFraction 1 (2 ^ Z.of_nat (Nat.div2 k))
  else mkFraction 3 (2 ^ (Z.of_nat (Nat.div2 k) + 2)).

(** Pixels of an input of [i] pixels scaled by factor [k]. *)
Definition pixels (i : Z) (k : nat) : Z :=
  numerator (series k) * numerator (series k) * i / (denominator (series k) * denominator (series k)).

Lemma series_even j : series (2 * j) = mkFraction 1 (2 ^ Z.of_nat j).
Proof. unfold series. by rewrite Nat.even_mul, Nat.div2_double. Qed.

Lemma series_odd j : series (2 * j + 1) = mkFraction 3 (2 ^ (Z.of_nat j + 2)).
Proof.
  unfold series. rewrite Nat.even_add, Nat.even_mul. cbn [Nat.even negb orb eqb].
  by rewrite Nat.add_1_r, Nat.div2_succ_double.
Qed.

Lemma even_odd (k : nat) : exists j : nat, (k = 2 * j \/ k = 2 * j + 1)%nat.
Proof. exists (Nat.div2 k). pose proof (Nat.div2_odd k). destruct (Nat.odd k); cbn in *; lia. Qed.

Lemma pow2_sq j : 2 ^ Z.of_nat j * 2 ^ Z.of_nat j = 4 ^ Z.of_nat j.
Proof. rewrite <- Z.pow_mul_l. reflexivity. Qed.

Lemma pixels_even i j : pixels i (2 * j) = i / 4 ^ Z.of_nat j.
Proof. unfold pixels. rewrite series_even. cbn [numerator denominator]. rewrite pow2_sq. f_equal. lia. Qed.

Lemma pixels_odd i j : pixels i (2 * j + 1) = 9 * i / (16 * 4 ^ Z.of_nat j).
Proof.
  unfold pixels. rewrite series_odd. cbn [numerator denominator].
  rewrite Z.pow_add_r, <- (pow2_sq j) by lia. f_equal. lia.
Qed.

Lemma pixels_0 i : pixels i 0 = i.
Proof. change 0%nat with (2 * 0)%nat. rewrite pixels_even. apply Z.div_1_r. Qed.

(** The series decreases. *)
Lemma pixels_step i k : 0 <= i -> pixels i (k + 1) <= pixels i k.
Proof.
  intros Hi. destruct (even_odd k) as [j [->| ->]].
  - rewrite pixels_odd, pixels_even. set (p := 4 ^ Z.of_nat j). assert (0 < p) by (apply Z.pow_pos_nonneg; lia).
    rewrite <- (Z.div_mul_cancel_l i p 16) by lia. apply Z.div_le_mono; lia.
  - rewrite pixels_odd. replace (2 * j + 1 + 1)%nat with (2 * (j + 1))%nat by lia.
    rewrite pixels_even, Nat2Z.inj_add, Z.pow_add_r by lia. change (4 ^ Z.of_nat 1) with 4.
    set (p := 4 ^ Z.of_nat j). assert (0 < p) by (apply Z.pow_pos_nonneg; lia).
    rewrite <- (Z.div_mul_cancel_l i (p * 4) 4) by lia.
    replace (4 * (p * 4)) with (16 * p) by lia. apply Z.div_le_mono; lia.
Qed.

Lemma pixels_mono i k k' : 0 <= i -> (k <= k')%nat -> pixels i k' <= pixels i k.
Proof.
  intros Hi Hk. induction Hk as [|k' _ IH]; [lia|].
  pose proof (pixels_step i k' Hi). rewrite Nat.add_1_r in *. lia.
Qed.

(** 27 factors are enough for 2^26 pixels. *)
Lemma pixels_end i : 0 <= i <= 2 ^ 26 -> pixels i 26 <= 1.
Proof.
  intros Hi. change 26%nat with (2 * 13)%nat. rewrite pixels_even. apply Z.lt_succ_r, Z.div_lt_upper_bound; [done|].
  change (4 ^ Z.of_nat 13) with (2 ^ 26). lia.
Qed.

(** Facts on the factors that are used, by computation. *)
Definition series_check (k : nat) : bool :=
  (denominator (next_scale (series k)) =? denominator (series (k + 1)))
  && (numerator (next_scale (series k)) =? numerator (series (k + 1)))
  && ((numerator (series k) =? 1) || (numerator (series k) =? 3))
  && (1 <=? denominator (series k)) && (denominator (series k) <=? 2 ^ 14).

Lemma series_facts k : (k <= 26)%nat ->
  next_scale (series k) = series (k + 1)
  /\ (numerator (series k) = 1 \/ numerator (series k) = 3) /\ 1 <= denominator (series k) <= 2 ^ 14.
Proof.
  intros Hk. assert (series_check k = true) as E.
  { assert (forallb series_check (seq 0 27) = true) as Ha by (vm_compute; reflexivity).
    rewrite forallb_forall in Ha. apply Ha, in_seq. lia. }
  unfold series_check in E. rewrite !andb_true_iff, orb_true_iff, !Z.eqb_eq, !Z.leb_le in E.
  split; [|lia]. destruct (next_scale (series k)), (series (k + 1)). cbn in E. f_equal; lia.
Qed.

Lemma scale_pixel_count_series {S R} i k (s : S) :
  0 <= i <= 2 ^ 26 -> (k <= 26)%nat ->
  scale_pixel_count (R:=R) (series k) i s = Next (pixels i k) s.
Proof.
  intros Hi Hk. destruct (series_facts k Hk) as (_ & Hn & Hd). unfold scale_pixel_count, pixels.
  change (2 ^ 26) with 67108864 in Hi. change (2 ^ 14) with 16384 in Hd.
  rewrite (s32_id (denominator _ * _)) by (widths; nia).
  rewrite s32_id by (destruct Hn as [-> | ->]; widths; lia).
  rewrite cdiv_pos by (try nia; destruct Hn as [-> | ->]; lia). reflexivity.
Qed.

(** ** The loop *)

Section Loop.
Context (i target max : Z).
Context (Hi : 0 <= i <= 2 ^ 26) (Ht : 1 <= target) (Hm : target <= max) (Hti : target < i).

(** The best factor among the first [k + 1], if one respects the maximum. *)
Definition best_so_far (k : nat) (best : Fraction) (diff : Z) : Prop :=
  (diff = INT_MAX /\ forall j, (j <= k)%nat -> max < pixels i j)
  \/ (exists b, best = series b /\ (b <= k)%nat /\ pixels i b <= max
      /\ diff = Z.abs (target - pixels i b)
      /\ forall j, (j <= k)%nat -> pixels i j <= max -> diff <= Z.abs (target - pixels i j)).

Lemma pixels_bound k : 0 <= pixels i k <= i.
Proof.
  split; [|by rewrite <- (pixels_0 i) at 2; apply pixels_mono; lia].
  destruct (even_odd k) as [j [->| ->]]; rewrite ?pixels_even, ?pixels_odd; apply Z.div_pos;
    try lia; pose proof (Z.pow_pos_nonneg 4 (Z.of_nat j)); lia.
Qed.

Lemma best_next k best diff :
  best_so_far k best diff ->
  let p := pixels i (k + 1) in
  let d := abs32 (s32 (target - p)) in
  if (p <=? max) && (d <? diff) then best_so_far (k + 1) (series (k + 1)) d
  else best_so_far (k + 1) best diff.
Proof.
  intros Hb p d. pose proof (pixels_bound (k + 1)) as Hp. fold p in Hp.
  change (2 ^ 26) with 67108864 in Hi.
  assert (d = Z.abs (target - p)) as Hd by (apply abs32_id; lia).
  destruct (Z.leb_spec p max) as [Hle|Hgt]; [destruct (Z.ltb_spec d diff) as [Hlt|Hge]|]; cbn [andb].
  - right. exists (k + 1)%nat. split_and!; try done. intros j Hj Hjm.
    destruct (decide (j = k + 1)%nat) as [->|Hne]; [by rewrite Hd|].
    destruct Hb as [[_ Hall]|(b & _ & _ & _ & _ & Hall)].
    + pose proof (Hall j ltac:(lia)). lia.
    + pose proof (Hall j ltac:(lia) Hjm). lia.
  - right. destruct Hb as [[-> _]|(b & -> & Hbk & Hbm & Hbd & Hall)].
    + exfalso. unfold INT_MAX in Hge. lia.
    + exists b. split_and!; try done; [lia|]. intros j Hj Hjm.
      destruct (decide (j = k + 1)%nat) as [->|Hne]; [fold p; lia|]. apply Hall; [lia|done].
  - destruct Hb as [[-> Hall]|(b & -> & Hbk & Hbm & Hbd & Hall)].
    + left. split; [done|]. intros j Hj. destruct (decide (j = k + 1)%nat) as [->|Hne]; [done|].
      apply Hall. lia.
    + right. exists b. split_and!; try done; [lia|]. intros j Hj Hjm.
      destruct (decide (j = k + 1)%nat) as [->|Hne]; [lia|]. apply Hall; [lia|done].
Qed.

Lemma scale_loop_spec {S R} fuel k best diff (s : S) :
  (k <= 26)%nat -> (26 - k < fuel)%nat -> best_so_far k best diff ->
  exists b, scale_loop (R:=R) fuel i target max (series k) best diff s = Next (series b) s
    /\ (b <= 26)%nat /\ pixels i b <= max
    /\ forall j, pixels i j <= max -> Z.abs (target - pixels i b) <= Z.abs (target - pixels i j).
Proof.
  revert k best diff. induction fuel as [|fuel IH]; intros k best diff Hk Hf Hb; [lia|].
  cbn [scale_loop]. rewrite (bind_Next _ _ _ _ _ (scale_pixel_count_series i k s Hi Hk)).
  destruct (Z.ltb_spec target (pixels i k)) as [Hgo|Hstop].
  - assert (k <= 25)%nat as Hk'.
    { destruct (decide (k = 26)%nat) as [->|]; [|lia]. pose proof (pixels_end i Hi). lia. }
    cbv zeta. destruct (series_facts k Hk) as [-> _].
    rewrite (bind_Next _ _ _ _ _ (scale_pixel_count_series i (k + 1) s Hi ltac:(lia))).
    pose proof (best_next k best diff Hb) as Hn. cbv zeta in Hn.
    destruct (_ && _); apply IH; done || lia.
  - destruct Hb as [[_ Hall]|(b & -> & Hbk & Hbm & -> & Hall)].
    { pose proof (Hall k ltac:(lia)). lia. }
    exists b. split; [reflexivity|]. split; [lia|]. split; [done|]. intros j Hj.
    destruct (decide (j <= k)%nat) as [Hle|Hgt]; [by apply Hall|].
    pose proof (Hall k ltac:(lia) ltac:(lia)) as Hkk.
    pose proof (pixels_mono i k j ltac:(lia) ltac:(lia)). lia.
Qed.
End Loop.

(** The factor of [FindScale] respects the maximum and comes closest to the target
    among all factors of the series that do. *)
Lemma FindScale_best {S R} i target max (s : S) :
  0 <= i <= 2 ^ 26 -> 1 <= target <= max ->
  exists b, FindScale (R:=R) i target max s = Next (series b) s /\ (b <= 26)%nat /\ pixels i b <= max
    /\ forall j, pixels i j <= max -> Z.abs (target - pixels i b) <= Z.abs (target - pixels i j).
Proof.
  intros Hi [Ht Hm]. unfold FindScale. destruct (Z.leb_spec i target) as [Hle|Hgt].
  - exists 0%nat. split; [reflexivity|]. split; [lia|].
    pose proof (pixels_0 i) as E0. rewrite E0.
    split; [lia|]. intros j _. pose proof (pixels_mono i 0 j ltac:(lia) ltac:(lia)). lia.
  - apply (scale_loop_spec i target max Hi Ht Hm Hgt 40 0); [lia..|].
    pose proof (pixels_0 i) as E0.
    destruct (Z.leb_spec i max) as [Him|Him].
    + right. exists 0%nat. change (2 ^ 26) with 67108864 in Hi.
      rewrite E0, abs32_id by lia. split_and!; try done; [lia|]. intros j Hj _.
      assert (j = 0)%nat as -> by lia. rewrite E0. lia.
    + left. split; [done|]. intros j Hj. assert (j = 0)%nat as -> by lia. by rewrite E0.
Qed.

(** ** Frames without a requested aspect ratio *)

Lemma roundUp_full {S R} w m (s : S) :
  0 <= w <= 2 ^ 26 -> 1 <= m <= 2 ^ 30 ->
  roundUp (R:=R) w m w s = Next (w / m * m) s.
Proof.
  intros Hw Hm. change (2 ^ 26) with 67108864 in Hw. change (2 ^ 30) with 1073741824 in Hm. unfold roundUp.
  assert (0 <= w / m * m <= w) as Hf by (split; [apply Z.mul_nonneg_nonneg; [apply Z.div_pos|]|
    rewrite Z.mul_comm; apply Z.mul_div_le]; lia).
  rewrite s32_id by clia. rewrite !cdiv_pos by lia. cbv beta iota zeta delta [bind mem ret].
  set (q := (w + m - 1) / m). assert (m * q <= w + m - 1) by (apply Z.mul_div_le; lia).
  assert (0 <= q) by (apply Z.div_pos; lia). rewrite !s32_id by (widths; nia).
  f_equal. destruct (Z.leb_spec (q * m) w) as [Hq|Hq]; [|done].
  f_equal. apply Z.le_antisymm.
  - apply Z.div_le_lower_bound; lia.
  - apply Z.div_le_mono; lia.
Qed.

(** What the adapter promises for a frame of [w] x [h] pixels: which part of it is
    used, to which size it is scaled, for a target and a maximum number of pixels. *)
Definition adapted (align w h target max : Z) (r : Z * Z * Z * Z) : Prop :=
  let '(cw, ch, ow, oh) := r in
  exists b : nat,
    let n := numerator (series b) in
    let d := denominator (series b) in
    (* less than one scaled and aligned step is cut off *)
    w - d * align < cw <= w /\ h - d * align < ch <= h
    (* the scale is exact and the size aligned *)
    /\ ow * d = cw * n /\ oh * d = ch * n /\ (align | ow) /\ (align | oh)
    (* the output respects the maximum *)
    /\ 0 <= ow * oh <= max
    (* and no other factor that does comes closer to the target *)
    /\ pixels (w * h) b <= max
    /\ forall j, pixels (w * h) j <= max ->
         Z.abs (target - pixels (w * h) b) <= Z.abs (target - pixels (w * h) j).

(** The size of one side. *)
Lemma side_size w m d al n :
  0 <= w -> 1 <= d -> 1 <= al -> 1 <= n -> m = d * al ->
  w / m * m / d = w / m * al /\ w - m < w / m * m <= w
  /\ w / m * m / d * n * d = w / m * m * n /\ (al | w / m * m / d * n)
  /\ 0 <= w / m * m / d * n * d <= w * n.
Proof.
  intros Hw Hd Hal Hn ->. set (q := w / (d * al)).
  assert (0 <= q) by (apply Z.div_pos; nia).
  pose proof (Z.mul_div_le w (d * al) ltac:(nia)). pose proof (Z.mul_succ_div_gt w (d * al) ltac:(nia)).
  fold q in H0, H1.
  assert (q * (d * al) / d = q * al) as E
    by (replace (q * (d * al)) with (q * al * d) by lia; apply Z.div_mul; lia).
  rewrite E. split_and!; try nia. exists (q * n). lia.
Qed.

(** Two sides of a scaled frame have at most the scaled number of pixels. *)
Lemma area_bound w h n d ow oh :
  0 <= w -> 0 <= h -> 1 <= d -> 0 <= ow * d <= w * n -> 0 <= oh * d <= h * n ->
  ow * oh <= n * n * (w * h) / (d * d).
Proof.
  intros. apply Z.div_le_lower_bound; [nia|].
  replace (d * d * (ow * oh)) with ((ow * d) * (oh * d)) by lia.
  replace (n * n * (w * h)) with ((w * n) * (h * n)) by lia. apply Z.mul_le_mono_nonneg; lia.
Qed.

Section Frame.
Context (w h t al target max : Z) (a : VideoAdapter).
Context (Hw : 1 <= w) (Hh : 1 <= h) (Hwh : w * h <= 2 ^ 26).
Context (Hal : required_resolution_alignment_ a = al) (Hal1 : 1 <= al <= 2 ^ 16).
Context (Hlim : frame_limits w h a = (None, max)).
Context (Htgt : target = Z.min (resolution_request_target_pixel_count_ a) max).

Lemma frame_limits_count : frame_limits w h (a <| frames_in_ := s32 (frames_in_ a + 1) |>) = (None, max).
Proof. exact Hlim. Qed.

Lemma adapt_keep {R} a' :
  1 <= target ->
  KeepFrame t (a <| frames_in_ := s32 (frames_in_ a + 1) |>) = (true, a') ->
  exists r scale, AdaptFrameResolution (R:=R) w h t a
      = Next (Some r) (count_frame scale (r.1.2) (r.2) a') /\ adapted al w h target max r.
Proof.
  intros Ht Hkeep. change (2 ^ 26) with 67108864 in Hwh. change (2 ^ 16) with 65536 in Hal1.
  destruct (FindScale_best (S:=VideoAdapter) (R:=option (Z * Z * Z * Z)) (w * h) target max a')
    as (b & Hscale & Hb & Hmax & Hbest); [nia|lia|].
  destruct (series_facts b Hb) as (_ & Hn & Hd). change (2 ^ 14) with 16384 in Hd.
  set (n := numerator (series b)) in *. set (d := denominator (series b)) in *.
  destruct (side_size w (d * al) d al n) as (Ew & Hcw & Hsw & Haw & Hlw); [nia..|].
  destruct (side_size h (d * al) d al n) as (Eh & Hch & Hsh & Hah & Hlh); [nia..|].
  exists (w / (d * al) * (d * al), h / (d * al) * (d * al),
     w / (d * al) * (d * al) / d * n, h / (d * al) * (d * al) / d * n), (series b). split.
  - unfold AdaptFrameResolution. apply fn_Next.
    rewrite (bind_Next (modify _) _ _ _ _ eq_refl), bind_get, frame_limits_count. cbv beta iota zeta.
    rewrite (proj2 (Z.leb_gt max 0)), Hkeep by lia. cbv beta iota.
    erewrite (bind_Next _ _ _ tt a') by reflexivity. cbn [crop].
    change (resolution_request_target_pixel_count_ (a <| frames_in_ := s32 (frames_in_ a + 1) |>))
      with (resolution_request_target_pixel_count_ a).
    change (required_resolution_alignment_ (a <| frames_in_ := s32 (frames_in_ a + 1) |>))
      with (required_resolution_alignment_ a).
    rewrite (s32_id (w * h)), <- Htgt, Hal by (widths; nia).
    rewrite (bind_Next _ _ _ _ _ Hscale). cbv zeta. fold n d. rewrite (s32_id (d * al)) by (widths; nia).
    rewrite (bind_Next _ _ _ _ _ (roundUp_full w (d * al) a' ltac:(nia) ltac:(nia))).
    rewrite (bind_Next _ _ _ _ _ (roundUp_full h (d * al) a' ltac:(nia) ltac:(nia))).
    rewrite !cdiv_pos by nia. cbn [fst snd].
    rewrite (bind_mem _ _ _ _ eq_refl), (bind_mem _ _ _ _ eq_refl).
    rewrite !s32_id by (widths; nia). reflexivity.
  - exists b. fold n d. split_and!; try done; try lia.
    transitivity (pixels (w * h) b); [|done]. apply area_bound; lia.
Qed.

Lemma adapt_drop {R} :
  (max <= 0 -> AdaptFrameResolution (R:=R) w h t a
     = Next None (a <| frames_in_ := s32 (frames_in_ a + 1) |>))
  /\ (forall a', 0 < max -> KeepFrame t (a <| frames_in_ := s32 (frames_in_ a + 1) |>) = (false, a') ->
      AdaptFrameResolution (R:=R) w h t a = Next None a').
Proof.
  split; [intros Hm|intros a' Hm Hk]; unfold AdaptFrameResolution; apply fn_Return;
    rewrite (bind_Next (modify _) _ _ _ _ eq_refl), bind_get, frame_limits_count; cbv beta iota zeta.
  - by rewrite (proj2 (Z.leb_le max 0)).
  - by rewrite (proj2 (Z.leb_gt max 0)), Hk by lia.
Qed.
End Frame.

(** C28. A frame of at most 2^26 pixels, when no aspect ratio is requested, is dropped
    exactly when the maximum number of pixels is not positive or the frame rate is
    exceeded. Otherwise the adapter terminates without a division by zero; less than one
    aligned step of each side is cut off, the output is an exact multiple of 1, 3/4,
    1/2, 3/8, ... of the cropped frame, aligned, at most as large as the maximum, and
    the factor is the one that comes closest to the target. *)
Theorem adapt_frame {R} w h t al max (a : VideoAdapter) :
  1 <= w -> 1 <= h -> w * h <= 2 ^ 26 ->
  required_resolution_alignment_ a = al -> 1 <= al <= 2 ^ 16 ->
  frame_limits w h a = (None, max) -> 1 <= resolution_request_target_pixel_count_ a ->
  let a1 := a <| frames_in_ := s32 (frames_in_ a + 1) |> in
  let target := Z.min (resolution_request_target_pixel_count_ a) max in
  (max <= 0 -> AdaptFrameResolution (R:=R) w h t a = Next None a1)
  /\ (0 < max -> forall a2, KeepFrame t a1 = (false, a2) ->
      AdaptFrameResolution (R:=R) w h t a = Next None a2)
  /\ (0 < max -> forall a2, KeepFrame t a1 = (true, a2) ->
      exists r scale, AdaptFrameResolution (R:=R) w h t a
          = Next (Some r) (count_frame scale (r.1.2) (r.2) a2)
        /\ adapted al w h target max r).
Proof.
  intros Hw Hh Hwh Hal Hal1 Hlim Ht a1 target.
  destruct (adapt_drop (R:=R) w h t max a Hlim) as [Hd Hd'].
  split; [exact Hd|]. split; [intros Hm a2 Hk; by apply Hd'|]. intros Hm a2 Hk.
  by apply (adapt_keep w h t al target max a Hw Hh Hwh Hal Hal1 Hlim eq_refl); [unfold target; lia|].
Qed.

(** 1280x720 with at most 640 * 480 pixels. *)
Lemma adapt_frame_witness :
  let a := OnResolutionFramerateRequest None (640 * 480) 30 (new_VideoAdapter 1) in
  exists r scale a2, AdaptFrameResolution (R:=unit) 1280 720 0 a
      = Next (Some r) (count_frame scale (r.1.2) (r.2) a2)
    /\ adapted 1 1280 720 (640 * 480) (640 * 480) r.
Proof.
  intros a. pose proof (adapt_frame (R:=unit) 1280 720 0 1 (640 * 480) a ltac:(lia) ltac:(lia)
    ltac:(lia) eq_refl ltac:(lia) eq_refl ltac:(cbn; lia)) as (_ & _ & H).
  destruct (H ltac:(lia) _ eq_refl) as (r & scale & H'). exists r, scale. eexists. exact H'.
Defined.

(** With an aspect ratio the size can exceed the maximum, because the sides are rounded
    up after the factor has been chosen: 650x480 cropped to 641:480, with at most
    173100 pixels, comes out as 483x360, 173880 pixels. *)
Theorem aspect_exceeds_maximum :
  let a := OnOutputFormatRequest_aspect (Some (641, 480)) (Some 173100) None (new_VideoAdapter 1) in
  frame_limits 650 480 a = (Some (641, 480), 173100)
  /\ (exists a', AdaptFrameResolution (R:=unit) 650 480 0 a = Next (Some (644, 480, 483, 360)) a')
  /\ 173100 < 483 * 360.
Proof.
  split; [vm_compute; reflexivity|]. split; [|lia].
  eexists. vm_compute. reflexivity.
Qed.

(** ** The frame rate *)

(** The time stamps of the frames that are kept. *)
Fixpoint keep_frames (ts : list Z) (a : VideoAdapter) : list Z :=
  match ts with
  | [] => []
  | t :: ts =>
      let '(keep, a') := KeepFrame t a in
      if keep then t :: keep_frames ts a' else keep_frames ts a'
  end.

Definition fps_limit (a : VideoAdapter) : Z := opt_min (max_framerate_request_ a) (max_fps_ a).

Section Rate.
Context (f I : Z) (Hf : 1 <= f) (HI : I = kNumNanosecsPerSec / f) (HI1 : 1 <= I).

Lemma interval_small : I <= 10 ^ 9.
Proof. rewrite HI. unfold kNumNanosecsPerSec. apply Z.div_le_upper_bound; lia. Qed.

Lemma KeepFrame_interval t a : fps_limit a = f -> KeepFrame t a = keep_at I t a.
Proof.
  intros Ha. unfold KeepFrame. fold (fps_limit a). rewrite Ha, (proj2 (Z.leb_gt f 0)) by lia. cbv zeta.
  rewrite Z.quot_div_nonneg, <- HI, (proj2 (Z.leb_gt I 0)) by (unfold kNumNanosecsPerSec; lia). done.
Qed.

(** Time stamps are not negative and do not overflow. *)
Definition in_time (t : Z) : Prop := 0 <= t <= 2 ^ 62.

Lemma keep_first t a :
  fps_limit a = f -> next_frame_timestamp_ns_ a = None -> in_time t ->
  KeepFrame t a = (true, a <| next_frame_timestamp_ns_ := Some (t + I / 2) |>).
Proof.
  intros Ha Hn Ht. rewrite KeepFrame_interval by done. unfold keep_at. rewrite Hn.
  pose proof interval_small. unfold in_time in Ht.
  rewrite Z.quot_div_nonneg by lia. rewrite s64_id by (Z.div_mod_to_equations; lia). done.
Qed.

(** After the first frame: the frame is kept from the planned time on, and the next one is
    planned an interval later, or half an interval after this one when it is late. *)
Lemma keep_next t n prev a :
  fps_limit a = f -> next_frame_timestamp_ns_ a = Some n -> in_time prev -> 0 <= n <= prev + I ->
  prev <= t -> in_time t ->
  KeepFrame t a =
    if t <? n then (false, a)
    else (true, a <| next_frame_timestamp_ns_ := Some (if t - n <? 2 * I then n + I else t + I / 2) |>).
Proof.
  intros Ha Hn Hp Hb Hpt Ht. rewrite KeepFrame_interval by done. unfold keep_at. rewrite Hn.
  pose proof interval_small. unfold in_time in Ht, Hp. cbv zeta. unfold abs64.
  rewrite Z.quot_div_nonneg, !(s64_id (n - t)), (s64_id (Z.abs _)), (s64_id (2 * I)), (s64_id (n + I)),
    (s64_id (t + _)) by (Z.div_mod_to_equations; lia).
  destruct (Z.ltb_spec t n); destruct (Z.ltb_spec (t - n) (2 * I)); destruct (Z.ltb_spec (Z.abs (n - t)) (2 * I));
    destruct (Z.ltb_spec 0 (n - t)); done || lia.
Qed.

(** The planned time stays within an interval of the last frame, and moves by an interval with every
    frame that is kept. *)
Lemma keep_rate_from ts T : forall a n prev,
  fps_limit a = f -> next_frame_timestamp_ns_ a = Some n -> in_time prev -> 0 <= n <= prev + I ->
  Sorted Z.le (prev :: ts) -> Forall (fun t => t <= T) ts -> T <= 2 ^ 62 ->
  let k := Z.of_nat (length (keep_frames ts a)) in
  1 <= k -> n + (k - 1) * I <= T.
Proof.
  induction ts as [|t ts IH]; intros a n prev Ha Hn Hp Hb Hs HT Hmax k Hk; [cbn in k; lia|].
  inversion Hs as [|? ? Hs' Hr]; inversion Hr; inversion HT; subst x l.
  assert (in_time t) as Ht by (unfold in_time in *; lia).
  unfold k in *. cbn [keep_frames] in *. rewrite (keep_next t n prev a) in * by done.
  destruct (Z.ltb_spec t n) as [Hlt|Hge].
  - apply (IH a n t); done || lia.
  - set (n' := if t - n <? 2 * I then n + I else t + I / 2) in *.
    assert (n + I <= n' <= t + I) as Hn'
      by (unfold n'; destruct (Z.ltb_spec (t - n) (2 * I)); Z.div_mod_to_equations; lia).
    cbn [length] in *. rewrite Nat2Z.inj_succ in *.
    set (rest := keep_frames ts _) in *. destruct (decide (1 <= Z.of_nat (length rest))) as [Hr1|Hr0]; [|lia].
    enough (n' + (Z.of_nat (length rest) - 1) * I <= T) by lia.
    apply (IH _ n' t); done || lia.
Qed.

(** Frames at least an interval apart are all kept. *)
Lemma keep_spaced_from ts : forall a n prev,
  fps_limit a = f -> next_frame_timestamp_ns_ a = Some n -> 0 <= n <= prev + I ->
  Sorted (fun t t' => t + I <= t') (prev :: ts) -> in_time prev -> Forall in_time ts ->
  keep_frames ts a = ts.
Proof.
  induction ts as [|t ts IH]; intros a n prev Ha Hn Hb Hs Hp HT; [done|].
  inversion Hs as [|? ? Hs' Hr]; inversion Hr; inversion HT; subst x l.
  cbn [keep_frames]. rewrite (keep_next t n prev a) by (done || lia).
  rewrite (proj2 (Z.ltb_ge t n)) by lia. f_equal.
  set (n' := if t - n <? 2 * I then n + I else t + I / 2) in *.
  apply (IH _ n' t); try done.
  unfold n'; destruct (Z.ltb_spec (t - n) (2 * I)); Z.div_mod_to_equations; lia.
Qed.
End Rate.

(** The frame rate limit, for time stamps that do not decrease, after a format request:
    with a limit of [f] frames per second a frame interval is [I = 10^9 / f] nanoseconds. The first
    frame is kept, and the [k] frames kept after it span at least [k - 1/2] intervals
    from it. Frames that are an interval or more apart are all kept. *)
Theorem keep_frame_rate (f t0 T : Z) (ts : list Z) (a : VideoAdapter) :
  let I := kNumNanosecsPerSec / f in
  1 <= f <= kNumNanosecsPerSec -> fps_limit a = f -> next_frame_timestamp_ns_ a = None ->
  0 <= t0 -> Sorted Z.le (t0 :: ts) -> Forall (fun t => t <= T) (t0 :: ts) -> T <= 2 ^ 62 ->
  (exists rest, keep_frames (t0 :: ts) a = t0 :: rest
     /\ (rest <> [] -> I / 2 + (Z.of_nat (length rest) - 1) * I <= T - t0))
  /\ (Sorted (fun t t' => t + I <= t') (t0 :: ts) -> keep_frames (t0 :: ts) a = t0 :: ts).
Proof.
  intros I Hf Ha Hn Ht0 Hs HT Hmax.
  assert (1 <= I) as HI by (apply Z.div_le_lower_bound; lia).
  assert (Forall in_time (t0 :: ts)) as Hin.
  { apply Sorted_StronglySorted in Hs; [|intros x y z; lia]. inversion Hs as [|? ? _ Hall]; subst.
    inversion HT as [|? ? HT0 HT']; subst. constructor; [unfold in_time; lia|].
    eapply Forall_impl; [|exact (Forall_and Hall HT')].
    intros t [Hl Hu]. cbn in Hl, Hu. unfold in_time. lia. }
  inversion Hin as [|? ? Hin0 Hin']; inversion HT as [|? ? _ HT']; subst.
  pose proof (keep_first (fps_limit a) I ltac:(lia) eq_refl HI t0 a eq_refl Hn Hin0) as E.
  set (a' := a <| next_frame_timestamp_ns_ := Some (t0 + I / 2) |>) in E.
  assert (0 <= t0 + I / 2 <= t0 + I) as Hb by (Z.div_mod_to_equations; lia).
  cbn [keep_frames]. rewrite E. split.
  - exists (keep_frames ts a'). split; [done|]. intros Hne.
    pose proof (keep_rate_from (fps_limit a) I ltac:(lia) eq_refl HI ts T a' (t0 + I / 2) t0
      eq_refl eq_refl Hin0 Hb Hs HT' Hmax) as H. cbv zeta in H.
    destruct (keep_frames ts a'); [done|]. cbn [length] in *. lia.
  - intros Hsp. f_equal. by apply (keep_spaced_from (fps_limit a) I ltac:(lia) eq_refl HI ts a' (t0 + I / 2) t0).
Qed.

(** Ten frames a second, with frames every 60 milliseconds. *)
Lemma keep_frame_rate_witness :
  let a := OnResolutionFramerateRequest None INT_MAX 10 (new_VideoAdapter 1) in
  keep_frames [0; 60000000; 120000000; 180000000; 240000000] a = [0; 60000000; 180000000]
  /\ kNumNanosecsPerSec / 10 / 2 + (2 - 1) * (kNumNanosecsPerSec / 10) <= 240000000 - 0.
Proof.
  intros a. pose proof (keep_frame_rate 10 0 240000000 [60000000; 120000000; 180000000; 240000000] a) as H.
  cbv zeta in H. destruct H as [(rest & Hr & H) _];
    [unfold kNumNanosecsPerSec; lia|reflexivity|reflexivity|lia|repeat constructor; lia
    |repeat constructor; lia|lia|].
  assert (keep_frames [0; 60000000; 120000000; 180000000; 240000000] a = [0; 60000000; 180000000]) as E
    by (vm_compute; reflexivity).
  rewrite E in Hr. injection Hr as <-. split; [exact E|]. exact (H ltac:(discriminate)).
Defined.
