(* ===== verification/VcCapture.v ===== *)
(** * Chat client: the capturer and its sinks

    Models [peer_connection/video_capturer.cpp] with the broadcaster it owns
    ([webrtc/media/base/video_broadcaster.cc] over [video_source_base.cc]) and the
    adapter of [VcAdapter]. A sink is known by its address; calling
    [OnFrame] or [OnDiscardedFrame] of a sink is an event in the order of the calls.
    The lock of the broadcaster makes its methods atomic. The pixels are of a type
    [Data] whose scaling and blackening, done by libyuv, are the class [Pixels]. *)

From stdpp Require Import relations.
From S2P Require Import Prelude VcRenderer VcAdapter.

Open Scope c_scope.

(** ** Frames *)

Class Pixels (Data : Type) := {
  (** [I420Rect] with black, for a width and a height. *)
  black_data : Z -> Z -> Data;
  (** [I420Scale] from a width and a height to another. *)
  I420Scale : Z -> Z -> Data -> Z -> Z -> Data;
}.

Record I420Buffer Data := mkBuffer { buf_width : Z; buf_height : Z; buf_data : Data }.
Arguments mkBuffer {Data}.
Arguments buf_width {Data}.
Arguments buf_height {Data}.
Arguments buf_data {Data}.

(** Offsets and size of the part that differs from the previous frame. *)
Record UpdateRect := mkRect { offset_x : Z; offset_y : Z; rect_width : Z; rect_height : Z }.

#[export] Instance UpdateRect_eq_dec : EqDecision UpdateRect.
Proof. solve_decision. Defined.

(** A frame; its RTP and NTP times and its color space are left out. *)
Record MediaFrame Data := mkMedia {
  video_frame_buffer : I420Buffer Data;
  rotation : VideoRotation;
  timestamp_us : Z;
  id : Z;
  update_rect : UpdateRect;
}.
Arguments mkMedia {Data}.
Arguments video_frame_buffer {Data}.
Arguments rotation {Data}.
Arguments timestamp_us {Data}.
Arguments id {Data}.
Arguments update_rect {Data}.

Definition width {Data} (f : MediaFrame Data) : Z := buf_width (video_frame_buffer f).
Definition height {Data} (f : MediaFrame Data) : Z := buf_height (video_frame_buffer f).

(** The whole picture has changed; also what the builder sets. *)
Definition full_rect (w h : Z) : UpdateRect := mkRect 0 0 w h.

Definition build {Data} (buffer : I420Buffer Data) (rot : VideoRotation) (us id : Z) : MediaFrame Data :=
  mkMedia buffer rot us id (full_rect (buf_width buffer) (buf_height buffer)).

Definition set_update_rect {Data} (r : UpdateRect) (f : MediaFrame Data) : MediaFrame Data :=
  mkMedia (video_frame_buffer f) (rotation f) (timestamp_us f) (id f) r.

(** A new buffer with the scaled content of another one. *)
Definition ScaleFrom `{Pixels Data} (w h : Z) (src : I420Buffer Data) : I420Buffer Data :=
  mkBuffer w h (I420Scale (buf_width src) (buf_height src) (buf_data src) w h).

(** ** The broadcaster *)

Record VideoSinkWants := mkWants {
  rotation_applied : bool;
  black_frames : bool;
  max_pixel_count : Z;
  target_pixel_count : option Z;
  max_framerate_fps : Z;
}.

Definition default_wants : VideoSinkWants := mkWants false false INT_MAX None INT_MAX.

Record SinkPair := mkPair { sink : Z; wants : VideoSinkWants }.

Record VideoBroadcaster Data := mkBroadcaster {
  sinks_ : list SinkPair;
  current_wants_ : VideoSinkWants;
  black_frame_buffer_ : option (I420Buffer Data);
  previous_frame_sent_to_all_sinks_ : bool;
}.
Arguments mkBroadcaster {Data}.
Arguments sinks_ {Data}.
Arguments current_wants_ {Data}.
Arguments black_frame_buffer_ {Data}.
Arguments previous_frame_sent_to_all_sinks_ {Data}.

#[export] Instance eta_VideoBroadcaster Data : Eta (VideoBroadcaster Data) := fun b =>
  mkBroadcaster (sinks_ b) (current_wants_ b) (black_frame_buffer_ b) (previous_frame_sent_to_all_sinks_ b).

Definition new_broadcaster {Data} : VideoBroadcaster Data := mkBroadcaster [] default_wants None true.

(** Index of the pair of a sink. *)
Fixpoint FindSinkPair (s : Z) (l : list SinkPair) : option nat :=
  match l with
  | [] => None
  | p :: l => if sink p =? s then Some O else S <$> FindSinkPair s l
  end.

Definition source_AddOrUpdateSink (s : Z) (w : VideoSinkWants) (l : list SinkPair) : list SinkPair :=
  match FindSinkPair s l with
  | None => l ++ [mkPair s w]
  | Some i => alter (fun p => mkPair (sink p) w) i l
  end.

Definition source_RemoveSink (s : Z) (l : list SinkPair) : list SinkPair :=
  filter (fun p => sink p <> s) l.

(** One round of the loop of [UpdateWants]. *)
Definition add_wants (acc : VideoSinkWants) (p : SinkPair) : VideoSinkWants :=
  let w := wants p in
  mkWants (if rotation_applied w then true else rotation_applied acc) (black_frames acc)
    (if max_pixel_count w <? max_pixel_count acc then max_pixel_count w else max_pixel_count acc)
    (match target_pixel_count w, target_pixel_count acc with
     | Some t, None => Some t
     | Some t, Some t' => if t <? t' then Some t else Some t'
     | None, o => o
     end)
    (if max_framerate_fps w <? max_framerate_fps acc then max_framerate_fps w else max_framerate_fps acc).

Definition aggregate (l : list SinkPair) : VideoSinkWants :=
  let w := fold_left add_wants l default_wants in
  match target_pixel_count w with
  | Some t =>
      if max_pixel_count w <=? t
      then mkWants (rotation_applied w) (black_frames w) (max_pixel_count w) (Some (max_pixel_count w))
             (max_framerate_fps w)
      else w
  | None => w
  end.

Definition UpdateWants {Data} (b : VideoBroadcaster Data) : VideoBroadcaster Data :=
  b <| current_wants_ := aggregate (sinks_ b) |>.

Definition AddOrUpdateSink {Data} (s : Z) (w : VideoSinkWants) (b : VideoBroadcaster Data)
    : VideoBroadcaster Data :=
  let b := match FindSinkPair s (sinks_ b) with
           | None => b <| previous_frame_sent_to_all_sinks_ := false |>
           | Some _ => b
           end in
  UpdateWants (b <| sinks_ := source_AddOrUpdateSink s w (sinks_ b) |>).

Definition RemoveSink {Data} (s : Z) (b : VideoBroadcaster Data) : VideoBroadcaster Data :=
  UpdateWants (b <| sinks_ := source_RemoveSink s (sinks_ b) |>).

Definition frame_wanted {Data} (b : VideoBroadcaster Data) : bool :=
  match sinks_ b with [] => false | _ => true end.

(** The black buffer, kept while the size does not change. *)
Definition GetBlackFrameBuffer `{Pixels Data} (w h : Z) (b : VideoBroadcaster Data)
    : I420Buffer Data * VideoBroadcaster Data :=
  let fresh := mkBuffer w h (black_data w h) in
  match black_frame_buffer_ b with
  | Some buf =>
      if negb (buf_width buf =? w) || negb (buf_height buf =? h)
      then (fresh, b <| black_frame_buffer_ := Some fresh |>) else (buf, b)
  | None => (fresh, b <| black_frame_buffer_ := Some fresh |>)
  end.

(** What a sink is told. *)
Inductive event Data := OnFrame (f : MediaFrame Data) | OnDiscardedFrame.
Arguments OnFrame {Data}.
Arguments OnDiscardedFrame {Data}.

Abbreviation events Data := (list (Z * event Data)).

(** One round of the loop of [OnFrame]: the call of the sink, and whether the frame
    was discarded. *)
Definition send `{Pixels Data} (f : MediaFrame Data) (p : SinkPair) (b : VideoBroadcaster Data)
    : event Data * bool * VideoBroadcaster Data :=
  if rotation_applied (wants p) && negb (bool_decide (rotation f = kVideoRotation_0))
  then (OnDiscardedFrame, true, b)
  else if black_frames (wants p) then
    let '(buffer, b) := GetBlackFrameBuffer (width f) (height f) b in
    (OnFrame (build buffer (rotation f) (timestamp_us f) (id f)), false, b)
  else if negb (previous_frame_sent_to_all_sinks_ b) then
    (OnFrame (set_update_rect (full_rect (width f) (height f)) f), false, b)
  else (OnFrame f, false, b).

Fixpoint send_all `{Pixels Data} (f : MediaFrame Data) (l : list SinkPair) (discarded : bool)
    (b : VideoBroadcaster Data) : events Data * bool * VideoBroadcaster Data :=
  match l with
  | [] => ([], discarded, b)
  | p :: l =>
      let '(e, d, b) := send f p b in
      let '(es, discarded, b) := send_all f l (discarded || d) b in
      ((sink p, e) :: es, discarded, b)
  end.

Definition broadcast `{Pixels Data} (f : MediaFrame Data) (b : VideoBroadcaster Data)
    : events Data * VideoBroadcaster Data :=
  let '(es, discarded, b) := send_all f (sinks_ b) false b in
  (es, b <| previous_frame_sent_to_all_sinks_ := negb discarded |>).

(** [VideoBroadcaster::OnDiscardedFrame]. *)
Definition discard {Data} (b : VideoBroadcaster Data) : events Data :=
  (fun p => (sink p, OnDiscardedFrame)) <$> sinks_ b.

(** ** The capturer *)

Record TestVideoCapturer Data := mkCapturer {
  broadcaster_ : VideoBroadcaster Data;
  video_adapter_ : VideoAdapter;
}.
Arguments mkCapturer {Data}.
Arguments broadcaster_ {Data}.
Arguments video_adapter_ {Data}.

#[export] Instance eta_TestVideoCapturer Data : Eta (TestVideoCapturer Data) := fun c =>
  mkCapturer (broadcaster_ c) (video_adapter_ c).

Definition new_capturer {Data} : TestVideoCapturer Data := mkCapturer new_broadcaster (new_VideoAdapter 1).

Definition GetSinkWants {Data} (c : TestVideoCapturer Data) : VideoSinkWants :=
  current_wants_ (broadcaster_ c).

Definition UpdateVideoAdapter {Data} (c : TestVideoCapturer Data) : TestVideoCapturer Data :=
  let w := current_wants_ (broadcaster_ c) in
  c <| video_adapter_ :=
    OnResolutionFramerateRequest (target_pixel_count w) (max_pixel_count w) (max_framerate_fps w)
      (video_adapter_ c) |>.

Definition capturer_AddOrUpdateSink {Data} (s : Z) (w : VideoSinkWants) (c : TestVideoCapturer Data)
    : TestVideoCapturer Data :=
  UpdateVideoAdapter (c <| broadcaster_ := AddOrUpdateSink s w (broadcaster_ c) |>).

Definition capturer_RemoveSink {Data} (s : Z) (c : TestVideoCapturer Data) : TestVideoCapturer Data :=
  UpdateVideoAdapter (c <| broadcaster_ := RemoveSink s (broadcaster_ c) |>).

(** A call of the adapter. *)
Definition on_adapter {Data R A} (m : stmt VideoAdapter R A) : stmt (TestVideoCapturer Data) R A :=
  zoom video_adapter_ (fun a c => c <| video_adapter_ := a |>) m.

Definition capture `{Pixels Data} (f : MediaFrame Data)
    : stmt (TestVideoCapturer Data) (events Data) (events Data) :=
  let! r := on_adapter (AdaptFrameResolution (width f) (height f) (s64 (timestamp_us f * 1000))) in
  match r with
  | None => ret []
  | Some (_, _, out_width, out_height) =>
      let f' :=
        if negb (out_height =? height f) || negb (out_width =? width f)
        then build (ScaleFrom out_width out_height (video_frame_buffer f)) kVideoRotation_0
               (timestamp_us f) (id f)
        else f in
      let! c := get in
      let '(es, b) := broadcast f' (broadcaster_ c) in
      put (c <| broadcaster_ := b |>) ;;
      ret es
  end.

(** ** What the sinks want together *)

Definition list_min (d : Z) (l : list Z) : Z := foldr Z.min d l.

Definition maxima (l : list SinkPair) : list Z := (fun p => max_pixel_count (wants p)) <$> l.
Definition framerates (l : list SinkPair) : list Z := (fun p => max_framerate_fps (wants p)) <$> l.
Definition targets (l : list SinkPair) : list Z := omap (fun p => target_pixel_count (wants p)) l.

(** The wishes of all sinks: any rotation, the least maximum and frame rate, and
    the least target, if there is one, below the maximum. *)
Definition joint_wants (l : list SinkPair) : VideoSinkWants :=
  let m := list_min INT_MAX (maxima l) in
  mkWants (existsb (fun p => rotation_applied (wants p)) l) false m
    (match targets l with [] => None | t :: ts => Some (Z.min (list_min t ts) m) end)
    (list_min INT_MAX (framerates l)).

Lemma list_min_le d l x : x ∈ l -> list_min d l <= x.
Proof.
  induction l as [|y l IH]; cbn; intros Hx; [by apply not_elem_of_nil in Hx|].
  apply elem_of_cons in Hx as [->|Hx]; [lia|]. specialize (IH Hx). unfold list_min in IH. lia.
Qed.

Lemma list_min_init d l : list_min d l <= d.
Proof. induction l; cbn in *; unfold list_min in *; lia. Qed.

Lemma list_min_ge d l b : b <= d -> Forall (fun x => b <= x) l -> b <= list_min d l.
Proof. intros Hd. induction 1; cbn; unfold list_min in *; lia. Qed.

Lemma list_min_min d x l : list_min (Z.min x d) l = Z.min x (list_min d l).
Proof. induction l as [|y l IH]; cbn; unfold list_min in *; lia. Qed.

Lemma min_if x y : (if x <? y then x else y) = Z.min x y.
Proof. destruct (Z.ltb_spec x y); lia. Qed.

(** The accumulator of the target. *)
Definition join_target (o : option Z) (ts : list Z) : option Z :=
  match o, ts with
  | Some t, ts => Some (list_min t ts)
  | None, [] => None
  | None, t :: ts => Some (list_min t ts)
  end.

Lemma add_wants_min acc p :
  add_wants acc p =
    mkWants (rotation_applied (wants p) || rotation_applied acc) (black_frames acc)
      (Z.min (max_pixel_count (wants p)) (max_pixel_count acc))
      (match target_pixel_count (wants p) with
       | Some t => Some (match target_pixel_count acc with Some t' => Z.min t t' | None => t end)
       | None => target_pixel_count acc
       end)
      (Z.min (max_framerate_fps (wants p)) (max_framerate_fps acc)).
Proof.
  unfold add_wants. rewrite !min_if.
  destruct (rotation_applied (wants p)), (target_pixel_count (wants p)) as [t|], (target_pixel_count acc) as [t'|];
    try done; f_equal; destruct (Z.ltb_spec t t'); f_equal; lia.
Qed.

Lemma fold_wants l : forall acc,
  fold_left add_wants l acc =
    mkWants (rotation_applied acc || existsb (fun p => rotation_applied (wants p)) l) (black_frames acc)
      (list_min (max_pixel_count acc) (maxima l))
      (join_target (target_pixel_count acc) (targets l))
      (list_min (max_framerate_fps acc) (framerates l)).
Proof.
  induction l as [|p l IH]; intros acc.
  - destruct acc as [r bl m [t|] fps]; cbn; by rewrite orb_false_r.
  - cbn [fold_left]. rewrite IH, add_wants_min. cbn [rotation_applied black_frames max_pixel_count
      target_pixel_count max_framerate_fps]. rewrite !list_min_min.
    f_equal; [cbn; by destruct (rotation_applied (wants p)), (rotation_applied acc)|].
    unfold targets. cbn [omap list_omap]. destruct (target_pixel_count (wants p)) as [t|], (target_pixel_count acc) as [t'|];
      cbn; try done. f_equal. rewrite list_min_min. reflexivity.
Qed.

(** The loop computes the wishes of all sinks. *)
Lemma aggregate_joint l : aggregate l = joint_wants l.
Proof.
  unfold aggregate, joint_wants. rewrite fold_wants. cbn [rotation_applied black_frames max_pixel_count
    target_pixel_count max_framerate_fps default_wants orb].
  destruct (targets l) as [|t ts]; cbn [join_target]; [done|].
  destruct (Z.leb_spec (list_min INT_MAX (maxima l)) (list_min t ts)).
  - by rewrite Z.min_r by lia.
  - by rewrite Z.min_l by lia.
Qed.

(** ** A frame in the broadcaster *)

Section Broadcast.
Context `{Pixels Data}.

(** The cached buffer is black. *)
Definition black_ok (b : VideoBroadcaster Data) : Prop :=
  forall buf, black_frame_buffer_ b = Some buf -> buf = mkBuffer (buf_width buf) (buf_height buf)
    (black_data (buf_width buf) (buf_height buf)).

(** What the sink of a pair may be told of a frame, where [prev] says that
    all sinks got the previous frame. *)
Definition told (f : MediaFrame Data) (prev : bool) (p : SinkPair) (e : event Data) : Prop :=
  match e with
  | OnDiscardedFrame => rotation_applied (wants p) = true /\ rotation f <> kVideoRotation_0
  | OnFrame g =>
      (rotation_applied (wants p) = true -> rotation f = kVideoRotation_0)
      /\ (rotation g, timestamp_us g, id g) = (rotation f, timestamp_us f, id f)
      /\ if black_frames (wants p)
         then video_frame_buffer g = mkBuffer (width f) (height f) (black_data (width f) (height f))
              /\ update_rect g = full_rect (width f) (height f)
         else video_frame_buffer g = video_frame_buffer f
              /\ update_rect g = if prev then update_rect f else full_rect (width f) (height f)
  end.

Definition is_discard (e : event Data) : bool :=
  match e with OnDiscardedFrame => true | OnFrame _ => false end.

Lemma GetBlackFrameBuffer_ok w h b :
  black_ok b ->
  exists b', GetBlackFrameBuffer w h b = (mkBuffer w h (black_data w h), b') /\ black_ok b'
    /\ sinks_ b' = sinks_ b /\ current_wants_ b' = current_wants_ b
    /\ previous_frame_sent_to_all_sinks_ b' = previous_frame_sent_to_all_sinks_ b.
Proof.
  intros Hb. unfold GetBlackFrameBuffer.
  assert (black_ok (b <| black_frame_buffer_ := Some (mkBuffer w h (black_data w h)) |>)) as Hf
    by (intros buf E; cbn in E; injection E as <-; done).
  destruct (black_frame_buffer_ b) as [buf|] eqn:Eb; [|by eexists].
  destruct (Z.eqb_spec (buf_width buf) w) as [Ew|]; [|by eexists].
  destruct (Z.eqb_spec (buf_height buf) h) as [Eh|]; [|by eexists].
  exists b. split; [|done]. cbn [negb orb]. f_equal. subst w h. by apply Hb.
Qed.

Lemma send_ok f p b :
  black_ok b ->
  exists e b', send f p b = (e, is_discard e, b') /\ told f (previous_frame_sent_to_all_sinks_ b) p e
    /\ black_ok b' /\ sinks_ b' = sinks_ b /\ current_wants_ b' = current_wants_ b
    /\ previous_frame_sent_to_all_sinks_ b' = previous_frame_sent_to_all_sinks_ b.
Proof.
  intros Hb. unfold send. destruct (rotation_applied (wants p) && _) eqn:Er.
  - apply andb_true_iff in Er as [Ha Hr]. apply negb_true_iff, bool_decide_eq_false in Hr. exists OnDiscardedFrame, b. by split_and!.
  - assert (rotation_applied (wants p) = true -> rotation f = kVideoRotation_0) as Hrot.
    { intros Ha. rewrite Ha in Er. by apply negb_false_iff, bool_decide_eq_true in Er. }
    destruct (black_frames (wants p)) eqn:Ebl.
    + destruct (GetBlackFrameBuffer_ok (width f) (height f) b Hb) as (b' & -> & Hb').
      eexists (OnFrame _), b'. split; [reflexivity|]. split; [|done]. cbn. by rewrite Ebl.
    + destruct (previous_frame_sent_to_all_sinks_ b) eqn:Ep; eexists (OnFrame _), b; (split; [reflexivity|]);
        (split; [|done]); cbn; by rewrite Ebl.
Qed.

Lemma send_all_ok f l : forall d b,
  black_ok b ->
  exists es b', send_all f l d b = (es, d || existsb (fun e => is_discard e.2) es, b')
    /\ Forall2 (fun p e => e.1 = sink p /\ told f (previous_frame_sent_to_all_sinks_ b) p e.2) l es
    /\ black_ok b' /\ sinks_ b' = sinks_ b /\ current_wants_ b' = current_wants_ b.
Proof.
  induction l as [|p l IH]; intros d b Hb; cbn [send_all].
  - exists [], b. by rewrite orb_false_r.
  - destruct (send_ok f p b Hb) as (e & b1 & -> & Ht & Hb1 & Es & Ew & Ep).
    destruct (IH (d || is_discard e) b1 Hb1) as (es & b2 & -> & Hall & Hb2 & Es2 & Ew2).
    exists ((sink p, e) :: es), b2. cbn [existsb snd]. rewrite orb_assoc, <- Es, <- Ew, <- Ep.
    split_and!; try done. constructor; [|done]. split; [done|]. by rewrite Ep.
Qed.

Lemma broadcast_ok f b :
  black_ok b ->
  exists es b', broadcast f b = (es, b')
    /\ Forall2 (fun p e => e.1 = sink p /\ told f (previous_frame_sent_to_all_sinks_ b) p e.2) (sinks_ b) es
    /\ black_ok b' /\ sinks_ b' = sinks_ b /\ current_wants_ b' = current_wants_ b
    /\ previous_frame_sent_to_all_sinks_ b' = negb (existsb (fun e => is_discard e.2) es).
Proof.
  intros Hb. unfold broadcast. destruct (send_all_ok f (sinks_ b) false b Hb) as (es & b' & -> & Hall & Hb' & Es & Ew).
  by exists es, (b' <| previous_frame_sent_to_all_sinks_ := negb (existsb (fun e => is_discard e.2) es) |>).
Qed.
End Broadcast.

(** ** Invariant of the broadcaster *)

Lemma FindSinkPair_None s l : FindSinkPair s l = None <-> (s ∉ (sink <$> l)).
Proof.
  induction l as [|p l IH]; cbn; [split; [intros _ Hs; by apply not_elem_of_nil in Hs|done]|].
  rewrite not_elem_of_cons. destruct (Z.eqb_spec (sink p) s) as [->|Hne]; [by split; [|intros []]|].
  rewrite fmap_None, IH. split; [by split; [congruence|]|by intros []].
Qed.

Lemma alter_sink (w : VideoSinkWants) (i : nat) (l : list SinkPair) :
  sink <$> alter (fun p => mkPair (sink p) w) i l = sink <$> l.
Proof. revert i. induction l as [|p l IH]; intros [|i]; cbn; by rewrite ?IH. Qed.

Lemma source_AddOrUpdateSink_NoDup s w l :
  NoDup (sink <$> l) -> NoDup (sink <$> source_AddOrUpdateSink s w l).
Proof.
  intros Hnd. unfold source_AddOrUpdateSink. destruct (FindSinkPair s l) eqn:E; [by rewrite alter_sink|].
  apply FindSinkPair_None in E. rewrite fmap_app. cbn. apply list.NoDup_app. split_and!; [done| |apply NoDup_singleton].
  intros x Hx Hs. apply list_elem_of_singleton in Hs. by subst.
Qed.

Lemma source_RemoveSink_NoDup s l : NoDup (sink <$> l) -> NoDup (sink <$> source_RemoveSink s l).
Proof. intros Hnd. eapply sublist_NoDup; [exact Hnd|]. apply fmap_sublist, sublist_filter. Qed.

Lemma source_AddOrUpdateSink_elem s w l p :
  p ∈ source_AddOrUpdateSink s w l -> p = mkPair s w \/ p ∈ l.
Proof.
  unfold source_AddOrUpdateSink. destruct (FindSinkPair s l) as [i|] eqn:E.
  - revert i E. induction l as [|q l IH]; intros i E; cbn in *; [done|].
    destruct (Z.eqb_spec (sink q) s) as [Hs|Hne].
    + injection E as <-. cbn. intros [->|Hp]%elem_of_cons; [left; by rewrite Hs|right; by apply elem_of_cons; right].
    + destruct (FindSinkPair s l) as [j|]; cbn in E; [|done]. injection E as <-. cbn.
      intros [->|Hp]%elem_of_cons; [right; by apply elem_of_cons; left|].
      destruct (IH j eq_refl Hp) as [->|Hl]; [by left|right; by apply elem_of_cons; right].
  - intros [Hp|Hp]%elem_of_app; [by right|]. apply list_elem_of_singleton in Hp. by left.
Qed.

Lemma source_AddOrUpdateSink_Forall (P : SinkPair -> Prop) s w l :
  P (mkPair s w) -> Forall P l -> Forall P (source_AddOrUpdateSink s w l).
Proof.
  intros Hw Hl. apply list.Forall_forall. intros p Hp.
  destruct (source_AddOrUpdateSink_elem s w l p Hp) as [->|Hin]; [done|].
  rewrite list.Forall_forall in Hl. by apply Hl.
Qed.

(** ** Invariant of the capturer *)

(** A target is positive where it is given. *)
Definition wants_ok (w : VideoSinkWants) : Prop :=
  match target_pixel_count w with Some t => 1 <= t | None => True end.

Definition media_ok {Data} (f : MediaFrame Data) : Prop :=
  1 <= width f /\ 1 <= height f /\ width f * height f <= 2 ^ 26.

(** No format is requested from the adapter; its limits are the wants [w]. *)
Definition adapter_for (w : VideoSinkWants) (a : VideoAdapter) : Prop :=
  required_resolution_alignment_ a = 1
  /\ target_landscape_aspect_ratio_ a = None /\ target_portrait_aspect_ratio_ a = None
  /\ max_landscape_pixel_count_ a = None /\ max_portrait_pixel_count_ a = None /\ max_fps_ a = None
  /\ resolution_request_max_pixel_count_ a = max_pixel_count w
  /\ resolution_request_target_pixel_count_ a = default (max_pixel_count w) (target_pixel_count w)
  /\ max_framerate_request_ a = max_framerate_fps w.

Record cap_inv `{Pixels Data} (c : TestVideoCapturer Data) : Prop := {
  inv_NoDup : NoDup (sink <$> sinks_ (broadcaster_ c));
  inv_wants : current_wants_ (broadcaster_ c) = joint_wants (sinks_ (broadcaster_ c));
  inv_targets : Forall (fun p => wants_ok (wants p)) (sinks_ (broadcaster_ c));
  inv_black : black_ok (broadcaster_ c);
  inv_adapter : adapter_for (joint_wants (sinks_ (broadcaster_ c))) (video_adapter_ c);
}.

(** The calls of the capturer, in any order. *)
Inductive cap_step `{Pixels Data} : TestVideoCapturer Data -> TestVideoCapturer Data -> Prop :=
| step_add c s w : wants_ok w -> cap_step c (capturer_AddOrUpdateSink s w c)
| step_remove c s : cap_step c (capturer_RemoveSink s c)
| step_frame c f es c' : media_ok f -> capture f c = Next es c' -> cap_step c c'.

Definition cap_reachable `{Pixels Data} (c : TestVideoCapturer Data) : Prop := rtc cap_step new_capturer c.

Lemma KeepFrame_same t a keep a' w : KeepFrame t a = (keep, a') -> adapter_for w a -> adapter_for w a'.
Proof.
  unfold KeepFrame, keep_at. cbv zeta. intros E Ha.
  destruct (_ <=? 0); [by injection E as _ <-|]. destruct (_ <=? 0); [by injection E as _ <-|].
  destruct (next_frame_timestamp_ns_ a); [destruct (_ <? _); [destruct (_ <? _)|]|]; by injection E as _ <-.
Qed.

Lemma count_frame_same scale ow oh a w : adapter_for w a -> adapter_for w (count_frame scale ow oh a).
Proof. intros Ha. unfold count_frame. cbv zeta. by repeat case_match. Qed.

Lemma joint_target_pos l :
  Forall (fun p => wants_ok (wants p)) l -> 0 < max_pixel_count (joint_wants l) ->
  1 <= default (max_pixel_count (joint_wants l)) (target_pixel_count (joint_wants l)).
Proof.
  intros Hl Hm. assert (Forall (fun t => 1 <= t) (targets l)) as Ht.
  { clear Hm. induction Hl as [|p l Hp Hl IH]; [constructor|]. unfold targets. cbn [omap list_omap]. fold (targets l).
    unfold wants_ok in Hp. destruct (target_pixel_count (wants p)); [by constructor|done]. }
  cbn in *. destruct (targets l) as [|t ts]; cbn; [lia|]. inversion Ht; subst.
  pose proof (list_min_ge t ts 1 ltac:(done) ltac:(done)). lia.
Qed.

(** The adapter drops a frame: a sink wants no pixels, or the frame comes too early. *)
Definition frame_dropped (w : VideoSinkWants) (t : Z) (a : VideoAdapter) : bool :=
  (max_pixel_count w <=? 0) || negb (KeepFrame t (a <| frames_in_ := s32 (frames_in_ a + 1) |>)).1.

(** The adapter drops a frame, or its size respects the wants. *)
Lemma capture_adapt {R} w h t (l : list SinkPair) a :
  1 <= w -> 1 <= h -> w * h <= 2 ^ 26 -> Forall (fun p => wants_ok (wants p)) l ->
  adapter_for (joint_wants l) a ->
  exists r a', AdaptFrameResolution (R:=R) w h t a = Next r a' /\ adapter_for (joint_wants l) a'
    /\ match r with
       | None => frame_dropped (joint_wants l) t a = true
       | Some (_, _, ow, oh) => frame_dropped (joint_wants l) t a = false /\ 0 <= ow * oh <= max_pixel_count (joint_wants l)
       end.
Proof.
  intros Hw Hh Hwh Hl Ha. unfold frame_dropped. set (m := max_pixel_count (joint_wants l)).
  assert (frame_limits w h a = (None, m)) as Hlim.
  { unfold frame_limits. destruct Ha as (_ & -> & -> & -> & -> & _ & -> & _). by destruct (_ <? _). }
  destruct (adapt_drop (R:=R) w h t m a Hlim) as [Hdrop Hdrop'].
  destruct (decide (m <= 0)) as [Hm|Hm]; [eexists None, _; split; [by apply Hdrop|]; split; [done|]; by rewrite (proj2 (Z.leb_le m 0))|].
  rewrite (proj2 (Z.leb_gt m 0)) by lia.
  destruct (KeepFrame t (a <| frames_in_ := s32 (frames_in_ a + 1) |>)) as [[|] a'] eqn:Ek;
    (assert (adapter_for (joint_wants l) a') as Ha' by (eapply KeepFrame_same; [exact Ek|exact Ha])).
  - destruct (adapt_keep (R:=R) w h t 1 (Z.min (resolution_request_target_pixel_count_ a) m) m a Hw Hh Hwh
      (proj1 Ha) ltac:(lia) Hlim eq_refl a') as ([[[cw ch] ow] oh] & scale & E & Had); [|done|].
    { destruct Ha as (_ & _ & _ & _ & _ & _ & _ & -> & _).
      pose proof (joint_target_pos l Hl ltac:(lia)). lia. }
    eexists _, _. split; [exact E|]. split; [by apply count_frame_same|].
    cbn [fst snd]. split; [done|]. destruct Had as (b & _ & _ & _ & _ & _ & _ & Hb & _). exact Hb.
  - exists None, a'. split; [apply Hdrop'; [lia|done]|]. done.
Qed.

Lemma Forall2_elem {A B} (P Q : A -> B -> Prop) l k :
  Forall2 P l k -> (forall x y, x ∈ l -> P x y -> Q x y) -> Forall2 Q l k.
Proof.
  intros HP. induction HP as [|x y l k Hxy HP IH]; intros HQ; constructor.
  - apply HQ; [|done]. apply elem_of_cons. by left.
  - apply IH. intros x' y' Hx'. apply HQ, elem_of_cons. by right.
Qed.

Section Capturer.
Context `{Pixels Data}.
Implicit Types (c : TestVideoCapturer Data) (f g : MediaFrame Data).

Lemma new_capturer_inv : cap_inv (@new_capturer Data).
Proof. split; [constructor|done|constructor|done|done]. Qed.

(** After a change of the sinks the adapter is told. *)
Lemma UpdateVideoAdapter_inv (b : VideoBroadcaster Data) a w :
  NoDup (sink <$> sinks_ b) -> Forall (fun p => wants_ok (wants p)) (sinks_ b) -> black_ok b ->
  adapter_for w a -> cap_inv (UpdateVideoAdapter (mkCapturer (UpdateWants b) a)).
Proof.
  intros Hnd Hw Hb Ha. split; cbn; try done; rewrite aggregate_joint; [done|].
  destruct Ha as (? & ? & ? & ? & ? & ? & _). done.
Qed.

Lemma add_inv c s w : wants_ok w -> cap_inv c -> cap_inv (capturer_AddOrUpdateSink s w c).
Proof.
  intros Hw [Hnd _ Ht Hb Ha].
  eassert (capturer_AddOrUpdateSink s w c = UpdateVideoAdapter (mkCapturer (UpdateWants
    ((if FindSinkPair s (sinks_ (broadcaster_ c)) is Some _ then broadcaster_ c
      else (broadcaster_ c) <| previous_frame_sent_to_all_sinks_ := false |>)
     <| sinks_ := source_AddOrUpdateSink s w (sinks_ (broadcaster_ c)) |>)) (video_adapter_ c))) as ->
    by (unfold capturer_AddOrUpdateSink, AddOrUpdateSink; by destruct (FindSinkPair _ _)).
  eapply UpdateVideoAdapter_inv; [by apply source_AddOrUpdateSink_NoDup
    |by apply source_AddOrUpdateSink_Forall| |exact Ha].
  by destruct (FindSinkPair _ _).
Qed.

Lemma remove_inv c s : cap_inv c -> cap_inv (capturer_RemoveSink s c).
Proof.
  intros [Hnd _ Ht Hb Ha]. eapply (UpdateVideoAdapter_inv
    ((broadcaster_ c) <| sinks_ := source_RemoveSink s (sinks_ (broadcaster_ c)) |>));
    [by apply source_RemoveSink_NoDup| |exact Hb|exact Ha].
  apply list.Forall_forall. intros p Hp. apply list_elem_of_filter in Hp as [_ Hp].
  rewrite list.Forall_forall in Ht. by apply Ht.
Qed.

Lemma joint_max_le l p : p ∈ l -> max_pixel_count (joint_wants l) <= max_pixel_count (wants p).
Proof. intros Hp. apply list_min_le, (list_elem_of_fmap_2 (fun p => max_pixel_count (wants p))), Hp. Qed.

(** The frame that is broadcast when the adapter chose the size: the camera's, or a scaled
    one, which is marked as upright. *)
Definition sized_frame f (out_width out_height : Z) : MediaFrame Data :=
  if negb (out_height =? height f) || negb (out_width =? width f)
  then build (ScaleFrom out_width out_height (video_frame_buffer f)) kVideoRotation_0 (timestamp_us f) (id f)
  else f.

Lemma sized_frame_size f ow oh : width (sized_frame f ow oh) = ow /\ height (sized_frame f ow oh) = oh.
Proof. unfold sized_frame. destruct (Z.eqb_spec oh (height f)); [destruct (Z.eqb_spec ow (width f))|]; done. Qed.

(** A sink is told of the frame [f'], of which it gets no more pixels than it wants. *)
Definition served f' (prev : bool) (p : SinkPair) (e : Z * event Data) : Prop :=
  e.1 = sink p /\ told f' prev p e.2 /\ forall g, e.2 = OnFrame g -> width g * height g <= max_pixel_count (wants p).

Lemma told_size f' prev p g : told f' prev p (OnFrame g) -> width g = width f' /\ height g = height f'.
Proof. intros (_ & _ & Hbuf). unfold width, height. destruct (black_frames (wants p)); destruct Hbuf as [-> _]; done. Qed.

Lemma told_served f' prev p s e : s = sink p -> told f' prev p e -> width f' * height f' <= max_pixel_count (wants p) -> served f' prev p (s, e).
Proof.
  intros Hs He Hm. split; [done|]. split; [done|]. intros g E. cbn in E. subst e. by destruct (told_size _ _ _ _ He) as [-> ->].
Qed.

(** What becomes of a frame: dropped, nothing is told to the sinks and the broadcaster stays;
    otherwise each is told of it in the size that the adapter chose. *)
Definition captured c f (es : events Data) c' : Prop :=
  let l := sinks_ (broadcaster_ c) in
  let t := s64 (timestamp_us f * 1000) in
  exists r a', AdaptFrameResolution (R := events Data) (width f) (height f) t (video_adapter_ c) = Next r a' /\
  match r with
  | None => frame_dropped (joint_wants l) t (video_adapter_ c) = true /\ es = [] /\ broadcaster_ c' = broadcaster_ c
  | Some (_, _, out_width, out_height) =>
      frame_dropped (joint_wants l) t (video_adapter_ c) = false /\
      Forall2 (served (sized_frame f out_width out_height) (previous_frame_sent_to_all_sinks_ (broadcaster_ c))) l es /\
      previous_frame_sent_to_all_sinks_ (broadcaster_ c') = negb (existsb (fun e => is_discard e.2) es)
  end.

Lemma capture_ok c f :
  cap_inv c -> media_ok f ->
  exists es c', capture f c = Next es c' /\ cap_inv c' /\ sinks_ (broadcaster_ c') = sinks_ (broadcaster_ c) /\ captured c f es c'.
Proof.
  intros [Hnd Hcw Ht Hb Ha] (Hw & Hh & Hwh). unfold capture, captured. cbv zeta.
  destruct (capture_adapt (R:=events Data) (width f) (height f) (s64 (timestamp_us f * 1000)) _ _ Hw Hh Hwh Ht Ha)
    as (r & a' & E & Ha' & Hr).
  rewrite (bind_Next _ _ c r (c <| video_adapter_ := a' |>)) by exact (zoom_Next _ _ _ _ _ _ E).
  destruct r as [[[[cw ch] ow] oh]|];
    [|eexists _, _; split; [reflexivity|]; split; [by split|]; split; [done|]; by exists None, a'].
  cbv zeta. rewrite bind_get. fold (sized_frame f ow oh). destruct Hr as [Hkept Hr].
  destruct (broadcast_ok (sized_frame f ow oh) (broadcaster_ c) Hb) as (es & b' & Eb & Hall & Hb' & Es & Ecw & Ep).
  change (broadcaster_ (c <| video_adapter_ := a' |>)) with (broadcaster_ c). rewrite Eb.
  eexists es, _. split; [reflexivity|]. split; [split; cbn; rewrite ?Es, ?Ecw; done|]. split; [exact Es|].
  exists (Some (cw, ch, ow, oh)), a'. split; [done|]. split; [done|]. split; [|exact Ep].
  apply (Forall2_elem _ _ _ _ Hall). intros p [s e] Hp [Hs He]. apply told_served; [done|done|].
  destruct (sized_frame_size f ow oh) as [-> ->].
  transitivity (max_pixel_count (joint_wants (sinks_ (broadcaster_ c)))); [lia|by apply joint_max_le].
Qed.

Lemma cap_reachable_inv c : cap_reachable c -> cap_inv c.
Proof.
  unfold cap_reachable. generalize new_capturer_inv. generalize (@new_capturer Data). intros c0 H0 Hr.
  induction Hr as [c|c c1 c2 Hs _ IH]; [done|]. apply IH. destruct Hs as [c s w Hw|c s|c f es c' Hf E].
  - by apply add_inv.
  - by apply remove_inv.
  - destruct (capture_ok c f H0 Hf) as (es' & c'' & E' & Hi & _). congruence.
Qed.
End Capturer.

(** Pixels of which only their origin is known. *)
Inductive picture := Black | Camera.

#[export] Instance picture_Pixels : Pixels picture := {
  black_data _ _ := Black;
  I420Scale _ _ d _ _ := d;
}.

Definition camera_frame (w h : Z) (rot : VideoRotation) (us : Z) (r : UpdateRect) : MediaFrame picture :=
  mkMedia (mkBuffer w h Camera) rot us 1 r.

(** C11. In every state that the capturer reaches, its wants are the joint wants of its
    sinks, each of which is registered once, and a camera frame of at most 2^26 pixels is
    handled without an error. It is dropped for all sinks, and the broadcaster stays,
    exactly when a sink wants no pixels or the frame comes too early for the joint frame rate.
    Otherwise every sink gets one call, in order, about the frame in the size that the
    adapter chose, which has no more pixels than the sink wants. It carries the time stamp
    and the number of the camera's frame; its picture is black where the sink wants that and
    else the camera's, scaled if the size differs; it is marked as changed in the part the camera
    named if it was not scaled and all sinks got the frame before, and else as a
    whole. A sink that wants the rotation applied is told of a discarded frame if the frame is
    marked as rotated. The mark is the camera's if the size stays; a scaled frame is marked as
    upright whatever the camera's mark was, although nothing turns it
    ([scaling_drops_rotation]). *)
Theorem capture_respects_wants `{Pixels Data} (c : TestVideoCapturer Data) (f : MediaFrame Data) :
  cap_reachable c -> media_ok f ->
  GetSinkWants c = joint_wants (sinks_ (broadcaster_ c))
  /\ NoDup (sink <$> sinks_ (broadcaster_ c))
  /\ exists es c', capture f c = Next es c' /\ cap_reachable c'
      /\ sinks_ (broadcaster_ c') = sinks_ (broadcaster_ c) /\ captured c f es c'.
Proof.
  intros Hr Hf. pose proof (cap_reachable_inv c Hr) as Hi. split; [apply (inv_wants c Hi)|].
  split; [apply (inv_NoDup c Hi)|]. destruct (capture_ok c f Hi Hf) as (es & c' & E & _ & Hs & Hes).
  exists es, c'. split; [done|]. split; [|done]. eapply rtc_r; [exact Hr|]. by apply (step_frame c f es).
Qed.

(** A sink that wants at most 320 * 240 pixels, and one that wants black frames. *)
Definition two_sinks : TestVideoCapturer picture :=
  capturer_AddOrUpdateSink 2 (mkWants true true INT_MAX None 15)
    (capturer_AddOrUpdateSink 1 (mkWants false false (320 * 240) None INT_MAX) new_capturer).

Lemma capture_respects_wants_witness :
  let f := camera_frame 640 480 kVideoRotation_0 1000 (full_rect 640 480) in
  GetSinkWants two_sinks = mkWants true false (320 * 240) None 15
  /\ (exists c', capture f two_sinks
      = Next [(1, OnFrame (camera_frame 320 240 kVideoRotation_0 1000 (full_rect 320 240)));
              (2, OnFrame (mkMedia (mkBuffer 320 240 Black) kVideoRotation_0 1000 1 (full_rect 320 240)))] c')
  /\ GetSinkWants two_sinks = joint_wants (sinks_ (broadcaster_ two_sinks)).
Proof.
  intros f. split; [vm_compute; reflexivity|]. split; [eexists; vm_compute; reflexivity|].
  apply (capture_respects_wants two_sinks f).
  - unfold two_sinks. eapply rtc_l; [|eapply rtc_l; [|apply rtc_refl]]; by constructor.
  - repeat split; cbn; lia.
Defined.

(** When a frame is scaled, the new frame is marked as not rotated although the scaled
    buffer keeps the orientation of the camera: a frame of a camera turned by 90 degrees reaches a
    sink that wants the rotation applied as if it were upright, while a frame
    that needs no scaling is refused. *)
Theorem scaling_drops_rotation :
  let c m := capturer_AddOrUpdateSink 1 (mkWants true false m None INT_MAX) (@new_capturer picture) in
  let f := camera_frame 640 480 kVideoRotation_90 1000 (full_rect 640 480) in
  (exists c', capture f (c (320 * 240))
     = Next [(1, OnFrame (camera_frame 320 240 kVideoRotation_0 1000 (full_rect 320 240)))] c')
  /\ (exists c', capture f (c (640 * 480)) = Next [(1, OnDiscardedFrame)] c').
Proof. split; eexists; vm_compute; reflexivity. Qed.

(** ** Partial updates *)

(** A change of the sinks between two frames. *)
Inductive sink_op := Add (s : Z) (w : VideoSinkWants) | Remove (s : Z).

Definition change_sink {Data} (b : VideoBroadcaster Data) (o : sink_op) : VideoBroadcaster Data :=
  match o with Add s w => AddOrUpdateSink s w b | Remove s => RemoveSink s b end.

Definition change_sinks {Data} (os : list sink_op) (b : VideoBroadcaster Data) : VideoBroadcaster Data :=
  fold_left change_sink os b.

Lemma change_sink_prev {Data} (b : VideoBroadcaster Data) o :
  previous_frame_sent_to_all_sinks_ (change_sink b o) = true ->
  previous_frame_sent_to_all_sinks_ b = true /\ (sink <$> sinks_ (change_sink b o)) ⊆ (sink <$> sinks_ b).
Proof.
  destruct o as [s w|s]; cbn.
  - unfold AddOrUpdateSink, source_AddOrUpdateSink. destruct (FindSinkPair s (sinks_ b)) as [i|] eqn:E; cbn; [|done].
    intros Hp. split; [done|]. intros x Hx. rewrite E in Hx. rewrite <- (alter_sink w i). exact Hx.
  - intros Hp. split; [done|]. intros x Hx. eapply list_elem_of_fmap in Hx as (p & -> & Hp').
    apply list_elem_of_filter in Hp' as [_ Hp']. by apply list_elem_of_fmap_2.
Qed.

Lemma change_sink_black `{Pixels Data} (b : VideoBroadcaster Data) o : black_ok b -> black_ok (change_sink b o).
Proof. destruct o as [s w|s]; [|done]. cbn. unfold AddOrUpdateSink. by destruct (FindSinkPair _ _). Qed.

Lemma change_sinks_prev `{Pixels Data} os : forall b : VideoBroadcaster Data,
  black_ok b ->
  black_ok (change_sinks os b)
  /\ (previous_frame_sent_to_all_sinks_ (change_sinks os b) = true ->
      previous_frame_sent_to_all_sinks_ b = true /\ (sink <$> sinks_ (change_sinks os b)) ⊆ (sink <$> sinks_ b)).
Proof.
  induction os as [|o os IH]; intros b Hb; [done|]. cbn.
  destruct (IH (change_sink b o) (change_sink_black b o Hb)) as [Hb' Hp]. split; [done|]. intros Ht.
  destruct (Hp Ht) as [H1 H2]. destruct (change_sink_prev b o H1) as [H3 H4]. split; [done|]. by etrans.
Qed.

(** A frame that is marked as a partial update reaches only sinks that got the frame
    before it, whatever sinks were added, changed or removed in between. *)
Theorem partial_update_previous `{Pixels Data} (b b1 b2 : VideoBroadcaster Data) f1 f2 os es1 es2 s g :
  black_ok b -> broadcast f1 b = (es1, b1) -> broadcast f2 (change_sinks os b1) = (es2, b2) ->
  (s, OnFrame g) ∈ es2 -> update_rect g <> full_rect (width g) (height g) ->
  exists g1, (s, OnFrame g1) ∈ es1.
Proof.
  intros Hb E1 E2 Hin Hpart.
  destruct (broadcast_ok f1 b Hb) as (es1' & b1' & E1' & Hall1 & Hb1 & Es1 & _ & Ep1).
  rewrite E1 in E1'. injection E1' as <- <-.
  destruct (change_sinks_prev os b1 Hb1) as [Hb1' Hp].
  destruct (broadcast_ok f2 _ Hb1') as (es2' & b2' & E2' & Hall2 & _ & _ & _ & _).
  rewrite E2 in E2'. injection E2' as <- <-.
  apply list_elem_of_lookup in Hin as [i Hi]. destruct (Forall2_lookup_r _ _ _ _ _ Hall2 Hi) as (p & Hpi & Hs & Ht).
  cbn in Hs, Ht. destruct Ht as (_ & _ & Ht).
  destruct (previous_frame_sent_to_all_sinks_ (change_sinks os b1)) eqn:Eprev.
  - destruct (Hp eq_refl) as [Ep Hsub]. rewrite Ep in Ep1. symmetry in Ep1. apply negb_true_iff in Ep1.
    assert (s ∈ (sink <$> sinks_ b)) as Hsb.
    { rewrite <- Es1. apply Hsub. rewrite Hs. apply list_elem_of_fmap_2. by eapply list_elem_of_lookup_2. }
    apply list_elem_of_fmap in Hsb as (q & Eq & Hq). apply list_elem_of_lookup in Hq as [k Hk].
    destruct (Forall2_lookup_l _ _ _ _ _ Hall1 Hk) as ([s' e] & Hek & Hes & _). cbn in Hes.
    destruct e as [g1|].
    + exists g1. rewrite Eq, <- Hes. by eapply list_elem_of_lookup_2.
    + exfalso. apply not_true_iff_false in Ep1. apply Ep1, existsb_exists. exists (s', OnDiscardedFrame).
      split; [|done]. apply list_elem_of_In. by eapply list_elem_of_lookup_2.
  - exfalso. apply Hpart. unfold width, height. destruct (black_frames (wants p)); destruct Ht as [Eb ->]; by rewrite Eb.
Qed.

(** Two frames for a sink that stays. *)
Lemma partial_update_previous_witness :
  let b := AddOrUpdateSink 1 default_wants (@new_broadcaster picture) in
  let f us r := camera_frame 640 480 kVideoRotation_0 us r in
  let '(es1, b1) := broadcast (f 1000 (full_rect 640 480)) b in
  let '(es2, _) := broadcast (f 2000 (mkRect 0 0 16 16)) (change_sinks [Add 2 default_wants; Remove 2] b1) in
  let '(es3, _) := broadcast (f 2000 (mkRect 0 0 16 16)) (change_sinks [] b1) in
  es2 = [(1, OnFrame (f 2000 (full_rect 640 480)))]
  /\ es3 = [(1, OnFrame (f 2000 (mkRect 0 0 16 16)))] /\ exists g1, (1, OnFrame g1) ∈ es1.
Proof.
  intros b f. destruct (broadcast (f 1000 (full_rect 640 480)) b) as [es1 b1] eqn:E1.
  destruct (broadcast (f 2000 (mkRect 0 0 16 16)) (change_sinks [] b1)) as [es3 b3] eqn:E3.
  destruct (broadcast (f 2000 (mkRect 0 0 16 16)) (change_sinks [Add 2 default_wants; Remove 2] b1)) as [es2 b2] eqn:E2.
  pose proof E1 as E1'. vm_compute in E1'. injection E1' as _ <-.
  split; [vm_compute in E2; injection E2 as <- _; reflexivity|].
  assert (es3 = [(1, OnFrame (f 2000 (mkRect 0 0 16 16)))]) as E by (vm_compute in E3; injection E3 as <- _; reflexivity).
  split; [exact E|].
  apply (partial_update_previous b _ b3 _ _ [] es1 es3 1 (f 2000 (mkRect 0 0 16 16)) ltac:(done) E1 E3).
  - rewrite E. apply elem_of_cons. by left.
  - discriminate.
Defined.

(** The frame before may have been a black one: a sink that stops to want black
    frames is not a new sink, so that the next partial update reaches it although all it has
    is a black picture. *)
Theorem partial_update_after_black :
  let black := mkWants false true INT_MAX None INT_MAX in
  let b := AddOrUpdateSink 1 black (@new_broadcaster picture) in
  let f us r := camera_frame 640 480 kVideoRotation_0 us r in
  let '(es1, b1) := broadcast (f 1000 (full_rect 640 480)) b in
  let '(es2, _) := broadcast (f 2000 (mkRect 0 0 16 16)) (AddOrUpdateSink 1 default_wants b1) in
  es1 = [(1, OnFrame (mkMedia (mkBuffer 640 480 Black) kVideoRotation_0 1000 1 (full_rect 640 480)))]
  /\ es2 = [(1, OnFrame (f 2000 (mkRect 0 0 16 16)))].
Proof. vm_compute. split; reflexivity. Qed.
