(* ===== verification/G711.v ===== *)
(** * G.711 and PCM16B: samples of one byte and of two

    [modules/third_party/g711/g711.h] and [g711.c] convert a linear sample to
    mu-law and to A-law and back, [codecs/g711/g711_interface.c] converts
    buffers, [codecs/pcm16b/pcm16b.c] writes samples in network byte order.

    The two laws are instances of the class [Compander]; the theorems on buffers
    are proved against it. A sample is an [int16_t] that the calls promote to
    [int], so no intermediate value of the conversions leaves the 32-bit range. *)

From S2P Require Import Prelude.

(** ** Bit search (the portable variant of the header) *)

(** [if (bits & m) { bits &= m; i += w; }] *)
Definition search_step (m w : Z) (st : Z * Z) : Z * Z :=
  let '(bits, i) := st in
  if Z.land bits m =? 0 then (bits, i) else (Z.land bits m, i + w).

Definition top_bit (bits : Z) : Z :=
  if bits =? 0 then -1
  else
    let st := (bits, 0) in
    let st := search_step 0xFFFF0000 16 st in
    let st := search_step 0xFF00FF00 8 st in
    let st := search_step 0xF0F0F0F0 4 st in
    let st := search_step 0xCCCCCCCC 2 st in
    let st := search_step 0xAAAAAAAA 1 st in
    st.2.

Definition bottom_bit (bits : Z) : Z :=
  if bits =? 0 then -1
  else
    let st := (bits, 32) in
    let st := search_step 0x0000FFFF (-16) st in
    let st := search_step 0x00FF00FF (-8) st in
    let st := search_step 0x0F0F0F0F (-4) st in
    let st := search_step 0x33333333 (-2) st in
    let st := search_step 0x55555555 (-1) st in
    st.2.

(** ** Mu-law *)

Definition ULAW_BIAS : Z := 0x84.

Definition linear_to_ulaw (linear : Z) : Z :=
  let '(linear, mask) :=
    if linear <? 0 then (ULAW_BIAS - linear - 1, 0x7F) else (ULAW_BIAS + linear, 0xFF) in
  let seg := top_bit (u32 (Z.lor linear 0xFF)) - 7 in
  if 8 <=? seg then u8 (Z.lxor 0x7F mask)
  else
    u8 (Z.lxor (Z.lor (Z.shiftl seg 4) (Z.land (Z.shiftr linear (seg + 3)) 0xF)) mask).

Definition ulaw_to_linear (ulaw : Z) : Z :=
  let ulaw := u8 (Z.lnot ulaw) in
  let t :=
    Z.shiftl (Z.shiftl (Z.land ulaw 0x0F) 3 + ULAW_BIAS) (Z.shiftr (Z.land ulaw 0x70) 4) in
  s16 (if Z.land ulaw 0x80 =? 0 then t - ULAW_BIAS else ULAW_BIAS - t).

(** ** A-law *)

Definition ALAW_AMI_MASK : Z := 0x55.

Definition linear_to_alaw (linear : Z) : Z :=
  let '(linear, mask) :=
    if 0 <=? linear then (linear, Z.lor ALAW_AMI_MASK 0x80) else (- linear - 1, ALAW_AMI_MASK) in
  let seg := top_bit (u32 (Z.lor linear 0xFF)) - 7 in
  if 8 <=? seg then
    if 0 <=? linear then u8 (Z.lxor 0x7F mask) else u8 (Z.lxor 0x00 mask)
  else
    u8 (Z.lxor
          (Z.lor (Z.shiftl seg 4)
                 (Z.land (Z.shiftr linear (if seg =? 0 then 4 else seg + 3)) 0x0F)) mask).

Definition alaw_to_linear (alaw : Z) : Z :=
  let alaw := u8 (Z.lxor alaw ALAW_AMI_MASK) in
  let i := Z.shiftl (Z.land alaw 0x0F) 4 in
  let seg := Z.shiftr (Z.land alaw 0x70) 4 in
  let i := if seg =? 0 then i + 8 else Z.shiftl (i + 0x108) (seg - 1) in
  s16 (if Z.land alaw 0x80 =? 0 then - i else i).

(** ** Transcoding *)

Definition ulaw_to_alaw_table : list Z :=
  [42; 43; 40; 41; 46; 47; 44; 45; 34; 35; 32; 33; 38; 39; 36; 37; 58; 59; 56; 57; 62; 63;
   60; 61; 50; 51; 48; 49; 54; 55; 52; 53; 10; 11; 8; 9; 14; 15; 12; 13; 2; 3; 0; 1; 6; 7;
   4; 26; 27; 24; 25; 30; 31; 28; 29; 18; 19; 16; 17; 22; 23; 20; 21; 106; 104; 105; 110;
   111; 108; 109; 98; 99; 96; 97; 102; 103; 100; 101; 122; 120; 126; 127; 124; 125; 114;
   115; 112; 113; 118; 119; 116; 117; 75; 73; 79; 77; 66; 67; 64; 65; 70; 71; 68; 69; 90;
   91; 88; 89; 94; 95; 92; 93; 82; 82; 83; 83; 80; 80; 81; 81; 86; 86; 87; 87; 84; 84; 85;
   85; 170; 171; 168; 169; 174; 175; 172; 173; 162; 163; 160; 161; 166; 167; 164; 165; 186;
   187; 184; 185; 190; 191; 188; 189; 178; 179; 176; 177; 182; 183; 180; 181; 138; 139;
   136; 137; 142; 143; 140; 141; 130; 131; 128; 129; 134; 135; 132; 154; 155; 152; 153;
   158; 159; 156; 157; 146; 147; 144; 145; 150; 151; 148; 149; 234; 232; 233; 238; 239;
   236; 237; 226; 227; 224; 225; 230; 231; 228; 229; 250; 248; 254; 255; 252; 253; 242;
   243; 240; 241; 246; 247; 244; 245; 203; 201; 207; 205; 194; 195; 192; 193; 198; 199;
   196; 197; 218; 219; 216; 217; 222; 223; 220; 221; 210; 210; 211; 211; 208; 208; 209;
   209; 214; 214; 215; 215; 212; 212; 213; 213].

Definition alaw_to_ulaw_table : list Z :=
  [42; 43; 40; 41; 46; 47; 44; 45; 34; 35; 32; 33; 38; 39; 36; 37; 57; 58; 55; 56; 61; 62;
   59; 60; 49; 50; 47; 48; 53; 54; 51; 52; 10; 11; 8; 9; 14; 15; 12; 13; 2; 3; 0; 1; 6; 7;
   4; 5; 26; 27; 24; 25; 30; 31; 28; 29; 18; 19; 16; 17; 22; 23; 20; 21; 98; 99; 96; 97;
   102; 103; 100; 101; 93; 93; 92; 92; 95; 95; 94; 94; 116; 118; 112; 114; 124; 126; 120;
   122; 106; 107; 104; 105; 110; 111; 108; 109; 72; 73; 70; 71; 76; 77; 74; 75; 64; 65; 63;
   63; 68; 69; 66; 67; 86; 87; 84; 85; 90; 91; 88; 89; 79; 79; 78; 78; 82; 83; 80; 81; 170;
   171; 168; 169; 174; 175; 172; 173; 162; 163; 160; 161; 166; 167; 164; 165; 185; 186;
   183; 184; 189; 190; 187; 188; 177; 178; 175; 176; 181; 182; 179; 180; 138; 139; 136;
   137; 142; 143; 140; 141; 130; 131; 128; 129; 134; 135; 132; 133; 154; 155; 152; 153;
   158; 159; 156; 157; 146; 147; 144; 145; 150; 151; 148; 149; 226; 227; 224; 225; 230;
   231; 228; 229; 221; 221; 220; 220; 223; 223; 222; 222; 244; 246; 240; 242; 252; 254;
   248; 250; 234; 235; 232; 233; 238; 239; 236; 237; 200; 201; 198; 199; 204; 205; 202;
   203; 192; 193; 191; 191; 196; 197; 194; 195; 214; 215; 212; 213; 218; 219; 216; 217;
   207; 207; 206; 206; 210; 211; 208; 209].

Definition alaw_to_ulaw (alaw : Z) : option Z := zget alaw_to_ulaw_table alaw.

Definition ulaw_to_alaw (ulaw : Z) : option Z := zget ulaw_to_alaw_table ulaw.

(** ** Buffers *)

(** [for (n = 0; n < len; n++) dst[n] = f(src[n])], [todo] iterations before the
    end; an access outside one of the arrays has no value. *)
Fixpoint convert (f : Z -> Z) (src : list Z) (todo n : nat) (dst : list Z) : option (list Z) :=
  match todo with
  | O => Some dst
  | S todo' =>
      x ← src !! n;
      dst' ← store dst n (f x);
      convert f src todo' (S n) dst'
  end.

(** The arrays after the call and the value returned. *)
Definition WebRtcG711_EncodeA (speechIn : list Z) (len : nat) (encoded : list Z) :
    option (list Z * nat) :=
  encoded' ← convert linear_to_alaw speechIn len 0 encoded; Some (encoded', len).

Definition WebRtcG711_EncodeU (speechIn : list Z) (len : nat) (encoded : list Z) :
    option (list Z * nat) :=
  encoded' ← convert linear_to_ulaw speechIn len 0 encoded; Some (encoded', len).

(** The samples, the speech type and the value returned. *)
Definition WebRtcG711_DecodeA (encoded : list Z) (len : nat) (decoded : list Z) :
    option (list Z * Z * nat) :=
  decoded' ← convert alaw_to_linear encoded len 0 decoded; Some (decoded', 1, len).

Definition WebRtcG711_DecodeU (encoded : list Z) (len : nat) (decoded : list Z) :
    option (list Z * Z * nat) :=
  decoded' ← convert ulaw_to_linear encoded len 0 decoded; Some (decoded', 1, len).

(** [strncpy(version, "2.0.0", lenBytes)]: the bytes of the text, then zeros up
    to [lenBytes], which is a [size_t] there. *)
Definition version_text : list Z := [50; 46; 48; 46; 48].

Definition strncpy (dst src : list Z) (n : Z) : option (list Z) :=
  if Z.of_nat (length dst) <? n then None
  else
    let n := Z.to_nat n in Some (take n (src ++ replicate n 0) ++ drop n dst).

Definition WebRtcG711_Version (version : list Z) (lenBytes : Z) : option (list Z * Z) :=
  version' ← strncpy version version_text (lenBytes mod 2 ^ 64); Some (version', 0).

(** ** PCM16B *)

Fixpoint pcm16b_encode_loop (speech : list Z) (todo i : nat) (encoded : list Z) :
    option (list Z) :=
  match todo with
  | O => Some encoded
  | S todo' =>
      x ← speech !! i;
      let s := u16 x in
      encoded ← store encoded (2 * i) (u8 (Z.shiftr s 8));
      encoded ← store encoded (2 * i + 1) (u8 s);
      pcm16b_encode_loop speech todo' (S i) encoded
  end.

Definition WebRtcPcm16b_Encode (speech : list Z) (len : nat) (encoded : list Z) :
    option (list Z * nat) :=
  encoded' ← pcm16b_encode_loop speech len 0 encoded; Some (encoded', (2 * len)%nat).

Fixpoint pcm16b_decode_loop (encoded : list Z) (todo i : nat) (speech : list Z) :
    option (list Z) :=
  match todo with
  | O => Some speech
  | S todo' =>
      hi ← encoded !! (2 * i)%nat;
      lo ← encoded !! (2 * i + 1)%nat;
      speech' ← store speech i (s16 (Z.lor (Z.shiftl hi 8) lo));
      pcm16b_decode_loop encoded todo' (S i) speech'
  end.

Definition WebRtcPcm16b_Decode (encoded : list Z) (len : nat) (speech : list Z) :
    option (list Z * nat) :=
  speech' ← pcm16b_decode_loop encoded (len / 2) 0 speech; Some (speech', (len / 2)%nat).

(** ** The searches find the extreme set bits *)

(** The set bits of a word lie in an interval. *)
Definition bits_in (lo hi b : Z) : Prop := forall j, 0 <= j -> Z.testbit b j = true -> lo <= j < hi.

Lemma bits_in_weaken lo hi lo' hi' b : lo' <= lo -> hi <= hi' -> bits_in lo hi b -> bits_in lo' hi' b.
Proof. intros ? ? H j Hj Hb. specialize (H j Hj Hb). lia. Qed.

Lemma nonzero_bit b : b <> 0 -> exists j, 0 <= j /\ Z.testbit b j = true.
Proof.
  intros Hb. destruct (Z.lt_trichotomy b 0) as [Hn|[->|Hp]]; [|done|].
  - exists (Z.log2_up (- b) + 1). pose proof (Z.log2_up_nonneg (- b)). split; [lia|].
    apply Z.bits_above_log2_neg; [lia|]. pose proof (Z.le_log2_log2_up (Z.pred (- b))).
    pose proof (Z.log2_up_le_mono (Z.pred (- b)) (- b)). lia.
  - exists (Z.log2 b). split; [apply Z.log2_nonneg|]. by apply Z.bit_log2.
Qed.

Lemma land_zero_bits b m j :
  0 <= j -> Z.land b m = 0 -> Z.testbit b j = true -> Z.testbit m j = false.
Proof. intros Hj H Hb. pose proof (Z.land_spec b m j) as E. rewrite H, Z.bits_0, Hb in E. done. Qed.

(** A mask whose bits are the odd blocks of [w] positions; of a block pair at
    [i] it selects the upper block. *)
Definition odd_blocks (w m : Z) : bool :=
  forallb (fun j => Bool.eqb (Z.testbit m (Z.of_nat j)) (Z.odd (Z.of_nat j / w))) (seq 0 32).

Definition even_blocks (w m : Z) : bool :=
  forallb (fun j => Bool.eqb (Z.testbit m (Z.of_nat j)) (Z.even (Z.of_nat j / w))) (seq 0 32).

Lemma block_parity w q j :
  0 < w -> 2 * w * q <= j < 2 * w * q + 2 * w -> Z.odd (j / w) = (2 * w * q + w <=? j).
Proof.
  intros Hw Hj. destruct (Z.leb_spec (2 * w * q + w) j) as [H|H].
  - replace (j / w) with (1 + 2 * q); [rewrite Z.odd_add_mul_2; done|].
    apply Z.div_unique_pos with (j - w * (1 + 2 * q)); lia.
  - replace (j / w) with (0 + 2 * q); [rewrite Z.odd_add_mul_2; done|].
    apply Z.div_unique_pos with (j - w * (2 * q)); lia.
Qed.

Lemma odd_blocks_bit w m q j :
  odd_blocks w m = true -> 0 < w -> 0 <= j < 32 -> 2 * w * q <= j < 2 * w * q + 2 * w ->
  Z.testbit m j = (2 * w * q + w <=? j).
Proof.
  intros H Hw Hj Hb. unfold odd_blocks in H. rewrite forallb_forall in H.
  specialize (H (Z.to_nat j)). rewrite Z2Nat.id, eqb_true_iff in H by lia.
  rewrite H by (apply in_seq; lia). by apply block_parity.
Qed.

Lemma even_blocks_bit w m q j :
  even_blocks w m = true -> 0 < w -> 0 <= j < 32 -> 2 * w * q <= j < 2 * w * q + 2 * w ->
  Z.testbit m j = (j <? 2 * w * q + w).
Proof.
  intros H Hw Hj Hb. unfold even_blocks in H. rewrite forallb_forall in H.
  specialize (H (Z.to_nat j)). rewrite Z2Nat.id, eqb_true_iff in H by lia.
  rewrite H, <- Z.negb_odd, (block_parity w q) by (try apply in_seq; lia).
  by rewrite Z.leb_antisym, negb_involutive.
Qed.

(** What the upward search keeps with blocks of [k] positions left: the word is
    not empty, its bits are in the block at [i], every bit of [b0] that it has
    lost is below. *)
Definition top_inv (b0 k : Z) (st : Z * Z) : Prop :=
  let '(b, i) := st in
  b <> 0 /\ (exists q, i = k * q) /\ 0 <= i /\ i + k <= 32 /\ bits_in i (i + k) b /\
  (forall j, 0 <= j -> Z.testbit b j = true -> Z.testbit b0 j = true) /\
  (forall j, 0 <= j -> Z.testbit b0 j = true -> Z.testbit b j = true \/ j < i).

Lemma top_step_inv b0 w m st :
  odd_blocks w m = true -> 0 < w -> top_inv b0 (2 * w) st ->
  top_inv b0 w (search_step m w st).
Proof.
  destruct st as [b i]. intros Hm Hw (Hb & [q ->] & H0 & H32 & Hin & Hsub & Hlost).
  assert (Hbit : forall j, 0 <= j -> Z.testbit b j = true -> Z.testbit m j = (2 * w * q + w <=? j)).
  { intros j Hj Hbj. specialize (Hin j Hj Hbj). apply odd_blocks_bit; auto; lia. }
  unfold search_step. destruct (Z.eqb_spec (Z.land b m) 0) as [E|E].
  - repeat split; auto; try lia.
    + exists (2 * q). lia.
    + apply (Hin j); auto.
    + pose proof (land_zero_bits b m j ltac:(lia) E H1) as Hz. rewrite Hbit in Hz by auto. lia.
  - repeat split; auto; try lia.
    + exists (2 * q + 1). lia.
    + rewrite Z.land_spec in H1. apply andb_true_iff in H1 as [Hbj Hmj].
      rewrite Hbit in Hmj by auto. lia.
    + rewrite Z.land_spec in H1. apply andb_true_iff in H1 as [Hbj Hmj].
      specialize (Hin j H Hbj). lia.
    + intros j Hj Hl. rewrite Z.land_spec in Hl. apply andb_true_iff in Hl as [Hl _]. auto.
    + intros j Hj Hl. destruct (Hlost j Hj Hl) as [Hbj|]; [|right; lia].
      rewrite Z.land_spec, Hbj, Hbit by auto. destruct (Z.leb_spec (2 * w * q + w) j); auto.
Qed.

(** The downward search, towards the block that ends at [i]. *)
Definition bottom_inv (b0 k : Z) (st : Z * Z) : Prop :=
  let '(b, i) := st in
  b <> 0 /\ (exists q, i = k * q) /\ i <= 32 /\ 0 <= i - k /\ bits_in (i - k) i b /\
  (forall j, 0 <= j -> Z.testbit b j = true -> Z.testbit b0 j = true) /\
  (forall j, 0 <= j -> Z.testbit b0 j = true -> Z.testbit b j = true \/ i <= j).

Lemma bottom_step_inv b0 w m st :
  even_blocks w m = true -> 0 < w -> bottom_inv b0 (2 * w) st ->
  bottom_inv b0 w (search_step m (- w) st).
Proof.
  destruct st as [b i]. intros Hm Hw (Hb & [q ->] & H0 & H32 & Hin & Hsub & Hlost).
  assert (Hbit : forall j, 0 <= j -> Z.testbit b j = true -> Z.testbit m j = (j <? 2 * w * q - w)).
  { intros j Hj Hbj. specialize (Hin j Hj Hbj).
    rewrite (even_blocks_bit w m (q - 1)); auto; lia. }
  unfold search_step. destruct (Z.eqb_spec (Z.land b m) 0) as [E|E].
  - repeat split; auto; try lia.
    + exists (2 * q). lia.
    + pose proof (land_zero_bits b m j ltac:(lia) E H1) as Hz. rewrite Hbit in Hz by auto. lia.
    + apply (Hin j); auto.
  - repeat split; auto; try lia.
    + exists (2 * q - 1). lia.
    + rewrite Z.land_spec in H1. apply andb_true_iff in H1 as [Hbj Hmj].
      specialize (Hin j H Hbj). lia.
    + rewrite Z.land_spec in H1. apply andb_true_iff in H1 as [Hbj Hmj].
      rewrite Hbit in Hmj by auto. lia.
    + intros j Hj Hl. rewrite Z.land_spec in Hl. apply andb_true_iff in Hl as [Hl _]. auto.
    + intros j Hj Hl. destruct (Hlost j Hj Hl) as [Hbj|]; [|right; lia].
      rewrite Z.land_spec, Hbj, Hbit by auto. destruct (Z.ltb_spec j (2 * w * q - w)); [auto|right; lia].
Qed.

Lemma u32_bits_in b : 0 < b < 2 ^ 32 -> bits_in 0 32 b.
Proof.
  intros Hb j Hj Ht. split; [done|]. destruct (Z.lt_ge_cases j 32); [done|].
  rewrite Z.bits_above_log2 in Ht; [done|lia|]. pose proof (Z.log2_lt_pow2 b 32). lia.
Qed.

Lemma start_top b : 0 < b < 2 ^ 32 -> top_inv b 32 (b, 0).
Proof.
  intros Hb. repeat (split; [first [lia | by exists 0 | by apply u32_bits_in]|]). auto.
Qed.

Lemma start_bottom b : 0 < b < 2 ^ 32 -> bottom_inv b 32 (b, 32).
Proof.
  intros Hb. repeat (split; [first [lia | by exists 1 | by apply u32_bits_in]|]). auto.
Qed.

Lemma top_end b st : top_inv b 1 st -> Z.testbit b (st.2) = true /\ (forall j, st.2 < j -> Z.testbit b j = false).
Proof.
  destruct st as [c i]. intros (Hc & _ & H0 & _ & Hin & Hsub & Hlost). cbn [snd].
  destruct (nonzero_bit c Hc) as (j & Hj & Hcj).
  assert (j = i) as -> by (specialize (Hin j Hj Hcj); lia). split; [by apply Hsub|].
  intros k Hk. apply not_true_is_false. intros Hbk.
  destruct (Hlost k ltac:(lia) Hbk) as [Hck|]; [|lia]. specialize (Hin k ltac:(lia) Hck). lia.
Qed.

Lemma bottom_end b st :
  bottom_inv b 1 st ->
  Z.testbit b (st.2 - 1) = true /\ (forall j, 0 <= j < st.2 - 1 -> Z.testbit b j = false).
Proof.
  destruct st as [c i]. intros (Hc & _ & H0 & _ & Hin & Hsub & Hlost). cbn [snd].
  destruct (nonzero_bit c Hc) as (j & Hj & Hcj).
  assert (j = i - 1) as -> by (specialize (Hin j Hj Hcj); lia). split; [by apply Hsub|].
  intros k Hk. apply not_true_is_false. intros Hbk.
  destruct (Hlost k ltac:(lia) Hbk) as [Hck|]; [|lia]. specialize (Hin k ltac:(lia) Hck). lia.
Qed.

Lemma top_bit_spec b :
  0 < b < 2 ^ 32 ->
  Z.testbit b (top_bit b) = true /\ (forall j, top_bit b < j -> Z.testbit b j = false).
Proof.
  intros Hb. unfold top_bit. rewrite (proj2 (Z.eqb_neq b 0)) by lia. cbv zeta.
  apply top_end. repeat (apply top_step_inv; [reflexivity|lia|]). by apply start_top.
Qed.

Lemma bottom_bit_spec b :
  0 < b < 2 ^ 32 ->
  Z.testbit b (bottom_bit b - 1) = true /\
  (forall j, 0 <= j < bottom_bit b - 1 -> Z.testbit b j = false).
Proof.
  intros Hb. unfold bottom_bit. rewrite (proj2 (Z.eqb_neq b 0)) by lia. cbv zeta.
  apply bottom_end. repeat (apply bottom_step_inv; [reflexivity|lia|]). by apply start_bottom.
Qed.

Lemma top_bit_log2 b : 0 < b < 2 ^ 32 -> top_bit b = Z.log2 b.
Proof.
  intros Hb. destruct (top_bit_spec b Hb) as [H1 H2].
  pose proof (Z.bit_log2 b ltac:(lia)) as Hl. pose proof (Z.log2_nonneg b) as Hnn.
  destruct (Z.lt_trichotomy (top_bit b) (Z.log2 b)) as [Hlt|[Heq|Hgt]]; [|done|].
  - rewrite H2 in Hl by done. done.
  - rewrite Z.bits_above_log2 in H1 by lia. done.
Qed.

(** The portable bit searches are equivalent to what they stand for: on a
    word of 32 bits [top_bit] is the binary logarithm, the position of the
    highest set bit, and [bottom_bit] is the position of the lowest set bit
    plus one; both are -1 on zero. *)
Theorem bit_search_equiv bits :
  is_u32 bits ->
  if bits =? 0 then top_bit bits = -1 /\ bottom_bit bits = -1
  else
    top_bit bits = Z.log2 bits /\ 1 <= bottom_bit bits <= 32 /\
    bits mod 2 ^ (bottom_bit bits - 1) = 0 /\ Z.odd (bits / 2 ^ (bottom_bit bits - 1)) = true.
Proof.
  intros Hb. destruct (Z.eqb_spec bits 0) as [->|H0]; [done|].
  assert (Hp : 0 < bits < 2 ^ 32) by clia. destruct (bottom_bit_spec bits Hp) as [H1 H2].
  split; [by apply top_bit_log2|].
  assert (Hn : 0 <= bottom_bit bits - 1).
  { destruct (Z.lt_ge_cases (bottom_bit bits - 1) 0); [|done]. by rewrite Z.testbit_neg_r in H1. }
  pose proof (u32_bits_in bits Hp _ Hn H1). split; [lia|]. split.
  - apply Z.bits_inj'. intros j Hj. rewrite Z.bits_0.
    destruct (Z.lt_ge_cases j (bottom_bit bits - 1)).
    + rewrite Z.mod_pow2_bits_low by lia. apply H2. lia.
    + apply Z.mod_pow2_bits_high. lia.
  - by rewrite <- Z.bit0_odd, Z.div_pow2_bits, Z.add_0_l by lia.
Qed.

Lemma bit_search_equiv_witness :
  top_bit 40 = 5 /\ top_bit 40 = Z.log2 40.
Proof. split; [reflexivity|]. apply (bit_search_equiv 40). unfold is_u32. lia. Defined.

(** ** What a compander promises *)

(** [enc] takes samples to bytes and [dec] back: coding a decoded sample again
    changes nothing, the order of samples is kept, and 32 times the error of a
    sample is at most [bound] of it. *)
Class Compander (enc dec : Z -> Z) (bound : Z -> Z) : Prop := {
  cmp_code x : is_s16 x -> is_u8 (enc x);
  cmp_sample c : is_u8 c -> is_s16 (dec c);
  cmp_stable c : is_u8 c -> dec (enc (dec c)) = dec c;
  cmp_mono x y : is_s16 x -> is_s16 y -> x <= y -> dec (enc x) <= dec (enc y);
  cmp_error x : is_s16 x -> 32 * Z.abs (dec (enc x) - x) <= bound x;
}.

(** Facts about all bytes, by evaluation. *)
Lemma all_bytes (P : Z -> bool) :
  forallb (fun n => P (Z.of_nat n)) (seq 0 256) = true -> forall c, is_u8 c -> P c = true.
Proof.
  rewrite forallb_forall. intros H c Hc. rewrite <- (Z2Nat.id c) by clia.
  apply H, in_seq. clia.
Qed.

(** The segment of a magnitude. *)
Lemma seg_at l k :
  0 <= k <= 8 -> (k = 0 /\ 0 <= l) \/ 2 ^ (k + 7) <= l -> l < 2 ^ (k + 8) ->
  top_bit (u32 (Z.lor l 0xFF)) - 7 = k.
Proof.
  intros Hk Hlo Hhi. pose proof (Z.pow_pos_nonneg 2 (k + 7) ltac:(lia) ltac:(lia)) as Hp.
  assert (Hb : 2 ^ (k + 8) <= 2 ^ 16) by (apply Z.pow_le_mono_r; lia).
  assert (Hl : Z.log2 (Z.lor l 0xFF) = k + 7).
  { rewrite Z.log2_lor by lia. change (Z.log2 0xFF) with 7. destruct Hlo as [[-> H0]|Hlo].
    - pose proof (Z.log2_le_mono l 255 ltac:(lia)). change (Z.log2 255) with 7 in *. lia.
    - rewrite (Z.log2_unique l (k + 7)) by (unfold Z.succ; replace (k + 7 + 1) with (k + 8); lia). lia. }
  assert (H1 : 0 < Z.lor l 0xFF < 2 ^ 16).
  { assert (0 <= Z.lor l 0xFF) by (apply Z.lor_nonneg; lia).
    assert (Z.lor l 0xFF <> 0) by (intros E; rewrite E in Hl; change (Z.log2 0) with 0 in Hl; lia).
    split; [lia|]. pose proof (Z.log2_spec (Z.lor l 0xFF) ltac:(lia)).
    rewrite Hl in *. unfold Z.succ in *. replace (k + 7 + 1) with (k + 8) in * by lia. lia. }
  rewrite u32_id by clia. rewrite top_bit_log2 by lia. lia.
Qed.

(** The code word of a segment [k] and an interval [q], before the mask. *)
Lemma code_word k q : 0 <= k < 8 -> 0 <= q < 16 -> Z.lor (Z.shiftl k 4) q = 16 * k + q.
Proof.
  intros Hk Hq. rewrite shiftl_mul by lia. rewrite (lor_disjoint (k * 2 ^ 4) q 4) by (rewrite ?Z.mod_mul; lia). lia.
Qed.

(** The eight segments, one by one. *)
Ltac segments k :=
  let H := fresh in
  assert (H : k = 0 \/ k = 1 \/ k = 2 \/ k = 3 \/ k = 4 \/ k = 5 \/ k = 6 \/ k = 7) by lia;
  destruct H as [-> | [-> | [-> | [-> | [-> | [-> | [-> | ->]]]]]]].

(** A magnitude is in interval [q] of segment [k], or beyond the last one. *)
Definition ulaw_cell (l k q : Z) : Prop :=
  0 <= k < 8 /\ 0 <= q < 16 /\ 2 ^ (k + 3) * (16 + q) <= l /\
  (l < 2 ^ (k + 3) * (17 + q) \/ k = 7 /\ q = 15 /\ l < 33000).

Definition ulaw_level (k q : Z) : Z := (8 * q + 132) * 2 ^ k - 132.

Lemma ulaw_magnitude l mask :
  132 <= l < 33000 ->
  exists k q, ulaw_cell l k q /\
    (if 8 <=? top_bit (u32 (Z.lor l 0xFF)) - 7 then u8 (Z.lxor 0x7F mask)
     else
       let seg := top_bit (u32 (Z.lor l 0xFF)) - 7 in
       u8 (Z.lxor (Z.lor (Z.shiftl seg 4) (Z.land (Z.shiftr l (seg + 3)) 0xF)) mask)) =
    u8 (Z.lxor (16 * k + q) mask).
Proof.
  intros Hl. destruct (Z.lt_ge_cases l (2 ^ 15)) as [Hc|Hc].
  - set (k := Z.log2 l - 7).
    assert (Hk : 0 <= k < 8 /\ 2 ^ (k + 7) <= l < 2 ^ (k + 8)).
    { pose proof (Z.log2_spec l ltac:(lia)) as Hs. pose proof (Z.log2_le_mono 132 l ltac:(lia)).
      pose proof (Z.log2_lt_pow2 l 15 ltac:(lia)). change (Z.log2 132) with 7 in *.
      unfold k. replace (Z.log2 l - 7 + 7) with (Z.log2 l) by lia.
      replace (Z.log2 l - 7 + 8) with (Z.succ (Z.log2 l)) by lia. lia. }
    destruct Hk as [Hk Hr]. exists k, ((l / 2 ^ (k + 3)) mod 16).
    rewrite (seg_at l k) by lia. rewrite (proj2 (Z.leb_gt 8 k)) by lia. cbv zeta.
    change 0xF with (Z.ones 4). rewrite Z.land_ones, shiftr_div, code_word by (try apply Z.mod_pos_bound; lia).
    split; [|done]. unfold ulaw_cell. clearbody k. segments k; dmlia.
  - exists 7, 15. rewrite (seg_at l 8) by lia. split; [|done]. unfold ulaw_cell. lia.
Qed.

Definition ulaw_linear (x : Z) : Z := if x <? 0 then 131 - x else 132 + x.

Lemma linear_to_ulaw_cell x :
  is_s16 x -> exists k q, ulaw_cell (ulaw_linear x) k q /\
    linear_to_ulaw x = u8 (Z.lxor (16 * k + q) (if x <? 0 then 0x7F else 0xFF)).
Proof.
  intros Hx. unfold ulaw_linear, linear_to_ulaw, ULAW_BIAS. destruct (Z.ltb_spec x 0).
  - replace (0x84 - x - 1) with (131 - x) by lia. apply ulaw_magnitude. clia.
  - replace (0x84 + x) with (132 + x) by lia. apply ulaw_magnitude. clia.
Qed.

Lemma ulaw_to_linear_level k q :
  0 <= k < 8 -> 0 <= q < 16 ->
  ulaw_to_linear (u8 (Z.lxor (16 * k + q) 0xFF)) = ulaw_level k q /\
  ulaw_to_linear (u8 (Z.lxor (16 * k + q) 0x7F)) = - ulaw_level k q.
Proof.
  intros Hk Hq.
  pose proof (all_bytes (fun c => if c <? 128 then
    (ulaw_to_linear (u8 (Z.lxor c 0xFF)) =? ulaw_level (c / 16) (c mod 16)) &&
    (ulaw_to_linear (u8 (Z.lxor c 0x7F)) =? - ulaw_level (c / 16) (c mod 16)) else true)
    ltac:(vm_compute; reflexivity) (16 * k + q) ltac:(clia)) as H.
  cbv beta in H. rewrite (proj2 (Z.ltb_lt (16 * k + q) 128)) in H by lia.
  replace ((16 * k + q) / 16) with k in H by dmlia. replace ((16 * k + q) mod 16) with q in H by dmlia.
  lia.
Qed.

(** The sample that comes back is the middle of its interval. *)
Lemma ulaw_quantised x :
  is_s16 x -> exists k q, ulaw_cell (ulaw_linear x) k q /\
    ulaw_to_linear (linear_to_ulaw x) = if x <? 0 then - ulaw_level k q else ulaw_level k q.
Proof.
  intros Hx. destruct (linear_to_ulaw_cell x Hx) as (k & q & Hc & ->). exists k, q.
  split; [done|]. destruct Hc as (Hk & Hq & _).
  destruct (ulaw_to_linear_level k q Hk Hq). by destruct (x <? 0).
Qed.

Lemma ulaw_level_mono l l' k q k' q' :
  ulaw_cell l k q -> ulaw_cell l' k' q' -> l <= l' -> ulaw_level k q <= ulaw_level k' q'.
Proof.
  unfold ulaw_cell, ulaw_level. intros (Hk & Hq & H1 & H2) (Hk' & Hq' & H1' & H2') Hl.
  segments k; segments k'; cbn in *; lia.
Qed.

Lemma ulaw_level_nonneg k q : 0 <= k < 8 -> 0 <= q < 16 -> 0 <= ulaw_level k q.
Proof. unfold ulaw_level. intros Hk Hq. segments k; lia. Qed.

#[export] Instance ulaw_compander :
  Compander linear_to_ulaw ulaw_to_linear (fun x => Z.abs x + 132).
Proof.
  split.
  - intros x Hx. destruct (linear_to_ulaw_cell x Hx) as (k & q & _ & ->). apply u8_range.
  - intros c _. apply s16_range.
  - intros c Hc. apply Z.eqb_eq.
    by apply (all_bytes (fun c => ulaw_to_linear (linear_to_ulaw (ulaw_to_linear c)) =? ulaw_to_linear c)).
  - intros x y Hx Hy Hxy. destruct (ulaw_quantised x Hx) as (k & q & Hc & ->).
    destruct (ulaw_quantised y Hy) as (k' & q' & Hc' & ->).
    pose proof (ulaw_level_nonneg k q). pose proof (ulaw_level_nonneg k' q').
    pose proof (ulaw_level_mono _ _ _ _ _ _ Hc Hc') as Hm.
    pose proof (ulaw_level_mono _ _ _ _ _ _ Hc' Hc) as Hm'.
    unfold ulaw_cell, ulaw_linear in *. destruct (Z.ltb_spec x 0), (Z.ltb_spec y 0); lia.
  - intros x Hx. destruct (ulaw_quantised x Hx) as (k & q & Hc & ->).
    unfold ulaw_cell, ulaw_linear, ulaw_level in *. destruct Hc as (Hk & Hq & H1 & H2).
    destruct (Z.ltb_spec x 0); segments k; cbn in *; clia.
Qed.

Definition alaw_cell (l k q : Z) : Prop :=
  0 <= k < 8 /\ 0 <= q < 16 /\
  if k =? 0 then 16 * q <= l < 16 * q + 16
  else 2 ^ (k + 3) * (16 + q) <= l < 2 ^ (k + 3) * (17 + q).

Definition alaw_level (k q : Z) : Z :=
  if k =? 0 then 16 * q + 8 else (16 * q + 264) * 2 ^ (k - 1).

Definition alaw_linear (x : Z) : Z := if 0 <=? x then x else - x - 1.

Lemma alaw_magnitude l mask :
  0 <= l < 2 ^ 15 ->
  exists k q, alaw_cell l k q /\
    (if 8 <=? top_bit (u32 (Z.lor l 0xFF)) - 7 then
       if 0 <=? l then u8 (Z.lxor 0x7F mask) else u8 (Z.lxor 0x00 mask)
     else
       let seg := top_bit (u32 (Z.lor l 0xFF)) - 7 in
       u8 (Z.lxor (Z.lor (Z.shiftl seg 4)
                         (Z.land (Z.shiftr l (if seg =? 0 then 4 else seg + 3)) 0x0F)) mask)) =
    u8 (Z.lxor (16 * k + q) mask).
Proof.
  intros Hl. set (k := Z.max (Z.log2 l) 7 - 7).
  assert (Hk : 0 <= k < 8 /\ (k = 0 /\ 0 <= l \/ 2 ^ (k + 7) <= l) /\ l < 2 ^ (k + 8)).
  { unfold k. destruct (Z.lt_ge_cases l 128) as [Hs|Hs].
    - pose proof (Z.log2_le_mono l 127 ltac:(lia)). change (Z.log2 127) with 6 in *.
      rewrite Z.max_r by lia. lia.
    - pose proof (Z.log2_spec l ltac:(lia)) as Hg. pose proof (Z.log2_le_mono 128 l ltac:(lia)).
      pose proof (Z.log2_lt_pow2 l 15 ltac:(lia)). change (Z.log2 128) with 7 in *.
      rewrite Z.max_l by lia. replace (Z.log2 l - 7 + 7) with (Z.log2 l) by lia.
      replace (Z.log2 l - 7 + 8) with (Z.succ (Z.log2 l)) by lia. lia. }
  destruct Hk as (Hk & Hlo & Hhi).
  exists k, ((l / 2 ^ (if k =? 0 then 4 else k + 3)) mod 16).
  rewrite (seg_at l k) by lia. rewrite (proj2 (Z.leb_gt 8 k)) by lia. cbv zeta.
  change 0x0F with (Z.ones 4).
  rewrite Z.land_ones, shiftr_div, code_word by (try apply Z.mod_pos_bound; try bcase; lia).
  split; [|done]. unfold alaw_cell. clearbody k. segments k; cbn [Z.eqb]; dmlia.
Qed.

Lemma linear_to_alaw_cell x :
  is_s16 x -> exists k q, alaw_cell (alaw_linear x) k q /\
    linear_to_alaw x = u8 (Z.lxor (16 * k + q) (if 0 <=? x then 0xD5 else 0x55)).
Proof.
  intros Hx. unfold alaw_linear, linear_to_alaw, ALAW_AMI_MASK.
  change (Z.lor 0x55 0x80) with 0xD5. destruct (Z.leb_spec 0 x); apply alaw_magnitude; clia.
Qed.

Lemma alaw_to_linear_level k q :
  0 <= k < 8 -> 0 <= q < 16 ->
  alaw_to_linear (u8 (Z.lxor (16 * k + q) 0xD5)) = alaw_level k q /\
  alaw_to_linear (u8 (Z.lxor (16 * k + q) 0x55)) = - alaw_level k q.
Proof.
  intros Hk Hq.
  pose proof (all_bytes (fun c => if c <? 128 then
    (alaw_to_linear (u8 (Z.lxor c 0xD5)) =? alaw_level (c / 16) (c mod 16)) &&
    (alaw_to_linear (u8 (Z.lxor c 0x55)) =? - alaw_level (c / 16) (c mod 16)) else true)
    ltac:(vm_compute; reflexivity) (16 * k + q) ltac:(clia)) as H.
  cbv beta in H. rewrite (proj2 (Z.ltb_lt (16 * k + q) 128)) in H by lia.
  replace ((16 * k + q) / 16) with k in H by dmlia. replace ((16 * k + q) mod 16) with q in H by dmlia.
  lia.
Qed.

Lemma alaw_quantised x :
  is_s16 x -> exists k q, alaw_cell (alaw_linear x) k q /\
    alaw_to_linear (linear_to_alaw x) = if 0 <=? x then alaw_level k q else - alaw_level k q.
Proof.
  intros Hx. destruct (linear_to_alaw_cell x Hx) as (k & q & Hc & ->). exists k, q.
  split; [done|]. destruct Hc as (Hk & Hq & _).
  destruct (alaw_to_linear_level k q Hk Hq). by destruct (0 <=? x).
Qed.

Lemma alaw_level_mono l l' k q k' q' :
  alaw_cell l k q -> alaw_cell l' k' q' -> l <= l' -> alaw_level k q <= alaw_level k' q'.
Proof.
  unfold alaw_cell, alaw_level. intros (Hk & Hq & H1) (Hk' & Hq' & H1') Hl.
  segments k; segments k'; cbn in *; lia.
Qed.

Lemma alaw_level_nonneg k q : 0 <= k < 8 -> 0 <= q < 16 -> 0 <= alaw_level k q.
Proof. unfold alaw_level. intros Hk Hq. segments k; cbn; lia. Qed.

#[export] Instance alaw_compander :
  Compander linear_to_alaw alaw_to_linear (fun x => Z.max 256 (Z.abs x)).
Proof.
  split.
  - intros x Hx. destruct (linear_to_alaw_cell x Hx) as (k & q & _ & ->). apply u8_range.
  - intros c _. apply s16_range.
  - intros c Hc. apply Z.eqb_eq.
    by apply (all_bytes (fun c => alaw_to_linear (linear_to_alaw (alaw_to_linear c)) =? alaw_to_linear c)).
  - intros x y Hx Hy Hxy. destruct (alaw_quantised x Hx) as (k & q & Hc & ->).
    destruct (alaw_quantised y Hy) as (k' & q' & Hc' & ->).
    pose proof (alaw_level_nonneg k q). pose proof (alaw_level_nonneg k' q').
    pose proof (alaw_level_mono _ _ _ _ _ _ Hc Hc') as Hm.
    pose proof (alaw_level_mono _ _ _ _ _ _ Hc' Hc) as Hm'.
    unfold alaw_cell, alaw_linear in *. destruct (Z.leb_spec 0 x), (Z.leb_spec 0 y); lia.
  - intros x Hx. destruct (alaw_quantised x Hx) as (k & q & Hc & ->).
    unfold alaw_cell, alaw_linear, alaw_level in *. destruct Hc as (Hk & Hq & H1).
    destruct (Z.leb_spec 0 x); segments k; cbn in *; clia.
Qed.

(** ** Buffers *)

Lemma store_Some l i v : (i < length l)%nat -> store l i v = Some (<[i:=v]> l).
Proof. intros H. unfold store. by rewrite decide_True. Qed.

Lemma convert_spec f src todo n dst :
  (n + todo <= length src)%nat -> (n + todo <= length dst)%nat ->
  convert f src todo n dst =
  Some (take n dst ++ map f (take todo (drop n src)) ++ drop (n + todo) dst).
Proof.
  revert n dst. induction todo as [|todo IH]; intros n dst Hs Hd; cbn [convert].
  - rewrite Nat.add_0_r. cbn. by rewrite firstn_skipn.
  - destruct (lookup_lt_is_Some_2 src n ltac:(lia)) as [x Hx]. rewrite Hx. cbn [mbind option_bind].
    rewrite store_Some by lia. cbn [mbind option_bind].
    rewrite IH by (rewrite ?length_insert; lia). f_equal.
    rewrite (take_S_r _ _ (f x)) by (apply list_lookup_insert_eq; lia).
    rewrite take_insert_ge, drop_insert_lt, (drop_S src x n), <- app_assoc by (lia || done).
    cbn. by rewrite Nat.add_succ_r.
Qed.

(** The buffer of a conversion: its first [len] places hold the converted
    samples, the rest is as it was. *)
Lemma convert_all f src len dst :
  (len <= length src)%nat -> (len <= length dst)%nat ->
  convert f src len 0 dst = Some (map f (take len src) ++ drop len dst).
Proof. intros Hs Hd. by rewrite convert_spec by lia. Qed.

(** [out] carries the first [len] samples of [speech]: within the error bound,
    in order, and nothing behind them is written. *)
Definition carried (bound : Z -> Z) (len : nat) (speech out out0 : list Z) : Prop :=
  length out = length out0 /\ drop len out = drop len out0 /\
  (forall i x, (i < len)%nat -> speech !! i = Some x ->
     exists y, out !! i = Some y /\ is_s16 y /\ 32 * Z.abs (y - x) <= bound x) /\
  (forall i j x x' y y', (i < len)%nat -> (j < len)%nat ->
     speech !! i = Some x -> speech !! j = Some x' -> out !! i = Some y -> out !! j = Some y' ->
     x <= x' -> y <= y').

Section buffers.
Context {enc dec bound : Z -> Z} `{!Compander enc dec bound}.

Lemma take_converted f len (src dst : list Z) :
  (len <= length src)%nat -> take len (map f (take len src) ++ drop len dst) = map f (take len src).
Proof. intros H. apply take_app_length'. rewrite length_map, length_take. lia. Qed.

Lemma carried_samples len speech out0 :
  Forall is_s16 speech -> (len <= length speech)%nat -> (len <= length out0)%nat ->
  carried bound len speech (map (fun x => dec (enc x)) (take len speech) ++ drop len out0) out0.
Proof.
  intros Hs Hl Ho.
  assert (Hlen : length (map (fun x => dec (enc x)) (take len speech)) = len)
    by (rewrite length_map, length_take; lia).
  assert (Hat : forall i x, (i < len)%nat -> speech !! i = Some x ->
    (map (fun x => dec (enc x)) (take len speech) ++ drop len out0) !! i = Some (dec (enc x))).
  { intros i x Hi Hx. rewrite lookup_app_l by lia.
    rewrite (list_lookup_fmap (fun x => dec (enc x))), lookup_take_lt, Hx by lia. done. }
  assert (Hr : forall i x, speech !! i = Some x -> is_s16 x).
  { intros i x Hx. eapply Forall_lookup_1; eauto. }
  split_and!.
  - rewrite length_app, Hlen, length_drop. lia.
  - by apply drop_app_length'.
  - intros i x Hi Hx. eexists. split; [by apply Hat|]. split.
    + apply cmp_sample, cmp_code, (Hr i x Hx).
    + apply cmp_error, (Hr i x Hx).
  - intros i j x x' y y' Hi Hj Hx Hx' Hy Hy' Hxx.
    rewrite (Hat i x) in Hy by done. rewrite (Hat j x') in Hy' by done. simplify_eq.
    apply cmp_mono; eauto.
Qed.

(** Encoding and decoding a buffer; coding the result once more gives it again. *)
Lemma buffers_carry len speech enc0 out0 :
  Forall is_s16 speech ->
  (len <= length speech)%nat -> (len <= length enc0)%nat -> (len <= length out0)%nat ->
  exists e out e',
    convert enc speech len 0 enc0 = Some e /\ convert dec e len 0 out0 = Some out /\
    carried bound len speech out out0 /\
    convert enc out len 0 enc0 = Some e' /\ convert dec e' len 0 out0 = Some out.
Proof.
  intros Hs H1 H2 H3. do 3 eexists. split_and!.
  - by apply convert_all.
  - rewrite convert_all; [by rewrite take_converted| |done]. rewrite length_app, length_map, length_take, length_drop. lia.
  - rewrite map_map. by apply carried_samples.
  - apply convert_all; [|done]. rewrite length_app, !length_map, length_take, length_drop. lia.
  - rewrite convert_all; [| |done].
    2: { rewrite length_app, !length_map, !length_take, length_app, !length_map, length_take, !length_drop. lia. }
    rewrite take_app_length' by (rewrite !length_map, !length_take, length_app, !length_map, length_take, length_drop; lia).
    rewrite map_map, take_app_length' by (rewrite !length_map, length_take; lia).
    f_equal. f_equal. rewrite !map_map. apply map_ext_Forall.
    eapply list.Forall_impl; [by apply Forall_take|]. intros x Hx. by apply cmp_stable, cmp_code.
Qed.
End buffers.

(** G.711 carries speech: for a buffer of samples and buffers that can
    hold them, encoding and decoding with either law return the number of
    samples, write only those places, keep each sample to within 1/32 of its
    size (plus 132 for mu-law, of at least 256 for A-law), keep the order of
    samples, and a second pass of the codec changes no sample any more. *)
Theorem g711_transport speech enc0 out0 (len : nat) :
  Forall is_s16 speech ->
  (len <= length speech)%nat -> (len <= length enc0)%nat -> (len <= length out0)%nat ->
  (exists e out e',
     WebRtcG711_EncodeU speech len enc0 = Some (e, len) /\
     WebRtcG711_DecodeU e len out0 = Some (out, 1, len) /\
     carried (fun x => Z.abs x + 132) len speech out out0 /\
     WebRtcG711_EncodeU out len enc0 = Some (e', len) /\
     WebRtcG711_DecodeU e' len out0 = Some (out, 1, len)) /\
  (exists e out e',
     WebRtcG711_EncodeA speech len enc0 = Some (e, len) /\
     WebRtcG711_DecodeA e len out0 = Some (out, 1, len) /\
     carried (fun x => Z.max 256 (Z.abs x)) len speech out out0 /\
     WebRtcG711_EncodeA out len enc0 = Some (e', len) /\
     WebRtcG711_DecodeA e' len out0 = Some (out, 1, len)).
Proof.
  intros Hs H1 H2 H3. split.
  - destruct (buffers_carry (enc := linear_to_ulaw) (dec := ulaw_to_linear) len speech enc0 out0)
      as (e & out & e' & E1 & E2 & Hc & E3 & E4); auto. exists e, out, e'.
    unfold WebRtcG711_EncodeU, WebRtcG711_DecodeU. by rewrite E1, E2, E3, E4.
  - destruct (buffers_carry (enc := linear_to_alaw) (dec := alaw_to_linear) len speech enc0 out0)
      as (e & out & e' & E1 & E2 & Hc & E3 & E4); auto. exists e, out, e'.
    unfold WebRtcG711_EncodeA, WebRtcG711_DecodeA. by rewrite E1, E2, E3, E4.
Qed.

Lemma g711_transport_witness :
  exists e out e',
    WebRtcG711_EncodeU [0; -1; 1000; -32768] 4 [0; 0; 0; 0; 7] = Some (e, 4%nat) /\
    WebRtcG711_DecodeU e 4 [0; 0; 0; 0] = Some (out, 1, 4%nat) /\
    carried (fun x => Z.abs x + 132) 4 [0; -1; 1000; -32768] out [0; 0; 0; 0] /\
    WebRtcG711_EncodeU out 4 [0; 0; 0; 0; 7] = Some (e', 4%nat) /\
    WebRtcG711_DecodeU e' 4 [0; 0; 0; 0] = Some (out, 1, 4%nat).
Proof.
  apply (g711_transport [0; -1; 1000; -32768] [0; 0; 0; 0; 7] [0; 0; 0; 0] 4); [|simpl; lia..].
  repeat constructor; unfold is_s16; lia.
Defined.

(** ** Transcoding *)

Definition transcoding_ok (c : Z) : bool :=
  match ulaw_to_alaw c, alaw_to_ulaw c with
  | Some a, Some u =>
      (16 * Z.abs (alaw_to_linear a - ulaw_to_linear c) <=? Z.abs (ulaw_to_linear c) + 128) &&
      (16 * Z.abs (ulaw_to_linear u - alaw_to_linear c) <=? Z.abs (alaw_to_linear c)) &&
      (0 <=? ulaw_to_linear c * alaw_to_linear a) && (0 <=? ulaw_to_linear u * alaw_to_linear c) &&
      match ulaw_to_alaw u, alaw_to_ulaw a with
      | Some a', Some u' =>
          bool_decide (alaw_to_ulaw a' = Some u) && bool_decide (ulaw_to_alaw u' = Some a)
      | _, _ => false
      end
  | _, _ => false
  end.

(** Transcoding with the tables of G.711 is defined on every byte and stays
    close: the sample of the transcoded byte differs from the sample of the
    byte by at most a sixteenth (plus 8 from mu-law to A-law), keeps its sign,
    and after one pass there and back further passes change nothing. *)
Theorem transcoding c :
  is_u8 c ->
  exists a u a' u',
    ulaw_to_alaw c = Some a /\ alaw_to_ulaw c = Some u /\
    16 * Z.abs (alaw_to_linear a - ulaw_to_linear c) <= Z.abs (ulaw_to_linear c) + 128 /\
    16 * Z.abs (ulaw_to_linear u - alaw_to_linear c) <= Z.abs (alaw_to_linear c) /\
    0 <= ulaw_to_linear c * alaw_to_linear a /\ 0 <= ulaw_to_linear u * alaw_to_linear c /\
    ulaw_to_alaw u = Some a' /\ alaw_to_ulaw a = Some u' /\
    alaw_to_ulaw a' = Some u /\ ulaw_to_alaw u' = Some a.
Proof.
  intros Hc. pose proof (all_bytes transcoding_ok ltac:(vm_compute; reflexivity) c Hc) as H.
  unfold transcoding_ok in H.
  destruct (ulaw_to_alaw c) as [a|]; [|done]. destruct (alaw_to_ulaw c) as [u|]; [|done].
  destruct (ulaw_to_alaw u) as [a'|] eqn:Ea; [|by rewrite andb_false_r in H].
  destruct (alaw_to_ulaw a) as [u'|] eqn:Eu; [|by rewrite andb_false_r in H].
  rewrite !andb_true_iff, !bool_decide_eq_true, !Z.leb_le in H. exists a, u, a', u'. tauto.
Qed.

Lemma transcoding_witness :
  ulaw_to_alaw 47 = Some 26 /\ exists u a' , alaw_to_ulaw 47 = Some u /\ ulaw_to_alaw u = Some a'.
Proof.
  split; [reflexivity|]. destruct (transcoding 47) as (a & u & a' & u' & H); [unfold is_u8; lia|].
  exists u, a'. tauto.
Defined.

(** The transcoded byte is not always the nearest one. *)
Lemma transcoding_not_nearest :
  alaw_to_ulaw 0 = Some 42 /\
  Z.abs (ulaw_to_linear 42 - alaw_to_linear 0) = 132 /\
  Z.abs (ulaw_to_linear 41 - alaw_to_linear 0) = 124.
Proof. repeat split. Qed.

(** ** PCM16B *)

(** The bytes of a sample, the most significant one first. *)
Definition sample_bytes (x : Z) : list Z := [u8 (Z.shiftr (u16 x) 8); u8 (u16 x)].

Lemma sample_bytes_value x :
  is_s16 x -> s16 (Z.lor (Z.shiftl (u8 (Z.shiftr (u16 x) 8)) 8) (u8 (u16 x))) = x.
Proof.
  intros Hx. pose proof (u16_range x). pose proof (u8_range (u16 x)).
  rewrite shiftl_mul, shiftr_div by lia. rewrite (lor_disjoint _ _ 8); [dmlia|lia| |clia].
  apply Z.mod_mul. lia.
Qed.

Lemma pair_bytes hi lo :
  is_u8 hi -> is_u8 lo -> sample_bytes (s16 (Z.lor (Z.shiftl hi 8) lo)) = [hi; lo].
Proof.
  intros Hh Hl. rewrite shiftl_mul by lia.
  rewrite (lor_disjoint _ _ 8) by (rewrite ?Z.mod_mul; clia).
  unfold sample_bytes. rewrite shiftr_div by lia. f_equal; [|f_equal]; dmlia.
Qed.

Lemma take_SS_insert (l : list Z) n a b :
  (n + 1 < length l)%nat ->
  take (n + 2) (<[(n + 1)%nat := b]> (<[n := a]> l)) = take n l ++ [a; b].
Proof.
  intros H. replace (n + 2)%nat with (S (S n)) by lia. replace (n + 1)%nat with (S n) by lia.
  rewrite (take_S_r _ (S n) b) by (apply list_lookup_insert_eq; rewrite length_insert; lia).
  rewrite (take_S_r _ n a).
  - by rewrite take_insert_ge, take_insert_ge, <- app_assoc by lia.
  - rewrite list_lookup_insert_ne by lia. apply list_lookup_insert_eq. lia.
Qed.

Lemma pcm16b_encode_spec speech todo i encoded :
  (i + todo <= length speech)%nat -> (2 * (i + todo) <= length encoded)%nat ->
  pcm16b_encode_loop speech todo i encoded =
  Some (take (2 * i) encoded ++ concat (map sample_bytes (take todo (drop i speech))) ++
        drop (2 * (i + todo)) encoded).
Proof.
  revert i encoded. induction todo as [|todo IH]; intros i encoded Hs He; cbn [pcm16b_encode_loop].
  - rewrite Nat.add_0_r. cbn [take map concat app]. by rewrite firstn_skipn.
  - destruct (lookup_lt_is_Some_2 speech i ltac:(lia)) as [x Hx]. rewrite Hx. cbn [mbind option_bind].
    rewrite store_Some by lia. cbn [mbind option_bind].
    rewrite store_Some by (rewrite length_insert; lia). cbn [mbind option_bind].
    rewrite IH by (rewrite ?length_insert; lia). f_equal.
    replace (2 * S i)%nat with (2 * i + 2)%nat by lia. rewrite take_SS_insert by lia.
    rewrite !drop_insert_lt, (drop_S speech x i), <- app_assoc by (lia || done).
    cbn [take map concat]. rewrite <- app_assoc. do 4 f_equal. lia.
Qed.

Lemma pcm16b_decode_spec encoded todo i speech :
  (2 * (i + todo) <= length encoded)%nat -> (i + todo <= length speech)%nat ->
  exists out, length out = todo /\
    pcm16b_decode_loop encoded todo i speech = Some (take i speech ++ out ++ drop (i + todo) speech) /\
    (forall j, (j < todo)%nat -> exists hi lo,
       encoded !! (2 * (i + j))%nat = Some hi /\ encoded !! (2 * (i + j) + 1)%nat = Some lo /\
       out !! j = Some (s16 (Z.lor (Z.shiftl hi 8) lo))).
Proof.
  revert i speech. induction todo as [|todo IH]; intros i speech He Hs; cbn [pcm16b_decode_loop].
  - exists []. rewrite Nat.add_0_r. cbn. rewrite firstn_skipn. split_and!; auto. lia.
  - destruct (lookup_lt_is_Some_2 encoded (2 * i) ltac:(lia)) as [hi Hhi].
    destruct (lookup_lt_is_Some_2 encoded (2 * i + 1) ltac:(lia)) as [lo Hlo].
    rewrite Hhi, Hlo. cbn [mbind option_bind]. rewrite store_Some by lia. cbn [mbind option_bind].
    destruct (IH (S i) (<[i:=s16 (Z.lor (Z.shiftl hi 8) lo)]> speech)) as (out & Hl & -> & Hat);
      [lia|rewrite length_insert; lia|].
    exists (s16 (Z.lor (Z.shiftl hi 8) lo) :: out). split_and!.
    + cbn. lia.
    + rewrite (take_S_r _ _ (s16 (Z.lor (Z.shiftl hi 8) lo))) by (apply list_lookup_insert_eq; lia).
      rewrite take_insert_ge, drop_insert_lt, <- app_assoc by lia. by rewrite Nat.add_succ_r.
    + intros [|j] Hj; [exists hi, lo; by rewrite Nat.add_0_r|].
      destruct (Hat j ltac:(lia)) as (h & o & H1 & H2 & H3). exists h, o.
      by rewrite Nat.add_succ_r.
Qed.

Lemma concat_bytes_lookup l j x :
  l !! j = Some x ->
  concat (map sample_bytes l) !! (2 * j)%nat = Some (u8 (Z.shiftr (u16 x) 8)) /\
  concat (map sample_bytes l) !! (2 * j + 1)%nat = Some (u8 (u16 x)).
Proof.
  revert j. induction l as [|y l IH]; intros j Hj; [done|]. destruct j as [|j].
  - by simplify_eq/=.
  - cbn in Hj. destruct (IH j Hj) as [H1 H2].
    by replace (2 * S j)%nat with (S (S (2 * j))) by lia.
Qed.

Lemma concat_bytes_length l : length (concat (map sample_bytes l)) = (2 * length l)%nat.
Proof. induction l as [|y l IH]; cbn; [done|]. rewrite IH. lia. Qed.

Lemma bytes_of_samples out bytes :
  Forall is_u8 bytes ->
  (forall j, (j < length out)%nat -> exists hi lo,
     bytes !! (2 * j)%nat = Some hi /\ bytes !! (2 * j + 1)%nat = Some lo /\
     out !! j = Some (s16 (Z.lor (Z.shiftl hi 8) lo))) ->
  concat (map sample_bytes out) = take (2 * length out) bytes.
Proof.
  revert bytes. induction out as [|x out IH]; intros bytes Hb Hat; [done|].
  destruct (Hat 0%nat ltac:(cbn; lia)) as (hi & lo & Hhi & Hlo & Hx).
  destruct bytes as [|hi' [|lo' bytes]]; [done|done|]. cbn in Hhi, Hlo, Hx. simplify_eq.
  apply list.Forall_cons in Hb as [Hh Hb]. apply list.Forall_cons in Hb as [Hl Hb].
  cbn [map concat length]. rewrite pair_bytes by done. rewrite (IH bytes Hb).
  - by replace (2 * S (length out))%nat with (S (S (2 * length out))) by lia.
  - intros j Hj. destruct (Hat (S j) ltac:(cbn; lia)) as (h & l & H1 & H2 & H3).
    exists h, l. by replace (2 * S j)%nat with (S (S (2 * j))) in H1, H2 by lia.
Qed.

Lemma pcm16b_encode_decode speech len enc0 out0 :
  Forall is_s16 speech -> (len <= length speech)%nat ->
  (2 * len <= length enc0)%nat -> (len <= length out0)%nat ->
  exists e, WebRtcPcm16b_Encode speech len enc0 = Some (e, (2 * len)%nat) /\
    drop (2 * len) e = drop (2 * len) enc0 /\
    WebRtcPcm16b_Decode e (2 * len) out0 = Some (take len speech ++ drop len out0, len).
Proof.
  intros Hs H1 H2 H3. unfold WebRtcPcm16b_Encode, WebRtcPcm16b_Decode.
  rewrite pcm16b_encode_spec by lia. eexists. split; [reflexivity|].
  rewrite drop_0, Nat.add_0_l, Nat.mul_0_r, take_0, app_nil_l.
  assert (Hl : length (concat (map sample_bytes (take len speech))) = (2 * len)%nat)
    by (rewrite concat_bytes_length, length_take; lia).
  split; [by apply drop_app_length'|].
  replace (2 * len / 2)%nat with len by (rewrite Nat.mul_comm, Nat.div_mul; lia).
  destruct (pcm16b_decode_spec (concat (map sample_bytes (take len speech)) ++ drop (2 * len) enc0)
    len 0 out0) as (out & Ho & -> & Hat); [rewrite length_app; lia|lia|].
  rewrite take_0, app_nil_l. cbn [mbind option_bind Nat.add]. do 3 f_equal. eapply list_eq_same_length; [|done|].
  - rewrite length_take. lia.
  - intros j y z Hj Hy Hz. destruct (Hat j Hj) as (hi & lo & Hhi & Hlo & Hout).
    rewrite Nat.add_0_l in *. rewrite lookup_app_l in Hhi, Hlo by lia.
    destruct (concat_bytes_lookup _ _ _ Hz) as [E1 E2]. rewrite Hy in Hout. simplify_eq.
    apply sample_bytes_value. rewrite lookup_take_lt in Hz by lia. by eapply Forall_lookup_1.
Qed.

Lemma pcm16b_decode_encode bytes len enc0 out0 :
  Forall is_u8 bytes -> (len <= length bytes)%nat ->
  (len <= length enc0)%nat -> (len / 2 <= length out0)%nat ->
  exists s, WebRtcPcm16b_Decode bytes len out0 = Some (s, (len / 2)%nat) /\
    Forall is_s16 (take (len / 2) s) /\ drop (len / 2) s = drop (len / 2) out0 /\
    WebRtcPcm16b_Encode s (len / 2) enc0 =
    Some (take (2 * (len / 2)) bytes ++ drop (2 * (len / 2)) enc0, (2 * (len / 2))%nat).
Proof.
  intros Hb H1 H2 H3. assert (Hm : (2 * (len / 2) <= len)%nat) by (apply Nat.Div0.mul_div_le).
  set (n := (len / 2)%nat) in *. unfold WebRtcPcm16b_Encode, WebRtcPcm16b_Decode. fold n.
  destruct (pcm16b_decode_spec bytes n 0 out0) as (out & Ho & -> & Hat); [lia..|].
  rewrite take_0, app_nil_l. cbn [mbind option_bind]. eexists. split; [reflexivity|].
  rewrite Nat.add_0_l, take_app_length', drop_app_length' by done. split_and!; [|done|].
  - apply Forall_lookup_2. intros j y Hy. pose proof (lookup_lt_Some _ _ _ Hy) as Hj.
    rewrite Ho in Hj.
    destruct (Hat j Hj) as (hi & lo & _ & _ & Hout). rewrite Hy in Hout. simplify_eq. apply s16_range.
  - rewrite pcm16b_encode_spec by (rewrite ?length_app; lia).
    rewrite Nat.mul_0_r, Nat.add_0_l, drop_0, take_0, app_nil_l, take_app_length' by done.
    cbn [mbind option_bind]. do 3 f_equal. rewrite <- Ho.
    apply bytes_of_samples; [done|]. rewrite Ho. apply Hat.
Qed.

(** PCM16B is lossless in both directions: samples encoded and decoded are
    the samples, bytes decoded and encoded are the bytes (of an odd number the
    last one is dropped); the counts returned are those of the bytes and the
    samples, and nothing is written behind them. *)
Theorem pcm16b_roundtrip speech bytes enc0 out0 (n len : nat) :
  Forall is_s16 speech -> (n <= length speech)%nat ->
  (2 * n <= length enc0)%nat -> (n <= length out0)%nat ->
  Forall is_u8 bytes -> (len <= length bytes)%nat ->
  (len <= length enc0)%nat -> (len / 2 <= length out0)%nat ->
  (exists e, WebRtcPcm16b_Encode speech n enc0 = Some (e, (2 * n)%nat) /\
     drop (2 * n) e = drop (2 * n) enc0 /\
     WebRtcPcm16b_Decode e (2 * n) out0 = Some (take n speech ++ drop n out0, n)) /\
  (exists s, WebRtcPcm16b_Decode bytes len out0 = Some (s, (len / 2)%nat) /\
     Forall is_s16 (take (len / 2) s) /\ drop (len / 2) s = drop (len / 2) out0 /\
     WebRtcPcm16b_Encode s (len / 2) enc0 =
     Some (take (2 * (len / 2)) bytes ++ drop (2 * (len / 2)) enc0, (2 * (len / 2))%nat)).
Proof. intros. split; [by apply pcm16b_encode_decode|by apply pcm16b_decode_encode]. Qed.

Lemma pcm16b_roundtrip_witness :
  WebRtcPcm16b_Encode [-2; 300] 2 [0; 0; 0; 0; 9] = Some ([255; 254; 1; 44; 9], 4%nat) /\
  exists e, WebRtcPcm16b_Encode [-2; 300] 2 [0; 0; 0; 0; 9] = Some (e, 4%nat) /\
    WebRtcPcm16b_Decode e 4 [0; 0; 5] = Some ([-2; 300; 5], 2%nat).
Proof.
  split; [reflexivity|].
  destruct (pcm16b_roundtrip [-2; 300] [1; 2; 3] [0; 0; 0; 0; 9] [0; 0; 5] 2 3) as [(e & H1 & _ & H2) _].
  all: try (cbn; lia).
  - repeat constructor; unfold is_s16; lia.
  - repeat constructor; unfold is_u8; lia.
  - by exists e.
Defined.
