(* ===== verification/ByteIo.v ===== *)
(** * Bytes in memory

    A block of memory is the list of its bytes; offsets and sizes are the [size_t]
    of the source as integers. An access outside the block has no value.
    [modules/rtp_rtcp/source/byte_io.h] reads and writes integers in network
    byte order. *)

From S2P Require Import Prelude.

(** ** Accesses *)

Definition zlen (l : list Z) : Z := Z.of_nat (length l).

(** [n] bytes from [off] on: what [memcpy] reads. *)
Definition read_bytes (data : list Z) (off n : Z) : option (list Z) :=
  if (0 <=? off) && (0 <=? n) && (off + n <=? zlen data)
  then Some (take (Z.to_nat n) (drop (Z.to_nat off) data)) else None.

(** What [memcpy] of [bs] to [off] leaves. *)
Definition write_bytes (data : list Z) (off : Z) (bs : list Z) : option (list Z) :=
  if (0 <=? off) && (off + zlen bs <=? zlen data)
  then Some (take (Z.to_nat off) data ++ bs ++ drop (Z.to_nat (off + zlen bs)) data) else None.

Definition zput (data : list Z) (off v : Z) : option (list Z) := write_bytes data off [v].

Definition memset (data : list Z) (off v n : Z) : option (list Z) :=
  write_bytes data off (replicate (Z.to_nat n) v).

Definition memmove (data : list Z) (dst src n : Z) : option (list Z) :=
  bs ← read_bytes data src n; write_bytes data dst bs.

(** ** Integers in network byte order *)

(** [val |= static_cast<T>(data[i]) << ((B - 1 - i) * 8)] for the [todo] bytes left. *)
Fixpoint InternalReadBigEndian (todo : nat) (data : list Z) (off val : Z) : option Z :=
  match todo with
  | O => Some val
  | S r =>
      b ← zget data off;
      InternalReadBigEndian r data (off + 1) (Z.lor val (Z.shiftl b (8 * Z.of_nat r)))
  end.

Definition ReadBigEndian (B : nat) (data : list Z) (off : Z) : option Z :=
  InternalReadBigEndian B data off 0.

(** [data[i] = val >> ((B - 1 - i) * 8)] for the [B] bytes left. *)
Fixpoint WriteBigEndian (B : nat) (data : list Z) (off val : Z) : option (list Z) :=
  match B with
  | O => Some data
  | S r =>
      data' ← zput data off (u8 (Z.shiftr val (8 * Z.of_nat r)));
      WriteBigEndian r data' (off + 1) val
  end.

(** The value of [B] bytes as a signed integer of [w] bits: [SignExtend] sets the
    bits above the [B] bytes when the topmost bit of them is set, then
    [ReinterpretAsSigned] moves the upper half of the range below zero. *)
Definition SignExtend (B w val : Z) : Z :=
  let kMsb := u8 (Z.shiftr val ((B - 1) * 8)) in
  if Z.land kMsb 0x80 =? 0 then val
  else
    let kUsedBitsMask := Z.shiftl 1 (B * 8) - 1 in
    Z.lor (Z.lnot kUsedBitsMask mod 2 ^ w) val.

Definition ReinterpretAsSigned (w val : Z) : Z :=
  let kHighestBitMask := Z.shiftl 1 (w - 1) in
  if Z.land val kHighestBitMask =? 0 then val
  else Z.land val (Z.lnot kHighestBitMask) - 2 ^ (w - 1).

Definition ReadBigEndianSigned (B : nat) (w : Z) (data : list Z) (off : Z) : option Z :=
  val ← ReadBigEndian B data off;
  let val := if 8 * Z.of_nat B <? w then SignExtend (Z.of_nat B) w val else val in
  Some (ReinterpretAsSigned w val).

(** [ReinterpretAsUnsigned] is the conversion to the unsigned type of [w] bits. *)
Definition WriteBigEndianSigned (B : nat) (w : Z) (data : list Z) (off val : Z) : option (list Z) :=
  WriteBigEndian B data off (val mod 2 ^ w).

(** ** Facts about accesses *)

Lemma zlen_nonneg l : 0 <= zlen l.
Proof. unfold zlen. lia. Qed.

Lemma zlen_app l k : zlen (l ++ k) = zlen l + zlen k.
Proof. unfold zlen. rewrite length_app. lia. Qed.

Lemma zlen_cons x l : zlen (x :: l) = 1 + zlen l.
Proof. unfold zlen. cbn. lia. Qed.

Lemma zlen_nil : zlen [] = 0.
Proof. done. Qed.

Lemma zlen_replicate n v : zlen (replicate n v) = Z.of_nat n.
Proof. unfold zlen. by rewrite length_replicate. Qed.

Lemma zget_is_Some l i : 0 <= i < zlen l -> exists v, zget l i = Some v.
Proof.
  intros Hi. unfold zget. rewrite (proj2 (Z.ltb_ge i 0)) by lia.
  apply lookup_lt_is_Some_2. unfold zlen in *. lia.
Qed.

Lemma zget_range l i v : zget l i = Some v -> 0 <= i < zlen l.
Proof.
  unfold zget, zlen. destruct (Z.ltb_spec i 0); [done|]. intros Hv%lookup_lt_Some. lia.
Qed.

Lemma zget_app l k i :
  zget (l ++ k) i = if i <? zlen l then zget l i else zget k (i - zlen l).
Proof.
  unfold zget, zlen. destruct (Z.ltb_spec i 0) as [H|H].
  - by rewrite (proj2 (Z.ltb_lt _ _)) by lia.
  - destruct (Z.ltb_spec i (Z.of_nat (length l))).
    + by rewrite lookup_app_l by lia.
    + rewrite (proj2 (Z.ltb_ge _ _)), lookup_app_r by lia. f_equal. lia.
Qed.

Lemma zget_take n l i : i < Z.of_nat n -> zget (take n l) i = zget l i.
Proof. intros H. unfold zget. destruct (Z.ltb_spec i 0); [done|]. apply lookup_take_lt. lia. Qed.

Lemma zget_drop n l i : 0 <= i -> zget (drop n l) i = zget l (Z.of_nat n + i).
Proof.
  intros H. unfold zget. rewrite !(proj2 (Z.ltb_ge _ _)) by lia. rewrite lookup_drop. f_equal. lia.
Qed.

Lemma zget_ext l k : (forall i, zget l i = zget k i) -> l = k.
Proof.
  intros H. apply list_eq. intros i. specialize (H (Z.of_nat i)). unfold zget in H.
  by rewrite (proj2 (Z.ltb_ge _ _)), Nat2Z.id in H by lia.
Qed.

Lemma read_bytes_Some data off n :
  0 <= off -> 0 <= n -> off + n <= zlen data ->
  read_bytes data off n = Some (take (Z.to_nat n) (drop (Z.to_nat off) data)).
Proof.
  intros H1 H2 H3. unfold read_bytes.
  by rewrite (proj2 (Z.leb_le 0 off)), (proj2 (Z.leb_le 0 n)), (proj2 (Z.leb_le _ _)).
Qed.

Lemma read_bytes_spec data off n bs :
  read_bytes data off n = Some bs <->
  0 <= off /\ zlen bs = n /\ off + n <= zlen data /\
  (forall i, 0 <= i < n -> zget bs i = zget data (off + i)).
Proof.
  unfold read_bytes. destruct (_ && _) eqn:E.
  - rewrite !andb_true_iff, !Z.leb_le in E. destruct E as [[H1 H2] H3].
    assert (Hl : zlen (take (Z.to_nat n) (drop (Z.to_nat off) data)) = n).
    { unfold zlen in *. rewrite length_take, length_drop. lia. }
    assert (Hg : forall i, 0 <= i < n ->
      zget (take (Z.to_nat n) (drop (Z.to_nat off) data)) i = zget data (off + i)).
    { intros i Hi. rewrite zget_take, zget_drop by lia. f_equal. lia. }
    split; [intros [= <-]; auto|]. intros (_ & Hn & _ & H). f_equal.
    apply list_eq. intros i. destruct (decide (i < Z.to_nat n)%nat) as [Hi|Hi].
    + specialize (H (Z.of_nat i) ltac:(lia)). rewrite <- Hg in H by lia. unfold zget in H.
      rewrite !(proj2 (Z.ltb_ge _ _)), Nat2Z.id in H by lia. done.
    + rewrite !lookup_ge_None_2; unfold zlen in *; [done|lia|lia].
  - split; [done|]. intros (H1 & H2 & H3 & _). pose proof (zlen_nonneg bs).
    rewrite (proj2 (Z.leb_le 0 off)), (proj2 (Z.leb_le 0 n)), (proj2 (Z.leb_le _ _)) in E by lia. done.
Qed.

Lemma write_bytes_Some data off bs :
  0 <= off -> off + zlen bs <= zlen data ->
  exists data', write_bytes data off bs = Some data' /\ zlen data' = zlen data /\
    (forall i, zget data' i =
       if (off <=? i) && (i <? off + zlen bs) then zget bs (i - off) else zget data i).
Proof.
  intros H1 H2. unfold write_bytes. rewrite !(proj2 (Z.leb_le _ _)) by lia. cbn [andb].
  pose proof (zlen_nonneg bs).
  assert (Ht : zlen (take (Z.to_nat off) data) = off) by (unfold zlen in *; rewrite length_take; lia).
  eexists. split; [reflexivity|]. split.
  - rewrite !zlen_app, Ht. unfold zlen in *. rewrite length_drop. lia.
  - intros i. rewrite zget_app, Ht. destruct (Z.ltb_spec i off) as [Hi|Hi].
    + rewrite zget_take by lia. by rewrite (proj2 (Z.leb_gt off i)) by lia.
    + rewrite (proj2 (Z.leb_le off i)) by lia. cbn [andb]. rewrite zget_app.
      replace (i <? off + zlen bs) with (i - off <? zlen bs)
        by (destruct (Z.ltb_spec (i - off) (zlen bs)), (Z.ltb_spec i (off + zlen bs)); lia).
      destruct (Z.ltb_spec (i - off) (zlen bs)); [done|]. rewrite zget_drop by lia. f_equal. lia.
Qed.

Lemma write_bytes_frame data off bs data' :
  write_bytes data off bs = Some data' ->
  0 <= off /\ off + zlen bs <= zlen data /\ zlen data' = zlen data /\
  (forall i, 0 <= i < zlen bs -> zget data' (off + i) = zget bs i) /\
  (forall i, i < off \/ off + zlen bs <= i -> zget data' i = zget data i).
Proof.
  intros H. assert (Hr : 0 <= off /\ off + zlen bs <= zlen data).
  { unfold write_bytes in H. destruct (_ && _) eqn:E; [|done].
    rewrite andb_true_iff, !Z.leb_le in E. done. }
  destruct (write_bytes_Some data off bs) as (d & Hd & Hl & Hg); [lia..|].
  rewrite H in Hd. simplify_eq. split_and!; try lia.
  - intros i Hi. rewrite Hg, (proj2 (Z.leb_le _ _)), (proj2 (Z.ltb_lt _ _)) by lia. cbn. f_equal. lia.
  - intros i Hi. rewrite Hg. destruct (Z.leb_spec off i), (Z.ltb_spec i (off + zlen bs)); cbn; lia || done.
Qed.

(** The bytes at an offset; what a write puts there, and what it leaves. *)
Lemma read_write_same data off bs data' :
  write_bytes data off bs = Some data' -> read_bytes data' off (zlen bs) = Some bs.
Proof.
  intros H. apply write_bytes_frame in H as (H1 & H2 & H3 & H4 & _).
  apply read_bytes_spec. split_and!; [lia|done|lia|]. intros i Hi. by rewrite H4.
Qed.

Lemma read_write_other data off bs data' o n :
  write_bytes data off bs = Some data' -> o + n <= off \/ off + zlen bs <= o ->
  read_bytes data' o n = read_bytes data o n.
Proof.
  intros H Hd. apply write_bytes_frame in H as (H1 & H2 & H3 & _ & H5).
  apply option_eq. intros l. rewrite !read_bytes_spec, H3.
  split; intros (? & ? & ? & Hg); (split_and!; [done..|]); intros i Hi; rewrite Hg by done;
    [|symmetry]; apply H5; lia.
Qed.

Lemma read_bytes_get data off n bs i :
  read_bytes data off n = Some bs -> 0 <= i < n -> zget data (off + i) = zget bs i.
Proof. rewrite read_bytes_spec. intros (_ & _ & _ & H) Hi. by rewrite H. Qed.

Lemma read_byte data off v : zget data off = Some v <-> read_bytes data off 1 = Some [v].
Proof.
  rewrite read_bytes_spec. split.
  - intros H. pose proof (zget_range _ _ _ H). split_and!; try (lia || done).
    intros i Hi. assert (i = 0) as -> by lia. by rewrite Z.add_0_r.
  - intros (_ & _ & _ & H). specialize (H 0 ltac:(lia)). by rewrite Z.add_0_r in H.
Qed.

Lemma zget_Forall P l i v : Forall P l -> zget l i = Some v -> P v.
Proof. unfold zget. destruct (i <? 0); [done|]. intros H Hv. by eapply Forall_lookup_1. Qed.

Lemma read_bytes_Forall P data off n bs :
  Forall P data -> read_bytes data off n = Some bs -> Forall P bs.
Proof.
  intros HP H. unfold read_bytes in H. destruct (_ && _); [|done]. simplify_eq.
  by apply Forall_take, Forall_drop.
Qed.

Lemma write_bytes_Forall P data off bs data' :
  Forall P data -> Forall P bs -> write_bytes data off bs = Some data' -> Forall P data'.
Proof.
  intros HP Hb H. unfold write_bytes in H. destruct (_ && _); [|done]. simplify_eq.
  apply list.Forall_app. split; [by apply Forall_take|]. apply list.Forall_app. split; [done|].
  by apply Forall_drop.
Qed.

Lemma zput_Some data off v :
  0 <= off < zlen data -> exists data', zput data off v = Some data' /\ zlen data' = zlen data.
Proof.
  intros H. destruct (write_bytes_Some data off [v]) as (d & Hd & Hl & _);
    [lia|rewrite zlen_cons, zlen_nil; lia|]. by exists d.
Qed.

Lemma zget_zput data off v data' i :
  zput data off v = Some data' -> zget data' i = if i =? off then Some v else zget data i.
Proof.
  intros H. apply write_bytes_frame in H as (_ & _ & _ & H4 & H5).
  rewrite zlen_cons, zlen_nil in *. destruct (Z.eqb_spec i off) as [->|].
  - specialize (H4 0 ltac:(lia)). by rewrite Z.add_0_r in H4.
  - apply H5. lia.
Qed.

(** ** The bytes of an integer *)

Fixpoint be_bytes (n : nat) (v : Z) : list Z :=
  match n with O => [] | S r => u8 (Z.shiftr v (8 * Z.of_nat r)) :: be_bytes r v end.

Fixpoint be_value (bs : list Z) : Z :=
  match bs with [] => 0 | b :: bs' => b * 2 ^ (8 * zlen bs') + be_value bs' end.

Lemma zlen_be_bytes n v : zlen (be_bytes n v) = Z.of_nat n.
Proof. induction n as [|n IH]; [done|]. cbn [be_bytes]. rewrite zlen_cons, IH. lia. Qed.

Lemma be_bytes_u8 n v : Forall is_u8 (be_bytes n v).
Proof. induction n as [|n IH]; constructor; [apply u8_range|done]. Qed.

Lemma be_value_range bs : Forall is_u8 bs -> 0 <= be_value bs < 2 ^ (8 * zlen bs).
Proof.
  induction 1 as [|b bs Hb _ IH]; [by rewrite zlen_nil|]. cbn [be_value]. rewrite zlen_cons.
  replace (8 * (1 + zlen bs)) with (8 + 8 * zlen bs) by lia. pose proof (zlen_nonneg bs).
  rewrite Z.pow_add_r by lia. unfold is_u8 in Hb. nia.
Qed.

Lemma be_value_bytes n v : be_value (be_bytes n v) = v mod 2 ^ (8 * Z.of_nat n).
Proof.
  induction n as [|n IH]; [by rewrite Z.mod_1_r|]. cbn [be_bytes be_value]. rewrite zlen_be_bytes, IH.
  replace (8 * Z.of_nat (S n)) with (8 * Z.of_nat n + 8) by lia.
  pose proof (Z.pow_pos_nonneg 2 (8 * Z.of_nat n) ltac:(lia) ltac:(lia)).
  rewrite Z.pow_add_r, Z.rem_mul_r by lia.
  unfold u8. rewrite shiftr_div by lia. lia.
Qed.

Lemma be_bytes_value bs : Forall is_u8 bs -> be_bytes (length bs) (be_value bs) = bs.
Proof.
  assert (Hlow : forall n v w, 0 <= v -> be_bytes n (w * 2 ^ (8 * Z.of_nat n) + v) = be_bytes n v).
  { induction n as [|n IH]; intros v w Hv; [done|]. cbn [be_bytes].
    replace (8 * Z.of_nat (S n)) with (8 + 8 * Z.of_nat n) by lia. rewrite Z.pow_add_r by lia.
    rewrite Z.mul_assoc, IH by done. f_equal. unfold u8. rewrite !shiftr_div by lia.
    rewrite Z.add_comm, Z.div_add by lia. change (2 ^ 8) with 256. apply Z.mod_add. lia. }
  induction 1 as [|b bs Hb Hbs IH]; [done|]. cbn [be_value length be_bytes]. fold (zlen bs).
  pose proof (be_value_range bs Hbs) as Hr. unfold zlen in *. f_equal.
  - rewrite shiftr_div, Z.add_comm, Z.div_add, Z.div_small by lia. by apply u8_id.
  - rewrite Hlow by lia. done.
Qed.

Lemma WriteBigEndian_bytes B data off val :
  0 <= off -> off + Z.of_nat B <= zlen data ->
  WriteBigEndian B data off val = write_bytes data off (be_bytes B val).
Proof.
  revert data off. induction B as [|B IH]; intros data off H1 H2; cbn [WriteBigEndian be_bytes].
  - unfold write_bytes. rewrite zlen_nil, Z.add_0_r. rewrite !(proj2 (Z.leb_le _ _)) by lia.
    cbn. by rewrite firstn_skipn.
  - set (b := u8 _). destruct (zput_Some data off b ltac:(lia)) as (d & Hd & Hl). rewrite Hd.
    cbn [mbind option_bind]. rewrite IH by lia.
    destruct (write_bytes_Some d (off + 1) (be_bytes B val)) as (d' & -> & Hl' & Hg');
      [lia|rewrite zlen_be_bytes; lia|].
    destruct (write_bytes_Some data off (b :: be_bytes B val)) as (d2 & -> & Hl2 & Hg2);
      [lia|rewrite zlen_cons, zlen_be_bytes; lia|]. f_equal.
    apply zget_ext. intros i. rewrite Hg', Hg2, (zget_zput _ _ _ _ i Hd), zlen_cons, zlen_be_bytes.
    destruct (Z.eqb_spec i off) as [->|E].
    + rewrite (proj2 (Z.leb_gt _ _)), (proj2 (Z.leb_le off _)), !(proj2 (Z.ltb_lt _ _)) by lia.
      by rewrite Z.sub_diag.
    + destruct (Z.leb_spec (off + 1) i), (Z.leb_spec off i); cbn [andb]; try (lia || done).
      replace (off + 1 + Z.of_nat B) with (off + (1 + Z.of_nat B)) by lia.
      destruct (Z.ltb_spec i (off + (1 + Z.of_nat B))); [|done].
      change (b :: be_bytes B val) with ([b] ++ be_bytes B val). rewrite zget_app.
      rewrite zlen_cons, zlen_nil, (proj2 (Z.ltb_ge _ _)) by lia. f_equal. lia.
Qed.

Lemma InternalReadBigEndian_value bs data off val :
  Forall is_u8 bs -> read_bytes data off (zlen bs) = Some bs -> 0 <= val ->
  val mod 2 ^ (8 * zlen bs) = 0 ->
  InternalReadBigEndian (length bs) data off val = Some (val + be_value bs).
Proof.
  revert off val. induction bs as [|b bs IH]; intros off val Hu Hr Hv Hm; cbn [length InternalReadBigEndian].
  - by rewrite Z.add_0_r.
  - apply list.Forall_cons in Hu as [Hb Hu]. rewrite zlen_cons in *. pose proof (zlen_nonneg bs).
    pose proof (read_bytes_get _ _ _ _ 0 Hr ltac:(lia)) as H0. rewrite Z.add_0_r in H0. rewrite H0.
    change (zget (b :: bs) 0) with (Some b). cbn [mbind option_bind]. rewrite shiftl_mul by lia.
    assert (Hp : 0 < 2 ^ (8 * zlen bs)) by (apply Z.pow_pos_nonneg; lia).
    assert (Hpow : 2 ^ (8 * (1 + zlen bs)) = 2 ^ (8 * zlen bs) * 2 ^ 8)
      by (rewrite <- Z.pow_add_r by lia; f_equal; lia).
    fold (zlen bs). unfold is_u8 in Hb.
    rewrite (lor_disjoint val _ (8 * (1 + zlen bs))) by (done || (rewrite ?Hpow; nia)).
    rewrite IH; [cbn [be_value]; f_equal; lia|done| |nia|].
    + apply read_bytes_spec in Hr as (H1 & H2 & H3 & H4). apply read_bytes_spec.
      split_and!; [lia|done|lia|]. intros i Hi. rewrite <- Z.add_assoc, <- H4 by lia.
      change (b :: bs) with ([b] ++ bs). rewrite zget_app, zlen_cons, zlen_nil, (proj2 (Z.ltb_ge _ _)) by lia.
      f_equal. lia.
    + rewrite Hpow in Hm. apply Z.mod_divide in Hm as [q Hq]; [|lia]. rewrite Hq.
      replace (q * (2 ^ (8 * zlen bs) * 2 ^ 8) + b * 2 ^ (8 * zlen bs))
        with ((q * 2 ^ 8 + b) * 2 ^ (8 * zlen bs)) by lia. apply Z.mod_mul. lia.
Qed.

Lemma ReadBigEndian_value B data off bs :
  Forall is_u8 data -> read_bytes data off (Z.of_nat B) = Some bs ->
  ReadBigEndian B data off = Some (be_value bs).
Proof.
  intros Hu H. pose proof (read_bytes_Forall _ _ _ _ _ Hu H) as Hb.
  apply read_bytes_spec in H as HS. destruct HS as (_ & Hl & _ & _).
  assert (length bs = B) as <- by (unfold zlen in Hl; lia).
  unfold ReadBigEndian. rewrite InternalReadBigEndian_value; auto; lia.
Qed.

Lemma ReadBigEndian_Some B data off :
  Forall is_u8 data -> 0 <= off -> off + Z.of_nat B <= zlen data ->
  exists v, ReadBigEndian B data off = Some v /\ 0 <= v < 2 ^ (8 * Z.of_nat B).
Proof.
  intros Hu H1 H2. pose proof (read_bytes_Some data off (Z.of_nat B) H1 ltac:(lia) H2) as Hr.
  pose proof (read_bytes_Forall _ _ _ _ _ Hu Hr) as Hb. eexists. split; [by eapply ReadBigEndian_value|].
  apply read_bytes_spec in Hr as (_ & Hl & _). pose proof (be_value_range _ Hb) as R. by rewrite Hl in R.
Qed.

(** What was written is read back. *)
Lemma ReadBigEndian_bytes B data off v :
  Forall is_u8 data -> read_bytes data off (Z.of_nat B) = Some (be_bytes B v) ->
  ReadBigEndian B data off = Some (v mod 2 ^ (8 * Z.of_nat B)).
Proof. intros Hu H. by rewrite (ReadBigEndian_value B data off _ Hu H), be_value_bytes. Qed.

Lemma read_u16 d off v :
  Forall is_u8 d -> is_u16 v -> read_bytes d off 2 = Some (be_bytes 2 v) -> ReadBigEndian 2 d off = Some v.
Proof.
  intros Hu Hv Hr. rewrite (ReadBigEndian_bytes 2 d off v Hu Hr). f_equal.
  by apply Z.mod_small.
Qed.

Lemma read_u32 d off v :
  Forall is_u8 d -> is_u32 v -> read_bytes d off 4 = Some (be_bytes 4 v) -> ReadBigEndian 4 d off = Some v.
Proof.
  intros Hu Hv Hr. rewrite (ReadBigEndian_bytes 4 d off v Hu Hr). f_equal.
  by apply Z.mod_small.
Qed.

(** ** Signed integers *)

Lemma land_bit x k : 0 <= k -> (Z.land x (Z.shiftl 1 k) =? 0) = negb (Z.testbit x k).
Proof.
  intros Hk. rewrite shiftl_mul, Z.mul_1_l by done. destruct (Z.testbit x k) eqn:E.
  - apply Z.eqb_neq. intros H. pose proof (Z.land_spec x (2 ^ k) k) as Hb.
    rewrite H, Z.bits_0, E, Z.pow2_bits_true in Hb by done. done.
  - apply Z.eqb_eq, Z.bits_inj'. intros i Hi. rewrite Z.land_spec, Z.bits_0.
    destruct (Z.eqb_spec i k) as [->|]; [by rewrite E|].
    by rewrite Z.pow2_bits_false, andb_false_r by lia.
Qed.

Lemma testbit_top u k : 0 <= k -> 0 <= u < 2 ^ (k + 1) -> Z.testbit u k = (2 ^ k <=? u).
Proof.
  intros Hk Hu. rewrite Z.pow_add_r in Hu by lia. rewrite Z.testbit_odd, shiftr_div by lia.
  destruct (Z.leb_spec (2 ^ k) u).
  - by rewrite <- (Z.div_unique_pos u (2 ^ k) 1 (u - 2 ^ k)) by lia.
  - by rewrite Z.div_small by lia.
Qed.

Lemma pow2_half w : 0 < w -> 2 ^ w = 2 ^ (w - 1) * 2.
Proof.
  intros Hw. replace w with (w - 1 + 1) at 1 by lia. by rewrite Z.pow_add_r by lia.
Qed.

Lemma ReinterpretAsSigned_spec w y :
  0 < w -> 0 <= y < 2 ^ w ->
  ReinterpretAsSigned w y = if 2 ^ (w - 1) <=? y then y - 2 ^ w else y.
Proof.
  intros Hw Hy. unfold ReinterpretAsSigned. rewrite land_bit by lia.
  pose proof (pow2_half w Hw) as Hp.
  rewrite testbit_top by (try (replace (w - 1 + 1) with w); lia).
  destruct (Z.leb_spec (2 ^ (w - 1)) y) as [H|H]; cbn [negb]; [|done].
  rewrite shiftl_mul, Z.mul_1_l by lia.
  rewrite <- Z.ldiff_land. rewrite <- Z.sub_nocarry_ldiff; [lia|].
  apply Z.bits_inj'. intros i Hi. rewrite Z.ldiff_spec, Z.bits_0.
  destruct (Z.eqb_spec i (w - 1)) as [->|].
  - rewrite (testbit_top y), (proj2 (Z.leb_le _ _)) by (try (replace (w - 1 + 1) with w); lia).
    apply andb_false_r.
  - by rewrite Z.pow2_bits_false by lia.
Qed.

Lemma SignExtend_spec B w u :
  0 < B -> 8 * B < w -> 0 <= u < 2 ^ (8 * B) ->
  SignExtend B w u = if 2 ^ (8 * B - 1) <=? u then u + 2 ^ w - 2 ^ (8 * B) else u.
Proof.
  intros HB Hw Hu. unfold SignExtend. change 0x80 with (Z.shiftl 1 7). rewrite land_bit by lia.
  unfold u8. rewrite Z.mod_pow2_bits_low, Z.shiftr_spec by lia.
  replace (7 + (B - 1) * 8) with (8 * B - 1) by lia.
  rewrite testbit_top by (try (replace (8 * B - 1 + 1) with (8 * B)); lia).
  destruct (Z.leb_spec (2 ^ (8 * B - 1)) u) as [H|H]; cbn [negb]; [|done].
  rewrite shiftl_mul, Z.mul_1_l by lia. replace (B * 8) with (8 * B) by lia.
  assert (Hp : 2 ^ w = 2 ^ (w - 8 * B) * 2 ^ (8 * B)) by (rewrite <- Z.pow_add_r by lia; f_equal; lia).
  assert (0 < 2 ^ (8 * B) /\ 1 < 2 ^ (w - 8 * B)) as [? ?].
  { split; [apply Z.pow_pos_nonneg; lia|]. apply Z.pow_gt_1; lia. }
  assert (Hn : Z.lnot (2 ^ (8 * B) - 1) mod 2 ^ w = 2 ^ w - 2 ^ (8 * B)).
  { unfold Z.lnot. symmetry. apply Z.mod_unique_pos with (-1); [nia|lia]. }
  rewrite Hn, (lor_disjoint _ _ (8 * B)); try lia.
  rewrite Hp. replace (2 ^ (w - 8 * B) * 2 ^ (8 * B) - 2 ^ (8 * B))
    with ((2 ^ (w - 8 * B) - 1) * 2 ^ (8 * B)) by lia. apply Z.mod_mul. lia.
Qed.

Lemma signed_value B w v :
  0 < B -> 8 * B <= w -> - 2 ^ (8 * B - 1) <= v < 2 ^ (8 * B - 1) ->
  ReinterpretAsSigned w
    (if 8 * B <? w then SignExtend B w (v mod 2 ^ (8 * B)) else v mod 2 ^ (8 * B)) = v.
Proof.
  intros HB Hw Hv.
  pose proof (pow2_half (8 * B) ltac:(lia)) as Hp.
  assert (Hle : 2 ^ (8 * B - 1) <= 2 ^ (w - 1)) by (apply Z.pow_le_mono_r; lia).
  pose proof (pow2_half w ltac:(lia)) as Hpw.
  assert (Hu : v mod 2 ^ (8 * B) = if v <? 0 then v + 2 ^ (8 * B) else v).
  { destruct (Z.ltb_spec v 0); symmetry;
      [apply Z.mod_unique_pos with (-1)|apply Z.mod_unique_pos with 0]; lia. }
  assert (Hx : 8 * B < w -> 2 ^ (8 * B) <= 2 ^ (w - 1)) by (intros; apply Z.pow_le_mono_r; lia).
  rewrite Hu. destruct (Z.ltb_spec (8 * B) w) as [Hlt|Hge].
  - rewrite SignExtend_spec by (try bcase; lia). specialize (Hx Hlt).
    rewrite ReinterpretAsSigned_spec by (repeat bcase; lia). repeat bcase; lia.
  - assert (w = 8 * B) as -> by lia. rewrite ReinterpretAsSigned_spec by (try bcase; lia).
    repeat bcase; lia.
Qed.

(** ** The specialisations

    For one, two, four and eight bytes the source has versions without a loop. *)

Definition ReadBigEndian1 (data : list Z) (off : Z) : option Z := zget data off.

Definition WriteBigEndian1 (data : list Z) (off val : Z) : option (list Z) := zput data off (u8 val).

Definition ReadBigEndian2 (data : list Z) (off : Z) : option Z :=
  d0 ← zget data off;
  d1 ← zget data (off + 1);
  Some (Z.lor (Z.shiftl d0 8) d1).

Definition WriteBigEndian2 (data : list Z) (off val : Z) : option (list Z) :=
  data ← zput data off (u8 (Z.shiftr val 8));
  zput data (off + 1) (u8 val).

Definition ReadBigEndian4 (data : list Z) (off : Z) : option Z :=
  d0 ← zget data off;
  d1 ← zget data (off + 1);
  d2 ← zget data (off + 2);
  d3 ← zget data (off + 3);
  Some (Z.lor (Z.lor (Z.lor (Z.shiftl d0 24) (Z.shiftl d1 16)) (Z.shiftl d2 8)) d3).

Definition WriteBigEndian4 (data : list Z) (off val : Z) : option (list Z) :=
  data ← zput data off (u8 (Z.shiftr val 24));
  data ← zput data (off + 1) (u8 (Z.shiftr val 16));
  data ← zput data (off + 2) (u8 (Z.shiftr val 8));
  zput data (off + 3) (u8 val).

Definition ReadBigEndian8 (data : list Z) (off : Z) : option Z :=
  d0 ← zget data off;
  d1 ← zget data (off + 1);
  d2 ← zget data (off + 2);
  d3 ← zget data (off + 3);
  d4 ← zget data (off + 4);
  d5 ← zget data (off + 5);
  d6 ← zget data (off + 6);
  d7 ← zget data (off + 7);
  Some (Z.lor (Z.lor (Z.lor (Z.lor (Z.lor (Z.lor (Z.lor (Z.shiftl d0 56) (Z.shiftl d1 48)) (Z.shiftl d2 40))
    (Z.shiftl d3 32)) (Z.shiftl d4 24)) (Z.shiftl d5 16)) (Z.shiftl d6 8)) d7).

Definition WriteBigEndian8 (data : list Z) (off val : Z) : option (list Z) :=
  data ← zput data off (u8 (Z.shiftr val 56));
  data ← zput data (off + 1) (u8 (Z.shiftr val 48));
  data ← zput data (off + 2) (u8 (Z.shiftr val 40));
  data ← zput data (off + 3) (u8 (Z.shiftr val 32));
  data ← zput data (off + 4) (u8 (Z.shiftr val 24));
  data ← zput data (off + 5) (u8 (Z.shiftr val 16));
  data ← zput data (off + 6) (u8 (Z.shiftr val 8));
  zput data (off + 7) (u8 val).

(** The accesses of both sides happen in the same order. *)
Ltac same_accesses :=
  repeat rewrite <- Z.add_assoc;
  repeat match goal with
    | |- context [Z.pos ?a + Z.pos ?b] =>
        let k := eval vm_compute in (Z.pos a + Z.pos b) in change (Z.pos a + Z.pos b) with k
    | |- context [8 * Z.of_nat ?n] => let k := eval vm_compute in (8 * Z.of_nat n) in change (8 * Z.of_nat n) with k
    end;
  repeat match goal with
    | |- context [zget ?d ?o ≫= _] => destruct (zget d o); cbn [mbind option_bind]; [|done]
    | |- context [zput ?d ?o ?v ≫= _] => destruct (zput d o v); cbn [mbind option_bind]; [|done]
    end.

Lemma option_bind_Some {A} (o : option A) : o ≫= Some = o.
Proof. by destruct o. Qed.

(** The versions of the readers and writers for one, two, four and eight bytes,
    which have no loop, are the general ones: the same value or the same bytes are
    read and written for all data, and an access outside of the data fails in
    both. *)
Theorem byte_io_specialised data off val :
  (ReadBigEndian1 data off = ReadBigEndian 1 data off /\ ReadBigEndian2 data off = ReadBigEndian 2 data off /\
   ReadBigEndian4 data off = ReadBigEndian 4 data off /\ ReadBigEndian8 data off = ReadBigEndian 8 data off) /\
  WriteBigEndian1 data off val = WriteBigEndian 1 data off val /\
  WriteBigEndian2 data off val = WriteBigEndian 2 data off val /\
  WriteBigEndian4 data off val = WriteBigEndian 4 data off val /\
  WriteBigEndian8 data off val = WriteBigEndian 8 data off val.
Proof.
  unfold ReadBigEndian1, ReadBigEndian2, ReadBigEndian4, ReadBigEndian8, ReadBigEndian,
    WriteBigEndian1, WriteBigEndian2, WriteBigEndian4, WriteBigEndian8. split; split_and!.
  all: cbn [InternalReadBigEndian WriteBigEndian]; same_accesses.
  all: rewrite ?Z.lor_0_l, ?Z.shiftl_0_r, ?Z.shiftr_0_r, ?option_bind_Some; done.
Qed.
