(* ===== verification/CowBuffer.v ===== *)
(** * Buffers that are copied when they are written

    [rtc_base/buffer.h] is a block of memory with a size and a capacity;
    [rtc_base/copy_on_write_buffer.h/.cc] is a counted reference to one, which is
    copied before a write when it is shared. The model has the heap of shared
    buffers and the references into it; the theorem [cow_refines] shows that the
    references behave as independent values. *)

From stdpp Require Import gmap fin_maps infinite.
From S2P Require Import Prelude ByteIo.

Open Scope Z_scope.
Open Scope c_scope.

(** What [new T[n]] returns: [n] bytes of any contents. *)
Class Alloc := {
  new_bytes : Z -> list Z;
  zlen_new_bytes n : 0 <= n -> zlen (new_bytes n) = n;
  new_bytes_u8 n : Forall is_u8 (new_bytes n);
}.

Section cow.
Context `{Alloc}.

(** ** rtc::BufferT *)

Record Buffer := mkBuffer { size_ : Z; data_ : list Z }.

#[global] Instance eta_Buffer : Eta Buffer := fun b => mkBuffer (size_ b) (data_ b).

(** [capacity_] is the size of the block of memory. *)
Definition capacity_ (b : Buffer) : Z := zlen (data_ b).

Definition BufferT_new (size capacity : Z) : Buffer :=
  {| size_ := size; data_ := new_bytes (Z.max size capacity) |}.

Definition BufferT_copy (data : list Z) (capacity : Z) : option Buffer :=
  let b := BufferT_new (zlen data) capacity in
  d ← write_bytes (data_ b) 0 data; Some (b <| data_ := d |>).

Definition EnsureCapacityWithHeadroom (b : Buffer) (capacity : Z) (extra_headroom : bool) :
    option Buffer :=
  if capacity <=? capacity_ b then Some b
  else
    let new_capacity :=
      if extra_headroom then Z.max capacity (capacity_ b + capacity_ b / 2) else capacity in
    old ← read_bytes (data_ b) 0 (size_ b);
    new_data ← write_bytes (new_bytes new_capacity) 0 old;
    Some (b <| data_ := new_data |>).

Definition BufferT_AppendData (b : Buffer) (data : list Z) : option Buffer :=
  let new_size := size_ b + zlen data in
  b ← EnsureCapacityWithHeadroom b new_size true;
  d ← write_bytes (data_ b) (size_ b) data;
  Some {| size_ := new_size; data_ := d |}.

Definition BufferT_SetData (b : Buffer) (data : list Z) : option Buffer :=
  BufferT_AppendData (b <| size_ := 0 |>) data.

Definition BufferT_SetSize (b : Buffer) (size : Z) : option Buffer :=
  b ← EnsureCapacityWithHeadroom b size true; Some (b <| size_ := size |>).

Definition BufferT_EnsureCapacity (b : Buffer) (capacity : Z) : option Buffer :=
  EnsureCapacityWithHeadroom b capacity false.

Definition BufferT_Clear (b : Buffer) : Buffer := b <| size_ := 0 |>.

Definition BufferT_eqb (b c : Buffer) : option bool :=
  if negb (size_ b =? size_ c) then Some false
  else
    x ← read_bytes (data_ b) 0 (size_ b); y ← read_bytes (data_ c) 0 (size_ c);
    Some (bool_decide (x = y)).

(** ** rtc::CopyOnWriteBuffer

    An operation sees the buffer behind the reference, if there is one, and
    whether it is the only reference ([HasOneRef]); it leaves the reference as
    it is, makes it point to a new object or to none, or changes the object in
    place. *)
Definition view : Type := option (Buffer * bool).

Inductive effect : Type :=
  | Same
  | Assign (b : option Buffer)
  | Change (b : Buffer).

Definition result : Type := option effect.

Definition assign (b : option Buffer) : result := Some (Assign b).
Definition in_place (cloned : bool) (b : Buffer) : result :=
  Some (if cloned then Assign (Some b) else Change b).

(** The buffer after the call and whether it is a new object. *)
Definition CloneDataIfReferenced (b : Buffer) (one_ref : bool) (new_capacity : Z) :
    option (Buffer * bool) :=
  if one_ref then Some (b, false)
  else
    d ← read_bytes (data_ b) 0 (size_ b); b' ← BufferT_copy d new_capacity; Some (b', true).

Definition CopyOnWriteBuffer_new (size capacity : Z) : option Buffer :=
  if (0 <? size) || (0 <? capacity) then Some (BufferT_new size capacity) else None.

(** A write through the pointer that [data()] returns. *)
Definition cow_write (off : Z) (bs : list Z) (v : view) : result :=
  match v with
  | None => None
  | Some (b, one) =>
      '(b, cloned) ← CloneDataIfReferenced b one (capacity_ b);
      d ← write_bytes (data_ b) off bs;
      in_place cloned (b <| data_ := d |>)
  end.

Definition cow_SetData (data : list Z) (v : view) : result :=
  match v with
  | None =>
      if 0 <? zlen data then b ← BufferT_copy data (zlen data); assign (Some b) else assign None
  | Some (b, false) => b' ← BufferT_copy data (capacity_ b); assign (Some b')
  | Some (b, true) => b' ← BufferT_SetData b data; in_place false b'
  end.

Definition cow_AppendData (data : list Z) (v : view) : result :=
  match v with
  | None => b ← BufferT_copy data (zlen data); assign (Some b)
  | Some (b, one) =>
      '(b, cloned) ← CloneDataIfReferenced b one (Z.max (capacity_ b) (size_ b + zlen data));
      b' ← BufferT_AppendData b data;
      in_place cloned b'
  end.

Definition cow_SetSize (size : Z) (v : view) : result :=
  match v with
  | None => if 0 <? size then assign (Some (BufferT_new size size)) else Some Same
  | Some (b, one) =>
      '(b, cloned) ← (if one : bool then Some (b, false)
                      else
                        d ← read_bytes (data_ b) 0 (Z.min (size_ b) size);
                        b' ← BufferT_copy d (Z.max (capacity_ b) size); Some (b', true));
      b' ← BufferT_SetSize b size;
      in_place cloned b'
  end.

Definition cow_EnsureCapacity (capacity : Z) (v : view) : result :=
  match v with
  | None => if 0 <? capacity then assign (Some (BufferT_new 0 capacity)) else Some Same
  | Some (b, one) =>
      if capacity <=? capacity_ b then Some Same
      else
        '(b, cloned) ← CloneDataIfReferenced b one (Z.max (capacity_ b) capacity);
        b' ← BufferT_EnsureCapacity b capacity;
        in_place cloned b'
  end.

Definition cow_Clear (v : view) : result :=
  match v with
  | None => Some Same
  | Some (b, true) => in_place false (BufferT_Clear b)
  | Some (b, false) => assign (Some (BufferT_new 0 (capacity_ b)))
  end.

(** ** The references and the heap *)

Record cow_state := mkCow { heap : gmap positive Buffer; refs : gmap positive (option positive) }.

Definition HasOneRef (st : cow_state) (l : positive) : bool :=
  bool_decide (size (filter (fun r => r.2 = Some l) (refs st)) = 1%nat).

Definition cow_view (st : cow_state) (p : option positive) : view :=
  l ← p; b ← heap st !! l; Some (b, HasOneRef st l).

(** What an operation on the reference [h] does to the state. An object nobody
    refers to any more stays in the map, where nothing reaches it. *)
Definition on_ref (h : positive) (f : view -> result) (st : cow_state) : option cow_state :=
  p ← refs st !! h;
  e ← f (cow_view st p);
  Some match e, p with
       | Same, _ => st
       | Assign None, _ => {| heap := heap st; refs := <[h := None]> (refs st) |}
       | Assign (Some b), _ =>
           let l := fresh (dom (heap st)) in
           {| heap := <[l := b]> (heap st); refs := <[h := Some l]> (refs st) |}
       | Change b, Some l => {| heap := <[l := b]> (heap st); refs := refs st |}
       | Change _, None => st
       end.

Inductive cow_op : Type :=
  | OpWrite (h : positive) (off : Z) (bs : list Z)
  | OpSetData (h : positive) (data : list Z)
  | OpAppendData (h : positive) (data : list Z)
  | OpSetSize (h : positive) (size : Z)
  | OpEnsureCapacity (h : positive) (capacity : Z)
  | OpClear (h : positive)
  | OpCopy (src dst : positive)
  | OpMove (src dst : positive)
  | OpDestroy (h : positive).

(** The copy shares the object. A move takes the pointer out of its source before it is
    stored, so that the source is empty afterwards and a reference moved onto itself keeps
    its object. *)
Definition cow_exec (o : cow_op) (st : cow_state) : option cow_state :=
  match o with
  | OpWrite h off bs => on_ref h (cow_write off bs) st
  | OpSetData h data => on_ref h (cow_SetData data) st
  | OpAppendData h data => on_ref h (cow_AppendData data) st
  | OpSetSize h size => on_ref h (cow_SetSize size) st
  | OpEnsureCapacity h capacity => on_ref h (cow_EnsureCapacity capacity) st
  | OpClear h => on_ref h cow_Clear st
  | OpCopy src dst =>
      p ← refs st !! src; Some {| heap := heap st; refs := <[dst := p]> (refs st) |}
  | OpMove src dst =>
      p ← refs st !! src;
      Some {| heap := heap st; refs := <[dst := p]> (<[src := None]> (refs st)) |}
  | OpDestroy h => Some {| heap := heap st; refs := delete h (refs st) |}
  end.

(** A sequence of calls *)
Definition cow_run (os : list cow_op) (st : cow_state) : option cow_state := foldl (fun st o => st ← st; cow_exec o st) (Some st) os.

(** ** References as values *)

Definition content (b : Buffer) : list Z := take (Z.to_nat (size_ b)) (data_ b).

Definition value_of (st : cow_state) (p : option positive) : list Z :=
  match l ← p; heap st !! l with Some b => content b | None => [] end.

Definition cow_abs (st : cow_state) : gmap positive (list Z) := value_of st <$> refs st.

(** [v'] is [v] with [bs] written at [off], as far as it has these places. *)
Definition overwritten (v : list Z) (off : Z) (bs v' : list Z) : Prop :=
  zlen v' = zlen v /\
  forall i, 0 <= i < zlen v ->
    zget v' i = if (off <=? i) && (i <? off + zlen bs) then zget bs (i - off) else zget v i.

(** [v'] has size [n] and agrees with [v] where both have places. *)
Definition resized (v : list Z) (n : Z) (v' : list Z) : Prop :=
  zlen v' = n /\ forall i, 0 <= i < Z.min n (zlen v) -> zget v' i = zget v i.

Definition cow_spec (o : cow_op) (m m' : gmap positive (list Z)) : Prop :=
  match o with
  | OpWrite h off bs => exists v v', m !! h = Some v /\ overwritten v off bs v' /\ m' = <[h := v']> m
  | OpSetData h data => m' = <[h := data]> m
  | OpAppendData h data => exists v, m !! h = Some v /\ m' = <[h := v ++ data]> m
  | OpSetSize h n => exists v v', m !! h = Some v /\ resized v n v' /\ m' = <[h := v']> m
  | OpEnsureCapacity _ _ => m' = m
  | OpClear h => m' = <[h := []]> m
  | OpCopy src dst => exists v, m !! src = Some v /\ m' = <[dst := v]> m
  | OpMove src dst => exists v, m !! src = Some v /\ m' = <[dst := v]> (<[src := []]> m)
  | OpDestroy h => m' = delete h m
  end.

(** The same for a sequence of operations *)
Fixpoint cow_specs (os : list cow_op) (m m' : gmap positive (list Z)) : Prop :=
  match os with
  | [] => m' = m
  | o :: os => exists m1, cow_spec o m m1 /\ cow_specs os m1 m'
  end.

(** The sizes of a buffer fit its memory; every reference has its object. *)
Definition wf_buffer (b : Buffer) : Prop := 0 <= size_ b <= capacity_ b.

Definition wf_cow (st : cow_state) : Prop :=
  map_Forall (fun _ b => wf_buffer b) (heap st) /\
  map_Forall (fun _ p => forall l, p = Some l -> is_Some (heap st !! l)) (refs st).

(** What a caller must respect: the reference exists, sizes are sizes, a write is
    inside the memory of the buffer. *)
Definition valid_op (o : cow_op) (st : cow_state) : Prop :=
  match o with
  | OpWrite h off bs =>
      exists l b, refs st !! h = Some (Some l) /\ heap st !! l = Some b /\
        0 <= off /\ off + zlen bs <= capacity_ b
  | OpSetData h _ | OpAppendData h _ | OpClear h | OpEnsureCapacity h _ => is_Some (refs st !! h)
  | OpSetSize h n => is_Some (refs st !! h) /\ 0 <= n
  | OpCopy src _ | OpMove src _ => is_Some (refs st !! src)
  | OpDestroy _ => True
  end.

(** Every call of the sequence respects it, in the state that the calls before it leave. *)
Fixpoint valid_ops (os : list cow_op) (st : cow_state) : Prop :=
  match os with
  | [] => True
  | o :: os => valid_op o st /\ forall st', cow_exec o st = Some st' -> valid_ops os st'
  end.

(** ** Buffers *)

Lemma content_read b : wf_buffer b -> read_bytes (data_ b) 0 (size_ b) = Some (content b).
Proof.
  unfold wf_buffer, capacity_. intros Hb. rewrite read_bytes_Some by lia. by rewrite drop_0.
Qed.

Lemma zlen_content b : wf_buffer b -> zlen (content b) = size_ b.
Proof. intros Hb. apply content_read, read_bytes_spec in Hb. tauto. Qed.

Lemma zget_content b i : wf_buffer b -> 0 <= i < size_ b -> zget (content b) i = zget (data_ b) i.
Proof. intros Hb Hi. unfold content. apply zget_take. lia. Qed.

(** A buffer whose memory begins with [v]. *)
Lemma content_eq b v :
  size_ b = zlen v -> read_bytes (data_ b) 0 (zlen v) = Some v -> wf_buffer b /\ content b = v.
Proof.
  intros Hs Hr. pose proof Hr as (_ & _ & Hl & _)%read_bytes_spec. pose proof (zlen_nonneg v).
  assert (Hw : wf_buffer b) by (unfold wf_buffer, capacity_; lia). split; [done|].
  pose proof (content_read b Hw) as Hc. rewrite Hs in Hc. congruence.
Qed.

Lemma BufferT_copy_spec data capacity :
  exists b, BufferT_copy data capacity = Some b /\ wf_buffer b /\ content b = data /\
    capacity_ b = Z.max (zlen data) capacity.
Proof.
  pose proof (zlen_nonneg data). unfold BufferT_copy, BufferT_new. cbn [data_].
  destruct (write_bytes_Some (new_bytes (Z.max (zlen data) capacity)) 0 data) as (d & Hd & Hl & _);
    [lia|rewrite zlen_new_bytes; lia|]. rewrite Hd. cbn [mbind option_bind].
  eexists. split; [reflexivity|]. cbn [set]. rewrite zlen_new_bytes in Hl by lia.
  assert (Hc : wf_buffer (mkBuffer (zlen data) d) /\ content (mkBuffer (zlen data) d) = data).
  { apply content_eq; [done|]. by apply (read_write_same _ _ _ _ Hd). }
  split; [apply Hc|]. split; [apply Hc|done].
Qed.

Lemma EnsureCapacityWithHeadroom_spec b n headroom :
  wf_buffer b -> exists b', EnsureCapacityWithHeadroom b n headroom = Some b' /\ wf_buffer b' /\
    size_ b' = size_ b /\ content b' = content b /\ n <= capacity_ b' /\ capacity_ b <= capacity_ b'.
Proof.
  intros Hb. unfold EnsureCapacityWithHeadroom. destruct (Z.leb_spec n (capacity_ b)) as [Hn|Hn].
  - exists b. split_and!; auto; lia.
  - pose proof Hb as [H0 Hs]. rewrite content_read by done. cbn [mbind option_bind].
    set (c := if headroom then _ else _). pose proof (zlen_nonneg (data_ b)) as Hp.
    assert (Hc : n <= c) by (unfold c; destruct headroom; lia). fold (capacity_ b) in Hp.
    destruct (write_bytes_Some (new_bytes c) 0 (content b)) as (d & Hd & Hl & _);
      [lia|rewrite zlen_content, zlen_new_bytes by (done || lia); lia|].
    rewrite Hd. cbn [mbind option_bind set]. rewrite zlen_new_bytes in Hl by lia.
    pose proof (read_write_same _ _ _ _ Hd) as Hr.
    destruct (content_eq (mkBuffer (size_ b) d) (content b)) as [Hw Hcon];
      [by rewrite zlen_content|done|].
    exists (mkBuffer (size_ b) d). split_and!; auto; unfold capacity_ in *; cbn [data_]; lia.
Qed.

Lemma BufferT_AppendData_spec b data :
  wf_buffer b -> exists b', BufferT_AppendData b data = Some b' /\ wf_buffer b' /\
    content b' = content b ++ data.
Proof.
  intros Hb. unfold BufferT_AppendData. pose proof (zlen_nonneg data).
  destruct (EnsureCapacityWithHeadroom_spec b (size_ b + zlen data) true Hb)
    as (b1 & -> & Hw1 & Hs1 & Hc1 & Hn & _). cbn [mbind option_bind].
  destruct (write_bytes_Some (data_ b1) (size_ b1) data) as (d & Hd & Hl & Hg);
    [unfold wf_buffer in Hw1; lia|unfold capacity_ in Hn; lia|].
  rewrite Hd. cbn [mbind option_bind]. eexists. split; [reflexivity|].
  apply content_eq; cbn [size_ data_].
  - by rewrite zlen_app, zlen_content.
  - apply read_bytes_spec. rewrite Hl, zlen_app, zlen_content by done. unfold wf_buffer, capacity_ in *.
    split_and!; try (lia || done). intros i Hi. rewrite zget_app, zlen_content by done.
    rewrite Z.add_0_l, Hg, <- Hc1, Hs1. destruct (Z.ltb_spec i (size_ b)).
    + rewrite (proj2 (Z.leb_gt _ _)) by lia. apply zget_content; [unfold wf_buffer, capacity_; lia|lia].
    + by rewrite (proj2 (Z.leb_le _ _)), (proj2 (Z.ltb_lt _ _)) by lia.
Qed.

Lemma BufferT_SetData_spec b data :
  wf_buffer b -> exists b', BufferT_SetData b data = Some b' /\ wf_buffer b' /\ content b' = data.
Proof.
  intros Hb. destruct (BufferT_AppendData_spec (b <| size_ := 0 |>) data) as (b' & ? & ? & Hc).
  - unfold wf_buffer, capacity_ in *. cbn [set size_ data_]. lia.
  - by exists b'.
Qed.

Lemma BufferT_SetSize_spec b n :
  wf_buffer b -> 0 <= n -> exists b', BufferT_SetSize b n = Some b' /\ wf_buffer b' /\
    resized (content b) n (content b').
Proof.
  intros Hb Hn. unfold BufferT_SetSize.
  destruct (EnsureCapacityWithHeadroom_spec b n true Hb) as (b1 & -> & Hw1 & Hs1 & Hc1 & Hc & _).
  cbn [mbind option_bind]. change (b1 <| size_ := n |>) with (mkBuffer n (data_ b1)).
  eexists. split; [reflexivity|].
  assert (Hw : wf_buffer (mkBuffer n (data_ b1))) by (unfold wf_buffer, capacity_ in *; cbn; lia).
  split; [done|]. split; [by rewrite zlen_content|]. intros i Hi. rewrite zlen_content in Hi by done.
  rewrite zget_content by (done || cbn; lia). cbn [data_]. rewrite <- Hc1.
  symmetry. apply zget_content; [done|lia].
Qed.

Lemma CloneDataIfReferenced_spec b one n :
  wf_buffer b -> exists b', CloneDataIfReferenced b one n = Some (b', negb one) /\ wf_buffer b' /\
    content b' = content b /\ size_ b' = size_ b /\ (one = true -> b' = b) /\
    (one = false -> capacity_ b' = Z.max (size_ b) n).
Proof.
  intros Hb. unfold CloneDataIfReferenced. destruct one; [by exists b|].
  rewrite content_read by done. cbn [mbind option_bind].
  destruct (BufferT_copy_spec (content b) n) as (b' & -> & Hw & Hc & Hcap). cbn [mbind option_bind].
  exists b'. rewrite zlen_content in Hcap by done. split_and!; auto; [|done].
  by rewrite <- (zlen_content b'), Hc, zlen_content.
Qed.

(** ** The heap *)

Definition view_value (v : view) : list Z :=
  match v with Some (b, _) => content b | None => [] end.

Definition wf_view (v : view) : Prop := match v with Some (b, _) => wf_buffer b | None => True end.

Definition effect_value (v : view) (e : effect) : list Z :=
  match e with
  | Same => view_value v
  | Assign None => []
  | Assign (Some b) | Change b => content b
  end.

(** Only an object with one reference is changed. *)
Definition wf_effect (v : view) (e : effect) : Prop :=
  match e with
  | Same | Assign None => True
  | Assign (Some b) => wf_buffer b
  | Change b => wf_buffer b /\ exists b0, v = Some (b0, true)
  end.

Lemma one_ref st l h h' :
  HasOneRef st l = true -> refs st !! h = Some (Some l) -> refs st !! h' = Some (Some l) -> h = h'.
Proof.
  unfold HasOneRef. rewrite bool_decide_eq_true. intros H1 Hh Hh'.
  set (m := filter (fun r => r.2 = Some l) (refs st)) in *.
  assert (Hm : m !! h = Some (Some l) /\ m !! h' = Some (Some l))
    by (split; by apply map_lookup_filter_Some). destruct Hm as [Hm Hm'].
  destruct (decide (h = h')) as [|Hne]; [done|].
  assert (Hd : size (delete h m) = 0%nat) by (rewrite map_size_delete, Hm, H1; done).
  apply map_size_empty_inv in Hd. pose proof (lookup_delete_ne m h h' Hne) as E.
  rewrite Hd, Hm', lookup_empty in E. done.
Qed.

Lemma wf_cow_view st h p : wf_cow st -> refs st !! h = Some p -> wf_view (cow_view st p).
Proof.
  intros [Hb _] _. unfold cow_view. destruct p as [l|]; [|done]. cbn.
  destruct (heap st !! l) as [b|] eqn:E; [|done]. by apply (Hb l b).
Qed.

Lemma value_of_view st p : value_of st p = view_value (cow_view st p).
Proof. unfold value_of, cow_view. destruct p as [l|]; [|done]. cbn. by destruct (heap st !! l). Qed.

Lemma cow_abs_lookup st h p : refs st !! h = Some p -> cow_abs st !! h = Some (value_of st p).
Proof. intros Hp. unfold cow_abs. by rewrite lookup_fmap, Hp. Qed.

(** A heap that differs at [l] only gives the same values to the references
    that do not point there. *)
Lemma cow_abs_insert st h p l b :
  (forall h' p', refs st !! h' = Some p' -> h' <> h -> p' <> Some l) ->
  cow_abs {| heap := <[l := b]> (heap st); refs := <[h := p]> (refs st) |} =
  <[h := value_of {| heap := <[l := b]> (heap st); refs := refs st |} p]> (cow_abs st).
Proof.
  intros Hne. apply map_eq. intros h'. unfold cow_abs. cbn [heap refs]. rewrite lookup_fmap.
  destruct (decide (h' = h)) as [->|Hh].
  - by rewrite !lookup_insert_eq.
  - rewrite !lookup_insert_ne, lookup_fmap by done.
    destruct (refs st !! h') as [p'|] eqn:E; [|done]. cbn. f_equal.
    specialize (Hne h' p' E Hh). unfold value_of. destruct p' as [l'|]; [|done]. cbn [heap mbind option_bind].
    by rewrite lookup_insert_ne by congruence.
Qed.

Lemma wf_cow_insert st h p l b :
  wf_cow st -> wf_buffer b -> (forall l', p = Some l' -> l' = l \/ is_Some (heap st !! l')) ->
  wf_cow {| heap := <[l := b]> (heap st); refs := <[h := p]> (refs st) |}.
Proof.
  intros [Hb Hr] Hwb Hp. split; cbn [heap refs].
  - by apply map_Forall_insert_2.
  - assert (Hi : forall l', l' = l \/ is_Some (heap st !! l') -> is_Some (<[l := b]> (heap st) !! l')).
    { intros l' Hl'. destruct (decide (l = l')) as [->|]; [by rewrite lookup_insert_eq|].
      rewrite lookup_insert_ne by done. destruct Hl'; [congruence|done]. }
    apply map_Forall_insert_2.
    + intros l' Hl'. by apply Hi, Hp.
    + intros h' p' Hp' l' ->. apply Hi. right. by eapply (Hr h').
Qed.

Lemma on_ref_spec h f st p e :
  wf_cow st -> refs st !! h = Some p ->
  f (cow_view st p) = Some e -> wf_effect (cow_view st p) e ->
  exists st', on_ref h f st = Some st' /\ wf_cow st' /\
    cow_abs st' = <[h := effect_value (cow_view st p) e]> (cow_abs st).
Proof.
  intros Hwf Hp Hf He. pose proof Hwf as [Hb Hr]. unfold on_ref. rewrite Hp. cbn [mbind option_bind].
  rewrite Hf. cbn [mbind option_bind]. eexists. split; [reflexivity|].
  destruct e as [|[b|]|b]; cbn [effect_value].
  - split; [done|]. rewrite <- value_of_view. symmetry. by apply insert_id, cow_abs_lookup.
  - assert (Hn : heap st !! fresh (dom (heap st)) = None)
      by (apply not_elem_of_dom, is_fresh).
    split; [apply wf_cow_insert; auto; intros l' [= <-]; auto|].
    rewrite cow_abs_insert.
    + unfold value_of. cbn. by rewrite lookup_insert_eq.
    + intros h' p' Hp' _ ->. destruct (Hr h' _ Hp' _ eq_refl). congruence.
  - split; [split; [done|]|].
    + cbn [heap refs]. by apply map_Forall_insert_2.
    + unfold cow_abs. cbn [refs]. by rewrite fmap_insert.
  - destruct He as [Hwb [b0 Hv]]. destruct p as [l|]; [|done]. cbn in Hv.
    destruct (heap st !! l) as [b1|] eqn:El; [|done]. cbn in Hv. injection Hv as -> H1.
    pose proof (insert_id (refs st) h (Some l) Hp) as Hid.
    rewrite <- Hid at 1 2. split; [apply wf_cow_insert; auto; intros l' [= <-]; auto|].
    rewrite cow_abs_insert.
    + unfold value_of. cbn. by rewrite lookup_insert_eq.
    + intros h' p' Hp' Hne ->. apply Hne. by eapply one_ref.
Qed.

(** ** The operations on a view *)

Lemma in_place_effect (b b' : Buffer) (one : bool) :
  wf_buffer b' ->
  wf_effect (Some (b, one)) (if negb one then Assign (Some b') else Change b') /\
  effect_value (Some (b, one)) (if negb one then Assign (Some b') else Change b') = content b'.
Proof. intros Hw. destruct one; cbn; eauto. Qed.

Lemma cow_write_spec off bs b one :
  wf_buffer b -> 0 <= off -> off + zlen bs <= capacity_ b ->
  exists e, cow_write off bs (Some (b, one)) = Some e /\ wf_effect (Some (b, one)) e /\
    overwritten (content b) off bs (effect_value (Some (b, one)) e).
Proof.
  intros Hb H0 Hl. unfold cow_write.
  destruct (CloneDataIfReferenced_spec b one (capacity_ b) Hb) as (b1 & -> & Hw1 & Hc1 & Hs1 & H1 & H2).
  cbn [mbind option_bind].
  assert (Hcap : capacity_ b1 = capacity_ b).
  { destruct one; [by rewrite H1|]. unfold wf_buffer in Hb. rewrite H2 by done. lia. }
  destruct (write_bytes_Some (data_ b1) off bs) as (d & Hd & Hld & Hg); [done|unfold capacity_ in *; lia|].
  rewrite Hd. cbn [mbind option_bind].
  change (b1 <| data_ := d |>) with (mkBuffer (size_ b1) d).
  assert (Hw : wf_buffer (mkBuffer (size_ b1) d)) by (unfold wf_buffer, capacity_ in *; cbn; lia).
  destruct (in_place_effect b _ one Hw) as [He Hv]. eexists. split; [reflexivity|].
  split; [done|]. rewrite Hv. split; [by rewrite !zlen_content by done|].
  intros i Hi. rewrite zlen_content in Hi by done. rewrite zget_content by (done || cbn; lia).
  cbn [data_]. rewrite Hg, <- Hc1, zget_content by (done || lia). done.
Qed.

Lemma cow_SetData_spec data v :
  wf_view v -> exists e, cow_SetData data v = Some e /\ wf_effect v e /\ effect_value v e = data.
Proof.
  intros Hv. destruct v as [[b [|]]|]; cbn [cow_SetData].
  - destruct (BufferT_SetData_spec b data Hv) as (b' & -> & Hw & Hc).
    exists (Change b'). split; [done|]. cbn. eauto.
  - destruct (BufferT_copy_spec data (capacity_ b)) as (b' & -> & Hw & Hc & _).
    exists (Assign (Some b')). split; [done|]. cbn. eauto.
  - destruct (Z.ltb_spec 0 (zlen data)) as [Hl|Hl].
    + destruct (BufferT_copy_spec data (zlen data)) as (b' & -> & Hw & Hc & _).
    exists (Assign (Some b')). split; [done|]. cbn. eauto.
    + destruct data; [|rewrite zlen_cons in Hl; pose proof (zlen_nonneg data); lia].
      by exists (Assign None).
Qed.

Lemma cow_AppendData_spec data v :
  wf_view v -> exists e, cow_AppendData data v = Some e /\ wf_effect v e /\
    effect_value v e = view_value v ++ data.
Proof.
  intros Hv. destruct v as [[b one]|]; cbn [cow_AppendData].
  - destruct (CloneDataIfReferenced_spec b one (Z.max (capacity_ b) (size_ b + zlen data)) Hv)
      as (b1 & -> & Hw1 & Hc1 & _). cbn [mbind option_bind].
    destruct (BufferT_AppendData_spec b1 data Hw1) as (b' & -> & Hw & Hc). cbn [mbind option_bind].
    destruct (in_place_effect b b' one Hw) as [He Hval]. eexists. split; [reflexivity|].
    split; [done|]. rewrite Hval. cbn. by rewrite Hc, Hc1.
  - destruct (BufferT_copy_spec data (zlen data)) as (b' & -> & Hw & Hc & _).
    exists (Assign (Some b')). split; [done|]. cbn. eauto.
Qed.

Lemma zget_nil i : zget [] i = None.
Proof. unfold zget. by destruct (i <? 0). Qed.

Lemma cow_SetSize_spec n v :
  wf_view v -> 0 <= n -> exists e, cow_SetSize n v = Some e /\ wf_effect v e /\
    resized (view_value v) n (effect_value v e).
Proof.
  intros Hv Hn. destruct v as [[b one]|]; cbn [cow_SetSize].
  - assert (Hex : exists b1, (if one then Some (b, false)
        else d ← read_bytes (data_ b) 0 (Z.min (size_ b) n);
             b' ← BufferT_copy d (Z.max (capacity_ b) n); Some (b', true)) = Some (b1, negb one) /\
        wf_buffer b1 /\ zlen (content b1) >= Z.min n (size_ b) /\
        forall i, 0 <= i < Z.min n (size_ b) -> zget (content b1) i = zget (content b) i).
    { destruct one.
      - exists b. rewrite zlen_content by done. split_and!; auto. lia.
      - cbn in Hv. pose proof Hv as [H0 H1]. unfold capacity_ in H1.
        rewrite read_bytes_Some by lia. cbn [mbind option_bind]. set (d := take _ _).
        assert (Hd : read_bytes (data_ b) 0 (Z.min (size_ b) n) = Some d) by (by rewrite read_bytes_Some by lia).
        apply read_bytes_spec in Hd as (_ & Hdl & _ & Hdg).
        destruct (BufferT_copy_spec d (Z.max (capacity_ b) n)) as (b' & -> & Hw & Hc & _).
        exists b'. rewrite Hc. split_and!; auto; [lia|]. intros i Hi.
        rewrite Hdg, zget_content by (done || lia). done. }
    destruct Hex as (b1 & -> & Hw1 & Hl1 & Hg1). cbn [mbind option_bind].
    destruct (BufferT_SetSize_spec b1 n Hw1 Hn) as (b' & -> & Hw & Hrl & Hrg). cbn [mbind option_bind].
    destruct (in_place_effect b b' one Hw) as [He Hval]. eexists. split; [reflexivity|].
    split; [done|]. rewrite Hval. split; [done|]. cbn [view_value]. cbn in Hv. intros i Hi.
    rewrite zlen_content in Hi by done. rewrite Hrg, Hg1 by lia. done.
  - destruct (Z.ltb_spec 0 n) as [Hl|Hl].
    + assert (Hw : wf_buffer (BufferT_new n n)).
      { unfold wf_buffer, capacity_, BufferT_new. cbn. rewrite zlen_new_bytes; lia. }
      eexists. split; [reflexivity|]. split; [done|]. cbn [effect_value]. split; [by rewrite zlen_content|].
      intros i Hi. cbn in Hi. rewrite zlen_nil in Hi. lia.
    + eexists. split; [reflexivity|]. split; [done|]. split; [cbn; rewrite zlen_nil; lia|done].
Qed.

Lemma cow_EnsureCapacity_spec n v :
  wf_view v -> exists e, cow_EnsureCapacity n v = Some e /\ wf_effect v e /\
    effect_value v e = view_value v.
Proof.
  intros Hv. destruct v as [[b one]|]; cbn [cow_EnsureCapacity].
  - destruct (Z.leb_spec n (capacity_ b)); [by exists Same|].
    destruct (CloneDataIfReferenced_spec b one (Z.max (capacity_ b) n) Hv) as (b1 & -> & Hw1 & Hc1 & _).
    cbn [mbind option_bind]. unfold BufferT_EnsureCapacity.
    destruct (EnsureCapacityWithHeadroom_spec b1 n false Hw1) as (b' & -> & Hw & _ & Hc & _).
    cbn [mbind option_bind]. destruct (in_place_effect b b' one Hw) as [He Hval].
    eexists. split; [reflexivity|]. split; [done|]. rewrite Hval. cbn. by rewrite Hc, Hc1.
  - destruct (Z.ltb_spec 0 n); [|by exists Same]. eexists. split; [reflexivity|].
    cbn. unfold wf_buffer, capacity_. cbn. rewrite zlen_new_bytes by lia. split; [lia|done].
Qed.

Lemma cow_Clear_spec v :
  wf_view v -> exists e, cow_Clear v = Some e /\ wf_effect v e /\ effect_value v e = [].
Proof.
  intros Hv. destruct v as [[b [|]]|]; cbn [cow_Clear].
  - eexists. split; [reflexivity|]. cbn in *. unfold wf_buffer, BufferT_Clear, capacity_ in *.
    cbn [set size_ data_]. split; [split; [lia|eauto]|done].
  - eexists. split; [reflexivity|]. cbn in *. unfold wf_buffer, BufferT_new, capacity_ in *. cbn.
    pose proof (zlen_nonneg (data_ b)). rewrite zlen_new_bytes by lia. split; [lia|done].
  - by exists Same.
Qed.

(** ** References behave as values *)

(** An operation on a view, lifted to the state. *)
Lemma on_ref_refines h f st (P : list Z -> list Z -> Prop) :
  wf_cow st -> is_Some (refs st !! h) ->
  (forall p, refs st !! h = Some p -> exists e, f (cow_view st p) = Some e /\
     wf_effect (cow_view st p) e /\ P (view_value (cow_view st p)) (effect_value (cow_view st p) e)) ->
  exists st', on_ref h f st = Some st' /\ wf_cow st' /\
    exists v v', cow_abs st !! h = Some v /\ P v v' /\ cow_abs st' = <[h := v']> (cow_abs st).
Proof.
  intros Hwf [p Hp] Hf. destruct (Hf p Hp) as (e & Hfe & He & HP).
  destruct (on_ref_spec h f st p e Hwf Hp Hfe He) as (st' & H1 & H2 & H3).
  exists st'. split_and!; auto. exists (view_value (cow_view st p)), (effect_value (cow_view st p) e).
  split_and!; auto. by rewrite (cow_abs_lookup st h p Hp), value_of_view.
Qed.

Lemma wf_cow_refs st (r : gmap positive (option positive)) :
  wf_cow st -> (forall h p, r !! h = Some p -> p = None \/ exists h', refs st !! h' = Some p) ->
  wf_cow {| heap := heap st; refs := r |}.
Proof.
  intros [Hb Hr] H0. split; [done|]. cbn [heap refs]. intros h p Hp l ->.
  destruct (H0 h _ Hp) as [?|[h' Hh']]; [done|]. by eapply (Hr h').
Qed.

(** One call changes the values as the operation on one of them would. *)
Lemma cow_step o st :
  wf_cow st -> valid_op o st ->
  exists st', cow_exec o st = Some st' /\ wf_cow st' /\ cow_spec o (cow_abs st) (cow_abs st').
Proof.
  intros Hwf Hv. destruct o; cbn [cow_exec cow_spec valid_op] in *.
  - destruct Hv as (l & b & Hl & Hb & H0 & Hc). apply on_ref_refines; [done|by rewrite Hl|].
    intros p Hp. assert (p = Some l) as -> by congruence. cbn. rewrite Hb. cbn.
    apply cow_write_spec; auto. by apply (proj1 Hwf l).
  - destruct (on_ref_refines h (cow_SetData data) st (fun _ v' => v' = data) Hwf Hv)
      as (st' & ? & ? & v & v' & ? & -> & ?); [|by exists st'].
    intros p Hp. eapply cow_SetData_spec, wf_cow_view; eauto.
  - destruct (on_ref_refines h (cow_AppendData data) st (fun v v' => v' = v ++ data) Hwf Hv)
      as (st' & ? & ? & v & v' & ? & -> & ?); [|exists st'; eauto].
    intros p Hp. eapply cow_AppendData_spec, wf_cow_view; eauto.
  - destruct Hv as [Hv Hn]. apply on_ref_refines; [done..|].
    intros p Hp. eapply cow_SetSize_spec; [eapply wf_cow_view; eauto|done].
  - destruct (on_ref_refines h (cow_EnsureCapacity capacity) st (fun v v' => v' = v) Hwf Hv)
      as (st' & ? & ? & v & v' & ? & -> & Ha).
    + intros p Hp. eapply cow_EnsureCapacity_spec, wf_cow_view; eauto.
    + exists st'. split_and!; auto. rewrite Ha. by apply insert_id.
  - destruct (on_ref_refines h cow_Clear st (fun _ v' => v' = []) Hwf Hv)
      as (st' & ? & ? & v & v' & ? & -> & ?); [|by exists st'].
    intros p Hp. eapply cow_Clear_spec, wf_cow_view; eauto.
  - destruct Hv as [p Hp]. rewrite Hp. cbn [mbind option_bind]. eexists. split; [reflexivity|].
    split; [|exists (value_of st p); split; [by apply cow_abs_lookup|]].
    + apply wf_cow_refs; [done|]. intros h p' Hh. destruct (decide (h = dst)) as [->|].
      * rewrite lookup_insert_eq in Hh. simplify_eq. eauto.
      * rewrite lookup_insert_ne in Hh by done. eauto.
    + unfold cow_abs. cbn [refs]. by rewrite fmap_insert.
  - destruct Hv as [p Hp]. rewrite Hp. cbn [mbind option_bind]. eexists. split; [reflexivity|].
    split; [|exists (value_of st p); split; [by apply cow_abs_lookup|]].
    + apply wf_cow_refs; [done|]. intros h p' Hh. destruct (decide (h = dst)) as [->|].
      * rewrite lookup_insert_eq in Hh. simplify_eq. eauto.
      * rewrite lookup_insert_ne in Hh by done.
        destruct (decide (h = src)) as [->|]; [rewrite lookup_insert_eq in Hh; simplify_eq; auto|].
        rewrite lookup_insert_ne in Hh by done. eauto.
    + unfold cow_abs. cbn [refs]. by rewrite !fmap_insert.
  - eexists. split; [reflexivity|]. split.
    + apply wf_cow_refs; [done|]. intros h' p' Hh. apply lookup_delete_Some in Hh as [_ Hh]. eauto.
    + unfold cow_abs. cbn [refs]. by rewrite fmap_delete.
Qed.
Lemma cow_run_cons o os st st1 : cow_exec o st = Some st1 -> cow_run (o :: os) st = cow_run os st1.
Proof. intros E. unfold cow_run. cbn [foldl mbind option_bind]. by rewrite E. Qed.

(** C21. Copy-on-write buffers refine independent byte strings: from a state in which every
    reference has its object, every sequence of calls a caller may make returns, keeps
    that invariant, and changes the values the references stand for exactly as the same
    operations on independent strings would: a write, a new size or new data through
    one reference is never seen through another, however the underlying buffers are
    shared, copied, moved - onto themselves as well - and dropped. *)
Theorem cow_refines os st :
  wf_cow st -> valid_ops os st ->
  exists st', cow_run os st = Some st' /\ wf_cow st' /\ cow_specs os (cow_abs st) (cow_abs st').
Proof.
  revert st. induction os as [|o os IH]; intros st Hwf Hv; [by exists st|]. destruct Hv as [Hv Hvs].
  destruct (cow_step o st Hwf Hv) as (st1 & E & Hwf1 & Hs). destruct (IH st1 Hwf1 (Hvs st1 E)) as (st' & E' & Hwf' & Hs').
  exists st'. rewrite (cow_run_cons o os st st1 E). split_and!; [done..|]. by exists (cow_abs st1).
Qed.
End cow.

(** Memory that happens to hold zeros. *)
Lemma zeros_zlen n : 0 <= n -> zlen (replicate (Z.to_nat n) 0) = n.
Proof. intros Hn. rewrite zlen_replicate. lia. Qed.

Lemma zeros_u8 (n : nat) : Forall is_u8 (replicate n 0).
Proof. apply Forall_replicate. unfold is_u8. lia. Qed.

#[export] Instance zero_alloc : Alloc := {|
  new_bytes n := replicate (Z.to_nat n) 0;
  zlen_new_bytes := zeros_zlen;
  new_bytes_u8 n := zeros_u8 (Z.to_nat n);
|}.

(** Two references to one buffer: a write through the second one, which is then moved onto
    itself. *)
Lemma cow_refines_witness :
  let st := {| heap := {[1%positive := mkBuffer 2 [7; 8; 9]]};
               refs := {[1%positive := Some 1%positive; 2%positive := Some 1%positive]} |} in
  exists st', cow_run [OpWrite 2 0 [5]; OpMove 2 2] st = Some st' /\ cow_abs st' !! 1%positive = Some [7; 8] /\
    exists v, overwritten [7; 8] 0 [5] v /\ cow_abs st' !! 2%positive = Some v.
Proof.
  intros st. destruct (cow_refines [OpWrite 2 0 [5]; OpMove 2 2] st) as (st' & H1 & _ & H2).
  - split.
    + cbn [heap st]. apply map_Forall_singleton. unfold wf_buffer, capacity_, zlen. cbn. lia.
    + cbn [heap refs st]. intros h p Hh l ->.
      assert (l = 1%positive) as ->.
      { apply lookup_insert_Some in Hh as [[_ ?]|[_ Hh]]; [congruence|].
        apply lookup_singleton_Some in Hh as [_ ?]. congruence. }
      by rewrite lookup_singleton_eq.
  - split; [|intros st1 E; split; [|done]].
    + exists 1%positive, (mkBuffer 2 [7; 8; 9]). split_and!; [done|done|lia|].
      unfold capacity_, zlen. cbn. lia.
    + vm_compute in E. injection E as <-. by eexists.
  - exists st'. split; [done|]. destruct H2 as (m1 & (v & v' & Hv & Hov & ->) & m2 & (v2 & Hv2 & ->) & H3).
    cbn in H3. rewrite H3. assert (v = [7; 8]) as -> by (injection Hv; done).
    rewrite lookup_insert_eq in Hv2. injection Hv2 as <-.
    rewrite lookup_insert_ne, lookup_insert_ne, lookup_insert_ne by done. split; [done|].
    exists v'. split; [done|]. by rewrite lookup_insert_eq.
Defined.
