(* ===== verification/RtpExtMap.v ===== *)
(** * The map of RTP header extensions

    [modules/rtp_rtcp/include/rtp_header_extension_map.h] and
    [source/rtp_header_extension_map.cc]: which number a negotiated extension has.
    The identifier 0 marks an extension that is not registered. *)

From stdpp Require Import strings.
From S2P Require Import Prelude ByteIo.

Open Scope Z_scope.
Open Scope c_scope.

(** The enumeration of rtp_rtcp_defines.h, in its order. *)
Inductive RTPExtensionType :=
  | kRtpExtensionNone
  | kRtpExtensionTransmissionTimeOffset
  | kRtpExtensionAudioLevel
  | kRtpExtensionAbsoluteSendTime
  | kRtpExtensionVideoRotation
  | kRtpExtensionTransportSequenceNumber
  | kRtpExtensionTransportSequenceNumber02
  | kRtpExtensionPlayoutDelay
  | kRtpExtensionVideoContentType
  | kRtpExtensionVideoTiming
  | kRtpExtensionFrameMarking
  | kRtpExtensionRtpStreamId
  | kRtpExtensionRepairedRtpStreamId
  | kRtpExtensionMid
  | kRtpExtensionGenericFrameDescriptor00
  | kRtpExtensionGenericFrameDescriptor01
  | kRtpExtensionColorSpace.

#[export] Instance RTPExtensionType_eq : EqDecision RTPExtensionType.
Proof. solve_decision. Defined.

Definition all_types : list RTPExtensionType :=
  [kRtpExtensionNone; kRtpExtensionTransmissionTimeOffset; kRtpExtensionAudioLevel;
   kRtpExtensionAbsoluteSendTime; kRtpExtensionVideoRotation; kRtpExtensionTransportSequenceNumber;
   kRtpExtensionTransportSequenceNumber02; kRtpExtensionPlayoutDelay; kRtpExtensionVideoContentType;
   kRtpExtensionVideoTiming; kRtpExtensionFrameMarking; kRtpExtensionRtpStreamId;
   kRtpExtensionRepairedRtpStreamId; kRtpExtensionMid; kRtpExtensionGenericFrameDescriptor00;
   kRtpExtensionGenericFrameDescriptor01; kRtpExtensionColorSpace].

Definition kRtpExtensionNumberOfExtensions : nat := 17.

(** The position of a type in the enumeration, its index into [ids_]. *)
Definition type_index (t : RTPExtensionType) : nat :=
  match t with
  | kRtpExtensionNone => 0
  | kRtpExtensionTransmissionTimeOffset => 1
  | kRtpExtensionAudioLevel => 2
  | kRtpExtensionAbsoluteSendTime => 3
  | kRtpExtensionVideoRotation => 4
  | kRtpExtensionTransportSequenceNumber => 5
  | kRtpExtensionTransportSequenceNumber02 => 6
  | kRtpExtensionPlayoutDelay => 7
  | kRtpExtensionVideoContentType => 8
  | kRtpExtensionVideoTiming => 9
  | kRtpExtensionFrameMarking => 10
  | kRtpExtensionRtpStreamId => 11
  | kRtpExtensionRepairedRtpStreamId => 12
  | kRtpExtensionMid => 13
  | kRtpExtensionGenericFrameDescriptor00 => 14
  | kRtpExtensionGenericFrameDescriptor01 => 15
  | kRtpExtensionColorSpace => 16
  end.

(** [kExtensions]: the known extensions with their names. *)
Definition kExtensions : list (RTPExtensionType * string) :=
  [(kRtpExtensionTransmissionTimeOffset, "urn:ietf:params:rtp-hdrext:toffset");
   (kRtpExtensionAudioLevel, "urn:ietf:params:rtp-hdrext:ssrc-audio-level");
   (kRtpExtensionAbsoluteSendTime, "http://www.webrtc.org/experiments/rtp-hdrext/abs-send-time");
   (kRtpExtensionVideoRotation, "urn:3gpp:video-orientation");
   (kRtpExtensionTransportSequenceNumber,
    "http://www.ietf.org/id/draft-holmer-rmcat-transport-wide-cc-extensions-01");
   (kRtpExtensionTransportSequenceNumber02,
    "http://www.webrtc.org/experiments/rtp-hdrext/transport-wide-cc-02");
   (kRtpExtensionPlayoutDelay, "http://www.webrtc.org/experiments/rtp-hdrext/playout-delay");
   (kRtpExtensionVideoContentType, "http://www.webrtc.org/experiments/rtp-hdrext/video-content-type");
   (kRtpExtensionVideoTiming, "http://www.webrtc.org/experiments/rtp-hdrext/video-timing");
   (kRtpExtensionFrameMarking, "http://tools.ietf.org/html/draft-ietf-avtext-framemarking-07");
   (kRtpExtensionRtpStreamId, "urn:ietf:params:rtp-hdrext:sdes:rtp-stream-id");
   (kRtpExtensionRepairedRtpStreamId, "urn:ietf:params:rtp-hdrext:sdes:repaired-rtp-stream-id");
   (kRtpExtensionMid, "urn:ietf:params:rtp-hdrext:sdes:mid");
   (kRtpExtensionGenericFrameDescriptor00,
    "http://www.webrtc.org/experiments/rtp-hdrext/generic-frame-descriptor-00");
   (kRtpExtensionGenericFrameDescriptor01,
    "http://www.webrtc.org/experiments/rtp-hdrext/generic-frame-descriptor-01");
   (kRtpExtensionColorSpace, "http://www.webrtc.org/experiments/rtp-hdrext/color-space")]%string.

Definition kMinId : Z := 1.
Definition kMaxId : Z := 255.
Definition kMaxValueSize : Z := 255.
Definition kOneByteHeaderExtensionMaxId : Z := 14.
Definition kOneByteHeaderExtensionMaxValueSize : Z := 16.

Definition kInvalidId : Z := 0.
Definition kInvalidType : RTPExtensionType := kRtpExtensionNone.

Record RtpHeaderExtensionMap := mkExtMap { ids_ : list Z; extmap_allow_mixed_ : bool }.

#[export] Instance eta_ExtMap : Eta RtpHeaderExtensionMap :=
  fun m => mkExtMap (ids_ m) (extmap_allow_mixed_ m).

Definition RtpHeaderExtensionMap_new (extmap_allow_mixed : bool) : RtpHeaderExtensionMap :=
  {| ids_ := replicate kRtpExtensionNumberOfExtensions kInvalidId;
     extmap_allow_mixed_ := extmap_allow_mixed |}.

(** [ids_] has one place for each type, so the access has a value. *)
Definition GetId (m : RtpHeaderExtensionMap) (type : RTPExtensionType) : Z :=
  default kInvalidId (ids_ m !! type_index type).

Definition IsRegistered (m : RtpHeaderExtensionMap) (type : RTPExtensionType) : bool :=
  negb (GetId m type =? kInvalidId).

(** The loop over the types after [kRtpExtensionNone]. *)
Fixpoint find_type (m : RtpHeaderExtensionMap) (types : list RTPExtensionType) (id : Z) :
    RTPExtensionType :=
  match types with
  | [] => kInvalidType
  | t :: types' => if GetId m t =? id then t else find_type m types' id
  end.

Definition GetType (m : RtpHeaderExtensionMap) (id : Z) : RTPExtensionType :=
  find_type m (drop 1 all_types) id.

Definition Deregister (m : RtpHeaderExtensionMap) (type : RTPExtensionType) : RtpHeaderExtensionMap :=
  if IsRegistered m type then m <| ids_ := <[type_index type := kInvalidId]> (ids_ m) |> else m.

(** The map after the call and the value returned. *)
Definition Register (m : RtpHeaderExtensionMap) (id : Z) (type : RTPExtensionType) :
    RtpHeaderExtensionMap * bool :=
  if (id <? kMinId) || (kMaxId <? id) then (m, false)
  else
    let registered_type := GetType m id in
    if decide (registered_type = type) then (m, true)
    else if negb (bool_decide (registered_type = kInvalidType)) then (m, false)
    else (m <| ids_ := <[type_index type := u8 id]> (ids_ m) |>, true).

Definition RegisterByType (m : RtpHeaderExtensionMap) (id : Z) (type : RTPExtensionType) :
    RtpHeaderExtensionMap * bool :=
  match list_find (fun e => type = e.1) kExtensions with
  | Some (_, (t, _)) => Register m id t
  | None => (m, false)
  end.

Definition RegisterByUri (m : RtpHeaderExtensionMap) (id : Z) (uri : string) :
    RtpHeaderExtensionMap * bool :=
  match list_find (fun e => uri = e.2) kExtensions with
  | Some (_, (t, _)) => Register m id t
  | None => (m, false)
  end.

Definition SetExtmapAllowMixed (m : RtpHeaderExtensionMap) (b : bool) : RtpHeaderExtensionMap :=
  m <| extmap_allow_mixed_ := b |>.

(** ** Identifiers and types correspond *)

(** The maps a program can have. *)
Inductive ext_map_reachable : RtpHeaderExtensionMap -> Prop :=
  | reach_new b : ext_map_reachable (RtpHeaderExtensionMap_new b)
  | reach_type m id t : ext_map_reachable m -> ext_map_reachable (RegisterByType m id t).1
  | reach_uri m id uri : ext_map_reachable m -> ext_map_reachable (RegisterByUri m id uri).1
  | reach_deregister m t : ext_map_reachable m -> ext_map_reachable (Deregister m t)
  | reach_mixed m b : ext_map_reachable m -> ext_map_reachable (SetExtmapAllowMixed m b).

Definition wf_ext_map (m : RtpHeaderExtensionMap) : Prop :=
  length (ids_ m) = kRtpExtensionNumberOfExtensions /\ Forall is_u8 (ids_ m) /\
  GetId m kRtpExtensionNone = kInvalidId /\
  (forall t t', GetId m t <> kInvalidId -> GetId m t = GetId m t' -> t = t').

Lemma types_listed t : t ∈ drop 1 all_types <-> t <> kInvalidType.
Proof.
  split.
  - intros Ht ->. by apply (bool_decide_pack _) in Ht.
  - intros Hn. by destruct t; [|apply (bool_decide_unpack _)..].
Qed.

Lemma type_index_inj t t' : type_index t = type_index t' -> t = t'.
Proof. destruct t, t'; done. Qed.

Lemma type_index_lt t : (type_index t < kRtpExtensionNumberOfExtensions)%nat.
Proof. unfold kRtpExtensionNumberOfExtensions. destruct t; cbn; lia. Qed.

Lemma GetId_insert m t v t' :
  length (ids_ m) = kRtpExtensionNumberOfExtensions ->
  GetId (m <| ids_ := <[type_index t := v]> (ids_ m) |>) t' = if decide (t = t') then v else GetId m t'.
Proof.
  intros Hl. unfold GetId. cbn [set ids_]. destruct (decide (t = t')) as [->|Hne].
  - rewrite list_lookup_insert_eq; [done|]. rewrite Hl. apply type_index_lt.
  - rewrite list_lookup_insert_ne; [done|]. intros E. by apply Hne, type_index_inj.
Qed.

Lemma find_type_spec m types id :
  (find_type m types id = kInvalidType /\ (forall t, t ∈ types -> t <> kInvalidType -> GetId m t <> id)) \/
  (find_type m types id ∈ types /\ GetId m (find_type m types id) = id).
Proof.
  induction types as [|t types IH]; cbn [find_type].
  - left. split; [done|]. by intros t ?%not_elem_of_nil.
  - destruct (Z.eqb_spec (GetId m t) id) as [E|E].
    + right. split; [apply elem_of_cons; auto|done].
    + destruct IH as [[H1 H2]|[H1 H2]]; [left|right; split; [apply elem_of_cons; auto|done]]. split; [done|].
      intros t' [->|Ht']%elem_of_cons Hn; [done|]. by apply H2.
Qed.

Lemma GetType_spec m id :
  (GetType m id = kInvalidType /\ (forall t, t <> kInvalidType -> GetId m t <> id)) \/
  (GetType m id <> kInvalidType /\ GetId m (GetType m id) = id).
Proof.
  unfold GetType. destruct (find_type_spec m (drop 1 all_types) id) as [[H1 H2]|[H1 H2]].
  - left. split; [done|]. intros t Ht. apply H2; [by apply types_listed|done].
  - right. split; [by apply types_listed|done].
Qed.

Lemma wf_ext_map_insert m t v :
  wf_ext_map m -> t <> kRtpExtensionNone -> is_u8 v ->
  (v <> kInvalidId -> forall t', GetId m t' <> v) ->
  wf_ext_map (m <| ids_ := <[type_index t := v]> (ids_ m) |>).
Proof.
  intros (Hl & Hu & H0 & Hinj) Ht Hv Hfresh. unfold wf_ext_map. split_and!.
  - cbn [set ids_]. by rewrite length_insert.
  - cbn [set ids_]. by apply list.Forall_insert.
  - rewrite GetId_insert by done. by rewrite decide_False.
  - intros t1 t2. rewrite !GetId_insert by done.
    destruct (decide (t = t1)), (decide (t = t2)); subst; auto; intros Hn E.
    + exfalso. eapply Hfresh; [exact Hn|by symmetry].
    + exfalso. subst v. eapply Hfresh; [|reflexivity]. done.
Qed.

Lemma Register_wf m id t :
  wf_ext_map m -> t <> kRtpExtensionNone -> wf_ext_map (Register m id t).1.
Proof.
  intros Hwf Ht. unfold Register, kMinId, kMaxId.
  destruct (Z.ltb_spec id 1) as [|Hlo], (Z.ltb_spec 255 id) as [|Hhi]; cbn [orb]; try done.
  destruct (decide (GetType m id = t)); [done|].
  destruct (bool_decide_reflect (GetType m id = kInvalidType)) as [E|]; cbn [negb]; [|done].
  cbn [fst]. rewrite u8_id by clia. apply wf_ext_map_insert; auto; [clia|].
  intros Hn t'. destruct (GetType_spec m id) as [[_ Hfree]|[Hx _]]; [|done].
  destruct (decide (t' = kInvalidType)) as [->|Hne]; [|by apply Hfree].
  pose proof Hwf as (_ & _ & H0 & _). unfold kInvalidType. rewrite H0. congruence.
Qed.

Lemma kExtensions_valid (P : RTPExtensionType * string -> Prop) `{forall e, Decision (P e)} n t u :
  list_find P kExtensions = Some (n, (t, u)) -> t <> kRtpExtensionNone.
Proof.
  intros Hf ->. apply list_find_Some in Hf as (Hn & _ & _).
  assert (Hall : Forall (fun e => e.1 <> kRtpExtensionNone) kExtensions) by (repeat constructor; done).
  by apply (Forall_lookup_1 _ _ _ _ Hall) in Hn.
Qed.

Lemma ext_map_reachable_wf m : ext_map_reachable m -> wf_ext_map m.
Proof.
  induction 1 as [b|m id t _ IH|m id uri _ IH|m t _ IH|m b _ IH].
  - unfold wf_ext_map. split_and!.
    + done.
    + apply Forall_replicate. unfold is_u8, kInvalidId. lia.
    + done.
    + intros t t' Ht. by destruct t.
  - unfold RegisterByType. destruct (list_find _ _) as [[n [t' u]]|] eqn:E; [|done].
    apply Register_wf; [done|]. by apply (kExtensions_valid _ _ _ _ E).
  - unfold RegisterByUri. destruct (list_find _ _) as [[n [t' u]]|] eqn:E; [|done].
    apply Register_wf; [done|]. by apply (kExtensions_valid _ _ _ _ E).
  - unfold Deregister. destruct (IsRegistered m t) eqn:E; [|done].
    apply wf_ext_map_insert; [done| |unfold is_u8, kInvalidId; lia|done].
    intros ->. unfold IsRegistered in E. destruct IH as (_ & _ & H0 & _). by rewrite H0 in E.
  - done.
Qed.

(** Identifiers and types of the registered header extensions correspond
    one to one in every map a program can build: the type of the identifier of
    a registered extension is that extension, and an identifier that has a type
    is the identifier of that type. *)
Theorem ext_map_inverse m t id :
  ext_map_reachable m ->
  (IsRegistered m t = true -> GetType m (GetId m t) = t /\ kMinId <= GetId m t <= kMaxId) /\
  (GetType m id <> kInvalidType -> GetId m (GetType m id) = id).
Proof.
  intros Hr. apply ext_map_reachable_wf in Hr as (Hl & Hu & H0 & Hinj). unfold IsRegistered, kMinId, kMaxId. split.
  - intros Hreg. assert (Hn : GetId m t <> kInvalidId) by (intros E; by rewrite E in Hreg).
    assert (Ht : t <> kInvalidType) by (intros ->; done). split.
    + destruct (GetType_spec m (GetId m t)) as [[_ Hf]|[_ E]]; [by destruct (Hf t Ht)|].
      symmetry. by apply Hinj.
    + assert (Hr : is_u8 (GetId m t)).
      { unfold GetId. destruct (lookup_lt_is_Some_2 (ids_ m) (type_index t)) as [v Hv];
          [rewrite Hl; apply type_index_lt|]. rewrite Hv. cbn. by eapply Forall_lookup_1. }
      unfold kInvalidId in Hn. clia.
  - intros Hn. by destruct (GetType_spec m id) as [[? _]|[_ E]].
Qed.

Lemma ext_map_inverse_witness :
  let m := (RegisterByUri (RtpHeaderExtensionMap_new true) 3 "urn:3gpp:video-orientation").1 in
  GetType m 3 = kRtpExtensionVideoRotation.
Proof.
  intros m. assert (Hr : ext_map_reachable m) by apply reach_uri, reach_new.
  destruct (ext_map_inverse m kRtpExtensionVideoRotation 3 Hr) as [H _].
  destruct (H ltac:(reflexivity)) as [E _]. exact E.
Defined.
