(* ===== verification/RtpPacket.v ===== *)
(** * RTP packets

    [modules/rtp_rtcp/source/rtp_packet.h/.cc]: a packet keeps the fields of its
    header next to the bytes in a copy-on-write buffer. The methods are statements
    on the record of the members. [RTC_CHECK] and an access outside the memory of
    the buffer are faults; an [RTC_DCHECK], which a release build does not
    evaluate, is a precondition of the theorems. *)

From S2P Require Import Prelude ByteIo CowBuffer RtpExtMap.

Open Scope Z_scope.
Open Scope c_scope.

Definition kFixedHeaderSize : Z := 12.
Definition kRtpVersion : Z := 2.
Definition kOneByteExtensionProfileId : Z := 0xBEDE.
Definition kTwoByteExtensionProfileId : Z := 0x1000.
Definition kOneByteExtensionHeaderLength : Z := 1.
Definition kTwoByteExtensionHeaderLength : Z := 2.
Definition kDefaultPacketSize : Z := 1500.

(** [RtpPacket::ExtensionInfo] *)
Record ExtensionInfo := mkInfo { ei_id : Z; ei_length : Z; ei_offset : Z }.

#[export] Instance eta_Info : Eta ExtensionInfo := fun e => mkInfo (ei_id e) (ei_length e) (ei_offset e).

Record RtpPacket := mkPacket {
  marker_ : bool;
  payload_type_ : Z;
  padding_size_ : Z;
  sequence_number_ : Z;
  timestamp_ : Z;
  ssrc_ : Z;
  payload_offset_ : Z;
  payload_size_ : Z;
  extensions_ : RtpHeaderExtensionMap;
  extension_entries_ : list ExtensionInfo;
  extensions_size_ : Z;
  buffer_ : Buffer;
  one_ref_ : bool;  (* the buffer is not shared with another packet *)
}.

#[export] Instance eta_Packet : Eta RtpPacket := fun p =>
  mkPacket (marker_ p) (payload_type_ p) (padding_size_ p) (sequence_number_ p) (timestamp_ p)
    (ssrc_ p) (payload_offset_ p) (payload_size_ p) (extensions_ p) (extension_entries_ p)
    (extensions_size_ p) (buffer_ p) (one_ref_ p).

Definition capacity (p : RtpPacket) : Z := capacity_ (buffer_ p).
Definition packet_size (p : RtpPacket) : Z := payload_offset_ p + payload_size_ p + padding_size_ p.
Definition headers_size (p : RtpPacket) : Z := payload_offset_ p.
Definition FreeCapacity (p : RtpPacket) : Z := capacity p - packet_size p.
Definition MaxPayloadSize (p : RtpPacket) : Z := capacity p - headers_size p.

(** The bytes behind [data()], and the packet as it is sent. *)
Definition data (p : RtpPacket) : list Z := data_ (buffer_ p).
Definition rtp_bytes (p : RtpPacket) : list Z := content (buffer_ p).

Definition check {S R} (b : bool) : stmt S R unit := mem (if b then Some tt else None).

Section rtp.
Context `{Alloc}.

(** An operation on [buffer_], which afterwards has one reference. *)
Definition on_buffer {R} (f : view -> result) : stmt RtpPacket R unit := fun p =>
  match f (Some (buffer_ p, one_ref_ p)) with
  | Some Same => Next tt p
  | Some (Assign (Some b)) | Some (Change b) => Next tt (p <| buffer_ := b |> <| one_ref_ := true |>)
  | Some (Assign None) | None => Fault
  end.

Definition rd {R} (off : Z) : stmt RtpPacket R Z := fun p =>
  match zget (data p) off with Some v => Next v p | None => Fault end.

Definition WriteAt {R} (off : Z) (bs : list Z) : stmt RtpPacket R unit := on_buffer (cow_write off bs).

Definition SetSize {R} (size : Z) : stmt RtpPacket R unit := on_buffer (cow_SetSize size).

(** ** Header *)

Definition Clear {R} : stmt RtpPacket R unit :=
  modify (fun p => p <| marker_ := false |> <| payload_type_ := 0 |> <| sequence_number_ := 0 |>
    <| timestamp_ := 0 |> <| ssrc_ := 0 |> <| payload_offset_ := kFixedHeaderSize |>
    <| payload_size_ := 0 |> <| padding_size_ := 0 |> <| extensions_size_ := 0 |>
    <| extension_entries_ := [] |>) ;;
  WriteAt 0 (replicate (Z.to_nat kFixedHeaderSize) 0) ;;
  SetSize kFixedHeaderSize ;;
  WriteAt 0 [u8 (Z.shiftl kRtpVersion 6)].

(** The constructor: the members before [Clear] are not initialised, [m0]. *)
Definition RtpPacket_new (m0 : RtpPacket) (extensions : option RtpHeaderExtensionMap) (capacity : Z) :
    outcome RtpPacket unit unit :=
  match CopyOnWriteBuffer_new capacity 0 with
  | None => Fault
  | Some b =>
      Clear (m0 <| extensions_ := default (RtpHeaderExtensionMap_new false) extensions |>
                <| buffer_ := b |> <| one_ref_ := true |>)
  end.

Definition IdentifyExtensions {R} (extensions : RtpHeaderExtensionMap) : stmt RtpPacket R unit :=
  modify (fun p => p <| extensions_ := extensions |>).

Definition SetMarker {R} (marker_bit : bool) : stmt RtpPacket R unit :=
  modify (fun p => p <| marker_ := marker_bit |>) ;;
  let! d := rd 1 in
  if marker_bit then WriteAt 1 [u8 (Z.lor d 0x80)] else WriteAt 1 [u8 (Z.land d 0x7F)].

Definition SetPayloadType {R} (payload_type : Z) : stmt RtpPacket R unit :=
  modify (fun p => p <| payload_type_ := payload_type |>) ;;
  let! d := rd 1 in
  WriteAt 1 [u8 (Z.lor (Z.land d 0x80) payload_type)].

(** [ByteWriter<T>::WriteBigEndian(WriteAt(off), val)] with a [T] of [B] bytes. *)
Definition WriteBE {R} (B : nat) (off val : Z) : stmt RtpPacket R unit := WriteAt off (be_bytes B val).

Definition SetSequenceNumber {R} (seq_no : Z) : stmt RtpPacket R unit :=
  modify (fun p => p <| sequence_number_ := seq_no |>) ;; WriteBE 2 2 seq_no.

Definition SetTimestamp {R} (timestamp : Z) : stmt RtpPacket R unit :=
  modify (fun p => p <| timestamp_ := timestamp |>) ;; WriteBE 4 4 timestamp.

Definition SetSsrc {R} (ssrc : Z) : stmt RtpPacket R unit :=
  modify (fun p => p <| ssrc_ := ssrc |>) ;; WriteBE 4 8 ssrc.

Fixpoint write_csrcs {R} (csrcs : list Z) (offset : Z) : stmt RtpPacket R unit :=
  match csrcs with
  | [] => ret tt
  | csrc :: csrcs' => WriteBE 4 offset csrc ;; write_csrcs csrcs' (offset + 4)
  end.

Definition SetCsrcs {R} (csrcs : list Z) : stmt RtpPacket R unit :=
  modify (fun p => p <| payload_offset_ := kFixedHeaderSize + 4 * zlen csrcs |>) ;;
  let! d := rd 0 in
  WriteAt 0 [u8 (Z.lor (Z.land d 0xF0) (u8 (zlen csrcs)))] ;;
  write_csrcs csrcs kFixedHeaderSize ;;
  let! p := get in SetSize (payload_offset_ p).

Fixpoint read_csrcs (p : RtpPacket) (n : nat) (offset : Z) : option (list Z) :=
  match n with
  | O => Some []
  | S n' =>
      c ← ReadBigEndian 4 (data p) offset;
      cs ← read_csrcs p n' (offset + 4);
      Some (c :: cs)
  end.

Definition Csrcs (p : RtpPacket) : option (list Z) :=
  d ← zget (data p) 0; read_csrcs p (Z.to_nat (Z.land d 0x0F)) kFixedHeaderSize.

Definition CopyHeaderFrom {R} (packet : RtpPacket) : stmt RtpPacket R unit :=
  modify (fun p => p <| marker_ := marker_ packet |> <| payload_type_ := payload_type_ packet |>
    <| sequence_number_ := sequence_number_ packet |> <| timestamp_ := timestamp_ packet |>
    <| ssrc_ := ssrc_ packet |> <| payload_offset_ := payload_offset_ packet |>
    <| extensions_ := extensions_ packet |> <| extension_entries_ := extension_entries_ packet |>
    <| extensions_size_ := extensions_size_ packet |>) ;;
  let! bs := mem (read_bytes (data packet) 0 (headers_size packet)) in
  on_buffer (cow_SetData bs) ;;
  modify (fun p => p <| payload_size_ := 0 |> <| padding_size_ := 0 |>).

(** ** Payload and padding *)

(** The offset of the payload in the buffer, or a null pointer. *)
Definition SetPayloadSize {R} (size_bytes : Z) : stmt RtpPacket R (option Z) :=
  let! p := get in
  if capacity p <? u64 (payload_offset_ p + size_bytes) then ret None
  else
    modify (fun p => p <| payload_size_ := size_bytes |>) ;;
    SetSize (u64 (payload_offset_ p + size_bytes)) ;;
    ret (Some (payload_offset_ p)).

Definition AllocatePayload {R} (size_bytes : Z) : stmt RtpPacket R (option Z) :=
  SetPayloadSize 0 ;; SetPayloadSize size_bytes.

Definition SetPadding {R} (padding_bytes : Z) : stmt RtpPacket R bool :=
  let! p := get in
  if capacity p <? u64 (payload_offset_ p + payload_size_ p + padding_bytes) then ret false
  else
    let padding_size := u8 padding_bytes in
    modify (fun p => p <| padding_size_ := padding_size |>) ;;
    SetSize (payload_offset_ p + payload_size_ p + padding_size) ;;
    if 0 <? padding_size then
      let padding_offset := payload_offset_ p + payload_size_ p in
      let padding_end := padding_offset + padding_size in
      WriteAt padding_offset (replicate (Z.to_nat (padding_size - 1)) 0) ;;
      WriteAt (padding_end - 1) [padding_size] ;;
      let! d := rd 0 in
      WriteAt 0 [u8 (Z.lor d 0x20)] ;;
      ret true
    else
      let! d := rd 0 in
      WriteAt 0 [u8 (Z.land d (Z.lnot 0x20))] ;;
      ret true.

(** ** Header extensions *)

Definition FindExtensionInfo (p : RtpPacket) (id : Z) : option ExtensionInfo :=
  snd <$> list_find (fun e => ei_id e = id) (extension_entries_ p).

(** The entries with one for [id], and its place among them. *)
Definition FindOrCreateExtensionInfo (entries : list ExtensionInfo) (id : Z) :
    list ExtensionInfo * nat :=
  match list_find (fun e => ei_id e = id) entries with
  | Some (i, _) => (entries, i)
  | None => (entries ++ [mkInfo (u8 id) 0 0], length entries)
  end.

(** The padding of the extensions up to a word; the size with it is returned. *)
Definition SetExtensionLengthMaybeAddZeroPadding {R} (extensions_offset : Z) : stmt RtpPacket R Z :=
  let! p := get in
  let extensions_words := u16 ((extensions_size_ p + 3) / 4) in
  WriteBE 2 (extensions_offset - 2) extensions_words ;;
  let extension_padding_size := u64 (4 * extensions_words - extensions_size_ p) in
  WriteAt (extensions_offset + extensions_size_ p) (replicate (Z.to_nat extension_padding_size) 0) ;;
  ret (u16 (4 * extensions_words)).

(** The last statements of promotion and allocation alike: length and padding of
    the block, and the sizes that follow from it. *)
Definition finish_extensions {R} (extensions_offset : Z) : stmt RtpPacket R unit :=
  let! extensions_size_padded := SetExtensionLengthMaybeAddZeroPadding extensions_offset in
  modify (fun p => p <| payload_offset_ := extensions_offset + extensions_size_padded |>) ;;
  SetSize (extensions_offset + extensions_size_padded).

(** One round of the loop of the promotion, on the entry [e]. *)
Definition promote_entry {R} (e : ExtensionInfo) (write_read_delta : Z) :
    stmt RtpPacket R ExtensionInfo :=
  let read_index := ei_offset e in
  let write_index := read_index + write_read_delta in
  let! p := get in
  let! bs := mem (read_bytes (data p) read_index (ei_length e)) in
  WriteAt write_index bs ;;
  WriteAt (write_index - 1) [ei_length e] ;;
  WriteAt (write_index - 2) [ei_id e] ;;
  ret (e <| ei_offset := u16 write_index |>).

(** The loop over the entries from the last to the first ([rev_entries]). *)
Fixpoint promote_loop {R} (rev_entries : list ExtensionInfo) (write_read_delta : Z) :
    stmt RtpPacket R (list ExtensionInfo) :=
  match rev_entries with
  | [] => ret []
  | e :: rest =>
      let! e' := promote_entry e write_read_delta in
      let! rest' := promote_loop rest (write_read_delta - 1) in
      ret (e' :: rest')
  end.

Definition PromoteToTwoByteHeaderExtension {R} : stmt RtpPacket R unit :=
  let! d := rd 0 in
  let num_csrc := Z.land d 0x0F in
  let extensions_offset := kFixedHeaderSize + num_csrc * 4 + 4 in
  let! p := get in
  check (0 <? Z.of_nat (length (extension_entries_ p))) ;;
  check (payload_size_ p =? 0) ;;
  let! profile := mem (ReadBigEndian 2 (data p) (extensions_offset - 4)) in
  check (profile =? kOneByteExtensionProfileId) ;;
  let count := Z.of_nat (length (extension_entries_ p)) in
  let! moved := promote_loop (rev (extension_entries_ p)) count in
  modify (fun p => p <| extension_entries_ := rev moved |>) ;;
  WriteBE 2 (extensions_offset - 4) kTwoByteExtensionProfileId ;;
  modify (fun p => p <| extensions_size_ := extensions_size_ p + count |>) ;;
  finish_extensions extensions_offset.

(** A view of the buffer: offset and size. [None] is the empty view. *)
Definition array_view : Type := option (Z * Z).

(** The profile of the block, which is promoted first when it has to be; an empty
    view is returned when there is no room for that. *)
Definition extension_profile (length extensions_offset : Z) (two_byte_header_required : bool) :
    stmt RtpPacket array_view Z :=
  let! p := get in
  if 0 <? extensions_size_ p then
    let! profile_id := mem (ReadBigEndian 2 (data p) (extensions_offset - 4)) in
    if (profile_id =? kOneByteExtensionProfileId) && two_byte_header_required then
      let expected_new_extensions_size :=
        extensions_size_ p + Z.of_nat (List.length (extension_entries_ p)) +
        kTwoByteExtensionHeaderLength + length in
      if capacity p <? extensions_offset + expected_new_extensions_size then return_ None
      else PromoteToTwoByteHeaderExtension ;; ret kTwoByteExtensionProfileId
    else ret profile_id
  else
    ret (if two_byte_header_required then kTwoByteExtensionProfileId
         else kOneByteExtensionProfileId).

(** All checks passed: the header of the new extension, its entry, the padding. *)
Definition append_extension (id length extensions_offset profile_id : Z) :
    stmt RtpPacket array_view array_view :=
  let extension_header_size :=
    if profile_id =? kOneByteExtensionProfileId then kOneByteExtensionHeaderLength
    else kTwoByteExtensionHeaderLength in
  let! p := get in
  let new_extensions_size := extensions_size_ p + extension_header_size + length in
  if capacity p <? extensions_offset + new_extensions_size then return_ None
  else
    (if extensions_size_ p =? 0 then
       let! d := rd 0 in
       WriteAt 0 [u8 (Z.lor d 0x10)] ;;
       WriteBE 2 (extensions_offset - 4) profile_id
     else ret tt) ;;
    (if profile_id =? kOneByteExtensionProfileId then
       WriteAt (extensions_offset + extensions_size_ p)
         [Z.lor (u8 (Z.shiftl (u8 id) 4)) (u8 (length - 1))]
     else
       WriteAt (extensions_offset + extensions_size_ p) [u8 id] ;;
       WriteAt (extensions_offset + extensions_size_ p + 1) [u8 length]) ;;
    let extension_info_offset :=
      u16 (extensions_offset + extensions_size_ p + extension_header_size) in
    let extension_info_length := u8 length in
    modify (fun p => p <| extension_entries_ :=
      extension_entries_ p ++ [mkInfo (u8 id) extension_info_length extension_info_offset] |>) ;;
    modify (fun p => p <| extensions_size_ := new_extensions_size |>) ;;
    finish_extensions extensions_offset ;;
    WriteAt extension_info_offset [] ;;
    ret (Some (extension_info_offset, extension_info_length)).

Definition AllocateRawExtension (id length : Z) : stmt RtpPacket array_view array_view :=
  let! p := get in
  match FindExtensionInfo p id with
  | Some extension_entry =>
      if ei_length extension_entry =? length then
        WriteAt (ei_offset extension_entry) [] ;;
        ret (Some (ei_offset extension_entry, length))
      else ret None
  | None =>
      if 0 <? payload_size_ p then ret None
      else if 0 <? padding_size_ p then ret None
      else
        let! d := rd 0 in
        let num_csrc := Z.land d 0x0F in
        let extensions_offset := kFixedHeaderSize + num_csrc * 4 + 4 in
        let two_byte_header_required :=
          (kOneByteHeaderExtensionMaxId <? id) || (kOneByteHeaderExtensionMaxValueSize <? length) ||
          (length =? 0) in
        check (negb two_byte_header_required || extmap_allow_mixed_ (extensions_ p)) ;;
        let! profile_id := extension_profile length extensions_offset two_byte_header_required in
        append_extension id length extensions_offset profile_id
  end.

Definition AllocateExtension {R} (type : RTPExtensionType) (length : Z) : stmt RtpPacket R array_view :=
  let! p := get in
  let mixed := extmap_allow_mixed_ (extensions_ p) in
  if (length =? 0) || (kMaxValueSize <? length) ||
     (negb mixed && (kOneByteHeaderExtensionMaxValueSize <? length)) then ret None
  else
    let id := GetId (extensions_ p) type in
    if id =? kInvalidId then ret None
    else if negb mixed && (kOneByteHeaderExtensionMaxId <? id) then ret None
    else fn (AllocateRawExtension id length).

Definition FindExtension (p : RtpPacket) (type : RTPExtensionType) : array_view :=
  let id := GetId (extensions_ p) type in
  if id =? kInvalidId then None
  else
    match FindExtensionInfo p id with
    | None => None
    | Some e => Some (ei_offset e, ei_length e)
    end.

(** A view of no bytes is empty too. *)
Definition HasExtension (p : RtpPacket) (type : RTPExtensionType) : bool :=
  match FindExtension p type with Some (_, n) => negb (n =? 0) | None => false end.

(** ** Parsing *)

(** The loop over the extensions in [buffer]. *)
Fixpoint parse_extensions (fuel : nat) (buffer : list Z) (profile extension_offset extensions_capacity : Z) :
    stmt RtpPacket bool unit :=
  match fuel with
  | O => fun _ => Spin
  | S fuel' =>
      let extension_header_length :=
        if profile =? kOneByteExtensionProfileId then kOneByteExtensionHeaderLength
        else kTwoByteExtensionHeaderLength in
      let! p := get in
      let size := extensions_size_ p in
      if size + extension_header_length <? extensions_capacity then
        let! b := mem (zget buffer (extension_offset + size)) in
        if b =? 0 then
          modify (fun p => p <| extensions_size_ := size + 1 |>) ;;
          parse_extensions fuel' buffer profile extension_offset extensions_capacity
        else
          let! '(id, length) :=
            (if profile =? kOneByteExtensionProfileId then
               ret (Z.shiftr b 4, u8 (1 + Z.land b 0xf))
             else
               let! l := mem (zget buffer (extension_offset + size + 1)) in ret (b, l)) in
          if (profile =? kOneByteExtensionProfileId) &&
             ((id =? 15) || ((id =? 0) && negb (length =? 1))) then ret tt
          else if extensions_capacity <? size + extension_header_length + length then ret tt
          else
            let '(entries, i) := FindOrCreateExtensionInfo (extension_entries_ p) id in
            modify (fun p => p <| extension_entries_ := entries |>) ;;
            let offset := extension_offset + size + extension_header_length in
            if 65535 <? offset then ret tt
            else
              modify (fun p => p <| extension_entries_ :=
                alter (fun e => e <| ei_offset := u16 offset |> <| ei_length := length |>) i entries |>) ;;
              modify (fun p => p <| extensions_size_ := size + extension_header_length + length |>) ;;
              parse_extensions fuel' buffer profile extension_offset extensions_capacity
      else ret tt
  end.

Definition ParseBuffer (buffer : list Z) : stmt RtpPacket bool bool :=
  let size := zlen buffer in
  if size <? kFixedHeaderSize then return_ false
  else
    let! b0 := mem (zget buffer 0) in
    let version := Z.shiftr b0 6 in
    if negb (version =? kRtpVersion) then return_ false
    else
      let has_padding := negb (Z.land b0 0x20 =? 0) in
      let has_extension := negb (Z.land b0 0x10 =? 0) in
      let number_of_crcs := Z.land b0 0x0f in
      let! b1 := mem (zget buffer 1) in
      modify (fun p => p <| marker_ := negb (Z.land b1 0x80 =? 0) |>
                         <| payload_type_ := Z.land b1 0x7f |>) ;;
      let! seq := mem (ReadBigEndian 2 buffer 2) in
      let! ts := mem (ReadBigEndian 4 buffer 4) in
      let! ssrc := mem (ReadBigEndian 4 buffer 8) in
      modify (fun p => p <| sequence_number_ := seq |> <| timestamp_ := ts |> <| ssrc_ := ssrc |>) ;;
      if size <? kFixedHeaderSize + number_of_crcs * 4 then return_ false
      else
        let payload_offset := kFixedHeaderSize + number_of_crcs * 4 in
        modify (fun p => p <| payload_offset_ := payload_offset |>) ;;
        (if has_padding then
           let! last := mem (zget buffer (size - 1)) in
           modify (fun p => p <| padding_size_ := last |>) ;;
           if last =? 0 then return_ false else ret tt
         else modify (fun p => p <| padding_size_ := 0 |>)) ;;
        modify (fun p => p <| extensions_size_ := 0 |> <| extension_entries_ := [] |>) ;;
        (if has_extension then
           let extension_offset := payload_offset + 4 in
           if size <? extension_offset then return_ false
           else
             let! profile := mem (ReadBigEndian 2 buffer payload_offset) in
             let! words := mem (ReadBigEndian 2 buffer (payload_offset + 2)) in
             let extensions_capacity := words * 4 in
             if size <? extension_offset + extensions_capacity then return_ false
             else
               (if negb (profile =? kOneByteExtensionProfileId) &&
                   negb (profile =? kTwoByteExtensionProfileId) then ret tt
                else
                  parse_extensions (S (Z.to_nat extensions_capacity)) buffer profile extension_offset
                    extensions_capacity) ;;
               modify (fun p => p <| payload_offset_ := extension_offset + extensions_capacity |>)
         else ret tt) ;;
        let! p := get in
        if size <? payload_offset_ p + padding_size_ p then return_ false
        else
          modify (fun p => p <| payload_size_ := size - payload_offset_ p - padding_size_ p |>) ;;
          ret true.

(** [Parse] of an array copies it into the buffer; [Parse] of a buffer keeps
    the reference, which other packets may share. *)
Definition Parse {R} (buffer : list Z) : stmt RtpPacket R bool :=
  let! ok := fn (ParseBuffer buffer) in
  if negb ok then Clear ;; ret false
  else on_buffer (cow_SetData buffer) ;; ret true.

Definition ParseShared {R} (buffer : Buffer) (one_ref : bool) : stmt RtpPacket R bool :=
  let! bs := mem (read_bytes (data_ buffer) 0 (size_ buffer)) in
  let! ok := fn (ParseBuffer bs) in
  if negb ok then Clear ;; ret false
  else modify (fun p => p <| buffer_ := buffer |> <| one_ref_ := one_ref |>) ;; ret true.
End rtp.
