(* ===== verification/RtpMem.v ===== *)
(** * The memory of a packet

    What the accesses of [RtpPacket] to its buffer do, whether the buffer is
    shared or not: rules for [wp] that the proofs on packets are built from. *)

From S2P Require Import Prelude ByteIo CowBuffer RtpExtMap RtpPacket.

Open Scope Z_scope.
Open Scope c_scope.

Definition wf_packet (p : RtpPacket) : Prop :=
  wf_buffer (buffer_ p) /\ Forall is_u8 (data p).

(** The bytes that survive a write: a buffer that is shared is copied up to its
    size only. *)
Definition solid (b : Buffer) (one_ref : bool) : Z := if one_ref then capacity_ b else size_ b.

(** [b'] is [b] after [bs] was written at [off]. *)
Definition wrote (b : Buffer) (one_ref : bool) (off : Z) (bs : list Z) (b' : Buffer) : Prop :=
  wf_buffer b' /\ Forall is_u8 (data_ b') /\ size_ b' = size_ b /\ capacity_ b' = capacity_ b /\
  forall i, off <= i < off + zlen bs \/ i < solid b one_ref ->
    zget (data_ b') i =
    if (off <=? i) && (i <? off + zlen bs) then zget bs (i - off) else zget (data_ b) i.

(** [b'] is [b] after its size was set to [n]. *)
Definition sized (b : Buffer) (one_ref : bool) (n : Z) (b' : Buffer) : Prop :=
  wf_buffer b' /\ Forall is_u8 (data_ b') /\ size_ b' = n /\ capacity_ b' = capacity_ b /\
  forall i, i < (if one_ref then capacity_ b else Z.min (size_ b) n) ->
    zget (data_ b') i = zget (data_ b) i.

(** Members of a packet after updates. *)
Ltac packet :=
  unfold capacity, data, rtp_bytes, headers_size in *;
  cbn [set marker_ payload_type_ padding_size_ sequence_number_ timestamp_ ssrc_ payload_offset_
       payload_size_ extensions_ extension_entries_ extensions_size_ buffer_ one_ref_] in *.

Lemma wrote_in b one off bs b' i :
  wrote b one off bs b' -> off <= i < off + zlen bs -> zget (data_ b') i = zget bs (i - off).
Proof.
  intros (_ & _ & _ & _ & Hg) Hi. rewrite Hg by lia.
  by rewrite (proj2 (Z.leb_le _ _)), (proj2 (Z.ltb_lt _ _)) by lia.
Qed.

Lemma wrote_out b one off bs b' i :
  wrote b one off bs b' -> i < solid b one -> i < off \/ off + zlen bs <= i ->
  zget (data_ b') i = zget (data_ b) i.
Proof.
  intros (_ & _ & _ & _ & Hg) Hs Hi. rewrite Hg by lia.
  destruct (Z.leb_spec off i), (Z.ltb_spec i (off + zlen bs)); cbn; lia || done.
Qed.

Section memory.
Context `{Alloc}.

Lemma BufferT_copy_u8 d c b : Forall is_u8 d -> BufferT_copy d c = Some b -> Forall is_u8 (data_ b).
Proof.
  unfold BufferT_copy. intros Hd. cbn [data_ BufferT_new].
  destruct (write_bytes _ 0 d) as [d'|] eqn:E; cbn; [|done]. intros [= <-]. cbn.
  eapply write_bytes_Forall; [|exact Hd|exact E]. apply new_bytes_u8.
Qed.

Lemma content_u8 b : Forall is_u8 (data_ b) -> Forall is_u8 (content b).
Proof. intros Hb. by apply Forall_take. Qed.

Lemma clone_spec b (one : bool) c :
  wf_buffer b -> Forall is_u8 (data_ b) -> size_ b <= c ->
  exists b', CloneDataIfReferenced b one c = Some (b', negb one) /\ wf_buffer b' /\
    Forall is_u8 (data_ b') /\ size_ b' = size_ b /\
    capacity_ b' = (if one then capacity_ b else c) /\
    forall i, i < solid b one -> zget (data_ b') i = zget (data_ b) i.
Proof.
  intros Hb Hu Hc. destruct (CloneDataIfReferenced_spec b one c Hb) as (b1 & E & Hw & Hcon & Hs & H1 & H2).
  exists b1. split; [done|]. split; [done|]. destruct one.
  - rewrite H1 by done. done.
  - split_and!; auto.
    + unfold CloneDataIfReferenced in E. rewrite content_read in E by done. cbn in E.
      destruct (BufferT_copy (content b) c) as [b2|] eqn:E2; cbn in E; [|done]. simplify_eq.
      eapply BufferT_copy_u8; [|exact E2]. by apply content_u8.
    + rewrite H2 by done. unfold wf_buffer in Hb. lia.
    + intros i Hi. cbn in Hi. destruct (Z.lt_ge_cases i 0).
      * unfold zget. by rewrite (proj2 (Z.ltb_lt i 0)).
      * rewrite <- (zget_content b1), <- (zget_content b), Hcon by (done || lia). done.
Qed.

Lemma cow_write_mem b (one : bool) off bs :
  wf_buffer b -> Forall is_u8 (data_ b) -> Forall is_u8 bs -> 0 <= off -> off + zlen bs <= capacity_ b ->
  exists b', cow_write off bs (Some (b, one)) = in_place (negb one) b' /\ wrote b one off bs b'.
Proof.
  intros Hb Hu Hbs H0 Hl. unfold cow_write.
  destruct (clone_spec b one (capacity_ b) Hb Hu ltac:(unfold wf_buffer in Hb; lia))
    as (b1 & -> & Hw & Hu1 & Hs & Hc & Hg). cbn [mbind option_bind].
  assert (Hcap : capacity_ b1 = capacity_ b) by (rewrite Hc; by destruct one). clear Hc.
  destruct (write_bytes_Some (data_ b1) off bs) as (d & Hd & Hld & Hgd); [done|unfold capacity_ in *; lia|].
  rewrite Hd. cbn [mbind option_bind]. change (b1 <| data_ := d |>) with (mkBuffer (size_ b1) d).
  eexists. split; [reflexivity|]. unfold wrote, wf_buffer, capacity_ in *. cbn [size_ data_].
  split_and!; try lia.
  - eapply write_bytes_Forall; [exact Hu1|exact Hbs|exact Hd].
  - intros i Hi. rewrite Hgd. destruct (Z.leb_spec off i), (Z.ltb_spec i (off + zlen bs)); cbn [andb];
      try done; apply Hg; lia.
Qed.

Lemma cow_SetSize_mem b (one : bool) n :
  wf_buffer b -> Forall is_u8 (data_ b) -> 0 <= n <= capacity_ b ->
  exists b', cow_SetSize n (Some (b, one)) = in_place (negb one) b' /\ sized b one n b'.
Proof.
  intros Hb Hu Hn. unfold cow_SetSize. pose proof Hb as [Hs0 Hs1].
  assert (Hset : forall b1 : Buffer, n <= capacity_ b1 -> BufferT_SetSize b1 n = Some (mkBuffer n (data_ b1))).
  { intros b1 H1. unfold BufferT_SetSize, EnsureCapacityWithHeadroom.
    by rewrite (proj2 (Z.leb_le _ _)) by done. }
  destruct one.
  - cbn [mbind option_bind]. rewrite Hset by lia. cbn [mbind option_bind]. eexists. split; [reflexivity|].
    unfold sized, wf_buffer, capacity_ in *. cbn [size_ data_]. split_and!; auto; lia.
  - rewrite (read_bytes_Some (data_ b)) by (unfold capacity_ in *; lia). cbn [mbind option_bind].
    set (d := take _ _).
    assert (Hd : read_bytes (data_ b) 0 (Z.min (size_ b) n) = Some d)
      by (by rewrite read_bytes_Some by (unfold capacity_ in *; lia)).
    pose proof (read_bytes_Forall _ _ _ _ _ Hu Hd) as Hdu.
    apply read_bytes_spec in Hd as (_ & Hdl & _ & Hdg).
    destruct (BufferT_copy_spec d (Z.max (capacity_ b) n)) as (b1 & E1 & Hw1 & Hc1 & Hcap1).
    rewrite E1. cbn [mbind option_bind]. pose proof (BufferT_copy_u8 _ _ _ Hdu E1) as Hu1.
    assert (Hs : size_ b1 = Z.min (size_ b) n) by (by rewrite <- (zlen_content b1), Hc1).
    rewrite Hset by lia. cbn [mbind option_bind]. eexists. split; [reflexivity|].
    unfold sized, wf_buffer in *. split_and!; auto; try (unfold capacity_ in *; cbn [size_ data_]; lia).
    intros i Hi. cbn [data_]. destruct (Z.lt_ge_cases i 0).
    + unfold zget. by rewrite (proj2 (Z.ltb_lt i 0)).
    + rewrite <- (zget_content b1), Hc1, Hdg by (done || lia). done.
Qed.

Lemma cow_SetData_mem b (one : bool) d :
  wf_buffer b -> Forall is_u8 (data_ b) -> Forall is_u8 d ->
  exists b', cow_SetData d (Some (b, one)) = in_place (negb one) b' /\ wf_buffer b' /\
    Forall is_u8 (data_ b') /\ content b' = d /\
    (zlen d <= capacity_ b -> capacity_ b' = capacity_ b) /\ zlen d <= capacity_ b'.
Proof.
  intros Hb Hu Hd. pose proof (zlen_nonneg d). destruct one; cbn [cow_SetData].
  - destruct (BufferT_SetData_spec b d Hb) as (b' & E & Hw & Hc). rewrite E. cbn [mbind option_bind].
    exists b'. split; [done|].
    assert (Hl : zlen d <= capacity_ b') by (rewrite <- Hc, zlen_content by done; unfold wf_buffer in Hw; lia).
    split_and!; auto.
    + unfold BufferT_SetData, BufferT_AppendData in E. cbn [set size_] in E.
      destruct (EnsureCapacityWithHeadroom _ _ _) as [b1|] eqn:E1; cbn in E; [|done].
      destruct (write_bytes (data_ b1) (size_ b1) d) as [d'|] eqn:E2; cbn in E; [|done]. injection E as <-. cbn [data_].
      eapply write_bytes_Forall; [|exact Hd|exact E2]. unfold EnsureCapacityWithHeadroom in E1.
      destruct (_ <=? _); [by simplify_eq|]. cbn [set size_ data_] in E1.
      destruct (read_bytes (data_ b) 0 0) as [old|] eqn:E3; cbn in E1; [|done].
      destruct (write_bytes _ 0 old) as [d2|] eqn:E4; cbn in E1; [|done]. simplify_eq. cbn.
      eapply write_bytes_Forall; [apply new_bytes_u8| |exact E4]. eapply read_bytes_Forall; [exact Hu|exact E3].
    + intros Hle. unfold BufferT_SetData, BufferT_AppendData, EnsureCapacityWithHeadroom in E.
      cbn [set size_] in E. change (capacity_ (b <| size_ := 0 |>)) with (capacity_ b) in E.
      rewrite (proj2 (Z.leb_le _ _)) in E by lia. cbn [mbind option_bind set size_ data_] in E.
      destruct (write_bytes (data_ b) 0 d) as [d'|] eqn:E2; cbn in E; [|done]. injection E as <-.
      apply write_bytes_frame in E2 as (_ & _ & E2 & _). done.
  - destruct (BufferT_copy_spec d (capacity_ b)) as (b' & E & Hw & Hc & Hcap). rewrite E.
    cbn [mbind option_bind]. exists b'. split_and!; auto; try lia. by eapply BufferT_copy_u8.
Qed.

(** ** Rules *)

Lemma on_buffer_wp {R} (f : view -> result) p b' Q (QR : R -> RtpPacket -> Prop) :
  f (Some (buffer_ p, one_ref_ p)) = in_place (negb (one_ref_ p)) b' ->
  Q tt (p <| buffer_ := b' |> <| one_ref_ := true |>) -> wp (on_buffer f) p Q QR.
Proof. intros E HQ. unfold wp, on_buffer. rewrite E. by destruct (one_ref_ p). Qed.

Lemma WriteAt_wp {R} off bs p Q (QR : R -> RtpPacket -> Prop) :
  wf_packet p -> Forall is_u8 bs -> 0 <= off -> off + zlen bs <= capacity p ->
  (forall b', wrote (buffer_ p) (one_ref_ p) off bs b' ->
     Q tt (p <| buffer_ := b' |> <| one_ref_ := true |>)) ->
  wp (WriteAt off bs) p Q QR.
Proof.
  intros [Hw Hu] Hbs H0 Hl HQ.
  destruct (cow_write_mem (buffer_ p) (one_ref_ p) off bs) as (b' & E & Hb'); auto.
  eapply on_buffer_wp; [exact E|]. by apply HQ.
Qed.

Lemma SetSize_wp {R} n p Q (QR : R -> RtpPacket -> Prop) :
  wf_packet p -> 0 <= n <= capacity p ->
  (forall b', sized (buffer_ p) (one_ref_ p) n b' ->
     Q tt (p <| buffer_ := b' |> <| one_ref_ := true |>)) ->
  wp (SetSize n) p Q QR.
Proof.
  intros [Hw Hu] Hn HQ.
  destruct (cow_SetSize_mem (buffer_ p) (one_ref_ p) n) as (b' & E & Hb'); auto.
  eapply on_buffer_wp; [exact E|]. by apply HQ.
Qed.

Lemma rd_wp {R} off p Q (QR : R -> RtpPacket -> Prop) :
  wf_packet p -> 0 <= off < capacity p ->
  (forall v, is_u8 v -> zget (data p) off = Some v -> Q v p) -> wp (rd off) p Q QR.
Proof.
  intros [Hw Hu] Hoff HQ. destruct (zget_is_Some (data p) off Hoff) as [v Hv].
  unfold wp, rd. rewrite Hv. apply HQ; [by eapply zget_Forall|done].
Qed.

(** ** An empty packet *)

(** [p'] is [p] after [Clear]. *)
Definition cleared (p p' : RtpPacket) : Prop :=
  wf_packet p' /\ marker_ p' = false /\ payload_type_ p' = 0 /\ sequence_number_ p' = 0 /\
  timestamp_ p' = 0 /\ ssrc_ p' = 0 /\ payload_offset_ p' = kFixedHeaderSize /\ payload_size_ p' = 0 /\
  padding_size_ p' = 0 /\ extensions_size_ p' = 0 /\ extension_entries_ p' = [] /\
  extensions_ p' = extensions_ p /\ capacity p' = capacity p /\ one_ref_ p' = true /\
  rtp_bytes p' = 0x80 :: replicate 11 0.

Lemma zget_replicate n v i : 0 <= i < Z.of_nat n -> zget (replicate n v) i = Some v.
Proof.
  intros Hi. unfold zget. rewrite (proj2 (Z.ltb_ge _ _)) by lia. apply lookup_replicate_2. lia.
Qed.

Lemma Clear_wp {R} p (QR : R -> RtpPacket -> Prop) :
  wf_packet p -> kFixedHeaderSize <= capacity p -> wp Clear p (fun _ p' => cleared p p') QR.
Proof.
  intros Hwf Hc. unfold Clear, kFixedHeaderSize in *. wp_steps. change (Z.to_nat 12) with 12%nat.
  apply WriteAt_wp; [exact Hwf|apply zeros_u8|lia|rewrite zlen_replicate; exact Hc|].
  intros b1 Hb1. pose proof Hb1 as (Hw1 & Hu1 & Hs1 & Hc1 & _). apply wp_bind.
  packet. apply SetSize_wp; [by split|packet; lia|].
  intros b2 (Hw2 & Hu2 & Hs2 & Hc2 & Hg2). packet.
  apply WriteAt_wp; [by split| |lia|packet; change (zlen [_]) with 1; lia|].
  { constructor; [apply u8_range|done]. }
  intros b3 Hb3. pose proof Hb3 as (Hw3 & Hu3 & Hs3 & Hc3 & _).
  unfold cleared. packet. split_and!; try done.
  - congruence.
  - apply content_eq; [change (zlen _) with 12; congruence|].
    unfold capacity_ in *.
    apply read_bytes_spec. change (zlen (0x80 :: replicate 11 0)) with 12. split_and!; try lia.
    intros i Hi. rewrite Z.add_0_l. destruct (Z.eq_dec i 0) as [->|Hn].
    + rewrite (wrote_in _ _ _ _ _ _ Hb3); [done|]. change (zlen [_]) with 1. lia.
    + change (0x80 :: replicate 11 0) with ([0x80] ++ replicate 11 0).
      rewrite zget_app. change (zlen [0x80]) with 1. rewrite (proj2 (Z.ltb_ge _ _)) by lia.
      rewrite zget_replicate by lia.
      rewrite (wrote_out _ _ _ _ _ i Hb3) by (change (zlen [_]) with 1; cbn; unfold capacity_; lia).
      rewrite Hg2 by (unfold capacity_ in *; cbn; lia).
      rewrite (wrote_in _ _ _ _ _ i Hb1), zget_replicate; [done|lia|rewrite zlen_replicate; lia].
Qed.
End memory.
