(* ===== verification/RtpParse.v ===== *)
(** * Parsing an RTP packet is safe

    Whatever bytes arrive, [Parse] of [RtpPacket] ends without a fault, accepts
    only packets whose parts fit the bytes, and leaves an empty packet when it
    refuses. *)

From S2P Require Import Prelude ByteIo CowBuffer RtpExtMap RtpPacket RtpMem.

Open Scope Z_scope.
Open Scope c_scope.

(** ** Entries *)

(** An entry of the block of [cap] bytes at [off]. *)
Definition entry_inside (off cap : Z) (e : ExtensionInfo) : Prop :=
  1 <= ei_id e <= 255 /\ is_u8 (ei_length e) /\ is_u16 (ei_offset e) /\
  ei_offset e + ei_length e <= off + cap /\ (ei_length e = 0 \/ off < ei_offset e).

Lemma alter_ids f i (es : list ExtensionInfo) :
  (forall e, ei_id (f e) = ei_id e) -> map ei_id (alter f i es) = map ei_id es.
Proof.
  intros Hf. revert i. induction es as [|e es IH]; intros [|i]; cbn; [done|done| |].
  - by rewrite Hf.
  - f_equal. apply IH.
Qed.

Lemma FindOrCreate_ok off cap es id es' i :
  0 <= off + cap -> Forall (entry_inside off cap) es -> NoDup (map ei_id es) -> 1 <= id <= 255 ->
  FindOrCreateExtensionInfo es id = (es', i) ->
  Forall (entry_inside off cap) es' /\ NoDup (map ei_id es') /\
  exists e, es' !! i = Some e /\ ei_id e = id.
Proof.
  intros Hoc Hes Hnd Hid. unfold FindOrCreateExtensionInfo.
  destruct (list_find _ es) as [[j e]|] eqn:E; intros [= <- <-].
  - apply list_find_Some in E as (Hj & He & _). eauto.
  - apply list_find_None in E. rewrite u8_id by clia. split_and!.
    + apply list.Forall_app. split; [done|]. constructor; [|done].
      unfold entry_inside, is_u8, is_u16. cbn. lia.
    + rewrite map_app. cbn. apply list.NoDup_app. split_and!; [done| |apply NoDup_singleton].
      intros x Hx ->%list_elem_of_singleton. apply list_elem_of_fmap in Hx as (e & -> & He).
      by apply (proj1 (list.Forall_forall _ _) E e He).
    + eexists. split; [by apply list_lookup_middle|]. done.
Qed.

(** The members the loop over the extensions does not touch. *)
Definition rest (p : RtpPacket) :=
  (marker_ p, payload_type_ p, padding_size_ p, sequence_number_ p, timestamp_ p, ssrc_ p,
   payload_offset_ p, payload_size_ p, extensions_ p, buffer_ p, one_ref_ p).

Definition loop_ok (off cap : Z) (p : RtpPacket) : Prop :=
  0 <= extensions_size_ p <= cap /\ Forall (entry_inside off cap) (extension_entries_ p) /\
  NoDup (map ei_id (extension_entries_ p)).

Section parse.
Context `{Alloc}.

Lemma byte_header b :
  is_u8 b -> b <> 0 -> 0 <= Z.shiftr b 4 <= 15 /\ 1 <= u8 (1 + Z.land b 0xf) <= 16 /\
  (Z.shiftr b 4 = 0 -> u8 (1 + Z.land b 0xf) <> 1).
Proof.
  intros Hb H0. change (Z.land b 0xf) with (Z.land b (Z.ones 4)). rewrite Z.land_ones, shiftr_div by lia. unfold is_u8, u8 in *. repeat split; intros; Z.div_mod_to_equations; lia.
Qed.

(** The loop ends, inside the block; the fuel is what is left of the block. *)
Lemma parse_extensions_wp fuel buffer profile off cap p QR :
  Forall is_u8 buffer -> 0 <= off -> off + cap <= zlen buffer -> loop_ok off cap p ->
  (Z.to_nat (cap - extensions_size_ p) < fuel)%nat ->
  wp (parse_extensions fuel buffer profile off cap) p
     (fun _ p' => loop_ok off cap p' /\ rest p' = rest p) QR.
Proof.
  intros Hu Hoff Hcap. revert p. induction fuel as [|fuel IH]; intros p Hok Hfuel; [lia|].
  cbn [parse_extensions]. set (hdr := if profile =? _ then _ else _).
  assert (Hh : 1 <= hdr <= 2) by (unfold hdr, kOneByteExtensionHeaderLength, kTwoByteExtensionHeaderLength; bcase; lia).
  pose proof Hok as ([H0 H1] & Hes & Hnd). wp_steps.
  destruct (Z.ltb_spec (extensions_size_ p + hdr) cap) as [Hlt|]; [|wp_steps; done].
  destruct (zget_is_Some buffer (off + extensions_size_ p)) as [b Hb]; [lia|].
  pose proof (zget_Forall _ _ _ _ Hu Hb) as Hbu. apply wp_bind, (wp_mem _ b); [done|].
  destruct (Z.eqb_spec b 0) as [->|Hb0].
  { wp_steps. eapply wp_mono; [apply IH| |done].
    - unfold loop_ok. cbn [set extensions_size_ extension_entries_]. split; [lia|done].
    - cbn [set extensions_size_]. lia.
    - intros _ p' [? ->]. done. }
  apply wp_bind. eapply (wp_mono _ _ (fun '(id, len) p' => p' = p /\ is_u8 len /\
    ((profile =? kOneByteExtensionProfileId) &&
       ((id =? 15) || ((id =? 0) && negb (len =? 1))) = true \/ 1 <= id <= 255)) _ _ _); [| |done].
  { destruct (profile =? kOneByteExtensionProfileId) eqn:Ep.
    - wp_steps. destruct (byte_header b Hbu Hb0) as (Hi & Hl & Hz). split_and!; [done|clia|].
      destruct (Z.eqb_spec (Z.shiftr b 4) 0) as [E|E]; [left|right; lia].
      rewrite E. cbn. by rewrite (proj2 (Z.eqb_neq _ _)) by auto.
    - destruct (zget_is_Some buffer (off + extensions_size_ p + 1)) as [l Hl].
      { unfold hdr in Hlt. rewrite ?Ep in Hlt. unfold kTwoByteExtensionHeaderLength in Hlt. lia. }
      apply wp_bind, (wp_mem _ l); [done|]. wp_steps. split_and!; [done|by eapply zget_Forall|].
      right. clia. }
  intros [id len] p' (-> & Hlen & Hid). cbv beta iota.
  destruct (_ && _) eqn:Ebrk; [wp_steps; done|]. destruct Hid as [?|Hid]; [done|].
  destruct (Z.ltb_spec cap (extensions_size_ p + hdr + len)) as [|Hfit]; [wp_steps; done|].
  destruct (FindOrCreateExtensionInfo (extension_entries_ p) id) as [es i] eqn:Ef.
  destruct (FindOrCreate_ok off cap _ _ _ _ ltac:(lia) Hes Hnd Hid Ef) as (Hes' & Hnd' & e & He & Hei).
  wp_steps. destruct (Z.ltb_spec 65535 (off + extensions_size_ p + hdr)) as [|Ho].
  { wp_steps. split; [|done]. unfold loop_ok. cbn [set extensions_size_ extension_entries_]. auto. }
  wp_steps. eapply wp_mono; [apply IH| |done].
  - unfold loop_ok. cbn [set extensions_size_ extension_entries_]. unfold is_u8 in Hlen. split_and!.
    + lia.
    + lia.
    + apply Forall_alter; [done|]. intros e' He' _. simplify_eq. unfold entry_inside.
      cbn [set ei_id ei_length ei_offset]. rewrite u16_id by clia. unfold is_u8, is_u16. lia.
    + by rewrite alter_ids.
  - cbn [set extensions_size_]. unfold is_u8 in Hlen. lia.
  - intros _ p' [? ->]. done.
Qed.

(** ** The header *)

(** The members [ParseBuffer] never touches. *)
Definition kept (p : RtpPacket) := (extensions_ p, buffer_ p, one_ref_ p).

(** A packet of [size] bytes whose parts fit. *)
Definition parts_fit (size : Z) (p : RtpPacket) : Prop :=
  0 <= payload_type_ p < 128 /\ is_u16 (sequence_number_ p) /\ is_u32 (timestamp_ p) /\
  is_u32 (ssrc_ p) /\ is_u8 (padding_size_ p) /\ kFixedHeaderSize <= payload_offset_ p /\
  0 <= payload_size_ p /\ packet_size p = size /\
  Forall (entry_inside kFixedHeaderSize (payload_offset_ p - kFixedHeaderSize)) (extension_entries_ p) /\
  NoDup (map ei_id (extension_entries_ p)).

Lemma land_ones_range b n : 0 <= n -> 0 <= Z.land b (Z.ones n) < 2 ^ n.
Proof. intros Hn. rewrite Z.land_ones by done. apply Z.mod_pos_bound. lia. Qed.

Lemma entry_ok_weaken off cap off' cap' e :
  off' <= off -> off + cap <= off' + cap' -> entry_inside off cap e -> entry_inside off' cap' e.
Proof. unfold entry_inside. intros ? ? (? & ? & ? & ? & ?). split_and!; auto; lia. Qed.

Lemma ParseBuffer_wp buffer p :
  Forall is_u8 buffer ->
  wp (ParseBuffer buffer) p
     (fun ok p' => ok = true /\ parts_fit (zlen buffer) p' /\ kept p' = kept p)
     (fun ok p' => ok = false /\ kept p' = kept p).
Proof.
  intros Hu. unfold ParseBuffer.
  destruct (Z.ltb_spec (zlen buffer) kFixedHeaderSize) as [|Hsz]; [wp_steps; done|].
  unfold kFixedHeaderSize in Hsz.
  destruct (zget_is_Some buffer 0) as [b0 Hb0]; [lia|]. apply wp_bind, (wp_mem _ b0); [done|].
  destruct (negb _); [wp_steps; done|].
  destruct (zget_is_Some buffer 1) as [b1 Hb1]; [lia|]. apply wp_bind, (wp_mem _ b1); [done|].
  apply wp_bind, wp_modify.
  destruct (ReadBigEndian_Some 2 buffer 2) as (seq & Eseq & Hseq); [done|lia..|].
  apply wp_bind, (wp_mem _ seq); [done|].
  destruct (ReadBigEndian_Some 4 buffer 4) as (ts & Ets & Hts); [done|lia..|].
  apply wp_bind, (wp_mem _ ts); [done|].
  destruct (ReadBigEndian_Some 4 buffer 8) as (ssrc & Essrc & Hssrc); [done|lia..|].
  apply wp_bind, (wp_mem _ ssrc); [done|]. apply wp_bind, wp_modify.
  set (cc := Z.land b0 0x0f). assert (Hcc : 0 <= cc < 16) by apply (land_ones_range b0 4 ltac:(lia)).
  unfold kFixedHeaderSize.
  destruct (Z.ltb_spec (zlen buffer) (12 + cc * 4)) as [|Hc]; [wp_steps; done|]. wp_step. wp_step.
  wp_step. set (p1 := p <| marker_ := _ |> <| payload_type_ := _ |> <| sequence_number_ := seq |>
    <| timestamp_ := ts |> <| ssrc_ := ssrc |> <| payload_offset_ := _ |>).
  assert (Hpt : 0 <= payload_type_ p1 < 128) by apply (land_ones_range b1 7 ltac:(lia)).
  eapply (wp_mono _ _ (fun _ p' => exists pad, is_u8 pad /\ p' = p1 <| padding_size_ := pad |>)
    _ (fun ok p' => ok = false /\ kept p' = kept p)); [| |done].
  { destruct (negb (Z.land b0 0x20 =? 0)).
    - destruct (zget_is_Some buffer (zlen buffer - 1)) as [pad Hpad]; [lia|].
      pose proof (zget_Forall _ _ _ _ Hu Hpad).
      apply wp_bind, (wp_mem _ pad); [done|]. wp_steps. destruct (pad =? 0); wp_steps; eauto.
    - wp_steps. exists 0. split; [unfold is_u8; lia|done]. }
  intros _ p2 (pad & Hpadr & ->). wp_step. wp_step. wp_step.
  set (p2 := p1 <| padding_size_ := pad |> <| extensions_size_ := 0 |> <| extension_entries_ := [] |>).
  eapply (wp_mono _ _ (fun _ p' => exists s es o, 12 <= o /\
    p' = p2 <| extensions_size_ := s |> <| extension_entries_ := es |> <| payload_offset_ := o |> /\
    Forall (entry_inside 12 (o - 12)) es /\ NoDup (map ei_id es))
    _ (fun ok p' => ok = false /\ kept p' = kept p)); [| |done].
  { destruct (negb (Z.land b0 0x10 =? 0)).
    2: { wp_steps. exists 0, [], (12 + cc * 4). split_and!; [lia|done|constructor|constructor]. }
    destruct (Z.ltb_spec (zlen buffer) (12 + cc * 4 + 4)) as [|He]; [wp_steps; done|].
    destruct (ReadBigEndian_Some 2 buffer (12 + cc * 4)) as (prof & Eprof & _); [done|lia..|].
    apply wp_bind, (wp_mem _ prof); [done|].
    destruct (ReadBigEndian_Some 2 buffer (12 + cc * 4 + 2)) as (words & Ew & Hw); [done|lia..|].
    apply wp_bind, (wp_mem _ words); [done|].
    destruct (Z.ltb_spec (zlen buffer) (12 + cc * 4 + 4 + words * 4)) as [|Hcap]; [wp_steps; done|].
    wp_step. eapply (wp_mono _ _ (fun _ p' => loop_ok (12 + cc * 4 + 4) (words * 4) p' /\
      rest p' = rest p2) _ (fun ok p' => ok = false /\ kept p' = kept p)); [| |done].
    - destruct (_ && _).
      + wp_steps. unfold loop_ok. cbn. split; [split; [lia|split; constructor]|done].
      + apply parse_extensions_wp; [done|lia|lia| |cbn; lia].
        unfold loop_ok. cbn. split; [lia|split; constructor].
    - intros _ p3 [([H0 H1] & Hes & Hnd) Hrest]. wp_steps.
      exists (extensions_size_ p3), (extension_entries_ p3), (12 + cc * 4 + 4 + words * 4).
      split_and!; [lia| | |done].
      + destruct p3. unfold rest in Hrest. cbn in Hrest. simplify_eq. done.
      + eapply Forall_impl; [|exact Hes]. intros e. apply entry_ok_weaken; lia. }
  intros _ p4 (sz & es & o & Ho & -> & Hes & Hnd). wp_steps.
  change (padding_size_ (p2 <| extensions_size_ := sz |> <| extension_entries_ := es |> <| payload_offset_ := o |>)) with pad.
  change (payload_offset_ (p2 <| extensions_size_ := sz |> <| extension_entries_ := es |> <| payload_offset_ := o |>)) with o.
  destruct (Z.ltb_spec (zlen buffer) (o + pad)); [wp_steps; done|]. wp_steps.
  split; [done|]. split; [|done]. unfold parts_fit, packet_size, kFixedHeaderSize.
  cbn [set payload_type_ sequence_number_ timestamp_ ssrc_ padding_size_ payload_offset_ payload_size_
       extension_entries_ p2 p1] in *.
  unfold is_u16, is_u32. split_and!; auto; lia.
Qed.

(** The bytes of an extension of [p], as [FindExtension] and the view give them. *)
Definition extension_bytes (p : RtpPacket) (type : RTPExtensionType) : option (list Z) :=
  match FindExtension p type with
  | Some (off, n) => read_bytes (rtp_bytes p) off n
  | None => Some []
  end.

(** C14. Parsing any bytes is safe. On a packet with a valid buffer [Parse] ends
    with no access outside the bytes and no endless loop. If it accepts, the
    packet holds exactly the bytes, header, payload and padding add up to their
    number, every member is in the range of its type, no extension occurs twice,
    and each extension that is found is a range of bytes inside the header. If it
    refuses, the packet is empty, as after [Clear]. *)
Theorem Parse_safe (p : RtpPacket) (buffer : list Z) :
  wf_packet p -> kFixedHeaderSize <= capacity p -> Forall is_u8 buffer ->
  exists ok p', Parse (R := unit) buffer p = Next ok p' /\ wf_packet p' /\
    if ok : bool then
      rtp_bytes p' = buffer /\ parts_fit (zlen buffer) p' /\ extensions_ p' = extensions_ p /\
      (forall t, exists bs, extension_bytes p' t = Some bs)
    else cleared p p'.
Proof.
  intros Hwf Hc Hu. apply wp_run. unfold Parse. wp_steps.
  eapply wp_mono; [by apply ParseBuffer_wp| |]; cbv beta.
  - intros ok p1 (-> & Hfit & Hk). unfold kept in Hk. simplify_eq. cbn [negb]. wp_steps.
    destruct Hwf as [Hw Hd]. unfold data in Hd. rewrite <- H2 in Hw, Hd.
    destruct (cow_SetData_mem (buffer_ p1) (one_ref_ p1) buffer) as (b' & E & Hw' & Hu' & Hcon & _); auto.
    eapply on_buffer_wp; [exact E|]. wp_steps. split; [by split|]. packet.
    split; [done|]. split; [by destruct p1|]. split; [done|].
    intros t. unfold extension_bytes, FindExtension. packet.
    destruct (_ =? _); [by eexists|].
    destruct (FindExtensionInfo _ _) as [e|] eqn:Ef; [|by eexists].
    unfold FindExtensionInfo in Ef. packet.
    destruct (list_find _ (extension_entries_ p1)) as [[i e']|] eqn:El; [|done]. cbn in Ef. simplify_eq.
    apply list_find_Some in El as (Hi & _ & _). destruct Hfit as (_ & _ & _ & _ & Hp & Ho & Hs & Hsz & Hes & _).
    pose proof (Forall_lookup_1 _ _ _ _ Hes Hi) as (_ & Hl & Hof & Hin & _).
    unfold packet_size, kFixedHeaderSize, is_u8, is_u16 in *.
    eexists. apply read_bytes_Some; lia.
  - intros ok p1 [-> Hk]. unfold kept in Hk. simplify_eq. cbn [negb]. wp_steps.
    assert (Hwf1 : wf_packet p1) by (unfold wf_packet, data; by rewrite H2).
    eapply wp_mono; [apply (Clear_wp p1 (fun _ _ => False)); [done|unfold capacity; by rewrite H2]| |done].
    intros u p2 Hcl. wp_steps. unfold cleared, capacity in *. rewrite H0, H2 in Hcl. tauto.
Qed.

End parse.

Lemma Parse_safe_witness :
  exists p, (exists p', Parse (R := unit) [0x80; 0xE0; 0; 7; 0; 0; 0; 1; 0; 0; 0; 2; 42] p = Next true p' /\
    payload_size_ p' = 1 /\ sequence_number_ p' = 7) /\
    exists ok p', Parse (R := unit) [0x90; 0xE0] p = Next ok p' /\ wf_packet p'.
Proof.
  set (b := mkBuffer 12 (replicate 12 0)).
  set (p := mkPacket false 0 0 0 0 0 12 0 (RtpHeaderExtensionMap_new false) [] 0 b true).
  exists p. split; [eexists; split; [vm_compute; reflexivity|split; reflexivity]|].
  destruct (Parse_safe p [0x90; 0xE0]) as (ok & p' & H1 & H2 & _).
  - split; [unfold wf_buffer, capacity_, zlen; cbn; lia|apply zeros_u8].
  - unfold capacity, capacity_, zlen, kFixedHeaderSize. cbn. lia.
  - repeat constructor; unfold is_u8; lia.
  - by exists ok, p'.
Defined.
