(* ===== verification/RtpLayout.v ===== *)
(** * The layout of a packet that was built

    [built] relates the members of an [RtpPacket] to the bytes in its buffer. It
    is kept by the methods that build a packet (file [RtpBuild]) and it is what
    the parser needs to find the members again. *)

From S2P Require Import Prelude ByteIo CowBuffer RtpExtMap RtpPacket RtpMem.

Open Scope Z_scope.
Open Scope c_scope.

(** ** Blocks of memory that agree *)

Definition agree (lo hi : Z) (d d' : list Z) : Prop := forall i, lo <= i < hi -> zget d' i = zget d i.

Lemma agree_weaken lo hi lo' hi' d d' : lo' <= lo -> hi <= hi' -> agree lo' hi' d d' -> agree lo hi d d'.
Proof. intros ? ? Ha i Hi. apply Ha. lia. Qed.

Lemma agree_trans lo hi d d' d'' : agree lo hi d d' -> agree lo hi d' d'' -> agree lo hi d d''.
Proof. intros H1 H2 i Hi. by rewrite H2, H1. Qed.

Lemma read_agree lo hi d d' o n bs :
  agree lo hi d d' -> lo <= o -> o + n <= hi -> o + n <= zlen d' ->
  read_bytes d o n = Some bs -> read_bytes d' o n = Some bs.
Proof.
  intros Ha Hlo Hhi Hl. rewrite !read_bytes_spec. intros (H1 & H2 & H3 & Hg).
  split_and!; auto. intros i Hi. rewrite Hg by done. symmetry. apply Ha. lia.
Qed.

(** ** The first byte *)

Definition byte0 (padding ext : bool) (cc : Z) : Z :=
  0x80 + (if padding then 0x20 else 0) + (if ext then 0x10 else 0) + cc.

(** A property of all values of the first byte, by evaluation. *)
Lemma byte0_all (P : bool -> bool -> Z -> bool) :
  forallb (fun n => let cc := Z.of_nat n in
    P true true cc && P true false cc && P false true cc && P false false cc) (seq 0 16) = true ->
  forall padding ext cc, 0 <= cc < 16 -> P padding ext cc = true.
Proof.
  rewrite forallb_forall. intros H padding ext cc Hcc. specialize (H (Z.to_nat cc)).
  rewrite Z2Nat.id in H by lia. cbv zeta in H. rewrite !andb_true_iff in H.
  destruct H as [[[? ?] ?] ?]; [apply in_seq; lia|]. by destruct padding, ext.
Qed.

Lemma byte0_facts padding ext cc :
  0 <= cc < 16 ->
  is_u8 (byte0 padding ext cc) /\ Z.shiftr (byte0 padding ext cc) 6 = kRtpVersion /\
  Z.land (byte0 padding ext cc) 0x0F = cc /\
  (Z.land (byte0 padding ext cc) 0x20 =? 0) = negb padding /\
  (Z.land (byte0 padding ext cc) 0x10 =? 0) = negb ext /\
  u8 (Z.lor (byte0 padding ext cc) 0x10) = byte0 padding true cc /\
  u8 (Z.lor (byte0 padding ext cc) 0x20) = byte0 true ext cc /\
  u8 (Z.land (byte0 padding ext cc) (Z.lnot 0x20)) = byte0 false ext cc.
Proof.
  intros Hcc. unfold is_u8.
  pose proof (byte0_all (fun padding ext cc =>
    (0 <=? byte0 padding ext cc) && (byte0 padding ext cc <? 2 ^ 8) &&
    (Z.shiftr (byte0 padding ext cc) 6 =? kRtpVersion) &&
    (Z.land (byte0 padding ext cc) 0x0F =? cc) &&
    Bool.eqb (Z.land (byte0 padding ext cc) 0x20 =? 0) (negb padding) &&
    Bool.eqb (Z.land (byte0 padding ext cc) 0x10 =? 0) (negb ext) &&
    (u8 (Z.lor (byte0 padding ext cc) 0x10) =? byte0 padding true cc) &&
    (u8 (Z.lor (byte0 padding ext cc) 0x20) =? byte0 true ext cc) &&
    (u8 (Z.land (byte0 padding ext cc) (Z.lnot 0x20)) =? byte0 false ext cc))
    ltac:(vm_compute; reflexivity) padding ext cc Hcc) as H.
  cbv beta in H. rewrite !andb_true_iff, !Z.eqb_eq, !eqb_true_iff, Z.leb_le, Z.ltb_lt in H. tauto.
Qed.

Lemma byte0_csrcs padding ext cc n :
  0 <= cc < 16 -> 0 <= n < 16 ->
  u8 (Z.lor (Z.land (byte0 padding ext cc) 0xF0) (u8 n)) = byte0 padding ext n.
Proof.
  intros Hcc Hn. rewrite (u8_id n) by clia.
  assert (Hh : Z.land (byte0 padding ext cc) 0xF0 = byte0 padding ext 0).
  { apply Z.eqb_eq. by apply (byte0_all (fun padding ext cc =>
      Z.land (byte0 padding ext cc) 0xF0 =? byte0 padding ext 0)). }
  rewrite Hh, (lor_disjoint _ _ 4); [|lia| |lia].
  - unfold byte0. destruct padding, ext; apply u8_id; clia.
  - by destruct padding, ext.
Qed.

(** ** The fixed header after the first byte *)

Definition byte1 (marker : bool) (pt : Z) : Z := (if marker then 0x80 else 0) + pt.

Record fixed_header (d : list Z) (marker : bool) (pt seq ts ssrc : Z) : Prop := {
  fh_pt : 0 <= pt < 128;
  fh_seq_range : is_u16 seq;
  fh_ts_range : is_u32 ts;
  fh_ssrc_range : is_u32 ssrc;
  fh_byte1 : zget d 1 = Some (byte1 marker pt);
  fh_seq : read_bytes d 2 2 = Some (be_bytes 2 seq);
  fh_ts : read_bytes d 4 4 = Some (be_bytes 4 ts);
  fh_ssrc : read_bytes d 8 4 = Some (be_bytes 4 ssrc);
}.

Lemma fixed_header_agree d d' marker pt seq ts ssrc :
  agree 1 12 d d' -> 12 <= zlen d' ->
  fixed_header d marker pt seq ts ssrc -> fixed_header d' marker pt seq ts ssrc.
Proof.
  intros Ha Hl []. split; auto.
  - by rewrite (Ha 1) by lia.
  - by apply (read_agree 1 12 d d'); try lia.
  - by apply (read_agree 1 12 d d'); try lia.
  - by apply (read_agree 1 12 d d'); try lia.
Qed.

Lemma byte1_facts marker pt :
  0 <= pt < 128 ->
  is_u8 (byte1 marker pt) /\ negb (Z.land (byte1 marker pt) 0x80 =? 0) = marker /\
  Z.land (byte1 marker pt) 0x7F = pt.
Proof.
  intros Hpt. unfold byte1. split; [destruct marker; clia|].
  change 0x80 with (Z.shiftl 1 7) at 2. rewrite land_bit by lia. change 0x7F with (Z.ones 7).
  rewrite Z.land_ones, testbit_top, negb_involutive by (destruct marker; lia). destruct marker.
  - split; [apply Z.leb_le; lia|dmlia].
  - split; [apply Z.leb_gt; lia|dmlia].
Qed.

Lemma byte1_set marker pt pt' :
  0 <= pt < 128 -> 0 <= pt' < 128 ->
  u8 (Z.lor (byte1 marker pt) 0x80) = byte1 true pt /\
  u8 (Z.land (byte1 marker pt) 0x7F) = byte1 false pt /\
  u8 (Z.lor (Z.land (byte1 marker pt) 0x80) pt') = byte1 marker pt'.
Proof.
  intros Hpt Hpt'. destruct (byte1_facts marker pt Hpt) as (Hu & Hm & Hl). split_and!.
  - destruct marker; unfold byte1.
    + replace (Z.lor (0x80 + pt) 0x80) with (0x80 + pt); [by apply u8_id|].
      rewrite <- (lor_disjoint 0x80 pt 7) by (done || lia).
      by rewrite (Z.lor_comm (Z.lor _ _)), Z.lor_assoc, Z.lor_diag.
    + rewrite Z.add_0_l, Z.lor_comm, (lor_disjoint 0x80 pt 7) by (done || lia). apply u8_id. clia.
  - rewrite Hl. unfold byte1. apply u8_id. clia.
  - assert (Hx : Z.land (byte1 marker pt) 0x80 = byte1 marker 0).
    { change 0x80 with (Z.shiftl (Z.ones 1) 7). rewrite land_mask by lia. unfold byte1.
      destruct marker; dmlia. }
    rewrite Hx. unfold byte1. destruct marker.
    + rewrite Z.add_0_r, (lor_disjoint 0x80 pt' 7) by (done || lia). apply u8_id. clia.
    + rewrite Z.add_0_l, Z.lor_0_l. apply u8_id. clia.
Qed.

(** ** Header extensions *)

Definition hdr_len (two : bool) : Z := if two then 2 else 1.
Definition profile_of (two : bool) : Z :=
  if two then kTwoByteExtensionProfileId else kOneByteExtensionProfileId.

(** The entry [e] with its header at [pos]. *)
Definition entry_at (d : list Z) (two : bool) (pos : Z) (e : ExtensionInfo) : Prop :=
  ei_offset e = pos + hdr_len two /\ ei_offset e <= 65535 /\
  if two then
    1 <= ei_id e <= 255 /\ 1 <= ei_length e <= 255 /\
    zget d pos = Some (ei_id e) /\ zget d (pos + 1) = Some (ei_length e)
  else
    1 <= ei_id e <= 14 /\ 1 <= ei_length e <= 16 /\
    zget d pos = Some (16 * ei_id e + (ei_length e - 1)).

(** The entries [es] one behind the other, from [pos] up to [fin]. *)
Fixpoint laid (d : list Z) (two : bool) (pos : Z) (es : list ExtensionInfo) (fin : Z) : Prop :=
  match es with
  | [] => pos = fin
  | e :: es' => entry_at d two pos e /\ laid d two (ei_offset e + ei_length e) es' fin
  end.

Lemma entry_at_bounds d two pos e :
  entry_at d two pos e ->
  pos < ei_offset e /\ 1 <= ei_length e <= 255 /\ 1 <= ei_id e <= 255 /\ ei_offset e <= 65535.
Proof. unfold entry_at, hdr_len. destruct two; intros (? & ? & ? & ? & ?); lia. Qed.

Lemma entry_at_agree d d' two pos e :
  agree pos (ei_offset e) d d' -> entry_at d two pos e -> entry_at d' two pos e.
Proof.
  unfold entry_at, hdr_len. intros Ha (Ho & Hmax & He). split; [done|]. split; [done|]. destruct two.
  - destruct He as (? & ? & H1 & H2). split_and!; try lia; rewrite Ha by lia; done.
  - destruct He as (? & ? & H1). split_and!; try lia. rewrite Ha by lia. done.
Qed.

Lemma laid_le d two pos es fin : laid d two pos es fin -> pos <= fin.
Proof.
  revert pos. induction es as [|e es IH]; intros pos; cbn; [lia|].
  intros [He Hl]. apply entry_at_bounds in He. apply IH in Hl. lia.
Qed.

Lemma laid_agree d d' two pos es fin :
  agree pos fin d d' -> laid d two pos es fin -> laid d' two pos es fin.
Proof.
  revert pos. induction es as [|e es IH]; intros pos Ha; cbn; [done|]. intros [He Hl].
  pose proof (entry_at_bounds _ _ _ _ He). pose proof (laid_le _ _ _ _ _ Hl). split.
  - eapply entry_at_agree; [|exact He]. eapply agree_weaken; [..|exact Ha]; lia.
  - apply IH; [|done]. eapply agree_weaken; [..|exact Ha]; lia.
Qed.

Lemma laid_app d two pos es es' fin :
  laid d two pos (es ++ es') fin <-> exists mid, laid d two pos es mid /\ laid d two mid es' fin.
Proof.
  revert pos. induction es as [|e es IH]; intros pos; cbn [app laid].
  - split; [eauto|]. by intros (mid & -> & ?).
  - rewrite IH. split; [intros (? & mid & ? & ?)|intros (mid & (? & ?) & ?)]; eauto.
Qed.

Lemma laid_entry d two pos es fin e :
  laid d two pos es fin -> e ∈ es ->
  exists pos', pos <= pos' /\ entry_at d two pos' e /\ ei_offset e + ei_length e <= fin.
Proof.
  revert pos. induction es as [|e' es IH]; intros pos; cbn; [intros _ Hin; by apply not_elem_of_nil in Hin|].
  intros [He Hl] [->|Hin]%elem_of_cons.
  - exists pos. split_and!; [lia|done|]. by eapply laid_le.
  - destruct (IH _ Hl Hin) as (pos' & ? & ? & ?). apply entry_at_bounds in He.
    exists pos'. split_and!; auto; lia.
Qed.

(** The block of the header extensions, behind [cc] contributing sources. *)
Record ext_block (d : list Z) (cc : Z) (two : bool) (size : Z) (es : list ExtensionInfo) (po : Z) :
    Prop := {
  eb_size : 0 < size;
  eb_profile : read_bytes d (12 + 4 * cc) 2 = Some (be_bytes 2 (profile_of two));
  eb_words : read_bytes d (14 + 4 * cc) 2 = Some (be_bytes 2 ((size + 3) / 4));
  eb_offset : po = 16 + 4 * cc + 4 * ((size + 3) / 4);
  eb_laid : laid d two (16 + 4 * cc) es (16 + 4 * cc + size);
  eb_zeros : forall i, 16 + 4 * cc + size <= i < po -> zget d i = Some 0;
  eb_nodup : NoDup (map ei_id es);
}.

Definition extensions_at (d : list Z) (cc size : Z) (es : list ExtensionInfo) (po : Z) : Prop :=
  size = 0 /\ es = [] /\ po = 12 + 4 * cc \/ exists two, ext_block d cc two size es po.

Lemma ext_block_agree d d' cc two size es po :
  agree (12 + 4 * cc) po d d' -> po <= zlen d' ->
  ext_block d cc two size es po -> ext_block d' cc two size es po.
Proof.
  intros Ha Hl [Hs Hp Hw Ho Hla Hz Hn].
  assert (Hle : 16 + 4 * cc + size <= po) by (Z.div_mod_to_equations; lia). split; auto.
  - by apply (read_agree (12 + 4 * cc) po d d'); try lia.
  - by apply (read_agree (12 + 4 * cc) po d d'); try lia.
  - eapply laid_agree; [|exact Hla]. eapply agree_weaken; [..|exact Ha]; lia.
  - intros i Hi. rewrite Ha by lia. by apply Hz.
Qed.

Lemma extensions_at_agree d d' cc size es po :
  agree (12 + 4 * cc) po d d' -> po <= zlen d' ->
  extensions_at d cc size es po -> extensions_at d' cc size es po.
Proof. intros Ha Hl [?|[two Hb]]; [by left|right]. exists two. by eapply ext_block_agree. Qed.

Lemma extensions_at_le d cc size es po : extensions_at d cc size es po -> 12 + 4 * cc <= po /\ 0 <= size.
Proof. intros [(-> & -> & ->)|[two []]]; Z.div_mod_to_equations; lia. Qed.

(** ** Packets that were built *)

Record built (p : RtpPacket) : Prop := {
  bu_wf : wf_packet p;
  bu_capacity : kFixedHeaderSize <= capacity p <= 65535;
  bu_size : size_ (buffer_ p) = packet_size p;
  bu_payload : 0 <= payload_size_ p;
  bu_padding : is_u8 (padding_size_ p);
  bu_header : fixed_header (data p) (marker_ p) (payload_type_ p) (sequence_number_ p) (timestamp_ p) (ssrc_ p);
  bu_bytes : exists cc, 0 <= cc < 16 /\
    zget (data p) 0 = Some (byte0 (0 <? padding_size_ p) (0 <? extensions_size_ p) cc) /\
    extensions_at (data p) cc (extensions_size_ p) (extension_entries_ p) (payload_offset_ p);
  bu_last : 0 < padding_size_ p -> zget (data p) (packet_size p - 1) = Some (padding_size_ p);
}.

Lemma built_bounds p :
  built p -> 12 <= payload_offset_ p /\ payload_offset_ p <= packet_size p /\
    packet_size p <= capacity p /\ payload_offset_ p + payload_size_ p <= packet_size p.
Proof.
  intros [[Hw _] _ Hs Hp Hpad _ (cc & Hcc & _ & He) _]. apply extensions_at_le in He.
  unfold wf_buffer, capacity, packet_size, is_u8 in *. lia.
Qed.
