(* ===== verification/RtpRoundtrip.v ===== *)
(** * A packet that was built is parsed back

    For every packet that satisfies [built], [Parse] of its bytes succeeds and
    finds the members, the extensions, the payload and the padding again. *)

From S2P Require Import Prelude ByteIo CowBuffer RtpExtMap RtpPacket RtpMem RtpParse RtpLayout.

Open Scope Z_scope.
Open Scope c_scope.

(** ** The loop over the extensions *)

Lemma profile_one two : (profile_of two =? kOneByteExtensionProfileId) = negb two.
Proof. by destruct two. Qed.

Lemma find_new es id :
  id ∉ map ei_id es -> 1 <= id <= 255 ->
  FindOrCreateExtensionInfo es id = (es ++ [mkInfo id 0 0], length es).
Proof.
  intros Hn Hid. unfold FindOrCreateExtensionInfo.
  destruct (list_find _ es) as [[i e]|] eqn:E.
  - apply list_find_Some in E as (Hi & <- & _). destruct Hn.
    apply list_elem_of_fmap. exists e. split; [done|]. by eapply list_elem_of_lookup_2.
  - by rewrite u8_id by clia.
Qed.

Lemma alter_last f (es : list ExtensionInfo) e : alter f (length es) (es ++ [e]) = es ++ [f e].
Proof. induction es as [|e' es IH]; cbn; [done|]. f_equal. apply IH. Qed.

(** Behind the entries there are zeros only. *)
Lemma parse_zeros fuel buffer two off cap p QR :
  (forall i, off + extensions_size_ p <= i < off + cap -> zget buffer i = Some 0) ->
  (Z.to_nat (cap - extensions_size_ p) < fuel)%nat ->
  wp (parse_extensions fuel buffer (profile_of two) off cap) p
     (fun _ p' => extension_entries_ p' = extension_entries_ p /\ rest p' = rest p) QR.
Proof.
  revert p. induction fuel as [|fuel IH]; intros p Hz Hf; [lia|]. cbn [parse_extensions].
  rewrite profile_one. set (hdr := if negb two then _ else _).
  assert (Hh : 1 <= hdr <= 2) by (unfold hdr; destruct two; unfold kOneByteExtensionHeaderLength, kTwoByteExtensionHeaderLength; cbn; lia). wp_steps.
  destruct (Z.ltb_spec (extensions_size_ p + hdr) cap) as [Hlt|]; [|by wp_steps].
  apply wp_bind, (wp_mem _ 0); [apply Hz; lia|]. cbn [Z.eqb]. wp_steps.
  eapply wp_mono; [apply IH| |done].
  - packet. intros i Hi. apply Hz. lia.
  - packet. lia.
  - intros _ p' [-> ->]. done.
Qed.

Lemma one_byte_header id len :
  1 <= id <= 14 -> 1 <= len <= 16 ->
  Z.shiftr (16 * id + (len - 1)) 4 = id /\ u8 (1 + Z.land (16 * id + (len - 1)) 0xf) = len.
Proof.
  intros Hid Hlen. change 0xf with (Z.ones 4). rewrite Z.land_ones, shiftr_div by lia. split; dmlia.
Qed.

Lemma parse_laid es fuel buffer two off cap p fin QR :
  laid buffer two (off + extensions_size_ p) es fin -> fin <= off + cap -> 0 <= off ->
  0 <= extensions_size_ p ->
  (forall i, fin <= i < off + cap -> zget buffer i = Some 0) ->
  NoDup (map ei_id (extension_entries_ p ++ es)) ->
  (Z.to_nat (cap - extensions_size_ p) < fuel)%nat ->
  wp (parse_extensions fuel buffer (profile_of two) off cap) p
     (fun _ p' => extension_entries_ p' = extension_entries_ p ++ es /\ rest p' = rest p) QR.
Proof.
  revert fuel p. induction es as [|e es IH]; intros fuel p Hl Hfin Hoff Hs Hz Hnd Hf; cbn [laid] in Hl.
  - rewrite app_nil_r. apply parse_zeros; [|done]. intros i Hi. apply Hz. lia.
  - destruct Hl as [He Hl]. pose proof (laid_le _ _ _ _ _ Hl) as Hle.
    pose proof (entry_at_bounds _ _ _ _ He) as Hb. destruct He as (Ho & Hmax & He).
    destruct fuel as [|fuel]; [lia|]. cbn [parse_extensions]. rewrite !profile_one.
    assert (Hhdr : (if negb two then kOneByteExtensionHeaderLength else kTwoByteExtensionHeaderLength) = hdr_len two)
      by (by destruct two). rewrite Hhdr. assert (Hh : 1 <= hdr_len two <= 2) by (destruct two; cbn; lia).
    assert (Hid : ei_id e ∉ map ei_id (extension_entries_ p)).
    { rewrite map_app in Hnd. apply list.NoDup_app in Hnd as (_ & Hd & _). intros Hin.
      apply (Hd _ Hin). cbn. apply elem_of_cons. by left. }
    wp_steps. rewrite (proj2 (Z.ltb_lt _ _)) by lia.
    set (b := if two then ei_id e else 16 * ei_id e + (ei_length e - 1)).
    assert (Hget : zget buffer (off + extensions_size_ p) = Some b) by (unfold b; destruct two; tauto).
    apply wp_bind, (wp_mem _ b); [done|].
    rewrite (proj2 (Z.eqb_neq b 0)) by (unfold b; destruct two; lia). apply wp_bind.
    apply (wp_mono _ _ (fun r p' => p' = p /\ r = (ei_id e, ei_length e)) _ QR); [| |done].
    { destruct two; cbn [negb].
      - apply wp_bind, (wp_mem _ (ei_length e)); [tauto|]. by wp_steps.
      - wp_steps. split; [done|]. destruct He as (? & ? & _).
        unfold b. by destruct (one_byte_header (ei_id e) (ei_length e)) as [-> ->]. }
    intros r p' [-> ->]. cbv beta iota.
    assert (Hbrk : negb two && ((ei_id e =? 15) || (ei_id e =? 0) && negb (ei_length e =? 1)) = false).
    { destruct two; [done|]. rewrite (proj2 (Z.eqb_neq _ 15)), (proj2 (Z.eqb_neq _ 0)) by lia. done. }
    rewrite Hbrk. rewrite (proj2 (Z.ltb_ge _ _)) by lia.
    rewrite find_new by (done || lia). cbv beta iota. wp_steps.
    rewrite (proj2 (Z.ltb_ge _ _)) by lia. wp_steps. rewrite alter_last.
    assert (Hnew : (mkInfo (ei_id e) 0 0) <| ei_offset := u16 (off + extensions_size_ p + hdr_len two) |>
                     <| ei_length := ei_length e |> = e).
    { destruct e as [i l o]. cbn [ei_id ei_length ei_offset] in *.
      change (mkInfo i l (u16 (off + extensions_size_ p + hdr_len two)) = mkInfo i l o).
      f_equal. rewrite u16_id by clia. lia. }
    rewrite Hnew. eapply wp_mono; [apply IH| |done]; packet.
    + eapply eq_ind_r with (P := fun z => laid buffer two z es fin); [exact Hl|]. lia.
    + done.
    + done.
    + lia.
    + done.
    + by rewrite <- app_assoc.
    + lia.
    + intros u p' [-> ->]. by rewrite <- app_assoc.
Qed.

(** ** The whole packet *)

(** The members of [p] that travel with the bytes. *)
Definition same_packet (p q : RtpPacket) : Prop :=
  marker_ q = marker_ p /\ payload_type_ q = payload_type_ p /\
  sequence_number_ q = sequence_number_ p /\ timestamp_ q = timestamp_ p /\ ssrc_ q = ssrc_ p /\
  payload_offset_ q = payload_offset_ p /\ payload_size_ q = payload_size_ p /\
  padding_size_ q = padding_size_ p /\ extension_entries_ q = extension_entries_ p /\
  rtp_bytes q = rtp_bytes p.

(** The bytes that are sent are those of the buffer. *)
Lemma sent_bytes p :
  built p -> Forall is_u8 (rtp_bytes p) /\ zlen (rtp_bytes p) = packet_size p /\
    agree 0 (packet_size p) (data p) (rtp_bytes p).
Proof.
  intros [[Hw Hu] _ Hs _ _ _ _ _]. unfold rtp_bytes. split_and!.
  - by apply content_u8.
  - by rewrite zlen_content.
  - intros i Hi. apply zget_content; [done|lia].
Qed.

Lemma parse_ext_block d cc two size es po p QR :
  ext_block d cc two size es po -> Forall is_u8 d -> 0 <= cc < 16 -> po <= zlen d -> zlen d <= 65535 ->
  extensions_size_ p = 0 -> extension_entries_ p = [] ->
  ReadBigEndian 2 d (12 + cc * 4) = Some (profile_of two) /\
  ReadBigEndian 2 d (12 + cc * 4 + 2) = Some ((size + 3) / 4) /\
  12 + cc * 4 + 4 + (size + 3) / 4 * 4 = po /\
  wp (parse_extensions (S (Z.to_nat ((size + 3) / 4 * 4))) d (profile_of two) (12 + cc * 4 + 4)
        ((size + 3) / 4 * 4)) p
     (fun _ p' => extension_entries_ p' = es /\ rest p' = rest p) QR.
Proof.
  intros [Hs Hp Hw Ho Hl Hz Hn] Hu Hcc Hpo Hd H0 Hes.
  replace (12 + cc * 4 + 2) with (14 + 4 * cc) by lia. replace (12 + cc * 4) with (12 + 4 * cc) by lia.
  assert (Hle : size <= (size + 3) / 4 * 4 < size + 4) by (Z.div_mod_to_equations; lia).
  split_and!.
  - apply read_u16; [done| |done].
    unfold profile_of, is_u16, kOneByteExtensionProfileId, kTwoByteExtensionProfileId. bcase; lia.
  - apply read_u16; [done|unfold is_u16; lia|done].
  - lia.
  - eapply wp_mono; [apply parse_laid with (es := es) (fin := 16 + 4 * cc + size)| |done].
    + rewrite H0. replace (12 + 4 * cc + 4 + 0) with (16 + 4 * cc) by lia. exact Hl.
    + lia.
    + lia.
    + lia.
    + intros i Hi. apply Hz. lia.
    + by rewrite Hes.
    + lia.
    + intros u p' [-> Hr]. by rewrite Hes.
Qed.

Section roundtrip.
Context `{Alloc}.

Lemma ParseBuffer_built p q :
  built p ->
  wp (ParseBuffer (rtp_bytes p)) q
     (fun ok q' => ok = true /\ kept q' = kept q /\
        forall b one, content b = rtp_bytes p -> same_packet p (q' <| buffer_ := b |> <| one_ref_ := one |>))
     (fun _ _ => False).
Proof.
  intros Hb. pose proof (built_bounds p Hb) as Hbd. destruct (sent_bytes p Hb) as (Hu & Hlen & Hag).
  set (bs := rtp_bytes p) in *. destruct Hb as [Hwf [_ Hcap] Hsize Hps Hpad Hfh (cc & Hcc & H0 & Hext) Hlast].
  apply (fixed_header_agree _ bs) in Hfh; [|eapply agree_weaken; [..|exact Hag]; lia|lia].
  apply (extensions_at_agree _ bs) in Hext; [|eapply agree_weaken; [..|exact Hag]; lia|lia].
  assert (Hb0 : zget bs 0 = Some (byte0 (0 <? padding_size_ p) (0 <? extensions_size_ p) cc))
    by (rewrite Hag by lia; done).
  destruct Hfh as [Hpt Hseqr Htsr Hssr Hb1 Hseq Hts Hssrc]. unfold kFixedHeaderSize in Hcap.
  destruct (byte0_facts (0 <? padding_size_ p) (0 <? extensions_size_ p) cc Hcc) as (_ & Ever & Ecc & Epad & Eext & _).
  destruct (byte1_facts (marker_ p) (payload_type_ p) Hpt) as (_ & Em & Ept).
  unfold ParseBuffer. unfold kFixedHeaderSize. rewrite (proj2 (Z.ltb_ge _ _)) by lia.
  apply wp_bind, (wp_mem _ _ _ _ _ Hb0). rewrite Ever, Ecc, Epad, Eext, Z.eqb_refl, !negb_involutive. cbn [negb].
  apply wp_bind, (wp_mem _ _ _ _ _ Hb1). wp_step. wp_step. rewrite Em, Ept.
  apply wp_bind, (wp_mem _ _ _ _ _ (read_u16 _ _ _ Hu Hseqr Hseq)).
  apply wp_bind, (wp_mem _ _ _ _ _ (read_u32 _ _ _ Hu Htsr Hts)).
  apply wp_bind, (wp_mem _ _ _ _ _ (read_u32 _ _ _ Hu Hssr Hssrc)). wp_step. wp_step.
  pose proof (extensions_at_le _ _ _ _ _ Hext) as Hle.
  rewrite (proj2 (Z.ltb_ge _ _)) by lia. wp_step. wp_step. wp_step.
  set (q1 := q <| marker_ := _ |> <| payload_type_ := _ |> <| sequence_number_ := _ |>
    <| timestamp_ := _ |> <| ssrc_ := _ |> <| payload_offset_ := _ |>).
  eapply (wp_mono _ _ (fun _ q' => q' = q1 <| padding_size_ := padding_size_ p |>) _ (fun _ _ => False)); [| |done].
  { unfold is_u8 in Hpad. destruct (Z.ltb_spec 0 (padding_size_ p)).
    - rewrite Hlen. apply wp_bind, (wp_mem _ (padding_size_ p)).
      { rewrite Hag by lia. by apply Hlast. }
      wp_steps. rewrite (proj2 (Z.eqb_neq _ _)) by lia. by wp_steps.
    - replace (padding_size_ p) with 0 by lia. by wp_steps. }
  intros u q2 ->. wp_step. wp_step. wp_step.
  set (q2 := q1 <| padding_size_ := _ |> <| extensions_size_ := 0 |> <| extension_entries_ := [] |>).
  eapply (wp_mono _ _ (fun _ q' => extension_entries_ q' = extension_entries_ p /\
    rest q' = rest (q2 <| payload_offset_ := payload_offset_ p |>)) _ (fun _ _ => False)); [| |done].
  { destruct Hext as [(Hz & He & Hpo)|[two Hblk]].
    - rewrite Hz. cbn [Z.ltb Z.compare]. wp_steps. rewrite He. split; [done|].
      by replace (payload_offset_ p) with (12 + cc * 4) by lia.
    - destruct (parse_ext_block bs cc two _ _ _ q2 (fun _ _ => False) Hblk) as (R1 & R2 & R3 & R4);
        [done|done|lia|unfold packet_size in *; lia|done|done|].
      rewrite (proj2 (Z.ltb_lt _ _)) by apply (eb_size _ _ _ _ _ _ Hblk).
      assert (Hsz : 0 < extensions_size_ p) by apply (eb_size _ _ _ _ _ _ Hblk).
      assert (0 <= (extensions_size_ p + 3) / 4) by (apply Z.div_pos; lia).
      rewrite (proj2 (Z.ltb_ge _ _)) by lia.
      apply wp_bind, (wp_mem _ _ _ _ _ R1). apply wp_bind, (wp_mem _ _ _ _ _ R2).
      rewrite (proj2 (Z.ltb_ge _ _)) by lia. wp_step.
      assert (Hprof : negb (profile_of two =? kOneByteExtensionProfileId) &&
        negb (profile_of two =? kTwoByteExtensionProfileId) = false) by (by destruct two).
      rewrite Hprof. eapply wp_mono; [exact R4| |done]. intros u' q3 [He Hr]. wp_steps. split; [done|].
      rewrite R3. unfold rest, q2, q1 in *. packet. congruence. }
  intros u' q3 [He Hr]. wp_steps.
  assert (Hpo : payload_offset_ q3 = payload_offset_ p /\ padding_size_ q3 = padding_size_ p)
    by (unfold rest, q2, q1 in Hr; packet; split; congruence). destruct Hpo as [Hpo Hpd].
  rewrite Hpo, Hpd, Hlen. unfold packet_size. unfold is_u8 in Hpad. rewrite (proj2 (Z.ltb_ge _ _)) by lia.
  wp_steps. unfold rest, q2, q1 in Hr. split; [done|]. split; [unfold kept; packet; congruence|].
  intros b one Hcon. unfold same_packet. packet. split_and!; first [congruence | exact Hcon | lia].
Qed.

(** Parsing the bytes of a built packet into any packet. *)
Lemma built_parsed p q :
  built p -> wf_packet q ->
  exists q', Parse (R := unit) (rtp_bytes p) q = Next true q' /\ same_packet p q' /\
    extensions_ q' = extensions_ q /\ wf_packet q'.
Proof.
  intros Hb [Hw Hd]. destruct (sent_bytes p Hb) as (Hu & _ & _).
  assert (Hwp : wp (Parse (R := unit) (rtp_bytes p)) q
    (fun ok q' => ok = true /\ same_packet p q' /\ extensions_ q' = extensions_ q /\ wf_packet q') (fun _ _ => False)).
  { unfold Parse. wp_steps. eapply wp_mono; [by apply ParseBuffer_built| |done]; cbv beta.
    intros ok q1 (-> & Hk & Hs). cbn [negb]. wp_steps. unfold kept in Hk. injection Hk as He Hbf Ho.
    unfold data in Hd. rewrite <- Hbf in Hw, Hd.
    destruct (cow_SetData_mem (buffer_ q1) (one_ref_ q1) (rtp_bytes p)) as (b' & E & Hw' & Hu' & Hcon & _); auto.
    eapply on_buffer_wp; [exact E|]. wp_steps. split_and!; [done|by apply Hs|done|by split]. }
  apply wp_run in Hwp as (ok & q' & E & -> & Hs & He & Hq). by exists q'.
Qed.
End roundtrip.
