(* ===== verification/RtpBuild.v ===== *)
(** * The methods that build a packet

    Every method that changes a packet keeps [built], under the conditions its
    [RTC_DCHECK]s state. *)

From S2P Require Import Prelude ByteIo CowBuffer RtpExtMap RtpPacket RtpMem RtpLayout.

Open Scope Z_scope.
Open Scope c_scope.

(** ** Memory *)

Lemma size_solid b one : wf_buffer b -> size_ b <= solid b one.
Proof. unfold wf_buffer, solid. destruct one; lia. Qed.

Lemma wrote_agree b one off bs b' lo hi :
  wrote b one off bs b' -> hi <= solid b one -> hi <= off \/ off + zlen bs <= lo ->
  agree lo hi (data_ b) (data_ b').
Proof. intros Hw Hs Hd i Hi. eapply wrote_out; [exact Hw|lia|lia]. Qed.

Lemma sized_agree b one n b' lo hi :
  wf_buffer b -> sized b one n b' -> hi <= size_ b \/ one = true /\ hi <= capacity_ b -> hi <= n ->
  agree lo hi (data_ b) (data_ b').
Proof.
  intros Hw (_ & _ & _ & _ & Hg) Hs Hn i Hi. apply Hg. unfold wf_buffer in Hw. destruct one; lia.
Qed.

Lemma wrote_read b one off bs b' :
  wrote b one off bs b' -> 0 <= off -> off + zlen bs <= capacity_ b ->
  read_bytes (data_ b') off (zlen bs) = Some bs.
Proof.
  intros Hw H0 Hl. pose proof Hw as (_ & _ & _ & Hc & _). apply read_bytes_spec.
  unfold capacity_ in *. split_and!; [done|done|lia|].
  intros i Hi. rewrite (wrote_in _ _ _ _ _ _ Hw) by lia. f_equal. lia.
Qed.

Lemma wrote_byte b one off v b' : wrote b one off [v] b' -> zget (data_ b') off = Some v.
Proof.
  intros Hw. rewrite (wrote_in _ _ _ _ _ _ Hw) by (rewrite zlen_cons, zlen_nil; lia).
  by rewrite Z.sub_diag.
Qed.

Lemma one_u8 v : Forall is_u8 [u8 v].
Proof. constructor; [apply u8_range|done]. Qed.

Lemma zlen_1 (v : Z) : zlen [v] = 1.
Proof. done. Qed.

(** What is common to the writes inside the size of a packet. *)
Lemma wrote_wf p off bs b' one' :
  built p -> wrote (buffer_ p) (one_ref_ p) off bs b' ->
  wf_packet (p <| buffer_ := b' |> <| one_ref_ := one' |>) /\ capacity_ b' = capacity p /\
  size_ b' = packet_size p /\ zlen (data_ b') = capacity p /\ packet_size p <= solid (buffer_ p) (one_ref_ p).
Proof.
  intros Hb (Hw & Hu & Hs & Hc & _). destruct Hb as [[Hwp _] _ Hsz _ _ _ _ _].
  split_and!; [by split|done|congruence|exact Hc|]. rewrite <- Hsz. by apply size_solid.
Qed.

Section build.
Context `{Alloc}.

(** ** The fixed header *)

Lemma built_header p b' marker pt seq ts ssrc one' :
  built p -> wf_buffer b' -> Forall is_u8 (data_ b') -> size_ b' = packet_size p ->
  capacity_ b' = capacity p ->
  zget (data_ b') 0 = zget (data p) 0 -> agree 12 (packet_size p) (data p) (data_ b') ->
  fixed_header (data_ b') marker pt seq ts ssrc ->
  built (p <| marker_ := marker |> <| payload_type_ := pt |> <| sequence_number_ := seq |>
           <| timestamp_ := ts |> <| ssrc_ := ssrc |> <| buffer_ := b' |> <| one_ref_ := one' |>).
Proof.
  intros Hb Hw Hu Hs Hc H0 Ha Hfh. pose proof (built_bounds p Hb) as Hbd.
  destruct Hb as [Hwf Hcap Hsz Hps Hpad _ (cc & Hcc & Hb0 & Hext) Hlast].
  pose proof (extensions_at_le _ _ _ _ _ Hext) as Hle.
  split; unfold packet_size in *; packet; auto.
  - by split.
  - by rewrite Hc.
  - exists cc. split_and!; [lia|lia|congruence|].
    eapply extensions_at_agree; [| |exact Hext].
    + eapply agree_weaken; [..|exact Ha]; lia.
    + unfold capacity_ in *. lia.
  - intros Hp. rewrite Ha by lia. by apply Hlast.
Qed.

(** A field of the header at [off], of which the bytes are [bs]. *)
Lemma set_header_field {R} p off bs marker pt seq ts ssrc (QR : R -> RtpPacket -> Prop) :
  built p -> 1 <= off -> off + zlen bs <= 12 -> Forall is_u8 bs ->
  (forall d, agree 1 off (data p) d -> agree (off + zlen bs) 12 (data p) d -> 12 <= zlen d ->
     read_bytes d off (zlen bs) = Some bs -> fixed_header d marker pt seq ts ssrc) ->
  wp (WriteAt off bs) (p <| marker_ := marker |> <| payload_type_ := pt |> <| sequence_number_ := seq |>
        <| timestamp_ := ts |> <| ssrc_ := ssrc |>) (fun _ p' => built p') QR.
Proof.
  intros Hb H1 H2 Hbs Hfh. pose proof (built_bounds p Hb) as Hbd. pose proof Hb as [Hwf _ _ _ _ _ _ _].
  pose proof (zlen_nonneg bs).
  apply WriteAt_wp; [exact Hwf|done|lia|packet; lia|]. intros b' Hb'. packet.
  destruct (wrote_wf p _ _ _ true Hb Hb') as ([Hw Hu] & Hc & Hs & Hl & Hsol). packet.
  refine (built_header p b' marker pt seq ts ssrc true Hb Hw Hu Hs Hc _ _ _).
  - eapply wrote_out; [exact Hb'|lia|lia].
  - eapply wrote_agree; [exact Hb'|lia|lia].
  - apply Hfh.
    + eapply wrote_agree; [exact Hb'|lia|lia].
    + eapply wrote_agree; [exact Hb'|lia|lia].
    + lia.
    + eapply wrote_read; [exact Hb'|lia|lia].
Qed.
(** The second byte. *)
Lemma set_byte1 {R} p marker pt (QR : R -> RtpPacket -> Prop) :
  built p -> 0 <= pt < 128 ->
  wp (WriteAt 1 [byte1 marker pt]) (p <| marker_ := marker |> <| payload_type_ := pt |>)
     (fun _ p' => built p') QR.
Proof.
  intros Hb Hpt. destruct (byte1_facts marker pt Hpt) as [Hu1 _]. pose proof (bu_header p Hb) as [].
  apply (set_header_field p 1 [byte1 marker pt] marker pt (sequence_number_ p) (timestamp_ p) (ssrc_ p));
    [done|lia|rewrite zlen_1; lia|by constructor|].
  rewrite zlen_1. intros d _ Ha Hl Hr. split; auto.
  - by apply read_byte.
  - by apply (read_agree 2 12 (data p)); try lia.
  - by apply (read_agree 2 12 (data p)); try lia.
  - by apply (read_agree 2 12 (data p)); try lia.
Qed.

Lemma built_byte1 p : built p -> zget (data p) 1 = Some (byte1 (marker_ p) (payload_type_ p)).
Proof. intros Hb. apply bu_header in Hb as []. done. Qed.

Lemma SetMarker_built {R} p m (QR : R -> RtpPacket -> Prop) :
  built p -> wp (SetMarker m) p (fun _ p' => built p') QR.
Proof.
  intros Hb. pose proof (built_bounds p Hb) as Hbd. pose proof (bu_header p Hb) as [Hpt _ _ _ _ _ _ _].
  pose proof (built_byte1 p Hb) as H1. pose proof (bu_wf p Hb) as Hwf.
  destruct (byte1_set (marker_ p) (payload_type_ p) 0 Hpt ltac:(lia)) as (E1 & E2 & _).
  unfold SetMarker. wp_steps. apply rd_wp; [done|packet; lia|]. intros v _ Hv. packet.
  rewrite H1 in Hv. injection Hv as <-.
  pose proof (set_byte1 p m (payload_type_ p) QR Hb Hpt) as Hw.
  destruct m; [rewrite E1|rewrite E2]; exact Hw.
Qed.

Lemma SetPayloadType_built {R} p pt (QR : R -> RtpPacket -> Prop) :
  built p -> 0 <= pt < 128 -> wp (SetPayloadType pt) p (fun _ p' => built p') QR.
Proof.
  intros Hb Hpt'. pose proof (built_bounds p Hb) as Hbd. pose proof (bu_header p Hb) as [Hpt _ _ _ _ _ _ _].
  pose proof (built_byte1 p Hb) as H1. pose proof (bu_wf p Hb) as Hwf.
  destruct (byte1_set (marker_ p) (payload_type_ p) pt Hpt Hpt') as (_ & _ & E3).
  unfold SetPayloadType. wp_steps. apply rd_wp; [done|packet; lia|]. intros v _ Hv. packet.
  rewrite H1 in Hv. injection Hv as <-. rewrite E3. exact (set_byte1 p (marker_ p) pt QR Hb Hpt').
Qed.


Lemma SetSequenceNumber_built {R} p v (QR : R -> RtpPacket -> Prop) :
  built p -> is_u16 v -> wp (SetSequenceNumber v) p (fun _ p' => built p') QR.
Proof.
  intros Hb Hv. pose proof (bu_header p Hb) as []. unfold SetSequenceNumber, WriteBE. wp_steps.
  apply (set_header_field p 2 (be_bytes 2 v) (marker_ p) (payload_type_ p) v (timestamp_ p) (ssrc_ p));
    [done|lia|rewrite zlen_be_bytes; lia|apply be_bytes_u8|].
  rewrite zlen_be_bytes. intros d Ha1 Ha2 Hl Hr. split; auto.
  - by rewrite (Ha1 1) by lia.
  - by apply (read_agree 4 12 (data p)); try lia.
  - by apply (read_agree 4 12 (data p)); try lia.
Qed.

Lemma SetTimestamp_built {R} p v (QR : R -> RtpPacket -> Prop) :
  built p -> is_u32 v -> wp (SetTimestamp v) p (fun _ p' => built p') QR.
Proof.
  intros Hb Hv. pose proof (bu_header p Hb) as []. unfold SetTimestamp, WriteBE. wp_steps.
  apply (set_header_field p 4 (be_bytes 4 v) (marker_ p) (payload_type_ p) (sequence_number_ p) v (ssrc_ p));
    [done|lia|rewrite zlen_be_bytes; lia|apply be_bytes_u8|].
  rewrite zlen_be_bytes. intros d Ha1 Ha2 Hl Hr. split; auto.
  - by rewrite (Ha1 1) by lia.
  - by apply (read_agree 1 4 (data p)); try lia.
  - by apply (read_agree 8 12 (data p)); try lia.
Qed.

Lemma SetSsrc_built {R} p v (QR : R -> RtpPacket -> Prop) :
  built p -> is_u32 v -> wp (SetSsrc v) p (fun _ p' => built p') QR.
Proof.
  intros Hb Hv. pose proof (bu_header p Hb) as []. unfold SetSsrc, WriteBE. wp_steps.
  apply (set_header_field p 8 (be_bytes 4 v) (marker_ p) (payload_type_ p) (sequence_number_ p) (timestamp_ p) v);
    [done|lia|rewrite zlen_be_bytes; lia|apply be_bytes_u8|].
  rewrite zlen_be_bytes. intros d Ha1 Ha2 Hl Hr. split; auto.
  - by rewrite (Ha1 1) by lia.
  - by apply (read_agree 1 8 (data p)); try lia.
  - by apply (read_agree 1 8 (data p)); try lia.
Qed.

(** ** Payload and padding *)

(** A packet whose bytes up to the payload are as they were, the first one apart. *)
Lemma built_tail p b' ps pad one' :
  built p -> wf_buffer b' -> Forall is_u8 (data_ b') -> capacity_ b' = capacity p ->
  size_ b' = payload_offset_ p + ps + pad -> 0 <= ps -> is_u8 pad ->
  (forall cc, 0 <= cc < 16 ->
     zget (data p) 0 = Some (byte0 (0 <? padding_size_ p) (0 <? extensions_size_ p) cc) ->
     zget (data_ b') 0 = Some (byte0 (0 <? pad) (0 <? extensions_size_ p) cc)) ->
  agree 1 (payload_offset_ p) (data p) (data_ b') ->
  (0 < pad -> zget (data_ b') (payload_offset_ p + ps + pad - 1) = Some pad) ->
  built (p <| payload_size_ := ps |> <| padding_size_ := pad |> <| buffer_ := b' |> <| one_ref_ := one' |>).
Proof.
  intros Hb Hw Hu Hc Hs Hps Hpad H0 Ha Hl. pose proof (built_bounds p Hb) as Hbd.
  destruct Hb as [Hwf Hcap Hsz _ _ Hfh (cc & Hcc & Hb0 & Hext) _].
  pose proof (extensions_at_le _ _ _ _ _ Hext) as Hle.
  assert (Hz : payload_offset_ p <= zlen (data_ b')) by (unfold capacity, capacity_ in *; lia).
  split; unfold packet_size in *; packet; auto.
  - by split.
  - by rewrite Hc.
  - eapply fixed_header_agree; [| |exact Hfh]; [eapply agree_weaken; [..|exact Ha]; lia|lia].
  - exists cc. split; [done|]. split; [by apply H0|].
    eapply extensions_at_agree; [eapply agree_weaken; [..|exact Ha]; lia|done|done].
Qed.

Lemma SetPayloadSize_built {R} p n (QR : R -> RtpPacket -> Prop) :
  built p -> padding_size_ p = 0 -> 0 <= n < 2 ^ 63 ->
  wp (SetPayloadSize n) p
     (fun r p' => built p' /\ padding_size_ p' = 0 /\
        match r with
        | None => p' = p /\ capacity p < payload_offset_ p + n
        | Some o => o = payload_offset_ p /\ payload_size_ p' = n /\
            payload_offset_ p' = payload_offset_ p /\ capacity p' = capacity p /\
            extension_entries_ p' = extension_entries_ p /\
            agree 0 (payload_offset_ p + Z.min (payload_size_ p) n) (data p) (data p')
        end) QR.
Proof.
  intros Hb Hp0 Hn. pose proof (built_bounds p Hb) as Hbd. pose proof Hb as [Hwf [_ Hcap] Hsz Hps _ _ _ _].
  unfold SetPayloadSize, u64. wp_steps. rewrite Z.mod_small by lia.
  destruct (Z.ltb_spec (capacity p) (payload_offset_ p + n)) as [|Hfit]; wp_steps; [done|].
  apply SetSize_wp; [exact Hwf|packet; lia|]. intros b' Hb'. packet.
  pose proof Hb' as (Hw & Hu & Hs & Hc & _). wp_steps.
  assert (Ha : agree 0 (payload_offset_ p + Z.min (payload_size_ p) n) (data_ (buffer_ p)) (data_ b')).
  { eapply sized_agree; [apply Hwf|exact Hb'|left; unfold packet_size in *; lia|lia]. }
  split; [|by packet].
  pose proof (built_tail p b' n (padding_size_ p) true Hb Hw Hu Hc) as Ht. rewrite Hp0 in Ht.
  refine (eq_rect _ (fun z => built (p <| payload_size_ := n |> <| padding_size_ := z |> <| buffer_ := b' |>
    <| one_ref_ := true |>)) (Ht _ _ _ _ _ _) _ (eq_sym Hp0)).
  - lia.
  - lia.
  - unfold is_u8. lia.
  - intros cc Hcc E. rewrite Ha by lia. exact E.
  - eapply agree_weaken; [..|exact Ha]; lia.
  - lia.
Qed.

Lemma AllocatePayload_built {R} p n (QR : R -> RtpPacket -> Prop) :
  built p -> padding_size_ p = 0 -> 0 <= n < 2 ^ 63 ->
  wp (AllocatePayload n) p
     (fun r p' => built p' /\ padding_size_ p' = 0 /\
        forall o, r = Some o -> o = payload_offset_ p' /\ payload_size_ p' = n) QR.
Proof.
  intros Hb Hp0 Hn. unfold AllocatePayload. wp_step.
  eapply wp_mono; [apply SetPayloadSize_built; auto; lia| |done]. cbv beta. intros _ p1 (Hb1 & Hp1 & _).
  eapply wp_mono; [by apply SetPayloadSize_built| |done]. cbv beta. intros r p2 (Hb2 & Hp2 & Hr).
  split_and!; [done|done|]. intros o ->. destruct Hr as (-> & -> & -> & _). done.
Qed.

(** The payload is written through the pointer that was returned. *)
Lemma write_payload_built {R} p bs (QR : R -> RtpPacket -> Prop) :
  built p -> padding_size_ p = 0 -> zlen bs <= payload_size_ p -> Forall is_u8 bs ->
  wp (WriteAt (payload_offset_ p) bs) p (fun _ p' => built p') QR.
Proof.
  intros Hb Hpad Hl Hu. pose proof (built_bounds p Hb) as Hbd. pose proof Hb as [Hwf _ Hsz Hps Hpu _ _ _].
  pose proof (zlen_nonneg bs). apply WriteAt_wp; [done|done|lia|lia|]. intros b' Hb'.
  destruct (wrote_wf p _ _ _ true Hb Hb') as ([Hw Hd] & Hc & Hs & Hz & Hsol).
  pose proof (wrote_agree _ _ _ _ _ 0 (payload_offset_ p) Hb' ltac:(lia) ltac:(lia)) as Ha.
  pose proof (built_tail p b' (payload_size_ p) (padding_size_ p) true Hb Hw Hd Hc) as Ht.
  apply Ht; clear Ht; auto.
  - intros cc _ Hz0. rewrite (Ha 0) by lia. exact Hz0.
  - eapply agree_weaken; [..|exact Ha]; lia.
  - lia.
Qed.

Lemma SetPadding_built {R} p n (QR : R -> RtpPacket -> Prop) :
  built p -> is_u8 n ->
  wp (SetPadding n) p
     (fun r p' => built p' /\ if r : bool then padding_size_ p' = n else p' = p) QR.
Proof.
  intros Hb Hn. pose proof (built_bounds p Hb) as Hbd. pose proof Hb as [Hwf [_ Hcap] Hsz Hps _ _ Hbytes _].
  destruct Hbytes as (cc & Hcc & Hb0 & _).
  destruct (byte0_facts (0 <? padding_size_ p) (0 <? extensions_size_ p) cc Hcc) as (_ & _ & _ & _ & _ & _ & Eset & Eclr).
  assert (Hcceq : forall cc', 0 <= cc' < 16 ->
    zget (data p) 0 = Some (byte0 (0 <? padding_size_ p) (0 <? extensions_size_ p) cc') -> cc' = cc).
  { intros cc' Hcc' E. rewrite Hb0 in E. unfold byte0 in E. injection E. lia. }
  unfold SetPadding, u64. wp_steps. unfold is_u8 in Hn. rewrite Z.mod_small by lia.
  destruct (Z.ltb_spec (capacity p) (payload_offset_ p + payload_size_ p + n)) as [|Hfit]; wp_steps; [done|].
  rewrite (u8_id n) by clia. apply SetSize_wp; [exact Hwf|packet; lia|]. intros b1 Hb1. packet.
  pose proof Hb1 as (Hw1 & Hu1 & Hs1 & Hc1 & _).
  assert (Ha1 : agree 0 (payload_offset_ p + payload_size_ p) (data_ (buffer_ p)) (data_ b1)).
  { eapply sized_agree; [apply Hwf|exact Hb1|left; lia|lia]. }
  destruct (Z.ltb_spec 0 n) as [Hpos|Hzero]; wp_steps.
  - apply WriteAt_wp; [by split|apply zeros_u8|lia|packet; rewrite zlen_replicate; lia|]. intros b2 Hb2.
    pose proof Hb2 as (Hw2 & Hu2 & Hs2 & Hc2 & _). packet. wp_steps.
    apply WriteAt_wp; [by split|constructor; [unfold is_u8; lia|done]|lia|packet; rewrite zlen_1; lia|].
    intros b3 Hb3. pose proof Hb3 as (Hw3 & Hu3 & Hs3 & Hc3 & _). packet. wp_steps.
    assert (Ha3 : agree 0 (payload_offset_ p + payload_size_ p) (data_ (buffer_ p)) (data_ b3)).
    { eapply agree_trans; [exact Ha1|]. eapply agree_trans.
      - eapply wrote_agree; [exact Hb2|cbn; lia|lia].
      - eapply wrote_agree; [exact Hb3|cbn; lia|lia]. }
    apply rd_wp; [by split|packet; lia|]. intros v _ Hv. packet. rewrite Ha3, Hb0 in Hv by lia. injection Hv as <-.
    wp_steps. rewrite Eset.
    apply WriteAt_wp; [by split| |lia|packet; rewrite zlen_1; lia|].
    { constructor; [|done]. rewrite <- Eset. apply u8_range. }
    intros b4 Hb4. pose proof Hb4 as (Hw4 & Hu4 & Hs4 & Hc4 & _). packet. wp_steps. split; [|done].
    refine (built_tail p b4 (payload_size_ p) n true Hb Hw4 Hu4 _ _ Hps Hn _ _ _); packet; try lia.
    + intros cc' Hcc' E. rewrite (Hcceq cc' Hcc' E), (proj2 (Z.ltb_lt 0 n)) by lia. by apply wrote_byte in Hb4.
    + eapply agree_weaken with (lo' := 1) (hi' := payload_offset_ p + payload_size_ p); [lia|lia|].
      eapply agree_trans; [eapply agree_weaken; [..|exact Ha3]; lia|].
      eapply wrote_agree; [exact Hb4|cbn; lia|rewrite zlen_1; lia].
    + intros _. rewrite (wrote_out _ _ _ _ _ _ Hb4) by (rewrite ?zlen_1; cbn; lia). by apply wrote_byte in Hb3.
  - assert (n = 0) as -> by lia. apply rd_wp; [by split|packet; lia|]. intros v _ Hv. packet.
    rewrite Ha1, Hb0 in Hv by lia. injection Hv as <-. wp_steps. rewrite Eclr.
    apply WriteAt_wp; [by split| |lia|packet; rewrite zlen_1; lia|].
    { constructor; [|done]. rewrite <- Eclr. apply u8_range. }
    intros b4 Hb4. pose proof Hb4 as (Hw4 & Hu4 & Hs4 & Hc4 & _). packet. wp_steps. split; [|done].
    refine (built_tail p b4 (payload_size_ p) 0 true Hb Hw4 Hu4 _ _ Hps Hn _ _ _); packet; try lia.
    + intros cc' Hcc' E. rewrite (Hcceq cc' Hcc' E). by apply wrote_byte in Hb4.
    + eapply agree_trans; [eapply agree_weaken; [..|exact Ha1]; lia|].
      eapply wrote_agree; [exact Hb4|cbn; lia|rewrite zlen_1; lia].
Qed.

(** ** Contributing sources *)

Lemma write_csrcs_wp {R} csrcs off p (QR : R -> RtpPacket -> Prop) :
  wf_packet p -> one_ref_ p = true -> 0 <= off -> off + 4 * zlen csrcs <= capacity p ->
  wp (write_csrcs csrcs off) p
     (fun _ p' => exists b', p' = p <| buffer_ := b' |> <| one_ref_ := true |> /\ wf_packet p' /\
        size_ b' = size_ (buffer_ p) /\ capacity_ b' = capacity p /\
        agree 0 off (data p) (data_ b') /\
        forall i c, csrcs !! i = Some c -> read_bytes (data_ b') (off + 4 * Z.of_nat i) 4 = Some (be_bytes 4 c)) QR.
Proof.
  revert off p. induction csrcs as [|c csrcs IH]; intros off p Hwf Ho H0 Hl; cbn [write_csrcs].
  - wp_steps. exists (buffer_ p). split_and!; try done.
    destruct p. cbn in Ho. subst. done.
  - rewrite zlen_cons in Hl. pose proof (zlen_nonneg csrcs). unfold WriteBE. wp_steps.
    apply WriteAt_wp; [done|apply be_bytes_u8|done|rewrite zlen_be_bytes; lia|]. intros b1 Hb1.
    pose proof Hb1 as (Hw1 & Hu1 & Hs1 & Hc1 & _). rewrite Ho in Hb1.
    eapply wp_mono; [apply IH| |done]; [by split|done|lia|packet; lia|].
    intros u p' (b' & -> & Hwf' & Hs' & Hc' & Ha' & Hr'). exists b'. packet.
    split_and!; [done|done|congruence|congruence| |].
    + eapply agree_trans; [eapply wrote_agree; [exact Hb1|cbn; lia|lia]|].
      eapply agree_weaken; [..|exact Ha']; lia.
    + intros [|i] c' Hi.
      * cbn in Hi. simplify_eq. rewrite Z.add_0_r. pose proof (wrote_read _ _ _ _ _ Hb1) as Hrd.
        rewrite zlen_be_bytes in Hrd. destruct Hwf' as [Hwb _]. packet.
        eapply (read_agree 0 (off + 4)); [exact Ha'|lia|lia|unfold capacity_ in *; lia|]. apply Hrd; lia.
      * cbn in Hi. replace (off + 4 * Z.of_nat (S i)) with (off + 4 + 4 * Z.of_nat i) by lia. by apply Hr'.
Qed.

Lemma read_csrcs_spec p csrcs off :
  Forall is_u8 (data p) -> Forall is_u32 csrcs ->
  (forall i c, csrcs !! i = Some c -> read_bytes (data p) (off + 4 * Z.of_nat i) 4 = Some (be_bytes 4 c)) ->
  read_csrcs p (length csrcs) off = Some csrcs.
Proof.
  intros Hu Hcs. revert off. induction Hcs as [|c cs Hc Hcs IH]; intros off Hread; cbn [read_csrcs length]; [done|].
  assert (Hrd : ReadBigEndian 4 (data p) off = Some c).
  { specialize (Hread 0%nat c eq_refl). rewrite Z.add_0_r in Hread.
    rewrite (ReadBigEndian_bytes 4 _ _ c Hu Hread). f_equal. by apply Z.mod_small. }
  rewrite Hrd. cbn [mbind option_bind]. rewrite IH; [done|]. intros i c' Hi.
  replace (off + 4 + 4 * Z.of_nat i) with (off + 4 * Z.of_nat (S i)) by lia. by apply Hread.
Qed.

Lemma SetCsrcs_built {R} p csrcs (QR : R -> RtpPacket -> Prop) :
  built p -> extensions_size_ p = 0 -> payload_size_ p = 0 -> padding_size_ p = 0 ->
  zlen csrcs <= 15 -> Forall is_u32 csrcs -> kFixedHeaderSize + 4 * zlen csrcs <= capacity p ->
  wp (SetCsrcs csrcs) p (fun _ p' => built p' /\ Csrcs p' = Some csrcs) QR.
Proof.
  intros Hb He Hps Hpad Hn Hcs Hfit. pose proof (built_bounds p Hb) as Hbd. pose proof (zlen_nonneg csrcs).
  unfold kFixedHeaderSize in Hfit. destruct Hb as [Hwf Hcap Hsz _ _ Hfh (cc & Hcc & Hb0 & Hext) _].
  rewrite He, Hpad in Hb0. cbn [Z.ltb Z.compare] in Hb0.
  destruct Hext as [(_ & Hes & _)|[two Hblk]]; [|pose proof (eb_size _ _ _ _ _ _ Hblk); lia].
  unfold SetCsrcs, kFixedHeaderSize. wp_steps. apply rd_wp; [done|packet; lia|]. intros v _ Hv. packet.
  rewrite Hb0 in Hv. injection Hv as <-. wp_steps. rewrite byte0_csrcs by lia.
  destruct (byte0_facts false false (zlen csrcs) ltac:(lia)) as (Hu0 & _ & Ecc & _).
  apply WriteAt_wp; [done|by constructor|lia|packet; rewrite zlen_1; lia|]. intros b1 Hb1.
  pose proof Hb1 as (Hw1 & Hu1 & Hs1 & Hc1 & _). packet. wp_step.
  eapply wp_mono; [apply write_csrcs_wp; [by split|done|lia|packet; lia]| |done].
  intros u p2 (b2 & -> & Hwf2 & Hs2 & Hc2 & Ha2 & Hr2). packet. wp_steps. packet.
  apply SetSize_wp; [exact Hwf2|packet; lia|]. intros b3 Hb3. pose proof Hb3 as (Hw3 & Hu3 & Hs3 & Hc3 & _). packet.
  assert (Ha3 : agree 0 (12 + 4 * zlen csrcs) (data_ b2) (data_ b3)).
  { eapply sized_agree; [apply Hwf2|exact Hb3|right; lia|lia]. }
  assert (Hz3 : zlen (data_ b3) = capacity_ (buffer_ p)) by (unfold capacity_ in *; lia).
  assert (H0' : zget (data_ b3) 0 = Some (byte0 false false (zlen csrcs))).
  { rewrite Ha3, Ha2 by lia. by apply wrote_byte in Hb1. }
  unfold wf_packet in Hwf. packet. pose proof (size_solid _ (one_ref_ p) (proj1 Hwf)).
  split.
  - split; unfold packet_size in *; packet.
    + by split.
    + by rewrite Hc3, Hc2, Hc1.
    + lia.
    + lia.
    + rewrite Hpad. unfold is_u8. lia.
    + eapply fixed_header_agree; [|lia|exact Hfh].
      eapply agree_trans; [eapply wrote_agree; [exact Hb1|lia|rewrite zlen_1; lia]|].
      eapply agree_trans; [eapply agree_weaken; [..|exact Ha2]; lia|eapply agree_weaken; [..|exact Ha3]; lia].
    + exists (zlen csrcs). rewrite He, Hpad. split_and!; [lia|lia|done|]. left. split_and!; done.
    + lia.
  - unfold Csrcs, data. cbn [set buffer_]. rewrite H0'. cbn [mbind option_bind]. rewrite Ecc.
    unfold zlen. rewrite Nat2Z.id.
    assert (Hread : forall i c, csrcs !! i = Some c ->
      read_bytes (data_ b3) (12 + 4 * Z.of_nat i) 4 = Some (be_bytes 4 c)).
    { intros i c Hi. assert (Z.of_nat i < zlen csrcs) by (apply lookup_lt_Some in Hi; unfold zlen; lia).
      eapply (read_agree 0 (12 + 4 * zlen csrcs)); [exact Ha3|lia|lia|lia|by apply Hr2]. }
    by apply read_csrcs_spec.
Qed.

(** ** Whole headers *)

Lemma content_agree b : wf_buffer b -> agree 0 (size_ b) (content b) (data_ b).
Proof. intros Hb i Hi. symmetry. by apply zget_content. Qed.

(** A packet that consists of a header, whose bytes are those of [d]. *)
Lemma built_of_header p d cc :
  wf_packet p -> kFixedHeaderSize <= capacity p <= 65535 ->
  rtp_bytes p = d -> zlen d = payload_offset_ p -> payload_size_ p = 0 -> padding_size_ p = 0 ->
  fixed_header d (marker_ p) (payload_type_ p) (sequence_number_ p) (timestamp_ p) (ssrc_ p) ->
  0 <= cc < 16 -> zget d 0 = Some (byte0 false (0 <? extensions_size_ p) cc) ->
  extensions_at d cc (extensions_size_ p) (extension_entries_ p) (payload_offset_ p) -> built p.
Proof.
  intros [Hw Hu] Hc <- Hl Hps Hpad Hfh Hcc H0 Hext. unfold rtp_bytes in *.
  rewrite zlen_content in Hl by done. pose proof (content_agree _ Hw) as Ha.
  pose proof (extensions_at_le _ _ _ _ _ Hext) as Hle.
  assert (Hz : size_ (buffer_ p) <= zlen (data p)) by (unfold wf_buffer, capacity_, data in *; lia).
  split; unfold packet_size; rewrite ?Hps, ?Hpad; try done.
  - lia.
  - eapply fixed_header_agree; [eapply agree_weaken; [..|exact Ha]; lia|lia|done].
  - exists cc. split; [done|]. split; [unfold data; rewrite Ha by lia; done|].
    eapply extensions_at_agree; [eapply agree_weaken; [..|exact Ha]; lia|lia|done].
Qed.

Lemma cleared_built p p' :
  cleared p p' -> kFixedHeaderSize <= capacity p <= 65535 -> built p'.
Proof.
  intros (Hwf & H1 & H2 & H3 & H4 & H5 & H6 & H7 & H8 & H9 & H10 & _ & Hc & _ & Hb) Hr.
  eapply (built_of_header p' _ 0); [done|by rewrite Hc|exact Hb|by rewrite H6|done|done| | | |].
  - rewrite H1, H2, H3, H4, H5. split; try reflexivity; unfold is_u16, is_u32; lia.
  - lia.
  - by rewrite H9.
  - rewrite H6, H9, H10. by left.
Qed.

Lemma Clear_built {R} p (QR : R -> RtpPacket -> Prop) :
  wf_packet p -> kFixedHeaderSize <= capacity p <= 65535 ->
  wp Clear p (fun _ p' => built p') QR.
Proof.
  intros Hwf Hc. eapply wp_mono; [apply Clear_wp; [done|lia]| |done].
  intros u p' Hcl. by apply (cleared_built p).
Qed.

Lemma CopyHeaderFrom_built {R} p q (QR : R -> RtpPacket -> Prop) :
  built p -> built q -> padding_size_ q = 0 -> headers_size q <= capacity p ->
  wp (CopyHeaderFrom q) p (fun _ p' => built p' /\ extensions_ p' = extensions_ q) QR.
Proof.
  intros Hp Hq Hpad Hfit. pose proof (built_bounds q Hq) as Hbd.
  destruct Hp as [[Hw Hu] Hcap _ _ _ _ _ _]. destruct Hq as [[Hwq Huq] _ _ _ _ Hfh (cc & Hcc & H0 & Hext) _].
  pose proof (extensions_at_le _ _ _ _ _ Hext) as Hle.
  unfold headers_size in Hfit. unfold CopyHeaderFrom, headers_size. wp_steps.
  set (d := take (Z.to_nat (payload_offset_ q)) (drop (Z.to_nat 0) (data q))).
  assert (Hd : read_bytes (data q) 0 (payload_offset_ q) = Some d)
    by (apply read_bytes_Some; unfold capacity, capacity_, data in *; lia).
  apply (wp_mem _ d); [done|]. pose proof (read_bytes_Forall _ _ _ _ _ Huq Hd) as Hdu.
  apply read_bytes_spec in Hd as (_ & Hdl & _ & Hdg).
  assert (Ha : agree 0 (payload_offset_ q) (data q) d) by (intros i Hi; by rewrite Hdg).
  clearbody d. wp_steps.
  destruct (cow_SetData_mem (buffer_ p) (one_ref_ p) d) as (b' & E & Hw' & Hu' & Hcon & Hcp & _); auto.
  eapply on_buffer_wp; [exact E|]. packet. wp_steps. split; [|done].
  eapply (built_of_header _ d cc); packet; try done.
  - rewrite Hcp by lia. done.
  - eapply fixed_header_agree; [eapply agree_weaken; [..|exact Ha]; lia|lia|exact Hfh].
  - rewrite Ha by lia. rewrite H0, Hpad. done.
  - eapply extensions_at_agree; [eapply agree_weaken; [..|exact Ha]; lia|lia|exact Hext].
Qed.
End build.
