(* ===== verification/RtpExtend.v ===== *)
(** * Adding header extensions to a packet

    [AllocateRawExtension] keeps [built], finds or appends the extension, and
    keeps the bytes of the others, also when it has to rewrite the block with
    two-byte headers. *)

From S2P Require Import Prelude ByteIo CowBuffer RtpExtMap RtpPacket RtpMem RtpLayout RtpBuild.

Open Scope Z_scope.
Open Scope c_scope.

(** ** Entries that keep their bytes *)

Definition same_value (d d' : list Z) (e e' : ExtensionInfo) : Prop :=
  ei_id e' = ei_id e /\ ei_length e' = ei_length e /\
  read_bytes d' (ei_offset e') (ei_length e) = read_bytes d (ei_offset e) (ei_length e).

Definition moved (d d' : list Z) (es es' : list ExtensionInfo) : Prop := Forall2 (same_value d d') es es'.

Lemma moved_ids d d' es es' : moved d d' es es' -> map ei_id es' = map ei_id es.
Proof. induction 1 as [|e e' es es' (He & _) _ IH]; cbn; [done|]. by rewrite He, IH. Qed.

(** Reading where two blocks of the same size agree. *)
Lemma read_same lo hi d d' o n :
  agree lo hi d d' -> lo <= o -> o + n <= hi -> hi <= zlen d -> hi <= zlen d' -> 0 <= o -> 0 <= n ->
  read_bytes d' o n = read_bytes d o n.
Proof.
  intros Ha Hlo Hhi Hd Hd' Ho Hn. pose proof (read_bytes_Some d o n Ho Hn ltac:(lia)) as Hr.
  rewrite Hr. eapply (read_agree lo hi d d'); [done..|lia|exact Hr].
Qed.

Lemma moved_agree d d' two pos es fin :
  laid d two pos es fin -> agree pos fin d d' -> 0 <= pos -> fin <= zlen d -> fin <= zlen d' ->
  moved d d' es es.
Proof.
  intros Hl Ha Hp Hd Hd'. apply Forall_Forall2_diag, list.Forall_forall. intros e He.
  destruct (laid_entry _ _ _ _ _ _ Hl He) as (pos' & H1 & H2 & H3). apply entry_at_bounds in H2.
  split; [done|]. split; [done|]. eapply (read_same pos fin); [done|lia..].
Qed.

Lemma moved_trans d1 d2 d3 es1 es2 es3 : moved d1 d2 es1 es2 -> moved d2 d3 es2 es3 -> moved d1 d3 es1 es3.
Proof.
  intros H. revert es3. induction H as [|e1 e2 es1 es2 (Hi & Hl & Hr) _ IH]; intros es3 H3.
  - inversion H3. constructor.
  - inversion H3 as [|? e3 ? es3' (Hi' & Hl' & Hr')]. subst. constructor; [|by apply IH].
    split_and!; [congruence|congruence|]. rewrite Hl in Hr'. congruence.
Qed.

Section extend.
Context `{Alloc}.

(** ** Promotion *)

(** What a sequence of writes to the buffer of [p] leaves. *)
Definition rewritten (p p' : RtpPacket) (b' : Buffer) : Prop :=
  p' = p <| buffer_ := b' |> <| one_ref_ := true |> /\ wf_packet p' /\
  size_ b' = size_ (buffer_ p) /\ capacity_ b' = capacity p.

Lemma rewritten_wrote p off bs b' :
  wrote (buffer_ p) (one_ref_ p) off bs b' ->
  rewritten p (p <| buffer_ := b' |> <| one_ref_ := true |>) b'.
Proof. intros (Hw & Hu & Hs & Hc & _). by split. Qed.

Lemma rewritten_trans p p1 p2 b1 b2 : rewritten p p1 b1 -> rewritten p1 p2 b2 -> rewritten p p2 b2.
Proof.
  intros (-> & _ & Hs1 & Hc1) (-> & Hw2 & Hs2 & Hc2). packet.
  split_and!; [done|done|congruence|unfold capacity; congruence].
Qed.

(** Moving one entry by [delta] and writing its new header. *)
Lemma promote_entry_wp {R} e delta p (QR : R -> RtpPacket -> Prop) :
  wf_packet p -> 1 <= delta -> 1 <= ei_offset e -> 1 <= ei_length e <= 255 -> 1 <= ei_id e <= 255 ->
  ei_offset e + ei_length e <= solid (buffer_ p) (one_ref_ p) ->
  ei_offset e + delta + ei_length e <= capacity p -> ei_offset e + delta <= 65535 ->
  wp (promote_entry e delta) p
     (fun e' p' => exists b', rewritten p p' b' /\
        e' = mkInfo (ei_id e) (ei_length e) (ei_offset e + delta) /\
        entry_at (data_ b') true (ei_offset e + delta - 2) e' /\ same_value (data p) (data_ b') e e' /\
        agree 0 (Z.min (ei_offset e + delta - 2) (solid (buffer_ p) (one_ref_ p))) (data p) (data_ b') /\
        agree (ei_offset e + delta + ei_length e) (solid (buffer_ p) (one_ref_ p)) (data p) (data_ b')) QR.
Proof.
  intros Hwf Hd Ho Hl Hi Hsol Hcap Hmax. unfold promote_entry. wp_steps.
  assert (Hsz : solid (buffer_ p) (one_ref_ p) <= zlen (data p)).
  { destruct Hwf as [[_ ?] _]. unfold solid, data, capacity_ in *. destruct (one_ref_ p); lia. }
  pose proof (read_bytes_Some (data p) (ei_offset e) (ei_length e) ltac:(lia) ltac:(lia) ltac:(lia)) as Hr.
  set (bs := take _ _) in Hr. clearbody bs. apply (wp_mem _ _ _ _ _ Hr).
  pose proof (proj2 Hwf) as Hu. pose proof (read_bytes_Forall _ _ _ _ _ Hu Hr) as Hbs.
  assert (Hbl : zlen bs = ei_length e) by (apply read_bytes_spec in Hr; tauto).
  wp_steps. apply WriteAt_wp; [done|done|lia|lia|]. intros b1 Hb1.
  pose proof (rewritten_wrote _ _ _ _ Hb1) as Hrw1. pose proof Hrw1 as (_ & Hwf1 & Hs1 & Hc1). wp_steps.
  apply WriteAt_wp; [done|constructor; [unfold is_u8; lia|done]|lia|packet; rewrite zlen_1; lia|]. intros b2 Hb2.
  pose proof (rewritten_trans _ _ _ _ _ Hrw1 (rewritten_wrote _ _ _ _ Hb2)) as Hrw2.
  pose proof Hrw2 as (_ & Hwf2 & Hs2 & Hc2). wp_steps.
  apply WriteAt_wp; [exact Hwf2|constructor; [unfold is_u8; lia|done]|lia|packet; rewrite zlen_1; lia|]. intros b3 Hb3.
  pose proof (rewritten_trans _ _ _ _ _ Hrw2 (rewritten_wrote _ _ _ _ Hb3)) as Hrw3.
  pose proof Hrw3 as (_ & _ & Hs3 & Hc3). wp_steps. packet.
  exists b3. split; [exact Hrw3|].
  change (e <| ei_offset := u16 (ei_offset e + delta) |>) with
    (mkInfo (ei_id e) (ei_length e) (u16 (ei_offset e + delta))). rewrite u16_id by clia.
  assert (Hz : zlen (data_ b3) = capacity p) by (unfold capacity, capacity_ in *; lia). packet.
  split; [done|]. unfold entry_at, same_value, hdr_len. cbn [ei_id ei_length ei_offset]. split_and!; try lia.
  - by apply wrote_byte in Hb3.
  - rewrite (wrote_out _ _ _ _ _ _ Hb3) by (cbn; rewrite ?zlen_1; lia).
    replace (ei_offset e + delta - 2 + 1) with (ei_offset e + delta - 1) by lia. by apply wrote_byte in Hb2.
  - rewrite Hr. pose proof (wrote_read _ _ _ _ _ Hb1) as Hr1. rewrite Hbl in Hr1.
    eapply (read_agree (ei_offset e + delta) (ei_offset e + delta + ei_length e) (data_ b1)); [|lia..|apply Hr1; lia].
    eapply agree_trans; [eapply wrote_agree; [exact Hb2|cbn; lia|rewrite zlen_1; lia]|].
    eapply wrote_agree; [exact Hb3|cbn; lia|rewrite zlen_1; lia].
  - eapply agree_trans; [eapply wrote_agree; [exact Hb1|lia|lia]|].
    eapply agree_trans; [eapply wrote_agree; [exact Hb2|cbn; lia|lia]|].
    eapply wrote_agree; [exact Hb3|cbn; lia|lia].
  - eapply agree_trans; [eapply wrote_agree; [exact Hb1|lia|lia]|].
    assert (solid (buffer_ p) (one_ref_ p) <= capacity_ (buffer_ p)).
    { destruct Hwf as [[_ ?] _]. unfold solid. destruct (one_ref_ p); lia. }
    eapply agree_trans; [eapply wrote_agree; [exact Hb2|cbn; lia|rewrite zlen_1; lia]|].
    eapply wrote_agree; [exact Hb3|cbn; lia|rewrite zlen_1; lia].
Qed.

(** The loop from the last entry to the first. *)
Lemma promote_loop_wp {R} es pos fin p (QR : R -> RtpPacket -> Prop) :
  wf_packet p -> laid (data p) false pos es fin -> 0 <= pos ->
  fin <= solid (buffer_ p) (one_ref_ p) -> fin + Z.of_nat (length es) <= capacity p <= 65535 ->
  wp (promote_loop (rev es) (Z.of_nat (length es))) p
     (fun r p' => exists b', (es = [] /\ p' = p /\ b' = buffer_ p \/ rewritten p p' b') /\
        laid (data_ b') true pos (rev r) (fin + Z.of_nat (length es)) /\
        moved (data p) (data_ b') es (rev r) /\ agree 0 pos (data p) (data_ b') /\
        agree (fin + Z.of_nat (length es)) (solid (buffer_ p) (one_ref_ p)) (data p) (data_ b')) QR.
Proof.
  revert fin p. induction es as [|e es IH] using rev_ind; intros fin p Hwf Hl Hpos Hsol Hcap.
  - cbn. wp_steps. cbn in Hl. subst. exists (buffer_ p). rewrite Z.add_0_r.
    split_and!; [by left|done|constructor|done|done].
  - rewrite rev_app_distr, length_app. cbn [rev app length promote_loop].
    rewrite length_app in Hcap. cbn [length] in Hcap. set (n := Z.of_nat (length es)) in *.
    replace (Z.of_nat (length es + 1)) with (n + 1) in * by lia.
    apply laid_app in Hl as (mid & Hles & He & Hfin). cbn [laid] in Hfin. subst fin. pose proof (entry_at_bounds _ _ _ _ He) as Hb.
    pose proof (laid_le _ _ _ _ _ Hles) as Hle. destruct He as (Ho & Hmax & Hid & Hlen & Hhd). cbn [hdr_len] in Ho.
    assert (Hsc : solid (buffer_ p) (one_ref_ p) <= capacity p).
    { destruct Hwf as [[_ ?] _]. unfold solid, capacity. destruct (one_ref_ p); lia. }
    wp_step. eapply wp_mono; [apply promote_entry_wp; try lia; done| |done].
    intros e' p1 (b1 & Hrw1 & -> & He1 & Hv1 & Ha1 & Ha1'). pose proof Hrw1 as (Hp1 & Hwf1 & Hs1 & Hc1).
    assert (Hsol1 : solid (buffer_ p1) (one_ref_ p1) = capacity p) by (rewrite Hp1; exact Hc1).
    assert (Hd1 : data p1 = data_ b1) by (by rewrite Hp1).
    wp_step. replace (n + 1 - 1) with n by lia.
    eapply wp_mono; [apply (IH mid p1)| |done].
    + done.
    + rewrite Hd1. eapply laid_agree; [|exact Hles]. eapply agree_weaken; [..|exact Ha1]; lia.
    + done.
    + lia.
    + unfold capacity in *. rewrite Hp1. packet. lia.
    + intros r p2 (b2 & Hrw2 & Hl2 & Hm2 & Ha2 & Ha2'). wp_steps. rewrite Hd1 in *. rewrite Hsol1 in *.
      assert (Hrw : rewritten p p2 b2).
      { destruct Hrw2 as [(_ & -> & ->)|Hrw2]; [by rewrite Hp1 in *|by eapply rewritten_trans]. }
      pose proof Hrw as (_ & _ & _ & Hc2). exists b2. split; [by right|].
      assert (Hz : zlen (data_ b1) = capacity p /\ zlen (data_ b2) = capacity p)
        by (unfold capacity, capacity_ in *; lia). destruct Hz as [Hz1 Hz2].
      cbn [rev]. split_and!.
      * apply laid_app. exists (mid + n). split; [exact Hl2|]. cbn [laid ei_offset ei_length]. split; [|lia].
        eapply entry_at_agree; [|]; [|replace (mid + n) with (ei_offset e + (n + 1) - 2) by lia; exact He1].
        cbn [ei_offset]. eapply agree_weaken; [..|exact Ha2']; lia.
      * apply Forall2_app; [eapply moved_trans; [|exact Hm2]|].
        -- eapply moved_agree; [exact Hles| | |..]; [eapply agree_weaken; [..|exact Ha1]; lia|lia| |lia].
           unfold capacity, capacity_, data in *. lia.
        -- constructor; [|constructor]. destruct Hv1 as (_ & _ & Hv1). split_and!; [done|done|].
           cbn [ei_offset] in *. rewrite <- Hv1.
           eapply (read_same (mid + n) (capacity p)); [exact Ha2'|lia..].
      * eapply agree_trans; [eapply agree_weaken; [..|exact Ha1]; lia|exact Ha2].
      * eapply agree_trans; [eapply agree_weaken; [..|exact Ha1']; lia|eapply agree_weaken; [..|exact Ha2']; lia].
Qed.

(** ** The length of the block and its padding *)

(** A packet whose block of extensions is written but for its length and
    padding. *)
Record draft (p : RtpPacket) (cc : Z) (two : bool) : Prop := {
  dr_wf : wf_packet p;
  dr_one : one_ref_ p = true;
  dr_capacity : capacity p mod 4 = 0 /\ kFixedHeaderSize <= capacity p <= 65535;
  dr_tail : payload_size_ p = 0 /\ padding_size_ p = 0;
  dr_header : fixed_header (data p) (marker_ p) (payload_type_ p) (sequence_number_ p) (timestamp_ p) (ssrc_ p);
  dr_cc : 0 <= cc < 16;
  dr_byte0 : zget (data p) 0 = Some (byte0 false true cc);
  dr_size : 0 < extensions_size_ p;
  dr_profile : read_bytes (data p) (12 + 4 * cc) 2 = Some (be_bytes 2 (profile_of two));
  dr_laid : laid (data p) two (16 + 4 * cc) (extension_entries_ p) (16 + 4 * cc + extensions_size_ p);
  dr_nodup : NoDup (map ei_id (extension_entries_ p));
  dr_room : 16 + 4 * cc + extensions_size_ p <= capacity p;
}.

Lemma words_bounds size : 0 < size -> size <= 4 * ((size + 3) / 4) < size + 4.
Proof. intros Hs. Z.div_mod_to_equations. lia. Qed.

Lemma room_for_padding cc size cap :
  0 < size -> cap mod 4 = 0 -> 16 + 4 * cc + size <= cap -> 16 + 4 * cc + 4 * ((size + 3) / 4) <= cap.
Proof. intros. Z.div_mod_to_equations. lia. Qed.

(** The length is written and the rest of the last word is zero. *)
Lemma SetExtensionLength_wp {R} p cc two (QR : R -> RtpPacket -> Prop) :
  draft p cc two ->
  wp (SetExtensionLengthMaybeAddZeroPadding (16 + 4 * cc)) p
     (fun r p' => r = 4 * ((extensions_size_ p + 3) / 4) /\ exists b', rewritten p p' b' /\
        read_bytes (data_ b') (14 + 4 * cc) 2 = Some (be_bytes 2 ((extensions_size_ p + 3) / 4)) /\
        (forall i, 16 + 4 * cc + extensions_size_ p <= i < 16 + 4 * cc + r -> zget (data_ b') i = Some 0) /\
        agree 0 (14 + 4 * cc) (data p) (data_ b') /\
        agree (16 + 4 * cc) (16 + 4 * cc + extensions_size_ p) (data p) (data_ b')) QR.
Proof.
  intros [Hwf Ho [Hm Hcap] _ _ Hcc _ Hs _ _ _ Hroom]. pose proof (words_bounds _ Hs) as Hwb.
  pose proof (room_for_padding _ _ _ Hs Hm Hroom) as Hpad.
  unfold SetExtensionLengthMaybeAddZeroPadding, WriteBE. wp_steps.
  set (es := extensions_size_ p) in *. set (w := (es + 3) / 4) in *.
  rewrite (u16_id w) by clia. unfold u64. rewrite (u16_id (4 * w)), (Z.mod_small (4 * w - es)) by clia.
  apply WriteAt_wp; [done|apply be_bytes_u8|lia|rewrite zlen_be_bytes; lia|]. intros b1 Hb1.
  pose proof (rewritten_wrote _ _ _ _ Hb1) as Hrw1. pose proof Hrw1 as (_ & Hwf1 & _ & Hc1). rewrite Ho in Hb1.
  wp_steps. apply WriteAt_wp; [done|apply zeros_u8|lia|rewrite zlen_replicate; packet; lia|]. intros b2 Hb2.
  pose proof (rewritten_trans _ _ _ _ _ Hrw1 (rewritten_wrote _ _ _ _ Hb2)) as Hrw2.
  pose proof Hrw2 as (_ & _ & _ & Hc2). wp_steps. split; [done|]. exists b2. split; [exact Hrw2|]. packet.
  pose proof (zlen_be_bytes 2 w) as Hz2. pose proof (zlen_replicate (Z.to_nat (4 * w - es)) 0) as Hzr.
  split_and!.
  - pose proof (wrote_read _ _ _ _ _ Hb1) as Hr. rewrite Hz2 in Hr.
    replace (14 + 4 * cc) with (16 + 4 * cc - 2) by lia.
    eapply (read_agree 0 (16 + 4 * cc)); [|lia|lia|unfold capacity_ in *; lia|apply Hr; lia].
    eapply wrote_agree; [exact Hb2|cbn; lia|lia].
  - intros i Hi. rewrite (wrote_in _ _ _ _ _ _ Hb2), zget_replicate by lia. done.
  - eapply agree_trans; [eapply wrote_agree; [exact Hb1|cbn; lia|lia]|].
    eapply wrote_agree; [exact Hb2|cbn; lia|lia].
  - eapply agree_trans; [eapply wrote_agree; [exact Hb1|cbn; lia|lia]|].
    eapply wrote_agree; [exact Hb2|cbn; lia|lia].
Qed.

(** With the length, the padding and the new size the packet is complete. *)
Lemma draft_finished p cc two b2 b3 one' :
  draft p cc two -> let po := 16 + 4 * cc + 4 * ((extensions_size_ p + 3) / 4) in
  wf_buffer b2 -> capacity_ b2 = capacity p ->
  read_bytes (data_ b2) (14 + 4 * cc) 2 = Some (be_bytes 2 ((extensions_size_ p + 3) / 4)) ->
  (forall i, 16 + 4 * cc + extensions_size_ p <= i < po -> zget (data_ b2) i = Some 0) ->
  agree 0 (14 + 4 * cc) (data p) (data_ b2) ->
  agree (16 + 4 * cc) (16 + 4 * cc + extensions_size_ p) (data p) (data_ b2) ->
  sized b2 true po b3 ->
  let p' := p <| payload_offset_ := po |> <| buffer_ := b3 |> <| one_ref_ := one' |> in
  built p' /\ ext_block (data_ b3) cc two (extensions_size_ p) (extension_entries_ p) po /\
  moved (data p) (data_ b3) (extension_entries_ p) (extension_entries_ p).
Proof.
  intros [Hwf Ho [Hm Hcap] [Hps Hpad] Hfh Hcc Hb0 Hs Hp Hl Hn Hroom] po Hw2 Hc2 Hr2 Hz2 Ha2 Ha2' Hb3 p'.
  pose proof (words_bounds _ Hs) as Hwb. pose proof (room_for_padding _ _ _ Hs Hm Hroom) as Hpd. fold po in Hpd.
  pose proof Hb3 as (Hw3 & Hu3 & Hs3 & Hc3 & _).
  assert (Ha3 : agree 0 po (data_ b2) (data_ b3)) by (eapply sized_agree; [done|exact Hb3|right; lia|lia]).
  assert (Hz : zlen (data_ b3) = capacity p) by (unfold capacity, capacity_ in *; lia).
  assert (Ha : agree 0 (14 + 4 * cc) (data p) (data_ b3))
    by (eapply agree_trans; [exact Ha2|eapply agree_weaken; [..|exact Ha3]; lia]).
  assert (Ha' : agree (16 + 4 * cc) (16 + 4 * cc + extensions_size_ p) (data p) (data_ b3))
    by (eapply agree_trans; [exact Ha2'|eapply agree_weaken; [..|exact Ha3]; lia]).
  assert (Hblk : ext_block (data_ b3) cc two (extensions_size_ p) (extension_entries_ p) po).
  { split; try done.
    - eapply (read_agree 0 (14 + 4 * cc)); [exact Ha|lia..|exact Hp].
    - eapply (read_agree 0 po); [exact Ha3|lia..|exact Hr2].
    - by eapply laid_agree.
    - intros i Hi. rewrite Ha3 by lia. by apply Hz2. }
  split_and!; [|done|].
  - split; unfold packet_size, p'; packet; rewrite ?Hps, ?Hpad; try done.
    + by rewrite Hc3, Hc2.
    + lia.
    + eapply fixed_header_agree; [eapply agree_weaken; [..|exact Ha]; lia|lia|exact Hfh].
    + exists cc. split; [lia|]. split; [|right; eauto].
      rewrite Ha, (proj2 (Z.ltb_lt 0 (extensions_size_ p))) by lia. done.
  - eapply moved_agree; [exact Hl|exact Ha'|lia| |lia]. unfold capacity, capacity_, data in *. lia.
Qed.

(** What promotion and allocation leave as it was. *)
Definition same_members (p p' : RtpPacket) : Prop :=
  marker_ p' = marker_ p /\ payload_type_ p' = payload_type_ p /\
  sequence_number_ p' = sequence_number_ p /\ timestamp_ p' = timestamp_ p /\ ssrc_ p' = ssrc_ p /\
  payload_size_ p' = payload_size_ p /\ padding_size_ p' = padding_size_ p /\
  extensions_ p' = extensions_ p /\ capacity p' = capacity p.

Lemma finish_wp {R} p cc two (QR : R -> RtpPacket -> Prop) :
  draft p cc two ->
  wp (finish_extensions (16 + 4 * cc)) p
     (fun _ p' => built p' /\ same_members p p' /\ zget (data p') 0 = Some (byte0 false true cc) /\
        extensions_size_ p' = extensions_size_ p /\ extension_entries_ p' = extension_entries_ p /\
        ext_block (data p') cc two (extensions_size_ p) (extension_entries_ p) (payload_offset_ p') /\
        moved (data p) (data p') (extension_entries_ p) (extension_entries_ p)) QR.
Proof.
  intros Hdr. pose proof (dr_capacity _ _ _ Hdr) as [Hm Hcap]. pose proof (dr_size _ _ _ Hdr) as Hds.
  pose proof (room_for_padding _ _ _ Hds Hm (dr_room _ _ _ Hdr)) as Hrm.
  pose proof (words_bounds _ Hds) as Hwb. pose proof (dr_cc _ _ _ Hdr) as Hcc. unfold kFixedHeaderSize in Hcap.
  unfold finish_extensions. wp_step. eapply wp_mono; [by apply (SetExtensionLength_wp p cc two)| |done].
  intros pd p3 (-> & b3 & (-> & Hwf3 & Hs3 & Hc3) & Hr3 & Hz3 & Ha3 & Ha3'). wp_steps. packet.
  apply SetSize_wp; [exact Hwf3|packet; lia|]. intros b4 Hb4.
  destruct (draft_finished p cc two b3 b4 true Hdr (proj1 Hwf3) Hc3 Hr3 Hz3 Ha3 Ha3' Hb4) as (Hbu & Hblk & Hmv).
  pose proof Hb4 as (Hw4 & Hu4 & Hs4 & Hc4 & _).
  split; [exact Hbu|]. unfold same_members. split_and!; try done.
  - packet. congruence.
  - pose proof (dr_byte0 _ _ _ Hdr) as Hd0. unfold data. cbn [set buffer_].
    rewrite (sized_agree _ _ _ _ 0 1 (proj1 Hwf3) Hb4) by (packet; lia). rewrite Ha3 by lia. exact Hd0.
Qed.

(** ** Promotion of a packet *)

(** The memory after the loop and the new profile is a draft. *)
Lemma promoted_draft p cc b1 b2 es' n :
  wf_packet p -> capacity p mod 4 = 0 /\ kFixedHeaderSize <= capacity p <= 65535 ->
  payload_size_ p = 0 /\ padding_size_ p = 0 ->
  fixed_header (data p) (marker_ p) (payload_type_ p) (sequence_number_ p) (timestamp_ p) (ssrc_ p) ->
  0 <= cc < 16 -> zget (data p) 0 = Some (byte0 false true cc) -> 0 < extensions_size_ p -> 0 < n ->
  16 + 4 * cc + extensions_size_ p + n <= capacity p -> NoDup (map ei_id (extension_entries_ p)) ->
  capacity_ b1 = capacity p -> agree 0 (16 + 4 * cc) (data p) (data_ b1) ->
  laid (data_ b1) true (16 + 4 * cc) es' (16 + 4 * cc + extensions_size_ p + n) ->
  moved (data p) (data_ b1) (extension_entries_ p) es' ->
  wrote b1 true (16 + 4 * cc - 4) (be_bytes 2 kTwoByteExtensionProfileId) b2 ->
  draft (p <| buffer_ := b1 |> <| one_ref_ := true |> <| extension_entries_ := es' |>
           <| buffer_ := b2 |> <| one_ref_ := true |> <| extensions_size_ := extensions_size_ p + n |>) cc true /\
  moved (data_ b1) (data_ b2) es' es'.
Proof.
  intros Hwf [Hm Hcap] Htail Hfh Hcc H0 Hs Hn Hroom Hnd Hc1 Ha1 Hl1 Hm1 Hb2. unfold kFixedHeaderSize in Hcap.
  pose proof Hb2 as (Hw2 & Hu2 & Hs2 & Hc2 & _). packet. pose proof (zlen_be_bytes 2 kTwoByteExtensionProfileId) as Hz.
  assert (Hzb : zlen (data_ b2) = capacity p /\ zlen (data_ b1) = capacity p)
    by (unfold capacity, capacity_ in *; lia). packet.
  assert (Ha2 : agree 0 (12 + 4 * cc) (data_ (buffer_ p)) (data_ b2)).
  { eapply agree_trans; [eapply agree_weaken; [..|exact Ha1]; lia|].
    eapply wrote_agree; [exact Hb2|cbn; lia|lia]. }
  assert (Ha2' : agree (16 + 4 * cc) (capacity_ b1) (data_ b1) (data_ b2)).
  { eapply wrote_agree; [exact Hb2|cbn; lia|lia]. }
  split.
  - split; packet; try done; try lia.
    + rewrite Hc2, Hc1. unfold kFixedHeaderSize. lia.
    + eapply fixed_header_agree; [eapply agree_weaken; [..|exact Ha2]; lia|lia|exact Hfh].
    + rewrite Ha2 by lia. done.
    + pose proof (wrote_read _ _ _ _ _ Hb2) as Hr. rewrite Hz in Hr.
      replace (12 + 4 * cc) with (16 + 4 * cc - 4) by lia. apply Hr; lia.
    + eapply laid_agree; [eapply agree_weaken; [..|exact Ha2']; lia|].
      by replace (16 + 4 * cc + (extensions_size_ p + n)) with (16 + 4 * cc + extensions_size_ p + n) by lia.
    + by rewrite (moved_ids _ _ _ _ Hm1).
  - eapply moved_agree; [exact Hl1|eapply agree_weaken; [..|exact Ha2']; lia|lia|lia|lia].
Qed.

Lemma Promote_wp {R} p cc (QR : R -> RtpPacket -> Prop) :
  built p -> capacity p mod 4 = 0 -> payload_size_ p = 0 -> padding_size_ p = 0 -> 0 <= cc < 16 ->
  zget (data p) 0 = Some (byte0 false true cc) ->
  ext_block (data p) cc false (extensions_size_ p) (extension_entries_ p) (payload_offset_ p) ->
  16 + 4 * cc + extensions_size_ p + Z.of_nat (length (extension_entries_ p)) <= capacity p ->
  wp PromoteToTwoByteHeaderExtension p
     (fun _ p' => built p' /\ same_members p p' /\ zget (data p') 0 = Some (byte0 false true cc) /\
        extensions_size_ p' = extensions_size_ p + Z.of_nat (length (extension_entries_ p)) /\
        ext_block (data p') cc true (extensions_size_ p') (extension_entries_ p') (payload_offset_ p') /\
        moved (data p) (data p') (extension_entries_ p) (extension_entries_ p')) QR.
Proof.
  intros Hb Hm Hps Hpad Hcc H0 Hblk Hroom. pose proof (built_bounds p Hb) as Hbd.
  destruct Hb as [Hwf Hcap Hsz _ _ Hfh _ _]. unfold kFixedHeaderSize in Hcap.
  destruct (byte0_facts false true cc Hcc) as (_ & _ & Ecc & _).
  destruct Hblk as [Hs Hp _ Hpo Hl _ Hn]. pose proof (words_bounds _ Hs) as Hwb.
  assert (Hne : 0 < Z.of_nat (length (extension_entries_ p))).
  { destruct (extension_entries_ p); cbn in *; lia. }
  unfold PromoteToTwoByteHeaderExtension, kFixedHeaderSize. wp_step.
  apply rd_wp; [done|lia|]. intros v _ Hv. rewrite H0 in Hv. injection Hv as <-. rewrite Ecc.
  replace (12 + cc * 4 + 4) with (16 + 4 * cc) by lia. wp_steps.
  unfold check at 1. rewrite (proj2 (Z.ltb_lt _ _)) by lia. apply (wp_mem _ tt); [done|]. wp_step.
  unfold check at 1. rewrite Hps. apply (wp_mem _ tt); [done|]. wp_step.
  assert (Hprof : ReadBigEndian 2 (data p) (16 + 4 * cc - 4) = Some kOneByteExtensionProfileId).
  { rewrite (ReadBigEndian_bytes 2 (data p) _ (profile_of false)); [done|apply Hwf|].
    replace (16 + 4 * cc - 4) with (12 + 4 * cc) by lia. exact Hp. }
  apply (wp_mem _ _ _ _ _ Hprof). wp_step. unfold check. apply (wp_mem _ tt); [done|]. wp_step.
  eapply wp_mono; [apply (promote_loop_wp _ _ _ p _ Hwf Hl)| |done].
  { lia. }
  { pose proof (size_solid (buffer_ p) (one_ref_ p) (proj1 Hwf)). lia. }
  { lia. }
  intros r p1 (b1 & Hrw & Hl1 & Hm1 & Ha1 & _).
  assert (Hrw1 : rewritten p p1 b1) by (destruct Hrw as [(E & _)|]; [rewrite E in Hne; cbn in Hne; lia|done]).
  clear Hrw. destruct Hrw1 as (-> & Hwf1 & Hs1 & Hc1). unfold WriteBE. wp_steps. packet.
  apply WriteAt_wp; [exact Hwf1|apply be_bytes_u8|lia|rewrite zlen_be_bytes; packet; lia|]. intros b2 Hb2. wp_steps.
  set (n := Z.of_nat (length (extension_entries_ p))) in *.
  destruct (promoted_draft p cc b1 b2 (rev r) n) as [Hdr Hm2]; auto.
  eapply wp_mono; [exact (finish_wp _ cc true _ Hdr)| |done].
  intros u p' (Hbu & Hsm & H0' & Hsz' & He' & Hblk & Hmv). packet.
  split; [done|]. unfold same_members, capacity in *. packet. pose proof Hb2 as (_ & _ & _ & Hc2 & _).
  destruct Hsm as (? & ? & ? & ? & ? & ? & ? & ? & ?).
  split_and!; try congruence.
  - rewrite He'. eapply moved_trans; [exact Hm1|]. eapply moved_trans; [exact Hm2|exact Hmv].
Qed.

(** ** Appending an extension *)

(** A packet whose block has its profile and room for more entries. *)
Record opened (p : RtpPacket) (cc : Z) (two : bool) : Prop := {
  op_wf : wf_packet p;
  op_capacity : capacity p mod 4 = 0 /\ kFixedHeaderSize <= capacity p <= 65535;
  op_tail : payload_size_ p = 0 /\ padding_size_ p = 0;
  op_header : fixed_header (data p) (marker_ p) (payload_type_ p) (sequence_number_ p) (timestamp_ p) (ssrc_ p);
  op_cc : 0 <= cc < 16;
  op_byte0 : zget (data p) 0 = Some (byte0 false true cc);
  op_size : 0 <= extensions_size_ p;
  op_profile : read_bytes (data p) (12 + 4 * cc) 2 = Some (be_bytes 2 (profile_of two));
  op_laid : laid (data p) two (16 + 4 * cc) (extension_entries_ p) (16 + 4 * cc + extensions_size_ p);
  op_nodup : NoDup (map ei_id (extension_entries_ p));
  op_solid : 16 + 4 * cc + extensions_size_ p <= solid (buffer_ p) (one_ref_ p);
}.

(** The block of a packet: none yet, or one with headers of one or two bytes. *)
Definition block_is (p : RtpPacket) (cc : Z) (two : bool) : Prop :=
  zget (data p) 0 = Some (byte0 false (0 <? extensions_size_ p) cc) /\
  (extensions_size_ p = 0 /\ extension_entries_ p = [] /\ payload_offset_ p = 12 + 4 * cc \/
   ext_block (data p) cc two (extensions_size_ p) (extension_entries_ p) (payload_offset_ p)).

Lemma open_block_wp {R} p cc two (QR : R -> RtpPacket -> Prop) :
  built p -> capacity p mod 4 = 0 -> payload_size_ p = 0 -> padding_size_ p = 0 -> 0 <= cc < 16 -> block_is p cc two ->
  16 + 4 * cc <= capacity p ->
  wp (if extensions_size_ p =? 0 then
        let! d := rd 0 in
        WriteAt 0 [u8 (Z.lor d 0x10)] ;; WriteBE 2 (16 + 4 * cc - 4) (profile_of two)
      else ret tt) p
     (fun _ p' => opened p' cc two /\ (exists b one, p' = p <| buffer_ := b |> <| one_ref_ := one |>) /\
        capacity p' = capacity p /\
        moved (data p) (data p') (extension_entries_ p) (extension_entries_ p)) QR.
Proof.
  intros Hb Hm Hps Hpad Hcc [H0 Hblk] Hfit. pose proof (built_bounds p Hb) as Hbd.
  destruct Hb as [Hwf Hcap Hsz _ _ Hfh _ _]. pose proof (conj Hm Hcap) as Hmc. pose proof (size_solid _ (one_ref_ p) (proj1 Hwf)) as Hsol.
  destruct Hblk as [(Hes & He & Hpo)|[Hs Hp Hw Hpo Hl Hz Hn]].
  - rewrite Hes in *. cbn [Z.ltb Z.compare Z.eqb] in *. wp_step.
    apply rd_wp; [done|lia|]. intros v _ Hv. rewrite H0 in Hv. injection Hv as <-.
    destruct (byte0_facts false false cc Hcc) as (_ & _ & _ & _ & _ & E & _). rewrite E. unfold WriteBE. wp_steps.
    apply WriteAt_wp; [done| |lia|rewrite zlen_1; lia|].
    { constructor; [|done]. rewrite <- E. apply u8_range. }
    intros b1 Hb1. pose proof (rewritten_wrote _ _ _ _ Hb1) as Hrw1. pose proof Hrw1 as (_ & Hwf1 & _ & Hc1).
    apply WriteAt_wp; [done|apply be_bytes_u8|lia|rewrite zlen_be_bytes; packet; lia|].
    intros b2 Hb2. pose proof (rewritten_trans _ _ _ _ _ Hrw1 (rewritten_wrote _ _ _ _ Hb2)) as Hrw2.
    pose proof Hrw2 as (_ & Hwf2 & _ & Hc2). packet. pose proof (zlen_be_bytes 2 (profile_of two)) as Hz2.
    assert (Hzb : zlen (data_ b2) = capacity p) by (unfold capacity, capacity_ in *; lia). packet.
    split_and!; [split; packet; rewrite ?Hes, ?He; try done; try lia|eauto|done|rewrite He; constructor].
    + by rewrite Hc2.
    + eapply fixed_header_agree; [|lia|exact Hfh].
      eapply agree_trans; [eapply wrote_agree; [exact Hb1|lia|rewrite zlen_1; lia]|].
      eapply wrote_agree; [exact Hb2|cbn; lia|lia].
    + rewrite (wrote_out _ _ _ _ _ _ Hb2) by (cbn; lia). by apply wrote_byte in Hb1.
    + pose proof (wrote_read _ _ _ _ _ Hb2) as Hr. rewrite Hz2 in Hr.
      replace (12 + 4 * cc) with (16 + 4 * cc - 4) by lia. apply Hr; lia.
    + cbn. lia.
    + constructor.
    + cbn [solid]. lia.
  - rewrite (proj2 (Z.eqb_neq _ 0)) by lia. wp_steps. rewrite (proj2 (Z.ltb_lt _ _)) in H0 by lia.
    pose proof (words_bounds _ Hs). split_and!; [split; try done; lia| |done|].
    + exists (buffer_ p), (one_ref_ p). by destruct p.
    + eapply moved_agree; [exact Hl|done|lia|..]; unfold capacity, capacity_, data in *; lia.
Qed.

Definition in_range (two : bool) (id len : Z) : Prop :=
  if two then 1 <= id <= 255 /\ 1 <= len <= 255 else 1 <= id <= 14 /\ 1 <= len <= 16.

Lemma one_byte_value id len :
  1 <= id <= 14 -> 1 <= len <= 16 -> Z.lor (u8 (Z.shiftl (u8 id) 4)) (u8 (len - 1)) = 16 * id + (len - 1).
Proof.
  intros Hi Hl. rewrite (u8_id id), (u8_id (len - 1)), shiftl_mul by clia.
  rewrite (u8_id (id * 2 ^ 4)) by clia. rewrite (lor_disjoint _ _ 4); [lia|lia| |lia]. apply Z.mod_mul. lia.
Qed.

(** The header of the new entry. *)
Lemma entry_header_wp {R} p cc two id len (QR : R -> RtpPacket -> Prop) :
  opened p cc two -> in_range two id len ->
  let pos := 16 + 4 * cc + extensions_size_ p in
  pos + hdr_len two + len <= capacity p ->
  wp (if profile_of two =? kOneByteExtensionProfileId then
        WriteAt pos [Z.lor (u8 (Z.shiftl (u8 id) 4)) (u8 (len - 1))]
      else WriteAt pos [u8 id] ;; WriteAt (pos + 1) [u8 len]) p
     (fun _ p' => exists b', rewritten p p' b' /\
        entry_at (data_ b') two pos (mkInfo id len (pos + hdr_len two)) /\
        agree 0 pos (data p) (data_ b')) QR.
Proof.
  intros [Hwf [_ Hcap] _ _ Hcc _ Hs _ _ _ Hsol] Hr pos Hfit. subst pos. unfold entry_at.
  cbn [ei_id ei_length ei_offset]. destruct two; cbn [in_range profile_of hdr_len] in *.
  - change (_ =? _) with false. cbv iota. destruct Hr as [Hi Hl]. rewrite (u8_id id), (u8_id len) by clia. wp_steps.
    apply WriteAt_wp; [done|constructor; [unfold is_u8; lia|done]|lia|rewrite zlen_1; lia|]. intros b1 Hb1.
    pose proof (rewritten_wrote _ _ _ _ Hb1) as Hrw1. pose proof Hrw1 as (_ & Hwf1 & _ & Hc1).
    apply WriteAt_wp; [done|constructor; [unfold is_u8; lia|done]|lia|rewrite zlen_1; packet; lia|]. intros b2 Hb2.
    pose proof (rewritten_trans _ _ _ _ _ Hrw1 (rewritten_wrote _ _ _ _ Hb2)) as Hrw2. packet.
    exists b2. split_and!; try done; try lia.
    + rewrite (wrote_out _ _ _ _ _ _ Hb2) by (cbn; lia). by apply wrote_byte in Hb1.
    + by apply wrote_byte in Hb2.
    + eapply agree_trans; [eapply wrote_agree; [exact Hb1|lia|lia]|].
      eapply wrote_agree; [exact Hb2|cbn; lia|lia].
  - change (_ =? _) with true. cbv iota. destruct Hr as [Hi Hl]. rewrite one_byte_value by done.
    apply WriteAt_wp; [done|constructor; [unfold is_u8; lia|done]|lia|rewrite zlen_1; lia|]. intros b1 Hb1.
    exists b1. split_and!; try done; try lia.
    + by apply rewritten_wrote in Hb1.
    + by apply wrote_byte in Hb1.
    + eapply wrote_agree; [exact Hb1|lia|lia].
Qed.

(** Taking a pointer into the buffer: only a shared buffer is copied. *)
Lemma touch_built {R} p off (QR : R -> RtpPacket -> Prop) :
  built p -> 0 <= off <= capacity p ->
  wp (WriteAt off []) p
     (fun _ p' => built p' /\ same_members p p' /\ extensions_size_ p' = extensions_size_ p /\
        extension_entries_ p' = extension_entries_ p /\ payload_offset_ p' = payload_offset_ p /\
        agree 0 (packet_size p) (data p) (data p')) QR.
Proof.
  intros Hb Hoff. pose proof (built_bounds p Hb) as Hbd. pose proof (bu_wf p Hb) as Hwf.
  apply WriteAt_wp; [done|constructor|lia|rewrite zlen_nil; lia|]. intros b' Hb'.
  destruct (wrote_wf p _ _ _ true Hb Hb') as ([Hw Hu] & Hc & Hs & Hl & Hsol).
  assert (Ha : agree 0 (packet_size p) (data p) (data_ b')).
  { intros i Hi. eapply wrote_out; [exact Hb'|unfold data in *; lia|rewrite zlen_nil; lia]. }
  split; [|by unfold same_members].
  refine (built_header p b' (marker_ p) (payload_type_ p) (sequence_number_ p) (timestamp_ p) (ssrc_ p) true
    Hb Hw Hu Hs Hc _ _ _).
  - rewrite Ha by lia. done.
  - eapply agree_weaken; [..|exact Ha]; lia.
  - eapply fixed_header_agree; [eapply agree_weaken; [..|exact Ha]; lia|lia|apply (bu_header p Hb)].
Qed.

Lemma same_members_trans p q r : same_members p q -> same_members q r -> same_members p r.
Proof. unfold same_members. intros. destruct_and!. split_and!; congruence. Qed.

Lemma opened_draft p cc two id len b' :
  opened p cc two -> in_range two id len -> id ∉ map ei_id (extension_entries_ p) ->
  let pos := 16 + 4 * cc + extensions_size_ p in
  pos + hdr_len two + len <= capacity p ->
  wf_buffer b' -> Forall is_u8 (data_ b') -> capacity_ b' = capacity p ->
  entry_at (data_ b') two pos (mkInfo id len (pos + hdr_len two)) -> agree 0 pos (data p) (data_ b') ->
  draft (p <| buffer_ := b' |> <| one_ref_ := true |>
           <| extension_entries_ := extension_entries_ p ++ [mkInfo id len (pos + hdr_len two)] |>
           <| extensions_size_ := extensions_size_ p + hdr_len two + len |>) cc two.
Proof.
  intros [Hwf [Hm Hcap] Htail Hfh Hcc H0 Hs Hp Hl Hn Hsol] Hr Hid pos Hfit Hw Hu Hc He Ha. subst pos.
  assert (Hh : 1 <= hdr_len two <= 2) by (destruct two; cbn; lia).
  pose proof (entry_at_bounds _ _ _ _ He) as Hb. cbn [ei_offset ei_length] in Hb.
  assert (Hz : zlen (data_ b') = capacity p) by (unfold capacity, capacity_ in *; lia). unfold kFixedHeaderSize in *.
  split; packet; try done; try lia.
  - unfold kFixedHeaderSize. rewrite Hc. lia.
  - eapply fixed_header_agree; [eapply agree_weaken; [..|exact Ha]; lia|lia|exact Hfh].
  - rewrite Ha by lia. done.
  - eapply (read_agree 0 (16 + 4 * cc + extensions_size_ p)); [exact Ha|lia..|exact Hp].
  - apply laid_app. eexists. split.
    + eapply laid_agree; [|exact Hl]. eapply agree_weaken; [..|exact Ha]; lia.
    + cbn [laid ei_offset ei_length]. split; [exact He|lia].
  - rewrite map_app. apply list.NoDup_app. split_and!; [done| |apply NoDup_singleton].
    intros x Hx Hx'. apply list_elem_of_singleton in Hx'. cbn in Hx'. subst. done.
Qed.

Lemma append_wp p cc two id len :
  built p -> capacity p mod 4 = 0 -> payload_size_ p = 0 -> padding_size_ p = 0 -> 0 <= cc < 16 -> block_is p cc two ->
  in_range two id len -> id ∉ map ei_id (extension_entries_ p) ->
  wp (append_extension id len (16 + 4 * cc) (profile_of two)) p
     (fun r p' => built p' /\ same_members p p' /\ exists o es', r = Some (o, len) /\
        extension_entries_ p' = es' ++ [mkInfo id len o] /\
        moved (data p) (data p') (extension_entries_ p) es')
     (fun r p' => r = None /\ p' = p /\
        capacity p < 16 + 4 * cc + extensions_size_ p + hdr_len two + len).
Proof.
  intros Hb Hm Hps Hpad Hcc Hblk Hr Hid. pose proof (bu_capacity p Hb) as Hcap.
  assert (Hes : 0 <= extensions_size_ p) by (destruct Hblk as [_ [(? & _)|[? _ _ _ _ _ _]]]; lia).
  assert (Hh : 1 <= hdr_len two <= 2) by (destruct two; cbn; lia).
  assert (Hlen : 1 <= len <= 255 /\ 1 <= id <= 255) by (destruct two; cbn in Hr; lia).
  unfold append_extension.
  assert (E : (if profile_of two =? kOneByteExtensionProfileId then kOneByteExtensionHeaderLength
               else kTwoByteExtensionHeaderLength) = hdr_len two) by (by destruct two). rewrite E.
  wp_steps. destruct (Z.ltb_spec (capacity p) (16 + 4 * cc + (extensions_size_ p + hdr_len two + len))) as [Hno|Hfit].
  { wp_steps. split_and!; [done|done|lia]. }
  rewrite (u8_id id), (u8_id len), (u16_id (16 + 4 * cc + extensions_size_ p + hdr_len two)) by clia.
  eapply wp_seq; [apply open_block_wp; auto; lia|].
  intros u p1 (Hop & (b1 & one & ->) & Hc1 & Hm1).
  pose proof (entry_header_wp _ cc two id len (fun (r : array_view) p' => r = None /\ p' = p /\
    capacity p < 16 + 4 * cc + extensions_size_ p + hdr_len two + len) Hop Hr) as Hent. cbv zeta in Hent. packet.
  rewrite (u8_id id), (u8_id len) in Hent by clia.
  eapply wp_seq; [apply Hent; lia|].
  intros u2 p2 (b2 & (-> & [Hw2 Hu2] & Hs2 & Hc2) & He2 & Ha2). wp_steps. packet.
  pose proof (opened_draft _ cc two id len b2 Hop Hr Hid) as Hdr. cbv zeta in Hdr. packet.
  eapply wp_post; [apply (finish_wp _ cc two); apply Hdr; auto; lia|].
  intros u3 p3 (Hbu & Hsm & _ & Hsz3 & He3 & Hblk3 & Hm3). packet.
  pose proof (eb_laid _ _ _ _ _ _ Hblk3) as Hl3. pose proof (built_bounds p3 Hbu) as Hbd3.
  assert (Hc3 : capacity_ (buffer_ p3) = capacity_ (buffer_ p)).
  { unfold same_members in Hsm. packet. destruct_and!. congruence. }
  eapply wp_seq; [apply (touch_built p3); [exact Hbu|packet; lia]|].
  intros u4 p4 (Hb4 & Hsm4 & _ & He4 & Hpo4 & Ha4). wp_steps. split; [done|]. split.
  { eapply same_members_trans; [|exact Hsm4]. unfold same_members in *. packet. destruct_and!. split_and!; congruence. }
  eexists _, _. split; [reflexivity|]. rewrite He4, He3. split; [reflexivity|].
  assert (Hz : zlen (data_ b1) = capacity_ (buffer_ p) /\ zlen (data_ b2) = capacity_ (buffer_ p) /\
    zlen (data_ (buffer_ p3)) = capacity_ (buffer_ p) /\ zlen (data_ (buffer_ p4)) = capacity_ (buffer_ p)).
  { unfold same_members in Hsm4. packet. destruct_and!. unfold capacity_ in *. lia. }
  eapply moved_trans; [exact Hm1|]. eapply moved_trans; [|eapply moved_trans].
  - eapply moved_agree; [exact (op_laid _ _ _ Hop)|eapply agree_weaken; [..|exact Ha2]; packet; lia|lia|packet; lia|packet; lia].
  - apply Forall2_app_inv in Hm3 as [Hm3 _]; [exact Hm3|done].
  - apply laid_app in Hl3 as (mid & Hl3 & He3' & _). pose proof (laid_le _ _ _ _ _ Hl3). apply entry_at_bounds in He3'.
    pose proof (eb_offset _ _ _ _ _ _ Hblk3) as Ho3. cbn [ei_offset] in He3'.
    assert (Hmid : mid <= packet_size p3) by (pose proof (words_bounds _ (eb_size _ _ _ _ _ _ Hblk3)); lia).
    eapply moved_agree; [exact Hl3|eapply agree_weaken; [..|exact Ha4]; lia|lia|lia|lia].
Qed.

(** ** Allocation *)

Definition two_required (id len : Z) : bool :=
  (kOneByteHeaderExtensionMaxId <? id) || (kOneByteHeaderExtensionMaxValueSize <? len) || (len =? 0).

Lemma in_range_required id len :
  1 <= id <= 255 -> 1 <= len <= 255 -> in_range true id len /\ (two_required id len = false -> in_range false id len).
Proof.
  unfold in_range, two_required, kOneByteHeaderExtensionMaxId, kOneByteHeaderExtensionMaxValueSize.
  intros Hi Hl. split; [lia|]. rewrite !orb_false_iff, !Z.ltb_ge. lia.
Qed.

Lemma built_block p :
  built p -> padding_size_ p = 0 -> exists cc two, 0 <= cc < 16 /\ block_is p cc two /\
    (extensions_size_ p = 0 -> forall two', block_is p cc two').
Proof.
  intros Hb Hpad. destruct (bu_bytes p Hb) as (cc & Hcc & H0 & Hext). rewrite Hpad in H0. cbn [Z.ltb Z.compare] in H0.
  destruct Hext as [Hnone|[two Hblk]].
  - exists cc, false. unfold block_is. auto.
  - exists cc, two. split; [done|]. split; [by split; [|right]|].
    intros E. pose proof (eb_size _ _ _ _ _ _ Hblk). lia.
Qed.

Lemma extension_profile_wp p cc two id len :
  built p -> capacity p mod 4 = 0 -> payload_size_ p = 0 -> padding_size_ p = 0 -> 0 <= cc < 16 -> block_is p cc two ->
  (extensions_size_ p = 0 -> forall two', block_is p cc two') -> 1 <= id <= 255 -> 1 <= len <= 255 ->
  wp (extension_profile len (16 + 4 * cc) (two_required id len)) p
     (fun r p' => built p' /\ same_members p p' /\
        moved (data p) (data p') (extension_entries_ p) (extension_entries_ p') /\
        exists two', r = profile_of two' /\ block_is p' cc two' /\ in_range two' id len /\
          (p' = p \/ 16 + 4 * cc + extensions_size_ p' + hdr_len two' + len <= capacity p'))
     (fun r p' => r = None /\ p' = p /\
        capacity p < payload_offset_ p + Z.of_nat (length (extension_entries_ p)) + 2 + len).
Proof.
  intros Hb Hm Hps Hpad Hcc [H0 Hblk] Hany Hid Hlen. destruct (in_range_required id len Hid Hlen) as [Ht Hf].
  pose proof (bu_wf p Hb) as Hwf. pose proof (bu_capacity p Hb) as Hcap.
  assert (Hself : same_members p p) by (by unfold same_members).
  unfold extension_profile. wp_steps. destruct Hblk as [(Hes & He & Hpo)|Hblk].
  - rewrite Hes. cbn [Z.ltb Z.compare]. wp_steps. split_and!; [done|done|rewrite He; constructor|].
    exists (two_required id len). split; [done|]. split; [by apply Hany|].
    destruct (two_required id len); auto.
  - pose proof (eb_size _ _ _ _ _ _ Hblk) as Hs. rewrite (proj2 (Z.ltb_lt _ _)) by lia.
    rewrite (proj2 (Z.ltb_lt _ _)) in H0 by lia.
    assert (Hmv : moved (data p) (data p) (extension_entries_ p) (extension_entries_ p)).
    { pose proof (built_bounds p Hb). pose proof (words_bounds _ Hs). pose proof (eb_offset _ _ _ _ _ _ Hblk).
      eapply moved_agree; [exact (eb_laid _ _ _ _ _ _ Hblk)|done|lia|..]; unfold capacity, capacity_, data in *; lia. }
    assert (Hprof : ReadBigEndian 2 (data p) (16 + 4 * cc - 4) = Some (profile_of two)).
    { rewrite (ReadBigEndian_bytes 2 (data p) _ (profile_of two)); [by destruct two|apply Hwf|].
      replace (16 + 4 * cc - 4) with (12 + 4 * cc) by lia. exact (eb_profile _ _ _ _ _ _ Hblk). }
    apply wp_bind, (wp_mem _ _ _ _ _ Hprof).
    assert (Hb' : block_is p cc two).
    { split; [|by right]. by rewrite (proj2 (Z.ltb_lt _ _)) by lia. }
    destruct two; cbn [profile_of].
    + change (kTwoByteExtensionProfileId =? kOneByteExtensionProfileId) with false. cbn [andb]. wp_steps.
      split_and!; [done..|]. exists true. auto.
    + change (kOneByteExtensionProfileId =? kOneByteExtensionProfileId) with true. cbn [andb].
      destruct (two_required id len) eqn:Er.
      * unfold kTwoByteExtensionHeaderLength.
        destruct (Z.ltb_spec (capacity p) (16 + 4 * cc + (extensions_size_ p +
          Z.of_nat (length (extension_entries_ p)) + 2 + len))) as [Hno|Hfit].
        { wp_steps. split_and!; [done|done|]. pose proof (eb_offset _ _ _ _ _ _ Hblk).
          pose proof (words_bounds _ Hs). lia. }
        eapply wp_seq; [apply (Promote_wp p cc); auto; lia|]. cbv beta.
        intros u p' (Hbu & Hsm & H0' & Hsz & Hblk' & Hmv'). wp_steps. split_and!; [done..|].
        exists true. split; [done|]. pose proof (eb_size _ _ _ _ _ _ Hblk').
        split; [split; [|by right]|split; [done|right]].
        -- by rewrite (proj2 (Z.ltb_lt _ _)) by lia.
        -- unfold same_members in Hsm. destruct_and!. cbn [hdr_len]. lia.
      * wp_steps. split_and!; [done..|]. exists false. auto.
Qed.

(** The extension [id] is there with [len] bytes already, or there is room for it. *)
Definition has_room (p : RtpPacket) (id len : Z) : Prop :=
  match FindExtensionInfo p id with
  | Some e => ei_length e = len
  | None => payload_size_ p = 0 /\ padding_size_ p = 0 /\
      payload_offset_ p + 6 + Z.of_nat (length (extension_entries_ p)) + len <= capacity p
  end.

(** What allocation of the extension [id] with [len] bytes promises: the members
    stay, every extension keeps its bytes, and a view of [len] bytes is the
    place of [id] among the entries; without a view nothing changed, and there
    was no room. *)
Definition allocated (p : RtpPacket) (id len : Z) (r : array_view) (p' : RtpPacket) : Prop :=
  built p' /\ same_members p p' /\
  match r with
  | None => p' = p /\ ~ has_room p id len
  | Some (o, n) => n = len /\ exists es',
      moved (data p) (data p') (extension_entries_ p) es' /\
      ((mkInfo id len o ∈ es') /\ extension_entries_ p' = es' \/
       (id ∉ map ei_id (extension_entries_ p)) /\ extension_entries_ p' = es' ++ [mkInfo id len o])
  end.

Lemma AllocateRawExtension_wp p id len :
  built p -> capacity p mod 4 = 0 -> 1 <= id <= 255 -> 1 <= len <= 255 ->
  (two_required id len = true -> extmap_allow_mixed_ (extensions_ p) = true) ->
  wp (AllocateRawExtension id len) p (allocated p id len) (allocated p id len).
Proof.
  intros Hb Hm Hid Hlen Hmix. assert (Hself : same_members p p) by (by unfold same_members).
  pose proof (built_bounds p Hb) as Hbd. pose proof (bu_wf p Hb) as Hwf.
  assert (Hnone : ~ has_room p id len -> allocated p id len None p) by (by unfold allocated).
  unfold AllocateRawExtension. wp_steps. destruct (FindExtensionInfo p id) as [e|] eqn:Ef.
  - pose proof Ef as Ef0. unfold FindExtensionInfo in Ef. destruct (list_find _ _) as [[i e']|] eqn:El; [|done]. cbn in Ef. simplify_eq.
    apply list_find_Some in El as (Hi & He & _). apply list_elem_of_lookup_2 in Hi.
    destruct (Z.eqb_spec (ei_length e) len) as [Hl|Hl]; [|wp_steps; apply Hnone; unfold has_room; by rewrite Ef0].
    destruct (bu_bytes p Hb) as (cc & Hcc & _ & [(_ & E & _)|[two Hblk]]); [rewrite E in Hi; by apply not_elem_of_nil in Hi|].
    pose proof (eb_laid _ _ _ _ _ _ Hblk) as Hlaid. pose proof (words_bounds _ (eb_size _ _ _ _ _ _ Hblk)).
    pose proof (eb_offset _ _ _ _ _ _ Hblk). destruct (laid_entry _ _ _ _ _ _ Hlaid Hi) as (pos & Hpos & Hat & Hend).
    apply entry_at_bounds in Hat. eapply wp_seq; [apply (touch_built p); [done|lia]|]. cbv beta.
    intros u p' (Hb' & Hsm & _ & He' & _ & Ha). wp_steps. split; [done|]. split; [done|]. split; [done|].
    exists (extension_entries_ p). split; [|left].
    + unfold same_members in Hsm. destruct_and!.
      eapply moved_agree; [exact Hlaid|eapply agree_weaken; [..|exact Ha]; lia|lia|..];
        unfold capacity, capacity_, data in *; lia.
    + split; [|done]. subst. by destruct e.
  - assert (Hnew : id ∉ map ei_id (extension_entries_ p)).
    { unfold FindExtensionInfo in Ef. destruct (list_find _ _) eqn:El; [done|]. apply list_find_None in El.
      intros (e & -> & He)%list_elem_of_fmap. by apply (proj1 (list.Forall_forall _ _) El e He). }
    unfold has_room in Hnone. rewrite Ef in Hnone.
    destruct (Z.ltb_spec 0 (payload_size_ p)); [wp_steps; apply Hnone; lia|].
    destruct (Z.ltb_spec 0 (padding_size_ p)); [wp_steps; apply Hnone; lia|].
    assert (Hps : payload_size_ p = 0) by (pose proof (bu_payload p Hb); lia).
    assert (Hpad : padding_size_ p = 0) by (pose proof (bu_padding p Hb); clia).
    destruct (built_block p Hb Hpad) as (cc & two & Hcc & Hblk & Hany).
    wp_steps. apply rd_wp; [done|lia|]. intros v _ Hv. rewrite (proj1 Hblk) in Hv. injection Hv as <-.
    destruct (byte0_facts false (0 <? extensions_size_ p) cc Hcc) as (_ & _ & Ecc & _). rewrite Ecc.
    unfold kFixedHeaderSize. replace (12 + cc * 4 + 4) with (16 + 4 * cc) by lia. fold (two_required id len).
    wp_step. unfold check. apply (wp_mem _ tt); [destruct (two_required id len); [by rewrite Hmix|done]|].
    wp_step. eapply wp_mono; [by apply (extension_profile_wp p cc two id len)| |].
    2: { cbv beta. intros r s' (-> & -> & Hno). apply Hnone. lia. }
    intros r p1 (Hb1 & Hsm1 & Hm1 & two' & -> & Hblk1 & Hr1 & Hroom).
    pose proof Hsm1 as (_ & _ & _ & _ & _ & Eps & Epad & _ & Ecap).
    eapply wp_mono; [apply (append_wp p1 cc two' id len); auto; try congruence|cbv beta|cbv beta].
    + by rewrite (moved_ids _ _ _ _ Hm1).
    + intros r p2 (Hb2 & Hsm2 & o & es' & -> & He2 & Hm2). split; [done|]. split; [by eapply same_members_trans|].
      split; [done|]. exists es'. split; [by eapply moved_trans|]. by right.
    + intros r p2 (-> & -> & Hno). destruct Hroom as [->|]; [|lia]. apply Hnone.
      assert (Hh : hdr_len two' <= 2) by (by destruct two').
      destruct Hblk1 as [_ [(E1 & _ & E2)|Hblk1]]; [lia|].
      pose proof (eb_offset _ _ _ _ _ _ Hblk1). pose proof (words_bounds _ (eb_size _ _ _ _ _ _ Hblk1)). lia.
Qed.
End extend.
