(* ===== verification/RtpExtensions.v ===== *)
(** * Values of the header extensions

    [modules/rtp_rtcp/source/rtp_header_extensions.h/.cc]: each extension writes a
    value into a view of the packet and parses it from one. [Extension] holds the
    operations of one class of the source and [Faithful] is what it promises to
    the packet, which sets and gets extensions through these operations only. *)

From S2P Require Import Prelude VcRenderer ByteIo RtpExtMap.

Open Scope Z_scope.
Open Scope c_scope.

(** The operations of an extension with values in [V]. [Write] maps the bytes of
    the view to the value returned and the bytes afterwards, and it has no result
    when an [RTC_CHECK] fails or an access is outside the view; [ParseValue] has
    none for the latter and [Some None] where the code returns [false]. *)
Record Extension (V : Type) := mkExtension {
  kId : RTPExtensionType;
  ValueSize : V -> Z;
  Write : list Z -> V -> option (bool * list Z);
  ParseValue : list Z -> option (option V);
}.
Arguments mkExtension {V}.
Arguments kId {V}.
Arguments ValueSize {V}.
Arguments Write {V}.
Arguments ParseValue {V}.

(** The promise: values that are [valid] fit into a header extension, are
    written, and are parsed as [received] at the other end; parsing never reads
    outside of the view. *)
Class Faithful {V} (E : Extension V) (valid : V -> Prop) (received : V -> V) := {
  value_size v : valid v -> 1 <= ValueSize E v <= 255;
  write_parse data v :
    Forall is_u8 data -> valid v -> zlen data = ValueSize E v ->
    exists data', Write E data v = Some (true, data') /\ zlen data' = zlen data /\
      Forall is_u8 data' /\ ParseValue E data' = Some (Some (received v));
  parse_total data : Forall is_u8 data -> exists r, ParseValue E data = Some r;
}.

(** ** Integers *)

Definition AbsoluteSendTime_Parse (data : list Z) : option (option Z) :=
  if negb (zlen data =? 3) then Some None
  else time_24bits ← ReadBigEndian 3 data 0; Some (Some time_24bits).

Definition AbsoluteSendTime_Write (data : list Z) (time_24bits : Z) : option (bool * list Z) :=
  data ← WriteBigEndian 3 data 0 time_24bits; Some (true, data).

Definition AbsoluteSendTime : Extension Z :=
  mkExtension kRtpExtensionAbsoluteSendTime (fun _ => 3) AbsoluteSendTime_Write AbsoluteSendTime_Parse.

Definition MsTo24Bits (time_ms : Z) : Z :=
  Z.land (u32 (Z.quot (Z.shiftl time_ms 18 + 500) 1000)) 0x00FFFFFF.

Definition TransmissionOffset_Parse (data : list Z) : option (option Z) :=
  if negb (zlen data =? 3) then Some None
  else rtp_time ← ReadBigEndianSigned 3 32 data 0; Some (Some rtp_time).

Definition TransmissionOffset_Write (data : list Z) (rtp_time : Z) : option (bool * list Z) :=
  data ← WriteBigEndianSigned 3 32 data 0 rtp_time; Some (true, data).

Definition TransmissionOffset : Extension Z :=
  mkExtension kRtpExtensionTransmissionTimeOffset (fun _ => 3) TransmissionOffset_Write TransmissionOffset_Parse.

Definition TransportSequenceNumber_Parse (data : list Z) : option (option Z) :=
  if negb (zlen data =? 2) then Some None
  else transport_sequence_number ← ReadBigEndian 2 data 0; Some (Some transport_sequence_number).

Definition TransportSequenceNumber_Write (data : list Z) (transport_sequence_number : Z) :
    option (bool * list Z) :=
  data ← WriteBigEndian 2 data 0 transport_sequence_number; Some (true, data).

Definition TransportSequenceNumber : Extension Z :=
  mkExtension kRtpExtensionTransportSequenceNumber (fun _ => 2)
    TransportSequenceNumber_Write TransportSequenceNumber_Parse.

(** A whole view filled by one integer. *)
Lemma write_whole B data v :
  zlen data = Z.of_nat B -> WriteBigEndian B data 0 v = Some (be_bytes B v).
Proof.
  intros Hl. rewrite WriteBigEndian_bytes by lia. unfold write_bytes. rewrite zlen_be_bytes, Hl.
  rewrite !(proj2 (Z.leb_le _ _)) by lia. cbn [andb]. f_equal. rewrite take_0. cbn [app].
  rewrite Z.add_0_l, Nat2Z.id, drop_ge by (unfold zlen in Hl; lia). apply app_nil_r.
Qed.

Lemma read_all l : read_bytes l 0 (zlen l) = Some l.
Proof. apply read_bytes_spec. split_and!; [lia|done|lia|]. intros i _. by rewrite Z.add_0_l. Qed.

Lemma read_whole B v : 0 <= v < 2 ^ (8 * Z.of_nat B) -> ReadBigEndian B (be_bytes B v) 0 = Some v.
Proof.
  intros Hv. rewrite (ReadBigEndian_bytes B _ 0 v).
  - by rewrite Z.mod_small.
  - apply be_bytes_u8.
  - rewrite <- (zlen_be_bytes B v). apply read_all.
Qed.

Lemma read_whole_signed B w v :
  (0 < B)%nat -> 8 * Z.of_nat B <= w -> - 2 ^ (8 * Z.of_nat B - 1) <= v < 2 ^ (8 * Z.of_nat B - 1) ->
  ReadBigEndianSigned B w (be_bytes B (v mod 2 ^ w)) 0 = Some v.
Proof.
  intros HB Hw Hv. unfold ReadBigEndianSigned.
  rewrite (ReadBigEndian_bytes B _ 0 (v mod 2 ^ w)).
  - cbn [mbind option_bind]. rewrite Z.mod_mod_divide.
    + by rewrite signed_value by lia.
    + exists (2 ^ (w - 8 * Z.of_nat B)). rewrite <- Z.pow_add_r by lia. f_equal. lia.
  - apply be_bytes_u8.
  - rewrite <- (zlen_be_bytes B (v mod 2 ^ w)). apply read_all.
Qed.

(** The laws of an extension that is one integer, unfolded. *)
Ltac whole_integer :=
  intros data v Hu Hv Hl; eexists; split; [rewrite write_whole by done; reflexivity|];
  rewrite zlen_be_bytes; split; [done|]; split; [apply be_bytes_u8|];
  match goal with |- context [if ?b then _ else _] => change b with false end; cbv iota.

Ltac total_parse :=
  intros data Hu;
  match goal with |- context [zlen data =? ?n] => destruct (Z.eqb_spec (zlen data) n) end;
  cbn [negb]; [|by eexists].

#[export] Instance AbsoluteSendTime_faithful : Faithful AbsoluteSendTime (fun v => 0 <= v < 2 ^ 24) id.
Proof.
  split; cbn [AbsoluteSendTime ValueSize Write ParseValue];
    unfold AbsoluteSendTime_Write, AbsoluteSendTime_Parse.
  - lia.
  - whole_integer.
    by rewrite read_whole by done.
  - total_parse. destruct (ReadBigEndian_Some 3 data 0 Hu) as (v & -> & _); [lia|lia|by eexists].
Qed.

#[export] Instance TransmissionOffset_faithful :
  Faithful TransmissionOffset (fun v => - 2 ^ 23 <= v < 2 ^ 23) id.
Proof.
  split; cbn [TransmissionOffset ValueSize Write ParseValue];
    unfold TransmissionOffset_Write, TransmissionOffset_Parse, WriteBigEndianSigned.
  - lia.
  - whole_integer.
    rewrite read_whole_signed by (done || lia). done.
  - total_parse. unfold ReadBigEndianSigned.
    destruct (ReadBigEndian_Some 3 data 0 Hu) as (v & -> & _); [lia|lia|by eexists].
Qed.

#[export] Instance TransportSequenceNumber_faithful : Faithful TransportSequenceNumber is_u16 id.
Proof.
  split; cbn [TransportSequenceNumber ValueSize Write ParseValue];
    unfold TransportSequenceNumber_Write, TransportSequenceNumber_Parse.
  - lia.
  - whole_integer.
    by rewrite read_whole by done.
  - total_parse. destruct (ReadBigEndian_Some 2 data 0 Hu) as (v & -> & _); [lia|lia|by eexists].
Qed.

(** [RTC_DCHECK_LE(rtp_time, 0x00ffffff)] lets values pass that do not come back. *)
Lemma offset_lost : TransmissionOffset_Write [0; 0; 0] 0x00ffffff = Some (true, [255; 255; 255]) /\
  TransmissionOffset_Parse [255; 255; 255] = Some (Some (-1)).
Proof. done. Qed.

(** The time in units of 2^-18 seconds, rounded, modulo 64 seconds. *)
Lemma MsTo24Bits_spec time_ms :
  0 <= time_ms < 2 ^ 44 -> MsTo24Bits time_ms = (time_ms * 2 ^ 18 + 500) / 1000 mod 2 ^ 24.
Proof.
  intros Ht. unfold MsTo24Bits. change 0x00FFFFFF with (Z.ones 24). rewrite Z.land_ones, shiftl_mul by lia.
  rewrite Z.quot_div_nonneg by lia. unfold u32. rewrite Z.mod_mod_divide; [done|].
  by exists (2 ^ 8).
Qed.

(** ** Bytes with flags *)

(** A property of the values below [n], by evaluation. *)
Lemma below_all (P : Z -> bool) (n : nat) :
  forallb (fun k => P (Z.of_nat k)) (seq 0 n) = true -> forall v, 0 <= v < Z.of_nat n -> P v = true.
Proof.
  rewrite forallb_forall. intros H v Hv. rewrite <- (Z2Nat.id v) by lia. apply H, in_seq. lia.
Qed.

Lemma put_whole data v : zlen data = 1 -> zput data 0 v = Some [v].
Proof. destruct data as [|x [|y data]]; [done|done|]. rewrite !zlen_cons. pose proof (zlen_nonneg data). lia. Qed.

Lemma zget_head v l : zget (v :: l) 0 = Some v.
Proof. done. Qed.

Definition AudioLevel_Parse (data : list Z) : option (option (bool * Z)) :=
  if negb (zlen data =? 1) then Some None
  else
    d ← zget data 0;
    Some (Some (negb (Z.land d 0x80 =? 0), Z.land d 0x7F)).

Definition AudioLevel_Write (data : list Z) (value : bool * Z) : option (bool * list Z) :=
  let '(voice_activity, audio_level) := value in
  if 0x7f <? audio_level then None  (* RTC_CHECK_LE *)
  else
    data ← zput data 0 (Z.lor (if voice_activity : bool then 0x80 else 0x00) audio_level);
    Some (true, data).

Definition AudioLevel : Extension (bool * Z) :=
  mkExtension kRtpExtensionAudioLevel (fun _ => 1) AudioLevel_Write AudioLevel_Parse.

Lemma audio_byte (va : bool) level :
  0 <= level <= 0x7f ->
  let b := Z.lor (if va then 0x80 else 0) level in
  is_u8 b /\ negb (Z.land b 0x80 =? 0) = va /\ Z.land b 0x7F = level.
Proof.
  intros Hl b.
  pose proof (below_all (fun l => let b va := Z.lor (if va : bool then 0x80 else 0) l in
    let ok va := (0 <=? b va) && (b va <? 2 ^ 8) && Bool.eqb (negb (Z.land (b va) 0x80 =? 0)) va &&
      (Z.land (b va) 0x7F =? l) in ok true && ok false) 128 ltac:(by vm_compute) level ltac:(lia)) as H.
  cbv beta zeta in H. rewrite !andb_true_iff, !Z.leb_le, !Z.ltb_lt, !eqb_true_iff, !Z.eqb_eq in H.
  unfold is_u8, b. destruct va; tauto.
Qed.

#[export] Instance AudioLevel_faithful : Faithful AudioLevel (fun v => 0 <= v.2 <= 0x7f) id.
Proof.
  split; cbn [AudioLevel ValueSize Write ParseValue].
  - lia.
  - intros data [va level] Hu Hv Hl. cbn [snd] in Hv. unfold AudioLevel_Write.
    rewrite (proj2 (Z.ltb_ge _ _)), put_whole by (done || lia). eexists. split; [reflexivity|].
    destruct (audio_byte va level Hv) as (H1 & H3 & H4). split; [by rewrite zlen_cons|]. split.
    + by constructor.
    + unfold AudioLevel_Parse. change (negb (_ =? 1)) with false. cbv iota. rewrite zget_head. cbn [mbind option_bind].
      by rewrite H3, H4.
  - unfold AudioLevel_Parse. total_parse. destruct (zget_is_Some data 0) as [d ->]; [lia|by eexists].
Qed.

Definition ConvertVideoRotationToCVOByte (rotation : VideoRotation) : Z :=
  match rotation with
  | kVideoRotation_0 => 0
  | kVideoRotation_90 => 1
  | kVideoRotation_180 => 2
  | kVideoRotation_270 => 3
  end.

Definition ConvertCVOByteToVideoRotation (cvo_byte : Z) : VideoRotation :=
  match Z.land cvo_byte 0x3 with
  | 0 => kVideoRotation_0
  | 1 => kVideoRotation_90
  | 2 => kVideoRotation_180
  | 3 => kVideoRotation_270
  | _ => kVideoRotation_0
  end.

Definition VideoOrientation_Parse (data : list Z) : option (option VideoRotation) :=
  if negb (zlen data =? 1) then Some None
  else d ← zget data 0; Some (Some (ConvertCVOByteToVideoRotation d)).

Definition VideoOrientation_Write (data : list Z) (rotation : VideoRotation) : option (bool * list Z) :=
  data ← zput data 0 (ConvertVideoRotationToCVOByte rotation); Some (true, data).

Definition VideoOrientation : Extension VideoRotation :=
  mkExtension kRtpExtensionVideoRotation (fun _ => 1) VideoOrientation_Write VideoOrientation_Parse.

#[export] Instance VideoOrientation_faithful : Faithful VideoOrientation (fun _ => True) id.
Proof.
  split; cbn [VideoOrientation ValueSize Write ParseValue].
  - lia.
  - intros data v Hu _ Hl. unfold VideoOrientation_Write. rewrite put_whole by done. eexists. split; [done|].
    split; [by rewrite zlen_cons|]. split; [|by destruct v]. by destruct v; repeat constructor.
  - unfold VideoOrientation_Parse. total_parse. destruct (zget_is_Some data 0) as [d ->]; [lia|by eexists].
Qed.

(** The byte itself. *)
Definition VideoOrientation_ParseByte (data : list Z) : option (option Z) :=
  if negb (zlen data =? 1) then Some None else d ← zget data 0; Some (Some d).

Definition VideoOrientation_WriteByte (data : list Z) (value : Z) : option (bool * list Z) :=
  data ← zput data 0 value; Some (true, data).

Definition VideoOrientationByte : Extension Z :=
  mkExtension kRtpExtensionVideoRotation (fun _ => 1) VideoOrientation_WriteByte VideoOrientation_ParseByte.

#[export] Instance VideoOrientationByte_faithful : Faithful VideoOrientationByte is_u8 id.
Proof.
  split; cbn [VideoOrientationByte ValueSize Write ParseValue].
  - lia.
  - intros data v Hu Hv Hl. unfold VideoOrientation_WriteByte. rewrite put_whole by done. eexists. split; [done|].
    split; [by rewrite zlen_cons|]. split; [by constructor|done].
  - unfold VideoOrientation_ParseByte. total_parse. destruct (zget_is_Some data 0) as [d ->]; [lia|by eexists].
Qed.

(** The type of the content: a byte with an experiment, a simulcast stream and
    a flag. *)
Definition kScreenshareBitsMask : Z := Z.shiftl 1 1 - 1.
Definition kSimulcastShift : Z := 1.
Definition kSimulcastBitsSize : Z := 2.
Definition kSimulcastBitsMask : Z := Z.shiftl (Z.shiftl 1 kSimulcastBitsSize - 1) kSimulcastShift.
Definition kExperimentShift : Z := 3.
Definition kExperimentBitsSize : Z := 3.
Definition kExperimentBitsMask : Z := Z.shiftl (Z.shiftl 1 kExperimentBitsSize - 1) kExperimentShift.
Definition kTotalBitsSize : Z := 1 + kSimulcastBitsSize + kExperimentBitsSize.

(** The content type after the call, if it was set. *)
Definition SetExperimentId (content_type experiment_id : Z) : option Z :=
  if Z.shiftl 1 kExperimentBitsSize <=? experiment_id then None
  else Some (u8 (Z.lor (Z.land content_type (Z.lnot kExperimentBitsMask))
                       (Z.land (Z.shiftl experiment_id kExperimentShift) kExperimentBitsMask))).

Definition SetSimulcastId (content_type simulcast_id : Z) : option Z :=
  if Z.shiftl 1 kSimulcastBitsSize <=? simulcast_id then None
  else Some (u8 (Z.lor (Z.land content_type (Z.lnot kSimulcastBitsMask))
                       (Z.land (Z.shiftl simulcast_id kSimulcastShift) kSimulcastBitsMask))).

Definition GetExperimentId (content_type : Z) : Z :=
  Z.shiftr (Z.land content_type kExperimentBitsMask) kExperimentShift.

Definition GetSimulcastId (content_type : Z) : Z :=
  Z.shiftr (Z.land content_type kSimulcastBitsMask) kSimulcastShift.

Definition IsScreenshare (content_type : Z) : bool := 0 <? Z.land content_type kScreenshareBitsMask.

Definition IsValidContentType (value : Z) : bool := value <? Z.shiftl 1 kTotalBitsSize.

Definition VideoContentType_Parse (data : list Z) : option (option Z) :=
  if zlen data =? 1 then
    d ← zget data 0; Some (if IsValidContentType d then Some d else None)
  else Some None.

Definition VideoContentType_Write (data : list Z) (content_type : Z) : option (bool * list Z) :=
  data ← zput data 0 content_type; Some (true, data).

Definition VideoContentTypeExtension : Extension Z :=
  mkExtension kRtpExtensionVideoContentType (fun _ => 1) VideoContentType_Write VideoContentType_Parse.

#[export] Instance VideoContentType_faithful :
  Faithful VideoContentTypeExtension (fun v => 0 <= v /\ IsValidContentType v = true) id.
Proof.
  split; cbn [VideoContentTypeExtension ValueSize Write ParseValue].
  - lia.
  - intros data v Hu [H0 Hv] Hl. unfold VideoContentType_Write. rewrite put_whole by done. eexists.
    split; [done|]. split; [by rewrite zlen_cons|]. split.
    + constructor; [|done]. apply Z.ltb_lt in Hv. change (Z.shiftl 1 kTotalBitsSize) with 64 in Hv. clia.
    + unfold VideoContentType_Parse. change (zlen [v] =? 1) with true. cbv iota. rewrite zget_head. cbn [mbind option_bind]. by rewrite Hv.
  - intros data Hu. unfold VideoContentType_Parse. destruct (Z.eqb_spec (zlen data) 1); [|by eexists].
    destruct (zget_is_Some data 0) as [d ->]; [lia|by eexists].
Qed.

(** The three parts of a content type do not interfere. *)
Lemma SetExperimentId_spec c e :
  is_u8 c -> 0 <= e < 8 ->
  exists c', SetExperimentId c e = Some c' /\ GetExperimentId c' = e /\ GetSimulcastId c' = GetSimulcastId c /\
    IsScreenshare c' = IsScreenshare c /\ IsValidContentType c' = IsValidContentType c.
Proof.
  intros Hc He. pose proof (below_all (fun e => forallb (fun n => let c := Z.of_nat n in
    match SetExperimentId c e with
    | None => false
    | Some c' => (GetExperimentId c' =? e) && (GetSimulcastId c' =? GetSimulcastId c) &&
        Bool.eqb (IsScreenshare c') (IsScreenshare c) && Bool.eqb (IsValidContentType c') (IsValidContentType c)
    end) (seq 0 256)) 8 ltac:(by vm_compute) e He) as H.
  cbv beta in H. rewrite forallb_forall in H. specialize (H (Z.to_nat c) ltac:(apply in_seq; clia)).
  cbv zeta in H. rewrite !Z2Nat.id in H by clia. destruct (SetExperimentId c e) as [c'|]; [|done].
  exists c'. rewrite !andb_true_iff, !Z.eqb_eq, !eqb_true_iff in H. tauto.
Qed.

Lemma SetSimulcastId_spec c e :
  is_u8 c -> 0 <= e < 4 ->
  exists c', SetSimulcastId c e = Some c' /\ GetSimulcastId c' = e /\ GetExperimentId c' = GetExperimentId c /\
    IsScreenshare c' = IsScreenshare c /\ IsValidContentType c' = IsValidContentType c.
Proof.
  intros Hc He. pose proof (below_all (fun e => forallb (fun n => let c := Z.of_nat n in
    match SetSimulcastId c e with
    | None => false
    | Some c' => (GetSimulcastId c' =? e) && (GetExperimentId c' =? GetExperimentId c) &&
        Bool.eqb (IsScreenshare c') (IsScreenshare c) && Bool.eqb (IsValidContentType c') (IsValidContentType c)
    end) (seq 0 256)) 4 ltac:(by vm_compute) e He) as H.
  cbv beta in H. rewrite forallb_forall in H. specialize (H (Z.to_nat c) ltac:(apply in_seq; clia)).
  cbv zeta in H. rewrite !Z2Nat.id in H by clia. destruct (SetSimulcastId c e) as [c'|]; [|done].
  exists c'. rewrite !andb_true_iff, !Z.eqb_eq, !eqb_true_iff in H. tauto.
Qed.

(** ** Delays and feedback requests *)

Record PlayoutDelay := mkPlayoutDelay { min_ms : Z; max_ms : Z }.

Definition kGranularityMs : Z := 10.
Definition kMaxMs : Z := 0xfff * kGranularityMs.

Definition PlayoutDelayLimits_Parse (data : list Z) : option (option PlayoutDelay) :=
  if negb (zlen data =? 3) then Some None
  else
    raw ← ReadBigEndian 3 data 0;
    let min_raw := u16 (Z.shiftr raw 12) in
    let max_raw := u16 (Z.land raw 0xfff) in
    if max_raw <? min_raw then Some None
    else Some (Some (mkPlayoutDelay (min_raw * kGranularityMs) (max_raw * kGranularityMs))).

Definition PlayoutDelayLimits_Write (data : list Z) (playout_delay : PlayoutDelay) : option (bool * list Z) :=
  let min_delay := u32 (Z.quot (min_ms playout_delay) kGranularityMs) in
  let max_delay := u32 (Z.quot (max_ms playout_delay) kGranularityMs) in
  data ← WriteBigEndian 3 data 0 (Z.lor (u32 (Z.shiftl min_delay 12)) max_delay);
  Some (true, data).

Definition PlayoutDelayLimits : Extension PlayoutDelay :=
  mkExtension kRtpExtensionPlayoutDelay (fun _ => 3) PlayoutDelayLimits_Write PlayoutDelayLimits_Parse.

(** Delays arrive in steps of ten milliseconds. *)
Definition delay_steps (d : PlayoutDelay) : PlayoutDelay :=
  mkPlayoutDelay (min_ms d / kGranularityMs * kGranularityMs) (max_ms d / kGranularityMs * kGranularityMs).

#[export] Instance PlayoutDelayLimits_faithful :
  Faithful PlayoutDelayLimits (fun d => 0 <= min_ms d <= max_ms d /\ max_ms d <= kMaxMs) delay_steps.
Proof.
  split; cbn [PlayoutDelayLimits ValueSize Write ParseValue];
    unfold PlayoutDelayLimits_Write, PlayoutDelayLimits_Parse, delay_steps, kMaxMs, kGranularityMs.
  - lia.
  - whole_integer. destruct v as [lo hi]. cbn [min_ms max_ms] in *.
    rewrite !Z.quot_div_nonneg by lia.
    assert (Hlo : 0 <= lo / 10 <= hi / 10) by (split; [apply Z.div_pos; lia|apply Z.div_le_mono; lia]).
    assert (Hhi : hi / 10 <= 4095) by (apply Z.div_le_upper_bound; lia).
    rewrite (u32_id (lo / 10)), (u32_id (hi / 10)) by (unfold is_u32; lia). rewrite shiftl_mul by lia.
    rewrite u32_id by (unfold is_u32; lia). rewrite (lor_disjoint _ _ 12); [|lia|apply Z.mod_mul; lia|lia].
    rewrite read_whole by lia. cbn [mbind option_bind]. change 0xfff with (Z.ones 12).
    rewrite shiftr_div, Z.land_ones by lia.
    assert (E1 : (lo / 10 * 2 ^ 12 + hi / 10) / 2 ^ 12 = lo / 10) by (symmetry; apply (Z.div_unique_pos _ _ _ (hi / 10)); lia).
    assert (E2 : (lo / 10 * 2 ^ 12 + hi / 10) mod 2 ^ 12 = hi / 10) by (symmetry; apply (Z.mod_unique_pos _ _ (lo / 10)); lia).
    rewrite E1, E2, !u16_id by (unfold is_u16; lia). by rewrite (proj2 (Z.ltb_ge _ _)) by lia.
  - total_parse. destruct (ReadBigEndian_Some 3 data 0 Hu) as (v & -> & _); [lia|lia|].
    cbn [mbind option_bind]. destruct (_ <? _); by eexists.
Qed.

Record FeedbackRequest := mkFeedback { include_timestamps : bool; sequence_count : Z }.

Definition kIncludeTimestampsBit : Z := Z.shiftl 1 15.

Definition TransportSequenceNumberV2_Parse (data : list Z) : option (option (Z * option FeedbackRequest)) :=
  if negb (zlen data =? 4) && negb (zlen data =? 2) then Some None
  else
    transport_sequence_number ← ReadBigEndian 2 data 0;
    if zlen data =? 4 then
      feedback_request_raw ← ReadBigEndian 2 data 2;
      let include_timestamps := negb (Z.land feedback_request_raw kIncludeTimestampsBit =? 0) in
      let sequence_count := u16 (Z.land feedback_request_raw (Z.lnot kIncludeTimestampsBit)) in
      Some (Some (transport_sequence_number,
        if negb (sequence_count =? 0) then Some (mkFeedback include_timestamps sequence_count) else None))
    else Some (Some (transport_sequence_number, None)).

Definition TransportSequenceNumberV2_ValueSize (v : Z * option FeedbackRequest) : Z :=
  match v.2 with Some _ => 4 | None => 2 end.

Definition TransportSequenceNumberV2_Write (data : list Z) (v : Z * option FeedbackRequest) :
    option (bool * list Z) :=
  let '(transport_sequence_number, feedback_request) := v in
  data ← WriteBigEndian 2 data 0 transport_sequence_number;
  match feedback_request with
  | None => Some (true, data)
  | Some r =>
      let feedback_request_raw :=
        u16 (Z.lor (sequence_count r) (if include_timestamps r then kIncludeTimestampsBit else 0)) in
      data ← WriteBigEndian 2 data 2 feedback_request_raw;
      Some (true, data)
  end.

Definition TransportSequenceNumberV2 : Extension (Z * option FeedbackRequest) :=
  mkExtension kRtpExtensionTransportSequenceNumber02 TransportSequenceNumberV2_ValueSize
    TransportSequenceNumberV2_Write TransportSequenceNumberV2_Parse.

(** A request for the feedback of no packet is no request. *)
Definition proper_request (v : Z * option FeedbackRequest) : Z * option FeedbackRequest :=
  match v.2 with Some r => if sequence_count r =? 0 then (v.1, None) else v | None => v end.

Lemma four_bytes d : zlen d = 4 -> exists a b c e, d = [a; b; c; e].
Proof.
  destruct d as [|a [|b [|c [|e [|f d]]]]]; try done; [by eauto 6|].
  rewrite !zlen_cons. pose proof (zlen_nonneg d). lia.
Qed.

Lemma write_second data bs v :
  zlen bs = 2 -> zlen data = 4 ->
  write_bytes data 0 bs ≫= (fun d => write_bytes d 2 (be_bytes 2 v)) = Some (bs ++ be_bytes 2 v).
Proof.
  intros Hb (a & b & c & e & ->)%four_bytes.
  destruct bs as [|x [|y [|z bs]]]; try done. rewrite !zlen_cons in Hb. pose proof (zlen_nonneg bs). lia.
Qed.

Lemma request_raw (ts : bool) count :
  0 <= count < 2 ^ 15 ->
  let raw := u16 (Z.lor count (if ts then kIncludeTimestampsBit else 0)) in
  is_u16 raw /\ negb (Z.land raw kIncludeTimestampsBit =? 0) = ts /\
  u16 (Z.land raw (Z.lnot kIncludeTimestampsBit)) = count.
Proof.
  intros Hc raw. assert (Hraw : raw = (if ts then 2 ^ 15 else 0) + count).
  { unfold raw, kIncludeTimestampsBit. rewrite Z.lor_comm, (lor_disjoint _ _ 15) by (by destruct ts || lia).
    apply u16_id. destruct ts; clia. }
  split; [rewrite Hraw; destruct ts; clia|]. unfold kIncludeTimestampsBit. rewrite land_bit by lia.
  rewrite Hraw at 1. rewrite negb_involutive, testbit_top by (destruct ts; lia). split.
  - destruct ts; [apply Z.leb_le|apply Z.leb_gt]; lia.
  - assert (E : Z.land raw (Z.lnot (Z.shiftl 1 15)) = raw mod 2 ^ 15).
    { rewrite <- Z.ldiff_land, shiftl_mul, Z.mul_1_l by lia. apply Z.bits_inj'. intros i Hi.
      rewrite Z.ldiff_spec, Z.pow2_bits_eqb by lia. destruct (Z.lt_ge_cases i 15).
      - rewrite (proj2 (Z.eqb_neq 15 i)), andb_true_r, Z.mod_pow2_bits_low by lia. done.
      - rewrite Z.mod_pow2_bits_high by lia. destruct (Z.eqb_spec 15 i); [apply andb_false_r|].
        rewrite <- (Z.mod_small raw (2 ^ 16)), Z.mod_pow2_bits_high by (lia || rewrite Hraw; destruct ts; lia). done. }
    rewrite E, Hraw. destruct ts; unfold u16; dmlia.
Qed.

#[export] Instance TransportSequenceNumberV2_faithful :
  Faithful TransportSequenceNumberV2
    (fun v => is_u16 v.1 /\ match v.2 with Some r => 0 <= sequence_count r < 2 ^ 15 | None => True end) proper_request.
Proof.
  split; cbn [TransportSequenceNumberV2 ValueSize Write ParseValue];
    unfold TransportSequenceNumberV2_ValueSize, TransportSequenceNumberV2_Write, TransportSequenceNumberV2_Parse.
  - intros v _. destruct v.2; lia.
  - intros data [tsn [[ts count]|]] Hu [Ht Hr] Hl; cbn [fst snd sequence_count include_timestamps] in *.
    + destruct (request_raw ts count Hr) as (Hraw & Hts & Hcount). cbv zeta in *. set (raw := u16 _) in *.
      pose proof (write_second data (be_bytes 2 tsn) raw (zlen_be_bytes 2 _) Hl) as Hw.
      exists (be_bytes 2 tsn ++ be_bytes 2 raw). split; [|split_and!].
      * rewrite WriteBigEndian_bytes by lia. destruct (write_bytes data 0 _) as [d|] eqn:E; cbn [mbind option_bind] in Hw |- *; [|done].
        apply write_bytes_frame in E as (_ & _ & E & _). rewrite WriteBigEndian_bytes by lia. by rewrite Hw.
      * by rewrite zlen_app, !zlen_be_bytes, Hl.
      * apply list.Forall_app; split; apply be_bytes_u8.
      * rewrite zlen_app, !zlen_be_bytes. change (negb (_ =? 4) && _) with false. cbv iota.
        change (Z.of_nat 2 + Z.of_nat 2 =? 4) with true. cbv iota.
        assert (Hb : Forall is_u8 (be_bytes 2 tsn ++ be_bytes 2 raw)) by (apply list.Forall_app; split; apply be_bytes_u8).
        rewrite (ReadBigEndian_bytes 2 _ 0 tsn Hb) by done. cbn [mbind option_bind].
        rewrite (ReadBigEndian_bytes 2 _ 2 raw Hb) by done. cbn [mbind option_bind].
        change (8 * Z.of_nat 2) with 16. rewrite !Z.mod_small by done. rewrite Hts, Hcount.
        unfold proper_request. cbn [fst snd sequence_count]. by destruct (count =? 0).
    + exists (be_bytes 2 tsn). rewrite write_whole by done. split; [done|].
      split; [by rewrite zlen_be_bytes, Hl|]. split; [apply be_bytes_u8|]. rewrite zlen_be_bytes.
      change (negb (_ =? 4) && _) with false. change (Z.of_nat 2 =? 4) with false. cbv iota.
      by rewrite read_whole by done.
  - intros data Hu. destruct (Z.eqb_spec (zlen data) 4) as [E|E], (Z.eqb_spec (zlen data) 2); cbn [negb andb];
      try (by eexists); try lia.
    + destruct (ReadBigEndian_Some 2 data 0 Hu) as (v & -> & _); [lia|lia|]. cbn [mbind option_bind].
      destruct (ReadBigEndian_Some 2 data 2 Hu) as (r & -> & _); [lia|lia|]. by eexists.
    + destruct (ReadBigEndian_Some 2 data 0 Hu) as (v & -> & _); [lia|lia|]. by eexists.
Qed.

(** ** Video timing *)

Record VideoSendTiming := mkTiming {
  encode_start_delta_ms : Z;
  encode_finish_delta_ms : Z;
  packetization_finish_delta_ms : Z;
  pacer_exit_delta_ms : Z;
  network_timestamp_delta_ms : Z;
  network2_timestamp_delta_ms : Z;
  flags : Z;
}.

#[export] Instance eta_Timing : Eta VideoSendTiming := fun t =>
  mkTiming (encode_start_delta_ms t) (encode_finish_delta_ms t) (packetization_finish_delta_ms t)
    (pacer_exit_delta_ms t) (network_timestamp_delta_ms t) (network2_timestamp_delta_ms t) (flags t).

Definition kFlagsOffset : Z := 0.
Definition kEncodeStartDeltaOffset : Z := 1.
Definition kEncodeFinishDeltaOffset : Z := 3.
Definition kPacketizationFinishDeltaOffset : Z := 5.
Definition kPacerExitDeltaOffset : Z := 7.
Definition kNetworkTimestampDeltaOffset : Z := 9.
Definition kNetwork2TimestampDeltaOffset : Z := 11.
Definition kTimingValueSizeBytes : Z := 13.

(** The fields after the flags, which the old format of the value lacks. *)
Definition timing_fields (data : list Z) (flags off : Z) : option (option VideoSendTiming) :=
  t1 ← ReadBigEndian 2 data (kEncodeStartDeltaOffset - off);
  t2 ← ReadBigEndian 2 data (kEncodeFinishDeltaOffset - off);
  t3 ← ReadBigEndian 2 data (kPacketizationFinishDeltaOffset - off);
  t4 ← ReadBigEndian 2 data (kPacerExitDeltaOffset - off);
  t5 ← ReadBigEndian 2 data (kNetworkTimestampDeltaOffset - off);
  t6 ← ReadBigEndian 2 data (kNetwork2TimestampDeltaOffset - off);
  Some (Some (mkTiming t1 t2 t3 t4 t5 t6 flags)).

Definition VideoTiming_Parse (data : list Z) : option (option VideoSendTiming) :=
  if zlen data =? kTimingValueSizeBytes - 1 then timing_fields data 0 1
  else if zlen data =? kTimingValueSizeBytes then
    flags ← ReadBigEndian 1 data 0; timing_fields data flags 0
  else Some None.

Definition VideoTiming_Write (data : list Z) (timing : VideoSendTiming) : option (bool * list Z) :=
  data ← WriteBigEndian 1 data kFlagsOffset (flags timing);
  data ← WriteBigEndian 2 data kEncodeStartDeltaOffset (encode_start_delta_ms timing);
  data ← WriteBigEndian 2 data kEncodeFinishDeltaOffset (encode_finish_delta_ms timing);
  data ← WriteBigEndian 2 data kPacketizationFinishDeltaOffset (packetization_finish_delta_ms timing);
  data ← WriteBigEndian 2 data kPacerExitDeltaOffset (pacer_exit_delta_ms timing);
  data ← WriteBigEndian 2 data kNetworkTimestampDeltaOffset (network_timestamp_delta_ms timing);
  data ← WriteBigEndian 2 data kNetwork2TimestampDeltaOffset (network2_timestamp_delta_ms timing);
  Some (true, data).

(** A single time, at [offset]. *)
Definition VideoTiming_WriteDelta (data : list Z) (time_delta_ms offset : Z) : option (bool * list Z) :=
  data ← WriteBigEndian 2 data offset time_delta_ms; Some (true, data).

Definition VideoTimingExtension : Extension VideoSendTiming :=
  mkExtension kRtpExtensionVideoTiming (fun _ => kTimingValueSizeBytes) VideoTiming_Write VideoTiming_Parse.

Definition timing_ok (t : VideoSendTiming) : Prop :=
  is_u16 (encode_start_delta_ms t) /\ is_u16 (encode_finish_delta_ms t) /\
  is_u16 (packetization_finish_delta_ms t) /\ is_u16 (pacer_exit_delta_ms t) /\
  is_u16 (network_timestamp_delta_ms t) /\ is_u16 (network2_timestamp_delta_ms t) /\ is_u8 (flags t).

(** The bytes of a timing value. *)
Definition timing_bytes (t : VideoSendTiming) : list Z :=
  be_bytes 1 (flags t) ++ be_bytes 2 (encode_start_delta_ms t) ++ be_bytes 2 (encode_finish_delta_ms t) ++
  be_bytes 2 (packetization_finish_delta_ms t) ++ be_bytes 2 (pacer_exit_delta_ms t) ++
  be_bytes 2 (network_timestamp_delta_ms t) ++ be_bytes 2 (network2_timestamp_delta_ms t).

Lemma timing_bytes_u8 t : Forall is_u8 (timing_bytes t).
Proof. unfold timing_bytes. repeat (apply list.Forall_app; split; [apply be_bytes_u8|]). apply be_bytes_u8. Qed.

Lemma VideoTiming_Write_bytes data t : zlen data = 13 -> VideoTiming_Write data t = Some (true, timing_bytes t).
Proof.
  intros Hl. destruct data as [|b0 [|b1 [|b2 [|b3 [|b4 [|b5 [|b6 [|b7 [|b8 [|b9 [|b10 [|b11 [|b12 [|b13 data]]]]]]]]]]]]]];
    try done. rewrite !zlen_cons in Hl. pose proof (zlen_nonneg data). lia.
Qed.

Lemma VideoTiming_Parse_bytes t : timing_ok t -> VideoTiming_Parse (timing_bytes t) = Some (Some t).
Proof.
  intros (H1 & H2 & H3 & H4 & H5 & H6 & H7). pose proof (timing_bytes_u8 t) as Hu.
  unfold VideoTiming_Parse, timing_fields. change (zlen (timing_bytes t)) with 13.
  change (13 =? kTimingValueSizeBytes - 1) with false. change (13 =? kTimingValueSizeBytes) with true. cbv iota.
  rewrite (ReadBigEndian_bytes 1 _ 0 (flags t) Hu) by done. cbn [mbind option_bind].
  rewrite (read_u16 _ (kEncodeStartDeltaOffset - 0) (encode_start_delta_ms t)), (read_u16 _ (kEncodeFinishDeltaOffset - 0) (encode_finish_delta_ms t)),
    (read_u16 _ (kPacketizationFinishDeltaOffset - 0) (packetization_finish_delta_ms t)), (read_u16 _ (kPacerExitDeltaOffset - 0) (pacer_exit_delta_ms t)),
    (read_u16 _ (kNetworkTimestampDeltaOffset - 0) (network_timestamp_delta_ms t)), (read_u16 _ (kNetwork2TimestampDeltaOffset - 0) (network2_timestamp_delta_ms t)) by done.
  cbn [mbind option_bind]. rewrite Z.mod_small by done. by destruct t.
Qed.

Lemma timing_fields_total data flags off :
  Forall is_u8 data -> 0 <= off <= 1 -> zlen data = 13 - off -> exists r, timing_fields data flags off = Some r.
Proof.
  intros Hu Ho Hl. unfold timing_fields, kEncodeStartDeltaOffset, kEncodeFinishDeltaOffset,
    kPacketizationFinishDeltaOffset, kPacerExitDeltaOffset, kNetworkTimestampDeltaOffset, kNetwork2TimestampDeltaOffset.
  do 6 (match goal with |- context [ReadBigEndian 2 data ?o] =>
    destruct (ReadBigEndian_Some 2 data o Hu) as (? & -> & _); [lia|lia|]; cbn [mbind option_bind] end).
  by eexists.
Qed.

#[export] Instance VideoTiming_faithful : Faithful VideoTimingExtension timing_ok id.
Proof.
  split; cbn [VideoTimingExtension ValueSize Write ParseValue].
  - unfold kTimingValueSizeBytes. lia.
  - intros data t Hu Ht Hl. exists (timing_bytes t). split; [by apply VideoTiming_Write_bytes|].
    split; [by rewrite Hl|]. split; [apply timing_bytes_u8|]. by apply VideoTiming_Parse_bytes.
  - intros data Hu. unfold VideoTiming_Parse, kTimingValueSizeBytes. cbn [Z.sub Z.add Z.opp Z.pos_sub Pos.pred_double].
    destruct (Z.eqb_spec (zlen data) (13 - 1)); [apply timing_fields_total; auto; lia|].
    destruct (Z.eqb_spec (zlen data) 13); [|by eexists].
    destruct (ReadBigEndian_Some 1 data 0 Hu) as (v & -> & _); [lia|lia|]. cbn [mbind option_bind].
    apply timing_fields_total; auto; lia.
Qed.

(** The time at which a packet leaves the pacer is filled in later, in place:
    nothing else of the value changes. *)
Lemma pacer_exit_in_place t v :
  timing_ok t -> is_u16 v ->
  exists data', VideoTiming_WriteDelta (timing_bytes t) v kPacerExitDeltaOffset = Some (true, data') /\
    VideoTiming_Parse data' = Some (Some (t <| pacer_exit_delta_ms := v |>)).
Proof.
  intros Ht Hv. exists (timing_bytes (t <| pacer_exit_delta_ms := v |>)). split; [done|].
  apply VideoTiming_Parse_bytes. destruct t. unfold timing_ok in *. cbn in *. tauto.
Qed.

(** ** Frame marking *)

Record FrameMarking := mkMarking {
  start_of_frame : bool;
  end_of_frame : bool;
  independent_frame : bool;
  discardable_frame : bool;
  base_layer_sync : bool;
  temporal_id : Z;
  layer_id : Z;
  tl0_pic_idx : Z;
}.

Definition kNoTemporalIdx : Z := 0xFF.
Definition kNoSpatialIdx : Z := 0xFF.

Definition IsScalable (temporal_id layer_id : Z) : bool :=
  negb (temporal_id =? kNoTemporalIdx) || negb (layer_id =? kNoSpatialIdx).

Definition FrameMarking_Parse (data : list Z) : option (option FrameMarking) :=
  if negb (zlen data =? 1) && negb (zlen data =? 3) then Some None
  else
    d0 ← zget data 0;
    let marking := mkMarking (negb (Z.land d0 0x80 =? 0)) (negb (Z.land d0 0x40 =? 0))
      (negb (Z.land d0 0x20 =? 0)) (negb (Z.land d0 0x10 =? 0)) in
    if zlen data =? 3 then
      d1 ← zget data 1;
      d2 ← zget data 2;
      Some (Some (marking (negb (Z.land d0 0x08 =? 0)) (Z.land d0 0x7) d1 d2))
    else Some (Some (marking false kNoTemporalIdx kNoSpatialIdx 0)).

Definition FrameMarking_ValueSize (frame_marking : FrameMarking) : Z :=
  if IsScalable (temporal_id frame_marking) (layer_id frame_marking) then 3 else 1.

(** [data[0] |= v] *)
Definition or_first (v : Z) (data : list Z) : option (list Z) :=
  d ← zget data 0; zput data 0 (u8 (Z.lor d v)).

Definition FrameMarking_Write (data : list Z) (frame_marking : FrameMarking) : option (bool * list Z) :=
  if 0x07 <? temporal_id frame_marking then None  (* RTC_CHECK_LE *)
  else
    data ← zput data 0 (if start_of_frame frame_marking then 0x80 else 0x00);
    data ← or_first (if end_of_frame frame_marking then 0x40 else 0x00) data;
    data ← or_first (if independent_frame frame_marking then 0x20 else 0x00) data;
    data ← or_first (if discardable_frame frame_marking then 0x10 else 0x00) data;
    if IsScalable (temporal_id frame_marking) (layer_id frame_marking) then
      data ← or_first (if base_layer_sync frame_marking then 0x08 else 0x00) data;
      data ← or_first (Z.land (temporal_id frame_marking) 0x07) data;
      data ← zput data 1 (layer_id frame_marking);
      data ← zput data 2 (tl0_pic_idx frame_marking);
      Some (true, data)
    else Some (true, data).

Definition FrameMarkingExtension : Extension FrameMarking :=
  mkExtension kRtpExtensionFrameMarking FrameMarking_ValueSize FrameMarking_Write FrameMarking_Parse.

Definition marking_ok (m : FrameMarking) : Prop :=
  0 <= temporal_id m <= 0x07 /\ is_u8 (layer_id m) /\ is_u8 (tl0_pic_idx m).

Lemma or_first_cons v d l : or_first v (d :: l) = Some (u8 (Z.lor d v) :: l).
Proof.
  unfold or_first. rewrite zget_head. cbn [mbind option_bind]. unfold zput, write_bytes.
  rewrite !zlen_cons, zlen_nil. pose proof (zlen_nonneg l). rewrite !(proj2 (Z.leb_le _ _)) by lia. done.
Qed.

Lemma FrameMarking_Write_bytes data m :
  zlen data = 3 -> marking_ok m ->
  exists d, FrameMarking_Write data m = Some (true, [d; layer_id m; tl0_pic_idx m]) /\ is_u8 d /\
    FrameMarking_Parse [d; layer_id m; tl0_pic_idx m] = Some (Some m).
Proof.
  intros Hl (Ht & _ & _). destruct data as [|x [|y [|z [|w data]]]]; try done;
    [|rewrite !zlen_cons in Hl; pose proof (zlen_nonneg data); lia].
  destruct m as [s e i dis b t l p]. cbn [temporal_id layer_id tl0_pic_idx] in *. unfold FrameMarking_Write.
  cbn [temporal_id layer_id tl0_pic_idx start_of_frame end_of_frame independent_frame discardable_frame base_layer_sync].
  rewrite (proj2 (Z.ltb_ge _ _)) by lia.
  assert (Hs : IsScalable t l = true).
  { unfold IsScalable. rewrite (proj2 (Z.eqb_neq t _)) by (unfold kNoTemporalIdx; lia). done. }
  rewrite Hs. change (zput [x; y; z] 0 _) with (Some [if s then 0x80 else 0x00; y; z]). cbn [mbind option_bind].
  rewrite or_first_cons; cbn [mbind option_bind]; rewrite or_first_cons; cbn [mbind option_bind];
  rewrite or_first_cons; cbn [mbind option_bind]; rewrite or_first_cons; cbn [mbind option_bind];
  rewrite or_first_cons; cbn [mbind option_bind].
  set (d := u8 _). exists d. split; [done|]. split; [apply u8_range|].
  assert (t = 0 \/ t = 1 \/ t = 2 \/ t = 3 \/ t = 4 \/ t = 5 \/ t = 6 \/ t = 7) as Hcase by lia.
  subst d. by destruct s, e, i, dis, b; (decompose [or] Hcase; subst t; vm_compute).
Qed.

#[export] Instance FrameMarking_faithful : Faithful FrameMarkingExtension marking_ok id.
Proof.
  split; cbn [FrameMarkingExtension ValueSize Write ParseValue]; unfold FrameMarking_ValueSize.
  - intros v _. destruct (IsScalable _ _); lia.
  - intros data m Hu Hm Hl.
    assert (Hs : IsScalable (temporal_id m) (layer_id m) = true).
    { unfold IsScalable. destruct Hm as [Ht _].
      rewrite (proj2 (Z.eqb_neq (temporal_id m) _)) by (unfold kNoTemporalIdx; lia). done. }
    rewrite Hs in Hl. destruct (FrameMarking_Write_bytes data m Hl Hm) as (d & Hw & Hd & Hp).
    eexists. split; [exact Hw|]. split; [by rewrite Hl|]. split; [|exact Hp].
    destruct Hm as (_ & ? & ?). do 3 (constructor; [done|]). constructor.
  - intros data Hu. unfold FrameMarking_Parse.
    destruct (Z.eqb_spec (zlen data) 1) as [E|E], (Z.eqb_spec (zlen data) 3) as [E'|E']; cbn [negb andb];
      try (by eexists); try lia; destruct (zget_is_Some data 0) as [d ->]; try lia; cbn [mbind option_bind]; [by eexists|].
    destruct (zget_is_Some data 1) as [d1 ->]; [lia|]. destruct (zget_is_Some data 2) as [d2 ->]; [lia|]. by eexists.
Qed.

(** The form for streams without layers can be parsed and has a size, but the
    check of the temporal index stops every attempt to write it. *)
Lemma marking_without_layers data m :
  IsScalable (temporal_id m) (layer_id m) = false ->
  FrameMarking_ValueSize m = 1 /\ FrameMarking_Write data m = None.
Proof.
  intros Hs. unfold FrameMarking_ValueSize, FrameMarking_Write. rewrite Hs. split; [done|].
  unfold IsScalable in Hs. apply orb_false_iff in Hs as [Ht _]. apply negb_false_iff, Z.eqb_eq in Ht. by rewrite Ht.
Qed.

(** ** Strings *)

(** [strnlen] within the view. *)
Fixpoint strnlen (data : list Z) : nat :=
  match data with [] => O | c :: data' => if c =? 0 then O else S (strnlen data') end.

Definition BaseRtpString_Parse (data : list Z) : option (option (list Z)) :=
  match data with
  | [] => Some None
  | c :: _ => if c =? 0 then Some None else Some (Some (take (strnlen data) data))
  end.

Definition kMaxValueSizeBytes : Z := 16.

Definition BaseRtpString_Write (data : list Z) (str : list Z) : option (bool * list Z) :=
  if kMaxValueSizeBytes <? zlen str then Some (false, data)
  else data ← write_bytes data 0 str; Some (true, data).

Definition RtpStreamId : Extension (list Z) :=
  mkExtension kRtpExtensionRtpStreamId zlen BaseRtpString_Write BaseRtpString_Parse.
Definition RepairedRtpStreamId : Extension (list Z) :=
  mkExtension kRtpExtensionRepairedRtpStreamId zlen BaseRtpString_Write BaseRtpString_Parse.
Definition RtpMid : Extension (list Z) :=
  mkExtension kRtpExtensionMid zlen BaseRtpString_Write BaseRtpString_Parse.

Definition string_ok (str : list Z) : Prop :=
  1 <= zlen str <= kMaxValueSizeBytes /\ Forall (fun c => is_u8 c /\ c <> 0) str.

Lemma strnlen_all str : Forall (fun c => is_u8 c /\ c <> 0) str -> strnlen str = length str.
Proof.
  induction 1 as [|c str [_ Hc] _ IH]; cbn [strnlen length]; [done|].
  by rewrite (proj2 (Z.eqb_neq _ _)), IH by done.
Qed.

Lemma write_over data str : zlen data = zlen str -> write_bytes data 0 str = Some str.
Proof.
  intros Hl. unfold write_bytes. rewrite Hl. pose proof (zlen_nonneg str). rewrite !(proj2 (Z.leb_le _ _)) by lia.
  cbn [andb]. rewrite take_0. cbn [app]. rewrite drop_ge by (unfold zlen in *; lia). by rewrite app_nil_r.
Qed.

Lemma string_faithful id : Faithful (mkExtension id zlen BaseRtpString_Write BaseRtpString_Parse) string_ok (fun v => v).
Proof.
  split; cbn [ValueSize Write ParseValue].
  - unfold string_ok, kMaxValueSizeBytes. lia.
  - intros data str Hu [Hl Hs] Hd. exists str. unfold BaseRtpString_Write. rewrite (proj2 (Z.ltb_ge _ _)) by lia.
    rewrite write_over by done. split; [done|]. split; [done|]. split.
    + eapply list.Forall_impl; [exact Hs|]. by intros c [? _].
    + unfold BaseRtpString_Parse. destruct str as [|c str]; [rewrite zlen_nil in Hl; lia|].
      pose proof Hs as [[_ Hc] _]%list.Forall_cons. rewrite (proj2 (Z.eqb_neq _ _)) by done.
      by rewrite strnlen_all, take_ge by (done || lia).
  - intros [|c data] _; cbn [BaseRtpString_Parse]; [by eexists|]. destruct (c =? 0); by eexists.
Qed.

#[export] Instance RtpStreamId_faithful : Faithful RtpStreamId string_ok (fun v => v) := string_faithful _.
#[export] Instance RepairedRtpStreamId_faithful : Faithful RepairedRtpStreamId string_ok (fun v => v) := string_faithful _.
#[export] Instance RtpMid_faithful : Faithful RtpMid string_ok (fun v => v) := string_faithful _.
