(* ===== verification/RtpReach.v ===== *)
(** * Packets a program can build, and what travels with them

    [SetExtension], [GetExtension] and [ReserveExtension] of
    [modules/rtp_rtcp/source/rtp_packet.h] for any extension that keeps its promise
    ([Faithful]), and the packets that sequences of calls build. *)

From S2P Require Import Prelude VcRenderer ByteIo CowBuffer RtpExtMap RtpExtensions RtpPacket RtpMem RtpParse RtpLayout RtpRoundtrip RtpBuild RtpExtend.

Open Scope Z_scope.
Open Scope c_scope.

Section reach.
Context `{Alloc}.

(** ** Extensions with values *)

Definition SetExtension {V R} (E : Extension V) (v : V) : stmt RtpPacket R bool :=
  let! buffer := AllocateExtension (kId E) (ValueSize E v) in
  match buffer with
  | None => ret false
  | Some (offset, size) =>
      let! p := get in
      let! bs := mem (read_bytes (data p) offset size) in
      let! '(ok, bs') := mem (Write E bs v) in
      WriteAt offset bs' ;;
      ret ok
  end.

(** [Some None]: there is no such extension or its value is not valid. *)
Definition GetExtension {V} (E : Extension V) (p : RtpPacket) : option (option V) :=
  match FindExtension p (kId E) with
  | None => Some None
  | Some (offset, size) =>
      if size =? 0 then Some None
      else raw ← read_bytes (data p) offset size; ParseValue E raw
  end.

Definition ReserveExtension {R} (type : RTPExtensionType) (kValueSizeBytes : Z) : stmt RtpPacket R bool :=
  let! buffer := AllocateExtension type kValueSizeBytes in
  match buffer with
  | None => ret false
  | Some (offset, _) => WriteAt offset (replicate (Z.to_nat kValueSizeBytes) 0) ;; ret true
  end.

(** ** The bytes of one extension *)

Fixpoint entry_value (d : list Z) (es : list ExtensionInfo) (id : Z) : option (list Z) :=
  match es with
  | [] => None
  | e :: es' => if ei_id e =? id then read_bytes d (ei_offset e) (ei_length e) else entry_value d es' id
  end.

(** The bytes of the extension of a type in a packet. *)
Definition extension_value (p : RtpPacket) (type : RTPExtensionType) : option (list Z) :=
  if GetId (extensions_ p) type =? kInvalidId then None
  else entry_value (data p) (extension_entries_ p) (GetId (extensions_ p) type).

Lemma find_value p id :
  entry_value (data p) (extension_entries_ p) id =
  match FindExtensionInfo p id with
  | Some e => read_bytes (data p) (ei_offset e) (ei_length e)
  | None => None
  end.
Proof.
  unfold FindExtensionInfo. induction (extension_entries_ p) as [|e es IH]; [done|].
  cbn [entry_value list_find]. destruct (Z.eqb_spec (ei_id e) id) as [E|E].
  - by rewrite decide_True by done.
  - rewrite decide_False, IH by done. by destruct (list_find _ es) as [[? ?]|].
Qed.

Lemma value_moved d d' es es' id : moved d d' es es' -> entry_value d' es' id = entry_value d es id.
Proof.
  induction 1 as [|e e' es es' (Hi & Hl & Hr) _ IH]; cbn [entry_value]; [done|]. by rewrite Hi, Hl, Hr, IH.
Qed.

Lemma value_app d es es' id :
  entry_value d (es ++ es') id = if bool_decide (id ∈ map ei_id es) then entry_value d es id else entry_value d es' id.
Proof.
  induction es as [|e es IH]; cbn [app map entry_value].
  - by rewrite bool_decide_false by apply not_elem_of_nil.
  - rewrite IH. destruct (Z.eqb_spec (ei_id e) id) as [E|E].
    + by rewrite bool_decide_true by (apply elem_of_cons; auto).
    + destruct (bool_decide_reflect (id ∈ map ei_id es)) as [Hin|Hin].
      * by rewrite bool_decide_true by (apply elem_of_cons; auto).
      * by rewrite bool_decide_false by (rewrite elem_of_cons; intros [?|?]; congruence).
Qed.

Lemma value_none d es id : id ∉ map ei_id es -> entry_value d es id = None.
Proof.
  induction es as [|e es IH]; cbn [map entry_value]; [done|]. rewrite not_elem_of_cons. intros [Hn Hin].
  rewrite (proj2 (Z.eqb_neq _ _)) by congruence. by apply IH.
Qed.

(** ** Writing a value in place *)

(** The bytes outside of the value of [e] are the same. *)
Lemma laid_write d d' two pos l e r fin :
  laid d two pos (l ++ e :: r) fin -> 0 <= pos -> fin <= zlen d -> fin <= zlen d' ->
  agree pos (ei_offset e) d d' -> agree (ei_offset e + ei_length e) fin d d' ->
  laid d' two pos (l ++ e :: r) fin /\ moved d d' l l /\ moved d d' r r /\
  pos < ei_offset e /\ 1 <= ei_length e <= 255 /\ ei_offset e + ei_length e <= fin.
Proof.
  rewrite !laid_app. intros (mid & Hl & He & Hr) H0 Hd Hd' Ha1 Ha2. cbn [laid] in *.
  pose proof (laid_le _ _ _ _ _ Hl). pose proof (entry_at_bounds _ _ _ _ He) as Hbd. pose proof (laid_le _ _ _ _ _ Hr).
  split_and!; try lia.
  - exists mid. split; [eapply laid_agree; [|exact Hl]; eapply agree_weaken; [..|exact Ha1]; lia|]. split.
    + eapply entry_at_agree; [|exact He]. eapply agree_weaken; [..|exact Ha1]; lia.
    + eapply laid_agree; [exact Ha2|exact Hr].
  - eapply moved_agree; [exact Hl|eapply agree_weaken; [..|exact Ha1]; lia|lia|lia|lia].
  - eapply moved_agree; [exact Hr|exact Ha2|lia|lia|lia].
Qed.

Lemma built_entries p e :
  built p -> e ∈ extension_entries_ p ->
  exists cc two, 0 <= cc < 16 /\
    ext_block (data p) cc two (extensions_size_ p) (extension_entries_ p) (payload_offset_ p) /\
    16 + 4 * cc < ei_offset e /\ 1 <= ei_length e <= 255 /\ ei_offset e + ei_length e <= 16 + 4 * cc + extensions_size_ p /\
    16 + 4 * cc + extensions_size_ p <= payload_offset_ p.
Proof.
  intros Hb He. destruct (bu_bytes p Hb) as (cc & Hcc & _ & [(_ & E & _)|[two Hblk]]).
  - rewrite E in He. by apply not_elem_of_nil in He.
  - exists cc, two. pose proof (eb_laid _ _ _ _ _ _ Hblk) as Hl. pose proof (words_bounds _ (eb_size _ _ _ _ _ _ Hblk)).
    pose proof (eb_offset _ _ _ _ _ _ Hblk). destruct (laid_entry _ _ _ _ _ _ Hl He) as (pos & Hp & Hat & Hf).
    apply entry_at_bounds in Hat. split_and!; auto; lia.
Qed.

Lemma write_value_wp {R} p l e r bs (QR : R -> RtpPacket -> Prop) :
  built p -> extension_entries_ p = l ++ e :: r -> zlen bs = ei_length e -> Forall is_u8 bs ->
  wp (WriteAt (ei_offset e) bs) p
     (fun _ p' => built p' /\ same_members p p' /\ extension_entries_ p' = l ++ e :: r /\
        moved (data p) (data p') l l /\ moved (data p) (data p') r r /\
        read_bytes (data p') (ei_offset e) (ei_length e) = Some bs) QR.
Proof.
  intros Hb Hes Hbs Hu. pose proof (built_bounds p Hb) as Hbd. pose proof (bu_wf p Hb) as Hwf.
  assert (He : e ∈ extension_entries_ p) by (rewrite Hes; apply elem_of_app; right; by left).
  destruct (built_entries p e Hb He) as (cc & two & Hcc & Hblk & Ho & Hlen & Hend & Hpo).
  apply WriteAt_wp; [done|done|lia|lia|]. intros b' Hb'.
  destruct (wrote_wf p _ _ _ true Hb Hb') as (Hwf' & Hc & Hs & Hl & Hsol).
  pose proof (wrote_agree _ _ _ _ _ 0 (ei_offset e) Hb' ltac:(lia) ltac:(lia)) as Ha1.
  pose proof (wrote_agree _ _ _ _ _ (ei_offset e + ei_length e) (packet_size p) Hb' ltac:(lia) ltac:(lia)) as Ha2.
  fold (data p) in Ha1, Ha2. pose proof (eb_laid _ _ _ _ _ _ Hblk) as Hlaid. rewrite Hes in Hlaid.
  assert (Hld : packet_size p <= zlen (data p)) by (unfold capacity, capacity_, data in *; lia).
  destruct (laid_write (data p) (data_ b') two _ l e r _ Hlaid) as (Hlaid' & Hm1 & Hm2 & _);
    [lia|lia|lia|eapply agree_weaken; [..|exact Ha1]; lia|eapply agree_weaken; [..|exact Ha2]; lia|].
  pose proof (wrote_read _ _ _ _ _ Hb' ltac:(lia) ltac:(unfold capacity in *; lia)) as Hr. rewrite Hbs in Hr.
  destruct Hb as [_ Hcap Hsz Hps Hpad Hfh (cc' & Hcc' & H0 & Hext) Hlast]. packet. split; [|by split_and!; try done; unfold same_members; packet; split_and!].
  assert (Hcc0 : cc' = cc).
  { destruct Hext as [(E & _)|[two' Hblk']]; [pose proof (eb_size _ _ _ _ _ _ Hblk); lia|].
    pose proof (eb_offset _ _ _ _ _ _ Hblk). pose proof (eb_offset _ _ _ _ _ _ Hblk'). lia. }
  split; packet; auto.
  - by rewrite Hc.
  - eapply fixed_header_agree; [eapply agree_weaken; [..|exact Ha1]; lia|lia|exact Hfh].
  - exists cc. split; [done|]. split; [rewrite (Ha1 0) by lia; by rewrite <- Hcc0|]. right. exists two.
    destruct Hblk as [K1 K2 K3 K4 K5 K6 K7]. split; auto.
    + by apply (read_agree 0 (ei_offset e) (data_ (buffer_ p))); try lia.
    + by apply (read_agree 0 (ei_offset e) (data_ (buffer_ p))); try lia.
    + by rewrite Hes.
    + intros i Hi. rewrite Ha2 by lia. by apply K6.
  - intros Hp. unfold packet_size in *. packet. rewrite Ha2 by lia. by apply Hlast.
Qed.

(** ** Setting an extension *)

Lemma GetId_u8 m t : wf_ext_map m -> is_u8 (GetId m t).
Proof.
  intros (Hl & Hu & _). unfold GetId.
  destruct (lookup_lt_is_Some_2 (ids_ m) (type_index t)) as [v Hv]; [rewrite Hl; apply type_index_lt|].
  rewrite Hv. cbn. by eapply Forall_lookup_1.
Qed.

(** The extension [type] can be set to a value of [len] bytes in [p]. *)
Definition admits (p : RtpPacket) (type : RTPExtensionType) (len : Z) : Prop :=
  IsRegistered (extensions_ p) type = true /\ 1 <= len <= kMaxValueSize /\
  (extmap_allow_mixed_ (extensions_ p) = false ->
     len <= kOneByteHeaderExtensionMaxValueSize /\ GetId (extensions_ p) type <= kOneByteHeaderExtensionMaxId) /\
  has_room p (GetId (extensions_ p) type) len.

Lemma AllocateExtension_wp {R} p type len (QR : R -> RtpPacket -> Prop) :
  built p -> capacity p mod 4 = 0 -> wf_ext_map (extensions_ p) -> 0 <= len ->
  wp (AllocateExtension type len) p
     (fun r p' => match r with
        | None => p' = p /\ ~ admits p type len
        | Some _ => allocated p (GetId (extensions_ p) type) len r p' /\ GetId (extensions_ p) type <> kInvalidId /\
            1 <= len <= 255
        end) QR.
Proof.
  intros Hb Hwords Hwf Hlen. unfold AllocateExtension, admits, IsRegistered, kMaxValueSize. wp_steps.
  set (mixed := extmap_allow_mixed_ _). set (id := GetId _ _).
  assert (Hid : is_u8 id) by (by apply GetId_u8). unfold is_u8 in Hid.
  destruct (Z.eqb_spec len 0); cbn [orb]; [wp_steps; split; [done|lia]|].
  destruct (Z.ltb_spec 255 len); cbn [orb]; [wp_steps; split; [done|lia]|].
  destruct (negb mixed && (kOneByteHeaderExtensionMaxValueSize <? len)) eqn:E1.
  { apply andb_true_iff in E1 as [E1 E1']. apply negb_true_iff in E1. apply Z.ltb_lt in E1'. wp_steps. split; [done|].
    intros (_ & _ & Hm & _). specialize (Hm E1). lia. }
  wp_steps. unfold kInvalidId. destruct (Z.eqb_spec id 0) as [->|Hn]; [wp_steps; by split; [|intros [? _]]|].
  destruct (negb mixed && (kOneByteHeaderExtensionMaxId <? id)) eqn:E2.
  { apply andb_true_iff in E2 as [E2 E2']. apply negb_true_iff in E2. apply Z.ltb_lt in E2'. wp_steps. split; [done|].
    intros (_ & _ & Hm & _). specialize (Hm E2). lia. }
  assert (Hmix : two_required id len = true -> mixed = true).
  { unfold two_required. destruct mixed; [done|]. cbn [negb andb] in E1, E2. rewrite E1, E2.
    by rewrite (proj2 (Z.eqb_neq len 0)). }
  wp_steps.
  assert (Hpost : forall r p', allocated p id len r p' -> match r with
    | None => p' = p /\ ~ (negb false = true /\ 1 <= len <= 255 /\ (mixed = false ->
        len <= kOneByteHeaderExtensionMaxValueSize /\ id <= kOneByteHeaderExtensionMaxId) /\ has_room p id len)
    | Some _ => allocated p id len r p' /\ id <> 0 /\ 1 <= len <= 255 end).
  { intros [[o k]|] p' Hal; [split_and!; auto; lia|]. destruct Hal as (_ & _ & -> & Hno). split; [done|]. tauto. }
  eapply wp_mono; [apply AllocateRawExtension_wp; auto; lia|exact Hpost|exact Hpost].
Qed.

(** The place of [id] among the entries, and the values of the others. *)
Lemma allocated_place p id len o n p' :
  allocated p id len (Some (o, n)) p' -> 
  n = len /\ exists l r, extension_entries_ p' = l ++ mkInfo id len o :: r /\
    (id ∉ map ei_id l) /\ (id ∉ map ei_id r) /\
    forall id', id' <> id ->
      entry_value (data p') (extension_entries_ p') id' = entry_value (data p) (extension_entries_ p) id'.
Proof.
  intros (Hb & _ & -> & es' & Hm & Hes). split; [done|].
  assert (Hin : mkInfo id len o ∈ extension_entries_ p').
  { destruct Hes as [[Hin ->]|[_ ->]]; [done|]. apply elem_of_app. right. by left. }
  destruct (list_elem_of_split _ _ Hin) as (l & r & Hlr). exists l, r. split; [done|].
  destruct (built_entries p' _ Hb Hin) as (cc & two & _ & Hblk & _). pose proof (eb_nodup _ _ _ _ _ _ Hblk) as Hnd.
  rewrite Hlr, map_app in Hnd. cbn [map ei_id] in Hnd. apply list.NoDup_app in Hnd as (_ & Hl & Hr).
  apply list.NoDup_cons in Hr as [Hr _]. split_and!; [|done|].
  - intros Hc. apply (Hl id Hc). by left.
  - intros id' Hne. destruct Hes as [[_ ->]|[_ ->]]; [by apply value_moved|].
    rewrite value_app. cbn [entry_value ei_id]. rewrite (proj2 (Z.eqb_neq id id')) by congruence.
    rewrite (moved_ids _ _ _ _ Hm), (value_moved _ _ _ _ _ Hm).
    destruct (bool_decide_reflect (id' ∈ map ei_id (extension_entries_ p))); [done|]. by rewrite value_none.
Qed.

Lemma value_replaced d d' l e r bs :
  moved d d' l l -> moved d d' r r -> (ei_id e ∉ map ei_id l) ->
  read_bytes d' (ei_offset e) (ei_length e) = Some bs ->
  entry_value d' (l ++ e :: r) (ei_id e) = Some bs /\
  forall id', id' <> ei_id e -> entry_value d' (l ++ e :: r) id' = entry_value d (l ++ e :: r) id'.
Proof.
  intros Hml Hmr Hl Hbs. split.
  - rewrite value_app, bool_decide_false by done. cbn [entry_value]. by rewrite Z.eqb_refl.
  - intros id' Hne. rewrite !value_app. cbn [entry_value]. rewrite (proj2 (Z.eqb_neq (ei_id e) id')) by congruence.
    by rewrite (value_moved _ _ _ _ _ Hml), (value_moved _ _ _ _ _ Hmr).
Qed.

(** [p'] is [p] with the bytes [bs] as value of [id]. *)
Definition with_value (p : RtpPacket) (id : Z) (bs : list Z) (p' : RtpPacket) : Prop :=
  built p' /\ same_members p p' /\
  entry_value (data p') (extension_entries_ p') id = Some bs /\
  forall id', id' <> id -> entry_value (data p') (extension_entries_ p') id' = entry_value (data p) (extension_entries_ p) id'.

Lemma set_value_wp {R} p id len o n p' bs (QR : R -> RtpPacket -> Prop) :
  allocated p id len (Some (o, n)) p' -> zlen bs = len -> Forall is_u8 bs ->
  wp (WriteAt o bs) p' (fun _ p'' => with_value p id bs p'') QR.
Proof.
  intros Hal Hbs Hu. pose proof Hal as (Hb & Hsm & _).
  destruct (allocated_place _ _ _ _ _ _ Hal) as (-> & l & r & Hes & Hl & _ & Hother).
  eapply wp_post; [apply (write_value_wp p' l (mkInfo id len o) r bs); auto|]. cbv beta.
  intros u p'' (Hb'' & Hsm'' & He'' & Hml & Hmr & Hr).
  destruct (value_replaced _ _ l (mkInfo id len o) r bs Hml Hmr Hl Hr) as [Hown Hrest]. cbn [ei_id] in *.
  unfold with_value. rewrite He''. split_and!; [done|by eapply same_members_trans|done|].
  intros id' Hne. rewrite Hrest by done. rewrite <- Hes. by apply Hother.
Qed.

(** The bytes of the view that was allocated. *)
Lemma allocated_view p id len o n p' :
  allocated p id len (Some (o, n)) p' -> n = len /\
  exists bs, read_bytes (data p') o len = Some bs /\ zlen bs = len /\ Forall is_u8 bs.
Proof.
  intros Hal. pose proof Hal as (Hb & _). destruct (allocated_place _ _ _ _ _ _ Hal) as (-> & l & r & Hes & _).
  split; [done|]. assert (Hin : mkInfo id len o ∈ extension_entries_ p').
  { rewrite Hes. apply elem_of_app. right. by left. }
  destruct (built_entries p' _ Hb Hin) as (cc & two & Hcc & _ & H1 & H2 & H3 & H4). cbn [ei_offset ei_length] in *.
  pose proof (built_bounds p' Hb). destruct (bu_wf p' Hb) as [_ Hu].
  assert (Hlen : o + len <= zlen (data p')) by (unfold capacity, capacity_, data in *; lia).
  pose proof (read_bytes_Some (data p') o len ltac:(lia) ltac:(lia) Hlen) as Hr.
  eexists. split; [exact Hr|]. split; [|by eapply read_bytes_Forall].
  apply read_bytes_spec in Hr as (_ & Hz & _). exact Hz.
Qed.

(** What setting an extension does: it succeeds whenever the packet admits it, and
    then the value can be read back and every other extension has the bytes it
    had; otherwise the packet is unchanged. *)
Lemma SetExtension_wp {V R} (E : Extension V) valid received `{!Faithful E valid received} p v (QR : R -> RtpPacket -> Prop) :
  built p -> capacity p mod 4 = 0 -> wf_ext_map (extensions_ p) -> valid v ->
  wp (SetExtension E v) p
     (fun ok p' => if ok : bool then
          exists bs, with_value p (GetId (extensions_ p) (kId E)) bs p' /\ zlen bs = ValueSize E v /\
            ParseValue E bs = Some (Some (received v)) /\ GetId (extensions_ p) (kId E) <> kInvalidId
        else p' = p /\ ~ admits p (kId E) (ValueSize E v)) QR.
Proof.
  intros Hb Hm Hwf Hv. pose proof (value_size v Hv) as Hsz. unfold SetExtension. wp_steps.
  eapply wp_post; [apply AllocateExtension_wp; auto; lia|]. cbv beta. intros [[o n]|] p1 Hal; [|by wp_steps].
  destruct Hal as (Hal & Hid & _). destruct (allocated_view _ _ _ _ _ _ Hal) as (-> & bs & Hr & Hz & Hu).
  destruct (write_parse bs v Hu Hv Hz) as (bs' & Hw & Hz' & Hu' & Hp).
  wp_steps. apply (wp_mem _ _ _ _ _ Hr). wp_steps. apply (wp_mem _ _ _ _ _ Hw). wp_steps.
  eapply wp_post; [apply (set_value_wp p _ _ _ _ _ bs' _ Hal); [congruence|done]|]. cbv beta. intros u p2 Hwv.
  wp_steps. exists bs'. split_and!; auto. congruence.
Qed.

(** ** The map of extensions stays *)

(** An operation on the buffer leaves the other members alone. *)
Lemma keeps_on_buffer {R} m (f : view -> result) : keeps (R := R) (fun p => extensions_ p = m) (on_buffer f).
Proof. intros p Hp. unfold on_buffer. by destruct (f _) as [[|[b|]|b]|]. Qed.

Lemma keeps_rd {R} m off : keeps (R := R) (fun p => extensions_ p = m) (rd off).
Proof. intros p Hp. unfold rd. by destruct (zget _ _). Qed.

Lemma keeps_WriteAt {R} m off bs : keeps (R := R) (fun p => extensions_ p = m) (WriteAt off bs).
Proof. apply keeps_on_buffer. Qed.

Lemma keeps_WriteBE {R} m B off v : keeps (R := R) (fun p => extensions_ p = m) (WriteBE B off v).
Proof. apply keeps_WriteAt. Qed.

Lemma keeps_SetSize {R} m n : keeps (R := R) (fun p => extensions_ p = m) (SetSize n).
Proof. apply keeps_on_buffer. Qed.

Lemma keeps_check {R} m b : keeps (R := R) (fun p => extensions_ p = m) (check b).
Proof. apply keeps_mem. Qed.

#[local] Hint Resolve keeps_on_buffer keeps_rd keeps_WriteAt keeps_WriteBE keeps_SetSize keeps_check : keeps.

Ltac keep_map :=
  repeat first
    [ apply keeps_bind; [|intros]
    | apply keeps_modify; intros; by packet
    | apply keeps_fn
    | solve [auto with keeps]
    | match goal with
      | |- keeps _ (if ?b then _ else _) => destruct b
      | |- keeps _ (match ?x with _ => _ end) => destruct x
      | |- keeps _ (let _ := _ in _) => cbv zeta
      end ].

Lemma keeps_write_csrcs {R} m csrcs off : keeps (R := R) (fun p => extensions_ p = m) (write_csrcs csrcs off).
Proof. revert off. induction csrcs as [|c csrcs IH]; intros off; cbn [write_csrcs]; keep_map. Qed.

Lemma keeps_promote_loop {R} m es delta : keeps (R := R) (fun p => extensions_ p = m) (promote_loop es delta).
Proof.
  revert delta. induction es as [|e es IH]; intros delta; cbn [promote_loop]; unfold promote_entry; keep_map.
Qed.

#[local] Hint Resolve keeps_write_csrcs keeps_promote_loop : keeps.

Lemma keeps_AllocateExtension {R} m type len :
  keeps (R := R) (fun p => extensions_ p = m) (AllocateExtension type len).
Proof.
  unfold AllocateExtension, AllocateRawExtension, extension_profile, append_extension, PromoteToTwoByteHeaderExtension,
    finish_extensions, SetExtensionLengthMaybeAddZeroPadding. keep_map.
Qed.

#[local] Hint Resolve keeps_AllocateExtension : keeps.

(** ** Operations *)

Inductive packet_op : Type :=
  | OpClear
  | OpMarker (marker_bit : bool)
  | OpPayloadType (payload_type : Z)
  | OpSequenceNumber (seq_no : Z)
  | OpTimestamp (timestamp : Z)
  | OpSsrc (ssrc : Z)
  | OpCsrcs (csrcs : list Z)
  | OpIdentify (extensions : RtpHeaderExtensionMap)
  | OpPayloadSize (size_bytes : Z)
  | OpPayload (bs : list Z)
  | OpPadding (padding_bytes : Z)
  | OpReserve (type : RTPExtensionType) (kValueSizeBytes : Z)
  | OpExtension {V} (E : Extension V) (v : V).

(** A call; the payload is allocated and then written. *)
Definition exec (o : packet_op) : stmt RtpPacket unit unit :=
  match o with
  | OpClear => Clear
  | OpMarker b => SetMarker b
  | OpPayloadType pt => SetPayloadType pt
  | OpSequenceNumber n => SetSequenceNumber n
  | OpTimestamp t => SetTimestamp t
  | OpSsrc s => SetSsrc s
  | OpCsrcs csrcs => SetCsrcs csrcs
  | OpIdentify m => IdentifyExtensions m
  | OpPayloadSize n => SetPayloadSize n ;; ret tt
  | OpPayload bs =>
      let! payload := AllocatePayload (zlen bs) in
      match payload with Some offset => WriteAt offset bs | None => ret tt end
  | OpPadding n => SetPadding n ;; ret tt
  | OpReserve type n => ReserveExtension type n ;; ret tt
  | OpExtension E v => SetExtension E v ;; ret tt
  end.

(** The arguments have their types and the [RTC_DCHECK]s hold; beyond that the CSRCs fit the
    buffer, a payload is smaller than 2^63 bytes, and extensions are set in buffers of whole
    words. What happens otherwise is at the end of this file. *)
Definition allowed (o : packet_op) (p : RtpPacket) : Prop :=
  match o with
  | OpClear | OpMarker _ => True
  | OpPayloadType pt => 0 <= pt <= 0x7F
  | OpSequenceNumber n => is_u16 n
  | OpTimestamp t => is_u32 t
  | OpSsrc s => is_u32 s
  | OpCsrcs csrcs => extensions_size_ p = 0 /\ payload_size_ p = 0 /\ padding_size_ p = 0 /\
      zlen csrcs <= 0x0F /\ Forall is_u32 csrcs /\ kFixedHeaderSize + 4 * zlen csrcs <= capacity p
  | OpIdentify m => ext_map_reachable m
  | OpPayloadSize n => padding_size_ p = 0 /\ 0 <= n < 2 ^ 63
  | OpPayload bs => padding_size_ p = 0 /\ Forall is_u8 bs /\ zlen bs < 2 ^ 63
  | OpPadding n => is_u8 n
  | OpReserve _ n => capacity p mod 4 = 0 /\ is_u8 n
  | @OpExtension V E v => capacity p mod 4 = 0 /\ exists valid received, Faithful E valid received /\ valid v
  end.

Lemma ReserveExtension_wp {R} p type n (QR : R -> RtpPacket -> Prop) :
  built p -> capacity p mod 4 = 0 -> wf_ext_map (extensions_ p) -> is_u8 n ->
  wp (ReserveExtension type n) p
     (fun ok p' => if ok : bool then
          with_value p (GetId (extensions_ p) type) (replicate (Z.to_nat n) 0) p' /\ GetId (extensions_ p) type <> kInvalidId
        else p' = p /\ ~ admits p type n) QR.
Proof.
  intros Hb Hm Hwf Hn. unfold is_u8 in Hn. unfold ReserveExtension. wp_steps.
  eapply wp_post; [apply AllocateExtension_wp; auto; lia|]. cbv beta. intros [[o k]|] p1 Hal; [|by wp_steps].
  destruct Hal as (Hal & Hid & _). wp_steps.
  eapply wp_post; [apply (set_value_wp p _ _ _ _ _ _ _ Hal); [rewrite zlen_replicate; lia|apply zeros_u8]|].
  cbv beta. intros u p2 Hwv. by wp_steps.
Qed.

Lemma exec_wp o p :
  built p -> wf_ext_map (extensions_ p) -> allowed o p -> wp (exec o) p (fun _ p' => built p') (fun _ _ => False).
Proof.
  intros Hb Hwf Hal. pose proof (bu_wf p Hb) as Hwp. pose proof (bu_capacity p Hb) as Hc.
  destruct o; cbn [exec allowed] in *; wp_steps.
  - by apply Clear_built.
  - by apply SetMarker_built.
  - apply SetPayloadType_built; [done|lia].
  - by apply SetSequenceNumber_built.
  - by apply SetTimestamp_built.
  - by apply SetSsrc_built.
  - destruct Hal as (? & ? & ? & ? & ? & ?). eapply wp_post; [by apply SetCsrcs_built|]. cbv beta. tauto.
  - by destruct Hb.
  - destruct Hal as [? ?]. eapply wp_post; [by apply SetPayloadSize_built|]. cbv beta. intros r p' (? & _). by wp_steps.
  - destruct Hal as (Hp & Hu & Hn). pose proof (zlen_nonneg bs).
    eapply wp_post; [apply AllocatePayload_built; auto|]. cbv beta. intros r p' (Hb' & Hp' & Hr).
    destruct r as [o|]; [|by wp_steps]. destruct (Hr o eq_refl) as [-> Hs]. apply write_payload_built; auto. lia.
  - eapply wp_post; [by apply SetPadding_built|]. cbv beta. intros r p' (? & _). by wp_steps.
  - destruct Hal as [Hm Hn]. eapply wp_post; [by apply ReserveExtension_wp|]. cbv beta. intros [] p'; intros Hr; wp_steps.
    + by destruct Hr as [[? _] _].
    + by destruct Hr as [-> _].
  - destruct Hal as (Hm & valid & received & HF & Hv). eapply wp_post; [by apply (SetExtension_wp E valid received)|].
    cbv beta. intros [] p' Hr; wp_steps.
    + by destruct Hr as (bs & [? _] & _).
    + by destruct Hr as [-> _].
Qed.

Lemma exec_map o p p' :
  wf_ext_map (extensions_ p) -> allowed o p -> exec o p = Next tt p' -> wf_ext_map (extensions_ p').
Proof.
  intros Hwf Hal He.
  assert (Hk : (exists m, o = OpIdentify m) \/ keeps (fun q => extensions_ q = extensions_ p) (exec o)).
  { destruct o; try (right; cbn [exec]; unfold Clear, SetMarker, SetPayloadType, SetSequenceNumber, SetTimestamp, SetSsrc,
      SetCsrcs, AllocatePayload, SetPayloadSize, SetPadding, ReserveExtension, SetExtension; solve [keep_map]).
    left. by eexists. }
  destruct Hk as [[m ->]|Hk].
  - cbn in He. injection He as <-. packet. by apply ext_map_reachable_wf.
  - specialize (Hk p eq_refl). rewrite He in Hk. by rewrite Hk.
Qed.

(** ** Packets that were built *)

(** The packets that calls build, from a constructor on: the buffer has 12 to 65535 bytes, the
    calls are [allowed], and a header is copied only of a packet without padding, and into
    a buffer that it fits ([padding_bit_copied] shows what becomes of a padded one). *)
Inductive reachable : RtpPacket -> Prop :=
  | reach_packet m0 extensions capacity p :
      kFixedHeaderSize <= capacity <= 65535 ->
      (forall m, extensions = Some m -> ext_map_reachable m) ->
      RtpPacket_new m0 extensions capacity = Next tt p -> reachable p
  | reach_op p o p' : reachable p -> allowed o p -> exec o p = Next tt p' -> reachable p'
  | reach_copy p q p' :
      reachable p -> reachable q -> padding_size_ q = 0 -> headers_size q <= capacity p ->
      CopyHeaderFrom (R := unit) q p = Next tt p' -> reachable p'
  | reach_refs p one : reachable p -> reachable (p <| one_ref_ := one |>).
  (* packets are copied and dropped, which changes the references to the buffer *)

Lemma Clear_typed q p :
  wf_packet q -> kFixedHeaderSize <= capacity q <= 65535 -> wf_ext_map (extensions_ q) ->
  Clear (R := unit) q = Next tt p -> built p /\ wf_ext_map (extensions_ p).
Proof.
  intros Hw Hc Hext Hnew. split.
  - exact (wp_elim _ _ _ _ _ _ (Clear_built (R := unit) q (fun _ _ => False) Hw Hc) Hnew).
  - assert (Hk : extensions_ p = extensions_ q); [|by rewrite Hk].
    apply (keeps_Next (R := unit) (fun p' => extensions_ p' = extensions_ q) Clear q tt p); [unfold Clear; keep_map|done|done].
Qed.

Lemma new_buffer size b :
  0 < size -> CopyOnWriteBuffer_new size 0 = Some b -> capacity_ b = size /\ Forall is_u8 (data_ b) /\ size_ b = size.
Proof.
  intros Hs. unfold CopyOnWriteBuffer_new. rewrite (proj2 (Z.ltb_lt 0 size)) by lia. cbn [orb]. intros [= <-].
  split_and!; [|apply new_bytes_u8|done]. unfold capacity_, BufferT_new. cbn [data_]. rewrite zlen_new_bytes; lia.
Qed.

Lemma RtpPacket_new_built m0 extensions capacity p :
  kFixedHeaderSize <= capacity <= 65535 ->
  (forall m, extensions = Some m -> ext_map_reachable m) ->
  RtpPacket_new m0 extensions capacity = Next tt p -> built p /\ wf_ext_map (extensions_ p).
Proof.
  intros Hc Hext. unfold RtpPacket_new.
  destruct (CopyOnWriteBuffer_new capacity 0) as [b|] eqn:Eb; [|done].
  destruct (new_buffer capacity b) as (Hcap & Hu & Hs); [unfold kFixedHeaderSize in Hc; lia|done|]. apply Clear_typed.
  - split; [|exact Hu]. unfold wf_buffer. packet. unfold kFixedHeaderSize in Hc. lia.
  - packet. by rewrite Hcap.
  - packet. destruct extensions as [m|]; cbn [default]; [by apply ext_map_reachable_wf, Hext|].
    apply ext_map_reachable_wf, reach_new.
Qed.

Lemma reachable_built p : reachable p -> built p /\ wf_ext_map (extensions_ p).
Proof.
  induction 1 as [m0 ext cap p Hc Hext Hnew|p o p' _ [Hb Hwf] Hal He|p q p' _ [Hb Hwf] _ [Hq Hqwf] Hpad Hfit He|
                  p one _ [Hb Hwf]].
  - by eapply RtpPacket_new_built.
  - split; [exact (wp_elim _ _ _ _ _ _ (exec_wp o p Hb Hwf Hal) He)|by eapply exec_map].
  - destruct (wp_elim _ _ _ _ _ _ (CopyHeaderFrom_built p q (fun _ _ => False) Hb Hq Hpad Hfit) He) as [? ->]. done.
  - split; [by destruct Hb|done].
Qed.

Lemma Internal_agree B d d' off v :
  agree off (off + Z.of_nat B) d d' -> InternalReadBigEndian B d' off v = InternalReadBigEndian B d off v.
Proof.
  revert off v. induction B as [|B IH]; intros off v Ha; cbn [InternalReadBigEndian]; [done|].
  rewrite (Ha off) by lia. destruct (zget d off); cbn [mbind option_bind]; [|done].
  apply IH. intros i Hi. apply Ha. lia.
Qed.

Lemma read_csrcs_agree p q n off :
  agree off (off + 4 * Z.of_nat n) (data p) (data q) -> read_csrcs q n off = read_csrcs p n off.
Proof.
  revert off. induction n as [|n IH]; intros off Ha; cbn [read_csrcs]; [done|].
  unfold ReadBigEndian. rewrite (Internal_agree 4 (data p)) by (eapply agree_weaken; [..|exact Ha]; lia).
  by rewrite (IH (off + 4)) by (eapply agree_weaken; [..|exact Ha]; lia).
Qed.

Lemma sent_agree p q : built p -> wf_packet q -> same_packet p q -> agree 0 (packet_size p) (data p) (data q).
Proof.
  intros Hb [Hwq _] (_ & _ & _ & _ & _ & _ & _ & _ & _ & Hcon). destruct (sent_bytes p Hb) as (_ & Hlen & Hag).
  unfold rtp_bytes in *. pose proof Hwq as Hwf. unfold wf_buffer in Hwf.
  assert (Hs : size_ (buffer_ q) = packet_size p) by (rewrite <- Hlen, <- Hcon; by rewrite zlen_content).
  intros i Hi. unfold data. rewrite <- (zget_content (buffer_ q)), Hcon by (done || lia). apply Hag. lia.
Qed.

(** A packet that arrives has the extensions of the packet that was sent. *)
Lemma value_sent p q id :
  built p -> wf_packet q -> same_packet p q ->
  entry_value (data q) (extension_entries_ q) id = entry_value (data p) (extension_entries_ p) id.
Proof.
  intros Hb Hq Hs. pose proof (sent_agree p q Hb Hq Hs) as Ha. destruct Hs as (_ & _ & _ & _ & _ & _ & _ & _ & He & Hcon).
  rewrite He. apply value_moved.
  destruct (bu_bytes p Hb) as (cc & Hcc & _ & [(_ & -> & _)|[two Hblk]]); [constructor|].
  pose proof (built_bounds p Hb) as Hbd. pose proof (eb_offset _ _ _ _ _ _ Hblk).
  pose proof (words_bounds _ (eb_size _ _ _ _ _ _ Hblk)). destruct Hq as [Hwq _].
  assert (Hlq : packet_size p <= zlen (data q)).
  { destruct (sent_bytes p Hb) as (_ & Hlen & _). rewrite <- Hlen, <- Hcon. unfold rtp_bytes.
    rewrite zlen_content by done. unfold wf_buffer, capacity_ in Hwq. unfold data. lia. }
  eapply moved_agree; [exact (eb_laid _ _ _ _ _ _ Hblk)|eapply agree_weaken; [..|exact Ha]; lia|lia|
    unfold capacity, capacity_, data in *; lia|lia].
Qed.

Lemma csrcs_sent p q : built p -> wf_packet q -> same_packet p q -> Csrcs q = Csrcs p.
Proof.
  intros Hb Hq Hs. pose proof (sent_agree p q Hb Hq Hs) as Ha. pose proof (built_bounds p Hb) as Hbd.
  destruct (bu_bytes p Hb) as (cc & Hcc & H0 & Hext). apply extensions_at_le in Hext. unfold Csrcs.
  rewrite (Ha 0), H0 by lia. cbn [mbind option_bind].
  destruct (byte0_facts (0 <? padding_size_ p) (0 <? extensions_size_ p) cc Hcc) as (_ & _ & Ecc & _). rewrite Ecc.
  apply read_csrcs_agree. eapply agree_weaken; [..|exact Ha]; unfold kFixedHeaderSize; lia.
Qed.


(** C3. A packet arrives as it was built: whatever sequence of allowed calls built [p] in a
    buffer of 12 to 65535 bytes - any setters, CSRCs that fit, payloads below 2^63 bytes, padding, extensions where the buffer is a multiple of
    four bytes, and copies of headers of packets without padding - parsing the bytes
    that are sent, into any packet object, succeeds and gives the marker, payload type, sequence
    number, time stamp, source, payload and padding sizes and the extension entries of [p],
    with the same bytes, and the same contributing sources. The copy of the header of a
    padded packet is excluded: it keeps the padding bit and is rejected
    ([padding_bit_copied]). *)
Theorem rtp_roundtrip p q :
  reachable p -> wf_packet q ->
  exists q', Parse (R := unit) (rtp_bytes p) q = Next true q' /\ same_packet p q' /\ Csrcs q' = Csrcs p.
Proof.
  intros Hr Hq. destruct (reachable_built p Hr) as [Hb _].
  destruct (built_parsed p q Hb Hq) as (q' & Hp & Hs & _ & Hwf). exists q'. split_and!; [done|done|].
  by apply csrcs_sent.
Qed.

(** C12. Values of header extensions arrive, in a packet whose buffer is a multiple of four
    bytes: when the packet admits the extension
    (it is registered, its size is within the limits and there is room),
    [SetExtension] succeeds; then the receiver of the packet, which has the same
    map of extensions, gets the value that was set, and every other extension has
    at the receiver the bytes it had before the call - also when the call had to
    rewrite the whole block with two-byte headers. When [SetExtension] fails the
    packet is unchanged. This holds for every extension that writes and parses its
    values faithfully. *)
Theorem extension_transport {V} (E : Extension V) valid received `{!Faithful E valid received} p q v :
  reachable p -> capacity p mod 4 = 0 -> wf_packet q -> extensions_ q = extensions_ p -> valid v ->
  exists ok p', SetExtension (R := unit) E v p = Next ok p' /\
    (admits p (kId E) (ValueSize E v) -> ok = true) /\
    if ok : bool then
      exists q', Parse (R := unit) (rtp_bytes p') q = Next true q' /\
        GetExtension E q' = Some (Some (received v)) /\
        forall t, t <> kId E -> extension_value q' t = extension_value p t
    else p' = p.
Proof.
  intros Hr Hm Hq Hext Hv. destruct (reachable_built p Hr) as [Hb Hwf].
  destruct (wp_run (R := unit) _ _ _ (SetExtension_wp E valid received p v (fun _ _ => False) Hb Hm Hwf Hv)) as (ok & p' & He & Hok).
  exists ok, p'. split; [done|]. destruct ok; [|by destruct Hok; split].
  destruct Hok as (bs & (Hb' & Hsm & Hown & Hrest) & Hz & Hp & Hid). split; [done|].
  destruct (built_parsed p' q Hb' Hq) as (q' & Hparse & Hs & Hx & Hwq). exists q'. split; [done|].
  assert (Hmap : extensions_ q' = extensions_ p) by congruence. split.
  - pose proof (value_sent p' q' (GetId (extensions_ p) (kId E)) Hb' Hwq Hs) as Hval.
    rewrite Hown, find_value in Hval. unfold GetExtension, FindExtension. rewrite Hmap.
    rewrite (proj2 (Z.eqb_neq _ _)) by done. destruct (FindExtensionInfo q' _) as [e|]; [|done].
    apply read_bytes_spec in Hval as Hl. destruct Hl as (_ & Hl & _). pose proof (value_size v Hv).
    rewrite (proj2 (Z.eqb_neq (ei_length e) 0)) by lia. by rewrite Hval.
  - intros t Ht. unfold extension_value. rewrite Hmap. destruct (Z.eqb_spec (GetId (extensions_ p) t) kInvalidId) as [|Hn]; [done|].
    rewrite (value_sent p' q' _ Hb' Hwq Hs). apply Hrest. intros Heq. apply Ht.
    destruct Hwf as (_ & _ & _ & Hinj). by apply Hinj.
Qed.
End reach.

(** ** Examples *)

(** Members before the constructor ran. *)
Definition raw_packet : RtpPacket :=
  mkPacket false 0 0 0 0 0 0 0 (RtpHeaderExtensionMap_new false) [] 0 (mkBuffer 0 []) true.

(** An empty packet with [capacity] bytes. *)
Definition fresh_packet (map : RtpHeaderExtensionMap) (capacity : Z) : RtpPacket :=
  mkPacket false 0 0 0 0 0 12 0 map [] 0 (mkBuffer 12 (0x80 :: replicate (Z.to_nat (capacity - 1)) 0)) true.

Lemma fresh_reachable map : ext_map_reachable map -> reachable (fresh_packet map 32).
Proof.
  intros Hm. apply (reach_packet raw_packet (Some map) 32); [unfold kFixedHeaderSize; lia| |reflexivity].
  by intros m [= <-].
Qed.

Lemma fresh_wf map : wf_packet (fresh_packet map 32).
Proof. split; [split; by vm_compute|]. unfold data. cbn. repeat constructor; unfold is_u8; lia. Qed.

Definition orientation_map : RtpHeaderExtensionMap :=
  (RegisterByType (RtpHeaderExtensionMap_new false) 3 kRtpExtensionVideoRotation).1.

Lemma orientation_reachable : ext_map_reachable orientation_map.
Proof. apply reach_type, reach_new. Qed.


Lemma rtp_roundtrip_witness :
  exists q', Parse (R := unit) (rtp_bytes (fresh_packet orientation_map 32)) (fresh_packet orientation_map 32) = Next true q'.
Proof.
  destruct (rtp_roundtrip (fresh_packet orientation_map 32) (fresh_packet orientation_map 32)) as (q' & Hp & _).
  - apply fresh_reachable, orientation_reachable.
  - apply fresh_wf.
  - exists q'. exact Hp.
Defined.

Lemma extension_transport_witness :
  exists p' q', SetExtension (R := unit) VideoOrientation kVideoRotation_90 (fresh_packet orientation_map 32) = Next true p' /\
    Parse (R := unit) (rtp_bytes p') (fresh_packet orientation_map 32) = Next true q' /\
    GetExtension VideoOrientation q' = Some (Some kVideoRotation_90).
Proof.
  destruct (extension_transport VideoOrientation (fun _ => True) id (fresh_packet orientation_map 32)
    (fresh_packet orientation_map 32) kVideoRotation_90) as (ok & p' & Hs & Hok & Hq).
  - apply fresh_reachable, orientation_reachable.
  - reflexivity.
  - apply fresh_wf.
  - reflexivity.
  - done.
  - assert (Had : admits (fresh_packet orientation_map 32) (kId VideoOrientation) (ValueSize VideoOrientation kVideoRotation_90)).
    { clear. split; [reflexivity|]. split; [vm_compute; split; discriminate|].
      split; [intros _; vm_compute; split; discriminate|]. vm_compute. by repeat split. }
    rewrite (Hok Had) in Hs, Hq. destruct Hq as (q' & Hp & Hg & _). exists p', q'. exact (conj Hs (conj Hp Hg)).
Defined.

(** ** Outside of these packets *)

(** [p] after the statement, if it completes. *)
Definition after {A} (m : stmt RtpPacket unit A) (p : RtpPacket) : RtpPacket :=
  match m p with Next _ p' => p' | _ => p end.

Definition mixed_map : RtpHeaderExtensionMap :=
  (RegisterByType (RegisterByType (RtpHeaderExtensionMap_new true) 20 kRtpExtensionVideoRotation).1 3 kRtpExtensionMid).1.

(** The check of the room for an extension does not count the padding up to a
    word, which is written: with a capacity that is no multiple of four the
    write goes past the end of the memory. *)
Lemma padding_past_buffer :
  SetExtension (R := unit) VideoOrientation kVideoRotation_90 (fresh_packet orientation_map 18) = Fault.
Proof. reflexivity. Qed.

(** The header of a packet with padding is copied with its padding bit, but the
    copy has no padding: the bytes of the copy are rejected. *)
Definition padded_packet : RtpPacket :=
  Eval vm_compute in after (SetPadding 4) (fresh_packet orientation_map 16).
Definition padded_copy : RtpPacket :=
  Eval vm_compute in after (CopyHeaderFrom padded_packet) (fresh_packet orientation_map 16).

Lemma padding_bit_copied :
  SetPadding (R := unit) 4 (fresh_packet orientation_map 16) = Next true padded_packet /\
  CopyHeaderFrom (R := unit) padded_packet (fresh_packet orientation_map 16) = Next tt padded_copy /\
  padding_size_ padded_copy = 0 /\
  Parse (R := unit) (rtp_bytes padded_copy) (fresh_packet orientation_map 16) = Next false (fresh_packet orientation_map 16).
Proof. split; [reflexivity|]. split; [reflexivity|]. split; reflexivity. Qed.

(** A packet whose block of one-byte headers holds only padding has no entry; to
    add an extension that needs two-byte headers to it fails an [RTC_CHECK]. *)
Definition only_padding : list Z := 0x90 :: replicate 11 0 ++ [0xBE; 0xDE; 0; 1; 0; 0; 0; 0].
Definition padding_parsed : RtpPacket := Eval vm_compute in after (Parse only_padding) (fresh_packet mixed_map 32).

Lemma promotion_without_entries :
  Parse (R := unit) only_padding (fresh_packet mixed_map 32) = Next true padding_parsed /\
  extensions_size_ padding_parsed = 3 /\ extension_entries_ padding_parsed = [] /\ payload_size_ padding_parsed = 0 /\
  SetExtension (R := unit) VideoOrientation kVideoRotation_90 padding_parsed = Fault.
Proof. split; [reflexivity|]. split; [reflexivity|]. split; [reflexivity|]. split; reflexivity. Qed.

(** A string that is too long is refused after its place was allocated: the call
    fails, and the packet has the extension with whatever bytes were there. *)
Definition string_refused : RtpPacket :=
  Eval vm_compute in after (SetExtension RtpMid (replicate 17 65)) (fresh_packet mixed_map 36).

Lemma long_string_allocated :
  SetExtension (R := unit) RtpMid (replicate 17 65) (fresh_packet mixed_map 36) = Next false string_refused /\
  HasExtension string_refused kRtpExtensionMid = true /\
  extension_value string_refused kRtpExtensionMid = Some (replicate 17 0).
Proof. split; [by vm_compute|]. split; by vm_compute. Qed.

(** The sum of the offset and the size of the payload wraps around. *)
Definition wrapped_packet : RtpPacket :=
  Eval vm_compute in after (SetPayloadSize (2 ^ 64 - 12)) (fresh_packet orientation_map 16).

Lemma payload_size_wraps :
  SetPayloadSize (R := unit) (2 ^ 64 - 12) (fresh_packet orientation_map 16) = Next (Some 12) wrapped_packet /\
  payload_size_ wrapped_packet = 2 ^ 64 - 12 /\ size_ (buffer_ wrapped_packet) = 0.
Proof. split; [by vm_compute|]. split; by vm_compute. Qed.
