(* ===== verification/Rtcp.v ===== *)
(** * RTCP: building and splitting of packets

    [modules/rtp_rtcp/source/rtcp_packet.h/.cc], [rtcp_packet/common_header.h/.cc],
    [rtcp_packet/compound_packet.cc] and the loop of [rtcp_receiver.cc] over the
    blocks of a packet. A packet object writes blocks into a buffer that is handed
    to a callback when it is full; the state of that is a [Sink]. What an object
    promises to the compound packet that holds it is the class [RtcpLaws]. *)

From S2P Require Import Prelude ByteIo.

Open Scope Z_scope.
Open Scope c_scope.

Definition IP_PACKET_SIZE : Z := 1500.

(** The buffer, the place for the next byte, and the packets the callback got. *)
Record Sink := mkSink { sink_packet : list Z; sink_index : Z; sink_ready : list (list Z) }.

#[export] Instance eta_Sink : Eta Sink := fun s => mkSink (sink_packet s) (sink_index s) (sink_ready s).

(** [ByteWriter<T, B>::WriteBigEndian(packet + *index + off, val)] *)
Definition put_be {R} (B : nat) (off val : Z) : stmt Sink R unit :=
  let! s := get in
  let! d := mem (WriteBigEndian B (sink_packet s) (sink_index s + off) val) in
  modify (fun s => s <| sink_packet := d |>).

(** [memcpy] to [packet + *index + off] *)
Definition put_bytes {R} (off : Z) (bs : list Z) : stmt Sink R unit :=
  let! s := get in
  let! d := mem (write_bytes (sink_packet s) (sink_index s + off) bs) in
  modify (fun s => s <| sink_packet := d |>).

(** [packet[*index + off] = v] *)
Definition put_byte_at {R} (off v : Z) : stmt Sink R unit := put_bytes off [v].

Definition advance {R} (n : Z) : stmt Sink R unit :=
  modify (fun s => s <| sink_index := sink_index s + n |>).

Definition kHeaderLength : Z := 4.

Definition CreateHeader {R} (count_or_format packet_type length : Z) (padding : bool) : stmt Sink R unit :=
  let kVersionBits := Z.shiftl 2 6 in
  let padding_bit := if padding then Z.shiftl 1 5 else 0 in
  put_byte_at 0 (Z.lor (Z.lor kVersionBits padding_bit) (u8 count_or_format)) ;;
  put_byte_at 1 packet_type ;;
  put_byte_at 2 (Z.land (Z.shiftr length 8) 0xff) ;;
  put_byte_at 3 (Z.land length 0xff) ;;
  advance kHeaderLength.

Definition OnBufferFull {R} : stmt Sink R bool :=
  let! s := get in
  if sink_index s =? 0 then ret false
  else
    let! p := mem (read_bytes (sink_packet s) 0 (sink_index s)) in
    modify (fun s => s <| sink_ready := sink_ready s ++ [p] |> <| sink_index := 0 |>) ;;
    ret true.

(** [while ( *index + BlockLength() > max_length) if (!OnBufferFull(...)) return false;] *)
Fixpoint make_room (fuel : nat) (block_length max_length : Z) : stmt Sink bool unit :=
  match fuel with
  | O => fun _ => Spin
  | S fuel' =>
      let! s := get in
      if max_length <? sink_index s + block_length then
        let! ok := OnBufferFull in
        if negb ok then return_ false else make_room fuel' block_length max_length
      else ret tt
  end.

(** After a packet was handed over the buffer is empty, so that the loop has at
    most two rounds. *)
Definition room_fuel : nat := 3.

(** [Create] of the packets that are one block: make room, write, [return true]. *)
Definition create_block (block_length : Z) (write : stmt Sink bool unit) (max_length : Z) : stmt Sink bool bool :=
  make_room room_fuel block_length max_length ;;
  write ;;
  ret true.

Class RtcpPacket (P : Type) := {
  BlockLength : P -> Z;
  Create : P -> Z -> stmt Sink bool bool;
}.

(** [HeaderLength()] of an object with the given [BlockLength()] *)
Definition HeaderLength (block_length : Z) : Z := (block_length - kHeaderLength) / 4.

(** [Build(max_length, callback)]: the value returned and the packets the callback
    got; [buffer] is the array on the stack. *)
Definition Build `{RtcpPacket P} (buffer : list Z) (p : P) (max_length : Z) : option (bool * list (list Z)) :=
  if IP_PACKET_SIZE <? max_length then None  (* RTC_CHECK_LE *)
  else
    match fn (R' := unit) (Create p max_length) (mkSink buffer 0 []) with
    | Next false s => Some (false, sink_ready s)
    | Next true s =>
        match OnBufferFull (R := unit) s with
        | Next ok s => Some (ok, sink_ready s)
        | _ => None
        end
    | _ => None
    end.

(** ** Compound packets *)

Inductive AnyPacket : Type := Any (P : Type) (H : RtcpPacket P) (p : P).
Arguments Any {P H}.

Fixpoint compound_create (packets : list AnyPacket) (max_length : Z) : stmt Sink bool bool :=
  match packets with
  | [] => ret true
  | @Any P _ p :: rest =>
      let! ok := fn (Create p max_length) in
      if negb ok then return_ false else compound_create rest max_length
  end.

Definition compound_length (packets : list AnyPacket) : Z :=
  fold_left (fun block_length a => match a with @Any P _ p => block_length + BlockLength p end) packets 0.

Definition Append (packets : list AnyPacket) (packet : AnyPacket) : list AnyPacket := packets ++ [packet].

#[export] Instance CompoundPacket : RtcpPacket (list AnyPacket) :=
  { BlockLength := compound_length; Create := compound_create }.

(** ** The common header *)

(** [payload_] with the bytes it points to. *)
Record CommonHeader := mkHeader {
  packet_type_ : Z;
  count_or_format_ : Z;
  padding_size : Z;
  payload_size : Z;
  payload : list Z;
}.

(** [None]: a byte outside of the buffer was read. *)
Definition CommonHeader_Parse (buffer : list Z) : option (option CommonHeader) :=
  let size_bytes := zlen buffer in
  if size_bytes <? kHeaderLength then Some None
  else
    b0 ← zget buffer 0;
    let version := Z.shiftr b0 6 in
    if negb (version =? 2) then Some None
    else
      let has_padding := negb (Z.land b0 0x20 =? 0) in
      let count_or_format := Z.land b0 0x1F in
      packet_type ← zget buffer 1;
      words ← ReadBigEndian 2 buffer 2;
      let payload_size := words * 4 in
      if size_bytes <? kHeaderLength + payload_size then Some None
      else if has_padding then
        if payload_size =? 0 then Some None
        else
          padding_size ← zget buffer (kHeaderLength + (payload_size - 1));
          if padding_size =? 0 then Some None
          else if payload_size <? padding_size then Some None
          else
            payload ← read_bytes buffer kHeaderLength (payload_size - padding_size);
            Some (Some (mkHeader packet_type count_or_format padding_size (payload_size - padding_size) payload))
      else
        payload ← read_bytes buffer kHeaderLength payload_size;
        Some (Some (mkHeader packet_type count_or_format 0 payload_size payload)).

Definition header_packet_size (h : CommonHeader) : Z := kHeaderLength + payload_size h + padding_size h.

(** The loop over the blocks of a received packet: the headers that are handled,
    and whether the end was reached. *)
Fixpoint compound_blocks (fuel : nat) (buffer : list Z) : option (list CommonHeader * bool) :=
  match fuel with
  | O => None
  | S fuel' =>
      match buffer with
      | [] => Some ([], true)
      | _ =>
          h ← CommonHeader_Parse buffer;
          match h with
          | None => Some ([], false)
          | Some h =>
              '(hs, ok) ← compound_blocks fuel' (drop (Z.to_nat (header_packet_size h)) buffer);
              Some (h :: hs, ok)
          end
      end
  end.

Definition ParseCompoundPacket (buffer : list Z) : option (list CommonHeader * bool) :=
  compound_blocks (S (length buffer)) buffer.

(** ** The bytes of the sink *)

(** [l] are the first bytes of the buffer. *)
Record holds (s : Sink) (ix : Z) (rdy : list (list Z)) (l : list Z) : Prop := {
  ho_size : zlen (sink_packet s) = IP_PACKET_SIZE;
  ho_index : sink_index s = ix;
  ho_ready : sink_ready s = rdy;
  ho_bytes : read_bytes (sink_packet s) 0 (zlen l) = Some l;
  ho_u8 : Forall is_u8 l;
}.

Lemma put_bytes_wp {R} off bs s ix rdy l Q (QR : R -> Sink -> Prop) :
  holds s ix rdy l -> ix + off = zlen l -> zlen l + zlen bs <= IP_PACKET_SIZE -> Forall is_u8 bs ->
  (forall s', holds s' ix rdy (l ++ bs) -> Q tt s') -> wp (put_bytes off bs) s Q QR.
Proof.
  intros [Hz Hi Hr Hb Hu] Ho Hroom Hbs HQ. unfold put_bytes. wp_steps. pose proof (zlen_nonneg l).
  destruct (write_bytes_Some (sink_packet s) (sink_index s + off) bs) as (d & Hd & Hl & Hg); [lia|lia|].
  apply (wp_mem _ _ _ _ _ Hd). wp_steps. apply HQ. split; cbn [set sink_packet sink_index sink_ready]; auto; try lia.
  - apply read_bytes_spec in Hb as (_ & _ & Hbl & Hbg). apply read_bytes_spec. rewrite zlen_app.
    split_and!; [lia|done|lia|]. intros i Hi'. rewrite Z.add_0_l, Hg, zget_app, Hi, Ho.
    destruct (Z.ltb_spec i (zlen l)).
    + rewrite (proj2 (Z.leb_gt _ _)) by lia. cbn [andb]. rewrite Hbg by lia. by rewrite Z.add_0_l.
    + rewrite (proj2 (Z.leb_le _ _)), (proj2 (Z.ltb_lt _ _)) by lia. done.
  - by apply list.Forall_app.
Qed.

Lemma put_be_wp {R} B off v s ix rdy l Q (QR : R -> Sink -> Prop) :
  holds s ix rdy l -> ix + off = zlen l -> zlen l + Z.of_nat B <= IP_PACKET_SIZE ->
  (forall s', holds s' ix rdy (l ++ be_bytes B v) -> Q tt s') -> wp (put_be B off v) s Q QR.
Proof.
  intros Hs Ho Hroom HQ. pose proof (zlen_nonneg l). pose proof Hs as [Hz Hi _ _ _].
  assert (Hw : wp (put_bytes off (be_bytes B v)) s Q QR).
  { eapply put_bytes_wp; [exact Hs|done|by rewrite zlen_be_bytes|apply be_bytes_u8|done]. }
  revert Hw. unfold put_be, put_bytes, wp, bind, get, mem. rewrite WriteBigEndian_bytes by lia. done.
Qed.

Lemma put_byte_wp {R} off v s ix rdy l Q (QR : R -> Sink -> Prop) :
  holds s ix rdy l -> ix + off = zlen l -> zlen l + 1 <= IP_PACKET_SIZE -> is_u8 v ->
  (forall s', holds s' ix rdy (l ++ [v]) -> Q tt s') -> wp (put_byte_at off v) s Q QR.
Proof. intros Hs Ho Hr Hv HQ. eapply put_bytes_wp; [exact Hs|done|done|by constructor|done]. Qed.

Lemma advance_wp {R} n s ix rdy l Q (QR : R -> Sink -> Prop) :
  holds s ix rdy l -> (forall s', holds s' (ix + n) rdy l -> Q tt s') -> wp (advance n) s Q QR.
Proof.
  intros [Hz Hi Hr Hb Hu] HQ. unfold advance. wp_steps. apply HQ. split; cbn [set sink_packet sink_index sink_ready]; auto. lia.
Qed.

(** The start of a write, with the length of what was written so far. *)
Ltac sink_lia := rewrite ?zlen_app, ?zlen_be_bytes, ?zlen_cons, ?zlen_nil in *; unfold IP_PACKET_SIZE, kHeaderLength in *; lia.

Lemma OnBufferFull_wp {R} s ix rdy l Q (QR : R -> Sink -> Prop) :
  holds s ix rdy l -> ix = zlen l ->
  (ix = 0 -> Q false s) -> (0 < ix -> forall s', holds s' 0 (rdy ++ [l]) [] -> Q true s') ->
  wp OnBufferFull s Q QR.
Proof.
  intros Hs Hix H0 H1. pose proof Hs as [Hz Hi Hr Hb Hu]. pose proof (zlen_nonneg l). unfold OnBufferFull. wp_steps.
  rewrite Hi. destruct (Z.eqb_spec ix 0) as [E|E]; wp_steps; [by apply H0|].
  rewrite Hix. apply (wp_mem _ _ _ _ _ Hb). wp_steps. apply H1; [lia|].
  split; cbn [set sink_packet sink_index sink_ready]; auto; [by rewrite Hr|].
  apply read_bytes_spec. rewrite zlen_nil. split_and!; [lia|done|unfold IP_PACKET_SIZE in Hz; lia|lia].
Qed.

(** Room for a block is made by handing over what is there; when the block is too
    long for a packet there is none. *)
Lemma make_room_wp block_length max_length s rdy l Q (QR : bool -> Sink -> Prop) :
  holds s (zlen l) rdy l -> 0 < block_length ->
  (block_length <= max_length -> forall s' rdy' l', holds s' (zlen l') rdy' l' -> zlen l' + block_length <= max_length ->
     (rdy' = rdy /\ l' = l \/ (0 < zlen l) /\ rdy' = rdy ++ [l] /\ l' = []) -> Q tt s') ->
  (max_length < block_length -> forall s', QR false s') ->
  wp (make_room room_fuel block_length max_length) s Q QR.
Proof.
  intros Hs Hb HQ HR. pose proof (zlen_nonneg l). cbn [make_room room_fuel]. wp_steps. rewrite (ho_index _ _ _ _ Hs).
  destruct (Z.ltb_spec max_length (zlen l + block_length)) as [Hfull|Hfit]; wp_steps.
  - eapply OnBufferFull_wp; [exact Hs|done| |].
    + intros E. cbn [negb]. wp_steps. apply HR. lia.
    + intros Hpos s1 Hs1. cbn [negb]. wp_steps. rewrite (ho_index _ _ _ _ Hs1).
      destruct (Z.ltb_spec max_length (0 + block_length)) as [Hfull'|Hfit']; wp_steps.
      * eapply OnBufferFull_wp; [exact Hs1|done| |lia]. intros _. cbn [negb]. wp_steps. apply HR. lia.
      * apply (HQ ltac:(lia) s1 (rdy ++ [l]) []); [exact Hs1|rewrite zlen_nil; lia|by right].
  - eapply HQ; [lia|exact Hs|lia|by left].
Qed.

(** ** Blocks *)

(** A block of a packet as the receiver sees it. *)
Record Block := mkBlock { b_count : Z; b_type : Z; b_body : list Z }.

Definition block_bytes (b : Block) : list Z :=
  [0x80 + b_count b; b_type b] ++ be_bytes 2 (zlen (b_body b) / 4) ++ b_body b.

Definition block_wf (b : Block) : Prop :=
  0 <= b_count b < 32 /\ is_u8 (b_type b) /\ Forall is_u8 (b_body b) /\ zlen (b_body b) mod 4 = 0 /\
  zlen (b_body b) <= 4 * 65535.

Definition block_header (b : Block) : CommonHeader :=
  mkHeader (b_type b) (b_count b) 0 (zlen (b_body b)) (b_body b).

Lemma zlen_block b : zlen (block_bytes b) = 4 + zlen (b_body b).
Proof. unfold block_bytes. rewrite !zlen_app, zlen_be_bytes, !zlen_cons, zlen_nil. lia. Qed.

Lemma first_byte c :
  0 <= c < 32 ->
  is_u8 (0x80 + c) /\ Z.shiftr (0x80 + c) 6 = 2 /\ (Z.land (0x80 + c) 0x20 =? 0) = true /\ Z.land (0x80 + c) 0x1F = c /\
  Z.lor (Z.lor (Z.shiftl 2 6) 0) (u8 c) = 0x80 + c.
Proof.
  intros Hc. rewrite u8_id by clia. unfold is_u8. change (Z.lor (Z.shiftl 2 6) 0) with 0x80.
  rewrite (lor_disjoint 0x80 c 7) by (done || lia). change 0x1F with (Z.ones 5). rewrite Z.land_ones, shiftr_div by lia.
  change 0x20 with (Z.shiftl 1 5). rewrite land_bit by lia.
  assert (E : Z.testbit (0x80 + c) 5 = false).
  { rewrite Z.testbit_odd, shiftr_div by lia.
    replace ((128 + c) / 2 ^ 5) with 4 by (apply (Z.div_unique_pos _ _ _ c); lia). done. }
  rewrite E. split_and!; try lia.
  - symmetry. apply (Z.div_unique_pos _ _ _ c); lia.
  - symmetry. apply (Z.mod_unique_pos _ _ 4); lia.
Qed.

Lemma block_bytes_u8 b : block_wf b -> Forall is_u8 (block_bytes b).
Proof.
  intros (Hc & Ht & Hb & _). destruct (first_byte _ Hc) as [H1 _].
  unfold block_bytes. constructor; [done|]. constructor; [done|]. apply list.Forall_app. split; [apply be_bytes_u8|done].
Qed.

Lemma CommonHeader_Parse_block b rest :
  block_wf b -> Forall is_u8 rest ->
  CommonHeader_Parse (block_bytes b ++ rest) = Some (Some (block_header b)).
Proof.
  intros Hwf Hrest. pose proof (block_bytes_u8 b Hwf) as Hu. destruct Hwf as (Hc & Ht & Hb & Hm & Hl).
  destruct (first_byte _ Hc) as (_ & Hv & Hp & Hcount & _). unfold CommonHeader_Parse, kHeaderLength.
  rewrite zlen_app, zlen_block. pose proof (zlen_nonneg rest). pose proof (zlen_nonneg (b_body b)).
  rewrite (proj2 (Z.ltb_ge _ _)) by lia.
  assert (Hb0 : zget (block_bytes b ++ rest) 0 = Some (0x80 + b_count b)) by done.
  assert (Hb1 : zget (block_bytes b ++ rest) 1 = Some (b_type b)) by done.
  rewrite Hb0. cbn [mbind option_bind]. rewrite Hv. cbn [Z.eqb Pos.eqb negb]. rewrite Hb1. cbn [mbind option_bind].
  assert (Hw : ReadBigEndian 2 (block_bytes b ++ rest) 2 = Some (zlen (b_body b) / 4)).
  { apply read_u16; [by apply list.Forall_app|split; [apply Z.div_pos; lia|apply Z.div_lt_upper_bound; lia]|].
    apply read_bytes_spec. rewrite zlen_app, zlen_block, zlen_be_bytes. split_and!; [lia|done|lia|].
    intros i Hi. unfold block_bytes. rewrite <- !app_assoc.
    rewrite zget_app. change (zlen [_; _]) with 2. rewrite (proj2 (Z.ltb_ge _ _)) by lia.
    rewrite zget_app, zlen_be_bytes, (proj2 (Z.ltb_lt _ _)) by lia. f_equal. lia. }
  rewrite Hw. cbn [mbind option_bind].
  assert (E4 : zlen (b_body b) / 4 * 4 = zlen (b_body b)) by (Z.div_mod_to_equations; lia). rewrite E4.
  rewrite (proj2 (Z.ltb_ge _ _)) by lia. rewrite Hp. cbn [negb].
  assert (Hr : read_bytes (block_bytes b ++ rest) 4 (zlen (b_body b)) = Some (b_body b)).
  { apply read_bytes_spec. rewrite zlen_app, zlen_block. split_and!; [lia|done|lia|]. intros i Hi.
    unfold block_bytes. rewrite <- !app_assoc, zget_app. change (zlen [_; _]) with 2. rewrite (proj2 (Z.ltb_ge _ _)) by lia.
    rewrite zget_app, zlen_be_bytes, (proj2 (Z.ltb_ge _ _)) by lia. rewrite zget_app, (proj2 (Z.ltb_lt _ _)) by lia.
    f_equal. lia. }
  rewrite Hr. cbn [mbind option_bind]. by rewrite Hcount.
Qed.

(** The receiver finds the blocks that were put one behind the other. *)
Lemma ParseCompoundPacket_blocks bs :
  Forall block_wf bs -> ParseCompoundPacket (concat (map block_bytes bs)) = Some (map block_header bs, true).
Proof.
  intros Hwf. unfold ParseCompoundPacket.
  assert (Hf : forall fuel, (length (concat (map block_bytes bs)) < fuel)%nat ->
    compound_blocks fuel (concat (map block_bytes bs)) = Some (map block_header bs, true)); [|apply Hf; lia].
  induction Hwf as [|b bs Hb Hbs IH]; intros fuel Hfuel; (destruct fuel as [|fuel]; [lia|]); cbn [map concat compound_blocks]; [done|].
  destruct (block_bytes b ++ concat (map block_bytes bs)) as [|x l] eqn:E.
  { apply (f_equal zlen) in E. rewrite zlen_app, zlen_block, zlen_nil in E. pose proof (zlen_nonneg (b_body b)).
    pose proof (zlen_nonneg (concat (map block_bytes bs))). lia. }
  rewrite <- E. rewrite CommonHeader_Parse_block; [|done|].
  - cbn [mbind option_bind]. change (header_packet_size (block_header b)) with (4 + zlen (b_body b) + 0).
    assert (Hd : drop (Z.to_nat (4 + zlen (b_body b) + 0)) (block_bytes b ++ concat (map block_bytes bs)) =
      concat (map block_bytes bs)).
    { rewrite Z.add_0_r, <- zlen_block. unfold zlen. rewrite Nat2Z.id. apply drop_app_length. }
    rewrite Hd. rewrite IH; [done|]. cbn [map concat] in Hfuel. rewrite length_app in Hfuel.
    pose proof (zlen_block b) as Hz. unfold zlen in Hz. lia.
  - clear -Hbs. induction Hbs as [|b bs Hb _ IH]; [constructor|]. cbn [map concat]. apply list.Forall_app.
    split; [by apply block_bytes_u8|done].
Qed.

(** ** What packet objects promise *)

(** The packets handed over and the bytes that wait, as blocks. *)
Definition holds_blocks (s : Sink) (max_length : Z) (groups : list (list Block)) (open : list Block) : Prop :=
  holds s (zlen (concat (map block_bytes open))) (map (fun g => concat (map block_bytes g)) groups)
    (concat (map block_bytes open)) /\
  Forall (Forall block_wf) groups /\ Forall block_wf open /\
  Forall (fun g => 0 < zlen (concat (map block_bytes g)) <= max_length) groups /\
  zlen (concat (map block_bytes open)) <= max_length.

(** An object with the room it needs in a packet, and what it conveys as blocks.
    It is created exactly when the room fits, and then its blocks follow those
    that were there, in whole packets of at most [max_length] bytes. *)
Class RtcpLaws (P : Type) `{RtcpPacket P} := {
  valid : P -> Prop;
  room : P -> Z;
  conveys : P -> list Block -> Prop;
  create_wp p max_length s groups open :
    valid p -> max_length <= IP_PACKET_SIZE -> holds_blocks s max_length groups open ->
    wp (Create p max_length) s
       (fun ok s' => ok = true /\ room p <= max_length /\ exists bs groups' open', conveys p bs /\ open' <> [] /\
          holds_blocks s' max_length groups' open' /\ concat groups' ++ open' = concat groups ++ open ++ bs)
       (fun ok s' => ok = false /\ max_length < room p);
}.

(** ** Objects that are one block *)

(** The statement writes [bytes] at the index and moves it behind them. *)
Definition writes (m : forall R, stmt Sink R unit) (bytes : list Z) : Prop :=
  forall R s rdy l Q (QR : R -> Sink -> Prop),
    holds s (zlen l) rdy l -> zlen l + zlen bytes <= IP_PACKET_SIZE ->
    (forall s', holds s' (zlen (l ++ bytes)) rdy (l ++ bytes) -> Q tt s') -> wp (m R) s Q QR.

Lemma writes_nil : writes (fun R => ret tt) [].
Proof. intros R s rdy l Q QR Hs _ HQ. apply HQ. by rewrite app_nil_r. Qed.

Lemma writes_seq m1 m2 b1 b2 : writes m1 b1 -> writes m2 b2 -> writes (fun R => m1 R ;; m2 R) (b1 ++ b2).
Proof.
  intros H1 H2 R s rdy l Q QR Hs Hl HQ. rewrite zlen_app in Hl. pose proof (zlen_nonneg b2). wp_step.
  eapply H1; [exact Hs|lia|]. intros s1 Hs1. eapply H2; [exact Hs1|rewrite zlen_app; lia|].
  intros s2 Hs2. apply HQ. by rewrite app_assoc.
Qed.

(** The writes of one group of fields, then the move of the index. *)
Ltac group_fields :=
  let Hs := fresh "Hs" in let Hl := fresh "Hl" in let HQ := fresh "HQ" in
  intros ? ? ? ? ? ? Hs Hl HQ; rewrite ?zlen_app, ?zlen_be_bytes, ?zlen_cons, ?zlen_nil in Hl;
  unfold IP_PACKET_SIZE in *;
  repeat (wp_step;
    first [ eapply put_be_wp; [eassumption|sink_lia|sink_lia|]
          | eapply put_byte_wp; [eassumption|sink_lia|sink_lia|try done|]
          | eapply put_bytes_wp; [eassumption|sink_lia|sink_lia|try done|] ];
    let s' := fresh "s" in let Hs' := fresh "Hs" in intros s' Hs');
  eapply advance_wp; [eassumption|];
  let s' := fresh "s" in let Hs' := fresh "Hs" in intros s' Hs';
  apply HQ; rewrite <- ?app_assoc in Hs'; cbn [app] in Hs';
  match type of Hs' with holds _ ?i _ _ => match goal with |- holds _ ?j _ _ => replace j with i by sink_lia end end;
  exact Hs'.

Lemma writes_fit m bytes : (zlen bytes <= IP_PACKET_SIZE -> writes m bytes) -> writes m bytes.
Proof. intros H R s rdy l Q QR Hs Hl HQ. pose proof (zlen_nonneg l). by eapply H; [lia|exact Hs|..]. Qed.

Lemma CreateHeader_writes count type length :
  0 <= count < 32 -> is_u8 type -> 0 <= length <= 65535 ->
  writes (fun R => CreateHeader count type length false) ([0x80 + count; type] ++ be_bytes 2 length).
Proof.
  intros Hc Ht Hl. destruct (first_byte count Hc) as (Hu & _ & _ & _ & E). unfold CreateHeader. cbv zeta.
  assert (E2 : [Z.land (Z.shiftr length 8) 0xff; Z.land length 0xff] = be_bytes 2 length).
  { cbn [be_bytes]. unfold u8. rewrite !land_low8, Z.shiftr_0_r. done. }
  rewrite <- E2, E. change ([0x80 + count; type] ++ [Z.land (Z.shiftr length 8) 0xff; Z.land length 0xff])
    with [0x80 + count; type; Z.land (Z.shiftr length 8) 0xff; Z.land length 0xff].
  assert (H2 : is_u8 (Z.land (Z.shiftr length 8) 0xff)) by (rewrite land_low8; apply u8_range).
  assert (H3 : is_u8 (Z.land length 0xff)) by (rewrite land_low8; apply u8_range).
  group_fields.
Qed.

(** The header and what follows it make a block. *)
Lemma block_writes m count type bytes block_length :
  0 <= count < 32 -> is_u8 type -> block_length = 4 + zlen bytes -> writes m bytes ->
  writes (fun R => CreateHeader count type (HeaderLength block_length) false ;; m R) (block_bytes (mkBlock count type bytes)).
Proof.
  intros Hc Ht -> Hm. apply writes_fit. rewrite zlen_block. cbn [b_body]. intros Hfit. unfold block_bytes. cbn [b_count b_type b_body].
  rewrite app_assoc. unfold HeaderLength, kHeaderLength, IP_PACKET_SIZE in *. pose proof (zlen_nonneg bytes).
  replace (4 + zlen bytes - 4) with (zlen bytes) by lia.
  apply (writes_seq (fun R => CreateHeader count type (zlen bytes / 4) false)); [|done].
  apply CreateHeader_writes; [done|done|]. split; [apply Z.div_pos; lia|apply Z.div_le_upper_bound; lia].
Qed.

(** ** Steps on the blocks of the sink *)

(** The bytes of blocks behind one another. *)
Lemma wire_snoc open b :
  concat (map block_bytes (open ++ [b])) = concat (map block_bytes open) ++ block_bytes b.
Proof. rewrite map_app, concat_app. cbn [map concat]. by rewrite app_nil_r. Qed.

Lemma wire_pos open : open <> [] -> 0 < zlen (concat (map block_bytes open)).
Proof.
  destruct open as [|b open]; [done|]. intros _. cbn [map concat]. rewrite zlen_app, zlen_block.
  pose proof (zlen_nonneg (b_body b)). pose proof (zlen_nonneg (concat (map block_bytes open))). lia.
Qed.

Lemma push_wp {R} (m : forall R, stmt Sink R unit) b max_length s groups open Q (QR : R -> Sink -> Prop) :
  writes m (block_bytes b) -> block_wf b -> max_length <= IP_PACKET_SIZE -> holds_blocks s max_length groups open ->
  zlen (concat (map block_bytes open)) + zlen (block_bytes b) <= max_length ->
  (forall s', holds_blocks s' max_length groups (open ++ [b]) -> Q tt s') -> wp (m R) s Q QR.
Proof.
  intros Hm Hwf Hmax (Hs & Hg & Ho & Hgl & Hol) Hfit HQ. eapply Hm; [exact Hs|lia|]. intros s' Hs'. apply HQ.
  unfold holds_blocks. rewrite wire_snoc. split_and!; [done|done|apply list.Forall_app; by split; [|constructor]|done|].
  rewrite zlen_app. lia.
Qed.

Lemma flush_wp {R} max_length s groups open Q (QR : R -> Sink -> Prop) :
  holds_blocks s max_length groups open -> 0 <= max_length ->
  (open = [] -> Q false s) ->
  (open <> [] -> forall s', holds_blocks s' max_length (groups ++ [open]) [] -> Q true s') -> wp OnBufferFull s Q QR.
Proof.
  intros (Hs & Hg & Ho & Hgl & Hol) Hmax H0 H1. eapply OnBufferFull_wp; [exact Hs|done| |].
  - intros E. apply H0. destruct open as [|b open]; [done|]. pose proof (wire_pos (b :: open) ltac:(done)). lia.
  - intros Hpos s' Hs'. apply H1; [by intros ->|]. unfold holds_blocks. rewrite map_app. cbn [map concat].
    split_and!; [done|apply list.Forall_app; by split; [|constructor]|constructor| |by rewrite zlen_nil].
    apply list.Forall_app. split; [done|]. constructor; [lia|constructor].
Qed.

Lemma room_wp block_length max_length s groups open Q (QR : bool -> Sink -> Prop) :
  holds_blocks s max_length groups open -> 0 < block_length ->
  (block_length <= max_length -> forall s' groups' open', holds_blocks s' max_length groups' open' ->
     zlen (concat (map block_bytes open')) + block_length <= max_length ->
     concat groups' ++ open' = concat groups ++ open -> Q tt s') ->
  (max_length < block_length -> forall s', QR false s') ->
  wp (make_room room_fuel block_length max_length) s Q QR.
Proof.
  intros Hh Hb HQ HR. pose proof Hh as (Hs & Hg & Ho & Hgl & Hol).
  eapply make_room_wp; [exact Hs|done| |done]. intros Hfit s1 rdy1 l1 Hs1 Hl1 [[-> ->]|(Hpos & -> & ->)].
  - by apply (HQ Hfit s1 groups open).
  - apply (HQ Hfit s1 (groups ++ [open]) []); [|done|by rewrite concat_app, app_nil_r; cbn [concat]; rewrite app_nil_r].
    unfold holds_blocks. rewrite map_app. cbn [map concat].
    split_and!; [done|apply list.Forall_app; by split; [|constructor]|constructor| |rewrite zlen_nil; lia].
    apply list.Forall_app. split; [done|]. constructor; [lia|constructor].
Qed.

Lemma one_block_wp (m : forall R, stmt Sink R unit) count type bytes block_length max_length s groups open :
  writes m (block_bytes (mkBlock count type bytes)) -> block_length = 4 + zlen bytes ->
  0 <= count < 32 -> is_u8 type -> Forall is_u8 bytes -> zlen bytes mod 4 = 0 ->
  max_length <= IP_PACKET_SIZE -> holds_blocks s max_length groups open ->
  wp (create_block block_length (m bool) max_length) s
     (fun ok s' => ok = true /\ block_length <= max_length /\ exists bs groups' open', bs = [mkBlock count type bytes] /\
        open' <> [] /\ holds_blocks s' max_length groups' open' /\ concat groups' ++ open' = concat groups ++ open ++ bs)
     (fun ok s' => ok = false /\ max_length < block_length).
Proof.
  intros Hm Hbl Hc Ht Hu Hm4 Hmax Hh. pose proof (zlen_nonneg bytes). unfold create_block. wp_step.
  eapply room_wp; [exact Hh|lia| |done]. intros Hfit s1 groups1 open1 Hs1 Hl1 Hcat. wp_step.
  eapply (push_wp m (mkBlock count type bytes)); [done| |done|exact Hs1|rewrite zlen_block; cbn [b_body]; lia|].
  { unfold IP_PACKET_SIZE in Hmax. unfold block_wf. cbn [b_count b_type b_body]. split_and!; auto; lia. }
  intros s2 Hs2. wp_step. split; [done|]. split; [done|]. exists [mkBlock count type bytes], groups1, (open1 ++ [mkBlock count type bytes]).
  split_and!; [done|by destruct open1|done|]. by rewrite app_assoc, Hcat, <- app_assoc.
Qed.

Lemma headed_block_wp (m : forall R, stmt Sink R unit) k count type bytes block_length max_length s groups open :
  writes m bytes -> zlen bytes = 4 * k -> block_length = 4 + 4 * k ->
  0 <= count < 32 -> is_u8 type -> Forall is_u8 bytes ->
  max_length <= IP_PACKET_SIZE -> holds_blocks s max_length groups open ->
  wp (create_block block_length (CreateHeader count type (HeaderLength block_length) false ;; m bool) max_length) s
     (fun ok s' => ok = true /\ block_length <= max_length /\ exists bs groups' open', bs = [mkBlock count type bytes] /\
        open' <> [] /\ holds_blocks s' max_length groups' open' /\ concat groups' ++ open' = concat groups ++ open ++ bs)
     (fun ok s' => ok = false /\ max_length < block_length).
Proof.
  intros Hm Hk Hbl Hc Ht Hu Hmax Hh. rewrite <- Hk in Hbl.
  apply (one_block_wp (fun R => CreateHeader count type (HeaderLength block_length) false ;; m R)); auto.
  - by apply block_writes.
  - rewrite Hk, Z.mul_comm. by apply Z.mod_mul.
Qed.

(** A packet object with its laws. *)
Inductive Member : Type := Mem (P : Type) (H : RtcpPacket P) (L : RtcpLaws P) (p : P).
Arguments Mem {P H L}.

Definition member_any (m : Member) : AnyPacket := match m with @Mem P _ _ p => Any p end.
Definition member_valid (m : Member) : Prop := match m with @Mem P _ _ p => valid p end.
Definition member_room (m : Member) : Z := match m with @Mem P _ _ p => room p end.
Definition member_conveys (m : Member) (bs : list Block) : Prop :=
  match m with @Mem P _ _ p => conveys p bs end.

Lemma compound_wp ms max_length s groups open :
  Forall member_valid ms -> max_length <= IP_PACKET_SIZE -> holds_blocks s max_length groups open ->
  wp (compound_create (map member_any ms) max_length) s
     (fun ok s' => ok = true /\ Forall (fun m => member_room m <= max_length) ms /\
        exists bss groups' open', Forall2 member_conveys ms bss /\ holds_blocks s' max_length groups' open' /\
          concat groups' ++ open' = concat groups ++ open ++ concat bss /\ (open' <> [] \/ ms = [] /\ open' = open))
     (fun ok s' => ok = false /\ Exists (fun m => max_length < member_room m) ms).
Proof.
  intros Hv Hmax. revert s groups open. induction Hv as [|m ms Hm Hms IH]; intros s groups open Hs; cbn [map compound_create].
  - wp_steps. split; [done|]. split; [constructor|]. exists [], groups, open. cbn. rewrite app_nil_r. split_and!; [constructor|done|done|by right].
  - destruct m as [P H L p]. cbn [member_any member_valid] in *. wp_steps.
    eapply wp_mono; [by apply (create_wp p)|cbv beta|cbv beta].
    + intros ok s1 (-> & Hr & bs & groups1 & open1 & Hc & Hop & Hs1 & Hcat). cbn [negb].
      eapply wp_mono; [by apply IH|cbv beta|cbv beta].
      * intros ok s2 (-> & Hrs & bss & groups2 & open2 & Hcs & Hs2 & Hcat2 & Hlast). split; [done|]. split; [by constructor|].
        exists (bs :: bss), groups2, open2. split_and!; [by constructor|done| |].
        -- cbn [concat]. rewrite Hcat2, !app_assoc, Hcat. by rewrite !app_assoc.
        -- left. by destruct Hlast as [|[_ ->]].
      * intros ok s2 [-> He]. split; [done|]. by right.
    + intros ok s1 [-> Hr]. cbn [negb]. wp_steps. split; [done|]. by left.
Qed.

Lemma holds_blocks_start buffer max_length :
  zlen buffer = IP_PACKET_SIZE -> 0 <= max_length -> holds_blocks (mkSink buffer 0 []) max_length [] [].
Proof.
  intros Hl Hm. unfold holds_blocks. cbn. split_and!; try constructor; cbn; auto; try lia.
  apply read_bytes_spec. rewrite zlen_nil. unfold IP_PACKET_SIZE in Hl. split_and!; [lia|done|lia|lia].
Qed.

(** What the receiver makes of packets that consist of whole blocks. *)
Lemma groups_received groups :
  Forall (Forall block_wf) groups ->
  Forall2 (fun p hs => ParseCompoundPacket p = Some (hs, true)) (map (fun g => concat (map block_bytes g)) groups)
    (map (map block_header) groups).
Proof. induction 1 as [|g groups Hg _ IH]; cbn [map]; constructor; [by apply ParseCompoundPacket_blocks|done]. Qed.

Lemma concat_map_map {A B} (f : A -> B) (ls : list (list A)) : concat (map (map f) ls) = map f (concat ls).
Proof. induction ls as [|l ls IH]; cbn; [done|]. by rewrite map_app, IH. Qed.

(** Compound packets arrive: building a compound packet with parts that keep
    their promises succeeds exactly when each part has the room it needs in a
    packet; then every packet that is sent has at most [max_length] bytes, and the
    receiver, which splits the packets into blocks by their headers, reaches the end
    of each and handles the blocks of the parts, complete and in their order - no
    matter how they were spread over packets. *)
Lemma compound_transport buffer ms max_length :
  zlen buffer = IP_PACKET_SIZE -> 0 <= max_length <= IP_PACKET_SIZE -> ms <> [] -> Forall member_valid ms ->
  exists ok packets, Build buffer (map member_any ms) max_length = Some (ok, packets) /\
    ok = forallb (fun m => member_room m <=? max_length) ms /\
    (ok = true -> exists bss hss, Forall2 member_conveys ms bss /\
       Forall (fun p => 0 < zlen p <= max_length) packets /\
       Forall2 (fun p hs => ParseCompoundPacket p = Some (hs, true)) packets hss /\
       concat hss = map block_header (concat bss)).
Proof.
  intros Hbuf Hmax Hne Hv. unfold Build. rewrite (proj2 (Z.ltb_ge _ _)) by lia.
  pose proof (compound_wp ms max_length _ [] [] Hv ltac:(lia) (holds_blocks_start buffer max_length Hbuf ltac:(lia))) as Hw.
  unfold wp in Hw. unfold fn. cbn [Create CompoundPacket].
  destruct (compound_create (map member_any ms) max_length (mkSink buffer 0 [])) as [ok s|ok s| |] eqn:E; [| |done|done].
  - destruct Hw as (-> & Hr & bss & groups & open & Hc & (Hs & Hg & Ho & Hgl & Hol) & Hcat & Hop). cbn [concat app] in Hcat.
    destruct Hop as [Hop|[? _]]; [|done].
    pose proof (wire_pos open Hop) as Hpos.
    assert (Hflush : wp (OnBufferFull (R := unit)) s (fun ok s' => ok = true /\
      sink_ready s' = map (fun g => concat (map block_bytes g)) (groups ++ [open])) (fun _ _ => False)).
    { eapply OnBufferFull_wp; [exact Hs|done|lia|]. intros _ s' Hs'. split; [done|]. by rewrite (ho_ready _ _ _ _ Hs'), map_app. }
    apply wp_run in Hflush as (ok & s' & E' & -> & Hready). rewrite E'. eexists _, _. split; [reflexivity|]. split.
    { symmetry. apply forallb_forall. intros m Hm%list_elem_of_In. apply Z.leb_le. by eapply (proj1 (list.Forall_forall _ _) Hr). }
    intros _. exists bss, (map (map block_header) (groups ++ [open])). rewrite Hready. split_and!; [done| | |].
    + rewrite map_app. apply list.Forall_app. split; [by apply Forall_fmap|]. constructor; [|constructor]. lia.
    + apply groups_received. apply list.Forall_app. split; [done|by constructor].
    + rewrite concat_map_map, concat_app. cbn [concat]. by rewrite app_nil_r, Hcat.
  - destruct Hw as [-> Hr]. eexists _, _. split; [reflexivity|]. split; [|done]. symmetry. apply not_true_is_false.
    rewrite forallb_forall. intros Hall. apply Exists_exists in Hr as (m & Hm & Hlt).
    specialize (Hall m Hm). apply Z.leb_le in Hall. lia.
Qed.
