(* ===== verification/RtcpFields.v ===== *)
(** * RTCP: the fields of a block

    What the parsers of the RTCP packets share: loops that write or read one item
    behind the other, the bytes that a read finds at a place, and the payload that
    a parsed common header comes with. *)

From S2P Require Import Prelude ByteIo Rtcp.

Open Scope Z_scope.
Open Scope c_scope.

(** [for (const Item& item : items) ...] over writes. *)
Fixpoint put_all {R A} (f : A -> stmt Sink R unit) (l : list A) : stmt Sink R unit :=
  match l with
  | [] => ret tt
  | a :: l => f a ;; put_all f l
  end.

(** [n] items of [step] bytes, the first one at [off]. *)
Fixpoint read_all {A} (f : Z -> option A) (n : nat) (off step : Z) : option (list A) :=
  match n with
  | O => Some []
  | S n => a ← f off; l ← read_all f n (off + step) step; Some (a :: l)
  end.

Lemma writes_all {A} (f : A -> forall R, stmt Sink R unit) (bytes : A -> list Z) l :
  Forall (fun a => writes (f a) (bytes a)) l ->
  writes (fun R => put_all (fun a => f a R) l) (concat (map bytes l)).
Proof.
  induction 1 as [|a l Ha _ IH]; cbn [put_all map concat]; [apply writes_nil|].
  by apply (writes_seq (f a) (fun R => put_all (fun a => f a R) l)).
Qed.

(** ** Reading fields behind one another *)

(** The bytes of [d] from [off] on start with [bs]. *)
Definition starts (d : list Z) (off : Z) (bs : list Z) : Prop := read_bytes d off (zlen bs) = Some bs.

Lemma starts_app d off b1 b2 : starts d off (b1 ++ b2) <-> starts d off b1 /\ starts d (off + zlen b1) b2.
Proof.
  unfold starts. rewrite !read_bytes_spec, zlen_app. pose proof (zlen_nonneg b1). pose proof (zlen_nonneg b2). split.
  - intros (H1 & _ & H2 & Hg). split; split_and!; try lia; auto.
    + intros i Hi. rewrite <- Hg by lia. rewrite zget_app, (proj2 (Z.ltb_lt _ _)) by lia. done.
    + intros i Hi. replace (off + zlen b1 + i) with (off + (zlen b1 + i)) by lia. rewrite <- Hg by lia.
      rewrite zget_app, (proj2 (Z.ltb_ge _ _)) by lia. f_equal. lia.
  - intros [(H1 & _ & H2 & Hg1) (_ & _ & H3 & Hg2)]. split_and!; try lia. intros i Hi. rewrite zget_app.
    destruct (Z.ltb_spec i (zlen b1)); [apply Hg1; lia|]. rewrite Hg2 by lia. f_equal. lia.
Qed.

Lemma starts_self bs : starts bs 0 bs.
Proof. unfold starts. apply read_bytes_spec. split_and!; [lia|done|lia|]. intros i _. by rewrite Z.add_0_l. Qed.

Lemma starts_be B d off v rest :
  Forall is_u8 d -> 0 <= v < 2 ^ (8 * Z.of_nat B) -> starts d off (be_bytes B v ++ rest) ->
  ReadBigEndian B d off = Some v /\ starts d (off + Z.of_nat B) rest.
Proof.
  intros Hu Hv [Hs Hr]%starts_app. rewrite zlen_be_bytes in Hr. split; [|done].
  unfold starts in Hs. rewrite zlen_be_bytes in Hs. rewrite (ReadBigEndian_bytes B d off v Hu Hs). by rewrite Z.mod_small.
Qed.

Lemma starts_signed B w d off v rest :
  (0 < B)%nat -> 8 * Z.of_nat B <= w -> Forall is_u8 d -> - 2 ^ (8 * Z.of_nat B - 1) <= v < 2 ^ (8 * Z.of_nat B - 1) ->
  starts d off (be_bytes B (v mod 2 ^ w) ++ rest) ->
  ReadBigEndianSigned B w d off = Some v /\ starts d (off + Z.of_nat B) rest.
Proof.
  intros HB Hw Hu Hv [Hs Hr]%starts_app. rewrite zlen_be_bytes in Hr. split; [|done].
  unfold starts in Hs. rewrite zlen_be_bytes in Hs. unfold ReadBigEndianSigned.
  rewrite (ReadBigEndian_bytes B d off (v mod 2 ^ w) Hu Hs). cbn [mbind option_bind]. rewrite Z.mod_mod_divide.
  - by rewrite signed_value by lia.
  - exists (2 ^ (w - 8 * Z.of_nat B)). rewrite <- Z.pow_add_r by lia. f_equal. lia.
Qed.

Lemma starts_byte d off v rest : starts d off (v :: rest) -> zget d off = Some v /\ starts d (off + 1) rest.
Proof. change (v :: rest) with ([v] ++ rest). intros [Hs Hr]%starts_app. split; [by apply read_byte|done]. Qed.

Lemma be_byte v : is_u8 v -> be_bytes 1 v = [v].
Proof. intros Hv. cbn [be_bytes]. rewrite Z.shiftr_0_r. by rewrite u8_id. Qed.

(** Read the next integer from a hypothesis [starts]. *)
Ltac next_be Hs :=
  let Hr := fresh "Hr" in
  apply starts_be in Hs as [Hr Hs]; [|done|done]; rewrite <- ?Z.add_assoc in Hs; rewrite ?Z.add_0_l in Hs;
  change (Z.of_nat 4) with 4 in Hs; change (Z.of_nat 2) with 2 in Hs; change (Z.of_nat 3) with 3 in Hs;
  repeat match type of Hs with context [Z.pos ?a + Z.pos ?b] =>
    let k := eval vm_compute in (Z.pos a + Z.pos b) in change (Z.pos a + Z.pos b) with k in Hs end;
  rewrite ?Hr; cbn [mbind option_bind].

(** The items that were written one behind the other. *)
Lemma read_all_bytes {A} (f : Z -> option A) (bytes : A -> list Z) (P : A -> Prop) step d l off rest :
  (forall a off rest, P a -> starts d off (bytes a ++ rest) -> f off = Some a /\ starts d (off + step) rest) ->
  Forall P l -> starts d off (concat (map bytes l) ++ rest) ->
  read_all f (length l) off step = Some l /\ starts d (off + step * Z.of_nat (length l)) rest.
Proof.
  intros Hf. induction l as [|a l IH] in off |- *; intros Hp Hs; cbn [map concat read_all length] in *.
  - split; [done|]. by rewrite Z.mul_0_r, Z.add_0_r.
  - apply list.Forall_cons in Hp as [Ha Hp]. rewrite <- app_assoc in Hs. destruct (Hf _ _ _ Ha Hs) as [E Hs'].
    destruct (IH _ Hp Hs') as [E' Hr]. rewrite E. cbn [mbind option_bind]. rewrite E'. cbn [mbind option_bind]. split; [done|].
    by replace (off + step * Z.of_nat (S (length l))) with (off + step + step * Z.of_nat (length l)) by lia.
Qed.

Lemma read_all_Some {A} (f : Z -> option A) (P : A -> Prop) n off step :
  0 <= step -> (forall i, off <= i -> i + step <= off + step * Z.of_nat n -> exists a, f i = Some a /\ P a) ->
  exists l, read_all f n off step = Some l /\ length l = n /\ Forall P l.
Proof.
  intros Hst. induction n as [|n IH] in off |- *; intros Hf; cbn [read_all]; [by exists []|].
  destruct (Hf off ltac:(lia) ltac:(nia)) as (a & Ea & Ha).
  destruct (IH (off + step)) as (l & El & Hl & Hp); [intros i H1 H2; apply Hf; lia|].
  exists (a :: l). rewrite Ea. cbn [mbind option_bind]. rewrite El. split_and!; [done|cbn; lia|by constructor].
Qed.

Lemma zlen_items {A} (bytes : A -> list Z) k l :
  (forall a, zlen (bytes a) = k) -> zlen (concat (map bytes l)) = k * Z.of_nat (length l).
Proof. intros Hk. induction l as [|a l IH]; cbn [map concat length]; [by rewrite Z.mul_0_r|]. rewrite zlen_app, Hk. lia. Qed.

Lemma items_u8 {A} (bytes : A -> list Z) l : (forall a, Forall is_u8 (bytes a)) -> Forall is_u8 (concat (map bytes l)).
Proof. intros Hu. induction l as [|a l IH]; cbn [map concat]; [constructor|]. apply list.Forall_app. by split. Qed.

(** ** Lists of 32 bit numbers *)

Definition put_u32s {R} (l : list Z) : stmt Sink R unit := put_all (fun v => put_be 4 0 v ;; advance 4) l.

Definition read_u32s (data : list Z) (n : nat) (off : Z) : option (list Z) := read_all (ReadBigEndian 4 data) n off 4.

Definition u32s_bytes (l : list Z) : list Z := concat (map (be_bytes 4) l).

Lemma zlen_u32s l : zlen (u32s_bytes l) = 4 * Z.of_nat (length l).
Proof. apply zlen_items. apply zlen_be_bytes. Qed.

Lemma u32s_u8 l : Forall is_u8 (u32s_bytes l).
Proof. apply items_u8. apply be_bytes_u8. Qed.

Lemma put_u32s_writes l : writes (fun R => put_u32s l) (u32s_bytes l).
Proof.
  apply (writes_all (fun v R => put_be 4 0 v ;; advance 4) (be_bytes 4)). apply list.Forall_forall. intros v _. group_fields.
Qed.

Lemma read_u32s_bytes d off l rest :
  Forall is_u8 d -> Forall is_u32 l -> starts d off (u32s_bytes l ++ rest) ->
  read_u32s d (length l) off = Some l /\ starts d (off + 4 * Z.of_nat (length l)) rest.
Proof.
  intros Hu Hl Hs. apply (read_all_bytes _ (be_bytes 4) is_u32 4 d l off rest); [|done|done].
  intros v o r Hv Hst. by apply starts_be in Hst.
Qed.

Lemma read_u32s_Some d off n :
  Forall is_u8 d -> 0 <= off -> off + 4 * Z.of_nat n <= zlen d ->
  exists l, read_u32s d n off = Some l /\ length l = n /\ Forall is_u32 l.
Proof.
  intros Hu H0 Hl. apply read_all_Some; [lia|]. intros i H1 H2. apply ReadBigEndian_Some; [done|lia|].
  change (Z.of_nat 4) with 4. lia.
Qed.

(** ** Headers that were parsed *)

Definition header_valid (h : CommonHeader) : Prop :=
  Forall is_u8 (payload h) /\ zlen (payload h) = payload_size h /\ 0 <= count_or_format_ h < 32 /\ is_u8 (packet_type_ h).

Lemma block_header_ok b : block_wf b -> header_valid (block_header b).
Proof. intros (H1 & H2 & H3 & _). unfold header_valid. cbn; auto. Qed.

(** The first read of the goal is in range and succeeds; the goal goes on with the
    value. *)
Ltac read_be_at B d o :=
  let v := fresh "v" in let E := fresh "E" in let Hv := fresh "Hv" in
  destruct (ReadBigEndian_Some B d o) as (v & E & Hv); [done|lia|lia|]; rewrite E; cbn [mbind option_bind].
Ltac read_be :=
  match goal with
  | |- exists _, (ReadBigEndian ?B ?d ?o ≫= _) = _ /\ _ => read_be_at B d o
  | |- context [ReadBigEndian ?B ?d ?o] => read_be_at B d o
  end.
Ltac read_u8 :=
  match goal with |- exists _, (zget ?d ?o ≫= _) = _ /\ _ =>
    let v := fresh "v" in let E := fresh "E" in
    destruct (zget_is_Some d o) as (v & E); [lia|]; rewrite E; cbn [mbind option_bind] end.

Lemma ReadBigEndianSigned_Some B w data off :
  (0 < B)%nat -> 8 * Z.of_nat B <= w -> Forall is_u8 data -> 0 <= off -> off + Z.of_nat B <= zlen data ->
  exists v, ReadBigEndianSigned B w data off = Some v /\ - 2 ^ (8 * Z.of_nat B - 1) <= v < 2 ^ (8 * Z.of_nat B - 1).
Proof.
  intros HB Hw Hu H1 H2. unfold ReadBigEndianSigned. read_be. pose proof (pow2_half (8 * Z.of_nat B) ltac:(lia)) as Hp.
  set (x := if v <? 2 ^ (8 * Z.of_nat B - 1) then v else v - 2 ^ (8 * Z.of_nat B)).
  assert (Hx : v = x mod 2 ^ (8 * Z.of_nat B) /\ - 2 ^ (8 * Z.of_nat B - 1) <= x < 2 ^ (8 * Z.of_nat B - 1)).
  { subst x. destruct (Z.ltb_spec v (2 ^ (8 * Z.of_nat B - 1))); split; try lia;
      [apply Z.mod_unique_pos with 0|apply Z.mod_unique_pos with (-1)]; lia. }
  destruct Hx as [E' Hx]. exists x. rewrite E', signed_value by lia. done.
Qed.

Lemma CommonHeader_Parse_safe buffer :
  Forall is_u8 buffer ->
  exists r, CommonHeader_Parse buffer = Some r /\
    forall h, r = Some h -> header_valid h /\ 4 <= header_packet_size h <= zlen buffer.
Proof.
  intros Hu. unfold CommonHeader_Parse, kHeaderLength, header_packet_size.
  destruct (Z.ltb_spec (zlen buffer) 4); [by exists None|].
  destruct (zget_is_Some buffer 0) as (b0 & E0); [lia|]. rewrite E0. cbn [mbind option_bind].
  pose proof (zget_Forall _ _ _ _ Hu E0) as Hb0. cbv beta in Hb0.
  assert (Hc : 0 <= Z.land b0 0x1F < 32).
  { change 0x1F with (Z.ones 5). rewrite Z.land_ones by lia. apply Z.mod_pos_bound. lia. }
  destruct (negb _); [by exists None|]. destruct (zget_is_Some buffer 1) as (pt & E1); [lia|]. rewrite E1. cbn [mbind option_bind].
  pose proof (zget_Forall _ _ _ _ Hu E1) as Hpt. cbv beta in Hpt. read_be.
  destruct (Z.ltb_spec (zlen buffer) (4 + v * 4)); [by exists None|].
  assert (Hpay : forall n pad, 0 <= n -> 0 <= pad -> n + pad = v * 4 -> exists r,
    (payload ← read_bytes buffer 4 n; Some (Some (mkHeader pt (Z.land b0 0x1F) pad n payload))) = Some r /\
    forall h, r = Some h -> header_valid h /\ 4 <= 4 + payload_size h + padding_size h <= zlen buffer).
  { intros n pad H1 H2 H3. rewrite (read_bytes_Some buffer 4 n) by lia. cbn [mbind option_bind].
    pose proof (read_bytes_Some buffer 4 n ltac:(lia) H1 ltac:(lia)) as Hr. pose proof (read_bytes_Forall _ _ _ _ _ Hu Hr) as Hpl.
    apply read_bytes_spec in Hr as (_ & Hl & _). eexists. split; [reflexivity|]. intros h [= <-]. split; [|cbn; lia].
    unfold header_valid. cbn [payload payload_size count_or_format_ packet_type_]. split_and!; auto; lia. }
  destruct (negb (Z.land b0 0x20 =? 0)); [|apply Hpay; lia].
  destruct (Z.eqb_spec (v * 4) 0); [by exists None|]. destruct (zget_is_Some buffer (4 + (v * 4 - 1))) as (pad & Ep); [lia|].
  rewrite Ep. cbn [mbind option_bind]. pose proof (zget_Forall _ _ _ _ Hu Ep) as Hpad. cbv beta in Hpad.
  destruct (Z.eqb_spec pad 0); [by exists None|]. destruct (Z.ltb_spec (v * 4) pad); [by exists None|].
  apply Hpay; unfold is_u8 in *; lia.
Qed.

(** The loop over the blocks of any bytes ends, reads only bytes of the packet, and
    the headers it hands on come with the payload they announce. *)
Lemma ParseCompoundPacket_safe buffer :
  Forall is_u8 buffer -> exists hs ok, ParseCompoundPacket buffer = Some (hs, ok) /\ Forall header_valid hs.
Proof.
  intros Hu. unfold ParseCompoundPacket.
  assert (Hf : forall fuel, (length buffer < fuel)%nat -> exists hs ok, compound_blocks fuel buffer = Some (hs, ok) /\ Forall header_valid hs);
    [|apply Hf; lia].
  intros fuel. revert buffer Hu. induction fuel as [|fuel IH]; intros buffer Hu Hl; [lia|]. cbn [compound_blocks].
  destruct buffer as [|x buffer]; [by exists [], true|].
  destruct (CommonHeader_Parse_safe (x :: buffer) Hu) as (r & -> & Hr). cbn [mbind option_bind].
  destruct r as [h|]; [|by exists [], false]. destruct (Hr h eq_refl) as [Hok Hsz].
  destruct (IH (drop (Z.to_nat (header_packet_size h)) (x :: buffer))) as (hs & ok & -> & Hhs).
  - by apply Forall_drop.
  - rewrite length_drop. cbn [length] in *. lia.
  - cbn [mbind option_bind]. exists (h :: hs), ok. split; [done|by constructor].
Qed.
