(* ===== verification/RtcpReports.v ===== *)
(** * RTCP: reports and the end of a session

    [rtcp_packet/report_block.h/.cc], [sender_report.h/.cc], [receiver_report.h/.cc]
    and [bye.h/.cc] under [modules/rtp_rtcp/source]. Each [_Parse] reads the payload
    of a common header: [None] is a read outside of the payload, [Some None] a
    packet that is refused. *)

From S2P Require Import Prelude ByteIo Rtcp RtcpFields.

Open Scope Z_scope.
Open Scope c_scope.

(** ** Report blocks *)

Record ReportBlock := mkReport {
  source_ssrc_ : Z;
  fraction_lost_ : Z;
  cumulative_lost_ : Z;
  extended_high_seq_num_ : Z;
  jitter_ : Z;
  last_sr_ : Z;
  delay_since_last_sr_ : Z;
}.

#[export] Instance eta_Report : Eta ReportBlock := fun b =>
  mkReport (source_ssrc_ b) (fraction_lost_ b) (cumulative_lost_ b) (extended_high_seq_num_ b) (jitter_ b)
    (last_sr_ b) (delay_since_last_sr_ b).

Definition ReportBlock_kLength : Z := 24.

(** [Parse] of the block at [off], of [length] bytes. *)
Definition ReportBlock_Parse (buffer : list Z) (off length : Z) : option (option ReportBlock) :=
  if length <? ReportBlock_kLength then Some None
  else
    source_ssrc ← ReadBigEndian 4 buffer off;
    fraction_lost ← zget buffer (off + 4);
    cumulative_lost ← ReadBigEndianSigned 3 32 buffer (off + 5);
    extended_high_seq_num ← ReadBigEndian 4 buffer (off + 8);
    jitter ← ReadBigEndian 4 buffer (off + 12);
    last_sr ← ReadBigEndian 4 buffer (off + 16);
    delay_since_last_sr ← ReadBigEndian 4 buffer (off + 20);
    Some (Some (mkReport source_ssrc fraction_lost cumulative_lost extended_high_seq_num jitter last_sr
      delay_since_last_sr)).

(** [Create] and the move of the index by its caller. *)
Definition ReportBlock_Create {R} (b : ReportBlock) : stmt Sink R unit :=
  put_be 4 0 (source_ssrc_ b) ;;
  put_be 1 4 (fraction_lost_ b) ;;
  put_be 3 5 (cumulative_lost_ b mod 2 ^ 32) ;;
  put_be 4 8 (extended_high_seq_num_ b) ;;
  put_be 4 12 (jitter_ b) ;;
  put_be 4 16 (last_sr_ b) ;;
  put_be 4 20 (delay_since_last_sr_ b) ;;
  advance ReportBlock_kLength.

(** The block after the call, if the value fits. *)
Definition SetCumulativeLost (b : ReportBlock) (cumulative_lost : Z) : option ReportBlock :=
  if (Z.shiftl 1 23 <=? cumulative_lost) || (cumulative_lost <? - Z.shiftl 1 23) then None
  else Some (b <| cumulative_lost_ := cumulative_lost |>).

Definition cumulative_lost (b : ReportBlock) : Z :=
  if cumulative_lost_ b <? 0 then 0 else cumulative_lost_ b.

Definition report_ok (b : ReportBlock) : Prop :=
  is_u32 (source_ssrc_ b) /\ is_u8 (fraction_lost_ b) /\ - 2 ^ 23 <= cumulative_lost_ b < 2 ^ 23 /\
  is_u32 (extended_high_seq_num_ b) /\ is_u32 (jitter_ b) /\ is_u32 (last_sr_ b) /\ is_u32 (delay_since_last_sr_ b).

Definition report_bytes (b : ReportBlock) : list Z :=
  be_bytes 4 (source_ssrc_ b) ++ be_bytes 1 (fraction_lost_ b) ++ be_bytes 3 (cumulative_lost_ b mod 2 ^ 32) ++
  be_bytes 4 (extended_high_seq_num_ b) ++ be_bytes 4 (jitter_ b) ++ be_bytes 4 (last_sr_ b) ++
  be_bytes 4 (delay_since_last_sr_ b).

Lemma zlen_report b : zlen (report_bytes b) = 24.
Proof. done. Qed.

Lemma ReportBlock_writes b : writes (fun R => ReportBlock_Create b) (report_bytes b).
Proof. unfold ReportBlock_Create, report_bytes, ReportBlock_kLength. group_fields. Qed.

Lemma ReportBlock_Parse_bytes d off b rest :
  Forall is_u8 d -> report_ok b -> starts d off (report_bytes b ++ rest) ->
  ReportBlock_Parse d off ReportBlock_kLength = Some (Some b) /\ starts d (off + 24) rest.
Proof.
  intros Hu (H1 & H2 & H3 & H4 & H5 & H6 & H7) Hs. unfold report_bytes in Hs. rewrite <- !app_assoc in Hs.
  unfold ReportBlock_Parse, ReportBlock_kLength. change (24 <? 24) with false. cbv iota.
  next_be Hs. rewrite be_byte in Hs by done. apply starts_byte in Hs as [Hf Hs]. rewrite Hf. cbn [mbind option_bind].
  apply (starts_signed 3 32) in Hs as [Hc Hs]; [|lia|lia|done|done].
  replace (off + 4 + 1) with (off + 5) in * by lia. rewrite Hc. cbn [mbind option_bind].
  change (Z.of_nat 3) with 3 in Hs. replace (off + 5 + 3) with (off + 8) in Hs by lia.
  next_be Hs. next_be Hs. next_be Hs. next_be Hs. split; [by destruct b|done].
Qed.

Lemma ReportBlock_Parse_safe d off :
  Forall is_u8 d -> 0 <= off -> off + 24 <= zlen d ->
  exists b, ReportBlock_Parse d off ReportBlock_kLength = Some (Some b) /\ report_ok b.
Proof.
  intros Hu H0 Hl. unfold ReportBlock_Parse, ReportBlock_kLength. change (24 <? 24) with false. cbv iota.
  read_be. destruct (zget_is_Some d (off + 4)) as (f & Ef); [lia|]. rewrite Ef. cbn [mbind option_bind].
  pose proof (zget_Forall _ _ _ _ Hu Ef) as Hf. cbv beta in Hf.
  destruct (ReadBigEndianSigned_Some 3 32 d (off + 5)) as (c & Ec & Hc); [lia|lia|done|lia|lia|].
  rewrite Ec. cbn [mbind option_bind]. do 4 read_be.
  eexists. split; [reflexivity|]. unfold report_ok. by cbn [source_ssrc_ fraction_lost_ cumulative_lost_ extended_high_seq_num_
    jitter_ last_sr_ delay_since_last_sr_].
Qed.

(** The loop over [report_blocks_]: a block that were not parsed would keep its
    initial values. *)
Definition no_report : ReportBlock := mkReport 0 0 0 0 0 0 0.

Definition parse_reports (n : nat) (payload : list Z) (off : Z) : option (list ReportBlock) :=
  read_all (fun next_block =>
    b ← ReportBlock_Parse payload next_block ReportBlock_kLength; Some (default no_report b)) n off ReportBlock_kLength.

Definition put_reports {R} (blocks : list ReportBlock) : stmt Sink R unit := put_all ReportBlock_Create blocks.

Definition reports_bytes (blocks : list ReportBlock) : list Z := concat (map report_bytes blocks).

Lemma zlen_reports blocks : zlen (reports_bytes blocks) = 24 * Z.of_nat (length blocks).
Proof. by apply zlen_items. Qed.

Lemma reports_u8 blocks : Forall is_u8 (reports_bytes blocks).
Proof. apply items_u8. intros b. unfold report_bytes. rewrite !list.Forall_app. split_and!; apply be_bytes_u8. Qed.

Lemma put_reports_writes blocks : writes (fun R => put_reports blocks) (reports_bytes blocks).
Proof.
  apply (writes_all (fun b R => ReportBlock_Create b) report_bytes). apply list.Forall_forall.
  intros b _. apply ReportBlock_writes.
Qed.

Lemma parse_reports_bytes d off blocks rest :
  Forall is_u8 d -> Forall report_ok blocks -> starts d off (reports_bytes blocks ++ rest) ->
  parse_reports (length blocks) d off = Some blocks.
Proof.
  intros Hu Hb Hs. unfold parse_reports. eapply (read_all_bytes _ report_bytes report_ok 24 d blocks off rest); [|done|exact Hs].
  intros b o r Hok Hst. destruct (ReportBlock_Parse_bytes d o b r Hu Hok Hst) as [E Hs']. rewrite E. done.
Qed.

Lemma parse_reports_safe d off n :
  Forall is_u8 d -> 0 <= off -> off + 24 * Z.of_nat n <= zlen d ->
  exists l, parse_reports n d off = Some l /\ length l = n /\ Forall report_ok l.
Proof.
  intros Hu H0 Hl. apply read_all_Some; [done|]. unfold ReportBlock_kLength. intros i H1 H2.
  destruct (ReportBlock_Parse_safe d i Hu ltac:(lia) ltac:(lia)) as (b & E & Hb). exists b.
  unfold ReportBlock_kLength in E. by rewrite E.
Qed.

Definition kMaxNumberOfReportBlocks : Z := 0x1f.

(** ** Receiver reports *)

Record ReceiverReport := mkReceiverReport { rr_sender_ssrc_ : Z; rr_report_blocks_ : list ReportBlock }.

Definition kRrBaseLength : Z := 4.

Definition ReceiverReport_Parse (packet : CommonHeader) : option (option ReceiverReport) :=
  let report_blocks_count := count_or_format_ packet in
  if payload_size packet <? kRrBaseLength + report_blocks_count * ReportBlock_kLength then Some None
  else
    sender_ssrc ← ReadBigEndian 4 (payload packet) 0;
    report_blocks ← parse_reports (Z.to_nat report_blocks_count) (payload packet) kRrBaseLength;
    Some (Some (mkReceiverReport sender_ssrc report_blocks)).

Definition ReceiverReport_BlockLength (p : ReceiverReport) : Z :=
  kHeaderLength + kRrBaseLength + Z.of_nat (length (rr_report_blocks_ p)) * ReportBlock_kLength.

Definition ReceiverReport_write {R} (p : ReceiverReport) : stmt Sink R unit :=
  CreateHeader (Z.of_nat (length (rr_report_blocks_ p))) 201 (HeaderLength (ReceiverReport_BlockLength p)) false ;;
  (put_be 4 0 (rr_sender_ssrc_ p) ;;
   advance kRrBaseLength) ;;
  put_reports (rr_report_blocks_ p).

Definition ReceiverReport_AddReportBlock (p : ReceiverReport) (block : ReportBlock) : option ReceiverReport :=
  if kMaxNumberOfReportBlocks <=? Z.of_nat (length (rr_report_blocks_ p)) then None
  else Some (mkReceiverReport (rr_sender_ssrc_ p) (rr_report_blocks_ p ++ [block])).

Definition ReceiverReport_SetReportBlocks (p : ReceiverReport) (blocks : list ReportBlock) : option ReceiverReport :=
  if kMaxNumberOfReportBlocks <? Z.of_nat (length blocks) then None
  else Some (mkReceiverReport (rr_sender_ssrc_ p) blocks).

#[export] Instance ReceiverReport_Packet : RtcpPacket ReceiverReport :=
  { BlockLength := ReceiverReport_BlockLength; Create p := create_block (ReceiverReport_BlockLength p) (ReceiverReport_write p) }.

Definition reports_ok (blocks : list ReportBlock) : Prop :=
  Forall report_ok blocks /\ Z.of_nat (length blocks) <= 31.

Definition ReceiverReport_ok (p : ReceiverReport) : Prop := is_u32 (rr_sender_ssrc_ p) /\ reports_ok (rr_report_blocks_ p).

Definition ReceiverReport_block (p : ReceiverReport) : Block :=
  mkBlock (Z.of_nat (length (rr_report_blocks_ p))) 201 (be_bytes 4 (rr_sender_ssrc_ p) ++ reports_bytes (rr_report_blocks_ p)).

#[export] Program Instance ReceiverReport_Laws : RtcpLaws ReceiverReport :=
  { valid := ReceiverReport_ok; room := ReceiverReport_BlockLength; conveys p bs := bs = [ReceiverReport_block p] }.
Next Obligation.
  intros p max_length s groups open [Hs [Hb Hn]] Hmax Hh.
  apply (headed_block_wp (fun R => (put_be 4 0 (rr_sender_ssrc_ p) ;; advance kRrBaseLength) ;; put_reports (rr_report_blocks_ p))
    (1 + 6 * Z.of_nat (length (rr_report_blocks_ p)))); auto.
  - apply (writes_seq (fun R => put_be 4 0 _ ;; advance _)); [unfold kRrBaseLength; group_fields|apply put_reports_writes].
  - rewrite zlen_app, zlen_be_bytes, zlen_reports. lia.
  - unfold ReceiverReport_BlockLength, kHeaderLength, kRrBaseLength, ReportBlock_kLength. lia.
  - lia.
  - done.
  - apply list.Forall_app. split; [apply be_bytes_u8|apply reports_u8].
Qed.

Lemma ReceiverReport_Parse_block p :
  ReceiverReport_ok p -> ReceiverReport_Parse (block_header (ReceiverReport_block p)) = Some (Some p).
Proof.
  intros [Hs [Hb Hn]]. unfold ReceiverReport_Parse, block_header. cbn [b_count b_type b_body ReceiverReport_block
    payload payload_size count_or_format_]. unfold kRrBaseLength, ReportBlock_kLength.
  set (d := be_bytes 4 (rr_sender_ssrc_ p) ++ reports_bytes (rr_report_blocks_ p)).
  assert (Hu : Forall is_u8 d) by (apply list.Forall_app; split; [apply be_bytes_u8|apply reports_u8]).
  assert (Hl : zlen d = 4 + 24 * Z.of_nat (length (rr_report_blocks_ p))) by (unfold d; by rewrite zlen_app, zlen_be_bytes, zlen_reports).
  rewrite (proj2 (Z.ltb_ge _ _)) by lia. pose proof (starts_self d) as Hst. unfold d in Hst at 2. next_be Hst.
  rewrite Nat2Z.id, (parse_reports_bytes d 4 _ [] Hu Hb); [by destruct p|]. by rewrite app_nil_r.
Qed.

Lemma ReceiverReport_Parse_safe h :
  header_valid h -> exists r, ReceiverReport_Parse h = Some r /\ forall p, r = Some p -> ReceiverReport_ok p.
Proof.
  intros (Hu & Hl & Hc & _). unfold ReceiverReport_Parse, kRrBaseLength, ReportBlock_kLength.
  destruct (Z.ltb_spec (payload_size h) (4 + count_or_format_ h * 24)); [by exists None|]. read_be.
  destruct (parse_reports_safe (payload h) 4 (Z.to_nat (count_or_format_ h)) Hu) as (l & El & Hn & Hok); [lia|lia|].
  rewrite El. cbn [mbind option_bind]. eexists. split; [reflexivity|]. intros p [= <-]. split; [done|]. split; [done|].
  cbn [rr_report_blocks_]. lia.
Qed.

(** ** Sender reports *)

(** [NtpTime] comes from [system_wrappers/include/ntp_time.h], which is not part of
    the repository: a point in time with its seconds and fractions of a second. *)
Class NtpTime (T : Type) := {
  NtpTime_init : T;
  NtpTime_Set : T -> Z -> Z -> T;
  NtpTime_seconds : T -> Z;
  NtpTime_fractions : T -> Z;
}.

Class NtpTimeLaws (T : Type) `{NtpTime T} := {
  seconds_Set t s f : is_u32 s -> is_u32 f -> NtpTime_seconds (NtpTime_Set t s f) = s;
  fractions_Set t s f : is_u32 s -> is_u32 f -> NtpTime_fractions (NtpTime_Set t s f) = f;
  NtpTime_ext t u : NtpTime_seconds t = NtpTime_seconds u -> NtpTime_fractions t = NtpTime_fractions u -> t = u;
}.

Section SenderReport.
Context {T : Type} `{NtpTimeLaws T}.

Record SenderReport := mkSenderReport {
  sr_sender_ssrc_ : Z;
  ntp_ : T;
  rtp_timestamp_ : Z;
  sender_packet_count_ : Z;
  sender_octet_count_ : Z;
  sr_report_blocks_ : list ReportBlock;
}.

Definition kSenderBaseLength : Z := 24.

(** [Parse] into an object as the constructor makes it *)
Definition SenderReport_Parse (packet : CommonHeader) : option (option SenderReport) :=
  let report_block_count := count_or_format_ packet in
  if payload_size packet <? kSenderBaseLength + report_block_count * ReportBlock_kLength then Some None
  else
    let payload := payload packet in
    sender_ssrc ← ReadBigEndian 4 payload 0;
    secs ← ReadBigEndian 4 payload 4;
    frac ← ReadBigEndian 4 payload 8;
    let ntp := NtpTime_Set NtpTime_init secs frac in
    rtp_timestamp ← ReadBigEndian 4 payload 12;
    sender_packet_count ← ReadBigEndian 4 payload 16;
    sender_octet_count ← ReadBigEndian 4 payload 20;
    report_blocks ← parse_reports (Z.to_nat report_block_count) payload kSenderBaseLength;
    Some (Some (mkSenderReport sender_ssrc ntp rtp_timestamp sender_packet_count sender_octet_count report_blocks)).

Definition SenderReport_BlockLength (p : SenderReport) : Z :=
  kHeaderLength + kSenderBaseLength + Z.of_nat (length (sr_report_blocks_ p)) * ReportBlock_kLength.

Definition SenderReport_fields {R} (p : SenderReport) : stmt Sink R unit :=
  put_be 4 0 (sr_sender_ssrc_ p) ;;
  put_be 4 4 (NtpTime_seconds (ntp_ p)) ;;
  put_be 4 8 (NtpTime_fractions (ntp_ p)) ;;
  put_be 4 12 (rtp_timestamp_ p) ;;
  put_be 4 16 (sender_packet_count_ p) ;;
  put_be 4 20 (sender_octet_count_ p) ;;
  advance kSenderBaseLength.

Definition SenderReport_write {R} (p : SenderReport) : stmt Sink R unit :=
  CreateHeader (Z.of_nat (length (sr_report_blocks_ p))) 200 (HeaderLength (SenderReport_BlockLength p)) false ;;
  SenderReport_fields p ;;
  put_reports (sr_report_blocks_ p).

Definition SenderReport_AddReportBlock (p : SenderReport) (block : ReportBlock) : option SenderReport :=
  if kMaxNumberOfReportBlocks <=? Z.of_nat (length (sr_report_blocks_ p)) then None
  else Some (mkSenderReport (sr_sender_ssrc_ p) (ntp_ p) (rtp_timestamp_ p) (sender_packet_count_ p)
    (sender_octet_count_ p) (sr_report_blocks_ p ++ [block])).

Definition SenderReport_SetReportBlocks (p : SenderReport) (blocks : list ReportBlock) : option SenderReport :=
  if kMaxNumberOfReportBlocks <? Z.of_nat (length blocks) then None
  else Some (mkSenderReport (sr_sender_ssrc_ p) (ntp_ p) (rtp_timestamp_ p) (sender_packet_count_ p)
    (sender_octet_count_ p) blocks).

#[export] Instance SenderReport_Packet : RtcpPacket SenderReport :=
  { BlockLength := SenderReport_BlockLength;
    Create p := create_block (SenderReport_BlockLength p) (SenderReport_write p) }.

Definition SenderReport_ok (p : SenderReport) : Prop :=
  is_u32 (sr_sender_ssrc_ p) /\ is_u32 (NtpTime_seconds (ntp_ p)) /\ is_u32 (NtpTime_fractions (ntp_ p)) /\
  is_u32 (rtp_timestamp_ p) /\ is_u32 (sender_packet_count_ p) /\ is_u32 (sender_octet_count_ p) /\
  reports_ok (sr_report_blocks_ p).

Definition SenderReport_bytes (p : SenderReport) : list Z :=
  be_bytes 4 (sr_sender_ssrc_ p) ++ be_bytes 4 (NtpTime_seconds (ntp_ p)) ++ be_bytes 4 (NtpTime_fractions (ntp_ p)) ++
  be_bytes 4 (rtp_timestamp_ p) ++ be_bytes 4 (sender_packet_count_ p) ++ be_bytes 4 (sender_octet_count_ p).

Definition SenderReport_block (p : SenderReport) : Block :=
  mkBlock (Z.of_nat (length (sr_report_blocks_ p))) 200 (SenderReport_bytes p ++ reports_bytes (sr_report_blocks_ p)).

Lemma SenderReport_u8 p : Forall is_u8 (b_body (SenderReport_block p)).
Proof.
  cbn [b_body SenderReport_block]. unfold SenderReport_bytes. rewrite !list.Forall_app.
  split_and!; apply be_bytes_u8 || apply reports_u8.
Qed.

Lemma zlen_SenderReport p : zlen (b_body (SenderReport_block p)) = 24 + 24 * Z.of_nat (length (sr_report_blocks_ p)).
Proof. cbn [b_body SenderReport_block]. rewrite zlen_app, zlen_reports. done. Qed.

#[export] Program Instance SenderReport_Laws : RtcpLaws SenderReport :=
  { valid := SenderReport_ok; room := SenderReport_BlockLength; conveys p bs := bs = [SenderReport_block p] }.
Next Obligation.
  intros p max_length s groups open (_ & _ & _ & _ & _ & _ & [Hb Hn]) Hmax Hh.
  apply (headed_block_wp (fun R => SenderReport_fields p ;; put_reports (sr_report_blocks_ p))
    (6 + 6 * Z.of_nat (length (sr_report_blocks_ p)))); auto.
  - apply (writes_seq (fun R => SenderReport_fields p)); [|apply put_reports_writes].
    unfold SenderReport_fields, SenderReport_bytes, kSenderBaseLength. group_fields.
  - pose proof (zlen_SenderReport p) as E. cbn [b_body SenderReport_block] in E. lia.
  - unfold SenderReport_BlockLength, kHeaderLength, kSenderBaseLength, ReportBlock_kLength. lia.
  - lia.
  - done.
  - apply SenderReport_u8.
Qed.

Lemma SenderReport_Parse_block p :
  SenderReport_ok p -> SenderReport_Parse (block_header (SenderReport_block p)) = Some (Some p).
Proof.
  intros (H1 & H2 & H3 & H4 & H5 & H6 & [Hb Hn]). pose proof (SenderReport_u8 p) as Hu. pose proof (zlen_SenderReport p) as Hl.
  pose proof (starts_self (b_body (SenderReport_block p))) as Hst.
  unfold SenderReport_Parse, block_header. cbn [b_count payload payload_size count_or_format_].
  set (d := b_body (SenderReport_block p)) in *. change (b_count (SenderReport_block p)) with (Z.of_nat (length (sr_report_blocks_ p))).
  unfold kSenderBaseLength, ReportBlock_kLength. rewrite (proj2 (Z.ltb_ge _ _)) by lia. cbv zeta.
  unfold d in Hst at 2. cbn [b_body SenderReport_block] in Hst. unfold SenderReport_bytes in Hst. rewrite <- !app_assoc in Hst.
  do 6 next_be Hst. rewrite Nat2Z.id, (parse_reports_bytes d 24 _ [] Hu Hb) by (by rewrite app_nil_r).
  cbn [mbind option_bind].
  assert (E : NtpTime_Set NtpTime_init (NtpTime_seconds (ntp_ p)) (NtpTime_fractions (ntp_ p)) = ntp_ p).
  { apply NtpTime_ext; [by apply seconds_Set|by apply fractions_Set]. }
  rewrite E. by destruct p.
Qed.

Lemma SenderReport_Parse_safe h :
  header_valid h -> exists r, SenderReport_Parse h = Some r /\ forall p, r = Some p -> SenderReport_ok p.
Proof.
  intros (Hu & Hl & Hc & _). unfold SenderReport_Parse, kSenderBaseLength, ReportBlock_kLength. cbv zeta.
  destruct (Z.ltb_spec (payload_size h) (24 + count_or_format_ h * 24)); [by exists None|]. do 6 read_be.
  destruct (parse_reports_safe (payload h) 24 (Z.to_nat (count_or_format_ h)) Hu) as (l & El & Hn & Hok); [lia|lia|].
  rewrite El. cbn [mbind option_bind]. eexists. split; [reflexivity|]. intros p [= <-].
  unfold SenderReport_ok, reports_ok. cbn. rewrite seconds_Set, fractions_Set by done. split_and!; try done. lia.
Qed.

End SenderReport.

Arguments SenderReport : clear implicits.

(** ** Bye *)

Record Bye := mkBye { bye_sender_ssrc_ : Z; csrcs_ : list Z; reason_ : list Z }.

Definition kMaxNumberOfCsrcs : Z := 0x1f - 1.

Definition Bye_Parse (packet : CommonHeader) : option (option Bye) :=
  let src_count := count_or_format_ packet in
  if payload_size packet <? 4 * src_count then Some None
  else
    let payload := payload packet in
    let has_reason := 4 * src_count <? payload_size packet in
    reason_length ←
      (if has_reason then
         reason_length ← zget payload (4 * src_count);
         if payload_size packet - 4 * src_count <? 1 + reason_length then Some None
         else Some (Some reason_length)
       else Some (Some 0));
    match reason_length with
    | None => Some None
    | Some reason_length =>
        '(sender_ssrc, csrcs) ←
          (if src_count =? 0 then Some (0, [])
           else
             sender_ssrc ← ReadBigEndian 4 payload 0;
             csrcs ← read_u32s payload (Z.to_nat (src_count - 1)) 4;
             Some (sender_ssrc, csrcs));
        reason ← (if has_reason then read_bytes payload (4 * src_count + 1) reason_length else Some []);
        Some (Some (mkBye sender_ssrc csrcs reason))
    end.

Definition Bye_BlockLength (p : Bye) : Z :=
  let src_count := 1 + Z.of_nat (length (csrcs_ p)) in
  let reason_size_in_32bits := if zlen (reason_ p) =? 0 then 0 else zlen (reason_ p) / 4 + 1 in
  kHeaderLength + 4 * (src_count + reason_size_in_32bits).

Definition put_reason {R} (reason : list Z) (index_end : Z) : stmt Sink R unit :=
  if zlen reason =? 0 then ret tt
  else
    let reason_length := u8 (zlen reason) in
    (put_byte_at 0 reason_length ;; advance 1) ;;
    (put_bytes 0 (take (Z.to_nat reason_length) reason) ;; advance reason_length) ;;
    let! s := get in
    let bytes_to_pad := index_end - sink_index s in
    if 0 <? bytes_to_pad then
      put_bytes 0 (replicate (Z.to_nat bytes_to_pad) 0) ;; advance bytes_to_pad
    else ret tt.

Definition Bye_write {R} (p : Bye) : stmt Sink R unit :=
  let! s := get in
  let index_end := sink_index s + Bye_BlockLength p in
  (CreateHeader (1 + Z.of_nat (length (csrcs_ p))) 203 (HeaderLength (Bye_BlockLength p)) false ;;
   (put_be 4 0 (bye_sender_ssrc_ p) ;; advance 4) ;;
   put_u32s (csrcs_ p)) ;;
  put_reason (reason_ p) index_end.

Definition Bye_SetCsrcs (p : Bye) (csrcs : list Z) : option Bye :=
  if kMaxNumberOfCsrcs <? Z.of_nat (length csrcs) then None
  else Some (mkBye (bye_sender_ssrc_ p) csrcs (reason_ p)).

Definition Bye_SetReason (p : Bye) (reason : list Z) : Bye := mkBye (bye_sender_ssrc_ p) (csrcs_ p) reason.

#[export] Instance Bye_Packet : RtcpPacket Bye :=
  { BlockLength := Bye_BlockLength; Create p := create_block (Bye_BlockLength p) (Bye_write p) }.

(** A reason of at most 255 bytes is what [SetReason] asks for. *)
Definition Bye_ok (p : Bye) : Prop :=
  is_u32 (bye_sender_ssrc_ p) /\ Forall is_u32 (csrcs_ p) /\ Z.of_nat (length (csrcs_ p)) <= 30 /\
  Forall is_u8 (reason_ p) /\ zlen (reason_ p) <= 255.

Definition reason_bytes (reason : list Z) : list Z :=
  if zlen reason =? 0 then []
  else [zlen reason] ++ reason ++ replicate (Z.to_nat (3 - zlen reason mod 4)) 0.

Definition Bye_bytes (p : Bye) : list Z := be_bytes 4 (bye_sender_ssrc_ p) ++ u32s_bytes (csrcs_ p) ++ reason_bytes (reason_ p).

Definition Bye_block (p : Bye) : Block := mkBlock (1 + Z.of_nat (length (csrcs_ p))) 203 (Bye_bytes p).

Lemma zlen_reason reason :
  zlen (reason_bytes reason) = 4 * (if zlen reason =? 0 then 0 else zlen reason / 4 + 1).
Proof.
  unfold reason_bytes. destruct (Z.eqb_spec (zlen reason) 0); [done|]. rewrite !zlen_app, zlen_replicate.
  change (zlen [zlen reason]) with 1. pose proof (Z.mod_pos_bound (zlen reason) 4 ltac:(lia)).
  pose proof (Z.div_mod (zlen reason) 4 ltac:(lia)). lia.
Qed.

Lemma Bye_BlockLength_eq p :
  Bye_BlockLength p = 4 + zlen (Bye_bytes p).
Proof.
  unfold Bye_bytes, Bye_BlockLength, kHeaderLength. cbv zeta. rewrite !zlen_app, zlen_be_bytes, zlen_u32s, zlen_reason. lia.
Qed.

Lemma Bye_bytes_u8 p : Bye_ok p -> Forall is_u8 (Bye_bytes p).
Proof.
  intros (_ & _ & _ & Hr & Hn). unfold Bye_bytes. rewrite !list.Forall_app. split_and!; [apply be_bytes_u8|apply u32s_u8|].
  unfold reason_bytes. destruct (Z.eqb_spec (zlen (reason_ p)) 0); [constructor|]. pose proof (zlen_nonneg (reason_ p)).
  constructor; [unfold is_u8; lia|]. apply list.Forall_app. split; [done|]. by apply list.Forall_replicate.
Qed.

(** The reason, its length in front of it, is padded up to the end of the block. *)
Lemma put_reason_wp {R} reason s rdy l Q (QR : R -> Sink -> Prop) :
  Forall is_u8 reason -> zlen reason <= 255 -> holds s (zlen l) rdy l ->
  zlen l + zlen (reason_bytes reason) <= IP_PACKET_SIZE ->
  (forall s', holds s' (zlen (l ++ reason_bytes reason)) rdy (l ++ reason_bytes reason) -> Q tt s') ->
  wp (put_reason reason (zlen l + zlen (reason_bytes reason))) s Q QR.
Proof.
  intros Hu Hn Hs Hl HQ. pose proof (zlen_reason reason) as Hz. unfold put_reason, reason_bytes in *.
  pose proof (zlen_nonneg reason). destruct (Z.eqb_spec (zlen reason) 0) as [E|E]; [wp_steps; apply HQ; by rewrite app_nil_r|].
  rewrite u8_id by (unfold is_u8; lia). cbv zeta.
  assert (Et : take (Z.to_nat (zlen reason)) reason = reason) by (unfold zlen; rewrite Nat2Z.id; apply firstn_all). rewrite Et.
  set (pad := replicate _ 0) in *. pose proof (Z.mod_pos_bound (zlen reason) 4 ltac:(lia)) as Hm.
  assert (Hp : zlen pad = 3 - zlen reason mod 4) by (unfold pad; rewrite zlen_replicate; lia).
  assert (Hlen : writes (fun R => put_byte_at 0 (zlen reason) ;; advance 1) [zlen reason]).
  { assert (is_u8 (zlen reason)) by (unfold is_u8; lia). group_fields. }
  assert (Htext : writes (fun R => put_bytes 0 reason ;; advance (zlen reason)) reason) by group_fields.
  assert (Hpad : writes (fun R => put_bytes 0 pad ;; advance (zlen pad)) pad).
  { assert (Forall is_u8 pad) by (by apply list.Forall_replicate). group_fields. }
  rewrite !zlen_app in Hl. change (zlen [zlen reason]) with 1 in Hl. wp_step.
  eapply Hlen; [exact Hs|change (zlen [zlen reason]) with 1; lia|]. intros s1 Hs1. wp_step.
  eapply Htext; [exact Hs1|rewrite zlen_app; change (zlen [zlen reason]) with 1; lia|]. intros s2 Hs2. wp_steps.
  rewrite (ho_index _ _ _ _ Hs2), !zlen_app. change (zlen [zlen reason]) with 1.
  replace (zlen l + (1 + (zlen reason + zlen pad)) - (zlen l + 1 + zlen reason)) with (zlen pad) by lia.
  destruct (Z.ltb_spec 0 (zlen pad)).
  - assert (Er : replicate (Z.to_nat (zlen pad)) 0 = pad) by (by rewrite Hp).
    rewrite Er. eapply Hpad; [exact Hs2|rewrite !zlen_app; change (zlen [zlen reason]) with 1; lia|].
    intros s3 Hs3. apply HQ. by rewrite <- !app_assoc in Hs3.
  - assert (Er : pad = []) by (apply length_zero_iff_nil; unfold zlen in *; lia). wp_steps. apply HQ. rewrite Er, app_nil_r.
    by rewrite <- !app_assoc in Hs2.
Qed.

Lemma Bye_writes p : Bye_ok p -> writes (fun R => Bye_write p) (block_bytes (Bye_block p)).
Proof.
  intros Hp R s rdy l Q QR Hs Hl HQ. pose proof (Bye_BlockLength_eq p) as Hbl. destruct Hp as (_ & _ & Hc & Hr & Hn).
  unfold Bye_write. wp_step. wp_step. cbv zeta. rewrite zlen_block in Hl. cbn [b_body Bye_block] in Hl.
  set (fixed := [0x80 + (1 + Z.of_nat (length (csrcs_ p))); 203] ++ be_bytes 2 (HeaderLength (Bye_BlockLength p))).
  assert (Hhl : HeaderLength (Bye_BlockLength p) = zlen (Bye_bytes p) / 4).
  { unfold HeaderLength, kHeaderLength. rewrite Hbl. f_equal. lia. }
  pose proof (zlen_nonneg l). pose proof (zlen_nonneg (Bye_bytes p)).
  assert (H1 : writes (fun R => CreateHeader (1 + Z.of_nat (length (csrcs_ p))) 203 (HeaderLength (Bye_BlockLength p)) false) fixed).
  { apply CreateHeader_writes; [lia|done|]. rewrite Hhl. unfold IP_PACKET_SIZE in *.
    split; [apply Z.div_pos; lia|apply Z.div_le_upper_bound; lia]. }
  assert (H2 : writes (fun R => put_be 4 0 (bye_sender_ssrc_ p) ;; advance 4) (be_bytes 4 (bye_sender_ssrc_ p))) by group_fields.
  pose proof (writes_seq _ _ _ _ H1 (writes_seq _ _ _ _ H2 (put_u32s_writes (csrcs_ p)))) as H3. cbv beta in H3.
  assert (Hb : block_bytes (Bye_block p) = (fixed ++ be_bytes 4 (bye_sender_ssrc_ p) ++ u32s_bytes (csrcs_ p)) ++ reason_bytes (reason_ p)).
  { unfold block_bytes, fixed. cbn [b_count b_type b_body Bye_block]. rewrite Hhl. unfold Bye_bytes. by rewrite <- !app_assoc. }
  assert (Hf : zlen (fixed ++ be_bytes 4 (bye_sender_ssrc_ p) ++ u32s_bytes (csrcs_ p)) + zlen (reason_bytes (reason_ p)) =
    4 + zlen (Bye_bytes p)) by (rewrite <- zlen_app, <- Hb; apply zlen_block).
  pose proof (zlen_nonneg (reason_bytes (reason_ p))).
  wp_step. eapply H3; [exact Hs|lia|]. intros s1 Hs1. rewrite (ho_index _ _ _ _ Hs), Hbl, <- Hf, Z.add_assoc, <- zlen_app.
  eapply put_reason_wp; [done|done|exact Hs1|rewrite zlen_app; lia|]. intros s2 Hs2. apply HQ. rewrite Hb.
  by rewrite <- !app_assoc in *.
Qed.

#[export] Program Instance Bye_Laws : RtcpLaws Bye :=
  { valid := Bye_ok; room := Bye_BlockLength; conveys p bs := bs = [Bye_block p] }.
Next Obligation.
  intros p max_length s groups open Hp Hmax Hh.
  apply (one_block_wp (fun R => Bye_write p)); [by apply Bye_writes|apply Bye_BlockLength_eq| |done|by apply Bye_bytes_u8| |done|done].
  - destruct Hp as (_ & _ & Hc & _). lia.
  - unfold Bye_bytes. rewrite !zlen_app, zlen_be_bytes, zlen_u32s, zlen_reason, <- !Z.mul_add_distr_l.
    change (Z.of_nat 4) with (4 * 1). rewrite <- Z.mul_add_distr_l, Z.mul_comm. by apply Z.mod_mul.
Qed.

Lemma Bye_Parse_block p : Bye_ok p -> Bye_Parse (block_header (Bye_block p)) = Some (Some p).
Proof.
  intros Hp. pose proof (Bye_bytes_u8 p Hp) as Hu. destruct Hp as (H1 & H2 & H3 & H4 & H5).
  unfold Bye_Parse, block_header. cbn [b_count b_body Bye_block payload payload_size count_or_format_]. cbv zeta.
  assert (Hl : zlen (Bye_bytes p) = 4 * (1 + Z.of_nat (length (csrcs_ p))) + zlen (reason_bytes (reason_ p))).
  { unfold Bye_bytes. rewrite !zlen_app, zlen_be_bytes, zlen_u32s. lia. }
  pose proof (starts_self (Bye_bytes p)) as Hst. set (d := Bye_bytes p) in *. unfold d in Hst at 2. unfold Bye_bytes in Hst.
  set (n := Z.of_nat (length (csrcs_ p))) in *. pose proof (zlen_nonneg (reason_bytes (reason_ p))).
  rewrite (proj2 (Z.ltb_ge (zlen d) _)) by lia. apply starts_be in Hst as [Hssrc Hst]; [|done|done].
  apply read_u32s_bytes in Hst as [Hcs Hst]; [|done|done]. fold n in Hst.
  replace (0 + Z.of_nat 4 + 4 * n) with (4 * (1 + n)) in Hst by lia. change (0 + Z.of_nat 4) with 4 in Hcs.
  assert (Hsrc : (if 1 + n =? 0 then Some (0, []) else sender_ssrc ← ReadBigEndian 4 d 0;
    csrcs ← read_u32s d (Z.to_nat (1 + n - 1)) 4; Some (sender_ssrc, csrcs)) = Some (bye_sender_ssrc_ p, csrcs_ p)).
  { rewrite (proj2 (Z.eqb_neq _ _)) by lia. rewrite Hssrc. cbn [mbind option_bind].
    replace (Z.to_nat (1 + n - 1)) with (length (csrcs_ p)) by lia. by rewrite Hcs. }
  pose proof (zlen_reason (reason_ p)) as Hz. unfold reason_bytes in *. pose proof (zlen_nonneg (reason_ p)).
  destruct (Z.eqb_spec (zlen (reason_ p)) 0) as [E|E].
  - rewrite (proj2 (Z.ltb_ge _ _)) by lia. cbn [mbind option_bind]. rewrite Hsrc. cbn [mbind option_bind].
    assert (Er : reason_ p = []) by (apply length_zero_iff_nil; unfold zlen in E; lia). rewrite <- Er. by destruct p.
  - cbn [app] in Hst. apply starts_byte in Hst as [Hlen Hst].
    pose proof (Z.div_mod (zlen (reason_ p)) 4 ltac:(lia)). pose proof (Z.mod_pos_bound (zlen (reason_ p)) 4 ltac:(lia)).
    rewrite (proj2 (Z.ltb_lt _ (zlen d))) by lia. rewrite Hlen. cbn [mbind option_bind].
    rewrite (proj2 (Z.ltb_ge _ _)) by lia. cbn [mbind option_bind]. rewrite Hsrc. cbn [mbind option_bind].
    apply starts_app in Hst as [Hr _]. unfold starts in Hr. rewrite Hr. by destruct p.
Qed.

Lemma Bye_Parse_safe h :
  header_valid h -> exists r, Bye_Parse h = Some r /\ forall p, r = Some p -> Bye_ok p.
Proof.
  intros (Hu & Hl & Hc & _). unfold Bye_Parse. cbv zeta. set (n := count_or_format_ h) in *.
  destruct (Z.ltb_spec (payload_size h) (4 * n)); [by exists None|].
  assert (Hsrc : exists ssrc cs, (if n =? 0 then Some (0, []) else sender_ssrc ← ReadBigEndian 4 (payload h) 0;
    csrcs ← read_u32s (payload h) (Z.to_nat (n - 1)) 4; Some (sender_ssrc, csrcs)) = Some (ssrc, cs) /\
    is_u32 ssrc /\ Forall is_u32 cs /\ Z.of_nat (length cs) <= 30).
  { destruct (Z.eqb_spec n 0); [exists 0, []; by split_and!|]. read_be.
    destruct (read_u32s_Some (payload h) 4 (Z.to_nat (n - 1)) Hu) as (cs & Ecs & Hn & Hok); [lia|lia|].
    rewrite Ecs. cbn [mbind option_bind]. exists v, cs. split_and!; auto; lia. }
  destruct Hsrc as (ssrc & cs & Esrc & H1 & H2 & H3).
  destruct (Z.ltb_spec (4 * n) (payload_size h)) as [Hr|Hr].
  - destruct (zget_is_Some (payload h) (4 * n)) as (len & El); [lia|]. rewrite El. cbn [mbind option_bind].
    pose proof (zget_Forall _ _ _ _ Hu El) as Hlen. cbv beta in Hlen. unfold is_u8 in Hlen.
    destruct (Z.ltb_spec (payload_size h - 4 * n) (1 + len)); cbn [mbind option_bind]; [by exists None|].
    rewrite Esrc. cbn [mbind option_bind]. pose proof (read_bytes_Some (payload h) (4 * n + 1) len ltac:(lia) ltac:(lia) ltac:(lia)) as Er.
    rewrite Er. cbn [mbind option_bind]. eexists. split; [reflexivity|]. intros p [= <-].
    pose proof (read_bytes_Forall _ _ _ _ _ Hu Er) as Hru. apply read_bytes_spec in Er as (_ & Hrl & _).
    unfold Bye_ok. cbn [bye_sender_ssrc_ csrcs_ reason_]. split_and!; auto; lia.
  - cbn [mbind option_bind]. rewrite Esrc. cbn [mbind option_bind]. eexists. split; [reflexivity|]. intros p [= <-].
    unfold Bye_ok. cbn [bye_sender_ssrc_ csrcs_ reason_]. split_and!; auto. by rewrite zlen_nil.
Qed.

(** ** The setters keep the objects sendable *)

Lemma ReceiverReport_setters p p' :
  ReceiverReport_ok p ->
  (exists b, report_ok b /\ ReceiverReport_AddReportBlock p b = Some p') \/
  (exists l, Forall report_ok l /\ ReceiverReport_SetReportBlocks p l = Some p') -> ReceiverReport_ok p'.
Proof.
  intros [Hs [Hb Hn]] [(b & Hok & E)|(l & Hok & E)]; revert E;
    unfold ReceiverReport_AddReportBlock, ReceiverReport_SetReportBlocks, kMaxNumberOfReportBlocks.
  - destruct (Z.leb_spec 0x1f (Z.of_nat (length (rr_report_blocks_ p)))); [done|]. intros [= <-]. split; [done|].
    split; [apply list.Forall_app; by split; [|constructor]|]. cbn [rr_report_blocks_]. rewrite length_app. cbn [length]. lia.
  - destruct (Z.ltb_spec 0x1f (Z.of_nat (length l))); [done|]. intros [= <-]. split; [done|]. split; [done|]. cbn. lia.
Qed.
