(* ===== verification/RtcpFeedback.v ===== *)
(** * RTCP: feedback messages

    [rtcp_packet/psfb.cc], [rtpfb.cc] and the messages on top of them: [pli],
    [rapid_resync_request], [fir], [remb], [tmmb_item], [tmmbr], [tmmbn] and
    [loss_notification] under [modules/rtp_rtcp/source]. As for the reports, a
    [_Parse] is [None] when it reads outside of the payload and [Some None] when it
    refuses the packet. An object whose [Parse] has returned [false] is not used
    any more; its fields are not modelled. *)

From S2P Require Import Prelude ByteIo Rtcp RtcpFields.

Open Scope Z_scope.
Open Scope c_scope.

(** ** What all feedback starts with *)

(** The fields of [Rtpfb] and of [Psfb]. *)
Record Feedback := mkFeedback { fb_sender_ssrc_ : Z; fb_media_ssrc_ : Z }.

Definition kCommonFeedbackLength : Z := 8.
Definition Rtpfb_kPacketType : Z := 205.
Definition Psfb_kPacketType : Z := 206.
Definition kAfbMessageType : Z := 15.

Definition ParseCommonFeedback (payload : list Z) : option Feedback :=
  sender_ssrc ← ReadBigEndian 4 payload 0;
  media_ssrc ← ReadBigEndian 4 payload 4;
  Some (mkFeedback sender_ssrc media_ssrc).

(** [CreateCommonFeedback] and the move of the index by its caller *)
Definition CreateCommonFeedback {R} (fb : Feedback) : stmt Sink R unit :=
  put_be 4 0 (fb_sender_ssrc_ fb) ;;
  put_be 4 4 (fb_media_ssrc_ fb) ;;
  advance kCommonFeedbackLength.

Definition feedback_ok (fb : Feedback) : Prop := is_u32 (fb_sender_ssrc_ fb) /\ is_u32 (fb_media_ssrc_ fb).

Definition feedback_bytes (fb : Feedback) : list Z := be_bytes 4 (fb_sender_ssrc_ fb) ++ be_bytes 4 (fb_media_ssrc_ fb).

Lemma zlen_feedback fb : zlen (feedback_bytes fb) = 8.
Proof. done. Qed.

Lemma feedback_u8 fb : Forall is_u8 (feedback_bytes fb).
Proof. apply list.Forall_app. split; apply be_bytes_u8. Qed.

Lemma feedback_writes fb : writes (fun R => CreateCommonFeedback fb) (feedback_bytes fb).
Proof. unfold CreateCommonFeedback, feedback_bytes, kCommonFeedbackLength. group_fields. Qed.

Lemma ParseCommonFeedback_bytes d fb rest :
  Forall is_u8 d -> feedback_ok fb -> starts d 0 (feedback_bytes fb ++ rest) ->
  ParseCommonFeedback d = Some fb /\ starts d 8 rest.
Proof.
  intros Hu [H1 H2] Hs. unfold feedback_bytes in Hs. rewrite <- app_assoc in Hs. unfold ParseCommonFeedback.
  do 2 next_be Hs. split; [by destruct fb|done].
Qed.

Lemma ParseCommonFeedback_Some d :
  Forall is_u8 d -> 8 <= zlen d -> exists fb, ParseCommonFeedback d = Some fb /\ feedback_ok fb.
Proof. intros Hu Hl. unfold ParseCommonFeedback. do 2 read_be. eexists. split; [reflexivity|]. done. Qed.

(** [RTC_CHECK_EQ( *index, index_end)] around the writes of a block *)
Definition checked_end {R} (block_length : Z) (write : stmt Sink R unit) : stmt Sink R unit :=
  let! s := get in
  let index_end := sink_index s + block_length in
  write ;;
  let! s := get in
  if sink_index s =? index_end then ret tt else mem None.

Lemma checked_writes block_length m bytes :
  writes m bytes -> block_length = zlen bytes -> writes (fun R => checked_end block_length (m R)) bytes.
Proof.
  intros Hm -> R s rdy l Q QR Hs Hl HQ. unfold checked_end. wp_steps. eapply Hm; [exact Hs|done|]. intros s' Hs'. wp_steps.
  rewrite (ho_index _ _ _ _ Hs), (ho_index _ _ _ _ Hs'), zlen_app, Z.eqb_refl. wp_steps. by apply HQ.
Qed.

(** ** Picture loss indication and rapid resynchronisation request *)

Record Pli := mkPli { pli_base : Feedback }.

Definition Pli_Parse (packet : CommonHeader) : option (option Pli) :=
  if payload_size packet <? kCommonFeedbackLength then Some None
  else fb ← ParseCommonFeedback (payload packet); Some (Some (mkPli fb)).

Definition Pli_BlockLength (p : Pli) : Z := kHeaderLength + kCommonFeedbackLength.

Definition Pli_write {R} (p : Pli) : stmt Sink R unit :=
  CreateHeader 1 Psfb_kPacketType (HeaderLength (Pli_BlockLength p)) false ;;
  CreateCommonFeedback (pli_base p).

#[export] Instance Pli_Packet : RtcpPacket Pli :=
  { BlockLength := Pli_BlockLength; Create p := create_block (Pli_BlockLength p) (Pli_write p) }.

Record RapidResyncRequest := mkRrr { rrr_base : Feedback }.

Definition RapidResyncRequest_Parse (packet : CommonHeader) : option (option RapidResyncRequest) :=
  if negb (payload_size packet =? kCommonFeedbackLength) then Some None
  else fb ← ParseCommonFeedback (payload packet); Some (Some (mkRrr fb)).

Definition RapidResyncRequest_BlockLength (p : RapidResyncRequest) : Z := kHeaderLength + kCommonFeedbackLength.

Definition RapidResyncRequest_write {R} (p : RapidResyncRequest) : stmt Sink R unit :=
  CreateHeader 5 Rtpfb_kPacketType (HeaderLength (RapidResyncRequest_BlockLength p)) false ;;
  CreateCommonFeedback (rrr_base p).

#[export] Instance RapidResyncRequest_Packet : RtcpPacket RapidResyncRequest :=
  { BlockLength := RapidResyncRequest_BlockLength;
    Create p := create_block (RapidResyncRequest_BlockLength p) (RapidResyncRequest_write p) }.

#[export] Program Instance Pli_Laws : RtcpLaws Pli :=
  { valid p := feedback_ok (pli_base p); room := Pli_BlockLength;
    conveys p bs := bs = [mkBlock 1 206 (feedback_bytes (pli_base p))] }.
Next Obligation.
  intros p max_length s groups open Hp Hmax Hh.
  by apply (headed_block_wp (fun R => CreateCommonFeedback (pli_base p)) 2); auto using feedback_writes, feedback_u8.
Qed.

#[export] Program Instance RapidResyncRequest_Laws : RtcpLaws RapidResyncRequest :=
  { valid p := feedback_ok (rrr_base p); room := RapidResyncRequest_BlockLength;
    conveys p bs := bs = [mkBlock 5 205 (feedback_bytes (rrr_base p))] }.
Next Obligation.
  intros p max_length s groups open Hp Hmax Hh.
  by apply (headed_block_wp (fun R => CreateCommonFeedback (rrr_base p)) 2); auto using feedback_writes, feedback_u8.
Qed.

Lemma feedback_only fb : feedback_ok fb -> ParseCommonFeedback (feedback_bytes fb) = Some fb.
Proof.
  intros Hok. apply (ParseCommonFeedback_bytes _ fb []); [apply feedback_u8|done|]. rewrite app_nil_r. apply starts_self.
Qed.

Lemma Pli_Parse_block p : feedback_ok (pli_base p) -> Pli_Parse (block_header (mkBlock 1 206 (feedback_bytes (pli_base p)))) = Some (Some p).
Proof. intros Hp. unfold Pli_Parse. cbn -[ParseCommonFeedback feedback_bytes]. rewrite zlen_feedback, feedback_only by done. by destruct p. Qed.

Lemma RapidResyncRequest_Parse_block p :
  feedback_ok (rrr_base p) ->
  RapidResyncRequest_Parse (block_header (mkBlock 5 205 (feedback_bytes (rrr_base p)))) = Some (Some p).
Proof.
  intros Hp. unfold RapidResyncRequest_Parse. cbn -[ParseCommonFeedback feedback_bytes].
  rewrite zlen_feedback, feedback_only by done. by destruct p.
Qed.

Lemma Pli_Parse_safe h : header_valid h -> exists r, Pli_Parse h = Some r /\ forall p, r = Some p -> feedback_ok (pli_base p).
Proof.
  intros (Hu & Hl & _). unfold Pli_Parse, kCommonFeedbackLength. destruct (Z.ltb_spec (payload_size h) 8); [by exists None|].
  destruct (ParseCommonFeedback_Some (payload h) Hu ltac:(lia)) as (fb & -> & Hok). eexists. split; [reflexivity|]. by intros p [= <-].
Qed.

Lemma RapidResyncRequest_Parse_safe h :
  header_valid h -> exists r, RapidResyncRequest_Parse h = Some r /\ forall p, r = Some p -> feedback_ok (rrr_base p).
Proof.
  intros (Hu & Hl & _). unfold RapidResyncRequest_Parse, kCommonFeedbackLength.
  destruct (Z.eqb_spec (payload_size h) 8); [|by exists None].
  destruct (ParseCommonFeedback_Some (payload h) Hu ltac:(lia)) as (fb & -> & Hok). eexists. split; [reflexivity|]. by intros p [= <-].
Qed.

(** ** Full intra request *)

Record FirRequest := mkFirRequest { fir_ssrc : Z; fir_seq_nr : Z }.
Record Fir := mkFir { fir_base : Feedback; fir_items_ : list FirRequest }.

Definition kFciLength : Z := 8.

Definition FirRequest_read (payload : list Z) (next_fci : Z) : option FirRequest :=
  ssrc ← ReadBigEndian 4 payload next_fci;
  seq_nr ← ReadBigEndian 1 payload (next_fci + 4);
  Some (mkFirRequest ssrc seq_nr).

Definition Fir_Parse (packet : CommonHeader) : option (option Fir) :=
  if payload_size packet <? kCommonFeedbackLength + kFciLength then Some None
  else if negb ((payload_size packet - kCommonFeedbackLength) mod kFciLength =? 0) then Some None
  else
    fb ← ParseCommonFeedback (payload packet);
    let number_of_fci_items := (payload_size packet - kCommonFeedbackLength) / kFciLength in
    items ← read_all (FirRequest_read (payload packet)) (Z.to_nat number_of_fci_items) kCommonFeedbackLength kFciLength;
    Some (Some (mkFir fb items)).

Definition Fir_BlockLength (p : Fir) : Z :=
  kHeaderLength + kCommonFeedbackLength + kFciLength * Z.of_nat (length (fir_items_ p)).

Definition FirRequest_write {R} (request : FirRequest) : stmt Sink R unit :=
  put_be 4 0 (fir_ssrc request) ;;
  put_be 1 4 (fir_seq_nr request) ;;
  put_be 3 5 0 ;;
  advance kFciLength.

Definition Fir_write {R} (p : Fir) : stmt Sink R unit :=
  checked_end (Fir_BlockLength p)
    (CreateHeader 4 Psfb_kPacketType (HeaderLength (Fir_BlockLength p)) false ;;
     CreateCommonFeedback (fir_base p) ;;
     put_all FirRequest_write (fir_items_ p)).

Definition AddRequestTo (p : Fir) (ssrc seq_num : Z) : Fir :=
  mkFir (fir_base p) (fir_items_ p ++ [mkFirRequest ssrc seq_num]).

#[export] Instance Fir_Packet : RtcpPacket Fir :=
  { BlockLength := Fir_BlockLength; Create p := create_block (Fir_BlockLength p) (Fir_write p) }.

Definition request_ok (r : FirRequest) : Prop := is_u32 (fir_ssrc r) /\ is_u8 (fir_seq_nr r).
Definition Fir_ok (p : Fir) : Prop := feedback_ok (fir_base p) /\ Forall request_ok (fir_items_ p) /\ fir_items_ p <> [].

Definition request_bytes (r : FirRequest) : list Z := be_bytes 4 (fir_ssrc r) ++ be_bytes 1 (fir_seq_nr r) ++ be_bytes 3 0.

Definition Fir_bytes (p : Fir) : list Z := feedback_bytes (fir_base p) ++ concat (map request_bytes (fir_items_ p)).

Definition Fir_block (p : Fir) : Block := mkBlock 4 206 (Fir_bytes p).

Lemma Fir_bytes_u8 p : Forall is_u8 (Fir_bytes p).
Proof.
  apply list.Forall_app. split; [apply feedback_u8|]. apply items_u8. intros r. unfold request_bytes.
  rewrite !list.Forall_app. split_and!; apply be_bytes_u8.
Qed.

Lemma zlen_Fir p : zlen (Fir_bytes p) = 8 + 8 * Z.of_nat (length (fir_items_ p)).
Proof. unfold Fir_bytes. by rewrite zlen_app, zlen_feedback, (zlen_items _ 8). Qed.

Lemma Fir_length_eq p : Fir_BlockLength p = 4 + zlen (Fir_bytes p).
Proof. rewrite zlen_Fir. unfold Fir_BlockLength, kHeaderLength, kCommonFeedbackLength, kFciLength. lia. Qed.

Lemma Fir_writes p : writes (fun R => Fir_write p) (block_bytes (Fir_block p)).
Proof.
  apply (checked_writes _ (fun R => CreateHeader 4 Psfb_kPacketType (HeaderLength (Fir_BlockLength p)) false ;;
     CreateCommonFeedback (fir_base p) ;; put_all FirRequest_write (fir_items_ p))); [|by rewrite zlen_block, Fir_length_eq].
  apply (block_writes (fun R => CreateCommonFeedback (fir_base p) ;; put_all FirRequest_write (fir_items_ p)));
    [done|done|apply Fir_length_eq|].
  apply (writes_seq (fun R => CreateCommonFeedback (fir_base p))); [apply feedback_writes|].
  apply (writes_all (fun r R => FirRequest_write r) request_bytes). apply list.Forall_forall. intros r _.
  unfold FirRequest_write, request_bytes, kFciLength. group_fields.
Qed.

#[export] Program Instance Fir_Laws : RtcpLaws Fir :=
  { valid := Fir_ok; room := Fir_BlockLength; conveys p bs := bs = [Fir_block p] }.
Next Obligation.
  intros p max_length s groups open Hp Hmax Hh.
  apply (one_block_wp (fun R => Fir_write p)); auto using Fir_writes, Fir_length_eq, Fir_bytes_u8; [done|done|].
  rewrite zlen_Fir. apply Z.mod_divide; [done|]. exists (2 + 2 * Z.of_nat (length (fir_items_ p))). lia.
Qed.

Lemma Fir_Parse_block p : Fir_ok p -> Fir_Parse (block_header (Fir_block p)) = Some (Some p).
Proof.
  intros (Hb & Hr & Hne). pose proof (Fir_bytes_u8 p) as Hu. pose proof (zlen_Fir p) as Hl.
  unfold Fir_Parse, block_header. cbn [b_body Fir_block payload payload_size].
  pose proof (starts_self (Fir_bytes p)) as Hst. set (d := Fir_bytes p) in *. unfold d in Hst at 2. unfold Fir_bytes in Hst.
  unfold kCommonFeedbackLength, kFciLength. set (n := length (fir_items_ p)) in *.
  assert (0 < n)%nat by (unfold n; destruct (fir_items_ p); [done|cbn; lia]). rewrite (proj2 (Z.ltb_ge _ _)) by lia.
  replace (zlen d - 8) with (Z.of_nat n * 8) by lia. rewrite Z.mod_mul by done. cbn [negb Z.eqb].
  destruct (ParseCommonFeedback_bytes d _ _ Hu Hb Hst) as [E Hs']. rewrite E. cbn [mbind option_bind].
  rewrite Z.div_mul, Nat2Z.id by done.
  destruct (read_all_bytes (FirRequest_read d) request_bytes request_ok 8 d (fir_items_ p) 8 []) as [Ei _]; [|done|by rewrite app_nil_r|].
  - intros r off rest [H1 H2] Hs. unfold request_bytes in Hs. rewrite <- !app_assoc in Hs. unfold FirRequest_read.
    next_be Hs. next_be Hs. split; [by destruct r|]. apply starts_be in Hs as [_ Hs]; [|done|done].
    by rewrite <- !Z.add_assoc in Hs.
  - fold n in Ei. rewrite Ei. by destruct p.
Qed.

Lemma Fir_Parse_safe h : header_valid h -> exists r, Fir_Parse h = Some r /\ forall p, r = Some p -> Fir_ok p.
Proof.
  intros (Hu & Hl & _). unfold Fir_Parse, kCommonFeedbackLength, kFciLength.
  destruct (Z.ltb_spec (payload_size h) (8 + 8)); [by exists None|].
  destruct (Z.eqb_spec ((payload_size h - 8) mod 8) 0) as [Hm|]; cbn [negb]; [|by exists None].
  destruct (ParseCommonFeedback_Some (payload h) Hu ltac:(lia)) as (fb & -> & Hok). cbn [mbind option_bind].
  pose proof (Z.div_mod (payload_size h - 8) 8 ltac:(lia)) as Hd. set (n := (payload_size h - 8) / 8) in *.
  destruct (read_all_Some (FirRequest_read (payload h)) request_ok (Z.to_nat n) 8 8) as (l & -> & Hn & Hr); [lia| |].
  - intros i H1 H2. unfold FirRequest_read. do 2 read_be. eexists. split; [reflexivity|]. done.
  - cbn [mbind option_bind]. eexists. split; [reflexivity|]. intros p [= <-]. split_and!; [done|done|]. cbn. intros ->. cbn in Hn. lia.
Qed.

(** ** Bit rates as mantissa and exponent *)

(** [while (mantissa > kMaxMantissa) { mantissa >>= 1; ++exponent; }] *)
Fixpoint rate_scale (fuel : nat) (kMaxMantissa mantissa exponent : Z) : option (Z * Z) :=
  if kMaxMantissa <? mantissa then
    match fuel with
    | O => None
    | S fuel' => rate_scale fuel' kMaxMantissa (Z.shiftr mantissa 1) (exponent + 1)
    end
  else Some (mantissa, exponent).

(** A number of 64 bits is zero after as many rounds. *)
Definition scale_fuel : nat := 64.

Lemma scale_spec fuel k v e0 :
  0 < k -> 0 <= v < 2 ^ (k + Z.of_nat fuel) ->
  exists e, rate_scale fuel (2 ^ k - 1) v e0 = Some (v / 2 ^ e, e0 + e) /\ 0 <= e <= Z.of_nat fuel /\
    v / 2 ^ e < 2 ^ k /\ (0 < e -> 2 ^ (k - 1) <= v / 2 ^ e).
Proof.
  intros Hk. revert v e0. induction fuel as [|fuel IH]; intros v e0 Hv; cbn [rate_scale].
  - rewrite Z.add_0_r in Hv. rewrite (proj2 (Z.ltb_ge _ _)) by lia. exists 0. rewrite Z.div_1_r. split_and!; try lia. do 2 f_equal. lia.
  - destruct (Z.ltb_spec (2 ^ k - 1) v) as [Hbig|Hsm].
    + rewrite shiftr_div by lia. change (2 ^ 1) with 2.
      destruct (IH (v / 2) (e0 + 1)) as (e & E & He & Hlt & Hge).
      { split; [apply Z.div_pos; lia|]. apply Z.div_lt_upper_bound; [lia|].
        replace (k + Z.of_nat (S fuel)) with (1 + (k + Z.of_nat fuel)) in Hv by lia. rewrite Z.pow_add_r in Hv by lia. lia. }
      assert (Ed : v / 2 / 2 ^ e = v / 2 ^ (e + 1)) by (rewrite Z.div_div, Z.pow_add_r by lia; f_equal; lia).
      rewrite Ed in *. exists (e + 1). split_and!; [|lia|lia|done|].
      * rewrite E. do 2 f_equal. lia.
      * intros _. destruct (Z.eq_dec e 0) as [->|]; [|apply Hge; lia]. rewrite Z.add_0_l, Z.pow_1_r.
        apply Z.div_le_lower_bound; [lia|]. rewrite <- Z.pow_succ_r by lia. replace (Z.succ (k - 1)) with k by lia. lia.
    + exists 0. rewrite Z.div_1_r. split_and!; try lia. do 2 f_equal. lia.
Qed.

(** The rate that a mantissa of [k] bits and an exponent convey. *)
Definition conveyed_rate (k v : Z) : Z :=
  match rate_scale scale_fuel (2 ^ k - 1) v 0 with Some (m, e) => m * 2 ^ e | None => v end.

Definition is_u64 (v : Z) : Prop := 0 <= v < 2 ^ 64.

(** What is lost is less than a part in [2 ^ (k - 1)], and nothing when the rate
    fits the mantissa. *)
Lemma conveyed_rate_bounds k v :
  0 < k -> is_u64 v ->
  conveyed_rate k v <= v /\ (v - conveyed_rate k v) * 2 ^ (k - 1) <= v /\ (v < 2 ^ k -> conveyed_rate k v = v) /\
  0 <= conveyed_rate k v.
Proof.
  intros Hk [H0 H64]. unfold conveyed_rate, scale_fuel.
  destruct (scale_spec 64 k v 0 Hk) as (e & -> & He & Hlt & Hge).
  { split; [done|]. eapply Z.lt_le_trans; [exact H64|]. apply Z.pow_le_mono_r; lia. }
  rewrite Z.add_0_l. assert (Hp : 0 < 2 ^ e) by (apply Z.pow_pos_nonneg; lia).
  pose proof (Z.div_mod v (2 ^ e) ltac:(lia)) as Hd. pose proof (Z.mod_pos_bound v (2 ^ e) Hp) as Hm.
  assert (Hpk : 0 < 2 ^ (k - 1)) by (apply Z.pow_pos_nonneg; lia).
  assert (Hq : 0 <= v / 2 ^ e) by (apply Z.div_pos; lia). split_and!; [nia| |intros Hs|nia].
  - destruct (Z.eq_dec e 0) as [->|]; [rewrite Z.pow_0_r in *; nia|]. specialize (Hge ltac:(lia)). nia.
  - destruct (Z.eq_dec e 0) as [->|]; [rewrite Z.pow_0_r in *; nia|]. specialize (Hge ltac:(lia)).
    assert (2 ^ k <= v / 2 ^ e * 2 ^ e); [|nia]. transitivity (2 ^ (k - 1) * 2 ^ 1); [|apply Z.mul_le_mono_nonneg; try lia; apply Z.pow_le_mono_r; lia].
    rewrite <- Z.pow_add_r by lia. replace (k - 1 + 1) with k by lia. lia.
Qed.

(** The mantissa and exponent of a rate, and what the receiver makes of them. *)
Lemma rate_fields k v :
  0 < k <= 64 -> is_u64 v ->
  exists m e, rate_scale scale_fuel (2 ^ k - 1) v 0 = Some (m, e) /\ 0 <= m < 2 ^ k /\ 0 <= e <= 64 - k /\
    (m * 2 ^ e) mod 2 ^ 64 = conveyed_rate k v /\ conveyed_rate k v / 2 ^ e = m.
Proof.
  intros Hk [H0 H64]. unfold conveyed_rate, scale_fuel.
  destruct (scale_spec 64 k v 0 ltac:(lia)) as (e & E & He & Hlt & Hge).
  { split; [done|]. eapply Z.lt_le_trans; [exact H64|]. apply Z.pow_le_mono_r; lia. }
  rewrite E, Z.add_0_l. assert (Hp : 0 < 2 ^ e) by (apply Z.pow_pos_nonneg; lia).
  pose proof (Z.div_mod v (2 ^ e) ltac:(lia)) as Hd. pose proof (Z.mod_pos_bound v (2 ^ e) Hp) as Hm.
  assert (Hq : 0 <= v / 2 ^ e) by (apply Z.div_pos; lia). exists (v / 2 ^ e), e. split_and!; auto; try lia.
  - destruct (Z.eq_dec e 0); [lia|]. specialize (Hge ltac:(lia)).
    destruct (Z.le_gt_cases e (64 - k)); [done|]. exfalso.
    assert (2 ^ 64 <= 2 ^ (k - 1) * 2 ^ e); [|nia]. rewrite <- Z.pow_add_r by lia. apply Z.pow_le_mono_r; lia.
  - apply Z.mod_small. split; [nia|]. assert (v / 2 ^ e * 2 ^ e <= v) by nia. lia.
  - apply Z.div_mul. lia.
Qed.

(** ** Receiver estimated maximum bit rate *)

Record Remb := mkRemb { remb_base : Feedback; remb_bitrate_bps_ : Z; ssrcs_ : list Z }.

Definition Remb_kUniqueIdentifier : Z := 0x52454D42.
Definition kMaxNumberOfSsrcs : Z := 0xff.

(** The rate of a mantissa and an exponent, unless it has more than 64 bits. *)
Definition rate_value (mantissa exponent : Z) : option Z :=
  let bitrate_bps := (Z.shiftl mantissa exponent) mod 2 ^ 64 in
  let shift_overflow := negb (Z.shiftr bitrate_bps exponent =? mantissa) in
  if shift_overflow then None else Some bitrate_bps.

Definition Remb_Parse (packet : CommonHeader) : option (option Remb) :=
  if payload_size packet <? 16 then Some None
  else
    let payload := payload packet in
    unique_identifier ← ReadBigEndian 4 payload 8;
    if negb (Remb_kUniqueIdentifier =? unique_identifier) then Some None
    else
      number_of_ssrcs ← zget payload 12;
      if negb (payload_size packet =? kCommonFeedbackLength + (2 + number_of_ssrcs) * 4) then Some None
      else
        fb ← ParseCommonFeedback payload;
        p13 ← zget payload 13;
        let exponenta := Z.shiftr p13 2 in
        p14 ← ReadBigEndian 2 payload 14;
        let mantissa := Z.lor (Z.shiftl (Z.land p13 0x03) 16) p14 in
        match rate_value mantissa exponenta with
        | None => Some None
        | Some bitrate_bps =>
            ssrcs ← read_u32s payload (Z.to_nat number_of_ssrcs) 16;
            Some (Some (mkRemb fb bitrate_bps ssrcs))
        end.

Definition SetSsrcs (p : Remb) (ssrcs : list Z) : option Remb :=
  if kMaxNumberOfSsrcs <? Z.of_nat (length ssrcs) then None
  else Some (mkRemb (remb_base p) (remb_bitrate_bps_ p) ssrcs).

Definition Remb_BlockLength (p : Remb) : Z :=
  kHeaderLength + kCommonFeedbackLength + (2 + Z.of_nat (length (ssrcs_ p))) * 4.

Definition Remb_rate {R} (p : Remb) : stmt Sink R unit :=
  let kMaxMantissa := 0x3ffff in
  let! me := mem (rate_scale scale_fuel kMaxMantissa (remb_bitrate_bps_ p) 0) in
  let '(mantissa, exponenta) := me in
  (put_byte_at 0 (u8 (Z.of_nat (length (ssrcs_ p)))) ;; advance 1) ;;
  (put_byte_at 0 (u8 (Z.lor (Z.shiftl exponenta 2) (Z.shiftr mantissa 16))) ;; advance 1) ;;
  (put_be 2 0 (Z.land mantissa 0xffff) ;; advance 2).

Definition Remb_write {R} (p : Remb) : stmt Sink R unit :=
  CreateHeader kAfbMessageType Psfb_kPacketType (HeaderLength (Remb_BlockLength p)) false ;;
  CreateCommonFeedback (remb_base p) ;;
  (put_be 4 0 Remb_kUniqueIdentifier ;; advance 4) ;;
  Remb_rate p ;;
  put_u32s (ssrcs_ p).

#[export] Instance Remb_Packet : RtcpPacket Remb :=
  { BlockLength := Remb_BlockLength; Create p := create_block (Remb_BlockLength p) (Remb_write p) }.

Definition Remb_ok (p : Remb) : Prop :=
  feedback_ok (remb_base p) /\ is_u64 (remb_bitrate_bps_ p) /\ Forall is_u32 (ssrcs_ p) /\ Z.of_nat (length (ssrcs_ p)) <= 255.

Definition Remb_rate_bytes (p : Remb) : list Z :=
  match rate_scale scale_fuel 0x3ffff (remb_bitrate_bps_ p) 0 with
  | Some (m, e) => [Z.of_nat (length (ssrcs_ p)); e * 4 + m / 2 ^ 16] ++ be_bytes 2 (m mod 2 ^ 16)
  | None => []
  end.

Definition Remb_bytes (p : Remb) : list Z :=
  feedback_bytes (remb_base p) ++ be_bytes 4 Remb_kUniqueIdentifier ++ Remb_rate_bytes p ++ u32s_bytes (ssrcs_ p).

(** The message that arrives has the rate that can be conveyed. *)
Definition Remb_conveyed (p : Remb) : Remb := mkRemb (remb_base p) (conveyed_rate 18 (remb_bitrate_bps_ p)) (ssrcs_ p).

Lemma Remb_rate_fields p :
  Remb_ok p -> exists m e, rate_scale scale_fuel 0x3ffff (remb_bitrate_bps_ p) 0 = Some (m, e) /\ 0 <= m < 2 ^ 18 /\ 0 <= e <= 46 /\
    rate_value m e = Some (conveyed_rate 18 (remb_bitrate_bps_ p)) /\
    is_u8 (e * 4 + m / 2 ^ 16) /\ Z.lor (Z.shiftl e 2) (Z.shiftr m 16) = e * 4 + m / 2 ^ 16.
Proof.
  intros (_ & Hr & _). destruct (rate_fields 18 _ ltac:(lia) Hr) as (m & e & E & Hm & He & Hmod & Hdiv). exists m, e.
  pose proof (Z.div_pos m (2 ^ 16) ltac:(lia) ltac:(lia)). assert (m / 2 ^ 16 < 4) by (apply Z.div_lt_upper_bound; lia).
  split_and!; auto; try lia.
  - unfold rate_value. rewrite shiftl_mul, Hmod, shiftr_div, Hdiv by lia. by rewrite Z.eqb_refl.
  - unfold is_u8. lia.
  - rewrite shiftl_mul, shiftr_div by lia. rewrite (lor_disjoint _ _ 2); [lia|lia|by rewrite Z.mod_mul|lia].
Qed.

Lemma Remb_rate_writes p : Remb_ok p -> writes (fun R => Remb_rate p) (Remb_rate_bytes p).
Proof.
  intros Hp. destruct (Remb_rate_fields p Hp) as (m & e & E & Hm & He & _ & Hu & Hlor). destruct Hp as (_ & _ & _ & Hn).
  unfold Remb_rate_bytes. rewrite E. intros R s rdy l Q QR Hs Hl HQ. unfold Remb_rate. cbv zeta. wp_step.
  apply (wp_mem _ _ _ _ _ E). rewrite Hlor, !u8_id by (done || unfold is_u8; lia).
  assert (Hn8 : is_u8 (Z.of_nat (length (ssrcs_ p)))) by (unfold is_u8; lia).
  change 0xffff with (Z.ones 16) in *. rewrite Z.land_ones in * by lia.
  assert (H1 : writes (fun R => put_byte_at 0 (Z.of_nat (length (ssrcs_ p))) ;; advance 1) [Z.of_nat (length (ssrcs_ p))]) by group_fields.
  assert (H2 : writes (fun R => put_byte_at 0 (e * 4 + m / 2 ^ 16) ;; advance 1) [e * 4 + m / 2 ^ 16]) by group_fields.
  assert (H3 : writes (fun R => put_be 2 0 (m mod 2 ^ 16) ;; advance 2) (be_bytes 2 (m mod 2 ^ 16))) by group_fields.
  pose proof (writes_seq _ _ _ _ H1 (writes_seq _ _ _ _ H2 H3)) as H. by apply (H R s rdy l).
Qed.

Lemma Remb_bytes_u8 p : Remb_ok p -> Forall is_u8 (Remb_bytes p).
Proof.
  intros Hp. destruct (Remb_rate_fields p Hp) as (m & e & E & Hm & He & _ & Hu & _). destruct Hp as (_ & _ & _ & Hn).
  unfold Remb_bytes, Remb_rate_bytes. rewrite E, !list.Forall_app.
  split_and!; [apply feedback_u8|apply be_bytes_u8| |apply be_bytes_u8|apply u32s_u8].
  constructor; [unfold is_u8; lia|by constructor].
Qed.

Lemma zlen_Remb p : Remb_ok p -> zlen (Remb_bytes p) = 16 + 4 * Z.of_nat (length (ssrcs_ p)).
Proof.
  intros Hp. destruct (Remb_rate_fields p Hp) as (m & e & E & _).
  unfold Remb_bytes, Remb_rate_bytes. rewrite E, !zlen_app, zlen_feedback, !zlen_be_bytes, zlen_u32s, !zlen_cons, zlen_nil. lia.
Qed.

#[export] Program Instance Remb_Laws : RtcpLaws Remb :=
  { valid := Remb_ok; room := Remb_BlockLength; conveys p bs := bs = [mkBlock 15 206 (Remb_bytes p)] }.
Next Obligation.
  intros p max_length s groups open Hp Hmax Hh.
  apply (headed_block_wp (fun R => CreateCommonFeedback (remb_base p) ;; (put_be 4 0 Remb_kUniqueIdentifier ;; advance 4) ;;
    Remb_rate p ;; put_u32s (ssrcs_ p)) (4 + Z.of_nat (length (ssrcs_ p)))); auto using Remb_bytes_u8; try done.
  - apply (writes_seq (fun R => CreateCommonFeedback (remb_base p))); [apply feedback_writes|].
    apply (writes_seq (fun R => put_be 4 0 Remb_kUniqueIdentifier ;; advance 4)); [group_fields|].
    apply (writes_seq (fun R => Remb_rate p)); [by apply Remb_rate_writes|apply put_u32s_writes].
  - rewrite zlen_Remb by done. lia.
  - unfold Remb_BlockLength, kHeaderLength, kCommonFeedbackLength. lia.
Qed.

Lemma Remb_Parse_block p :
  Remb_ok p -> Remb_Parse (block_header (mkBlock 15 206 (Remb_bytes p))) = Some (Some (Remb_conveyed p)).
Proof.
  intros Hp. pose proof (Remb_bytes_u8 p Hp) as Hu. pose proof (zlen_Remb p Hp) as Hl.
  destruct (Remb_rate_fields p Hp) as (m & e & E & Hm & He & Hrate & Hb & _). destruct Hp as (Hbase & _ & Hs & Hn).
  unfold Remb_Parse, block_header. cbn [b_body payload payload_size]. cbv zeta.
  pose proof (starts_self (Remb_bytes p)) as Hst. set (d := Remb_bytes p) in *. unfold d in Hst at 2.
  unfold Remb_bytes, Remb_rate_bytes in Hst. rewrite E, <- !app_assoc in Hst.
  rewrite (proj2 (Z.ltb_ge _ _)) by lia. destruct (ParseCommonFeedback_bytes d _ _ Hu Hbase Hst) as [Efb Hs1].
  next_be Hs1. rewrite Z.eqb_refl. cbn [negb]. cbn [app] in Hs1. apply starts_byte in Hs1 as [E12 Hs1].
  change (8 + Z.of_nat 4) with 12 in E12, Hs1. rewrite E12. cbn [mbind option_bind]. unfold kCommonFeedbackLength.
  rewrite (proj2 (Z.eqb_eq _ _)) by lia. cbn [negb]. rewrite Efb. cbn [mbind option_bind].
  apply starts_byte in Hs1 as [E13 Hs1]. change (12 + 1) with 13 in *. rewrite E13. cbn [mbind option_bind].
  apply starts_be in Hs1 as [E14 Hs1]; [|done|apply Z.mod_pos_bound; lia]. change (13 + 1) with 14 in *.
  rewrite E14. cbn [mbind option_bind]. pose proof (Z.div_pos m (2 ^ 16) ltac:(lia) ltac:(lia)).
  assert (m / 2 ^ 16 < 4) by (apply Z.div_lt_upper_bound; lia).
  assert (Ee : Z.shiftr (e * 4 + m / 2 ^ 16) 2 = e).
  { rewrite shiftr_div by lia. symmetry. apply (Z.div_unique_pos _ _ _ (m / 2 ^ 16)); lia. }
  assert (Em : Z.lor (Z.shiftl (Z.land (e * 4 + m / 2 ^ 16) 0x03) 16) (m mod 2 ^ 16) = m).
  { change 0x03 with (Z.ones 2). rewrite Z.land_ones, shiftl_mul by lia.
    rewrite <- (Z.mod_unique_pos (e * 4 + m / 2 ^ 16) (2 ^ 2) e (m / 2 ^ 16)) by lia.
    rewrite (lor_disjoint _ _ 16); [|lia|by apply Z.mod_mul|apply Z.mod_pos_bound; lia].
    pose proof (Z.div_mod m (2 ^ 16) ltac:(lia)). lia. }
  rewrite Ee, Em, Hrate. rewrite <- (app_nil_r (u32s_bytes _)) in Hs1. rewrite Nat2Z.id.
  apply read_u32s_bytes in Hs1 as [Er _]; [|done|done]. change (14 + Z.of_nat 2) with 16 in Er. by rewrite Er.
Qed.

Lemma rate_of_u64 m e r : rate_value m e = Some r -> is_u64 r.
Proof.
  unfold rate_value. cbv zeta. destruct (negb _); [done|]. intros [= <-]. apply Z.mod_pos_bound. lia.
Qed.

Lemma Remb_Parse_safe h : header_valid h -> exists r, Remb_Parse h = Some r /\ forall p, r = Some p -> Remb_ok p.
Proof.
  intros (Hu & Hl & _). unfold Remb_Parse, kCommonFeedbackLength. cbv zeta.
  destruct (Z.ltb_spec (payload_size h) 16); [by exists None|]. read_be. destruct (negb _); [by exists None|].
  destruct (zget_is_Some (payload h) 12) as (n & En); [lia|]. rewrite En. cbn [mbind option_bind].
  pose proof (zget_Forall _ _ _ _ Hu En) as Hn. cbv beta in Hn. unfold is_u8 in Hn.
  destruct (Z.eqb_spec (payload_size h) (8 + (2 + n) * 4)) as [Hsz|]; cbn [negb]; [|by exists None].
  destruct (ParseCommonFeedback_Some (payload h) Hu ltac:(lia)) as (fb & -> & Hok). cbn [mbind option_bind]. read_u8. read_be.
  destruct (rate_value _ _) as [rate|] eqn:Er; [|by exists None]. apply rate_of_u64 in Er.
  destruct (read_u32s_Some (payload h) 16 (Z.to_nat n) Hu) as (l & -> & Hln & Hls); [lia|lia|]. cbn [mbind option_bind].
  eexists. split; [reflexivity|]. intros p [= <-]. unfold Remb_ok. cbn. split_and!; auto; lia.
Qed.
