(* ===== verification/RtcpTmmb.v ===== *)
(** * RTCP: temporary maximum bit rates and loss notifications

    [rtcp_packet/tmmb_item.cc], [tmmbr.cc], [tmmbn.cc] and [loss_notification.cc]
    under [modules/rtp_rtcp/source]. *)

From S2P Require Import Prelude ByteIo Rtcp RtcpFields RtcpFeedback.

Open Scope Z_scope.
Open Scope c_scope.

(** ** Items *)

Record TmmbItem := mkTmmb { tmmb_ssrc_ : Z; tmmb_bitrate_bps_ : Z; packet_overhead_ : Z }.

Definition TmmbItem_kLength : Z := 8.

Definition TmmbItem_Parse (buffer : list Z) (off : Z) : option (option TmmbItem) :=
  ssrc ← ReadBigEndian 4 buffer off;
  compact ← ReadBigEndian 4 buffer (off + 4);
  let exponent := u8 (Z.shiftr compact 26) in
  let mantissa := Z.land (Z.shiftr compact 9) 0x1ffff in
  let overhead := Z.land compact 0x1ff in
  match rate_value mantissa exponent with
  | None => Some None
  | Some bitrate_bps => Some (Some (mkTmmb ssrc bitrate_bps overhead))
  end.

(** [Create] and the move of the index by its caller *)
Definition TmmbItem_Create {R} (item : TmmbItem) : stmt Sink R unit :=
  let kMaxMantissa := 0x1ffff in
  let! me := mem (rate_scale scale_fuel kMaxMantissa (tmmb_bitrate_bps_ item) 0) in
  let '(mantissa, exponent) := me in
  put_be 4 0 (tmmb_ssrc_ item) ;;
  let compact := u32 (Z.lor (Z.lor (u32 (Z.shiftl exponent 26)) ((Z.shiftl mantissa 9) mod 2 ^ 64)) (packet_overhead_ item)) in
  put_be 4 4 compact ;;
  advance TmmbItem_kLength.

Definition set_packet_overhead (item : TmmbItem) (overhead : Z) : TmmbItem :=
  mkTmmb (tmmb_ssrc_ item) (tmmb_bitrate_bps_ item) overhead.

(** An overhead of at most 9 bits is what the constructor and the setter ask for. *)
Definition item_ok (i : TmmbItem) : Prop :=
  is_u32 (tmmb_ssrc_ i) /\ is_u64 (tmmb_bitrate_bps_ i) /\ 0 <= packet_overhead_ i < 2 ^ 9.

Definition compact_of (m e overhead : Z) : Z := e * 2 ^ 26 + m * 2 ^ 9 + overhead.

Definition item_bytes (i : TmmbItem) : list Z :=
  match rate_scale scale_fuel 0x1ffff (tmmb_bitrate_bps_ i) 0 with
  | Some (m, e) => be_bytes 4 (tmmb_ssrc_ i) ++ be_bytes 4 (compact_of m e (packet_overhead_ i))
  | None => replicate 8 0
  end.

Definition item_conveyed (i : TmmbItem) : TmmbItem :=
  mkTmmb (tmmb_ssrc_ i) (conveyed_rate 17 (tmmb_bitrate_bps_ i)) (packet_overhead_ i).

Lemma compact_fields m e o :
  0 <= m < 2 ^ 17 -> 0 <= e <= 47 -> 0 <= o < 2 ^ 9 ->
  is_u32 (compact_of m e o) /\
  u32 (Z.lor (Z.lor (u32 (Z.shiftl e 26)) ((Z.shiftl m 9) mod 2 ^ 64)) o) = compact_of m e o /\
  u8 (Z.shiftr (compact_of m e o) 26) = e /\ Z.land (Z.shiftr (compact_of m e o) 9) 0x1ffff = m /\
  Z.land (compact_of m e o) 0x1ff = o.
Proof.
  intros Hm He Ho. unfold compact_of. assert (Hc : is_u32 (e * 2 ^ 26 + m * 2 ^ 9 + o)) by (unfold is_u32; lia).
  split; [done|]. split_and!.
  - rewrite !shiftl_mul by lia. rewrite (u32_id (e * 2 ^ 26)) by (unfold is_u32; lia). rewrite (Z.mod_small (m * 2 ^ 9)) by lia.
    rewrite (lor_disjoint _ (m * 2 ^ 9) 26) by (lia || by apply Z.mod_mul). rewrite (lor_disjoint _ o 9); [by apply u32_id|lia| |lia].
    apply Z.mod_divide; [lia|]. exists (e * 2 ^ 17 + m). lia.
  - rewrite shiftr_div by lia. rewrite <- (Z.div_unique_pos _ (2 ^ 26) e (m * 2 ^ 9 + o)) by lia. apply u8_id. unfold is_u8. lia.
  - rewrite shiftr_div by lia. rewrite <- (Z.div_unique_pos _ (2 ^ 9) (e * 2 ^ 17 + m) o) by lia.
    change 0x1ffff with (Z.ones 17). rewrite Z.land_ones by lia. symmetry. apply (Z.mod_unique_pos _ _ e); lia.
  - change 0x1ff with (Z.ones 9). rewrite Z.land_ones by lia. symmetry. apply (Z.mod_unique_pos _ _ (e * 2 ^ 17 + m)); lia.
Qed.

Lemma item_rate i :
  item_ok i -> exists m e, rate_scale scale_fuel 0x1ffff (tmmb_bitrate_bps_ i) 0 = Some (m, e) /\ 0 <= m < 2 ^ 17 /\ 0 <= e <= 47 /\
    rate_value m e = Some (conveyed_rate 17 (tmmb_bitrate_bps_ i)).
Proof.
  intros (_ & Hr & _). destruct (rate_fields 17 _ ltac:(lia) Hr) as (m & e & E & Hm & He & Hmod & Hdiv). exists m, e.
  split_and!; auto; try lia. unfold rate_value. rewrite shiftl_mul, Hmod, shiftr_div, Hdiv by lia. by rewrite Z.eqb_refl.
Qed.

Lemma zlen_item i : zlen (item_bytes i) = 8.
Proof. unfold item_bytes. destruct (rate_scale _ _ _ _) as [[m e]|]; done. Qed.

Lemma item_u8 i : Forall is_u8 (item_bytes i).
Proof.
  unfold item_bytes. destruct (rate_scale _ _ _ _) as [[m e]|]; [|by apply list.Forall_replicate].
  apply list.Forall_app. split; apply be_bytes_u8.
Qed.

Lemma item_writes i : item_ok i -> writes (fun R => TmmbItem_Create i) (item_bytes i).
Proof.
  intros Hi. destruct (item_rate i Hi) as (m & e & E & Hm & He & _). destruct Hi as (_ & _ & Ho).
  destruct (compact_fields m e _ Hm He Ho) as (_ & Ec & _). unfold item_bytes. rewrite E.
  intros R s rdy l Q QR Hs Hl HQ. unfold TmmbItem_Create. cbv zeta. wp_step. apply (wp_mem _ _ _ _ _ E). rewrite Ec.
  assert (H : writes (fun R => put_be 4 0 (tmmb_ssrc_ i) ;; put_be 4 4 (compact_of m e (packet_overhead_ i)) ;; advance TmmbItem_kLength)
    (be_bytes 4 (tmmb_ssrc_ i) ++ be_bytes 4 (compact_of m e (packet_overhead_ i)))) by (unfold TmmbItem_kLength; group_fields).
  by apply (H R s rdy l).
Qed.

Lemma TmmbItem_Parse_bytes d off i rest :
  Forall is_u8 d -> item_ok i -> starts d off (item_bytes i ++ rest) ->
  TmmbItem_Parse d off = Some (Some (item_conveyed i)) /\ starts d (off + 8) rest.
Proof.
  intros Hu Hi Hs. destruct (item_rate i Hi) as (m & e & E & Hm & He & Hr). destruct Hi as (H1 & _ & Ho).
  destruct (compact_fields m e _ Hm He Ho) as (Hc & _ & Ee & Em & Eo). unfold item_bytes in Hs. rewrite E, <- app_assoc in Hs.
  unfold TmmbItem_Parse. do 2 next_be Hs. cbv zeta. rewrite Ee, Em, Eo, Hr. done.
Qed.

Lemma TmmbItem_Parse_Some d off :
  Forall is_u8 d -> 0 <= off -> off + 8 <= zlen d ->
  exists r, TmmbItem_Parse d off = Some r /\ forall i, r = Some i -> item_ok i.
Proof.
  intros Hu H0 Hl. unfold TmmbItem_Parse. do 2 read_be. cbv zeta. destruct (rate_value _ _) as [rate|] eqn:Er; [|by exists None].
  apply rate_of_u64 in Er. eexists. split; [reflexivity|]. intros i [= <-]. split_and!; try done; cbn [packet_overhead_];
    change 0x1ff with (Z.ones 9); rewrite Z.land_ones by lia; apply Z.mod_pos_bound; lia.
Qed.

(** ** Requests and notifications *)

(** [for (TmmbItem& item : items_) if (!item.Parse(next_item)) return false;] *)
Fixpoint parse_items (n : nat) (payload : list Z) (next_item : Z) : option (option (list TmmbItem)) :=
  match n with
  | O => Some (Some [])
  | S n =>
      item ← TmmbItem_Parse payload next_item;
      match item with
      | None => Some None
      | Some item =>
          items ← parse_items n payload (next_item + TmmbItem_kLength);
          Some (option_map (cons item) items)
      end
  end.

Record Tmmbr := mkTmmbr { tmmbr_base : Feedback; tmmbr_items_ : list TmmbItem }.
Record Tmmbn := mkTmmbn { tmmbn_base : Feedback; tmmbn_items_ : list TmmbItem }.

Definition Tmmbr_Parse (packet : CommonHeader) : option (option Tmmbr) :=
  if payload_size packet <? kCommonFeedbackLength + TmmbItem_kLength then Some None
  else
    let items_size_bytes := payload_size packet - kCommonFeedbackLength in
    if negb (items_size_bytes mod TmmbItem_kLength =? 0) then Some None
    else
      fb ← ParseCommonFeedback (payload packet);
      let number_of_items := items_size_bytes / TmmbItem_kLength in
      items ← parse_items (Z.to_nat number_of_items) (payload packet) kCommonFeedbackLength;
      Some (option_map (mkTmmbr fb) items).

Definition Tmmbn_Parse (packet : CommonHeader) : option (option Tmmbn) :=
  if payload_size packet <? kCommonFeedbackLength then Some None
  else
    let items_size_bytes := payload_size packet - kCommonFeedbackLength in
    if negb (items_size_bytes mod TmmbItem_kLength =? 0) then Some None
    else
      fb ← ParseCommonFeedback (payload packet);
      let number_of_items := items_size_bytes / TmmbItem_kLength in
      items ← parse_items (Z.to_nat number_of_items) (payload packet) kCommonFeedbackLength;
      Some (option_map (mkTmmbn fb) items).

Definition Tmmbr_AddTmmbr (p : Tmmbr) (item : TmmbItem) : Tmmbr := mkTmmbr (tmmbr_base p) (tmmbr_items_ p ++ [item]).
Definition Tmmbn_AddTmmbr (p : Tmmbn) (item : TmmbItem) : Tmmbn := mkTmmbn (tmmbn_base p) (tmmbn_items_ p ++ [item]).

Definition Tmmbr_BlockLength (p : Tmmbr) : Z :=
  kHeaderLength + kCommonFeedbackLength + TmmbItem_kLength * Z.of_nat (length (tmmbr_items_ p)).

Definition Tmmbn_BlockLength (p : Tmmbn) : Z :=
  kHeaderLength + kCommonFeedbackLength + TmmbItem_kLength * Z.of_nat (length (tmmbn_items_ p)).

Definition Tmmbr_write {R} (p : Tmmbr) : stmt Sink R unit :=
  checked_end (Tmmbr_BlockLength p)
    (CreateHeader 3 Rtpfb_kPacketType (HeaderLength (Tmmbr_BlockLength p)) false ;;
     CreateCommonFeedback (tmmbr_base p) ;;
     put_all TmmbItem_Create (tmmbr_items_ p)).

Definition Tmmbn_write {R} (p : Tmmbn) : stmt Sink R unit :=
  checked_end (Tmmbn_BlockLength p)
    (CreateHeader 4 Rtpfb_kPacketType (HeaderLength (Tmmbn_BlockLength p)) false ;;
     CreateCommonFeedback (tmmbn_base p) ;;
     put_all TmmbItem_Create (tmmbn_items_ p)).

#[export] Instance Tmmbr_Packet : RtcpPacket Tmmbr :=
  { BlockLength := Tmmbr_BlockLength; Create p := create_block (Tmmbr_BlockLength p) (Tmmbr_write p) }.
#[export] Instance Tmmbn_Packet : RtcpPacket Tmmbn :=
  { BlockLength := Tmmbn_BlockLength; Create p := create_block (Tmmbn_BlockLength p) (Tmmbn_write p) }.

Definition items_bytes (fb : Feedback) (items : list TmmbItem) : list Z :=
  feedback_bytes fb ++ concat (map item_bytes items).

Lemma zlen_items_bytes fb items : zlen (items_bytes fb items) = 8 + 8 * Z.of_nat (length items).
Proof. unfold items_bytes. rewrite zlen_app, zlen_feedback, (zlen_items _ 8); [done|apply zlen_item]. Qed.

Lemma items_bytes_u8 fb items : Forall is_u8 (items_bytes fb items).
Proof. apply list.Forall_app. split; [apply feedback_u8|apply items_u8, item_u8]. Qed.

Lemma items_create_wp type fb items block_length max_length s groups open :
  0 <= type < 32 -> Forall item_ok items -> block_length = 12 + 8 * Z.of_nat (length items) ->
  max_length <= IP_PACKET_SIZE -> holds_blocks s max_length groups open ->
  wp (create_block block_length (checked_end block_length
        (CreateHeader type Rtpfb_kPacketType (HeaderLength block_length) false ;;
         CreateCommonFeedback fb ;; put_all TmmbItem_Create items)) max_length) s
     (fun ok s' => ok = true /\ block_length <= max_length /\ exists bs groups' open',
        bs = [mkBlock type 205 (items_bytes fb items)] /\
        open' <> [] /\ holds_blocks s' max_length groups' open' /\ concat groups' ++ open' = concat groups ++ open ++ bs)
     (fun ok s' => ok = false /\ max_length < block_length).
Proof.
  intros Ht Hi Hb Hmax Hh. pose proof (zlen_items_bytes fb items) as Hl.
  apply (one_block_wp (fun R => checked_end block_length (CreateHeader type Rtpfb_kPacketType (HeaderLength block_length) false ;;
         CreateCommonFeedback fb ;; put_all TmmbItem_Create items))); auto using items_bytes_u8; [|lia|done|].
  - apply (checked_writes _ (fun R => CreateHeader type Rtpfb_kPacketType (HeaderLength block_length) false ;;
      CreateCommonFeedback fb ;; put_all TmmbItem_Create items)); [|rewrite zlen_block; cbn [b_body]; lia].
    apply (block_writes (fun R => CreateCommonFeedback fb ;; put_all TmmbItem_Create items)); [done|done|lia|].
    apply (writes_seq (fun R => CreateCommonFeedback fb)); [apply feedback_writes|].
    apply (writes_all (fun i R => TmmbItem_Create i) item_bytes). eapply list.Forall_impl; [exact Hi|]. apply item_writes.
  - rewrite Hl. apply Z.mod_divide; [done|]. exists (2 + 2 * Z.of_nat (length items)). lia.
Qed.

Definition Tmmbr_ok (p : Tmmbr) : Prop := feedback_ok (tmmbr_base p) /\ Forall item_ok (tmmbr_items_ p) /\ tmmbr_items_ p <> [].
Definition Tmmbn_ok (p : Tmmbn) : Prop := feedback_ok (tmmbn_base p) /\ Forall item_ok (tmmbn_items_ p).

#[export] Program Instance Tmmbr_Laws : RtcpLaws Tmmbr :=
  { valid := Tmmbr_ok; room := Tmmbr_BlockLength;
    conveys p bs := bs = [mkBlock 3 205 (items_bytes (tmmbr_base p) (tmmbr_items_ p))] }.
Next Obligation. intros p max_length s groups open (_ & Hi & _) Hmax Hh. by apply items_create_wp. Qed.

#[export] Program Instance Tmmbn_Laws : RtcpLaws Tmmbn :=
  { valid := Tmmbn_ok; room := Tmmbn_BlockLength;
    conveys p bs := bs = [mkBlock 4 205 (items_bytes (tmmbn_base p) (tmmbn_items_ p))] }.
Next Obligation. intros p max_length s groups open (_ & Hi) Hmax Hh. by apply items_create_wp. Qed.

Definition Tmmbr_conveyed (p : Tmmbr) : Tmmbr := mkTmmbr (tmmbr_base p) (map item_conveyed (tmmbr_items_ p)).
Definition Tmmbn_conveyed (p : Tmmbn) : Tmmbn := mkTmmbn (tmmbn_base p) (map item_conveyed (tmmbn_items_ p)).

Lemma parse_items_bytes d items off rest :
  Forall is_u8 d -> Forall item_ok items -> starts d off (concat (map item_bytes items) ++ rest) ->
  parse_items (length items) d off = Some (Some (map item_conveyed items)).
Proof.
  intros Hu Hi. revert off. induction Hi as [|i items Hi _ IH]; intros off Hs; cbn [length parse_items map concat] in *; [done|].
  rewrite <- app_assoc in Hs. destruct (TmmbItem_Parse_bytes d off i _ Hu Hi Hs) as [-> Hs']. cbn [mbind option_bind].
  unfold TmmbItem_kLength. by rewrite IH.
Qed.

Lemma parse_items_Some d n off :
  Forall is_u8 d -> 0 <= off -> off + 8 * Z.of_nat n <= zlen d ->
  exists r, parse_items n d off = Some r /\ forall l, r = Some l -> Forall item_ok l /\ length l = n.
Proof.
  intros Hu. revert off. induction n as [|n IH]; intros off H0 Hl; cbn [parse_items].
  - eexists. split; [reflexivity|]. by intros l [= <-].
  - destruct (TmmbItem_Parse_Some d off Hu H0 ltac:(lia)) as (r & -> & Hr). cbn [mbind option_bind]. unfold TmmbItem_kLength.
    destruct r as [i|]; [|by exists None]. destruct (IH (off + 8) ltac:(lia) ltac:(lia)) as (r' & -> & Hr'). cbn [mbind option_bind].
    eexists. split; [reflexivity|]. intros l Hl'. destruct r' as [l'|]; [|done]. cbn in Hl'. injection Hl' as <-.
    destruct (Hr' l' eq_refl) as [Hok Hlen]. split; [constructor; auto|cbn; lia].
Qed.

(** What both parsers do behind the check of the size. *)
Lemma items_parsed fb items :
  feedback_ok fb -> Forall item_ok items ->
  let d := items_bytes fb items in
  ParseCommonFeedback d = Some fb /\ (zlen d - 8) mod 8 = 0 /\
  parse_items (Z.to_nat ((zlen d - 8) / 8)) d 8 = Some (Some (map item_conveyed items)).
Proof.
  intros Hb Hi d. pose proof (items_bytes_u8 fb items) as Hu. fold d in Hu. pose proof (starts_self d) as Hst. unfold d in Hst at 2.
  destruct (ParseCommonFeedback_bytes d _ _ Hu Hb Hst) as [E Hs']. pose proof (zlen_items_bytes fb items) as Hl. fold d in Hl.
  rewrite Hl. replace (8 + 8 * Z.of_nat (length items) - 8) with (Z.of_nat (length items) * 8) by lia.
  rewrite Z.mod_mul, Z.div_mul, Nat2Z.id by done. split_and!; [done|done|].
  apply (parse_items_bytes d items 8 []); [done|done|by rewrite app_nil_r].
Qed.

Lemma Tmmbr_Parse_block p :
  Tmmbr_ok p ->
  Tmmbr_Parse (block_header (mkBlock 3 205 (items_bytes (tmmbr_base p) (tmmbr_items_ p)))) = Some (Some (Tmmbr_conveyed p)).
Proof.
  intros (Hb & Hi & Hne). destruct (items_parsed _ _ Hb Hi) as (E1 & E2 & E3). pose proof (zlen_items_bytes (tmmbr_base p) (tmmbr_items_ p)) as Hl.
  unfold Tmmbr_Parse, block_header. cbn [b_body payload payload_size]. unfold kCommonFeedbackLength, TmmbItem_kLength. cbv zeta.
  assert (0 < length (tmmbr_items_ p))%nat by (destruct (tmmbr_items_ p); [done|cbn; lia]).
  rewrite (proj2 (Z.ltb_ge _ _)) by lia. rewrite E2, E1. cbn [negb Z.eqb mbind option_bind]. by rewrite E3.
Qed.

Lemma Tmmbn_Parse_block p :
  Tmmbn_ok p ->
  Tmmbn_Parse (block_header (mkBlock 4 205 (items_bytes (tmmbn_base p) (tmmbn_items_ p)))) = Some (Some (Tmmbn_conveyed p)).
Proof.
  intros (Hb & Hi). destruct (items_parsed _ _ Hb Hi) as (E1 & E2 & E3). pose proof (zlen_items_bytes (tmmbn_base p) (tmmbn_items_ p)) as Hl.
  unfold Tmmbn_Parse, block_header. cbn [b_body payload payload_size]. unfold kCommonFeedbackLength, TmmbItem_kLength. cbv zeta.
  rewrite (proj2 (Z.ltb_ge _ _)) by lia. rewrite E2, E1. cbn [negb Z.eqb mbind option_bind]. by rewrite E3.
Qed.

Lemma items_safe h :
  header_valid h -> 8 <= payload_size h -> (payload_size h - 8) mod 8 = 0 ->
  exists fb r, ParseCommonFeedback (payload h) = Some fb /\ feedback_ok fb /\
    parse_items (Z.to_nat ((payload_size h - 8) / 8)) (payload h) 8 = Some r /\
    forall l, r = Some l -> Forall item_ok l /\ length l = Z.to_nat ((payload_size h - 8) / 8).
Proof.
  intros (Hu & Hl & _) Hs Hm. destruct (ParseCommonFeedback_Some (payload h) Hu ltac:(lia)) as (fb & E & Hok).
  pose proof (Z.div_mod (payload_size h - 8) 8 ltac:(lia)).
  destruct (parse_items_Some (payload h) (Z.to_nat ((payload_size h - 8) / 8)) 8 Hu) as (r & Er & Hr); [lia|lia|].
  by exists fb, r.
Qed.

Lemma Tmmbr_Parse_safe h : header_valid h -> exists r, Tmmbr_Parse h = Some r /\ forall p, r = Some p -> Tmmbr_ok p.
Proof.
  intros Hh. unfold Tmmbr_Parse, kCommonFeedbackLength, TmmbItem_kLength. cbv zeta.
  destruct (Z.ltb_spec (payload_size h) (8 + 8)); [by exists None|].
  destruct (Z.eqb_spec ((payload_size h - 8) mod 8) 0) as [Hm|]; cbn [negb]; [|by exists None].
  destruct (items_safe h Hh ltac:(lia) Hm) as (fb & r & -> & Hok & Er & Hr). cbn [mbind option_bind]. rewrite Er. cbn [mbind option_bind].
  eexists. split; [reflexivity|]. intros p Hp. destruct r as [l|]; [|done]. cbn in Hp. injection Hp as <-.
  destruct (Hr l eq_refl) as [Hl Hn]. split_and!; [done|done|]. cbn. intros ->. cbn in Hn.
  assert (1 <= (payload_size h - 8) / 8) by (apply Z.div_le_lower_bound; lia). lia.
Qed.

Lemma Tmmbn_Parse_safe h : header_valid h -> exists r, Tmmbn_Parse h = Some r /\ forall p, r = Some p -> Tmmbn_ok p.
Proof.
  intros Hh. unfold Tmmbn_Parse, kCommonFeedbackLength, TmmbItem_kLength. cbv zeta.
  destruct (Z.ltb_spec (payload_size h) 8); [by exists None|].
  destruct (Z.eqb_spec ((payload_size h - 8) mod 8) 0) as [Hm|]; cbn [negb]; [|by exists None].
  destruct (items_safe h Hh ltac:(lia) Hm) as (fb & r & -> & Hok & Er & Hr). cbn [mbind option_bind]. rewrite Er. cbn [mbind option_bind].
  eexists. split; [reflexivity|]. intros p Hp. destruct r as [l|]; [|done]. cbn in Hp. injection Hp as <-.
  by destruct (Hr l eq_refl).
Qed.

(** ** Loss notifications *)

Record LossNotification := mkLoss {
  loss_base : Feedback;
  last_decoded_ : Z;
  last_received_ : Z;
  decodability_flag_ : bool;
}.

Definition Loss_kUniqueIdentifier : Z := 0x4C4E5446.
Definition kLossNotificationPayloadLength : Z := 8.

Definition LossNotification_Parse (packet : CommonHeader) : option (option LossNotification) :=
  if payload_size packet <? kCommonFeedbackLength + kLossNotificationPayloadLength then Some None
  else
    let payload := payload packet in
    unique_identifier ← ReadBigEndian 4 payload 8;
    if negb (unique_identifier =? Loss_kUniqueIdentifier) then Some None
    else
      fb ← ParseCommonFeedback payload;
      last_decoded ← ReadBigEndian 2 payload 12;
      last_received_delta_and_decodability ← ReadBigEndian 2 payload 14;
      let last_received := u16 (last_decoded + Z.shiftr last_received_delta_and_decodability 1) in
      let decodability_flag := negb (Z.land last_received_delta_and_decodability 0x0001 =? 0) in
      Some (Some (mkLoss fb last_decoded last_received decodability_flag)).

Definition LossNotification_BlockLength (p : LossNotification) : Z :=
  kHeaderLength + kCommonFeedbackLength + kLossNotificationPayloadLength.

Definition LossNotification_fields {R} (p : LossNotification) : stmt Sink R unit :=
  (put_be 4 0 Loss_kUniqueIdentifier ;; advance 4) ;;
  (put_be 2 0 (last_decoded_ p) ;; advance 2) ;;
  let last_received_delta := u16 (last_received_ p - last_decoded_ p) in
  let last_received_delta_and_decodability :=
    u16 (Z.lor (Z.shiftl last_received_delta 1) (if decodability_flag_ p then 0x0001 else 0x0000)) in
  (put_be 2 0 last_received_delta_and_decodability ;; advance 2).

Definition LossNotification_write {R} (p : LossNotification) : stmt Sink R unit :=
  CreateHeader kAfbMessageType Psfb_kPacketType (HeaderLength (LossNotification_BlockLength p)) false ;;
  CreateCommonFeedback (loss_base p) ;;
  LossNotification_fields p.

Definition LossNotification_Set (p : LossNotification) (last_decoded last_received : Z) (decodability_flag : bool)
  : option LossNotification :=
  let delta := u16 (last_received - last_decoded) in
  if 0x7fff <? delta then None
  else Some (mkLoss (loss_base p) last_decoded last_received decodability_flag).

#[export] Instance LossNotification_Packet : RtcpPacket LossNotification :=
  { BlockLength := LossNotification_BlockLength;
    Create p := create_block (LossNotification_BlockLength p) (LossNotification_write p) }.

Definition Loss_ok (p : LossNotification) : Prop :=
  feedback_ok (loss_base p) /\ is_u16 (last_decoded_ p) /\ is_u16 (last_received_ p) /\
  u16 (last_received_ p - last_decoded_ p) <= 0x7fff.

(** What [Set] lets through can be sent. *)
Lemma LossNotification_Set_ok p d r f p' :
  feedback_ok (loss_base p) -> is_u16 d -> is_u16 r -> LossNotification_Set p d r f = Some p' -> Loss_ok p'.
Proof.
  intros Hb Hd Hr. unfold LossNotification_Set. cbv zeta. destruct (Z.ltb_spec 0x7fff (u16 (r - d))); [done|]. by intros [= <-].
Qed.

Definition delta_flag (p : LossNotification) : Z :=
  u16 (last_received_ p - last_decoded_ p) * 2 + Z.b2z (decodability_flag_ p).

Definition Loss_bytes (p : LossNotification) : list Z :=
  feedback_bytes (loss_base p) ++ be_bytes 4 Loss_kUniqueIdentifier ++ be_bytes 2 (last_decoded_ p) ++ be_bytes 2 (delta_flag p).

Lemma delta_flag_fields p :
  Loss_ok p ->
  is_u16 (delta_flag p) /\
  u16 (Z.lor (Z.shiftl (u16 (last_received_ p - last_decoded_ p)) 1) (if decodability_flag_ p then 1 else 0)) = delta_flag p /\
  u16 (last_decoded_ p + Z.shiftr (delta_flag p) 1) = last_received_ p /\
  negb (Z.land (delta_flag p) 1 =? 0) = decodability_flag_ p.
Proof.
  intros (_ & Hd & Hr & Hdelta). pose proof (u16_range (last_received_ p - last_decoded_ p)) as Hu.
  assert (Hf : is_u16 (delta_flag p)) by (unfold is_u16, delta_flag in *; destruct (decodability_flag_ p); cbn [Z.b2z]; lia).
  split; [done|]. unfold delta_flag in *. set (delta := u16 (last_received_ p - last_decoded_ p)) in *.
  unfold is_u16 in *. split_and!.
  - rewrite shiftl_mul by lia. rewrite (lor_disjoint _ _ 1); [|lia|by apply Z.mod_mul|destruct (decodability_flag_ p); lia].
    change (2 ^ 1) with 2. destruct (decodability_flag_ p); cbn [Z.b2z] in *; by apply u16_id.
  - rewrite shiftr_div by lia. change (2 ^ 1) with 2.
    rewrite <- (Z.div_unique_pos _ 2 delta (Z.b2z (decodability_flag_ p))) by (destruct (decodability_flag_ p); cbn [Z.b2z]; lia).
    unfold delta, u16. rewrite Z.add_mod_idemp_r by lia. replace (_ + (_ - _)) with (last_received_ p) by lia. by apply Z.mod_small.
  - change 1 with (Z.ones 1). rewrite Z.land_ones by lia. change (2 ^ 1) with 2.
    rewrite <- (Z.mod_unique_pos _ 2 delta (Z.b2z (decodability_flag_ p))) by (destruct (decodability_flag_ p); cbn [Z.b2z]; lia).
    by destruct (decodability_flag_ p).
Qed.

Lemma Loss_u8 p : Forall is_u8 (Loss_bytes p).
Proof. unfold Loss_bytes. rewrite !list.Forall_app. split_and!; [apply feedback_u8|apply be_bytes_u8..]. Qed.

#[export] Program Instance LossNotification_Laws : RtcpLaws LossNotification :=
  { valid := Loss_ok; room := LossNotification_BlockLength; conveys p bs := bs = [mkBlock 15 206 (Loss_bytes p)] }.
Next Obligation.
  intros p max_length s groups open Hp Hmax Hh. destruct (delta_flag_fields p Hp) as (_ & E & _).
  apply (headed_block_wp (fun R => CreateCommonFeedback (loss_base p) ;; LossNotification_fields p) 4); auto using Loss_u8; try done.
  apply (writes_seq (fun R => CreateCommonFeedback (loss_base p))); [apply feedback_writes|].
  unfold LossNotification_fields. cbv zeta. rewrite E.
  apply (writes_seq (fun R => put_be 4 0 Loss_kUniqueIdentifier ;; advance 4)); [group_fields|].
  apply (writes_seq (fun R => put_be 2 0 (last_decoded_ p) ;; advance 2)); group_fields.
Qed.

Lemma LossNotification_Parse_block p :
  Loss_ok p -> LossNotification_Parse (block_header (mkBlock 15 206 (Loss_bytes p))) = Some (Some p).
Proof.
  intros Hp. destruct (delta_flag_fields p Hp) as (Hf & _ & Er & Ef). destruct Hp as (Hb & Hd & Hr & _).
  pose proof (Loss_u8 p) as Hu. unfold LossNotification_Parse, block_header. cbn [b_body payload payload_size].
  change (zlen (Loss_bytes p)) with 16. change (16 <? kCommonFeedbackLength + kLossNotificationPayloadLength) with false.
  cbv iota zeta. pose proof (starts_self (Loss_bytes p)) as Hst. set (d := Loss_bytes p) in *. unfold d in Hst at 2.
  unfold Loss_bytes in Hst. destruct (ParseCommonFeedback_bytes d _ _ Hu Hb Hst) as [Efb Hs].
  next_be Hs. rewrite Z.eqb_refl. cbn [negb]. rewrite Efb. cbn [mbind option_bind]. next_be Hs.
  rewrite <- (app_nil_r (be_bytes 2 (delta_flag p))) in Hs. next_be Hs. rewrite Er, Ef. by destruct p.
Qed.

Lemma LossNotification_Parse_safe h :
  header_valid h -> exists r, LossNotification_Parse h = Some r /\ forall p, r = Some p -> Loss_ok p.
Proof.
  intros (Hu & Hl & _). unfold LossNotification_Parse, kCommonFeedbackLength, kLossNotificationPayloadLength. cbv zeta.
  destruct (Z.ltb_spec (payload_size h) (8 + 8)); [by exists None|]. read_be. destruct (negb _); [by exists None|].
  destruct (ParseCommonFeedback_Some (payload h) Hu ltac:(lia)) as (fb & -> & Hok). cbn [mbind option_bind].
  read_be. read_be. eexists. split; [reflexivity|]. intros p [= <-]. unfold Loss_ok. cbn [loss_base last_decoded_ last_received_].
  split_and!; [done|done|apply u16_range|]. rewrite shiftr_div by lia. change (2 ^ 1) with 2. unfold u16.
  rewrite Zminus_mod_idemp_l. replace (_ + _ - _) with (v1 / 2) by lia.
  change (2 ^ (8 * Z.of_nat 2)) with (2 ^ 16) in Hv1. assert (0 <= v1 / 2 <= 0x7fff); [|rewrite Z.mod_small; lia].
  split; [apply Z.div_pos; lia|]. assert (v1 / 2 < 0x8000); [apply Z.div_lt_upper_bound; lia|lia].
Qed.

(** The two application layer messages are told apart by their identifiers. *)
Lemma Remb_refuses_Loss p : Loss_ok p -> Remb_Parse (block_header (mkBlock 15 206 (Loss_bytes p))) = Some None.
Proof.
  intros Hp. destruct Hp as (Hb & Hd & Hr & _). pose proof (Loss_u8 p) as Hu. unfold Remb_Parse, block_header.
  cbn [b_body payload payload_size]. change (zlen (Loss_bytes p)) with 16. change (16 <? 16) with false. cbv iota zeta.
  pose proof (starts_self (Loss_bytes p)) as Hst. set (d := Loss_bytes p) in *. unfold d in Hst at 2.
  unfold Loss_bytes in Hst. destruct (ParseCommonFeedback_bytes d _ _ Hu Hb Hst) as [_ Hs].
  apply starts_be in Hs as [E _]; [|done|done]. by rewrite E.
Qed.
