(* ===== verification/RtcpNack.v ===== *)
(** * RTCP: negative acknowledgements

    [rtcp_packet/nack.h/.cc] under [modules/rtp_rtcp/source]: the packing of the
    numbers of lost packets into items of a number and a mask for the 16 that follow
    it, and the message, which is spread over as many blocks as it needs. *)

From Stdlib Require Import Sorted.
From S2P Require Import Prelude ByteIo Rtcp RtcpFields RtcpFeedback.

Open Scope Z_scope.
Open Scope c_scope.

Record PackedNack := mkPacked { first_pid : Z; bitmask : Z }.

Record Nack := mkNack { nack_base : Feedback; packed_ : list PackedNack; packet_ids_ : list Z }.

Definition kNackItemLength : Z := 4.

(** ** Packing *)

(** The inner loop of [Pack]: the mask, and the numbers that are left. *)
Fixpoint pack_item (first_pid bitmask : Z) (it : list Z) : Z * list Z :=
  match it with
  | [] => (bitmask, [])
  | id :: rest =>
      let shift := u16 (id - first_pid - 1) in
      if shift <=? 15 then pack_item first_pid (u16 (Z.lor bitmask (Z.shiftl 1 shift))) rest
      else (bitmask, it)
  end.

Fixpoint pack_loop (fuel : nat) (it : list Z) : option (list PackedNack) :=
  match it with
  | [] => Some []
  | first_pid :: it =>
      match fuel with
      | O => None
      | S fuel' =>
          let '(bitmask, it) := pack_item first_pid 0 it in
          packed ← pack_loop fuel' it;
          Some (mkPacked first_pid bitmask :: packed)
      end
  end.

(** An item takes one number at least. *)
Definition Pack (ids : list Z) : option (list PackedNack) := pack_loop (length ids) ids.

Definition SetPacketIds (p : Nack) (nack_list : list Z) : option Nack :=
  packed ← Pack nack_list;
  Some (mkNack (nack_base p) (packed_ p ++ packed) nack_list).

(** The loop of [Unpack] over the bits of a mask. *)
Fixpoint unpack_mask (fuel : nat) (bitmask pid : Z) : option (list Z) :=
  if bitmask =? 0 then Some []
  else
    match fuel with
    | O => None
    | S fuel' =>
        ids ← unpack_mask fuel' (Z.shiftr bitmask 1) (u16 (pid + 1));
        Some (if Z.land bitmask 1 =? 0 then ids else pid :: ids)
    end.

(** A mask of 16 bits is zero after as many rounds. *)
Definition mask_fuel : nat := 16.

Fixpoint Unpack (packed : list PackedNack) : option (list Z) :=
  match packed with
  | [] => Some []
  | item :: packed =>
      ids ← unpack_mask mask_fuel (bitmask item) (u16 (first_pid item + 1));
      rest ← Unpack packed;
      Some ((first_pid item :: ids) ++ rest)
  end.

(** ** The message *)

Definition PackedNack_read (payload : list Z) (next_nack : Z) : option PackedNack :=
  first_pid ← ReadBigEndian 2 payload next_nack;
  bitmask ← ReadBigEndian 2 payload (next_nack + 2);
  Some (mkPacked first_pid bitmask).

Definition Nack_Parse (packet : CommonHeader) : option (option Nack) :=
  if payload_size packet <? kCommonFeedbackLength + kNackItemLength then Some None
  else
    let nack_items := (payload_size packet - kCommonFeedbackLength) / kNackItemLength in
    fb ← ParseCommonFeedback (payload packet);
    packed ← read_all (PackedNack_read (payload packet)) (Z.to_nat nack_items) kCommonFeedbackLength kNackItemLength;
    packet_ids ← Unpack packed;
    Some (Some (mkNack fb packed packet_ids)).

Definition Nack_BlockLength (p : Nack) : Z :=
  kHeaderLength + kCommonFeedbackLength + Z.of_nat (length (packed_ p)) * kNackItemLength.

Definition CheckedDivExact (a b : Z) : option Z := if a mod b =? 0 then Some (a / b) else None.

Definition PackedNack_write {R} (item : PackedNack) : stmt Sink R unit :=
  put_be 2 0 (first_pid item) ;;
  put_be 2 2 (bitmask item) ;;
  advance kNackItemLength.

(** The loop of [Create]; [max_length - *index] is a [size_t]. *)
Fixpoint nack_loop (fuel : nat) (p : Nack) (max_length : Z) (nack_index : nat) : stmt Sink bool unit :=
  match fuel with
  | O => fun _ => Spin
  | S fuel' =>
      if (nack_index <? length (packed_ p))%nat then
        let! s := get in
        let kNackHeaderLength := kHeaderLength + kCommonFeedbackLength in
        let bytes_left_in_buffer := (max_length - sink_index s) mod 2 ^ 64 in
        if bytes_left_in_buffer <? kNackHeaderLength + kNackItemLength then
          let! ok := OnBufferFull in
          if negb ok then return_ false else nack_loop fuel' p max_length nack_index
        else
          let num_nack_fields := Z.min ((bytes_left_in_buffer - kNackHeaderLength) / kNackItemLength)
                                       (Z.of_nat (length (packed_ p) - nack_index)) in
          let payload_size_bytes := kCommonFeedbackLength + num_nack_fields * kNackItemLength in
          let! payload_size_32bits := mem (CheckedDivExact payload_size_bytes 4) in
          (CreateHeader 1 Rtpfb_kPacketType payload_size_32bits false ;;
           CreateCommonFeedback (nack_base p) ;;
           put_all PackedNack_write (take (Z.to_nat num_nack_fields) (drop nack_index (packed_ p)))) ;;
          nack_loop fuel' p max_length (nack_index + Z.to_nat num_nack_fields)
      else ret tt
  end.

(** The buffer is emptied at most once for each block, and a block has one item at
    least. *)
Definition nack_fuel (p : Nack) : nat := 2 * length (packed_ p) + 2.

Definition Nack_Create (p : Nack) (max_length : Z) : stmt Sink bool bool :=
  nack_loop (nack_fuel p) p max_length 0 ;;
  ret true.

#[export] Instance Nack_Packet : RtcpPacket Nack := { BlockLength := Nack_BlockLength; Create := Nack_Create }.

(** ** The numbers of a mask *)

(** The numbers from [pid] on for which one of the [n] low bits of the mask is set. *)
Definition mask_ids (n : nat) (mask pid : Z) : list Z :=
  flat_map (fun i => if Z.testbit mask (Z.of_nat i) then [u16 (pid + Z.of_nat i)] else []) (seq 0 n).

(** The numbers that an item stands for. *)
Definition item_ids (item : PackedNack) : list Z :=
  first_pid item :: mask_ids 16 (bitmask item) (first_pid item + 1).

Definition packed_ok (item : PackedNack) : Prop := is_u16 (first_pid item) /\ is_u16 (bitmask item).

Lemma mask_ids_ext n mask mask' pid pid' :
  (forall i, (i < n)%nat -> Z.testbit mask (Z.of_nat i) = Z.testbit mask' (Z.of_nat i)) ->
  u16 pid = u16 pid' -> mask_ids n mask pid = mask_ids n mask' pid'.
Proof.
  intros Hm Hp. unfold mask_ids. rewrite !flat_map_concat_map. f_equal. apply map_ext_in. intros i [_ Hi]%in_seq.
  rewrite Hm by lia. unfold u16 in *. by rewrite <- Z.add_mod_idemp_l, Hp, Z.add_mod_idemp_l by lia.
Qed.

Lemma mask_ids_0 n pid : mask_ids n 0 pid = [].
Proof.
  unfold mask_ids. rewrite flat_map_concat_map. induction (seq 0 n) as [|i l IH]; cbn [map concat]; [done|].
  by rewrite Z.bits_0, IH.
Qed.

(** The first bit, and the others one place further down. *)
Lemma mask_ids_cons n mask pid :
  mask_ids (S n) mask pid = (if Z.testbit mask 0 then [u16 pid] else []) ++ mask_ids n (Z.shiftr mask 1) (pid + 1).
Proof.
  unfold mask_ids. cbn [seq flat_map]. rewrite Z.add_0_r. f_equal. rewrite <- seq_shift, !flat_map_concat_map, map_map.
  f_equal. apply map_ext. intros i. rewrite Z.shiftr_spec by lia. rewrite Nat2Z.inj_succ. replace (Z.of_nat i + 1) with (Z.succ (Z.of_nat i)) by lia.
  by replace (pid + Z.succ (Z.of_nat i)) with (pid + 1 + Z.of_nat i) by lia.
Qed.

Lemma u16_u16 z : u16 (u16 z) = u16 z.
Proof. apply u16_id, u16_range. Qed.

Lemma unpack_mask_ids fuel mask pid :
  0 <= mask < 2 ^ Z.of_nat fuel -> is_u16 pid -> unpack_mask fuel mask pid = Some (mask_ids fuel mask pid).
Proof.
  revert mask pid. induction fuel as [|fuel IH]; intros mask pid Hm Hp; cbn [unpack_mask].
  - change (2 ^ Z.of_nat 0) with 1 in Hm. by assert (mask = 0) as -> by lia.
  - destruct (Z.eqb_spec mask 0) as [->|Hne]; [by rewrite mask_ids_0|].
    rewrite Nat2Z.inj_succ, Z.pow_succ_r in Hm by lia.
    rewrite IH; [|rewrite shiftr_div by lia; split; [apply Z.div_pos; lia|apply Z.div_lt_upper_bound; lia]|apply u16_range].
    cbn [mbind option_bind]. rewrite mask_ids_cons. change (Z.land mask 1) with (Z.land mask (Z.shiftl 1 0)).
    rewrite land_bit by lia. rewrite (mask_ids_ext fuel _ (Z.shiftr mask 1) (u16 (pid + 1)) (pid + 1)); [|done|apply u16_u16].
    rewrite (u16_id pid) by done. by destruct (Z.testbit mask 0).
Qed.

Lemma Unpack_ids packed : Forall packed_ok packed -> Unpack packed = Some (flat_map item_ids packed).
Proof.
  induction 1 as [|item packed [H1 H2] _ IH]; cbn [Unpack flat_map]; [done|]. unfold mask_fuel.
  rewrite unpack_mask_ids by (done || apply u16_range). cbn [mbind option_bind]. rewrite IH. cbn [mbind option_bind]. unfold item_ids.
  rewrite (mask_ids_ext 16 _ (bitmask item) (u16 (first_pid item + 1)) (first_pid item + 1)); [done|done|apply u16_u16].
Qed.

(** ** One bit more *)

Lemma mask_set_bit mask s i :
  0 <= s <= 15 -> 0 <= i < 16 ->
  Z.testbit (u16 (Z.lor mask (Z.shiftl 1 s))) i = Z.testbit mask i || (i =? s).
Proof.
  intros Hs Hi. unfold u16. rewrite Z.mod_pow2_bits_low by lia. rewrite Z.lor_spec, shiftl_mul, Z.mul_1_l by lia. f_equal.
  destruct (Z.eqb_spec i s) as [->|]; [apply Z.pow2_bits_true; lia|apply Z.pow2_bits_false; lia].
Qed.

Lemma mask_ids_In n mask pid x :
  In x (mask_ids n mask pid) <-> exists i, (i < n)%nat /\ Z.testbit mask (Z.of_nat i) = true /\ x = u16 (pid + Z.of_nat i).
Proof.
  unfold mask_ids. rewrite in_flat_map. split.
  - intros (i & [_ Hi]%in_seq & Hx). destruct (Z.testbit mask (Z.of_nat i)) eqn:E; [|done]. destruct Hx as [<-|[]]. by exists i.
  - intros (i & Hi & E & ->). exists i. rewrite E. split; [apply in_seq; lia|by left].
Qed.

Lemma mask_ids_set mask pid s x :
  0 <= s <= 15 ->
  In x (mask_ids 16 (u16 (Z.lor mask (Z.shiftl 1 s))) pid) <-> In x (mask_ids 16 mask pid) \/ x = u16 (pid + s).
Proof.
  intros Hs. rewrite !mask_ids_In. split.
  - intros (i & Hi & E & ->). rewrite mask_set_bit in E by lia. apply orb_true_iff in E as [E|E%Z.eqb_eq]; [left; by exists i|].
    right. by rewrite E.
  - intros [(i & Hi & E & ->)| ->].
    + exists i. rewrite mask_set_bit, E by lia. done.
    + exists (Z.to_nat s). rewrite Z2Nat.id, mask_set_bit, Z.eqb_refl, orb_true_r by lia. split_and!; [lia|done|done].
Qed.

Lemma mask_ids_low n k mask pid : (k <= n)%nat -> 0 <= mask < 2 ^ Z.of_nat k -> mask_ids n mask pid = mask_ids k mask pid.
Proof.
  intros Hk Hm. unfold mask_ids. replace n with (k + (n - k))%nat by lia. rewrite seq_app, flat_map_app.
  assert (Hnil : forall l, (forall i, In i l -> (k <= i)%nat) ->
    flat_map (fun i => if Z.testbit mask (Z.of_nat i) then [u16 (pid + Z.of_nat i)] else []) l = []).
  { induction l as [|i l IH]; intros Hl; cbn [flat_map]; [done|]. rewrite IH by (intros j Hj; apply Hl; by right).
    assert (E : Z.testbit mask (Z.of_nat i) = false).
    { rewrite <- (Z.mod_small mask (2 ^ Z.of_nat k)) by done. apply Z.mod_pow2_bits_high.
      pose proof (Hl i ltac:(by left)). lia. }
    by rewrite E. }
  rewrite (Hnil (seq (0 + k) (n - k))); [apply app_nil_r|]. intros i Hi%in_seq. lia.
Qed.

(** A bit above those that are set comes last. *)
Lemma mask_ids_snoc mask pid s :
  0 <= s <= 15 -> 0 <= mask < 2 ^ s ->
  mask_ids 16 (u16 (Z.lor mask (Z.shiftl 1 s))) pid = mask_ids 16 mask pid ++ [u16 (pid + s)] /\
  0 <= u16 (Z.lor mask (Z.shiftl 1 s)) < 2 ^ (s + 1).
Proof.
  intros Hs Hm. assert (Hp : 2 ^ (s + 1) <= 2 ^ 16) by (apply Z.pow_le_mono_r; lia).
  assert (Hp1 : 2 ^ (s + 1) = 2 ^ s * 2) by (rewrite Z.pow_add_r by lia; done).
  assert (E : u16 (Z.lor mask (Z.shiftl 1 s)) = mask + 2 ^ s).
  { rewrite shiftl_mul, Z.mul_1_l, Z.lor_comm by lia. rewrite (lor_disjoint _ _ s); [|lia|by apply Z_mod_same_full|lia].
    rewrite u16_id by (unfold is_u16; lia). lia. }
  split; [|lia]. rewrite (mask_ids_low 16 (S (Z.to_nat s)) (u16 _)), (mask_ids_low 16 (Z.to_nat s) mask);
    [|lia|by rewrite Z2Nat.id by lia|lia|rewrite Nat2Z.inj_succ, Z2Nat.id by lia; unfold Z.succ; lia].
  unfold mask_ids at 1. rewrite seq_S, flat_map_app. cbn [flat_map]. rewrite Nat.add_0_l, Z2Nat.id by lia.
  rewrite mask_set_bit, Z.eqb_refl, orb_true_r by lia. f_equal. apply mask_ids_ext; [|done].
  intros i Hi. rewrite mask_set_bit by lia. rewrite (proj2 (Z.eqb_neq _ _)) by lia. apply orb_false_r.
Qed.

(** ** What is packed *)

(** [b] comes after [a] in the order of 16 bit sequence numbers. *)
Definition newer (a b : Z) : Prop := 1 <= u16 (b - a) <= 0x7fff.

Lemma pack_shift first id s : is_u16 id -> s = u16 (id - first - 1) -> u16 (first + 1 + s) = id.
Proof.
  intros Hid ->. unfold u16. rewrite Z.add_mod_idemp_r by lia. replace (first + 1 + (id - first - 1)) with id by lia.
  by apply Z.mod_small.
Qed.

(** The inner loop takes a first part of the numbers into the mask. *)
Lemma pack_item_set first it mask :
  Forall is_u16 it -> is_u16 mask ->
  exists taken mask' rest, pack_item first mask it = (mask', rest) /\ it = taken ++ rest /\ is_u16 mask' /\
    forall x, In x (mask_ids 16 mask' (first + 1)) <-> In x (mask_ids 16 mask (first + 1)) \/ In x taken.
Proof.
  intros Hit. revert mask. induction Hit as [|id it Hid Hit IH]; intros mask Hm; cbn [pack_item].
  - exists [], mask, []. split_and!; [done|done|done|]. cbn. tauto.
  - pose proof (u16_range (id - first - 1)) as Hr. set (s := u16 (id - first - 1)) in *.
    destruct (Z.leb_spec s 15) as [Hs|Hs].
    + destruct (IH (u16 (Z.lor mask (Z.shiftl 1 s))) (u16_range _)) as (taken & mask' & rest & E & Hsplit & Hm' & Hin).
      exists (id :: taken), mask', rest. rewrite E. split_and!; [done|by rewrite Hsplit|done|]. intros x.
      rewrite Hin, mask_ids_set, (pack_shift first id s Hid eq_refl) by (unfold is_u16 in Hr; lia). cbn [In]. intuition auto.
    + exists [], mask, (id :: it). split_and!; [done|done|done|]. cbn. tauto.
Qed.

(** When the numbers ascend, they come out of the mask in their order. *)
Lemma pack_item_ascending first it mask k :
  Forall is_u16 it -> 0 <= k <= 16 -> 0 <= mask < 2 ^ k -> Sorted newer (u16 (first + k) :: it) ->
  exists taken mask' rest, pack_item first mask it = (mask', rest) /\ it = taken ++ rest /\
    mask_ids 16 mask' (first + 1) = mask_ids 16 mask (first + 1) ++ taken.
Proof.
  intros Hit. revert mask k. induction Hit as [|id it Hid Hit IH]; intros mask k Hk Hm Hsort; cbn [pack_item].
  - exists [], mask, []. split_and!; [done|done|by rewrite app_nil_r].
  - apply Sorted_inv in Hsort as [Hsort Hnew%HdRel_inv]. pose proof (u16_range (id - first - 1)) as Hr.
    assert (Hsh : u16 (id - first - 1) = k - 1 + u16 (id - u16 (first + k))).
    { unfold newer in Hnew. set (d := u16 (id - u16 (first + k))) in *.
      assert (Ed : u16 (k - 1 + d) = u16 (id - first - 1)).
      { unfold d, u16. rewrite Z.add_mod_idemp_r by lia. rewrite Z.add_sub_assoc, Zminus_mod_idemp_r. f_equal. lia. }
      rewrite <- Ed. apply u16_id. unfold is_u16. lia. }
    unfold newer in Hnew. set (s := u16 (id - first - 1)) in *. unfold is_u16 in Hr.
    destruct (Z.leb_spec s 15) as [Hs|Hs].
    + destruct (mask_ids_snoc mask (first + 1) s ltac:(lia)) as [Es Hlt].
      { assert (2 ^ k <= 2 ^ s) by (apply Z.pow_le_mono_r; lia). lia. }
      destruct (IH (u16 (Z.lor mask (Z.shiftl 1 s))) (s + 1)) as (taken & mask' & rest & E & Hsplit & Hids); [lia|done| |].
      { replace (first + (s + 1)) with (first + 1 + s) by lia. by rewrite (pack_shift first id s Hid eq_refl). }
      exists (id :: taken), mask', rest. rewrite E. split_and!; [done|by rewrite Hsplit|].
      rewrite Hids, Es, (pack_shift first id s Hid eq_refl), <- app_assoc. done.
    + exists [], mask, (id :: it). split_and!; [done|done|by rewrite app_nil_r].
Qed.

Lemma Sorted_app_r {A} (R : A -> A -> Prop) l k : Sorted R (l ++ k) -> Sorted R k.
Proof. induction l as [|x l IH]; cbn; [done|]. intros [H _]%Sorted_inv. auto. Qed.

(** Packing ends; the items stand for the numbers, and when these ascend also in
    their order. *)
Lemma pack_loop_ids fuel ids :
  (length ids <= fuel)%nat -> Forall is_u16 ids ->
  exists packed, pack_loop fuel ids = Some packed /\ Forall packed_ok packed /\
    (forall x, In x (flat_map item_ids packed) <-> In x ids) /\
    (Sorted newer ids -> flat_map item_ids packed = ids) /\ (ids <> [] -> packed <> []).
Proof.
  revert ids. induction fuel as [|fuel IH]; intros [|first it] Hf Hids; cbn [pack_loop length] in *; try lia;
    try (exists []; split_and!; [done|constructor|done|done|done]).
  apply list.Forall_cons in Hids as [Hfirst Hit].
  destruct (pack_item_set first it 0 Hit ltac:(done)) as (taken & mask & rest & E & Hsplit & Hm & Hin). rewrite E.
  destruct (IH rest) as (packed & -> & Hok & Hset & Hasc & _).
  { subst it. rewrite length_app in Hf. lia. }
  { subst it. by apply list.Forall_app in Hit as [_ Hit]. }
  cbn [mbind option_bind]. exists (mkPacked first mask :: packed). split_and!; [done|by constructor| | |done].
  - intros x. cbn [flat_map item_ids first_pid bitmask app In]. rewrite in_app_iff, Hset, Hin, mask_ids_0, Hsplit, in_app_iff.
    cbn [In]. tauto.
  - intros Hsort. destruct (pack_item_ascending first it 0 0 Hit) as (taken' & mask' & rest' & E' & Hsplit' & Hids'); [lia|lia| |].
    { by rewrite Z.add_0_r, u16_id by done. }
    rewrite E in E'. injection E' as <- <-. rewrite mask_ids_0 in Hids'. cbn [app] in Hids'.
    change (flat_map item_ids (mkPacked first mask :: packed))
      with (first :: mask_ids 16 mask (first + 1) ++ flat_map item_ids packed).
    rewrite Hids', Hasc; [by rewrite Hsplit'|].
    apply (Sorted_app_r _ (first :: taken')). cbn [app]. by rewrite <- Hsplit'.
Qed.

Lemma Pack_ids ids :
  Forall is_u16 ids ->
  exists packed, Pack ids = Some packed /\ Forall packed_ok packed /\
    (forall x, In x (flat_map item_ids packed) <-> In x ids) /\
    (Sorted newer ids -> flat_map item_ids packed = ids) /\ (ids <> [] -> packed <> []).
Proof. by apply pack_loop_ids. Qed.

(** ** The blocks of a message *)

Definition packed_bytes (item : PackedNack) : list Z := be_bytes 2 (first_pid item) ++ be_bytes 2 (bitmask item).

(** The block for some of the items. *)
Definition nack_block (fb : Feedback) (items : list PackedNack) : Block :=
  mkBlock 1 205 (feedback_bytes fb ++ concat (map packed_bytes items)).

Lemma zlen_nack_block fb items : zlen (b_body (nack_block fb items)) = 8 + 4 * Z.of_nat (length items).
Proof. cbn [b_body nack_block]. by rewrite zlen_app, zlen_feedback, (zlen_items _ 4). Qed.

Lemma nack_block_u8 fb items : Forall is_u8 (b_body (nack_block fb items)).
Proof.
  cbn [b_body nack_block]. apply list.Forall_app. split; [apply feedback_u8|]. apply items_u8. intros item.
  apply list.Forall_app. split; apply be_bytes_u8.
Qed.

Lemma nack_block_wf fb items : 4 * Z.of_nat (length items) <= IP_PACKET_SIZE -> block_wf (nack_block fb items).
Proof.
  intros Hl. pose proof (zlen_nack_block fb items) as Hz. unfold IP_PACKET_SIZE in Hl. unfold block_wf. rewrite Hz.
  split; [done|]. split; [done|]. split; [apply nack_block_u8|]. split; [|lia]. apply Z.mod_divide; [done|]. exists (2 + Z.of_nat (length items)). lia.
Qed.

Lemma nack_block_writes fb items :
  writes (fun R => CreateHeader 1 Rtpfb_kPacketType (2 + Z.of_nat (length items)) false ;; CreateCommonFeedback fb ;;
    put_all PackedNack_write items) (block_bytes (nack_block fb items)).
Proof.
  apply writes_fit. rewrite zlen_block, zlen_nack_block. unfold IP_PACKET_SIZE. intros Hfit. unfold block_bytes.
  rewrite zlen_nack_block, app_assoc. replace ((8 + 4 * Z.of_nat (length items)) / 4) with (2 + Z.of_nat (length items))
    by (apply (Z.div_unique_pos _ _ _ 0); lia).
  apply (writes_seq (fun R => CreateHeader 1 Rtpfb_kPacketType (2 + Z.of_nat (length items)) false)); [apply CreateHeader_writes; try done; lia|].
  apply (writes_seq (fun R => CreateCommonFeedback fb)); [apply feedback_writes|].
  apply (writes_all (fun i R => PackedNack_write i) packed_bytes). apply list.Forall_forall. intros i _.
  unfold PackedNack_write, packed_bytes, kNackItemLength. group_fields.
Qed.

(** The loop sends all items, in blocks that have an item at least, or it fails
    since no block fits a packet. *)
Lemma nack_loop_wp fuel p max_length k s groups open :
  0 <= max_length <= IP_PACKET_SIZE -> holds_blocks s max_length groups open ->
  (2 * (length (packed_ p) - k) + match open with [] => 1 | _ => 2 end <= fuel)%nat ->
  wp (nack_loop fuel p max_length k) s
     (fun _ s' => ((k < length (packed_ p))%nat -> 16 <= max_length) /\
        exists parts groups' open', concat parts = drop k (packed_ p) /\ Forall (fun items => items <> []) parts /\
        holds_blocks s' max_length groups' open' /\
        concat groups' ++ open' = concat groups ++ open ++ map (nack_block (nack_base p)) parts /\
        (open' <> [] \/ open = [] /\ (length (packed_ p) <= k)%nat))
     (fun ok s' => ok = false /\ max_length < 16).
Proof.
  intros Hmax. revert k s groups open. induction fuel as [|fuel IH]; intros k s groups open Hh Hfuel; [destruct open; lia|].
  cbn [nack_loop]. destruct (Nat.ltb_spec k (length (packed_ p))) as [Hk|Hk].
  2: { wp_steps. split; [lia|]. exists [], groups, open. cbn. rewrite app_nil_r, drop_ge by done.
       split_and!; auto. destruct open; [by right|by left]. }
  pose proof Hh as (Hs & _ & _ & _ & Hol). wp_step. wp_step. rewrite (ho_index _ _ _ _ Hs). cbv zeta.
  set (used := zlen (concat (map block_bytes open))) in *. pose proof (zlen_nonneg (concat (map block_bytes open))) as Hused. fold used in Hused.
  unfold IP_PACKET_SIZE in *. rewrite Z.mod_small by lia. unfold kHeaderLength, kCommonFeedbackLength, kNackItemLength.
  destruct (Z.ltb_spec (max_length - used) (4 + 8 + 4)) as [Hfull|Hfit].
  - wp_step. eapply flush_wp; [exact Hh|lia| |].
    + intros Eo. assert (used = 0) by (unfold used; by rewrite Eo). cbn [negb]. wp_steps. split; [done|lia].
    + intros Hne s1 Hs1. cbn [negb]. eapply wp_mono; [apply (IH k s1 (groups ++ [open]) []); [done|destruct open; [done|cbn in Hfuel |- *; lia]]| |done].
      cbv beta. intros _ s2 (H16 & parts & groups' & open' & Hparts & Hnon & Hs2 & Hcat & Hlast). split; [done|].
      exists parts, groups', open'. split_and!; auto.
      * rewrite Hcat, concat_app. cbn [concat]. by rewrite app_nil_r, <- app_assoc.
      * left. destruct Hlast as [|[_ ?]]; [done|lia].
  - set (num := Z.min _ _). assert (Hnum : 1 <= num <= Z.of_nat (length (packed_ p) - k) /\ 12 + 4 * num <= max_length - used).
    { unfold num. pose proof (Z.div_mod (max_length - used - (4 + 8)) 4 ltac:(lia)).
      pose proof (Z.mod_pos_bound (max_length - used - (4 + 8)) 4 ltac:(lia)). lia. }
    clearbody num. destruct Hnum as [Hnum Hroom].
    set (items := take (Z.to_nat num) (drop k (packed_ p))).
    assert (Hitems : Z.of_nat (length items) = num) by (unfold items; rewrite length_take, length_drop; lia).
    assert (Hdiv : CheckedDivExact (8 + num * 4) 4 = Some (2 + Z.of_nat (length items))).
    { unfold CheckedDivExact. replace (8 + num * 4) with ((2 + Z.of_nat (length items)) * 4) by lia. by rewrite Z.mod_mul, Z.div_mul. }
    wp_step. apply (wp_mem _ _ _ _ _ Hdiv). wp_step.
    eapply (push_wp (fun R => CreateHeader 1 Rtpfb_kPacketType (2 + Z.of_nat (length items)) false ;; CreateCommonFeedback (nack_base p) ;;
      put_all PackedNack_write items) (nack_block (nack_base p) items) max_length);
      [apply nack_block_writes|apply nack_block_wf; unfold IP_PACKET_SIZE; lia|unfold IP_PACKET_SIZE; lia|exact Hh
      |rewrite zlen_block, zlen_nack_block; fold used; lia|].
    intros s1 Hs1. eapply wp_mono; [apply (IH (k + Z.to_nat num)%nat s1 groups (open ++ [nack_block (nack_base p) items]));
      [done|destruct open; cbn [app] in *; lia]| |done].
    cbv beta. intros _ s2 (H16 & parts & groups' & open' & Hparts & Hnon & Hs2 & Hcat & Hlast). split; [lia|].
    exists (items :: parts), groups', open'. split_and!; [|constructor; [intros Ei; rewrite Ei in Hitems; cbn in Hitems; lia|done]|done| |].
    + cbn [concat]. rewrite Hparts, <- drop_drop. apply take_drop.
    + rewrite Hcat. cbn [map]. by rewrite <- app_assoc.
    + left. destruct Hlast as [|[Hnil _]]; [done|by destruct open].
Qed.

Definition Nack_ok (p : Nack) : Prop := feedback_ok (nack_base p) /\ Forall packed_ok (packed_ p) /\ packed_ p <> [].

(** A message needs room for one item in a packet. *)
#[export] Program Instance Nack_Laws : RtcpLaws Nack :=
  { valid := Nack_ok; room := fun _ => 16;
    conveys p bs := exists parts, concat parts = packed_ p /\ Forall (fun items => items <> []) parts /\
      bs = map (nack_block (nack_base p)) parts }.
Next Obligation.
  intros p max_length s groups open (_ & _ & Hne) Hmax Hh. cbn [Create Nack_Packet]. unfold Nack_Create, nack_fuel. wp_step.
  assert (0 <= max_length). { destruct Hh as (_ & _ & _ & _ & Hol). pose proof (zlen_nonneg (concat (map block_bytes open))). lia. }
  eapply wp_mono; [apply (nack_loop_wp _ p max_length 0 s groups open); [done|done|destruct open; lia]| |done].
  cbv beta. intros _ s' (H16 & parts & groups' & open' & Hparts & Hnon & Hs' & Hcat & Hlast). wp_step.
  assert (0 < length (packed_ p))%nat by (destruct (packed_ p); [done|cbn; lia]).
  split; [done|]. split; [by apply H16|]. exists (map (nack_block (nack_base p)) parts), groups', open'.
  split_and!; [by exists parts| |done|done]. destruct Hlast as [|[_ ?]]; [done|lia].
Qed.

(** The message that the receiver makes of a block. *)
Definition nack_part (fb : Feedback) (items : list PackedNack) : Nack := mkNack fb items (flat_map item_ids items).

Lemma PackedNack_read_bytes d item off rest :
  Forall is_u8 d -> packed_ok item -> starts d off (packed_bytes item ++ rest) ->
  PackedNack_read d off = Some item /\ starts d (off + 4) rest.
Proof.
  intros Hu [H1 H2] Hs. unfold packed_bytes in Hs. rewrite <- app_assoc in Hs. unfold PackedNack_read.
  do 2 next_be Hs. split; [by destruct item|done].
Qed.

Lemma Nack_Parse_block fb items :
  feedback_ok fb -> Forall packed_ok items -> items <> [] ->
  Nack_Parse (block_header (nack_block fb items)) = Some (Some (nack_part fb items)).
Proof.
  intros Hb Hi Hne. pose proof (nack_block_u8 fb items) as Hu. pose proof (zlen_nack_block fb items) as Hl.
  pose proof (starts_self (b_body (nack_block fb items))) as Hst. unfold Nack_Parse, block_header. cbn [payload payload_size].
  set (d := b_body (nack_block fb items)) in *. unfold d in Hst at 2. cbn [b_body nack_block] in Hst.
  unfold kCommonFeedbackLength, kNackItemLength. cbv zeta. assert (0 < length items)%nat by (destruct items; [done|cbn; lia]).
  rewrite (proj2 (Z.ltb_ge _ _)) by lia. destruct (ParseCommonFeedback_bytes d _ _ Hu Hb Hst) as [E Hs']. rewrite E.
  cbn [mbind option_bind]. replace (zlen d - 8) with (Z.of_nat (length items) * 4) by lia. rewrite Z.div_mul, Nat2Z.id by done.
  destruct (read_all_bytes (PackedNack_read d) packed_bytes packed_ok 4 d items 8 []) as [Ei _];
    [intros a off rest Ha Hs; by apply PackedNack_read_bytes|done|by rewrite app_nil_r|].
  rewrite Ei. cbn [mbind option_bind]. by rewrite Unpack_ids.
Qed.

Lemma Nack_Parse_safe h :
  header_valid h -> exists r, Nack_Parse h = Some r /\ forall p, r = Some p -> Nack_ok p /\ packet_ids_ p = flat_map item_ids (packed_ p).
Proof.
  intros (Hu & Hl & _). unfold Nack_Parse, kCommonFeedbackLength, kNackItemLength. cbv zeta.
  destruct (Z.ltb_spec (payload_size h) (8 + 4)); [by exists None|].
  destruct (ParseCommonFeedback_Some (payload h) Hu ltac:(lia)) as (fb & -> & Hok). cbn [mbind option_bind].
  pose proof (Z.div_mod (payload_size h - 8) 4 ltac:(lia)). pose proof (Z.mod_pos_bound (payload_size h - 8) 4 ltac:(lia)).
  set (n := (payload_size h - 8) / 4) in *.
  destruct (read_all_Some (PackedNack_read (payload h)) packed_ok (Z.to_nat n) 8 4) as (l & -> & Hn & Hp); [lia| |].
  - intros i Hi1 Hi2. unfold PackedNack_read. do 2 read_be. eexists. split; [reflexivity|]. done.
  - cbn [mbind option_bind]. rewrite Unpack_ids by done. cbn [mbind option_bind]. eexists. split; [reflexivity|].
    intros p [= <-]. split; [|done]. split_and!; [done|done|]. cbn. intros ->. cbn in Hn. lia.
Qed.
