(* ===== verification/RtcpReceive.v ===== *)
(** * RTCP: what arrives

    The choice of the parser for each block of a received packet
    ([RTCPReceiver::ParseCompoundPacket], [rtcp_receiver.cc]) and the theorems about
    sender and receiver together. What the handlers do with a message that was
    parsed is not part of this file; descriptions of sources, extended reports and
    transport feedback are handed on unparsed. *)

From Stdlib Require Import Sorted.
From S2P Require Import Prelude ByteIo Rtcp RtcpFields RtcpReports RtcpFeedback RtcpTmmb RtcpNack.

Open Scope Z_scope.
Open Scope c_scope.

Section Receive.
Context {T : Type} `{NtpTimeLaws T}.

Inductive Packet :=
  | PSender (p : SenderReport T)
  | PReceiver (p : ReceiverReport)
  | PBye (p : Bye)
  | PNack (p : Nack)
  | PTmmbr (p : Tmmbr)
  | PTmmbn (p : Tmmbn)
  | PSrReq (p : RapidResyncRequest)
  | PPli (p : Pli)
  | PFir (p : Fir)
  | PRemb (p : Remb)
  | PLoss (p : LossNotification).

(** A block: parsed, counted in [num_skipped_packets_], or of a kind that is not
    modelled. *)
Inductive Message :=
  | Received (p : Packet)
  | Skipped
  | Elsewhere (h : CommonHeader).

(** [if (!packet.Parse(rtcp_block)) { ++num_skipped_packets_; return; }] *)
Definition parsed {P} (f : P -> Packet) (r : option (option P)) : option Message :=
  p ← r; Some match p with Some p => Received (f p) | None => Skipped end.

Definition HandlePsfbApp (h : CommonHeader) : option Message :=
  remb ← Remb_Parse h;
  match remb with
  | Some remb => Some (Received (PRemb remb))
  | None => parsed PLoss (LossNotification_Parse h)
  end.

(** The [switch] over the type of the block and the format of feedback. *)
Definition receive_block (h : CommonHeader) : option Message :=
  let type := packet_type_ h in
  let fmt := count_or_format_ h in
  if type =? 200 then parsed PSender (SenderReport_Parse h)
  else if type =? 201 then parsed PReceiver (ReceiverReport_Parse h)
  else if type =? 202 then Some (Elsewhere h)
  else if type =? 207 then Some (Elsewhere h)
  else if type =? 203 then parsed PBye (Bye_Parse h)
  else if type =? 205 then
    if fmt =? 1 then parsed PNack (Nack_Parse h)
    else if fmt =? 3 then parsed PTmmbr (Tmmbr_Parse h)
    else if fmt =? 4 then parsed PTmmbn (Tmmbn_Parse h)
    else if fmt =? 5 then parsed PSrReq (RapidResyncRequest_Parse h)
    else if fmt =? 15 then Some (Elsewhere h)
    else Some Skipped
  else if type =? 206 then
    if fmt =? 1 then parsed PPli (Pli_Parse h)
    else if fmt =? 4 then parsed PFir (Fir_Parse h)
    else if fmt =? 15 then HandlePsfbApp h
    else Some Skipped
  else Some Skipped.

Fixpoint receive_blocks (hs : list CommonHeader) : option (list Message) :=
  match hs with
  | [] => Some []
  | h :: hs => m ← receive_block h; ms ← receive_blocks hs; Some (m :: ms)
  end.

Definition receive_packet (packet : list Z) : option (list Message) :=
  '(hs, _) ← ParseCompoundPacket packet;
  receive_blocks hs.

(** ** Every packet is parsed safely *)

Definition packet_valid (p : Packet) : Prop :=
  match p with
  | PSender p => valid p
  | PReceiver p => valid p
  | PBye p => valid p
  | PNack p => valid p
  | PTmmbr p => valid p
  | PTmmbn p => valid p
  | PSrReq p => valid p
  | PPli p => valid p
  | PFir p => valid p
  | PRemb p => valid p
  | PLoss p => valid p
  end.

Definition message_ok (m : Message) : Prop := match m with Received p => packet_valid p | _ => True end.

Lemma parsed_safe {P} (f : P -> Packet) (ok : P -> Prop) r :
  (exists r', r = Some r' /\ forall p, r' = Some p -> ok p) -> (forall p, ok p -> packet_valid (f p)) ->
  exists m, parsed f r = Some m /\ message_ok m.
Proof.
  intros (r' & -> & Hr) Hok. unfold parsed. cbn [mbind option_bind]. eexists. split; [reflexivity|].
  destruct r' as [p|]; [apply Hok; by apply Hr|done].
Qed.

Lemma HandlePsfbApp_safe h : header_valid h -> exists m, HandlePsfbApp h = Some m /\ message_ok m.
Proof.
  intros Hh. unfold HandlePsfbApp. destruct (Remb_Parse_safe h Hh) as (r & -> & Hr). cbn [mbind option_bind].
  destruct r as [p|]; [eexists; split; [reflexivity|by apply Hr]|].
  eapply (parsed_safe PLoss); [by apply LossNotification_Parse_safe|done].
Qed.

Lemma receive_block_safe h : header_valid h -> exists m, receive_block h = Some m /\ message_ok m.
Proof.
  intros Hh. unfold receive_block. cbv zeta.
  repeat match goal with |- context [if ?c =? ?k then _ else _] => destruct (c =? k) end;
    try (eexists; split; [reflexivity|exact I]); try (by apply HandlePsfbApp_safe).
  - eapply (parsed_safe PSender); [by apply SenderReport_Parse_safe|done].
  - eapply (parsed_safe PReceiver); [by apply ReceiverReport_Parse_safe|done].
  - eapply (parsed_safe PBye); [by apply Bye_Parse_safe|done].
  - eapply (parsed_safe PNack); [by apply Nack_Parse_safe|]. by intros p [Hp _].
  - eapply (parsed_safe PTmmbr); [by apply Tmmbr_Parse_safe|done].
  - eapply (parsed_safe PTmmbn); [by apply Tmmbn_Parse_safe|done].
  - eapply (parsed_safe PSrReq); [by apply RapidResyncRequest_Parse_safe|done].
  - eapply (parsed_safe PPli); [by apply Pli_Parse_safe|done].
  - eapply (parsed_safe PFir); [by apply Fir_Parse_safe|done].
Qed.

Lemma receive_blocks_safe hs :
  Forall header_valid hs -> exists ms, receive_blocks hs = Some ms /\ Forall message_ok ms /\ length ms = length hs.
Proof.
  induction 1 as [|h hs Hh _ IH]; cbn [receive_blocks]; [by exists []|].
  destruct (receive_block_safe h Hh) as (m & -> & Hm). destruct IH as (ms & -> & Hms & Hl). cbn [mbind option_bind].
  exists (m :: ms). split_and!; [done|by constructor|cbn; lia].
Qed.

(** C20. Receiving is safe for any bytes: the loop over the blocks ends, no parser
    reads outside of its payload, every block leads to one outcome, and each message
    that is accepted obeys the limits of its fields, so that it could be sent again. *)
Theorem receive_safe packet :
  Forall is_u8 packet ->
  exists hs ok ms, ParseCompoundPacket packet = Some (hs, ok) /\ receive_packet packet = Some ms /\
    length ms = length hs /\ forall p, Received p ∈ ms -> packet_valid p.
Proof.
  intros Hu. destruct (ParseCompoundPacket_safe packet Hu) as (hs & ok & E & Hhs).
  destruct (receive_blocks_safe hs Hhs) as (ms & Ems & Hms & Hl). exists hs, ok, ms. unfold receive_packet. rewrite E.
  split_and!; [done|done|done|]. intros p Hp. by apply (proj1 (list.Forall_forall _ _) Hms) in Hp.
Qed.

(** ** Sender and receiver *)

Definition packet_member (p : Packet) : Member :=
  match p with
  | PSender p => Mem p
  | PReceiver p => Mem p
  | PBye p => Mem p
  | PNack p => Mem p
  | PTmmbr p => Mem p
  | PTmmbn p => Mem p
  | PSrReq p => Mem p
  | PPli p => Mem p
  | PFir p => Mem p
  | PRemb p => Mem p
  | PLoss p => Mem p
  end.

Definition packet_any (p : Packet) : AnyPacket := member_any (packet_member p).
Definition packet_room (p : Packet) : Z := member_room (packet_member p).

(** What arrives of a message: bit rates as they can be conveyed, a negative
    acknowledgement in parts, anything else unchanged. *)
Definition arrives (p : Packet) (l : list Packet) : Prop :=
  match p with
  | PNack n => exists parts, concat parts = packed_ n /\ l = map (fun items => PNack (nack_part (nack_base n) items)) parts
  | PRemb p => l = [PRemb (Remb_conveyed p)]
  | PTmmbr p => l = [PTmmbr (Tmmbr_conveyed p)]
  | PTmmbn p => l = [PTmmbn (Tmmbn_conveyed p)]
  | _ => l = [p]
  end.

Lemma receive_blocks_app hs hs' ms ms' :
  receive_blocks hs = Some ms -> receive_blocks hs' = Some ms' -> receive_blocks (hs ++ hs') = Some (ms ++ ms').
Proof.
  intros H1 H2. revert ms H1. induction hs as [|h hs IH]; cbn [receive_blocks app]; intros ms H1; [by injection H1 as <-|].
  destruct (receive_block h) as [m|]; [|done]. cbn [mbind option_bind] in *. destruct (receive_blocks hs) as [ms1|]; [|done].
  injection H1 as <-. by rewrite (IH ms1 eq_refl).
Qed.

(** One block that is received as a message. *)
Lemma one_arrives p p' b : receive_block (block_header b) = Some (Received p') -> arrives p [p'] ->
  exists l, arrives p l /\ receive_blocks (map block_header [b]) = Some (map Received l).
Proof. intros E Ha. exists [p']. split; [done|]. cbn [map receive_blocks]. by rewrite E. Qed.

Lemma nack_arrives fb parts :
  feedback_ok fb -> Forall packed_ok (concat parts) -> Forall (fun items => items <> []) parts ->
  receive_blocks (map block_header (map (nack_block fb) parts)) =
    Some (map Received (map (fun items => PNack (nack_part fb items)) parts)).
Proof.
  intros Hb Hok Hnon. induction Hnon as [|items parts Hi _ IH]; cbn [map concat receive_blocks] in *; [done|].
  apply list.Forall_app in Hok as [Hok1 Hok2].
  change (receive_block (block_header (nack_block fb items))) with (parsed PNack (Nack_Parse (block_header (nack_block fb items)))).
  rewrite Nack_Parse_block by done. cbn [parsed mbind option_bind]. by rewrite IH.
Qed.

Lemma member_arrives p bs :
  packet_valid p -> member_conveys (packet_member p) bs ->
  exists l, arrives p l /\ receive_blocks (map block_header bs) = Some (map Received l).
Proof.
  destruct p as [p|p|p|p|p|p|p|p|p|p|p]; cbn [packet_valid packet_member member_conveys conveys]; intros Hok Hc.
  4: { destruct Hc as (parts & Hcat & Hnon & ->). destruct Hok as (Hb & Hp & _). eexists. split; [by exists parts|].
       apply nack_arrives; [done|by rewrite Hcat|done]. }
  all: rewrite Hc; clear Hc bs; (eapply one_arrives; [|reflexivity]).
  - change (parsed PSender (SenderReport_Parse (block_header (SenderReport_block p))) = Some (Received (PSender p))).
    by rewrite SenderReport_Parse_block.
  - change (parsed PReceiver (ReceiverReport_Parse (block_header (ReceiverReport_block p))) = Some (Received (PReceiver p))).
    by rewrite ReceiverReport_Parse_block.
  - change (parsed PBye (Bye_Parse (block_header (Bye_block p))) = Some (Received (PBye p))). by rewrite Bye_Parse_block.
  - change (parsed PTmmbr (Tmmbr_Parse (block_header (mkBlock 3 205 (items_bytes (tmmbr_base p) (tmmbr_items_ p))))) =
      Some (Received (PTmmbr (Tmmbr_conveyed p)))). by rewrite Tmmbr_Parse_block.
  - change (parsed PTmmbn (Tmmbn_Parse (block_header (mkBlock 4 205 (items_bytes (tmmbn_base p) (tmmbn_items_ p))))) =
      Some (Received (PTmmbn (Tmmbn_conveyed p)))). by rewrite Tmmbn_Parse_block.
  - change (parsed PSrReq (RapidResyncRequest_Parse (block_header (mkBlock 5 205 (feedback_bytes (rrr_base p))))) =
      Some (Received (PSrReq p))). by rewrite RapidResyncRequest_Parse_block.
  - change (parsed PPli (Pli_Parse (block_header (mkBlock 1 206 (feedback_bytes (pli_base p))))) = Some (Received (PPli p))).
    by rewrite Pli_Parse_block.
  - change (parsed PFir (Fir_Parse (block_header (Fir_block p))) = Some (Received (PFir p))). by rewrite Fir_Parse_block.
  - change (HandlePsfbApp (block_header (mkBlock 15 206 (Remb_bytes p))) = Some (Received (PRemb (Remb_conveyed p)))).
    unfold HandlePsfbApp. by rewrite Remb_Parse_block.
  - change (HandlePsfbApp (block_header (mkBlock 15 206 (Loss_bytes p))) = Some (Received (PLoss p))).
    unfold HandlePsfbApp. rewrite Remb_refuses_Loss by done. cbn [mbind option_bind]. by rewrite LossNotification_Parse_block.
Qed.

Lemma members_arrive ps bss :
  Forall packet_valid ps -> Forall2 member_conveys (map packet_member ps) bss ->
  exists ls, Forall2 arrives ps ls /\ receive_blocks (map block_header (concat bss)) = Some (map Received (concat ls)).
Proof.
  intros Hps. revert bss. induction Hps as [|p ps Hp _ IH]; intros bss Hc; cbn [map] in Hc.
  - apply Forall2_nil_inv_l in Hc as ->. by exists [].
  - apply Forall2_cons_inv_l in Hc as (bs & bss' & Hb & Hbs & ->). destruct (member_arrives p bs Hp Hb) as (l & Hl & El).
    destruct (IH bss' Hbs) as (ls & Hls & Els). exists (l :: ls). split; [by constructor|]. cbn [concat].
    rewrite !map_app. by apply receive_blocks_app.
Qed.

(** The messages of all packets, in the order in which they were sent. *)
Fixpoint receive_all (packets : list (list Z)) : option (list Message) :=
  match packets with
  | [] => Some []
  | p :: packets => ms ← receive_packet p; rest ← receive_all packets; Some (ms ++ rest)
  end.

Lemma receive_all_blocks packets hss ms :
  Forall2 (fun p hs => ParseCompoundPacket p = Some (hs, true)) packets hss ->
  receive_blocks (concat hss) = Some ms -> receive_all packets = Some ms.
Proof.
  intros Hp. revert ms. induction Hp as [|p hs packets hss E _ IH]; intros ms Hms; cbn [concat receive_all] in *; [done|].
  unfold receive_packet. rewrite E. cbn [mbind option_bind].
  assert (Hsplit : exists m1 m2, receive_blocks hs = Some m1 /\ receive_blocks (concat hss) = Some m2 /\ ms = m1 ++ m2).
  { clear -Hms. revert ms Hms. induction hs as [|h hs IH]; intros ms Hms; [by exists [], ms|]. cbn [app receive_blocks] in *.
    destruct (receive_block h) as [m|]; [|done]. cbn [mbind option_bind] in *.
    destruct (receive_blocks (hs ++ concat hss)) as [ms1|]; [|done]. injection Hms as <-.
    destruct (IH ms1 eq_refl) as (m1 & m2 & -> & E2 & ->). by exists (m :: m1), m2. }
  destruct Hsplit as (m1 & m2 & -> & E2 & ->). cbn [mbind option_bind]. by rewrite (IH m2 E2).
Qed.

Lemma map_packet_any ps : map packet_any ps = map member_any (map packet_member ps).
Proof. by rewrite map_map. Qed.

Lemma transport buffer ps max_length :
  zlen buffer = IP_PACKET_SIZE -> 0 <= max_length <= IP_PACKET_SIZE -> ps <> [] -> Forall packet_valid ps ->
  exists ok packets, Build buffer (map packet_any ps) max_length = Some (ok, packets) /\
    ok = forallb (fun p => packet_room p <=? max_length) ps /\
    (ok = true -> Forall (fun p => 0 < zlen p <= max_length) packets /\
       exists ls, Forall2 arrives ps ls /\ receive_all packets = Some (map Received (concat ls))).
Proof.
  intros Hbuf Hmax Hne Hps. rewrite map_packet_any.
  destruct (compound_transport buffer (map packet_member ps) max_length Hbuf Hmax) as (ok & packets & E & Hok & Hrest).
  - by destruct ps.
  - apply Forall_fmap. eapply list.Forall_impl; [exact Hps|]. by intros [].
  - exists ok, packets. split; [exact E|]. split.
    { rewrite Hok. clear. induction ps as [|p ps IH]; cbn [map forallb]; [done|]. by rewrite IH. }
    intros Htrue. destruct (Hrest Htrue) as (bss & hss & Hc & Hsz & Hrec & Hcat). split; [done|].
    destruct (members_arrive ps bss Hps Hc) as (ls & Hls & Els). exists ls. split; [done|].
    eapply receive_all_blocks; [exact Hrec|]. by rewrite Hcat.
Qed.

(** C8. Messages arrive: building a compound packet of messages within the limits
    of their fields succeeds exactly when each of them has the room it needs in a
    packet. Every packet that is sent then has at most [max_length] bytes, and the
    receiver accepts all blocks of all packets and gets the messages complete, in
    their order and with the values that were sent: bit rates as far as mantissa and
    exponent convey them, negative acknowledgements in one part or more. *)
Theorem rtcp_transport buffer ps max_length :
  zlen buffer = IP_PACKET_SIZE -> 0 <= max_length <= IP_PACKET_SIZE -> ps <> [] -> Forall packet_valid ps ->
  exists ok packets, Build buffer (map packet_any ps) max_length = Some (ok, packets) /\
    ok = forallb (fun p => packet_room p <=? max_length) ps /\
    (ok = true -> Forall (fun p => 0 < zlen p <= max_length) packets /\
       exists ls, Forall2 arrives ps ls /\ receive_all packets = Some (map Received (concat ls))).
Proof. apply transport. Qed.

(** C15. Requests for lost packets arrive: the numbers given to [SetPacketIds] are
    packed, sent in as many blocks and packets as they need, and the receiver gets
    exactly the numbers that were asked for, each of its messages with the sources
    of the original; when the numbers ascend (in the order of 16 bit sequence
    numbers, the wrap included) it gets them in their order. *)
Theorem nack_transport buffer fb ids max_length :
  zlen buffer = IP_PACKET_SIZE -> 16 <= max_length <= IP_PACKET_SIZE -> feedback_ok fb -> ids <> [] -> Forall is_u16 ids ->
  exists n packets nacks, SetPacketIds (mkNack fb [] []) ids = Some n /\
    Build buffer [packet_any (PNack n)] max_length = Some (true, packets) /\
    Forall (fun p => 0 < zlen p <= max_length) packets /\
    receive_all packets = Some (map (fun n => Received (PNack n)) nacks) /\
    Forall (fun n => nack_base n = fb) nacks /\
    (forall x, x ∈ flat_map packet_ids_ nacks <-> x ∈ ids) /\
    (Sorted newer ids -> flat_map packet_ids_ nacks = ids).
Proof.
  intros Hbuf Hmax Hfb Hne Hids. destruct (Pack_ids ids Hids) as (packed & Ep & Hok & Hset & Hasc & Hnon).
  unfold SetPacketIds. rewrite Ep. cbn [mbind option_bind nack_base packed_ app].
  destruct (transport buffer [PNack (mkNack fb packed ids)] max_length Hbuf ltac:(lia)) as (ok & packets & E & Eok & Hrest);
    [done|apply list.Forall_singleton; split; [done|]; split; [done|by apply Hnon]|].
  assert (ok = true) as ->. { rewrite Eok. cbn. rewrite andb_true_r. apply Z.leb_le. lia. }
  destruct (Hrest eq_refl) as (Hsz & ls & Hls & Hrec).
  apply Forall2_cons_inv_l in Hls as (l & ls' & (parts & Hcat & ->) & ->%Forall2_nil_inv_l & ->). cbn [packed_ nack_base concat] in *.
  rewrite app_nil_r, map_map in Hrec.
  assert (Hflat : flat_map packet_ids_ (map (nack_part fb) parts) = flat_map item_ids packed).
  { rewrite <- Hcat. clear. induction parts as [|items parts IH]; cbn [map flat_map concat]; [done|]. by rewrite IH, flat_map_app. }
  exists (mkNack fb packed ids), packets, (map (nack_part fb) parts).
  split_and!; [done|exact E|done|by rewrite map_map|by apply Forall_fmap, list.Forall_forall| |].
  - intros x. rewrite Hflat, !list_elem_of_In. apply Hset.
  - rewrite Hflat. exact Hasc.
Qed.

(** The estimate of the receiver arrives rounded down, never up: the message
    that is sent arrives in one packet as one message with the same sources and a
    bit rate that is at most the original, short of it by at most a part in
    [2 ^ 17], and equal to it below [2 ^ 18] bits per second. *)
Theorem remb_rate buffer p max_length :
  zlen buffer = IP_PACKET_SIZE -> Remb_BlockLength p <= max_length <= IP_PACKET_SIZE -> Remb_ok p ->
  exists packets q, Build buffer [packet_any (PRemb p)] max_length = Some (true, packets) /\
    receive_all packets = Some [Received (PRemb q)] /\ remb_base q = remb_base p /\ ssrcs_ q = ssrcs_ p /\
    0 <= remb_bitrate_bps_ q <= remb_bitrate_bps_ p /\
    (remb_bitrate_bps_ p - remb_bitrate_bps_ q) * 2 ^ 17 <= remb_bitrate_bps_ p /\
    (remb_bitrate_bps_ p < 2 ^ 18 -> remb_bitrate_bps_ q = remb_bitrate_bps_ p).
Proof.
  intros Hbuf Hmax Hp. assert (0 <= Remb_BlockLength p) by (unfold Remb_BlockLength, kHeaderLength, kCommonFeedbackLength; lia).
  destruct (transport buffer [PRemb p] max_length Hbuf ltac:(lia)) as (ok & packets & E & Eok & Hrest);
    [done|by apply list.Forall_singleton|].
  assert (ok = true) as ->. { rewrite Eok. cbn [forallb]. rewrite andb_true_r. apply Z.leb_le, Hmax. }
  destruct (Hrest eq_refl) as (_ & ls & Hls & Hrec). apply Forall2_cons_inv_l in Hls as (l & ls' & -> & ->%Forall2_nil_inv_l & ->).
  exists packets, (Remb_conveyed p). destruct Hp as (_ & Hr & _).
  destruct (conveyed_rate_bounds 18 _ ltac:(lia) Hr) as (Hb1 & Hb2 & Hb3 & Hb4). unfold Remb_conveyed in *.
  cbn [remb_base ssrcs_ remb_bitrate_bps_]. split_and!; auto.
Qed.

End Receive.

(** ** An instance *)

#[export] Instance pair_NtpTime : NtpTime (Z * Z) :=
  { NtpTime_init := (0, 0); NtpTime_Set _ s f := (s, f); NtpTime_seconds := fst; NtpTime_fractions := snd }.
#[export] Program Instance pair_NtpTimeLaws : NtpTimeLaws (Z * Z).
Next Obligation. done. Qed.
Next Obligation. done. Qed.
Next Obligation. intros [] [] E1 E2. cbn in *. congruence. Qed.

Definition example_buffer : list Z := replicate 1500 0.
Definition example_report : ReportBlock := mkReport 7 3 (-1) 9 11 13 17.
Definition example_packets : list (@Packet (Z * Z)) :=
  [PSender (mkSenderReport 1 (5, 6) 7 8 9 [example_report]); PRemb (mkRemb (mkFeedback 1 0) 1000001 [4]);
   PNack (mkNack (mkFeedback 1 2) [mkPacked 65535 1; mkPacked 40 0] [65535; 0; 40])].

Lemma example_packets_ok : Forall packet_valid example_packets.
Proof. repeat (constructor || done || (split; [done|])). Qed.

Lemma example_buffer_size : zlen example_buffer = IP_PACKET_SIZE.
Proof. apply zlen_replicate. Qed.

Lemma rtcp_transport_witness :
  exists ok packets, Build example_buffer (map packet_any example_packets) 100 = Some (ok, packets) /\
    ok = forallb (fun p => packet_room p <=? 100) example_packets /\
    (ok = true -> Forall (fun p => 0 < zlen p <= 100) packets /\
       exists ls, Forall2 arrives example_packets ls /\ receive_all packets = Some (map Received (concat ls))).
Proof.
  apply (rtcp_transport example_buffer example_packets 100);
    [exact example_buffer_size|unfold IP_PACKET_SIZE; lia|discriminate|exact example_packets_ok].
Defined.

Lemma nack_transport_witness :
  exists n packets nacks, SetPacketIds (mkNack (mkFeedback 1 2) [] []) [65535; 0; 40] = Some n /\
    Build example_buffer [packet_any (T := Z * Z) (PNack n)] 16 = Some (true, packets) /\
    Forall (fun p => 0 < zlen p <= 16) packets /\
    receive_all (T := Z * Z) packets = Some (map (fun n => Received (PNack n)) nacks) /\
    Forall (fun n => nack_base n = mkFeedback 1 2) nacks /\
    (forall x, x ∈ flat_map packet_ids_ nacks <-> x ∈ [65535; 0; 40]) /\
    (Sorted newer [65535; 0; 40] -> flat_map packet_ids_ nacks = [65535; 0; 40]).
Proof.
  apply (nack_transport (T := Z * Z) example_buffer (mkFeedback 1 2) [65535; 0; 40] 16);
    [exact example_buffer_size|unfold IP_PACKET_SIZE; lia|split; done|discriminate|repeat constructor; done].
Defined.

Lemma receive_safe_witness :
  exists hs ok ms, ParseCompoundPacket [0x80; 201; 0; 1; 0; 0; 0; 1; 7] = Some (hs, ok) /\
    receive_packet (T := Z * Z) [0x80; 201; 0; 1; 0; 0; 0; 1; 7] = Some ms /\
    length ms = length hs /\ forall p, Received p ∈ ms -> packet_valid p.
Proof. apply (receive_safe (T := Z * Z)). repeat constructor; done. Defined.

Lemma remb_rate_witness :
  exists packets q, Build example_buffer [packet_any (T := Z * Z) (PRemb (mkRemb (mkFeedback 1 0) 1000001 [4]))] 100 = Some (true, packets) /\
    receive_all (T := Z * Z) packets = Some [Received (PRemb q)] /\ remb_base q = mkFeedback 1 0 /\ ssrcs_ q = [4] /\
    0 <= remb_bitrate_bps_ q <= 1000001 /\ (1000001 - remb_bitrate_bps_ q) * 2 ^ 17 <= 1000001 /\
    (1000001 < 2 ^ 18 -> remb_bitrate_bps_ q = 1000001).
Proof.
  apply (remb_rate (T := Z * Z) example_buffer (mkRemb (mkFeedback 1 0) 1000001 [4]) 100);
    [exact example_buffer_size|split; [discriminate|unfold IP_PACKET_SIZE; lia]|].
  unfold Remb_ok. cbn. split; [split; done|]. split; [done|]. split; [repeat constructor; done|done].
Defined.
