(* ===== verification/TransportChunk.v ===== *)
(** * Transport feedback: chunks of packet status

    [TransportFeedback::LastChunk] of [rtcp_packet/transport_feedback.cc] under
    [modules/rtp_rtcp/source]: the sizes (0, 1 or 2 bytes) of the receive times of
    consecutive packets, collected until they no longer fit one chunk of 16 bits,
    which is a run of equal sizes, 14 of one bit or 7 of two bits. [None] is an
    access outside of the array of the chunk. *)

From S2P Require Import Prelude ByteIo.

Open Scope Z_scope.
Open Scope c_scope.

Record LastChunk := mkChunk {
  delta_sizes_ : list Z;
  size_ : Z;
  all_same_ : bool;
  has_large_delta_ : bool;
}.

#[export] Instance eta_LastChunk : Eta LastChunk :=
  fun c => mkChunk (delta_sizes_ c) (size_ c) (all_same_ c) (has_large_delta_ c).

Definition kMaxRunLengthCapacity : Z := 0x1fff.
Definition kMaxOneBitCapacity : Z := 14.
Definition kMaxTwoBitCapacity : Z := 7.
Definition kMaxVectorCapacity : Z := kMaxOneBitCapacity.
Definition kLarge : Z := 2.

Definition chunk_Empty (c : LastChunk) : bool := size_ c =? 0.

Definition chunk_Clear (c : LastChunk) : LastChunk :=
  c <| size_ := 0 |> <| all_same_ := true |> <| has_large_delta_ := false |>.

Definition CanAdd (c : LastChunk) (delta_size : Z) : option bool :=
  if size_ c <? kMaxTwoBitCapacity then Some true
  else if (size_ c <? kMaxOneBitCapacity) && negb (has_large_delta_ c) && negb (delta_size =? kLarge) then Some true
  else if (size_ c <? kMaxRunLengthCapacity) && all_same_ c then
    d0 ← zget (delta_sizes_ c) 0;
    Some (d0 =? delta_size)
  else Some false.

(** [all_same_ && delta_size == delta_sizes_[0]] *)
Definition still_same (same : bool) (arr : list Z) (delta_size : Z) : option bool :=
  if same then d0 ← zget arr 0; Some (delta_size =? d0) else Some false.

Definition chunk_Add (c : LastChunk) (delta_size : Z) : option LastChunk :=
  arr ← (if size_ c <? kMaxVectorCapacity then zput (delta_sizes_ c) (size_ c) delta_size else Some (delta_sizes_ c));
  same ← still_same (all_same_ c) arr delta_size;
  Some (mkChunk arr (size_ c + 1) same (has_large_delta_ c || (delta_size =? kLarge))).

(** The loops of [EncodeOneBit] and [EncodeTwoBit]: symbols of [bits] bits, of
    which a chunk holds [cap], the first one in the highest place. *)
Fixpoint encode_symbols (bits cap : Z) (arr : list Z) (n : nat) (i chunk : Z) : option Z :=
  match n with
  | O => Some chunk
  | S n =>
      d ← zget arr i;
      encode_symbols bits cap arr n (i + 1) (u16 (Z.lor chunk (Z.shiftl d (bits * (cap - 1 - i)))))
  end.

Definition EncodeOneBit (c : LastChunk) : option Z :=
  encode_symbols 1 kMaxOneBitCapacity (delta_sizes_ c) (Z.to_nat (size_ c)) 0 0x8000.

Definition EncodeTwoBit (c : LastChunk) (size : Z) : option Z :=
  encode_symbols 2 kMaxTwoBitCapacity (delta_sizes_ c) (Z.to_nat size) 0 0xc000.

Definition EncodeRunLength (c : LastChunk) : option Z :=
  d0 ← zget (delta_sizes_ c) 0;
  Some (u16 (Z.lor (Z.shiftl d0 13) (u16 (size_ c)))).

(** The loop of [Emit] that moves what is left to the front. *)
Fixpoint shift_down (n : nat) (i : Z) (c : LastChunk) : option LastChunk :=
  match n with
  | O => Some c
  | S n =>
      delta_size ← zget (delta_sizes_ c) (kMaxTwoBitCapacity + i);
      arr ← zput (delta_sizes_ c) i delta_size;
      same ← still_same (all_same_ c) arr delta_size;
      shift_down n (i + 1) (mkChunk arr (size_ c) same (has_large_delta_ c || (delta_size =? kLarge)))
  end.

Definition Emit (c : LastChunk) : option (Z * LastChunk) :=
  if all_same_ c then
    chunk ← EncodeRunLength c; Some (chunk, chunk_Clear c)
  else if size_ c =? kMaxOneBitCapacity then
    chunk ← EncodeOneBit c; Some (chunk, chunk_Clear c)
  else
    chunk ← EncodeTwoBit c kMaxTwoBitCapacity;
    let c := c <| size_ := size_ c - kMaxTwoBitCapacity |> <| all_same_ := true |> <| has_large_delta_ := false |> in
    c ← shift_down (Z.to_nat (size_ c)) 0 c;
    Some (chunk, c).

Definition EncodeLast (c : LastChunk) : option Z :=
  if all_same_ c then EncodeRunLength c
  else if size_ c <=? kMaxTwoBitCapacity then EncodeTwoBit c (size_ c)
  else EncodeOneBit c.

(** [deltas->insert(deltas->end(), ...)]: what is appended *)
Definition AppendTo (c : LastChunk) : option (list Z) :=
  if all_same_ c then
    if size_ c =? 0 then Some []
    else d0 ← zget (delta_sizes_ c) 0; Some (replicate (Z.to_nat (size_ c)) d0)
  else read_bytes (delta_sizes_ c) 0 (size_ c).

(** [for (i = 0; i < n; ++i) delta_sizes_[i] = f(i);] *)
Fixpoint store_each (f : Z -> Z) (n : nat) (i : Z) (arr : list Z) : option (list Z) :=
  match n with
  | O => Some arr
  | S n => arr ← zput arr i (f i); store_each f n (i + 1) arr
  end.

Definition DecodeOneBit (c : LastChunk) (chunk max_size : Z) : option LastChunk :=
  let size := Z.min kMaxOneBitCapacity max_size in
  arr ← store_each (fun i => Z.land (Z.shiftr chunk (kMaxOneBitCapacity - 1 - i)) 0x01) (Z.to_nat size) 0 (delta_sizes_ c);
  Some (mkChunk arr size false false).

Definition DecodeTwoBit (c : LastChunk) (chunk max_size : Z) : option LastChunk :=
  let size := Z.min kMaxTwoBitCapacity max_size in
  arr ← store_each (fun i => Z.land (Z.shiftr chunk (2 * (kMaxTwoBitCapacity - 1 - i))) 0x03) (Z.to_nat size) 0 (delta_sizes_ c);
  Some (mkChunk arr size false true).

Definition DecodeRunLength (c : LastChunk) (chunk max_count : Z) : option LastChunk :=
  let size := Z.min (Z.land chunk 0x1fff) max_count in
  let delta_size := Z.land (Z.shiftr chunk 13) 0x03 in
  arr ← store_each (fun _ => delta_size) (Z.to_nat (Z.min size kMaxVectorCapacity)) 0 (delta_sizes_ c);
  Some (mkChunk arr size true (kLarge <=? delta_size)).

Definition chunk_Decode (c : LastChunk) (chunk max_size : Z) : option LastChunk :=
  if Z.land chunk 0x8000 =? 0 then DecodeRunLength c chunk max_size
  else if Z.land chunk 0x4000 =? 0 then DecodeOneBit c chunk max_size
  else DecodeTwoBit c chunk max_size.

(** ** Fields of a chunk *)

Definition bit_field (bits k w : Z) : Z := Z.land (Z.shiftr w (bits * k)) (Z.ones bits).

Lemma field_lor bits k a b : bit_field bits k (Z.lor a b) = Z.lor (bit_field bits k a) (bit_field bits k b).
Proof. unfold bit_field. by rewrite Z.shiftr_lor, Z.land_lor_distr_l. Qed.

Lemma field_range bits k w : 0 <= bits -> 0 <= bit_field bits k w < 2 ^ bits.
Proof. intros Hb. unfold bit_field. rewrite Z.land_ones by done. apply Z.mod_pos_bound. by apply Z.pow_pos_nonneg. Qed.

Lemma field_shiftl bits k j d :
  0 < bits -> 0 <= k -> 0 <= j -> 0 <= d < 2 ^ bits -> bit_field bits k (Z.shiftl d (bits * j)) = if k =? j then d else 0.
Proof.
  intros Hb Hk Hj Hd. unfold bit_field. rewrite Z.shiftr_shiftl_l by nia. destruct (Z.eqb_spec k j) as [->|Hne].
  - rewrite Z.sub_diag, Z.shiftl_0_r, Z.land_ones by lia. by apply Z.mod_small.
  - apply Z.bits_inj'. intros n Hn. rewrite Z.land_spec, Z.bits_0, Z.testbit_ones_nonneg by lia.
    destruct (Z.ltb_spec n bits); [|apply andb_false_r]. rewrite andb_true_r. rewrite Z.shiftl_spec by done.
    destruct (Z.lt_ge_cases k j); [apply Z.testbit_neg_r; nia|].
    rewrite <- (Z.mod_small d (2 ^ bits)) by done. apply Z.mod_pow2_bits_high. nia.
Qed.

Lemma field_u16 bits k w : 0 < bits -> 0 <= k -> bits * (k + 1) <= 16 -> bit_field bits k (u16 w) = bit_field bits k w.
Proof.
  intros Hb Hk H16. unfold bit_field, u16. rewrite !Z.land_ones, !shiftr_div by nia. set (s := bits * k) in *.
  assert (0 <= s) by nia. apply Z.bits_inj'. intros n Hn. destruct (Z.lt_ge_cases n bits) as [Hl|Hl].
  - rewrite !Z.mod_pow2_bits_low by done. rewrite !Z.div_pow2_bits by lia. rewrite Z.mod_pow2_bits_low by nia. done.
  - by rewrite !Z.mod_pow2_bits_high by lia.
Qed.

(** ** What a chunk stands for *)

Definition vector (bits cap w : Z) : list Z := map (fun i => bit_field bits (cap - 1 - i) w) (seqZ 0 cap).

(** The sizes that a chunk of a packet stands for. *)
Definition chunk_symbols (w : Z) : list Z :=
  if Z.land w 0x8000 =? 0 then replicate (Z.to_nat (Z.land w 0x1fff)) (Z.land (Z.shiftr w 13) 0x03)
  else if Z.land w 0x4000 =? 0 then vector 1 14 w
  else vector 2 7 w.

Lemma store_each_get f n i arr :
  0 <= i -> i + Z.of_nat n <= zlen arr ->
  exists arr', store_each f n i arr = Some arr' /\ zlen arr' = zlen arr /\
    forall j, zget arr' j = if (i <=? j) && (j <? i + Z.of_nat n) then Some (f j) else zget arr j.
Proof.
  revert i arr. induction n as [|n IH]; intros i arr Hi Hn; cbn [store_each].
  - exists arr. split_and!; [done|done|]. intros j. destruct (Z.leb_spec i j), (Z.ltb_spec j (i + Z.of_nat 0)); cbn [andb]; done || lia.
  - destruct (zput_Some arr i (f i)) as (arr1 & E1 & Hl1); [lia|]. rewrite E1. cbn [mbind option_bind].
    destruct (IH (i + 1) arr1) as (arr2 & E2 & Hl2 & Hg); [lia|lia|]. exists arr2. split_and!; [done|lia|]. intros j.
    rewrite Hg, (zget_zput arr i (f i) arr1 j E1).
    destruct (Z.leb_spec (i + 1) j), (Z.ltb_spec j (i + 1 + Z.of_nat n)), (Z.leb_spec i j), (Z.ltb_spec j (i + Z.of_nat (S n))), (Z.eqb_spec j i);
      cbn [andb]; try lia; subst; done.
Qed.

Lemma get_replicate n v i : zget (replicate n v) i = if (0 <=? i) && (i <? Z.of_nat n) then Some v else None.
Proof.
  unfold zget. destruct (Z.ltb_spec i 0); [by rewrite (proj2 (Z.leb_gt _ _)) by lia|]. rewrite (proj2 (Z.leb_le _ _)) by lia. cbn [andb].
  destruct (Z.ltb_spec i (Z.of_nat n)); [apply lookup_replicate_2; lia|apply lookup_replicate_None; lia].
Qed.

Lemma zget_vector bits cap w i : 0 <= cap -> zget (vector bits cap w) i = if (0 <=? i) && (i <? cap) then Some (bit_field bits (cap - 1 - i) w) else None.
Proof.
  intros Hc. unfold zget, vector. destruct (Z.ltb_spec i 0); [by rewrite (proj2 (Z.leb_gt _ _)) by lia|].
  rewrite (proj2 (Z.leb_le _ _)) by lia. cbn [andb]. rewrite (list_lookup_fmap (fun i => bit_field bits (cap - 1 - i) w)).
  destruct (Z.ltb_spec i cap).
  - rewrite (lookup_seqZ_lt 0 cap (Z.to_nat i)) by lia. cbn. do 3 f_equal. lia.
  - by rewrite lookup_seqZ_ge by lia.
Qed.

Lemma zlen_vector bits cap w : 0 <= cap -> zlen (vector bits cap w) = cap.
Proof. intros Hc. unfold zlen, vector. rewrite length_map, length_seqZ. lia. Qed.

(** Decoding appends the sizes of the chunk, up to the number that is asked for. *)
Lemma chunk_Decode_symbols c w m :
  zlen (delta_sizes_ c) = 14 -> 0 <= m -> 0 <= w ->
  exists c', chunk_Decode c w m = Some c' /\ zlen (delta_sizes_ c') = 14 /\
    size_ c' = Z.min m (zlen (chunk_symbols w)) /\ AppendTo c' = Some (take (Z.to_nat m) (chunk_symbols w)).
Proof.
  intros Hl Hm Hw. unfold chunk_Decode, chunk_symbols.
  assert (Hvec : forall bits cap large f, 0 < bits -> 0 <= cap <= 14 ->
    (forall i, 0 <= i < cap -> f i = bit_field bits (cap - 1 - i) w) ->
    exists c', (arr ← store_each f (Z.to_nat (Z.min cap m)) 0 (delta_sizes_ c); Some (mkChunk arr (Z.min cap m) false large)) = Some c' /\
      zlen (delta_sizes_ c') = 14 /\ size_ c' = Z.min m (zlen (vector bits cap w)) /\
      AppendTo c' = Some (take (Z.to_nat m) (vector bits cap w))).
  { intros bits cap large f Hb Hc Hf. destruct (store_each_get f (Z.to_nat (Z.min cap m)) 0 (delta_sizes_ c)) as (arr & -> & Hla & Hg); [lia|lia|].
    cbn [mbind option_bind]. eexists. split; [reflexivity|]. rewrite zlen_vector by lia. cbn [delta_sizes_ size_]. split_and!; [lia|lia|].
    unfold AppendTo. cbn [all_same_ size_ delta_sizes_]. apply read_bytes_spec. split_and!; [lia| |lia|].
    - unfold zlen. rewrite length_take. pose proof (zlen_vector bits cap w ltac:(lia)) as Hz. unfold zlen in Hz. lia.
    - intros i Hi. rewrite zget_take by lia. rewrite zget_vector, Z.add_0_l, Hg by lia.
      rewrite !(proj2 (Z.leb_le _ _)), !(proj2 (Z.ltb_lt _ _)) by lia. cbn [andb]. rewrite Hf by lia. done. }
  destruct (Z.land w 0x8000 =? 0); [|destruct (Z.land w 0x4000 =? 0)].
  - unfold DecodeRunLength, kMaxVectorCapacity, kMaxOneBitCapacity. cbv zeta. set (n := Z.land w 0x1fff). set (d := Z.land (Z.shiftr w 13) 0x03).
    assert (Hn : 0 <= n) by (apply Z.land_nonneg; lia).
    destruct (store_each_get (fun _ => d) (Z.to_nat (Z.min (Z.min n m) 14)) 0 (delta_sizes_ c)) as (arr & -> & Hla & Hg); [lia|lia|].
    cbn [mbind option_bind]. eexists. split; [reflexivity|]. cbn [delta_sizes_ size_]. rewrite zlen_replicate. split_and!; [lia|lia|].
    unfold AppendTo. cbn [all_same_ size_ delta_sizes_]. rewrite take_replicate.
    destruct (Z.eqb_spec (Z.min n m) 0) as [E|E].
    + replace (Z.to_nat m `min` Z.to_nat n)%nat with 0%nat by lia. done.
    + rewrite Hg, (proj2 (Z.leb_le _ _)), (proj2 (Z.ltb_lt _ _)) by lia. cbn [andb mbind option_bind]. do 2 f_equal. lia.
  - apply (Hvec 1 14 false); [lia|lia|]. intros i Hi. unfold bit_field, kMaxOneBitCapacity. by rewrite Z.mul_1_l.
  - apply (Hvec 2 7 true); [lia|lia|]. intros i Hi. done.
Qed.

(** ** Encoding *)

Lemma encode_symbols_fields bits cap arr (g : Z -> Z) n i chunk :
  0 < bits -> bits * cap <= 14 -> 0 <= i -> i + Z.of_nat n <= cap -> is_u16 chunk ->
  (forall j, i <= j < i + Z.of_nat n -> zget arr j = Some (g j) /\ 0 <= g j < 2 ^ bits) ->
  exists w, encode_symbols bits cap arr n i chunk = Some w /\ is_u16 w /\
    (forall k, 0 <= k < cap -> bit_field bits k w =
       Z.lor (bit_field bits k chunk) (if (i <=? cap - 1 - k) && (cap - 1 - k <? i + Z.of_nat n) then g (cap - 1 - k) else 0)) /\
    (forall b, 14 <= b < 16 -> Z.testbit w b = Z.testbit chunk b).
Proof.
  intros Hb Hcap. revert i chunk. induction n as [|n IH]; intros i chunk Hi Hn Hu Hg; cbn [encode_symbols].
  - exists chunk. split_and!; [done|done| |done]. intros k Hk.
    destruct (Z.leb_spec i (cap - 1 - k)), (Z.ltb_spec (cap - 1 - k) (i + Z.of_nat 0)); cbn [andb]; by rewrite Z.lor_0_r || lia.
  - destruct (Hg i ltac:(lia)) as [-> Hd]. cbn [mbind option_bind]. set (s := bits * (cap - 1 - i)).
    assert (Hs : 0 <= s /\ s + bits <= 14) by (unfold s; nia).
    destruct (IH (i + 1) (u16 (Z.lor chunk (Z.shiftl (g i) s)))) as (w & E & Hw & Hf & Htop);
      [lia|lia|apply u16_range|intros j Hj; apply Hg; lia|].
    exists w. split_and!; [done|done| |].
    + intros k Hk. rewrite Hf, field_u16, field_lor by nia. unfold s. rewrite field_shiftl by lia. rewrite <- Z.lor_assoc. f_equal.
      destruct (Z.eqb_spec k (cap - 1 - i)) as [->|Hne].
      * replace (cap - 1 - (cap - 1 - i)) with i by lia. rewrite (proj2 (Z.leb_gt (i + 1) i)) by lia.
        rewrite (proj2 (Z.leb_le i i)), (proj2 (Z.ltb_lt i (i + Z.of_nat (S n)))) by lia. cbn [andb]. apply Z.lor_0_r.
      * rewrite Z.lor_0_l. destruct (Z.leb_spec (i + 1) (cap - 1 - k)), (Z.leb_spec i (cap - 1 - k)); try lia; cbn [andb]; [|done].
        replace (i + 1 + Z.of_nat n) with (i + Z.of_nat (S n)) by lia. done.
    + intros b Hb'. rewrite Htop by done. unfold u16. rewrite Z.mod_pow2_bits_low by lia. rewrite Z.lor_spec, Z.shiftl_spec by lia.
      rewrite <- (Z.mod_small (g i) (2 ^ bits)) by done. rewrite Z.mod_pow2_bits_high by lia. apply orb_false_r.
Qed.

Lemma land_pow2_bit w b : 0 <= b -> (Z.land w (2 ^ b) =? 0) = negb (Z.testbit w b).
Proof. intros Hb. rewrite <- (Z.mul_1_l (2 ^ b)), <- shiftl_mul by done. by apply land_bit. Qed.

(** A vector chunk stands for the symbols that were encoded and zeros behind them. *)
Lemma encode_vector bits cap arr ds n chunk :
  0 < bits -> 0 <= cap -> bits * cap <= 14 -> (n <= length ds)%nat -> Z.of_nat n <= cap -> is_u16 chunk ->
  (forall k, 0 <= k < cap -> bit_field bits k chunk = 0) ->
  (forall j, 0 <= j < Z.of_nat n -> zget arr j = zget ds j) -> Forall (fun d => 0 <= d < 2 ^ bits) ds ->
  exists w, encode_symbols bits cap arr n 0 chunk = Some w /\ is_u16 w /\
    vector bits cap w = take n ds ++ replicate (Z.to_nat cap - n) 0 /\
    (forall b, 14 <= b < 16 -> Z.testbit w b = Z.testbit chunk b).
Proof.
  intros Hb Hc Hbc Hn Hcap Hu H0 Harr Hds.
  destruct (encode_symbols_fields bits cap arr (fun j => default 0 (zget ds j)) n 0 chunk) as (w & E & Hw & Hf & Htop); [done|done|lia|lia|done| |].
  { intros j Hj. destruct (zget_is_Some ds j) as (d & Ed); [unfold zlen; lia|]. rewrite Harr by lia. rewrite Ed. cbn. split; [done|].
    by apply (zget_Forall _ _ _ _ Hds) in Ed. }
  exists w. split_and!; [done|done| |done]. apply zget_ext. intros i.
  assert (Hlt : zlen (take n ds) = Z.of_nat n) by (unfold zlen; rewrite length_take; lia).
  rewrite zget_vector, zget_app, Hlt, get_replicate by done.
  destruct (Z.leb_spec 0 i), (Z.ltb_spec i cap); cbn [andb].
  - rewrite Hf, H0, Z.lor_0_l by lia. replace (cap - 1 - (cap - 1 - i)) with i by lia.
    rewrite (proj2 (Z.leb_le 0 i)) by lia. cbn [andb]. rewrite Z.add_0_l. destruct (Z.ltb_spec i (Z.of_nat n)).
    + destruct (zget_is_Some ds i) as (d & Ed); [unfold zlen; lia|]. rewrite zget_take by lia. by rewrite Ed.
    + rewrite (proj2 (Z.leb_le _ _)), (proj2 (Z.ltb_lt _ _)) by lia. done.
  - rewrite (proj2 (Z.ltb_ge i (Z.of_nat n))) by lia. rewrite (proj2 (Z.ltb_ge _ _)) by lia. by rewrite andb_false_r.
  - rewrite (proj2 (Z.ltb_lt i (Z.of_nat n))) by lia. unfold zget. by rewrite (proj2 (Z.ltb_lt _ _)) by lia.
  - rewrite (proj2 (Z.ltb_lt i (Z.of_nat n))) by lia. unfold zget. by rewrite (proj2 (Z.ltb_lt _ _)) by lia.
Qed.

(** ** The sizes a chunk holds *)

Definition all_equal (ds : list Z) : bool := match ds with [] => true | d :: _ => forallb (fun x => x =? d) ds end.

Definition is_delta_size (d : Z) : Prop := 0 <= d <= 2.

(** One of the three kinds of chunk can hold the sizes. *)
Definition fits (ds : list Z) : bool :=
  (zlen ds <=? 7) || ((zlen ds <=? 14) && negb (existsb (fun x => x =? 2) ds)) || (all_equal ds && (zlen ds <=? 0x1fff)).

Record holds_sizes (c : LastChunk) (ds : list Z) : Prop := {
  hs_array : zlen (delta_sizes_ c) = 14;
  hs_size : size_ c = Z.of_nat (length ds);
  hs_values : forall i, 0 <= i < Z.min 14 (Z.of_nat (length ds)) -> zget (delta_sizes_ c) i = zget ds i;
  hs_same : all_same_ c = all_equal ds;
  hs_large : has_large_delta_ c = existsb (fun x => x =? 2) ds;
  hs_range : Forall is_delta_size ds;
  hs_fits : fits ds = true;
}.

Lemma existsb_snoc {A} (f : A -> bool) l x : existsb f (l ++ [x]) = existsb f l || f x.
Proof. rewrite existsb_app. cbn. by rewrite orb_false_r. Qed.

Lemma all_equal_snoc d0 ds d : all_equal ((d0 :: ds) ++ [d]) = all_equal (d0 :: ds) && (d =? d0).
Proof. cbn [all_equal app forallb]. rewrite forallb_app. cbn [forallb]. rewrite andb_true_r. by rewrite andb_assoc. Qed.

Lemma all_equal_replicate d ds : all_equal (d :: ds) = true -> d :: ds = replicate (length (d :: ds)) d.
Proof.
  cbn [all_equal forallb length replicate]. rewrite Z.eqb_refl. cbn [andb]. intros H. f_equal.
  induction ds as [|x ds IH]; [done|]. cbn [forallb] in H. apply andb_true_iff in H as [->%Z.eqb_eq H]. cbn [length replicate].
  by rewrite <- IH.
Qed.

Lemma holds_clear c : zlen (delta_sizes_ c) = 14 -> holds_sizes (chunk_Clear c) [].
Proof. intros Hl. split; cbn; auto; try lia; constructor. Qed.

Lemma first_size d ds : zget (d :: ds) 0 = Some d.
Proof. done. Qed.

Lemma CanAdd_fits c ds d : holds_sizes c ds -> is_delta_size d -> CanAdd c d = Some (fits (ds ++ [d])).
Proof.
  intros [Hl Hs Hv Hsame Hlg Hr Hf] Hd. unfold CanAdd, fits, kMaxTwoBitCapacity, kMaxOneBitCapacity, kMaxRunLengthCapacity, kLarge.
  rewrite Hs, Hlg, Hsame, zlen_app, existsb_snoc. fold (zlen ds). change (zlen [d]) with 1.
  destruct (Z.ltb_spec (zlen ds) 7) as [H7|H7].
  { rewrite (proj2 (Z.leb_le _ 7)) by lia. done. }
  rewrite (proj2 (Z.leb_gt _ 7)) by lia. cbn [orb]. destruct ds as [|d0 ds]; [rewrite zlen_nil in H7; lia|].
  rewrite Hv by (unfold zlen in H7; lia). rewrite first_size, all_equal_snoc. cbn [mbind option_bind].
  assert (Elt : forall k, (zlen (d0 :: ds) <? k) = (zlen (d0 :: ds) + 1 <=? k)).
  { intros k. destruct (Z.ltb_spec (zlen (d0 :: ds)) k), (Z.leb_spec (zlen (d0 :: ds) + 1) k); done || lia. }
  rewrite !Elt, negb_orb, (Z.eqb_sym d0 d), <- andb_assoc.
  destruct (_ && (negb _ && negb _)); cbn [orb]; [done|].
  destruct (_ <=? 0x1fff), (all_equal _); cbn [andb]; rewrite ?andb_true_r, ?andb_false_r; done.
Qed.

Lemma Add_holds c ds d :
  holds_sizes c ds -> is_delta_size d -> fits (ds ++ [d]) = true ->
  exists c', chunk_Add c d = Some c' /\ holds_sizes c' (ds ++ [d]).
Proof.
  intros [Hl Hs Hv Hsame Hlg Hr Hf] Hd Hfit. unfold chunk_Add, kMaxVectorCapacity, kMaxOneBitCapacity.
  assert (Harr : exists arr, (if size_ c <? 14 then zput (delta_sizes_ c) (size_ c) d else Some (delta_sizes_ c)) = Some arr /\
    zlen arr = 14 /\ forall i, 0 <= i < Z.min 14 (Z.of_nat (length (ds ++ [d]))) -> zget arr i = zget (ds ++ [d]) i).
  { rewrite length_app. cbn [length]. rewrite Hs. destruct (Z.ltb_spec (Z.of_nat (length ds)) 14).
    - destruct (zput_Some (delta_sizes_ c) (Z.of_nat (length ds)) d) as (arr & E & Ha); [lia|]. exists arr. split_and!; [done|lia|].
      intros i Hi. rewrite (zget_zput _ _ _ _ i E), zget_app. unfold zlen. destruct (Z.eqb_spec i (Z.of_nat (length ds))) as [->|].
      + rewrite Z.ltb_irrefl, Z.sub_diag. done.
      + rewrite (proj2 (Z.ltb_lt _ _)) by lia. apply Hv. lia.
    - exists (delta_sizes_ c). split_and!; [done|done|]. intros i Hi. rewrite zget_app. unfold zlen.
      rewrite (proj2 (Z.ltb_lt _ _)) by lia. apply Hv. lia. }
  destruct Harr as (arr & -> & Ha & Hav). cbn [mbind option_bind].
  assert (Hst : still_same (all_same_ c) arr d = Some (all_equal (ds ++ [d]))).
  { unfold still_same. rewrite Hsame. destruct ds as [|d0 ds].
    - cbn [all_equal app]. rewrite Hav by (cbn; lia). cbn [app]. rewrite first_size. cbn. by rewrite Z.eqb_refl.
    - rewrite all_equal_snoc, Hav by (cbn [length app]; lia). cbn [app]. rewrite first_size. cbn [mbind option_bind].
      by destruct (all_equal (d0 :: ds)). }
  rewrite Hst. cbn [mbind option_bind]. eexists. split; [reflexivity|]. split; cbn [delta_sizes_ size_ all_same_ has_large_delta_]; auto.
  - rewrite Hs, length_app. cbn. lia.
  - by rewrite existsb_snoc, Hlg.
  - apply list.Forall_app. split; [done|by constructor].
Qed.

Lemma chunk_symbols_bits w :
  chunk_symbols w =
    if Z.testbit w 15 then if Z.testbit w 14 then vector 2 7 w else vector 1 14 w
    else replicate (Z.to_nat (Z.land w 0x1fff)) (Z.land (Z.shiftr w 13) 0x03).
Proof.
  unfold chunk_symbols. change 0x8000 with (2 ^ 15). change 0x4000 with (2 ^ 14). rewrite !land_pow2_bit by lia.
  by destruct (Z.testbit w 15), (Z.testbit w 14).
Qed.

Lemma field_high bits k hi : 0 < bits -> 0 <= k -> bits * (k + 1) <= 14 -> bit_field bits k (hi * 2 ^ 14) = 0.
Proof.
  intros Hb Hk H14. unfold bit_field. rewrite Z.land_ones, shiftr_div by nia.
  replace (hi * 2 ^ 14) with (hi * 2 ^ (14 - bits * (k + 1)) * 2 ^ bits * 2 ^ (bits * k)).
  - rewrite Z.div_mul by (apply Z.pow_nonzero; nia). apply Z.mod_mul. apply Z.pow_nonzero; lia.
  - rewrite <- !Z.mul_assoc, <- !Z.pow_add_r by nia. do 2 f_equal. lia.
Qed.

Lemma run_symbols d n :
  is_delta_size d -> 0 <= n <= 0x1fff ->
  is_u16 (u16 (Z.lor (Z.shiftl d 13) (u16 n))) /\
  chunk_symbols (u16 (Z.lor (Z.shiftl d 13) (u16 n))) = replicate (Z.to_nat n) d.
Proof.
  intros Hd Hn. unfold is_delta_size in Hd. rewrite (u16_id n) by (unfold is_u16; lia). rewrite shiftl_mul by lia.
  rewrite (lor_disjoint _ n 13) by (lia || by apply Z.mod_mul). rewrite u16_id by (unfold is_u16; lia).
  split; [unfold is_u16; lia|]. rewrite chunk_symbols_bits.
  assert (E15 : Z.testbit (d * 2 ^ 13 + n) 15 = false).
  { rewrite <- (Z.mod_small (d * 2 ^ 13 + n) (2 ^ 15)) by lia. by apply Z.mod_pow2_bits_high. }
  rewrite E15. change 0x1fff with (Z.ones 13). change 0x03 with (Z.ones 2). rewrite !Z.land_ones, shiftr_div by lia.
  rewrite <- (Z.div_unique_pos (d * 2 ^ 13 + n) (2 ^ 13) d n) by lia.
  rewrite <- (Z.mod_unique_pos (d * 2 ^ 13 + n) (2 ^ 13) d n) by lia. rewrite Z.mod_small by lia. done.
Qed.

Lemma EncodeRunLength_symbols c ds :
  holds_sizes c ds -> all_equal ds = true -> ds <> [] ->
  exists w, EncodeRunLength c = Some w /\ is_u16 w /\ chunk_symbols w = ds.
Proof.
  intros [Hl Hs Hv Hsame Hlg Hr Hf] Heq Hne. destruct ds as [|d ds]; [done|]. unfold EncodeRunLength.
  rewrite Hv by (cbn [length]; lia). rewrite first_size. cbn [mbind option_bind]. apply list.Forall_cons in Hr as [Hd _].
  assert (Hlen : 0 <= size_ c <= 0x1fff).
  { rewrite Hs. unfold fits, zlen in Hf. rewrite !orb_true_iff, !andb_true_iff, !Z.leb_le in Hf. lia. }
  destruct (run_symbols d (size_ c) Hd Hlen) as [Hu E]. eexists. split; [reflexivity|]. split; [done|]. rewrite E, Hs, Nat2Z.id.
  symmetry. by apply all_equal_replicate.
Qed.

Lemma EncodeOneBit_symbols c ds :
  holds_sizes c ds -> zlen ds <= 14 -> existsb (fun x => x =? 2) ds = false ->
  exists w, EncodeOneBit c = Some w /\ is_u16 w /\ chunk_symbols w = ds ++ replicate (14 - length ds) 0.
Proof.
  intros [Hl Hs Hv Hsame Hlg Hr Hf] H14 Hsmall. unfold EncodeOneBit, kMaxOneBitCapacity. rewrite Hs, Nat2Z.id. unfold zlen in H14.
  destruct (encode_vector 1 14 (delta_sizes_ c) ds (length ds) 0x8000) as (w & E & Hu & Hvec & Htop); try done; try lia.
  - intros k Hk. change 0x8000 with (2 * 2 ^ 14). apply field_high; lia.
  - intros j Hj. apply Hv. lia.
  - apply list.Forall_forall. intros d Hd. apply (proj1 (list.Forall_forall _ _) Hr) in Hd as Hrd. unfold is_delta_size in Hrd.
    assert (d <> 2); [|lia]. intros ->. apply list_elem_of_In in Hd. assert (existsb (fun x => x =? 2) ds = true); [|congruence].
    apply existsb_exists. by exists 2.
  - exists w. split; [done|]. split; [done|]. rewrite chunk_symbols_bits, !Htop by lia.
    change (Z.testbit 0x8000 15) with true. change (Z.testbit 0x8000 14) with false. cbv iota. rewrite Hvec.
    by rewrite firstn_all.
Qed.

Lemma EncodeTwoBit_symbols c ds n :
  holds_sizes c ds -> (n <= length ds)%nat -> Z.of_nat n <= 7 ->
  exists w, EncodeTwoBit c (Z.of_nat n) = Some w /\ is_u16 w /\ chunk_symbols w = take n ds ++ replicate (7 - n) 0.
Proof.
  intros [Hl Hs Hv Hsame Hlg Hr Hf] Hn H7. unfold EncodeTwoBit, kMaxTwoBitCapacity. rewrite Nat2Z.id.
  destruct (encode_vector 2 7 (delta_sizes_ c) ds n 0xc000) as (w & E & Hu & Hvec & Htop); try done; try lia.
  - intros k Hk. change 0xc000 with (3 * 2 ^ 14). apply field_high; lia.
  - intros j Hj. apply Hv. lia.
  - eapply list.Forall_impl; [exact Hr|]. unfold is_delta_size. cbv beta. lia.
  - exists w. split; [done|]. split; [done|]. rewrite chunk_symbols_bits, !Htop by lia.
    change (Z.testbit 0xc000 15) with true. change (Z.testbit 0xc000 14) with true. cbv iota. done.
Qed.

(** The last chunk of a message stands for the sizes it holds; what it has room for
    besides is zero. *)
Lemma EncodeLast_symbols c ds :
  holds_sizes c ds -> ds <> [] ->
  exists w, EncodeLast c = Some w /\ is_u16 w /\ take (length ds) (chunk_symbols w) = ds.
Proof.
  intros Hh Hne. unfold EncodeLast. rewrite (hs_same _ _ Hh). destruct (all_equal ds) eqn:Eq.
  - destruct (EncodeRunLength_symbols c ds Hh Eq Hne) as (w & E & Hu & Hsym). exists w. rewrite Hsym. split_and!; [done|done|apply firstn_all].
  - rewrite (hs_size _ _ Hh). unfold kMaxTwoBitCapacity. destruct (Z.leb_spec (Z.of_nat (length ds)) 7).
    + destruct (EncodeTwoBit_symbols c ds (length ds) Hh ltac:(lia) ltac:(lia)) as (w & E & Hu & Hsym). exists w. rewrite Hsym, firstn_all.
      split_and!; [done|done|]. by rewrite take_app_length.
    + pose proof (hs_fits _ _ Hh) as Hf. unfold fits, zlen in Hf. rewrite Eq in Hf. cbn [andb] in Hf. rewrite orb_false_r in Hf.
      rewrite (proj2 (Z.leb_gt _ 7)) in Hf by lia. cbn [orb] in Hf. apply andb_true_iff in Hf as [H14%Z.leb_le Hsm%negb_true_iff].
      destruct (EncodeOneBit_symbols c ds Hh H14 Hsm) as (w & E & Hu & Hsym). exists w. rewrite Hsym.
      split_and!; [done|done|]. by rewrite take_app_length.
Qed.

(** The loop of [Emit]: [pre] was moved, [post] is still to be moved. *)
Lemma shift_down_holds post pre c :
  zlen (delta_sizes_ c) = 14 -> (length (pre ++ post) <= 6)%nat -> size_ c = Z.of_nat (length (pre ++ post)) ->
  Forall is_delta_size (pre ++ post) ->
  (forall i, 0 <= i < zlen pre -> zget (delta_sizes_ c) i = zget pre i) ->
  (forall i, 0 <= i < zlen post -> zget (delta_sizes_ c) (7 + zlen pre + i) = zget post i) ->
  all_same_ c = all_equal pre -> has_large_delta_ c = existsb (fun x => x =? 2) pre ->
  exists c', shift_down (length post) (zlen pre) c = Some c' /\ holds_sizes c' (pre ++ post).
Proof.
  revert pre c. induction post as [|d post IH]; intros pre c Hl Hn Hs Hr Hpre Hpost Hsame Hlg; cbn [shift_down length].
  - exists c. split; [done|]. rewrite app_nil_r in *. split; auto.
    + intros i Hi. apply Hpre. unfold zlen. lia.
    + unfold fits. rewrite (proj2 (Z.leb_le _ 7)); [done|]. unfold zlen. lia.
  - unfold kMaxTwoBitCapacity. pose proof (zlen_nonneg pre) as Hp. pose proof (zlen_nonneg post). rewrite zlen_cons in Hpost.
    assert (Hpl : zlen pre <= 5). { rewrite length_app in Hn. cbn [length] in Hn. unfold zlen. lia. }
    pose proof (Hpost 0 ltac:(lia)) as H0. rewrite Z.add_0_r in H0. rewrite H0, first_size. cbn [mbind option_bind].
    destruct (zput_Some (delta_sizes_ c) (zlen pre) d) as (arr & E & Ha); [lia|]. rewrite E. cbn [mbind option_bind].
    assert (Hst : still_same (all_same_ c) arr d = Some (all_equal (pre ++ [d]))).
    { unfold still_same. rewrite Hsame, (zget_zput _ _ _ _ 0 E). destruct pre as [|d0 pre].
      - change (Some (d =? d) = Some ((d =? d) && true)). by rewrite Z.eqb_refl.
      - rewrite all_equal_snoc, zlen_cons, (proj2 (Z.eqb_neq _ _)) by (pose proof (zlen_nonneg pre); lia).
        rewrite Hpre by (rewrite zlen_cons; pose proof (zlen_nonneg pre); lia). rewrite first_size. cbn [mbind option_bind].
        by destruct (all_equal (d0 :: pre)). }
    rewrite Hst. cbn [mbind option_bind]. replace (zlen pre + 1) with (zlen (pre ++ [d])) by (rewrite zlen_app; done).
    replace (pre ++ d :: post) with ((pre ++ [d]) ++ post) in * by (by rewrite <- app_assoc).
    apply IH; cbn [delta_sizes_ size_ all_same_ has_large_delta_]; auto; [lia| | |by rewrite existsb_snoc, Hlg].
    + intros i Hi. rewrite (zget_zput _ _ _ _ i E), zget_app. rewrite zlen_app in Hi. change (zlen [d]) with 1 in Hi.
      destruct (Z.eqb_spec i (zlen pre)) as [->|]; [by rewrite Z.ltb_irrefl, Z.sub_diag|].
      rewrite (proj2 (Z.ltb_lt _ _)) by lia. apply Hpre. lia.
    + intros i Hi. rewrite (zget_zput _ _ _ _ _ E), zlen_app. change (zlen [d]) with 1. rewrite (proj2 (Z.eqb_neq _ _)) by lia.
      replace (7 + (zlen pre + 1) + i) with (7 + zlen pre + (1 + i)) by lia. rewrite Hpost by lia.
      change (d :: post) with ([d] ++ post). rewrite zget_app. change (zlen [d]) with 1. rewrite (proj2 (Z.ltb_ge _ _)) by lia. f_equal. lia.
Qed.

(** A full chunk is written: it stands for the first of the sizes, seven or more, at most six stay,
    and any size can be added to them. *)
Lemma Emit_holds c ds d :
  holds_sizes c ds -> is_delta_size d -> fits (ds ++ [d]) = false ->
  exists w c' rest, Emit c = Some (w, c') /\ is_u16 w /\ ds = chunk_symbols w ++ rest /\ 7 <= zlen (chunk_symbols w) /\
    holds_sizes c' rest /\ fits (rest ++ [d]) = true.
Proof.
  intros Hh Hd Hno. pose proof (hs_fits _ _ Hh) as Hf. pose proof (hs_array _ _ Hh) as Harr.
  assert (Hlen : 7 <= zlen ds).
  { destruct (Z.lt_ge_cases (zlen ds) 7); [|done]. unfold fits in Hno. rewrite zlen_app in Hno. change (zlen [d]) with 1 in Hno.
    rewrite (proj2 (Z.leb_le _ 7)) in Hno by lia. done. }
  assert (Hone : forall r : list Z, zlen r <= 6 -> fits (r ++ [d]) = true).
  { intros r Hrl. unfold fits. rewrite zlen_app. change (zlen [d]) with 1. by rewrite (proj2 (Z.leb_le _ 7)) by lia. }
  assert (Hne : ds <> []) by (intros ->; rewrite zlen_nil in Hlen; lia).
  unfold Emit. rewrite (hs_same _ _ Hh). destruct (all_equal ds) eqn:Eq.
  - destruct (EncodeRunLength_symbols c ds Hh Eq Hne) as (w & -> & Hu & Hsym). cbn [mbind option_bind].
    exists w, (chunk_Clear c), []. rewrite Hsym, app_nil_r. split_and!; [done|done|done|done|by apply holds_clear|by apply Hone].
  - unfold fits in Hf. rewrite Eq in Hf. cbn [andb] in Hf. rewrite orb_false_r in Hf.
    rewrite (hs_size _ _ Hh). unfold kMaxOneBitCapacity. destruct (Z.eqb_spec (Z.of_nat (length ds)) 14) as [E14|E14].
    + assert (Hsm : existsb (fun x => x =? 2) ds = false).
      { unfold zlen in Hf. rewrite E14 in Hf. change (14 <=? 7) with false in Hf. change (14 <=? 14) with true in Hf.
        cbn [orb andb] in Hf. by apply negb_true_iff in Hf. }
      destruct (EncodeOneBit_symbols c ds Hh ltac:(unfold zlen; lia) Hsm) as (w & -> & Hu & Hsym). cbn [mbind option_bind].
      exists w, (chunk_Clear c), []. rewrite Hsym, app_nil_r. replace (14 - length ds)%nat with 0%nat by lia. rewrite app_nil_r.
      split_and!; [done|done|done|done|by apply holds_clear|by apply Hone].
    + assert (H13 : zlen ds <= 13).
      { rewrite orb_true_iff, andb_true_iff, !Z.leb_le in Hf. unfold zlen in *. lia. }
      destruct (EncodeTwoBit_symbols c ds 7 Hh ltac:(unfold zlen in Hlen; lia) ltac:(lia)) as (w & E & Hu & Hsym).
      unfold kMaxTwoBitCapacity. change (Z.of_nat 7) with 7 in E. rewrite E. cbn [mbind option_bind]. cbv zeta.
      cbn [size_ set]. pose proof (hs_values _ _ Hh) as Hv. unfold zlen in Hlen, H13.
      destruct (shift_down_holds (drop 7 ds) [] (mkChunk (delta_sizes_ c) (Z.of_nat (length ds) - 7) true false)) as (c' & Ec & Hc');
        cbn [delta_sizes_ size_ all_same_ has_large_delta_ app]; auto.
      * rewrite length_drop. lia.
      * rewrite length_drop. lia.
      * apply Forall_drop, (hs_range _ _ Hh).
      * rewrite zlen_nil. lia.
      * intros i Hi. rewrite zlen_nil, zget_drop by lia. unfold zlen in Hi. rewrite length_drop in Hi. apply Hv. lia.
      * rewrite zlen_nil, length_drop in Ec. replace (Z.to_nat (Z.of_nat (length ds) - 7)) with (length ds - 7)%nat by lia.
        match goal with |- context [shift_down ?n 0 ?x] => change (shift_down n 0 x) with (shift_down n 0
          (mkChunk (delta_sizes_ c) (Z.of_nat (length ds) - 7) true false)) end.
        rewrite Ec. cbn [mbind option_bind]. exists w, c', (drop 7 ds). rewrite Hsym, app_nil_r.
        split_and!; [done|done|by rewrite take_drop|unfold zlen; rewrite length_take; lia|done|]. apply Hone. unfold zlen. rewrite length_drop. lia.
Qed.
