(* ===== verification/TransportFeedback.v ===== *)
(** * Transport feedback: the message

    [TransportFeedback] of [rtcp_packet/transport_feedback.h/.cc]: which packets
    arrived and when, as the receiver of the media reports it to its sender. The
    store of the statements is the object; its methods return a [bool], and what a
    method changed before it returned [false] stays. *)

From S2P Require Import Prelude ByteIo Rtcp RtcpFields RtcpFeedback TransportChunk.

Open Scope Z_scope.
Open Scope c_scope.

Record ReceivedPacket := mkReceived { sequence_number_ : Z; delta_ticks_ : Z }.

Record TransportFeedback := mkTransport {
  tf_base : Feedback;
  base_seq_no_ : Z;
  num_seq_no_ : Z;
  base_time_ticks_ : Z;
  feedback_seq_ : Z;
  include_timestamps_ : bool;
  last_timestamp_us_ : Z;
  packets_ : list ReceivedPacket;
  encoded_chunks_ : list Z;
  last_chunk_ : LastChunk;
  size_bytes_ : Z;
}.

#[export] Instance eta_Transport : Eta TransportFeedback :=
  fun t => mkTransport (tf_base t) (base_seq_no_ t) (num_seq_no_ t) (base_time_ticks_ t) (feedback_seq_ t) (include_timestamps_ t)
    (last_timestamp_us_ t) (packets_ t) (encoded_chunks_ t) (last_chunk_ t) (size_bytes_ t).

Definition kTransportFeedbackHeaderSizeBytes : Z := 4 + 8 + 8.
Definition kChunkSizeBytes : Z := 2.
Definition kMaxSizeBytes : Z := Z.shiftl 1 16 * 4.
Definition kMinPayloadSizeBytes : Z := 8 + 8 + 2.
Definition kFeedbackMessageType : Z := 15.
Definition kDeltaScaleFactor : Z := 250.
Definition kBaseScaleFactor : Z := kDeltaScaleFactor * Z.shiftl 1 8.
Definition kTimeWrapPeriodUs : Z := Z.shiftl 1 24 * kBaseScaleFactor.
Definition kMaxReportedPackets : Z := 0xffff.

(** [IsNewer] at [uint16_t]; the difference is computed as an [int]. *)
Definition IsNewerSequenceNumber (value prev_value : Z) : bool :=
  if value - prev_value =? 0x8000 then prev_value <? value
  else negb (value =? prev_value) && (u16 (value - prev_value) <? 0x8000).

Definition delta_us (p : ReceivedPacket) : Z := delta_ticks_ p * kDeltaScaleFactor.

(** [arr] is what the array of the chunk holds before it is written. *)
Definition new_TransportFeedback (fb : Feedback) (arr : list Z) (include_timestamps : bool) : TransportFeedback :=
  mkTransport fb 0 0 0 0 include_timestamps 0 [] [] (chunk_Clear (mkChunk arr 0 false false)) kTransportFeedbackHeaderSizeBytes.

Definition GetBaseTimeUs (t : TransportFeedback) : Z := base_time_ticks_ t * kBaseScaleFactor.

Definition SetBase (base_sequence ref_timestamp_us : Z) (t : TransportFeedback) : TransportFeedback :=
  let t := t <| base_seq_no_ := base_sequence |>
             <| base_time_ticks_ := s32 (Z.quot (Z.rem ref_timestamp_us kTimeWrapPeriodUs) kBaseScaleFactor) |> in
  t <| last_timestamp_us_ := GetBaseTimeUs t |>.

Definition SetFeedbackSequenceNumber (feedback_sequence : Z) (t : TransportFeedback) : TransportFeedback :=
  t <| feedback_seq_ := feedback_sequence |>.

Definition transport_Clear (t : TransportFeedback) : TransportFeedback :=
  t <| num_seq_no_ := 0 |> <| last_timestamp_us_ := GetBaseTimeUs t |> <| packets_ := [] |> <| encoded_chunks_ := [] |>
    <| last_chunk_ := chunk_Clear (last_chunk_ t) |> <| size_bytes_ := kTransportFeedbackHeaderSizeBytes |>.

(** ** Adding packets *)

(** [last_chunk_.Add(delta_size); ++num_seq_no_; return true;] *)
Definition add_to_chunk (delta_size : Z) : stmt TransportFeedback bool bool :=
  let! t := get in
  let! chunk := mem (chunk_Add (last_chunk_ t) delta_size) in
  modify (fun t => t <| last_chunk_ := chunk |> <| num_seq_no_ := u16 (num_seq_no_ t + 1) |>) ;;
  ret true.

Definition AddDeltaSize {R} (delta_size : Z) : stmt TransportFeedback R bool :=
  fn (
    let! t := get in
    if num_seq_no_ t =? kMaxReportedPackets then return_ false
    else
      let add_chunk_size := if chunk_Empty (last_chunk_ t) then kChunkSizeBytes else 0 in
      if kMaxSizeBytes <? size_bytes_ t + delta_size + add_chunk_size then return_ false
      else
        let! can_add := mem (CanAdd (last_chunk_ t) delta_size) in
        if can_add then
          modify (fun t => t <| size_bytes_ := size_bytes_ t + add_chunk_size |>) ;;
          add_to_chunk delta_size
        else if kMaxSizeBytes <? size_bytes_ t + delta_size + kChunkSizeBytes then return_ false
        else
          let! emitted := mem (Emit (last_chunk_ t)) in
          modify (fun t => t <| encoded_chunks_ := encoded_chunks_ t ++ [fst emitted] |> <| last_chunk_ := snd emitted |>
                            <| size_bytes_ := size_bytes_ t + kChunkSizeBytes |>) ;;
          add_to_chunk delta_size).

(** [for (; next_seq_no != sequence_number; ++next_seq_no) if (!AddDeltaSize(0)) return false;] *)
Fixpoint add_missing (fuel : nat) (next_seq_no sequence_number : Z) : stmt TransportFeedback bool unit :=
  match fuel with
  | O => fun _ => Spin
  | S fuel' =>
      if next_seq_no =? sequence_number then ret tt
      else
        let! ok := AddDeltaSize 0 in
        if negb ok then return_ false else add_missing fuel' (u16 (next_seq_no + 1)) sequence_number
  end.

(** The numbers between the two, and one round to see that they are equal. *)
Definition missing_fuel (next_seq_no sequence_number : Z) : nat := S (Z.to_nat (u16 (sequence_number - next_seq_no))).

(** The rounded difference in ticks. *)
Definition delta_full (timestamp_us last_timestamp_us : Z) : Z :=
  let delta := Z.rem (s64 (timestamp_us - last_timestamp_us)) kTimeWrapPeriodUs in
  let delta := if Z.quot kTimeWrapPeriodUs 2 <? delta then delta - kTimeWrapPeriodUs else delta in
  let delta := delta + (if delta <? 0 then - Z.quot kDeltaScaleFactor 2 else Z.quot kDeltaScaleFactor 2) in
  Z.quot delta kDeltaScaleFactor.

Definition AddReceivedPacket {R} (sequence_number timestamp_us : Z) : stmt TransportFeedback R bool :=
  fn (
    let! t := get in
    let! delta :=
      if include_timestamps_ t then
        let full := delta_full timestamp_us (last_timestamp_us_ t) in
        let delta := s16 full in
        if negb (delta =? full) then return_ false else ret delta
      else ret 0 in
    let next_seq_no := u16 (base_seq_no_ t + num_seq_no_ t) in
    (if negb (sequence_number =? next_seq_no) then
       let last_seq_no := u16 (next_seq_no - 1) in
       if negb (IsNewerSequenceNumber sequence_number last_seq_no) then return_ false
       else add_missing (missing_fuel next_seq_no sequence_number) next_seq_no sequence_number
     else ret tt) ;;
    let delta_size := if (0 <=? delta) && (delta <=? 0xff) then 1 else 2 in
    let! ok := AddDeltaSize delta_size in
    if negb ok then return_ false
    else
      modify (fun t => t <| packets_ := packets_ t ++ [mkReceived sequence_number delta] |>
                        <| last_timestamp_us_ := s64 (last_timestamp_us_ t + delta * kDeltaScaleFactor) |>) ;;
      let! t := get in
      (if include_timestamps_ t then modify (fun t => t <| size_bytes_ := size_bytes_ t + delta_size |>) else ret tt) ;;
      ret true).

(** ** Writing *)

Definition transport_BlockLength (t : TransportFeedback) : Z := Z.land (size_bytes_ t + 3) (Z.lnot 3).

Definition PaddingLength (t : TransportFeedback) : Z := transport_BlockLength t - size_bytes_ t.

Definition put_chunk {R} (chunk : Z) : stmt Sink R unit := put_be 2 0 chunk ;; advance 2.

Definition put_delta {R} (p : ReceivedPacket) : stmt Sink R unit :=
  let delta := delta_ticks_ p in
  if (0 <=? delta) && (delta <=? 0xff) then put_byte_at 0 delta ;; advance 1
  else put_be 2 0 (delta mod 2 ^ 16) ;; advance 2.

Definition put_padding {R} (padding_length : Z) : stmt Sink R unit :=
  if 0 <? padding_length then
    put_all (fun v => put_byte_at 0 v ;; advance 1) (replicate (Z.to_nat (padding_length - 1)) 0) ;;
    put_byte_at 0 (u8 padding_length) ;; advance 1
  else ret tt.

Definition transport_fields {R} (t : TransportFeedback) : stmt Sink R unit :=
  CreateCommonFeedback (tf_base t) ;;
  (put_be 2 0 (base_seq_no_ t) ;; advance 2) ;;
  (put_be 2 0 (num_seq_no_ t) ;; advance 2) ;;
  (put_be 3 0 (base_time_ticks_ t mod 2 ^ 32) ;; advance 3) ;;
  (put_byte_at 0 (feedback_seq_ t) ;; advance 1) ;;
  put_all put_chunk (encoded_chunks_ t) ;;
  (if negb (chunk_Empty (last_chunk_ t)) then let! chunk := mem (EncodeLast (last_chunk_ t)) in put_chunk chunk else ret tt) ;;
  (if include_timestamps_ t then put_all put_delta (packets_ t) else ret tt) ;;
  put_padding (PaddingLength t).

Definition transport_write {R} (t : TransportFeedback) : stmt Sink R unit :=
  CreateHeader kFeedbackMessageType Rtpfb_kPacketType (HeaderLength (transport_BlockLength t)) (0 <? PaddingLength t) ;;
  transport_fields t.

Definition transport_Create (t : TransportFeedback) (max_length : Z) : stmt Sink bool bool :=
  if num_seq_no_ t =? 0 then ret false
  else create_block (transport_BlockLength t) (transport_write t) max_length.

#[export] Instance Transport_Packet : RtcpPacket TransportFeedback :=
  { BlockLength := transport_BlockLength; Create := transport_Create }.

(** ** Reading *)

(** The loop over the chunks: the sizes and the index behind the chunks. *)
Fixpoint parse_chunks (fuel : nat) (payload : list Z) (end_index status_count : Z) (delta_sizes : list Z) (index : Z)
  : stmt TransportFeedback bool (list Z * Z) :=
  match fuel with
  | O => fun _ => Spin
  | S fuel' =>
      if zlen delta_sizes <? status_count then
        if end_index <? index + kChunkSizeBytes then
          modify transport_Clear ;; return_ false
        else
          let! chunk := mem (ReadBigEndian 2 payload index) in
          let! t := get in
          let! c := mem (chunk_Decode (last_chunk_ t) chunk (status_count - zlen delta_sizes)) in
          modify (fun t => t <| encoded_chunks_ := encoded_chunks_ t ++ [chunk] |> <| last_chunk_ := c |>) ;;
          let! more := mem (AppendTo c) in
          parse_chunks fuel' payload end_index status_count (delta_sizes ++ more) (index + kChunkSizeBytes)
      else ret (delta_sizes, index)
  end.

Definition push_received {R} (seq_no delta : Z) : stmt TransportFeedback R unit :=
  modify (fun t => t <| packets_ := packets_ t ++ [mkReceived seq_no delta] |>
                    <| last_timestamp_us_ := s64 (last_timestamp_us_ t + delta * kDeltaScaleFactor) |>).

(** The loop over the sizes when the times are there: the index behind them. *)
Fixpoint parse_deltas (payload : list Z) (end_index : Z) (delta_sizes : list Z) (seq_no index : Z) : stmt TransportFeedback bool Z :=
  match delta_sizes with
  | [] => ret index
  | delta_size :: rest =>
      if end_index <? index + delta_size then modify transport_Clear ;; return_ false
      else if delta_size =? 0 then parse_deltas payload end_index rest (u16 (seq_no + 1)) index
      else if delta_size =? 1 then
        let! delta := mem (zget payload index) in
        push_received seq_no delta ;;
        parse_deltas payload end_index rest (u16 (seq_no + 1)) (index + delta_size)
      else if delta_size =? 2 then
        let! delta := mem (ReadBigEndianSigned 2 16 payload index) in
        push_received seq_no delta ;;
        parse_deltas payload end_index rest (u16 (seq_no + 1)) (index + delta_size)
      else modify transport_Clear ;; return_ false
  end.

(** The loop over the sizes when there are no times. *)
Fixpoint parse_received (delta_sizes : list Z) (seq_no : Z) : stmt TransportFeedback bool unit :=
  match delta_sizes with
  | [] => ret tt
  | delta_size :: rest =>
      (if 0 <? delta_size then modify (fun t => t <| packets_ := packets_ t ++ [mkReceived seq_no 0] |>) else ret tt) ;;
      parse_received rest (u16 (seq_no + 1))
  end.

Definition sum_sizes (delta_sizes : list Z) : Z := fold_left Z.add delta_sizes 0.

Definition transport_Parse {R} (packet : CommonHeader) : stmt TransportFeedback R bool :=
  fn (
    if payload_size packet <? kMinPayloadSizeBytes then return_ false
    else
      let payload := payload packet in
      let! fb := mem (ParseCommonFeedback payload) in
      let! base_seq_no := mem (ReadBigEndian 2 payload 8) in
      let! status_count := mem (ReadBigEndian 2 payload 10) in
      let! base_time_ticks := mem (ReadBigEndianSigned 3 32 payload 12) in
      let! feedback_seq := mem (zget payload 15) in
      modify (fun t => transport_Clear (t <| tf_base := fb |> <| base_seq_no_ := base_seq_no |>
                                         <| base_time_ticks_ := base_time_ticks |> <| feedback_seq_ := feedback_seq |>)) ;;
      let end_index := payload_size packet in
      if status_count =? 0 then return_ false
      else
        let! r := parse_chunks (S (Z.to_nat end_index)) payload end_index status_count [] 16 in
        let '(delta_sizes, index) := r in
        modify (fun t => t <| encoded_chunks_ := removelast (encoded_chunks_ t) |> <| num_seq_no_ := status_count |>) ;;
        let! index :=
          if index + sum_sizes delta_sizes <=? end_index then parse_deltas payload end_index delta_sizes base_seq_no index
          else
            modify (fun t => t <| include_timestamps_ := false |>) ;;
            parse_received delta_sizes base_seq_no ;;
            ret index in
        modify (fun t => t <| size_bytes_ := kHeaderLength + index |>) ;;
        ret true).

(** [fb0] and [arr]: the fields of a new object that its constructor leaves open. *)
Definition ParseFrom (fb0 : Feedback) (arr : list Z) (buffer : list Z) : option (option TransportFeedback) :=
  h ← CommonHeader_Parse buffer;
  match h with
  | None => Some None
  | Some header =>
      if negb (packet_type_ header =? Rtpfb_kPacketType) || negb (count_or_format_ header =? kFeedbackMessageType) then Some None
      else
        match transport_Parse (R := unit) header (new_TransportFeedback fb0 arr true) with
        | Next true t => Some (Some t)
        | Next false _ => Some None
        | _ => None
        end
  end.

(** ** The check that the object is consistent *)

(** The loop over the chunks that were emitted: the sizes and the decoder. *)
Fixpoint decode_chunks (decoder : LastChunk) (chunks : list Z) : option (list Z) :=
  match chunks with
  | [] => Some []
  | chunk :: rest =>
      decoder ← chunk_Decode decoder chunk kMaxReportedPackets;
      more ← AppendTo decoder;
      l ← decode_chunks decoder rest;
      Some (more ++ l)
  end.

(** The loop over the sizes: the packets left, the time and the size, or [None]
    where the object is not consistent. *)
Fixpoint check_sizes (include_timestamps : bool) (delta_sizes : list Z) (packets : list ReceivedPacket) (seq_no timestamp_us packet_size : Z)
  : option (list ReceivedPacket * Z * Z) :=
  match delta_sizes with
  | [] => Some (packets, timestamp_us, packet_size)
  | delta_size :: rest =>
      let packet_size := if include_timestamps then packet_size + delta_size else packet_size in
      if 0 <? delta_size then
        match packets with
        | [] => None
        | p :: packets =>
            if negb (sequence_number_ p =? seq_no) then None
            else if (delta_size =? 1) && ((delta_ticks_ p <? 0) || (0xff <? delta_ticks_ p)) then None
            else check_sizes include_timestamps rest packets (u16 (seq_no + 1)) (s64 (timestamp_us + delta_us p)) packet_size
        end
      else check_sizes include_timestamps rest packets (u16 (seq_no + 1)) timestamp_us packet_size
  end.

(** [base_time_ticks_ * kBaseScaleFactor] is a product of two [int]. The outer
    [None] is an access outside of an array. *)
Definition IsConsistent (arr : list Z) (t : TransportFeedback) : option bool :=
  ds ← decode_chunks (chunk_Clear (mkChunk arr 0 false false)) (encoded_chunks_ t);
  last ← (if chunk_Empty (last_chunk_ t) then Some [] else AppendTo (last_chunk_ t));
  let delta_sizes := ds ++ last in
  let packet_size := kTransportFeedbackHeaderSizeBytes + kChunkSizeBytes * Z.of_nat (length (encoded_chunks_ t)) +
    (if chunk_Empty (last_chunk_ t) then 0 else kChunkSizeBytes) in
  if negb (num_seq_no_ t =? zlen delta_sizes) then Some false
  else
    match check_sizes (include_timestamps_ t) delta_sizes (packets_ t) (base_seq_no_ t) (s32 (base_time_ticks_ t * kBaseScaleFactor)) packet_size with
    | None => Some false
    | Some (packets, timestamp_us, packet_size) =>
        Some (match packets with [] => true | _ => false end && (timestamp_us =? last_timestamp_us_ t) && (size_bytes_ t =? packet_size))
    end.
