(* ===== verification/TransportSend.v ===== *)
(** * Transport feedback: what the object stands for

    The status of the packets from the base number on, [None] for a packet that did
    not arrive and the ticks since the one before for one that did, is what a
    [TransportFeedback] object represents. [add_spec] says what adding a packet
    means for it; the methods refine that. *)

From S2P Require Import Prelude ByteIo Rtcp RtcpFields RtcpFeedback TransportChunk TransportFeedback.

Open Scope Z_scope.
Open Scope c_scope.

(** ** Sequence numbers and sums *)

Lemma u16_add_l a b : u16 (u16 a + b) = u16 (a + b).
Proof. unfold u16. by rewrite Zplus_mod_idemp_l. Qed.

Lemma newer_spec v p :
  is_u16 v -> is_u16 p ->
  IsNewerSequenceNumber v p = (0 <? u16 (v - p)) && ((u16 (v - p) <? 0x8000) || (u16 (v - p) =? 0x8000) && (p <? v)).
Proof.
  intros Hv Hp. unfold IsNewerSequenceNumber, is_u16, u16 in *. destruct (Z.lt_ge_cases v p) as [Hlt|Hge].
  - rewrite <- (Z.mod_unique_pos (v - p) (2 ^ 16) (-1) (v - p + 2 ^ 16)) by lia.
    rewrite (proj2 (Z.eqb_neq (v - p) 0x8000)), (proj2 (Z.eqb_neq v p)), (proj2 (Z.ltb_ge p v)) by lia. rewrite andb_false_r, orb_false_r.
    rewrite (proj2 (Z.ltb_lt 0 _)) by lia. done.
  - rewrite (Z.mod_small (v - p)) by lia. destruct (Z.eqb_spec (v - p) 0x8000) as [E|E].
    + rewrite (proj2 (Z.ltb_lt p v)), E by lia. done.
    + cbn [andb]. rewrite orb_false_r. destruct (Z.eqb_spec v p) as [->|]; [by rewrite Z.sub_diag|].
      by rewrite (proj2 (Z.ltb_lt 0 _)) by lia.
Qed.

Lemma fold_add l a : fold_left Z.add l a = a + fold_left Z.add l 0.
Proof. revert a. induction l as [|x l IH]; intros a; cbn [fold_left]; [lia|]. rewrite (IH (a + x)), (IH (0 + x)). lia. Qed.

Lemma sum_cons x l : sum_sizes (x :: l) = x + sum_sizes l.
Proof. unfold sum_sizes. cbn [fold_left]. rewrite fold_add. lia. Qed.

Lemma sum_app l k : sum_sizes (l ++ k) = sum_sizes l + sum_sizes k.
Proof. unfold sum_sizes. rewrite fold_left_app. apply fold_add. Qed.

Lemma sum_bounds a b l : Forall (fun x => a <= x <= b) l -> a * zlen l <= sum_sizes l <= b * zlen l.
Proof.
  induction 1 as [|x l Hx _ IH]; [change (sum_sizes []) with 0; rewrite zlen_nil; lia|]. rewrite sum_cons, zlen_cons. lia.
Qed.

Lemma sum_replicate0 n : sum_sizes (replicate n 0) = 0.
Proof. induction n as [|n IH]; [done|]. cbn [replicate]. rewrite sum_cons. lia. Qed.

(** ** The status of the packets *)

Definition ticks_size (delta : Z) : Z := if (0 <=? delta) && (delta <=? 0xff) then 1 else 2.

Definition status_size (o : option Z) : Z := match o with None => 0 | Some delta => ticks_size delta end.

Definition status_sizes (st : list (option Z)) : list Z := map status_size st.

Definition ticks_sum (st : list (option Z)) : Z := sum_sizes (map (default 0) st).

(** The packets that arrived, with their numbers. *)
Fixpoint numbered (seq_no : Z) (st : list (option Z)) : list ReceivedPacket :=
  match st with
  | [] => []
  | None :: st => numbered (u16 (seq_no + 1)) st
  | Some delta :: st => mkReceived seq_no delta :: numbered (u16 (seq_no + 1)) st
  end.

Definition status_ok (include_timestamps : bool) (o : option Z) : Prop :=
  match o with None => True | Some delta => is_s16 delta /\ (include_timestamps = false -> delta = 0) end.

Lemma ticks_size_range d : is_delta_size (ticks_size d) /\ 0 < ticks_size d.
Proof. unfold ticks_size, is_delta_size. destruct (_ && _); lia. Qed.

Lemma status_sizes_range st : Forall is_delta_size (status_sizes st).
Proof.
  apply Forall_fmap, list.Forall_forall. intros [d|] _; cbn; [apply ticks_size_range|unfold is_delta_size; lia].
Qed.

Lemma zlen_sizes st : zlen (status_sizes st) = Z.of_nat (length st).
Proof. unfold zlen, status_sizes. by rewrite length_map. Qed.

Lemma status_sizes_app st st' : status_sizes (st ++ st') = status_sizes st ++ status_sizes st'.
Proof. apply map_app. Qed.

Lemma sizes_missing n : status_sizes (replicate n None) = replicate n 0.
Proof. induction n as [|n IH]; [done|]. cbn. by f_equal. Qed.

Lemma ticks_sum_app st st' : ticks_sum (st ++ st') = ticks_sum st + ticks_sum st'.
Proof. unfold ticks_sum. by rewrite map_app, sum_app. Qed.

Lemma ticks_missing n : ticks_sum (replicate n None) = 0.
Proof. unfold ticks_sum. induction n as [|n IH]; [done|]. cbn [replicate map]. rewrite sum_cons. cbn [default]. done. Qed.

Lemma numbered_app st st' seq_no :
  numbered seq_no (st ++ st') = numbered seq_no st ++ match st with [] => numbered seq_no st' | _ => numbered (u16 (seq_no + Z.of_nat (length st))) st' end.
Proof.
  revert seq_no. induction st as [|o st IH]; intros seq_no; [done|]. rewrite <- app_comm_cons.
  assert (E : forall X, numbered seq_no (o :: X) = (match o with None => [] | Some d => [mkReceived seq_no d] end) ++ numbered (u16 (seq_no + 1)) X).
  { intros X. by destruct o. }
  rewrite !E, IH, <- app_assoc. do 2 f_equal. destruct st as [|o' st]; cbn [length].
  - by rewrite Nat2Z.inj_succ.
  - rewrite u16_add_l. do 2 f_equal. lia.
Qed.

Lemma numbered_missing n seq_no : numbered seq_no (replicate n None) = [].
Proof. revert seq_no. induction n as [|n IH]; intros seq_no; [done|]. cbn. apply IH. Qed.

Lemma ticks_sum_bound b st : Forall (status_ok b) st -> -32768 * Z.of_nat (length st) <= ticks_sum st <= 32767 * Z.of_nat (length st).
Proof.
  intros Hst. unfold ticks_sum. replace (Z.of_nat (length st)) with (zlen (map (default 0) st)) by (unfold zlen; by rewrite length_map).
  apply sum_bounds, Forall_fmap. eapply list.Forall_impl; [exact Hst|]. intros [d|]; cbn; [clia|lia].
Qed.

(** ** The chunks of the object *)

(** The chunks stand for [ds]; [extra] bytes of the size are not those of chunks. *)
Record holds_chunks (t : TransportFeedback) (ds : list Z) (extra : Z) : Prop := {
  hc_num : num_seq_no_ t = zlen ds;
  hc_max : zlen ds <= kMaxReportedPackets;
  hc_u16 : Forall is_u16 (encoded_chunks_ t);
  hc_long : Forall (fun w => 7 <= zlen (chunk_symbols w)) (encoded_chunks_ t);
  hc_chunks : exists last, ds = concat (map chunk_symbols (encoded_chunks_ t)) ++ last /\ holds_sizes (last_chunk_ t) last /\ (last = [] -> ds = []);
  hc_size : size_bytes_ t = 20 + 2 * Z.of_nat (length (encoded_chunks_ t)) + (if chunk_Empty (last_chunk_ t) then 0 else 2) + extra;
}.

(** What [AddDeltaSize] leaves as it is. *)
Definition same_fields (t t' : TransportFeedback) : Prop :=
  tf_base t' = tf_base t /\ base_seq_no_ t' = base_seq_no_ t /\ base_time_ticks_ t' = base_time_ticks_ t /\
  feedback_seq_ t' = feedback_seq_ t /\ include_timestamps_ t' = include_timestamps_ t /\
  last_timestamp_us_ t' = last_timestamp_us_ t /\ packets_ t' = packets_ t.

Lemma same_fields_trans t1 t2 t3 : same_fields t1 t2 -> same_fields t2 t3 -> same_fields t1 t3.
Proof. unfold same_fields. intros H1 H2. destruct_and!. split_and!; congruence. Qed.

Lemma zlen_concat_long chunks :
  Forall (fun w => 7 <= zlen (chunk_symbols w)) chunks -> 7 * Z.of_nat (length chunks) <= zlen (concat (map chunk_symbols chunks)).
Proof. induction 1 as [|w chunks Hw _ IH]; cbn [map concat length]; [rewrite zlen_nil; lia|]. rewrite zlen_app. lia. Qed.

(** The largest size of a message: its limit is out of reach of 65535 packets. *)
Lemma size_below_max t ds extra :
  holds_chunks t ds extra -> 0 <= extra <= 2 * zlen ds -> size_bytes_ t + 4 <= kMaxSizeBytes.
Proof.
  intros [Hn Hm Hu Hl (last & E & Hh & _) Hs] Hx. apply (f_equal zlen) in E. rewrite zlen_app in E. pose proof (zlen_nonneg last).
  pose proof (zlen_concat_long _ Hl). unfold kMaxReportedPackets in Hm. rewrite Hs. change kMaxSizeBytes with 262144.
  destruct (chunk_Empty _); lia.
Qed.

Lemma holds_empty c ds : holds_sizes c ds -> chunk_Empty c = match ds with [] => true | _ => false end.
Proof. intros Hh. unfold chunk_Empty. rewrite (hs_size _ _ Hh). by destruct ds. Qed.

Lemma add_to_chunk_wp t rest w d extra Q QR :
  is_delta_size d -> Forall is_u16 (encoded_chunks_ t) -> Forall (fun w => 7 <= zlen (chunk_symbols w)) (encoded_chunks_ t) ->
  w = concat (map chunk_symbols (encoded_chunks_ t)) ++ rest -> holds_sizes (last_chunk_ t) rest -> fits (rest ++ [d]) = true ->
  num_seq_no_ t = zlen w -> zlen w < kMaxReportedPackets -> size_bytes_ t = 22 + 2 * Z.of_nat (length (encoded_chunks_ t)) + extra ->
  (forall t', holds_chunks t' (w ++ [d]) extra -> same_fields t t' -> Q true t') -> wp (add_to_chunk d) t Q QR.
Proof.
  intros Hd Hu Hl Ew Hh Hfit Hn Hmax Hs HQ. unfold add_to_chunk. wp_steps.
  destruct (Add_holds _ _ _ Hh Hd Hfit) as (c & Ec & Hc). apply (wp_mem _ _ _ _ _ Ec). wp_steps. apply HQ; [|done].
  unfold kMaxReportedPackets in *. pose proof (zlen_nonneg w).
  split; cbn [set num_seq_no_ encoded_chunks_ last_chunk_ size_bytes_]; auto.
  - rewrite Hn, zlen_app. change (zlen [d]) with 1. apply u16_id. unfold is_u16. lia.
  - rewrite zlen_app. change (zlen [d]) with 1. unfold kMaxReportedPackets. lia.
  - exists (rest ++ [d]). split_and!; [by rewrite Ew, app_assoc|done|]. by destruct rest.
  - rewrite (holds_empty _ _ Hc). destruct rest; cbn [app]; lia.
Qed.

(** A size is added unless the message reports 65535 packets already; the test of
    the number of bytes never decides. *)
Lemma AddDeltaSize_wp {R} t ds d extra Q (QR : R -> TransportFeedback -> Prop) :
  holds_chunks t ds extra -> 0 <= extra <= 2 * zlen ds -> is_delta_size d ->
  (zlen ds = kMaxReportedPackets -> Q false t) ->
  (zlen ds < kMaxReportedPackets -> forall t', holds_chunks t' (ds ++ [d]) extra -> same_fields t t' -> Q true t') ->
  wp (AddDeltaSize d) t Q QR.
Proof.
  intros Hc Hx Hd H0 H1. pose proof (size_below_max _ _ _ Hc Hx) as Hroom. pose proof Hc as [Hn Hm Hu Hl (last & E & Hh & Hlast) Hs].
  unfold AddDeltaSize. wp_steps. rewrite Hn. destruct (Z.eqb_spec (zlen ds) kMaxReportedPackets) as [Em|Em]; wp_steps; [by apply H0|].
  cbv zeta. unfold is_delta_size, kChunkSizeBytes in *.
  rewrite (proj2 (Z.ltb_ge kMaxSizeBytes _)) by (destruct (chunk_Empty _); lia). wp_steps.
  apply (wp_mem _ _ _ _ _ (CanAdd_fits _ _ _ Hh Hd)). destruct (fits (last ++ [d])) eqn:Ef; wp_steps.
  - eapply (add_to_chunk_wp _ last ds d extra); [exact Hd|exact Hu|exact Hl|exact E|exact Hh|exact Ef|exact Hn|lia| |].
    + cbn [set encoded_chunks_ size_bytes_]. rewrite Hs. destruct (chunk_Empty _); lia.
    + intros t' Ht' Hsame. apply H1; [lia|done|exact Hsame].
  - rewrite (proj2 (Z.ltb_ge kMaxSizeBytes _)) by lia. wp_steps.
    destruct (Emit_holds _ _ _ Hh Hd Ef) as (w & c & rest & Ee & Hw & Esplit & H7 & Hrest & Hfit).
    apply (wp_mem _ _ _ _ _ Ee). wp_steps. cbn [fst snd].
    assert (Hne : chunk_Empty (last_chunk_ t) = false).
    { rewrite (holds_empty _ _ Hh). destruct last; [|done]. destruct (chunk_symbols w); done. }
    eapply (add_to_chunk_wp _ rest ds d extra); cbn [set encoded_chunks_ last_chunk_ num_seq_no_ size_bytes_];
      [exact Hd|apply list.Forall_app; by split; [|constructor]|apply list.Forall_app; by split; [|constructor]| |exact Hrest|exact Hfit|exact Hn|lia| |].
    + rewrite map_app, concat_app. cbn [map concat]. by rewrite app_nil_r, <- app_assoc, <- Esplit.
    + rewrite Hs, Hne, length_app. cbn [length]. lia.
    + intros t' Ht' Hsame. apply H1; [lia|done|exact Hsame].
Qed.

(** ** What the object represents *)

Record represents (t : TransportFeedback) (st : list (option Z)) : Prop := {
  rep_base : feedback_ok (tf_base t);
  rep_seq : is_u16 (base_seq_no_ t);
  rep_ticks : 0 <= base_time_ticks_ t < 2 ^ 24;
  rep_feedback_seq : is_u8 (feedback_seq_ t);
  rep_status : Forall (status_ok (include_timestamps_ t)) st;
  rep_packets : packets_ t = numbered (base_seq_no_ t) st;
  rep_time : last_timestamp_us_ t = base_time_ticks_ t * 64000 + ticks_sum st * 250;
  rep_chunks : holds_chunks t (status_sizes st) (if include_timestamps_ t then sum_sizes (status_sizes st) else 0);
}.

(** What adding a packet means: the outcome, and the status of the packets. *)
Definition add_spec (include_timestamps : bool) (base_seq base_ticks : Z) (st : list (option Z)) (sequence_number timestamp_us : Z)
  : bool * list (option Z) :=
  let ticks := if include_timestamps then delta_full timestamp_us (base_ticks * 64000 + ticks_sum st * 250) else 0 in
  let next := base_seq + Z.of_nat (length st) in
  let missing := Z.to_nat (u16 (sequence_number - next)) in
  if negb (s16 ticks =? ticks) then (false, st)
  else if negb (IsNewerSequenceNumber sequence_number (u16 (next - 1))) then (false, st)
  else if (length st + missing <? Z.to_nat kMaxReportedPackets)%nat then (true, st ++ replicate missing None ++ [Some ticks])
  else (false, st ++ replicate (Z.to_nat kMaxReportedPackets - length st) None).

Lemma extra_bounds st (b : bool) : 0 <= (if b then sum_sizes (status_sizes st) else 0) <= 2 * zlen (status_sizes st).
Proof. pose proof (sum_bounds 0 2 _ (status_sizes_range st)). pose proof (zlen_nonneg (status_sizes st)). destruct b; lia. Qed.

Lemma represents_missing t t' st :
  represents t st -> same_fields t t' ->
  holds_chunks t' (status_sizes st ++ [0]) (if include_timestamps_ t then sum_sizes (status_sizes st) else 0) -> represents t' (st ++ [None]).
Proof.
  intros [H1 H2 H3 H4 H5 H6 H7 H8] (S1 & S2 & S3 & S4 & S5 & S6 & S7) Hc. split; rewrite ?S1, ?S2, ?S3, ?S4, ?S5; auto.
  - apply list.Forall_app. split; [done|]. by constructor.
  - rewrite S7, H6, numbered_app. destruct st; cbn [numbered]; by rewrite app_nil_r.
  - rewrite S6, H7, ticks_sum_app. change (ticks_sum [None]) with 0. lia.
  - rewrite status_sizes_app, sum_app. change (sum_sizes (status_sizes [None])) with 0. by rewrite Z.add_0_r.
Qed.

(** What a method leaves as it is for the status that follows. *)
Definition same_base (t t' : TransportFeedback) : Prop :=
  tf_base t' = tf_base t /\ base_seq_no_ t' = base_seq_no_ t /\ base_time_ticks_ t' = base_time_ticks_ t /\
  feedback_seq_ t' = feedback_seq_ t /\ include_timestamps_ t' = include_timestamps_ t.

Lemma same_fields_base t t' : same_fields t t' -> same_base t t'.
Proof. unfold same_fields, same_base. intros H. destruct_and!. by split_and!. Qed.

Lemma same_base_trans t1 t2 t3 : same_base t1 t2 -> same_base t2 t3 -> same_base t1 t3.
Proof. unfold same_base. intros H1 H2. destruct_and!. split_and!; congruence. Qed.

(** [n] packets are missing before [seq]: the loop adds them, as far as there is
    room. *)
Lemma add_missing_wp n fuel t st next seq Q QR :
  (n < fuel)%nat -> represents t st -> is_u16 next -> is_u16 seq -> u16 (seq - next) = Z.of_nat n ->
  ((length st + n <= Z.to_nat kMaxReportedPackets)%nat -> forall t', represents t' (st ++ replicate n None) -> same_base t t' -> Q tt t') ->
  ((Z.to_nat kMaxReportedPackets < length st + n)%nat ->
     forall t', represents t' (st ++ replicate (Z.to_nat kMaxReportedPackets - length st) None) -> same_base t t' -> QR false t') ->
  wp (add_missing fuel next seq) t Q QR.
Proof.
  revert fuel t st next. induction n as [|n IH]; intros fuel t st next Hf Hr Hn Hs Hd HQ HR; (destruct fuel as [|fuel]; [lia|]); cbn [add_missing].
  - assert (next = seq) as ->. { unfold u16, is_u16 in *. Z.div_mod_to_equations. lia. }
    rewrite Z.eqb_refl. wp_steps. apply HQ; [|by rewrite app_nil_r|by unfold same_base].
    pose proof (hc_max _ _ _ (rep_chunks _ _ Hr)) as Hm. rewrite zlen_sizes in Hm. lia.
  - destruct (Z.eqb_spec next seq) as [->|Hne]; [by rewrite Z.sub_diag in Hd|]. wp_steps.
    eapply AddDeltaSize_wp; [exact (rep_chunks _ _ Hr)|apply extra_bounds|unfold is_delta_size; lia| |].
    + intros Hfull. cbn [negb]. wp_steps. rewrite zlen_sizes in Hfull. apply HR; [lia| |by unfold same_base].
      rewrite <- Hfull, Nat2Z.id, Nat.sub_diag. cbn. by rewrite app_nil_r.
    + intros Hroom t1 Ht1 Hsame. cbn [negb]. rewrite zlen_sizes in Hroom.
      pose proof (represents_missing _ _ _ Hr Hsame Ht1) as Hr1. apply same_fields_base in Hsame.
      apply (IH fuel t1 (st ++ [None]) (u16 (next + 1))); [lia|done|apply u16_range|done| | |].
      * unfold u16 in *. rewrite Zminus_mod_idemp_r. unfold is_u16 in *. Z.div_mod_to_equations. lia.
      * rewrite length_app. cbn [length]. intros Hl t' Hr' Hs'. rewrite <- app_assoc in Hr'. apply HQ; [lia|exact Hr'|by eapply same_base_trans].
      * rewrite length_app. cbn [length]. intros Hl t' Hr' Hs'. rewrite <- app_assoc in Hr'. apply HR; [lia| |by eapply same_base_trans].
        replace (Z.to_nat kMaxReportedPackets - length st)%nat with (S (Z.to_nat kMaxReportedPackets - (length st + 1)))%nat by lia. exact Hr'.
Qed.

Lemma represents_received t t1 st st1 seq ticks :
  represents t st -> same_fields t t1 -> st1 = st ++ [Some ticks] -> is_s16 ticks -> (include_timestamps_ t = false -> ticks = 0) ->
  seq = u16 (base_seq_no_ t + Z.of_nat (length st)) ->
  holds_chunks t1 (status_sizes st ++ [ticks_size ticks]) (if include_timestamps_ t then sum_sizes (status_sizes st) else 0) ->
  represents
    (let t2 := t1 <| packets_ := packets_ t1 ++ [mkReceived seq ticks] |> <| last_timestamp_us_ := s64 (last_timestamp_us_ t1 + ticks * kDeltaScaleFactor) |> in
     if include_timestamps_ t2 then t2 <| size_bytes_ := size_bytes_ t2 + ticks_size ticks |> else t2) st1.
Proof.
  intros [H1 H2 H3 H4 H5 H6 H7 H8] (S1 & S2 & S3 & S4 & S5 & S6 & S7) -> Ht H0 Hseq [C1 C2 C3 C4 C5 C6]. cbv zeta.
  assert (Htime : s64 (last_timestamp_us_ t1 + ticks * kDeltaScaleFactor) = base_time_ticks_ t * 64000 + ticks_sum (st ++ [Some ticks]) * 250).
  { pose proof (ticks_sum_bound _ _ H5) as Hb. pose proof (hc_max _ _ _ H8) as Hm. rewrite zlen_sizes in Hm. unfold kMaxReportedPackets in Hm.
    rewrite ticks_sum_app. change (ticks_sum [Some ticks]) with (0 + ticks). unfold kDeltaScaleFactor. rewrite S6, H7.
    rewrite s64_id by (unfold is_s16 in Ht; lia). lia. }
  assert (Hpk : packets_ t1 ++ [mkReceived seq ticks] = numbered (base_seq_no_ t) (st ++ [Some ticks])).
  { rewrite S7, H6, numbered_app, Hseq. destruct st; [|done]. cbn [length numbered app]. rewrite Z.add_0_r, u16_id by done. done. }
  assert (Hst : Forall (status_ok (include_timestamps_ t)) (st ++ [Some ticks])).
  { apply list.Forall_app. split; [done|]. constructor; [|constructor]. by split. }
  assert (Hsz : sum_sizes (status_sizes (st ++ [Some ticks])) = sum_sizes (status_sizes st) + ticks_size ticks).
  { rewrite status_sizes_app, sum_app. f_equal. }
  cbn [set include_timestamps_]. rewrite S5. destruct (include_timestamps_ t) eqn:Ei; rewrite status_sizes_app in Hsz;
    split; cbn [set tf_base base_seq_no_ base_time_ticks_ feedback_seq_ include_timestamps_ packets_ last_timestamp_us_]; rewrite ?S1, ?S2, ?S3, ?S4, ?S5, ?Ei; auto;
    rewrite status_sizes_app; split; auto.
  cbn [set size_bytes_ encoded_chunks_ last_chunk_]. rewrite C6, Hsz. lia.
Qed.

Lemma missing_step st n tail : st ++ replicate n None ++ [tail] = (st ++ replicate n None) ++ [tail : option Z].
Proof. by rewrite app_assoc. Qed.

(** The last part of [AddReceivedPacket]. *)
Lemma received_wp t st seq ticks :
  represents t st -> is_s16 ticks -> (include_timestamps_ t = false -> ticks = 0) -> seq = u16 (base_seq_no_ t + Z.of_nat (length st)) ->
  wp (let! ok := AddDeltaSize (ticks_size ticks) in
      if negb ok then return_ false
      else
        modify (fun t => t <| packets_ := packets_ t ++ [mkReceived seq ticks] |>
                          <| last_timestamp_us_ := s64 (last_timestamp_us_ t + ticks * kDeltaScaleFactor) |>) ;;
        let! t := get in
        (if include_timestamps_ t then modify (fun t => t <| size_bytes_ := size_bytes_ t + ticks_size ticks |>) else ret tt) ;;
        ret true) t
    (fun ok t' => same_base t t' /\ ok = true /\ (length st < Z.to_nat kMaxReportedPackets)%nat /\ represents t' (st ++ [Some ticks]))
    (fun ok t' => t' = t /\ ok = false /\ length st = Z.to_nat kMaxReportedPackets).
Proof.
  intros Hr Ht H0 Hseq. wp_steps. eapply AddDeltaSize_wp; [exact (rep_chunks _ _ Hr)|apply extra_bounds|apply ticks_size_range| |].
  - intros Hfull. rewrite zlen_sizes in Hfull. cbn [negb]. wp_steps. split_and!; [done|done|lia].
  - intros Hroom t1 Ht1 Hsame. rewrite zlen_sizes in Hroom. cbn [negb]. wp_steps.
    pose proof (represents_received t t1 st _ seq ticks Hr Hsame eq_refl Ht H0 Hseq Ht1) as Hfin. cbv zeta in Hfin.
    destruct (same_fields_base _ _ Hsame) as (B1 & B2 & B3 & B4 & B5).
    cbn [set include_timestamps_] in Hfin |- *. rewrite B5 in *. destruct (include_timestamps_ t) eqn:Ei; wp_steps.
    all: split_and!; [|done|lia|exact Hfin]; unfold same_base; cbn [set tf_base base_seq_no_ base_time_ticks_ feedback_seq_ include_timestamps_];
      rewrite Ei; by split_and!.
Qed.

Lemma u16_sub_l a b : u16 (u16 a - b) = u16 (a - b).
Proof. unfold u16. by rewrite Zminus_mod_idemp_l. Qed.

Lemma u16_sub_r a b : u16 (a - u16 b) = u16 (a - b).
Proof. unfold u16. by rewrite Zminus_mod_idemp_r. Qed.

Lemma next_is_newer x : IsNewerSequenceNumber (u16 x) (u16 (x - 1)) = true.
Proof.
  rewrite newer_spec by apply u16_range. rewrite u16_sub_l, u16_sub_r. replace (x - (x - 1)) with 1 by lia. done.
Qed.

Lemma missing_number x n : u16 (x + n) = u16 (u16 x + n).
Proof. by rewrite u16_add_l. Qed.

Lemma number_reached seq x : is_u16 seq -> u16 (x + u16 (seq - x)) = seq.
Proof. intros Hs. rewrite Z.add_comm, u16_add_l. replace (seq - x + x) with seq by lia. by apply u16_id. Qed.

Lemma s16_eq v : s16 v = v -> is_s16 v.
Proof. intros <-. apply s16_range. Qed.

(** The part of [AddReceivedPacket] behind the difference of the times. *)
Lemma numbers_wp t st seq ticks (Q : bool -> TransportFeedback -> Prop) :
  let next := base_seq_no_ t + Z.of_nat (length st) in
  let missing := Z.to_nat (u16 (seq - next)) in
  represents t st -> is_u16 seq -> is_s16 ticks -> (include_timestamps_ t = false -> ticks = 0) ->
  (forall ok t' st', same_base t t' -> represents t' st' ->
     (ok, st') = (if negb (IsNewerSequenceNumber seq (u16 (next - 1))) then (false, st)
       else if (length st + missing <? Z.to_nat kMaxReportedPackets)%nat then (true, st ++ replicate missing None ++ [Some ticks])
       else (false, st ++ replicate (Z.to_nat kMaxReportedPackets - length st) None)) -> Q ok t') ->
  wp ((if negb (seq =? u16 next) then
         if negb (IsNewerSequenceNumber seq (u16 (u16 next - 1))) then return_ false
         else add_missing (missing_fuel (u16 next) seq) (u16 next) seq
       else ret tt) ;;
      let! ok := AddDeltaSize (ticks_size ticks) in
      if negb ok then return_ false
      else
        modify (fun t => t <| packets_ := packets_ t ++ [mkReceived seq ticks] |>
                          <| last_timestamp_us_ := s64 (last_timestamp_us_ t + ticks * kDeltaScaleFactor) |>) ;;
        let! t := get in
        (if include_timestamps_ t then modify (fun t => t <| size_bytes_ := size_bytes_ t + ticks_size ticks |>) else ret tt) ;;
        ret true) t Q Q.
Proof.
  intros next missing Hr Hseq Ht H0 HQ. rewrite u16_sub_l.
  assert (Hm : u16 (seq - u16 next) = Z.of_nat missing).
  { rewrite u16_sub_r. subst missing. pose proof (u16_range (seq - next)) as Hx. unfold is_u16 in Hx. lia. }
  assert (Hlen : (length st <= Z.to_nat kMaxReportedPackets)%nat).
  { pose proof (hc_max _ _ _ (rep_chunks _ _ Hr)) as Hx. rewrite zlen_sizes in Hx. lia. }
  assert (Hrest : forall t1, represents t1 (st ++ replicate missing None) -> same_base t t1 -> (length st + missing <= Z.to_nat kMaxReportedPackets)%nat ->
    IsNewerSequenceNumber seq (u16 (next - 1)) = true ->
    wp (let! ok := AddDeltaSize (ticks_size ticks) in
        if negb ok then return_ false
        else
          modify (fun t => t <| packets_ := packets_ t ++ [mkReceived seq ticks] |>
                            <| last_timestamp_us_ := s64 (last_timestamp_us_ t + ticks * kDeltaScaleFactor) |>) ;;
          let! t := get in
          (if include_timestamps_ t then modify (fun t => t <| size_bytes_ := size_bytes_ t + ticks_size ticks |>) else ret tt) ;;
          ret true) t1 Q Q).
  { intros t1 Hr1 Hs1 Hl1 Hnew. destruct Hs1 as (B1 & B2 & B3 & B4 & B5).
    eapply wp_mono; [apply (received_wp t1 _ seq ticks Hr1 Ht); [by rewrite B5|]|cbv beta|cbv beta].
    - rewrite B2, length_app, length_replicate. replace (base_seq_no_ t + Z.of_nat (length st + missing)) with (next + Z.of_nat missing) by (subst next; lia).
      subst missing. rewrite Z2Nat.id by apply u16_range. symmetry. by apply number_reached.
    - intros ok t' (Hs' & -> & Hl' & Hr'). rewrite length_app, length_replicate in Hl'. apply (HQ _ _ _ (same_base_trans _ _ _ ltac:(by split_and!) Hs') Hr').
      rewrite Hnew. cbn [negb]. rewrite (proj2 (Nat.ltb_lt _ _)) by lia. by rewrite <- app_assoc.
    - intros ok t' (-> & -> & Hl'). rewrite length_app, length_replicate in Hl'. apply (HQ false t1 (st ++ replicate missing None)); [by split_and!|done|].
      rewrite Hnew. cbn [negb]. rewrite (proj2 (Nat.ltb_ge _ _)) by lia. do 3 f_equal. lia. }
  wp_step. destruct (Z.eqb_spec seq (u16 next)) as [E|E]; cbn [negb].
  - wp_step. assert (missing = 0%nat) as E0. { subst missing. rewrite E, u16_sub_l, Z.sub_diag. done. }
    apply Hrest; [by rewrite E0, app_nil_r|by unfold same_base|lia|]. rewrite E. apply next_is_newer.
  - destruct (IsNewerSequenceNumber seq (u16 (next - 1))) eqn:Enew; cbn [negb]; [|wp_step; by apply (HQ false t st)].
    eapply (add_missing_wp missing); [unfold missing_fuel; lia|exact Hr|apply u16_range|done|done| |].
    + intros Hl t1 Hr1 Hs1. by apply Hrest.
    + intros Hl t1 Hr1 Hs1. apply (HQ false t1 _ Hs1 Hr1). rewrite (proj2 (Nat.ltb_ge _ _)) by lia. done.
Qed.

Lemma AddReceivedPacket_wp {R} t st seq ts (QR : R -> TransportFeedback -> Prop) :
  represents t st -> is_u16 seq ->
  wp (AddReceivedPacket seq ts) t
    (fun ok t' => exists st', (ok, st') = add_spec (include_timestamps_ t) (base_seq_no_ t) (base_time_ticks_ t) st seq ts /\
       same_base t t' /\ represents t' st') QR.
Proof.
  intros Hr Hseq. unfold AddReceivedPacket, add_spec. wp_steps. rewrite <- (rep_time _ _ Hr).
  assert (Hn : num_seq_no_ t = Z.of_nat (length st)) by (by rewrite (hc_num _ _ _ (rep_chunks _ _ Hr)), zlen_sizes).
  rewrite Hn. destruct (include_timestamps_ t) eqn:Ei.
  - cbv zeta. set (full := delta_full ts (last_timestamp_us_ t)). destruct (Z.eqb_spec (s16 full) full) as [E|E]; cbn [negb].
    + wp_step. rewrite E. apply (numbers_wp t st seq full); [done|done|by apply s16_eq|by rewrite Ei|].
      intros ok t' st' Hs Hr' Eok. exists st'. by rewrite <- Eok.
    + wp_step. exists st. split_and!; [done|by unfold same_base|done].
  - wp_step. cbv zeta. apply (numbers_wp t st seq 0); [done|done|clia|done|].
    intros ok t' st' Hs Hr' Eok. exists st'. by rewrite <- Eok.
Qed.

Lemma AddReceivedPacket_run t st seq ts :
  represents t st -> is_u16 seq ->
  exists ok t' st', AddReceivedPacket (R := unit) seq ts t = Next ok t' /\
    (ok, st') = add_spec (include_timestamps_ t) (base_seq_no_ t) (base_time_ticks_ t) st seq ts /\ same_base t t' /\ represents t' st'.
Proof.
  intros Hr Hs. pose proof (AddReceivedPacket_wp (R := unit) t st seq ts (fun _ _ => False) Hr Hs) as Hw.
  apply wp_run in Hw as (ok & t' & E & st' & Hok & Hsame & Hr'). eauto 10.
Qed.

(** ** The base of a message *)

Lemma kTime : kTimeWrapPeriodUs = 64000 * 2 ^ 24 /\ kBaseScaleFactor = 64000.
Proof. done. Qed.

Lemma new_represents fb arr include_timestamps :
  feedback_ok fb -> zlen arr = 14 -> represents (new_TransportFeedback fb arr include_timestamps) [].
Proof.
  intros Hfb Ha. split; cbn [new_TransportFeedback tf_base base_seq_no_ base_time_ticks_ feedback_seq_ packets_ last_timestamp_us_]; auto; try clia.
  split; cbn [new_TransportFeedback num_seq_no_ encoded_chunks_ last_chunk_ size_bytes_]; auto.
  - rewrite zlen_sizes. done.
  - exists []. split_and!; [done|by apply holds_clear|done].
  - cbn. by destruct include_timestamps.
Qed.

Lemma SetBase_represents t base_sequence ref :
  represents t [] -> is_u16 base_sequence -> 0 <= ref ->
  represents (SetBase base_sequence ref t) [] /\ base_time_ticks_ (SetBase base_sequence ref t) = ref mod kTimeWrapPeriodUs / kBaseScaleFactor.
Proof.
  intros [H1 H2 H3 H4 H5 H6 H7 [C1 C2 C3 C4 C5 C6]] Hb Hr. destruct kTime as [EP EB].
  assert (E : s32 (Z.quot (Z.rem ref kTimeWrapPeriodUs) kBaseScaleFactor) = ref mod kTimeWrapPeriodUs / kBaseScaleFactor /\
    0 <= ref mod kTimeWrapPeriodUs / kBaseScaleFactor < 2 ^ 24).
  { rewrite EP, EB. rewrite Z.rem_mod_nonneg by lia. pose proof (Z.mod_pos_bound ref (64000 * 2 ^ 24) ltac:(lia)).
    rewrite Z.quot_div_nonneg by lia.
    assert (0 <= ref mod (64000 * 2 ^ 24) / 64000 < 2 ^ 24) by (split; [apply Z.div_pos; lia|apply Z.div_lt_upper_bound; lia]).
    rewrite s32_id by clia. done. }
  destruct E as [E Hrange]. split; [|exact E]. unfold SetBase. rewrite E. split; auto.
  - change (ticks_sum []) with 0. cbn [set last_timestamp_us_ base_time_ticks_]. unfold GetBaseTimeUs. cbn [set base_time_ticks_]. rewrite EB. lia.
  - by split.
Qed.

Lemma SetFeedbackSequenceNumber_represents t st n :
  represents t st -> is_u8 n -> represents (SetFeedbackSequenceNumber n t) st.
Proof. intros [H1 H2 H3 H4 H5 H6 H7 [C1 C2 C3 C4 C5 C6]] Hn. split; auto. by split. Qed.

Lemma round_error x : Z.abs (x - Z.quot (x + (if x <? 0 then -125 else 125)) 250 * 250) <= 125.
Proof.
  destruct (Z.ltb_spec x 0).
  - replace (x + -125) with (- (125 - x)) by lia. rewrite Z.quot_opp_l, Z.quot_div_nonneg by lia.
    pose proof (Z.div_mod (125 - x) 250 ltac:(lia)). pose proof (Z.mod_pos_bound (125 - x) 250 ltac:(lia)). lia.
  - rewrite Z.quot_div_nonneg by lia.
    pose proof (Z.div_mod (x + 125) 250 ltac:(lia)). pose proof (Z.mod_pos_bound (x + 125) 250 ltac:(lia)). lia.
Qed.

Lemma last_bound t st : represents t st -> - 2 ^ 62 <= last_timestamp_us_ t < 2 ^ 62.
Proof.
  intros Hr. rewrite (rep_time _ _ Hr). pose proof (ticks_sum_bound _ _ (rep_status _ _ Hr)). pose proof (rep_ticks _ _ Hr).
  pose proof (hc_max _ _ _ (rep_chunks _ _ Hr)) as Hm. rewrite zlen_sizes in Hm. unfold kMaxReportedPackets in Hm. lia.
Qed.

(** Rounding does not add up: what the ticks lose against the difference of the
    times, up to whole periods, is half a tick. *)
Lemma delta_full_error ts last :
  - 2 ^ 63 <= ts - last < 2 ^ 63 -> exists m, Z.abs (ts - (last + delta_full ts last * 250) - m * kTimeWrapPeriodUs) <= 125.
Proof.
  intros Hr. unfold delta_full. rewrite s64_id by done. destruct kTime as [EP _]. change (- Z.quot kDeltaScaleFactor 2) with (-125). change (Z.quot kDeltaScaleFactor 2) with 125.
  change kDeltaScaleFactor with 250. rewrite EP. change (Z.quot (64000 * 2 ^ 24) 2) with (32000 * 2 ^ 24). cbv zeta.
  pose proof (Z.quot_rem' (ts - last) (64000 * 2 ^ 24)) as Eq. set (k := Z.quot (ts - last) _) in *. set (r := Z.rem (ts - last) _) in *.
  destruct (Z.ltb_spec (32000 * 2 ^ 24) r) as [Hhalf|Hhalf].
  - exists (k + 1). pose proof (round_error (r - 64000 * 2 ^ 24)). lia.
  - exists k. pose proof (round_error r). lia.
Qed.

(** ** The check of the object *)

Lemma s64_add a b : s64 (s64 a + b) = s64 (a + b).
Proof. unfold s64. replace ((a + 2 ^ 63) mod 2 ^ 64 - 2 ^ 63 + b + 2 ^ 63) with ((a + 2 ^ 63) mod 2 ^ 64 + b) by lia.
  rewrite Zplus_mod_idemp_l. do 2 f_equal. lia. Qed.

Lemma s64_idem a : s64 (s64 a) = s64 a.
Proof. rewrite <- (Z.add_0_r (s64 a)) at 1. by rewrite s64_add, Z.add_0_r. Qed.

Lemma zlen_symbols w : 0 <= w -> zlen (chunk_symbols w) <= 0x1fff.
Proof.
  intros Hw. unfold chunk_symbols. destruct (_ =? 0); [|destruct (_ =? 0)].
  - rewrite zlen_replicate. change 0x1fff with (Z.ones 13). rewrite Z.land_ones by lia. pose proof (Z.mod_pos_bound w (2 ^ 13) ltac:(lia)).
    change (Z.ones 13) with (2 ^ 13 - 1). lia.
  - rewrite zlen_vector; lia.
  - rewrite zlen_vector; lia.
Qed.

Lemma take_symbols w n : 0 <= w -> 0x1fff <= n -> take (Z.to_nat n) (chunk_symbols w) = chunk_symbols w.
Proof. intros Hw Hn. pose proof (zlen_symbols w Hw) as Hl. unfold zlen in Hl. apply take_ge. lia. Qed.

Lemma decode_chunks_symbols decoder chunks :
  zlen (delta_sizes_ decoder) = 14 -> Forall is_u16 chunks -> decode_chunks decoder chunks = Some (concat (map chunk_symbols chunks)).
Proof.
  intros Hd Hu. revert decoder Hd. induction Hu as [|w chunks Hw _ IH]; intros decoder Hd; cbn [decode_chunks map concat]; [done|].
  unfold is_u16 in Hw. destruct (chunk_Decode_symbols decoder w kMaxReportedPackets Hd ltac:(done) ltac:(lia)) as (c & -> & Hc & _ & Ha).
  cbn [mbind option_bind]. rewrite Ha, take_symbols by done || lia. cbn [mbind option_bind]. by rewrite IH.
Qed.

Lemma AppendTo_holds c ds : holds_sizes c ds -> AppendTo c = Some ds.
Proof.
  intros [Hl Hs Hv Hsame Hlg Hr Hf]. unfold AppendTo. rewrite Hsame, Hs. destruct (all_equal ds) eqn:Eq.
  - destruct ds as [|d ds]; [done|]. rewrite (proj2 (Z.eqb_neq _ 0)) by (cbn [length]; lia). rewrite Hv by (cbn [length]; lia).
    rewrite first_size, Nat2Z.id. cbn [mbind option_bind]. by rewrite <- all_equal_replicate.
  - assert (zlen ds <= 14).
    { unfold fits in Hf. rewrite Eq, orb_false_r, orb_true_iff, andb_true_iff, !Z.leb_le in Hf. lia. }
    unfold zlen in *. apply read_bytes_spec. unfold zlen. split_and!; [lia|done|lia|]. intros i Hi. rewrite Z.add_0_l. symmetry. apply Hv. lia.
Qed.

Lemma check_sizes_status b st seq ts sz :
  Forall (status_ok b) st -> s64 ts = ts ->
  check_sizes b (status_sizes st) (numbered seq st) seq ts sz =
    Some ([], s64 (ts + ticks_sum st * 250), sz + (if b then sum_sizes (status_sizes st) else 0)).
Proof.
  intros Hst. revert seq ts sz. induction Hst as [|o st Ho _ IH]; intros seq ts sz Hts.
  - cbn. rewrite Z.add_0_r, Hts. destruct b; by rewrite Z.add_0_r.
  - unfold ticks_sum in *. cbn [status_sizes map check_sizes numbered]. rewrite !sum_cons. fold (status_sizes st). destruct o as [d|]; cbn [status_size default id].
    + pose proof (ticks_size_range d) as [_ Hp]. rewrite (proj2 (Z.ltb_lt 0 _)) by lia. cbn [sequence_number_ delta_ticks_]. rewrite Z.eqb_refl. cbn [negb].
      assert (Hfit : (ticks_size d =? 1) && ((d <? 0) || (0xff <? d)) = false).
      { unfold ticks_size. destruct (Z.leb_spec 0 d), (Z.leb_spec d 0xff), (Z.ltb_spec d 0), (Z.ltb_spec 0xff d); try lia; done. }
      rewrite Hfit. rewrite IH by apply s64_idem. unfold delta_us, kDeltaScaleFactor. cbn [delta_ticks_].
      rewrite s64_add. match goal with |- Some (_, s64 ?x, ?y) = Some (_, s64 ?x', ?y') => replace x with x' by lia; replace y with y' by (destruct b; lia) end. done.
    + change (0 <? 0) with false. cbv iota. rewrite IH by done. match goal with |- Some (_, s64 ?x, ?y) = Some (_, s64 ?x', ?y') => replace x with x' by lia; replace y with y' by (destruct b; lia) end. done.
Qed.

Lemma represents_consistent arr t st :
  represents t st -> zlen arr = 14 ->
  IsConsistent arr t = Some (s32 (base_time_ticks_ t * kBaseScaleFactor) =? base_time_ticks_ t * kBaseScaleFactor).
Proof.
  intros Hr Ha. pose proof Hr as [H1 H2 H3 H4 H5 H6 H7 [C1 C2 C3 C4 (last & El & Hh & Hlast) C6]]. unfold IsConsistent.
  rewrite decode_chunks_symbols by done. cbn [mbind option_bind].
  assert (Elast : (if chunk_Empty (last_chunk_ t) then Some [] else AppendTo (last_chunk_ t)) = Some last).
  { rewrite (holds_empty _ _ Hh). destruct last; [done|]. by apply AppendTo_holds. }
  rewrite Elast. cbn [mbind option_bind]. rewrite <- El, C1, Z.eqb_refl. cbn [negb].
  rewrite H6, check_sizes_status; [|done|].
  - unfold kTransportFeedbackHeaderSizeBytes, kChunkSizeBytes. rewrite C6, H7. change kBaseScaleFactor with 64000.
    rewrite (proj2 (Z.eqb_eq (20 + _ + _ + _) _)) by (destruct (chunk_Empty _); lia). rewrite andb_true_r. cbn [andb]. f_equal.
    pose proof (ticks_sum_bound _ _ H5) as Hb. rewrite zlen_sizes in C2. unfold kMaxReportedPackets in C2.
    pose proof (s32_range (base_time_ticks_ t * 64000)) as Hx. unfold is_s32 in Hx. rewrite s64_id by lia.
    destruct (Z.eqb_spec (s32 (base_time_ticks_ t * 64000)) (base_time_ticks_ t * 64000)) as [->|];
      [apply Z.eqb_refl|apply Z.eqb_neq; lia].
  - apply s64_id. pose proof (s32_range (base_time_ticks_ t * kBaseScaleFactor)) as Hx. unfold is_s32 in Hx. lia.
Qed.

(** ** The objects that the methods make *)

(** Built by the constructor and the methods, [SetBase] before any packet and with a
    time that is not negative. *)
Inductive built (arr : list Z) : TransportFeedback -> Prop :=
| built_new fb include_timestamps : feedback_ok fb -> built arr (new_TransportFeedback fb arr include_timestamps)
| built_base t base_sequence ref :
    built arr t -> num_seq_no_ t = 0 -> is_u16 base_sequence -> 0 <= ref -> built arr (SetBase base_sequence ref t)
| built_sequence t n : built arr t -> is_u8 n -> built arr (SetFeedbackSequenceNumber n t)
| built_add t sequence_number timestamp_us ok t' :
    built arr t -> is_u16 sequence_number -> AddReceivedPacket (R := unit) sequence_number timestamp_us t = Next ok t' -> built arr t'.

Lemma built_represents arr t : zlen arr = 14 -> built arr t -> exists st, represents t st.
Proof.
  intros Ha. induction 1 as [fb b Hfb|t bs ref _ [st Hr] Hn Hbs Href|t n _ [st Hr] Hn|t seq ts ok t' _ [st Hr] Hs E].
  - exists []. by apply new_represents.
  - assert (st = []) as ->. { rewrite (hc_num _ _ _ (rep_chunks _ _ Hr)), zlen_sizes in Hn. by destruct st. }
    exists []. by apply SetBase_represents.
  - exists st. by apply SetFeedbackSequenceNumber_represents.
  - destruct (AddReceivedPacket_run t st seq ts Hr Hs) as (ok' & t1 & st' & E' & _ & _ & Hr'). rewrite E in E'. injection E' as <- <-. by exists st'.
Qed.

(** C17. Adding a packet to a message refines its specification: for an object that
    represents the status [st] of the packets from its base number on, [AddReceivedPacket]
    ends, its result and the status that the object then represents are those of
    [add_spec] - the packet with its ticks behind the missing numbers, or a refusal because
    of the time, the number or the count, with the missing numbers that still fit - and
    the base of the message stays. When it succeeds with time stamps, the time that the
    message gives the packet is within half a tick of its time, up to whole periods of the
    reference time, however many packets were added before. *)
Theorem add_received_packet t st sequence_number timestamp_us :
  represents t st -> is_u16 sequence_number -> - 2 ^ 62 <= timestamp_us < 2 ^ 62 ->
  exists ok t' st', AddReceivedPacket (R := unit) sequence_number timestamp_us t = Next ok t' /\
    (ok, st') = add_spec (include_timestamps_ t) (base_seq_no_ t) (base_time_ticks_ t) st sequence_number timestamp_us /\
    same_base t t' /\ represents t' st' /\
    (ok = true -> include_timestamps_ t = true ->
       exists m, Z.abs (timestamp_us - last_timestamp_us_ t' - m * kTimeWrapPeriodUs) <= 125).
Proof.
  intros Hr Hs Ht. destruct (AddReceivedPacket_run t st sequence_number timestamp_us Hr Hs) as (ok & t' & st' & E & Hok & Hsame & Hr').
  exists ok, t', st'. split_and!; [done|done|done|done|]. intros -> Hinc. unfold add_spec in Hok. rewrite Hinc, <- (rep_time _ _ Hr) in Hok.
  destruct (negb _); [done|]. destruct (negb _); [done|]. destruct (Nat.ltb _ _); [|done]. injection Hok as ->.
  destruct Hsame as (_ & _ & B3 & _). rewrite (rep_time _ _ Hr'), B3, !ticks_sum_app, ticks_missing. 
  change (ticks_sum [Some (delta_full timestamp_us (last_timestamp_us_ t))]) with (0 + delta_full timestamp_us (last_timestamp_us_ t)).
  destruct (delta_full_error timestamp_us (last_timestamp_us_ t)) as [m Hm].
  - pose proof (last_bound t st Hr). lia.
  - exists m. rewrite (rep_time _ _ Hr) in Hm at 1. lia.
Qed.

Lemma add_received_packet_witness :
  exists ok t' st', AddReceivedPacket (R := unit) 7 1000300 (SetBase 5 1000000 (new_TransportFeedback (mkFeedback 1 2) (replicate 14 0) true)) = Next ok t' /\
    (ok, st') = (true, [None; None; Some 161]) /\ represents t' st'.
Proof.
  destruct (add_received_packet (SetBase 5 1000000 (new_TransportFeedback (mkFeedback 1 2) (replicate 14 0) true)) [] 7 1000300) as (ok & t' & st' & E & Hok & _ & Hr & _).
  - apply SetBase_represents; [apply new_represents; [unfold feedback_ok; cbn; clia|reflexivity]|clia|lia].
  - clia.
  - lia.
  - exists ok, t', st'. split; [exact E|]. split; [exact Hok|exact Hr].
Defined.

(** C30. The check that an object is consistent: for every object that the constructor and
    the methods make, [IsConsistent] finds the sizes, numbers, times and bytes as they
    should be, so that its result is whether the reference time in microseconds, which
    it computes as a product of two [int], fits 32 bits: from a reference time of
    2147 seconds on it reports objects as inconsistent that are not. *)
Theorem consistent_objects arr t :
  zlen arr = 14 -> built arr t ->
  (exists st, represents t st) /\ IsConsistent arr t = Some (base_time_ticks_ t <=? 33554).
Proof.
  intros Ha Hb. destruct (built_represents arr t Ha Hb) as [st Hr]. split; [by exists st|]. rewrite (represents_consistent arr t st Hr Ha). f_equal.
  pose proof (rep_ticks _ _ Hr) as Ht. change kBaseScaleFactor with 64000. destruct (Z.leb_spec (base_time_ticks_ t) 33554).
  - apply Z.eqb_eq, s32_id. clia.
  - apply Z.eqb_neq. pose proof (s32_range (base_time_ticks_ t * 64000)). clia.
Qed.

Lemma consistent_objects_witness :
  IsConsistent (replicate 14 0) (SetBase 5 2147483647 (new_TransportFeedback (mkFeedback 1 2) (replicate 14 0) true)) = Some true /\
  IsConsistent (replicate 14 0) (SetBase 5 2147520000 (new_TransportFeedback (mkFeedback 1 2) (replicate 14 0) true)) = Some false.
Proof.
  split.
  - destruct (consistent_objects (replicate 14 0) (SetBase 5 2147483647 (new_TransportFeedback (mkFeedback 1 2) (replicate 14 0) true))) as [_ E];
      [reflexivity|apply built_base; [apply built_new; unfold feedback_ok; cbn; clia|reflexivity|clia|lia]|exact E].
  - destruct (consistent_objects (replicate 14 0) (SetBase 5 2147520000 (new_TransportFeedback (mkFeedback 1 2) (replicate 14 0) true))) as [_ E];
      [reflexivity|apply built_base; [apply built_new; unfold feedback_ok; cbn; clia|reflexivity|clia|lia]|exact E].
Defined.
