(* ===== verification/TransportWire.v ===== *)
(** * Transport feedback: the message on the wire

    The bytes that [Create] writes for the status of packets that the object
    represents, padding included, and what [Parse] makes of them. *)

From S2P Require Import Prelude ByteIo Rtcp RtcpFields RtcpFeedback TransportChunk TransportFeedback TransportSend.

Open Scope Z_scope.
Open Scope c_scope.

(** ** The bytes of a message *)

Definition ticks_bytes (delta : Z) : list Z :=
  if (0 <=? delta) && (delta <=? 0xff) then [delta] else be_bytes 2 (delta mod 2 ^ 16).

Definition status_bytes (st : list (option Z)) : list Z :=
  concat (map (fun o => match o with None => [] | Some delta => ticks_bytes delta end) st).

Definition padding_bytes (n : Z) : list Z := if 0 <? n then replicate (Z.to_nat (n - 1)) 0 ++ [n] else [].

(** [words] are the chunks. *)
Definition message_body (t : TransportFeedback) (words : list Z) (st : list (option Z)) : list Z :=
  feedback_bytes (tf_base t) ++ be_bytes 2 (base_seq_no_ t) ++ be_bytes 2 (num_seq_no_ t) ++ be_bytes 3 (base_time_ticks_ t mod 2 ^ 32) ++
  [feedback_seq_ t] ++ concat (map (be_bytes 2) words) ++ (if include_timestamps_ t then status_bytes st else []).

(** A block whose body is followed by [n] bytes of padding. *)
Definition padded_block (n : Z) (body : list Z) : list Z :=
  ([if 0 <? n then 0xAF else 0x8F; 205] ++ be_bytes 2 ((zlen body + n) / 4)) ++ body ++ padding_bytes n.

Lemma zlen_padding n : 0 <= n -> zlen (padding_bytes n) = n.
Proof.
  intros Hn. unfold padding_bytes. destruct (Z.ltb_spec 0 n); [|rewrite zlen_nil; lia]. rewrite zlen_app, zlen_replicate, zlen_cons, zlen_nil. lia.
Qed.

Lemma padding_u8 n : 0 <= n < 4 -> Forall is_u8 (padding_bytes n).
Proof.
  intros Hn. unfold padding_bytes. destruct (0 <? n); [|constructor]. apply list.Forall_app. split; [|constructor; [clia|constructor]].
  apply list.Forall_replicate. clia.
Qed.

Lemma ticks_bytes_u8 d : Forall is_u8 (ticks_bytes d).
Proof.
  unfold ticks_bytes. destruct (Z.leb_spec 0 d), (Z.leb_spec d 0xff); cbn [andb]; try apply be_bytes_u8. constructor; [clia|constructor].
Qed.

Lemma zlen_ticks d : zlen (ticks_bytes d) = ticks_size d.
Proof. unfold ticks_bytes, ticks_size. destruct (_ && _); [done|apply zlen_be_bytes]. Qed.

Lemma zlen_status st : zlen (status_bytes st) = sum_sizes (status_sizes st).
Proof.
  induction st as [|o st IH]; [done|]. unfold status_bytes, status_sizes in *. cbn [map concat]. rewrite zlen_app, sum_cons, IH.
  destruct o; cbn [status_size]; [by rewrite zlen_ticks|by rewrite zlen_nil].
Qed.

Lemma status_bytes_u8 st : Forall is_u8 (status_bytes st).
Proof. apply items_u8. intros [d|]; [apply ticks_bytes_u8|constructor]. Qed.

Lemma numbered_bytes seq_no st : concat (map (fun p => ticks_bytes (delta_ticks_ p)) (numbered seq_no st)) = status_bytes st.
Proof.
  revert seq_no. induction st as [|[d|] st IH]; intros seq_no; [done|..]; unfold status_bytes; cbn [numbered map concat delta_ticks_ app];
    by rewrite IH.
Qed.

Lemma block_length_round size : Z.land (size + 3) (Z.lnot 3) = 4 * ((size + 3) / 4).
Proof. rewrite <- Z.ldiff_land. change (Z.ldiff (size + 3) 3) with (Z.ldiff (size + 3) (Z.ones 2)).
  rewrite Z.ldiff_ones_r, Z.shiftl_mul_pow2, shiftr_div by lia. change (2 ^ 2) with 4. lia. Qed.

Lemma padding_range t : 0 <= PaddingLength t < 4 /\ (transport_BlockLength t) mod 4 = 0 /\ transport_BlockLength t = size_bytes_ t + PaddingLength t.
Proof.
  unfold PaddingLength, transport_BlockLength. rewrite block_length_round. split_and!; [| | |lia].
  - pose proof (Z.mod_pos_bound (size_bytes_ t + 3) 4 ltac:(lia)). pose proof (Z.div_mod (size_bytes_ t + 3) 4 ltac:(lia)). lia.
  - pose proof (Z.mod_pos_bound (size_bytes_ t + 3) 4 ltac:(lia)). pose proof (Z.div_mod (size_bytes_ t + 3) 4 ltac:(lia)). lia.
  - rewrite Z.mul_comm. by apply Z.mod_mul.
Qed.

(** ** Writing *)

Lemma put_chunk_writes chunk : writes (fun R => put_chunk chunk) (be_bytes 2 chunk).
Proof. unfold put_chunk. group_fields. Qed.

Lemma put_delta_writes p : writes (fun R => put_delta p) (ticks_bytes (delta_ticks_ p)).
Proof.
  unfold put_delta, ticks_bytes. cbv zeta. destruct (Z.leb_spec 0 (delta_ticks_ p)), (Z.leb_spec (delta_ticks_ p) 0xff); cbn [andb]; [|group_fields..].
  assert (is_u8 (delta_ticks_ p)) by clia. group_fields.
Qed.

Lemma put_padding_writes n : 0 <= n < 4 -> writes (fun R => put_padding n) (padding_bytes n).
Proof.
  intros Hn. unfold put_padding, padding_bytes. destruct (Z.ltb_spec 0 n); [|apply writes_nil]. rewrite u8_id by clia.
  apply (writes_seq (fun R => put_all (fun v => put_byte_at 0 v ;; advance 1) (replicate (Z.to_nat (n - 1)) 0))
    (fun R => put_byte_at 0 n ;; advance 1)).
  - assert (E : forall l : list Z, l = concat (map (fun v => [v]) l)) by (induction l as [|x l IH]; cbn; congruence).
    assert (H0 : is_u8 0) by clia.
    assert (Hw : Forall (fun v => writes (fun R => put_byte_at 0 v ;; advance 1) [v]) (replicate (Z.to_nat (n - 1)) 0)).
    { apply list.Forall_replicate. group_fields. }
    apply (writes_all (fun v R => put_byte_at 0 v ;; advance 1)) in Hw. by rewrite <- E in Hw.
  - assert (is_u8 n) by clia. group_fields.
Qed.

Lemma represents_chunks t st :
  represents t st -> st <> [] ->
  exists last w, status_sizes st = concat (map chunk_symbols (encoded_chunks_ t)) ++ last /\ last <> [] /\ chunk_Empty (last_chunk_ t) = false /\
    EncodeLast (last_chunk_ t) = Some w /\ is_u16 w /\ take (length last) (chunk_symbols w) = last.
Proof.
  intros Hr Hne. destruct (hc_chunks _ _ _ (rep_chunks _ _ Hr)) as (last & E & Hh & Hlast).
  assert (last <> []). { intros E0. apply Hne. specialize (Hlast E0). by destruct st. }
  destruct (EncodeLast_symbols _ _ Hh ltac:(done)) as (w & Ew & Hw & Hsym). exists last, w. split_and!; auto.
  rewrite (holds_empty _ _ Hh). by destruct last.
Qed.

Lemma transport_fields_writes t st w :
  represents t st -> chunk_Empty (last_chunk_ t) = false -> EncodeLast (last_chunk_ t) = Some w ->
  writes (fun R => transport_fields t) (message_body t (encoded_chunks_ t ++ [w]) st ++ padding_bytes (PaddingLength t)).
Proof.
  intros Hr He Ew. pose proof Hr as [H1 H2 H3 H4 H5 H6 H7 H8]. unfold transport_fields, message_body. rewrite He. cbn [negb].
  rewrite map_app, concat_app. cbn [map concat]. rewrite app_nil_r. rewrite <- !app_assoc.
  apply (writes_seq (fun R => CreateCommonFeedback (tf_base t))); [apply feedback_writes|].
  apply (writes_seq (fun R => put_be 2 0 (base_seq_no_ t) ;; advance 2)); [group_fields|].
  apply (writes_seq (fun R => put_be 2 0 (num_seq_no_ t) ;; advance 2)); [group_fields|].
  apply (writes_seq (fun R => put_be 3 0 (base_time_ticks_ t mod 2 ^ 32) ;; advance 3)); [group_fields|].
  apply (writes_seq (fun R => put_byte_at 0 (feedback_seq_ t) ;; advance 1)); [group_fields|].
  apply (writes_seq (fun R => put_all put_chunk (encoded_chunks_ t))).
  { apply (writes_all (fun c R => put_chunk c)). apply list.Forall_forall. intros c _. apply put_chunk_writes. }
  apply (writes_seq (fun R => let! chunk := mem (EncodeLast (last_chunk_ t)) in put_chunk chunk)).
  { intros R s rdy l Q QR Hs Hl HQ. wp_step. apply (wp_mem _ _ _ _ _ Ew). by eapply put_chunk_writes. }
  apply (writes_seq (fun R => if include_timestamps_ t then put_all put_delta (packets_ t) else ret tt)).
  { destruct (include_timestamps_ t); [|apply writes_nil]. rewrite H6, <- (numbered_bytes (base_seq_no_ t)).
    apply (writes_all (fun p R => put_delta p)). apply list.Forall_forall. intros p _. apply put_delta_writes. }
  apply put_padding_writes. apply padding_range.
Qed.

Lemma zlen_message t st w :
  represents t st -> chunk_Empty (last_chunk_ t) = false -> zlen (message_body t (encoded_chunks_ t ++ [w]) st) = size_bytes_ t - 4.
Proof.
  intros Hr He. unfold message_body. rewrite !zlen_app, zlen_feedback, !zlen_be_bytes, (zlen_items (be_bytes 2) 2) by apply zlen_be_bytes.
  rewrite (hc_size _ _ _ (rep_chunks _ _ Hr)), He, length_app. cbn [length]. change (zlen [_]) with 1.
  destruct (include_timestamps_ t); rewrite ?zlen_status, ?zlen_nil; lia.
Qed.

Lemma message_u8 t words st : is_u8 (feedback_seq_ t) -> Forall is_u8 (message_body t words st).
Proof.
  intros Hf. unfold message_body. rewrite !list.Forall_app. split_and!; try apply be_bytes_u8; [apply feedback_u8|by constructor|by apply items_u8, be_bytes_u8|].
  destruct (include_timestamps_ t); [apply status_bytes_u8|constructor].
Qed.

Lemma feedback_header_writes length padding :
  0 <= length <= 65535 ->
  writes (fun R => CreateHeader kFeedbackMessageType Rtpfb_kPacketType length padding) ([if padding : bool then 0xAF else 0x8F; 205] ++ be_bytes 2 length).
Proof.
  intros Hl. unfold CreateHeader, kFeedbackMessageType, Rtpfb_kPacketType. cbv zeta.
  assert (E2 : [Z.land (Z.shiftr length 8) 0xff; Z.land length 0xff] = be_bytes 2 length).
  { cbn [be_bytes]. unfold u8. rewrite !land_low8, Z.shiftr_0_r. done. }
  rewrite <- E2.
  assert (E0 : Z.lor (Z.lor (Z.shiftl 2 6) (if padding then Z.shiftl 1 5 else 0)) (u8 15) = if padding then 0xAF else 0x8F) by (by destruct padding).
  rewrite E0. set (b0 := if padding then 0xAF else 0x8F). cbn [app].
  assert (H0 : is_u8 b0) by (unfold b0; destruct padding; clia). assert (H1 : is_u8 205) by clia.
  assert (H2 : is_u8 (Z.land (Z.shiftr length 8) 0xff)) by (rewrite land_low8; apply u8_range).
  assert (H3 : is_u8 (Z.land length 0xff)) by (rewrite land_low8; apply u8_range).
  group_fields.
Qed.

Lemma transport_write_writes t st w :
  represents t st -> chunk_Empty (last_chunk_ t) = false -> EncodeLast (last_chunk_ t) = Some w ->
  writes (fun R => transport_write t) (padded_block (PaddingLength t) (message_body t (encoded_chunks_ t ++ [w]) st)).
Proof.
  intros Hr He Ew. unfold transport_write, padded_block. pose proof (padding_range t) as (Hp & Hm & Hbl).
  pose proof (zlen_message t st w Hr He) as Hz. unfold HeaderLength, kHeaderLength.
  replace (zlen (message_body t (encoded_chunks_ t ++ [w]) st) + PaddingLength t) with (transport_BlockLength t - 4) by lia.
  apply (writes_seq (fun R => CreateHeader kFeedbackMessageType Rtpfb_kPacketType ((transport_BlockLength t - 4) / 4) (0 <? PaddingLength t)));
    [|by apply transport_fields_writes].
  apply feedback_header_writes. pose proof (size_below_max _ _ _ (rep_chunks _ _ Hr) (extra_bounds st _)) as Hmax.
  change kMaxSizeBytes with 262144 in Hmax. pose proof (zlen_nonneg (message_body t (encoded_chunks_ t ++ [w]) st)).
  split; [apply Z.div_pos; lia|apply Z.div_le_upper_bound; lia].
Qed.

(** ** The common header of a padded block *)

Lemma CommonHeader_Parse_padded n body :
  0 <= n < 4 -> Forall is_u8 body -> (zlen body + n) mod 4 = 0 -> zlen body + n <= 4 * 65535 ->
  CommonHeader_Parse (padded_block n body) = Some (Some (mkHeader 205 15 n (zlen body) body)).
Proof.
  intros Hn Hu Hm Hl. pose proof (zlen_nonneg body).
  assert (Hall : Forall is_u8 (padded_block n body)).
  { unfold padded_block. rewrite !list.Forall_app. split_and!; [|apply be_bytes_u8|done|by apply padding_u8].
    repeat constructor; destruct (0 <? n); clia. }
  assert (Hz : zlen (padded_block n body) = 4 + zlen body + n).
  { unfold padded_block. rewrite !zlen_app, zlen_be_bytes, zlen_padding, !zlen_cons, zlen_nil by lia. lia. }
  pose proof (starts_self (padded_block n body)) as Hs. unfold padded_block in Hs at 2. rewrite <- !app_assoc in Hs.
  apply starts_byte in Hs as [H0 Hs]. apply starts_byte in Hs as [H1 Hs]. cbn [app] in Hs.
  apply starts_be in Hs as [H2 Hs]; [|done|split; [apply Z.div_pos; lia|apply Z.div_lt_upper_bound; cbn; lia]].
  apply starts_app in Hs as [Hbody Hpad].
  change (0 + 1) with 1 in *. change (1 + 1) with 2 in *. change (2 + Z.of_nat 2) with 4 in *.
  unfold CommonHeader_Parse, kHeaderLength. rewrite Hz, (proj2 (Z.ltb_ge _ 4)) by lia. rewrite H0. cbn [mbind option_bind].
  assert (E4 : (zlen body + n) / 4 * 4 = zlen body + n).
  { pose proof (Z.div_mod (zlen body + n) 4 ltac:(lia)). lia. }
  unfold padding_bytes in Hpad. destruct (Z.ltb_spec 0 n) as [Hpos|Hzero].
  - change (Z.shiftr 0xAF 6) with 2. change (2 =? 2) with true. cbn [negb]. rewrite H1. cbn [mbind option_bind]. rewrite H2. cbn [mbind option_bind].
    rewrite E4, (proj2 (Z.ltb_ge _ (4 + _))) by lia. change (negb (Z.land 0xAF 0x20 =? 0)) with true. cbv iota.
    rewrite (proj2 (Z.eqb_neq _ 0)) by lia. apply starts_app in Hpad as [_ Hpad]. rewrite zlen_replicate in Hpad.
    apply starts_byte in Hpad as [Hpad _]. replace (4 + (zlen body + n - 1)) with (4 + zlen body + Z.of_nat (Z.to_nat (n - 1))) by lia.
    rewrite Hpad. cbn [mbind option_bind]. rewrite (proj2 (Z.eqb_neq n 0)), (proj2 (Z.ltb_ge _ n)) by lia.
    replace (zlen body + n - n) with (zlen body) by lia. unfold starts in Hbody. rewrite Hbody. done.
  - assert (n = 0) as -> by lia. rewrite Z.add_0_r in *. change (Z.shiftr 0x8F 6) with 2. change (2 =? 2) with true. cbn [negb]. rewrite H1. cbn [mbind option_bind].
    rewrite H2. cbn [mbind option_bind]. rewrite E4, (proj2 (Z.ltb_ge _ (4 + _))) by lia. change (negb (Z.land 0x8F 0x20 =? 0)) with false. cbv iota.
    unfold starts in Hbody. rewrite Hbody. done.
Qed.

(** ** Sending *)

Lemma holds_start buffer : zlen buffer = IP_PACKET_SIZE -> holds (mkSink buffer 0 []) 0 [] [].
Proof.
  intros Hl. split; auto. cbn [sink_packet]. apply read_bytes_spec. rewrite zlen_nil. unfold IP_PACKET_SIZE in Hl. split_and!; [lia|done|lia|lia].
Qed.

(** The bytes of the message of an object. *)
Definition message (t : TransportFeedback) (w : Z) (st : list (option Z)) : list Z :=
  padded_block (PaddingLength t) (message_body t (encoded_chunks_ t ++ [w]) st).

Lemma zlen_message_block t st w :
  represents t st -> chunk_Empty (last_chunk_ t) = false -> zlen (message t w st) = transport_BlockLength t.
Proof.
  intros Hr He. pose proof (padding_range t) as (Hp & _ & Hbl). unfold message, padded_block.
  rewrite !zlen_app, zlen_be_bytes, zlen_padding, (zlen_message t st w Hr He), !zlen_cons, zlen_nil by lia. lia.
Qed.

Lemma num_status t st : represents t st -> num_seq_no_ t = Z.of_nat (length st).
Proof. intros Hr. by rewrite (hc_num _ _ _ (rep_chunks _ _ Hr)), zlen_sizes. Qed.

Lemma transport_Build buffer t st w max_length :
  represents t st -> st <> [] -> chunk_Empty (last_chunk_ t) = false -> EncodeLast (last_chunk_ t) = Some w ->
  zlen buffer = IP_PACKET_SIZE -> 0 <= max_length <= IP_PACKET_SIZE ->
  exists packets, Build buffer t max_length = Some (transport_BlockLength t <=? max_length, packets) /\
    (transport_BlockLength t <= max_length -> packets = [message t w st]).
Proof.
  intros Hr Hne He Ew Hbuf Hmax. pose proof (zlen_message_block t st w Hr He) as Hz. pose proof (num_status t st Hr) as Hn.
  assert (Hsz : 20 <= size_bytes_ t).
  { rewrite (hc_size _ _ _ (rep_chunks _ _ Hr)). pose proof (extra_bounds st (include_timestamps_ t)). destruct (chunk_Empty _); lia. }
  pose proof (padding_range t) as (Hp & _ & Hbl).
  assert (Hw : wp (Create t max_length) (mkSink buffer 0 [])
    (fun ok s => ok = true /\ transport_BlockLength t <= max_length /\ holds s (zlen (message t w st)) [] (message t w st))
    (fun ok s => ok = false /\ max_length < transport_BlockLength t)).
  { cbn [Create Transport_Packet]. unfold transport_Create. rewrite (proj2 (Z.eqb_neq _ 0)) by (destruct st; [done|cbn [length] in Hn; lia]). unfold create_block. wp_step.
    eapply (make_room_wp _ _ _ [] []); [exact (holds_start _ Hbuf)|lia| |done]. intros Hfit s rdy l Hs Hl [[-> ->]|(? & _)]; [|rewrite zlen_nil in *; lia].
    wp_step. eapply (transport_write_writes t st w Hr He Ew); [exact Hs|fold (message t w st); rewrite zlen_nil; lia|].
    intros s' Hs'. wp_step. by split_and!. }
  unfold Build. rewrite (proj2 (Z.ltb_ge _ _)) by lia. unfold fn. unfold wp in Hw.
  destruct (Create t max_length (mkSink buffer 0 [])) as [ok s|ok s| |]; [| |done|done].
  - destruct Hw as (-> & Hfit & Hs).
    assert (Hflush : wp (OnBufferFull (R := unit)) s (fun ok s' => ok = true /\ sink_ready s' = [message t w st]) (fun _ _ => False)).
    { eapply OnBufferFull_wp; [exact Hs|done|lia|]. intros _ s' Hs'. split; [done|]. by rewrite (ho_ready _ _ _ _ Hs'). }
    apply wp_run in Hflush as (ok & s' & E' & -> & Hready). rewrite E', Hready. rewrite (proj2 (Z.leb_le _ _)) by done. by eexists.
  - destruct Hw as [-> Hlt]. rewrite (proj2 (Z.leb_gt _ _)) by done. eexists. split; [done|lia].
Qed.

(** ** Receiving *)

(** What the loops of [Parse] over chunks leave as it is. *)
Lemma parse_chunks_wp enc w last d rest end_index ds0 index fuel t Q QR :
  zlen (delta_sizes_ (last_chunk_ t)) = 14 -> Forall is_u8 d -> zlen d = end_index -> 0 <= index ->
  Forall is_u16 enc -> is_u16 w -> take (length last) (chunk_symbols w) = last -> last <> [] ->
  starts d index (concat (map (be_bytes 2) (enc ++ [w])) ++ rest) -> (length enc + 1 < fuel)%nat ->
  (forall t', same_fields t t' -> Q (ds0 ++ concat (map chunk_symbols enc) ++ last, index + 2 * (Z.of_nat (length enc) + 1)) t') ->
  wp (parse_chunks fuel d end_index (zlen (ds0 ++ concat (map chunk_symbols enc) ++ last)) ds0 index) t Q QR.
Proof.
  intros Hc Hu Hend Hi Henc Hw Hlast Hne. revert t Hc ds0 index fuel Hi. unfold is_u16 in Hw.
  assert (Hll : 0 < zlen last) by (destruct last; [done|rewrite zlen_cons; pose proof (zlen_nonneg last); lia]).
  assert (Hstep : forall x xs rest n ds0 index fuel t Q,
    is_u16 x -> zlen (delta_sizes_ (last_chunk_ t)) = 14 -> 0 <= index -> zlen ds0 < n ->
    starts d index (concat (map (be_bytes 2) (x :: xs)) ++ rest) ->
    (forall t', same_fields t t' -> zlen (delta_sizes_ (last_chunk_ t')) = 14 -> starts d (index + 2) (concat (map (be_bytes 2) xs) ++ rest) ->
       wp (parse_chunks fuel d end_index n (ds0 ++ take (Z.to_nat (n - zlen ds0)) (chunk_symbols x)) (index + 2)) t' Q QR) ->
    wp (parse_chunks (S fuel) d end_index n ds0 index) t Q QR).
  { clear -Hu Hend. intros x xs rest n ds0 index fuel t Q Hx Hc Hi Hlt Hs Hk. cbn [parse_chunks]. rewrite (proj2 (Z.ltb_lt _ _)) by done.
    cbn [map concat] in Hs. rewrite <- app_assoc in Hs. pose proof Hs as [Hin _]%starts_app. unfold starts in Hin. apply read_bytes_spec in Hin as (_ & _ & Hin & _).
    rewrite zlen_be_bytes in Hin. unfold kChunkSizeBytes. rewrite (proj2 (Z.ltb_ge end_index _)) by lia.
    apply starts_be in Hs as [Hread Hs]; [|done|exact Hx]. wp_step. apply (wp_mem _ _ _ _ _ Hread). wp_steps. unfold is_u16 in Hx.
    destruct (chunk_Decode_symbols (last_chunk_ t) x (n - zlen ds0) Hc ltac:(lia) ltac:(lia)) as (c & Ec & Hc' & _ & Ha).
    apply (wp_mem _ _ _ _ _ Ec). wp_steps. apply (wp_mem _ _ _ _ _ Ha). apply Hk; [done|done|exact Hs]. }
  induction Henc as [|x enc Hx Henc IH]; intros t Hc ds0 index fuel Hi Hs Hf HQ; (destruct fuel as [|fuel]; [lia|]); cbn [map concat app] in *.
  - eapply (Hstep w []); [exact Hw|done|done|rewrite zlen_app; lia|exact Hs|]. intros t' Hsame Hc' Hs'.
    replace (Z.to_nat (zlen (ds0 ++ last) - zlen ds0)) with (length last) by (rewrite zlen_app; unfold zlen; lia). rewrite Hlast.
    destruct fuel as [|fuel]; [cbn in Hf; lia|]. cbn [parse_chunks]. rewrite Z.ltb_irrefl. wp_steps. specialize (HQ t' Hsame). exact HQ.
  - eapply (Hstep x (enc ++ [w])); [exact Hx|done|done| |exact Hs|].
    { rewrite !zlen_app. pose proof (zlen_nonneg (chunk_symbols x)). pose proof (zlen_nonneg (concat (map chunk_symbols enc))). lia. }
    intros t' Hsame Hc' Hs'.
    replace (take (Z.to_nat (zlen (ds0 ++ (chunk_symbols x ++ concat (map chunk_symbols enc)) ++ last) - zlen ds0)) (chunk_symbols x)) with (chunk_symbols x).
    + replace (ds0 ++ (chunk_symbols x ++ concat (map chunk_symbols enc)) ++ last) with ((ds0 ++ chunk_symbols x) ++ concat (map chunk_symbols enc) ++ last) in * by (by rewrite <- !app_assoc).
      apply IH; [done|lia|exact Hs'|cbn [length] in Hf; lia|]. intros t2 Hs2. replace (index + 2 + 2 * (Z.of_nat (length enc) + 1)) with (index + 2 * (Z.of_nat (length (x :: enc)) + 1)) by (cbn [length]; lia).
      apply HQ. by eapply same_fields_trans.
    + symmetry. apply take_ge. rewrite !zlen_app. pose proof (zlen_nonneg (concat (map chunk_symbols enc))). unfold zlen in *. lia.
Qed.

(** The times are added up, and packets behind those that are there. *)
Definition received_more (t t' : TransportFeedback) (seq_no : Z) (st : list (option Z)) : Prop :=
  same_base t t' /\ num_seq_no_ t' = num_seq_no_ t /\ packets_ t' = packets_ t ++ numbered seq_no st /\
  last_timestamp_us_ t' = s64 (last_timestamp_us_ t + ticks_sum st * 250).

Lemma received_none t seq_no : s64 (last_timestamp_us_ t) = last_timestamp_us_ t -> received_more t t seq_no [].
Proof. intros Hs. unfold received_more. change (ticks_sum []) with 0. rewrite app_nil_r, Z.mul_0_l, Z.add_0_r. by split_and!. Qed.

Lemma received_skip t t' seq_no st : received_more t t' (u16 (seq_no + 1)) st -> received_more t t' seq_no (None :: st).
Proof. intros (H1 & H2 & H3 & H4). unfold received_more, ticks_sum in *. cbn [numbered map default]. by rewrite sum_cons. Qed.

Lemma received_next t t' seq_no delta st :
  received_more (t <| packets_ := packets_ t ++ [mkReceived seq_no delta] |> <| last_timestamp_us_ := s64 (last_timestamp_us_ t + delta * kDeltaScaleFactor) |>)
    t' (u16 (seq_no + 1)) st ->
  received_more t t' seq_no (Some delta :: st).
Proof.
  intros (H1 & H2 & H3 & H4). unfold received_more, ticks_sum, kDeltaScaleFactor in *. cbn [numbered map default id]. rewrite sum_cons.
  cbn [set packets_ last_timestamp_us_ num_seq_no_] in *. split_and!; [exact H1|exact H2|by rewrite H3, <- app_assoc|].
  rewrite H4, s64_add. f_equal. lia.
Qed.

Lemma parse_deltas_wp st d rest end_index seq_no index t Q QR :
  Forall (status_ok true) st -> Forall is_u8 d -> zlen d = end_index -> s64 (last_timestamp_us_ t) = last_timestamp_us_ t ->
  starts d index (status_bytes st ++ rest) ->
  (forall t', received_more t t' seq_no st -> Q (index + sum_sizes (status_sizes st)) t') ->
  wp (parse_deltas d end_index (status_sizes st) seq_no index) t Q QR.
Proof.
  intros Hst Hu Hend. revert seq_no index t. induction Hst as [|o st Ho _ IH]; intros seq_no index t Ht Hs HQ; cbn [status_sizes map parse_deltas].
  - wp_steps. specialize (HQ t (received_none _ _ Ht)). by rewrite Z.add_0_r in HQ.
  - unfold status_bytes, status_sizes in *. cbn [map concat] in *. rewrite sum_cons in HQ. rewrite <- app_assoc in Hs. destruct o as [delta|]; cbn [status_size] in *.
    + pose proof Hs as [Hin _]%starts_app. apply read_bytes_spec in Hin as (_ & _ & Hin & _). rewrite zlen_ticks in Hin.
      rewrite (proj2 (Z.ltb_ge end_index _)) by lia.
      assert (Hnext : starts d (index + ticks_size delta) (concat (map (fun o => match o with None => [] | Some delta => ticks_bytes delta end) st) ++ rest)).
      { apply starts_app in Hs as [_ Hs]. by rewrite zlen_ticks in Hs. }
      assert (Hgo : wp (push_received seq_no delta ;; parse_deltas d end_index (map status_size st) (u16 (seq_no + 1)) (index + ticks_size delta)) t Q QR).
      { unfold push_received. wp_steps. apply IH; [apply s64_idem|exact Hnext|]. intros t' Ht'. rewrite <- Z.add_assoc. apply HQ. by apply received_next. }
      destruct Ho as [Hd _]. unfold ticks_size in *. unfold ticks_bytes in Hs. destruct (Z.leb_spec 0 delta), (Z.leb_spec delta 0xff); cbn [andb] in *.
      * apply starts_byte in Hs as [Hs _]. change (1 =? 0) with false. change (1 =? 1) with true. cbv iota. wp_step. by apply (wp_mem _ _ _ _ _ Hs).
      * apply (starts_signed 2 16) in Hs as [Hs _]; [|lia|lia|done|exact Hd]. change (2 =? 0) with false. change (2 =? 1) with false. change (2 =? 2) with true.
        cbv iota. wp_step. by apply (wp_mem _ _ _ _ _ Hs).
      * apply (starts_signed 2 16) in Hs as [Hs _]; [|lia|lia|done|exact Hd]. change (2 =? 0) with false. change (2 =? 1) with false. change (2 =? 2) with true.
        cbv iota. wp_step. by apply (wp_mem _ _ _ _ _ Hs).
      * lia.
    + pose proof Hs as [_ Hin]%starts_app. apply starts_app in Hin as [Hin _]. apply read_bytes_spec in Hin as (_ & _ & Hin & _).
      rewrite zlen_nil in Hin. pose proof (zlen_nonneg (concat (map (fun o => match o with None => [] | Some delta => ticks_bytes delta end) st))).
      rewrite (proj2 (Z.ltb_ge end_index _)) by lia. change (0 =? 0) with true. cbv iota. cbn [app] in Hs.
      apply IH; [done|exact Hs|]. intros t' Ht'. rewrite Z.add_0_l in HQ. apply HQ. by apply received_skip.
Qed.

Lemma parse_received_wp ds seq_no t Q QR :
  s64 (last_timestamp_us_ t) = last_timestamp_us_ t ->
  (forall t', received_more t t' seq_no (map (fun d => if 0 <? d then Some 0 else None) ds) -> Q tt t') ->
  wp (parse_received ds seq_no) t Q QR.
Proof.
  revert seq_no t. induction ds as [|d ds IH]; intros seq_no t Ht HQ; cbn [parse_received map] in *.
  - wp_steps. apply HQ. by apply received_none.
  - destruct (0 <? d); wp_steps.
    + apply IH; [done|]. intros t' Ht'. apply HQ. apply received_next. unfold kDeltaScaleFactor. rewrite Z.mul_0_l, Z.add_0_r.
      cbn [set]. rewrite Ht. exact Ht'.
    + apply IH; [done|]. intros t' Ht'. apply HQ. by apply received_skip.
Qed.

Lemma be_bytes_cong n v v' : v mod 2 ^ (8 * Z.of_nat n) = v' mod 2 ^ (8 * Z.of_nat n) -> be_bytes n v = be_bytes n v'.
Proof.
  assert (Hl : forall x, length (be_bytes n x) = n) by (intros x; pose proof (zlen_be_bytes n x) as Hz; unfold zlen in Hz; lia).
  intros E. rewrite <- (be_bytes_value (be_bytes n v)), <- (be_bytes_value (be_bytes n v')) by apply be_bytes_u8.
  rewrite !be_value_bytes, !Hl. by rewrite E.
Qed.

(** The reference time is written as 24 bits and read as a signed number. *)
Definition signed24 (ticks : Z) : Z := if ticks <? 2 ^ 23 then ticks else ticks - 2 ^ 24.

Lemma signed24_bytes ticks :
  0 <= ticks < 2 ^ 24 -> be_bytes 3 (ticks mod 2 ^ 32) = be_bytes 3 (signed24 ticks mod 2 ^ 32) /\ - 2 ^ 23 <= signed24 ticks < 2 ^ 23.
Proof.
  intros Ht. unfold signed24. destruct (Z.ltb_spec ticks (2 ^ 23)); split; try done; try lia. apply be_bytes_cong. change (8 * Z.of_nat 3) with 24.
  rewrite !Z.mod_mod_divide by (by exists (2 ^ 8)). rewrite <- (Z.mod_add (ticks - 2 ^ 24) 1) by lia. f_equal. lia.
Qed.

(** What the receiver of the message of [t] has. *)
Definition received_as (t : TransportFeedback) (st : list (option Z)) (t' : TransportFeedback) : Prop :=
  tf_base t' = tf_base t /\ base_seq_no_ t' = base_seq_no_ t /\ num_seq_no_ t' = num_seq_no_ t /\ feedback_seq_ t' = feedback_seq_ t /\
  base_time_ticks_ t' = signed24 (base_time_ticks_ t) /\ packets_ t' = packets_ t /\
  include_timestamps_ t' = include_timestamps_ t || forallb (fun d => d =? 0) (status_sizes st) /\
  last_timestamp_us_ t' = last_timestamp_us_ t + (signed24 (base_time_ticks_ t) - base_time_ticks_ t) * 64000.

Lemma sum_zero_sizes ds : Forall is_delta_size ds -> forallb (fun d => d =? 0) ds = (sum_sizes ds <=? 0).
Proof.
  induction 1 as [|d ds Hd Hds IH]; [done|]. cbn [forallb]. rewrite sum_cons, IH. pose proof (sum_bounds 0 2 _ Hds). pose proof (zlen_nonneg ds).
  unfold is_delta_size in Hd. destruct (Z.eqb_spec d 0), (Z.leb_spec (sum_sizes ds) 0), (Z.leb_spec (d + sum_sizes ds) 0); cbn [andb]; lia || done.
Qed.

Lemma untimed_status st : Forall (status_ok false) st -> map (fun d => if 0 <? d then Some 0 else None) (status_sizes st) = st.
Proof.
  induction 1 as [|o st Ho _ IH]; [done|]. unfold status_sizes in *. cbn [map]. rewrite IH. f_equal. destruct o as [d|]; [|done].
  destruct Ho as [_ H0]. by rewrite H0.
Qed.

(** The second half of [Parse]: the times, when they are there. *)
Lemma parse_times_wp (t : TransportFeedback) st t1 d index Q QR :
  represents t st -> Forall is_u8 d -> include_timestamps_ t1 = true -> s64 (last_timestamp_us_ t1) = last_timestamp_us_ t1 ->
  starts d index (if include_timestamps_ t then status_bytes st else []) ->
  zlen d = index + (if include_timestamps_ t then sum_sizes (status_sizes st) else 0) ->
  (forall i t2, tf_base t2 = tf_base t1 -> base_seq_no_ t2 = base_seq_no_ t1 -> num_seq_no_ t2 = num_seq_no_ t1 -> feedback_seq_ t2 = feedback_seq_ t1 ->
     base_time_ticks_ t2 = base_time_ticks_ t1 -> packets_ t2 = packets_ t1 ++ numbered (base_seq_no_ t) st ->
     include_timestamps_ t2 = include_timestamps_ t || forallb (fun d => d =? 0) (status_sizes st) ->
     last_timestamp_us_ t2 = s64 (last_timestamp_us_ t1 + ticks_sum st * 250) -> Q i t2) ->
  wp (if index + sum_sizes (status_sizes st) <=? zlen d then parse_deltas d (zlen d) (status_sizes st) (base_seq_no_ t) index
      else modify (fun t => t <| include_timestamps_ := false |>) ;; parse_received (status_sizes st) (base_seq_no_ t) ;; ret index) t1 Q QR.
Proof.
  intros Hr Hu Hinc Ht Hs Hz HQ. pose proof (rep_status _ _ Hr) as Hst. rewrite (sum_zero_sizes _ (status_sizes_range st)) in HQ.
  pose proof (sum_bounds 0 2 _ (status_sizes_range st)) as Hsum. pose proof (zlen_nonneg (status_sizes st)).
  destruct (include_timestamps_ t) eqn:Ei.
  - rewrite (proj2 (Z.leb_le _ _)) by lia.
    apply (parse_deltas_wp st d []); [done|done|done|done|by rewrite app_nil_r|].
    intros t2 ((B1 & B2 & B3 & B4 & B5) & Hn & Hp & Hl). apply HQ; auto. by rewrite B5, Hinc.
  - destruct (Z.leb_spec (index + sum_sizes (status_sizes st)) (zlen d)) as [Hle|Hgt].
    + assert (E0 : sum_sizes (status_sizes st) = 0) by lia.
      assert (Hall : Forall (status_ok true) st).
      { eapply list.Forall_impl; [exact Hst|]. intros [x|]; [|done]. intros [Hx H0]. split; [done|done]. }
      assert (Eb : status_bytes st = []). { pose proof (zlen_status st) as Hzs. rewrite E0 in Hzs. destruct (status_bytes st) as [|x l]; [done|].
        rewrite zlen_cons in Hzs. pose proof (zlen_nonneg l). lia. }
      apply (parse_deltas_wp st d []); [done|done|done|done|by rewrite Eb|].
      intros t2 ((B1 & B2 & B3 & B4 & B5) & Hn & Hp & Hl). apply HQ; auto. by rewrite B5, Hinc, E0.
    + wp_steps. apply parse_received_wp; [done|]. rewrite untimed_status by done. intros t2 ((B1 & B2 & B3 & B4 & B5) & Hn & Hp & Hl). wp_steps.
      apply HQ; auto. rewrite B5, (proj2 (Z.leb_gt _ 0)) by lia. done.
Qed.

Lemma transport_Parse_message {R} t st last w t0 n (QR : R -> TransportFeedback -> Prop) :
  represents t st -> status_sizes st = concat (map chunk_symbols (encoded_chunks_ t)) ++ last -> last <> [] ->
  chunk_Empty (last_chunk_ t) = false -> is_u16 w -> take (length last) (chunk_symbols w) = last ->
  zlen (delta_sizes_ (last_chunk_ t0)) = 14 -> include_timestamps_ t0 = true ->
  let body := message_body t (encoded_chunks_ t ++ [w]) st in
  wp (transport_Parse (mkHeader 205 15 n (zlen body) body)) t0 (fun ok t' => ok = true /\ received_as t st t') QR.
Proof.
  intros Hr Est Hne He Hw Hlast Hc Hinc body. pose proof Hr as [H1 H2 H3 H4 H5 H6 H7 H8].
  assert (Hu : Forall is_u8 body) by (by apply message_u8). assert (Hz : zlen body = size_bytes_ t - 4) by (by apply zlen_message).
  rewrite (hc_size _ _ _ H8), He in Hz. pose proof (extra_bounds st (include_timestamps_ t)) as Hx.
  pose proof (num_status t st Hr) as Hnum. pose proof (hc_max _ _ _ H8) as Hmax. rewrite zlen_sizes in Hmax. unfold kMaxReportedPackets in Hmax.
  assert (Hst : (0 < length st)%nat). { destruct st; [|cbn; lia]. destruct (concat _), last; done. }
  assert (Hs : starts body 0 (message_body t (encoded_chunks_ t ++ [w]) st)) by apply starts_self. unfold message_body in Hs.
  apply ParseCommonFeedback_bytes in Hs as [Efb Hs]; [|done|done].
  apply starts_be in Hs as [Eseq Hs]; [|done|exact H2]. apply starts_be in Hs as [Enum Hs]; [|done|cbn; lia].
  destruct (signed24_bytes _ H3) as [E24 Hr24]. rewrite E24 in Hs.
  apply (starts_signed 3 32) in Hs as [Etime Hs]; [|lia|lia|done|exact Hr24]. cbn [app] in Hs. apply starts_byte in Hs as [Efs Hs].
  change (8 + Z.of_nat 2) with 10 in *. change (10 + Z.of_nat 2) with 12 in *. change (12 + Z.of_nat 3) with 15 in *. change (15 + 1) with 16 in *.
  unfold transport_Parse, kMinPayloadSizeBytes. cbn [payload_size payload]. rewrite (proj2 (Z.ltb_ge (zlen body) _)) by (destruct (include_timestamps_ t); lia).
  wp_step. wp_step. apply (wp_mem _ _ _ _ _ Efb). wp_step. apply (wp_mem _ _ _ _ _ Eseq). wp_step. apply (wp_mem _ _ _ _ _ Enum).
  wp_step. apply (wp_mem _ _ _ _ _ Etime). wp_step. apply (wp_mem _ _ _ _ _ Efs). wp_step. wp_step.
  rewrite (proj2 (Z.eqb_neq (num_seq_no_ t) 0)) by lia.
  rewrite Hnum, <- zlen_sizes, Est. wp_step.
  apply (parse_chunks_wp (encoded_chunks_ t) w last body (if include_timestamps_ t then status_bytes st else []) (zlen body) []);
    [done|done|done|lia|exact (hc_u16 _ _ _ H8)|done|done|done|exact Hs|destruct (include_timestamps_ t); lia|].
  intros t1 (F1 & F2 & F3 & F4 & F5 & F6 & F7). cbn [app]. rewrite <- Est, zlen_sizes.
  assert (Hs64 : s64 (signed24 (base_time_ticks_ t) * 64000) = signed24 (base_time_ticks_ t) * 64000) by (apply s64_id; lia).
  wp_step. wp_step. wp_step.
  apply (parse_times_wp t st).
  - done.
  - done.
  - cbn [set include_timestamps_]. rewrite F5. exact Hinc.
  - cbn [set last_timestamp_us_]. rewrite F6. exact Hs64.
  - apply starts_app in Hs as [_ Hs]. rewrite (zlen_items (be_bytes 2) 2), length_app in Hs by apply zlen_be_bytes. cbn [length] in Hs.
    replace (16 + 2 * (Z.of_nat (length (encoded_chunks_ t)) + 1)) with (16 + 2 * Z.of_nat (length (encoded_chunks_ t) + 1)) by lia. done.
  - destruct (include_timestamps_ t); lia.
  - intros i t2 G1 G2 G3 G4 G5 G6 G7 G8. wp_step. wp_step. wp_step. split; [done|].
    cbn [set tf_base base_seq_no_ num_seq_no_ feedback_seq_ base_time_ticks_ packets_ last_timestamp_us_] in G1, G2, G3, G4, G5, G6, G8.
    rewrite F1 in G1. rewrite F2 in G2. rewrite F4 in G4. rewrite F3 in G5. rewrite F7 in G6. rewrite F6 in G8.
    unfold received_as. cbn [set tf_base base_seq_no_ num_seq_no_ feedback_seq_ base_time_ticks_ packets_ last_timestamp_us_ include_timestamps_].
    split_and!; [exact G1|exact G2|by rewrite G3, Hnum|exact G4|exact G5|by rewrite H6, G6|exact G7|].
    rewrite G8, H7. cbn [transport_Clear set last_timestamp_us_]. unfold GetBaseTimeUs. cbn [set base_time_ticks_]. change kBaseScaleFactor with 64000.
    pose proof (ticks_sum_bound _ _ H5). rewrite s64_id by lia. lia.
Qed.

(** What a message of an object is to the receiver. *)
Lemma message_received t st last w fb0 arr :
  represents t st -> status_sizes st = concat (map chunk_symbols (encoded_chunks_ t)) ++ last -> last <> [] ->
  chunk_Empty (last_chunk_ t) = false -> is_u16 w -> take (length last) (chunk_symbols w) = last -> zlen arr = 14 ->
  exists t', ParseFrom fb0 arr (message t w st) = Some (Some t') /\ received_as t st t'.
Proof.
  intros Hr Est Hne He Hw Hlast Ha. unfold ParseFrom, message. pose proof (padding_range t) as (Hp & Hm & Hbl).
  pose proof (zlen_message t st w Hr He) as Hz. pose proof (size_below_max _ _ _ (rep_chunks _ _ Hr) (extra_bounds st _)) as Hmax.
  change kMaxSizeBytes with 262144 in Hmax.
  assert (Hm4 : (transport_BlockLength t - 4) mod 4 = 0). { rewrite Zminus_mod, Hm. done. }
  rewrite CommonHeader_Parse_padded; [|done|apply message_u8, (rep_feedback_seq _ _ Hr)|rewrite Hz; by replace (size_bytes_ t - 4 + PaddingLength t) with (transport_BlockLength t - 4) by lia|].
  2: { rewrite Hz. Z.div_mod_to_equations. lia. }
  cbn [mbind option_bind packet_type_ count_or_format_]. change (negb (205 =? Rtpfb_kPacketType) || negb (15 =? kFeedbackMessageType)) with false. cbv iota.
  assert (Hw' := transport_Parse_message (R := unit) t st last w (new_TransportFeedback fb0 arr true) (PaddingLength t) (fun _ _ => False)
    Hr Est Hne He Hw Hlast Ha eq_refl).
  cbv zeta in Hw'. apply wp_run in Hw' as (ok & t' & E & -> & Hrec). rewrite E. by exists t'.
Qed.

Lemma none_received seq_no st : forallb (fun d => d =? 0) (status_sizes st) = match numbered seq_no st with [] => true | _ => false end.
Proof.
  revert seq_no. induction st as [|[d|] st IH]; intros seq_no; [done|..]; unfold status_sizes in *; cbn [map forallb numbered status_size].
  - pose proof (ticks_size_range d) as [_ Hp]. by rewrite (proj2 (Z.eqb_neq _ 0)) by lia.
  - cbn [andb]. apply IH.
Qed.

(** The message of an object that represents the status of packets, from the buffer of
    the sender to the object of the receiver. *)
Lemma feedback_delivery buffer arr fb0 t st max_length :
  represents t st -> st <> [] -> zlen buffer = IP_PACKET_SIZE -> zlen arr = 14 -> 0 <= max_length <= IP_PACKET_SIZE ->
  exists packets, Build buffer t max_length = Some (transport_BlockLength t <=? max_length, packets) /\
    (transport_BlockLength t <= max_length -> exists packet t', packets = [packet] /\ zlen packet = transport_BlockLength t /\
       ParseFrom fb0 arr packet = Some (Some t') /\ received_as t st t').
Proof.
  intros Hr Hne Hbuf Ha Hmax. destruct (represents_chunks t st Hr Hne) as (last & w & Est & Hlast & He & Ew & Hw & Hsym).
  destruct (transport_Build buffer t st w max_length Hr Hne He Ew Hbuf Hmax) as (packets & E & Hp). exists packets. split; [done|]. intros Hfit.
  destruct (message_received t st last w fb0 arr Hr Est Hlast He Hw Hsym Ha) as (t' & Et & Hrec).
  exists (message t w st), t'. split_and!; [by apply Hp|by apply zlen_message_block|done|done].
Qed.

(** C16. Transport feedback arrives: for every object that the constructor and the methods
    make and that reports a packet, [Build] succeeds exactly when the message, padded to
    whole words, fits the packet; [ParseFrom] of that packet then accepts it and has the
    SSRCs, the base number, the number of packets, the number of the message and
    the received packets with their ticks. The reference time is that of the sender when
    its 24 bits are below 2^23 and one period earlier otherwise. The times are there
    when the sender included them, and also when no packet was received. *)
Theorem feedback_roundtrip arr buffer arr' fb0 t max_length :
  zlen arr = 14 -> built arr t -> num_seq_no_ t <> 0 -> zlen buffer = IP_PACKET_SIZE -> zlen arr' = 14 -> 0 <= max_length <= IP_PACKET_SIZE ->
  exists packets, Build buffer t max_length = Some (transport_BlockLength t <=? max_length, packets) /\
    (transport_BlockLength t <= max_length -> exists packet t', packets = [packet] /\ zlen packet = transport_BlockLength t /\
       ParseFrom fb0 arr' packet = Some (Some t') /\
       tf_base t' = tf_base t /\ base_seq_no_ t' = base_seq_no_ t /\ num_seq_no_ t' = num_seq_no_ t /\ feedback_seq_ t' = feedback_seq_ t /\
       packets_ t' = packets_ t /\ base_time_ticks_ t' = signed24 (base_time_ticks_ t) /\
       include_timestamps_ t' = include_timestamps_ t || match packets_ t with [] => true | _ => false end).
Proof.
  intros Ha Hb Hn Hbuf Ha' Hmax. destruct (built_represents arr t Ha Hb) as [st Hr].
  assert (st <> []) as Hne. { intros ->. apply Hn. by rewrite (num_status _ _ Hr). }
  destruct (feedback_delivery buffer arr' fb0 t st max_length Hr Hne Hbuf Ha' Hmax) as (packets & E & Hp). exists packets. split; [done|]. intros Hfit.
  destruct (Hp Hfit) as (packet & t' & -> & Hz & Et & (R1 & R2 & R3 & R4 & R5 & R6 & R7 & _)). exists packet, t'.
  rewrite (none_received (base_seq_no_ t)), <- (rep_packets _ _ Hr) in R7. by split_and!.
Qed.

Lemma feedback_roundtrip_witness :
  let t := SetBase 5 1000000 (new_TransportFeedback (mkFeedback 1 2) (replicate 14 0) false) in
  match AddReceivedPacket (R := unit) 7 0 t with
  | Next _ t1 =>
      exists packets, Build (replicate 1500 0) t1 1200 = Some (true, packets) /\
        exists packet t', packets = [packet] /\ ParseFrom (mkFeedback 0 0) (replicate 14 9) packet = Some (Some t') /\
          packets_ t' = [mkReceived 7 0] /\ include_timestamps_ t' = false
  | _ => False
  end.
Proof.
  intros t. destruct (AddReceivedPacket (R := unit) 7 0 t) as [ok t1| | |] eqn:E; [|discriminate E..].
  assert (Hb : built (replicate 14 0) t1).
  { apply (built_add _ t 7 0 ok t1); [|clia|exact E]. apply built_base; [apply built_new; unfold feedback_ok; cbn; clia|reflexivity|clia|lia]. }
  vm_compute in E. injection E as _ Et1.
  destruct (feedback_roundtrip (replicate 14 0) (replicate 1500 0) (replicate 14 9) (mkFeedback 0 0) t1 1200) as (packets & EB & Hp);
    [reflexivity|exact Hb|rewrite <- Et1; discriminate|reflexivity|reflexivity|unfold IP_PACKET_SIZE; lia|].
  exists packets. rewrite <- Et1 in EB. split; [rewrite <- Et1; exact EB|].
  destruct Hp as (packet & t' & Hpk & _ & HP & _ & _ & _ & _ & Hpackets & _ & Hinc); [rewrite <- Et1; vm_compute; discriminate|].
  exists packet, t'. split; [exact Hpk|]. split; [exact HP|]. rewrite <- Et1 in Hpackets, Hinc. split; [exact Hpackets|exact Hinc].
Defined.
