(* ===== verification/TransportSafe.v ===== *)
(** * Transport feedback: messages of any content

    [Parse] on bytes that nobody checked: it ends, stays inside of the payload and
    of its arrays, and leaves an object that stands for the packets it names, or an
    empty one. *)

From S2P Require Import Prelude ByteIo Rtcp RtcpFields RtcpFeedback TransportChunk TransportFeedback TransportSend TransportWire.

Open Scope Z_scope.
Open Scope c_scope.

Definition array_ok (t : TransportFeedback) : Prop := zlen (delta_sizes_ (last_chunk_ t)) = 14.

(** The object after [Clear]. *)
Definition cleared (t : TransportFeedback) : Prop :=
  num_seq_no_ t = 0 /\ last_timestamp_us_ t = GetBaseTimeUs t /\ packets_ t = [] /\ encoded_chunks_ t = [] /\ chunk_Empty (last_chunk_ t) = true /\ size_bytes_ t = 20.

Lemma Clear_cleared t : cleared (transport_Clear t).
Proof. by split_and!. Qed.

Definition is_symbol (d : Z) : Prop := 0 <= d <= 3.

Lemma chunk_symbols_range w : 0 <= w -> Forall is_symbol (chunk_symbols w).
Proof.
  intros Hw. unfold chunk_symbols, is_symbol.
  assert (H3 : forall x, 0 <= Z.land x 0x03 <= 3).
  { intros x. change (Z.land x 3) with (Z.land x (Z.ones 2)). rewrite Z.land_ones by lia. change (2 ^ 2) with 4. pose proof (Z.mod_pos_bound x 4 ltac:(lia)). lia. }
  assert (Hf : forall bits cap, 0 <= bits <= 2 -> Forall (fun d => 0 <= d <= 3) (vector bits cap w)).
  { intros bits cap Hb. apply Forall_fmap, list.Forall_forall. intros i _. pose proof (field_range bits (cap - 1 - i) w ltac:(lia)) as Hr.
    pose proof (Z.pow_le_mono_r 2 bits 2 ltac:(lia) ltac:(lia)) as H4. change (2 ^ 2) with 4 in H4. unfold compose. lia. }
  destruct (_ =? 0); [by apply list.Forall_replicate|]. destruct (_ =? 0); apply Hf; lia.
Qed.

Lemma parse_chunks_safe d n fuel ds0 index t :
  Forall is_u8 d -> 0 <= index <= zlen d -> zlen ds0 <= n -> Forall is_symbol ds0 -> array_ok t -> (Z.to_nat (zlen d - index) < fuel)%nat ->
  wp (parse_chunks fuel d (zlen d) n ds0 index) t
    (fun r t' => zlen (fst r) = n /\ Forall is_symbol (fst r) /\ index <= snd r <= zlen d /\ same_fields t t' /\ array_ok t')
    (fun ok t' => ok = false /\ cleared t').
Proof.
  intros Hu. revert ds0 index t. induction fuel as [|fuel IH]; intros ds0 index t Hi Hn Hs Ha Hf; [lia|]. cbn [parse_chunks].
  destruct (Z.ltb_spec (zlen ds0) n) as [Hlt|Hge].
  - unfold kChunkSizeBytes. destruct (Z.ltb_spec (zlen d) (index + 2)) as [Hend|Hend]; [wp_steps; split; [done|apply Clear_cleared]|].
    destruct (ReadBigEndian_Some 2 d index) as (w & Ew & Hw); [done|lia|lia|]. wp_step. apply (wp_mem _ _ _ _ _ Ew). wp_steps.
    destruct (chunk_Decode_symbols (last_chunk_ t) w (n - zlen ds0) Ha ltac:(lia) ltac:(lia)) as (c & Ec & Hc' & _ & Hap).
    apply (wp_mem _ _ _ _ _ Ec). wp_steps. apply (wp_mem _ _ _ _ _ Hap).
    eapply wp_mono; [apply IH|cbv beta|cbv beta; done].
    + lia.
    + rewrite zlen_app. unfold zlen. rewrite length_take. unfold zlen in Hlt. lia.
    + apply list.Forall_app. split; [done|]. apply Forall_take, chunk_symbols_range. lia.
    + exact Hc'.
    + lia.
    + intros [ds i] t' (R1 & R2 & R3 & R4 & R5). cbn [fst snd] in *. split_and!; [done|done|lia|lia|exact R4|done].
  - wp_steps. cbn [fst snd]. split_and!; [lia|done|lia|lia|by unfold same_fields|done].
Qed.

Lemma parse_deltas_safe d ds seq_no index t :
  Forall is_u8 d -> 0 <= index <= zlen d -> Forall is_symbol ds -> s64 (last_timestamp_us_ t) = last_timestamp_us_ t ->
  wp (parse_deltas d (zlen d) ds seq_no index) t
    (fun i t' => exists st, length st = length ds /\ Forall (status_ok true) st /\ received_more t t' seq_no st /\ index <= i <= zlen d)
    (fun ok t' => ok = false /\ cleared t').
Proof.
  intros Hu Hi Hds. revert seq_no index t Hi. induction Hds as [|x ds Hx Hds IH]; intros seq_no index t Hi Ht; cbn [parse_deltas].
  - wp_steps. exists []. split_and!; [done|constructor|by apply received_none|lia|lia].
  - unfold is_symbol in Hx. destruct (Z.ltb_spec (zlen d) (index + x)) as [Hend|Hend]; [wp_steps; split; [done|apply Clear_cleared]|].
    destruct (Z.eqb_spec x 0) as [->|H0].
    { eapply wp_mono; [by apply IH|cbv beta|done]. intros i t' (st & Hl & Hst & Hr & Hri). exists (None :: st).
      split_and!; [cbn; lia|by constructor|by apply received_skip|lia|lia]. }
    assert (Hgo : forall delta, is_s16 delta ->
      wp (push_received seq_no delta ;; parse_deltas d (zlen d) ds (u16 (seq_no + 1)) (index + x)) t
        (fun i t' => exists st, length st = S (length ds) /\ Forall (status_ok true) st /\ received_more t t' seq_no st /\ index <= i <= zlen d)
        (fun ok t' => ok = false /\ cleared t')).
    { intros delta Hd. unfold push_received. wp_steps. eapply wp_mono; [apply IH; [lia|apply s64_idem]|cbv beta|done].
      intros i t' (st & Hl & Hst & Hr & Hri). exists (Some delta :: st). split_and!; [cbn; lia|by constructor|by apply received_next|lia|lia]. }
    destruct (Z.eqb_spec x 1) as [->|H1].
    { destruct (zget_is_Some d index) as (delta & E); [lia|]. pose proof (zget_Forall _ _ _ _ Hu E) as Hd. cbv beta in Hd.
      wp_step. apply (wp_mem _ _ _ _ _ E). apply Hgo. clia. }
    destruct (Z.eqb_spec x 2) as [->|H2]; [|wp_steps; split; [done|apply Clear_cleared]].
    destruct (ReadBigEndianSigned_Some 2 16 d index) as (delta & E & Hd); [lia|lia|done|lia|lia|].
    wp_step. apply (wp_mem _ _ _ _ _ E). apply Hgo. exact Hd.
Qed.

(** A message that was accepted, with the status of the packets it reports. *)
Record reported (t : TransportFeedback) (st : list (option Z)) : Prop := {
  re_base : is_u16 (base_seq_no_ t) /\ - 2 ^ 23 <= base_time_ticks_ t < 2 ^ 23;
  re_count : num_seq_no_ t = Z.of_nat (length st) /\ 1 <= Z.of_nat (length st) <= 65535;
  re_status : Forall (status_ok (include_timestamps_ t)) st;
  re_packets : packets_ t = numbered (base_seq_no_ t) st;
  re_time : last_timestamp_us_ t = base_time_ticks_ t * 64000 + ticks_sum st * 250;
}.

Lemma received_status ds : Forall (status_ok false) (map (fun d => if 0 <? d then Some 0 else None) ds).
Proof. apply Forall_fmap, list.Forall_forall. intros d _. cbn. destruct (0 <? d); [|done]. split; [clia|done]. Qed.

Lemma status_ok_weaken b st : Forall (status_ok true) st -> b = true -> Forall (status_ok b) st.
Proof. by intros H ->. Qed.

(** [Parse] on any payload, for a new object. *)
Lemma transport_Parse_safe {R} h t (QR : R -> TransportFeedback -> Prop) :
  header_valid h -> array_ok t -> include_timestamps_ t = true ->
  wp (transport_Parse h) t
    (fun ok t' => if ok : bool then exists st, reported t' st /\ size_bytes_ t' <= 4 + payload_size h else t' = t \/ cleared t') QR.
Proof.
  intros (Hu & Hz & _ & _) Ha Hinc. unfold transport_Parse. rewrite <- Hz. set (d := payload h) in *.
  wp_step. unfold kMinPayloadSizeBytes. destruct (Z.ltb_spec (zlen d) (8 + 8 + 2)) as [Hs|Hs]; [wp_step; by left|].
  destruct (ParseCommonFeedback_Some d) as (fb & Efb & Hfb); [done|lia|]. destruct (ReadBigEndian_Some 2 d 8) as (bs & Ebs & Hbs); [done|lia|lia|].
  destruct (ReadBigEndian_Some 2 d 10) as (n & En & Hn); [done|lia|lia|].
  destruct (ReadBigEndianSigned_Some 3 32 d 12) as (bt & Ebt & Hbt); [lia|lia|done|lia|lia|]. destruct (zget_is_Some d 15) as (fs & Efs); [lia|].
  change (- 2 ^ (8 * Z.of_nat 3 - 1) <= bt < 2 ^ (8 * Z.of_nat 3 - 1)) with (- 2 ^ 23 <= bt < 2 ^ 23) in Hbt.
  change (0 <= bs < 2 ^ (8 * Z.of_nat 2)) with (is_u16 bs) in Hbs. change (0 <= n < 2 ^ (8 * Z.of_nat 2)) with (is_u16 n) in Hn. unfold is_u16 in Hn.
  wp_step. apply (wp_mem _ _ _ _ _ Efb). wp_step. apply (wp_mem _ _ _ _ _ Ebs). wp_step. apply (wp_mem _ _ _ _ _ En).
  wp_step. apply (wp_mem _ _ _ _ _ Ebt). wp_step. apply (wp_mem _ _ _ _ _ Efs). wp_step. wp_step.
  destruct (Z.eqb_spec n 0) as [->|H0]; [wp_step; right; apply Clear_cleared|].
  wp_step. eapply wp_mono; [apply parse_chunks_safe; [done|lia|rewrite zlen_nil; lia|constructor|exact Ha|lia]|cbv beta|cbv beta; intros ok t' [-> Hc]; by right].
  intros [ds i] t1 (Hl & Hsym & Hi & (F1 & F2 & F3 & F4 & F5 & F6 & F7) & Ha1). cbn [fst snd] in *.
  assert (Hs64 : s64 (bt * 64000) = bt * 64000) by (apply s64_id; lia).
  assert (Hlt : last_timestamp_us_ t1 = bt * 64000) by exact F6.
  assert (Hfin : forall t1' t2 st k, received_more t1' t2 bs st -> length st = length ds -> Forall (status_ok (include_timestamps_ t1')) st ->
    num_seq_no_ t1' = n -> base_seq_no_ t1' = bs -> base_time_ticks_ t1' = bt -> packets_ t1' = [] -> last_timestamp_us_ t1' = bt * 64000 ->
    reported (t2 <| size_bytes_ := k |>) st).
  { intros t1' t2 st k ((B1 & B2 & B3 & B4 & B5) & R2 & R3 & R4) Hls Hst Hnum E1 E2 E3 E4. unfold zlen in Hl. pose proof (ticks_sum_bound _ _ Hst).
    split; cbn [set base_seq_no_ base_time_ticks_ num_seq_no_ include_timestamps_ packets_ last_timestamp_us_]; rewrite ?B2, ?B3, ?B5, ?E1, ?E2.
    - done.
    - lia.
    - done.
    - by rewrite R3, E3.
    - rewrite R4, E4. apply s64_id. lia. }
  wp_step. wp_step. wp_step. destruct (Z.leb_spec (i + sum_sizes ds) (zlen d)) as [Htimes|Hno].
  - eapply wp_mono; [apply parse_deltas_safe; [done|lia|done|cbn [set last_timestamp_us_]; by rewrite Hlt]|cbv beta|cbv beta; intros ok t' [-> Hc]; by right].
    intros k t2 (st & Hls & Hst & Hr & Hk). wp_step. wp_step. wp_step. exists st.
    split; [|cbn [set size_bytes_]; unfold kHeaderLength; lia].
    eapply Hfin; [exact Hr|done|apply status_ok_weaken; [done|]|..]; try done. cbn [set include_timestamps_]. by rewrite F5.
  - wp_step. wp_step. wp_step. apply parse_received_wp; [cbn [set last_timestamp_us_]; by rewrite Hlt|]. intros t2 Hr.
    wp_step. wp_step. wp_step. wp_step. exists (map (fun d => if 0 <? d then Some 0 else None) ds).
    split; [|cbn [set size_bytes_]; unfold kHeaderLength; lia].
    eapply Hfin; [exact Hr|by rewrite length_map|apply received_status|..]; done.
Qed.

(** C29. Messages of any content: [ParseFrom] ends on every sequence of bytes without
    reading outside of the packet or writing outside of the chunk; an object that it returns
    reports between 1 and 65535 packets, and names those that were received with numbers
    that count up from the base, ticks of 16 bits - all zero when the message has no
    times - and a last time that is the reference time and the sum of the ticks. *)
Theorem ParseFrom_safe fb0 arr buffer :
  Forall is_u8 buffer -> zlen arr = 14 ->
  exists r, ParseFrom fb0 arr buffer = Some r /\ forall t, r = Some t -> exists st, reported t st.
Proof.
  intros Hu Ha. unfold ParseFrom. destruct (CommonHeader_Parse_safe buffer Hu) as (h & -> & Hh). cbn [mbind option_bind].
  destruct h as [h|]; [|by exists None]. destruct (Hh h eq_refl) as [Hv Hsz]. destruct (_ || _); [by exists None|].
  assert (Hw := transport_Parse_safe (R := unit) h (new_TransportFeedback fb0 arr true) (fun _ _ => False) Hv Ha eq_refl).
  apply wp_run in Hw as (ok & t & -> & Hok). destruct ok; [|by exists None]. destruct Hok as (st & Hst & _). exists (Some t). split; [done|].
  intros t' [= <-]. by exists st.
Qed.

Lemma ParseFrom_safe_witness :
  exists t st, ParseFrom (mkFeedback 0 0) (replicate 14 0)
    [0xAF; 205; 0; 5; 0; 0; 0; 1; 0; 0; 0; 2; 0; 5; 0; 1; 0; 0; 1; 0; 0x20; 1; 4; 1] = Some (Some t) /\ reported t st /\
    packets_ t = [mkReceived 5 4].
Proof.
  destruct (ParseFrom_safe (mkFeedback 0 0) (replicate 14 0)
    [0xAF; 205; 0; 5; 0; 0; 0; 1; 0; 0; 0; 2; 0; 5; 0; 1; 0; 0; 1; 0; 0x20; 1; 4; 1]) as (r & E & Hr).
  - repeat (constructor; [unfold is_u8; lia|]). constructor.
  - reflexivity.
  - vm_compute in E. injection E as E. destruct (Hr _ (eq_sym E)) as [st Hst]. eexists _, st. split; [vm_compute; reflexivity|].
    split; [exact Hst|reflexivity].
Defined.
