(* ===== verification/OrderedMap.v ===== *)
(** * Ordered maps

    [std::map] with integers as keys, as the congestion control uses it: the list of the
    entries in the order of their keys. An iterator is the list from its entry on. *)

From S2P Require Import Prelude.

Open Scope Z_scope.

Section Map.
Context {V : Type}.

Definition Entries : Type := list (Z * V).

Fixpoint lower_bound (k : Z) (m : Entries) : Entries :=
  match m with
  | [] => []
  | e :: m' => if fst e <? k then lower_bound k m' else m
  end.

(** [lower_bound(first)] up to [upper_bound(k)] *)
Fixpoint until_upper_bound (k : Z) (m : Entries) : Entries :=
  match m with
  | [] => []
  | e :: m' => if fst e <=? k then e :: until_upper_bound k m' else []
  end.

Definition map_find (k : Z) (m : Entries) : bool := existsb (fun e => fst e =? k) m.

(** [m[k] = v] where [k] is new *)
Fixpoint map_insert (k : Z) (v : V) (m : Entries) : Entries :=
  match m with
  | [] => [(k, v)]
  | e :: m' => if fst e <? k then e :: map_insert k v m' else (k, v) :: m
  end.

(** [find(k)]: the value *)
Fixpoint map_get (k : Z) (m : Entries) : option V :=
  match m with
  | [] => None
  | e :: m' => if fst e =? k then Some (snd e) else map_get k m'
  end.

(** An update of [it->second] for [find(k)] *)
Fixpoint map_update (k : Z) (f : V -> V) (m : Entries) : Entries :=
  match m with
  | [] => []
  | e :: m' => if fst e =? k then (fst e, f (snd e)) :: m' else e :: map_update k f m'
  end.

(** [erase(it)] for [find(k)] *)
Fixpoint map_erase (k : Z) (m : Entries) : Entries :=
  match m with
  | [] => []
  | e :: m' => if fst e =? k then m' else e :: map_erase k m'
  end.

(** The keys ascend, from above [prev] on. *)
Fixpoint ascending (prev : Z) (m : Entries) : bool :=
  match m with
  | [] => true
  | e :: m => (prev <? fst e) && ascending (fst e) m
  end.

(** ** Lemmas *)

Lemma find_cons k e m : map_find k (e :: m) = false -> fst e <> k /\ map_find k m = false.
Proof. unfold map_find. cbn [existsb]. rewrite orb_false_iff, Z.eqb_neq. done. Qed.

Lemma lower_insert_ge w k v m : w <= k -> lower_bound w (map_insert k v m) = map_insert k v (lower_bound w m).
Proof.
  intros Hk. induction m as [|e m IH]; cbn [map_insert lower_bound fst].
  - by rewrite (proj2 (Z.ltb_ge k w)) by lia.
  - destruct (Z.ltb_spec (fst e) k), (Z.ltb_spec (fst e) w); cbn [lower_bound map_insert fst];
      rewrite ?(proj2 (Z.ltb_lt (fst e) w)), ?(proj2 (Z.ltb_ge (fst e) w)), ?(proj2 (Z.ltb_ge k w)), ?(proj2 (Z.ltb_lt (fst e) k)), ?(proj2 (Z.ltb_ge (fst e) k)) by lia;
      done || lia.
Qed.

Lemma find_elem k m : map_find k m = true -> exists x, x ∈ m /\ fst x = k.
Proof. unfold map_find. rewrite existsb_exists. intros (x & Hx & E%Z.eqb_eq). exists x. by rewrite list_elem_of_In. Qed.

Lemma elem_insert k v m : (k, v) ∈ map_insert k v m.
Proof.
  induction m as [|e m IH]; cbn [map_insert]; [apply list_elem_of_here|]. destruct (_ <? _); [by apply list_elem_of_further|apply list_elem_of_here].
Qed.

Lemma elem_lower k x m : x ∈ m -> k <= fst x -> x ∈ lower_bound k m.
Proof.
  induction m as [|e m IH]; [done|]. intros Hx Hk. cbn [lower_bound]. destruct (Z.ltb_spec (fst e) k); [|done].
  apply elem_of_cons in Hx as [->|Hx]; [lia|auto].
Qed.

Lemma Forall_insert (P : Z * V -> Prop) k v m : Forall P m -> P (k, v) -> Forall P (map_insert k v m).
Proof. induction 1 as [|e m He Hm IH]; intros Hk; cbn [map_insert]; [by constructor|]. destruct (_ <? _); by repeat constructor; auto. Qed.

Lemma Forall_lower (P : Z * V -> Prop) k m : Forall P m -> Forall P (lower_bound k m).
Proof. induction 1 as [|e m He Hm IH]; cbn [lower_bound]; [constructor|]. destruct (_ <? _); [done|by constructor]. Qed.

Lemma lower_empty k m : lower_bound k m = [] <-> Forall (fun e => fst e < k) m.
Proof.
  induction m as [|e m IH]; cbn [lower_bound]; [by split|]. rewrite list.Forall_cons. destruct (Z.ltb_spec (fst e) k); [tauto|]. split; [done|lia].
Qed.

Lemma find_insert k v m : map_find k (map_insert k v m) = true.
Proof. unfold map_find. apply existsb_exists. exists (k, v). split; [apply list_elem_of_In, elem_insert|apply Z.eqb_refl]. Qed.

Lemma ascending_from prev prev' m : ascending prev m = true -> match m with [] => True | e :: _ => prev' < fst e end -> ascending prev' m = true.
Proof. destruct m as [|e m]; [done|]. cbn [ascending]. intros [_ ->]%andb_true_iff He. by rewrite (proj2 (Z.ltb_lt _ _)) by lia. Qed.

Lemma ascending_lower prev k m : ascending prev m = true -> ascending (k - 1) (lower_bound k m) = true.
Proof.
  revert prev. induction m as [|e m IH]; intros prev Ha; cbn [lower_bound]; [done|]. pose proof Ha as Ha'. cbn [ascending] in Ha'.
  apply andb_true_iff in Ha' as [_ Ha']. destruct (Z.ltb_spec (fst e) k); [by apply (IH (fst e))|]. eapply ascending_from; [exact Ha|lia].
Qed.

Lemma until_upper prev k m : ascending prev m = true -> ascending prev (until_upper_bound k m) = true /\ Forall (fun e => fst e <= k) (until_upper_bound k m).
Proof.
  revert prev. induction m as [|e m IH]; intros prev Ha; cbn [until_upper_bound ascending] in *; [by split|]. apply andb_true_iff in Ha as [Hp Ha].
  destruct (Z.leb_spec (fst e) k); [|by split]. destruct (IH _ Ha) as [H1 H2]. cbn [ascending]. rewrite Hp, H1. split; [done|by constructor].
Qed.

Lemma Forall_until (P : Z * V -> Prop) k m : Forall P m -> Forall P (until_upper_bound k m).
Proof. induction 1 as [|e m He Hm IH]; cbn [until_upper_bound]; [constructor|]. destruct (_ <=? _); by constructor. Qed.

Lemma until_nonempty prev k v m : ascending prev m = true -> (k, v) ∈ m -> until_upper_bound k m <> [].
Proof.
  intros Ha Hx. destruct m as [|e m]; [by apply not_elem_of_nil in Hx|]. cbn [until_upper_bound ascending] in *. apply andb_true_iff in Ha as [_ Ha].
  assert (fst e <= k); [|by rewrite (proj2 (Z.leb_le _ _))]. apply elem_of_cons in Hx as [<-|Hx]; [done|]. revert e Ha.
  induction m as [|e' m IH]; intros e Ha; [by apply not_elem_of_nil in Hx|]. cbn [ascending] in Ha. apply andb_true_iff in Ha as [Hlt%Z.ltb_lt Ha].
  apply elem_of_cons in Hx as [<-|Hx]; [cbn in Hlt; lia|]. specialize (IH Hx e' Ha). lia.
Qed.

Lemma lower_bound_trans a b m : a <= b -> lower_bound b (lower_bound a m) = lower_bound b m.
Proof.
  intros Hab. induction m as [|e m IH]; [done|]. cbn [lower_bound]. destruct (Z.ltb_spec (fst e) a); [|done].
  rewrite IH, (proj2 (Z.ltb_lt (fst e) b)) by lia. done.
Qed.

Definition sorted (m : Entries) : bool := match m with [] => true | e :: m => ascending (fst e) m end.

Lemma sorted_ascending prev m : ascending prev m = true -> sorted m = true.
Proof. destruct m as [|e m]; [done|]. by intros [_ H]%andb_true_iff. Qed.

Lemma ascending_keys prev m : ascending prev m = true -> Forall (fun e => prev < fst e) m.
Proof.
  revert prev. induction m as [|e m IH]; intros prev Ha; [constructor|]. cbn [ascending] in Ha. apply andb_true_iff in Ha as [Hp%Z.ltb_lt Ha].
  constructor; [done|]. eapply list.Forall_impl; [by apply IH|]. cbv beta. lia.
Qed.

Lemma ascending_insert prev k v m :
  ascending prev m = true -> prev < k -> map_find k m = false -> ascending prev (map_insert k v m) = true.
Proof.
  revert prev. induction m as [|e m IH]; intros prev Ha Hk Hf; cbn [map_insert ascending fst] in *; [by rewrite (proj2 (Z.ltb_lt _ _))|].
  apply andb_true_iff in Ha as [Hp%Z.ltb_lt Ha]. apply find_cons in Hf as [Hne Hf].
  destruct (Z.ltb_spec (fst e) k); cbn [ascending fst]; rewrite !(proj2 (Z.ltb_lt _ _)) by lia; cbn [andb]; [by apply IH|done].
Qed.

Lemma sorted_insert k v m : sorted m = true -> map_find k m = false -> sorted (map_insert k v m) = true.
Proof.
  destruct m as [|e m]; [done|]. cbn [sorted map_insert]. intros Ha Hf. apply find_cons in Hf as [Hne Hf].
  destruct (Z.ltb_spec (fst e) k); cbn [sorted ascending fst]; [by apply ascending_insert|]. by rewrite (proj2 (Z.ltb_lt _ _)), Ha by lia.
Qed.

Lemma ascending_update prev k f m : ascending prev (map_update k f m) = ascending prev m.
Proof. revert prev. induction m as [|e m IH]; intros prev; [done|]. cbn [map_update]. destruct (_ =? _); cbn [ascending fst]; [done|]. by rewrite IH. Qed.

Lemma sorted_update k f m : sorted (map_update k f m) = sorted m.
Proof. destruct m as [|e m]; [done|]. cbn [map_update]. destruct (_ =? _); cbn [sorted fst]; [done|]. apply ascending_update. Qed.

Lemma ascending_erase prev k m : ascending prev m = true -> ascending prev (map_erase k m) = true.
Proof.
  revert prev. induction m as [|e m IH]; intros prev Ha; [done|]. cbn [map_erase ascending] in *. apply andb_true_iff in Ha as [Hp%Z.ltb_lt Ha].
  destruct (_ =? _); cbn [ascending].
  - eapply ascending_from; [exact Ha|]. apply ascending_keys in Ha. destruct m; [done|]. apply list.Forall_cons in Ha as [He _]. lia.
  - by rewrite (proj2 (Z.ltb_lt _ _)), IH.
Qed.

Lemma sorted_erase k m : sorted m = true -> sorted (map_erase k m) = true.
Proof.
  destruct m as [|e m]; [done|]. cbn [sorted map_erase]. intros Ha. destruct (_ =? _); [by eapply sorted_ascending|]. by apply ascending_erase.
Qed.

Lemma length_erase k m : (length (map_erase k m) <= length m)%nat.
Proof. induction m as [|e m IH]; cbn [map_erase length]; [done|]. destruct (_ =? _); cbn [length]; lia. Qed.

Lemma length_update k f m : length (map_update k f m) = length m.
Proof. induction m as [|e m IH]; cbn [map_update length]; [done|]. destruct (_ =? _); cbn [length]; congruence. Qed.

Lemma length_insert k v m : length (map_insert k v m) = S (length m).
Proof. induction m as [|e m IH]; cbn [map_insert length]; [done|]. destruct (_ <? _); cbn [length]; congruence. Qed.

Lemma get_elem k v m : map_get k m = Some v -> (k, v) ∈ m.
Proof.
  induction m as [|[k' v'] m IH]; [done|]. cbn [map_get fst snd]. destruct (Z.eqb_spec k' k) as [->|]; [intros [= ->]; apply list_elem_of_here|].
  intros E. apply list_elem_of_further. auto.
Qed.

Lemma get_find k m : map_get k m = None <-> map_find k m = false.
Proof.
  unfold map_find. induction m as [|e m IH]; [done|]. cbn [map_get existsb]. destruct (fst e =? k); cbn [orb]; done.
Qed.

Lemma Forall_update (P : Z * V -> Prop) k g m : Forall P m -> (forall v, P (k, v) -> P (k, g v)) -> Forall P (map_update k g m).
Proof.
  intros Hm Hg. induction Hm as [|[k' v'] m He Hm IH]; cbn [map_update fst snd]; [constructor|]. destruct (Z.eqb_spec k' k) as [->|]; constructor; auto.
Qed.

Lemma Forall_erase (P : Z * V -> Prop) k m : Forall P m -> Forall P (map_erase k m).
Proof. induction 1 as [|e m He Hm IH]; cbn [map_erase]; [constructor|]. destruct (_ =? _); [done|by constructor]. Qed.

Lemma find_none k m : map_find k m = false <-> Forall (fun e => fst e <> k) m.
Proof.
  unfold map_find. induction m as [|e m IH]; cbn [existsb]; [by split|]. by rewrite orb_false_iff, list.Forall_cons, Z.eqb_neq, IH.
Qed.

Lemma find_erase_other j k m : map_find j m = false -> map_find j (map_erase k m) = false.
Proof. rewrite !find_none. apply Forall_erase. Qed.

Lemma find_update j k f m : map_find j (map_update k f m) = map_find j m.
Proof. unfold map_find. induction m as [|e m IH]; [done|]. cbn [map_update]. destruct (_ =? _); cbn [existsb fst]; [done|]. by rewrite IH. Qed.

Lemma find_insert_other j k v m : j <> k -> map_find j (map_insert k v m) = map_find j m.
Proof.
  intros Hne. unfold map_find. induction m as [|e m IH]; cbn [map_insert existsb fst].
  - by rewrite (proj2 (Z.eqb_neq k j)) by done.
  - destruct (_ <? _); cbn [existsb fst]; [by rewrite IH|]. by rewrite (proj2 (Z.eqb_neq k j)) by done.
Qed.

Lemma find_erase k m : sorted m = true -> map_find k (map_erase k m) = false.
Proof.
  induction m as [|e m IH]; intros Hs; [done|]. cbn [map_erase]. destruct (Z.eqb_spec (fst e) k) as [<-|Hne].
  - apply find_none. eapply list.Forall_impl; [apply (ascending_keys _ _ Hs)|]. cbv beta. lia.
  - apply find_none. constructor; [done|]. apply find_none, IH. exact (sorted_ascending _ _ Hs).
Qed.

Lemma erase_absent k m : map_get k m = None -> map_erase k m = m.
Proof. induction m as [|e m IH]; [done|]. cbn [map_get map_erase]. destruct (_ =? _); [done|]. intros E. by rewrite IH. Qed.

(** Sums over the entries *)
Section Sum.
Variable f : Z * V -> Z.

Fixpoint total_of (m : Entries) : Z := match m with [] => 0 | e :: m => f e + total_of m end.

Lemma total_nonneg m : Forall (fun e => 0 <= f e) m -> 0 <= total_of m.
Proof. induction 1; cbn [total_of]; lia. Qed.

Lemma total_insert k v m : total_of (map_insert k v m) = f (k, v) + total_of m.
Proof. induction m as [|e m IH]; cbn [map_insert total_of]; [done|]. destruct (_ <? _); cbn [total_of]; lia. Qed.

Lemma total_update k g m v :
  map_get k m = Some v -> total_of (map_update k g m) = total_of m - f (k, v) + f (k, g v).
Proof.
  induction m as [|[k' v'] m IH]; [done|]. cbn [map_get map_update total_of fst snd]. destruct (Z.eqb_spec k' k) as [->|]; cbn [total_of fst snd].
  - intros [= ->]. lia.
  - intros E. rewrite IH by done. lia.
Qed.

Lemma total_erase k m v : map_get k m = Some v -> total_of (map_erase k m) = total_of m - f (k, v).
Proof.
  induction m as [|[k' v'] m IH]; [done|]. cbn [map_get map_erase total_of fst snd]. destruct (Z.eqb_spec k' k) as [->|]; cbn [total_of].
  - intros [= ->]. lia.
  - intros E. rewrite IH by done. lia.
Qed.

Lemma total_split k m : sorted m = true -> total_of m = total_of (until_upper_bound k m) + total_of (lower_bound (k + 1) m).
Proof.
  intros Hs. induction m as [|e m IH]; [done|]. assert (Hs' : sorted m = true) by (by eapply sorted_ascending). specialize (IH Hs').
  cbn [until_upper_bound lower_bound]. destruct (Z.leb_spec (fst e) k).
  - rewrite (proj2 (Z.ltb_lt _ _)) by lia. cbn [total_of]. lia.
  - rewrite (proj2 (Z.ltb_ge _ _)) by lia. cbn [total_of]. lia.
Qed.
End Sum.

Lemma total_ext f g m : Forall (fun e => f e = g e) m -> total_of f m = total_of g m.
Proof. induction 1 as [|e m He _ IH]; cbn [total_of]; congruence. Qed.

Lemma total_le f g m : Forall (fun e => f e <= g e) m -> total_of f m <= total_of g m.
Proof. induction 1 as [|e m He _ IH]; cbn [total_of]; lia. Qed.

End Map.

Arguments Entries V : clear implicits.
