(* ===== verification/RemoteProxy.v ===== *)
(** * Transport feedback: collecting arrival times

    [RemoteEstimatorProxy] of [modules/remote_bitrate_estimator] on the receiving side:
    it keeps the arrival times of packets by their unwrapped sequence numbers
    ([SequenceNumberUnwrapper] of [modules/include/module_common_types_public.h]) and
    reports them in [TransportFeedback] messages, periodically or on request.
    Unwrapped numbers are 64 bits in the code, and a packet moves them by less than
    2^16; they are not bounded here. *)

From S2P Require Import Prelude OrderedMap ByteIo RtpExtensions Rtcp RtcpFields RtcpFeedback TransportChunk TransportFeedback TransportSend.

Open Scope Z_scope.
Open Scope c_scope.

(** ** The unwrapper *)

Definition UnwrapWithoutUpdate (last_value : option Z) (value : Z) : Z :=
  match last_value with
  | None => value
  | Some last =>
      let kMaxPlusOne := 0xffff + 1 in
      let cropped_last := u16 last in
      let delta := value - cropped_last in
      let delta :=
        if IsNewerSequenceNumber value cropped_last then if delta <? 0 then delta + kMaxPlusOne else delta
        else if (0 <? delta) && (0 <=? last + delta - kMaxPlusOne) then delta - kMaxPlusOne
        else delta in
      last + delta
  end.

(** ** The map of the arrival times *)

Definition Arrivals : Type := list (Z * Z).

(** ** The proxy *)

Definition kBackWindowMs : Z := 500.
Definition kDefaultSendIntervalMs : Z := 100.
Definition kMaxNumberOfPackets : Z := Z.shiftl 1 15.
Definition kMaxTimeMs : Z := Z.quot (2 ^ 63 - 1) 1000.

(** [sent]: what [feedback_sender_->SendTransportFeedback] got. *)
Record RemoteEstimatorProxy := mkProxy {
  last_process_time_ms_ : Z;
  px_media_ssrc_ : Z;
  feedback_packet_count_ : Z;
  unwrapper_ : option Z;
  window_start_seq_ : Z;
  packet_arrival_times_ : Arrivals;
  send_interval_ms_ : Z;
  send_feedback_on_request_only_ : bool;
  sent : list TransportFeedback;
}.

#[export] Instance eta_Proxy : Eta RemoteEstimatorProxy :=
  fun p => mkProxy (last_process_time_ms_ p) (px_media_ssrc_ p) (feedback_packet_count_ p) (unwrapper_ p) (window_start_seq_ p)
    (packet_arrival_times_ p) (send_interval_ms_ p) (send_feedback_on_request_only_ p) (sent p).

Definition new_RemoteEstimatorProxy : RemoteEstimatorProxy := mkProxy (-1) 0 0 None (-1) [] kDefaultSendIntervalMs false [].

Definition SetMediaSsrc (ssrc : Z) (t : TransportFeedback) : TransportFeedback :=
  t <| tf_base := mkFeedback (fb_sender_ssrc_ (tf_base t)) ssrc |>.

(** The array of a message object is not initialised: it holds [arr]. *)
Section Proxy.
Variable arr : list Z.

Definition new_message (include_timestamps : bool) : TransportFeedback := new_TransportFeedback (mkFeedback 0 0) arr include_timestamps.

(** The loop of [BuildFeedbackPacket]; [first] is [begin_iterator == it], for which
    a failure stops the process. *)
Fixpoint add_arrivals (first : bool) (l : Arrivals) (next_sequence_number : Z) (t : TransportFeedback) : option (Z * TransportFeedback) :=
  match l with
  | [] => Some (next_sequence_number, t)
  | (seq, time) :: rest =>
      match AddReceivedPacket (R := unit) (Z.land seq 0xFFFF) (time * 1000) t with
      | Next true t => add_arrivals false rest (seq + 1) t
      | Next false t => if first then None else Some (next_sequence_number, t)
      | _ => None
      end
  end.

(** [None] also where [begin_iterator] is the end of the map, which is read. *)
Definition BuildFeedbackPacket (feedback_packet_count media_ssrc base_sequence_number : Z) (l : Arrivals) (t : TransportFeedback)
  : option (Z * TransportFeedback) :=
  match l with
  | [] => None
  | (_, time) :: _ =>
      let t := SetMediaSsrc media_ssrc t in
      let t := SetBase (Z.land base_sequence_number 0xFFFF) (time * 1000) t in
      let t := SetFeedbackSequenceNumber feedback_packet_count t in
      add_arrivals true l base_sequence_number t
  end.

Definition build_and_send {R} (base_sequence_number : Z) (l : Arrivals) (t : TransportFeedback) (erase : Arrivals -> Arrivals)
  : stmt RemoteEstimatorProxy R unit :=
  let! p := get in
  let! r := mem (BuildFeedbackPacket (feedback_packet_count_ p) (px_media_ssrc_ p) base_sequence_number l t) in
  modify (fun p => p <| feedback_packet_count_ := u8 (feedback_packet_count_ p + 1) |> <| window_start_seq_ := fst r |>
                    <| packet_arrival_times_ := erase (packet_arrival_times_ p) |> <| sent := sent p ++ [snd r] |>).

Fixpoint send_periodic {R} (fuel : nat) : stmt RemoteEstimatorProxy R unit :=
  match fuel with
  | O => fun _ => Spin
  | S fuel' =>
      let! p := get in
      match lower_bound (window_start_seq_ p) (packet_arrival_times_ p) with
      | [] => ret tt
      | l => build_and_send (window_start_seq_ p) l (new_message true) (fun m => m) ;; send_periodic fuel'
      end
  end.

(** Each message reports one entry of the map at least. *)
Definition SendPeriodicFeedbacks {R} : stmt RemoteEstimatorProxy R unit :=
  let! p := get in send_periodic (S (length (packet_arrival_times_ p))).

Definition SendFeedbackOnRequest {R} (sequence_number : Z) (feedback_request : FeedbackRequest) : stmt RemoteEstimatorProxy R unit :=
  if sequence_count feedback_request =? 0 then ret tt
  else
    let first_sequence_number := sequence_number - sequence_count feedback_request + 1 in
    let! p := get in
    let begin_iterator := lower_bound first_sequence_number (packet_arrival_times_ p) in
    build_and_send first_sequence_number (until_upper_bound sequence_number begin_iterator) (new_message (include_timestamps feedback_request))
      (lower_bound first_sequence_number).

(** The loop that culls old packets. *)
Fixpoint cull (seq arrival_time : Z) (m : Arrivals) : Arrivals :=
  match m with
  | [] => []
  | e :: m' => if (fst e <? seq) && (kBackWindowMs <=? arrival_time - snd e) then cull seq arrival_time m' else m
  end.

Definition remove_old (p : RemoteEstimatorProxy) (seq arrival_time : Z) : Arrivals :=
  let m := packet_arrival_times_ p in
  if send_feedback_on_request_only_ p then lower_bound (seq - kMaxNumberOfPackets) m
  else
    match lower_bound (window_start_seq_ p) m with
    | [] => cull seq arrival_time m
    | _ => m
    end.

Definition OnPacketArrival {R} (sequence_number arrival_time : Z) (feedback_request : option FeedbackRequest) : stmt RemoteEstimatorProxy R unit :=
  if (arrival_time <? 0) || (kMaxTimeMs <? arrival_time) then ret tt
  else
    let! p := get in
    let seq := UnwrapWithoutUpdate (unwrapper_ p) sequence_number in
    modify (fun p => p <| unwrapper_ := Some seq |>) ;;
    if negb (window_start_seq_ p =? -1) && (window_start_seq_ p + Z.quot 0xFFFF 2 <? seq) then ret tt
    else
      modify (fun p => p <| packet_arrival_times_ := remove_old p seq arrival_time |>) ;;
      modify (fun p => if window_start_seq_ p =? -1 then p <| window_start_seq_ := sequence_number |>
                       else if seq <? window_start_seq_ p then p <| window_start_seq_ := seq |> else p) ;;
      let! p := get in
      if map_find seq (packet_arrival_times_ p) then ret tt
      else
        modify (fun p => p <| packet_arrival_times_ := map_insert seq arrival_time (packet_arrival_times_ p) |>) ;;
        match feedback_request with
        | Some request => SendFeedbackOnRequest seq request
        | None => ret tt
        end.

(** The header of the packet: its SSRC and, where the packet has it, the value of the
    extension with the transport sequence number and the request for feedback. *)
Definition IncomingPacket {R} (arrival_time_ms ssrc : Z) (transport : option (Z * option FeedbackRequest)) : stmt RemoteEstimatorProxy R unit :=
  match transport with
  | None => ret tt
  | Some (sequence_number, feedback_request) =>
      modify (fun p => p <| px_media_ssrc_ := ssrc |>) ;;
      OnPacketArrival sequence_number arrival_time_ms feedback_request
  end.

(** [now]: what the clock says *)
Definition TimeUntilNextProcess (p : RemoteEstimatorProxy) (now : Z) : Z :=
  if send_feedback_on_request_only_ p then 24 * 60 * 60 * 1000
  else if negb (last_process_time_ms_ p =? -1) && (now - last_process_time_ms_ p <? send_interval_ms_ p)
       then last_process_time_ms_ p + send_interval_ms_ p - now
       else 0.

Definition proxy_Process {R} (now : Z) : stmt RemoteEstimatorProxy R unit :=
  let! p := get in
  if send_feedback_on_request_only_ p then ret tt
  else
    modify (fun p => p <| last_process_time_ms_ := now |>) ;;
    SendPeriodicFeedbacks.

Definition SetSendFeedbackOnRequestOnly {R} (only : bool) : stmt RemoteEstimatorProxy R unit :=
  modify (fun p => p <| send_feedback_on_request_only_ := only |>).

End Proxy.
