(* ===== verification/RemoteReports.v ===== *)
(** * Transport feedback: the reports of the proxy

    Each entry of the window is reported once, in order, with its number and its time
    up to half a tick, whatever number of messages that takes. *)

From S2P Require Import Prelude OrderedMap ByteIo RtpExtensions Rtcp RtcpFields RtcpFeedback TransportChunk TransportFeedback TransportSend RemoteProxy.

Open Scope Z_scope.
Open Scope c_scope.

(** The times at which the packets of a message arrived, from its reference time on. *)
Fixpoint arrival_times (time_us : Z) (packets : list ReceivedPacket) : list Z :=
  match packets with
  | [] => []
  | p :: packets => (time_us + delta_us p) :: arrival_times (time_us + delta_us p) packets
  end.

(** Equal up to half a tick, and up to whole periods of the reference time. *)
Definition close (time_us time_us' : Z) : Prop := exists m, Z.abs (time_us - time_us' - m * kTimeWrapPeriodUs) <= 125.

(** The entries follow one another, and [prev], at a distance of less than half the
    range of sequence numbers. *)
Fixpoint gaps (prev : Z) (l : Arrivals) : bool :=
  match l with
  | [] => true
  | e :: l => (prev <? fst e) && (fst e <=? prev + 0x7FFF) && gaps (fst e) l
  end.

Definition time_ok (e : Z * Z) : Prop := 0 <= snd e < 2 ^ 52.

(** The message [t], which represents [st], reports the entries. *)
Definition reports (t : TransportFeedback) (st : list (option Z)) (entries : Arrivals) : Prop :=
  represents t st /\ map sequence_number_ (packets_ t) = map (fun e => u16 (fst e)) entries /\
  (include_timestamps_ t = true -> Forall2 (fun e time => close (snd e * 1000) time) entries (arrival_times (GetBaseTimeUs t) (packets_ t))).

(** The number of the entry that comes after [l], which was [next]. *)
Definition next_after (next : Z) (l : Arrivals) : Z := fold_left (fun _ e => fst e + 1) l next.

Lemma land_u16 x : Z.land x 0xFFFF = u16 x.
Proof. change 0xFFFF with (Z.ones 16). by rewrite Z.land_ones. Qed.

Lemma arrival_times_snoc time_us ps p :
  arrival_times time_us (ps ++ [p]) = arrival_times time_us ps ++ [time_us + 250 * sum_sizes (map delta_ticks_ ps) + delta_us p].
Proof.
  revert time_us. induction ps as [|q ps IH]; intros time_us; cbn [app arrival_times map].
  - change (sum_sizes []) with 0. do 2 f_equal. lia.
  - rewrite IH, sum_cons. do 3 f_equal. unfold delta_us, kDeltaScaleFactor. lia.
Qed.

Lemma numbered_ticks seq_no st : sum_sizes (map delta_ticks_ (numbered seq_no st)) = ticks_sum st.
Proof.
  revert seq_no. unfold ticks_sum. induction st as [|[d|] st IH]; intros seq_no; [done|..]; cbn [numbered map delta_ticks_ default]; rewrite !sum_cons, IH;
    [done|lia].
Qed.

Lemma delta_bound ts last : 0 <= ts < 2 ^ 62 -> - 2 ^ 62 <= last < 2 ^ 62 -> - 2 ^ 63 <= ts - last < 2 ^ 63.
Proof. lia. Qed.

(** The time of the first packet is at most 256 ticks after the reference time. *)
Lemma first_ticks ref : 0 <= ref < 2 ^ 63 -> 0 <= delta_full ref (ref mod kTimeWrapPeriodUs / kBaseScaleFactor * 64000) <= 256.
Proof.
  intros Hr. unfold delta_full. destruct kTime as [EP EB]. rewrite EB. set (P := kTimeWrapPeriodUs) in *.
  pose proof (Z.mod_pos_bound ref P ltac:(lia)) as Hm. set (r := ref mod P) in *.
  pose proof (Z.div_mod r 64000 ltac:(lia)) as Hd. pose proof (Z.mod_pos_bound r 64000 ltac:(lia)) as Hr4.
  pose proof (Z.div_mod ref P ltac:(lia)) as Hp. fold r in Hp. assert (0 <= ref / P) by (apply Z.div_pos; lia).
  rewrite s64_id by (split; nia).
  assert (E : Z.rem (ref - r / 64000 * 64000) P = r mod 64000).
  { rewrite Z.rem_mod_nonneg by lia. symmetry. apply (Z.mod_unique_pos _ _ (ref / P)); lia. }
  rewrite E. change (Z.quot kDeltaScaleFactor 2) with 125. change kDeltaScaleFactor with 250.
  assert (Hhalf : (Z.quot P 2 <? r mod 64000) = false).
  { apply Z.ltb_ge. rewrite EP. change (Z.quot (64000 * 2 ^ 24) 2) with (32000 * 2 ^ 24). lia. }
  rewrite Hhalf. cbv zeta. rewrite (proj2 (Z.ltb_ge _ 0)) by lia. rewrite Z.quot_div_nonneg by lia.
  split; [apply Z.div_pos; lia|]. apply Z.lt_succ_r, Z.div_lt_upper_bound; lia.
Qed.

(** The next entry is newer than the last number of the message, and the numbers
    between them are missing. *)
Lemma entry_number base len next k :
  u16 (base + len) = u16 next -> next <= k <= next - 1 + 0x7FFF ->
  IsNewerSequenceNumber (u16 k) (u16 (base + len - 1)) = true /\ u16 (u16 k - (base + len)) = k - next /\ u16 (base + len + (k - next)) = u16 k /\
  u16 (base + (len + (k - next) + 1)) = u16 (k + 1).
Proof.
  intros E Hk.
  assert (Hd : forall c, u16 (base + len + c) = u16 (next + c)) by (intros c; by rewrite <- u16_add_l, E, u16_add_l).
  assert (Hm : u16 (u16 k - (base + len)) = k - next).
  { rewrite u16_sub_l, <- (u16_sub_r k (base + len)), E, u16_sub_r. apply u16_id. unfold is_u16. lia. }
  split_and!; [|done|rewrite Hd; f_equal; lia|replace (base + (len + (k - next) + 1)) with (base + len + (k - next + 1)) by lia; rewrite Hd; f_equal; lia].
  rewrite newer_spec by apply u16_range.
  assert (Hx : u16 (u16 k - u16 (base + len - 1)) = k - next + 1).
  { rewrite u16_sub_r, u16_sub_l. replace (k - (base + len - 1)) with (k + 1 - (base + len)) by lia.
    rewrite <- u16_sub_r, E, u16_sub_r. replace (k + 1 - next) with (k - next + 1) by lia. apply u16_id. unfold is_u16. lia. }
  rewrite Hx, (proj2 (Z.ltb_lt 0 _)), (proj2 (Z.ltb_lt _ 0x8000)) by lia. done.
Qed.

Lemma numbered_pad seq_no st n : numbered seq_no (st ++ replicate n None) = numbered seq_no st.
Proof. rewrite numbered_app. destruct st as [|o st]; cbv iota; rewrite numbered_missing; [done|]. by rewrite app_nil_r. Qed.

(** One entry: it is reported, or the message reports what it did. *)
Lemma add_entry t st part next k v :
  reports t st part -> u16 (base_seq_no_ t + Z.of_nat (length st)) = u16 next -> next <= k <= next - 1 + 0x7FFF -> time_ok (k, v) ->
  exists ok t' st', AddReceivedPacket (R := unit) (Z.land k 0xFFFF) (v * 1000) t = Next ok t' /\ same_base t t' /\
    (ok = true -> reports t' st' (part ++ [(k, v)]) /\ u16 (base_seq_no_ t + Z.of_nat (length st')) = u16 (k + 1)) /\
    (ok = false -> reports t' st' part) /\
    (st = [] -> s16 (if include_timestamps_ t then delta_full (v * 1000) (base_time_ticks_ t * 64000) else 0) =
       (if include_timestamps_ t then delta_full (v * 1000) (base_time_ticks_ t * 64000) else 0) -> ok = true).
Proof.
  intros (Hr & Hnum & Htimes) Hnext Hk Hv. unfold time_ok in Hv. cbn [snd] in Hv.
  destruct (entry_number (base_seq_no_ t) (Z.of_nat (length st)) next k Hnext Hk) as (Hnew & Hmiss & Hseq & Hlen).
  rewrite land_u16. destruct (AddReceivedPacket_run t st (u16 k) (v * 1000) Hr (u16_range k)) as (ok & t' & st' & E & Hok & Hsame & Hr').
  exists ok, t', st'. split; [done|]. split; [done|]. unfold add_spec in Hok. rewrite Hnew, Hmiss in Hok. cbn [negb] in Hok.
  rewrite <- (rep_time _ _ Hr) in Hok. destruct Hsame as (B1 & B2 & B3 & B4 & B5).
  assert (Hkeep : forall n, st' = st ++ replicate n None -> reports t' st' part).
  { intros n ->. assert (Ep : packets_ t' = packets_ t).
    { rewrite (rep_packets _ _ Hr'), (rep_packets _ _ Hr), numbered_pad. by rewrite B2. }
    unfold reports, GetBaseTimeUs. rewrite Ep, B3, B5. split_and!; [done|done|exact Htimes]. }
  set (ticks := if include_timestamps_ t then delta_full (v * 1000) (last_timestamp_us_ t) else 0) in *.
  destruct (Z.eqb_spec (s16 ticks) ticks) as [Efit|Efit]; cbn [negb] in Hok.
  2: { injection Hok as -> ->. split_and!; [done|intros _; apply (Hkeep 0%nat); by rewrite app_nil_r|]. intros -> Hfit. exfalso. apply Efit.
       unfold ticks. by rewrite (rep_time _ _ Hr), Z.mul_0_l, Z.add_0_r. }
  destruct (Nat.ltb_spec (length st + Z.to_nat (k - next)) (Z.to_nat kMaxReportedPackets)) as [Hroom|Hfull]; injection Hok as -> ->.
  - split_and!; [|done|done]. intros _.
    assert (Ep : packets_ t' = packets_ t ++ [mkReceived (u16 k) ticks]).
    { rewrite (rep_packets _ _ Hr'), (rep_packets _ _ Hr), app_assoc, numbered_app, numbered_pad, B2. f_equal.
      assert (En : u16 (base_seq_no_ t + Z.of_nat (length (st ++ replicate (Z.to_nat (k - next)) (@None Z)))) = u16 k).
      { rewrite length_app, length_replicate, <- Hseq. f_equal. lia. }
      destruct (st ++ replicate (Z.to_nat (k - next)) None) as [|o l]; cbn [numbered]; rewrite <- En; [|done].
      cbn [length]. rewrite Z.add_0_r, u16_id by apply (rep_seq _ _ Hr). done. }
    split.
    + unfold reports, GetBaseTimeUs. rewrite Ep, B3, B5, !map_app, Hnum. split_and!; [done|done|]. intros Hinc.
      rewrite arrival_times_snoc. apply Forall2_app; [by apply Htimes|]. constructor; [|constructor]. cbn [snd].
      rewrite (rep_packets _ _ Hr), numbered_ticks. change kBaseScaleFactor with 64000. unfold delta_us, kDeltaScaleFactor. cbn [delta_ticks_].
      replace (base_time_ticks_ t * 64000 + 250 * ticks_sum st + ticks * 250) with (last_timestamp_us_ t + ticks * 250) by (rewrite (rep_time _ _ Hr); lia).
      unfold ticks. rewrite Hinc. apply delta_full_error. apply delta_bound; [lia|by eapply last_bound].
    + rewrite !length_app, length_replicate. cbn [length]. rewrite <- Hlen. f_equal. lia.
  - split_and!; [done|by intros _; eapply Hkeep|]. intros ->. cbn [length] in Hfull. unfold kMaxReportedPackets in Hfull. lia.
Qed.

(** ** One message *)

Lemma next_after_app next l k : next_after next (l ++ k) = next_after (next_after next l) k.
Proof. apply fold_left_app. Qed.

Lemma gaps_cons prev e l : gaps prev (e :: l) = true -> prev < fst e <= prev + 0x7FFF /\ gaps (fst e) l = true.
Proof. cbn [gaps]. rewrite !andb_true_iff, Z.ltb_lt, Z.leb_le. tauto. Qed.

Lemma add_arrivals_spec l next t st part0 :
  reports t st part0 -> u16 (base_seq_no_ t + Z.of_nat (length st)) = u16 next -> gaps (next - 1) l = true -> Forall time_ok l ->
  exists part rest t' st', add_arrivals false l next t = Some (next_after next part, t') /\ l = part ++ rest /\ same_base t t' /\
    reports t' st' (part0 ++ part) /\ gaps (next_after next part - 1) rest = true.
Proof.
  revert next t st part0. induction l as [|[k v] l IH]; intros next t st part0 Hrep Hnext Hg Hv; cbn [add_arrivals].
  - exists [], [], t, st. rewrite app_nil_r. split_and!; [done|done|by unfold same_base|by rewrite app_nil_r|done].
  - pose proof (gaps_cons _ _ _ Hg) as [Hk Hg']. cbn [fst] in Hk, Hg'. pose proof Hv as [Hv0 Hv']%list.Forall_cons.
    destruct (add_entry t st part0 next k v Hrep Hnext ltac:(lia) Hv0) as (ok & t1 & st1 & -> & Hsame & Hyes & Hno & _). destruct ok.
    + destruct (Hyes eq_refl) as [Hrep1 Hlen1]. pose proof Hsame as (_ & B2 & _). rewrite <- B2 in Hlen1.
      destruct (IH (k + 1) t1 st1 (part0 ++ [(k, v)]) Hrep1 Hlen1) as (part & rest & t' & st' & E & -> & Hs' & Hrep' & Hgr);
        [by replace (k + 1 - 1) with k by lia|done|].
      exists ((k, v) :: part), rest, t', st'. rewrite E. rewrite <- app_assoc in Hrep'. split_and!; [done|done|by eapply same_base_trans|exact Hrep'|exact Hgr].
    + exists [], ((k, v) :: l), t1, st1. rewrite app_nil_r. split_and!; [done|done|done|by apply Hno|exact Hg].
Qed.

Lemma SetMediaSsrc_represents t st ssrc : represents t st -> is_u32 ssrc -> represents (SetMediaSsrc ssrc t) st.
Proof. intros [[H1 H1'] H2 H3 H4 H5 H6 H7 [C1 C2 C3 C4 C5 C6]] Hs. split; auto; [by split|by split]. Qed.

(** The message that [BuildFeedbackPacket] makes of a new object reports entries from
    the first one on, and the numbers from the base. *)
Lemma BuildFeedbackPacket_spec arr include_ts count ssrc base l :
  zlen arr = 14 -> is_u8 count -> is_u32 ssrc -> l <> [] -> gaps (base - 1) l = true -> Forall time_ok l ->
  exists part rest t st, BuildFeedbackPacket count ssrc base l (new_message arr include_ts) = Some (next_after base part, t) /\ l = part ++ rest /\
    part <> [] /\ reports t st part /\ gaps (next_after base part - 1) rest = true /\
    base_seq_no_ t = u16 base /\ feedback_seq_ t = count /\ tf_base t = mkFeedback 0 ssrc /\ include_timestamps_ t = include_ts.
Proof.
  intros Ha Hc Hs Hne Hg Hv. destruct l as [|[k v] l]; [done|]. unfold BuildFeedbackPacket. cbv zeta. rewrite land_u16.
  pose proof Hv as [Hv0 Hv']%list.Forall_cons. pose proof Hv0 as Hvk. unfold time_ok in Hvk. cbn [snd] in Hvk.
  pose proof (gaps_cons _ _ _ Hg) as [Hk Hg']. cbn [fst] in Hk, Hg'.
  assert (H0 : represents (new_message arr include_ts) []) by (apply new_represents; [unfold feedback_ok; cbn; clia|done]).
  pose proof (SetMediaSsrc_represents _ _ ssrc H0 Hs) as H1.
  destruct (SetBase_represents _ (u16 base) (v * 1000) H1 (u16_range base) ltac:(lia)) as [H2 Eticks].
  pose proof (SetFeedbackSequenceNumber_represents _ _ count H2 Hc) as H3.
  set (t0 := SetFeedbackSequenceNumber count (SetBase (u16 base) (v * 1000) (SetMediaSsrc ssrc (new_message arr include_ts)))) in *.
  assert (Ft : base_seq_no_ t0 = u16 base /\ feedback_seq_ t0 = count /\ tf_base t0 = mkFeedback 0 ssrc /\ include_timestamps_ t0 = include_ts /\
    base_time_ticks_ t0 = v * 1000 mod kTimeWrapPeriodUs / kBaseScaleFactor) by (split_and!; [done..|exact Eticks]).
  destruct Ft as (F1 & F2 & F3 & F4 & F5). clearbody t0.
  assert (Hrep0 : reports t0 [] []). { unfold reports. rewrite (rep_packets _ _ H3). split_and!; [done|done|constructor]. }
  cbn [add_arrivals].
  destruct (add_entry t0 [] [] base k v Hrep0 ltac:(cbn [length]; rewrite F1, Z.add_0_r; by apply u16_id, u16_range) ltac:(lia) Hv0)
    as (ok & t1 & st1 & -> & Hsame & Hyes & _ & Hfirst).
  assert (Hok : ok = true).
  { apply Hfirst; [done|]. destruct (include_timestamps_ t0); [|done]. rewrite F5. pose proof (first_ticks (v * 1000) ltac:(lia)). apply s16_id. clia. }
  subst ok. destruct (Hyes eq_refl) as [Hrep1 Hlen1]. pose proof Hsame as (B1 & B2 & B3 & B4 & B5). rewrite <- B2 in Hlen1.
  destruct (add_arrivals_spec l (k + 1) t1 st1 _ Hrep1 Hlen1) as (part & rest & t' & st' & -> & -> & (S1 & S2 & S3 & S4 & S5) & Hrep' & Hgr);
    [by replace (k + 1 - 1) with k by lia|done|].
  exists ((k, v) :: part), rest, t', st'. split_and!; [done|done|done|exact Hrep'|exact Hgr|congruence..].
Qed.

(** ** The loop over the window *)

Lemma next_after_ge prev l : gaps prev l = true -> prev + 1 <= next_after (prev + 1) l.
Proof.
  revert prev. induction l as [|e l IH]; intros prev Hg; cbn; [lia|]. apply gaps_cons in Hg as [He Hg]. specialize (IH _ Hg). unfold next_after in IH. lia.
Qed.

Lemma gaps_prefix prev part rest : gaps prev (part ++ rest) = true -> gaps prev part = true.
Proof.
  revert prev. induction part as [|e part IH]; intros prev Hg; [done|]. cbn [app gaps] in *. rewrite !andb_true_iff in Hg |- *.
  destruct Hg as [[H1 H2] H3]. split_and!; auto.
Qed.

Lemma lower_bound_split prev part rest :
  gaps prev (part ++ rest) = true -> lower_bound (next_after (prev + 1) part) (part ++ rest) = rest.
Proof.
  revert prev. induction part as [|e part IH]; intros prev Hg; cbn [app] in *.
  - destruct rest as [|e rest]; [done|]. apply gaps_cons in Hg as [He _]. cbn. by rewrite (proj2 (Z.ltb_ge (fst e) _)) by lia.
  - apply gaps_cons in Hg as [He Hg]. cbn [next_after fold_left lower_bound]. fold (next_after (fst e + 1) part).
    assert (Hge : fst e + 1 <= next_after (fst e + 1) part).
    { apply next_after_ge. exact (gaps_prefix _ _ _ Hg). }
    rewrite (proj2 (Z.ltb_lt (fst e) _)) by lia. by apply IH.
Qed.

Lemma build_and_send_wp {R} arr include_ts base l erase p Q (QR : R -> RemoteEstimatorProxy -> Prop) :
  zlen arr = 14 -> is_u8 (feedback_packet_count_ p) -> is_u32 (px_media_ssrc_ p) -> l <> [] -> gaps (base - 1) l = true -> Forall time_ok l ->
  (forall part rest t st, l = part ++ rest -> part <> [] -> reports t st part -> gaps (next_after base part - 1) rest = true ->
     base_seq_no_ t = u16 base -> feedback_seq_ t = feedback_packet_count_ p -> tf_base t = mkFeedback 0 (px_media_ssrc_ p) -> include_timestamps_ t = include_ts ->
     Q tt (p <| feedback_packet_count_ := u8 (feedback_packet_count_ p + 1) |> <| window_start_seq_ := next_after base part |>
             <| packet_arrival_times_ := erase (packet_arrival_times_ p) |> <| sent := sent p ++ [t] |>)) ->
  wp (build_and_send base l (new_message arr include_ts) erase) p Q QR.
Proof.
  intros Ha Hc Hs Hne Hg Hv HQ. unfold build_and_send. wp_steps.
  destruct (BuildFeedbackPacket_spec arr include_ts _ _ base l Ha Hc Hs Hne Hg Hv) as (part & rest & t & st & E & El & Hpart & Hrep & Hgr & F1 & F2 & F3 & F4).
  apply (wp_mem _ _ _ _ _ E). wp_steps. cbn [fst snd]. by apply (HQ part rest t st).
Qed.

(** The messages and the entries each of them reports. *)
Definition message_reports (t : TransportFeedback) (entries : Arrivals) : Prop :=
  entries <> [] /\ include_timestamps_ t = true /\ (exists st, reports t st entries) /\
  exists base, base_seq_no_ t = u16 base /\ gaps (base - 1) entries = true.

Definition window (p : RemoteEstimatorProxy) : Arrivals := lower_bound (window_start_seq_ p) (packet_arrival_times_ p).

Lemma send_periodic_frame {R} arr fuel p (QR : R -> RemoteEstimatorProxy -> Prop) :
  zlen arr = 14 -> is_u8 (feedback_packet_count_ p) -> is_u32 (px_media_ssrc_ p) -> gaps (window_start_seq_ p - 1) (window p) = true ->
  Forall time_ok (window p) -> (length (window p) < fuel)%nat ->
  wp (send_periodic arr fuel) p
    (fun _ p' => (exists messages parts, sent p' = sent p ++ messages /\ concat parts = window p /\ Forall2 message_reports messages parts /\
       packet_arrival_times_ p' = packet_arrival_times_ p /\ window p' = [] /\ window_start_seq_ p' = next_after (window_start_seq_ p) (window p) /\
       feedback_packet_count_ p' = u8 (feedback_packet_count_ p + Z.of_nat (length messages)) /\
       map feedback_seq_ messages = map (fun i => u8 (feedback_packet_count_ p + Z.of_nat i)) (seq 0 (length messages))) /\
       unwrapper_ p' = unwrapper_ p /\ px_media_ssrc_ p' = px_media_ssrc_ p /\ send_feedback_on_request_only_ p' = send_feedback_on_request_only_ p /\
       last_process_time_ms_ p' = last_process_time_ms_ p) QR.
Proof.
  intros Ha. revert p. induction fuel as [|fuel IH]; intros p Hc Hs Hg Hv Hl; [lia|]. cbn [send_periodic]. wp_steps. fold (window p).
  destruct (window p) as [|e l] eqn:Ew.
  - wp_steps. split; [|done]. exists [], []. cbn [concat length seq map]. rewrite app_nil_r, Ew. split_and!; [done|done|constructor|done|done|done| |done].
    rewrite Z.add_0_r. symmetry. by apply u8_id.
  - wp_step. rewrite <- Ew in *. apply build_and_send_wp; [done|done|done|by rewrite Ew|done|done|].
    intros part rest t st Esplit Hpart Hrep Hgr F1 F2 F3 F4. set (p1 := p <| feedback_packet_count_ := _ |> <| window_start_seq_ := _ |> <| packet_arrival_times_ := _ |> <| sent := _ |>).
    assert (Ep1 : feedback_packet_count_ p1 = u8 (feedback_packet_count_ p + 1) /\ px_media_ssrc_ p1 = px_media_ssrc_ p /\
      window_start_seq_ p1 = next_after (window_start_seq_ p) part /\ packet_arrival_times_ p1 = packet_arrival_times_ p /\ sent p1 = sent p ++ [t] /\
      unwrapper_ p1 = unwrapper_ p /\ send_feedback_on_request_only_ p1 = send_feedback_on_request_only_ p /\ last_process_time_ms_ p1 = last_process_time_ms_ p) by done.
    destruct Ep1 as (E1 & E2 & E3 & E4 & E5 & E6 & E7 & E8). clearbody p1.
    assert (Hgp : gaps (window_start_seq_ p - 1) part = true) by (apply (gaps_prefix _ part rest); by rewrite <- Esplit).
    assert (Hbase : window_start_seq_ p <= next_after (window_start_seq_ p) part).
    { replace (window_start_seq_ p) with (window_start_seq_ p - 1 + 1) by lia. apply next_after_ge. exact Hgp. }
    assert (Ew1 : window p1 = rest).
    { unfold window. rewrite E3, E4, <- (lower_bound_trans (window_start_seq_ p)) by done. fold (window p). rewrite Esplit in Hg |- *.
      pose proof (lower_bound_split (window_start_seq_ p - 1) part rest Hg) as Hlb. replace (window_start_seq_ p - 1 + 1) with (window_start_seq_ p) in Hlb by lia. done. }
    assert (Hvr : Forall time_ok rest) by (rewrite Esplit in Hv; by apply list.Forall_app in Hv as [_ Hv]).
    eapply wp_mono; [apply (IH p1)|cbv beta|done].
    + rewrite E1. apply u8_range.
    + by rewrite E2.
    + by rewrite E3, Ew1.
    + by rewrite Ew1.
    + rewrite Ew1. rewrite Esplit, length_app in Hl. destruct part; [done|]. cbn [length] in Hl. lia.
    + intros _ p' ((messages & parts & M1 & M2 & M3 & M4 & M5 & M6 & M7 & M8) & N1 & N2 & N3 & N4). split; [|by rewrite N1, N2, N3, N4].
      exists (t :: messages), (part :: parts). cbn [concat length].
      split_and!.
      * rewrite M1, E5, <- app_assoc. done.
      * rewrite M2, Ew1. done.
      * constructor; [|done]. split_and!; [done|done|by exists st|by exists (window_start_seq_ p)].
      * congruence.
      * done.
      * rewrite M6, E3, Ew1, Esplit, next_after_app. done.
      * rewrite M7, E1. unfold u8. rewrite Zplus_mod_idemp_l. f_equal. lia.
      * cbn [map seq]. rewrite F2, Z.add_0_r, u8_id by done. f_equal. rewrite M8, E1, <- seq_shift, map_map. apply map_ext. intros i.
        unfold u8. rewrite Zplus_mod_idemp_l. f_equal. lia.
Qed.
