(* ===== verification/RemoteReach.v ===== *)
(** * Transport feedback: the proxy over any arrivals

    The states that a proxy reaches with packets whose numbers move by less than half of
    their range and stay in the window, and times at which it sends: it never stops, and
    what arrived since the last report is reported. Without the condition on the numbers
    four packets stop the process. *)

From S2P Require Import Prelude OrderedMap ByteIo RtpExtensions Rtcp RtcpFields RtcpFeedback TransportChunk TransportFeedback TransportSend TransportWire RemoteProxy RemoteReports.

Open Scope Z_scope.
Open Scope c_scope.

(** ** The unwrapper *)

(** Unwrapped numbers are not negative and congruent to the number. *)
Lemma unwrap_spec last v :
  is_u16 v -> (forall l, last = Some l -> 0 <= l) -> 0 <= UnwrapWithoutUpdate last v /\ u16 (UnwrapWithoutUpdate last v) = v.
Proof.
  intros Hv Hl. unfold UnwrapWithoutUpdate. destruct last as [l|]; [|split; [clia|by apply u16_id]]. specialize (Hl l eq_refl).
  assert (Hc : 0 <= u16 l <= l) by (unfold u16; split; [apply Z.mod_pos_bound; lia|apply Z.mod_le; lia]).
  assert (Hmod : forall k, u16 (l + (v - u16 l + k * 2 ^ 16)) = v).
  { intros k. unfold u16. replace (l + (v - l mod 2 ^ 16 + k * 2 ^ 16)) with (v + (l / 2 ^ 16 + k) * 2 ^ 16)
      by (rewrite (Z.div_mod l (2 ^ 16)) at 2 by lia; lia).
    rewrite Z.mod_add by lia. apply Z.mod_small. exact Hv. }
  unfold is_u16 in Hv. change (0xffff + 1) with (2 ^ 16). pose proof (Hmod 0) as M0. pose proof (Hmod 1) as M1. pose proof (Hmod (-1)) as M2.
  rewrite Z.mul_0_l, Z.add_0_r in M0. rewrite Z.mul_1_l in M1. change (-1 * 2 ^ 16) with (- 2 ^ 16) in M2.
  destruct (IsNewerSequenceNumber v (u16 l)).
  - destruct (Z.ltb_spec (v - u16 l) 0); split; try done; lia.
  - destruct (Z.ltb_spec 0 (v - u16 l)), (Z.leb_spec 0 (l + (v - u16 l) - 2 ^ 16)); cbn [andb]; split; try done; try lia.
Qed.

(** ** Entries of the map *)

Definition chain (m : Arrivals) : bool := match m with [] => true | e :: m => gaps (fst e) m end.

(** [k] can be added: it is not too far above an entry nor below the first one. *)
Definition near (k : Z) (m : Arrivals) : Prop :=
  match m with [] => True | e :: _ => (exists x, x ∈ m /\ k <= fst x + 0x7FFF) /\ fst e <= k + 0x7FFF end.

Lemma gaps_weaken prev prev' l : prev <= prev' -> gaps prev l = true -> match l with [] => True | e :: _ => prev' < fst e end -> gaps prev' l = true.
Proof.
  intros Hp. destruct l as [|e l]; [done|]. intros Hg He. apply gaps_cons in Hg as [Hk Hg]. cbn [gaps].
  by rewrite (proj2 (Z.ltb_lt _ _)), (proj2 (Z.leb_le _ _)), Hg by lia.
Qed.

Lemma gaps_chain prev m : gaps prev m = true -> chain m = true.
Proof. destruct m as [|e m]; [done|]. by intros [_ Hg]%gaps_cons. Qed.

Lemma gaps_insert prev k v m :
  gaps prev m = true -> prev < k -> map_find k m = false -> k <= prev + 0x7FFF \/ (exists x, x ∈ m /\ k <= fst x + 0x7FFF) ->
  gaps prev (map_insert k v m) = true.
Proof.
  revert prev. induction m as [|e m IH]; intros prev Hg Hk Hf Hnear; cbn [map_insert].
  - destruct Hnear as [Hn|(x & Hx & _)]; [|by apply not_elem_of_nil in Hx]. cbn [gaps fst]. by rewrite (proj2 (Z.ltb_lt _ _)), (proj2 (Z.leb_le _ _)) by lia.
  - apply gaps_cons in Hg as [He Hg]. apply find_cons in Hf as [Hne Hf]. destruct (Z.ltb_spec (fst e) k); cbn [gaps fst].
    + rewrite (proj2 (Z.ltb_lt _ _)), (proj2 (Z.leb_le _ _)) by lia. cbn [andb]. apply IH; [done|done|done|].
      destruct Hnear as [Hn|(x & Hx & Hn)]; [left; lia|]. apply elem_of_cons in Hx as [->|Hx]; [left; lia|right; eauto].
    + rewrite !(proj2 (Z.ltb_lt _ _)), !(proj2 (Z.leb_le _ _)), Hg by lia. done.
Qed.

Lemma chain_insert k v m : chain m = true -> map_find k m = false -> near k m -> chain (map_insert k v m) = true.
Proof.
  destruct m as [|e m]; [done|]. intros Hc Hf [(x & Hx & Hn) Hh]. cbn [chain] in Hc. apply find_cons in Hf as [Hne Hf]. cbn [map_insert].
  destruct (Z.ltb_spec (fst e) k); cbn [chain gaps fst].
  - apply gaps_insert; [done|done|done|]. apply elem_of_cons in Hx as [->|Hx]; [left; lia|right; eauto].
  - rewrite (proj2 (Z.ltb_lt _ _)), (proj2 (Z.leb_le _ _)), Hc by lia. done.
Qed.

Lemma near_cull k time m : chain m = true -> near k m -> chain (cull k time m) = true /\ near k (cull k time m).
Proof.
  induction m as [|e m IH]; intros Hc Hn; cbn [cull]; [done|]. destruct (Z.ltb_spec (fst e) k); cbn [andb]; [|done].
  destruct (_ <=? _); [|done]. destruct m as [|e' m]; [done|]. cbn [chain] in Hc. apply gaps_cons in Hc as [He Hc]. apply IH; [done|].
  destruct Hn as [(x & Hx & Hxk) _]. split; [|lia]. apply elem_of_cons in Hx as [->|Hx]; [|eauto].
  exists e'. split; [apply list_elem_of_here|lia].
Qed.

Lemma gaps_lower prev k m : gaps prev m = true -> prev < k -> gaps (k - 1) (lower_bound k m) = true.
Proof.
  revert prev. induction m as [|e m IH]; intros prev Hg Hk; cbn [lower_bound]; [done|]. pose proof Hg as [He Hg']%gaps_cons.
  destruct (Z.ltb_spec (fst e) k); [by apply (IH (fst e))|]. eapply gaps_weaken; [|exact Hg|lia]. lia.
Qed.

Lemma Forall_cull P k time m : Forall P m -> Forall P (cull k time m).
Proof. induction 1 as [|e m He Hm IH]; cbn [cull]; [constructor|]. destruct (_ && _); [done|by constructor]. Qed.

Lemma next_after_last w l : l <> [] -> exists x, x ∈ l /\ next_after w l = fst x + 1.
Proof.
  revert w. induction l as [|e l IH]; intros w Hne; [done|]. unfold next_after. cbn [fold_left]. destruct l as [|e' l]; [exists e; split; [apply list_elem_of_here|done]|].
  destruct (IH (fst e + 1)) as (x & Hx & E); [done|]. exists x. split; [by apply list_elem_of_further|exact E].
Qed.

(** ** The invariant *)

Record proxy_ok (p : RemoteEstimatorProxy) : Prop := {
  px_count : is_u8 (feedback_packet_count_ p);
  px_ssrc : is_u32 (px_media_ssrc_ p);
  px_mode : send_feedback_on_request_only_ p = false;
  px_times : Forall time_ok (packet_arrival_times_ p);
  px_chain : chain (packet_arrival_times_ p) = true;
  px_window :
    match unwrapper_ p with
    | None => window_start_seq_ p = -1 /\ packet_arrival_times_ p = []
    | Some l =>
        0 <= window_start_seq_ p /\ 0 <= l /\ map_find l (packet_arrival_times_ p) = true /\
        (exists x, x ∈ packet_arrival_times_ p /\ window_start_seq_ p <= fst x + 1) /\ gaps (window_start_seq_ p - 1) (window p) = true
    end;
}.

(** The number of a packet moves the unwrapped number by less than half of the range,
    and not above the window. *)
Definition tame (p : RemoteEstimatorProxy) (sequence_number : Z) : bool :=
  match unwrapper_ p with
  | None => true
  | Some l =>
      let seq := UnwrapWithoutUpdate (Some l) sequence_number in
      (Z.abs (seq - l) <=? 0x7FFF) && (seq <=? window_start_seq_ p + 0x7FFF)
  end.

Lemma gaps_elem prev m x : gaps prev m = true -> x ∈ m -> prev < fst x.
Proof.
  revert prev. induction m as [|e m IH]; intros prev Hg Hx; [by apply not_elem_of_nil in Hx|]. apply gaps_cons in Hg as [He Hg].
  apply elem_of_cons in Hx as [->|Hx]; [lia|]. specialize (IH _ Hg Hx). lia.
Qed.

Lemma near_of k l m : chain m = true -> map_find l m = true -> Z.abs (k - l) <= 0x7FFF -> near k m.
Proof.
  intros Hc Hf Hd. apply find_elem in Hf as (x & Hx & <-). destruct m as [|e m]; [done|]. split; [exists x; split; [done|lia]|].
  apply elem_of_cons in Hx as [->|Hx]; [lia|]. pose proof (gaps_elem _ _ _ Hc Hx). lia.
Qed.

Lemma chain_lower_elem k m : chain m = true -> map_find k m = true -> gaps (k - 1) (lower_bound k m) = true.
Proof.
  intros Hc Hf. destruct m as [|e m]; [done|]. cbn [chain] in Hc. cbn [lower_bound]. destruct (Z.ltb_spec (fst e) k) as [Hlt|Hge]; [by apply (gaps_lower (fst e))|].
  assert (fst e = k) as <-.
  { apply find_elem in Hf as (x & Hx & <-). apply elem_of_cons in Hx as [->|Hx]; [done|]. pose proof (gaps_elem _ _ _ Hc Hx). lia. }
  cbn [gaps]. rewrite (proj2 (Z.ltb_lt _ _)), (proj2 (Z.leb_le _ _)), Hc by lia. done.
Qed.

(** The map without old entries. *)
Lemma remove_old_ok p seq time l :
  send_feedback_on_request_only_ p = false -> chain (packet_arrival_times_ p) = true -> map_find l (packet_arrival_times_ p) = true ->
  Z.abs (seq - l) <= 0x7FFF -> Forall time_ok (packet_arrival_times_ p) ->
  chain (remove_old p seq time) = true /\ near seq (remove_old p seq time) /\ Forall time_ok (remove_old p seq time) /\
  lower_bound (window_start_seq_ p) (remove_old p seq time) = window p /\ (window p <> [] -> remove_old p seq time = packet_arrival_times_ p).
Proof.
  intros Hm Hc Hl Hd Ht. unfold remove_old. rewrite Hm. pose proof (near_of _ _ _ Hc Hl Hd) as Hn. fold (window p). destruct (window p) as [|e w] eqn:Ew; [|by split_and!].
  destruct (near_cull seq time _ Hc Hn) as [Hc' Hn']. split_and!; [done|done|by apply Forall_cull| |done].
  apply lower_empty. apply Forall_cull. by apply lower_empty.
Qed.

(** A packet keeps the invariant, and its time is in the map. *)
Lemma arrival_wp {R} arr p sequence_number time (QR : R -> RemoteEstimatorProxy -> Prop) :
  proxy_ok p -> is_u16 sequence_number -> 0 <= time < 2 ^ 52 -> tame p sequence_number = true ->
  wp (OnPacketArrival arr sequence_number time None) p
    (fun _ p' => proxy_ok p' /\ sent p' = sent p /\ map_find (UnwrapWithoutUpdate (unwrapper_ p) sequence_number) (packet_arrival_times_ p') = true) QR.
Proof.
  intros [H1 H2 H3 H4 H5 H6] Hs Ht Htame. unfold OnPacketArrival.
  assert (Hin : (time <? 0) || (kMaxTimeMs <? time) = false).
  { change kMaxTimeMs with 9223372036854775. apply orb_false_iff. rewrite !Z.ltb_ge. lia. }
  rewrite Hin. wp_steps. unfold tame in Htame. set (s := UnwrapWithoutUpdate (unwrapper_ p) sequence_number) in *.
  assert (Hs0 : 0 <= s). { apply unwrap_spec; [done|]. intros l E. rewrite E in H6. tauto. }
  assert (Htl : forall l, unwrapper_ p = Some l -> Z.abs (s - l) <= 0x7FFF /\ s <= window_start_seq_ p + 0x7FFF).
  { intros l E. unfold s. rewrite E in Htame |- *. by apply andb_true_iff in Htame as [?%Z.leb_le ?%Z.leb_le]. }
  assert (Htn : unwrapper_ p = None -> s = sequence_number) by (intros E; unfold s; by rewrite E).
  change (Z.quot 0xFFFF 2) with 0x7FFF. clearbody s. clear Htame.
  destruct (unwrapper_ p) as [l|] eqn:El.
  - destruct H6 as (Hw0 & Hl0 & Hlm & (x & Hx & Hxw) & Hg). destruct (Htl l eq_refl) as [Hd Hup].
    rewrite (proj2 (Z.eqb_neq (window_start_seq_ p) _)) by lia. rewrite (proj2 (Z.ltb_ge _ s)) by lia. cbn [negb andb]. wp_steps.
    set (m' := remove_old (p <| unwrapper_ := Some s |>) s time).
    assert (Em : m' = remove_old p s time) by done. destruct (remove_old_ok p s time l H3 H5 Hlm Hd H4) as (Rc & Rn & Rt & Rw & Rkeep). rewrite <- Em in *. clearbody m'. clear Em.
    cbn [set window_start_seq_ packet_arrival_times_ unwrapper_]. rewrite (proj2 (Z.eqb_neq (window_start_seq_ p) _)) by lia.
    set (w := if s <? window_start_seq_ p then s else window_start_seq_ p).
    match goal with |- wp _ ?q _ _ => assert (Eq : q = mkProxy (last_process_time_ms_ p) (px_media_ssrc_ p) (feedback_packet_count_ p) (Some s) w m'
      (send_interval_ms_ p) (send_feedback_on_request_only_ p) (sent p)) by (unfold w; by destruct (s <? window_start_seq_ p)) end.
    rewrite Eq. clear Eq. cbn [packet_arrival_times_].
    assert (Hwc : s < window_start_seq_ p /\ w = s \/ window_start_seq_ p <= s /\ w = window_start_seq_ p)
      by (unfold w; destruct (Z.ltb_spec s (window_start_seq_ p)); auto).
    clearbody w. assert (Hw : 0 <= w) by lia.
    destruct (map_find s m') eqn:Ef; wp_steps.
    + split_and!; [|done|done]. split; cbn [feedback_packet_count_ px_media_ssrc_ send_feedback_on_request_only_ packet_arrival_times_ unwrapper_ window_start_seq_]; auto.
      unfold window. cbn [packet_arrival_times_ window_start_seq_]. pose proof (find_elem _ _ Ef) as (y & Hy & Ey). split_and!; auto.
      * exists y. split; [done|lia].
      * destruct Hwc as [[_ ->]|[_ ->]]; [by apply chain_lower_elem|]. by rewrite Rw.
    + cbn [set packet_arrival_times_]. split_and!; [|done|apply find_insert].
      assert (Hc' : chain (map_insert s time m') = true) by (by apply chain_insert).
      split; cbn [set feedback_packet_count_ px_media_ssrc_ send_feedback_on_request_only_ packet_arrival_times_ unwrapper_ window_start_seq_]; auto; [by apply Forall_insert|].
      unfold window. cbn [set packet_arrival_times_ window_start_seq_]. split_and!; auto using find_insert.
      * exists (s, time). split; [apply elem_insert|]. cbn [fst]. lia.
      * destruct Hwc as [[Hlow ->]|[Hhigh ->]]; [apply chain_lower_elem; [done|apply find_insert]|].
        rewrite lower_insert_ge, Rw by lia. apply gaps_insert; [done|lia| |].
        -- apply not_true_is_false. intros Hfw. apply find_elem in Hfw as (y & Hy & Ey). unfold window in Hy. rewrite <- Ey in Ef.
           assert (Hne : window p <> []) by (unfold window; intros E0; rewrite E0 in Hy; by apply not_elem_of_nil in Hy).
           rewrite (Rkeep Hne) in Ef. unfold map_find in Ef. apply not_true_iff_false in Ef. apply Ef. apply existsb_exists. exists y. split; [|apply Z.eqb_refl].
           apply list_elem_of_In. clear -Hy. induction (packet_arrival_times_ p) as [|e m IH]; [done|]. cbn [lower_bound] in Hy. destruct (_ <? _); [apply list_elem_of_further; auto|done].
        -- apply find_elem in Hlm as (y & Hy & Ey). destruct (Z.lt_ge_cases l (window_start_seq_ p)); [left; lia|]. right. exists y.
           split; [apply elem_lower; [done|lia]|lia].
  - destruct H6 as [Hw Hm]. rewrite Hw. change (-1 =? -1) with true. cbn [negb andb]. wp_steps.
    unfold remove_old. cbn [set send_feedback_on_request_only_ packet_arrival_times_ window_start_seq_]. rewrite H3, Hm, Hw. cbn [lower_bound cull].
    change (-1 =? -1) with true. cbv iota. cbn [set packet_arrival_times_ map_find existsb]. wp_steps. cbn [set packet_arrival_times_ map_insert].
    pose proof (Htn eq_refl) as Es. split_and!; [|done|unfold map_find; cbn; by rewrite Z.eqb_refl].
    split; cbn [set feedback_packet_count_ px_media_ssrc_ send_feedback_on_request_only_ packet_arrival_times_ unwrapper_ window_start_seq_]; auto.
    rewrite <- Es. unfold window. cbn [set packet_arrival_times_ window_start_seq_ lower_bound fst]. rewrite Z.ltb_irrefl. unfold map_find. cbn [existsb fst gaps].
    rewrite Z.eqb_refl. split_and!; auto; [exists (s, time); split; [apply list_elem_of_here|cbn; lia]|].
    by rewrite (proj2 (Z.ltb_lt _ _)), (proj2 (Z.leb_le _ _)) by lia.
Qed.

(** ** Any arrivals *)

Lemma packet_wp {R} arr p time ssrc sequence_number (QR : R -> RemoteEstimatorProxy -> Prop) :
  proxy_ok p -> is_u16 sequence_number -> is_u32 ssrc -> 0 <= time < 2 ^ 52 -> tame p sequence_number = true ->
  wp (IncomingPacket arr time ssrc (Some (sequence_number, None))) p
    (fun _ p' => proxy_ok p' /\ sent p' = sent p /\ map_find (UnwrapWithoutUpdate (unwrapper_ p) sequence_number) (packet_arrival_times_ p') = true) QR.
Proof.
  intros [H1 H2 H3 H4 H5 H6] Hs Hc Ht Htame. unfold IncomingPacket. wp_step. wp_step.
  assert (Hok : proxy_ok (p <| px_media_ssrc_ := ssrc |>)) by (by split).
  exact (arrival_wp arr _ sequence_number time QR Hok Hs Ht Htame).
Qed.

Lemma SendPeriodicFeedbacks_wp {R} arr p (QR : R -> RemoteEstimatorProxy -> Prop) :
  zlen arr = 14 -> proxy_ok p ->
  wp (SendPeriodicFeedbacks arr) p
    (fun _ p' => proxy_ok p' /\ exists messages parts, sent p' = sent p ++ messages /\ concat parts = window p /\
       Forall2 message_reports messages parts /\ window p' = []) QR.
Proof.
  intros Ha [H1 H2 H3 H4 H5 H6]. unfold SendPeriodicFeedbacks. wp_steps.
  assert (Hg : gaps (window_start_seq_ p - 1) (window p) = true).
  { destruct (unwrapper_ p); [tauto|]. destruct H6 as [_ Hm]. unfold window. by rewrite Hm. }
  assert (Hlen : (length (window p) <= length (packet_arrival_times_ p))%nat).
  { unfold window. clear. induction (packet_arrival_times_ p) as [|e m IH]; cbn [lower_bound length]; [lia|]. destruct (_ <? _); cbn [length]; lia. }
  eapply wp_mono; [apply send_periodic_frame; [done|done|done|done|by apply Forall_lower|lia]|cbv beta|done].
  intros _ p' ((messages & parts & M1 & M2 & M3 & M4 & M5 & M6 & M7 & _) & F1 & F2 & F3 & F4).
  split; [|by exists messages, parts]. split; rewrite ?M4, ?F1, ?F2, ?F3; auto; [rewrite M7; apply u8_range|].
  destruct (unwrapper_ p) as [l|].
  - destruct H6 as (Hw0 & Hl0 & Hlm & (x & Hx & Hxw) & _). rewrite M5, M6. split_and!; auto.
    + pose proof (next_after_ge _ _ Hg) as Hn. replace (window_start_seq_ p - 1 + 1) with (window_start_seq_ p) in Hn by lia. lia.
    + destruct (window p) as [|e l'] eqn:Ew; [by exists x|]. destruct (next_after_last (window_start_seq_ p) (e :: l') ltac:(done)) as (y & Hy & Ey).
      exists y. split; [|lia]. rewrite <- Ew in Hy. clear -Hy. unfold window in Hy.
      induction (packet_arrival_times_ p) as [|e m IH]; [done|]. cbn [lower_bound] in Hy. destruct (_ <? _); [apply list_elem_of_further; auto|done].
  - destruct H6 as [Hw Hm]. rewrite M6. unfold window. by rewrite Hm.
Qed.

(** The proxies that packets and times to send lead to. *)
Inductive reached (arr : list Z) : RemoteEstimatorProxy -> Prop :=
| reached_new : reached arr new_RemoteEstimatorProxy
| reached_packet p time ssrc sequence_number p' :
    reached arr p -> 0 <= time < 2 ^ 52 -> is_u32 ssrc -> is_u16 sequence_number -> tame p sequence_number = true ->
    IncomingPacket (R := unit) arr time ssrc (Some (sequence_number, None)) p = Next tt p' -> reached arr p'
| reached_process p now p' : reached arr p -> proxy_Process (R := unit) arr now p = Next tt p' -> reached arr p'.

Lemma process_wp {R} arr now p (QR : R -> RemoteEstimatorProxy -> Prop) :
  zlen arr = 14 -> proxy_ok p ->
  wp (proxy_Process arr now) p
    (fun _ p' => proxy_ok p' /\ exists messages parts, sent p' = sent p ++ messages /\ concat parts = window p /\
       Forall2 message_reports messages parts /\ window p' = []) QR.
Proof.
  intros Ha Hok. unfold proxy_Process. wp_step. wp_step. rewrite (px_mode _ Hok). wp_step. wp_step.
  assert (Hok' : proxy_ok (p <| last_process_time_ms_ := now |>)) by (destruct Hok; by split).
  exact (SendPeriodicFeedbacks_wp arr _ QR Ha Hok').
Qed.

Lemma reached_ok arr p : zlen arr = 14 -> reached arr p -> proxy_ok p.
Proof.
  intros Ha. induction 1 as [|p time ssrc n p' _ Hok Ht Hs Hn Htame E|p now p' _ Hok E].
  - split; cbn; auto; clia.
  - pose proof (packet_wp (R := unit) arr p time ssrc n (fun _ _ => False) Hok Hn Hs Ht Htame) as Hw. by apply (wp_elim _ _ _ _ _ _ Hw) in E as [Hp _].
  - pose proof (process_wp (R := unit) arr now p (fun _ _ => False) Ha Hok) as Hw. by apply (wp_elim _ _ _ _ _ _ Hw) in E as [Hp _].
Qed.

Lemma close_shift a m ps (es : Arrivals) :
  Forall2 (fun e time => close (snd e * 1000) time) es (arrival_times a ps) ->
  Forall2 (fun e time => close (snd e * 1000) time) es (arrival_times (a + m * kTimeWrapPeriodUs) ps).
Proof.
  revert a es. induction ps as [|p ps IH]; intros a es H; cbn [arrival_times] in *; inversion H as [|e t es' ts Hc Ht]; subst; constructor.
  - destruct Hc as [k Hk]. exists (k - m). lia.
  - replace (a + m * kTimeWrapPeriodUs + delta_us p) with (a + delta_us p + m * kTimeWrapPeriodUs) by lia. by apply IH.
Qed.

(** The object of the receiver of a message has the entries: their numbers, and their
    times up to half a tick. *)
Definition delivered (t : TransportFeedback) (entries : Arrivals) : Prop :=
  map sequence_number_ (packets_ t) = map (fun e => u16 (fst e)) entries /\
  Forall2 (fun e time => close (snd e * 1000) time) entries (arrival_times (GetBaseTimeUs t) (packets_ t)).

(** The message reaches the other side when it fits a packet. *)
Definition message_delivered (t : TransportFeedback) (entries : Arrivals) : Prop :=
  entries <> [] /\ forall buffer arr fb0 max_length,
    zlen buffer = IP_PACKET_SIZE -> zlen arr = 14 -> transport_BlockLength t <= max_length <= IP_PACKET_SIZE ->
    exists packet t', Build buffer t max_length = Some (true, [packet]) /\ ParseFrom fb0 arr packet = Some (Some t') /\ delivered t' entries.

Lemma reports_received t entries :
  message_reports t entries -> forall buffer arr fb0 max_length,
    zlen buffer = IP_PACKET_SIZE -> zlen arr = 14 -> transport_BlockLength t <= max_length <= IP_PACKET_SIZE ->
    exists packet t' st, Build buffer t max_length = Some (true, [packet]) /\ ParseFrom fb0 arr packet = Some (Some t') /\ delivered t' entries /\
      represents t st /\ st <> [] /\ received_as t st t'.
Proof.
  intros (Hne & Hinc & (st & Hr & Hnum & Htimes) & _) buffer arr fb0 max_length Hbuf Ha Hmax.
  assert (Hst : st <> []).
  { intros ->. rewrite (rep_packets _ _ Hr) in Hnum. by destruct entries. }
  assert (Hbl : 0 <= transport_BlockLength t).
  { unfold transport_BlockLength. rewrite block_length_round. rewrite (hc_size _ _ _ (rep_chunks _ _ Hr)).
    pose proof (extra_bounds st (include_timestamps_ t)). apply Z.mul_nonneg_nonneg; [lia|]. apply Z.div_pos; [|lia]. destruct (chunk_Empty _); lia. }
  destruct (feedback_delivery buffer arr fb0 t st max_length Hr Hst Hbuf Ha ltac:(lia)) as (packets & E & Hp).
  destruct (Hp ltac:(lia)) as (packet & t' & -> & _ & Et & Hrec). exists packet, t', st. pose proof Hrec as (_ & _ & _ & _ & R5 & R6 & _).
  rewrite (proj2 (Z.leb_le _ _)) in E by lia. split_and!; try done. unfold delivered, GetBaseTimeUs. rewrite R6. split; [done|].
  specialize (Htimes Hinc). unfold GetBaseTimeUs in Htimes. rewrite R5. unfold signed24. destruct (_ <? 2 ^ 23); [done|].
  replace ((base_time_ticks_ t - 2 ^ 24) * kBaseScaleFactor) with (base_time_ticks_ t * kBaseScaleFactor + -1 * kTimeWrapPeriodUs); [by apply close_shift|].
  change kTimeWrapPeriodUs with (2 ^ 24 * 64000). change kBaseScaleFactor with 64000. lia.
Qed.

Lemma reports_delivered t entries : message_reports t entries -> message_delivered t entries.
Proof.
  intros Hr. split; [by destruct Hr|]. intros buffer arr fb0 max_length Hbuf Ha Hmax.
  destruct (reports_received t entries Hr buffer arr fb0 max_length Hbuf Ha Hmax) as (packet & t' & st & H1 & H2 & H3 & _). by exists packet, t'.
Qed.

(** C9. Arrival times are reported: a proxy that packets whose numbers move by less than
    half of their range, within the window, and calls of [Process] have led to takes every
    further such packet and keeps its time; [Process] ends, sends messages that
    together have exactly the packets since the last report, in the order of their
    numbers and each in one message, and leaves nothing to report. The other side,
    when a message fits a packet, reads from it the numbers of its packets and times
    within half a tick of those at which they arrived, up to whole periods of the reference
    time. *)
Theorem arrivals_delivered arr p :
  zlen arr = 14 -> reached arr p ->
  (forall time ssrc sequence_number, 0 <= time < 2 ^ 52 -> is_u32 ssrc -> is_u16 sequence_number -> tame p sequence_number = true ->
     exists p', IncomingPacket (R := unit) arr time ssrc (Some (sequence_number, None)) p = Next tt p' /\
       map_find (UnwrapWithoutUpdate (unwrapper_ p) sequence_number) (packet_arrival_times_ p') = true) /\
  (forall now, exists p' messages parts, proxy_Process (R := unit) arr now p = Next tt p' /\ sent p' = sent p ++ messages /\
     concat parts = lower_bound (window_start_seq_ p) (packet_arrival_times_ p) /\ Forall2 message_delivered messages parts /\
     lower_bound (window_start_seq_ p') (packet_arrival_times_ p') = []).
Proof.
  intros Ha Hr. pose proof (reached_ok arr p Ha Hr) as Hok. split.
  - intros time ssrc n Ht Hs Hn Htame. pose proof (packet_wp (R := unit) arr p time ssrc n (fun _ _ => False) Hok Hn Hs Ht Htame) as Hw.
    apply wp_run in Hw as ([] & p' & E & _ & _ & Hf). by exists p'.
  - intros now. pose proof (process_wp (R := unit) arr now p (fun _ _ => False) Ha Hok) as Hw.
    apply wp_run in Hw as ([] & p' & E & _ & messages & parts & M1 & M2 & M3 & M4). exists p', messages, parts. split_and!; [done|done|done| |done].
    eapply Forall2_impl; [|exact M3]. apply reports_delivered.
Qed.

(** Three packets, out of order and across the wrap of their numbers *)
Definition three_packets : RemoteEstimatorProxy := mkProxy (-1) 1 0 (Some 65536) 65535 [(65535, 10); (65536, 9000); (65537, 12)] 100 false [].

Lemma three_packets_reached : reached (replicate 14 0) three_packets.
Proof.
  apply (reached_packet _ (mkProxy (-1) 1 0 (Some 65537) 65535 [(65535, 10); (65537, 12)] 100 false []) 9000 1 0); [
    apply (reached_packet _ (mkProxy (-1) 1 0 (Some 65535) 65535 [(65535, 10)] 100 false []) 12 1 1); [
      apply (reached_packet _ new_RemoteEstimatorProxy 10 1 65535); [apply reached_new|..]|..]|..];
    lia || (unfold is_u32, is_u16; lia) || reflexivity.
Qed.

Lemma arrivals_delivered_witness :
  exists p' messages parts, proxy_Process (R := unit) (replicate 14 0) 9001 three_packets = Next tt p' /\ sent p' = messages /\
    concat parts = [(65535, 10); (65536, 9000); (65537, 12)] /\ Forall2 message_delivered messages parts.
Proof.
  destruct (arrivals_delivered (replicate 14 0) three_packets eq_refl three_packets_reached) as [_ Hp].
  destruct (Hp 9001) as (p' & messages & parts & EP & ES & EC & EM & _).
  exists p', messages, parts. split; [exact EP|]. split; [exact ES|]. split; [exact EC|exact EM].
Defined.

(** Packets whose numbers jump, with a report between them. *)
Definition jumping_arrivals (arr : list Z) : stmt RemoteEstimatorProxy unit unit :=
  IncomingPacket arr 10 1 (Some (40000, None)) ;; IncomingPacket arr 11 1 (Some (40001, None)) ;;
  IncomingPacket arr 12 1 (Some (7232, None)) ;; proxy_Process arr 100 ;; IncomingPacket arr 120 1 (Some (7233, None)).

(** C31. Numbers that jump stop the process: packets 40000 and 40001 arrive and then
    7232, which is 32768 above the start of the window and not kept, but the unwrapper
    follows it; after a report packet 7233 is unwrapped 32767 above the new start of
    the window and kept. It is 32768 above the last number of the next message, which
    [AddReceivedPacket] refuses as not newer, so that [Process] runs into the check that
    the first packet of a message can be added, and stops. *)
Theorem jump_stops_process arr :
  zlen arr = 14 ->
  exists p, jumping_arrivals arr new_RemoteEstimatorProxy = Next tt p /\
    packet_arrival_times_ p = [(40000, 10); (40001, 11); (72769, 120)] /\ window_start_seq_ p = 40002 /\
    forall now, proxy_Process (R := unit) arr now p = Fault.
Proof.
  intros Ha. do 14 (destruct arr as [|? arr]; [discriminate Ha|]). destruct arr as [|? arr]; [|rewrite !zlen_cons in Ha; pose proof (zlen_nonneg arr); lia].
  eexists. split; [vm_compute; reflexivity|]. split; [reflexivity|]. split; [reflexivity|]. intros now. reflexivity.
Qed.

Lemma jump_stops_process_witness :
  exists p, packet_arrival_times_ p = [(40000, 10); (40001, 11); (72769, 120)] /\ forall now, proxy_Process (R := unit) (replicate 14 0) now p = Fault.
Proof.
  destruct (jump_stops_process (replicate 14 0) eq_refl) as (p & _ & E & _ & H). exists p. split; [exact E|exact H].
Defined.

(** ** Feedback on request *)

Lemma ascending_gaps prev b m : ascending prev m = true -> Forall (fun e => fst e <= b) m -> b <= prev + 0x7FFF -> gaps prev m = true.
Proof.
  revert prev. induction m as [|e m IH]; intros prev Ha Hb Hp; [done|]. cbn [ascending gaps] in *. apply andb_true_iff in Ha as [Hlt%Z.ltb_lt Ha].
  apply list.Forall_cons in Hb as [He Hb]. rewrite (proj2 (Z.ltb_lt _ _)), (proj2 (Z.leb_le _ _)) by lia. cbn [andb]. apply IH; [done|done|lia].
Qed.

(** Feedback on request: for a packet that is in the map and a request of up to 32767
    numbers, one message is sent, never stopping the process; it reports entries from
    the first one of the numbers that were asked for, with the base number and the
    choice of times of the request, the entries before are removed, and the window starts
    behind the last entry that is reported. *)
Theorem request_reported arr p sequence_number time request :
  zlen arr = 14 -> is_u8 (feedback_packet_count_ p) -> is_u32 (px_media_ssrc_ p) -> ascending (-1) (packet_arrival_times_ p) = true ->
  Forall time_ok (packet_arrival_times_ p) -> (sequence_number, time) ∈ packet_arrival_times_ p -> 1 <= sequence_count request <= 0x7FFF ->
  let first := sequence_number - sequence_count request + 1 in
  exists p' t st part rest, SendFeedbackOnRequest (R := unit) arr sequence_number request p = Next tt p' /\ sent p' = sent p ++ [t] /\
    until_upper_bound sequence_number (lower_bound first (packet_arrival_times_ p)) = part ++ rest /\ part <> [] /\ reports t st part /\
    base_seq_no_ t = u16 first /\ feedback_seq_ t = feedback_packet_count_ p /\ include_timestamps_ t = include_timestamps request /\
    packet_arrival_times_ p' = lower_bound first (packet_arrival_times_ p) /\ window_start_seq_ p' = next_after first part.
Proof.
  intros Ha Hc Hs Hasc Ht Hin Hcount first. pose proof (ascending_lower _ first _ Hasc) as Hl.
  destruct (until_upper _ sequence_number _ Hl) as [Hu Hb].
  assert (Hw : wp (SendFeedbackOnRequest (R := unit) arr sequence_number request) p (fun _ p' => exists t st part rest, sent p' = sent p ++ [t] /\
    until_upper_bound sequence_number (lower_bound first (packet_arrival_times_ p)) = part ++ rest /\ part <> [] /\ reports t st part /\
    base_seq_no_ t = u16 first /\ feedback_seq_ t = feedback_packet_count_ p /\ include_timestamps_ t = include_timestamps request /\
    packet_arrival_times_ p' = lower_bound first (packet_arrival_times_ p) /\ window_start_seq_ p' = next_after first part) (fun _ _ => False)).
  { unfold SendFeedbackOnRequest. rewrite (proj2 (Z.eqb_neq _ 0)) by lia. cbv zeta. fold first. wp_step. wp_step.
    apply build_and_send_wp; [done|done|done| | |by apply Forall_until, Forall_lower|].
    - eapply until_nonempty; [exact Hl|]. apply elem_lower; [exact Hin|]. cbn [fst]. subst first. lia.
    - eapply ascending_gaps; [exact Hu|exact Hb|]. subst first. lia.
    - intros part rest t st E Hp Hr _ F1 F2 _ F4. exists t, st, part, rest. by split_and!. }
  apply wp_run in Hw as ([] & p' & E & t & st & part & rest & Hrest). exists p', t, st, part, rest. by split.
Qed.

Lemma request_reported_witness :
  let p := mkProxy (-1) 1 255 (Some 3) 0 [(0, 10); (2, 20); (3, 500)] 100 true [] in
  exists p' t st part rest, SendFeedbackOnRequest (R := unit) (replicate 14 0) 3 (RtpExtensions.mkFeedback false 2) p = Next tt p' /\ sent p' = [t] /\
    part ++ rest = [(2, 20); (3, 500)] /\ reports t st part /\ base_seq_no_ t = 2.
Proof.
  intros p. destruct (request_reported (replicate 14 0) p 3 500 (RtpExtensions.mkFeedback false 2)) as (p' & t & st & part & rest & E & Es & Ep & _ & Hr & Eb & _);
    [reflexivity|cbn; clia|cbn; clia|reflexivity|repeat (constructor; [unfold time_ok; cbn [snd]; lia|]); constructor| |cbn; lia|].
  - apply list_elem_of_further, list_elem_of_further, list_elem_of_here.
  - exists p', t, st, part, rest. split; [exact E|]. split; [exact Es|]. split; [symmetry; exact Ep|]. split; [exact Hr|exact Eb].
Defined.
