(* ===== verification/SendHistory.v ===== *)
(** * The history of sent packets

    [SendTimeHistory] of [modules/congestion_controller/rtp]: the packets that were
    handed to the network, by unwrapped number, and the bytes in flight on each network
    route. A route is the pair of the local and the remote network id. Times in
    milliseconds are not bounded here; sizes have 64 bits. *)

From stdpp Require Import gmap.
From S2P Require Import Prelude OrderedMap RemoteProxy RemoteReach.

Open Scope Z_scope.
Open Scope c_scope.

(** ** Packets *)

Record PacedPacketInfo := mkPaced {
  send_bitrate_bps : Z;
  probe_cluster_id : Z;
  probe_cluster_min_probes : Z;
  probe_cluster_min_bytes : Z;
}.

Definition kNotAProbe : Z := -1.
Definition new_PacedPacketInfo : PacedPacketInfo := mkPaced (-1) kNotAProbe (-1) (-1).

Record PacketFeedback := mkPacket {
  creation_time_ms : Z;
  arrival_time_ms : Z;
  send_time_ms : Z;
  pf_sequence_number : Z;
  long_sequence_number : Z;
  payload_size : Z;
  unacknowledged_data : Z;
  pf_local_net_id : Z;
  pf_remote_net_id : Z;
  pacing_info : PacedPacketInfo;
}.

#[export] Instance eta_PacketFeedback : Eta PacketFeedback :=
  fun p => mkPacket (creation_time_ms p) (arrival_time_ms p) (send_time_ms p) (pf_sequence_number p) (long_sequence_number p) (payload_size p)
    (unacknowledged_data p) (pf_local_net_id p) (pf_remote_net_id p) (pacing_info p).

Definition kNotReceived : Z := -1.
Definition kNoSendTime : Z := -1.

(** The constructors leave [long_sequence_number] as it is in memory: [garbage]. *)
Definition created_packet (garbage creation_time sequence_number payload_size local_net_id remote_net_id : Z) (pacing_info : PacedPacketInfo) : PacketFeedback :=
  mkPacket creation_time kNotReceived kNoSendTime sequence_number garbage payload_size 0 local_net_id remote_net_id pacing_info.

Definition query_packet (garbage arrival_time sequence_number : Z) : PacketFeedback :=
  mkPacket (-1) arrival_time kNoSendTime sequence_number garbage 0 0 0 0 new_PacedPacketInfo.

(** ** The history *)

Definition net_of (p : PacketFeedback) : Z * Z := (pf_local_net_id p, pf_remote_net_id p).

Record SendTimeHistory := mkHistory {
  packet_age_limit_ms_ : Z;
  pending_untracked_size_ : Z;
  last_send_time_ms_ : Z;
  last_untracked_send_time_ms_ : Z;
  seq_num_unwrapper_ : option Z;
  history_ : Entries PacketFeedback;
  last_ack_seq_num_ : option Z;
  in_flight_bytes_ : gmap (Z * Z) Z;
}.

#[export] Instance eta_History : Eta SendTimeHistory :=
  fun h => mkHistory (packet_age_limit_ms_ h) (pending_untracked_size_ h) (last_send_time_ms_ h) (last_untracked_send_time_ms_ h)
    (seq_num_unwrapper_ h) (history_ h) (last_ack_seq_num_ h) (in_flight_bytes_ h).

Definition new_SendTimeHistory (packet_age_limit_ms : Z) : SendTimeHistory := mkHistory packet_age_limit_ms 0 (-1) (-1) None [] None ∅.

(** The packets that do not count. *)
Definition not_counted (last_ack : option Z) (p : PacketFeedback) : bool :=
  (send_time_ms p <? 0) || (payload_size p =? 0) ||
  match last_ack with Some last => long_sequence_number p <=? last | None => false end.

Definition AddPacketBytes (p : PacketFeedback) (h : SendTimeHistory) : SendTimeHistory :=
  if not_counted (last_ack_seq_num_ h) p then h
  else
    match in_flight_bytes_ h !! net_of p with
    | Some bytes => h <| in_flight_bytes_ := <[net_of p := u64 (bytes + payload_size p)]> (in_flight_bytes_ h) |>
    | None => h <| in_flight_bytes_ := <[net_of p := payload_size p]> (in_flight_bytes_ h) |>
    end.

Definition RemovePacketBytes (p : PacketFeedback) (h : SendTimeHistory) : SendTimeHistory :=
  if not_counted (last_ack_seq_num_ h) p then h
  else
    match in_flight_bytes_ h !! net_of p with
    | Some bytes =>
        let bytes := u64 (bytes - payload_size p) in
        if bytes =? 0 then h <| in_flight_bytes_ := delete (net_of p) (in_flight_bytes_ h) |>
        else h <| in_flight_bytes_ := <[net_of p := bytes]> (in_flight_bytes_ h) |>
    | None => h
    end.

(** The loop of [AddAndRemoveOld]. *)
Fixpoint remove_aged (at_time : Z) (m : Entries PacketFeedback) (h : SendTimeHistory) : SendTimeHistory :=
  match m with
  | [] => h <| history_ := [] |>
  | e :: m' =>
      if packet_age_limit_ms_ h <? at_time - creation_time_ms (snd e) then remove_aged at_time m' (RemovePacketBytes (snd e) h)
      else h <| history_ := m |>
  end.

(** [insert] leaves a map with the key as it is. *)
Definition insert_packet (k : Z) (p : PacketFeedback) (m : Entries PacketFeedback) : Entries PacketFeedback :=
  if map_find k m then m else map_insert k p m.

Definition AddAndRemoveOld (packet : PacketFeedback) (at_time : Z) (h : SendTimeHistory) : SendTimeHistory :=
  let h := remove_aged at_time (history_ h) h in
  let unwrapped_seq_num := UnwrapWithoutUpdate (seq_num_unwrapper_ h) (pf_sequence_number packet) in
  let h := h <| seq_num_unwrapper_ := Some unwrapped_seq_num |> in
  let packet_copy := packet <| long_sequence_number := unwrapped_seq_num |> in
  let h := h <| history_ := insert_packet unwrapped_seq_num packet_copy (history_ h) |> in
  if 0 <=? send_time_ms packet then
    let h := AddPacketBytes packet_copy h in
    h <| last_send_time_ms_ := Z.max (last_send_time_ms_ h) (send_time_ms packet) |>
  else h.

Definition AddUntracked (packet_size send_time : Z) (h : SendTimeHistory) : SendTimeHistory :=
  h <| pending_untracked_size_ := u64 (pending_untracked_size_ h + packet_size) |>
    <| last_untracked_send_time_ms_ := Z.max (last_untracked_send_time_ms_ h) send_time |>.

Definition OnSentPacket (sequence_number send_time : Z) (h : SendTimeHistory) : bool * SendTimeHistory :=
  let unwrapped_seq_num := UnwrapWithoutUpdate (seq_num_unwrapper_ h) sequence_number in
  let h := h <| seq_num_unwrapper_ := Some unwrapped_seq_num |> in
  match map_get unwrapped_seq_num (history_ h) with
  | None => (false, h)
  | Some packet =>
      let packet_retransmit := 0 <=? send_time_ms packet in
      let h := h <| history_ := map_update unwrapped_seq_num (fun p => p <| send_time_ms := send_time |>) (history_ h) |> in
      let h := h <| last_send_time_ms_ := Z.max (last_send_time_ms_ h) send_time |> in
      let h := if packet_retransmit then h else AddPacketBytes (packet <| send_time_ms := send_time |>) h in
      let h :=
        if 0 <? pending_untracked_size_ h then
          let pending := pending_untracked_size_ h in
          h <| history_ := map_update unwrapped_seq_num (fun p => p <| unacknowledged_data := u64 (unacknowledged_data p + pending) |>) (history_ h) |>
            <| pending_untracked_size_ := 0 |>
        else h in
      (true, h)
  end.

Definition GetPacket (sequence_number : Z) (h : SendTimeHistory) : option PacketFeedback :=
  map_get (UnwrapWithoutUpdate (seq_num_unwrapper_ h) sequence_number) (history_ h).

(** From [unacked_it] to [newly_acked_end]. *)
Definition newly_acked (h : SendTimeHistory) (acked_seq_num : Z) : Entries PacketFeedback :=
  until_upper_bound acked_seq_num
    (match last_ack_seq_num_ h with Some last => lower_bound last (history_ h) | None => history_ h end).

Definition UpdateAckedSeqNum (acked_seq_num : Z) (h : SendTimeHistory) : SendTimeHistory :=
  if match last_ack_seq_num_ h with Some last => acked_seq_num <=? last | None => false end then h
  else
    let h := fold_left (fun h e => RemovePacketBytes (snd e) h) (newly_acked h acked_seq_num) h in
    h <| last_ack_seq_num_ := Some acked_seq_num |>.

(** The result, [packet_feedback] afterwards, and the history. *)
Definition GetFeedback (packet_feedback : PacketFeedback) (remove : bool) (h : SendTimeHistory) : bool * PacketFeedback * SendTimeHistory :=
  let unwrapped_seq_num := UnwrapWithoutUpdate (seq_num_unwrapper_ h) (pf_sequence_number packet_feedback) in
  let h := h <| seq_num_unwrapper_ := Some unwrapped_seq_num |> in
  let h := UpdateAckedSeqNum unwrapped_seq_num h in
  match map_get unwrapped_seq_num (history_ h) with
  | None => (false, packet_feedback, h)
  | Some packet =>
      let result := packet <| arrival_time_ms := arrival_time_ms packet_feedback |> in
      (true, result, if remove then h <| history_ := map_erase unwrapped_seq_num (history_ h) |> else h)
  end.

Definition GetOutstandingData (local_net_id remote_net_id : Z) (h : SendTimeHistory) : Z :=
  default 0 (in_flight_bytes_ h !! (local_net_id, remote_net_id)).

Definition GetFirstUnackedSendTime (h : SendTimeHistory) : option Z :=
  match last_ack_seq_num_ h with
  | None => None
  | Some last =>
      match map_get last (history_ h) with
      | None => None
      | Some packet => if send_time_ms packet =? kNoSendTime then None else Some (send_time_ms packet)
      end
  end.
