(* ===== verification/FeedbackAdapter.v ===== *)
(** * Transport feedback: the adapter of the sender

    [TransportFeedbackAdapter] of [modules/congestion_controller/rtp], which tells the
    congestion controller when its packets arrived. The observers are the list of
    what they are told. The locks are not modelled: the calls are atomic. *)

From S2P Require Import Prelude OrderedMap TransportFeedback SendHistory.

Open Scope Z_scope.
Open Scope c_scope.

(** ** Units and messages *)

(** [Timestamp] and [TimeDelta] are microseconds, of which the largest stands for infinity. *)
Definition PlusInfinity : Z := 2 ^ 63 - 1.
Definition Timestamp_ms (milliseconds : Z) : Z := milliseconds * 1000.
Definition to_ms (us : Z) : Z := Z.quot (us + Z.quot 1000 2) 1000.

(** [SentPacket] of api/transport/network_types.h *)
Record SentPacket := mkSent {
  send_time : Z;
  sp_size : Z;
  prior_unacked_data : Z;
  sp_pacing_info : PacedPacketInfo;
  sp_sequence_number : Z;
  sp_data_in_flight : Z;
}.

Record PacketResult := mkResult { sent_packet : SentPacket; receive_time : Z }.

Record TransportPacketsFeedback := mkReport {
  feedback_time : Z;
  first_unacked_send_time : Z;
  data_in_flight : Z;
  prior_in_flight : Z;
  packet_feedbacks : list PacketResult;
  sendless_arrival_times : list Z;
}.

#[export] Instance eta_Report : Eta TransportPacketsFeedback :=
  fun m => mkReport (feedback_time m) (first_unacked_send_time m) (data_in_flight m) (prior_in_flight m) (packet_feedbacks m) (sendless_arrival_times m).

Definition new_TransportPacketsFeedback : TransportPacketsFeedback := mkReport PlusInfinity PlusInfinity 0 0 [] [].

(** [rtc::SentPacket] of rtc_base/network/sent_packet.h, with the part of [info] that
    is read *)
Record NetworkSentPacket := mkNetworkSent {
  packet_id : Z;
  ns_send_time_ms : Z;
  included_in_feedback : bool;
  included_in_allocation : bool;
  packet_size_bytes : Z;
}.

Definition NetworkPacketFeedbackFromRtpPacketFeedback (pf : PacketFeedback) : PacketResult :=
  mkResult
    (mkSent (Timestamp_ms (send_time_ms pf)) (payload_size pf) (unacknowledged_data pf) (pacing_info pf) (long_sequence_number pf) 0)
    (if arrival_time_ms pf =? kNotReceived then PlusInfinity else Timestamp_ms (arrival_time_ms pf)).

(** ** The adapter *)

Definition kNoTimestamp : Z := -1.
Definition kSendTimeHistoryWindowMs : Z := 60000.
Definition kBaseTimestampScaleFactor : Z := kDeltaScaleFactor * Z.shiftl 1 8.
Definition kBaseTimestampRangeSizeUs : Z := kBaseTimestampScaleFactor * Z.shiftl 1 24.

Inductive observed :=
| OnPacketAdded (ssrc sequence_number : Z)
| OnPacketFeedbackVector (packets : list PacketFeedback).

(** [observers_] by the calls each got. *)
Record TransportFeedbackAdapter := mkAdapter {
  send_time_history_ : SendTimeHistory;
  current_offset_ms_ : Z;
  ad_last_timestamp_us_ : Z;
  last_packet_feedback_vector_ : list PacketFeedback;
  local_net_id_ : Z;
  remote_net_id_ : Z;
  observers_ : list (Z * list observed);
}.

#[export] Instance eta_Adapter : Eta TransportFeedbackAdapter :=
  fun a => mkAdapter (send_time_history_ a) (current_offset_ms_ a) (ad_last_timestamp_us_ a) (last_packet_feedback_vector_ a)
    (local_net_id_ a) (remote_net_id_ a) (observers_ a).

Definition new_TransportFeedbackAdapter : TransportFeedbackAdapter :=
  mkAdapter (new_SendTimeHistory kSendTimeHistoryWindowMs) kNoTimestamp kNoTimestamp [] 0 0 [].

Definition RegisterPacketFeedbackObserver (observer : Z) (a : TransportFeedbackAdapter) : TransportFeedbackAdapter :=
  a <| observers_ := observers_ a ++ [(observer, [])] |>.

(** [find] and [erase], which of the end of the vector is undefined *)
Fixpoint erase_observer (observer : Z) (l : list (Z * list observed)) : option (list (Z * list observed)) :=
  match l with
  | [] => None
  | o :: l => if fst o =? observer then Some l else match erase_observer observer l with Some l => Some (o :: l) | None => None end
  end.

Definition DeRegisterPacketFeedbackObserver (observer : Z) (a : TransportFeedbackAdapter) : option TransportFeedbackAdapter :=
  match erase_observer observer (observers_ a) with Some l => Some (a <| observers_ := l |>) | None => None end.

Definition tell (e : observed) (a : TransportFeedbackAdapter) : TransportFeedbackAdapter :=
  a <| observers_ := map (fun o => (fst o, snd o ++ [e])) (observers_ a) |>.

Definition SetNetworkIds (local_id remote_id : Z) (a : TransportFeedbackAdapter) : TransportFeedbackAdapter :=
  a <| local_net_id_ := local_id |> <| remote_net_id_ := remote_id |>.

Definition adapter_GetOutstandingData (a : TransportFeedbackAdapter) : Z := GetOutstandingData (local_net_id_ a) (remote_net_id_ a) (send_time_history_ a).

(** Memory that is not initialised holds [garbage]. *)
Section Adapter.
Variable garbage : Z.

Definition AddPacket (ssrc sequence_number length : Z) (pacing_info : PacedPacketInfo) (creation_time : Z) (a : TransportFeedbackAdapter)
  : TransportFeedbackAdapter :=
  let packet := created_packet garbage (to_ms creation_time) sequence_number length (local_net_id_ a) (remote_net_id_ a) pacing_info in
  let a := a <| send_time_history_ := AddAndRemoveOld packet (to_ms creation_time) (send_time_history_ a) |> in
  tell (OnPacketAdded ssrc sequence_number) a.

Definition ProcessSentPacket (sent : NetworkSentPacket) (a : TransportFeedbackAdapter) : option SentPacket * TransportFeedbackAdapter :=
  if included_in_feedback sent || negb (packet_id sent =? -1) then
    let h := snd (OnSentPacket (u16 (packet_id sent)) (ns_send_time_ms sent) (send_time_history_ a)) in
    let a := a <| send_time_history_ := h |> in
    match GetPacket (u16 (packet_id sent)) h with
    | Some packet =>
        (Some (mkSent (Timestamp_ms (send_time_ms packet)) (payload_size packet) (unacknowledged_data packet) new_PacedPacketInfo
                 (long_sequence_number packet) (GetOutstandingData (local_net_id_ a) (remote_net_id_ a) h)), a)
    | None => (None, a)
    end
  else if included_in_allocation sent then
    (None, a <| send_time_history_ := AddUntracked (packet_size_bytes sent) (ns_send_time_ms sent) (send_time_history_ a) |>)
  else (None, a).

(** A packet of the vector: of the route of the adapter, as it is or looked up. *)
Definition look_up (arrival_time seq_num : Z) (remove : bool) (local_net_id remote_net_id : Z) (h : SendTimeHistory)
  : list PacketFeedback * SendTimeHistory :=
  let '(_, packet_feedback, h) := GetFeedback (query_packet garbage arrival_time seq_num) remove h in
  (if (pf_local_net_id packet_feedback =? local_net_id) && (pf_remote_net_id packet_feedback =? remote_net_id) then [packet_feedback] else [], h).

(** The loop over the packets that precede a received one; [None] when it does not end
    within [fuel] rounds. *)
Fixpoint unreceived (fuel : nat) (seq_num last : Z) (local_net_id remote_net_id : Z) (v : list PacketFeedback) (h : SendTimeHistory)
  : option (Z * list PacketFeedback * SendTimeHistory) :=
  if seq_num =? last then Some (seq_num, v, h)
  else
    match fuel with
    | O => None
    | S fuel =>
        let '(found, h) := look_up kNotReceived seq_num false local_net_id remote_net_id h in
        unreceived fuel (u16 (seq_num + 1)) last local_net_id remote_net_id (v ++ found) h
    end.

Definition unreceived_fuel (seq_num last : Z) : nat := Z.to_nat (u16 (last - seq_num)).

(** The loop over the received packets. *)
Fixpoint received (packets : list ReceivedPacket) (current_offset seq_num offset_us : Z) (local_net_id remote_net_id : Z)
    (v : list PacketFeedback) (h : SendTimeHistory) : option (list PacketFeedback * SendTimeHistory) :=
  match packets with
  | [] => Some (v, h)
  | packet :: packets =>
      match unreceived (unreceived_fuel seq_num (sequence_number_ packet)) seq_num (sequence_number_ packet) local_net_id remote_net_id v h with
      | None => None
      | Some (seq_num, v, h) =>
          let offset_us := offset_us + delta_us packet in
          let timestamp_ms := current_offset + Z.quot offset_us 1000 in
          let '(found, h) := look_up timestamp_ms (sequence_number_ packet) true local_net_id remote_net_id h in
          received packets current_offset (u16 (seq_num + 1)) offset_us local_net_id remote_net_id (v ++ found) h
      end
  end.

(** The change of the base time, with wrap-arounds compensated. *)
Definition base_delta (timestamp_us last_timestamp_us : Z) : Z :=
  let delta := timestamp_us - last_timestamp_us in
  if Z.abs (delta - kBaseTimestampRangeSizeUs) <? Z.abs delta then delta - kBaseTimestampRangeSizeUs
  else if Z.abs (delta + kBaseTimestampRangeSizeUs) <? Z.abs delta then delta + kBaseTimestampRangeSizeUs
  else delta.

Definition GetPacketFeedbackVector (feedback : TransportFeedback) (feedback_time : Z) (a : TransportFeedbackAdapter)
  : option (list PacketFeedback * TransportFeedbackAdapter) :=
  let timestamp_us := GetBaseTimeUs feedback in
  let a :=
    if ad_last_timestamp_us_ a =? kNoTimestamp then a <| current_offset_ms_ := to_ms feedback_time |>
    else a <| current_offset_ms_ := current_offset_ms_ a + Z.quot (base_delta timestamp_us (ad_last_timestamp_us_ a)) 1000 |> in
  let a := a <| ad_last_timestamp_us_ := timestamp_us |> in
  if num_seq_no_ feedback =? 0 then Some ([], a)
  else
    match received (packets_ feedback) (current_offset_ms_ a) (base_seq_no_ feedback) 0 (local_net_id_ a) (remote_net_id_ a) [] (send_time_history_ a) with
    | Some (v, h) => Some (v, a <| send_time_history_ := h |>)
    | None => None
    end.

(** The loop that sorts the packets by whether they have a send time. *)
Fixpoint sort_feedback (feedback_vector : list PacketFeedback) (msg : TransportPacketsFeedback) : TransportPacketsFeedback :=
  match feedback_vector with
  | [] => msg
  | rtp_feedback :: feedback_vector =>
      sort_feedback feedback_vector
        (if negb (send_time_ms rtp_feedback =? kNoSendTime)
         then msg <| packet_feedbacks := packet_feedbacks msg ++ [NetworkPacketFeedbackFromRtpPacketFeedback rtp_feedback] |>
         else if arrival_time_ms rtp_feedback =? kNotReceived
         then msg <| sendless_arrival_times := sendless_arrival_times msg ++ [PlusInfinity] |>
         else msg <| sendless_arrival_times := sendless_arrival_times msg ++ [Timestamp_ms (arrival_time_ms rtp_feedback)] |>)
  end.

Definition ProcessTransportFeedback (feedback : TransportFeedback) (feedback_receive_time : Z) (a : TransportFeedbackAdapter)
  : option (option TransportPacketsFeedback * TransportFeedbackAdapter) :=
  let prior := adapter_GetOutstandingData a in
  match GetPacketFeedbackVector feedback feedback_receive_time a with
  | None => None
  | Some (feedback_vector, a) =>
      let a := tell (OnPacketFeedbackVector feedback_vector) (a <| last_packet_feedback_vector_ := feedback_vector |>) in
      match feedback_vector with
      | [] => Some (None, a)
      | _ =>
          let msg := sort_feedback feedback_vector new_TransportPacketsFeedback in
          let msg :=
            match GetFirstUnackedSendTime (send_time_history_ a) with
            | Some first_unacked_send_time_ms => msg <| first_unacked_send_time := Timestamp_ms first_unacked_send_time_ms |>
            | None => msg
            end in
          let msg := msg <| feedback_time := feedback_receive_time |> <| prior_in_flight := prior |> <| data_in_flight := adapter_GetOutstandingData a |> in
          Some (Some msg, a)
      end
  end.

End Adapter.
