(* ===== verification/SendFlight.v ===== *)
(** * The bytes in flight

    The counters of [SendTimeHistory] agree with its packets: on each route they are the
    sum of the sizes of the packets that were sent and are above the last acknowledged
    number. *)

From stdpp Require Import gmap.
From S2P Require Import Prelude OrderedMap RemoteProxy RemoteReach TransportFeedback SendHistory FeedbackAdapter.

Open Scope Z_scope.
Open Scope c_scope.

(** ** The specification *)

(** What an entry of the history adds to the bytes in flight on a route. *)
Definition entry_bytes (last_ack : option Z) (net : Z * Z) (e : Z * PacketFeedback) : Z :=
  if not_counted last_ack (snd e) then 0 else if decide (net_of (snd e) = net) then payload_size (snd e) else 0.

Definition flight (last_ack : option Z) (net : Z * Z) (m : Entries PacketFeedback) : Z := total_of (entry_bytes last_ack net) m.

Definition entry_ok (e : Z * PacketFeedback) : Prop := 0 <= fst e /\ long_sequence_number (snd e) = fst e /\ is_u16 (payload_size (snd e)).

(** The counters hold what [m] has in flight. *)
Definition counts (h : SendTimeHistory) (m : Entries PacketFeedback) : Prop :=
  forall net, default 0 (in_flight_bytes_ h !! net) = flight (last_ack_seq_num_ h) net m.

(** At most [n] packets are in the history. *)
Record history_ok (n : Z) (h : SendTimeHistory) : Prop := {
  hk_sorted : sorted (history_ h) = true;
  hk_entries : Forall entry_ok (history_ h);
  hk_length : Z.of_nat (length (history_ h)) <= n;
  hk_unwrapper : forall l, seq_num_unwrapper_ h = Some l -> 0 <= l;
  hk_counts : counts h (history_ h);
}.

Definition max_packets : Z := 2 ^ 48 - 1.

(** ** Sums *)

Lemma entry_bytes_range last net e : entry_ok e -> 0 <= entry_bytes last net e <= 65535.
Proof. intros (_ & _ & Hp). unfold entry_bytes. destruct (not_counted _ _); [lia|]. destruct (decide _); clia. Qed.

Lemma flight_range last net m : Forall entry_ok m -> 0 <= flight last net m <= 65535 * Z.of_nat (length m).
Proof.
  unfold flight. induction 1 as [|e m He Hm IH]; cbn [total_of length]; [lia|]. pose proof (entry_bytes_range last net e He). lia.
Qed.

Lemma flight_below last net m : Forall entry_ok m -> Z.of_nat (length m) <= max_packets -> 0 <= flight last net m < 2 ^ 64.
Proof. intros Hm Hl. pose proof (flight_range last net m Hm). unfold max_packets in Hl. lia. Qed.

Lemma acked_zero last acked net e : entry_ok e -> last = Some acked -> fst e <= acked -> entry_bytes last net e = 0.
Proof. intros (_ & Hl & _) -> He. unfold entry_bytes, not_counted. rewrite Hl, (proj2 (Z.leb_le _ _)) by lia. by rewrite orb_true_r. Qed.

Lemma unacked_same last acked net e :
  entry_ok e -> acked < fst e -> match last with Some l => l < acked | None => True end -> entry_bytes (Some acked) net e = entry_bytes last net e.
Proof.
  intros (_ & Hl & _) He Hlast. unfold entry_bytes, not_counted. rewrite Hl, (proj2 (Z.leb_gt _ _)) by lia.
  destruct last; [by rewrite (proj2 (Z.leb_gt _ _)) by lia|done].
Qed.

Lemma flight_until last acked net m :
  sorted m = true -> Forall entry_ok m -> match last with Some l => l < acked | None => True end ->
  flight (Some acked) net m + flight last net (until_upper_bound acked m) = flight last net m.
Proof.
  intros Hs Hm Hlast. unfold flight. rewrite (total_split _ acked m Hs), (total_split (entry_bytes last net) acked m Hs).
  replace (total_of (entry_bytes (Some acked) net) (until_upper_bound acked m)) with 0.
  - replace (total_of (entry_bytes (Some acked) net) (lower_bound (acked + 1) m)) with (total_of (entry_bytes last net) (lower_bound (acked + 1) m)); [lia|].
    apply total_ext. assert (Ha : exists prev, ascending prev m = true).
    { destruct m as [|e m]; [by exists 0|]. exists (fst e - 1). cbn [sorted ascending] in *. by rewrite Hs, (proj2 (Z.ltb_lt _ _)) by lia. }
    destruct Ha as [prev Ha]. pose proof (ascending_keys _ _ (ascending_lower _ (acked + 1) _ Ha)) as Hk. pose proof (Forall_lower _ (acked + 1) _ Hm) as Hok.
    rewrite list.Forall_forall in Hk, Hok |- *. intros e He. symmetry. specialize (Hk e He). cbn in Hk. apply unacked_same; [by apply Hok|lia|done].
  - clear Hs. induction Hm as [|e m He Hm IH]; cbn [until_upper_bound]; [done|]. destruct (Z.leb_spec (fst e) acked); cbn [total_of]; [|done].
    rewrite <- IH, (acked_zero _ acked) by done. done.
Qed.

(** The entries between two acknowledged numbers carry the difference of the sums. *)
Lemma flight_acked last acked net m :
  sorted m = true -> Forall entry_ok m -> match last with Some l => l < acked | None => True end ->
  flight (Some acked) net m + flight last net (until_upper_bound acked (match last with Some l => lower_bound l m | None => m end)) = flight last net m.
Proof.
  intros Hs Hm Hlast. destruct last as [l|]; [|by apply flight_until].
  induction Hm as [|e m He Hm IH]; cbn [lower_bound]; [done|]. specialize (IH ltac:(by eapply sorted_ascending)).
  destruct (Z.ltb_spec (fst e) l); [|by apply flight_until; [|constructor|]].
  unfold flight in *. cbn [total_of]. rewrite !(acked_zero _ acked) by (done || lia). rewrite (acked_zero (Some l) l) by (done || lia). lia.
Qed.

(** ** The counters *)

(** The methods on the counters change nothing else. *)
Lemma remove_bytes_frame p h : exists f, RemovePacketBytes p h = h <| in_flight_bytes_ := f |>.
Proof.
  unfold RemovePacketBytes. destruct (not_counted _ p); [exists (in_flight_bytes_ h); by destruct h|].
  destruct (_ !! _); [destruct (_ =? 0)|exists (in_flight_bytes_ h); by destruct h]; by eexists.
Qed.

Lemma add_bytes_frame p h : exists f, AddPacketBytes p h = h <| in_flight_bytes_ := f |>.
Proof.
  unfold AddPacketBytes. destruct (not_counted _ p); [exists (in_flight_bytes_ h); by destruct h|]. destruct (_ !! _); by eexists.
Qed.

(** Taking a packet from the counters, when they hold it. *)
Lemma remove_bytes_counts k p h m :
  counts h ((k, p) :: m) -> entry_ok (k, p) -> Forall entry_ok m -> Z.of_nat (length m) < max_packets -> counts (RemovePacketBytes p h) m.
Proof.
  intros Hc Hp Hm Hlen net. specialize (Hc net). unfold flight in Hc. cbn [total_of] in Hc. fold (flight (last_ack_seq_num_ h) net m) in Hc.
  pose proof (flight_below (last_ack_seq_num_ h) net m Hm ltac:(lia)) as Hf. unfold RemovePacketBytes.
  unfold entry_bytes in Hc. cbn [snd] in Hc. destruct (not_counted (last_ack_seq_num_ h) p) eqn:En; [done|].
  assert (Hpos : 0 < payload_size p).
  { destruct Hp as (_ & _ & Hp). cbn [snd] in Hp. unfold not_counted in En. rewrite !orb_false_iff, Z.eqb_neq in En. clia. }
  destruct (decide (net_of p = net)) as [<-|Hne].
  - destruct (in_flight_bytes_ h !! net_of p) as [bytes|]; cbn [default from_option] in Hc; [|lia]. unfold id in Hc. subst bytes.
    replace (u64 (payload_size p + flight (last_ack_seq_num_ h) (net_of p) m - payload_size p)) with (flight (last_ack_seq_num_ h) (net_of p) m)
      by (unfold u64; rewrite Z.mod_small; lia).
    destruct (Z.eqb_spec (flight (last_ack_seq_num_ h) (net_of p) m) 0) as [E|_]; cbn [set in_flight_bytes_ last_ack_seq_num_].
    + by rewrite lookup_delete_eq, E.
    + by rewrite lookup_insert_eq.
  - destruct (in_flight_bytes_ h !! net_of p); [destruct (_ =? 0)|]; cbn [set in_flight_bytes_ last_ack_seq_num_]; rewrite ?lookup_delete_ne, ?lookup_insert_ne by done; lia.
Qed.

Lemma add_bytes_counts k p h m :
  counts h m -> entry_ok (k, p) -> Forall entry_ok m -> Z.of_nat (length m) < max_packets -> counts (AddPacketBytes p h) ((k, p) :: m).
Proof.
  intros Hc Hp Hm Hlen net. specialize (Hc net). unfold flight. cbn [total_of].
  pose proof (flight_below (last_ack_seq_num_ h) net ((k, p) :: m) ltac:(by constructor) ltac:(cbn [length]; lia)) as Hf.
  unfold flight in Hf. cbn [total_of] in Hf. unfold AddPacketBytes.
  destruct (not_counted (last_ack_seq_num_ h) p) eqn:En; [unfold entry_bytes at 1; cbn [snd]; by rewrite En|].
  assert (Eb : entry_bytes (last_ack_seq_num_ h) net (k, p) = if decide (net_of p = net) then payload_size p else 0)
    by (unfold entry_bytes; cbn [snd]; by rewrite En).
  destruct (decide (net_of p = net)) as [<-|Hne].
  - destruct (in_flight_bytes_ h !! net_of p) as [bytes|]; cbn [set in_flight_bytes_ last_ack_seq_num_ default from_option] in *; unfold id in Hc;
      rewrite lookup_insert_eq; cbn [default from_option]; unfold id; rewrite Eb in *; [|unfold flight in Hc; lia].
    subst bytes. unfold u64, flight in *. rewrite Z.mod_small; lia.
  - destruct (in_flight_bytes_ h !! net_of p); cbn [set in_flight_bytes_ last_ack_seq_num_]; rewrite Eb, lookup_insert_ne by done; done.
Qed.

(** A list of entries taken from the counters. *)
Lemma remove_each l h m :
  counts h (l ++ m) -> Forall entry_ok (l ++ m) -> Z.of_nat (length (l ++ m)) <= max_packets ->
  exists f, fold_left (fun h e => RemovePacketBytes (snd e) h) l h = h <| in_flight_bytes_ := f |> /\ counts (h <| in_flight_bytes_ := f |>) m.
Proof.
  revert h. induction l as [|[k p] l IH]; intros h Hc Hok Hlen; cbn [app fold_left snd length] in *; [exists (in_flight_bytes_ h); by destruct h|].
  apply list.Forall_cons in Hok as [Hp Hok]. pose proof (remove_bytes_counts k p h _ Hc Hp Hok ltac:(lia)) as Hc'.
  destruct (remove_bytes_frame p h) as [f Ef]. rewrite Ef in *. destruct (IH _ Hc' Hok ltac:(lia)) as (f' & Ef' & Hc''). exists f'. by rewrite Ef'.
Qed.

(** The entries of a part of the map first *)
Lemma flight_app last net l m : flight last net (l ++ m) = flight last net l + flight last net m.
Proof. unfold flight. induction l as [|e l IH]; cbn [app total_of]; lia. Qed.

Lemma until_split {V} k (m : Entries V) : exists rest, m = until_upper_bound k m ++ rest.
Proof.
  induction m as [|e m [rest IH]]; cbn [until_upper_bound]; [by exists []|]. destruct (_ <=? _); [|by exists (e :: m)]. exists rest. cbn [app]. by f_equal.
Qed.

Lemma lower_split {V} k (m : Entries V) : exists before, m = before ++ lower_bound k m.
Proof.
  induction m as [|e m [before IH]]; cbn [lower_bound]; [by exists []|]. destruct (_ <? _); [|by exists []]. exists (e :: before). cbn [app]. by f_equal.
Qed.

Lemma newly_acked_split h acked : exists before rest, history_ h = before ++ newly_acked h acked ++ rest.
Proof.
  unfold newly_acked. destruct (last_ack_seq_num_ h) as [l|].
  - destruct (lower_split l (history_ h)) as [before E], (until_split acked (lower_bound l (history_ h))) as [rest E']. exists before, rest. congruence.
  - destruct (until_split acked (history_ h)) as [rest E]. by exists [], rest.
Qed.

(** The number that is acknowledged moves forward, and the counters with it. *)
Definition acked_after (last_ack : option Z) (acked : Z) : Z := match last_ack with Some last => Z.max last acked | None => acked end.

Lemma UpdateAckedSeqNum_spec acked n h :
  history_ok n h -> n <= max_packets ->
  exists f, UpdateAckedSeqNum acked h = (h <| in_flight_bytes_ := f |> <| last_ack_seq_num_ := Some (acked_after (last_ack_seq_num_ h) acked) |>) /\
    counts (h <| in_flight_bytes_ := f |> <| last_ack_seq_num_ := Some (acked_after (last_ack_seq_num_ h) acked) |>) (history_ h).
Proof.
  intros [H1 H2 H3 H4 H5] Hn. unfold UpdateAckedSeqNum.
  destruct (match last_ack_seq_num_ h with Some last => acked <=? last | None => false end) eqn:E.
  - destruct (last_ack_seq_num_ h) as [l|] eqn:El; [|done]. apply Z.leb_le in E. exists (in_flight_bytes_ h). cbn [acked_after]. rewrite Z.max_l by done.
    replace (h <| in_flight_bytes_ := in_flight_bytes_ h |> <| last_ack_seq_num_ := Some l |>) with h by (destruct h; cbn in *; by subst).
    by split.
  - assert (Hlast : match last_ack_seq_num_ h with Some l => l < acked | None => True end) by (destruct (last_ack_seq_num_ h); [lia|done]).
    assert (Eacked : acked_after (last_ack_seq_num_ h) acked = acked) by (unfold acked_after; destruct (last_ack_seq_num_ h); lia). rewrite Eacked.
    destruct (newly_acked_split h acked) as (before & rest & Eh).
    assert (Hc : counts h (newly_acked h acked ++ before ++ rest)) by (intros net; rewrite H5, Eh, !flight_app; lia).
    assert (Hok : Forall entry_ok (newly_acked h acked ++ before ++ rest)).
    { rewrite Eh in H2. rewrite !list.Forall_app in H2 |- *. tauto. }
    destruct (remove_each _ h _ Hc Hok) as (f & Ef & Hf); [rewrite Eh in H3; rewrite !length_app in H3 |- *; lia|].
    exists f. rewrite Ef. split; [done|]. intros net. specialize (Hf net). cbn in Hf |- *. rewrite Hf.
    assert (Ha : flight (Some acked) net (history_ h) + flight (last_ack_seq_num_ h) net (newly_acked h acked) = flight (last_ack_seq_num_ h) net (history_ h))
      by exact (flight_acked _ acked net _ H1 H2 Hlast).
    assert (Hsplit : flight (last_ack_seq_num_ h) net (history_ h) = flight (last_ack_seq_num_ h) net (before ++ newly_acked h acked ++ rest)) by (by rewrite Eh at 1).
    rewrite !flight_app in Hsplit. rewrite !flight_app. lia.
Qed.

(** ** The methods *)

Definition is_number (o : option Z) : Prop := forall l, o = Some l -> 0 <= l.

Lemma GetFeedback_run pf remove n h found pf' h' :
  history_ok n h -> n <= max_packets -> GetFeedback pf remove h = (found, pf', h') -> is_u16 (pf_sequence_number pf) ->
  let k := UnwrapWithoutUpdate (seq_num_unwrapper_ h) (pf_sequence_number pf) in
  seq_num_unwrapper_ h' = Some k /\ last_ack_seq_num_ h' = Some (acked_after (last_ack_seq_num_ h) k) /\
  history_ h' = (if remove then map_erase k (history_ h) else history_ h) /\
  pf' = match map_get k (history_ h) with Some p => p <| arrival_time_ms := arrival_time_ms pf |> | None => pf end.
Proof.
  intros [H1 H2 H3 H4 H5] Hn E Hpf k. unfold GetFeedback in E. cbv zeta in E. fold k in E. assert (Hk : 0 <= k) by (by apply unwrap_spec).
  assert (Hok : history_ok n (h <| seq_num_unwrapper_ := Some k |>)) by (split; [done..| |done]; intros l [= <-]; done).
  destruct (UpdateAckedSeqNum_spec k n _ Hok Hn) as (f & Ef & _). rewrite Ef in E. cbn [set history_ last_ack_seq_num_] in E.
  destruct (map_get k (history_ h)) as [packet|] eqn:Eg; injection E as _ <- <-; [by destruct remove|].
  split_and!; try done. destruct remove; [|done]. cbn [set history_]. by rewrite erase_absent.
Qed.

Lemma GetFeedback_ok pf remove n h found pf' h' :
  history_ok n h -> n <= max_packets -> GetFeedback pf remove h = (found, pf', h') -> is_u16 (pf_sequence_number pf) -> history_ok n h'.
Proof.
  intros Hok Hn E Hpf. revert E. unfold GetFeedback. set (k := UnwrapWithoutUpdate (seq_num_unwrapper_ h) (pf_sequence_number pf)).
  destruct Hok as [H1 H2 H3 H4 H5]. assert (Hk : 0 <= k) by (by apply unwrap_spec).
  assert (Hok : history_ok n (h <| seq_num_unwrapper_ := Some k |>)) by (split; [done..| |done]; intros l [= <-]; done).
  destruct (UpdateAckedSeqNum_spec k n _ Hok Hn) as (f & -> & Hc). cbn [set history_ last_ack_seq_num_] in Hc |- *.
  set (last := acked_after (last_ack_seq_num_ h) k) in *. assert (Hlast : k <= last) by (unfold last, acked_after; destruct (last_ack_seq_num_ h); lia).
  destruct (map_get k (history_ h)) as [packet|] eqn:Eg; intros [= _ _ <-]; [destruct remove|].
  2, 3: split; [done..| |done]; intros l [= <-]; done.
  split; cbn [set history_ seq_num_unwrapper_].
  - by apply sorted_erase.
  - by apply Forall_erase.
  - pose proof (length_erase k (history_ h)). lia.
  - intros l [= <-]. done.
  - intros net. specialize (Hc net). cbn in Hc |- *. rewrite Hc. unfold flight. rewrite (total_erase _ _ _ _ Eg).
    apply get_elem in Eg. rewrite list.Forall_forall in H2. specialize (H2 _ Eg). rewrite (acked_zero (Some last) last); [lia|done|done|done].
Qed.

Definition aged (at_time limit : Z) (e : Z * PacketFeedback) : bool := limit <? at_time - creation_time_ms (snd e).

Lemma remove_aged_spec at_time m h :
  counts h m -> Forall entry_ok m -> Z.of_nat (length m) <= max_packets ->
  exists old m' f, remove_aged at_time m h = (h <| history_ := m' |> <| in_flight_bytes_ := f |>) /\ m = old ++ m' /\
    counts (h <| history_ := m' |> <| in_flight_bytes_ := f |>) m' /\ Forall (fun e => aged at_time (packet_age_limit_ms_ h) e = true) old /\
    match m' with e :: _ => aged at_time (packet_age_limit_ms_ h) e = false | [] => True end.
Proof.
  revert h. induction m as [|[k p] m IH]; intros h Hc Hok Hlen; cbn [remove_aged snd length] in *.
  - exists [], [], (in_flight_bytes_ h). split_and!; try done; by destruct h.
  - destruct (packet_age_limit_ms_ h <? at_time - creation_time_ms p) eqn:E.
    + apply list.Forall_cons in Hok as [Hp Hok]. pose proof (remove_bytes_counts k p h _ Hc Hp Hok ltac:(lia)) as Hc'.
      destruct (remove_bytes_frame p h) as [f Ef]. rewrite Ef in *. destruct (IH _ Hc' Hok ltac:(lia)) as (old & m' & f' & Ef' & -> & Hc'' & Hold & Hm').
      exists ((k, p) :: old), m', f'. rewrite Ef'. split_and!; try done. by constructor.
    + exists [], ((k, p) :: m), (in_flight_bytes_ h). split_and!; try done; by destruct h.
Qed.

Lemma history_ok_suffix n h old m f :
  history_ok n h -> history_ h = old ++ m -> counts (h <| history_ := m |> <| in_flight_bytes_ := f |>) m ->
  history_ok n (h <| history_ := m |> <| in_flight_bytes_ := f |>).
Proof.
  intros [H1 H2 H3 H4 H5] E Hc. rewrite E in *. split; cbn [set history_ seq_num_unwrapper_]; [| | |done|done].
  - clear -H1. induction old as [|e old IH]; [done|]. apply IH. exact (sorted_ascending _ _ H1).
  - apply list.Forall_app in H2. tauto.
  - rewrite length_app in H3. lia.
Qed.

(** A new packet, which was sent only if its number is new. *)
Lemma AddAndRemoveOld_ok packet at_time n h :
  history_ok n h -> n < max_packets -> is_u16 (pf_sequence_number packet) -> is_u16 (payload_size packet) ->
  send_time_ms packet < 0 \/ map_find (UnwrapWithoutUpdate (seq_num_unwrapper_ h) (pf_sequence_number packet)) (history_ h) = false ->
  history_ok (n + 1) (AddAndRemoveOld packet at_time h).
Proof.
  intros Hok Hn Hs Hp Hnew. pose proof Hok as [H1 H2 H3 H4 H5]. unfold AddAndRemoveOld. cbv zeta.
  destruct (remove_aged_spec at_time (history_ h) h H5 H2 ltac:(lia)) as (old & m & f & -> & Eh & Hc & _ & _).
  pose proof (history_ok_suffix n h old m f Hok Eh Hc) as [K1 K2 K3 K4 K5]. cbn [set history_ seq_num_unwrapper_] in *.
  set (k := UnwrapWithoutUpdate (seq_num_unwrapper_ h) (pf_sequence_number packet)) in *. assert (Hk : 0 <= k) by (by apply unwrap_spec).
  set (copy := packet <| long_sequence_number := k |>). assert (Hcopy : entry_ok (k, copy)) by done.
  set (h1 := h <| history_ := m |> <| in_flight_bytes_ := f |> <| seq_num_unwrapper_ := Some k |> <| history_ := insert_packet k copy m |>).
  unfold insert_packet in *. destruct (map_find k m) eqn:Em.
  - destruct Hnew as [Hnew|Hnew].
    + rewrite (proj2 (Z.leb_gt 0 (send_time_ms packet))) by lia. split; [done|done|cbn; lia| |done]. intros l [= <-]. done.
    + exfalso. unfold map_find in *. rewrite Eh, existsb_app, Em, orb_true_r in Hnew. done.
  - assert (Hins : history_ok (n + 1) (h1 <| in_flight_bytes_ := in_flight_bytes_ (AddPacketBytes copy h1) |>)).
    { assert (Hc1 : counts h1 m) by exact Hc. pose proof (add_bytes_counts k copy h1 m Hc1 Hcopy K2 ltac:(lia)) as Ha.
      destruct (add_bytes_frame copy h1) as [f' Ef]. rewrite Ef in Ha |- *. split; cbn [set history_ seq_num_unwrapper_ h1].
      - by apply sorted_insert.
      - by apply Forall_insert.
      - rewrite length_insert. lia.
      - intros l [= <-]. done.
      - intros net. specialize (Ha net). cbn in Ha |- *. rewrite Ha. unfold flight. by rewrite total_insert. }
    destruct (Z.leb_spec 0 (send_time_ms packet)).
    + destruct (add_bytes_frame copy h1) as [f' Ef]. rewrite Ef in Hins |- *. destruct Hins as [I1 I2 I3 I4 I5]. by split.
    + assert (En : AddPacketBytes copy h1 = h1) by (unfold AddPacketBytes, not_counted; cbn [set send_time_ms copy]; by rewrite (proj2 (Z.ltb_lt _ 0))).
      rewrite En in Hins. destruct Hins as [I1 I2 I3 I4 I5]. by split.
Qed.

Lemma total_kept {V} (f : Z * V -> Z) k g m : (forall v, f (k, g v) = f (k, v)) -> total_of f (map_update k g m) = total_of f m.
Proof.
  intros Hg. induction m as [|[k' v'] m IH]; [done|]. cbn [map_update fst snd]. destruct (Z.eqb_spec k' k) as [->|]; cbn [total_of]; rewrite ?Hg; lia.
Qed.

(** Changing a field that the counters do not read. *)
Lemma update_kept n h k g f :
  history_ok n h -> (forall p, not_counted (last_ack_seq_num_ h) (g p) = not_counted (last_ack_seq_num_ h) p /\ net_of (g p) = net_of p /\
     payload_size (g p) = payload_size p /\ long_sequence_number (g p) = long_sequence_number p) ->
  history_ok n (h <| history_ := map_update k g (history_ h) |> <| pending_untracked_size_ := f |>).
Proof.
  intros [H1 H2 H3 H4 H5] Hg. split; cbn [set history_ seq_num_unwrapper_]; [by rewrite sorted_update| |by rewrite length_update|done|].
  - apply Forall_update; [done|]. intros p. unfold entry_ok. cbn [fst snd]. destruct (Hg p) as (_ & _ & -> & ->). done.
  - intros net. specialize (H5 net). cbn in H5 |- *. rewrite H5. unfold flight. rewrite total_kept; [done|]. intros p. unfold entry_bytes. cbn [snd].
    destruct (Hg p) as (-> & -> & -> & _). done.
Qed.

(** A packet that is sent counts from then on. *)
Lemma sent_counts n h k p time :
  history_ok n h -> n < max_packets -> map_get k (history_ h) = Some p -> 0 <= time ->
  let h' := h <| history_ := map_update k (fun p => p <| send_time_ms := time |>) (history_ h) |>
              <| last_send_time_ms_ := Z.max (last_send_time_ms_ h) time |> in
  history_ok n (if 0 <=? send_time_ms p then h' else AddPacketBytes (p <| send_time_ms := time |>) h').
Proof.
  intros Hok Hn Eg Ht h'. pose proof Hok as [H1 H2 H3 H4 H5]. set (p' := p <| send_time_ms := time |>).
  pose proof (get_elem _ _ _ Eg) as Hin. rewrite list.Forall_forall in H2. pose proof (H2 _ Hin) as Hp. rewrite <- list.Forall_forall in H2.
  assert (Hp' : entry_ok (k, p')) by exact Hp.
  assert (Hframe : forall f, counts (h' <| in_flight_bytes_ := f |>) (history_ h') -> history_ok n (h' <| in_flight_bytes_ := f |>)).
  { intros f Hc. split; cbn [set h' history_ seq_num_unwrapper_]; [by rewrite sorted_update| |by rewrite length_update|done|exact Hc].
    apply Forall_update; [done|]. intros q Hq. exact Hq. }
  destruct (Z.leb_spec 0 (send_time_ms p)).
  - replace h' with (h' <| in_flight_bytes_ := in_flight_bytes_ h' |>) by done. apply Hframe. intros net. specialize (H5 net). cbn in H5 |- *.
    rewrite H5. unfold flight. rewrite (total_update _ _ _ _ _ Eg).
    assert (Ee : entry_bytes (last_ack_seq_num_ h) net (k, p') = entry_bytes (last_ack_seq_num_ h) net (k, p)).
    { unfold entry_bytes, not_counted. cbn [snd set send_time_ms payload_size long_sequence_number p']. by rewrite !(proj2 (Z.ltb_ge _ 0)) by lia. }
    rewrite <- Ee. fold p'. clear. lia.
  - assert (E0 : forall net, entry_bytes (last_ack_seq_num_ h) net (k, p) = 0).
    { intros net. unfold entry_bytes, not_counted. cbn [snd]. by rewrite (proj2 (Z.ltb_lt _ 0)). }
    assert (Hc : counts h' (history_ h)) by exact H5. pose proof (add_bytes_counts k p' h' _ Hc Hp' H2 ltac:(lia)) as Ha.
    destruct (add_bytes_frame p' h') as [f Ef]. rewrite Ef in Ha |- *. apply Hframe. intros net. specialize (Ha net). cbn in Ha |- *. rewrite Ha.
    unfold flight. cbn [total_of]. rewrite (total_update _ _ _ _ _ Eg), E0. fold p'. clear. lia.
Qed.

Lemma OnSentPacket_ok sequence_number time n h :
  history_ok n h -> n < max_packets -> is_u16 sequence_number -> 0 <= time -> history_ok n (snd (OnSentPacket sequence_number time h)).
Proof.
  intros Hok Hn Hs Ht. unfold OnSentPacket. cbv zeta. set (k := UnwrapWithoutUpdate (seq_num_unwrapper_ h) sequence_number).
  assert (Hk : history_ok n (h <| seq_num_unwrapper_ := Some k |>)).
  { destruct Hok as [H1 H2 H3 H4 H5]. split; [done..| |done]. intros l [= <-]. by apply unwrap_spec. }
  destruct (map_get k (history_ (h <| seq_num_unwrapper_ := Some k |>))) as [p|] eqn:Eg; [|done].
  pose proof (sent_counts n _ k p time Hk Hn Eg Ht) as Hsent. cbv zeta in Hsent. cbn [snd] in Hsent |- *.
  destruct (0 <? pending_untracked_size_ _); [|exact Hsent]. by apply update_kept.
Qed.
