(* ===== verification/SendRuns.v ===== *)
(** * Runs of the adapter

    What holds of [TransportFeedbackAdapter] after any sequence of calls: the bytes in
    flight are those of the packets in the history, a message of feedback is always
    processed to its end, and the time of the first unacknowledged packet is never
    reported. *)

From stdpp Require Import gmap.
From S2P Require Import Prelude OrderedMap RemoteProxy RemoteReach TransportFeedback SendHistory FeedbackAdapter SendFlight.

Open Scope Z_scope.
Open Scope c_scope.

(** The numbers of a message, which are 16 bits in the code. *)
Definition numbers_ok (t : TransportFeedback) : Prop := is_u16 (base_seq_no_ t) /\ Forall (fun p => is_u16 (sequence_number_ p)) (packets_ t).

(** ** The loops *)

Lemma look_up_frame garbage time seq remove local remote h :
  exists found pf h', GetFeedback (query_packet garbage time seq) remove h = (found, pf, h') /\
    look_up garbage time seq remove local remote h =
      (if (pf_local_net_id pf =? local) && (pf_remote_net_id pf =? remote) then [pf] else [], h').
Proof. unfold look_up. destruct (GetFeedback _ _ _) as [[found pf] h']. by exists found, pf, h'. Qed.

(** One round fewer is left when the number moves on. *)
Lemma rounds_left seq last : is_u16 seq -> is_u16 last -> seq <> last -> u16 (last - u16 (seq + 1)) = u16 (last - seq) - 1 /\ 0 < u16 (last - seq).
Proof. intros Hs Hl Hne. unfold u16, is_u16 in *. Z.div_mod_to_equations. lia. Qed.

Lemma rounds_zero seq : u16 (seq - seq) = 0.
Proof. by rewrite Z.sub_diag. Qed.

Section Loops.
Context (garbage local remote : Z) (P : Z -> SendTimeHistory -> Prop) (Q : SendTimeHistory -> Prop).

(** [P seq h]: the next number to look up in [h] is [seq]; [Q h]: the last one was
    received. *)
Hypothesis P_missing : forall seq h found pf h',
  is_u16 seq -> P seq h -> GetFeedback (query_packet garbage kNotReceived seq) false h = (found, pf, h') -> P (u16 (seq + 1)) h'.
Hypothesis P_received : forall seq time h found pf h',
  is_u16 seq -> P seq h -> GetFeedback (query_packet garbage time seq) true h = (found, pf, h') -> Q h'.
Hypothesis Q_next : forall seq h, Q h -> P seq h.

Lemma unreceived_ends fuel seq last v h :
  is_u16 seq -> is_u16 last -> fuel = unreceived_fuel seq last -> P seq h ->
  exists v' h', unreceived garbage fuel seq last local remote v h = Some (last, v', h') /\ P last h'.
Proof.
  revert seq v h. induction fuel as [|fuel IH]; intros seq v h Hs Hl Hf HP; cbn [unreceived]; destruct (Z.eqb_spec seq last) as [->|Hne].
  1, 3: by exists v, h.
  - unfold unreceived_fuel in Hf. destruct (rounds_left seq last Hs Hl Hne) as [_ Hpos]. lia.
  - destruct (look_up_frame garbage kNotReceived seq false local remote h) as (found & pf & h' & Eg & ->).
    apply IH; [apply u16_range|done| |by eapply P_missing]. unfold unreceived_fuel in *. destruct (rounds_left seq last Hs Hl Hne) as [-> Hpos]. lia.
Qed.

Lemma received_ends packets offset seq offset_us v h :
  is_u16 seq -> Forall (fun p => is_u16 (sequence_number_ p)) packets -> Q h ->
  exists v' h', received garbage packets offset seq offset_us local remote v h = Some (v', h') /\ Q h'.
Proof.
  revert seq offset_us v h. induction packets as [|p packets IH]; intros seq offset_us v h Hs Hp HQ; cbn [received]; [by exists v, h|].
  apply list.Forall_cons in Hp as [Hp Hps].
  destruct (unreceived_ends _ seq (sequence_number_ p) v h Hs Hp eq_refl (Q_next seq h HQ)) as (v1 & h1 & -> & HP1).
  cbv zeta. destruct (look_up_frame garbage (offset + Z.quot (offset_us + delta_us p) 1000) (sequence_number_ p) true local remote h1) as (found & pf & h2 & Eg & ->).
  apply IH; [apply u16_range|done|by eapply P_received].
Qed.
End Loops.

(** ** The acknowledged number *)

(** The packet of the last acknowledged number is not in the history. *)
Definition acked_gone (h : SendTimeHistory) : Prop := forall l, last_ack_seq_num_ h = Some l -> map_find l (history_ h) = false.

(** While a message is processed, it can be the last number that was looked up. *)
Definition acked_next (seq : Z) (h : SendTimeHistory) : Prop :=
  forall l, last_ack_seq_num_ h = Some l -> map_find l (history_ h) = false \/ (seq_num_unwrapper_ h = Some l /\ seq = u16 (l + 1) /\ 0 <= l).

Lemma unwrap_next l : 0 <= l -> UnwrapWithoutUpdate (Some l) (u16 (l + 1)) = l + 1.
Proof.
  intros Hl. unfold UnwrapWithoutUpdate. pose proof (TransportSend.next_is_newer (l + 1)) as Hn. replace (l + 1 - 1) with l in Hn by lia. rewrite Hn.
  destruct (Z.ltb_spec (u16 (l + 1) - u16 l) 0) as [H|H]; revert H; unfold u16; Z.div_mod_to_equations; lia.
Qed.

Section Feedback.
Context (garbage n : Z) (Hn : n <= max_packets).

Lemma acked_missing seq h found pf h' :
  is_u16 seq -> history_ok n h /\ acked_next seq h -> GetFeedback (query_packet garbage kNotReceived seq) false h = (found, pf, h') ->
  history_ok n h' /\ acked_next (u16 (seq + 1)) h'.
Proof.
  intros Hs [Hok Hnext] E. split; [exact (GetFeedback_ok _ _ _ _ _ _ _ Hok Hn E Hs)|]. destruct (GetFeedback_run _ _ _ _ _ _ _ Hok Hn E Hs) as (Eu & Ea & Eh & _).
  cbn [query_packet pf_sequence_number] in *. pose proof (unwrap_spec (seq_num_unwrapper_ h) seq Hs (hk_unwrapper _ _ Hok)) as [Hk Hmod].
  set (k := UnwrapWithoutUpdate _ _) in *. intros l El. rewrite Ea in El. injection El as <-. rewrite Eh, Eu. unfold acked_after.
  destruct (last_ack_seq_num_ h) as [l|] eqn:El; [|right; split_and!; [done| |done]; by rewrite <- Hmod, TransportSend.u16_add_l].
  destruct (Z.leb_spec k l).
  - rewrite Z.max_l by done. destruct (Hnext l El) as [Hf|(Hu & Hseq & Hl)]; [by left|]. exfalso. subst k. rewrite Hu, Hseq, unwrap_next in * by done. lia.
  - rewrite Z.max_r by lia. right. split_and!; [done| |done]. by rewrite <- Hmod, TransportSend.u16_add_l.
Qed.

Lemma acked_received seq time h found pf h' :
  is_u16 seq -> history_ok n h /\ acked_next seq h -> GetFeedback (query_packet garbage time seq) true h = (found, pf, h') ->
  history_ok n h' /\ acked_gone h'.
Proof.
  intros Hs [Hok Hnext] E. split; [exact (GetFeedback_ok _ _ _ _ _ _ _ Hok Hn E Hs)|]. destruct (GetFeedback_run _ _ _ _ _ _ _ Hok Hn E Hs) as (Eu & Ea & Eh & _).
  cbn [query_packet pf_sequence_number] in *. set (k := UnwrapWithoutUpdate _ _) in *.
  intros l El. rewrite Ea in El. injection El as <-. rewrite Eh. unfold acked_after.
  destruct (last_ack_seq_num_ h) as [l|] eqn:El; [|apply find_erase, (hk_sorted _ _ Hok)].
  destruct (Z.leb_spec k l).
  - rewrite Z.max_l by done. destruct (Hnext l El) as [Hf|(Hu & Hseq & Hl)]; [by apply find_erase_other|].
    exfalso. subst k. rewrite Hu, Hseq, unwrap_next in * by done. lia.
  - rewrite Z.max_r by lia. apply find_erase, (hk_sorted _ _ Hok).
Qed.
End Feedback.

(** ** Runs *)

(** What holds of the history after [n] packets, and, where each new packet has another
    number than the last acknowledged one, of that number. *)
Definition after (n : Z) (strict : bool) (h : SendTimeHistory) : Prop := history_ok n h /\ (strict = true -> acked_gone h).

Definition new_number (sequence_number : Z) (h : SendTimeHistory) : Prop :=
  last_ack_seq_num_ h <> Some (UnwrapWithoutUpdate (seq_num_unwrapper_ h) sequence_number).

Lemma after_add packet at_time n strict h :
  after n strict h -> n < max_packets -> is_u16 (pf_sequence_number packet) -> is_u16 (payload_size packet) -> send_time_ms packet < 0 ->
  (strict = true -> new_number (pf_sequence_number packet) h) -> after (n + 1) strict (AddAndRemoveOld packet at_time h).
Proof.
  intros [Hok Hgone] Hn Hs Hp Ht Hnew. split; [apply AddAndRemoveOld_ok; auto|]. intros E l. specialize (Hgone E). specialize (Hnew E).
  unfold AddAndRemoveOld. cbv zeta.
  destruct (remove_aged_spec at_time (history_ h) h (hk_counts _ _ Hok) (hk_entries _ _ Hok)) as (old & m & f & -> & Eh & _);
    [pose proof (hk_length _ _ Hok); lia|].
  rewrite (proj2 (Z.leb_gt 0 _)) by lia. cbn [set last_ack_seq_num_ history_ seq_num_unwrapper_]. intros El. specialize (Hgone l El).
  assert (Hm : map_find l m = false). { rewrite find_none, Eh, list.Forall_app in Hgone. rewrite find_none. tauto. }
  unfold insert_packet. destruct (map_find (UnwrapWithoutUpdate _ _) m); [done|]. rewrite find_insert_other; [done|]. intros ->. by apply Hnew.
Qed.

Lemma after_sent sequence_number time n strict h :
  after n strict h -> n < max_packets -> is_u16 sequence_number -> 0 <= time -> after n strict (snd (OnSentPacket sequence_number time h)).
Proof.
  intros [Hok Hgone] Hn Hs Ht. split; [by apply OnSentPacket_ok|]. intros E l. specialize (Hgone E l). unfold OnSentPacket. cbv zeta.
  set (k := UnwrapWithoutUpdate _ _). cbn [set history_]. destruct (map_get k (history_ h)) as [p|]; [|exact Hgone].
  set (h1 := if 0 <=? send_time_ms p then _ else _).
  assert (F : last_ack_seq_num_ h1 = last_ack_seq_num_ h /\ forall j, map_find j (history_ h1) = map_find j (history_ h)).
  { subst h1. destruct (0 <=? send_time_ms p); [|match goal with |- context [AddPacketBytes ?p ?h] => destruct (add_bytes_frame p h) as [f ->] end];
      cbn [set last_ack_seq_num_ history_]; by split; [|intros j; apply find_update]. }
  destruct F as [F1 F2]. clearbody h1. cbn [snd]. destruct (0 <? _); cbn [set last_ack_seq_num_ history_]; rewrite F1, ?find_update, F2; exact Hgone.
Qed.

Lemma after_feedback garbage t time n strict a :
  after n strict (send_time_history_ a) -> n < max_packets -> numbers_ok t ->
  exists v a', GetPacketFeedbackVector garbage t time a = Some (v, a') /\ after n strict (send_time_history_ a') /\
    local_net_id_ a' = local_net_id_ a /\ remote_net_id_ a' = remote_net_id_ a.
Proof.
  intros [Hok Hgone] Hn [Hbase Hnum]. unfold GetPacketFeedbackVector. cbv zeta.
  set (a1 := if ad_last_timestamp_us_ a =? kNoTimestamp then _ else _).
  assert (F : send_time_history_ a1 = send_time_history_ a /\ local_net_id_ a1 = local_net_id_ a /\ remote_net_id_ a1 = remote_net_id_ a)
    by (subst a1; by destruct (_ =? _)).
  destruct F as (F1 & F2 & F3). clearbody a1. cbn [set send_time_history_ local_net_id_ remote_net_id_ current_offset_ms_].
  destruct (num_seq_no_ t =? 0); [eexists [], _; split_and!; [reflexivity|cbn [set send_time_history_]; by rewrite F1|done|done]|]. rewrite F1, F2, F3.
  destruct (received_ends garbage (local_net_id_ a) (remote_net_id_ a) (fun seq h => history_ok n h /\ (strict = true -> acked_next seq h)) (after n strict))
    with (packets := packets_ t) (offset := current_offset_ms_ a1) (seq := base_seq_no_ t) (offset_us := 0) (v := @nil PacketFeedback) (h := send_time_history_ a)
    as (v & h' & -> & Hafter); try done.
  - intros seq h found pf h' Hs [Hh Hx] E. destruct strict.
    + destruct (acked_missing garbage n ltac:(lia) seq h found pf h' Hs (conj Hh (Hx eq_refl)) E). by split.
    + split; [|done]. by eapply GetFeedback_ok; [exact Hh|lia|exact E|].
  - intros seq tm h found pf h' Hs [Hh Hx] E. destruct strict.
    + destruct (acked_received garbage n ltac:(lia) seq tm h found pf h' Hs (conj Hh (Hx eq_refl)) E). by split.
    + split; [|done]. by eapply GetFeedback_ok; [exact Hh|lia|exact E|].
  - intros seq h [Hh Hx]. split; [done|]. intros E l El. left. by apply Hx.
  - eexists v, _. split_and!; [reflexivity|exact Hafter|done|done].
Qed.

(** Runs of calls; in a [strict] one each new packet has another number than the last
    acknowledged packet. Every order of calls is one. *)
Inductive run (garbage : Z) (strict : bool) : Z -> TransportFeedbackAdapter -> Prop :=
| run_new : run garbage strict 0 new_TransportFeedbackAdapter
| run_networks n a local remote : run garbage strict n a -> run garbage strict n (SetNetworkIds local remote a)
| run_observer n a observer : run garbage strict n a -> run garbage strict n (RegisterPacketFeedbackObserver observer a)
| run_add n a ssrc sequence_number length pacing time :
    run garbage strict n a -> is_u16 sequence_number -> is_u16 length -> (strict = true -> new_number sequence_number (send_time_history_ a)) ->
    run garbage strict (n + 1) (AddPacket garbage ssrc sequence_number length pacing time a)
| run_sent n a sent : run garbage strict n a -> 0 <= ns_send_time_ms sent -> run garbage strict n (snd (ProcessSentPacket sent a))
| run_feedback n a t time r a' :
    run garbage strict n a -> numbers_ok t -> ProcessTransportFeedback garbage t time a = Some (r, a') -> run garbage strict n a'.

Lemma untracked_after n strict size time h : after n strict h -> after n strict (AddUntracked size time h).
Proof. intros [[H1 H2 H3 H4 H5] H]. split; [by split|exact H]. Qed.

Lemma run_nonneg garbage strict n a : run garbage strict n a -> 0 <= n.
Proof. induction 1; lia. Qed.

Lemma feedback_history garbage t time a v a1 r a2 :
  GetPacketFeedbackVector garbage t time a = Some (v, a1) -> ProcessTransportFeedback garbage t time a = Some (r, a2) ->
  send_time_history_ a2 = send_time_history_ a1 /\ local_net_id_ a2 = local_net_id_ a1 /\ remote_net_id_ a2 = remote_net_id_ a1.
Proof.
  intros E. unfold ProcessTransportFeedback. rewrite E. cbv zeta. destruct v; intros [= _ <-]; done.
Qed.

Lemma run_after garbage strict n a : run garbage strict n a -> n < max_packets -> after n strict (send_time_history_ a).
Proof.
  induction 1 as [|n a l r Hr IH|n a o Hr IH|n a ssrc s len pacing time Hr IH Hs Hl Hnew|n a sent Hr IH Ht|n a t time r a' Hr IH Hnum E]; intros Hn.
  - split; [split|]; try done. 
  - by apply IH.
  - by apply IH.
  - apply after_add; try done; [apply IH|]; lia.
  - specialize (IH Hn). unfold ProcessSentPacket. destruct (_ || _).
    + pose proof (after_sent (u16 (packet_id sent)) (ns_send_time_ms sent) n strict _ IH Hn (u16_range _) Ht) as Ha. cbv zeta.
      by destruct (GetPacket _ _).
    + destruct (included_in_allocation sent); [by apply untracked_after|done].
  - specialize (IH Hn). destruct (after_feedback garbage t time n strict a IH Hn Hnum) as (v & a1 & Ev & Ha & _).
    destruct (feedback_history _ _ _ _ _ _ _ _ Ev E) as (-> & _). done.
Qed.

(** ** Theorems *)

Lemma outstanding_flight n h local remote : history_ok n h -> GetOutstandingData local remote h = flight (last_ack_seq_num_ h) (local, remote) (history_ h).
Proof. intros Hok. exact (hk_counts _ _ Hok (local, remote)). Qed.

(** The bytes in flight on the route of the adapter *)
Definition own_flight (a : TransportFeedbackAdapter) : Z :=
  flight (last_ack_seq_num_ (send_time_history_ a)) (local_net_id_ a, remote_net_id_ a) (history_ (send_time_history_ a)).

Lemma sort_feedback_keeps v msg :
  first_unacked_send_time (sort_feedback v msg) = first_unacked_send_time msg.
Proof. revert msg. induction v as [|p v IH]; intros msg; [done|]. cbn [sort_feedback]. rewrite IH. by destruct (negb _); [|destruct (arrival_time_ms p =? kNotReceived)]. Qed.

(** A message of feedback, from the vector on. *)
Lemma process_run garbage n strict a t time :
  after n strict (send_time_history_ a) -> n < max_packets -> numbers_ok t ->
  exists r a', ProcessTransportFeedback garbage t time a = Some (r, a') /\ after n strict (send_time_history_ a') /\
    forall msg, r = Some msg -> prior_in_flight msg = own_flight a /\ data_in_flight msg = own_flight a' /\ feedback_time msg = time /\
      first_unacked_send_time msg = match GetFirstUnackedSendTime (send_time_history_ a') with Some ms => Timestamp_ms ms | None => PlusInfinity end.
Proof.
  intros Ha Hn Hnum. destruct (after_feedback garbage t time n strict a Ha Hn Hnum) as (v & a1 & Ev & Ha1 & F1 & F2).
  unfold ProcessTransportFeedback. rewrite Ev. cbv zeta.
  assert (Hprior : adapter_GetOutstandingData a = own_flight a) by (exact (outstanding_flight n _ _ _ (proj1 Ha))).
  assert (Hdata : adapter_GetOutstandingData a1 = own_flight a1) by (exact (outstanding_flight n _ _ _ (proj1 Ha1))).
  rewrite Hprior. destruct v as [|p v]; (eexists _, _; split; [reflexivity|]; split; [exact Ha1|]); [done|]. intros msg [= <-].
  cbn [set prior_in_flight data_in_flight feedback_time first_unacked_send_time]. split_and!; [done|exact Hdata|done|].
  cbn [set tell send_time_history_]. destruct (GetFirstUnackedSendTime (send_time_history_ a1)); [done|]. exact (sort_feedback_keeps (p :: v) new_TransportPacketsFeedback).
Qed.

(** C18. The bytes in flight are exact: after any sequence of calls with fewer than 2^48 packets,
    on whatever routes, with numbers that wrap, are sent again, acknowledged twice or
    never sent, what [GetOutstandingData] returns for a route is the sum of the sizes of the packets in the
    history that were sent on it and whose number is above the last acknowledged one; no
    counter passes 2^64 or goes below 0. Every message of feedback is processed to its
    end, and reports this sum before and after it for the route of the adapter. *)
Theorem bytes_in_flight garbage n a :
  run garbage false n a -> n < max_packets ->
  (forall local remote, GetOutstandingData local remote (send_time_history_ a) =
     flight (last_ack_seq_num_ (send_time_history_ a)) (local, remote) (history_ (send_time_history_ a))) /\
  forall t time, numbers_ok t -> exists r a', ProcessTransportFeedback garbage t time a = Some (r, a') /\
    forall msg, r = Some msg -> prior_in_flight msg = own_flight a /\ data_in_flight msg = own_flight a'.
Proof.
  intros Hr Hn. pose proof (run_after _ _ _ _ Hr Hn) as Ha. split; [intros; exact (outstanding_flight n _ _ _ (proj1 Ha))|].
  intros t time Hnum. destruct (process_run garbage n false a t time Ha Hn Hnum) as (r & a' & E & _ & Hmsg). exists r, a'. split; [done|].
  intros msg Em. by destruct (Hmsg msg Em) as (H1 & H2 & _).
Qed.

(** C32. The first unacknowledged packet is never reported: where each new packet has another
    number than the last acknowledged one, the field for the time at which it was sent
    is infinity in every message to the congestion controller. It is that of
    the last acknowledged packet that [GetFirstUnackedSendTime] looks up, which the feedback has
    removed from the history. *)
Theorem first_unacked_never garbage n a t time msg a' :
  run garbage true n a -> n < max_packets -> numbers_ok t -> ProcessTransportFeedback garbage t time a = Some (Some msg, a') ->
  first_unacked_send_time msg = PlusInfinity.
Proof.
  intros Hr Hn Hnum E. pose proof (run_after _ _ _ _ Hr Hn) as Ha.
  destruct (process_run garbage n true a t time Ha Hn Hnum) as (r & a1 & E1 & [_ Hgone] & Hmsg). rewrite E1 in E. injection E as -> <-.
  destruct (Hmsg msg eq_refl) as (_ & _ & _ & ->). unfold GetFirstUnackedSendTime. destruct (last_ack_seq_num_ _) as [l|] eqn:El; [|done].
  by rewrite (proj2 (get_find _ _) (Hgone eq_refl l El)).
Qed.

(** Two packets are sent, the second on another route. *)
Definition two_packets : TransportFeedbackAdapter :=
  let a := AddPacket 7 1 65535 100 new_PacedPacketInfo 1000 new_TransportFeedbackAdapter in
  let a := SetNetworkIds 0 1 (snd (ProcessSentPacket (mkNetworkSent 65535 3 true false 0) a)) in
  let a := AddPacket 7 1 0 200 new_PacedPacketInfo 2000 a in
  SetNetworkIds 0 0 (snd (ProcessSentPacket (mkNetworkSent 0 4 true false 0) a)).

(** Feedback on packet 65534, which is lost, and 65535. *)
Definition second_received : TransportFeedback :=
  (new_TransportFeedback (RtcpFeedback.mkFeedback 0 0) [] true) <| base_seq_no_ := 65534 |> <| num_seq_no_ := 2 |> <| packets_ := [mkReceived 65535 40] |>.

Lemma two_packets_run strict : run 7 strict 2 two_packets.
Proof.
  unfold two_packets. cbv zeta. apply run_networks, run_sent; [|cbn; lia]. apply (run_add 7 strict 1); [|clia|clia|intros _; vm_compute; congruence].
  apply run_networks, run_sent; [|cbn; lia]. apply (run_add 7 strict 0); [|clia|clia|intros _; vm_compute; congruence]. apply run_new.
Qed.

Lemma second_received_ok : numbers_ok second_received.
Proof. split; [cbn; clia|]. repeat constructor; cbn; clia. Qed.

Lemma bytes_in_flight_witness :
  GetOutstandingData 0 1 (send_time_history_ two_packets) = 200 /\
  exists r a', ProcessTransportFeedback 7 second_received 9000 two_packets = Some (r, a') /\
    forall msg, r = Some msg -> prior_in_flight msg = 100 /\ data_in_flight msg = own_flight a'.
Proof.
  destruct (bytes_in_flight 7 2 two_packets (two_packets_run false) ltac:(unfold max_packets; lia)) as [H1 H2]. split.
  - rewrite (H1 0 1). reflexivity.
  - destruct (H2 second_received 9000 second_received_ok) as (r & a' & E & Hm). exists r, a'. split; [exact E|]. intros msg Em.
    destruct (Hm msg Em) as [Hp Hd]. split; [rewrite Hp; reflexivity|exact Hd].
Defined.

Lemma first_unacked_never_witness :
  exists msg a', ProcessTransportFeedback 7 second_received 9000 two_packets = Some (Some msg, a') /\ first_unacked_send_time msg = PlusInfinity.
Proof.
  destruct (ProcessTransportFeedback 7 second_received 9000 two_packets) as [[[msg|] a']|] eqn:E; [|vm_compute in E; discriminate E..].
  exists msg, a'. split; [reflexivity|]. refine (first_unacked_never 7 2 two_packets second_received 9000 msg a' (two_packets_run true) _ second_received_ok E).
  unfold max_packets. lia.
Defined.
