(* ===== verification/SendTimes.v ===== *)
(** * The arrival times that the sender sees

    The times at which packets arrived, from the proxy of the receiver over the wire to the
    adapter of the sender: they are those of the receiver, exactly, up to one
    constant for all messages. *)

From stdpp Require Import gmap.
From S2P Require Import Prelude OrderedMap ByteIo Rtcp RtcpFeedback TransportFeedback TransportSend TransportWire RemoteProxy RemoteReports RemoteReach SendHistory FeedbackAdapter SendFlight SendRuns.

Open Scope Z_scope.
Open Scope c_scope.

(** ** The specification of the loops *)

(** The [count] numbers from [n] on, each looked up in the history: as received at its
    time, [offset] added, when it is one of the entries, and else as missing. *)
Fixpoint reported (garbage local remote offset : Z) (entries : Arrivals) (count : nat) (n : Z) (v : list PacketFeedback) (h : SendTimeHistory)
  : list PacketFeedback * SendTimeHistory :=
  match count with
  | O => (v, h)
  | S count =>
      let '(found, h) :=
        match map_get n entries with
        | Some time => look_up garbage (offset + time) (u16 n) true local remote h
        | None => look_up garbage kNotReceived (u16 n) false local remote h
        end in
      reported garbage local remote offset entries count (n + 1) (v ++ found) h
  end.

Section Loop.
Context (garbage local remote offset : Z).

Lemma reported_add es c1 c2 n v h :
  let r := reported garbage local remote offset es c1 n v h in
  reported garbage local remote offset es (c1 + c2) n v h = reported garbage local remote offset es c2 (n + Z.of_nat c1) r.1 r.2.
Proof.
  cbv zeta. revert n v h. induction c1 as [|c1 IH]; intros n v h; cbn [Nat.add reported fst snd]; [by rewrite Z.add_0_r|].
  destruct (match map_get n es with Some _ => _ | None => _ end) as [found h']. rewrite IH. f_equal. lia.
Qed.

Lemma reported_ext es es' count n v h :
  (forall k, n <= k < n + Z.of_nat count -> map_get k es = map_get k es') ->
  reported garbage local remote offset es count n v h = reported garbage local remote offset es' count n v h.
Proof.
  revert n v h. induction count as [|count IH]; intros n v h Hk; cbn [reported]; [done|]. rewrite Hk by lia.
  destruct (match map_get n es' with Some _ => _ | None => _ end) as [found h']. apply IH. intros k Hr. apply Hk. lia.
Qed.

(** The loop over the missing packets before number [k]. *)
Lemma unreceived_reported es count n k v h :
  k = n + Z.of_nat count -> Z.of_nat count < 2 ^ 16 -> (forall j, n <= j < k -> map_get j es = None) ->
  let r := reported garbage local remote offset es count n v h in
  unreceived garbage (unreceived_fuel (u16 n) (u16 k)) (u16 n) (u16 k) local remote v h = Some (u16 k, r.1, r.2).
Proof.
  intros -> Hc Hnone. cbv zeta. revert Hnone. unfold unreceived_fuel. rewrite u16_sub_l, u16_sub_r. replace (n + Z.of_nat count - n) with (Z.of_nat count) by lia.
  rewrite (u16_id (Z.of_nat count)) by (unfold is_u16; lia). rewrite Nat2Z.id. revert n v h. induction count as [|count IH]; intros n v h Hnone.
  - rewrite Z.add_0_r. cbn [unreceived reported fst snd]. by rewrite Z.eqb_refl.
  - cbn [unreceived reported]. rewrite (proj2 (Z.eqb_neq _ _)) by (unfold u16; Z.div_mod_to_equations; lia). rewrite Hnone by lia.
    destruct (look_up garbage kNotReceived (u16 n) false local remote h) as [found h'].
    rewrite u16_add_l. replace (n + Z.of_nat (S count)) with (n + 1 + Z.of_nat count) by lia. apply IH; [lia|]. intros j Hj. apply Hnone. lia.
Qed.

Lemma get_below prev (es : Arrivals) k : gaps prev es = true -> k <= prev -> map_get k es = None.
Proof.
  revert prev. induction es as [|e es IH]; intros prev Hg Hk; [done|]. apply gaps_cons in Hg as [He Hg]. cbn [map_get].
  rewrite (proj2 (Z.eqb_neq _ _)) by lia. apply (IH (fst e)); [done|lia].
Qed.

(** The loop over the received packets. *)
Lemma received_reported es packets base next offset_us v h :
  gaps (next - 1) es = true -> map sequence_number_ packets = map (fun e => u16 (fst e)) es ->
  Forall2 (fun e us => base + Z.quot us 1000 = offset + snd e) es (arrival_times offset_us packets) ->
  received garbage packets base (u16 next) offset_us local remote v h =
    Some (reported garbage local remote offset es (Z.to_nat (next_after next es - next)) next v h).
Proof.
  revert packets next offset_us v h. induction es as [|[k time] es IH]; intros packets next offset_us v h Hg Hnum Htimes; (destruct packets as [|p packets]; [try discriminate Hnum|try discriminate Hnum]).
  - cbn. by rewrite Z.sub_diag.
  - cbn [map fst] in Hnum. injection Hnum as Hp Hnum. cbn [arrival_times] in Htimes. inversion Htimes as [|? ? ? ? Ht Htimes']; subst. cbn [snd] in Ht.
    apply gaps_cons in Hg as [Hk Hg]. cbn [fst] in Hk, Hg. cbn [received]. cbv zeta. rewrite Hp.
    assert (Hnone : forall j, next <= j < k -> map_get j ((k, time) :: es) = None).
    { intros j Hj. apply (get_below (k - 1)); [|lia]. cbn [gaps fst]. by rewrite (proj2 (Z.ltb_lt (k - 1) k)), (proj2 (Z.leb_le k _)) by lia. }
    rewrite (unreceived_reported ((k, time) :: es) (Z.to_nat (k - next)) next k v h ltac:(lia) ltac:(lia) Hnone).
    cbn [next_after fold_left fst]. fold (next_after (k + 1) es). pose proof (next_after_ge k es Hg) as Hge.
    replace (Z.to_nat (next_after (k + 1) es - next)) with (Z.to_nat (k - next) + S (Z.to_nat (next_after (k + 1) es - (k + 1))))%nat by lia.
    rewrite reported_add. replace (next + Z.of_nat (Z.to_nat (k - next))) with k by lia. cbv zeta. set (r := reported _ _ _ _ _ _ next v h). cbn [reported map_get fst snd].
    rewrite Z.eqb_refl, Ht. destruct (look_up garbage (offset + time) (u16 k) true local remote r.2) as [found h'].
    rewrite u16_add_l, IH; [|by replace (k + 1 - 1) with k by lia|done|done]. f_equal. apply reported_ext. intros j Hj. cbn [map_get fst].
    by rewrite (proj2 (Z.eqb_neq _ _)) by lia.
Qed.
End Loop.

(** ** The clock *)

(** Times within 37 hours *)
Definition near (time : Z) (entries : Arrivals) : Prop := Forall (fun e => Z.abs (snd e - time) <= 2 ^ 27) entries.

(** The last message had its first packet at [time] of the receiver's clock, and [offset]
    takes that clock to the arrival times of the adapter. *)
Definition clock (offset time : Z) (a : TransportFeedbackAdapter) : Prop :=
  exists base m, Z.abs (time - base) <= 2 ^ 13 /\ ad_last_timestamp_us_ a = 1000 * base + m * kTimeWrapPeriodUs /\
    - 2 ^ 23 * 64000 <= ad_last_timestamp_us_ a < 2 ^ 24 * 64000 /\ current_offset_ms_ a = offset + base.

(** The differences of messages, without the effect of the wrap-around. *)
Lemma base_delta_exact last x m :
  - 2 ^ 23 * 64000 <= last < 2 ^ 24 * 64000 -> - 2 ^ 23 * 64000 <= last + x + m * kTimeWrapPeriodUs < 2 ^ 24 * 64000 ->
  Z.abs x < 2 ^ 22 * 64000 -> base_delta (last + x + m * kTimeWrapPeriodUs) last = x.
Proof.
  intros Hl Hn Hx. change kTimeWrapPeriodUs with (2 ^ 24 * 64000) in *. unfold base_delta. change kBaseTimestampRangeSizeUs with (2 ^ 24 * 64000).
  assert (Hm : m = -1 \/ m = 0 \/ m = 1) by lia. cbv zeta.
  destruct Hm as [-> | [-> | ->]]; repeat bcase; lia.
Qed.

Lemma arrival_times_add b us ps : arrival_times (b + us) ps = map (Z.add b) (arrival_times us ps).
Proof.
  revert us. induction ps as [|p ps IH]; intros us; [done|]. cbn [arrival_times map]. rewrite <- Z.add_assoc. by rewrite IH.
Qed.

Lemma arrival_times_range us n ps :
  Forall (fun p => is_s16 (delta_ticks_ p)) ps -> (250 | us) -> Z.abs us <= 8192000 * n ->
  Forall (fun u => (250 | u) /\ Z.abs u <= 8192000 * (n + Z.of_nat (length ps))) (arrival_times us ps).
Proof.
  revert us n. induction ps as [|p ps IH]; intros us n Hp Hd Hn; [constructor|]. apply list.Forall_cons in Hp as [Hp Hps].
  assert (Hd' : (250 | us + delta_us p)) by (apply Z.divide_add_r; [done|by apply Z.divide_factor_r]).
  assert (Hn' : Z.abs (us + delta_us p) <= 8192000 * (n + 1)) by (unfold delta_us; change kDeltaScaleFactor with 250; unfold is_s16 in Hp; lia).
  cbn [arrival_times length]. constructor; [split; [done|lia]|]. eapply list.Forall_impl; [apply (IH _ (n + 1) Hps Hd' Hn')|]. cbv beta. intros u [H1 H2].
  split; [done|lia].
Qed.

(** Equal up to half a tick is equal, of times in milliseconds. *)
Lemma close_exact time b us :
  close (time * 1000) (b * kBaseScaleFactor + us) -> (250 | us) -> exists m, time * 1000 = b * kBaseScaleFactor + us + m * kTimeWrapPeriodUs.
Proof.
  intros [m Hm] [k ->]. exists m. change kTimeWrapPeriodUs with (2 ^ 24 * 64000) in *. change kBaseScaleFactor with 64000 in *. lia.
Qed.

(** The entries of a message, from their reference time in milliseconds. *)
Lemma exact_times t es time :
  delivered t es -> es <> [] -> Forall (fun p => is_s16 (delta_ticks_ p)) (packets_ t) -> Z.of_nat (length (packets_ t)) <= 65535 -> near time es ->
  exists base m, GetBaseTimeUs t = 1000 * base + m * kTimeWrapPeriodUs /\ Z.abs (default 0 (snd <$> head es) - base) <= 2 ^ 13 /\
    Forall2 (fun e us => 1000 * base + us = 1000 * snd e) es (arrival_times 0 (packets_ t)).
Proof.
  intros [_ Ht] Hne Hticks Hlen Hnear. unfold GetBaseTimeUs in *. set (b := base_time_ticks_ t) in *.
  pose proof (arrival_times_range 0 0 _ Hticks (Z.divide_0_r 250) ltac:(lia)) as Hr.
  rewrite <- (Z.add_0_r (b * kBaseScaleFactor)), arrival_times_add in Ht. apply Forall2_fmap_r in Ht.
  rewrite Forall2_same_length_lookup in Ht. destruct Ht as [Hl Ht]. unfold near in Hnear. rewrite list.Forall_lookup in Hnear. rewrite list.Forall_lookup in Hr.
  assert (He : forall i e us, es !! i = Some e -> arrival_times 0 (packets_ t) !! i = Some us ->
    Z.abs us <= 8192000 * 65535 /\ Z.abs (snd e - time) <= 2 ^ 27 /\ exists m, snd e * 1000 = b * kBaseScaleFactor + us + m * kTimeWrapPeriodUs).
  { intros i e us Ee Eu. destruct (Hr i us Eu) as [Hd Hus]. split_and!; [lia|by apply (Hnear i)|]. apply close_exact; [|done]. exact (Ht i e us Ee Eu). }
  destruct es as [|e1 es]; [done|]. destruct (arrival_times 0 (packets_ t)) as [|us1 l] eqn:El; [discriminate Hl|].
  destruct (He 0%nat e1 us1 eq_refl eq_refl) as (Hus1 & He1 & m1 & Em1).
  assert (Hus1' : Z.abs us1 <= 8192000).
  { destruct (packets_ t) as [|p ps]; [discriminate El|]. cbn [arrival_times] in El. injection El as <- _. apply list.Forall_cons in Hticks as [Hp _].
    unfold delta_us. change kDeltaScaleFactor with 250. unfold is_s16 in Hp. lia. }
  change kTimeWrapPeriodUs with (1000 * 2 ^ 30) in *. change kBaseScaleFactor with (1000 * 64) in *. cbn [head fmap option_fmap option_map default from_option].
  unfold id. exists (b * 64 + m1 * 2 ^ 30), (- m1). split_and!; [lia|lia|]. rewrite Forall2_same_length_lookup. split; [done|].
  intros i e us Ee Eu. destruct (He i e us Ee Eu) as (Hus & Hei & m & Em). assert (m = m1) as -> by lia. lia.
Qed.

(** ** Messages *)

Definition first_time (es : Arrivals) : Z := default 0 (snd <$> head es).

(** What the adapter makes of a message: the vector, and the clock for the next one. *)
Definition sees (garbage base : Z) (t : TransportFeedback) (es : Arrivals) (offset now : Z) (a : TransportFeedbackAdapter) : Prop :=
  exists v a', GetPacketFeedbackVector garbage t now a = Some (v, a') /\
    reported garbage (local_net_id_ a) (remote_net_id_ a) offset es (Z.to_nat (next_after base es - base)) base [] (send_time_history_ a) =
      (v, send_time_history_ a') /\
    clock offset (first_time es) a'.

(** A message as the sender gets it *)
Record arrived (t : TransportFeedback) (base : Z) (es : Arrivals) : Prop := {
  ar_delivered : delivered t es;
  ar_entries : es <> [];
  ar_gaps : gaps (base - 1) es = true;
  ar_base : base_seq_no_ t = u16 base;
  ar_count : num_seq_no_ t <> 0;
  ar_ticks : Forall (fun p => is_s16 (delta_ticks_ p)) (packets_ t);
  ar_length : Z.of_nat (length (packets_ t)) <= 65535;
  ar_time : - 2 ^ 23 * 64000 <= GetBaseTimeUs t < 2 ^ 24 * 64000;
}.

Lemma arrived_vector garbage base t es offset now a b m :
  arrived t base es -> GetBaseTimeUs t = 1000 * b + m * kTimeWrapPeriodUs -> Z.abs (first_time es - b) <= 2 ^ 13 ->
  Forall2 (fun e us => 1000 * b + us = 1000 * snd e) es (arrival_times 0 (packets_ t)) ->
  (if ad_last_timestamp_us_ a =? kNoTimestamp then to_ms now
   else current_offset_ms_ a + Z.quot (base_delta (GetBaseTimeUs t) (ad_last_timestamp_us_ a)) 1000) = offset + b ->
  sees garbage base t es offset now a.
Proof.
  intros [H1 H2 H3 H4 H5 H6 H7 H8] Hb Hf Htimes Hoffset. unfold sees, GetPacketFeedbackVector. cbv zeta. rewrite (proj2 (Z.eqb_neq _ 0) H5), H4.
  set (a1 := (if ad_last_timestamp_us_ a =? kNoTimestamp then _ else _) <| ad_last_timestamp_us_ := _ |>).
  assert (F : send_time_history_ a1 = send_time_history_ a /\ local_net_id_ a1 = local_net_id_ a /\ remote_net_id_ a1 = remote_net_id_ a /\
    current_offset_ms_ a1 = offset + b /\ ad_last_timestamp_us_ a1 = GetBaseTimeUs t) by (rewrite <- Hoffset; subst a1; by destruct (_ =? _)).
  destruct F as (F1 & F2 & F3 & F4 & F5). clearbody a1. rewrite F1, F2, F3, F4.
  rewrite (received_reported garbage _ _ offset es _ _ base 0); [|done|exact (proj1 H1)|].
  - destruct (reported _ _ _ _ _ _ _ _ _) as [v h]. eexists v, _. split_and!; [reflexivity|done|].
    exists b, m. cbn [set ad_last_timestamp_us_ current_offset_ms_]. rewrite F5. split_and!; [done|done|lia|lia|done].
  - eapply Forall2_impl; [|exact Htimes]. cbv beta. intros e us E. replace us with ((snd e - b) * 1000) by lia. rewrite Z.quot_mul by lia. lia.
Qed.

(** The first message sets the offset. *)
Lemma sees_first garbage base t es now a :
  arrived t base es -> ad_last_timestamp_us_ a = kNoTimestamp -> near (first_time es) es -> exists offset, sees garbage base t es offset now a.
Proof.
  intros Har Ha Hnear. pose proof Har as [H1 H2 _ _ _ H6 H7 _]. destruct (exact_times t es _ H1 H2 H6 H7 Hnear) as (b & m & Hb & Hf & Htimes).
  exists (to_ms now - b). eapply arrived_vector; [exact Har|exact Hb|exact Hf|exact Htimes|]. rewrite Ha. cbn. lia.
Qed.

(** The ones that follow keep it. *)
Lemma sees_next garbage base t es offset time now a :
  arrived t base es -> clock offset time a -> near time es -> sees garbage base t es offset now a.
Proof.
  intros Har (b0 & m0 & Hb0 & El0 & Hr0 & Eo) Hnear. pose proof Har as [H1 H2 _ _ _ H6 H7 H8].
  destruct (exact_times t es _ H1 H2 H6 H7 Hnear) as (b & m & Hb & Hf & Htimes). eapply arrived_vector; [exact Har|exact Hb|exact Hf|exact Htimes|].
  assert (Hfirst : Z.abs (first_time es - time) <= 2 ^ 27). { destruct es as [|e es]; [done|]. by apply list.Forall_cons in Hnear as [He _]. }
  unfold first_time in Hfirst.
  rewrite (proj2 (Z.eqb_neq _ kNoTimestamp)) by (rewrite El0; change kTimeWrapPeriodUs with (1000 * 2 ^ 30); unfold kNoTimestamp; lia).
  replace (base_delta (GetBaseTimeUs t) (ad_last_timestamp_us_ a)) with ((b - b0) * 1000); [rewrite Z.quot_mul by lia; lia|]. symmetry.
  replace (GetBaseTimeUs t) with (ad_last_timestamp_us_ a + (b - b0) * 1000 + (m - m0) * kTimeWrapPeriodUs) in * by lia.
  apply base_delta_exact; [done|done|lia].
Qed.

(** The other methods leave the clock as it is, as does what follows the vector. *)
Lemma clock_kept garbage offset time a ssrc sequence_number length pacing created sent_packet local remote :
  clock offset time a ->
  clock offset time (AddPacket garbage ssrc sequence_number length pacing created a) /\ clock offset time (snd (ProcessSentPacket sent_packet a)) /\
  clock offset time (SetNetworkIds local remote a).
Proof.
  intros Hc. split_and!; [exact Hc| |exact Hc]. unfold ProcessSentPacket. destruct (_ || _); cbv zeta; [by destruct (GetPacket _ _)|].
  by destruct (included_in_allocation sent_packet).
Qed.

Lemma clock_processed garbage offset time t now a v a1 :
  GetPacketFeedbackVector garbage t now a = Some (v, a1) -> clock offset time a1 ->
  exists r a2, ProcessTransportFeedback garbage t now a = Some (r, a2) /\ clock offset time a2.
Proof. intros E Hc. unfold ProcessTransportFeedback. rewrite E. cbv zeta. destruct v; (eexists _, _; split; [reflexivity|exact Hc]). Qed.

(** ** From the proxy to the adapter *)

Lemma numbered_range b seq_no st :
  Forall (status_ok b) st -> Forall (fun p => is_s16 (delta_ticks_ p)) (numbered seq_no st) /\ (length (numbered seq_no st) <= length st)%nat.
Proof.
  intros Hst. revert seq_no. induction Hst as [|[d|] st Hd Hst IH]; intros seq_no; cbn [numbered length]; [by split|..].
  - destruct (IH (u16 (seq_no + 1))) as [H1 H2]. split; [constructor; [by destruct Hd|done]|lia].
  - destruct (IH (u16 (seq_no + 1))) as [H1 H2]. split; [done|lia].
Qed.

Lemma received_arrived t st t' base es :
  represents t st -> st <> [] -> received_as t st t' -> delivered t' es -> es <> [] -> base_seq_no_ t = u16 base -> gaps (base - 1) es = true -> arrived t' base es.
Proof.
  intros Hr Hne (R1 & R2 & R3 & R4 & R5 & R6 & _) Hd Hes Hb Hg. destruct (numbered_range _ (base_seq_no_ t) _ (rep_status _ _ Hr)) as [Hticks Hlen].
  rewrite <- (rep_packets _ _ Hr), <- R6 in Hticks, Hlen. pose proof (hc_max _ _ _ (rep_chunks _ _ Hr)) as Hm. rewrite zlen_sizes in Hm. change kMaxReportedPackets with 65535 in Hm.
  split; [done|done|done|congruence| |done|lia|].
  - rewrite R3, (num_status _ _ Hr). destruct st; [done|]. cbn [length]. lia.
  - unfold GetBaseTimeUs. rewrite R5. change kBaseScaleFactor with 64000. pose proof (signed24_bytes _ (rep_ticks _ _ Hr)) as [_ Hs]. lia.
Qed.

(** The adapters see the entries of a message, whatever buffers it goes through. *)
Definition message_seen (garbage : Z) (t : TransportFeedback) (es : Arrivals) : Prop :=
  exists base, base_seq_no_ t = u16 base /\ forall buffer arr fb0 max_length,
    zlen buffer = IP_PACKET_SIZE -> zlen arr = 14 -> transport_BlockLength t <= max_length <= IP_PACKET_SIZE ->
    exists packet t', Build buffer t max_length = Some (true, [packet]) /\ ParseFrom fb0 arr packet = Some (Some t') /\
      forall now a,
        (ad_last_timestamp_us_ a = kNoTimestamp -> near (first_time es) es -> exists offset, sees garbage base t' es offset now a) /\
        (forall offset time, clock offset time a -> near time es -> sees garbage base t' es offset now a).

Lemma reports_seen garbage t es : message_reports t es -> message_seen garbage t es.
Proof.
  intros Hr. pose proof Hr as (Hne & _ & _ & base & Hb & Hg). exists base. split; [done|]. intros buffer arr fb0 max_length Hbuf Ha Hmax.
  destruct (reports_received t es Hr buffer arr fb0 max_length Hbuf Ha Hmax) as (packet & t' & st & E1 & E2 & Hd & Hrep & Hst & Hrec).
  pose proof (received_arrived _ _ _ _ _ Hrep Hst Hrec Hd Hne Hb Hg) as Har. exists packet, t'. split_and!; [done|done|]. intros now a. split.
  - intros Hno Hnear. by apply (sees_first garbage base t' es now a).
  - intros offset time Hc Hnear. by apply (sees_next garbage base t' es offset time now a).
Qed.

(** C10. The sender sees the times of the receiver: in the messages that a proxy
    sends, when they fit a packet, every number from the base to the last packet that arrived
    is looked up by the adapter in its history, in order, as received at the time at which the packet arrived or as
    missing. The times are exactly those of the receiver, in milliseconds, up to an offset that the
    first message sets and that no later one changes, as long as a message comes
    within 37 hours of the one before: rounding to ticks, the 24 bits of the reference time,
    which the parser reads as a signed number, and their wrap-around cancel. *)
Theorem arrival_times_seen garbage arr p now :
  zlen arr = 14 -> reached arr p ->
  exists p' messages parts, proxy_Process (R := unit) arr now p = Next tt p' /\ sent p' = sent p ++ messages /\
    concat parts = lower_bound (window_start_seq_ p) (packet_arrival_times_ p) /\ Forall2 (message_seen garbage) messages parts.
Proof.
  intros Ha Hr. pose proof (process_wp (R := unit) arr now p (fun _ _ => False) Ha (reached_ok arr p Ha Hr)) as Hw.
  apply wp_run in Hw as ([] & p' & E & _ & messages & parts & M1 & M2 & M3 & _). exists p', messages, parts. split_and!; [done|done|done|].
  eapply Forall2_impl; [|exact M3]. apply reports_seen.
Qed.

Lemma near_all es parts : Forall (fun e => 0 <= snd e <= 2 ^ 27) (concat parts) -> es ∈ parts -> es <> [] -> near (first_time es) es.
Proof.
  intros Hc Hin Hne. assert (He : Forall (fun e => 0 <= snd e <= 2 ^ 27) es).
  { apply list_elem_of_split in Hin as (l1 & l2 & ->). rewrite concat_app in Hc. cbn [concat] in Hc. rewrite !list.Forall_app in Hc. tauto. }
  destruct es as [|e es]; [done|]. unfold near. pose proof He as [H1 _]%list.Forall_cons. eapply list.Forall_impl; [exact He|].
  intros e' H'. cbv beta in H' |- *. cbn [first_time head fmap option_fmap option_map default from_option]. unfold id. lia.
Qed.

(** A new adapter gets the messages on three packets. *)
Lemma arrival_times_seen_witness :
  exists p' messages parts, proxy_Process (R := unit) (replicate 14 0) 9001 three_packets = Next tt p' /\ sent p' = messages /\
    concat parts = [(65535, 10); (65536, 9000); (65537, 12)] /\ Forall2 (message_seen 7) messages parts /\
    forall es, es ∈ parts -> es <> [] -> near (first_time es) es.
Proof.
  destruct (arrival_times_seen 7 (replicate 14 0) three_packets 9001 eq_refl three_packets_reached) as (p' & messages & parts & EP & ES & EC & EM).
  exists p', messages, parts. split; [exact EP|]. split; [exact ES|]. split; [exact EC|]. split; [exact EM|]. intros es Hin Hne.
  apply (near_all es parts); [|exact Hin|exact Hne]. rewrite EC. repeat (constructor; [cbn [snd]; lia|]). constructor.
Defined.
