(* ===== verification/FecPacket.v ===== *)
(** * Forward error correction: packets

    [ForwardErrorCorrection] of [modules/rtp_rtcp/source/forward_error_correction.cc] on one
    packet: its parity over media packets, the ULPFEC header of
    ulpfec_header_reader_writer.cc, and the recovery of a packet. [None] is an access
    outside an array. *)

From S2P Require Import Prelude ByteIo Rtcp TransportFeedback.

Open Scope Z_scope.
Open Scope c_scope.

(** ** Packets *)

Definition kRtpHeaderSize : Z := 12.

(** [ForwardErrorCorrection::Packet] without its reference count: the data of a packet
    is not written once others refer to it. *)
Record Packet := mkFp { fp_length : Z; fp_data : list Z }.

#[export] Instance eta_Packet : Eta Packet := fun p => mkFp (fp_length p) (fp_data p).

Definition new_Packet : Packet := mkFp 0 (replicate (Z.to_nat IP_PACKET_SIZE) 0).

Definition ParseSequenceNumber (p : Packet) : option Z :=
  b2 ← zget (fp_data p) 2; b3 ← zget (fp_data p) 3; Some (u16 (Z.shiftl b2 8 + b3)).

Definition ParseSsrc (p : Packet) : option Z :=
  b8 ← zget (fp_data p) 8; b9 ← zget (fp_data p) 9; b10 ← zget (fp_data p) 10; b11 ← zget (fp_data p) 11;
  Some (u32 (Z.shiftl b8 24 + Z.shiftl b9 16 + Z.shiftl b10 8 + b11)).

(** [data[i] = f(data[i])] *)
Definition change_at (data : list Z) (i : Z) (f : Z -> Z) : option (list Z) := v ← zget data i; zput data i (f v).

(** [dst[i] ^= v] *)
Definition xor_at (dst : list Z) (i v : Z) : option (list Z) := change_at dst i (fun x => Z.lxor x v).

(** The loop of [n] rounds [dst[d + i] ^= src[s + i]] *)
Fixpoint xor_range (n : nat) (src dst : list Z) (s d : Z) : option (list Z) :=
  match n with
  | O => Some dst
  | S n => v ← zget src s; dst ← xor_at dst d v; xor_range n src dst (s + 1) (d + 1)
  end.

Definition XorHeaders (src dst : Packet) : option Packet :=
  d ← xor_range 2 (fp_data src) (fp_data dst) 0 0;
  src_payload_length_network_order ← WriteBigEndian 2 [0; 0] 0 (u16 (fp_length src - kRtpHeaderSize));
  d ← xor_range 2 src_payload_length_network_order d 0 2;
  d ← xor_range 4 (fp_data src) d 4 4;
  Some (dst <| fp_data := d |>).

Definition XorPayloads (src : Packet) (payload_length dst_offset : Z) (dst : Packet) : option Packet :=
  d ← xor_range (Z.to_nat payload_length) (fp_data src) (fp_data dst) kRtpHeaderSize dst_offset;
  Some (dst <| fp_data := d |>).

(** ** The parity of media packets *)

(** One media packet into the FEC packet. *)
Definition protect (fec_header_size : Z) (media_packet fec_packet : Packet) : option Packet :=
  let media_payload_length := fp_length media_packet - kRtpHeaderSize in
  let first_protected_packet := fp_length fec_packet =? 0 in
  let fec_packet_length := fec_header_size + media_payload_length in
  let fec_packet := if fp_length fec_packet <? fec_packet_length then fec_packet <| fp_length := fec_packet_length |> else fec_packet in
  if first_protected_packet then
    bs ← read_bytes (fp_data media_packet) 0 2;
    d ← write_bytes (fp_data fec_packet) 0 bs;
    d ← WriteBigEndian 2 d 2 (u16 media_payload_length);
    bs ← read_bytes (fp_data media_packet) 4 4;
    d ← write_bytes d 4 bs;
    bs ← read_bytes (fp_data media_packet) kRtpHeaderSize media_payload_length;
    d ← write_bytes d fec_header_size bs;
    Some (fec_packet <| fp_data := d |>)
  else
    fec_packet ← XorHeaders media_packet fec_packet;
    XorPayloads media_packet media_payload_length fec_header_size fec_packet.

(** Bit [k] of a row of the masks, [None] beyond the row *)
Definition mask_bit (row : list Z) (byte_idx bit_idx : Z) : option bool :=
  b ← zget row byte_idx; Some (negb (Z.land b (Z.shiftl 1 (7 - bit_idx)) =? 0)).

(** The loop over the media packets, for one row. *)
Fixpoint protect_row (fec_header_size : Z) (row : list Z) (media_packets : list Packet) (media_pkt_idx pkt_mask_idx prev_seq_num : Z) (fec_packet : Packet)
  : option Packet :=
  match media_packets with
  | [] => Some fec_packet
  | media_packet :: rest =>
      bit ← mask_bit row pkt_mask_idx media_pkt_idx;
      fec_packet ← (if bit : bool then protect fec_header_size media_packet fec_packet else Some fec_packet);
      match rest with
      | [] => Some fec_packet
      | next :: _ =>
          seq_num ← ParseSequenceNumber next;
          let media_pkt_idx := media_pkt_idx + u16 (seq_num - prev_seq_num) in
          protect_row fec_header_size row rest (media_pkt_idx mod 8) (pkt_mask_idx + media_pkt_idx / 8) seq_num fec_packet
      end
  end.

(** ** The ULPFEC header *)

Definition kMaxMediaPackets : Z := 48.
Definition kMaxFecPackets : Z := kMaxMediaPackets.
Definition kUlpfecPacketMaskSizeLBitClear : Z := 2.
Definition kUlpfecPacketMaskSizeLBitSet : Z := 6.
Definition kFecLevel0HeaderSize : Z := 10.
Definition kFecLevel1HeaderSizeLBitSet : Z := 2 + kUlpfecPacketMaskSizeLBitSet.
Definition kFecLevel1HeaderSizeLBitClear : Z := 2 + kUlpfecPacketMaskSizeLBitClear.
Definition kPacketMaskOffset : Z := kFecLevel0HeaderSize + 2.

Definition UlpfecHeaderSize (packet_mask_size : Z) : Z :=
  if packet_mask_size <=? kUlpfecPacketMaskSizeLBitClear then kFecLevel0HeaderSize + kFecLevel1HeaderSizeLBitClear
  else kFecLevel0HeaderSize + kFecLevel1HeaderSizeLBitSet.

Definition FinalizeFecHeader (seq_num_base : Z) (packet_mask : list Z) (packet_mask_size : Z) (fec_packet : Packet) : option Packet :=
  d ← change_at (fp_data fec_packet) 0 (fun b => Z.land b 0x7f);
  let l_bit := packet_mask_size =? kUlpfecPacketMaskSizeLBitSet in
  d ← change_at d 0 (fun b => if l_bit then Z.lor b 0x40 else Z.land b 0xbf);
  d ← memmove d 8 2 2;
  d ← WriteBigEndian 2 d 2 seq_num_base;
  let fec_header_size := UlpfecHeaderSize packet_mask_size in
  d ← WriteBigEndian 2 d 10 (u16 (fp_length fec_packet - fec_header_size));
  bs ← read_bytes packet_mask 0 packet_mask_size;
  d ← write_bytes d 12 bs;
  Some (fec_packet <| fp_data := d |>).

(** ** Received packets *)

Record ProtectedPacket := mkProtected { pp_seq_num : Z; pp_pkt : option Packet }.

Record ReceivedFecPacket := mkReceivedFec {
  rf_ssrc : Z;
  rf_seq_num : Z;
  protected_packets : list ProtectedPacket;
  fec_header_size : Z;
  protected_ssrc : Z;
  seq_num_base : Z;
  packet_mask_offset : Z;
  packet_mask_size : Z;
  protection_length : Z;
  rf_pkt : Packet;
}.

#[export] Instance eta_ReceivedFec : Eta ReceivedFecPacket :=
  fun f => mkReceivedFec (rf_ssrc f) (rf_seq_num f) (protected_packets f) (fec_header_size f) (protected_ssrc f) (seq_num_base f)
    (packet_mask_offset f) (packet_mask_size f) (protection_length f) (rf_pkt f).

(** It returns true. *)
Definition ReadFecHeader (fec_packet : ReceivedFecPacket) : option ReceivedFecPacket :=
  let d := fp_data (rf_pkt fec_packet) in
  b0 ← zget d 0;
  let mask_size := if negb (Z.land b0 0x40 =? 0) then kUlpfecPacketMaskSizeLBitSet else kUlpfecPacketMaskSizeLBitClear in
  base ← ReadBigEndian 2 d 2;
  protected ← ReadBigEndian 2 d 10;
  d ← memmove d 2 8 2;
  Some (fec_packet <| fec_header_size := UlpfecHeaderSize mask_size |> <| protected_ssrc := rf_ssrc fec_packet |>
          <| seq_num_base := base |> <| packet_mask_offset := kPacketMaskOffset |> <| packet_mask_size := mask_size |>
          <| protection_length := protected |> <| rf_pkt := (rf_pkt fec_packet) <| fp_data := d |> |>).

(** ** Recovery *)

(** The results false are [Some None]. *)
Definition StartPacketRecovery (fec_packet : ReceivedFecPacket) : option (option Packet) :=
  if fp_length (rf_pkt fec_packet) <? fec_header_size fec_packet then Some None
  else
    bs ← read_bytes (fp_data (rf_pkt fec_packet)) 0 kRtpHeaderSize;
    d ← write_bytes (fp_data new_Packet) 0 bs;
    if Z.min (IP_PACKET_SIZE - kRtpHeaderSize) (IP_PACKET_SIZE - fec_header_size fec_packet) <? protection_length fec_packet then Some None
    else
      bs ← read_bytes (fp_data (rf_pkt fec_packet)) (fec_header_size fec_packet) (protection_length fec_packet);
      d ← write_bytes d kRtpHeaderSize bs;
      Some (Some (new_Packet <| fp_data := d |>)).

Definition FinishPacketRecovery (fec_packet : ReceivedFecPacket) (seq_num : Z) (recovered : Packet) : option (option Packet) :=
  d ← change_at (fp_data recovered) 0 (fun b => Z.lor b 0x80);
  d ← change_at d 0 (fun b => Z.land b 0xbf);
  payload_length ← ReadBigEndian 2 d 2;
  let length := payload_length + kRtpHeaderSize in
  if IP_PACKET_SIZE - kRtpHeaderSize <? length then Some None
  else
    d ← WriteBigEndian 2 d 2 seq_num;
    d ← WriteBigEndian 4 d 8 (protected_ssrc fec_packet);
    Some (Some (mkFp length d)).

(** The loop of [RecoverPacket]: the recovered packet and its number, which is that of
    the last one that is missing. *)
Fixpoint xor_present (l : list ProtectedPacket) (seq_num : Z) (recovered : Packet) : option (Z * Packet) :=
  match l with
  | [] => Some (seq_num, recovered)
  | p :: l =>
      match pp_pkt p with
      | None => xor_present l (pp_seq_num p) recovered
      | Some pkt =>
          recovered ← XorHeaders pkt recovered;
          recovered ← XorPayloads pkt (fp_length pkt) kRtpHeaderSize recovered;
          xor_present l seq_num recovered
      end
  end.

(** The number of the recovered packet is not initialised: [garbage]. *)
Definition RecoverPacket (garbage : Z) (fec_packet : ReceivedFecPacket) : option (option (Z * Packet)) :=
  started ← StartPacketRecovery fec_packet;
  match started with
  | None => Some None
  | Some recovered =>
      result ← xor_present (protected_packets fec_packet) garbage recovered;
      let '(seq_num, recovered) := (result : Z * Packet) in
      finished ← FinishPacketRecovery fec_packet seq_num recovered;
      match finished with
      | None => Some None
      | Some recovered => Some (Some (seq_num, recovered))
      end
  end.
