(* ===== verification/FecParity.v ===== *)
(** * Forward error correction: parity

    What a FEC packet holds: at each place the exclusive or over the packets it protects. *)

From S2P Require Import Prelude ByteIo Rtcp FecPacket.

Open Scope Z_scope.
Open Scope c_scope.

(** ** Bytes of an array *)

Definition get0 (l : list Z) (i : Z) : Z := default 0 (zget l i).

Definition is_buffer (l : list Z) : Prop := zlen l = IP_PACKET_SIZE /\ Forall is_u8 l.

Lemma get0_zget l i : 0 <= i < zlen l -> zget l i = Some (get0 l i).
Proof. intros Hi. unfold get0. destruct (zget_is_Some l i Hi) as [v ->]. done. Qed.

Lemma get0_ext l k : zlen l = zlen k -> (forall i, 0 <= i < zlen l -> get0 l i = get0 k i) -> l = k.
Proof.
  intros Hl Hg. apply zget_ext. intros i. destruct (decide (0 <= i < zlen l)) as [Hi|Hi]; [by rewrite !get0_zget, Hg by lia|].
  destruct (zget l i) eqn:E; [apply zget_range in E; lia|]. destruct (zget k i) eqn:E'; [apply zget_range in E'; lia|done].
Qed.

Lemma get0_u8 l i : Forall is_u8 l -> is_u8 (get0 l i).
Proof. intros Hl. unfold get0. destruct (zget l i) eqn:E; [by eapply zget_Forall|cbn; clia]. Qed.

Lemma u8_log x : 0 <= x -> Z.log2 x < 8 -> is_u8 x.
Proof. intros Hx Hl. unfold is_u8. split; [done|]. destruct (Z.eq_dec x 0) as [->|]; [done|]. apply Z.log2_lt_pow2; lia. Qed.

Lemma log_u8 x : is_u8 x -> Z.log2 x < 8.
Proof. unfold is_u8. intros Hx. destruct (Z.eq_dec x 0) as [->|]; [done|]. apply Z.log2_lt_pow2; lia. Qed.

Lemma u8_land a b : is_u8 a -> 0 <= b -> is_u8 (Z.land a b).
Proof.
  intros Ha Hb. pose proof (log_u8 a Ha). unfold is_u8 in Ha. apply u8_log; [apply Z.land_nonneg; lia|].
  pose proof (Z.log2_land a b ltac:(lia) ltac:(lia)). lia.
Qed.

Lemma u8_lor a b : is_u8 a -> is_u8 b -> is_u8 (Z.lor a b).
Proof.
  intros Ha Hb. pose proof (log_u8 a Ha). pose proof (log_u8 b Hb). unfold is_u8 in Ha, Hb.
  apply u8_log; [apply Z.lor_nonneg; lia|]. rewrite Z.log2_lor by lia. lia.
Qed.

Lemma u8_lxor a b : is_u8 a -> is_u8 b -> is_u8 (Z.lxor a b).
Proof.
  intros Ha Hb. pose proof (log_u8 a Ha). pose proof (log_u8 b Hb). unfold is_u8 in Ha, Hb.
  apply u8_log; [apply Z.lxor_nonneg; lia|]. pose proof (Z.log2_lxor a b ltac:(lia) ltac:(lia)). lia.
Qed.

Lemma Forall_get0 (P : Z -> Prop) l : (forall i, 0 <= i < zlen l -> P (get0 l i)) -> Forall P l.
Proof.
  intros Hp. apply list.Forall_lookup_2. intros i x Hx. specialize (Hp (Z.of_nat i)). unfold get0, zget in Hp.
  rewrite (proj2 (Z.ltb_ge _ 0)), Nat2Z.id, Hx in Hp by lia. apply Hp. apply lookup_lt_Some in Hx. unfold zlen. lia.
Qed.

(** ** The operations on bytes *)

Lemma change_at_Some d i f :
  0 <= i < zlen d -> exists d', change_at d i f = Some d' /\ zlen d' = zlen d /\ forall j, get0 d' j = if j =? i then f (get0 d j) else get0 d j.
Proof.
  intros Hi. unfold change_at. rewrite (get0_zget d i Hi). cbn [mbind option_bind]. destruct (zput_Some d i (f (get0 d i)) Hi) as (d' & E & Hl). exists d'.
  split_and!; [done|done|]. intros j. unfold get0 at 1. rewrite (zget_zput _ _ _ _ j E). destruct (Z.eqb_spec j i) as [->|]; done.
Qed.

Lemma write_get0 d off bs :
  0 <= off -> off + zlen bs <= zlen d ->
  exists d', write_bytes d off bs = Some d' /\ zlen d' = zlen d /\
    forall j, get0 d' j = if (off <=? j) && (j <? off + zlen bs) then get0 bs (j - off) else get0 d j.
Proof.
  intros H1 H2. destruct (write_bytes_Some d off bs H1 H2) as (d' & E & Hl & Hg). exists d'. split_and!; [done|done|]. intros j. unfold get0.
  rewrite Hg. by destruct (_ && _).
Qed.

Lemma read_get0 d off n :
  0 <= off -> 0 <= n -> off + n <= zlen d -> exists bs, read_bytes d off n = Some bs /\ zlen bs = n /\ forall j, 0 <= j < n -> get0 bs j = get0 d (off + j).
Proof.
  intros H1 H2 H3. pose proof (read_bytes_Some d off n H1 H2 H3) as E. eexists. split; [exact E|]. apply read_bytes_spec in E as (_ & Hl & _ & Hg).
  split; [done|]. intros j Hj. unfold get0. by rewrite Hg.
Qed.

(** [memcpy] from one array to another *)
Lemma copy_get0 src s n d off :
  0 <= s -> 0 <= n -> s + n <= zlen src -> 0 <= off -> off + n <= zlen d ->
  exists bs d', read_bytes src s n = Some bs /\ write_bytes d off bs = Some d' /\ zlen d' = zlen d /\
    forall j, get0 d' j = if (off <=? j) && (j <? off + n) then get0 src (s + (j - off)) else get0 d j.
Proof.
  intros H1 H2 H3 H4 H5. destruct (read_get0 src s n H1 H2 H3) as (bs & Eb & Hl & Hg). destruct (write_get0 d off bs H4 ltac:(lia)) as (d' & Ed & Hl' & Hg').
  exists bs, d'. split_and!; [done|done|done|]. intros j. rewrite Hg', Hl. destruct (Z.leb_spec off j), (Z.ltb_spec j (off + n)); cbn [andb]; try done.
  apply Hg. lia.
Qed.

Lemma WriteBigEndian_get0 B d off v :
  0 <= off -> off + Z.of_nat B <= zlen d ->
  exists d', WriteBigEndian B d off v = Some d' /\ zlen d' = zlen d /\
    forall j, get0 d' j = if (off <=? j) && (j <? off + Z.of_nat B) then get0 (be_bytes B v) (j - off) else get0 d j.
Proof.
  intros H1 H2. rewrite WriteBigEndian_bytes by done. pose proof (write_get0 d off (be_bytes B v) H1) as Hw. rewrite zlen_be_bytes in Hw. by apply Hw.
Qed.

Lemma xor_range_get0 n src dst s d :
  0 <= s -> s + Z.of_nat n <= zlen src -> 0 <= d -> d + Z.of_nat n <= zlen dst ->
  exists d', xor_range n src dst s d = Some d' /\ zlen d' = zlen dst /\
    forall j, get0 d' j = if (d <=? j) && (j <? d + Z.of_nat n) then Z.lxor (get0 dst j) (get0 src (s + (j - d))) else get0 dst j.
Proof.
  revert dst s d. induction n as [|n IH]; intros dst s d H1 H2 H3 H4; cbn [xor_range].
  - exists dst. split_and!; [done|done|]. intros j. destruct (Z.leb_spec d j), (Z.ltb_spec j (d + Z.of_nat 0)); cbn [andb]; done || lia.
  - rewrite (get0_zget src s) by lia. cbn [mbind option_bind]. unfold xor_at.
    destruct (change_at_Some dst d (fun x => Z.lxor x (get0 src s)) ltac:(lia)) as (d1 & -> & Hl1 & Hg1). cbn [mbind option_bind].
    destruct (IH d1 (s + 1) (d + 1)) as (d2 & -> & Hl2 & Hg2); [lia..|]. exists d2. split_and!; [done|lia|]. intros j. rewrite Hg2, Hg1.
    destruct (Z.eqb_spec j d) as [->|Hne].
    + rewrite (proj2 (Z.leb_gt (d + 1) d)), (proj2 (Z.leb_le d d)), (proj2 (Z.ltb_lt d (d + Z.of_nat (S n)))) by lia. cbn [andb]. by rewrite Z.sub_diag, Z.add_0_r.
    + destruct (Z.leb_spec (d + 1) j), (Z.leb_spec d j); try lia; cbn [andb]; [|done].
      replace (j <? d + Z.of_nat (S n)) with (j <? d + 1 + Z.of_nat n) by (f_equal; lia). destruct (_ <? _); [|done]. by replace (s + 1 + (j - (d + 1))) with (s + (j - d)) by lia.
Qed.

(** ** Exclusive or over packets *)

Definition xsum (f : Packet -> Z) (l : list Packet) : Z := fold_right (fun p x => Z.lxor (f p) x) 0 l.

Lemma xsum_app f l k : xsum f (l ++ k) = Z.lxor (xsum f l) (xsum f k).
Proof. induction l as [|p l IH]; cbn; [by rewrite Z.lxor_0_l|]. unfold xsum in IH. by rewrite IH, Z.lxor_assoc. Qed.

Lemma xsum_snoc f l p : xsum f (l ++ [p]) = Z.lxor (xsum f l) (f p).
Proof. rewrite xsum_app. cbn. by rewrite Z.lxor_0_r. Qed.

Lemma xsum_u8 f l : (forall p, is_u8 (f p)) -> is_u8 (xsum f l).
Proof. intros Hf. induction l as [|p l IH]; cbn; [unfold is_u8; lia|]. by apply u8_lxor. Qed.


(** The others cancel: the one that is missing is left. *)
Lemma xsum_cancel f l1 p l2 : Z.lxor (xsum f (l1 ++ p :: l2)) (Z.lxor (xsum f l1) (xsum f l2)) = f p.
Proof.
  rewrite xsum_app. cbn. fold (xsum f l2). apply Z.bits_inj'. intros n Hn. rewrite !Z.lxor_spec.
  by destruct (Z.testbit (xsum f l1) n), (Z.testbit (f p) n), (Z.testbit (xsum f l2) n).
Qed.

(** ** Packets *)

Definition payload_len (p : Packet) : Z := fp_length p - kRtpHeaderSize.

(** Its byte in the recovery fields of the header, with the length where the number is. *)
Definition recovery_byte (j : Z) (p : Packet) : Z :=
  if (2 <=? j) && (j <? 4) then get0 (be_bytes 2 (payload_len p)) (j - 2) else get0 (fp_data p) j.

Definition payload_byte (i : Z) (p : Packet) : Z := get0 (fp_data p) (kRtpHeaderSize + i).

(** A media packet that can be recovered: nothing is behind its end. *)
Record media_ok (p : Packet) : Prop := {
  mo_buffer : is_buffer (fp_data p);
  mo_length : kRtpHeaderSize <= fp_length p <= IP_PACKET_SIZE - kRtpHeaderSize;
  mo_zero : forall i, fp_length p <= i -> get0 (fp_data p) i = 0;
}.

Lemma recovery_u8 j p : media_ok p -> is_u8 (recovery_byte j p).
Proof. intros [[_ Hu] _ _]. unfold recovery_byte. destruct (_ && _); [apply get0_u8, be_bytes_u8|by apply get0_u8]. Qed.

Lemma payload_u8 i p : media_ok p -> is_u8 (payload_byte i p).
Proof. intros [[_ Hu] _ _]. by apply get0_u8. Qed.

Definition max_payload (l : list Packet) : Z := fold_right (fun p n => Z.max (payload_len p) n) 0 l.

Lemma max_payload_snoc l p : max_payload (l ++ [p]) = Z.max (max_payload l) (Z.max (payload_len p) 0).
Proof. unfold max_payload. induction l as [|q l IH]; cbn [fold_right app]; lia. Qed.

(** The FEC packet while it is made, with a header of [hs] bytes, holds the parity of [l]. *)
Record parity (hs : Z) (f : Packet) (l : list Packet) : Prop := {
  pa_size : zlen (fp_data f) = IP_PACKET_SIZE;
  pa_length : fp_length f = match l with [] => 0 | _ => hs + max_payload l end;
  pa_header : forall j, 0 <= j < 8 -> get0 (fp_data f) j = xsum (recovery_byte j) l;
  pa_between : forall j, 8 <= j < hs -> get0 (fp_data f) j = 0;
  pa_payload : forall i, 0 <= i -> hs + i < IP_PACKET_SIZE -> get0 (fp_data f) (hs + i) = xsum (payload_byte i) l;
}.

Lemma max_payload_nonneg l : 0 <= max_payload l.
Proof. unfold max_payload. induction l as [|p l IH]; cbn [fold_right]; lia. Qed.

(** A byte of an exclusive or with nothing behind it *)
Lemma payload_zero i p : media_ok p -> payload_len p <= i -> payload_byte i p = 0.
Proof. intros [_ _ Hz] Hi. unfold payload_byte, payload_len in *. apply Hz. lia. Qed.

(** The length as it is written *)
Lemma length_written p : media_ok p -> u16 (payload_len p) = payload_len p.
Proof. intros [_ Hl _]. apply u16_id. unfold payload_len, kRtpHeaderSize, IP_PACKET_SIZE, is_u16 in *. lia. Qed.

(** Both branches of [protect] xor the packet into the header and the payload. *)
Lemma protect_first hs p f :
  media_ok p -> 12 <= hs <= 18 -> zlen (fp_data f) = IP_PACKET_SIZE -> (forall j, get0 (fp_data f) j = 0) -> fp_length f = 0 ->
  exists d, protect hs p f = Some (mkFp (hs + payload_len p) d) /\ zlen d = IP_PACKET_SIZE /\
    (forall j, 0 <= j < 8 -> get0 d j = recovery_byte j p) /\ (forall j, 8 <= j < hs -> get0 d j = 0) /\
    (forall i, 0 <= i -> hs + i < IP_PACKET_SIZE -> get0 d (hs + i) = payload_byte i p).
Proof.
  intros Hp Hhs Hf Hz Hl. pose proof Hp as [[Hb Hu] Hlen Hzero]. unfold payload_len, kRtpHeaderSize, IP_PACKET_SIZE in *.
  unfold protect. cbv zeta. rewrite Hl. cbn [Z.eqb]. rewrite (proj2 (Z.ltb_lt 0 _)) by (unfold kRtpHeaderSize; lia). cbn [set fp_data].
  destruct (copy_get0 (fp_data p) 0 2 (fp_data f) 0) as (b1 & d1 & -> & E1 & Hl1 & Hg1); [lia..|]. cbn [mbind option_bind]. rewrite E1. cbn [mbind option_bind].
  destruct (WriteBigEndian_get0 2 d1 2 (u16 (fp_length p - kRtpHeaderSize))) as (d2 & -> & Hl2 & Hg2); [lia..|]. cbn [mbind option_bind].
  destruct (copy_get0 (fp_data p) 4 4 d2 4) as (b3 & d3 & -> & E3 & Hl3 & Hg3); [lia..|]. cbn [mbind option_bind]. rewrite E3. cbn [mbind option_bind].
  destruct (copy_get0 (fp_data p) kRtpHeaderSize (fp_length p - kRtpHeaderSize) d3 hs) as (b4 & d4 & -> & E4 & Hl4 & Hg4); [unfold kRtpHeaderSize; lia..|].
  cbn [mbind option_bind]. rewrite E4. cbn [mbind option_bind set fp_length fp_data]. exists d4. unfold kRtpHeaderSize in *.
  pose proof (length_written p Hp) as Hw. unfold payload_len, kRtpHeaderSize in Hw. rewrite Hw in Hg2.
  split_and!; [done|lia|..].
  - intros j Hj. rewrite Hg4, (proj2 (Z.leb_gt hs j)) by lia. cbn [andb]. rewrite Hg3, Hg2, Hg1, Hz. unfold recovery_byte, payload_len, kRtpHeaderSize.
    assert (Hjj : j = 0 \/ j = 1 \/ j = 2 \/ j = 3 \/ 4 <= j) by lia. destruct Hjj as [->|[->|[->|[->|Hj4]]]]; try done.
    rewrite (proj2 (Z.leb_le 4 j)), (proj2 (Z.ltb_lt j (4 + 4))), (proj2 (Z.ltb_ge j 4)), (proj2 (Z.leb_le 2 j)) by lia. cbn [andb]. f_equal. lia.
  - intros j Hj. rewrite Hg4, (proj2 (Z.leb_gt hs j)) by lia. cbn [andb]. rewrite Hg3, Hg2, Hg1, Hz.
    rewrite (proj2 (Z.ltb_ge j (4 + 4))), (proj2 (Z.ltb_ge j (2 + Z.of_nat 2))), (proj2 (Z.ltb_ge j (0 + 2))) by lia. by rewrite !andb_false_r.
  - intros i Hi Hi'. rewrite Hg4, (proj2 (Z.leb_le hs (hs + i))) by lia. cbn [andb]. unfold payload_byte, kRtpHeaderSize.
    destruct (Z.ltb_spec (hs + i) (hs + (fp_length p - 12))); [f_equal; lia|]. rewrite (Hzero (12 + i)) by lia.
    rewrite Hg3, Hg2, Hg1, Hz. rewrite (proj2 (Z.ltb_ge _ (4 + 4))), (proj2 (Z.ltb_ge _ (2 + Z.of_nat 2))), (proj2 (Z.ltb_ge _ (0 + 2))) by lia. by rewrite !andb_false_r.
Qed.

Lemma XorHeaders_get0 src dst :
  media_ok src -> zlen (fp_data dst) = IP_PACKET_SIZE ->
  exists d, XorHeaders src dst = Some (mkFp (fp_length dst) d) /\ zlen d = IP_PACKET_SIZE /\
    forall j, get0 d j = if (0 <=? j) && (j <? 8) then Z.lxor (get0 (fp_data dst) j) (recovery_byte j src) else get0 (fp_data dst) j.
Proof.
  intros Hp Hd. pose proof Hp as [[Hb _] _ _]. unfold XorHeaders, IP_PACKET_SIZE in *.
  destruct (xor_range_get0 2 (fp_data src) (fp_data dst) 0 0) as (d1 & -> & Hl1 & Hg1); [lia..|]. cbn [mbind option_bind].
  rewrite (WriteBigEndian_bytes 2 [0; 0]) by (unfold zlen; cbn; lia).
  change (write_bytes [0; 0] 0 (be_bytes 2 (u16 (fp_length src - kRtpHeaderSize)))) with (Some (be_bytes 2 (u16 (fp_length src - kRtpHeaderSize)))).
  cbn [mbind option_bind]. fold (payload_len src). rewrite (length_written src Hp).
  assert (Hz : zlen (be_bytes 2 (payload_len src)) = 2) by apply zlen_be_bytes.
  destruct (xor_range_get0 2 (be_bytes 2 (payload_len src)) d1 0 2) as (d2 & -> & Hl2 & Hg2); [lia..|]. cbn [mbind option_bind].
  destruct (xor_range_get0 4 (fp_data src) d2 4 4) as (d3 & -> & Hl3 & Hg3); [lia..|]. cbn [mbind option_bind]. exists d3.
  split_and!; [by destruct dst|lia|]. intros j. rewrite Hg3, Hg2, Hg1. unfold recovery_byte.
  assert (Hj : j < 0 \/ j = 0 \/ j = 1 \/ j = 2 \/ j = 3 \/ 4 <= j < 8 \/ 8 <= j) by lia. destruct Hj as [Hj|[->|[->|[->|[->|[Hj|Hj]]]]]]; try done.
  - by rewrite (proj2 (Z.leb_gt 0 j)), (proj2 (Z.leb_gt 2 j)), (proj2 (Z.leb_gt 4 j)) by lia.
  - rewrite (proj2 (Z.leb_le 0 j)), (proj2 (Z.leb_le 4 j)), (proj2 (Z.ltb_lt j (4 + Z.of_nat 4))), (proj2 (Z.ltb_lt j 8)) by lia.
    rewrite (proj2 (Z.ltb_ge j (2 + Z.of_nat 2))), (proj2 (Z.ltb_ge j (0 + Z.of_nat 2))), (proj2 (Z.ltb_ge j 4)) by lia. rewrite !andb_false_r. cbn [andb].
    do 2 f_equal. lia.
  - rewrite (proj2 (Z.ltb_ge j (2 + Z.of_nat 2))), (proj2 (Z.ltb_ge j (0 + Z.of_nat 2))), (proj2 (Z.ltb_ge j (4 + Z.of_nat 4))), (proj2 (Z.ltb_ge j 8)) by lia.
    by rewrite !andb_false_r.
Qed.

(** As many bytes of the payload as fit both arrays; those behind its end are zero. *)
Lemma XorPayloads_get0 src n off dst :
  media_ok src -> zlen (fp_data dst) = IP_PACKET_SIZE -> payload_len src <= n <= IP_PACKET_SIZE - kRtpHeaderSize -> 0 <= off -> off + n <= IP_PACKET_SIZE ->
  exists d, XorPayloads src n off dst = Some (mkFp (fp_length dst) d) /\ zlen d = IP_PACKET_SIZE /\
    forall j, get0 d j = if off <=? j then Z.lxor (get0 (fp_data dst) j) (payload_byte (j - off) src) else get0 (fp_data dst) j.
Proof.
  intros Hp Hd Hn Ho Hon. pose proof Hp as [[Hb _] Hlen _]. unfold XorPayloads, payload_len, kRtpHeaderSize, IP_PACKET_SIZE in *.
  destruct (xor_range_get0 (Z.to_nat n) (fp_data src) (fp_data dst) 12 off) as (d & -> & Hl & Hg); [lia..|]. cbn [mbind option_bind]. exists d.
  split_and!; [by destruct dst|lia|]. intros j. rewrite Hg. destruct (Z.leb_spec off j); cbn [andb]; [|done].
  destruct (Z.ltb_spec j (off + Z.of_nat (Z.to_nat n))); [done|]. rewrite payload_zero; [by rewrite Z.lxor_0_r|done|]. unfold payload_len, kRtpHeaderSize. lia.
Qed.

Lemma protect_parity hs p f l :
  media_ok p -> 12 <= hs <= 18 -> parity hs f l -> exists f', protect hs p f = Some f' /\ parity hs f' (l ++ [p]).
Proof.
  intros Hp Hhs [H1 H2 H3 H4 H5]. pose proof Hp as [[Hb _] Hlen _].
  assert (Hpl : 0 <= payload_len p) by (unfold payload_len; lia).
  assert (Hlen' : hs + Z.max (max_payload l) (Z.max (payload_len p) 0) = match l ++ [p] with [] => 0 | _ => hs + max_payload (l ++ [p]) end)
    by (rewrite <- max_payload_snoc; by destruct l).
  destruct l as [|q l].
  - destruct (protect_first hs p f Hp Hhs H1) as (d & E & Hd & Hg1 & Hg2 & Hg3); [|done|].
    { intros j. destruct (decide (j < 0)) as [Hn|Hn]; [unfold get0, zget; by rewrite (proj2 (Z.ltb_lt j 0))|].
      destruct (decide (j < 8)); [by apply H3; lia|]. destruct (decide (j < hs)); [apply H4; lia|].
      destruct (decide (j < IP_PACKET_SIZE)); [replace j with (hs + (j - hs)) by lia; apply H5; lia|].
      unfold get0. destruct (zget (fp_data f) j) eqn:Ez; [apply zget_range in Ez; lia|done]. }
    exists (mkFp (hs + payload_len p) d). split; [done|]. split; cbn [app xsum fold_right fp_data fp_length]; [done| | |done|].
    + unfold max_payload. cbn [fold_right]. lia.
    + intros j Hj. by rewrite Z.lxor_0_r, Hg1.
    + intros i Hi Hi'. by rewrite Z.lxor_0_r, Hg3.
  - pose proof (max_payload_nonneg (q :: l)). unfold protect. cbv zeta. rewrite (proj2 (Z.eqb_neq (fp_length f) 0)) by lia. fold (payload_len p).
    set (f0 := if fp_length f <? hs + payload_len p then f <| fp_length := hs + payload_len p |> else f).
    assert (F : fp_data f0 = fp_data f /\ fp_length f0 = hs + Z.max (max_payload (q :: l)) (Z.max (payload_len p) 0))
      by (subst f0; destruct (Z.ltb_spec (fp_length f) (hs + payload_len p)); (split; [done|]); cbn [set fp_length]; lia).
    destruct F as [F1 F2]. clearbody f0. rewrite <- F1 in *.
    destruct (XorHeaders_get0 p f0 Hp H1) as (d1 & -> & Hd1 & Hg1). cbn [mbind option_bind].
    destruct (XorPayloads_get0 p (payload_len p) hs (mkFp (fp_length f0) d1) Hp Hd1) as (d2 & -> & Hd2 & Hg2);
      [unfold payload_len, kRtpHeaderSize, IP_PACKET_SIZE in *; lia..|].
    exists (mkFp (fp_length f0) d2). split; [done|]. split; cbn [fp_data fp_length] in *; [done|lia|..].
    + intros j Hj. rewrite Hg2, (proj2 (Z.leb_gt hs j)), Hg1, (proj2 (Z.leb_le 0 j)), (proj2 (Z.ltb_lt j 8)) by lia. cbn [andb]. by rewrite xsum_snoc, H3.
    + intros j Hj. rewrite Hg2, (proj2 (Z.leb_gt hs j)), Hg1, (proj2 (Z.ltb_ge j 8)) by lia. rewrite andb_false_r. by apply H4.
    + intros i Hi Hi'. rewrite Hg2, (proj2 (Z.leb_le hs (hs + i))), Hg1, (proj2 (Z.ltb_ge (hs + i) 8)) by lia. rewrite andb_false_r, xsum_snoc, H5 by done.
      do 2 f_equal. lia.
Qed.

(** ** One row of the masks *)

Definition number (p : Packet) : Z := get0 (fp_data p) 2 * 256 + get0 (fp_data p) 3.

Definition row_bit (row : list Z) (k : Z) : bool := Z.testbit (get0 row (k / 8)) (7 - k mod 8).

(** The packets with their places: the number of each, from that of the first. *)
Fixpoint placed (off prev : Z) (media : list Packet) : list (Z * Packet) :=
  match media with
  | [] => []
  | p :: rest => let off := off + u16 (number p - prev) in (off, p) :: placed off (number p) rest
  end.

Definition selected (row : list Z) (l : list (Z * Packet)) : list Packet := map snd (filter (fun e => row_bit row (fst e) = true) l).

Lemma ParseSequenceNumber_number p : media_ok p -> ParseSequenceNumber p = Some (number p) /\ is_u16 (number p).
Proof.
  intros [[Hb Hu] _ _]. unfold ParseSequenceNumber, IP_PACKET_SIZE in *. rewrite (get0_zget _ 2), (get0_zget _ 3) by lia. cbn [mbind option_bind].
  pose proof (get0_u8 _ 2 Hu) as H2. pose proof (get0_u8 _ 3 Hu) as H3. unfold number. assert (Hn : is_u16 (get0 (fp_data p) 2 * 256 + get0 (fp_data p) 3)) by clia.
  split; [|done]. rewrite Z.shiftl_mul_pow2 by lia. change (2 ^ 8) with 256. by rewrite u16_id.
Qed.

Lemma mask_bit_row row byte bit : 0 <= byte < zlen row -> 0 <= bit < 8 -> mask_bit row byte bit = Some (row_bit row (byte * 8 + bit)).
Proof.
  intros Hb Hbit. unfold mask_bit. rewrite get0_zget by done. cbn [mbind option_bind]. rewrite land_bit, negb_involutive by lia. unfold row_bit.
  replace ((byte * 8 + bit) / 8) with byte by (Z.div_mod_to_equations; lia). by replace ((byte * 8 + bit) mod 8) with bit by (Z.div_mod_to_equations; lia).
Qed.

Lemma placed_ge off prev media : Forall (fun e => off <= fst e) (placed off prev media).
Proof.
  revert off prev. induction media as [|p media IH]; intros off prev; cbn [placed]; [constructor|]. pose proof (u16_range (number p - prev)) as Hr. unfold is_u16 in Hr.
  constructor; [cbn; lia|]. eapply list.Forall_impl; [apply IH|]. cbv beta. lia.
Qed.

Lemma protect_row_parity hs row media off prev f l :
  12 <= hs <= 18 -> Forall media_ok media -> Forall (fun e => fst e < 8 * zlen row) (placed off prev media) -> 0 <= off -> parity hs f l ->
  let off' := off + u16 (match media with p :: _ => number p | [] => prev end - prev) in
  exists f', protect_row hs row media (off' mod 8) (off' / 8) (match media with p :: _ => number p | [] => prev end) f = Some f' /\
    parity hs f' (l ++ selected row (placed off prev media)).
Proof.
  intros Hhs. revert off prev f l. induction media as [|p media IH]; intros off prev f l Hm Hpl Hoff Hf off'; cbn [protect_row placed].
  - exists f. unfold selected. cbn. by rewrite app_nil_r.
  - apply list.Forall_cons in Hm as [Hp Hm]. cbn [placed] in Hpl. apply list.Forall_cons in Hpl as [Hpo Hpl]. cbn [fst] in Hpo. fold off' in Hpo, Hpl |- *.
    pose proof (u16_range (number p - prev)) as Hr. unfold is_u16 in Hr. assert (Hoff' : 0 <= off') by (subst off'; lia). clearbody off'.
    rewrite mask_bit_row by (Z.div_mod_to_equations; lia). cbn [mbind option_bind].
    replace (off' / 8 * 8 + off' mod 8) with off' by (Z.div_mod_to_equations; lia).
    assert (Hone : exists f1, (if row_bit row off' then protect hs p f else Some f) = Some f1 /\ parity hs f1 (l ++ selected row [(off', p)])).
    { unfold selected. rewrite filter_cons, filter_nil. destruct (row_bit row off') eqn:E.
      - rewrite decide_True by done. by apply protect_parity.
      - rewrite decide_False by (cbn [fst]; congruence). cbn. exists f. by rewrite app_nil_r. }
    destruct Hone as (f1 & -> & Hf1). cbn [mbind option_bind].
    assert (Hsel : l ++ selected row ((off', p) :: placed off' (number p) media) = (l ++ selected row [(off', p)]) ++ selected row (placed off' (number p) media)).
    { rewrite <- app_assoc. f_equal. unfold selected. rewrite !filter_cons, filter_nil. by destruct (decide _). }
    rewrite Hsel. destruct media as [|q media]; [exists f1; unfold selected at 2; cbn; by rewrite app_nil_r|].
    pose proof Hm as [Hq _]%list.Forall_cons. destruct (ParseSequenceNumber_number q Hq) as [-> _]. cbn [mbind option_bind].
    destruct (IH off' (number p) f1 (l ++ selected row [(off', p)]) Hm Hpl Hoff' Hf1) as (f' & E & Hf'). cbv zeta in E. exists f'. split; [|exact Hf'].
    rewrite <- E. f_equal; Z.div_mod_to_equations; lia.
Qed.

(** ** The header *)

(** The finished FEC packet over [l], with the row of the masks it was made of. *)
Record fec_over (base : Z) (row : list Z) (l : list Packet) (f : Packet) : Prop := {
  fo_buffer : is_buffer (fp_data f);
  fo_size : zlen row = kUlpfecPacketMaskSizeLBitClear \/ zlen row = kUlpfecPacketMaskSizeLBitSet;
  fo_length : fp_length f = UlpfecHeaderSize (zlen row) + max_payload l;
  fo_flag : Z.testbit (get0 (fp_data f) 0) 6 = (zlen row =? kUlpfecPacketMaskSizeLBitSet);
  fo_first : forall n, 0 <= n < 6 -> Z.testbit (get0 (fp_data f) 0) n = Z.testbit (xsum (recovery_byte 0) l) n;
  fo_header : forall j, j = 1 \/ 4 <= j < 8 -> get0 (fp_data f) j = xsum (recovery_byte j) l;
  fo_base : forall j, 0 <= j < 2 -> get0 (fp_data f) (2 + j) = get0 (be_bytes 2 base) j;
  fo_recovery : forall j, 0 <= j < 2 -> get0 (fp_data f) (8 + j) = xsum (recovery_byte (2 + j)) l;
  fo_protection : forall j, 0 <= j < 2 -> get0 (fp_data f) (10 + j) = get0 (be_bytes 2 (max_payload l)) j;
  fo_row : forall j, 0 <= j < zlen row -> get0 (fp_data f) (12 + j) = get0 row j;
  fo_payload : forall i, 0 <= i -> UlpfecHeaderSize (zlen row) + i < IP_PACKET_SIZE ->
    get0 (fp_data f) (UlpfecHeaderSize (zlen row) + i) = xsum (payload_byte i) l;
}.

Lemma max_payload_bound l : Forall media_ok l -> max_payload l <= 1476.
Proof.
  unfold max_payload. induction 1 as [|p l [_ Hp _] Hl IH]; cbn [fold_right]; [lia|]. unfold payload_len, kRtpHeaderSize, IP_PACKET_SIZE in *. lia.
Qed.

Lemma header_size row : zlen row = kUlpfecPacketMaskSizeLBitClear \/ zlen row = kUlpfecPacketMaskSizeLBitSet ->
  UlpfecHeaderSize (zlen row) = 12 + zlen row /\ 12 <= UlpfecHeaderSize (zlen row) <= 18.
Proof. intros [->| ->]; done. Qed.

Lemma xsum_media_u8 f l : Forall media_ok l -> (forall p, media_ok p -> is_u8 (f p)) -> is_u8 (xsum f l).
Proof. intros Hl Hf. induction Hl as [|p l Hp Hl IH]; cbn; [unfold is_u8; lia|]. apply u8_lxor; [by apply Hf|done]. Qed.

(** The bytes of a packet while it is made are bytes. *)
Lemma parity_u8 hs f l : parity hs f l -> 8 <= hs -> Forall media_ok l -> Forall is_u8 (fp_data f).
Proof.
  intros [H1 H2 H3 H4 H5] Hhs Hl. apply Forall_get0. intros i Hi. rewrite H1 in Hi.
  destruct (decide (i < 8)); [rewrite H3 by lia; apply xsum_media_u8; [done|]; intros p; apply recovery_u8|].
  destruct (decide (i < hs)); [rewrite H4 by lia; unfold is_u8; lia|].
  replace i with (hs + (i - hs)) by lia. rewrite H5 by lia. apply xsum_media_u8; [done|]. intros p. apply payload_u8.
Qed.

Lemma flag_bits x (l_bit : bool) n :
  0 <= n -> Z.testbit (if l_bit then Z.lor (Z.land x 0x7f) 0x40 else Z.land (Z.land x 0x7f) 0xbf) n =
    if n =? 6 then l_bit else (n <? 6) && Z.testbit x n.
Proof.
  intros Hn. assert (H7 : Z.testbit 0x7f n = (n <? 7)) by (change 0x7f with (Z.ones 7); rewrite Z.testbit_ones_nonneg by lia; done).
  assert (H40 : Z.testbit 0x40 n = (n =? 6)) by (change 0x40 with (2 ^ 6); by rewrite Z.pow2_bits_eqb, Z.eqb_sym by lia).
  assert (Hbf : n < 6 -> Z.testbit 0xbf n = true).
  { intros H6. assert (Hc : n = 0 \/ n = 1 \/ n = 2 \/ n = 3 \/ n = 4 \/ n = 5) by lia. by destruct Hc as [->|[->|[->|[->|[->| ->]]]]]. }
  assert (Hc : n = 6 \/ n < 6 \/ 7 <= n) by lia. destruct Hc as [->|[Hc|Hc]].
  - destruct l_bit; rewrite ?Z.lor_spec, !Z.land_spec; [by rewrite orb_true_r|by rewrite andb_false_r].
  - rewrite (proj2 (Z.eqb_neq n 6)), (proj2 (Z.ltb_lt n 6)) by lia. cbn [andb].
    destruct l_bit; rewrite ?Z.lor_spec, !Z.land_spec, H7, ?H40, ?Hbf, (proj2 (Z.ltb_lt n 7)) by lia;
      rewrite ?(proj2 (Z.eqb_neq n 6)) by lia; by rewrite ?andb_true_r, ?orb_false_r.
  - rewrite (proj2 (Z.eqb_neq n 6)), (proj2 (Z.ltb_ge n 6)) by lia. cbn [andb].
    destruct l_bit; rewrite ?Z.lor_spec, !Z.land_spec, H7, ?H40, (proj2 (Z.ltb_ge n 7)) by lia;
      rewrite ?(proj2 (Z.eqb_neq n 6)) by lia; by rewrite ?andb_false_r.
Qed.

(** Decide which place of an array is meant. *)
Ltac places :=
  repeat match goal with
  | |- context [?a <=? ?b] => first [rewrite (proj2 (Z.leb_le a b)) by lia | rewrite (proj2 (Z.leb_gt a b)) by lia]
  | |- context [?a <? ?b] => first [rewrite (proj2 (Z.ltb_lt a b)) by lia | rewrite (proj2 (Z.ltb_ge a b)) by lia]
  | |- context [?a =? ?b] => first [rewrite (proj2 (Z.eqb_eq a b)) by lia | rewrite (proj2 (Z.eqb_neq a b)) by lia]
  end; cbn [andb].

Lemma FinalizeFecHeader_over base row hs f l :
  parity hs f l -> l <> [] -> Forall media_ok l -> Forall is_u8 row -> zlen row = kUlpfecPacketMaskSizeLBitClear \/ zlen row = kUlpfecPacketMaskSizeLBitSet ->
  hs = UlpfecHeaderSize (zlen row) -> exists f', FinalizeFecHeader base row (zlen row) f = Some f' /\ fec_over base row l f'.
Proof.
  intros Hpar Hne Hl Hrow Hsize ->. pose proof (header_size row Hsize) as [Ehs Hhs]. pose proof (parity_u8 _ _ _ Hpar ltac:(lia) Hl) as Hu.
  destruct Hpar as [H1 H2 H3 H4 H5]. pose proof (max_payload_bound l Hl) as Hmax. pose proof (max_payload_nonneg l) as Hmax0.
  assert (Hlen : fp_length f - UlpfecHeaderSize (zlen row) = max_payload l) by (rewrite H2; destruct l; [done|lia]).
  unfold FinalizeFecHeader. cbv zeta. rewrite Hlen, (u16_id (max_payload l)) by (unfold is_u16; lia).
  assert (Hsz : 2 <= zlen row <= 6) by (destruct Hsize as [->| ->]; done || (unfold kUlpfecPacketMaskSizeLBitClear, kUlpfecPacketMaskSizeLBitSet; lia)).
  unfold IP_PACKET_SIZE in *. set (l_bit := zlen row =? kUlpfecPacketMaskSizeLBitSet).
  destruct (change_at_Some (fp_data f) 0 (fun b => Z.land b 0x7f)) as (d1 & -> & Hl1 & Hg1); [lia|]. cbn [mbind option_bind].
  destruct (change_at_Some d1 0 (fun b => if l_bit then Z.lor b 0x40 else Z.land b 0xbf)) as (d2 & -> & Hl2 & Hg2); [lia|]. cbn [mbind option_bind].
  unfold memmove. destruct (copy_get0 d2 2 2 d2 8) as (b3 & d3 & -> & E3 & Hl3 & Hg3); [lia..|]. cbn [mbind option_bind]. rewrite E3. cbn [mbind option_bind].
  destruct (WriteBigEndian_get0 2 d3 2 base) as (d4 & -> & Hl4 & Hg4); [lia..|]. cbn [mbind option_bind].
  destruct (WriteBigEndian_get0 2 d4 10 (max_payload l)) as (d5 & -> & Hl5 & Hg5); [lia..|]. cbn [mbind option_bind].
  destruct (copy_get0 row 0 (zlen row) d5 12) as (b6 & d6 & -> & E6 & Hl6 & Hg6); [lia..|]. cbn [mbind option_bind]. rewrite E6. cbn [mbind option_bind].
  assert (G : forall j, get0 d6 j = if (12 <=? j) && (j <? 12 + zlen row) then get0 row (0 + (j - 12)) else
    if (10 <=? j) && (j <? 10 + Z.of_nat 2) then get0 (be_bytes 2 (max_payload l)) (j - 10) else
    if (2 <=? j) && (j <? 2 + Z.of_nat 2) then get0 (be_bytes 2 base) (j - 2) else
    if (8 <=? j) && (j <? 8 + 2) then get0 (fp_data f) (2 + (j - 8)) else
    if j =? 0 then (if l_bit then Z.lor (Z.land (get0 (fp_data f) 0) 0x7f) 0x40 else Z.land (Z.land (get0 (fp_data f) 0) 0x7f) 0xbf) else get0 (fp_data f) j).
  { intros j. rewrite Hg6, Hg5, Hg4, Hg3. destruct (_ && _); [done|]. destruct (_ && _); [done|]. destruct (_ && _); [done|].
    destruct ((8 <=? j) && (j <? 8 + 2)) eqn:E8; rewrite Hg2, Hg1; [|by destruct (Z.eqb_spec j 0) as [->|]].
    rewrite andb_true_iff, Z.leb_le in E8. by places. }
  clear Hg1 Hg2 Hg3 Hg4 Hg5 Hg6. eexists. split; [reflexivity|].
  assert (Hbits : forall n, 0 <= n -> Z.testbit (get0 d6 0) n = if n =? 6 then l_bit else (n <? 6) && Z.testbit (get0 (fp_data f) 0) n)
    by (intros n Hn; rewrite G; places; by apply flag_bits).
  split; cbn [set fp_data fp_length]; rewrite ?Ehs; try done.
  - split; [unfold IP_PACKET_SIZE; lia|]. apply Forall_get0. intros i _. rewrite G. repeat (destruct (_ && _); [apply get0_u8; done || apply be_bytes_u8|]).
    destruct (i =? 0); [|by apply get0_u8]. pose proof (get0_u8 (fp_data f) 0 Hu) as Hb. destruct l_bit; [apply u8_lor; [|clia]|]; by repeat apply u8_land.
  - lia.
  - by rewrite Hbits by lia.
  - intros n Hn. rewrite Hbits by lia. places. by rewrite H3.
  - intros j [->|Hj]; rewrite G; places; by rewrite H3 by lia.
  - intros j Hj. rewrite G. places. f_equal. lia.
  - intros j Hj. rewrite G. places. rewrite H3 by lia. f_equal. f_equal. lia.
  - intros j Hj. rewrite G. places. f_equal. lia.
  - intros j Hj. rewrite G. places. f_equal. lia.
  - intros i Hi Hi'. rewrite G. places. rewrite <- Ehs. apply H5; [done|]. rewrite Ehs. done.
Qed.
