(* ===== verification/FecMasks.v ===== *)
(** * Forward error correction: masks

    [InsertZerosInPacketMasks] with [CopyColumn] and [InsertZeroColumns] of
    forward_error_correction_internal.cc: the masks are made for packets without gaps,
    and their columns are moved to the places of the packets. A mask is one row of bytes
    for each FEC packet; [None] is an access beyond a row, or a failed check. *)

From S2P Require Import Prelude ByteIo Rtcp FecPacket FecParity.

Open Scope Z_scope.
Open Scope c_scope.

(** ** Definitions *)

Definition PacketMaskSize (num_sequence_numbers : Z) : Z :=
  if 8 * kUlpfecPacketMaskSizeLBitClear <? num_sequence_numbers then kUlpfecPacketMaskSizeLBitSet else kUlpfecPacketMaskSizeLBitClear.

(** A row of the new masks with the row of the old ones *)
Definition Rows : Type := list Z * list Z.

Definition insert_zeros_row (num_zeros new_bit_index : Z) (rows : Rows) : option Rows :=
  let '(new_row, old_row) := rows in
  new_row ← change_at new_row (new_bit_index / 8) (fun b => u8 (Z.shiftl b (Z.min num_zeros (7 - new_bit_index mod 8))));
  Some (new_row, old_row).

Definition InsertZeroColumns (num_zeros new_bit_index : Z) (masks : list Rows) : option (list Rows) := mapM (insert_zeros_row num_zeros new_bit_index) masks.

Definition copy_row (new_bit_index old_bit_index : Z) (rows : Rows) : option Rows :=
  let '(new_row, old_row) := rows in
  old ← zget old_row (old_bit_index / 8);
  new_row ← change_at new_row (new_bit_index / 8) (fun b => Z.lor b (Z.shiftr (Z.land old 0x80) 7));
  new_row ← (if negb (new_bit_index mod 8 =? 7) then change_at new_row (new_bit_index / 8) (fun b => u8 (Z.shiftl b 1)) else Some new_row);
  old_row ← change_at old_row (old_bit_index / 8) (fun b => u8 (Z.shiftl b 1));
  Some (new_row, old_row).

Definition CopyColumn (new_mask_bytes new_bit_index old_bit_index : Z) (masks : list Rows) : option (list Rows) :=
  if new_bit_index <? 8 * new_mask_bytes then mapM (copy_row new_bit_index old_bit_index) masks else None.

(** The loop over the packets after the first *)
Fixpoint insert_zeros (tmp_packet_mask_size : Z) (media_packets : list Packet) (prev_seq_num new_bit_index old_bit_index : Z) (masks : list Rows)
  : option (Z * list Rows) :=
  match media_packets with
  | [] => Some (new_bit_index, masks)
  | media_packet :: rest =>
      if new_bit_index =? kMaxMediaPackets then Some (new_bit_index, masks)
      else
        seq_num ← ParseSequenceNumber media_packet;
        let num_zeros_to_insert := u16 (seq_num - prev_seq_num - 1) in
        masks ← (if 0 <? num_zeros_to_insert then InsertZeroColumns num_zeros_to_insert new_bit_index masks else Some masks);
        let new_bit_index := new_bit_index + num_zeros_to_insert in
        masks ← CopyColumn tmp_packet_mask_size new_bit_index old_bit_index masks;
        insert_zeros tmp_packet_mask_size rest seq_num (new_bit_index + 1) (old_bit_index + 1) masks
  end.

(** The last byte of a row *)
Definition shift_row (new_bit_index : Z) (rows : Rows) : option Rows :=
  let '(new_row, old_row) := rows in
  new_row ← change_at new_row (new_bit_index / 8) (fun b => u8 (Z.shiftl b (7 - new_bit_index mod 8)));
  Some (new_row, old_row).

(** The result is the number of bits of the masks, or -1, with the masks. *)
Definition InsertZerosInPacketMasks (media_packets : list Packet) (packet_masks : list (list Z)) : option (Z * list (list Z)) :=
  let num_media_packets := Z.of_nat (length media_packets) in
  match media_packets with
  | front :: rest =>
      if num_media_packets <=? 1 then Some (num_media_packets, packet_masks)
      else
        last_seq_num ← ParseSequenceNumber (List.last media_packets front);
        first_seq_num ← ParseSequenceNumber front;
        let total_missing_seq_nums := u64 (u16 (last_seq_num - first_seq_num) - num_media_packets + 1) in
        if total_missing_seq_nums =? 0 then Some (num_media_packets, packet_masks)
        else if kMaxMediaPackets <? u64 (total_missing_seq_nums + num_media_packets) then Some (-1, packet_masks)
        else
          let tmp_packet_mask_size := PacketMaskSize (u64 (total_missing_seq_nums + num_media_packets)) in
          masks ← CopyColumn tmp_packet_mask_size 0 0 (map (fun row => (replicate (Z.to_nat tmp_packet_mask_size) 0, row)) packet_masks);
          result ← insert_zeros tmp_packet_mask_size rest first_seq_num 1 1 masks;
          let '(new_bit_index, masks) := (result : Z * list Rows) in
          masks ← (if negb (new_bit_index mod 8 =? 0) then mapM (shift_row new_bit_index) masks else Some masks);
          Some (new_bit_index, map fst masks)
  | [] => Some (num_media_packets, packet_masks)
  end.

(** ** One row *)

Section row.
(** The bits of the finished row, and the old row *)
Context (W : Z -> bool) (old0 : list Z) (size : Z).

(** [n] bits are made of the first [o] bits of the old row, which are shifted out; the
    byte in progress holds its bits at its low end, above a place for the next one. *)
Record spreading (n o : Z) (rows : Rows) : Prop := {
  sp_new : zlen (fst rows) = size /\ Forall is_u8 (fst rows);
  sp_old : zlen (snd rows) = zlen old0 /\ Forall is_u8 (snd rows);
  sp_bits : forall b j, 0 <= b < size -> 0 <= j < 8 -> Z.testbit (get0 (fst rows) b) j =
    if b <? n / 8 then W (8 * b + 7 - j) else if b =? n / 8 then (1 <=? j) && (j <=? n mod 8) && W (8 * b + n mod 8 - j) else false;
  sp_rest : forall b j, o / 8 <= b < zlen old0 -> 0 <= j < 8 -> Z.testbit (get0 (snd rows) b) j =
    let s := if b =? o / 8 then o mod 8 else 0 in (s <=? j) && Z.testbit (get0 old0 b) (j - s);
}.

Lemma testbit_u8 x j : 0 <= j < 8 -> Z.testbit (u8 x) j = Z.testbit x j.
Proof. intros Hj. unfold u8. apply Z.mod_pow2_bits_low. lia. Qed.

Lemma testbit_shl x s j : 0 <= s -> 0 <= j < 8 -> Z.testbit (u8 (Z.shiftl x s)) j = (s <=? j) && Z.testbit x (j - s).
Proof.
  intros Hs Hj. rewrite testbit_u8, Z.shiftl_spec by lia. destruct (Z.leb_spec s j); [done|]. by rewrite Z.testbit_neg_r by lia.
Qed.

Lemma change_u8 d i f : 0 <= i < zlen d -> Forall is_u8 d -> (forall x, is_u8 x -> is_u8 (f x)) ->
  exists d', change_at d i f = Some d' /\ zlen d' = zlen d /\ Forall is_u8 d' /\ forall j, get0 d' j = if j =? i then f (get0 d j) else get0 d j.
Proof.
  intros Hi Hu Hf. destruct (change_at_Some d i f Hi) as (d' & E & Hl & Hg). exists d'. split_and!; [done|done| |done].
  apply Forall_get0. intros j _. rewrite Hg. destruct (j =? i); [apply Hf|]; by apply get0_u8.
Qed.

Lemma insert_zeros_row_spreading n o z rows :
  spreading n o rows -> 0 <= n < 8 * size -> 0 < z -> (forall k, n <= k < n + z -> W k = false) ->
  exists rows', insert_zeros_row z n rows = Some rows' /\ spreading (n + z) o rows'.
Proof.
  destruct rows as [new old]. intros [[H1 H2] H3 H4 H5] Hn Hz HW. cbn [fst snd] in *. unfold insert_zeros_row.
  set (s := Z.min z (7 - n mod 8)). assert (Hs : 0 <= s) by (subst s; Z.div_mod_to_equations; lia).
  destruct (change_u8 new (n / 8) (fun b => u8 (Z.shiftl b s))) as (d & -> & Hd & Hu & Hg);
    [Z.div_mod_to_equations; lia|done|intros x _; apply u8_range|]. cbn [mbind option_bind].
  eexists. split; [reflexivity|]. split; cbn [fst snd]; [by rewrite Hd|done| |done]. intros b j Hb Hj. rewrite Hg.
  assert (Hdm : n = 8 * (n / 8) + n mod 8 /\ 0 <= n mod 8 < 8) by (Z.div_mod_to_equations; lia).
  assert (Hdm' : n + z = 8 * ((n + z) / 8) + (n + z) mod 8 /\ 0 <= (n + z) mod 8 < 8) by (Z.div_mod_to_equations; lia).
  destruct (Z.eqb_spec b (n / 8)) as [->|Hne].
  - rewrite testbit_shl by done. destruct (Z.leb_spec s j) as [Hsj|Hsj]; cbn [andb].
    + rewrite H4 by lia. rewrite (proj2 (Z.ltb_ge _ _)), Z.eqb_refl by lia. destruct (Z.ltb_spec (n / 8) ((n + z) / 8)).
      * destruct (Z.leb_spec 1 (j - s)), (Z.leb_spec (j - s) (n mod 8)); cbn [andb]; try lia; [f_equal; lia|symmetry; apply HW; lia].
      * rewrite (proj2 (Z.eqb_eq _ _)) by lia.
        destruct (Z.leb_spec 1 (j - s)), (Z.leb_spec (j - s) (n mod 8)), (Z.leb_spec 1 j), (Z.leb_spec j ((n + z) mod 8)); cbn [andb]; try lia; try done;
          try (f_equal; lia); symmetry; apply HW; lia.
    + destruct (Z.ltb_spec (n / 8) ((n + z) / 8)).
      * symmetry. apply HW. lia.
      * rewrite (proj2 (Z.eqb_eq _ _)) by lia. destruct (Z.leb_spec 1 j), (Z.leb_spec j ((n + z) mod 8)); cbn [andb]; try done. symmetry. apply HW. lia.
  - rewrite H4 by done. destruct (Z.ltb_spec b (n / 8)).
    + by rewrite (proj2 (Z.ltb_lt b ((n + z) / 8))) by lia.
    + rewrite (proj2 (Z.eqb_neq _ _)) by done. destruct (Z.ltb_spec b ((n + z) / 8)); [symmetry; apply HW; lia|].
      destruct (Z.eqb_spec b ((n + z) / 8)); [|done]. destruct (Z.leb_spec 1 j), (Z.leb_spec j ((n + z) mod 8)); cbn [andb]; try done. symmetry. apply HW. lia.
Qed.

(** The highest bit of the old byte *)
Lemma highest_bit x j : 0 <= j < 8 -> Z.testbit (Z.shiftr (Z.land x 0x80) 7) j = (j =? 0) && Z.testbit x 7.
Proof.
  intros Hj. change 0x80 with (2 ^ 7). rewrite Z.shiftr_spec, Z.land_spec, Z.pow2_bits_eqb by lia.
  destruct (Z.eqb_spec j 0) as [->|]; [by rewrite andb_true_r|]. rewrite (proj2 (Z.eqb_neq _ _)) by lia. by rewrite andb_false_r.
Qed.

Lemma highest_bit_u8 x : is_u8 (Z.shiftr (Z.land x 0x80) 7).
Proof.
  rewrite shiftr_div by lia. change (2 ^ 7) with 128. pose proof (Z.land_nonneg x 0x80) as H0. pose proof (Z.log2_land (Z.abs x) 0x80).
  assert (H1 : Z.land x 0x80 = 0 \/ Z.land x 0x80 = 0x80).
  { change 0x80 with (Z.shiftl 1 7). pose proof (land_bit x 7 ltac:(lia)) as E. destruct (Z.eqb_spec (Z.land x (Z.shiftl 1 7)) 0) as [E0|E0]; [by left|right].
    apply Z.bits_inj'. intros n Hn. rewrite Z.land_spec. change (Z.shiftl 1 7) with (2 ^ 7). rewrite Z.pow2_bits_eqb by lia.
    destruct (Z.eqb_spec 7 n) as [<-|]; [|by rewrite andb_false_r]. destruct (Z.testbit x 7); done. }
  unfold is_u8. destruct H1 as [->| ->]; split; done.
Qed.

Lemma copy_row_spreading n o rows :
  spreading n o rows -> 0 <= n < 8 * size -> 0 <= o < 8 * zlen old0 -> W n = row_bit old0 o ->
  exists rows', copy_row n o rows = Some rows' /\ spreading (n + 1) (o + 1) rows'.
Proof.
  destruct rows as [new old]. intros [[H1 H2] [H3 H3'] H4 H5] Hn Ho HW. cbn [fst snd] in *. unfold copy_row.
  assert (Hdn : n = 8 * (n / 8) + n mod 8 /\ 0 <= n mod 8 < 8) by (Z.div_mod_to_equations; lia).
  assert (Hdo : o = 8 * (o / 8) + o mod 8 /\ 0 <= o mod 8 < 8) by (Z.div_mod_to_equations; lia).
  assert (Hdn' : n + 1 = 8 * ((n + 1) / 8) + (n + 1) mod 8 /\ 0 <= (n + 1) mod 8 < 8) by (Z.div_mod_to_equations; lia).
  assert (Hdo' : o + 1 = 8 * ((o + 1) / 8) + (o + 1) mod 8 /\ 0 <= (o + 1) mod 8 < 8) by (Z.div_mod_to_equations; lia).
  rewrite get0_zget by lia. cbn [mbind option_bind].
  assert (Htop : Z.testbit (get0 old (o / 8)) 7 = W n).
  { rewrite H5 by lia. cbv zeta. rewrite Z.eqb_refl, (proj2 (Z.leb_le _ _)), HW by lia. done. }
  set (v := Z.shiftr (Z.land (get0 old (o / 8)) 0x80) 7).
  assert (Hv : forall j, 0 <= j < 8 -> Z.testbit v j = (j =? 0) && W n) by (intros j Hj; unfold v; by rewrite highest_bit, Htop).
  destruct (change_u8 new (n / 8) (fun b => Z.lor b v)) as (d1 & -> & Hd1 & Hu1 & Hg1); [lia|done|intros x Hx; by apply u8_lor, highest_bit_u8|]. cbn [mbind option_bind].
  assert (Hmid : exists d2, (if negb (n mod 8 =? 7) then change_at d1 (n / 8) (fun b => u8 (Z.shiftl b 1)) else Some d1) = Some d2 /\ zlen d2 = size /\ Forall is_u8 d2 /\
    forall j, get0 d2 j = if j =? n / 8 then (if n mod 8 =? 7 then Z.lor (get0 new j) v else u8 (Z.shiftl (Z.lor (get0 new j) v) 1)) else get0 new j).
  { destruct (Z.eqb_spec (n mod 8) 7) as [E|E]; cbn [negb].
    - exists d1. split_and!; [done|lia|done|]. intros j. apply Hg1.
    - destruct (change_u8 d1 (n / 8) (fun b => u8 (Z.shiftl b 1))) as (d2 & -> & Hd2 & Hu2 & Hg2); [lia|done|intros x _; apply u8_range|].
      exists d2. split_and!; [done|lia|done|]. intros j. rewrite Hg2, Hg1. by destruct (j =? n / 8). }
  destruct Hmid as (d2 & -> & Hd2 & Hu2 & Hg2). cbn [mbind option_bind]. clear d1 Hd1 Hu1 Hg1.
  destruct (change_u8 old (o / 8) (fun b => u8 (Z.shiftl b 1))) as (d3 & -> & Hd3 & Hu3 & Hg3); [lia|done|intros x _; apply u8_range|]. cbn [mbind option_bind].
  eexists. split; [reflexivity|]. split; cbn [fst snd]; [done|by rewrite Hd3|..].
  - intros b j Hb Hj. rewrite Hg2. destruct (Z.eqb_spec b (n / 8)) as [->|Hne].
    + destruct (Z.eqb_spec (n mod 8) 7) as [E|E].
      * rewrite (proj2 (Z.ltb_lt _ _)) by lia. rewrite Z.lor_spec, Hv, H4, (proj2 (Z.ltb_ge _ _)), Z.eqb_refl by lia.
        destruct (Z.eqb_spec j 0) as [->|]; cbn [andb Z.leb Z.compare]; [cbn; f_equal; lia|]. rewrite orb_false_r, (proj2 (Z.leb_le 1 j)), (proj2 (Z.leb_le j _)) by lia.
        cbn [andb]. f_equal. lia.
      * rewrite (proj2 (Z.ltb_ge _ _)), (proj2 (Z.eqb_eq _ _)) by lia. rewrite testbit_shl by lia. destruct (Z.leb_spec 1 j); cbn [andb]; [|done].
        rewrite Z.lor_spec, Hv, H4, (proj2 (Z.ltb_ge _ _)), Z.eqb_refl by lia. destruct (Z.eqb_spec (j - 1) 0).
        -- rewrite (proj2 (Z.leb_gt 1 (j - 1))), (proj2 (Z.leb_le j _)) by lia. cbn [andb orb]. f_equal. lia.
        -- rewrite (proj2 (Z.leb_le 1 (j - 1))), orb_false_r by lia. cbn [andb]. replace (j - 1 <=? n mod 8) with (j <=? (n + 1) mod 8) by lia.
           destruct (_ <=? _); [|done]. cbn [andb]. f_equal. lia.
    + rewrite H4 by done. destruct (Z.ltb_spec b (n / 8)); [by rewrite (proj2 (Z.ltb_lt b ((n + 1) / 8))) by lia|]. rewrite (proj2 (Z.eqb_neq b (n / 8))) by done.
      rewrite (proj2 (Z.ltb_ge b ((n + 1) / 8))) by lia. destruct (Z.eqb_spec b ((n + 1) / 8)); [|done].
      destruct (Z.leb_spec 1 j), (Z.leb_spec j ((n + 1) mod 8)); cbn [andb]; done || lia.
  - intros b j Hb Hj. cbv zeta. rewrite Hg3. destruct (Z.eqb_spec b (o / 8)) as [->|Hne].
    + rewrite testbit_shl by lia. rewrite (proj2 (Z.eqb_eq (o / 8) ((o + 1) / 8))) by lia. destruct (Z.leb_spec 1 j); cbn [andb].
      * rewrite H5 by lia. cbv zeta. rewrite Z.eqb_refl. replace (o mod 8 <=? j - 1) with ((o + 1) mod 8 <=? j) by lia. do 2 f_equal. lia.
      * by rewrite (proj2 (Z.leb_gt _ _)) by lia.
    + rewrite H5 by lia. cbv zeta. rewrite (proj2 (Z.eqb_neq b (o / 8))) by done. destruct (Z.eqb_spec b ((o + 1) / 8)); [|done].
      by replace ((o + 1) mod 8) with 0 by lia.
Qed.
End row.

(** ** All rows *)

Lemma mapM_Forall2 {A B C} (R : A -> Prop) (P : A -> B -> Prop) (Q : A -> C -> Prop) (f : B -> option C) (l : list A) (k : list B) :
  Forall2 P l k -> Forall R l -> (forall a b, R a -> P a b -> exists c, f b = Some c /\ Q a c) -> exists k', mapM f k = Some k' /\ Forall2 Q l k'.
Proof.
  intros Hlk Hl Hf. induction Hlk as [|a b l k Hab Hlk IH]; [by exists []|]. apply list.Forall_cons in Hl as [Ha Hl]. cbn [mapM].
  destruct (Hf a b Ha Hab) as (c & -> & Hc). destruct (IH Hl) as (k' & -> & Hk). exists (c :: k'). split; [done|]. by constructor.
Qed.

(** The bit of the old row that belongs at the place [k]; [i] is the first of its bits. *)
Fixpoint want (row : list Z) (i : Z) (ps : list Z) (k : Z) : bool :=
  match ps with
  | [] => false
  | p :: ps => if p =? k then row_bit row i else want row (i + 1) ps k
  end.

(** The places [ps] are increasing, from [n] on. *)
Fixpoint increasing (n : Z) (ps : list Z) : Prop :=
  match ps with
  | [] => True
  | p :: ps => n <= p /\ increasing (p + 1) ps
  end.

(** The bits [W] are those of the old row at the places, and zero between them. *)
Fixpoint follows (W : Z -> bool) (row : list Z) (o n : Z) (ps : list Z) : Prop :=
  match ps with
  | [] => True
  | p :: ps => n <= p /\ (forall k, n <= k < p -> W k = false) /\ W p = row_bit row o /\ follows W row (o + 1) (p + 1) ps
  end.

Lemma increasing_ge n ps : increasing n ps -> Forall (fun p => n <= p) ps.
Proof.
  revert n. induction ps as [|p ps IH]; intros n; cbn [increasing]; [constructor|]. intros [Hp Hps]. constructor; [done|].
  eapply list.Forall_impl; [exact (IH _ Hps)|]. cbv beta. lia.
Qed.

Lemma want_other row i ps k : Forall (fun p => p <> k) ps -> want row i ps k = false.
Proof. intros Hp. revert i. induction Hp as [|p ps Hp Hps IH]; intros i; cbn [want]; [done|]. by rewrite (proj2 (Z.eqb_neq p k)). Qed.

Lemma want_follows W row o n ps : increasing n ps -> (forall k, n <= k -> W k = want row o ps k) -> follows W row o n ps.
Proof.
  revert o n. induction ps as [|p ps IH]; intros o n; cbn [increasing follows want]; [done|]. intros [Hp Hps] HW.
  pose proof (increasing_ge _ _ Hps) as Hge. split_and!; [done|..].
  - intros k Hk. rewrite HW by lia. rewrite (proj2 (Z.eqb_neq p k)) by lia. apply want_other. eapply list.Forall_impl; [exact Hge|]. cbv beta. lia.
  - rewrite HW by lia. by rewrite Z.eqb_refl.
  - apply IH; [done|]. intros k Hk. rewrite HW by lia. by rewrite (proj2 (Z.eqb_neq p k)) by lia.
Qed.

(** ** The numbers of the packets *)

(** No packet has the number of the one before. *)
Fixpoint distinct_next (prev : Z) (media : list Packet) : Prop :=
  match media with
  | [] => True
  | p :: rest => u16 (number p - prev) <> 0 /\ distinct_next (number p) rest
  end.

Fixpoint last_place (off prev : Z) (media : list Packet) : Z :=
  match media with
  | [] => off
  | p :: rest => last_place (off + u16 (number p - prev)) (number p) rest
  end.

Definition places_of (off prev : Z) (media : list Packet) : list Z := map fst (placed off prev media).

Lemma places_increasing off prev media : distinct_next prev media -> increasing (off + 1) (places_of off prev media).
Proof.
  revert off prev. induction media as [|p media IH]; intros off prev; cbn; [done|]. intros [Hd Hm]. pose proof (u16_range (number p - prev)) as Hr.
  unfold is_u16 in Hr. split; [lia|]. by apply IH.
Qed.

Lemma last_place_bounds off prev media : distinct_next prev media ->
  off + Z.of_nat (length media) <= last_place off prev media /\ Forall (fun p => p <= last_place off prev media) (places_of off prev media).
Proof.
  revert off prev. induction media as [|p media IH]; intros off prev; cbn [distinct_next last_place length]; [split; [lia|constructor]|]. intros [Hd Hm].
  destruct (IH (off + u16 (number p - prev)) (number p) Hm) as [H1 H2]. pose proof (u16_range (number p - prev)) as Hr. unfold is_u16 in Hr.
  split; [lia|]. cbn. constructor; [lia|done].
Qed.

Lemma last_cons {A} (p q : A) rest : List.last (p :: rest) q = List.last rest p.
Proof. revert p q. induction rest as [|r rest IH]; intros p q; [done|]. change (List.last (p :: r :: rest) q) with (List.last (r :: rest) q). by rewrite !IH. Qed.

Lemma last_place_number off q media : u16 (last_place off (number q) media - off) = u16 (number (List.last media q) - number q).
Proof.
  revert off q. induction media as [|p media IH]; intros off q; [cbn; by rewrite !Z.sub_diag|]. rewrite last_cons. cbn [last_place].
  specialize (IH (off + u16 (number p - number q)) p). unfold u16 in *. change (2 ^ 16) with 65536 in *. Z.div_mod_to_equations. lia.
Qed.

Lemma last_media_ok q media : media_ok q -> Forall media_ok media -> media_ok (List.last media q).
Proof.
  intros Hq Hm. revert q Hq. induction Hm as [|p media Hp Hm IH]; intros q Hq; [done|]. rewrite last_cons. by apply IH.
Qed.

Lemma u64_small x : 0 <= x < 2 ^ 64 -> u64 x = x.
Proof. intros Hx. by apply Z.mod_small. Qed.

Lemma u16_pred x : u16 x <> 0 -> u16 (x - 1) = u16 x - 1.
Proof. unfold u16. change (2 ^ 16) with 65536. intros Hx. Z.div_mod_to_equations. lia. Qed.

(** ** The loop *)

Lemma insert_zeros_spreads W size osize olds media prev off o masks :
  Forall media_ok media -> distinct_next prev media -> Forall (fun p => p < 8 * size) (places_of off prev media) -> 8 * size <= 48 -> 0 <= off -> 0 <= o ->
  o + Z.of_nat (length media) <= 8 * osize ->
  Forall (fun old => zlen old = osize /\ follows (W old) old o (off + 1) (places_of off prev media)) olds ->
  Forall2 (fun old => spreading (W old) old size (off + 1) o) olds masks ->
  let n := last_place off prev media + 1 in
  exists masks', insert_zeros size media prev (off + 1) o masks = Some (n, masks') /\
    Forall2 (fun old => spreading (W old) old size n (o + Z.of_nat (length media))) olds masks'.
Proof.
  intros Hm. revert off prev o masks. induction Hm as [|p media Hp Hm IH]; intros off prev o masks Hd Hpl Hs Hoff Ho Hlen Hol Hsp; cbn [insert_zeros last_place length] in *.
  - exists masks. rewrite Z.add_0_r. done.
  - destruct Hd as [Hd1 Hd2]. unfold places_of in Hpl, Hol. cbn [placed map fst] in Hpl, Hol. fold (places_of (off + u16 (number p - prev)) (number p) media) in Hpl, Hol.
    apply list.Forall_cons in Hpl as [Hpl1 Hpl2]. pose proof (u16_range (number p - prev)) as Hr. unfold is_u16 in Hr.
    rewrite (proj2 (Z.eqb_neq _ _)) by (unfold kMaxMediaPackets; lia). destruct (ParseSequenceNumber_number p Hp) as [-> _]. cbn [mbind option_bind].
    rewrite u16_pred by done. set (z := u16 (number p - prev)) in *.
    assert (Hzero : exists masks1, (if 0 <? z - 1 then InsertZeroColumns (z - 1) (off + 1) masks else Some masks) = Some masks1 /\
      Forall2 (fun old => spreading (W old) old size (off + z) o) olds masks1).
    { destruct (Z.ltb_spec 0 (z - 1)).
      - unfold InsertZeroColumns. eapply mapM_Forall2; [exact Hsp|exact Hol|]. intros old rows [_ (_ & HW & _)] Hrows.
        replace (off + z) with (off + 1 + (z - 1)) by lia. apply insert_zeros_row_spreading; [done|lia|lia|]. intros k Hk. apply HW. lia.
      - exists masks. split; [done|]. by replace (off + z) with (off + 1) by lia. }
    destruct Hzero as (masks1 & -> & Hsp1). cbn [mbind option_bind]. replace (off + 1 + (z - 1)) with (off + z) by lia.
    unfold CopyColumn. rewrite (proj2 (Z.ltb_lt _ _)) by lia.
    destruct (mapM_Forall2 _ _ (fun old => spreading (W old) old size (off + z + 1) (o + 1)) (copy_row (off + z) o) _ _ Hsp1 Hol) as (masks2 & -> & Hsp2).
    { intros old rows [Ho' (_ & _ & HW & _)] Hrows. apply copy_row_spreading; [done|lia|lia|done]. }
    cbn [mbind option_bind]. destruct (IH (off + z) (number p) (o + 1) masks2 Hd2 Hpl2 Hs) as (masks' & E & Hsp'); [lia..| |done|].
    + eapply list.Forall_impl; [exact Hol|]. intros old [H1 (_ & _ & _ & H2)]. done.
    + exists masks'. split; [exact E|]. by replace (o + Z.of_nat (S (length media))) with (o + 1 + Z.of_nat (length media)) by lia.
Qed.

(** ** The finished masks *)

(** The new row has the bits of the old one at the places, and no others. *)
Record spread (ps : list Z) (size : Z) (old new : list Z) : Prop := {
  sd_size : zlen new = size;
  sd_u8 : Forall is_u8 new;
  sd_bits : forall k, 0 <= k < 8 * size -> row_bit new k = want old 0 ps k;
}.

Lemma spreading_done W size old0 rows n o :
  spreading W old0 size n o rows -> 0 <= n <= 8 * size -> (forall k, n <= k -> W k = false) ->
  exists rows', (if negb (n mod 8 =? 0) then shift_row n rows else Some rows) = Some rows' /\ zlen (fst rows') = size /\ Forall is_u8 (fst rows') /\
    forall k, 0 <= k < 8 * size -> row_bit (fst rows') k = W k.
Proof.
  destruct rows as [new old]. intros [[H1 H2] _ H4 _] Hn HW. cbn [fst snd] in *. unfold shift_row.
  assert (Hdn : n = 8 * (n / 8) + n mod 8 /\ 0 <= n mod 8 < 8) by (Z.div_mod_to_equations; lia).
  destruct (Z.eqb_spec (n mod 8) 0) as [E|E]; cbn [negb].
  - exists (new, old). split_and!; [done..|]. intros k Hk. cbn [fst]. unfold row_bit.
    assert (Hdk : k = 8 * (k / 8) + k mod 8 /\ 0 <= k mod 8 < 8) by (Z.div_mod_to_equations; lia). rewrite H4 by lia.
    destruct (Z.ltb_spec (k / 8) (n / 8)); [f_equal; lia|]. rewrite (HW k) by lia. destruct (_ =? _); [|done].
    destruct (Z.leb_spec 1 (7 - k mod 8)), (Z.leb_spec (7 - k mod 8) (n mod 8)); cbn [andb]; done || lia.
  - destruct (change_u8 new (n / 8) (fun b => u8 (Z.shiftl b (7 - n mod 8)))) as (d & -> & Hd & Hu & Hg); [lia|done|intros x _; apply u8_range|].
    cbn [mbind option_bind]. eexists. split; [reflexivity|]. cbn [fst]. split_and!; [lia|done|]. intros k Hk. unfold row_bit.
    assert (Hdk : k = 8 * (k / 8) + k mod 8 /\ 0 <= k mod 8 < 8) by (Z.div_mod_to_equations; lia). rewrite Hg.
    destruct (Z.eqb_spec (k / 8) (n / 8)) as [Ek|Ek].
    + rewrite testbit_shl by lia. destruct (Z.leb_spec (7 - n mod 8) (7 - k mod 8)); cbn [andb]; [|symmetry; apply HW; lia].
      rewrite H4, (proj2 (Z.ltb_ge _ _)), (proj2 (Z.eqb_eq _ _)) by lia.
      destruct (Z.leb_spec 1 (7 - k mod 8 - (7 - n mod 8))), (Z.leb_spec (7 - k mod 8 - (7 - n mod 8)) (n mod 8)); cbn [andb]; try lia; [f_equal; lia|].
      symmetry. apply HW. lia.
    + rewrite H4 by lia. destruct (Z.ltb_spec (k / 8) (n / 8)); [f_equal; lia|]. rewrite (proj2 (Z.eqb_neq _ _)) by done. symmetry. apply HW. lia.
Qed.

Lemma PacketMaskSize_covers n : 0 <= n <= 48 -> n <= 8 * PacketMaskSize n <= 48 /\ (PacketMaskSize n = kUlpfecPacketMaskSizeLBitClear \/ PacketMaskSize n = kUlpfecPacketMaskSizeLBitSet).
Proof. intros Hn. unfold PacketMaskSize, kUlpfecPacketMaskSizeLBitClear, kUlpfecPacketMaskSizeLBitSet. destruct (Z.ltb_spec (8 * 2) n); lia. Qed.

(** The masks before a bit is placed *)
Lemma spreading_start W size old0 : 0 <= size -> Forall is_u8 old0 -> spreading W old0 size 0 0 (replicate (Z.to_nat size) 0, old0).
Proof.
  intros Hs Hold. split; cbn [fst snd].
  - split; [rewrite zlen_replicate; lia|]. apply list.Forall_replicate. unfold is_u8. lia.
  - done.
  - intros b j Hb Hj. change (0 / 8) with 0. change (0 mod 8) with 0. rewrite (proj2 (Z.ltb_ge b 0)) by lia.
    assert (E : get0 (replicate (Z.to_nat size) 0) b = 0).
    { unfold get0, zget. rewrite (proj2 (Z.ltb_ge b 0)) by lia. rewrite lookup_replicate_2 by lia. done. }
    rewrite E, Z.bits_0. destruct (b =? 0); [|done]. destruct (Z.leb_spec 1 j), (Z.leb_spec j 0); cbn [andb]; done || lia.
  - intros b j Hb Hj. cbv zeta. change (0 / 8) with 0. change (0 mod 8) with 0. assert (Es : (if b =? 0 then 0 else 0) = 0) by by destruct (b =? 0).
    rewrite Es, Z.sub_0_r, (proj2 (Z.leb_le 0 j)) by lia. done.
Qed.

(** What the masks of [n] packets must be: one row for each FEC packet. *)
Record masks_for (n : Z) (masks : list (list Z)) : Prop := {
  mf_rows : Forall (fun row => zlen row = PacketMaskSize n /\ Forall is_u8 row) masks;
  mf_beyond : Forall (fun row => forall k, n <= k < 8 * PacketMaskSize n -> row_bit row k = false) masks;
}.

(** With gaps between the packets that the masks can span, the columns move to the
    places of the packets. *)
Lemma InsertZeros_gaps front rest masks :
  let n := Z.of_nat (length (front :: rest)) in
  let last := last_place 0 (number front) rest in
  2 <= n -> media_ok front -> Forall media_ok rest -> distinct_next (number front) rest -> masks_for n masks -> n <= last < kMaxMediaPackets ->
  exists masks', InsertZerosInPacketMasks (front :: rest) masks = Some (last + 1, masks') /\
    Forall2 (spread (0 :: places_of 0 (number front) rest) (PacketMaskSize (last + 1))) masks masks'.
Proof.
  intros n last Hn Hfront Hrest Hd [Hmasks _] Hlast. unfold kMaxMediaPackets in *. unfold InsertZerosInPacketMasks. fold n. cbv zeta.
  rewrite (proj2 (Z.leb_gt n 1)) by lia. rewrite last_cons.
  destruct (ParseSequenceNumber_number _ (last_media_ok front rest Hfront Hrest)) as [-> _]. destruct (ParseSequenceNumber_number front Hfront) as [-> _].
  cbn [mbind option_bind]. rewrite <- (last_place_number 0 front rest), Z.sub_0_r. fold last. rewrite (u16_id last) by (unfold is_u16; lia).
  rewrite (u64_small (last - n + 1)) by lia. rewrite (proj2 (Z.eqb_neq _ 0)) by lia. replace (last - n + 1 + n) with (last + 1) by lia.
  rewrite u64_small by lia. unfold kMaxMediaPackets. rewrite (proj2 (Z.ltb_ge _ _)) by lia.
  pose proof (PacketMaskSize_covers (last + 1) ltac:(lia)) as [Hsize Hsz]. pose proof (PacketMaskSize_covers n ltac:(lia)) as [Hosize _].
  set (size := PacketMaskSize (last + 1)) in *. set (ps := places_of 0 (number front) rest).
  pose proof (places_increasing 0 _ _ Hd) as Hinc. destruct (last_place_bounds 0 _ _ Hd) as [Hlb Hpl]. fold last ps in Hlb, Hpl, Hinc.
  set (W := fun old k => want old 0 (0 :: ps) k).
  unfold CopyColumn. rewrite (proj2 (Z.ltb_lt 0 _)) by lia.
  assert (Hstart : Forall2 (fun old => spreading (W old) old size 0 0) masks (map (fun row => (replicate (Z.to_nat size) 0, row)) masks)).
  { clear -Hmasks Hsize Hlast. induction Hmasks as [|row masks [_ Hrow] Hmasks IH]; cbn [map]; constructor; [|done]. apply spreading_start; [lia|done]. }
  destruct (mapM_Forall2 _ _ (fun old => spreading (W old) old size 1 1) (copy_row 0 0) _ _ Hstart Hmasks) as (masks1 & -> & Hsp1).
  { intros old rows [Ho _] Hrows. apply copy_row_spreading; [done|lia|lia|]. done. }
  cbn [mbind option_bind].
  assert (HW : forall old k, 1 <= k -> W old k = want old 1 ps k).
  { intros old k Hk. unfold W. cbn [want]. by rewrite (proj2 (Z.eqb_neq 0 k)) by lia. }
  destruct (insert_zeros_spreads W size (PacketMaskSize n) masks rest (number front) 0 1 masks1) as (masks2 & E & Hsp2); try done; try lia.
  - eapply list.Forall_impl; [exact Hpl|]. cbv beta. lia.
  - assert (En : n = 1 + Z.of_nat (length rest)) by (subst n; cbn [length]; lia). lia.
  - eapply list.Forall_impl; [exact Hmasks|]. intros old [Ho _]. split; [done|]. apply want_follows; [done|]. intros k Hk. by apply HW.
  - change (0 + 1) with 1 in E. rewrite E. fold last. cbn [mbind option_bind].
    assert (Hfin : exists masks3, (if negb ((last + 1) mod 8 =? 0) then mapM (shift_row (last + 1)) masks2 else Some masks2) = Some masks3 /\
      Forall2 (fun old rows => spread (0 :: ps) size old (fst rows)) masks masks3).
    { assert (Hone : forall old rows, spreading (W old) old size (last + 1) (1 + Z.of_nat (length rest)) rows -> exists rows',
        (if negb ((last + 1) mod 8 =? 0) then shift_row (last + 1) rows else Some rows) = Some rows' /\ spread (0 :: ps) size old (fst rows')).
      { intros old rows Hrows. destruct (spreading_done _ _ _ _ _ _ Hrows) as (rows' & E' & H1 & H2 & H3); [lia| |].
        - intros k Hk. rewrite HW by lia. apply want_other. eapply list.Forall_impl; [exact Hpl|]. cbv beta. lia.
        - exists rows'. split; [done|]. by split. }
      fold last in Hsp2. destruct (negb _) eqn:Eneg.
      - eapply (mapM_Forall2 (fun _ => True)); [exact Hsp2|by apply list.Forall_true|]. intros old rows _ Hrows. by apply Hone.
      - exists masks2. split; [done|]. eapply Forall2_impl; [|exact Hsp2]. intros old rows Hrows. destruct (Hone old rows Hrows) as (rows' & [= ->] & ?). done. }
    destruct Hfin as (masks3 & -> & Hfin). cbn [mbind option_bind]. eexists. split; [reflexivity|].
    clear -Hfin. induction Hfin; cbn [map]; constructor; done.
Qed.

Lemma want_in row o ps k : want row o ps k = true -> k ∈ ps.
Proof.
  revert o. induction ps as [|p ps IH]; intros o; cbn [want]; [done|]. destruct (Z.eqb_spec p k) as [->|]; [intros _; apply list_elem_of_here|].
  intros Hw. apply list_elem_of_further. by eapply IH.
Qed.

Lemma want_at n row o ps i p : increasing n ps -> ps !! i = Some p -> want row o ps p = row_bit row (o + Z.of_nat i).
Proof.
  revert n o i. induction ps as [|q ps IH]; intros n o i; cbn [increasing want]; [done|]. intros [Hq Hps] Hi. destruct i as [|i]; cbn in Hi.
  - injection Hi as ->. by rewrite Z.eqb_refl, Z.add_0_r.
  - pose proof (increasing_ge _ _ Hps) as Hge. rewrite list.Forall_lookup in Hge. specialize (Hge i p Hi). rewrite (proj2 (Z.eqb_neq q p)) by lia.
    rewrite (IH (q + 1) (o + 1) i Hps Hi). f_equal. lia.
Qed.

(** Without gaps the places are the first ones. *)
Lemma increasing_tight n ps i p : increasing n ps -> Forall (fun p => p < n + Z.of_nat (length ps)) ps -> ps !! i = Some p -> p = n + Z.of_nat i.
Proof.
  revert n i. induction ps as [|q ps IH]; intros n i; cbn [increasing]; [done|]. intros [Hq Hps] Hlt Hi.
  assert (Hq' : q = n).
  { destruct (decide (q = n)); [done|]. exfalso. pose proof Hlt as [Hl Hlt']%list.Forall_cons. cbn [length] in Hl.
    assert (Hlong : forall ps m, increasing m ps -> Forall (fun p => p < m + Z.of_nat (length ps) - 1) ps -> ps = []).
    { clear. induction ps as [|r ps IH]; intros m; cbn [increasing length]; [done|]. intros [Hr Hps] [Hl Hlt]%list.Forall_cons.
      specialize (IH (r + 1) Hps). destruct ps as [|s ps]; [cbn in *; lia|]. exfalso. discriminate IH. eapply list.Forall_impl; [exact Hlt|]. cbv beta. cbn [length]. lia. }
    pose proof (Hlong ps (q + 1) Hps) as E. destruct ps as [|s ps]; [cbn in *; lia|]. discriminate E. eapply list.Forall_impl; [exact Hlt'|]. cbv beta. cbn [length]. lia. }
  subst q. destruct i as [|i]; cbn in Hi; [injection Hi as ->; lia|]. rewrite (IH (n + 1) i Hps); [lia| |done].
  apply list.Forall_cons in Hlt as [_ Hlt]. eapply list.Forall_impl; [exact Hlt|]. cbv beta. cbn [length]. lia.
Qed.

Lemma length_places off prev media : length (places_of off prev media) = length media.
Proof. revert off prev. induction media as [|p media IH]; intros off prev; cbn; [done|]. f_equal. apply IH. Qed.

Lemma spread_tight ps old : increasing 0 ps -> Forall (fun p => p < Z.of_nat (length ps)) ps -> Forall is_u8 old -> zlen old = PacketMaskSize (Z.of_nat (length ps)) ->
  (forall k, Z.of_nat (length ps) <= k < 8 * zlen old -> row_bit old k = false) -> spread ps (zlen old) old old.
Proof.
  intros Hinc Hlt Hu Hz Hb. split; [done|done|]. intros k Hk. destruct (decide (k < Z.of_nat (length ps))) as [Hl|Hl].
  - destruct (lookup_lt_is_Some_2 ps (Z.to_nat k)) as [p Hp]; [lia|]. pose proof (increasing_tight 0 ps _ p Hinc Hlt Hp) as E. rewrite Z2Nat.id in E by lia.
    cbn in E. subst p. rewrite (want_at 0 old 0 ps _ k Hinc Hp). f_equal. lia.
  - rewrite Hb by lia. symmetry. apply want_other. eapply list.Forall_impl; [exact Hlt|]. cbv beta. lia.
Qed.

(** Within 48 places the masks are spread, with or without gaps. *)
Lemma InsertZeros_spread front rest masks :
  let n := Z.of_nat (length (front :: rest)) in
  let last := last_place 0 (number front) rest in
  media_ok front -> Forall media_ok rest -> distinct_next (number front) rest -> masks_for n masks -> last < kMaxMediaPackets ->
  exists masks', InsertZerosInPacketMasks (front :: rest) masks = Some (last + 1, masks') /\
    Forall2 (spread (0 :: places_of 0 (number front) rest) (PacketMaskSize (last + 1))) masks masks'.
Proof.
  intros n last Hfront Hrest Hd Hm Hlast. destruct (last_place_bounds 0 (number front) rest Hd) as [Hlb Hpl]. fold last in Hlb, Hpl.
  assert (En : n = 1 + Z.of_nat (length rest)) by (subst n; cbn [length]; lia).
  destruct (decide (n <= last)) as [Hgap|Hgap]; [apply InsertZeros_gaps; try done; fold n last; destruct rest; try cbn [last_place] in last; try cbn [length] in En; lia|].
  assert (El : last + 1 = n) by lia. exists masks. rewrite El. split.
  - unfold InsertZerosInPacketMasks. fold n. cbv zeta. destruct (Z.leb_spec n 1) as [Hn|Hn]; [done|]. rewrite last_cons.
    destruct (ParseSequenceNumber_number _ (last_media_ok front rest Hfront Hrest)) as [-> _]. destruct (ParseSequenceNumber_number front Hfront) as [-> _].
    cbn [mbind option_bind]. rewrite <- (last_place_number 0 front rest), Z.sub_0_r. fold last. unfold kMaxMediaPackets in *.
    rewrite (u16_id last) by (unfold is_u16; lia). rewrite u64_small by lia. by rewrite (proj2 (Z.eqb_eq _ 0)) by lia.
  - destruct Hm as [H1 H2]. pose proof (List.Forall_and H1 H2) as H. clear H1 H2.
    assert (Hps : n = Z.of_nat (length (0 :: places_of 0 (number front) rest))) by (cbn [length]; rewrite length_places; lia).
    induction H as [|row masks [[Hz Hu] Hb] H IH]; constructor; [|done]. rewrite <- Hz. apply spread_tight.
    + split; [lia|]. by apply places_increasing.
    + rewrite <- Hps. constructor; [lia|]. eapply list.Forall_impl; [exact Hpl|]. cbv beta. lia.
    + done.
    + by rewrite <- Hps.
    + rewrite <- Hps, Hz. exact Hb.
Qed.

(** Beyond 48 places there are no masks. *)
Lemma InsertZeros_far front rest masks :
  media_ok front -> Forall media_ok rest -> distinct_next (number front) rest -> Z.of_nat (length (front :: rest)) <= kMaxMediaPackets ->
  kMaxMediaPackets <= last_place 0 (number front) rest < 65536 ->
  InsertZerosInPacketMasks (front :: rest) masks = Some (-1, masks).
Proof.
  intros Hfront Hrest Hd Hn Hlast. destruct (last_place_bounds 0 (number front) rest Hd) as [Hlb _]. set (last := last_place 0 (number front) rest) in *.
  unfold InsertZerosInPacketMasks. set (n := Z.of_nat (length (front :: rest))) in *. assert (En : n = 1 + Z.of_nat (length rest)) by (subst n; cbn [length]; lia). cbv zeta.
  unfold kMaxMediaPackets in *. assert (Hn1 : 1 < n).
  { destruct rest; [|cbn [length] in En; lia]. cbn [last_place] in last. lia. }
  rewrite (proj2 (Z.leb_gt n 1)) by done. rewrite last_cons.
  destruct (ParseSequenceNumber_number _ (last_media_ok front rest Hfront Hrest)) as [-> _]. destruct (ParseSequenceNumber_number front Hfront) as [-> _].
  cbn [mbind option_bind]. rewrite <- (last_place_number 0 front rest), Z.sub_0_r. fold last. rewrite (u16_id last) by (unfold is_u16; lia).
  rewrite (u64_small (last - n + 1)) by lia. rewrite (proj2 (Z.eqb_neq _ 0)) by lia. rewrite u64_small by lia. by rewrite (proj2 (Z.ltb_lt _ _)) by lia.
Qed.
