(* ===== verification/FecChoice.v ===== *)
(** * Forward error correction: choice of masks

    [GeneratePacketMasks] of forward_error_correction_internal.cc: which media packets
    each FEC packet protects, from the tables or interleaved, with more protection for
    important packets if wanted. The masks are bytes one row after the other, as the
    code has them; each row protects some packet, none behind the last, and each packet
    is protected by some row. *)

From S2P Require Import Prelude ByteIo Rtcp FecPacket FecParity FecMasks FecTables.

Open Scope Z_scope.
Open Scope c_scope.

(** ** Definitions *)

Inductive FecMaskType := kFecMaskRandom | kFecMaskBursty.

Definition PickTable (fec_mask_type : FecMaskType) (num_media_packets : Z) : list Z :=
  match fec_mask_type with
  | kFecMaskBursty => if num_media_packets <=? default 0 (zget kPacketMaskBurstyTbl 0) then kPacketMaskBurstyTbl else kPacketMaskRandomTbl
  | kFecMaskRandom => kPacketMaskRandomTbl
  end.

(** The loop of [n] rounds [entry += entry_size_increment * (j + 1)] *)
Fixpoint skip_data (n : nat) (j entry entry_size_increment : Z) : Z :=
  match n with
  | O => entry
  | S n => skip_data n (j + 1) (entry + entry_size_increment * (j + 1)) entry_size_increment
  end.

(** The loop over the entries of fewer media packets, from the [i]th *)
Fixpoint skip_entries (n : nat) (i : Z) (table : list Z) (entry entry_size_increment : Z) : option (Z * Z) :=
  match n with
  | O => Some (entry, entry_size_increment)
  | S n =>
      let entry_size_increment := if i =? 16 then 6 else entry_size_increment in
      count ← zget table entry;
      skip_entries n (i + 1) table (skip_data (Z.to_nat count) 0 (entry + 1) entry_size_increment) entry_size_increment
  end.

Definition LookUpInFecTable (table : list Z) (media_packet_index fec_index : Z) : option (list Z) :=
  found ← skip_entries (Z.to_nat media_packet_index) 0 table 1 2;
  let '(entry, entry_size_increment) := (found : Z * Z) in
  let entry_size_increment := if media_packet_index =? 16 then 6 else entry_size_increment in
  let entry := skip_data (Z.to_nat fec_index) 0 (entry + 1) entry_size_increment in
  read_bytes table entry (entry_size_increment * (fec_index + 1)).

(** A byte of the interleaved masks *)
Definition interleaved (num_media_packets num_fec_packets row col : Z) : Z :=
  let bit k b := if ((col * 8 + k) mod num_fec_packets =? row) && (col * 8 + k <? num_media_packets) then b else 0x00 in
  Z.lor (Z.lor (Z.lor (Z.lor (Z.lor (Z.lor (Z.lor (bit 0 0x80) (bit 1 0x40)) (bit 2 0x20)) (bit 3 0x10)) (bit 4 0x08)) (bit 5 0x04)) (bit 6 0x02)) (bit 7 0x01).

(** The bytes behind the result of [LookUp] *)
Definition LookUp (table : list Z) (num_media_packets num_fec_packets : Z) : option (list Z) :=
  if num_media_packets <=? 12 then LookUpInFecTable table (num_media_packets - 1) (num_fec_packets - 1)
  else
    let mask_length := PacketMaskSize num_media_packets in
    Some (concat (map (fun row => map (interleaved num_media_packets num_fec_packets row) (seqZ 0 mask_length)) (seqZ 0 num_fec_packets))).

(** The loop of [FitSubMask] over the rows from the [i]th; the mask begins at [off]. *)
Fixpoint fit_rows (n : nat) (i num_mask_bytes num_sub_mask_bytes : Z) (sub_mask packet_mask : list Z) (off : Z) : option (list Z) :=
  match n with
  | O => Some packet_mask
  | S n =>
      bs ← read_bytes sub_mask (i * num_sub_mask_bytes) num_sub_mask_bytes;
      packet_mask ← write_bytes packet_mask (off + i * num_mask_bytes) bs;
      fit_rows n (i + 1) num_mask_bytes num_sub_mask_bytes sub_mask packet_mask off
  end.

Definition FitSubMask (num_mask_bytes num_sub_mask_bytes num_rows : Z) (sub_mask packet_mask : list Z) (off : Z) : option (list Z) :=
  if num_mask_bytes =? num_sub_mask_bytes then bs ← read_bytes sub_mask 0 (num_rows * num_sub_mask_bytes); write_bytes packet_mask off bs
  else fit_rows (Z.to_nat num_rows) 0 num_mask_bytes num_sub_mask_bytes sub_mask packet_mask off.

(** In the mode with overlap, the one that is used *)
Definition RemainingPacketProtection (num_media_packets num_fec_remaining num_fec_for_imp_packets num_mask_bytes : Z) (packet_mask table : list Z)
  : option (list Z) :=
  packet_mask_sub_22 ← LookUp table num_media_packets num_fec_remaining;
  FitSubMask num_mask_bytes num_mask_bytes num_fec_remaining packet_mask_sub_22 packet_mask (num_fec_for_imp_packets * num_mask_bytes).

Definition ImportantPacketProtection (num_fec_for_imp_packets num_imp_packets num_mask_bytes : Z) (packet_mask table : list Z) : option (list Z) :=
  let num_imp_mask_bytes := PacketMaskSize num_imp_packets in
  packet_mask_sub_1 ← LookUp table num_imp_packets num_fec_for_imp_packets;
  FitSubMask num_mask_bytes num_imp_mask_bytes num_fec_for_imp_packets packet_mask_sub_1 packet_mask 0.

(** Half of the FEC packets, exact as a [float], towards zero *)
Definition SetProtectionAllocation (num_media_packets num_fec_packets num_imp_packets : Z) : Z :=
  let max_num_fec_for_imp := num_fec_packets / 2 in
  let num_fec_for_imp_packets := if num_imp_packets <? max_num_fec_for_imp then num_imp_packets else max_num_fec_for_imp in
  if (num_fec_packets =? 1) && (2 * num_imp_packets <? num_media_packets) then 0 else num_fec_for_imp_packets.

Definition UnequalProtectionMask (num_media_packets num_fec_packets num_imp_packets num_mask_bytes : Z) (packet_mask table : list Z) : option (list Z) :=
  let num_fec_for_imp_packets := SetProtectionAllocation num_media_packets num_fec_packets num_imp_packets in
  let num_fec_remaining := num_fec_packets - num_fec_for_imp_packets in
  packet_mask ← (if 0 <? num_fec_for_imp_packets then ImportantPacketProtection num_fec_for_imp_packets num_imp_packets num_mask_bytes packet_mask table
                 else Some packet_mask);
  if 0 <? num_fec_remaining then RemainingPacketProtection num_media_packets num_fec_remaining num_fec_for_imp_packets num_mask_bytes packet_mask table
  else Some packet_mask.

Definition GeneratePacketMasks (num_media_packets num_fec_packets num_imp_packets : Z) (use_unequal_protection : bool) (table packet_mask : list Z) : option (list Z) :=
  let num_mask_bytes := PacketMaskSize num_media_packets in
  if negb use_unequal_protection || (num_imp_packets =? 0) then
    mask ← LookUp table num_media_packets num_fec_packets;
    write_bytes packet_mask 0 mask
  else UnequalProtectionMask num_media_packets num_fec_packets num_imp_packets num_mask_bytes packet_mask table.

(** The [n] rows of [size] bytes *)
Fixpoint rows_of (n : nat) (size : nat) (mask : list Z) : list (list Z) :=
  match n with
  | O => []
  | S n => take size mask :: rows_of n size (drop size mask)
  end.

Example random_3_2 : LookUp (PickTable kFecMaskRandom 3) 3 2 = Some [0xc0; 0; 0xa0; 0].
Proof. reflexivity. Qed.
Example bursty_5_2 : LookUp (PickTable kFecMaskBursty 5) 5 2 = Some kMaskBursty5_2.
Proof. reflexivity. Qed.
Example interleaved_13_3 : LookUp kPacketMaskRandomTbl 13 3 = Some [0x92; 0x48; 0x49; 0x20; 0x24; 0x90].
Proof. reflexivity. Qed.

(** ** Rows and bytes *)

Lemma read_middle a b c : read_bytes (a ++ b ++ c) (zlen a) (zlen b) = Some b.
Proof.
  unfold read_bytes. rewrite !zlen_app. pose proof (zlen_nonneg a). pose proof (zlen_nonneg b). pose proof (zlen_nonneg c).
  rewrite (proj2 (Z.leb_le 0 _)), (proj2 (Z.leb_le 0 (zlen b))), (proj2 (Z.leb_le _ _)) by lia. cbn [andb]. unfold zlen. rewrite !Nat2Z.id.
  by rewrite drop_app_length, take_app_length.
Qed.

Lemma write_middle a b b' c : zlen b = zlen b' -> write_bytes (a ++ b ++ c) (zlen a) b' = Some (a ++ b' ++ c).
Proof.
  intros Hb. unfold write_bytes. rewrite !zlen_app. pose proof (zlen_nonneg a). pose proof (zlen_nonneg b). pose proof (zlen_nonneg c).
  rewrite (proj2 (Z.leb_le 0 _)), (proj2 (Z.leb_le _ _)) by lia. cbn [andb]. unfold zlen in *. rewrite Nat2Z.id. f_equal. rewrite take_app_length. do 2 f_equal.
  replace (Z.to_nat (Z.of_nat (length a) + Z.of_nat (length b'))) with (length (a ++ b)) by (rewrite length_app; lia). by rewrite app_assoc, drop_app_length.
Qed.

Definition rows_sized (size : Z) (rows : list (list Z)) : Prop := Forall (fun row => zlen row = size) rows.

Lemma zlen_concat size rows : rows_sized size rows -> zlen (concat rows) = Z.of_nat (length rows) * size.
Proof. induction 1 as [|row rows Hrow Hrows IH]; cbn [concat length]; [done|]. rewrite zlen_app. lia. Qed.

Lemma rows_of_concat size rows : rows_sized (Z.of_nat size) rows -> rows_of (length rows) size (concat rows) = rows.
Proof.
  induction 1 as [|row rows Hrow Hrows IH]; cbn [concat length rows_of]; [done|]. assert (E : size = length row) by (unfold zlen in Hrow; lia).
  by rewrite take_app_length', drop_app_length', IH by done.
Qed.

Lemma concat_rows_of n size mask : length mask = (n * size)%nat -> concat (rows_of n size mask) = mask /\ rows_sized (Z.of_nat size) (rows_of n size mask) /\ length (rows_of n size mask) = n.
Proof.
  revert mask. induction n as [|n IH]; intros mask Hl; cbn [rows_of concat length].
  - destruct mask; [|done]. split_and!; [done|constructor|done].
  - destruct (IH (drop size mask)) as (E & Hs & Hn); [rewrite length_drop; lia|]. rewrite E, take_drop, Hn. split_and!; [done| |done].
    constructor; [|done]. unfold zlen. rewrite length_take. lia.
Qed.

(** ** What masks are good for *)

(** The masks of [n] media packets: every row protects a packet, every packet is protected. *)
Record protects (n : Z) (rows : list (list Z)) : Prop := {
  pr_masks : masks_for n rows;
  pr_row : Forall (fun row => exists k, 0 <= k < n /\ row_bit row k = true) rows;
  pr_all : forall k, 0 <= k < n -> Exists (fun row => row_bit row k = true) rows;
}.

Definition row_good (n : Z) (row : list Z) : bool :=
  let size := PacketMaskSize n in
  (zlen row =? size) && forallb (fun b => (0 <=? b) && (b <? 256)) row && forallb (fun k => negb (row_bit row k)) (seqZ n (8 * size - n))
  && existsb (row_bit row) (seqZ 0 n).

Definition rows_good (n : Z) (rows : list (list Z)) : bool := forallb (row_good n) rows && forallb (fun k => existsb (fun row => row_bit row k) rows) (seqZ 0 n).

Lemma row_good_sound n row : 0 <= n -> row_good n row = true ->
  (zlen row = PacketMaskSize n /\ Forall is_u8 row) /\ (forall k, n <= k < 8 * PacketMaskSize n -> row_bit row k = false) /\ exists k, 0 <= k < n /\ row_bit row k = true.
Proof.
  intros Hn. unfold row_good. cbv zeta. rewrite !andb_true_iff. intros [[[H1 H2] H3] H4]. apply Z.eqb_eq in H1. rewrite forallb_forall in H2, H3.
  apply existsb_exists in H4 as (k & Hk & Hb). apply list_elem_of_In, elem_of_seqZ in Hk. split_and!; [done| | |by exists k; split; [lia|]].
  - apply list.Forall_forall. intros b Hb'. apply list_elem_of_In, H2 in Hb'. apply andb_true_iff in Hb' as [Ha Hc]. unfold is_u8. lia.
  - intros j Hj. apply negb_true_iff, H3, list_elem_of_In, elem_of_seqZ. lia.
Qed.

Lemma rows_good_sound n rows : 0 <= n -> rows_good n rows = true -> protects n rows.
Proof.
  intros Hn. unfold rows_good. rewrite andb_true_iff. intros [H1 H2]. rewrite forallb_forall in H1, H2.
  assert (Hr : forall row, row ∈ rows -> row_good n row = true) by (intros row Hrow; by apply H1, list_elem_of_In).
  split; [split|..].
  - apply list.Forall_forall. intros row Hrow. by apply row_good_sound, Hr.
  - apply list.Forall_forall. intros row Hrow. by apply row_good_sound, Hr.
  - apply list.Forall_forall. intros row Hrow. by apply row_good_sound, Hr.
  - intros k Hk. assert (Hin : In k (seqZ 0 n)) by (apply list_elem_of_In, elem_of_seqZ; lia). apply H2, existsb_exists in Hin as (row & Hin & Hb).
    apply list.Exists_exists. exists row. split; [by apply list_elem_of_In|done].
Qed.

(** ** The tables *)

Definition tables_good : bool :=
  forallb (fun table => forallb (fun n => forallb (fun m =>
    match LookUp table n m with
    | Some l => (zlen l =? m * 2) && rows_good n (rows_of (Z.to_nat m) 2 l)
    | None => false
    end) (seqZ 1 n)) (seqZ 1 12)) [kPacketMaskRandomTbl; kPacketMaskBurstyTbl].

Lemma tables_good_true : tables_good = true.
Proof. vm_compute. reflexivity. Qed.

Lemma LookUp_table table n m : table = kPacketMaskRandomTbl \/ table = kPacketMaskBurstyTbl -> 1 <= m <= n -> n <= 12 ->
  exists rows, LookUp table n m = Some (concat rows) /\ Z.of_nat (length rows) = m /\ protects n rows.
Proof.
  intros Ht Hm Hn. pose proof tables_good_true as H. unfold tables_good in H. rewrite forallb_forall in H. specialize (H table). rewrite forallb_forall in H.
  specialize (H ltac:(destruct Ht as [-> | ->]; cbn; auto) n). rewrite forallb_forall in H.
  specialize (H ltac:(apply list_elem_of_In, elem_of_seqZ; lia) m ltac:(apply list_elem_of_In, elem_of_seqZ; lia)).
  destruct (LookUp table n m) as [l|]; [|done]. apply andb_true_iff in H as [Hl Hg]. apply Z.eqb_eq in Hl.
  destruct (concat_rows_of (Z.to_nat m) 2 l) as (E & _ & Hlen); [unfold zlen in Hl; lia|].
  exists (rows_of (Z.to_nat m) 2 l). rewrite E, Hlen. split_and!; [done|lia|]. apply rows_good_sound; [lia|done].
Qed.

(** ** Interleaved masks *)

Lemma testbit_if (c : bool) a b : 0 <= a -> 0 <= b -> Z.testbit (if c then 2 ^ a else 0) b = c && (a =? b).
Proof. intros Ha Hb. destruct c; [by rewrite Z.pow2_bits_eqb|by rewrite Z.bits_0]. Qed.

Lemma interleaved_bit n m row col j : 0 <= j < 8 ->
  Z.testbit (interleaved n m row col) (7 - j) = ((col * 8 + j) mod m =? row) && (col * 8 + j <? n).
Proof.
  intros Hj. unfold interleaved. cbv zeta. change 0x80 with (2 ^ 7). change 0x40 with (2 ^ 6). change 0x20 with (2 ^ 5). change 0x10 with (2 ^ 4).
  change 0x08 with (2 ^ 3). change 0x04 with (2 ^ 2). change 0x02 with (2 ^ 1). change 0x01 with (2 ^ 0). rewrite !Z.lor_spec, !testbit_if by lia.
  assert (Hc : j = 0 \/ j = 1 \/ j = 2 \/ j = 3 \/ j = 4 \/ j = 5 \/ j = 6 \/ j = 7) by lia.
  destruct Hc as [->|[->|[->|[->|[->|[->|[->| ->]]]]]]]; cbn [Z.sub Z.eqb Z.pos_sub Z.add Z.opp Z.succ_double Z.pred_double Z.double Pos.pred_double Pos.eqb];
    rewrite ?andb_false_r, ?andb_true_r, ?orb_false_r, ?orb_false_l; reflexivity.
Qed.

Lemma interleaved_u8 n m row col : is_u8 (interleaved n m row col).
Proof.
  unfold interleaved. cbv zeta. repeat apply u8_lor; destruct (_ && _); clia.
Qed.

Definition interleaved_row (n m row : Z) : list Z := map (interleaved n m row) (seqZ 0 (PacketMaskSize n)).

Lemma zlen_map_seqZ (f : Z -> Z) n : 0 <= n -> zlen (map f (seqZ 0 n)) = n.
Proof. intros Hn. unfold zlen. rewrite length_map, length_seqZ. lia. Qed.

Lemma get0_map_seqZ (f : Z -> Z) n i : 0 <= i < n -> get0 (map f (seqZ 0 n)) i = f i.
Proof.
  intros Hi. unfold get0, zget. rewrite (proj2 (Z.ltb_ge i 0)) by lia. change (@map Z Z) with (@fmap list list_fmap Z Z).
  rewrite list_lookup_fmap, (lookup_seqZ_lt 0 n) by lia. cbn. f_equal. lia.
Qed.

Lemma interleaved_row_bit n m row k : 0 <= k < 8 * PacketMaskSize n -> row_bit (interleaved_row n m row) k = (k mod m =? row) && (k <? n).
Proof.
  intros Hk. unfold row_bit, interleaved_row. rewrite get0_map_seqZ by (Z.div_mod_to_equations; lia). rewrite interleaved_bit by (Z.div_mod_to_equations; lia).
  by replace (k / 8 * 8 + k mod 8) with k by (Z.div_mod_to_equations; lia).
Qed.

Lemma interleaved_protects n m : 1 <= m <= n -> n <= 48 -> protects n (map (interleaved_row n m) (seqZ 0 m)).
Proof.
  intros Hm Hn. destruct (PacketMaskSize_covers n ltac:(lia)) as [Hsize _].
  assert (Hall : forall P : list Z -> Prop, (forall row, 0 <= row < m -> P (interleaved_row n m row)) -> Forall P (map (interleaved_row n m) (seqZ 0 m))).
  { intros P HP. apply list.Forall_forall. intros r Hr. apply list_elem_of_In, in_map_iff in Hr as (row & <- & Hrow). apply HP.
    apply list_elem_of_In, elem_of_seqZ in Hrow. lia. }
  split; [split|..].
  - apply Hall. intros row _. split; [apply zlen_map_seqZ; lia|]. unfold interleaved_row. apply list.Forall_forall. intros b Hb.
    apply list_elem_of_In, in_map_iff in Hb as (c & <- & _). apply interleaved_u8.
  - apply Hall. intros row _ k Hk. rewrite interleaved_row_bit by lia. rewrite (proj2 (Z.ltb_ge k n)) by lia. apply andb_false_r.
  - apply Hall. intros row Hrow. exists row. split; [lia|]. rewrite interleaved_row_bit by lia. rewrite Z.mod_small, Z.eqb_refl, (proj2 (Z.ltb_lt _ _)) by lia. done.
  - intros k Hk. apply list.Exists_exists. exists (interleaved_row n m (k mod m)). split.
    + apply list_elem_of_In, in_map_iff. exists (k mod m). split; [done|]. apply list_elem_of_In, elem_of_seqZ. pose proof (Z.mod_pos_bound k m). lia.
    + rewrite interleaved_row_bit by lia. rewrite Z.eqb_refl, (proj2 (Z.ltb_lt _ _)) by lia. done.
Qed.

Definition is_table (table : list Z) : Prop := table = kPacketMaskRandomTbl \/ table = kPacketMaskBurstyTbl.

Lemma PickTable_is_table t n : is_table (PickTable t n).
Proof. unfold PickTable, is_table. destruct t; [by left|]. destruct (_ <=? _); auto. Qed.

Lemma LookUp_protects table n m : is_table table -> 1 <= m <= n -> n <= 48 ->
  exists rows, LookUp table n m = Some (concat rows) /\ Z.of_nat (length rows) = m /\ protects n rows.
Proof.
  intros Ht Hm Hn. destruct (decide (n <= 12)) as [H12|H12]; [by apply LookUp_table|]. unfold LookUp. rewrite (proj2 (Z.leb_gt n 12)) by lia.
  exists (map (interleaved_row n m) (seqZ 0 m)). rewrite length_map, length_seqZ. split_and!; [done|lia|by apply interleaved_protects].
Qed.

(** ** Important packets *)

Definition pad (size : Z) (row : list Z) : list Z := row ++ replicate (Z.to_nat (size - zlen row)) 0.

Lemma zlen_pad size row : zlen row <= size -> zlen (pad size row) = size.
Proof. intros Hr. unfold pad. rewrite zlen_app, zlen_replicate. lia. Qed.

Lemma zeros_app a b : 0 <= a -> 0 <= b -> replicate (Z.to_nat (a + b)) 0 = replicate (Z.to_nat a) 0 ++ replicate (Z.to_nat b) 0 :> list Z.
Proof. intros Ha Hb. by rewrite Z2Nat.inj_add, replicate_add by lia. Qed.

Lemma fit_rows_pad size sub rows pre rest : 0 <= sub <= size -> rows_sized sub pre -> rows_sized sub rows -> 0 <= rest ->
  fit_rows (length rows) (Z.of_nat (length pre)) size sub (concat (pre ++ rows))
    (concat (map (pad size) pre) ++ replicate (Z.to_nat (Z.of_nat (length rows) * size + rest)) 0) 0 =
  Some (concat (map (pad size) (pre ++ rows)) ++ replicate (Z.to_nat rest) 0).
Proof.
  intros Hs Hpre Hrows Hr. revert pre Hpre. induction Hrows as [|row rows Hrow Hrows IH]; intros pre Hpre; cbn [length fit_rows].
  - by rewrite app_nil_r.
  - assert (Hpad : rows_sized size (map (pad size) pre)).
    { clear -Hpre Hs. induction Hpre; cbn [map]; constructor; [apply zlen_pad; lia|done]. }
    pose proof (zlen_concat _ _ Hpre) as Hz1. pose proof (zlen_concat _ _ Hpad) as Hz2. rewrite length_map in Hz2.
    rewrite concat_app. cbn [concat]. rewrite <- Hz1, <- Hrow at 1. rewrite read_middle. cbn [mbind option_bind].
    set (n := Z.of_nat (length rows)) in *.
    assert (Ez : replicate (Z.to_nat (Z.of_nat (S (length rows)) * size + rest)) 0 =
      replicate (Z.to_nat sub) 0 ++ replicate (Z.to_nat (size - sub)) 0 ++ replicate (Z.to_nat (n * size + rest)) 0 :> list Z).
    { rewrite <- !zeros_app by nia. f_equal. f_equal. subst n. lia. }
    rewrite Ez, Z.add_0_l, <- Hz2, write_middle by (rewrite zlen_replicate; lia). cbn [mbind option_bind].
    specialize (IH (pre ++ [row])). rewrite length_app in IH. cbn [length] in IH. replace (Z.of_nat (length pre + 1)) with (Z.of_nat (length pre) + 1) in IH by lia.
    rewrite <- app_assoc in IH. cbn [app] in IH. rewrite concat_app in IH. cbn [concat] in IH. rewrite <- IH; [|by apply list.Forall_app; split; [|by constructor]].
    f_equal. rewrite map_app, concat_app. cbn [map concat]. rewrite app_nil_r. unfold pad at 3. rewrite <- !app_assoc. do 3 f_equal. by rewrite Hrow.
Qed.

Lemma get0_beyond l i : zlen l <= i -> get0 l i = 0.
Proof. intros Hi. unfold get0. destruct (zget l i) eqn:E; [apply zget_range in E; lia|done]. Qed.

Lemma get0_app_zeros row n i : get0 (row ++ replicate n 0) i = get0 row i.
Proof.
  destruct (decide (i < 0)) as [Hi|Hi]; [unfold get0, zget; by rewrite (proj2 (Z.ltb_lt i 0))|].
  destruct (decide (i < zlen row)) as [Hr|Hr].
  - unfold get0, zget. rewrite (proj2 (Z.ltb_ge i 0)) by lia. rewrite lookup_app_l by (unfold zlen in Hr; lia). done.
  - rewrite (get0_beyond row) by lia. unfold get0, zget. rewrite (proj2 (Z.ltb_ge i 0)) by lia. rewrite lookup_app_r by (unfold zlen in Hr; lia).
    destruct (replicate n 0 !! _) as [v|] eqn:E; [|done]. by apply lookup_replicate in E as [-> _].
Qed.

Lemma row_bit_pad size row k : row_bit (pad size row) k = row_bit row k.
Proof. unfold row_bit, pad. by rewrite get0_app_zeros. Qed.

Lemma row_bit_beyond row k : 8 * zlen row <= k -> row_bit row k = false.
Proof. intros Hk. unfold row_bit. rewrite get0_beyond by (Z.div_mod_to_equations; lia). apply Z.bits_0. Qed.

(** Rows that protect the first [i] packets protect some of [n]. *)
Lemma protects_pad i n rows : 0 <= i <= n -> PacketMaskSize i <= PacketMaskSize n -> protects i rows ->
  masks_for n (map (pad (PacketMaskSize n)) rows) /\ Forall (fun row => exists k, 0 <= k < n /\ row_bit row k = true) (map (pad (PacketMaskSize n)) rows).
Proof.
  intros Hi Hs [[H1 H2] H3 _]. split; [split|]; apply List.Forall_map.
  - eapply list.Forall_impl; [exact H1|]. intros row [Hz Hu]. cbv beta. split; [apply zlen_pad; lia|]. unfold pad. apply list.Forall_app. split; [done|].
    apply list.Forall_replicate. unfold is_u8. lia.
  - pose proof (List.Forall_and H1 H2) as H. eapply list.Forall_impl; [exact H|]. intros row [[Hz _] Hb] k Hk. rewrite row_bit_pad.
    destruct (decide (k < 8 * PacketMaskSize i)); [apply Hb; lia|]. apply row_bit_beyond. lia.
  - eapply list.Forall_impl; [exact H3|]. intros row (k & Hk & Hb). cbv beta. exists k. split; [lia|]. by rewrite row_bit_pad.
Qed.

Lemma PacketMaskSize_le i n : i <= n -> PacketMaskSize i <= PacketMaskSize n.
Proof.
  intros Hi. unfold PacketMaskSize, kUlpfecPacketMaskSizeLBitClear, kUlpfecPacketMaskSizeLBitSet. destruct (Z.ltb_spec (8 * 2) i), (Z.ltb_spec (8 * 2) n); lia.
Qed.

Lemma protects_sized n rows : protects n rows -> rows_sized (PacketMaskSize n) rows.
Proof. intros [[H _] _ _]. eapply list.Forall_impl; [exact H|]. by intros row [Hz _]. Qed.

Lemma pad_id size rows : rows_sized size rows -> map (pad size) rows = rows.
Proof. induction 1 as [|row rows Hrow Hrows IH]; cbn [map]; [done|]. rewrite IH. f_equal. unfold pad. rewrite Hrow, Z.sub_diag. apply app_nil_r. Qed.

Lemma FitSubMask_rows size sub rows rest : 0 <= sub <= size -> rows_sized sub rows -> 0 <= rest ->
  FitSubMask size sub (Z.of_nat (length rows)) (concat rows) (replicate (Z.to_nat (Z.of_nat (length rows) * size + rest)) 0) 0 =
  Some (concat (map (pad size) rows) ++ replicate (Z.to_nat rest) 0).
Proof.
  intros Hs Hrows Hr. unfold FitSubMask. destruct (Z.eqb_spec size sub) as [->|Hne].
  - rewrite (pad_id _ _ Hrows), <- (zlen_concat _ _ Hrows). pose proof (read_middle [] (concat rows) []) as Hread. cbn [app] in Hread.
    rewrite app_nil_r, zlen_nil in Hread. rewrite Hread. cbn [mbind option_bind]. pose proof (zlen_nonneg (concat rows)) as Hz. rewrite zeros_app by lia.
    apply (write_middle []). rewrite zlen_replicate. lia.
  - rewrite Nat2Z.id. apply (fit_rows_pad size sub rows [] rest Hs); [constructor|done|done].
Qed.

Lemma allocation_bounds n m i : 1 <= m -> 1 <= i -> 0 <= SetProtectionAllocation n m i < m /\ SetProtectionAllocation n m i <= i.
Proof.
  intros Hm Hi. unfold SetProtectionAllocation. cbv zeta. destruct (_ && _); [lia|]. destruct (Z.ltb_spec i (m / 2)); Z.div_mod_to_equations; lia.
Qed.

(** Every choice of masks protects all packets. *)
Lemma GeneratePacketMasks_protects table n m imp uep : is_table table -> 1 <= m <= n -> n <= 48 -> 0 <= imp <= n ->
  exists rows, GeneratePacketMasks n m imp uep table (replicate (Z.to_nat (m * PacketMaskSize n)) 0) = Some (concat rows) /\
    Z.of_nat (length rows) = m /\ protects n rows.
Proof.
  intros Ht Hm Hn Himp. destruct (PacketMaskSize_covers n ltac:(lia)) as [Hsize _]. unfold GeneratePacketMasks. cbv zeta. destruct (negb uep || (imp =? 0)) eqn:Eu.
  - destruct (LookUp_protects table n m Ht Hm Hn) as (rows & -> & Hl & Hp). cbn [mbind option_bind]. exists rows. split_and!; [|done|done].
    pose proof (zlen_concat _ _ (protects_sized _ _ Hp)) as Hz. rewrite Hl in Hz.
    pose proof (write_middle [] (replicate (Z.to_nat (m * PacketMaskSize n)) 0) (concat rows) []) as Hw. cbn [app] in Hw. rewrite !app_nil_r, zlen_nil in Hw.
    apply Hw. rewrite zlen_replicate. nia.
  - apply orb_false_iff in Eu as [_ Ei%Z.eqb_neq]. unfold UnequalProtectionMask. cbv zeta.
    destruct (allocation_bounds n m imp) as [Ha1 Ha2]; [lia|lia|]. set (a := SetProtectionAllocation n m imp) in *. rewrite (proj2 (Z.ltb_lt 0 (m - a))) by lia.
    set (size := PacketMaskSize n) in *.
    assert (Hfirst : exists rows1, (if 0 <? a then ImportantPacketProtection a imp size (replicate (Z.to_nat (m * size)) 0) table
      else Some (replicate (Z.to_nat (m * size)) 0)) = Some (concat rows1 ++ replicate (Z.to_nat ((m - a) * size)) 0) /\ Z.of_nat (length rows1) = a /\
      masks_for n rows1 /\ Forall (fun row => exists k, 0 <= k < n /\ row_bit row k = true) rows1).
    { destruct (Z.ltb_spec 0 a) as [Ha|Ha].
      - destruct (LookUp_protects table imp a Ht) as (rows & E & Hl & Hp); [lia|lia|]. exists (map (pad size) rows). unfold ImportantPacketProtection. cbv zeta. rewrite E.
        cbn [mbind option_bind]. replace (m * size) with (Z.of_nat (length rows) * size + (m - a) * size) by lia. rewrite <- Hl at 1. rewrite FitSubMask_rows;
          [|pose proof (PacketMaskSize_covers imp ltac:(lia)); pose proof (PacketMaskSize_le imp n ltac:(lia)); lia|by apply protects_sized|nia].
        rewrite length_map. split_and!; [done|done|..]; apply (protects_pad imp n rows); by try apply PacketMaskSize_le; try lia.
      - exists []. assert (Ea : a = 0) by lia. rewrite Ea, Z.sub_0_r. split_and!; [done|done|split; constructor|constructor]. }
    destruct Hfirst as (rows1 & -> & Hl1 & Hm1 & Hr1). cbn [mbind option_bind]. unfold RemainingPacketProtection.
    destruct (LookUp_protects table n (m - a) Ht) as (rows2 & -> & Hl2 & Hp2); [lia|lia|]. cbn [mbind option_bind].
    assert (Hz1 : zlen (concat rows1) = a * size).
    { rewrite <- Hl1. apply zlen_concat. eapply list.Forall_impl; [exact (mf_rows _ _ Hm1)|]. by intros row [Hz _]. }
    pose proof (zlen_concat _ _ (protects_sized _ _ Hp2)) as Hz2. fold size in Hz2. rewrite Hl2 in Hz2.
    unfold FitSubMask. rewrite Z.eqb_refl, <- Hz2. pose proof (read_middle [] (concat rows2) []) as Hread. cbn [app] in Hread. rewrite app_nil_r, zlen_nil in Hread.
    rewrite Hread. cbn [mbind option_bind]. rewrite <- Hz1.
    pose proof (write_middle (concat rows1) (replicate (Z.to_nat (zlen (concat rows2))) 0) (concat rows2) []) as Hw. rewrite !app_nil_r in Hw.
    exists (rows1 ++ rows2). rewrite Hw, concat_app, length_app by (rewrite zlen_replicate; pose proof (zlen_nonneg (concat rows2)); lia).
    destruct Hp2 as [[Hp1 Hp2] Hp3 Hp4]. split_and!; [done|lia|]. split; [split|..].
    + apply list.Forall_app. split; [apply (mf_rows _ _ Hm1)|done].
    + apply list.Forall_app. split; [apply (mf_beyond _ _ Hm1)|done].
    + by apply list.Forall_app.
    + intros k Hk. apply list.Exists_app. right. by apply Hp4.
Qed.
