(* ===== verification/FecEncode.v ===== *)
(** * Forward error correction: encoder

    [ForwardErrorCorrection::EncodeFec]: the FEC packets of a block of media packets.
    Every FEC packet is the parity of the packets of its row of the masks, and every
    media packet is in one of them. *)

From S2P Require Import Prelude ByteIo Rtcp FecPacket FecParity FecMasks FecTables FecChoice.

Open Scope Z_scope.
Open Scope c_scope.

(** ** Definitions *)

Definition NumFecPackets (num_media_packets protection_factor : Z) : Z :=
  let num_fec_packets := Z.shiftr (num_media_packets * protection_factor + Z.shiftl 1 7) 8 in
  if (0 <? protection_factor) && (num_fec_packets =? 0) then 1 else num_fec_packets.

(** [UlpfecHeaderWriter::MinPacketMaskSize] and [FecHeaderSize] *)
Definition MinPacketMaskSize (packet_mask_size : Z) : Z := packet_mask_size.
Definition FecHeaderSize (packet_mask_size : Z) : Z := UlpfecHeaderSize packet_mask_size.

Definition GenerateFecPayloads (packet_mask_size : Z) (media_packets : list Packet) (rows : list (list Z)) : option (list Packet) :=
  mapM (fun row =>
    let fec_header_size := FecHeaderSize (MinPacketMaskSize packet_mask_size) in
    front ← head media_packets;
    prev_seq_num ← ParseSequenceNumber front;
    protect_row fec_header_size row media_packets 0 0 prev_seq_num new_Packet) rows.

Definition FinalizeFecHeaders (packet_mask_size seq_num_base : Z) (rows : list (list Z)) (fec_packets : list Packet) : option (list Packet) :=
  mapM (fun e => FinalizeFecHeader seq_num_base (fst e) packet_mask_size (snd e)) (zip rows fec_packets).

(** The result with the FEC packets *)
Definition EncodeFec (media_packets : list Packet) (protection_factor num_important_packets : Z) (use_unequal_protection : bool) (fec_mask_type : FecMaskType)
  : option (Z * list Packet) :=
  let num_media_packets := Z.of_nat (length media_packets) in
  if kMaxMediaPackets <? num_media_packets then Some (-1, [])
  else if existsb (fun media_packet => fp_length media_packet <? kRtpHeaderSize) media_packets then Some (-1, [])
  else
    let num_fec_packets := NumFecPackets num_media_packets protection_factor in
    if num_fec_packets =? 0 then Some (0, [])
    else
      let mask_table := PickTable fec_mask_type num_media_packets in
      let packet_mask_size := PacketMaskSize num_media_packets in
      packet_masks ← GeneratePacketMasks num_media_packets num_fec_packets num_important_packets use_unequal_protection mask_table
        (replicate (Z.to_nat (num_fec_packets * packet_mask_size)) 0);
      result ← InsertZerosInPacketMasks media_packets (rows_of (Z.to_nat num_fec_packets) (Z.to_nat packet_mask_size) packet_masks);
      let '(num_mask_bits, rows) := (result : Z * list (list Z)) in
      if num_mask_bits <? 0 then Some (-1, [])
      else
        let packet_mask_size := PacketMaskSize num_mask_bits in
        fec_packets ← GenerateFecPayloads packet_mask_size media_packets rows;
        front ← head media_packets;
        media_ssrc ← ParseSsrc front;
        seq_num_base ← ParseSequenceNumber front;
        fec_packets ← FinalizeFecHeaders packet_mask_size seq_num_base rows fec_packets;
        Some (0, fec_packets).

(** ** What is sent *)

Lemma NumFecPackets_bounds n pf : 1 <= n -> 0 <= pf <= 255 -> if pf =? 0 then NumFecPackets n pf = 0 else 1 <= NumFecPackets n pf <= n.
Proof.
  intros Hn Hpf. unfold NumFecPackets. cbv zeta. rewrite shiftr_div by lia. change (Z.shiftl 1 7) with 128. change (2 ^ 8) with 256.
  destruct (Z.eqb_spec pf 0) as [->|Hp].
  - cbn [Z.ltb Z.compare andb]. rewrite Z.mul_0_r. done.
  - rewrite (proj2 (Z.ltb_lt 0 pf)) by lia. cbn [andb]. assert (H1 : 0 <= (n * pf + 128) / 256) by (apply Z.div_pos; nia).
    assert (H2 : (n * pf + 128) / 256 < n + 1) by (apply Z.div_lt_upper_bound; nia). destruct (Z.eqb_spec ((n * pf + 128) / 256) 0); lia.
Qed.

(** A block of media packets: of 12 to 1488 bytes ([media_ok]), with numbers that follow each
    other, maybe with gaps, at most 65535 from the first to the last. *)
Record block (front : Packet) (rest : list Packet) : Prop := {
  bl_front : media_ok front;
  bl_rest : Forall media_ok rest;
  bl_order : distinct_next (number front) rest;
  bl_span : last_place 0 (number front) rest < 65536;
}.

Definition block_places (front : Packet) (rest : list Packet) : list Z := 0 :: places_of 0 (number front) rest.

(** The packets with their places *)
Definition block_placed (front : Packet) (rest : list Packet) : list (Z * Packet) := (0, front) :: placed 0 (number front) rest.

(** A row of masks over a block *)
Record row_over (front : Packet) (rest : list Packet) (row : list Z) : Prop := {
  ro_size : zlen row = PacketMaskSize (last_place 0 (number front) rest + 1);
  ro_u8 : Forall is_u8 row;
  ro_in : forall k, 0 <= k < 8 * zlen row -> row_bit row k = true -> k ∈ block_places front rest;
  ro_some : selected row (block_placed front rest) <> [];
}.

Lemma parity_new hs : parity hs new_Packet [].
Proof.
  assert (Hzero : forall j, get0 (fp_data new_Packet) j = 0).
  { intros j. unfold get0. destruct (zget (fp_data new_Packet) j) as [v|] eqn:E; [|done]. cbn [new_Packet fp_data] in E. unfold zget in E.
    destruct (j <? 0); [done|]. by apply lookup_replicate in E as [-> _]. }
  split; [cbn [new_Packet fp_data]; by rewrite zlen_replicate|done|..]; intros; apply Hzero.
Qed.

Lemma block_placed_eq front rest : placed 0 (number front) (front :: rest) = block_placed front rest.
Proof. cbn [placed]. by rewrite Z.sub_diag. Qed.

Lemma fst_block_placed front rest : map fst (block_placed front rest) = block_places front rest.
Proof. done. Qed.

Lemma block_media front rest : block front rest -> Forall media_ok (front :: rest).
Proof. intros [H1 H2 _ _]. by constructor. Qed.

Lemma Forall_selected (P : Packet -> Prop) row off prev media : Forall P media -> Forall P (selected row (placed off prev media)).
Proof.
  intros Hm. revert off prev. induction Hm as [|p media Hp Hm IH]; intros off prev; cbn [placed]; [constructor|]. cbv zeta.
  unfold selected. rewrite filter_cons. destruct (decide _); [constructor; [done|]|]; apply IH.
Qed.

Lemma block_place_bounds front rest : block front rest ->
  increasing 0 (block_places front rest) /\ Forall (fun k => 0 <= k <= last_place 0 (number front) rest) (block_places front rest) /\
  Z.of_nat (length (front :: rest)) <= last_place 0 (number front) rest + 1.
Proof.
  intros [H1 H2 H3 H4]. pose proof (places_increasing 0 _ _ H3) as Hinc. destruct (last_place_bounds 0 _ _ H3) as [Hlb Hpl].
  split_and!; [by split| |cbn [length]; lia]. constructor; [lia|]. pose proof (increasing_ge _ _ Hinc) as Hge. pose proof (List.Forall_and Hge Hpl) as H.
  eapply list.Forall_impl; [exact H|]. cbv beta. lia.
Qed.

(** ** Rows that are spread protect the block *)

Lemma spread_row_over front rest size old new : block front rest -> size = PacketMaskSize (last_place 0 (number front) rest + 1) ->
  last_place 0 (number front) rest < kMaxMediaPackets ->
  spread (block_places front rest) size old new -> (exists k, 0 <= k < Z.of_nat (length (front :: rest)) /\ row_bit old k = true) -> row_over front rest new.
Proof.
  intros Hb -> Hlast [H1 H2 H3] (i & Hi & Hbit). destruct (block_place_bounds front rest Hb) as (Hinc & Hpl & Hn). split; [done|done| |].
  - intros k Hk Hr. rewrite H1 in Hk. rewrite H3 in Hr by done. by eapply want_in.
  - destruct (lookup_lt_is_Some_2 (block_places front rest) (Z.to_nat i)) as [k Hk].
    { unfold block_places. cbn [length] in *. rewrite length_places. lia. }
    intros Hsel. pose proof Hk as Hk'. rewrite <- fst_block_placed in Hk'. change (@map (Z * Packet) Z) with (@fmap list list_fmap (Z * Packet) Z) in Hk'.
    apply list_lookup_fmap_Some in Hk' as ([k' p] & Hp & Hkp). cbn [fst] in Hp. subst k'.
    assert (Hin : p ∈ selected new (block_placed front rest)).
    { unfold selected. change (@map (Z * Packet) Packet) with (@fmap list list_fmap (Z * Packet) Packet). apply list_elem_of_fmap. exists (k, p). split; [done|].
      apply list_elem_of_filter. split; [|by eapply list_elem_of_lookup_2]. cbn [fst]. rewrite list.Forall_lookup in Hpl. specialize (Hpl _ _ Hk). cbv beta in Hpl. unfold kMaxMediaPackets in Hlast.
      destruct (PacketMaskSize_covers (last_place 0 (number front) rest + 1)) as [Hsz _]; [lia|]. rewrite H3 by lia.
      rewrite (want_at 0 old 0 _ _ k Hinc Hk). rewrite <- Hbit. f_equal. lia. }
    rewrite Hsel in Hin. by apply not_elem_of_nil in Hin.
Qed.

(** ** The encoder *)

(** A finished FEC packet of the block *)
Record fec_of (front : Packet) (rest : list Packet) (row : list Z) (f : Packet) : Prop := {
  fe_row : row_over front rest row;
  fe_parity : fec_over (number front) row (selected row (block_placed front rest)) f;
}.

Lemma protect_row_block front rest row hs : block front rest -> row_over front rest row -> last_place 0 (number front) rest < kMaxMediaPackets -> 12 <= hs <= 18 ->
  exists f, protect_row hs row (front :: rest) 0 0 (number front) new_Packet = Some f /\ parity hs f (selected row (block_placed front rest)).
Proof.
  intros Hb [H1 _ _ _] Hlast Hhs. destruct (block_place_bounds front rest Hb) as (_ & Hpl & Hn). unfold kMaxMediaPackets in Hlast. cbn [length] in Hn.
  destruct (PacketMaskSize_covers (last_place 0 (number front) rest + 1)) as [Hsz _]; [lia|].
  destruct (protect_row_parity hs row (front :: rest) 0 (number front) new_Packet [] Hhs (block_media _ _ Hb)) as (f & E & Hf); [|lia|apply parity_new|].
  - rewrite block_placed_eq. apply (proj1 (List.Forall_map fst (fun k => k < 8 * zlen row) (block_placed front rest))). rewrite fst_block_placed.
    eapply list.Forall_impl; [exact Hpl|]. cbv beta. lia.
  - rewrite Z.sub_diag in E. cbn [app] in Hf. rewrite block_placed_eq in Hf. exists f. split; [exact E|exact Hf].
Qed.

Lemma selected_media front rest row : block front rest -> Forall media_ok (selected row (block_placed front rest)).
Proof. intros Hb. rewrite <- block_placed_eq. by apply Forall_selected, block_media. Qed.

Lemma fec_of_rows front rest rows : block front rest -> Forall (row_over front rest) rows -> last_place 0 (number front) rest < kMaxMediaPackets ->
  let size := PacketMaskSize (last_place 0 (number front) rest + 1) in
  exists payloads fecs, GenerateFecPayloads size (front :: rest) rows = Some payloads /\ FinalizeFecHeaders size (number front) rows payloads = Some fecs /\
    Forall2 (fec_of front rest) rows fecs.
Proof.
  intros Hb Hrows Hlast size. destruct (block_place_bounds front rest Hb) as (_ & _ & Hn). destruct (ParseSequenceNumber_number front (bl_front _ _ Hb)) as [Ep _].
  destruct (PacketMaskSize_covers (last_place 0 (number front) rest + 1)) as [_ Hsize]; [unfold kMaxMediaPackets in Hlast; cbn [length] in Hn; lia|]. fold size in Hsize.
  unfold GenerateFecPayloads, FinalizeFecHeaders, FecHeaderSize, MinPacketMaskSize. cbn [head mbind option_bind]. rewrite Ep. cbn [mbind option_bind].
  induction Hrows as [|row rows Hrow Hrows IH]; [by exists [], []|]. destruct IH as (payloads & fecs & E1 & E2 & Hf).
  pose proof Hrow as [Hz Hu _ Hsel]. fold size in Hz. pose proof Hsize as Hsize'. rewrite <- Hz in Hsize'. pose proof (header_size row Hsize') as [_ Hhs]. rewrite Hz in Hhs.
  destruct (protect_row_block front rest row _ Hb Hrow Hlast Hhs) as (f & Ef & Hpar).
  destruct (FinalizeFecHeader_over (number front) row _ f _ Hpar Hsel (selected_media _ _ _ Hb) Hu Hsize') as (f' & Ef' & Hover); [by rewrite Hz|].
  exists (f :: payloads), (f' :: fecs). cbn [mapM zip]. rewrite Ef. cbn [mbind option_bind]. rewrite E1. split; [done|]. cbn [mapM zip fst snd]. rewrite Hz in Ef'. rewrite Ef'.
  cbn [mbind option_bind]. rewrite E2. split; [done|]. constructor; [by split|done].
Qed.

(** Each packet of the block is in one of the FEC packets. *)
Definition all_protected (front : Packet) (rest : list Packet) (rows : list (list Z)) : Prop :=
  Forall (fun k => Exists (fun row => row_bit row k = true) rows) (block_places front rest).

Lemma spread_rows_over front rest old new : block front rest -> last_place 0 (number front) rest < kMaxMediaPackets ->
  protects (Z.of_nat (length (front :: rest))) old ->
  Forall2 (spread (block_places front rest) (PacketMaskSize (last_place 0 (number front) rest + 1))) old new ->
  Forall (row_over front rest) new /\ all_protected front rest new /\ length new = length old.
Proof.
  intros Hb Hlast [_ Hrow Hall] Hsp. split_and!; [| |symmetry; by eapply Forall2_length].
  - clear Hall. induction Hsp as [|o n old new Hon Hsp IH]; [constructor|]. apply list.Forall_cons in Hrow as [Ho Hrow]. constructor; [|by apply IH].
    by apply (spread_row_over _ _ _ _ _ Hb eq_refl Hlast Hon).
  - destruct (block_place_bounds front rest Hb) as (Hinc & Hpl & Hn). apply list.Forall_lookup. intros i k Hk.
    pose proof (lookup_lt_Some _ _ _ Hk) as Hi. cbn [block_places length] in Hi. rewrite length_places in Hi. cbn [length] in Hall.
    specialize (Hall (Z.of_nat i) ltac:(lia)). rewrite list.Forall_lookup in Hpl. specialize (Hpl _ _ Hk). cbv beta in Hpl. unfold kMaxMediaPackets in Hlast.
    destruct (PacketMaskSize_covers (last_place 0 (number front) rest + 1)) as [Hsz _]; [lia|].
    induction Hsp as [|o n old new Hon Hsp IH]; [by apply List.Exists_nil in Hall|]. apply list.Forall_cons in Hrow as [_ Hrow]. apply List.Exists_cons in Hall as [Ho|Ho].
    + left. destruct Hon as [_ _ H3]. rewrite H3 by lia. rewrite (want_at 0 o 0 _ i k Hinc Hk). by rewrite Z.add_0_l.
    + right. by apply IH.
Qed.

(** The outcomes of the encoder: no protection, a block that is too long, or FEC packets
    that protect all of it. *)
Lemma EncodeFec_outcome front rest pf imp uep t : block front rest -> Z.of_nat (length (front :: rest)) <= kMaxMediaPackets -> 0 <= pf <= 255 ->
  0 <= imp <= Z.of_nat (length (front :: rest)) ->
  if pf =? 0 then EncodeFec (front :: rest) pf imp uep t = Some (0, [])
  else if kMaxMediaPackets <=? last_place 0 (number front) rest then EncodeFec (front :: rest) pf imp uep t = Some (-1, [])
  else exists rows fecs, EncodeFec (front :: rest) pf imp uep t = Some (0, fecs) /\ Forall2 (fec_of front rest) rows fecs /\ all_protected front rest rows /\
    Z.of_nat (length fecs) = NumFecPackets (Z.of_nat (length (front :: rest))) pf.
Proof.
  intros Hb Hn Hpf Himp. unfold EncodeFec. set (n := Z.of_nat (length (front :: rest))) in *. cbv zeta.
  rewrite (proj2 (Z.ltb_ge kMaxMediaPackets n)) by done.
  assert (Hlong : existsb (fun p => fp_length p <? kRtpHeaderSize) (front :: rest) = false).
  { apply not_true_is_false. intros (p & Hp & Hl)%existsb_exists. apply list_elem_of_In in Hp. pose proof (block_media _ _ Hb) as Hm. rewrite list.Forall_forall in Hm.
    destruct (Hm p Hp) as [_ Hlen _]. lia. }
  rewrite Hlong. assert (Hn1 : 1 <= n) by (subst n; cbn [length]; lia). pose proof (NumFecPackets_bounds n pf Hn1 Hpf) as Hnum.
  destruct (Z.eqb_spec pf 0) as [->|Hp]; [by rewrite Hnum|]. set (m := NumFecPackets n pf) in *. rewrite (proj2 (Z.eqb_neq m 0)) by lia.
  unfold kMaxMediaPackets in Hn.
  destruct (GeneratePacketMasks_protects (PickTable t n) n m imp uep (PickTable_is_table _ _) Hnum) as (masks & -> & Hm & Hprot); [lia|lia|]. cbn [mbind option_bind].
  destruct (PacketMaskSize_covers n) as [Hcov _]; [lia|].
  assert (Erows : rows_of (Z.to_nat m) (Z.to_nat (PacketMaskSize n)) (concat masks) = masks).
  { rewrite <- Hm, Nat2Z.id. apply rows_of_concat. rewrite Z2Nat.id by lia. by apply protects_sized. }
  rewrite Erows. pose proof Hb as [Hfront Hrest Hord Hspan].
  destruct (Z.leb_spec kMaxMediaPackets (last_place 0 (number front) rest)) as [Hfar|Hnear].
  - rewrite InsertZeros_far by (done || (fold n; unfold kMaxMediaPackets; lia)). done.
  - destruct (InsertZeros_spread front rest masks Hfront Hrest Hord (pr_masks _ _ Hprot) Hnear) as (rows & -> & Hsp). cbn [mbind option_bind].
    destruct (block_place_bounds front rest Hb) as (_ & _ & Hlast). fold n in Hlast. rewrite (proj2 (Z.ltb_ge (last_place 0 (number front) rest + 1) 0)) by lia.
    destruct (spread_rows_over front rest masks rows Hb Hnear Hprot Hsp) as (Hrows & Hall & Hlen).
    destruct (fec_of_rows front rest rows Hb Hrows Hnear) as (payloads & fecs & -> & E2 & Hf). cbn [mbind option_bind head].
    assert (Essrc : exists s, ParseSsrc front = Some s).
    { destruct Hfront as [[Hz _] _ _]. unfold IP_PACKET_SIZE in Hz. unfold ParseSsrc. rewrite !get0_zget by lia. cbn [mbind option_bind]. by eexists. }
    destruct Essrc as [s ->]. cbn [mbind option_bind]. destruct (ParseSequenceNumber_number front Hfront) as [-> _]. cbn [mbind option_bind]. rewrite E2. cbn [mbind option_bind].
    exists rows, fecs. split_and!; [done|done|done|]. apply Forall2_length in Hf. lia.
Qed.
