(* ===== verification/FecRecover.v ===== *)
(** * Forward error correction: recovery of a packet

    A FEC packet, from its header, and all but one of the packets it protects
    give the missing one back, byte for byte. *)

From S2P Require Import Prelude ByteIo Rtcp FecPacket FecParity.

Open Scope Z_scope.
Open Scope c_scope.

(** The header is read, and the length is moved to where the other fields are. *)
Record parity_of (l : list Packet) (f : ReceivedFecPacket) : Prop := {
  po_buffer : is_buffer (fp_data (rf_pkt f));
  po_header_size : 12 <= fec_header_size f <= 18;
  po_length : fp_length (rf_pkt f) = fec_header_size f + max_payload l;
  po_protection : protection_length f = max_payload l;
  po_first : forall n, 0 <= n < 6 -> Z.testbit (get0 (fp_data (rf_pkt f)) 0) n = Z.testbit (xsum (recovery_byte 0) l) n;
  po_header : forall j, 1 <= j < 8 -> get0 (fp_data (rf_pkt f)) j = xsum (recovery_byte j) l;
  po_payload : forall i, 0 <= i -> fec_header_size f + i < IP_PACKET_SIZE -> get0 (fp_data (rf_pkt f)) (fec_header_size f + i) = xsum (payload_byte i) l;
}.

Lemma read_bytes_get0 d off bs :
  0 <= off -> off + zlen bs <= zlen d -> (forall j, 0 <= j < zlen bs -> get0 d (off + j) = get0 bs j) -> read_bytes d off (zlen bs) = Some bs.
Proof.
  intros H1 H2 Hg. apply read_bytes_spec. split_and!; [done|done|done|]. intros j Hj. rewrite !get0_zget by lia. by rewrite Hg.
Qed.

Lemma read_u16_get0 d off v :
  Forall is_u8 d -> is_u16 v -> 0 <= off -> off + 2 <= zlen d -> (forall j, 0 <= j < 2 -> get0 d (off + j) = get0 (be_bytes 2 v) j) ->
  ReadBigEndian 2 d off = Some v.
Proof. intros Hu Hv H1 H2 Hg. apply read_u16; [done|done|]. apply (read_bytes_get0 d off (be_bytes 2 v)); by rewrite ?zlen_be_bytes. Qed.

Lemma ReadFecHeader_over base row l r :
  fec_over base row l (rf_pkt r) -> Forall media_ok l -> is_u16 base -> exists f,
    ReadFecHeader r = Some f /\ parity_of l f /\ rf_ssrc f = rf_ssrc r /\ rf_seq_num f = rf_seq_num r /\ protected_packets f = protected_packets r /\
    protected_ssrc f = rf_ssrc r /\ seq_num_base f = base /\ packet_mask_offset f = 12 /\ packet_mask_size f = zlen row /\
    forall j, 0 <= j < zlen row -> get0 (fp_data (rf_pkt f)) (12 + j) = get0 row j.
Proof.
  intros [[H0 Hu] H1 H2 H3 H4 H5 H6 H7 H8 H9 H10] Hl Hb. pose proof (header_size row H1) as [Ehs Hhs].
  pose proof (max_payload_bound l Hl). pose proof (max_payload_nonneg l). unfold IP_PACKET_SIZE in *.
  unfold ReadFecHeader. cbv zeta. rewrite (get0_zget _ 0) by lia. cbn [mbind option_bind].
  change 0x40 with (Z.shiftl 1 6). rewrite land_bit, negb_involutive, H3 by lia.
  assert (Esz : (if zlen row =? kUlpfecPacketMaskSizeLBitSet then kUlpfecPacketMaskSizeLBitSet else kUlpfecPacketMaskSizeLBitClear) = zlen row)
    by (destruct H1 as [->| ->]; done).
  rewrite Esz. rewrite (read_u16_get0 _ 2 base), (read_u16_get0 _ 10 (max_payload l)) by (try done; try lia; unfold is_u16; lia). cbn [mbind option_bind].
  unfold memmove. destruct (copy_get0 (fp_data (rf_pkt r)) 8 2 (fp_data (rf_pkt r)) 2) as (b & d & -> & E & Hd & Hg); [lia..|]. cbn [mbind option_bind]. rewrite E.
  cbn [mbind option_bind]. eexists. split; [reflexivity|].
  split; [|split_and!; try done; cbn [set rf_pkt fp_data]; intros j Hj; rewrite Hg; places; by apply H9].
  split; cbn [set rf_pkt fp_data fp_length fec_header_size protection_length]; [|done|lia|done|..].
  - split; [unfold IP_PACKET_SIZE; lia|]. apply Forall_get0. intros i _. rewrite Hg. destruct (_ && _); by apply get0_u8.
  - intros n Hn. rewrite Hg. places. by apply H4.
  - intros j Hj. rewrite Hg. assert (Hj' : 2 <= j < 4 \/ j = 1 \/ 4 <= j < 8) by lia. destruct Hj' as [Hj'|Hj'].
    + places. rewrite H7 by lia. f_equal. f_equal. lia.
    + destruct Hj' as [->|Hj']; places; apply H5; lia.
  - intros i Hi Hi'. rewrite Hg. places. by apply H10.
Qed.

(** ** The other packets *)

Definition present (p : Packet) : ProtectedPacket := mkProtected (number p) (Some p).

Lemma xor_present_all l rest seq st :
  Forall media_ok l -> zlen (fp_data st) = IP_PACKET_SIZE ->
  exists d, xor_present (map present l ++ rest) seq st = xor_present rest seq (mkFp (fp_length st) d) /\ zlen d = IP_PACKET_SIZE /\
    forall j, get0 d j = Z.lxor (get0 (fp_data st) j)
      (if (0 <=? j) && (j <? 8) then xsum (recovery_byte j) l else if 12 <=? j then xsum (payload_byte (j - 12)) l else 0).
Proof.
  intros Hl. revert st. induction Hl as [|p l Hp Hl IH]; intros st Hst; cbn [map app].
  - exists (fp_data st). split_and!; [by destruct st|done|]. intros j. cbn. destruct (_ && _); [|destruct (_ <=? _)]; by rewrite Z.lxor_0_r.
  - cbn [xor_present present pp_pkt]. destruct (XorHeaders_get0 p st Hp Hst) as (d1 & -> & Hd1 & Hg1). cbn [mbind option_bind].
    pose proof Hp as [_ Hlen _]. unfold IP_PACKET_SIZE, kRtpHeaderSize in *.
    destruct (XorPayloads_get0 p (fp_length p) 12 (mkFp (fp_length st) d1) Hp Hd1) as (d2 & -> & Hd2 & Hg2);
      [unfold payload_len, IP_PACKET_SIZE, kRtpHeaderSize; lia|lia|unfold IP_PACKET_SIZE; lia|]. cbn [mbind option_bind fp_length fp_data] in *.
    destruct (IH (mkFp (fp_length st) d2) Hd2) as (d & E & Hd & Hg). cbn [fp_length fp_data] in *. exists d. split_and!; [done|done|]. intros j.
    rewrite Hg, Hg2, Hg1. cbn [xsum fold_right]. fold (xsum (recovery_byte j) l). fold (xsum (payload_byte (j - 12)) l).
    destruct (Z.leb_spec 0 j), (Z.ltb_spec j 8); cbn [andb]; places; try by rewrite Z.lxor_assoc. all: by destruct (12 <=? j); rewrite ?Z.lxor_assoc.
Qed.

(** ** Recovery *)

(** A packet of the stream [ssrc], as RTP has it *)
Record genuine (ssrc : Z) (p : Packet) : Prop := {
  ge_media : media_ok p;
  ge_version1 : Z.testbit (get0 (fp_data p) 0) 7 = true;
  ge_version0 : Z.testbit (get0 (fp_data p) 0) 6 = false;
  ge_ssrc : forall j, 0 <= j < 4 -> get0 (fp_data p) (8 + j) = get0 (be_bytes 4 ssrc) j;
}.

Lemma StartPacketRecovery_copy l f :
  parity_of l f -> Forall media_ok l -> exists d, StartPacketRecovery f = Some (Some (mkFp 0 d)) /\ zlen d = IP_PACKET_SIZE /\
    (forall j, 0 <= j < 12 -> get0 d j = get0 (fp_data (rf_pkt f)) j) /\
    (forall i, 0 <= i < 1488 -> get0 d (12 + i) = xsum (payload_byte i) l).
Proof.
  intros [[H0 Hu] H1 H2 H3 H4 H5 H6] Hl. pose proof (max_payload_bound l Hl) as Hm. pose proof (max_payload_nonneg l) as Hm0.
  assert (Hnew : zlen (fp_data new_Packet) = 1500) by (cbn [new_Packet fp_data]; rewrite zlen_replicate; done).
  assert (Hzero : forall j, get0 (fp_data new_Packet) j = 0).
  { intros j. unfold get0. destruct (zget (fp_data new_Packet) j) as [v|] eqn:E; [|done]. cbn [new_Packet fp_data] in E. unfold zget in E.
    destruct (j <? 0); [done|]. apply lookup_replicate in E as [-> _]. done. }
  unfold StartPacketRecovery, IP_PACKET_SIZE, kRtpHeaderSize in *. rewrite (proj2 (Z.ltb_ge (fp_length _) _)) by lia.
  destruct (copy_get0 (fp_data (rf_pkt f)) 0 12 (fp_data new_Packet) 0) as (b1 & d1 & -> & E1 & Hd1 & Hg1); [lia..|]. cbn [mbind option_bind]. rewrite E1.
  cbn [mbind option_bind]. rewrite (proj2 (Z.ltb_ge _ (protection_length f))) by lia.
  destruct (copy_get0 (fp_data (rf_pkt f)) (fec_header_size f) (protection_length f) d1 12) as (b2 & d2 & -> & E2 & Hd2 & Hg2); [lia..|].
  cbn [mbind option_bind]. rewrite E2. cbn [mbind option_bind]. exists d2. split_and!; [done|lia|..].
  - intros j Hj. rewrite Hg2, Hg1. places. f_equal. lia.
  - intros i Hi. rewrite Hg2, Hg1. places. destruct (Z.ltb_spec (12 + i) (12 + protection_length f)).
    + replace (fec_header_size f + (12 + i - 12)) with (fec_header_size f + i) by lia. apply H6; lia.
    + rewrite Hzero. symmetry. assert (Hi' : max_payload l <= i) by lia. clear -Hl Hi'.
      induction Hl as [|p l Hp Hl IH]; [done|]. unfold max_payload in Hi'. cbn [fold_right] in Hi'. fold (max_payload l) in Hi'. cbn [xsum fold_right].
      fold (xsum (payload_byte i) l). rewrite IH, payload_zero by (done || lia). done.
Qed.

Lemma recovery_byte_0 p : recovery_byte 0 p = get0 (fp_data p) 0.
Proof. done. Qed.

(** The first byte, whose two highest bits are those of the version *)
Lemma version_byte x y : is_u8 y -> Z.testbit y 7 = true -> Z.testbit y 6 = false -> is_u8 x ->
  (forall n, 0 <= n < 6 -> Z.testbit x n = Z.testbit y n) -> Z.land (Z.lor x 0x80) 0xbf = y.
Proof.
  intros Hy H7 H6 Hx Hn. apply Z.bits_inj'. intros n Hn0. rewrite Z.land_spec, Z.lor_spec.
  assert (Hhigh : forall z, is_u8 z -> 8 <= n -> Z.testbit z n = false).
  { intros z Hz H8. apply Z.bits_above_log2; [unfold is_u8 in Hz; lia|]. pose proof (log_u8 z Hz). lia. }
  assert (Hc : n = 7 \/ n = 6 \/ 8 <= n \/ 0 <= n < 6) by lia. destruct Hc as [->|[->|[Hc|Hc]]].
  - rewrite H7. by rewrite orb_true_r.
  - rewrite H6. by rewrite andb_false_r.
  - by rewrite !Hhigh by (done || clia).
  - rewrite Hn by done. assert (Hc' : n = 0 \/ n = 1 \/ n = 2 \/ n = 3 \/ n = 4 \/ n = 5) by lia.
    destruct Hc' as [->|[->|[->|[->|[->| ->]]]]]; cbn [Z.testbit]; by rewrite orb_false_r, andb_true_r.
Qed.

Lemma be_two v j : is_u16 v -> 0 <= j < 2 -> get0 (be_bytes 2 v) j = if j =? 0 then v / 256 else v mod 256.
Proof.
  intros Hv Hj. unfold is_u16 in Hv. assert (Hc : j = 0 \/ j = 1) by lia. destruct Hc as [->| ->].
  - change (get0 (be_bytes 2 v) 0) with (u8 (Z.shiftr v 8)). rewrite shiftr_div by lia. change (2 ^ 8) with 256. cbn [Z.eqb].
    unfold u8. change (2 ^ 8) with 256. rewrite Z.mod_small by (Z.div_mod_to_equations; lia). done.
  - change (get0 (be_bytes 2 v) 1) with (u8 (Z.shiftr v 0)). by rewrite Z.shiftr_0_r.
Qed.

Lemma number_bytes p j : media_ok p -> 0 <= j < 2 -> get0 (be_bytes 2 (number p)) j = get0 (fp_data p) (2 + j).
Proof.
  intros Hp Hj. destruct (ParseSequenceNumber_number p Hp) as [_ Hn]. rewrite be_two by done. unfold number.
  pose proof (get0_u8 (fp_data p) 2 (proj2 (mo_buffer _ Hp))) as H2. pose proof (get0_u8 (fp_data p) 3 (proj2 (mo_buffer _ Hp))) as H3. unfold is_u8 in *.
  assert (Hc : j = 0 \/ j = 1) by lia. destruct Hc as [->| ->]; cbn [Z.eqb]; change (2 + 0) with 2; change (2 + 1) with 3; Z.div_mod_to_equations; lia.
Qed.

(** The end of the recovery, once the other packets are taken off. *)
Lemma FinishPacketRecovery_exact ssrc f p st :
  genuine ssrc p -> protected_ssrc f = ssrc -> zlen (fp_data st) = IP_PACKET_SIZE -> Forall is_u8 (fp_data st) ->
  (forall n, 0 <= n < 6 -> Z.testbit (get0 (fp_data st) 0) n = Z.testbit (get0 (fp_data p) 0) n) ->
  (forall j, 1 <= j < 8 -> get0 (fp_data st) j = recovery_byte j p) ->
  (forall i, 0 <= i < 1488 -> get0 (fp_data st) (12 + i) = payload_byte i p) ->
  FinishPacketRecovery f (number p) st = Some (Some p).
Proof.
  intros [Hp V7 V6 Hssrc] Hf Hz Hu Hfirst Hhead Hpay. pose proof Hp as [[Hb Hub] Hlen _]. unfold FinishPacketRecovery, IP_PACKET_SIZE, kRtpHeaderSize in *.
  destruct (change_at_Some (fp_data st) 0 (fun b => Z.lor b 0x80)) as (d1 & -> & Hl1 & Hg1); [lia|]. cbn [mbind option_bind].
  destruct (change_at_Some d1 0 (fun b => Z.land b 0xbf)) as (d2 & -> & Hl2 & Hg2); [lia|]. cbn [mbind option_bind].
  assert (G2 : forall j, get0 d2 j = if j =? 0 then get0 (fp_data p) 0 else get0 (fp_data st) j).
  { intros j. rewrite Hg2, Hg1. destruct (Z.eqb_spec j 0) as [->|]; [|done].
    apply version_byte; [by apply get0_u8|done|done|by apply get0_u8|done]. }
  assert (Hu2 : Forall is_u8 d2) by (apply Forall_get0; intros i _; rewrite G2; destruct (i =? 0); by apply get0_u8).
  assert (Hpl : is_u16 (payload_len p)) by (unfold payload_len, kRtpHeaderSize, is_u16; lia).
  rewrite (read_u16_get0 d2 2 (payload_len p)); [|done|done|lia|lia|].
  - cbn [mbind option_bind]. unfold payload_len, kRtpHeaderSize. replace (fp_length p - 12 + 12) with (fp_length p) by lia.
    rewrite (proj2 (Z.ltb_ge _ _)) by lia. rewrite Hf.
    destruct (WriteBigEndian_get0 2 d2 2 (number p)) as (d3 & -> & Hl3 & Hg3); [lia..|]. cbn [mbind option_bind].
    destruct (WriteBigEndian_get0 4 d3 8 ssrc) as (d4 & -> & Hl4 & Hg4); [lia..|]. cbn [mbind option_bind]. do 2 f_equal. destruct p as [len dp]. cbn [fp_length fp_data] in *.
    f_equal. apply get0_ext; [lia|]. intros i Hi. rewrite Hg4, Hg3, G2.
    assert (Hc : i = 0 \/ i = 1 \/ 2 <= i < 4 \/ 4 <= i < 8 \/ 8 <= i < 12 \/ 12 <= i) by lia. destruct Hc as [->|[->|[Hc|[Hc|[Hc|Hc]]]]].
    + done.
    + places. rewrite Hhead by lia. done.
    + places. rewrite (number_bytes (mkFp len dp)) by (done || lia). cbn [fp_data]. f_equal. lia.
    + places. rewrite Hhead by lia. unfold recovery_byte. places. done.
    + places. rewrite <- Hssrc by lia. f_equal. lia.
    + places. replace i with (12 + (i - 12)) by lia. rewrite Hpay by lia. done.
  - intros j Hj. rewrite G2. places. rewrite Hhead by lia. unfold recovery_byte. places. f_equal. lia.
Qed.

Lemma RecoverPacket_exact garbage ssrc f l1 p l2 :
  parity_of (l1 ++ p :: l2) f -> Forall media_ok (l1 ++ p :: l2) -> genuine ssrc p -> protected_ssrc f = ssrc ->
  protected_packets f = map present l1 ++ mkProtected (number p) None :: map present l2 ->
  RecoverPacket garbage f = Some (Some (number p, p)).
Proof.
  intros Hpar Hl Hp Hf Hpk. pose proof Hl as [Hl1 [_ Hl2]%list.Forall_cons]%list.Forall_app.
  destruct (StartPacketRecovery_copy _ f Hpar Hl) as (d & E & Hd & Hg & Hgp). unfold RecoverPacket. rewrite E. cbn [mbind option_bind]. rewrite Hpk.
  destruct (xor_present_all l1 (mkProtected (number p) None :: map present l2) garbage (mkFp 0 d) Hl1 Hd) as (d1 & -> & Hd1 & Hg1).
  cbn [xor_present pp_pkt pp_seq_num fp_length fp_data] in *.
  destruct (xor_present_all l2 [] (number p) (mkFp 0 d1) Hl2 Hd1) as (d2 & E2 & Hd2 & Hg2). rewrite app_nil_r in E2. rewrite E2. cbn [xor_present mbind option_bind fp_length fp_data] in *.
  assert (Hu2 : Forall is_u8 d2).
  { assert (Hud : Forall is_u8 d).
    { apply Forall_get0. intros i Hi. rewrite Hd in Hi. unfold IP_PACKET_SIZE in Hi. destruct (decide (i < 12)); [rewrite Hg by lia; apply get0_u8, (po_buffer _ _ Hpar)|].
      replace i with (12 + (i - 12)) by lia. rewrite Hgp by lia. apply xsum_media_u8; [done|]. intros q. apply payload_u8. }
    assert (Hx : forall l j, Forall media_ok l ->
      is_u8 (if (0 <=? j) && (j <? 8) then xsum (recovery_byte j) l else if 12 <=? j then xsum (payload_byte (j - 12)) l else 0)).
    { intros l j Hlm. destruct (_ && _); [apply xsum_media_u8; [done|]; intros q; apply recovery_u8|].
      destruct (12 <=? j); [apply xsum_media_u8; [done|]; intros q; apply payload_u8|]. unfold is_u8. lia. }
    apply Forall_get0. intros i _. rewrite Hg2, Hg1. repeat apply u8_lxor; [by apply get0_u8|by apply Hx|by apply Hx]. }
  rewrite (FinishPacketRecovery_exact ssrc f p (mkFp 0 d2)); cbn [fp_data]; try done.
  - intros n Hn. rewrite Hg2, Hg1. cbn [Z.leb Z.ltb Z.compare andb]. rewrite Hg by lia. rewrite !Z.lxor_spec, (po_first _ _ Hpar) by done.
    rewrite <- !Z.lxor_spec, Z.lxor_assoc, xsum_cancel. done.
  - intros j Hj. rewrite Hg2, Hg1. places. rewrite Hg by lia. rewrite (po_header _ _ Hpar) by lia. rewrite Z.lxor_assoc. apply xsum_cancel.
  - intros i Hi. rewrite Hg2, Hg1. places. replace (12 + i - 12) with i by lia. rewrite Hgp by lia. rewrite Z.lxor_assoc. apply xsum_cancel.
Qed.
