(* ===== verification/FecDecode.v ===== *)
(** * Forward error correction: decoder

    [ForwardErrorCorrection::DecodeFec]: received media packets are kept sorted by
    number, received FEC packets with what they miss; a FEC packet that misses one
    packet recovers it, which may let others recover theirs. *)

From S2P Require Import Prelude ByteIo Rtcp TransportFeedback FecPacket.

Open Scope Z_scope.
Open Scope c_scope.

(** ** Data *)

Record ReceivedPacket := mkReceived { rcv_ssrc : Z; rcv_seq_num : Z; is_fec : bool; rcv_pkt : Packet }.

Record RecoveredPacket := mkRecovered { rec_ssrc : Z; rec_seq_num : Z; was_recovered : bool; returned : bool; rec_pkt : Packet }.

(** The members the decoder uses *)
Record Fec := mkFec { ssrc_ : Z; protected_media_ssrc_ : Z; received_fec_packets_ : list ReceivedFecPacket }.

#[export] Instance eta_Fec : Eta Fec := fun d => mkFec (ssrc_ d) (protected_media_ssrc_ d) (received_fec_packets_ d).

Definition CreateUlpfec (ssrc : Z) : Fec := mkFec ssrc ssrc [].

(** ** Order *)

(** [SortablePacket::LessThan] on numbers *)
Definition LessThan (first second : Z) : bool := IsNewerSequenceNumber second first.

(** [MinDiff] of two [uint16_t] *)
Definition MinDiff (a b : Z) : Z := Z.min (u16 (b - a)) (u16 (a - b)).

(** [list::sort], a stable sort *)
Fixpoint insert_sorted {A} (key : A -> Z) (x : A) (l : list A) : list A :=
  match l with
  | [] => [x]
  | y :: l' => if LessThan (key y) (key x) then y :: insert_sorted key x l' else x :: l
  end.

Definition sort {A} (key : A -> Z) (l : list A) : list A := fold_right (insert_sorted key) [] l.

(** [std::lower_bound] for a packet with number [seq_num]; [n] bounds the rounds. *)
Fixpoint protected_lower_bound (n : nat) (l : list ProtectedPacket) (seq_num : Z) (first len : nat) : nat :=
  match n with
  | O => first
  | S n =>
      match len with
      | O => first
      | _ =>
          let half := Nat.div2 len in
          match l !! (first + half)%nat with
          | None => first
          | Some p => if LessThan (pp_seq_num p) seq_num then protected_lower_bound n l seq_num (first + half + 1) (len - half - 1) else protected_lower_bound n l seq_num first half
          end
      end
  end.

(** ** Operations *)

Definition ResetState (d : Fec) : Fec * list RecoveredPacket := (d <| received_fec_packets_ := [] |>, []).

Definition cover (seq_num : Z) (pkt : Packet) (fec_packet : ReceivedFecPacket) : ReceivedFecPacket :=
  let l := protected_packets fec_packet in
  let protected_it := protected_lower_bound (length l) l seq_num 0 (length l) in
  match l !! protected_it with
  | Some p => if pp_seq_num p =? seq_num then fec_packet <| protected_packets := <[protected_it := mkProtected (pp_seq_num p) (Some pkt)]> l |> else fec_packet
  | None => fec_packet
  end.

Definition UpdateCoveringFecPackets (seq_num : Z) (pkt : Packet) (l : list ReceivedFecPacket) : list ReceivedFecPacket := map (cover seq_num pkt) l.

Definition InsertMediaPacket (d : Fec) (recovered_packets : list RecoveredPacket) (received_packet : ReceivedPacket) : Fec * list RecoveredPacket :=
  if existsb (fun r => rec_seq_num r =? rcv_seq_num received_packet) recovered_packets then (d, recovered_packets)
  else
    let recovered_packet := mkRecovered (rcv_ssrc received_packet) (rcv_seq_num received_packet) false true (rcv_pkt received_packet) in
    (d <| received_fec_packets_ := UpdateCoveringFecPackets (rcv_seq_num received_packet) (rcv_pkt received_packet) (received_fec_packets_ d) |>,
     sort rec_seq_num (recovered_packets ++ [recovered_packet])).

(** The merge of both lists; [n] bounds the rounds. *)
Fixpoint assign_slots (n : nat) (protected : list ProtectedPacket) (recovered : list RecoveredPacket) : list ProtectedPacket :=
  match n, protected, recovered with
  | S n, p :: protected', r :: recovered' =>
      if LessThan (pp_seq_num p) (rec_seq_num r) then p :: assign_slots n protected' recovered
      else if LessThan (rec_seq_num r) (pp_seq_num p) then assign_slots n protected recovered'
      else mkProtected (pp_seq_num p) (Some (rec_pkt r)) :: assign_slots n protected' recovered'
  | _, _, _ => protected
  end.

Definition AssignRecoveredPackets (recovered_packets : list RecoveredPacket) (fec_packet : ReceivedFecPacket) : ReceivedFecPacket :=
  fec_packet <| protected_packets := assign_slots (length (protected_packets fec_packet) + length recovered_packets) (protected_packets fec_packet) recovered_packets |>.

(** The packets of one byte of the mask *)
Definition mask_byte_packets (base byte_idx packet_mask : Z) : list ProtectedPacket :=
  omap (fun bit_idx =>
    if negb (Z.land packet_mask (Z.shiftl 1 (7 - bit_idx)) =? 0) then Some (mkProtected (u16 (base + Z.shiftl byte_idx 3 + bit_idx)) None) else None) (seqZ 0 8).

Definition mask_packets (f : ReceivedFecPacket) : option (list ProtectedPacket) :=
  ls ← mapM (fun byte_idx => b ← zget (fp_data (rf_pkt f)) (packet_mask_offset f + byte_idx); Some (mask_byte_packets (seq_num_base f) byte_idx b))
         (seqZ 0 (packet_mask_size f));
  Some (concat ls).

Definition InsertFecPacket (d : Fec) (recovered_packets : list RecoveredPacket) (received_packet : ReceivedPacket) : option Fec :=
  if existsb (fun f => rf_seq_num f =? rcv_seq_num received_packet) (received_fec_packets_ d) then Some d
  else
    fec_packet ← ReadFecHeader (mkReceivedFec (rcv_ssrc received_packet) (rcv_seq_num received_packet) [] 0 0 0 0 0 0 (rcv_pkt received_packet));
    if negb (protected_ssrc fec_packet =? protected_media_ssrc_ d) then Some d
    else
      l ← mask_packets fec_packet;
      let fec_packet := fec_packet <| protected_packets := l |> in
      match l with
      | [] => Some d
      | _ =>
          let fec_packet := AssignRecoveredPackets recovered_packets fec_packet in
          let fecs := sort rf_seq_num (received_fec_packets_ d ++ [fec_packet]) in
          Some (d <| received_fec_packets_ := if kMaxFecPackets <? Z.of_nat (length fecs) then tail fecs else fecs |>)
      end.

Fixpoint DiscardOldRecoveredPackets (recovered_packets : list RecoveredPacket) : list RecoveredPacket :=
  match recovered_packets with
  | [] => []
  | _ :: rest => if kMaxMediaPackets <? Z.of_nat (length recovered_packets) then DiscardOldRecoveredPackets rest else recovered_packets
  end.

(** Old FEC packets at the front *)
Fixpoint discard_fec (seq_num : Z) (l : list ReceivedFecPacket) : list ReceivedFecPacket :=
  match l with
  | [] => []
  | f :: rest => if 0x3fff <? MinDiff seq_num (rf_seq_num f) then discard_fec seq_num rest else l
  end.

Definition InsertPacket (d : Fec) (received_packet : ReceivedPacket) (recovered_packets : list RecoveredPacket) : option (Fec * list RecoveredPacket) :=
  let d := match received_fec_packets_ d with
           | f :: _ => if rcv_ssrc received_packet =? rf_ssrc f then d <| received_fec_packets_ := discard_fec (rcv_seq_num received_packet) (received_fec_packets_ d) |> else d
           | [] => d
           end in
  inserted ← (if is_fec received_packet then d ← InsertFecPacket d recovered_packets received_packet; Some (d, recovered_packets)
              else Some (InsertMediaPacket d recovered_packets received_packet));
  let '(d, recovered_packets) := (inserted : Fec * list RecoveredPacket) in
  Some (d, DiscardOldRecoveredPackets recovered_packets).

(** At most 2 *)
Fixpoint NumCoveredPacketsMissing (l : list ProtectedPacket) (packets_missing : Z) : Z :=
  match l with
  | [] => packets_missing
  | p :: l =>
      match pp_pkt p with
      | None => let packets_missing := packets_missing + 1 in if 1 <? packets_missing then packets_missing else NumCoveredPacketsMissing l packets_missing
      | Some _ => NumCoveredPacketsMissing l packets_missing
      end
  end.

Section recovery.
(** What the number of a packet is before it is set *)
Context (garbage : Z).

(** The loop over the FEC packets: those before the iterator, those from it on. [None]
    is an access outside an array, or more than [n] rounds. *)
Fixpoint attempt (n : nat) (before from : list ReceivedFecPacket) (recovered_packets : list RecoveredPacket) : option (list ReceivedFecPacket * list RecoveredPacket) :=
  match from with
  | [] => Some (before, recovered_packets)
  | f :: rest =>
      match n with
      | O => None
      | S n =>
          let packets_missing := NumCoveredPacketsMissing (protected_packets f) 0 in
          if packets_missing =? 1 then
            result ← RecoverPacket garbage f;
            match result with
            | None => attempt n before rest recovered_packets
            | Some (seq_num, pkt) =>
                let recovered_packets := sort rec_seq_num (recovered_packets ++ [mkRecovered (protected_ssrc f) seq_num true false pkt]) in
                let update := UpdateCoveringFecPackets seq_num pkt in
                let recovered_packets := DiscardOldRecoveredPackets recovered_packets in
                attempt n [] (update before ++ update rest) recovered_packets
            end
          else if packets_missing =? 0 then attempt n before rest recovered_packets
          else attempt n (before ++ [f]) rest recovered_packets
      end
  end.

Definition AttemptRecovery (d : Fec) (recovered_packets : list RecoveredPacket) : option (Fec * list RecoveredPacket) :=
  let k := length (received_fec_packets_ d) in
  result ← attempt (S k * S k) [] (received_fec_packets_ d) recovered_packets;
  let '(fecs, recovered_packets) := (result : list ReceivedFecPacket * list RecoveredPacket) in
  Some (d <| received_fec_packets_ := fecs |>, recovered_packets).

Definition DecodeFec (d : Fec) (received_packet : ReceivedPacket) (recovered_packets : list RecoveredPacket) : option (Fec * list RecoveredPacket) :=
  let '(d, recovered_packets) :=
    if Z.of_nat (length recovered_packets) =? kMaxMediaPackets then
      match list.last recovered_packets with
      | Some back_recovered_packet =>
          if (rcv_ssrc received_packet =? rec_ssrc back_recovered_packet)
             && (kMaxMediaPackets <? MinDiff (rcv_seq_num received_packet) (rec_seq_num back_recovered_packet))
          then ResetState d else (d, recovered_packets)
      | None => (d, recovered_packets)
      end
    else (d, recovered_packets) in
  inserted ← InsertPacket d received_packet recovered_packets;
  let '(d, recovered_packets) := (inserted : Fec * list RecoveredPacket) in
  AttemptRecovery d recovered_packets.
End recovery.
