(* ===== verification/FecSound.v ===== *)
(** * Forward error correction: soundness of the decoder

    Whatever packets are lost, repeated or reordered: the decoder accesses no array
    outside its bounds, ends, and recovers nothing but packets that were sent. *)

From S2P Require Import Prelude ByteIo Rtcp TransportFeedback FecPacket FecParity FecRecover FecDecode.

Open Scope Z_scope.
Open Scope c_scope.

(** ** Lists of the decoder *)

Lemma insert_sorted_perm {A} (key : A -> Z) x l : insert_sorted key x l ≡ₚ x :: l.
Proof. induction l as [|y l IH]; cbn [insert_sorted]; [done|]. destruct (LessThan _ _); [|done]. rewrite IH. apply Permutation_swap. Qed.

Lemma sort_perm {A} (key : A -> Z) l : sort key l ≡ₚ l.
Proof. induction l as [|x l IH]; cbn; [done|]. by rewrite insert_sorted_perm, IH. Qed.

Lemma sort_Forall {A} (key : A -> Z) (P : A -> Prop) l : Forall P l -> Forall P (sort key l).
Proof. by rewrite sort_perm. Qed.

Lemma length_sort {A} (key : A -> Z) (l : list A) : length (sort key l) = length l.
Proof. apply Permutation_length, sort_perm. Qed.

Lemma Discard_Forall (P : RecoveredPacket -> Prop) l : Forall P l -> Forall P (DiscardOldRecoveredPackets l).
Proof. induction 1 as [|x l Hx Hl IH]; cbn [DiscardOldRecoveredPackets]; [constructor|]. destruct (_ <? _); [done|by constructor]. Qed.

Lemma Discard_length l : Z.of_nat (length (DiscardOldRecoveredPackets l)) <= kMaxMediaPackets.
Proof. induction l as [|x l IH]; cbn [DiscardOldRecoveredPackets]; [done|]. destruct (Z.ltb_spec kMaxMediaPackets (Z.of_nat (length (x :: l)))); [done|lia]. Qed.

Lemma Discard_id l : Z.of_nat (length l) <= kMaxMediaPackets -> DiscardOldRecoveredPackets l = l.
Proof. destruct l; cbn [DiscardOldRecoveredPackets]; [done|]. intros Hl. by rewrite (proj2 (Z.ltb_ge _ _)). Qed.

Lemma discard_fec_suffix n l : exists k, l = k ++ discard_fec n l.
Proof. induction l as [|f l IH]; cbn [discard_fec]; [by exists []|]. destruct (_ <? _); [|by exists []]. destruct IH as [k E]. exists (f :: k). cbn. by rewrite <- E. Qed.

(** ** The loop of [AttemptRecovery] *)

(** FEC packets that cannot recover anything yet *)
Definition waiting (f : ReceivedFecPacket) : Prop := NumCoveredPacketsMissing (protected_packets f) 0 = 2.

Lemma missing_cases l : NumCoveredPacketsMissing l 0 = 0 \/ NumCoveredPacketsMissing l 0 = 1 \/ NumCoveredPacketsMissing l 0 = 2.
Proof.
  assert (H1 : forall l, NumCoveredPacketsMissing l 1 = 1 \/ NumCoveredPacketsMissing l 1 = 2).
  { clear l. induction l as [|p l IH]; cbn; [auto|]. destruct (pp_pkt p); [done|]. cbn. auto. }
  induction l as [|p l IH]; cbn; [auto|]. destruct (pp_pkt p); [done|]. cbn. destruct (H1 l); auto.
Qed.

Section attempt.
Context (garbage : Z) (I : list ReceivedFecPacket -> list RecoveredPacket -> Prop).
Hypothesis I_drop : forall before f rest recovered, I (before ++ f :: rest) recovered -> NumCoveredPacketsMissing (protected_packets f) 0 = 0 -> I (before ++ rest) recovered.
Hypothesis I_recover : forall before f rest recovered, I (before ++ f :: rest) recovered -> NumCoveredPacketsMissing (protected_packets f) 0 = 1 ->
  exists seq_num pkt, RecoverPacket garbage f = Some (Some (seq_num, pkt)) /\
    I (UpdateCoveringFecPackets seq_num pkt before ++ UpdateCoveringFecPackets seq_num pkt rest)
      (DiscardOldRecoveredPackets (sort rec_seq_num (recovered ++ [mkRecovered (protected_ssrc f) seq_num true false pkt]))).

(** The loop ends, and keeps what its steps keep: each recovery takes a FEC packet away. *)
Lemma attempt_invariant n before from recovered :
  I (before ++ from) recovered -> Forall waiting before ->
  ((length before + length from) * (length before + length from) + length from <= n)%nat ->
  exists fecs recovered', attempt garbage n before from recovered = Some (fecs, recovered') /\ I fecs recovered' /\ Forall waiting fecs.
Proof.
  revert before from recovered. induction n as [|n IH]; intros before from recovered HI Hw Hn; destruct from as [|f rest]; cbn [attempt length] in *; try lia.
  1, 2: exists before, recovered; by rewrite app_nil_r in HI.
  destruct (missing_cases (protected_packets f)) as [E|[E|E]]; rewrite E; cbn [Z.eqb Pos.eqb].
  - apply IH; [by eapply I_drop|done|nia].
  - destruct (I_recover _ _ _ _ HI E) as (seq_num & pkt & -> & HI'). cbn [mbind option_bind].
    apply IH; [done|constructor|]. cbn [length]. unfold UpdateCoveringFecPackets. rewrite length_app, !length_map. nia.
  - apply IH; [by rewrite <- app_assoc|apply list.Forall_app; split; [done|by constructor]|]. rewrite length_app. cbn [length]. nia.
Qed.

Lemma AttemptRecovery_invariant d recovered : I (received_fec_packets_ d) recovered ->
  exists fecs recovered', AttemptRecovery garbage d recovered = Some (d <| received_fec_packets_ := fecs |>, recovered') /\ I fecs recovered' /\ Forall waiting fecs.
Proof.
  intros HI. unfold AttemptRecovery. cbv zeta. destruct (attempt_invariant (S (length (received_fec_packets_ d)) * S (length (received_fec_packets_ d))) [] _ _ HI)
    as (fecs & recovered' & -> & HI' & Hw); [constructor|cbn [length]; nia|]. cbn [mbind option_bind]. by exists fecs, recovered'.
Qed.
End attempt.

(** ** What was sent *)

(** The numbers a mask stands for *)
Definition mask_numbers (base : Z) (row : list Z) : list Z :=
  map (fun k => u16 (base + k)) (filter (fun k => row_bit row k = true) (seqZ 0 (8 * zlen row))).

Lemma mask_byte_numbers base row b : 0 <= b < zlen row ->
  mask_byte_packets base b (get0 row b) = map (fun k => mkProtected (u16 (base + k)) None) (filter (fun k => row_bit row k = true) (seqZ (8 * b) 8)).
Proof.
  intros Hb. unfold mask_byte_packets. rewrite Z.shiftl_mul_pow2 by lia. change (2 ^ 3) with 8.
  assert (E : forall n i, 0 <= i -> i + Z.of_nat n <= 8 -> omap (fun bit_idx => if negb (Z.land (get0 row b) (Z.shiftl 1 (7 - bit_idx)) =? 0)
      then Some (mkProtected (u16 (base + b * 8 + bit_idx)) None) else None) (seqZ i (Z.of_nat n)) =
    map (fun k => mkProtected (u16 (base + k)) None) (filter (fun k => row_bit row k = true) (seqZ (8 * b + i) (Z.of_nat n)))).
  { induction n as [|n IH]; intros i Hi Hn; [done|]. rewrite !(seqZ_cons _ (Z.of_nat (S n))) by lia. cbn [omap list_omap]. rewrite land_bit, negb_involutive by lia.
    replace (Z.pred (Z.of_nat (S n))) with (Z.of_nat n) by lia. rewrite filter_cons.
    assert (Er : row_bit row (8 * b + i) = Z.testbit (get0 row b) (7 - i)).
    { unfold row_bit. replace ((8 * b + i) / 8) with b by (Z.div_mod_to_equations; lia). by replace ((8 * b + i) mod 8) with i by (Z.div_mod_to_equations; lia). }
    rewrite <- Er. change (Z.succ i) with (i + 1). change (Z.succ (8 * b + i)) with (8 * b + i + 1). rewrite (IH (i + 1)) by lia.
    replace (8 * b + (i + 1)) with (8 * b + i + 1) by lia. destruct (row_bit row (8 * b + i)) eqn:Eb.
    - rewrite decide_True by done. cbn [map]. do 3 f_equal. lia.
    - rewrite decide_False by congruence. done. }
  specialize (E 8%nat 0). rewrite Z.add_0_r in E. apply E; lia.
Qed.

Lemma mask_packets_numbers f base row : packet_mask_offset f = 12 -> packet_mask_size f = zlen row -> seq_num_base f = base ->
  zlen (fp_data (rf_pkt f)) = IP_PACKET_SIZE -> zlen row <= 6 -> (forall j, 0 <= j < zlen row -> get0 (fp_data (rf_pkt f)) (12 + j) = get0 row j) ->
  mask_packets f = Some (map (fun k => mkProtected k None) (mask_numbers base row)).
Proof.
  intros H1 H2 H3 H4 H5 H6. unfold mask_packets, mask_numbers. rewrite H1, H2, H3. unfold IP_PACKET_SIZE in H4.
  assert (E : forall n i, 0 <= i -> i + Z.of_nat n <= zlen row -> exists ls,
    mapM (fun byte_idx => b ← zget (fp_data (rf_pkt f)) (12 + byte_idx); Some (mask_byte_packets base byte_idx b)) (seqZ i (Z.of_nat n)) = Some ls /\
    concat ls = map (fun k => mkProtected (u16 (base + k)) None) (filter (fun k => row_bit row k = true) (seqZ (8 * i) (8 * Z.of_nat n)))).
  { induction n as [|n IH]; intros i Hi Hn; [by exists []|]. rewrite (seqZ_cons i) by lia. cbn [mapM]. rewrite get0_zget, H6 by lia. cbn [mbind option_bind].
    rewrite mask_byte_numbers by lia. replace (Z.pred (Z.of_nat (S n))) with (Z.of_nat n) by lia. destruct (IH (Z.succ i)) as (ls & -> & El); [lia|lia|].
    cbn [mbind option_bind]. eexists. split; [reflexivity|]. cbn [concat]. rewrite El.
    replace (8 * Z.of_nat (S n)) with (8 + 8 * Z.of_nat n) by lia. rewrite seqZ_app by lia. rewrite list.filter_app, map_app. by replace (8 * Z.succ i) with (8 * i + 8) by lia. }
  pose proof (zlen_nonneg row) as Hz. destruct (E (length row) 0) as (ls & E1 & E2); [lia|unfold zlen; lia|]. fold (zlen row) in E1, E2. rewrite E1. cbn [mbind option_bind]. rewrite E2.
  f_equal. rewrite map_map. done.
Qed.

Section sent.
(** The stream and its packets by their numbers *)
Context (ssrc : Z) (sent : Z -> option Packet).
Hypothesis sent_genuine : forall k p, sent k = Some p -> genuine ssrc p /\ number p = k.

Definition from_stream (p : Packet) : Prop := sent (number p) = Some p.

(** A FEC packet over packets of the stream *)
Definition fec_good (f : Packet) : Prop := exists base row l,
  fec_over base row l f /\ is_u16 base /\ Forall from_stream l /\ mask_numbers base row = map number l.

Definition arrival_good (r : ReceivedPacket) : Prop :=
  if is_fec r then fec_good (rcv_pkt r) else sent (rcv_seq_num r) = Some (rcv_pkt r).

(** What a protected packet may be *)
Definition slot_of (p : Packet) (q : ProtectedPacket) : Prop := pp_seq_num q = number p /\ (pp_pkt q = None \/ pp_pkt q = Some p).

Definition recovered_good (r : RecoveredPacket) : Prop := sent (rec_seq_num r) = Some (rec_pkt r).

Definition stored_good (f : ReceivedFecPacket) : Prop := exists l,
  parity_of l f /\ Forall from_stream l /\ protected_ssrc f = ssrc /\ Forall2 slot_of l (protected_packets f).

Record all_good (fecs : list ReceivedFecPacket) (recovered : list RecoveredPacket) : Prop := {
  ag_stored : Forall stored_good fecs;
  ag_recovered : Forall recovered_good recovered;
  ag_size : Z.of_nat (length recovered) <= kMaxMediaPackets;
}.

Lemma stream_media l : Forall from_stream l -> Forall media_ok l.
Proof. intros Hl. eapply list.Forall_impl; [exact Hl|]. intros p Hp. by destruct (sent_genuine _ _ Hp) as [[? _ _ _] _]. Qed.

(** One packet is missing. *)
Lemma missing_one l slots : Forall2 slot_of l slots -> NumCoveredPacketsMissing slots 0 = 1 ->
  exists l1 p l2, l = l1 ++ p :: l2 /\ slots = map present l1 ++ mkProtected (number p) None :: map present l2.
Proof.
  assert (H1 : forall l slots, Forall2 slot_of l slots -> NumCoveredPacketsMissing slots 1 = 1 -> slots = map present l).
  { clear l slots. induction 1 as [|p q l slots [Hn Hq] Hs IH]; cbn [NumCoveredPacketsMissing map]; [done|]. destruct q as [n [pk|]]; cbn [pp_pkt pp_seq_num] in *.
    - intros Hm. rewrite IH by done. f_equal. unfold present. destruct Hq as [|Hq]; congruence.
    - done. }
  induction 1 as [|p q l slots [Hn Hq] Hs IH]; cbn [NumCoveredPacketsMissing]; [done|]. destruct q as [n [pk|]]; cbn [pp_pkt pp_seq_num] in *.
  - intros Hm. destruct (IH Hm) as (l1 & p' & l2 & -> & ->). exists (p :: l1), p', l2. split; [done|]. cbn [map app]. f_equal. unfold present.
    destruct Hq as [|Hq]; congruence.
  - cbn [Z.add Z.ltb Z.compare Pos.compare Pos.compare_cont]. intros Hm. exists [], p, l. split; [done|]. cbn [map app]. rewrite Hn. f_equal. by apply H1.
Qed.

Lemma stored_recovers garbage f : stored_good f -> NumCoveredPacketsMissing (protected_packets f) 0 = 1 ->
  exists p, RecoverPacket garbage f = Some (Some (number p, p)) /\ from_stream p /\ mkProtected (number p) None ∈ protected_packets f.
Proof.
  intros (l & Hpar & Hl & Hssrc & Hs) Hm. destruct (missing_one _ _ Hs Hm) as (l1 & p & l2 & -> & E). pose proof (stream_media _ Hl) as Hok.
  pose proof Hl as [_ [Hp _]%list.Forall_cons]%list.Forall_app. exists p. split_and!; [|done|].
  - apply (RecoverPacket_exact garbage ssrc f l1 p l2 Hpar Hok); [by destruct (sent_genuine _ _ Hp)|done|done].
  - rewrite E. apply elem_of_app. right. apply list_elem_of_here.
Qed.

(** Covering keeps everything but the packet of one slot. *)
Definition same_fec (f f' : ReceivedFecPacket) : Prop :=
  rf_seq_num f' = rf_seq_num f /\ rf_ssrc f' = rf_ssrc f /\ protected_ssrc f' = protected_ssrc f /\ fec_header_size f' = fec_header_size f /\
  protection_length f' = protection_length f /\ rf_pkt f' = rf_pkt f.

Lemma parity_of_same l f f' : same_fec f f' -> parity_of l f -> parity_of l f'.
Proof. intros (_ & _ & _ & E1 & E2 & E3) [H1 H2 H3 H4 H5 H6 H7]. split; rewrite ?E1, ?E2, ?E3; done. Qed.

Lemma cover_spec seq_num pkt f : let l := protected_packets f in let i := protected_lower_bound (length l) l seq_num 0 (length l) in
  same_fec f (cover seq_num pkt f) /\
  protected_packets (cover seq_num pkt f) =
    match l !! i with
    | Some q => if pp_seq_num q =? seq_num then <[i := mkProtected seq_num (Some pkt)]> l else l
    | None => l
    end.
Proof.
  cbv zeta. unfold cover. cbv zeta. destruct (_ !! _) as [q|]; [|by split_and!]. destruct (Z.eqb_spec (pp_seq_num q) seq_num) as [->|]; by split_and!.
Qed.

Lemma cover_good seq_num pkt f : sent seq_num = Some pkt -> stored_good f -> stored_good (cover seq_num pkt f).
Proof.
  intros Hpkt (l & Hpar & Hl & Hssrc & Hs). pose proof (cover_spec seq_num pkt f) as [Hsame E]. cbv zeta in E. exists l.
  split_and!; [by eapply parity_of_same|done|by destruct Hsame as (_ & _ & -> & _)|]. rewrite E. destruct (_ !! _) as [q|] eqn:Eq; [|done].
  destruct (Z.eqb_spec (pp_seq_num q) seq_num) as [<-|]; [|done]. destruct (Forall2_lookup_r _ _ _ _ _ Hs Eq) as (p & Hp & [Hn _]).
  rewrite <- (list_insert_id l _ p Hp). apply Forall2_insert; [done|]. split; cbn [pp_seq_num pp_pkt]; [done|right].
  rewrite list.Forall_lookup in Hl. pose proof (Hl _ _ Hp) as Hp'. unfold from_stream in Hp'. rewrite Hn in Hpkt. congruence.
Qed.

Lemma Update_good seq_num pkt fecs : sent seq_num = Some pkt -> Forall stored_good fecs -> Forall stored_good (UpdateCoveringFecPackets seq_num pkt fecs).
Proof. intros Hp Hf. unfold UpdateCoveringFecPackets. apply List.Forall_map. eapply list.Forall_impl; [exact Hf|]. intros f. by apply cover_good. Qed.

Lemma assign_good n l slots recovered : Forall from_stream l -> Forall recovered_good recovered -> Forall2 slot_of l slots -> Forall2 slot_of l (assign_slots n slots recovered).
Proof.
  intros Hl Hr Hs. revert l slots recovered Hl Hr Hs. induction n as [|n IH]; intros l slots recovered Hl Hr Hs; cbn [assign_slots]; [done|].
  destruct slots as [|q slots]; [done|]. destruct recovered as [|r recovered]; [done|]. inversion Hs as [|p q' l' slots' Hpq Hs']; subst. clear Hs.
  apply list.Forall_cons in Hl as [Hp Hl]. pose proof Hr as [Hr1 Hr2]%list.Forall_cons.
  destruct (LessThan (pp_seq_num q) (rec_seq_num r)) eqn:E1; [constructor; [done|]; by apply IH|].
  destruct (LessThan (rec_seq_num r) (pp_seq_num q)) eqn:E2; [apply IH; [by constructor|done|by constructor]|].
  constructor; [|by apply IH]. destruct Hpq as [Hn _]. split; cbn [pp_seq_num pp_pkt]; [done|right].
  assert (Heq : pp_seq_num q = rec_seq_num r).
  { unfold LessThan in E1, E2. unfold recovered_good in Hr1. destruct (sent_genuine _ _ Hp) as [[Hm _ _ _] _]. destruct (sent_genuine _ _ Hr1) as [[Hm' _ _ _] Hn'].
    pose proof (proj2 (ParseSequenceNumber_number p Hm)) as U1. pose proof (proj2 (ParseSequenceNumber_number _ Hm')) as U2. rewrite Hn' in U2. rewrite <- Hn in U1.
    clear -E1 E2 U1 U2. unfold IsNewerSequenceNumber, is_u16, u16 in *. change (2 ^ 16) with 65536 in *.
    destruct (decide (pp_seq_num q = rec_seq_num r)); [done|exfalso].
    destruct (Z.eqb_spec (rec_seq_num r - pp_seq_num q) 32768), (Z.eqb_spec (pp_seq_num q - rec_seq_num r) 32768);
      rewrite ?andb_false_iff, ?negb_false_iff, ?Z.eqb_eq, ?Z.ltb_ge in *; Z.div_mod_to_equations; lia. }
  unfold from_stream, recovered_good in *. congruence.
Qed.

(** ** The decoder *)

(** A new FEC packet, before what is known is entered *)
Lemma read_fec_over r base row l : fec_over base row l (rcv_pkt r) -> is_u16 base -> Forall from_stream l -> mask_numbers base row = map number l -> exists f,
  ReadFecHeader (mkReceivedFec (rcv_ssrc r) (rcv_seq_num r) [] 0 0 0 0 0 0 (rcv_pkt r)) = Some f /\
  protected_ssrc f = rcv_ssrc r /\ rf_seq_num f = rcv_seq_num r /\
  mask_packets f = Some (map (fun p => mkProtected (number p) None) l) /\
  forall slots, parity_of l (f <| protected_packets := slots |>).
Proof.
  intros Hover Hbase Hl Hmask. pose proof (stream_media _ Hl) as Hok.
  set (f0 := mkReceivedFec (rcv_ssrc r) (rcv_seq_num r) [] 0 0 0 0 0 0 (rcv_pkt r)).
  destruct (ReadFecHeader_over base row l f0 Hover Hok Hbase) as (f & E & Hpar & E1 & E2 & E3 & E4 & E5 & E6 & E7 & Hrow). exists f. split_and!; try done.
  - rewrite (mask_packets_numbers f base row); [|done|done|done|by destruct Hpar as [[]]| |done].
    + rewrite Hmask, map_map. done.
    + destruct (fo_size _ _ _ _ Hover) as [->| ->]; done.
  - intros slots. by eapply parity_of_same; [|exact Hpar].
Qed.

Lemma slots_new l : Forall2 slot_of l (map (fun p => mkProtected (number p) None) l).
Proof. induction l as [|p l IH]; cbn [map]; constructor; [split; auto|done]. Qed.

Lemma InsertFecPacket_good d recovered r : protected_media_ssrc_ d = ssrc -> all_good (received_fec_packets_ d) recovered -> fec_good (rcv_pkt r) ->
  exists fecs, InsertFecPacket d recovered r = Some (d <| received_fec_packets_ := fecs |>) /\ Forall stored_good fecs.
Proof.
  intros Hd [Hf Hr _] Hg. assert (Hsame : Some d = Some (d <| received_fec_packets_ := received_fec_packets_ d |>)) by by destruct d.
  unfold InsertFecPacket. destruct (existsb _ _); [by eexists|]. destruct Hg as (base & row & l & Hover & Hbase & Hl & Hmask).
  destruct (read_fec_over r base row l Hover Hbase Hl Hmask) as (f & -> & E1 & _ & Em & Hpar). cbn [mbind option_bind].
  rewrite Hd. destruct (Z.eqb_spec (protected_ssrc f) ssrc) as [Es|Es]; cbn [negb]; [|by eexists]. rewrite Em. cbn [mbind option_bind]. cbv zeta.
  destruct (map (fun p => mkProtected (number p) None) l) eqn:El; [by eexists|]. rewrite <- El. eexists. split; [reflexivity|].
  assert (Hnew : stored_good (AssignRecoveredPackets recovered (f <| protected_packets := map (fun p => mkProtected (number p) None) l |>))).
  { exists l. split_and!; [unfold AssignRecoveredPackets; cbn [set]; apply Hpar|done|done|]. unfold AssignRecoveredPackets. cbn [set protected_packets].
    apply assign_good; [done|done|]. apply slots_new. }
  pose proof (sort_Forall rf_seq_num _ _ (proj2 (list.Forall_app _ _ _) (conj Hf (list.Forall_cons_2 _ _ _ Hnew (list.Forall_nil_2 _))))) as Hs.
  destruct (_ <? _); [|done]. revert Hs. apply list.Forall_tail.
Qed.

Lemma InsertPacket_good d recovered r : protected_media_ssrc_ d = ssrc -> all_good (received_fec_packets_ d) recovered -> arrival_good r ->
  exists fecs recovered', InsertPacket d r recovered = Some (d <| received_fec_packets_ := fecs |>, recovered') /\ all_good fecs recovered'.
Proof.
  intros Hd [Hf Hr Hn] Hg. unfold InsertPacket.
  set (d1 := match received_fec_packets_ d with f :: _ => _ | [] => d end).
  assert (Hd1 : protected_media_ssrc_ d1 = ssrc /\ Forall stored_good (received_fec_packets_ d1) /\
    forall l, d1 <| received_fec_packets_ := l |> = d <| received_fec_packets_ := l |>).
  { subst d1. destruct (received_fec_packets_ d) as [|f fecs] eqn:Ef; [by rewrite Ef|].
    destruct (_ =? _); [|by rewrite Ef]. split_and!; [done| |done]. cbn [set received_fec_packets_].
    destruct (discard_fec_suffix (rcv_seq_num r) (f :: fecs)) as [k Ek]. rewrite Ek in Hf. by apply list.Forall_app in Hf as [_ Hf]. }
  destruct Hd1 as (Hd1 & Hf1 & Hset). clearbody d1. unfold arrival_good in Hg. destruct (is_fec r).
  - destruct (InsertFecPacket_good d1 recovered r Hd1 (Build_all_good _ _ Hf1 Hr Hn) Hg) as (fecs' & -> & Hf'). cbn [mbind option_bind].
    exists fecs', (DiscardOldRecoveredPackets recovered). rewrite Hset. split; [done|]. split; [done|by apply Discard_Forall|apply Discard_length].
  - cbn [mbind option_bind]. unfold InsertMediaPacket. destruct (existsb _ _).
    + exists (received_fec_packets_ d1), (DiscardOldRecoveredPackets recovered). rewrite <- Hset. split; [by destruct d1|]. split; [done|by apply Discard_Forall|apply Discard_length].
    + rewrite Hset. eexists _, _. split; [reflexivity|]. split; [by apply Update_good| |apply Discard_length]. apply Discard_Forall, sort_Forall, list.Forall_app. split; [done|]. by constructor.
Qed.

Lemma AttemptRecovery_good garbage d recovered : all_good (received_fec_packets_ d) recovered ->
  exists fecs recovered', AttemptRecovery garbage d recovered = Some (d <| received_fec_packets_ := fecs |>, recovered') /\ all_good fecs recovered' /\ Forall waiting fecs.
Proof.
  intros Hg. apply AttemptRecovery_invariant; [| |done].
  - intros before f rest recovered' [Hf Hr Hn] _. split; [|done|done]. apply list.Forall_app in Hf as [Hb [_ Hrest]%list.Forall_cons]. by apply list.Forall_app.
  - intros before f rest recovered' [Hf Hr Hn] Hm. apply list.Forall_app in Hf as [Hb [Hf Hrest]%list.Forall_cons].
    destruct (stored_recovers garbage f Hf Hm) as (p & E & Hp & _). exists (number p), p. split; [done|]. split.
    + apply list.Forall_app. split; by apply Update_good.
    + apply Discard_Forall, sort_Forall, list.Forall_app. split; [done|]. by constructor.
    + apply Discard_length.
Qed.

Lemma DecodeFec_good garbage d recovered r : protected_media_ssrc_ d = ssrc -> all_good (received_fec_packets_ d) recovered -> arrival_good r ->
  exists fecs recovered', DecodeFec garbage d r recovered = Some (d <| received_fec_packets_ := fecs |>, recovered') /\ all_good fecs recovered' /\ Forall waiting fecs.
Proof.
  intros Hd Hall Hg. unfold DecodeFec.
  match goal with |- context [let '(d, recovered_packets) := ?e in _] => set (reset := e) end.
  assert (Hreset : exists d1 recovered1, reset = (d1, recovered1) /\ protected_media_ssrc_ d1 = ssrc /\ all_good (received_fec_packets_ d1) recovered1 /\
    forall l, d1 <| received_fec_packets_ := l |> = d <| received_fec_packets_ := l |>).
  { subst reset. destruct (_ =? _); [|by exists d, recovered]. destruct (list.last recovered); [|by exists d, recovered]. destruct (_ && _); [|by exists d, recovered].
    eexists _, _. split; [reflexivity|]. split_and!; [done| |done]. by split. }
  destruct Hreset as (d1 & recovered1 & -> & Hd1 & Hall1 & Hset).
  destruct (InsertPacket_good d1 recovered1 r Hd1 Hall1 Hg) as (fecs2 & recovered2 & E2 & Hall2). rewrite Hset in E2. rewrite E2. cbn [mbind option_bind].
  match goal with |- context [AttemptRecovery garbage ?d recovered2] => destruct (AttemptRecovery_good garbage d recovered2 Hall2) as (fecs3 & recovered3 & E & Hall3 & Hw) end.
  exists fecs3, recovered3. split; [exact E|done].
Qed.

(** All arrivals, one after the other *)
Fixpoint decode_all (garbage : Z) (d : Fec) (recovered : list RecoveredPacket) (arrivals : list ReceivedPacket) : option (Fec * list RecoveredPacket) :=
  match arrivals with
  | [] => Some (d, recovered)
  | r :: arrivals => st ← DecodeFec garbage d r recovered; decode_all garbage (fst st) (snd st) arrivals
  end.

Lemma decode_all_good garbage d recovered arrivals : protected_media_ssrc_ d = ssrc -> all_good (received_fec_packets_ d) recovered -> Forall waiting (received_fec_packets_ d) ->
  Forall arrival_good arrivals ->
  exists d' recovered', decode_all garbage d recovered arrivals = Some (d', recovered') /\ all_good (received_fec_packets_ d') recovered' /\
    Forall waiting (received_fec_packets_ d').
Proof.
  intros Hd Hall Hw Ha. revert d recovered Hd Hall Hw. induction Ha as [|r arrivals Hr Ha IH]; intros d recovered Hd Hall Hw; cbn [decode_all]; [by exists d, recovered|].
  destruct (DecodeFec_good garbage d recovered r Hd Hall Hr) as (fecs & recovered' & -> & Hall' & Hw'). cbn [mbind option_bind fst snd]. by apply IH.
Qed.
End sent.
