(* ===== verification/FecBlock.v ===== *)
(** * Forward error correction: from the encoder to the decoder

    The FEC packets of a block are good for the decoder: the numbers of their masks are
    those of the packets they protect. *)

From S2P Require Import Prelude ByteIo Rtcp TransportFeedback FecPacket FecParity FecMasks FecTables FecChoice FecEncode FecRecover FecDecode FecSound.

Open Scope Z_scope.
Open Scope c_scope.

(** ** Numbers and places *)

Lemma u16_plus a b : u16 (u16 a + b) = u16 (a + b).
Proof. unfold u16. by rewrite Zplus_mod_idemp_l. Qed.

Lemma u16_inj_near base a b : 0 <= a < 65536 -> 0 <= b < 65536 -> u16 (base + a) = u16 (base + b) -> a = b.
Proof. unfold u16. change (2 ^ 16) with 65536. intros Ha Hb E. Z.div_mod_to_equations. lia. Qed.

Lemma number_range p : media_ok p -> is_u16 (number p).
Proof. intros Hp. by destruct (ParseSequenceNumber_number p Hp). Qed.

(** The number of a packet is that of the first with its place added. *)
Lemma placed_numbers base off prev media : Forall media_ok media -> u16 (base + off) = prev ->
  Forall (fun e => number (snd e) = u16 (base + fst e)) (placed off prev media).
Proof.
  intros Hm. revert off prev. induction Hm as [|p media Hp Hm IH]; intros off prev Hprev; cbn [placed]; [constructor|]. cbv zeta.
  assert (E : number p = u16 (base + (off + u16 (number p - prev)))).
  { pose proof (number_range p Hp) as Hr. subst prev. unfold is_u16, u16 in *. change (2 ^ 16) with 65536 in *. Z.div_mod_to_equations. lia. }
  constructor; [done|]. by apply IH.
Qed.

Lemma block_numbers front rest : block front rest -> Forall (fun e => number (snd e) = u16 (number front + fst e)) (block_placed front rest).
Proof.
  intros Hb. rewrite <- block_placed_eq. apply placed_numbers; [by apply block_media|]. rewrite Z.add_0_r. apply u16_id, number_range, Hb.
Qed.

Lemma snd_placed off prev media : map snd (placed off prev media) = media.
Proof. revert off prev. induction media as [|p media IH]; intros off prev; cbn [placed map]; [done|]. cbv zeta. cbn [snd]. by rewrite IH. Qed.

Lemma snd_block_placed front rest : map snd (block_placed front rest) = front :: rest.
Proof. rewrite <- block_placed_eq. apply snd_placed. Qed.

(** ** The packets of a block by their numbers *)

Fixpoint sent_in (media : list Packet) (k : Z) : option Packet :=
  match media with
  | [] => None
  | p :: media => if number p =? k then Some p else sent_in media k
  end.

Lemma sent_in_Some media k p : sent_in media k = Some p -> p ∈ media /\ number p = k.
Proof.
  induction media as [|q media IH]; cbn [sent_in]; [done|]. destruct (Z.eqb_spec (number q) k) as [E|E].
  - intros [= <-]. split; [apply list_elem_of_here|done].
  - intros H. destruct (IH H) as [Hp Hn]. split; [by apply list_elem_of_further|done].
Qed.

Lemma sent_in_elem media p : NoDup (map number media) -> p ∈ media -> sent_in media (number p) = Some p.
Proof.
  induction media as [|q media IH]; cbn [sent_in map]; [by intros _ ?%not_elem_of_nil|]. intros [Hq Hn]%list.NoDup_cons Hp. apply elem_of_cons in Hp as [<-|Hp].
  - by rewrite Z.eqb_refl.
  - destruct (Z.eqb_spec (number q) (number p)) as [E|E]; [|by apply IH]. exfalso. apply Hq. rewrite E.
    change (@map Packet Z) with (@fmap list list_fmap Packet Z). by apply list_elem_of_fmap_2.
Qed.

Lemma places_NoDup base n l : 0 <= n -> increasing n (map fst l) -> Forall (fun e => number (snd e) = u16 (base + fst e)) l ->
  Forall (fun k => k < 65536) (map fst l) -> NoDup (map number (map snd l)).
Proof.
  revert n. induction l as [|e l IH]; intros n Hn; cbn [map increasing]; [constructor|]. intros [He Hinc] [Hne Hnum]%list.Forall_cons [Hs Hspan]%list.Forall_cons.
  apply list.NoDup_cons. split; [|by apply (IH (fst e + 1)); [lia|..]]. change (@map Packet Z) with (@fmap list list_fmap Packet Z).
  intros (p & Ep & Hp)%list_elem_of_fmap. change (@map (Z * Packet) Packet) with (@fmap list list_fmap (Z * Packet) Packet) in Hp.
  apply list_elem_of_fmap in Hp as (e' & -> & He'). pose proof (increasing_ge _ _ Hinc) as Hge. apply (proj1 (List.Forall_map _ _ _)) in Hge. apply (proj1 (List.Forall_map _ _ _)) in Hspan.
  rewrite list.Forall_forall in Hge. rewrite list.Forall_forall in Hspan. rewrite list.Forall_forall in Hnum. specialize (Hge e' He'). specialize (Hspan e' He'). rewrite Hne, (Hnum e' He') in Ep.
  apply u16_inj_near in Ep; lia.
Qed.

Lemma block_NoDup front rest : block front rest -> NoDup (map number (front :: rest)).
Proof.
  intros Hb. destruct (block_place_bounds front rest Hb) as (Hinc & Hpl & _). rewrite <- (snd_block_placed front rest).
  apply (places_NoDup (number front) 0); [done|done|by apply block_numbers|]. rewrite fst_block_placed. eapply list.Forall_impl; [exact Hpl|].
  pose proof (bl_span _ _ Hb). cbv beta. lia.
Qed.

(** ** The masks of a block *)

(** The bits of a row are at the places, in their order. *)
Lemma filter_places (P : Z -> Prop) `{forall k, Decision (P k)} n m ps : 0 <= m -> increasing n ps -> Forall (fun k => k < n + m) ps ->
  (forall k, n <= k < n + m -> P k -> k ∈ ps) -> filter P (seqZ n m) = filter P ps.
Proof.
  revert n m. induction ps as [|p ps IH]; intros n m Hm; cbn [increasing].
  - intros _ _ Hin. cut (Forall (fun k => ~ P k) (seqZ n m)); [intros Hno; induction Hno; [done|]; rewrite filter_cons_False by done; done|].
    apply list.Forall_forall. intros k Hk Hp. apply elem_of_seqZ in Hk. apply (not_elem_of_nil k). by apply Hin.
  - intros [Hp Hinc] [Hlt Hps]%list.Forall_cons Hin. replace m with ((p - n) + (1 + (n + m - p - 1))) by lia. rewrite seqZ_app, list.filter_app by lia.
    assert (E : filter P (seqZ n (p - n)) = []).
    { cut (Forall (fun k => ~ P k) (seqZ n (p - n))); [intros Hno; induction Hno; [done|]; rewrite filter_cons_False by done; done|].
      apply list.Forall_forall. intros k Hk Hpk. apply elem_of_seqZ in Hk. specialize (Hin k ltac:(lia) Hpk). apply elem_of_cons in Hin as [->|Hin]; [lia|].
      pose proof (increasing_ge _ _ Hinc) as Hge. rewrite list.Forall_forall in Hge. specialize (Hge k Hin). cbv beta in Hge. lia. }
    rewrite E. cbn [app]. replace (n + (p - n)) with p by lia. rewrite seqZ_cons by lia. replace (Z.pred (1 + (n + m - p - 1))) with (n + m - p - 1) by lia.
    rewrite !filter_cons. change (Z.succ p) with (p + 1). rewrite (IH (p + 1) (n + m - p - 1)); [done|lia|done| |].
    + eapply list.Forall_impl; [exact Hps|]. cbv beta. lia.
    + intros k Hk Hpk. specialize (Hin k ltac:(lia) Hpk). apply elem_of_cons in Hin as [->|Hin]; [lia|done].
Qed.

Lemma selected_numbers base row l : Forall (fun e => number (snd e) = u16 (base + fst e)) l ->
  map (fun k => u16 (base + k)) (filter (fun k => row_bit row k = true) (map fst l)) = map number (selected row l).
Proof.
  unfold selected. induction 1 as [|e l He Hl IH]; cbn [map]; [done|]. rewrite !filter_cons. destruct (decide _); cbn [map]; [|done]. by rewrite IH, He.
Qed.

Lemma row_over_numbers front rest row : block front rest -> last_place 0 (number front) rest < kMaxMediaPackets -> row_over front rest row ->
  mask_numbers (number front) row = map number (selected row (block_placed front rest)).
Proof.
  intros Hb Hlast [H1 _ H3 _]. destruct (block_place_bounds front rest Hb) as (Hinc & Hpl & Hn). unfold kMaxMediaPackets in Hlast. cbn [length] in Hn.
  destruct (PacketMaskSize_covers (last_place 0 (number front) rest + 1)) as [Hsz _]; [lia|]. rewrite <- (selected_numbers (number front)) by by apply block_numbers.
  unfold mask_numbers. rewrite fst_block_placed. f_equal. apply filter_places; [lia|done| |done].
  eapply list.Forall_impl; [exact Hpl|]. cbv beta. lia.
Qed.

(** ** What the encoder sends is good for the decoder *)

Section block.
Context (ssrc : Z) (front : Packet) (rest : list Packet).
Hypothesis Hblock : block front rest.
Hypothesis Hgenuine : Forall (genuine ssrc) (front :: rest).
Hypothesis Hnear : last_place 0 (number front) rest < kMaxMediaPackets.

Lemma sent_genuine k p : sent_in (front :: rest) k = Some p -> genuine ssrc p /\ number p = k.
Proof. intros Hs. destruct (sent_in_Some _ _ _ Hs) as [Hp Hn]. rewrite list.Forall_forall in Hgenuine. auto. Qed.

Lemma in_stream p : p ∈ front :: rest -> from_stream (sent_in (front :: rest)) p.
Proof. intros Hp. apply sent_in_elem; [by apply block_NoDup|done]. Qed.

Lemma elem_selected row p : p ∈ selected row (block_placed front rest) -> p ∈ front :: rest.
Proof.
  rewrite <- (snd_block_placed front rest). unfold selected. change (@map (Z * Packet) Packet) with (@fmap list list_fmap (Z * Packet) Packet).
  intros (e & -> & He)%list_elem_of_fmap. apply list_elem_of_filter in He as [_ He]. by apply list_elem_of_fmap_2.
Qed.

Lemma fec_of_good row f : fec_of front rest row f -> fec_good (sent_in (front :: rest)) f.
Proof.
  intros [Hrow Hover]. exists (number front), row, (selected row (block_placed front rest)). split_and!; [done|apply number_range, Hblock| |by apply row_over_numbers].
  apply list.Forall_forall. intros p Hp. by apply in_stream, (elem_selected row).
Qed.
End block.

(** ** Examples *)

(** A packet with number [n] of the stream 7, with a marker or without *)
Definition example_packet (marker : bool) (n : Z) (payload : list Z) : Packet :=
  mkFp (12 + zlen payload)
    ([0x80; if marker then 0xE0 else 0x60; n / 256; n mod 256; 0; 0; 0; 1; 0; 0; 0; 7] ++ payload ++ replicate (Z.to_nat (1488 - zlen payload)) 0).

Lemma example_get0 marker n payload i : 0 <= i < 12 ->
  get0 (fp_data (example_packet marker n payload)) i = get0 [0x80; if marker then 0xE0 else 0x60; n / 256; n mod 256; 0; 0; 0; 1; 0; 0; 0; 7] i.
Proof.
  intros Hi. unfold get0, zget. cbn [example_packet fp_data]. rewrite (proj2 (Z.ltb_ge i 0)) by lia. rewrite lookup_app_l; [done|]. cbn [length]. lia.
Qed.

Lemma example_number marker n payload : is_u16 n -> number (example_packet marker n payload) = n.
Proof.
  intros Hn. unfold number. rewrite !example_get0 by lia. change (n / 256 * 256 + n mod 256 = n). Z.div_mod_to_equations. lia.
Qed.

Lemma example_genuine marker n payload : is_u16 n -> Forall is_u8 payload -> zlen payload <= 1476 -> genuine 7 (example_packet marker n payload).
Proof.
  intros Hn Hp Hl. pose proof (zlen_nonneg payload) as Hz. split.
  - split.
    + split.
      * cbn [example_packet fp_data]. rewrite !zlen_app, zlen_replicate. change (zlen [_; _; _; _; _; _; _; _; _; _; _; _]) with 12. unfold IP_PACKET_SIZE. lia.
      * cbn [example_packet fp_data]. unfold is_u16 in Hn. apply list.Forall_app_2; [|apply list.Forall_app_2; [exact Hp|apply list.Forall_replicate; unfold is_u8; lia]].
        repeat (apply list.Forall_cons_2; [unfold is_u8; destruct marker; Z.div_mod_to_equations; lia|]). apply list.Forall_nil_2.
    + cbn [example_packet fp_length]. unfold kRtpHeaderSize, IP_PACKET_SIZE. lia.
    + intros i Hi. cbn [example_packet fp_data fp_length] in *. rewrite app_assoc, get0_app_zeros. apply get0_beyond. rewrite zlen_app.
      change (zlen [_; _; _; _; _; _; _; _; _; _; _; _]) with 12. lia.
  - by rewrite example_get0 by lia.
  - by rewrite example_get0 by lia.
  - intros j Hj. rewrite example_get0 by lia. assert (Hc : j = 0 \/ j = 1 \/ j = 2 \/ j = 3) by lia. by destruct Hc as [->|[->|[->| ->]]].
Qed.

(** Three packets, of which number 9 is not there. *)
Definition example_front : Packet := example_packet false 7 [1; 2; 3].
Definition example_rest : list Packet := [example_packet false 8 [4]; example_packet true 10 [5; 6]].

Lemma example_all_genuine : Forall (genuine 7) (example_front :: example_rest).
Proof.
  unfold example_front, example_rest.
  repeat (apply list.Forall_cons_2; [apply example_genuine; [unfold is_u16; lia|repeat constructor; unfold is_u8; lia|unfold zlen; cbn; lia]|]). apply list.Forall_nil_2.
Qed.

Lemma example_numbers : map number (example_front :: example_rest) = [7; 8; 10].
Proof. cbn [map example_front example_rest]. by rewrite !example_number by (unfold is_u16; lia). Qed.

Lemma example_front_number : number example_front = 7.
Proof. apply example_number. unfold is_u16. lia. Qed.

Lemma example_block : block example_front example_rest /\ last_place 0 (number example_front) example_rest = 3.
Proof.
  pose proof example_front_number as E1.
  assert (E2 : number (example_packet false 8 [4]) = 8) by (apply example_number; unfold is_u16; lia).
  assert (E3 : number (example_packet true 10 [5; 6]) = 10) by (apply example_number; unfold is_u16; lia). unfold example_rest.
  assert (El : last_place 0 (number example_front) [example_packet false 8 [4]; example_packet true 10 [5; 6]] = 3) by (cbn [last_place]; by rewrite E1, E2, E3).
  split; [|done]. pose proof example_all_genuine as Hg. apply list.Forall_cons in Hg as [[Hf _ _ _] Hr]. split.
  - done.
  - eapply list.Forall_impl; [exact Hr|]. by intros p [Hp _ _ _].
  - cbn [distinct_next]. rewrite E1, E2, E3. split_and!; done.
  - unfold example_rest in *. rewrite El. lia.
Qed.

(** ** Theorems *)

(** C5. The outcomes of the encoder on a block of at most 48 media packets of 12 to 1488
    bytes, in arrays with zeros behind them, whose numbers follow each other and span less
    than 2^16 ([block]), for every protection factor, number of important packets and kind of
    mask: without protection no FEC packets; an error if the block spans more than 48 numbers; else as many FEC
    packets as [NumFecPackets] says, between one and one for each media packet, each of
    them the parity of the packets of its mask, which is not empty and has no bit but at
    a packet, and each media packet in one of them. For these packets no array is accessed
    outside its bounds; the code does not refuse longer ones, of which the payload can be
    written behind the array ([protect_overrun]). *)
Theorem EncodeFec_outcomes front rest pf imp uep t :
  block front rest -> Z.of_nat (length (front :: rest)) <= kMaxMediaPackets -> 0 <= pf <= 255 -> 0 <= imp <= Z.of_nat (length (front :: rest)) ->
  if pf =? 0 then EncodeFec (front :: rest) pf imp uep t = Some (0, [])
  else if kMaxMediaPackets <=? last_place 0 (number front) rest then EncodeFec (front :: rest) pf imp uep t = Some (-1, [])
  else exists rows fecs, EncodeFec (front :: rest) pf imp uep t = Some (0, fecs) /\
    Forall2 (fun row f => row_over front rest row /\ fec_over (number front) row (selected row (block_placed front rest)) f) rows fecs /\
    Forall (fun k => Exists (fun row => row_bit row k = true) rows) (block_places front rest) /\
    Z.of_nat (length fecs) = NumFecPackets (Z.of_nat (length (front :: rest))) pf /\ 1 <= Z.of_nat (length fecs) <= Z.of_nat (length (front :: rest)).
Proof.
  intros Hb Hn Hpf Himp. pose proof (EncodeFec_outcome front rest pf imp uep t Hb Hn Hpf Himp) as H.
  pose proof (NumFecPackets_bounds (Z.of_nat (length (front :: rest))) pf ltac:(cbn [length]; lia) Hpf) as Hnum.
  destruct (pf =? 0); [done|]. destruct (_ <=? _); [done|]. destruct H as (rows & fecs & E & Hf & Hall & Hlen). exists rows, fecs. rewrite Hlen.
  split_and!; try done; try lia. eapply Forall2_impl; [|exact Hf]. by intros row f [H1 H2].
Qed.

Lemma example_size : Z.of_nat (length (example_front :: example_rest)) = 3.
Proof. done. Qed.

Lemma EncodeFec_outcomes_witness : exists rows fecs, EncodeFec (example_front :: example_rest) 100 0 false kFecMaskRandom = Some (0, fecs) /\
  Forall (fun k => Exists (fun row => row_bit row k = true) rows) (block_places example_front example_rest) /\ length fecs = 1%nat.
Proof.
  destruct example_block as [Hb Hl].
  pose proof (EncodeFec_outcomes example_front example_rest 100 0 false kFecMaskRandom Hb ltac:(rewrite example_size; unfold kMaxMediaPackets; lia) ltac:(lia)
    ltac:(rewrite example_size; lia)) as H. rewrite Hl in H. destruct H as (rows & fecs & E & _ & Hall & Hlen & _). exists rows, fecs. split; [exact E|]. split; [exact Hall|].
  rewrite example_size in Hlen. change (NumFecPackets 3 100) with 1 in Hlen. lia.
Defined.

(** C4. Soundness of recovery for a stream of packets of RTP version 2, of one source and of 12
    to 1488 bytes, with no number used twice ([genuine], [sent]): whatever of these packets, and of
    FEC packets that hold their parity, arrives in whatever order, lost, late or repeated, no array
    is accessed outside its bounds, [AttemptRecovery] ends, every packet in the list of recovered packets is the one that
    was sent with its number, byte for byte, the list has at most 48 packets, and every
    FEC packet that is kept misses two packets or more. The bound of 1488 bytes is needed:
    received packets of 1489 to 1500 bytes overrun the arrays ([long_packet_overruns]). *)
Theorem recovered_as_sent ssrc (sent : Z -> option Packet) garbage arrivals :
  (forall k p, sent k = Some p -> genuine ssrc p /\ number p = k) -> Forall (arrival_good sent) arrivals ->
  exists d recovered, decode_all garbage (CreateUlpfec ssrc) [] arrivals = Some (d, recovered) /\
    Forall (fun r => sent (rec_seq_num r) = Some (rec_pkt r)) recovered /\ Z.of_nat (length recovered) <= kMaxMediaPackets /\
    Forall (fun f => NumCoveredPacketsMissing (protected_packets f) 0 = 2) (received_fec_packets_ d).
Proof.
  intros Hs Ha. destruct (decode_all_good ssrc sent Hs garbage (CreateUlpfec ssrc) [] arrivals) as (d & recovered & E & [_ Hr Hn] & Hw);
    [done|by split|constructor|done|]. by exists d, recovered.
Qed.

Lemma recovered_as_sent_witness :
  let sent := sent_in (example_front :: example_rest) in
  exists fecs, EncodeFec (example_front :: example_rest) 100 0 false kFecMaskRandom = Some (0, fecs) /\ fecs <> [] /\
    forall f, f ∈ fecs -> exists d recovered,
      decode_all 0 (CreateUlpfec 7) [] [mkReceived 7 11 true f; mkReceived 7 7 false example_front; mkReceived 7 11 true f] = Some (d, recovered) /\
      Forall (fun r => sent (rec_seq_num r) = Some (rec_pkt r)) recovered.
Proof.
  intros sent. destruct example_block as [Hb Hl]. pose proof example_all_genuine as Hg.
  assert (Hnear : last_place 0 (number example_front) example_rest < kMaxMediaPackets) by (rewrite Hl; unfold kMaxMediaPackets; lia).
  pose proof (EncodeFec_outcome example_front example_rest 100 0 false kFecMaskRandom Hb ltac:(rewrite example_size; unfold kMaxMediaPackets; lia) ltac:(lia)
    ltac:(rewrite example_size; lia)) as H. rewrite Hl in H. destruct H as (rows & fecs & E & Hf & _ & Hlen). exists fecs. split; [exact E|]. split.
  - intros ->. rewrite example_size in Hlen. change (NumFecPackets 3 100) with 1 in Hlen. cbn [length] in Hlen. lia.
  - intros f Hin. apply list_elem_of_lookup in Hin as [i Hi]. destruct (Forall2_lookup_r _ _ _ _ _ Hf Hi) as (row & _ & Hfec).
    pose proof (fec_of_good example_front example_rest Hb Hnear row f Hfec) as Hgood.
    destruct (recovered_as_sent 7 sent 0 [mkReceived 7 11 true f; mkReceived 7 7 false example_front; mkReceived 7 11 true f]) as (d & recovered & Ed & Hr & _).
    + intros k p. exact (sent_genuine 7 example_front example_rest Hg k p).
    + apply list.Forall_cons_2; [exact Hgood|]. apply list.Forall_cons_2; [|apply list.Forall_cons_2; [exact Hgood|apply list.Forall_nil_2]].
      unfold arrival_good. cbn [is_fec rcv_seq_num rcv_pkt]. pose proof (in_stream example_front example_rest Hb example_front (list_elem_of_here _ _)) as Hs.
      unfold from_stream in Hs. rewrite example_front_number in Hs. exact Hs.
    + exists d, recovered. split; [exact Ed|exact Hr].
Defined.
