(* ===== verification/FecOrder.v ===== *)
(** * Forward error correction: order of the decoder's lists

    On numbers near each other the comparison of sequence numbers is an order: the lists
    are sorted, the search in them finds its packet, and the merge finds all
    packets that are in both. *)

From Stdlib Require Import Sorted.
From S2P Require Import Prelude ByteIo Rtcp TransportFeedback FecPacket FecParity FecDecode FecSound.

Open Scope Z_scope.
Open Scope c_scope.

(** ** Numbers near a base *)

Section order.
Context (base : Z).

Definition offset (s : Z) : Z := u16 (s - base).

Definition near (s : Z) : Prop := is_u16 s /\ offset s < 0x2000.

Lemma offset_inj a b : is_u16 a -> is_u16 b -> offset a = offset b -> a = b.
Proof. unfold offset, is_u16, u16. change (2 ^ 16) with 65536. intros Ha Hb E. Z.div_mod_to_equations. lia. Qed.

Lemma LessThan_offset a b : near a -> near b -> LessThan a b = (offset a <? offset b).
Proof.
  intros [Ha Ha'] [Hb Hb']. unfold LessThan, IsNewerSequenceNumber, offset, is_u16, u16 in *. change (2 ^ 16) with 65536 in *.
  destruct (Z.eqb_spec (b - a) 32768) as [E|E]; [destruct (Z.ltb_spec a b), (Z.ltb_spec ((a - base) mod 65536) ((b - base) mod 65536)); Z.div_mod_to_equations; lia|].
  destruct (Z.eqb_spec b a) as [->|Hne]; cbn [negb andb]; [symmetry; apply Z.ltb_irrefl|].
  destruct (Z.ltb_spec ((b - a) mod 65536) 32768), (Z.ltb_spec ((a - base) mod 65536) ((b - base) mod 65536)); Z.div_mod_to_equations; lia.
Qed.

Lemma MinDiff_near a b : near a -> near b -> MinDiff a b <= 0x3fff.
Proof.
  intros [Ha Ha'] [Hb Hb']. unfold MinDiff, offset, is_u16, u16 in *. change (2 ^ 16) with 65536 in *. Z.div_mod_to_equations. lia.
Qed.

(** ** Sorting *)

Definition sorted {A} (key : A -> Z) : list A -> Prop := StronglySorted (fun x y => offset (key x) < offset (key y)).

Lemma sorted_cons {A} (key : A -> Z) x l : sorted key (x :: l) <-> sorted key l /\ Forall (fun y => offset (key x) < offset (key y)) l.
Proof. split; [intros H; by inversion H|intros [H1 H2]; by constructor]. Qed.

Lemma insert_sorted_sorted {A} (key : A -> Z) x l :
  near (key x) -> Forall (fun y => near (key y)) l -> Forall (fun y => key y <> key x) l -> sorted key l -> sorted key (insert_sorted key x l).
Proof.
  intros Hx Hl Hne. induction l as [|y l IH]; cbn [insert_sorted]; [intros _; apply sorted_cons; split; constructor|].
  apply list.Forall_cons in Hl as [Hy Hl]. apply list.Forall_cons in Hne as [Hny Hne]. intros [Hs Hlt]%sorted_cons. rewrite LessThan_offset by done.
  destruct (Z.ltb_spec (offset (key y)) (offset (key x))) as [Hyx|Hyx].
  - apply sorted_cons. split; [by apply IH|]. rewrite insert_sorted_perm. by constructor.
  - apply sorted_cons. split; [by apply sorted_cons|].
    assert (offset (key y) <> offset (key x)) by (intros E; apply Hny; apply offset_inj; [apply Hy|apply Hx|done]).
    constructor; [lia|]. eapply list.Forall_impl; [exact Hlt|]. cbv beta. lia.
Qed.

Lemma sort_sorted {A} (key : A -> Z) l : Forall (fun y => near (key y)) l -> NoDup (map key l) -> sorted key (sort key l).
Proof.
  induction 1 as [|x l Hx Hl IH]; cbn [map sort fold_right]; [intros _; constructor|]. intros [Hn Hd]%list.NoDup_cons. fold (sort key l).
  apply insert_sorted_sorted; [done|by apply sort_Forall| |by apply IH]. apply sort_Forall. apply list.Forall_forall. intros y Hy E. apply Hn. rewrite <- E.
  change (@map A Z) with (@fmap list list_fmap A Z). by apply list_elem_of_fmap_2.
Qed.

Lemma sorted_NoDup {A} (key : A -> Z) l : sorted key l -> NoDup (map key l).
Proof.
  induction l as [|x l IH]; cbn [map]; [constructor|]. intros [Hs Hlt]%sorted_cons. apply list.NoDup_cons. split; [|by apply IH].
  change (@map A Z) with (@fmap list list_fmap A Z). intros (y & Ey & Hy)%list_elem_of_fmap. rewrite list.Forall_forall in Hlt. specialize (Hlt y Hy). rewrite Ey in Hlt. lia.
Qed.

(** ** The packets of the list by their numbers *)

Fixpoint known (recovered : list RecoveredPacket) (s : Z) : option Packet :=
  match recovered with
  | [] => None
  | r :: recovered => if rec_seq_num r =? s then Some (rec_pkt r) else known recovered s
  end.

Lemma known_Some recovered s p : known recovered s = Some p -> exists r, r ∈ recovered /\ rec_seq_num r = s /\ rec_pkt r = p.
Proof.
  induction recovered as [|r recovered IH]; cbn [known]; [done|]. destruct (Z.eqb_spec (rec_seq_num r) s) as [E|E].
  - intros [= <-]. exists r. split_and!; [apply list_elem_of_here|done|done].
  - intros H. destruct (IH H) as (r' & Hr' & ?). exists r'. split; [by apply list_elem_of_further|done].
Qed.

Lemma known_elem recovered r : NoDup (map rec_seq_num recovered) -> r ∈ recovered -> known recovered (rec_seq_num r) = Some (rec_pkt r).
Proof.
  induction recovered as [|r' recovered IH]; cbn [known map]; [by intros _ ?%not_elem_of_nil|]. intros [Hn Hd]%list.NoDup_cons Hr. apply elem_of_cons in Hr as [<-|Hr].
  - by rewrite Z.eqb_refl.
  - destruct (Z.eqb_spec (rec_seq_num r') (rec_seq_num r)) as [E|E]; [|by apply IH]. exfalso. apply Hn. rewrite E.
    change (@map RecoveredPacket Z) with (@fmap list list_fmap RecoveredPacket Z). by apply list_elem_of_fmap_2.
Qed.

Lemma known_None recovered s : known recovered s = None <-> Forall (fun r => rec_seq_num r <> s) recovered.
Proof.
  induction recovered as [|r recovered IH]; cbn [known]; [split; [constructor|done]|]. rewrite list.Forall_cons, <- IH. destruct (Z.eqb_spec (rec_seq_num r) s); split; try done; by intros [].
Qed.

Lemma known_sort recovered r s : NoDup (map rec_seq_num recovered) -> known recovered (rec_seq_num r) = None ->
  known (sort rec_seq_num (recovered ++ [r])) s = if rec_seq_num r =? s then Some (rec_pkt r) else known recovered s.
Proof.
  intros Hd Hn. assert (Hperm : sort rec_seq_num (recovered ++ [r]) ≡ₚ r :: recovered) by (rewrite sort_perm, Permutation_app_comm; done).
  assert (Hd' : NoDup (map rec_seq_num (sort rec_seq_num (recovered ++ [r])))).
  { rewrite Hperm. cbn [map]. apply list.NoDup_cons. split; [|done]. change (@map RecoveredPacket Z) with (@fmap list list_fmap RecoveredPacket Z).
    intros (r' & E & Hr')%list_elem_of_fmap. apply known_None in Hn. rewrite list.Forall_forall in Hn. by apply (Hn r' Hr'). }
  change (if rec_seq_num r =? s then Some (rec_pkt r) else known recovered s) with (known (r :: recovered) s).
  assert (Hd'' : NoDup (map rec_seq_num (r :: recovered))) by by rewrite <- Hperm.
  destruct (known (r :: recovered) s) as [p|] eqn:E.
  - apply known_Some in E as (r' & Hr' & <- & <-). apply known_elem; [done|]. by rewrite Hperm.
  - apply known_None. rewrite Hperm. by apply known_None.
Qed.

(** ** The packets a FEC packet protects *)

Definition slot (recovered : list RecoveredPacket) (k : Z) : ProtectedPacket := mkProtected k (known recovered k).

(** The search: what is before its result is smaller, and nothing else is. *)
Lemma lower_bound_spec l s n first len : near s -> Forall (fun q => near (pp_seq_num q)) l -> sorted pp_seq_num l ->
  (len <= n)%nat -> (first + len <= length l)%nat ->
  (forall j q, (j < first)%nat -> l !! j = Some q -> offset (pp_seq_num q) < offset s) ->
  (forall j q, (first + len <= j)%nat -> l !! j = Some q -> offset s <= offset (pp_seq_num q)) ->
  let i := protected_lower_bound n l s first len in
  (forall j q, (j < i)%nat -> l !! j = Some q -> offset (pp_seq_num q) < offset s) /\ (forall j q, (i <= j)%nat -> l !! j = Some q -> offset s <= offset (pp_seq_num q)).
Proof.
  intros Hs Hl Hsort. assert (Hmono : forall j k q r, (j <= k)%nat -> l !! j = Some q -> l !! k = Some r -> offset (pp_seq_num q) <= offset (pp_seq_num r)).
  { clear -Hsort. induction l as [|x l IH]; intros j k q r Hjk Hj Hk; [done|]. apply sorted_cons in Hsort as [Hs Hlt]. destruct j as [|j], k as [|k]; cbn in *; simplify_eq; try lia.
    - rewrite list.Forall_lookup in Hlt. specialize (Hlt _ _ Hk). cbv beta in Hlt. lia.
    - eapply IH; [done| |done|done]. lia. }
  revert first len. induction n as [|n IH]; intros first len Hn Hle H1 H2; cbn [protected_lower_bound].
  - assert (len = 0)%nat as -> by lia. rewrite Nat.add_0_r in H2. done.
  - destruct len as [|len']; [rewrite Nat.add_0_r in H2; done|]. set (len := S len') in *. cbv zeta. set (half := Nat.div2 len).
    assert (Hhalf : (half < len)%nat) by (apply Nat.lt_div2; lia).
    destruct (lookup_lt_is_Some_2 l (first + half)) as [m Hm]; [lia|]. rewrite Hm. rewrite LessThan_offset by (try done; rewrite list.Forall_lookup in Hl; by eapply Hl).
    destruct (Z.ltb_spec (offset (pp_seq_num m)) (offset s)) as [Hlt|Hge].
    + apply IH; [lia|lia| |].
      * intros j q Hj Hq. specialize (Hmono j (first + half)%nat q m ltac:(lia) Hq Hm). lia.
      * intros j q Hj Hq. apply (H2 j q); [lia|done].
    + apply IH; [lia|lia|done|]. intros j q Hj Hq. specialize (Hmono (first + half)%nat j m q ltac:(lia) Hm Hq). lia.
Qed.

(** Covering fills the slot with the number of the packet, if there is one. *)
Lemma cover_slots s pkt f : near s -> Forall (fun q => near (pp_seq_num q)) (protected_packets f) -> sorted pp_seq_num (protected_packets f) ->
  protected_packets (cover s pkt f) = map (fun q => if pp_seq_num q =? s then mkProtected (pp_seq_num q) (Some pkt) else q) (protected_packets f).
Proof.
  intros Hs Hl Hsort. pose proof (cover_spec s pkt f) as [_ E]. cbv zeta in E. rewrite E. clear E. set (l := protected_packets f) in *.
  destruct (lower_bound_spec l s (length l) 0 (length l) Hs Hl Hsort) as [H1 H2]; [lia|lia|lia|intros j q Hj Hq; apply lookup_lt_Some in Hq; lia|].
  set (i := protected_lower_bound (length l) l s 0 (length l)) in *.
  assert (Hother : forall j q, l !! j = Some q -> pp_seq_num q = s -> j = i).
  { intros j q Hj Hq. destruct (decide (j < i)%nat) as [Hji|Hji]; [specialize (H1 j q Hji Hj); rewrite Hq in H1; lia|].
    destruct (decide (j = i)) as [|Hne]; [done|exfalso]. destruct (lookup_lt_is_Some_2 l i) as [r Hr]; [apply lookup_lt_Some in Hj; lia|].
    specialize (H2 i r ltac:(lia) Hr). clear -Hsort Hj Hr Hji Hne Hq H2. generalize dependent i. revert j Hj. induction l as [|x l IH]; intros j Hj i Hr Hji Hne; [done|].
    apply sorted_cons in Hsort as [Hs Hlt]. destruct j as [|j], i as [|i]; cbn in *; simplify_eq; try lia.
    - rewrite list.Forall_lookup in Hlt. specialize (Hlt _ _ Hj). cbv beta in Hlt. lia.
    - apply (IH Hs j Hj i); [lia|lia|done]. }
  apply list_eq. intros j. change (@map ProtectedPacket ProtectedPacket) with (@fmap list list_fmap ProtectedPacket ProtectedPacket). rewrite list_lookup_fmap.
  destruct (l !! i) as [q|] eqn:Eq.
  - destruct (Z.eqb_spec (pp_seq_num q) s) as [E|E].
    + destruct (decide (j = i)) as [->|Hne].
      * rewrite list_lookup_insert_eq by (by eapply lookup_lt_Some). rewrite Eq. cbn. by rewrite (proj2 (Z.eqb_eq _ _) E), E.
      * rewrite list_lookup_insert_ne by done. destruct (l !! j) as [q'|] eqn:Ej; cbn; [|done]. destruct (Z.eqb_spec (pp_seq_num q') s) as [E'|]; [|done].
        exfalso. by apply Hne, (Hother j q').
    + destruct (l !! j) as [q'|] eqn:Ej; cbn; [|done]. destruct (Z.eqb_spec (pp_seq_num q') s) as [E'|]; [|done]. pose proof (Hother j q' Ej E') as ->. congruence.
  - destruct (l !! j) as [q'|] eqn:Ej; cbn; [|done]. destruct (Z.eqb_spec (pp_seq_num q') s) as [E'|]; [|done]. pose proof (Hother j q' Ej E') as ->. congruence.
Qed.

(** The merge enters all packets that are known. *)
Lemma assign_slots_spec n slots recovered :
  Forall (fun q => near (pp_seq_num q)) slots -> Forall (fun r => near (rec_seq_num r)) recovered -> sorted pp_seq_num slots -> sorted rec_seq_num recovered ->
  (length slots + length recovered <= n)%nat ->
  assign_slots n slots recovered = map (fun q => match known recovered (pp_seq_num q) with Some p => mkProtected (pp_seq_num q) (Some p) | None => q end) slots.
Proof.
  intros Hq Hr Hsq Hsr. revert slots recovered Hq Hr Hsq Hsr. induction n as [|n IH]; intros slots recovered Hq Hr Hsq Hsr Hn; cbn [assign_slots].
  - destruct slots; [done|cbn [length] in Hn; lia].
  - destruct slots as [|q slots]; [done|]. destruct recovered as [|r recovered].
    { clear. cbn [map known]. f_equal. induction slots as [|x slots IH]; cbn [map known]; [done|by f_equal]. }
    pose proof Hq as [Hq1 Hq2]%list.Forall_cons. pose proof Hr as [Hr1 Hr2]%list.Forall_cons. pose proof Hsq as [Hsq1 Hsq2]%sorted_cons. pose proof Hsr as [Hsr1 Hsr2]%sorted_cons.
    cbn [length] in Hn. rewrite !LessThan_offset by done.
    assert (Htail : forall s, offset s < offset (rec_seq_num r) -> known (r :: recovered) s = None).
    { intros s Hs. apply known_None. constructor; [intros <-; lia|]. eapply list.Forall_impl; [exact Hsr2|]. cbv beta. intros r' Hr' <-. lia. }
    destruct (Z.ltb_spec (offset (pp_seq_num q)) (offset (rec_seq_num r))) as [H1|H1].
    { rewrite (IH slots (r :: recovered)) by (done || (cbn [length]; lia)). cbn [map]. by rewrite (Htail (pp_seq_num q)). }
    destruct (Z.ltb_spec (offset (rec_seq_num r)) (offset (pp_seq_num q))) as [H2|H2].
    + rewrite (IH (q :: slots) recovered) by (done || (cbn [length]; lia)). apply map_ext_in. intros q' Hq'. cbn [known].
      destruct (Z.eqb_spec (rec_seq_num r) (pp_seq_num q')) as [E|]; [|done]. exfalso. rewrite E in H2. destruct Hq' as [<-|Hq']; [lia|]. apply list_elem_of_In in Hq'.
      rewrite list.Forall_forall in Hsq2. specialize (Hsq2 q' Hq'). cbv beta in Hsq2. lia.
    + assert (E : pp_seq_num q = rec_seq_num r) by (apply offset_inj; [apply Hq1|apply Hr1|lia]). cbn [map known]. rewrite (proj2 (Z.eqb_eq _ _) (eq_sym E)). f_equal.
      rewrite (IH slots recovered) by (done || lia). apply map_ext_in. intros q' Hq'. apply list_elem_of_In in Hq'. rewrite list.Forall_forall in Hsq2. specialize (Hsq2 q' Hq'). cbv beta in Hsq2.
      destruct (Z.eqb_spec (rec_seq_num r) (pp_seq_num q')) as [E'|]; [rewrite E, E' in Hsq2; lia|done].
Qed.

(** ** What is missing *)

Lemma missing_none recovered ks : NumCoveredPacketsMissing (map (slot recovered) ks) 0 = 0 -> Forall (fun k => is_Some (known recovered k)) ks.
Proof.
  assert (H1 : forall ks, NumCoveredPacketsMissing (map (slot recovered) ks) 1 <> 0).
  { clear. induction ks as [|k ks IH]; cbn [map NumCoveredPacketsMissing]; [done|]. destruct (pp_pkt (slot recovered k)); [done|]. done. }
  induction ks as [|k ks IH]; cbn [map NumCoveredPacketsMissing]; [constructor|]. cbn [slot pp_pkt]. destruct (known recovered k) as [p|] eqn:E.
  - intros H. constructor; [by rewrite E|by apply IH].
  - cbn [Z.add Z.ltb Z.compare Pos.compare Pos.compare_cont]. intros H. by destruct (H1 ks).
Qed.

(** If all but one number are known, at most one is missing. *)
Lemma missing_at_most_one recovered ks k0 : NoDup ks -> Forall (fun k => k = k0 \/ is_Some (known recovered k)) ks ->
  NumCoveredPacketsMissing (map (slot recovered) ks) 0 <> 2.
Proof.
  assert (H1 : forall ks n, Forall (fun k => is_Some (known recovered k)) ks -> NumCoveredPacketsMissing (map (slot recovered) ks) n = n).
  { clear. intros ks n. induction 1 as [|k ks [p Hk] Hks IH]; cbn [map NumCoveredPacketsMissing slot pp_pkt]; [done|]. by rewrite Hk. }
  induction ks as [|k ks IH]; [done|]. intros [Hn Hd]%list.NoDup_cons [Hk Hks]%list.Forall_cons. cbn [map NumCoveredPacketsMissing slot pp_pkt].
  destruct (known recovered k) as [p|] eqn:E; [by apply IH|]. cbn [Z.add Z.ltb Z.compare Pos.compare Pos.compare_cont]. rewrite H1; [done|].
  destruct Hk as [->|[p Hp]]; [|by rewrite Hp in E]. eapply list.Forall_forall. intros k Hk'. rewrite list.Forall_forall in Hks. destruct (Hks k Hk') as [->|]; [by destruct Hn|done].
Qed.

(** If two numbers are not known, more than one is missing. *)
Lemma missing_two recovered ks k k' : k ∈ ks -> k' ∈ ks -> k' <> k -> known recovered k = None -> known recovered k' = None ->
  NumCoveredPacketsMissing (map (slot recovered) ks) 0 <> 1.
Proof.
  assert (H1 : forall ks k, k ∈ ks -> known recovered k = None -> NumCoveredPacketsMissing (map (slot recovered) ks) 1 <> 1).
  { clear. induction ks as [|x ks IH]; intros k Hk Hn; [by apply not_elem_of_nil in Hk|]. cbn [map NumCoveredPacketsMissing slot pp_pkt].
    apply elem_of_cons in Hk as [<-|Hk]; [by rewrite Hn|]. destruct (known recovered x); [by eapply IH|done]. }
  induction ks as [|x ks IH]; intros Hk Hk' Hne Hn Hn'; [by apply not_elem_of_nil in Hk|]. cbn [map NumCoveredPacketsMissing slot pp_pkt].
  apply elem_of_cons in Hk as [<-|Hk], Hk' as [<-|Hk']; [done|rewrite Hn|rewrite Hn'|];
    cbn [Z.add Z.ltb Z.compare Pos.compare Pos.compare_cont]; [by eapply H1|by eapply H1|].
  destruct (known recovered x); [by apply IH|]. by eapply H1.
Qed.
End order.
