(* ===== verification/FecLoss.v ===== *)
(** * Forward error correction: a lost packet comes back

    One packet of a block is lost, and the others arrive with the FEC packets, in any
    order: the decoder has the lost packet at some point. The invariant of the decoder
    on such a block says that every slot of a FEC packet that is kept is filled exactly
    when its packet is in the list. *)

From Stdlib Require Import Sorted.
From S2P Require Import Prelude ByteIo Rtcp TransportFeedback FecPacket FecParity FecMasks FecTables FecChoice FecEncode FecRecover FecDecode FecSound FecBlock FecOrder.

Open Scope Z_scope.
Open Scope c_scope.

(** ** Keys of FEC packets *)

(** A FEC packet on its way: its number, its row of the masks, the packet *)
Record Parity := mkParity { sf_number : Z; sf_row : list Z; sf_packet : Packet }.

Lemma sorted_map {A B} base (f : A -> B) (key : B -> Z) l : sorted base key (map f l) <-> sorted base (fun x => key (f x)) l.
Proof.
  induction l as [|x l IH]; cbn [map]; [split; constructor|]. rewrite !sorted_cons, IH. by rewrite List.Forall_map.
Qed.

Lemma selected_sorted base row n l : 0 <= n -> increasing n (map fst l) -> Forall (fun k => k < 0x2000) (map fst l) ->
  Forall (fun e => number (snd e) = u16 (base + fst e)) l -> is_u16 base ->
  sorted base (fun k => k) (map number (selected row l)) /\ Forall (fun k => near base k /\ n <= offset base k) (map number (selected row l)).
Proof.
  intros Hn Hinc Hlt Hnum Hbase. revert n Hn Hinc. induction l as [|e l IH]; intros n Hn Hinc; [split; constructor|]. cbn [map increasing] in *. destruct Hinc as [He Hinc].
  apply list.Forall_cons in Hlt as [Hlt1 Hlt2]. apply list.Forall_cons in Hnum as [Hnum1 Hnum2]. destruct (IH Hlt2 Hnum2 (fst e + 1) ltac:(lia) Hinc) as [Hs Hf].
  assert (Hoff : offset base (number (snd e)) = fst e /\ is_u16 (number (snd e))).
  { rewrite Hnum1. unfold offset, is_u16, u16 in *. change (2 ^ 16) with 65536 in *. Z.div_mod_to_equations. lia. }
  destruct Hoff as [Hoff Hu]. unfold selected. rewrite filter_cons. fold (selected row l).
  assert (Hf' : Forall (fun k => near base k /\ n <= offset base k) (map number (selected row l))).
  { eapply list.Forall_impl; [exact Hf|]. cbv beta. intros k [? ?]. split; [done|lia]. }
  destruct (decide _); [|by split]. cbn [map]. fold (selected row l). split.
  - apply sorted_cons. split; [done|]. eapply list.Forall_impl; [exact Hf|]. cbv beta. intros k [_ Hk]. lia.
  - constructor; [|done]. split; [split; [done|]|]; lia.
Qed.

Section loss.
Context (garbage ssrc : Z) (front : Packet) (rest : list Packet) (channel : list Parity).
Hypothesis Hblock : block front rest.
Hypothesis Hgenuine : Forall (genuine ssrc) (front :: rest).
Hypothesis Hnear : last_place 0 (number front) rest < kMaxMediaPackets.
Hypothesis channel_numbers : NoDup (map sf_number channel).
Hypothesis channel_size : Z.of_nat (length channel) <= kMaxFecPackets.
Hypothesis channel_near : Forall (fun e => near (number front) (sf_number e)) channel.
Hypothesis channel_fec : Forall (fun e => fec_of front rest (sf_row e) (sf_packet e)) channel.

Local Notation "'media'" := (front :: rest).
Local Notation "'base'" := (number front).
Local Notation "'sent'" := (sent_in media).

Definition keys (e : Parity) : list Z := map number (selected (sf_row e) (block_placed front rest)).

Lemma keys_sorted e : sorted base (fun k => k) (keys e) /\ Forall (near base) (keys e).
Proof.
  destruct (block_place_bounds front rest Hblock) as (Hinc & Hpl & _). unfold kMaxMediaPackets in *.
  destruct (selected_sorted base (sf_row e) 0 (block_placed front rest)) as [Hs Hf]; [done|done| |by apply block_numbers|apply number_range, Hblock|].
  - rewrite fst_block_placed. eapply list.Forall_impl; [exact Hpl|]. cbv beta. lia.
  - split; [done|]. eapply list.Forall_impl; [exact Hf|]. by intros k [? _].
Qed.

Lemma sent_near k p : sent k = Some p -> near base k.
Proof.
  intros Hs. destruct (sent_in_Some _ _ _ Hs) as [Hp <-]. rewrite <- (snd_block_placed front rest) in Hp.
  change (@map (Z * Packet) Packet) with (@fmap list list_fmap (Z * Packet) Packet) in Hp. apply list_elem_of_fmap in Hp as (e & -> & He).
  pose proof (block_numbers front rest Hblock) as Hnum. rewrite list.Forall_forall in Hnum. specialize (Hnum e He). cbv beta in Hnum.
  destruct (block_place_bounds front rest Hblock) as (_ & Hpl & _). rewrite <- fst_block_placed in Hpl. apply (proj1 (List.Forall_map _ _ _)) in Hpl.
  rewrite list.Forall_forall in Hpl. specialize (Hpl e He). cbv beta in Hpl. pose proof (number_range front (bl_front _ _ Hblock)) as Hb. rewrite Hnum. unfold kMaxMediaPackets in *.
  unfold near, offset, is_u16, u16 in *. change (2 ^ 16) with 65536 in *. Z.div_mod_to_equations. lia.
Qed.

Lemma keys_sent e k : k ∈ keys e -> is_Some (sent k).
Proof.
  unfold keys. change (@map Packet Z) with (@fmap list list_fmap Packet Z). intros (p & -> & Hp)%list_elem_of_fmap.
  pose proof (in_stream front rest Hblock p (elem_selected front rest _ _ Hp)) as Hs. unfold from_stream in Hs. by exists p.
Qed.

Lemma media_size : Z.of_nat (length media) <= kMaxMediaPackets.
Proof. destruct (block_place_bounds front rest Hblock) as (_ & _ & Hn). lia. Qed.

(** ** The invariant *)

(** The packets that arrive: of the stream, or of the channel *)
Definition arrives (r : ReceivedPacket) : Prop :=
  rcv_ssrc r = ssrc /\
  if is_fec r then exists e, e ∈ channel /\ sf_number e = rcv_seq_num r /\ sf_packet e = rcv_pkt r
  else sent (rcv_seq_num r) = Some (rcv_pkt r).

(** A FEC packet that is kept *)
Definition kept (recovered : list RecoveredPacket) (g : ReceivedFecPacket) : Prop :=
  exists e, e ∈ channel /\ rf_seq_num g = sf_number e /\ protected_packets g = map (slot recovered) (keys e).

(** Nothing of an arrival is lost again. *)
Definition accounted (fecs : list ReceivedFecPacket) (recovered : list RecoveredPacket) (r : ReceivedPacket) : Prop :=
  if is_fec r then forall e, e ∈ channel -> sf_number e = rcv_seq_num r ->
    rcv_seq_num r ∈ map rf_seq_num fecs \/ Forall (fun k => is_Some (known recovered k)) (keys e)
  else is_Some (known recovered (rcv_seq_num r)).

Record inv (arrived : list ReceivedPacket) (fecs : list ReceivedFecPacket) (recovered : list RecoveredPacket) : Prop := {
  in_good : all_good ssrc sent fecs recovered;
  in_sorted : sorted base rec_seq_num recovered;
  in_kept : Forall (kept recovered) fecs;
  in_distinct : NoDup (map rf_seq_num fecs);
  in_accounted : Forall (accounted fecs recovered) arrived;
}.

Lemma recovered_near recovered : Forall (recovered_good sent) recovered -> Forall (fun r => near base (rec_seq_num r)) recovered.
Proof. intros Hr. eapply list.Forall_impl; [exact Hr|]. intros r Hs. by eapply sent_near. Qed.

(** The list is no longer than the block, less each packet that is not in it. *)
Lemma recovered_size recovered lost : Forall (recovered_good sent) recovered -> NoDup (map rec_seq_num recovered) -> NoDup lost ->
  Forall (fun k => k ∈ map number media /\ known recovered k = None) lost -> (length recovered + length lost <= length media)%nat.
Proof.
  intros Hr Hd Hl Hlost. rewrite <- (length_map number media), <- (length_map rec_seq_num recovered), <- length_app. apply List.NoDup_incl_length.
  - apply NoDup_ListNoDup, list.NoDup_app. split_and!; [done| |done]. intros k Hk Hk'. rewrite list.Forall_forall in Hlost. destruct (Hlost k Hk') as [_ Hn].
    apply known_None in Hn. rewrite list.Forall_forall in Hn. change (@map RecoveredPacket Z) with (@fmap list list_fmap RecoveredPacket Z) in Hk.
    apply list_elem_of_fmap in Hk as (r & -> & Hk). by apply (Hn r Hk).
  - intros k Hk. apply list_elem_of_In in Hk. apply list_elem_of_In. apply elem_of_app in Hk as [Hk|Hk]; [|rewrite list.Forall_forall in Hlost; by apply Hlost].
    change (@map RecoveredPacket Z) with (@fmap list list_fmap RecoveredPacket Z) in Hk. apply list_elem_of_fmap in Hk as (r & -> & Hk).
    rewrite list.Forall_forall in Hr. specialize (Hr r Hk). destruct (sent_in_Some _ _ _ Hr) as [Hp <-].
    change (@map Packet Z) with (@fmap list list_fmap Packet Z). by apply list_elem_of_fmap_2.
Qed.

(** A packet more in the list *)
Lemma known_add recovered x : Forall (recovered_good sent) recovered -> sorted base rec_seq_num recovered -> known recovered (rec_seq_num x) = None -> recovered_good sent x ->
  let recovered' := DiscardOldRecoveredPackets (sort rec_seq_num (recovered ++ [x])) in
  recovered' = sort rec_seq_num (recovered ++ [x]) /\ sorted base rec_seq_num recovered' /\ Forall (recovered_good sent) recovered' /\
  forall s, known recovered' s = if rec_seq_num x =? s then Some (rec_pkt x) else known recovered s.
Proof.
  intros Hr Hs Hn Hx. pose proof (sorted_NoDup base _ _ Hs) as Hd.
  assert (Hgood : Forall (recovered_good sent) (sort rec_seq_num (recovered ++ [x]))) by (apply sort_Forall, list.Forall_app; split; [done|by constructor]).
  assert (Hd' : NoDup (map rec_seq_num (recovered ++ [x]))).
  { assert (Hperm : recovered ++ [x] ≡ₚ x :: recovered) by (rewrite Permutation_app_comm; done). rewrite Hperm. cbn [map]. apply list.NoDup_cons. split; [|done].
    change (@map RecoveredPacket Z) with (@fmap list list_fmap RecoveredPacket Z). intros (r' & E & Hr')%list_elem_of_fmap. apply known_None in Hn.
    rewrite list.Forall_forall in Hn. by apply (Hn r' Hr'). }
  assert (Hsize : Z.of_nat (length (sort rec_seq_num (recovered ++ [x]))) <= kMaxMediaPackets).
  { pose proof (recovered_size (sort rec_seq_num (recovered ++ [x])) [] Hgood) as Hsz. cbn [length] in Hsz. pose proof media_size.
    enough (length (sort rec_seq_num (recovered ++ [x])) + 0 <= length media)%nat by lia. apply Hsz; [by rewrite sort_perm|constructor|constructor]. }
  cbv zeta. rewrite Discard_id by done. split_and!; [done| |done|intros s; by apply known_sort].
  apply sort_sorted; [|done]. apply recovered_near. apply list.Forall_app. split; [done|by constructor].
Qed.

Lemma kept_cover recovered recovered' x g :
  near base (rec_seq_num x) -> (forall s, known recovered' s = if rec_seq_num x =? s then Some (rec_pkt x) else known recovered s) ->
  kept recovered g -> kept recovered' (cover (rec_seq_num x) (rec_pkt x) g).
Proof.
  intros Hx Hk (e & He & Hseq & Hp). exists e. destruct (cover_spec (rec_seq_num x) (rec_pkt x) g) as [(Esame & _) _]. split_and!; [done|by rewrite Esame|].
  destruct (keys_sorted e) as [Hsort Hnr]. rewrite (cover_slots base); [rewrite Hp, map_map|done|..].
  - apply map_ext. intros k. unfold slot. cbn [pp_seq_num]. rewrite Hk, (Z.eqb_sym k). by destruct (_ =? _).
  - rewrite Hp. apply List.Forall_map. done.
  - rewrite Hp. by apply sorted_map.
Qed.

Lemma map_Update s p fecs : map rf_seq_num (UpdateCoveringFecPackets s p fecs) = map rf_seq_num fecs.
Proof. unfold UpdateCoveringFecPackets. rewrite map_map. apply map_ext. intros g. by destruct (cover_spec s p g) as [(-> & _) _]. Qed.

Lemma inv_add arrived fecs recovered x : inv arrived fecs recovered -> known recovered (rec_seq_num x) = None -> recovered_good sent x ->
  let recovered' := DiscardOldRecoveredPackets (sort rec_seq_num (recovered ++ [x])) in
  inv arrived (UpdateCoveringFecPackets (rec_seq_num x) (rec_pkt x) fecs) recovered' /\
  forall s, known recovered' s = if rec_seq_num x =? s then Some (rec_pkt x) else known recovered s.
Proof.
  intros [[Hg1 Hg2 Hg3] Hs Hk Hd Ha] Hn Hx. cbv zeta. destruct (known_add recovered x Hg2 Hs Hn Hx) as (_ & Hs' & Hg2' & Hk'). split; [|done].
  set (recovered' := DiscardOldRecoveredPackets _) in *.
  assert (Hmono : forall k, is_Some (known recovered k) -> is_Some (known recovered' k)) by (intros k Hsome; rewrite Hk'; by destruct (_ =? _)).
  split; [split; [by apply Update_good|done|apply Discard_length]|done| | |].
  - apply List.Forall_map. eapply list.Forall_impl; [exact Hk|]. intros g Hgk. apply (kept_cover recovered); [by eapply sent_near|done|done].
  - by rewrite map_Update.
  - eapply list.Forall_impl; [exact Ha|]. intros r. unfold accounted. destruct (is_fec r); [|by apply Hmono]. intros Hacc e He Hes. rewrite map_Update.
    destruct (Hacc e He Hes) as [?|Hall]; [by left|right]. eapply list.Forall_impl; [exact Hall|]. intros k. apply Hmono.
Qed.

(** A FEC packet whose packets are all in the list goes. *)
Lemma inv_drop arrived before g after recovered : inv arrived (before ++ g :: after) recovered ->
  (forall e, e ∈ channel -> rf_seq_num g = sf_number e -> Forall (fun k => is_Some (known recovered k)) (keys e)) -> inv arrived (before ++ after) recovered.
Proof.
  intros [[Hg1 Hg2 Hg3] Hs Hk Hd Ha] Hall. apply list.Forall_app in Hg1 as [Hg1 [_ Hg1']%list.Forall_cons]. apply list.Forall_app in Hk as [Hk1 [_ Hk2]%list.Forall_cons].
  rewrite map_app in Hd. cbn [map] in Hd. split.
  - split; [by apply list.Forall_app|done|done].
  - done.
  - by apply list.Forall_app.
  - rewrite map_app. apply list.NoDup_app in Hd as (Hd1 & Hd2 & Hd3). apply list.NoDup_cons in Hd3 as [_ Hd3]. apply list.NoDup_app. split_and!; [done| |done].
    intros k Hk Hk'. apply (Hd2 k Hk). by apply list_elem_of_further.
  - eapply list.Forall_impl; [exact Ha|]. intros r. unfold accounted. destruct (is_fec r); [|done]. intros Hacc e He Hes. destruct (Hacc e He Hes) as [Hin|?]; [|by right].
    rewrite map_app in Hin |- *. cbn [map] in Hin. apply elem_of_app in Hin as [Hin|Hin]; [left; apply elem_of_app; by left|].
    apply elem_of_cons in Hin as [E|Hin]; [right; apply Hall; [done|congruence]|left; apply elem_of_app; by right].
Qed.

(** ** Recovery *)

Lemma channel_unique e e' : e ∈ channel -> e' ∈ channel -> sf_number e = sf_number e' -> e = e'.
Proof.
  intros He He' E. clear -channel_numbers He He' E. induction channel as [|x l IH]; [by apply not_elem_of_nil in He|]. cbn [map] in channel_numbers.
  apply list.NoDup_cons in channel_numbers as [Hn Hd]. change (@map Parity Z) with (@fmap list list_fmap Parity Z) in Hn.
  apply elem_of_cons in He as [->|He], He' as [->|He']; [done| | |by apply IH].
  - destruct Hn. rewrite E. by apply list_elem_of_fmap_2.
  - destruct Hn. rewrite <- E. by apply list_elem_of_fmap_2.
Qed.

Lemma kept_unique recovered g e : kept recovered g -> e ∈ channel -> rf_seq_num g = sf_number e -> protected_packets g = map (slot recovered) (keys e).
Proof. intros (e' & He' & E & Hp) He Eg. rewrite (channel_unique e e') by (done || congruence). done. Qed.

Lemma AttemptRecovery_inv arrived d recovered : inv arrived (received_fec_packets_ d) recovered ->
  exists fecs recovered', AttemptRecovery garbage d recovered = Some (d <| received_fec_packets_ := fecs |>, recovered') /\ inv arrived fecs recovered' /\ Forall waiting fecs.
Proof.
  intros Hinv. apply (AttemptRecovery_invariant garbage (inv arrived)); [| |done].
  - intros before g after rec Hi Hm. eapply inv_drop; [exact Hi|]. intros e He Eg. pose proof (in_kept _ _ _ Hi) as Hk. apply list.Forall_app in Hk as [_ [Hk _]%list.Forall_cons].
    apply missing_none. by rewrite <- (kept_unique rec g e Hk He Eg).
  - intros before g after rec Hi Hm. pose proof (in_kept _ _ _ Hi) as Hk. apply list.Forall_app in Hk as [_ [Hk _]%list.Forall_cons].
    pose proof (ag_stored _ _ _ _ (in_good _ _ _ Hi)) as Hg. apply list.Forall_app in Hg as [_ [Hg _]%list.Forall_cons].
    destruct (stored_recovers ssrc sent (sent_genuine ssrc front rest Hgenuine) garbage g Hg Hm) as (p & Hrec & Hp & Hslot). exists (number p), p. split; [done|].
    destruct Hk as (e & He & Eg & Hslots). set (x := mkRecovered (protected_ssrc g) (number p) true false p).
    assert (Hnone : known rec (number p) = None).
    { rewrite Hslots in Hslot. change (@map Z ProtectedPacket) with (@fmap list list_fmap Z ProtectedPacket) in Hslot. apply list_elem_of_fmap in Hslot as (k & E & _).
      unfold slot in E. injection E as <- E. done. }
    destruct (inv_add arrived _ rec x Hi Hnone Hp) as [Hi' Hk']. cbn [rec_seq_num rec_pkt x] in Hi', Hk'.
    unfold UpdateCoveringFecPackets in *. rewrite map_app in Hi'. cbn [map] in Hi'. eapply inv_drop; [exact Hi'|].
    intros e' He' Eg'. destruct (cover_spec (number p) p g) as [(Esame & _) _]. rewrite Esame, Eg in Eg'. rewrite (channel_unique e' e) by (done || congruence).
    apply list.Forall_forall. intros k Hkey. rewrite Hk'. destruct (Z.eqb_spec (number p) k) as [|Hne]; [by eexists|].
    destruct (known rec k) as [q|] eqn:Ek; [by eexists|exfalso]. destruct (keys_sorted e) as [Hsort _].
    apply sorted_NoDup in Hsort. rewrite map_id in Hsort. revert Hm. rewrite Hslots.
    assert (Hpk : number p ∈ keys e).
    { rewrite Hslots in Hslot. change (@map Z ProtectedPacket) with (@fmap list list_fmap Z ProtectedPacket) in Hslot. apply list_elem_of_fmap in Hslot as (k' & E & Hin).
      unfold slot in E. by injection E as <-. }
    by apply (missing_two rec (keys e) k (number p)).
Qed.

(** ** Arrivals *)

Lemma arrives_good r : arrives r -> arrival_good sent r.
Proof.
  intros [_ Hr]. unfold arrival_good. destruct (is_fec r); [|done]. destruct Hr as (e & He & _ & <-). rewrite list.Forall_forall in channel_fec.
  by apply (fec_of_good front rest Hblock Hnear (sf_row e)), channel_fec.
Qed.

Lemma arrives_near r : arrives r -> near base (rcv_seq_num r).
Proof.
  intros [_ Hr]. destruct (is_fec r); [|by eapply sent_near]. destruct Hr as (e & He & <- & _). rewrite list.Forall_forall in channel_near. by apply channel_near.
Qed.

Lemma kept_near recovered fecs : Forall (kept recovered) fecs -> Forall (fun g => near base (rf_seq_num g)) fecs.
Proof.
  intros Hk. eapply list.Forall_impl; [exact Hk|]. intros g (e & He & -> & _). rewrite list.Forall_forall in channel_near. by apply channel_near.
Qed.

Lemma discard_none s fecs : near base s -> Forall (fun g => near base (rf_seq_num g)) fecs -> discard_fec s fecs = fecs.
Proof.
  intros Hs Hf. destruct Hf as [|g fecs Hg Hf]; cbn [discard_fec]; [done|]. by rewrite (proj2 (Z.ltb_ge _ _)) by by apply (MinDiff_near base).
Qed.

Lemma existsb_known s recovered : existsb (fun r => rec_seq_num r =? s) recovered = match known recovered s with Some _ => true | None => false end.
Proof. induction recovered as [|r recovered IH]; cbn [existsb known]; [done|]. destruct (_ =? _); [done|]. exact IH. Qed.

Lemma accounted_more arrived fecs fecs' recovered : (forall s, s ∈ map rf_seq_num fecs -> s ∈ map rf_seq_num fecs') ->
  Forall (accounted fecs recovered) arrived -> Forall (accounted fecs' recovered) arrived.
Proof.
  intros Hin Ha. eapply list.Forall_impl; [exact Ha|]. intros r. unfold accounted. destruct (is_fec r); [|done]. intros Hacc e He Es.
  destruct (Hacc e He Es) as [?|?]; [left; by apply Hin|by right].
Qed.

Lemma InsertMediaPacket_inv arrived d recovered r : inv arrived (received_fec_packets_ d) recovered -> arrives r -> is_fec r = false ->
  let '(d', recovered') := InsertMediaPacket d recovered r in
  inv (r :: arrived) (received_fec_packets_ d') (DiscardOldRecoveredPackets recovered') /\ forall l, d' <| received_fec_packets_ := l |> = d <| received_fec_packets_ := l |>.
Proof.
  intros Hi [_ Hr] Hfec. rewrite Hfec in Hr. unfold InsertMediaPacket. rewrite existsb_known. destruct (known recovered (rcv_seq_num r)) as [p|] eqn:E.
  - split; [|done]. rewrite Discard_id by apply (ag_size _ _ _ _ (in_good _ _ _ Hi)). destruct Hi as [H1 H2 H3 H4 H5]. split; [done..|].
    constructor; [|done]. unfold accounted. rewrite Hfec, E. by eexists.
  - cbv zeta. split; [|done]. set (x := mkRecovered (rcv_ssrc r) (rcv_seq_num r) false true (rcv_pkt r)).
    destruct (inv_add arrived _ recovered x Hi E Hr) as [Hi' Hk]. cbn [set received_fec_packets_]. destruct Hi' as [H1 H2 H3 H4 H5].
    split; [done..|]. constructor; [|done]. unfold accounted. rewrite Hfec, Hk. cbn [rec_seq_num x]. rewrite Z.eqb_refl. by eexists.
Qed.

(** The new FEC packet, with the slots that are known filled *)
Lemma InsertFecPacket_inv arrived d recovered r : protected_media_ssrc_ d = ssrc -> inv arrived (received_fec_packets_ d) recovered -> arrives r -> is_fec r = true ->
  exists fecs, InsertFecPacket d recovered r = Some (d <| received_fec_packets_ := fecs |>) /\ inv (r :: arrived) fecs recovered.
Proof.
  intros Hd Hi Har Hfec. pose proof (arrives_good r Har) as Hgood. unfold arrival_good in Hgood. rewrite Hfec in Hgood.
  destruct (InsertFecPacket_good ssrc sent (sent_genuine ssrc front rest Hgenuine) d recovered r Hd (in_good _ _ _ Hi) Hgood) as (fecs & E & Hst).
  exists fecs. split; [done|]. pose proof (arrives_near r Har) as Hrn. destruct Har as [Hrs Hr]. rewrite Hfec in Hr. destruct Hr as (e & He & Es & Ep).
  pose proof Hi as [[Hg1 Hg2 Hg3] H2 H3 H4 H5]. unfold InsertFecPacket in E. destruct (existsb _ _) eqn:Eex.
  - assert (Ef : fecs = received_fec_packets_ d) by (injection E as E'; by rewrite E'). subst fecs. split; [by split|done..|]. constructor; [|done].
    unfold accounted. rewrite Hfec. intros e' He' Es'. left. apply existsb_exists in Eex as (g & Hg & Eg). apply Z.eqb_eq in Eg. apply list_elem_of_In, in_map_iff. by exists g.
  - rewrite list.Forall_forall in channel_fec. destruct (channel_fec e He) as [Hrow Hover]. rewrite Ep in Hover. set (l := selected (sf_row e) (block_placed front rest)) in *.
    assert (Hl : Forall (from_stream sent) l) by (apply list.Forall_forall; intros p Hp; by apply in_stream, (elem_selected front rest (sf_row e))).
    destruct (read_fec_over ssrc sent (sent_genuine ssrc front rest Hgenuine) r base (sf_row e) l Hover (number_range _ (bl_front _ _ Hblock)) Hl
      (row_over_numbers front rest (sf_row e) Hblock Hnear Hrow)) as (f & Ef & Eps & Eseq & Em & _).
    rewrite Ef in E. cbn [mbind option_bind] in E. rewrite Eps, Hrs, Hd, Z.eqb_refl in E. cbn [negb] in E. rewrite Em in E. cbn [mbind option_bind] in E. cbv zeta in E.
    assert (Hne : map (fun p => mkProtected (number p) None) l <> []) by (pose proof (ro_some _ _ _ Hrow) as Hso; fold l in Hso; by destruct l).
    assert (Ekeys : map (fun p => mkProtected (number p) None) l = map (fun k => mkProtected k None) (keys e)) by (unfold keys; fold l; by rewrite map_map).
    destruct (keys_sorted e) as [Hks Hkn]. rewrite Ekeys in E, Hne. destruct (map (fun k => mkProtected k None) (keys e)) as [|q0 qs] eqn:Eq; [done|]. rewrite <- Eq in E. clear Hne.
    set (g := AssignRecoveredPackets recovered (f <| protected_packets := map (fun k => mkProtected k None) (keys e) |>)) in *.
    assert (Hkg : kept recovered g).
    { exists e. split_and!; [done|by rewrite Es|]. subst g. unfold AssignRecoveredPackets. cbn [set protected_packets].
      rewrite (assign_slots_spec base); [rewrite map_map|by apply List.Forall_map|by apply recovered_near|by apply sorted_map|done|done].
      apply map_ext. intros k. unfold slot. cbn [pp_seq_num]. by destruct (known recovered k). }
    assert (Eg : rf_seq_num g = rcv_seq_num r) by (subst g; unfold AssignRecoveredPackets; cbn [set rf_seq_num]; done).
    set (fecs0 := sort rf_seq_num (received_fec_packets_ d ++ [g])) in *.
    assert (Hperm : fecs0 ≡ₚ g :: received_fec_packets_ d) by (subst fecs0; rewrite sort_perm, Permutation_app_comm; done).
    assert (Hd0 : NoDup (map rf_seq_num fecs0)).
    { rewrite Hperm. cbn [map]. apply list.NoDup_cons. split; [|done]. rewrite Eg. intros Hin. apply list_elem_of_In, in_map_iff in Hin as (g' & Eg' & Hg').
      assert (Htrue : existsb (fun f => rf_seq_num f =? rcv_seq_num r) (received_fec_packets_ d) = true) by (apply existsb_exists; exists g'; split; [done|by apply Z.eqb_eq]).
      congruence. }
    assert (Hk0 : Forall (kept recovered) fecs0) by (rewrite Hperm; by constructor).
    assert (Hsize : (length fecs0 <= length channel)%nat).
    { rewrite <- (length_map rf_seq_num fecs0), <- (length_map sf_number channel). apply List.NoDup_incl_length; [by apply NoDup_ListNoDup|].
      intros s Hs. apply in_map_iff in Hs as (g' & <- & Hg'). apply list_elem_of_In in Hg'. rewrite list.Forall_forall in Hk0. destruct (Hk0 g' Hg') as (e' & He' & -> & _).
      apply in_map_iff. exists e'. split; [done|by apply list_elem_of_In]. }
    rewrite (proj2 (Z.ltb_ge kMaxFecPackets _)) in E by lia.
    assert (Efs : fecs = fecs0) by (injection E as E'; by rewrite E'). subst fecs. split; [by split|done|done|done|].
    assert (Hin : forall s, s ∈ map rf_seq_num (received_fec_packets_ d) -> s ∈ map rf_seq_num fecs0).
    { intros s Hs. rewrite Hperm. cbn [map]. by apply list_elem_of_further. }
    constructor; [|by eapply accounted_more]. unfold accounted. rewrite Hfec. intros e' He' Es'. left. rewrite Hperm. cbn [map]. rewrite Eg. apply list_elem_of_here.
Qed.

Lemma InsertPacket_inv arrived d recovered r : protected_media_ssrc_ d = ssrc -> inv arrived (received_fec_packets_ d) recovered -> arrives r ->
  exists fecs recovered', InsertPacket d r recovered = Some (d <| received_fec_packets_ := fecs |>, recovered') /\ inv (r :: arrived) fecs recovered'.
Proof.
  intros Hd Hi Har. unfold InsertPacket.
  set (d1 := match received_fec_packets_ d with f :: _ => _ | [] => d end).
  assert (Hd1 : d1 = d).
  { subst d1. destruct (received_fec_packets_ d) as [|f fecs] eqn:Ef; [done|]. destruct (_ =? _); [|done].
    rewrite discard_none; [rewrite <- Ef; by destruct d|by apply arrives_near|]. by apply (kept_near recovered), (in_kept _ _ _ Hi). }
  rewrite Hd1. destruct (is_fec r) eqn:Efec.
  - destruct (InsertFecPacket_inv arrived d recovered r Hd Hi Har Efec) as (fecs & -> & Hi'). cbn [mbind option_bind].
    rewrite Discard_id by apply (ag_size _ _ _ _ (in_good _ _ _ Hi)). by exists fecs, recovered.
  - pose proof (InsertMediaPacket_inv arrived d recovered r Hi Har Efec) as Hm. destruct (InsertMediaPacket d recovered r) as [d' recovered']. destruct Hm as [Hm Hset].
    cbn [mbind option_bind]. exists (received_fec_packets_ d'), (DiscardOldRecoveredPackets recovered'). rewrite <- Hset. split; [by destruct d'|done].
Qed.

(** As long as a packet of the block is missing, nothing is reset. *)
Lemma DecodeFec_inv arrived d recovered r k : protected_media_ssrc_ d = ssrc -> inv arrived (received_fec_packets_ d) recovered -> arrives r ->
  k ∈ map number media -> known recovered k = None ->
  exists fecs recovered', DecodeFec garbage d r recovered = Some (d <| received_fec_packets_ := fecs |>, recovered') /\ inv (r :: arrived) fecs recovered' /\ Forall waiting fecs.
Proof.
  intros Hd Hi Har Hk Hn. unfold DecodeFec.
  pose proof (recovered_size recovered [k] (ag_recovered _ _ _ _ (in_good _ _ _ Hi)) (sorted_NoDup base _ _ (in_sorted _ _ _ Hi)) ltac:(apply list.NoDup_singleton)
    ltac:(apply list.Forall_cons_2; [done|apply list.Forall_nil_2])) as Hsz. cbn [length] in Hsz. pose proof media_size as Hms. cbn [length] in Hms.
  rewrite (proj2 (Z.eqb_neq (Z.of_nat (length recovered)) kMaxMediaPackets)) by lia.
  destruct (InsertPacket_inv arrived d recovered r Hd Hi Har) as (fecs & recovered' & -> & Hi'). cbn [mbind option_bind].
  match goal with |- context [AttemptRecovery garbage ?d' recovered'] => destruct (AttemptRecovery_inv (r :: arrived) d' recovered' Hi') as (fecs' & rec' & E & Hi2 & Hw) end.
  exists fecs', rec'. split; [exact E|done].
Qed.

(** What waits misses two packets; so the lost packet is not the only one that is missing. *)
Lemma lost_is_known arrived fecs recovered lost : inv arrived fecs recovered -> Forall waiting fecs -> lost ∈ media ->
  (forall p, p ∈ media -> p <> lost -> exists r, r ∈ arrived /\ is_fec r = false /\ rcv_pkt r = p /\ arrives r) ->
  (exists r e, r ∈ arrived /\ is_fec r = true /\ e ∈ channel /\ sf_number e = rcv_seq_num r /\ number lost ∈ keys e) ->
  is_Some (known recovered (number lost)).
Proof.
  intros [_ _ Hk _ Ha] Hw Hlost Hmedia (r & e & Hr & Hrf & He & Es & Hin). destruct (known recovered (number lost)) as [p|] eqn:E; [by eexists|exfalso].
  rewrite list.Forall_forall in Ha. pose proof (Ha r Hr) as Hacc. unfold accounted in Hacc. rewrite Hrf in Hacc. destruct (Hacc e He Es) as [Hkept|Hall].
  - apply list_elem_of_In, in_map_iff in Hkept as (g & Eg & Hg). apply list_elem_of_In in Hg. rewrite list.Forall_forall in Hk, Hw. specialize (Hk g Hg). specialize (Hw g Hg).
    unfold waiting in Hw. rewrite (kept_unique recovered g e Hk He ltac:(congruence)) in Hw. revert Hw. apply (missing_at_most_one recovered (keys e) (number lost)).
    + destruct (keys_sorted e) as [Hs _]. apply sorted_NoDup in Hs. by rewrite map_id in Hs.
    + apply list.Forall_forall. intros k Hkey. destruct (keys_sent e k Hkey) as [p Hp]. destruct (sent_in_Some _ _ _ Hp) as [Hpm <-].
      destruct (decide (number p = number lost)) as [|Hne]; [by left|right]. destruct (Hmedia p Hpm ltac:(congruence)) as (r' & Hr' & Hrf' & Hpk & [_ Hs']).
      rewrite Hrf' in Hs'. specialize (Ha r' Hr'). unfold accounted in Ha. rewrite Hrf' in Ha. destruct (sent_in_Some _ _ _ Hs') as [_ En]. rewrite Hpk in En. by rewrite En.
  - rewrite list.Forall_forall in Hall. destruct (Hall _ Hin) as [p Hp]. congruence.
Qed.

(** Along the arrivals, the lost packet is recovered or the invariant holds at the end. *)
Lemma decode_all_inv arrived d recovered arrivals k : protected_media_ssrc_ d = ssrc -> inv arrived (received_fec_packets_ d) recovered -> Forall waiting (received_fec_packets_ d) ->
  Forall arrives arrivals -> k ∈ map number media ->
  (exists n d' recovered', decode_all garbage d recovered (take n arrivals) = Some (d', recovered') /\ all_good ssrc sent (received_fec_packets_ d') recovered' /\ is_Some (known recovered' k)) \/
  exists d' recovered', decode_all garbage d recovered arrivals = Some (d', recovered') /\ inv (reverse arrivals ++ arrived) (received_fec_packets_ d') recovered' /\
    Forall waiting (received_fec_packets_ d').
Proof.
  intros Hd Hi Hw Har Hk. revert arrived d recovered Hd Hi Hw. induction Har as [|r arrivals Hr Har IH]; intros arrived d recovered Hd Hi Hw.
  - right. by exists d, recovered.
  - destruct (known recovered k) as [p|] eqn:E.
    + left. exists 0%nat, d, recovered. split_and!; [done|apply (in_good _ _ _ Hi)|by rewrite E].
    + destruct (DecodeFec_inv arrived d recovered r k Hd Hi Hr Hk E) as (fecs & recovered' & Ed & Hi' & Hw').
      match type of Ed with _ = Some (?d', _) => destruct (IH (r :: arrived) d' recovered' Hd Hi' Hw') as [(n & d2 & rec2 & E2 & Hg2)|(d2 & rec2 & E2 & Hi2)] end.
      * left. exists (S n), d2, rec2. cbn [take decode_all]. rewrite Ed. cbn [mbind option_bind fst snd]. done.
      * right. exists d2, rec2. cbn [decode_all]. rewrite Ed. cbn [mbind option_bind fst snd]. rewrite reverse_cons, <- app_assoc. done.
Qed.

Lemma loss_recovered arrivals lost : Forall arrives arrivals -> lost ∈ media ->
  (forall p, p ∈ media -> p <> lost -> exists r, r ∈ arrivals /\ is_fec r = false /\ rcv_pkt r = p) ->
  (exists r e, r ∈ arrivals /\ is_fec r = true /\ e ∈ channel /\ sf_number e = rcv_seq_num r /\ number lost ∈ keys e) ->
  exists n d recovered, decode_all garbage (CreateUlpfec ssrc) [] (take n arrivals) = Some (d, recovered) /\ known recovered (number lost) = Some lost.
Proof.
  intros Har Hlost Hmedia (r & e & Hr & Hrest).
  assert (Hk : number lost ∈ map number media) by (apply list_elem_of_In, in_map_iff; exists lost; split; [done|by apply list_elem_of_In]).
  assert (Hi0 : inv [] (received_fec_packets_ (CreateUlpfec ssrc)) []) by (split; [by split|constructor|constructor|constructor|constructor]).
  assert (Hknown : forall fecs recovered, all_good ssrc sent fecs recovered -> is_Some (known recovered (number lost)) -> known recovered (number lost) = Some lost).
  { intros fecs recovered [_ Hg _] [p E]. rewrite E. apply known_Some in E as (x & Hx & En & <-). rewrite list.Forall_forall in Hg. specialize (Hg x Hx).
    unfold recovered_good in Hg. rewrite En in Hg. pose proof (in_stream front rest Hblock lost Hlost) as Hs. unfold from_stream in Hs. congruence. }
  destruct (decode_all_inv [] (CreateUlpfec ssrc) [] arrivals (number lost) eq_refl Hi0 ltac:(constructor) Har Hk) as [(n & d & recovered & E & Hg & Hs)|(d & recovered & E & Hi & Hw)].
  - exists n, d, recovered. split; [done|]. by eapply Hknown.
  - exists (length arrivals), d, recovered. rewrite firstn_all. split; [done|]. eapply Hknown; [apply (in_good _ _ _ Hi)|]. rewrite app_nil_r in Hi.
    rewrite list.Forall_forall in Har. eapply lost_is_known; [exact Hi|exact Hw|done| |].
    + intros p Hp Hne. destruct (Hmedia p Hp Hne) as (r' & Hr' & Hf' & Hp'). exists r'. split_and!; [by apply elem_of_reverse|done|done|by apply Har].
    + exists r, e. split; [by apply elem_of_reverse|done].
Qed.
End loss.

(** ** From end to end *)

Lemma elem_zip_with {A B C} (f : A -> B -> C) l k z : z ∈ zip_with f l k -> exists i x y, l !! i = Some x /\ k !! i = Some y /\ z = f x y.
Proof.
  intros (i & Hi)%list_elem_of_lookup. rewrite lookup_zip_with in Hi. destruct (l !! i) as [x|] eqn:Ex; [|done]. destruct (k !! i) as [y|] eqn:Ey; [|done].
  injection Hi as <-. by exists i, x, y.
Qed.

(** The FEC packets with their numbers and rows *)
Definition channel_of (numbers : list Z) (rows : list (list Z)) (fecs : list Packet) : list Parity :=
  zip_with (fun s e => mkParity s (fst e) (snd e)) numbers (zip rows fecs).

Lemma channel_lookup numbers rows fecs i s row f : numbers !! i = Some s -> rows !! i = Some row -> fecs !! i = Some f -> mkParity s row f ∈ channel_of numbers rows fecs.
Proof.
  intros H1 H2 H3. apply (list_elem_of_lookup_2 _ i). unfold channel_of. rewrite lookup_zip_with, H1. cbn. rewrite lookup_zip_with, H2. cbn. by rewrite H3.
Qed.

Lemma channel_elem numbers rows fecs e : e ∈ channel_of numbers rows fecs ->
  exists i, numbers !! i = Some (sf_number e) /\ rows !! i = Some (sf_row e) /\ fecs !! i = Some (sf_packet e).
Proof.
  intros (i & s & [row f] & Hs & Hrf & ->)%elem_zip_with. rewrite lookup_zip_with in Hrf. destruct (rows !! i) eqn:E1; [|done]. cbn in Hrf.
  destruct (fecs !! i) eqn:E2; [|done]. injection Hrf as <- <-. by exists i.
Qed.

Lemma channel_of_numbers numbers rows fecs : length numbers = length fecs -> length rows = length fecs -> map sf_number (channel_of numbers rows fecs) = numbers.
Proof.
  revert rows fecs. induction numbers as [|s numbers IH]; intros rows fecs H1 H2; destruct fecs as [|f fecs], rows as [|row rows]; try done. cbn. f_equal. cbn [length] in *.
  apply IH; lia.
Qed.

Lemma length_channel_of numbers rows fecs : length numbers = length fecs -> length rows = length fecs -> length (channel_of numbers rows fecs) = length fecs.
Proof. intros H1 H2. by rewrite <- (length_map sf_number), channel_of_numbers. Qed.

(** What arrives of a block: media packets, and FEC packets with their numbers *)
Definition arrives_of (ssrc : Z) (media : list Packet) (numbers : list Z) (fecs : list Packet) (r : ReceivedPacket) : Prop :=
  rcv_ssrc r = ssrc /\
  if is_fec r then exists i, numbers !! i = Some (rcv_seq_num r) /\ fecs !! i = Some (rcv_pkt r)
  else rcv_pkt r ∈ media /\ rcv_seq_num r = number (rcv_pkt r).

(** A place of the block that a row covers *)
Lemma covered_key front rest rows lost : block front rest -> all_protected front rest rows -> lost ∈ front :: rest ->
  exists j row, rows !! j = Some row /\ number lost ∈ map number (selected row (block_placed front rest)).
Proof.
  intros Hb Hall Hl. rewrite <- (snd_block_placed front rest) in Hl. change (@map (Z * Packet) Packet) with (@fmap list list_fmap (Z * Packet) Packet) in Hl.
  apply list_elem_of_fmap in Hl as ([k p] & -> & He). unfold all_protected in Hall. rewrite list.Forall_forall in Hall.
  assert (Hk : k ∈ block_places front rest).
  { rewrite <- fst_block_placed. change (@map (Z * Packet) Z) with (@fmap list list_fmap (Z * Packet) Z). by apply (list_elem_of_fmap_2 fst _ (k, p)). }
  pose proof (Hall k Hk) as Hex. apply list.Exists_exists in Hex as (row & Hrow & Hbit). apply list_elem_of_lookup in Hrow as [j Hj]. exists j, row. split; [done|].
  change (@map Packet Z) with (@fmap list list_fmap Packet Z). apply list_elem_of_fmap_2. unfold selected.
  change (@map (Z * Packet) Packet) with (@fmap list list_fmap (Z * Packet) Packet). apply list_elem_of_fmap_2, list_elem_of_filter. done.
Qed.

(** A lost packet comes back to the decoder: the media packets of a block are encoded with any
    protection factor but 0, any number of important packets and any kind of mask. One of
    them is lost; the others and the FEC packets arrive, in any order and any number of
    times, with the number of each FEC packet at most 8191 behind that of the first
    media packet. Then at some point the lost packet is in the list of recovered
    packets, byte for byte. *)
Theorem lost_packet_recovered garbage ssrc front rest pf imp uep t numbers arrivals lost :
  block front rest -> Forall (genuine ssrc) (front :: rest) -> last_place 0 (number front) rest < kMaxMediaPackets -> 0 < pf <= 255 ->
  0 <= imp <= Z.of_nat (length (front :: rest)) ->
  exists fecs, EncodeFec (front :: rest) pf imp uep t = Some (0, fecs) /\
    (length numbers = length fecs -> NoDup numbers -> Forall (fun s => is_u16 s /\ u16 (s - number front) <= 8191) numbers ->
     Forall (arrives_of ssrc (front :: rest) numbers fecs) arrivals -> lost ∈ front :: rest ->
     (forall p, p ∈ front :: rest -> p <> lost -> exists r, r ∈ arrivals /\ is_fec r = false /\ rcv_pkt r = p) ->
     (forall i s, numbers !! i = Some s -> exists r, r ∈ arrivals /\ is_fec r = true /\ rcv_seq_num r = s) ->
     exists n d recovered x, decode_all garbage (CreateUlpfec ssrc) [] (take n arrivals) = Some (d, recovered) /\
       x ∈ recovered /\ rec_seq_num x = number lost /\ rec_pkt x = lost).
Proof.
  intros Hb Hg Hnear Hpf Himp. destruct (block_place_bounds front rest Hb) as (_ & _ & Hn).
  pose proof (EncodeFec_outcome front rest pf imp uep t Hb ltac:(lia) ltac:(lia) Himp) as H.
  pose proof (NumFecPackets_bounds (Z.of_nat (length (front :: rest))) pf ltac:(cbn [length]; lia) ltac:(lia)) as Hnum.
  rewrite (proj2 (Z.eqb_neq pf 0)) in H, Hnum by lia. rewrite (proj2 (Z.leb_gt _ _)) in H by done. destruct H as (rows & fecs & E & Hf & Hall & Hlen).
  exists fecs. split; [done|]. intros Hnl Hnd Hnn Har Hlost Hmedia Hfecs. pose proof (Forall2_length Hf) as Hrl.
  set (channel := channel_of numbers rows fecs).
  assert (Hchan : Forall (fun e => near (number front) (sf_number e)) channel).
  { apply list.Forall_forall. intros e He. destruct (channel_elem _ _ _ _ He) as (i & Hi & _). rewrite list.Forall_lookup in Hnn. destruct (Hnn i _ Hi). split; [done|]. unfold offset. lia. }
  assert (Hfec : Forall (fun e => fec_of front rest (sf_row e) (sf_packet e)) channel).
  { apply list.Forall_forall. intros e He. destruct (channel_elem _ _ _ _ He) as (i & _ & H2 & H3). by apply (Forall2_lookup_lr _ _ _ i _ _ Hf). }
  destruct (loss_recovered garbage ssrc front rest channel Hb Hg Hnear) with (arrivals := arrivals) (lost := lost) as (n & d & recovered & Ed & Hk); try done.
  - unfold channel. by rewrite channel_of_numbers.
  - unfold channel. rewrite length_channel_of by done. unfold kMaxFecPackets, kMaxMediaPackets in *. lia.
  - eapply list.Forall_impl; [exact Har|]. intros r [H1 H2]. split; [done|]. destruct (is_fec r).
    + destruct H2 as (i & Hi & Hi'). destruct (lookup_lt_is_Some_2 rows i) as [row Hrow]; [apply lookup_lt_Some in Hi'; lia|].
      exists (mkParity (rcv_seq_num r) row (rcv_pkt r)). split; [by apply (channel_lookup _ _ _ i)|done].
    + destruct H2 as [H2 ->]. by apply in_stream.
  - destruct (covered_key front rest rows lost Hb Hall Hlost) as (j & row & Hj & Hkey). destruct (lookup_lt_is_Some_2 numbers j) as [s Hs]; [apply lookup_lt_Some in Hj; lia|].
    destruct (lookup_lt_is_Some_2 fecs j) as [f Hfj]; [apply lookup_lt_Some in Hj; lia|]. destruct (Hfecs j s Hs) as (r & Hr & Hrf & Hrs).
    exists r, (mkParity s row f). split_and!; [done|done|by apply (channel_lookup _ _ _ j)|done|exact Hkey].
  - apply known_Some in Hk as (x & Hx & ? & ?). by exists n, d, recovered, x.
Qed.

Lemma elem_of_three {A} (a b c x : A) : x ∈ [a; b; c] -> x = a \/ x = b \/ x = c.
Proof. rewrite !elem_of_cons. intros [?|[?|[?|H]]]; auto. by apply not_elem_of_nil in H. Qed.

(** Number 8 is lost; the FEC packet arrives first. *)
Lemma lost_packet_recovered_witness : exists fec, EncodeFec (example_front :: example_rest) 100 0 false kFecMaskRandom = Some (0, [fec]) /\
  exists n d recovered x,
    decode_all 0 (CreateUlpfec 7) [] (take n [mkReceived 7 11 true fec; mkReceived 7 10 false (example_packet true 10 [5; 6]); mkReceived 7 7 false example_front]) = Some (d, recovered) /\
    x ∈ recovered /\ rec_seq_num x = 8 /\ rec_pkt x = example_packet false 8 [4].
Proof.
  destruct example_block as [Hb Hl]. pose proof example_all_genuine as Hg.
  assert (E8 : number (example_packet false 8 [4]) = 8) by (apply example_number; unfold is_u16; lia).
  assert (E10 : number (example_packet true 10 [5; 6]) = 10) by (apply example_number; unfold is_u16; lia).
  assert (Hone : exists fec, EncodeFec (example_front :: example_rest) 100 0 false kFecMaskRandom = Some (0, [fec])).
  { pose proof (EncodeFec_outcome example_front example_rest 100 0 false kFecMaskRandom Hb ltac:(rewrite example_size; unfold kMaxMediaPackets; lia) ltac:(lia)
      ltac:(rewrite example_size; lia)) as H. rewrite Hl in H. destruct H as (rows & fecs & E & _ & _ & Hlen). rewrite example_size in Hlen. change (NumFecPackets 3 100) with 1 in Hlen.
    destruct fecs as [|fec [|f2 fecs]]; cbn [length] in Hlen; [lia| |lia]. by exists fec. }
  destruct Hone as [fec E]. exists fec. split; [exact E|].
  destruct (lost_packet_recovered 0 7 example_front example_rest 100 0 false kFecMaskRandom [11]
    [mkReceived 7 11 true fec; mkReceived 7 10 false (example_packet true 10 [5; 6]); mkReceived 7 7 false example_front] (example_packet false 8 [4]) Hb Hg
    ltac:(rewrite Hl; unfold kMaxMediaPackets; lia) ltac:(lia) ltac:(rewrite example_size; lia)) as (fecs & E' & H).
  assert (Ef : fecs = [fec]) by (rewrite E in E'; congruence). rewrite Ef in H. destruct H as (n & d & recovered & x & Ed & Hx & En & Ep).
  - reflexivity.
  - apply list.NoDup_singleton.
  - apply list.Forall_cons_2; [|apply list.Forall_nil_2]. rewrite example_front_number. split; [unfold is_u16; lia|]. change (u16 (11 - 7)) with 4. lia.
  - apply list.Forall_cons_2; [split; [reflexivity|]; exists 0%nat; split; reflexivity|].
    apply list.Forall_cons_2; [split; [reflexivity|]; cbn [is_fec rcv_pkt rcv_seq_num]; split; [|by rewrite E10]|].
    { apply list_elem_of_further, list_elem_of_further, list_elem_of_here. }
    apply list.Forall_cons_2; [split; [reflexivity|]; cbn [is_fec rcv_pkt rcv_seq_num]; split; [apply list_elem_of_here|by rewrite example_front_number]|].
    apply list.Forall_nil_2.
  - apply list_elem_of_further, list_elem_of_here.
  - intros p Hp Hne. destruct (elem_of_three _ _ _ _ Hp) as [E1|[E1|E1]]; [|exact (False_ind _ (Hne E1))|]; rewrite E1.
    + exists (mkReceived 7 7 false example_front). split; [apply list_elem_of_further, list_elem_of_further, list_elem_of_here|]. split; reflexivity.
    + exists (mkReceived 7 10 false (example_packet true 10 [5; 6])). split; [apply list_elem_of_further, list_elem_of_here|]. split; reflexivity.
  - intros i s Hi. exists (mkReceived 7 11 true fec). split; [apply list_elem_of_here|]. split; [reflexivity|]. destruct i as [|i]; [by injection Hi|done].
  - exists n, d, recovered, x. rewrite E8 in En. repeat split; assumption.
Defined.
