(* ===== verification/FecErrors.v ===== *)
(** * Forward error correction: packets that are too long

    Media packets may have up to 1500 bytes. The encoder only warns of packets that
    do not fit with its header, and writes behind the array; the decoder takes the length of a
    packet for that of its payload, and reads and writes behind the arrays. *)

From S2P Require Import Prelude ByteIo Rtcp TransportFeedback FecPacket FecParity FecMasks FecTables FecChoice FecEncode FecRecover FecDecode FecSound FecBlock.

Open Scope Z_scope.
Open Scope c_scope.

(** ** Accesses behind an array *)

Lemma xor_range_None n src dst s d : 0 <= s <= zlen src -> zlen src < s + Z.of_nat n -> xor_range n src dst s d = None.
Proof.
  revert dst s d. induction n as [|n IH]; intros dst s d Hs Hn; cbn [xor_range]; [lia|].
  destruct (zget src s) as [v|] eqn:E; [|done]. apply zget_range in E. cbn [mbind option_bind]. destruct (xor_at dst d v); [|done]. cbn [mbind option_bind].
  apply IH; lia.
Qed.

(** ** The decoder *)

(** A packet that was received, longer than its array is behind the header *)
Definition too_long (q : ProtectedPacket) : Prop := exists p, pp_pkt q = Some p /\ zlen (fp_data p) = IP_PACKET_SIZE /\ IP_PACKET_SIZE - kRtpHeaderSize < fp_length p.

Lemma xor_present_too_long l seq st : Exists too_long l -> xor_present l seq st = None.
Proof.
  intros Hl. revert seq st. induction Hl as [q l (p & Ep & Hz & Hlen)|q l Hl IH]; intros seq st; cbn [xor_present].
  - rewrite Ep. unfold IP_PACKET_SIZE, kRtpHeaderSize in *. destruct (XorHeaders p st) as [st'|]; [|done]. cbn [mbind option_bind]. unfold XorPayloads.
    rewrite xor_range_None; [done| |]; unfold kRtpHeaderSize; lia.
  - destruct (pp_pkt q) as [p|]; [|apply IH]. destruct (XorHeaders p st); [|done]. cbn [mbind option_bind]. destruct (XorPayloads _ _ _ _); [|done]. cbn [mbind option_bind]. apply IH.
Qed.

(** A FEC packet that starts the recovery *)
Record startable (f : ReceivedFecPacket) : Prop := {
  st_data : zlen (fp_data (rf_pkt f)) = IP_PACKET_SIZE;
  st_header : 0 <= fec_header_size f <= fp_length (rf_pkt f);
  st_protection : 0 <= protection_length f <= Z.min (IP_PACKET_SIZE - kRtpHeaderSize) (IP_PACKET_SIZE - fec_header_size f);
}.

Lemma zlen_new_Packet : zlen (fp_data new_Packet) = IP_PACKET_SIZE.
Proof. cbn [new_Packet fp_data]. by rewrite zlen_replicate. Qed.

Lemma StartPacketRecovery_starts f : startable f -> exists st, StartPacketRecovery f = Some (Some st).
Proof.
  intros [H1 H2 H3]. pose proof zlen_new_Packet as Hnew. unfold StartPacketRecovery, IP_PACKET_SIZE, kRtpHeaderSize in *. rewrite (proj2 (Z.ltb_ge (fp_length _) _)) by lia.
  destruct (copy_get0 (fp_data (rf_pkt f)) 0 12 (fp_data new_Packet) 0) as (b1 & d1 & -> & E1 & Hd1 & _); [lia..|]. cbn [mbind option_bind]. rewrite E1. cbn [mbind option_bind].
  rewrite (proj2 (Z.ltb_ge _ (protection_length f))) by lia.
  destruct (copy_get0 (fp_data (rf_pkt f)) (fec_header_size f) (protection_length f) d1 12) as (b2 & d2 & -> & E2 & _); [lia..|]. cbn [mbind option_bind]. rewrite E2.
  cbn [mbind option_bind]. by eexists.
Qed.

(** C33. A FEC packet that misses one packet and protects another one that was received with
    more than 1488 bytes makes the recovery read and write behind the arrays: XorPayloads is
    given the length of that packet, and not of its payload. So [AttemptRecovery]
    faults when it comes to this FEC packet. *)
Theorem long_packet_overruns garbage f d recovered rest :
  startable f -> NumCoveredPacketsMissing (protected_packets f) 0 = 1 ->
  Exists (fun q => exists p, pp_pkt q = Some p /\ zlen (fp_data p) = 1500 /\ 1488 < fp_length p) (protected_packets f) ->
  received_fec_packets_ d = f :: rest ->
  RecoverPacket garbage f = None /\ AttemptRecovery garbage d recovered = None.
Proof.
  intros Hs Hm Hl Hd. destruct (StartPacketRecovery_starts f Hs) as [st E].
  assert (Hr : RecoverPacket garbage f = None) by (unfold RecoverPacket; rewrite E; cbn [mbind option_bind]; by rewrite (xor_present_too_long _ _ _ Hl)).
  split; [done|]. unfold AttemptRecovery. rewrite Hd. cbn [length Nat.mul Nat.add attempt]. by rewrite Hm, Z.eqb_refl, Hr.
Qed.

(** A media packet with 1489 bytes, and a FEC packet over it and the next one *)
Definition long_packet : Packet := mkFp 1489 (replicate (Z.to_nat 1500) 0).
Definition long_fec : ReceivedFecPacket :=
  mkReceivedFec 7 9 [mkProtected 7 (Some long_packet); mkProtected 8 None] 14 7 7 12 2 1477 (mkFp 1491 (replicate (Z.to_nat 1500) 0)).

Lemma long_packet_overruns_witness : AttemptRecovery 0 (mkFec 7 7 [long_fec]) [] = None.
Proof.
  apply (long_packet_overruns 0 long_fec (mkFec 7 7 [long_fec]) [] []).
  - split; cbn [long_fec rf_pkt fp_data fp_length fec_header_size protection_length]; [by rewrite zlen_replicate|lia|unfold IP_PACKET_SIZE, kRtpHeaderSize; lia].
  - reflexivity.
  - apply Exists_cons_hd. exists long_packet. split; [reflexivity|]. split; [unfold long_packet; cbn [fp_data]; by rewrite zlen_replicate|cbn [long_packet fp_length]; lia].
  - reflexivity.
Defined.

(** ** The encoder *)

(** The first packet of a FEC packet, longer than fits behind the header of the FEC packet *)
Lemma protect_overrun hs p f : 12 <= hs -> zlen (fp_data p) = IP_PACKET_SIZE -> zlen (fp_data f) = IP_PACKET_SIZE -> fp_length f = 0 ->
  IP_PACKET_SIZE - hs < payload_len p -> protect hs p f = None.
Proof.
  intros Hhs Hp Hf Hl Hlen. unfold payload_len, kRtpHeaderSize, IP_PACKET_SIZE in *. unfold protect, kRtpHeaderSize. cbv zeta. rewrite Hl. cbn [Z.eqb].
  assert (Ed : fp_data (if 0 <? hs + (fp_length p - 12) then f <| fp_length := hs + (fp_length p - 12) |> else f) = fp_data f) by by destruct (_ <? _).
  rewrite Ed. clear Ed.
  destruct (copy_get0 (fp_data p) 0 2 (fp_data f) 0) as (b1 & d1 & -> & E1 & Hd1 & _); [lia..|]. cbn [mbind option_bind]. rewrite E1. cbn [mbind option_bind].
  destruct (WriteBigEndian_get0 2 d1 2 (u16 (fp_length p - 12))) as (d2 & -> & Hd2 & _); [lia..|]. cbn [mbind option_bind].
  destruct (copy_get0 (fp_data p) 4 4 d2 4) as (b3 & d3 & -> & E3 & Hd3 & _); [lia..|]. cbn [mbind option_bind]. rewrite E3. cbn [mbind option_bind].
  destruct (read_bytes (fp_data p) 12 (fp_length p - 12)) as [bs|] eqn:Eb; [|done]. cbn [mbind option_bind]. apply read_bytes_spec in Eb as (_ & Hbs & _).
  unfold write_bytes. rewrite (proj2 (Z.leb_gt _ (zlen d3))) by lia. by rewrite andb_false_r.
Qed.
