(* ===== verification/RedPacket.v ===== *)
(** * RED packets

    [RedPacket] of ulpfec_generator.cc, which holds a FEC packet behind an RTP header and the
    one byte header of RED. [None] is an access outside an array. *)

From S2P Require Import Prelude ByteIo Rtcp FecPacket FecParity.

Open Scope Z_scope.
Open Scope c_scope.

(** ** Definitions *)

Definition kRedForFecHeaderLength : Z := 1.

Record RedPacket := mkRed { red_data : list Z; red_length : Z; header_length_ : Z }.

#[export] Instance eta_RedPacket : Eta RedPacket := fun r => mkRed (red_data r) (red_length r) (header_length_ r).

(** The array is not initialised: its bytes are [garbage]. *)
Definition new_RedPacket (garbage length : Z) : RedPacket := mkRed (replicate (Z.to_nat length) garbage) length 0.

(** [memcpy] of [n] bytes *)
Definition copy_bytes (src : list Z) (s n : Z) (dst : list Z) (d : Z) : option (list Z) := bs ← read_bytes src s n; write_bytes dst d bs.

(** The type of a packet replaced; the marker stays. *)
Definition replace_type (d : list Z) (payload_type : Z) : option (list Z) :=
  d ← change_at d 1 (fun b => Z.land b 0x80); change_at d 1 (fun b => u8 (b + payload_type)).

Definition CreateHeader (r : RedPacket) (rtp_header : list Z) (header_length red_payload_type payload_type : Z) : option RedPacket :=
  d ← copy_bytes rtp_header 0 header_length (red_data r) 0;
  d ← replace_type d red_payload_type;
  d ← zput d header_length (u8 payload_type);
  Some (r <| red_data := d |> <| header_length_ := header_length + kRedForFecHeaderLength |>).

Definition SetSeqNum (r : RedPacket) (seq_num : Z) : option RedPacket :=
  d ← WriteBigEndian 2 (red_data r) 2 seq_num; Some (r <| red_data := d |>).

Definition AssignPayload (r : RedPacket) (payload : list Z) (length : Z) : option RedPacket :=
  d ← copy_bytes payload 0 length (red_data r) (header_length_ r); Some (r <| red_data := d |>).

Definition ClearMarkerBit (r : RedPacket) : option RedPacket := d ← change_at (red_data r) 1 (fun b => Z.land b 0x7f); Some (r <| red_data := d |>).

(** ** Bytes *)

Lemma copy_bytes_get0 src s n d off : 0 <= s -> 0 <= n -> s + n <= zlen src -> 0 <= off -> off + n <= zlen d ->
  exists d', copy_bytes src s n d off = Some d' /\ zlen d' = zlen d /\
    forall j, get0 d' j = if (off <=? j) && (j <? off + n) then get0 src (s + (j - off)) else get0 d j.
Proof.
  intros H1 H2 H3 H4 H5. destruct (copy_get0 src s n d off H1 H2 H3 H4 H5) as (bs & d' & E1 & E2 & Hl & Hg). exists d'. unfold copy_bytes. rewrite E1. done.
Qed.

Lemma replace_type_get0 d payload_type : 2 <= zlen d -> exists d', replace_type d payload_type = Some d' /\ zlen d' = zlen d /\
  forall j, get0 d' j = if j =? 1 then u8 (Z.land (get0 d 1) 0x80 + payload_type) else get0 d j.
Proof.
  intros Hd. unfold replace_type. destruct (change_at_Some d 1 (fun b => Z.land b 0x80)) as (d1 & -> & Hl1 & Hg1); [lia|]. cbn [mbind option_bind].
  destruct (change_at_Some d1 1 (fun b => u8 (b + payload_type))) as (d2 & -> & Hl2 & Hg2); [lia|]. exists d2. split_and!; [done|lia|].
  intros j. rewrite Hg2. destruct (Z.eqb_spec j 1) as [->|Hj]; rewrite Hg1; [done|]. by rewrite (proj2 (Z.eqb_neq j 1)) by done.
Qed.

Lemma zput_get0 d i v : 0 <= i < zlen d -> exists d', zput d i v = Some d' /\ zlen d' = zlen d /\ forall j, get0 d' j = if j =? i then v else get0 d j.
Proof.
  intros Hi. destruct (zput_Some d i v Hi) as (d' & E & Hl). exists d'. split_and!; [done..|]. intros j. unfold get0. rewrite (zget_zput _ _ _ _ j E).
  by destruct (_ =? _).
Qed.

(** The byte [j] of a packet whose first byte of the type is replaced: the marker stays. *)
Definition typed_byte (header : list Z) (payload_type j : Z) : Z := if j =? 1 then u8 (Z.land (get0 header 1) 0x80 + payload_type) else get0 header j.

Lemma CreateHeader_get0 r header hl red_pt pt : zlen (red_data r) = red_length r -> 2 <= hl -> hl <= zlen header -> hl + 1 <= red_length r ->
  exists d, CreateHeader r header hl red_pt pt = Some (mkRed d (red_length r) (hl + 1)) /\ zlen d = red_length r /\
    (forall j, 0 <= j < hl -> get0 d j = typed_byte header red_pt j) /\ get0 d hl = u8 pt.
Proof.
  intros Hr H2 Hh Hl. unfold CreateHeader, kRedForFecHeaderLength.
  destruct (copy_bytes_get0 header 0 hl (red_data r) 0) as (d1 & -> & Hl1 & Hg1); [lia..|]. cbn [mbind option_bind].
  destruct (replace_type_get0 d1 red_pt) as (d2 & -> & Hl2 & Hg2); [lia|]. cbn [mbind option_bind].
  destruct (zput_get0 d2 hl (u8 pt)) as (d3 & -> & Hl3 & Hg3); [lia|]. cbn [mbind option_bind]. exists d3. split_and!; [by destruct r|lia| |].
  - intros j Hj. unfold typed_byte. rewrite Hg3, Hg2, !Hg1. rewrite (proj2 (Z.eqb_neq j hl)), !Z.sub_0_r by lia.
    rewrite (proj2 (Z.leb_le 0 j)), (proj2 (Z.ltb_lt j (0 + hl))), (proj2 (Z.ltb_lt 1 (0 + hl))) by lia. done.
  - by rewrite Hg3, Z.eqb_refl.
Qed.

(** A FEC packet behind a header with the number [seq_num] *)
Record red_fec (header : list Z) (hl red_pt pt seq_num : Z) (payload : list Z) (n : Z) (d : list Z) : Prop := {
  rf_size : zlen d = hl + 1 + n;
  rf_header : forall j, 0 <= j < hl -> get0 d j =
    if j =? 1 then Z.land (typed_byte header red_pt 1) 0x7f else if (2 <=? j) && (j <? 4) then get0 (be_bytes 2 seq_num) (j - 2) else get0 header j;
  rf_type : get0 d hl = u8 pt;
  rf_payload : forall j, 0 <= j < n -> get0 d (hl + 1 + j) = get0 payload j;
}.
