(* ===== verification/FecGenerator.v ===== *)
(** * Forward error correction: generator

    [UlpfecGenerator] of ulpfec_generator.cc gathers the media packets of a few frames,
    has them encoded and wraps the FEC packets in RED packets. [None] is an access outside
    an array, a division by zero, or a media packet that comes while a code waits, which the
    class excludes. The encoder has no state of its own, so that the member [fec_] is left
    out. *)

From S2P Require Import Prelude ByteIo Rtcp FecPacket FecParity FecMasks FecTables FecChoice FecEncode RedPacket.

Open Scope Z_scope.
Open Scope c_scope.

(** ** The generator *)

Record FecProtectionParams := mkParams { fec_rate : Z; max_fec_frames : Z; fec_mask_type : FecMaskType }.

Record UlpfecGenerator := mkGenerator {
  media_packets_ : list Packet;
  last_media_packet_rtp_header_length_ : Z;
  generated_fec_packets_ : list Packet;
  num_protected_frames_ : Z;
  min_num_media_packets_ : Z;
  params_ : FecProtectionParams;
  new_params_ : FecProtectionParams;
}.

#[export] Instance eta_Generator : Eta UlpfecGenerator := fun g =>
  mkGenerator (media_packets_ g) (last_media_packet_rtp_header_length_ g) (generated_fec_packets_ g) (num_protected_frames_ g) (min_num_media_packets_ g) (params_ g) (new_params_ g).

Definition no_params : FecProtectionParams := mkParams 0 0 kFecMaskRandom.

Definition new_UlpfecGenerator : UlpfecGenerator := mkGenerator [] 0 [] 0 1 no_params no_params.

Definition kMaxExcessOverhead : Z := 50.
Definition kMinMediaPackets : Z := 4.
Definition kHighProtectionThreshold : Z := 80.
Definition kUlpfecMaxMediaPackets : Z := kMaxMediaPackets.
Definition kRtpMarkerBitMask : Z := 0x80.

Definition SetFecParameters (g : UlpfecGenerator) (params : FecProtectionParams) : UlpfecGenerator :=
  g <| new_params_ := params |> <| min_num_media_packets_ := if kHighProtectionThreshold <? fec_rate params then kMinMediaPackets else 1 |>.

(** The quotient is a [size_t]. *)
Definition Overhead (g : UlpfecGenerator) : option Z :=
  let size := Z.of_nat (length (media_packets_ g)) in
  if size =? 0 then None else Some (Z.shiftl (NumFecPackets size (fec_rate (params_ g))) 8 / size).

Definition ExcessOverheadBelowMax (g : UlpfecGenerator) : option bool := overhead ← Overhead g; Some (overhead - fec_rate (params_ g) <? kMaxExcessOverhead).

(** The average of [float]s is below 2.0 just when the number of packets is less than twice
    that of frames: there are at most 48 packets, so that a quotient below 2 is at most
    2 - 1/25 and not rounded to 2. *)
Definition MinimumMediaPacketsReached (g : UlpfecGenerator) : bool :=
  let num_media_packets := Z.of_nat (length (media_packets_ g)) in
  if num_media_packets <? 2 * num_protected_frames_ g then min_num_media_packets_ g <=? num_media_packets
  else min_num_media_packets_ g + 1 <=? num_media_packets.

Definition UlpfecGenerator_ResetState (g : UlpfecGenerator) : UlpfecGenerator :=
  g <| media_packets_ := [] |> <| last_media_packet_rtp_header_length_ := 0 |> <| generated_fec_packets_ := [] |> <| num_protected_frames_ := 0 |>.

Definition FecAvailable (g : UlpfecGenerator) : bool := negb (Z.of_nat (length (generated_fec_packets_ g)) =? 0).

Definition NumAvailableFecPackets (g : UlpfecGenerator) : Z := Z.of_nat (length (generated_fec_packets_ g)).

(** The copy of a packet into an array of the generator *)
Definition media_copy (data_buffer : list Z) (length : Z) : option Packet :=
  d ← copy_bytes data_buffer 0 length (fp_data new_Packet) 0; Some (mkFp length d).

(** The last part of a call: the code is made if the last frame is complete. *)
Definition maybe_encode (g : UlpfecGenerator) (complete_frame : bool) : option (Z * UlpfecGenerator) :=
  enough ← (if negb complete_frame then Some false
            else if num_protected_frames_ g =? max_fec_frames (params_ g) then Some true
            else below ← ExcessOverheadBelowMax g; Some (below && MinimumMediaPacketsReached g));
  if enough : bool then
    encoded ← EncodeFec (media_packets_ g) (u8 (fec_rate (params_ g))) 0 false (fec_mask_type (params_ g));
    let '(ret, fec_packets) := (encoded : Z * list Packet) in
    let g := g <| generated_fec_packets_ := fec_packets |> in
    Some (ret, match fec_packets with [] => UlpfecGenerator_ResetState g | _ => g end)
  else Some (0, g).

Definition AddRtpPacketAndGenerateFec (g : UlpfecGenerator) (data_buffer : list Z) (payload_length rtp_header_length : Z) : option (Z * UlpfecGenerator) :=
  match generated_fec_packets_ g with
  | _ :: _ => None
  | [] =>
      let g := match media_packets_ g with [] => g <| params_ := new_params_ g |> | _ => g end in
      b1 ← zget data_buffer 1;
      let marker_bit := negb (Z.land b1 kRtpMarkerBitMask =? 0) in
      g ← (if Z.of_nat (length (media_packets_ g)) <? kUlpfecMaxMediaPackets then
             packet ← media_copy data_buffer (u64 (payload_length + rtp_header_length));
             Some (g <| media_packets_ := media_packets_ g ++ [packet] |> <| last_media_packet_rtp_header_length_ := rtp_header_length |>)
           else Some g);
      let g := if marker_bit then g <| num_protected_frames_ := num_protected_frames_ g + 1 |> else g in
      maybe_encode g marker_bit
  end.

(** One FEC packet behind the header of the last media packet *)
Definition wrap_fec (garbage : Z) (last_media_packet : Packet) (header_length red_payload_type ulpfec_payload_type seq_num : Z) (fec_packet : Packet) : option RedPacket :=
  r ← CreateHeader (new_RedPacket garbage (header_length + kRedForFecHeaderLength + fp_length fec_packet)) (fp_data last_media_packet) header_length red_payload_type ulpfec_payload_type;
  r ← SetSeqNum r seq_num;
  r ← ClearMarkerBit r;
  AssignPayload r (fp_data fec_packet) (fp_length fec_packet).

(** The loop over the generated packets; the numbers are [uint16_t]. *)
Fixpoint wrap_all (garbage : Z) (last_media_packet : Packet) (header_length red_payload_type ulpfec_payload_type seq_num : Z) (fec_packets : list Packet) : option (list RedPacket) :=
  match fec_packets with
  | [] => Some []
  | fec_packet :: fec_packets =>
      r ← wrap_fec garbage last_media_packet header_length red_payload_type ulpfec_payload_type seq_num fec_packet;
      rs ← wrap_all garbage last_media_packet header_length red_payload_type ulpfec_payload_type (u16 (seq_num + 1)) fec_packets;
      Some (r :: rs)
  end.

Definition GetUlpfecPacketsAsRed (garbage : Z) (g : UlpfecGenerator) (red_payload_type ulpfec_payload_type first_seq_num : Z) : option (list RedPacket * UlpfecGenerator) :=
  last_media_packet ← list.last (media_packets_ g);
  red_packets ← wrap_all garbage last_media_packet (last_media_packet_rtp_header_length_ g) red_payload_type ulpfec_payload_type first_seq_num (generated_fec_packets_ g);
  Some (red_packets, UlpfecGenerator_ResetState g).

(** ** RED packets *)

Lemma wrap_fec_bytes garbage last hl red_pt pt seq_num f : 12 <= hl -> hl <= zlen (fp_data last) -> is_u16 seq_num -> 0 <= fp_length f <= zlen (fp_data f) ->
  exists r, wrap_fec garbage last hl red_pt pt seq_num f = Some r /\ red_fec (fp_data last) hl red_pt pt seq_num (fp_data f) (fp_length f) (red_data r) /\
    red_length r = hl + 1 + fp_length f.
Proof.
  intros Hhl Hlast Hseq Hf. unfold wrap_fec, kRedForFecHeaderLength. set (n := fp_length f) in *.
  destruct (CreateHeader_get0 (new_RedPacket garbage (hl + 1 + n)) (fp_data last) hl red_pt pt) as (d1 & -> & Hl1 & Hg1 & Ht1);
    cbn [new_RedPacket red_data red_length] in *; [rewrite zlen_replicate; lia|lia..|]. cbn [mbind option_bind]. unfold SetSeqNum.
  cbn [red_data].
  destruct (WriteBigEndian_get0 2 d1 2 seq_num) as (d2 & -> & Hl2 & Hg2); [lia..|]. cbn [mbind option_bind]. unfold ClearMarkerBit. cbn [red_data set].
  destruct (change_at_Some d2 1 (fun b => Z.land b 0x7f)) as (d3 & E3 & Hl3 & Hg3); [lia|].
  match goal with |- context [change_at ?d 1 _] => change d with d2 end. rewrite E3. cbn [mbind option_bind]. unfold AssignPayload.
  destruct (copy_bytes_get0 (fp_data f) 0 n d3 (hl + 1)) as (d4 & E4 & Hl4 & Hg4); [lia..|].
  match goal with |- context [copy_bytes _ _ _ (red_data ?r) (header_length_ ?r)] => change (header_length_ r) with (hl + 1); change (red_data r) with d3 end.
  rewrite E4. cbn [mbind option_bind]. eexists. split; [reflexivity|]. split; [|reflexivity].
  match goal with |- red_fec _ _ _ _ _ _ _ ?d => change d with d4 end. split.
  - lia.
  - intros j Hj. rewrite Hg4. rewrite (proj2 (Z.leb_gt (hl + 1) j)) by lia. cbn [andb]. rewrite Hg3, !Hg2. change (Z.of_nat 2) with 2.
    destruct (Z.eqb_spec j 1) as [->|Hj1]; [by rewrite Hg1 by lia|]. destruct (Z.leb_spec 2 j), (Z.ltb_spec j (2 + 2)); cbn [andb]; try lia.
    + by rewrite (proj2 (Z.ltb_lt j 4)) by lia.
    + rewrite Hg1 by lia. rewrite (proj2 (Z.ltb_ge j 4)) by lia. unfold typed_byte. by rewrite (proj2 (Z.eqb_neq j 1)) by lia.
    + rewrite Hg1 by lia. unfold typed_byte. by rewrite (proj2 (Z.eqb_neq j 1)) by lia.
  - rewrite Hg4. rewrite (proj2 (Z.leb_gt (hl + 1) hl)) by lia. cbn [andb]. rewrite Hg3, (proj2 (Z.eqb_neq hl 1)), Hg2 by lia.
    change (Z.of_nat 2) with 2. rewrite (proj2 (Z.ltb_ge hl (2 + 2))), andb_false_r by lia. done.
  - intros j Hj. rewrite Hg4. rewrite (proj2 (Z.leb_le (hl + 1) _)), (proj2 (Z.ltb_lt _ (hl + 1 + n))) by lia. cbn [andb]. f_equal. lia.
Qed.

(** The packets have consecutive numbers. *)
Lemma wrap_all_bytes garbage last hl red_pt pt seq_num fecs : 12 <= hl -> hl <= zlen (fp_data last) -> is_u16 seq_num ->
  Forall (fun f => 0 <= fp_length f <= zlen (fp_data f)) fecs ->
  exists reds, wrap_all garbage last hl red_pt pt seq_num fecs = Some reds /\ length reds = length fecs /\
    forall i f r, fecs !! i = Some f -> reds !! i = Some r ->
      red_fec (fp_data last) hl red_pt pt (u16 (seq_num + Z.of_nat i)) (fp_data f) (fp_length f) (red_data r) /\ red_length r = hl + 1 + fp_length f.
Proof.
  intros Hhl Hlast Hseq Hfs. revert seq_num Hseq. induction Hfs as [|f fecs Hf Hfs IH]; intros seq_num Hseq; cbn [wrap_all]; [by exists []|].
  destruct (wrap_fec_bytes garbage last hl red_pt pt seq_num f Hhl Hlast Hseq Hf) as (r & -> & Hr & Hrl). cbn [mbind option_bind].
  destruct (IH (u16 (seq_num + 1)) (u16_range _)) as (reds & -> & Hlen & Hreds). cbn [mbind option_bind]. exists (r :: reds). split; [done|]. split; [cbn [length]; by rewrite Hlen|].
  intros [|i] f' r' Hf' Hr'.
  - injection Hf' as <-. injection Hr' as <-. rewrite Z.add_0_r. assert (E : u16 seq_num = seq_num) by (unfold u16; apply Z.mod_small; exact Hseq). by rewrite E.
  - specialize (Hreds i f' r' Hf' Hr'). replace (u16 (seq_num + Z.of_nat (S i))) with (u16 (u16 (seq_num + 1) + Z.of_nat i)); [done|].
    unfold u16. rewrite Zplus_mod_idemp_l. f_equal. lia.
Qed.

(** ** Media packets *)

(** The bytes of a packet, without the rest of its array *)
Definition packet_bytes (p : Packet) : list Z := take (Z.to_nat (fp_length p)) (fp_data p).

Lemma zlen_packet_bytes p : media_ok p -> zlen (packet_bytes p) = fp_length p.
Proof.
  intros [[Hz _] Hl _]. unfold packet_bytes, zlen, IP_PACKET_SIZE, kRtpHeaderSize in *. rewrite length_take. lia.
Qed.

Lemma get0_packet_bytes p j : media_ok p -> get0 (packet_bytes p) j = get0 (fp_data p) j.
Proof.
  intros Hp. pose proof (zlen_packet_bytes p Hp) as Hz. destruct Hp as [Hb Hl H0]. unfold kRtpHeaderSize in Hl.
  destruct (decide (j < fp_length p)) as [Hj|Hj].
  - unfold get0, packet_bytes. rewrite zget_take; [done|lia].
  - rewrite H0 by lia. unfold get0. destruct (zget (packet_bytes p) j) eqn:E; [|done]. apply zget_range in E. lia.
Qed.

(** The copy in the generator is the packet with nothing behind its end. *)
Lemma media_copy_exact p : media_ok p -> media_copy (packet_bytes p) (fp_length p) = Some p.
Proof.
  intros Hp. pose proof (zlen_packet_bytes p Hp) as Hz. pose proof Hp as [[Hb _] Hl H0]. unfold kRtpHeaderSize, IP_PACKET_SIZE in *.
  assert (Hnew : zlen (fp_data new_Packet) = 1500) by (cbn [new_Packet fp_data]; rewrite zlen_replicate; done). unfold media_copy.
  destruct (copy_bytes_get0 (packet_bytes p) 0 (fp_length p) (fp_data new_Packet) 0) as (d & -> & Hd & Hg); [lia..|]. cbn [mbind option_bind].
  destruct p as [n data]. cbn [fp_length fp_data] in *. do 2 f_equal. apply get0_ext; [lia|]. intros j Hj. rewrite Hg.
  destruct (Z.leb_spec 0 j); [|lia]. destruct (Z.ltb_spec j (0 + n)); cbn [andb].
  - rewrite get0_packet_bytes by done. cbn [fp_data]. f_equal. lia.
  - rewrite H0 by lia. unfold get0. cbn [new_Packet fp_data]. unfold zget. rewrite (proj2 (Z.ltb_ge j 0)) by lia.
    rewrite lookup_replicate_2 by (unfold IP_PACKET_SIZE; lia). done.
Qed.

(** ** The state of a generator *)

Definition block_list (media : list Packet) : Prop := match media with [] => True | front :: rest => block front rest end.

Definition rate_ok (p : FecProtectionParams) : Prop := 0 <= fec_rate p <= 255.

Record gen_core (g : UlpfecGenerator) : Prop := {
  gc_size : Z.of_nat (length (media_packets_ g)) <= kMaxMediaPackets;
  gc_block : block_list (media_packets_ g);
  gc_params : rate_ok (params_ g) /\ rate_ok (new_params_ g);
  gc_empty : media_packets_ g = [] -> generated_fec_packets_ g = [] /\ num_protected_frames_ g = 0;
  gc_header : forall p, list.last (media_packets_ g) = Some p -> kRtpHeaderSize <= last_media_packet_rtp_header_length_ g <= fp_length p;
  gc_frames : 0 <= num_protected_frames_ g;
}.

(** What holds between the calls. A code that waits to be fetched is that of the media
    packets; otherwise fewer frames are complete than a code is made over. *)
Record gen_ok (g : UlpfecGenerator) : Prop := {
  go_core : gen_core g;
  go_code : generated_fec_packets_ g = [] \/ EncodeFec (media_packets_ g) (fec_rate (params_ g)) 0 false (fec_mask_type (params_ g)) = Some (0, generated_fec_packets_ g);
  go_frames : generated_fec_packets_ g = [] -> 1 <= max_fec_frames (params_ g) -> num_protected_frames_ g < max_fec_frames (params_ g);
}.

Lemma reset_gen_ok g : gen_core g -> gen_ok (UlpfecGenerator_ResetState g).
Proof. intros [_ _ H3 _ _ _]. split; [split|..]; cbn; unfold kMaxMediaPackets; auto; try lia. intros p Hp. discriminate Hp. Qed.

Lemma new_gen_ok : gen_ok new_UlpfecGenerator.
Proof.
  split; [split|..]; cbn; unfold rate_ok, kMaxMediaPackets; cbn; auto; try lia. intros p Hp. discriminate Hp.
Qed.

Lemma SetFecParameters_ok g params : gen_ok g -> rate_ok params -> gen_ok (SetFecParameters g params).
Proof. intros [[H1 H2 [H3 H3'] H4 H5 H6] H7 H8] Hp. split; [by split|done|done]. Qed.

(** A code is made over the media packets, or there is none. *)
Lemma encode_media g : gen_core g -> media_packets_ g <> [] -> let p := params_ g in
  exists ret fecs, EncodeFec (media_packets_ g) (u8 (fec_rate p)) 0 false (fec_mask_type p) = Some (ret, fecs) /\
    (fecs = [] \/ EncodeFec (media_packets_ g) (fec_rate p) 0 false (fec_mask_type p) = Some (0, fecs)).
Proof.
  intros [H1 H2 [H3 _] _ _ _] Hne. cbv zeta. unfold rate_ok in H3. assert (E : u8 (fec_rate (params_ g)) = fec_rate (params_ g)) by (unfold u8; apply Z.mod_small; lia). rewrite E.
  destruct (media_packets_ g) as [|front rest]; [done|]. pose proof (EncodeFec_outcome front rest (fec_rate (params_ g)) 0 false (fec_mask_type (params_ g)) H2 H1 H3 ltac:(cbn [length]; lia)) as H.
  destruct (_ =? 0); [exists 0, []; split; [done|by left]|]. destruct (_ <=? _); [exists (-1), []; split; [done|by left]|].
  destruct H as (rows & fecs & E' & _). exists 0, fecs. split; [done|by right].
Qed.

(** When the last frame that a code is made over is complete, the wait ends: the code is
    there, or the packets are given up. *)
Lemma maybe_encode_ok g complete : gen_core g -> media_packets_ g <> [] -> generated_fec_packets_ g = [] ->
  (1 <= max_fec_frames (params_ g) -> num_protected_frames_ g < max_fec_frames (params_ g) \/ complete = true /\ num_protected_frames_ g = max_fec_frames (params_ g)) ->
  exists ret g', maybe_encode g complete = Some (ret, g') /\ gen_ok g' /\
    (g' = UlpfecGenerator_ResetState g \/ g' = g <| generated_fec_packets_ := generated_fec_packets_ g' |>).
Proof.
  intros Hc Hne Hgen Hfr. unfold maybe_encode.
  assert (Henough : exists enough : bool, (if negb complete then Some false
            else if num_protected_frames_ g =? max_fec_frames (params_ g) then Some true
            else below ← ExcessOverheadBelowMax g; Some (below && MinimumMediaPacketsReached g)) = Some enough /\
            (enough = false -> 1 <= max_fec_frames (params_ g) -> num_protected_frames_ g < max_fec_frames (params_ g))).
  { destruct complete; cbn [negb]; [|eexists; split; [done|]; intros _ H1; destruct (Hfr H1) as [|[? _]]; done].
    destruct (Z.eqb_spec (num_protected_frames_ g) (max_fec_frames (params_ g))) as [E|E]; [by eexists|].
    unfold ExcessOverheadBelowMax, Overhead. rewrite (proj2 (Z.eqb_neq (Z.of_nat (length (media_packets_ g))) 0)) by (destruct (media_packets_ g); [done|cbn [length]; lia]).
    cbn [mbind option_bind]. eexists. split; [done|]. intros _ H1. destruct (Hfr H1) as [|[_ ?]]; [done|lia]. }
  destruct Henough as (enough & -> & Hwait). cbn [mbind option_bind]. destruct enough.
  - destruct (encode_media g Hc Hne) as (ret & fecs & -> & Hcode). cbn [mbind option_bind]. destruct fecs as [|f fecs].
    + exists ret. eexists. split; [reflexivity|]. split; [|left; by destruct g]. apply (reset_gen_ok (g <| generated_fec_packets_ := [] |>)).
      destruct Hc as [H1 H2 H3 H4 H5 H6]. by split.
    + exists ret. eexists. split; [reflexivity|]. split; [|right; by destruct g]. destruct Hcode as [Hcode|Hcode]; [done|].
      destruct Hc as [H1 H2 H3 H4 H5 H6]. split; [split; try done|by right|done]. 
  - exists 0, g. split; [done|]. split; [|right; by destruct g]. split; [done|by left|]. intros _. by apply Hwait.
Qed.

Lemma block_list_head front rest : block_list (front :: rest) -> media_ok front.
Proof. by intros [H _ _ _]. Qed.

Lemma block_list_media media : block_list media -> Forall media_ok media.
Proof. destruct media as [|front rest]; [constructor|]. apply block_media. Qed.

(** The media packets after a call that takes [p] *)
Definition taken (g : UlpfecGenerator) (p : Packet) : list Packet :=
  if Z.of_nat (length (media_packets_ g)) <? kUlpfecMaxMediaPackets then media_packets_ g ++ [p] else media_packets_ g.

Definition taken_header (g : UlpfecGenerator) (hl : Z) : Z :=
  if Z.of_nat (length (media_packets_ g)) <? kUlpfecMaxMediaPackets then hl else last_media_packet_rtp_header_length_ g.

Lemma AddRtpPacket_ok g p hl : gen_ok g -> generated_fec_packets_ g = [] -> media_ok p -> kRtpHeaderSize <= hl <= fp_length p -> block_list (taken g p) ->
  exists ret g', AddRtpPacketAndGenerateFec g (packet_bytes p) (fp_length p - hl) hl = Some (ret, g') /\ gen_ok g' /\
    (media_packets_ g' = [] \/ media_packets_ g' = taken g p /\ last_media_packet_rtp_header_length_ g' = taken_header g hl).
Proof.
  intros [[H1 H2 [H3 H3'] H4 H5 H6] _ H8] Hgen Hp Hhl Hblock. pose proof (zlen_packet_bytes p Hp) as Hz. pose proof Hp as [_ Hlen _]. unfold kRtpHeaderSize, IP_PACKET_SIZE in *.
  unfold AddRtpPacketAndGenerateFec. rewrite Hgen. set (g0 := match media_packets_ g with [] => _ | _ => g end).
  assert (Hg0 : media_packets_ g0 = media_packets_ g /\ generated_fec_packets_ g0 = [] /\ num_protected_frames_ g0 = num_protected_frames_ g /\
    last_media_packet_rtp_header_length_ g0 = last_media_packet_rtp_header_length_ g /\ rate_ok (params_ g0) /\ rate_ok (new_params_ g0) /\
    (1 <= max_fec_frames (params_ g0) -> num_protected_frames_ g0 < max_fec_frames (params_ g0))).
  { unfold g0. destruct (media_packets_ g) as [|q l] eqn:E; [|split_and!; try done; by apply H8]. destruct (H4 eq_refl) as [_ Hfr].
    split_and!; try done. cbn. rewrite Hfr. lia. }
  destruct Hg0 as (E1 & E2 & E3 & E4 & Hr & Hr' & Hwait). clearbody g0. rewrite (get0_zget (packet_bytes p) 1) by lia. cbn [mbind option_bind]. set (marker := negb _).
  set (g1 := g0 <| media_packets_ := taken g p |> <| last_media_packet_rtp_header_length_ := taken_header g hl |>).
  assert (Eg1 : (if Z.of_nat (length (media_packets_ g0)) <? kUlpfecMaxMediaPackets then
             packet ← media_copy (packet_bytes p) (u64 (fp_length p - hl + hl));
             Some (g0 <| media_packets_ := media_packets_ g0 ++ [packet] |> <| last_media_packet_rtp_header_length_ := hl |>)
           else Some g0) = Some g1).
  { unfold g1, taken, taken_header. rewrite E1. destruct (_ <? kUlpfecMaxMediaPackets).
    - replace (u64 (fp_length p - hl + hl)) with (fp_length p) by (unfold u64; rewrite Z.mod_small; lia). by rewrite media_copy_exact by done.
    - destruct g0. cbn in *. by rewrite E1, E4. }
  rewrite Eg1. cbn [mbind option_bind]. clear Eg1. set (g2 := if marker then _ else g1).
  assert (Hg2 : media_packets_ g2 = taken g p /\ generated_fec_packets_ g2 = [] /\ params_ g2 = params_ g0 /\ new_params_ g2 = new_params_ g0 /\
    last_media_packet_rtp_header_length_ g2 = last_media_packet_rtp_header_length_ g1 /\ num_protected_frames_ g2 = num_protected_frames_ g0 + (if marker then 1 else 0)).
  { unfold g2. destruct marker; cbn; rewrite ?Z.add_0_r; done. }
  destruct Hg2 as (F1 & F2 & F3 & F4 & F5 & F6). clearbody g2.
  assert (Hne : taken g p <> []).
  { unfold taken. destruct (media_packets_ g) as [|q l]; [done|]. destruct (_ <? _); done. }
  destruct (maybe_encode_ok g2 marker) as (ret & g' & E & Hok & Hg').
  - split; rewrite ?F1, ?F3, ?F4, ?F6.
    + unfold taken, kUlpfecMaxMediaPackets in *. destruct (Z.ltb_spec (Z.of_nat (length (media_packets_ g))) kMaxMediaPackets); rewrite ?length_app; cbn [length]; lia.
    + done.
    + done.
    + done.
    + intros q Hq. rewrite F5. unfold g1, taken, taken_header in *. cbn. destruct (_ <? kUlpfecMaxMediaPackets); [|by apply H5]. rewrite last_snoc in Hq. injection Hq as <-. done.
    + destruct marker; lia.
  - by rewrite F1.
  - done.
  - rewrite F3, F6. intros Hm. specialize (Hwait Hm). destruct marker; [|lia]. destruct (decide (num_protected_frames_ g0 + 1 = max_fec_frames (params_ g0))); [by right|left; lia].
  - exists ret, g'. split; [exact E|]. split; [done|]. destruct Hg' as [->| ->]; [by left|right; cbn]. split; [exact F1|exact F5].
Qed.

(** The FEC packets of a block fit their arrays; there are at most 48. *)
Lemma code_sizes front rest rate t fecs : block front rest -> Z.of_nat (length (front :: rest)) <= kMaxMediaPackets -> 0 <= rate <= 255 ->
  EncodeFec (front :: rest) rate 0 false t = Some (0, fecs) ->
  Forall (fun f => is_buffer (fp_data f) /\ 0 <= fp_length f <= IP_PACKET_SIZE) fecs /\ Z.of_nat (length fecs) <= kMaxMediaPackets.
Proof.
  intros Hb Hn Hr E. pose proof (EncodeFec_outcome front rest rate 0 false t Hb Hn Hr ltac:(cbn [length]; lia)) as H.
  pose proof (NumFecPackets_bounds (Z.of_nat (length (front :: rest))) rate ltac:(cbn [length]; lia) Hr) as Hnum.
  destruct (rate =? 0); [rewrite E in H; injection H as ->; split; [constructor|unfold kMaxMediaPackets; cbn; lia]|]. destruct (kMaxMediaPackets <=? _); [rewrite E in H; discriminate|].
  destruct H as (rows & fecs' & E' & Hf & _ & Hlen). rewrite E in E'. injection E' as <-. split; [|lia].
  apply list.Forall_lookup_2. intros i f Hi. destruct (Forall2_lookup_r _ _ _ _ _ Hf Hi) as (row & _ & [_ [Hbuf Hsz Hl _ _ _ _ _ _ _ _]]). split; [done|]. rewrite Hl.
  destruct (header_size row Hsz) as [_ Hhs]. pose proof (max_payload_nonneg (selected row (block_placed front rest))).
  pose proof (max_payload_bound _ (selected_media front rest row Hb)). unfold IP_PACKET_SIZE. lia.
Qed.

(** The code that waits *)
Lemma code_shape g : gen_ok g -> Forall (fun f => is_buffer (fp_data f) /\ 0 <= fp_length f <= IP_PACKET_SIZE) (generated_fec_packets_ g) /\
  Z.of_nat (length (generated_fec_packets_ g)) <= kMaxMediaPackets.
Proof.
  intros [[H1 H2 [H3 _] H4 _ _] Hcode _]. assert (Hnone : Forall (fun f => is_buffer (fp_data f) /\ 0 <= fp_length f <= IP_PACKET_SIZE) [] /\ Z.of_nat (length (@nil Packet)) <= kMaxMediaPackets)
    by (split; [constructor|unfold kMaxMediaPackets; cbn; lia]).
  destruct Hcode as [->|E]; [done|]. destruct (media_packets_ g) as [|front rest]; [by destruct (H4 eq_refl) as [-> _]|]. by eapply code_sizes.
Qed.

Lemma last_media media p : block_list media -> list.last media = Some p -> media_ok p.
Proof. intros Hb Hl. apply last_Some_elem_of in Hl. pose proof (block_list_media _ Hb) as Hm. rewrite list.Forall_forall in Hm. by apply Hm. Qed.

(** The packets that are fetched: the code of the block, behind the header of its last packet *)
Lemma GetUlpfecPacketsAsRed_ok garbage g red_pt pt first_seq_num last : gen_ok g -> list.last (media_packets_ g) = Some last -> is_u16 first_seq_num ->
  exists reds, GetUlpfecPacketsAsRed garbage g red_pt pt first_seq_num = Some (reds, UlpfecGenerator_ResetState g) /\ length reds = length (generated_fec_packets_ g) /\
    forall i f r, generated_fec_packets_ g !! i = Some f -> reds !! i = Some r ->
      red_fec (fp_data last) (last_media_packet_rtp_header_length_ g) red_pt pt (u16 (first_seq_num + Z.of_nat i)) (fp_data f) (fp_length f) (red_data r) /\
      red_length r = last_media_packet_rtp_header_length_ g + 1 + fp_length f.
Proof.
  intros Hg Hlast Hseq. pose proof (proj1 (code_shape g Hg)) as Hshape. destruct Hg as [[H1 H2 [H3 _] H4 H5 H6] H7 H8]. unfold GetUlpfecPacketsAsRed. rewrite Hlast. cbn [mbind option_bind].
  pose proof (H5 last Hlast) as Hhl. pose proof (last_media _ _ H2 Hlast) as [[Hz _] Hlen _]. unfold kRtpHeaderSize, IP_PACKET_SIZE in *.
  destruct (wrap_all_bytes garbage last (last_media_packet_rtp_header_length_ g) red_pt pt first_seq_num (generated_fec_packets_ g)) as (reds & -> & Hr); [lia|lia|done| |].
  - eapply list.Forall_impl; [exact Hshape|]. cbv beta. intros f [[Hzf _] Hf]. rewrite Hzf. exact Hf.
  - cbn [mbind option_bind]. by exists reds.
Qed.

(** A packet without a marker is only gathered. *)
Lemma frame_continues g p hl : generated_fec_packets_ g = [] -> media_ok p -> kRtpHeaderSize <= hl <= fp_length p -> Z.of_nat (length (media_packets_ g)) < kMaxMediaPackets ->
  Z.testbit (get0 (fp_data p) 1) 7 = false ->
  AddRtpPacketAndGenerateFec g (packet_bytes p) (fp_length p - hl) hl =
    Some (0, g <| params_ := match media_packets_ g with [] => new_params_ g | _ => params_ g end |> <| media_packets_ := media_packets_ g ++ [p] |>
               <| last_media_packet_rtp_header_length_ := hl |>).
Proof.
  intros Hgen Hp Hhl Hsize Hmark. pose proof (zlen_packet_bytes p Hp) as Hz. pose proof Hp as [_ Hlen _]. unfold kRtpHeaderSize, IP_PACKET_SIZE in *.
  unfold AddRtpPacketAndGenerateFec. rewrite Hgen, (get0_zget (packet_bytes p) 1) by lia. cbn [mbind option_bind]. rewrite get0_packet_bytes by done.
  assert (Hmarker : negb (Z.land (get0 (fp_data p) 1) kRtpMarkerBitMask =? 0) = false).
  { apply negb_false_iff, Z.eqb_eq. apply Z.bits_inj'. intros n Hn. rewrite Z.land_spec, Z.bits_0. unfold kRtpMarkerBitMask. change 0x80 with (2 ^ 7).
    destruct (Z.eq_dec n 7) as [->|Hne]; [by rewrite Hmark|]. rewrite Z.pow2_bits_false by lia. apply andb_false_r. }
  rewrite Hmarker. set (g0 := match media_packets_ g with [] => _ | _ => g end).
  assert (Hg0 : media_packets_ g0 = media_packets_ g /\ g0 = g <| params_ := match media_packets_ g with [] => new_params_ g | _ => params_ g end |>).
  { unfold g0. destruct g as [[|q l] h f n m pa np]; done. }
  clearbody g0. destruct Hg0 as [-> ->]. unfold kUlpfecMaxMediaPackets. rewrite (proj2 (Z.ltb_lt _ _)) by done.
  replace (u64 (fp_length p - hl + hl)) with (fp_length p) by (unfold u64; rewrite Z.mod_small; lia). rewrite media_copy_exact by done. cbn [mbind option_bind].
  reflexivity.
Qed.

(** The packet that completes the last frame of a code, with a rate but 0 and a block of less
    than 48 numbers, makes the code. *)
Lemma frame_completes g p hl front rest : gen_ok g -> generated_fec_packets_ g = [] -> media_ok p -> kRtpHeaderSize <= hl <= fp_length p ->
  let params := match media_packets_ g with [] => new_params_ g | _ => params_ g end in
  Z.of_nat (length (media_packets_ g)) < kMaxMediaPackets -> media_packets_ g ++ [p] = front :: rest -> block front rest ->
  Z.testbit (get0 (fp_data p) 1) 7 = true -> num_protected_frames_ g + 1 = max_fec_frames params -> fec_rate params <> 0 ->
  last_place 0 (number front) rest < kMaxMediaPackets ->
  exists g', AddRtpPacketAndGenerateFec g (packet_bytes p) (fp_length p - hl) hl = Some (0, g') /\ FecAvailable g' = true /\ media_packets_ g' = front :: rest /\
    last_media_packet_rtp_header_length_ g' = hl /\ params_ g' = params.
Proof.
  intros [[H1 H2 [H3 H3'] H4 H5 H6] H7 H8] Hgen Hp Hhl params Hsize Hmedia Hb Hmark Hfr Hrate Hnear. pose proof (zlen_packet_bytes p Hp) as Hz. pose proof Hp as [_ Hlen _].
  unfold kRtpHeaderSize, IP_PACKET_SIZE in *. unfold AddRtpPacketAndGenerateFec. rewrite Hgen. set (g0 := match media_packets_ g with [] => _ | _ => g end).
  assert (Hg0 : media_packets_ g0 = media_packets_ g /\ num_protected_frames_ g0 = num_protected_frames_ g /\ params_ g0 = params).
  { unfold g0, params. by destruct (media_packets_ g) eqn:E. }
  assert (Hr : rate_ok params) by (unfold params; by destruct (media_packets_ g)). clearbody g0 params. destruct Hg0 as (E1 & E2 & E3).
  rewrite (get0_zget (packet_bytes p) 1) by lia. cbn [mbind option_bind]. rewrite get0_packet_bytes by done.
  assert (Hmarker : negb (Z.land (get0 (fp_data p) 1) kRtpMarkerBitMask =? 0) = true).
  { apply negb_true_iff, Z.eqb_neq. intros E0. pose proof (f_equal (fun z => Z.testbit z 7) E0) as Ht. cbv beta in Ht. rewrite Z.land_spec, Hmark, Z.bits_0 in Ht. done. }
  rewrite Hmarker, E1. unfold kUlpfecMaxMediaPackets. rewrite (proj2 (Z.ltb_lt _ _)) by done.
  replace (u64 (fp_length p - hl + hl)) with (fp_length p) by (unfold u64; rewrite Z.mod_small; lia). rewrite media_copy_exact by done. cbn [mbind option_bind].
  unfold maybe_encode. cbn [negb]. set (g2 := _ <| num_protected_frames_ := _ |>).
  assert (Hg2 : media_packets_ g2 = front :: rest /\ params_ g2 = params /\ num_protected_frames_ g2 = max_fec_frames params /\ last_media_packet_rtp_header_length_ g2 = hl).
  { unfold g2. cbn. rewrite E2, Hmedia. done. }
  clearbody g2. destruct Hg2 as (F1 & F2 & F3 & F4). rewrite F1, F2, F3, Z.eqb_refl. cbn [mbind option_bind]. unfold rate_ok in Hr.
  replace (u8 (fec_rate params)) with (fec_rate params) by (unfold u8; rewrite Z.mod_small; lia).
  assert (Hn : Z.of_nat (length (front :: rest)) <= kMaxMediaPackets) by (rewrite <- Hmedia, length_app; cbn [length]; lia).
  pose proof (EncodeFec_outcome front rest (fec_rate params) 0 false (fec_mask_type params) Hb Hn Hr ltac:(cbn [length]; lia)) as H.
  rewrite (proj2 (Z.eqb_neq (fec_rate params) 0)), (proj2 (Z.leb_gt _ _)) in H by done. destruct H as (rows & fecs & -> & _ & _ & Hlenf). cbn [mbind option_bind].
  pose proof (NumFecPackets_bounds (Z.of_nat (length (front :: rest))) (fec_rate params) ltac:(cbn [length]; lia) ltac:(lia)) as Hnum.
  rewrite (proj2 (Z.eqb_neq (fec_rate params) 0)) in Hnum by done. destruct fecs as [|f fecs]; [cbn [length] in *; lia|]. eexists. split; [reflexivity|]. done.
Qed.

(** ** Runs *)

Inductive gen_op : Type :=
  | OpParams (params : FecProtectionParams)
  | OpMedia (p : Packet) (rtp_header_length : Z)
  | OpRed (red_payload_type ulpfec_payload_type first_seq_num : Z).

Definition gen_exec (garbage : Z) (g : UlpfecGenerator) (o : gen_op) : option UlpfecGenerator :=
  match o with
  | OpParams params => Some (SetFecParameters g params)
  | OpMedia p hl => snd <$> AddRtpPacketAndGenerateFec g (packet_bytes p) (fp_length p - hl) hl
  | OpRed red_pt pt first_seq_num => snd <$> GetUlpfecPacketsAsRed garbage g red_pt pt first_seq_num
  end.

(** The calls the class allows: a rate of one byte; a media packet when no code waits, whose
    numbers differ along the block; the code when there is one. *)
Definition gen_allowed (g : UlpfecGenerator) (o : gen_op) : Prop :=
  match o with
  | OpParams params => rate_ok params
  | OpMedia p hl => FecAvailable g = false /\ media_ok p /\ kRtpHeaderSize <= hl <= fp_length p /\ block_list (taken g p)
  | OpRed _ _ first_seq_num => FecAvailable g = true /\ is_u16 first_seq_num
  end.

Inductive gen_reachable (garbage : Z) : UlpfecGenerator -> Prop :=
  | gr_new : gen_reachable garbage new_UlpfecGenerator
  | gr_exec g o g' : gen_reachable garbage g -> gen_allowed g o -> gen_exec garbage g o = Some g' -> gen_reachable garbage g'.

Lemma FecAvailable_code g : FecAvailable g = negb (bool_decide (generated_fec_packets_ g = [])).
Proof. unfold FecAvailable. by destruct (generated_fec_packets_ g). Qed.

Lemma available_last g : gen_ok g -> FecAvailable g = true -> exists last, list.last (media_packets_ g) = Some last.
Proof.
  intros [[_ _ _ H4 _ _] _ _]. rewrite FecAvailable_code. destruct (media_packets_ g) as [|q l] eqn:E; [by destruct (H4 eq_refl) as [-> _]|].
  intros _. destruct (list.last (q :: l)) eqn:El; [by eexists|]. by apply last_None in El.
Qed.

Lemma gen_exec_ok garbage g o : gen_ok g -> gen_allowed g o -> exists g', gen_exec garbage g o = Some g' /\ gen_ok g'.
Proof.
  intros Hg. destruct o as [params|p hl|red_pt pt first_seq_num]; cbn [gen_allowed gen_exec].
  - intros Hp. eexists. split; [done|]. by apply SetFecParameters_ok.
  - intros (Hav & Hp & Hhl & Hb). rewrite FecAvailable_code in Hav. apply negb_false_iff, bool_decide_eq_true_1 in Hav.
    destruct (AddRtpPacket_ok g p hl Hg Hav Hp Hhl Hb) as (ret & g' & -> & Hg' & _). by exists g'.
  - intros [Hav Hseq]. destruct (available_last g Hg Hav) as [last Hlast].
    destruct (GetUlpfecPacketsAsRed_ok garbage g red_pt pt first_seq_num last Hg Hlast Hseq) as (reds & -> & _). cbn. eexists. split; [done|]. apply reset_gen_ok, Hg.
Qed.

Lemma reachable_ok garbage g : gen_reachable garbage g -> gen_ok g.
Proof.
  induction 1 as [|g o g' _ IH Ha E]; [apply new_gen_ok|]. destruct (gen_exec_ok garbage g o IH Ha) as (g'' & E' & Hg). congruence.
Qed.

(** ** Theorems *)

(** C19. In every run of the generator each allowed call completes without an access outside of
    an array; at most 48 media packets are gathered; while no code waits,
    fewer complete frames are gathered than the parameters allow; and a code that waits
    is the one of exactly the gathered packets with the parameters in force. *)
Theorem generator_runs garbage g : gen_reachable garbage g ->
  (forall o, gen_allowed g o -> exists g', gen_exec garbage g o = Some g') /\
  Z.of_nat (length (media_packets_ g)) <= 48 /\
  (FecAvailable g = false -> 1 <= max_fec_frames (params_ g) -> 0 <= num_protected_frames_ g < max_fec_frames (params_ g)) /\
  (FecAvailable g = true -> EncodeFec (media_packets_ g) (fec_rate (params_ g)) 0 false (fec_mask_type (params_ g)) = Some (0, generated_fec_packets_ g)).
Proof.
  intros Hr. pose proof (reachable_ok _ _ Hr) as Hg. split.
  - intros o Ho. destruct (gen_exec_ok garbage g o Hg Ho) as (g' & E & _). by exists g'.
  - destruct Hg as [[H1 _ _ _ _ H6] H7 H8]. rewrite FecAvailable_code. split; [exact H1|]. split.
    + intros Hav%negb_false_iff%bool_decide_eq_true_1 Hm. specialize (H8 Hav Hm). lia.
    + intros Hav%negb_true_iff%bool_decide_eq_false_1. by destruct H7.
Qed.
