(* ===== verification/FecReceiver.v ===== *)
(** * Forward error correction: receiver

    [UlpfecReceiverImpl] of ulpfec_receiver_impl.cc: RED packets are unpacked to media and
    FEC packets and given to the decoder; media packets and recovered packets are handed
    to the callback. What the callback does is not modelled; a call of the receiver
    from the callback is not either. *)

From S2P Require Import Prelude ByteIo Rtcp TransportFeedback FecPacket FecParity FecDecode RedPacket.

Open Scope Z_scope.
Open Scope c_scope.

(** ** Data *)

(** The members of a parsed header that are used *)
Record RTPHeader := mkRTPHeader { hdr_ssrc : Z; headerLength : Z; sequenceNumber : Z }.

Record FecPacketCounter := mkCounter { num_packets : Z; num_fec_packets : Z; num_recovered_packets : Z; first_packet_time_ms : Z }.

#[export] Instance eta_Counter : Eta FecPacketCounter := fun c => mkCounter (num_packets c) (num_fec_packets c) (num_recovered_packets c) (first_packet_time_ms c).

Record UlpfecReceiverImpl := mkReceiver {
  recv_ssrc : Z;
  fec_ : Fec;
  received_packets_ : list ReceivedPacket;
  recovered_packets_ : list RecoveredPacket;
  packet_counter_ : FecPacketCounter;
}.

#[export] Instance eta_Receiver : Eta UlpfecReceiverImpl :=
  fun s => mkReceiver (recv_ssrc s) (fec_ s) (received_packets_ s) (recovered_packets_ s) (packet_counter_ s).

Definition new_UlpfecReceiverImpl (ssrc : Z) : UlpfecReceiverImpl := mkReceiver ssrc (CreateUlpfec ssrc) [] [] (mkCounter 0 0 0 (-1)).

(** ** Received packets *)

(** The RED header: its length and that of the first block, or [Some None] where the packet
    is refused *)
Definition red_header (incoming_rtp_packet : list Z) (hl payload_data_length : Z) : option (option (Z * Z)) :=
  b0 ← zget incoming_rtp_packet hl;
  if negb (Z.land b0 0x80 =? 0) then
    if payload_data_length <? 4 + 1 then Some None
    else
      b1 ← zget incoming_rtp_packet (hl + 1);
      b2 ← zget incoming_rtp_packet (hl + 2);
      let timestamp_offset := Z.shiftr (u16 (u16 (Z.shiftl b1 8) + b2)) 2 in
      if negb (timestamp_offset =? 0) then Some None
      else
        b3 ← zget incoming_rtp_packet (hl + 3);
        let block_length := u16 (u16 (Z.shiftl (Z.land 0x3 b2) 8) + b3) in
        b4 ← zget incoming_rtp_packet (hl + 4);
        if negb (Z.land b4 0x80 =? 0) then Some None
        else if payload_data_length - (4 + 1) <? block_length then Some None
        else Some (Some (4, block_length))
  else Some (Some (1, 0)).

(** A media packet of [n] bytes of payload behind the RED header, with the header of the
    packet and its own type *)
Definition media_data (incoming_rtp_packet : list Z) (hl payload_type red_header_length n : Z) : option (list Z) :=
  d ← copy_bytes incoming_rtp_packet 0 hl (fp_data new_Packet) 0;
  d ← replace_type d payload_type;
  copy_bytes incoming_rtp_packet (hl + red_header_length) n d hl.

(** Differences are [size_t]; [now] is the time. *)
Definition AddReceivedRedPacket (now : Z) (st : UlpfecReceiverImpl) (header : RTPHeader) (incoming_rtp_packet : list Z) (packet_length ulpfec_payload_type : Z)
  : option (Z * UlpfecReceiverImpl) :=
  if negb (hdr_ssrc header =? recv_ssrc st) then Some (-1, st)
  else if IP_PACKET_SIZE <? packet_length then Some (-1, st)
  else
    let hl := headerLength header in
    let payload_data_length := u64 (packet_length - hl) in
    if payload_data_length =? 0 then Some (-1, st)
    else
      b0 ← zget incoming_rtp_packet hl;
      let payload_type := Z.land b0 0x7f in
      let fec := payload_type =? ulpfec_payload_type in
      lengths ← red_header incoming_rtp_packet hl payload_data_length;
      match lengths with
      | None => Some (-1, st)
      | Some (red_header_length, block_length) =>
          let c := packet_counter_ st in
          let c := c <| num_packets := num_packets c + 1 |> in
          let c := if first_packet_time_ms c =? -1 then c <| first_packet_time_ms := now |> else c in
          let received n d ssrc fec := mkReceived ssrc (sequenceNumber header) fec (mkFp n d) in
          unpacked ←
            (if 0 <? block_length then
               d ← media_data incoming_rtp_packet hl payload_type 5 block_length;
               let rest := u64 (payload_data_length - 5 - block_length) in
               d2 ← copy_bytes incoming_rtp_packet (hl + 5 + block_length) rest (fp_data new_Packet) 0;
               Some (received block_length d (hdr_ssrc header) fec, [received rest d2 (hdr_ssrc header) true], c <| num_fec_packets := num_fec_packets c + 1 |>)
             else if fec then
               let n := u64 (payload_data_length - red_header_length) in
               d ← copy_bytes incoming_rtp_packet (hl + red_header_length) n (fp_data new_Packet) 0;
               ssrc ← ReadBigEndian 4 incoming_rtp_packet 8;
               Some (received n d ssrc fec, [], c <| num_fec_packets := num_fec_packets c + 1 |>)
             else
               let n := u64 (payload_data_length - red_header_length) in
               d ← media_data incoming_rtp_packet hl payload_type red_header_length n;
               Some (received (u64 (hl + payload_data_length - red_header_length)) d (hdr_ssrc header) fec, [], c));
          let '(first, second, c) := (unpacked : ReceivedPacket * list ReceivedPacket * FecPacketCounter) in
          let st := st <| packet_counter_ := c |> in
          if fp_length (rcv_pkt first) =? 0 then Some (0, st)
          else Some (0, st <| received_packets_ := received_packets_ st ++ first :: second |>)
      end.

(** ** Processing *)

(** The loop over the received packets: the packets handed to the callback, the decoder and
    its list *)
Fixpoint process_received (garbage : Z) (received_packets : list ReceivedPacket) (fec : Fec) (recovered_packets : list RecoveredPacket)
  : option (list Packet * Fec * list RecoveredPacket) :=
  match received_packets with
  | [] => Some ([], fec, recovered_packets)
  | r :: rest =>
      decoded ← DecodeFec garbage fec r recovered_packets;
      let '(fec, recovered_packets) := (decoded : Fec * list RecoveredPacket) in
      processed ← process_received garbage rest fec recovered_packets;
      let '(handed, fec, recovered_packets) := (processed : list Packet * Fec * list RecoveredPacket) in
      Some ((if is_fec r then handed else rcv_pkt r :: handed), fec, recovered_packets)
  end.

(** The packets that are handed over now *)
Definition not_returned (l : list RecoveredPacket) : list Packet := map rec_pkt (filter (fun r => returned r = false) l).

Definition set_returned (r : RecoveredPacket) : RecoveredPacket := mkRecovered (rec_ssrc r) (rec_seq_num r) (was_recovered r) true (rec_pkt r).

Definition ProcessReceivedFec (garbage : Z) (st : UlpfecReceiverImpl) : option (list Packet * UlpfecReceiverImpl) :=
  processed ← process_received garbage (received_packets_ st) (fec_ st) (recovered_packets_ st);
  let '(handed, fec, recovered_packets) := (processed : list Packet * Fec * list RecoveredPacket) in
  let out := not_returned recovered_packets in
  let c := packet_counter_ st in
  Some (handed ++ out,
        st <| received_packets_ := [] |> <| fec_ := fec |> <| recovered_packets_ := map set_returned recovered_packets |>
           <| packet_counter_ := c <| num_recovered_packets := num_recovered_packets c + Z.of_nat (length out) |> |>).

(** ** Received packets, byte by byte *)

(** A packet with [n] bytes, and nothing behind them *)
Definition filled (p : Packet) (n : Z) (byte : Z -> Z) : Prop :=
  fp_length p = n /\ zlen (fp_data p) = IP_PACKET_SIZE /\ forall j, get0 (fp_data p) j = if (0 <=? j) && (j <? n) then byte j else 0.

Lemma filled_unique p q n byte : filled p n byte -> filled q n byte -> p = q.
Proof.
  intros (H1 & H2 & H3) (K1 & K2 & K3). destruct p as [np dp], q as [nq dq]. cbn [fp_length fp_data] in *. subst. f_equal. apply get0_ext; [lia|]. intros j _. by rewrite H3, K3.
Qed.

Lemma new_Packet_get0 j : get0 (fp_data new_Packet) j = 0.
Proof.
  unfold get0, zget. cbn [new_Packet fp_data]. destruct (j <? 0); [done|]. destruct (_ !! _) eqn:E; [|done]. by apply lookup_replicate_1 in E as [-> _].
Qed.

Lemma new_Packet_size : zlen (fp_data new_Packet) = IP_PACKET_SIZE.
Proof. cbn [new_Packet fp_data]. by rewrite zlen_replicate. Qed.

(** The bytes behind the RED header *)
Lemma payload_copy d s n : 0 <= s -> 0 <= n <= IP_PACKET_SIZE -> s + n <= zlen d ->
  exists d', copy_bytes d s n (fp_data new_Packet) 0 = Some d' /\ filled (mkFp n d') n (fun j => get0 d (s + j)).
Proof.
  intros Hs Hn Hd. pose proof new_Packet_size as Hz. destruct (copy_bytes_get0 d s n (fp_data new_Packet) 0) as (d' & E & Hl & Hg); [lia..|]. exists d'. split; [done|].
  split_and!; [done|cbn [fp_data]; lia|]. intros j. cbn [fp_data]. rewrite Hg, new_Packet_get0, Z.sub_0_r, Z.add_0_l. done.
Qed.

(** The header with the type that the RED header names, and what is behind *)
Lemma media_data_bytes d hl pt red n : 12 <= hl -> 0 <= red -> 0 <= n -> hl + red + n <= zlen d -> hl + n <= IP_PACKET_SIZE ->
  exists d', media_data d hl pt red n = Some d' /\ zlen d' = IP_PACKET_SIZE /\
    filled (mkFp (hl + n) d') (hl + n) (fun j => if j <? hl then typed_byte d pt j else get0 d (red + j)).
Proof.
  intros Hhl Hred Hn Hd Hsize. pose proof new_Packet_size as Hz. unfold media_data.
  destruct (copy_bytes_get0 d 0 hl (fp_data new_Packet) 0) as (d1 & -> & Hl1 & Hg1); [lia..|]. cbn [mbind option_bind].
  destruct (replace_type_get0 d1 pt) as (d2 & -> & Hl2 & Hg2); [lia|]. cbn [mbind option_bind].
  destruct (copy_bytes_get0 d (hl + red) n d2 hl) as (d3 & -> & Hl3 & Hg3); [lia..|]. exists d3. split; [done|]. split; [lia|]. split; [done|]. split; [cbn [fp_data]; lia|].
  intros j. cbn [fp_data]. rewrite Hg3, Hg2, !Hg1, !new_Packet_get0, !Z.sub_0_r, !Z.add_0_l. unfold typed_byte.
  rewrite (proj2 (Z.leb_le 0 1)), (proj2 (Z.ltb_lt 1 hl)) by lia. cbn [andb].
  destruct (Z.leb_spec hl j), (Z.ltb_spec j hl), (Z.ltb_spec j (hl + n)), (Z.leb_spec 0 j); cbn [andb]; try lia; try done.
  all: first [f_equal; lia|destruct (Z.eqb_spec j 1) as [->|]; [lia|done]].
Qed.

(** ** Any RED packet *)

(** The counters of a packet that is accepted *)
Definition counted (now : Z) (c : FecPacketCounter) (fec : bool) : FecPacketCounter :=
  mkCounter (num_packets c + 1) (num_fec_packets c + (if fec then 1 else 0)) (num_recovered_packets c) (if first_packet_time_ms c =? -1 then now else first_packet_time_ms c).

Lemma red_header_ok d hl n : 0 <= hl -> hl + n = zlen d -> 1 <= n -> exists r, red_header d hl n = Some r /\
  (r = None \/ r = Some (1, 0) \/ exists block_length, r = Some (4, block_length) /\ 0 <= block_length <= n - 5).
Proof.
  intros Hhl Hn Hn1. unfold red_header. rewrite (get0_zget d hl) by lia. cbn [mbind option_bind]. destruct (negb _); [|eexists; split; [done|]; auto].
  destruct (Z.ltb_spec n (4 + 1)); [eexists; split; [done|]; auto|].
  rewrite !(get0_zget d) by lia. cbn [mbind option_bind]. destruct (negb _); [eexists; split; [done|]; auto|]. destruct (negb _); [eexists; split; [done|]; auto|].
  destruct (Z.ltb_spec (n - (4 + 1)) (u16 (u16 (Z.shiftl (Z.land 3 (get0 d (hl + 2))) 8) + get0 d (hl + 3)))) as [Hb|Hb]; [eexists; split; [done|]; auto|].
  eexists. split; [done|]. right. right. eexists. split; [done|]. pose proof (u16_range (u16 (Z.shiftl (Z.land 3 (get0 d (hl + 2))) 8) + get0 d (hl + 3))) as Hr. unfold is_u16 in Hr. lia.
Qed.

(** What the receiver keeps of an accepted packet *)
Definition accepted (now : Z) (st : UlpfecReceiverImpl) (fec : bool) (new : list ReceivedPacket) : UlpfecReceiverImpl :=
  st <| packet_counter_ := counted now (packet_counter_ st) fec |> <| received_packets_ := received_packets_ st ++ new |>.

Section red.
Context (now : Z) (st : UlpfecReceiverImpl) (header : RTPHeader) (d : list Z) (fec_pt : Z).
Local Abbreviation hl := (headerLength header).
Local Abbreviation pt := (Z.land (get0 d hl) 0x7f).
Hypothesis Hssrc : hdr_ssrc header = recv_ssrc st.
Hypothesis Hsize : zlen d <= IP_PACKET_SIZE.
Hypothesis Hhl : 12 <= hl < zlen d.
Hypothesis Hbytes : Forall is_u8 d.

(** One FEC packet; without a payload it is not kept. *)
Lemma add_fec red : red_header d hl (zlen d - hl) = Some (Some (red, 0)) -> 0 <= red <= zlen d - hl -> pt = fec_pt ->
  exists p ssrc, filled p (zlen d - hl - red) (fun j => get0 d (hl + red + j)) /\ ReadBigEndian 4 d 8 = Some ssrc /\
    AddReceivedRedPacket now st header d (zlen d) fec_pt =
      Some (0, accepted now st true (if zlen d - hl - red =? 0 then [] else [mkReceived ssrc (sequenceNumber header) true p])).
Proof.
  intros Hred Hr Hpt. unfold IP_PACKET_SIZE in *. destruct (payload_copy d (hl + red) (zlen d - hl - red)) as (d' & Ed & Hp); [lia|unfold IP_PACKET_SIZE; lia|lia|].
  destruct (ReadBigEndian_Some 4 d 8 Hbytes) as (ssrc & Es & _); [lia|change (Z.of_nat 4) with 4; lia|]. exists (mkFp (zlen d - hl - red) d'), ssrc. split; [exact Hp|]. split; [exact Es|].
  unfold AddReceivedRedPacket, IP_PACKET_SIZE. rewrite Hssrc, Z.eqb_refl. cbn [negb]. rewrite (proj2 (Z.ltb_ge _ _)) by lia. cbv zeta.
  replace (u64 (zlen d - hl)) with (zlen d - hl) by (unfold u64; rewrite Z.mod_small; lia). rewrite (proj2 (Z.eqb_neq _ 0)), (get0_zget d hl), Hred by lia. cbn [mbind option_bind].
  rewrite (proj2 (Z.eqb_eq _ _) Hpt). change (0 <? 0) with false. cbv iota.
  replace (u64 (zlen d - hl - red)) with (zlen d - hl - red) by (unfold u64; rewrite Z.mod_small; lia). rewrite Ed. cbn [mbind option_bind]. rewrite Es. cbn [mbind option_bind rcv_pkt fp_length].
  destruct (Z.eqb_spec (zlen d - hl - red) 0) as [E0|E0]; unfold accepted, counted; do 2 f_equal; destruct st as [s f l r [c1 c2 c3 c4]]; cbn; destruct (c4 =? -1); rewrite ?app_nil_r; done.
Qed.

(** One media packet *)
Lemma add_media red : red_header d hl (zlen d - hl) = Some (Some (red, 0)) -> 0 <= red <= zlen d - hl -> pt <> fec_pt ->
  exists p, filled p (zlen d - red) (fun j => if j <? hl then typed_byte d pt j else get0 d (red + j)) /\
    AddReceivedRedPacket now st header d (zlen d) fec_pt = Some (0, accepted now st false [mkReceived (hdr_ssrc header) (sequenceNumber header) false p]).
Proof.
  intros Hred Hr Hpt. unfold IP_PACKET_SIZE in *. destruct (media_data_bytes d hl pt red (zlen d - hl - red)) as (d' & Ed & _ & Hp); [lia..|unfold IP_PACKET_SIZE; lia|].
  replace (hl + (zlen d - hl - red)) with (zlen d - red) in Hp by lia. exists (mkFp (zlen d - red) d'). split; [exact Hp|].
  unfold AddReceivedRedPacket, IP_PACKET_SIZE. rewrite Hssrc, Z.eqb_refl. cbn [negb]. rewrite (proj2 (Z.ltb_ge _ _)) by lia. cbv zeta.
  replace (u64 (zlen d - hl)) with (zlen d - hl) by (unfold u64; rewrite Z.mod_small; lia). rewrite (proj2 (Z.eqb_neq _ 0)), (get0_zget d hl), Hred by lia. cbn [mbind option_bind].
  rewrite (proj2 (Z.eqb_neq _ _) Hpt). change (0 <? 0) with false. cbv iota.
  replace (u64 (zlen d - hl - red)) with (zlen d - hl - red) by (unfold u64; rewrite Z.mod_small; lia). rewrite Ed. cbn [mbind option_bind rcv_pkt fp_length].
  replace (u64 (hl + (zlen d - hl) - red)) with (zlen d - red) by (unfold u64; rewrite Z.mod_small; lia). rewrite (proj2 (Z.eqb_neq _ 0)) by lia.
  unfold accepted, counted; do 2 f_equal; destruct st as [s f l r [c1 c2 c3 c4]]; cbn; destruct (c4 =? -1); rewrite ?Z.add_0_r; done.
Qed.

(** Two packets: the length of the first one is that of its payload only. *)
Lemma add_two n : red_header d hl (zlen d - hl) = Some (Some (4, n)) -> 1 <= n <= zlen d - hl - 5 ->
  exists d1 q, filled (mkFp (hl + n) d1) (hl + n) (fun j => if j <? hl then typed_byte d pt j else get0 d (5 + j)) /\
    filled q (zlen d - hl - 5 - n) (fun j => get0 d (hl + 5 + n + j)) /\
    AddReceivedRedPacket now st header d (zlen d) fec_pt =
      Some (0, accepted now st true [mkReceived (hdr_ssrc header) (sequenceNumber header) (pt =? fec_pt) (mkFp n d1); mkReceived (hdr_ssrc header) (sequenceNumber header) true q]).
Proof.
  intros Hred Hn. unfold IP_PACKET_SIZE in *. destruct (media_data_bytes d hl pt 5 n) as (d1 & E1 & _ & H1); [lia..|unfold IP_PACKET_SIZE; lia|].
  destruct (payload_copy d (hl + 5 + n) (zlen d - hl - 5 - n)) as (d2 & E2 & H2); [lia|unfold IP_PACKET_SIZE; lia|lia|]. exists d1, (mkFp (zlen d - hl - 5 - n) d2).
  split; [exact H1|]. split; [exact H2|].
  unfold AddReceivedRedPacket, IP_PACKET_SIZE. rewrite Hssrc, Z.eqb_refl. cbn [negb]. rewrite (proj2 (Z.ltb_ge _ _)) by lia. cbv zeta.
  replace (u64 (zlen d - hl)) with (zlen d - hl) by (unfold u64; rewrite Z.mod_small; lia). rewrite (proj2 (Z.eqb_neq _ 0)), (get0_zget d hl), Hred by lia. cbn [mbind option_bind].
  rewrite (proj2 (Z.ltb_lt 0 n)) by lia. rewrite E1. cbn [mbind option_bind].
  replace (u64 (zlen d - hl - 5 - n)) with (zlen d - hl - 5 - n) by (unfold u64; rewrite Z.mod_small; lia). rewrite E2. cbn [mbind option_bind rcv_pkt fp_length].
  rewrite (proj2 (Z.eqb_neq n 0)) by lia. unfold accepted, counted; do 2 f_equal; destruct st as [s f l r [c1 c2 c3 c4]]; cbn; destruct (c4 =? -1); done.
Qed.
End red.

(** ** Theorems *)

Lemma land_bit7 b : (Z.land b 0x80 =? 0) = negb (Z.testbit b 7).
Proof.
  destruct (Z.eqb_spec (Z.land b 0x80) 0) as [E|E].
  - pose proof (f_equal (fun z => Z.testbit z 7) E) as H. cbv beta in H. rewrite Z.land_spec, Z.bits_0, andb_true_r in H. by rewrite H.
  - destruct (Z.testbit b 7) eqn:Hb; [done|]. exfalso. apply E. apply Z.bits_inj'. intros n Hn. rewrite Z.land_spec, Z.bits_0.
    destruct (Z.eq_dec n 7) as [->|Hne]; [by rewrite Hb|]. change 0x80 with (2 ^ 7). rewrite Z.pow2_bits_false by lia. apply andb_false_r.
Qed.

(** The length that a RED header of two blocks gives the first one *)
Definition first_block_length (d : list Z) (hl : Z) : Z := get0 d (hl + 2) mod 4 * 256 + get0 d (hl + 3).

(** What a RED packet of [n] bytes behind the RTP header must not have *)
Definition malformed (d : list Z) (hl n : Z) : bool :=
  Z.testbit (get0 d hl) 7 && ((n <? 5) || (negb (get0 d (hl + 1) * 64 + get0 d (hl + 2) / 4 =? 0)) || Z.testbit (get0 d (hl + 4)) 7 || (n - 5 <? first_block_length d hl)).

Lemma red_header_spec d hl n : Forall is_u8 d -> 0 <= hl -> hl + n = zlen d -> 1 <= n ->
  red_header d hl n = Some (if malformed d hl n then None else Some (if Z.testbit (get0 d hl) 7 then (4, first_block_length d hl) else (1, 0))).
Proof.
  intros Hu Hhl Hn Hn1. unfold red_header, malformed. rewrite (get0_zget d hl) by lia. cbn [mbind option_bind]. rewrite land_bit7, negb_involutive.
  destruct (Z.testbit (get0 d hl) 7); cbn [andb]; [|done]. destruct (Z.ltb_spec n (4 + 1)); [by rewrite (proj2 (Z.ltb_lt n 5)) by lia|]. rewrite (proj2 (Z.ltb_ge n 5)) by lia.
  rewrite !(get0_zget d) by lia. cbn [mbind option_bind orb]. unfold first_block_length. pose proof (get0_u8 d (hl + 1) Hu) as H1. pose proof (get0_u8 d (hl + 2) Hu) as H2.
  pose proof (get0_u8 d (hl + 3) Hu) as H3. unfold is_u8 in H1, H2, H3. generalize dependent (get0 d (hl + 1)). generalize dependent (get0 d (hl + 3)). generalize dependent (get0 d (hl + 2)).
  intros b2 H2 b3 H3 b1 H1. change 3 with (Z.ones 2). rewrite !Z.shiftl_mul_pow2, Z.shiftr_div_pow2, (Z.land_comm (Z.ones 2)), Z.land_ones by lia.
  change (2 ^ 8) with 256 in *. change (2 ^ 2) with 4 in *.
  unfold u16. change (2 ^ 16) with 65536. rewrite !(Z.mod_small (_ * 256)), !Z.mod_small by (Z.div_mod_to_equations; lia).
  replace ((b1 * 256 + b2) / 4) with (b1 * 64 + b2 / 4) by (Z.div_mod_to_equations; lia). destruct (negb _); [done|]. rewrite land_bit7, negb_involutive. cbn [orb].
  destruct (Z.testbit _ _); [done|]. cbn [orb]. change (4 + 1) with 5. by destruct (_ <? _).
Qed.

(** The F bit: another block follows the first one. *)
Definition f_bit (d : list Z) (hl : Z) : bool := Z.testbit (get0 d hl) 7.

(** There are two blocks when the F bit is set and the first block is not empty. *)
Definition two_red_blocks (d : list Z) (hl : Z) : bool := f_bit d hl && negb (first_block_length d hl =? 0).

(** The bytes that are taken for the RED header of a single block: with the F bit
    and an empty first block only the four bytes of the first header. *)
Definition single_red_length (d : list Z) (hl : Z) : Z := if f_bit d hl then 4 else 1.

(** What a RED packet with an RTP header of [headerLength header] bytes is unpacked to: the
    type in the first byte of the RED header and the number of blocks decide. The first of
    two packets has the length of its block, without the RTP header in front of it. *)
Inductive unpacked (header : RTPHeader) (d : list Z) (fec_pt : Z) : bool -> list ReceivedPacket -> Prop :=
  | up_fec red p ssrc : two_red_blocks d (headerLength header) = false -> red = single_red_length d (headerLength header) -> Z.land (get0 d (headerLength header)) 0x7f = fec_pt ->
      filled p (zlen d - headerLength header - red) (fun j => get0 d (headerLength header + red + j)) -> ReadBigEndian 4 d 8 = Some ssrc ->
      unpacked header d fec_pt true (if fp_length p =? 0 then [] else [mkReceived ssrc (sequenceNumber header) true p])
  | up_media red p : two_red_blocks d (headerLength header) = false -> red = single_red_length d (headerLength header) -> Z.land (get0 d (headerLength header)) 0x7f <> fec_pt ->
      filled p (zlen d - red) (fun j => if j <? headerLength header then typed_byte d (Z.land (get0 d (headerLength header)) 0x7f) j else get0 d (red + j)) ->
      unpacked header d fec_pt false [mkReceived (hdr_ssrc header) (sequenceNumber header) false p]
  | up_two n data q : two_red_blocks d (headerLength header) = true -> n = first_block_length d (headerLength header) -> 1 <= n <= zlen d - headerLength header - 5 ->
      filled (mkFp (headerLength header + n) data) (headerLength header + n)
        (fun j => if j <? headerLength header then typed_byte d (Z.land (get0 d (headerLength header)) 0x7f) j else get0 d (5 + j)) ->
      filled q (zlen d - headerLength header - 5 - n) (fun j => get0 d (headerLength header + 5 + n + j)) ->
      unpacked header d fec_pt true
        [mkReceived (hdr_ssrc header) (sequenceNumber header) (Z.land (get0 d (headerLength header)) 0x7f =? fec_pt) (mkFp n data);
         mkReceived (hdr_ssrc header) (sequenceNumber header) true q].

(** C7. RED packets are received safely: whatever the bytes behind the RTP header, no array
    is accessed outside its bounds; a packet of another source, longer than 1500 bytes,
    without a payload or with a bad RED header is refused and changes nothing. Any other is
    counted. Without the F bit it is unpacked to one packet: a FEC packet of the bytes behind
    the RED header byte, or a media packet of the RTP header, with the type of the RED
    header, and these bytes; an empty FEC packet is not kept. With the F bit and a first block of n > 0 bytes it is unpacked to
    two: the RTP header and the first block, cut to n bytes in all, and a FEC packet of the rest;
    with the F bit and n = 0 to one, of the bytes behind the first four of the RED header. *)
Theorem AddReceivedRedPacket_outcome now st header d fec_pt :
  Forall is_u8 d -> 12 <= headerLength header <= zlen d ->
  if negb (hdr_ssrc header =? recv_ssrc st) || (1500 <? zlen d) || (zlen d =? headerLength header) || malformed d (headerLength header) (zlen d - headerLength header)
  then AddReceivedRedPacket now st header d (zlen d) fec_pt = Some (-1, st)
  else exists fec new, AddReceivedRedPacket now st header d (zlen d) fec_pt = Some (0, accepted now st fec new) /\ unpacked header d fec_pt fec new.
Proof.
  intros Hu Hhl. destruct (negb _) eqn:Es; cbn [orb]; [unfold AddReceivedRedPacket; by rewrite Es|]. apply negb_false_iff, Z.eqb_eq in Es.
  destruct (Z.ltb_spec 1500 (zlen d)) as [Hz|Hz]; cbn [orb].
  { unfold AddReceivedRedPacket. rewrite Es, Z.eqb_refl. cbn [negb]. unfold IP_PACKET_SIZE. by rewrite (proj2 (Z.ltb_lt _ _)). }
  assert (Hn : u64 (zlen d - headerLength header) = zlen d - headerLength header) by (unfold u64; rewrite Z.mod_small; lia).
  destruct (Z.eqb_spec (zlen d) (headerLength header)) as [Ez|Ez]; cbn [orb].
  { unfold AddReceivedRedPacket. rewrite Es, Z.eqb_refl. cbn [negb]. unfold IP_PACKET_SIZE. rewrite (proj2 (Z.ltb_ge _ _)) by lia. cbv zeta. rewrite Hn.
    by rewrite (proj2 (Z.eqb_eq (zlen d - headerLength header) 0)) by lia. }
  pose proof (red_header_spec d (headerLength header) (zlen d - headerLength header) Hu ltac:(lia) ltac:(lia) ltac:(lia)) as Hred.
  destruct (malformed _ _ _) eqn:Em.
  { unfold AddReceivedRedPacket. rewrite Es, Z.eqb_refl. cbn [negb]. unfold IP_PACKET_SIZE. rewrite (proj2 (Z.ltb_ge _ _)) by lia. cbv zeta. rewrite Hn.
    rewrite (proj2 (Z.eqb_neq (zlen d - headerLength header) 0)), (get0_zget d (headerLength header)), Hred by lia. done. }
  assert (Hsingle : forall red, red = single_red_length d (headerLength header) -> two_red_blocks d (headerLength header) = false ->
    1 <= red < zlen d - headerLength header \/ red = 1 -> red_header d (headerLength header) (zlen d - headerLength header) = Some (Some (red, 0)) ->
    exists fec new, AddReceivedRedPacket now st header d (zlen d) fec_pt = Some (0, accepted now st fec new) /\ unpacked header d fec_pt fec new).
  { intros red Hr1 H2 Hr Hh. destruct (decide (Z.land (get0 d (headerLength header)) 0x7f = fec_pt)) as [Hpt|Hpt].
    - destruct (add_fec now st header d fec_pt Es ltac:(unfold IP_PACKET_SIZE; lia) ltac:(lia) Hu red Hh ltac:(lia) Hpt) as (p & ssrc & Hp & Hs & E).
      eexists _, _. split; [exact E|]. destruct Hp as (Hlen & Hp). rewrite <- Hlen. apply (up_fec _ _ _ red); [done|done|done|by split|done].
    - destruct (add_media now st header d fec_pt Es ltac:(unfold IP_PACKET_SIZE; lia) ltac:(lia) red Hh ltac:(lia) Hpt) as (p & Hp & E).
      eexists _, _. split; [exact E|]. apply (up_media _ _ _ red); done. }
  destruct (Z.testbit (get0 d (headerLength header)) 7) eqn:Eb; [|apply (Hsingle 1); [unfold single_red_length, f_bit; by rewrite Eb|unfold two_red_blocks, f_bit; by rewrite Eb|by right|done]].
  unfold malformed in Em. rewrite Eb in Em. cbn [andb] in Em. rewrite !orb_false_iff in Em. destruct Em as [[[H5%Z.ltb_ge _] _] Hfit%Z.ltb_ge].
  destruct (decide (first_block_length d (headerLength header) = 0)) as [E0|E0]; [apply (Hsingle 4); [unfold single_red_length, f_bit; by rewrite Eb|unfold two_red_blocks, f_bit; by rewrite Eb, E0|left; lia|by rewrite Hred, E0]|].
  assert (Hpos : 0 <= first_block_length d (headerLength header)).
  { unfold first_block_length. pose proof (get0_u8 d (headerLength header + 3) Hu) as H3. unfold is_u8 in H3. Z.div_mod_to_equations. lia. }
  destruct (add_two now st header d fec_pt Es ltac:(unfold IP_PACKET_SIZE; lia) ltac:(lia) _ Hred ltac:(lia)) as (d1 & q & H1 & H2 & E).
  eexists _, _. split; [exact E|]. apply up_two; try done; [unfold two_red_blocks, f_bit; by rewrite Eb, (proj2 (Z.eqb_neq _ 0))|lia].
Qed.

(** A RED packet with two blocks: of 1 byte and of 2 bytes *)
Definition two_blocks : list Z := [0x80; 127; 0; 9; 0; 0; 0; 0; 0; 0; 0; 7; 0xE0; 0; 0; 1; 125; 42; 43; 44].

Lemma AddReceivedRedPacket_outcome_witness : exists fec new,
  AddReceivedRedPacket 0 (new_UlpfecReceiverImpl 7) (mkRTPHeader 7 12 9) two_blocks 20 125 = Some (0, accepted 0 (new_UlpfecReceiverImpl 7) fec new) /\
  unpacked (mkRTPHeader 7 12 9) two_blocks 125 fec new.
Proof.
  apply (AddReceivedRedPacket_outcome 0 (new_UlpfecReceiverImpl 7) (mkRTPHeader 7 12 9) two_blocks 125).
  - unfold two_blocks. repeat (apply list.Forall_cons_2; [unfold is_u8; lia|]). apply list.Forall_nil_2.
  - change (zlen two_blocks) with 20. cbn [headerLength]. lia.
Defined.

(** The length of the first of two blocks is set without that of its RTP header: the packet
    that is handed over ends before the payload does. *)
Lemma first_block_cut now st header d fec_pt n : hdr_ssrc header = recv_ssrc st -> zlen d <= IP_PACKET_SIZE -> 12 <= headerLength header < zlen d -> Forall is_u8 d ->
  red_header d (headerLength header) (zlen d - headerLength header) = Some (Some (4, n)) -> 1 <= n <= zlen d - headerLength header - 5 ->
  exists st' r rest, AddReceivedRedPacket now st header d (zlen d) fec_pt = Some (0, st') /\ received_packets_ st' = received_packets_ st ++ r :: rest /\
    fp_length (rcv_pkt r) = n /\ forall j, 0 <= j < n -> get0 (fp_data (rcv_pkt r)) (headerLength header + j) = get0 d (headerLength header + 5 + j).
Proof.
  intros Hs Hsize Hhl Hu Hred Hn. destruct (add_two now st header d fec_pt Hs Hsize Hhl n Hred Hn) as (d1 & q & (_ & _ & H1) & _ & E).
  eexists _, _, _. split; [exact E|]. split; [reflexivity|]. split; [reflexivity|]. intros j Hj. cbn [rcv_pkt fp_data] in *. rewrite H1.
  rewrite (proj2 (Z.leb_le 0 _)), (proj2 (Z.ltb_lt _ (headerLength header + n))), (proj2 (Z.ltb_ge _ (headerLength header))) by lia. cbn [andb]. f_equal. lia.
Qed.
