(* ===== verification/FecHanded.v ===== *)
(** * Forward error correction: the receiver and the decoder

    The receiver marks the recovered packets it has handed over. The decoder does not look
    at the marks: on lists that are the same up to them it does the same. So a receiver
    follows the decoder of FecDecode.v, and every packet that is in the list after a call
    has been handed over. *)

From S2P Require Import Prelude ByteIo Rtcp TransportFeedback FecPacket FecDecode FecParity FecRecover FecSound RedPacket FecReceiver.

Open Scope Z_scope.
Open Scope c_scope.

(** ** Packets that are the same up to the marks *)

Definition same (r r' : RecoveredPacket) : Prop := rec_ssrc r = rec_ssrc r' /\ rec_seq_num r = rec_seq_num r' /\ rec_pkt r = rec_pkt r'.

#[export] Instance same_equivalence : Equivalence same.
Proof. split; unfold same; [done|intros r r' (? & ? & ?); done|intros r1 r2 r3 (? & ? & ?) (? & ? & ?); split_and!; congruence]. Qed.

Definition alike : relation (list RecoveredPacket) := Forall2 same.

#[export] Instance alike_equivalence : Equivalence alike.
Proof. unfold alike. split; apply _. Qed.

#[export] Instance length_alike : Proper (alike ==> eq) (@length RecoveredPacket).
Proof. intros l l' H. by apply Forall2_length in H. Qed.

Lemma alike_cons x x' l l' : same x x' -> alike l l' -> alike (x :: l) (x' :: l').
Proof. by constructor. Qed.

Lemma insert_sorted_alike x x' l l' : same x x' -> alike l l' -> alike (insert_sorted rec_seq_num x l) (insert_sorted rec_seq_num x' l').
Proof.
  intros Hx. induction 1 as [|y y' l l' Hy Hl IH]; cbn [insert_sorted]; [by apply alike_cons|]. pose proof Hx as (_ & Hx2 & _). pose proof Hy as (_ & Hy2 & _). rewrite Hx2, Hy2.
  destruct (LessThan _ _); [by apply alike_cons|]. by apply alike_cons; [|apply alike_cons].
Qed.

#[export] Instance sort_alike : Proper (alike ==> alike) (sort rec_seq_num).
Proof. intros l l'. induction 1 as [|x x' l l' Hx Hl IH]; cbn [sort fold_right]; [constructor|]. by apply insert_sorted_alike. Qed.

#[export] Instance Discard_alike : Proper (alike ==> alike) DiscardOldRecoveredPackets.
Proof.
  intros l l' H. induction H as [|x x' l l' Hx Hl IH]; cbn [DiscardOldRecoveredPackets length]; [constructor|]. rewrite (Forall2_length Hl).
  destruct (_ <? _); [exact IH|by constructor].
Qed.

Lemma alike_snoc l l' x x' : alike l l' -> same x x' -> alike (l ++ [x]) (l' ++ [x']).
Proof. intros Hl Hx. apply Forall2_app; [done|]. apply alike_cons; [done|constructor]. Qed.

Lemma existsb_alike s l l' : alike l l' -> existsb (fun r => rec_seq_num r =? s) l = existsb (fun r => rec_seq_num r =? s) l'.
Proof. induction 1 as [|x x' l l' (_ & Hx & _) Hl IH]; cbn [existsb]; [done|]. by rewrite Hx, IH. Qed.

Lemma assign_slots_alike n slots l l' : alike l l' -> assign_slots n slots l = assign_slots n slots l'.
Proof.
  revert slots l l'. induction n as [|n IH]; intros slots l l' Hl; cbn [assign_slots]; [done|]. destruct slots as [|q slots]; [done|].
  destruct Hl as [|x x' l l' Hx Hl]; [done|]. pose proof Hx as (_ & Hx2 & Hx3). rewrite Hx2, Hx3.
  destruct (LessThan (pp_seq_num q) _); [f_equal; apply IH; by constructor|]. destruct (LessThan _ _); [by apply IH|]. f_equal. by apply IH.
Qed.

(** ** The decoder on such lists *)

(** Results with the same first part and lists that are alike *)
Definition alike_results {A} : relation (option (A * list RecoveredPacket)) := option_Forall2 (fun x y => fst x = fst y /\ alike (snd x) (snd y)).

Lemma alike_result {A} (a : A) l l' : alike l l' -> alike_results (Some (a, l)) (Some (a, l')).
Proof. intros Hl. by constructor. Qed.

Lemma InsertMediaPacket_alike d l l' r : alike l l' ->
  fst (InsertMediaPacket d l r) = fst (InsertMediaPacket d l' r) /\ alike (snd (InsertMediaPacket d l r)) (snd (InsertMediaPacket d l' r)).
Proof.
  intros Hl. unfold InsertMediaPacket. rewrite (existsb_alike _ _ _ Hl). destruct (existsb _ _); [done|]. cbn [fst snd]. split; [done|]. by apply sort_alike, alike_snoc.
Qed.

Lemma InsertFecPacket_alike d l l' r : alike l l' -> InsertFecPacket d l r = InsertFecPacket d l' r.
Proof.
  intros Hl. unfold InsertFecPacket. destruct (existsb _ _); [done|]. destruct (ReadFecHeader _) as [f|]; [|done]. cbn [mbind option_bind]. destruct (negb _); [done|].
  destruct (mask_packets f) as [[|q slots]|]; cbn [mbind option_bind]; [done| |done]. unfold AssignRecoveredPackets. by rewrite (Forall2_length Hl), (assign_slots_alike _ _ _ _ Hl).
Qed.

Lemma InsertPacket_alike d l l' r : alike l l' -> alike_results (InsertPacket d r l) (InsertPacket d r l').
Proof.
  intros Hl. unfold InsertPacket. set (d1 := match received_fec_packets_ d with _ :: _ => _ | [] => d end). destruct (is_fec r).
  - rewrite (InsertFecPacket_alike d1 l l' r Hl). destruct (InsertFecPacket d1 l' r) as [d2|]; cbn [mbind option_bind]; [|constructor]. by apply alike_result, Discard_alike.
  - destruct (InsertMediaPacket_alike d1 l l' r Hl) as [H1 H2]. cbn [mbind option_bind]. destruct (InsertMediaPacket d1 l r) as [d2 l2], (InsertMediaPacket d1 l' r) as [d2' l2'].
    cbn [fst snd] in *. subst d2'. by apply alike_result, Discard_alike.
Qed.

Lemma attempt_alike garbage n before from l l' : alike l l' -> alike_results (attempt garbage n before from l) (attempt garbage n before from l').
Proof.
  revert before from l l'. induction n as [|n IH]; intros before from l l' Hl; destruct from as [|f rest]; cbn [attempt]; [by apply alike_result|constructor|by apply alike_result|].
  destruct (_ =? 1).
  - destruct (RecoverPacket garbage f) as [[[s pkt]|]|]; cbn [mbind option_bind]; [|by apply IH|constructor]. apply IH. by apply Discard_alike, sort_alike, alike_snoc.
  - destruct (_ =? 0); by apply IH.
Qed.

Lemma AttemptRecovery_alike garbage d l l' : alike l l' -> alike_results (AttemptRecovery garbage d l) (AttemptRecovery garbage d l').
Proof.
  intros Hl. unfold AttemptRecovery. cbv zeta. set (n := (_ * _)%nat). destruct (attempt_alike garbage n [] (received_fec_packets_ d) l l' Hl) as [[fecs l2] [fecs' l2'] [H1 H2]|];
    cbn [mbind option_bind]; [|constructor]. cbn [fst snd] in *. subst fecs'. by apply alike_result.
Qed.

#[export] Instance DecodeFec_alike garbage d r : Proper (alike ==> alike_results) (DecodeFec garbage d r).
Proof.
  intros l l' Hl. unfold DecodeFec. rewrite <- (Forall2_length Hl).
  set (reset := if _ =? kMaxMediaPackets then _ else (d, l)). set (reset' := if _ =? kMaxMediaPackets then _ else (d, l')).
  assert (Hreset : fst reset = fst reset' /\ alike (snd reset) (snd reset')).
  { unfold reset, reset'. destruct (_ =? kMaxMediaPackets); [|done]. pose proof (Forall2_last _ _ _ Hl) as Hlast. inversion Hlast as [x x' Hx Ex Ex'|Ex Ex']; [|done].
    destruct Hx as (Hx1 & Hx2 & _). rewrite Hx1, Hx2. destruct (_ && _); [|done]. by split; [|constructor]. }
  clearbody reset reset'. destruct reset as [d1 l1], reset' as [d1' l1']. cbn [fst snd] in Hreset. destruct Hreset as [<- Hl1].
  destruct (InsertPacket_alike d1 l1 l1' r Hl1) as [[d2 l2] [d2' l2'] [H1 H2]|]; cbn [mbind option_bind]; [|constructor]. cbn [fst snd] in *. subst d2'. by apply AttemptRecovery_alike.
Qed.

(** ** What is in the list *)

Section members.
Context (garbage : Z) (P : RecoveredPacket -> Prop).
Hypothesis recovered_member : forall ssrc s pkt, P (mkRecovered ssrc s true false pkt).

Lemma attempt_Forall n before from l fecs l' : Forall P l -> attempt garbage n before from l = Some (fecs, l') -> Forall P l'.
Proof.
  revert before from l. induction n as [|n IH]; intros before from l Hl; destruct from as [|f rest]; cbn [attempt]; try done; [by intros [= _ <-]|by intros [= _ <-]|].
  destruct (_ =? 1); [|by destruct (_ =? 0); apply IH]. destruct (RecoverPacket garbage f) as [[[s pkt]|]|]; cbn [mbind option_bind]; [|by apply IH|done].
  apply IH. apply Discard_Forall, sort_Forall, list.Forall_app. split; [done|]. by constructor.
Qed.

Lemma DecodeFec_Forall d r l d' l' : (is_fec r = false -> P (mkRecovered (rcv_ssrc r) (rcv_seq_num r) false true (rcv_pkt r))) -> Forall P l ->
  DecodeFec garbage d r l = Some (d', l') -> Forall P l'.
Proof.
  intros Hr Hl. unfold DecodeFec. set (reset := if _ =? kMaxMediaPackets then _ else (d, l)).
  assert (Hreset : Forall P (snd reset)).
  { unfold reset. destruct (_ =? kMaxMediaPackets); [|done]. destruct (list.last l); [|done]. destruct (_ && _); [|done]. cbn. constructor. }
  clearbody reset. destruct reset as [d1 l1]. cbn [snd] in Hreset. unfold InsertPacket. set (d2 := match received_fec_packets_ d1 with _ :: _ => _ | [] => d1 end).
  assert (Hins : forall d3 l3, (if is_fec r then d ← InsertFecPacket d2 l1 r; Some (d, l1) else Some (InsertMediaPacket d2 l1 r)) = Some (d3, l3) -> Forall P l3).
  { intros d3 l3. destruct (is_fec r) eqn:Ef.
    - destruct (InsertFecPacket d2 l1 r); cbn [mbind option_bind]; [|done]. by intros [= _ <-].
    - unfold InsertMediaPacket. destruct (existsb _ _); [by intros [= _ <-]|]. intros [= _ <-]. apply sort_Forall, list.Forall_app. split; [done|].
      apply list.Forall_cons. split; [by apply Hr|constructor]. }
  destruct (if is_fec r then _ else _) as [[d3 l3]|]; cbn [mbind option_bind]; [|done]. specialize (Hins d3 l3 eq_refl). unfold AttemptRecovery. cbv zeta.
  match goal with |- context [attempt garbage ?n ?b ?f ?l] => destruct (attempt garbage n b f l) as [[fecs l4]|] eqn:E end; cbn [mbind option_bind]; [|done].
  intros [= _ <-]. eapply attempt_Forall; [|exact E]. by apply Discard_Forall.
Qed.
End members.

(** ** One packet at a time *)

(** A packet with the time when it comes *)
Definition Arrival : Type := Z * RTPHeader * list Z.

Section receive.
Context (garbage fec_pt : Z).

(** Every RED packet is processed when it has been added. *)
Definition receive (st : UlpfecReceiverImpl) (a : Arrival) : option (list Packet * UlpfecReceiverImpl) :=
  let '(now, header, d) := a in
  added ← AddReceivedRedPacket now st header d (zlen d) fec_pt;
  ProcessReceivedFec garbage (snd added).

Fixpoint receive_all (st : UlpfecReceiverImpl) (l : list Arrival) : option (list Packet * UlpfecReceiverImpl) :=
  match l with
  | [] => Some ([], st)
  | a :: l => '(handed, st) ← receive st a; '(more, st) ← receive_all st l; Some (handed ++ more, st)
  end.

(** The packet comes as [r]. *)
Definition comes_as (ssrc : Z) (a : Arrival) (r : ReceivedPacket) : Prop :=
  let '(now, header, d) := a in
  forall st, recv_ssrc st = ssrc -> exists fec, AddReceivedRedPacket now st header d (zlen d) fec_pt = Some (0, accepted now st fec [r]).

Lemma set_returned_alike l : alike (map set_returned l) l.
Proof. induction l as [|x l IH]; cbn [map]; [constructor|]. by apply alike_cons. Qed.

Lemma not_returned_elem r l : r ∈ l -> returned r = false -> rec_pkt r ∈ not_returned l.
Proof.
  intros Hr Hf. unfold not_returned. change (@map RecoveredPacket Packet) with (@fmap list list_fmap RecoveredPacket Packet). apply list_elem_of_fmap_2. by apply list_elem_of_filter.
Qed.

Lemma elem_not_returned p l : p ∈ not_returned l -> exists r, r ∈ l /\ rec_pkt r = p.
Proof.
  unfold not_returned. change (@map RecoveredPacket Packet) with (@fmap list list_fmap RecoveredPacket Packet). intros (r & -> & Hr)%list_elem_of_fmap.
  apply list_elem_of_filter in Hr as [_ Hr]. by exists r.
Qed.

(** What one packet does, if the decoder takes it *)
Lemma receive_step ssrc st a r d l : recv_ssrc st = ssrc -> received_packets_ st = [] -> comes_as ssrc a r -> DecodeFec garbage (fec_ st) r (recovered_packets_ st) = Some (d, l) ->
  exists st', receive st a = Some ((if is_fec r then [] else [rcv_pkt r]) ++ not_returned l, st') /\
    recv_ssrc st' = ssrc /\ received_packets_ st' = [] /\ fec_ st' = d /\ recovered_packets_ st' = map set_returned l.
Proof.
  intros Hs Hq Ha Hd. destruct a as [[now header] bytes]. cbn [comes_as] in Ha. destruct (Ha st Hs) as [fec E]. unfold receive. rewrite E. cbn [mbind option_bind snd].
  unfold ProcessReceivedFec. change (received_packets_ (accepted now st fec [r])) with (received_packets_ st ++ [r]). rewrite Hq. cbn [app process_received].
  change (fec_ (accepted now st fec [r])) with (fec_ st). change (recovered_packets_ (accepted now st fec [r])) with (recovered_packets_ st). rewrite Hd. cbn [mbind option_bind].
  eexists. split; [reflexivity|]. by split.
Qed.

Lemma receive_all_app st l1 l2 handed1 st1 : receive_all st l1 = Some (handed1, st1) ->
  receive_all st (l1 ++ l2) = '(handed2, st2) ← receive_all st1 l2; Some (handed1 ++ handed2, st2).
Proof.
  revert st handed1. induction l1 as [|a l1 IH]; intros st handed1; cbn [receive_all app].
  - intros [= <- <-]. by destruct (receive_all st l2) as [[handed2 st2]|].
  - destruct (receive st a) as [[h st0]|]; cbn [mbind option_bind]; [|done]. destruct (receive_all st0 l1) as [[h1 st1']|] eqn:E; cbn [mbind option_bind]; [|done].
    intros [= <- <-]. rewrite (IH st0 h1 E). destruct (receive_all st1' l2) as [[h2 st2]|]; cbn [mbind option_bind]; [|done]. by rewrite app_assoc.
Qed.
End receive.

(** ** A stream *)

Section stream.
Context (garbage fec_pt ssrc : Z) (sent : Z -> option Packet).
Hypothesis sent_genuine : forall k p, sent k = Some p -> genuine ssrc p /\ number p = k.

(** The receiver between two packets, when [handed] has been handed over *)
Record ready (handed : list Packet) (st : UlpfecReceiverImpl) : Prop := {
  rd_ssrc : recv_ssrc st = ssrc;
  rd_queue : received_packets_ st = [];
  rd_media : protected_media_ssrc_ (fec_ st) = ssrc;
  rd_good : all_good ssrc sent (received_fec_packets_ (fec_ st)) (recovered_packets_ st);
  rd_handed : Forall (fun r => rec_pkt r ∈ handed) (recovered_packets_ st);
}.

Lemma all_good_marks fecs l : all_good ssrc sent fecs l -> all_good ssrc sent fecs (map set_returned l).
Proof.
  intros [H1 H2 H3]. split; [done| |by rewrite length_map]. apply List.Forall_map. eapply list.Forall_impl; [exact H2|]. by intros r Hr.
Qed.

Lemma receive_ready handed st a r : ready handed st -> comes_as fec_pt ssrc a r -> arrival_good sent r ->
  exists new st', receive garbage fec_pt st a = Some (new, st') /\ ready (handed ++ new) st' /\ Forall (fun p => exists k, sent k = Some p) new /\
    (is_fec r = false -> rcv_pkt r ∈ new) /\
    forall l0 d l, alike (recovered_packets_ st) l0 -> DecodeFec garbage (fec_ st) r l0 = Some (d, l) -> fec_ st' = d /\ alike (recovered_packets_ st') l.
Proof.
  intros [Hs Hq Hm Hg Hh] Ha Hr. destruct (DecodeFec_good ssrc sent sent_genuine garbage (fec_ st) (recovered_packets_ st) r Hm Hg Hr) as (fecs & rec & E & Hg' & _).
  destruct (receive_step garbage fec_pt ssrc st a r _ _ Hs Hq Ha E) as (st' & Er & Hs' & Hq' & Hf' & Hrec'). set (new := (if is_fec r then [] else [rcv_pkt r]) ++ not_returned rec) in *.
  exists new, st'. split; [done|].
  assert (Hown : is_fec r = false -> rcv_pkt r ∈ new) by (intros Ef; unfold new; rewrite Ef; apply list_elem_of_here).
  split_and!; [|..|done|].
  - split; [done|done|by rewrite Hf'|rewrite Hf', Hrec'; by apply all_good_marks|]. rewrite Hrec'. apply List.Forall_map.
    assert (Hflag : Forall (fun r => returned r = true -> rec_pkt r ∈ handed ++ new) rec).
    { eapply (DecodeFec_Forall garbage); [| | |exact E].
      - done.
      - intros Ef _. apply elem_of_app. right. by apply Hown.
      - eapply list.Forall_impl; [exact Hh|]. cbv beta. intros x Hx _. apply elem_of_app. by left. }
    apply list.Forall_forall. intros x Hx. rewrite list.Forall_forall in Hflag. specialize (Hflag x Hx). cbv beta in Hflag. change (rec_pkt (set_returned x)) with (rec_pkt x).
    destruct (returned x) eqn:Ex; [by apply Hflag|]. apply elem_of_app. right. unfold new. apply elem_of_app. right. by apply not_returned_elem.
  - apply list.Forall_app. split.
    + unfold arrival_good in Hr. destruct (is_fec r); [constructor|]. apply list.Forall_cons. split; [by eexists|constructor].
    + apply list.Forall_forall. intros p (x & Hx & <-)%elem_not_returned. pose proof (ag_recovered _ _ _ _ Hg') as Hall. rewrite list.Forall_forall in Hall. exists (rec_seq_num x). by apply Hall.
  - intros l0 d l Hl0 Ed. pose proof (DecodeFec_alike garbage (fec_ st) r _ _ Hl0) as Hal. rewrite E, Ed in Hal. inversion Hal as [x y [H1 H2] Ex Ey|]. cbn [fst snd] in H1, H2.
    rewrite Hf', Hrec'. split; [done|]. by rewrite set_returned_alike.
Qed.

(** All packets: what is handed over was sent, every media packet that comes is handed over,
    and so is every packet that the decoder has recovered at some point. *)
Lemma receive_all_ready handed st arrivals rs : ready handed st -> Forall2 (comes_as fec_pt ssrc) arrivals rs -> Forall (arrival_good sent) rs ->
  exists new st', receive_all garbage fec_pt st arrivals = Some (new, st') /\ ready (handed ++ new) st' /\ Forall (fun p => exists k, sent k = Some p) new /\
    (forall r, r ∈ rs -> is_fec r = false -> rcv_pkt r ∈ new) /\
    forall l0 n d l x, alike (recovered_packets_ st) l0 -> decode_all garbage (fec_ st) l0 (take n rs) = Some (d, l) -> x ∈ l -> rec_pkt x ∈ handed ++ new.
Proof.
  intros Hst Ha. revert handed st Hst. induction Ha as [|a r arrivals rs Har Ha IH]; intros handed st Hst Hgood; cbn [receive_all].
  - exists [], st. rewrite app_nil_r. split_and!; [done|done|constructor|by intros r ?%not_elem_of_nil|]. intros l0 n d l x Hl0 Ed Hx. rewrite take_nil in Ed. injection Ed as <- <-.
    apply list_elem_of_lookup in Hx as [i Hi]. destruct (Forall2_lookup_r _ _ _ _ _ Hl0 Hi) as (y & Hy & _ & _ & Exy). rewrite <- Exy.
    pose proof (rd_handed _ _ Hst) as Hh. rewrite list.Forall_lookup in Hh. by apply (Hh i).
  - apply list.Forall_cons in Hgood as [Hr Hrs]. destruct (receive_ready handed st a r Hst Har Hr) as (new1 & st1 & -> & Hst1 & Hsent1 & Hown & Hdec). cbn [mbind option_bind].
    destruct (IH _ st1 Hst1 Hrs) as (new2 & st2 & -> & Hst2 & Hsent2 & Hmedia & Hall). cbn [mbind option_bind]. exists (new1 ++ new2), st2. rewrite app_assoc.
    split_and!; [done|done|by apply list.Forall_app| |].
    + intros r' Hr' Ef. apply elem_of_app. apply elem_of_cons in Hr' as [->|Hr']; [left; by apply Hown|right; by apply (Hmedia r')].
    + intros l0 n d l x Hl0 Ed Hx. destruct n as [|n].
      * cbn in Ed. injection Ed as <- <-. apply list_elem_of_lookup in Hx as [i Hi]. destruct (Forall2_lookup_r _ _ _ _ _ Hl0 Hi) as (y & Hy & _ & _ & Exy). rewrite <- Exy.
        pose proof (rd_handed _ _ Hst) as Hh. rewrite list.Forall_lookup in Hh. apply elem_of_app. left. apply elem_of_app. left. by apply (Hh i).
      * cbn [take decode_all] in Ed. destruct (DecodeFec garbage (fec_ st) r l0) as [[d1 l1]|] eqn:E1; [|done]. cbn [mbind option_bind fst snd] in Ed.
        destruct (Hdec l0 d1 l1 Hl0 E1) as [<- Hl1]. by apply (Hall l1 n d l x).
Qed.

Lemma new_ready : ready [] (new_UlpfecReceiverImpl ssrc).
Proof. split; [done|done|done| |constructor]. by split. Qed.
End stream.
