(* ===== verification/FecChannel.v ===== *)
(** * Forward error correction: from end to end

    Media packets are sent in RED packets, the FEC packets of [UlpfecGenerator] too.
    [UlpfecReceiverImpl] takes them to the media packets and FEC packets they were made of;
    so one lost media packet of a block comes back. *)

From S2P Require Import Prelude ByteIo Rtcp TransportFeedback FecPacket FecParity FecMasks FecTables FecChoice FecEncode FecRecover FecDecode FecSound FecBlock FecOrder FecLoss RedPacket FecGenerator FecReceiver FecHanded.

Open Scope Z_scope.
Open Scope c_scope.

(** ** Bytes *)

(** The bytes of 8 bits, one by one *)
Lemma byte_cases (P : Z -> bool) : forallb P (seqZ 0 256) = true -> forall b, is_u8 b -> P b = true.
Proof. intros H b Hb. rewrite forallb_forall in H. apply H, list_elem_of_In, elem_of_seqZ. unfold is_u8 in Hb. lia. Qed.

Lemma land_128 b : is_u8 b -> Z.land b 0x80 = b / 128 * 128.
Proof. intros Hb. apply Z.eqb_eq. revert b Hb. by apply (byte_cases (fun b => Z.land b 0x80 =? b / 128 * 128)). Qed.

Lemma land_127 b : Z.land b 0x7f = b mod 128.
Proof. change 0x7f with (Z.ones 7). by rewrite Z.land_ones by lia. Qed.

(** The type of the media packet is restored. *)
Lemma type_restored b red_pt : is_u8 b -> 0 <= red_pt < 128 -> u8 (Z.land (u8 (Z.land b 0x80 + red_pt)) 0x80 + Z.land b 0x7f) = b.
Proof.
  intros Hb Hr. assert (Hu : is_u8 (u8 (Z.land b 0x80 + red_pt))) by (unfold is_u8, u8; apply Z.mod_pos_bound; lia). rewrite (land_128 _ Hu), (land_128 b Hb), land_127.
  unfold is_u8, u8 in *. change (2 ^ 8) with 256 in *. Z.div_mod_to_equations. lia.
Qed.

Lemma typed_u8 header pt j : Forall is_u8 header -> is_u8 (typed_byte header pt j).
Proof. intros Hh. unfold typed_byte. destruct (_ =? 1); [|by apply get0_u8]. unfold is_u8, u8. apply Z.mod_pos_bound. lia. Qed.

(** ** What is sent *)

(** The RED packet of a media packet with a header of [hl] bytes: its header with the type of
    RED, the byte with its own type, its payload *)
Record red_media (p : Packet) (hl red_pt : Z) (d : list Z) : Prop := {
  rm_size : zlen d = fp_length p + 1;
  rm_header : forall j, 0 <= j < hl -> get0 d j = typed_byte (fp_data p) red_pt j;
  rm_type : get0 d hl = Z.land (get0 (fp_data p) 1) 0x7f;
  rm_payload : forall j, hl <= j < fp_length p -> get0 d (j + 1) = get0 (fp_data p) j;
}.

Section red.
Context (ssrc red_pt fec_pt : Z).
Hypothesis Hred_pt : 0 <= red_pt < 128.
Hypothesis Hfec_pt : 0 <= fec_pt < 128.

(** The packet comes with its header parsed: the bytes of the RED packet of [p] *)
Definition carries_media (p : Packet) (a : Arrival) : Prop :=
  let '(now, header, d) := a in
  exists hl, header = mkRTPHeader ssrc hl (number p) /\ kRtpHeaderSize <= hl <= fp_length p /\ red_media p hl red_pt d /\ Z.land (get0 (fp_data p) 1) 0x7f <> fec_pt.

Lemma red_media_bytes p hl d : media_ok p -> 0 <= hl <= fp_length p -> red_media p hl red_pt d -> Forall is_u8 d.
Proof.
  intros [[_ Hu] Hl _] Hhl [H1 H2 H3 H4]. apply Forall_get0. intros i Hi. destruct (decide (i < hl)); [rewrite H2 by lia; by apply typed_u8|].
  destruct (decide (i = hl)) as [->|]; [rewrite H3; apply u8_land; [by apply get0_u8|lia]|]. replace i with (i - 1 + 1) by lia. rewrite H4 by lia. by apply get0_u8.
Qed.

Lemma plain_header d hl : Forall is_u8 d -> 0 <= hl < zlen d -> Z.testbit (get0 d hl) 7 = false -> red_header d hl (zlen d - hl) = Some (Some (1, 0)).
Proof. intros Hu Hhl Hb. rewrite red_header_spec by (done || lia). unfold malformed. by rewrite Hb. Qed.

Lemma media_comes p a : media_ok p -> carries_media p a -> comes_as fec_pt ssrc a (mkReceived ssrc (number p) false p).
Proof.
  intros Hp. destruct a as [[now header] d]. intros (hl & -> & Hhl & Hd & Hpt). pose proof Hp as [[Hz Hu] Hlen H0]. pose proof (red_media_bytes p hl d Hp ltac:(unfold kRtpHeaderSize in *; lia) Hd) as Hdu.
  destruct Hd as [H1 H2 H3 H4]. unfold kRtpHeaderSize, IP_PACKET_SIZE in *. cbn [comes_as]. intros st Hs. exists false.
  assert (E7 : Z.land (get0 d hl) 0x7f = Z.land (get0 (fp_data p) 1) 0x7f) by (rewrite H3, <- Z.land_assoc; done).
  destruct (add_media now st (mkRTPHeader ssrc hl (number p)) d fec_pt) with (red := 1) as (q & Hq & E); cbn [hdr_ssrc headerLength sequenceNumber] in *.
  - done.
  - unfold IP_PACKET_SIZE. lia.
  - lia.
  - apply plain_header; [done|lia|]. rewrite H3, Z.land_spec. by rewrite andb_false_r.
  - lia.
  - by rewrite E7.
  - rewrite E. do 5 f_equal. eapply filled_unique; [exact Hq|]. split; [lia|]. split; [done|]. intros j.
    destruct (Z.leb_spec 0 j) as [Hj|Hj]; cbn [andb].
    + destruct (Z.ltb_spec j (zlen d - 1)) as [Hjn|Hjn]; [|apply H0; lia]. destruct (Z.ltb_spec j hl) as [Hjh|Hjh]; [|rewrite Z.add_comm, H4 by lia; done].
      unfold typed_byte. rewrite E7, !H2 by lia. unfold typed_byte. destruct (Z.eqb_spec j 1) as [->|]; [|done]. cbn [Z.eqb Pos.eqb]. symmetry. apply type_restored; [by apply get0_u8|done].
    + unfold get0, zget. by rewrite (proj2 (Z.ltb_lt j 0)) by lia.
Qed.

Lemma xsum_behind l i : Forall media_ok l -> max_payload l <= i -> xsum (payload_byte i) l = 0.
Proof.
  induction 1 as [|p l Hp Hl IH]; [done|]. unfold max_payload. cbn [fold_right xsum]. fold (max_payload l) (xsum (payload_byte i) l). intros Hi.
  rewrite IH, payload_zero by (done || lia). done.
Qed.

Lemma get0_outside d j : ~ 0 <= j < zlen d -> get0 d j = 0.
Proof. intros Hj. unfold get0. destruct (zget d j) eqn:E; [|done]. apply zget_range in E. lia. Qed.

(** Nothing is behind the end of a FEC packet. *)
Lemma fec_filled base row l f : fec_over base row l f -> Forall media_ok l -> filled f (fp_length f) (get0 (fp_data f)).
Proof.
  intros Hf Hl. pose proof (header_size row (fo_size _ _ _ _ Hf)) as [_ Hhs]. destruct Hf as [[Hz _] Hsz Hlen _ _ _ _ _ _ _ Hpay]. split; [done|]. split; [done|]. intros j.
  pose proof (max_payload_nonneg l). destruct (decide (0 <= j < IP_PACKET_SIZE)) as [Hj|Hj].
  - rewrite (proj2 (Z.leb_le 0 j)) by lia. cbn [andb]. destruct (Z.ltb_spec j (fp_length f)) as [Hjl|Hjl]; [done|].
    replace j with (UlpfecHeaderSize (zlen row) + (j - UlpfecHeaderSize (zlen row))) by lia. rewrite Hpay by lia. apply xsum_behind; [done|lia].
  - rewrite get0_outside by lia. by destruct (_ && _).
Qed.

Lemma land_7f_u8 b : is_u8 b -> is_u8 (Z.land b 0x7f).
Proof. intros Hb. apply u8_land; [done|lia]. Qed.

Lemma red_fec_bytes header hl seq_num f d : Forall is_u8 header -> Forall is_u8 (fp_data f) -> 12 <= hl -> red_fec header hl red_pt fec_pt seq_num (fp_data f) (fp_length f) d -> Forall is_u8 d.
Proof.
  intros Hh Hf Hhl [H1 H2 H3 H4]. apply Forall_get0. intros i Hi. destruct (decide (i < hl)).
  - rewrite H2 by lia. destruct (_ =? 1); [by apply land_7f_u8, typed_u8|]. destruct (_ && _); apply get0_u8; [apply be_bytes_u8|done].
  - destruct (decide (i = hl)) as [->|]; [rewrite H3; unfold is_u8, u8; apply Z.mod_pos_bound; lia|]. replace i with (hl + 1 + (i - hl - 1)) by lia. rewrite H4 by lia. by apply get0_u8.
Qed.

(** The FEC packet in a RED packet behind the header of [last] *)
Lemma fec_comes base row l f last hl now seq_num d : fec_over base row l f -> Forall media_ok l -> genuine ssrc last -> is_u32 ssrc -> kRtpHeaderSize <= hl -> hl + 1 + fp_length f <= IP_PACKET_SIZE ->
  red_fec (fp_data last) hl red_pt fec_pt seq_num (fp_data f) (fp_length f) d -> comes_as fec_pt ssrc (now, mkRTPHeader ssrc hl seq_num, d) (mkReceived ssrc seq_num true f).
Proof.
  intros Hf Hl Hlast Hssrc Hhl Hsize Hd. pose proof (fec_filled _ _ _ _ Hf Hl) as Hfill. destruct Hlast as [[[_ Hlu] _ _] _ _ Hls]. pose proof (fo_buffer _ _ _ _ Hf) as [_ Hfu].
  pose proof (red_fec_bytes (fp_data last) hl seq_num f d Hlu Hfu ltac:(unfold kRtpHeaderSize in Hhl; lia) Hd) as Hdu.
  pose proof (header_size row (fo_size _ _ _ _ Hf)) as [_ Hhs]. pose proof (fo_length _ _ _ _ Hf) as Hlen. pose proof (max_payload_nonneg l) as Hm.
  destruct Hd as [H1 H2 H3 H4]. unfold kRtpHeaderSize, IP_PACKET_SIZE in *. cbn [comes_as]. intros st Hs. exists true.
  assert (Hb : get0 d hl = fec_pt) by (rewrite H3; unfold u8; apply Z.mod_small; lia).
  destruct (add_fec now st (mkRTPHeader ssrc hl seq_num) d fec_pt) with (red := 1) as (q & s & Hq & Es & E); cbn [hdr_ssrc headerLength sequenceNumber] in *.
  - done.
  - unfold IP_PACKET_SIZE. lia.
  - lia.
  - done.
  - apply plain_header; [done|lia|]. rewrite Hb. apply (Z.testbit_false _ 7); [lia|]. rewrite Z.div_small; [done|]. change (2 ^ 7) with 128. lia.
  - lia.
  - rewrite Hb, land_127. apply Z.mod_small. lia.
  - rewrite E. replace (zlen d - hl - 1 =? 0) with false by (symmetry; apply Z.eqb_neq; lia).
    assert (Eq : q = f).
    { eapply filled_unique; [exact Hq|]. replace (zlen d - hl - 1) with (fp_length f) by lia. destruct Hfill as (_ & Hz & Hg). split; [done|]. split; [done|]. intros j. rewrite Hg.
      destruct (Z.leb_spec 0 j), (Z.ltb_spec j (fp_length f)); cbn [andb]; try done. by rewrite H4 by lia. }
    assert (Ess : s = ssrc).
    { assert (Hr : read_bytes d 8 4 = Some (be_bytes 4 ssrc)).
      { apply read_bytes_spec. rewrite zlen_be_bytes. split_and!; [lia|done|lia|]. intros i Hi. rewrite (get0_zget d), (get0_zget (be_bytes 4 ssrc)) by (rewrite ?zlen_be_bytes; lia). f_equal.
        rewrite H2 by lia. rewrite (proj2 (Z.eqb_neq (8 + i) 1)), (proj2 (Z.ltb_ge (8 + i) 4)), andb_false_r by lia. symmetry. by apply Hls. }
      rewrite (read_u32 d 8 ssrc Hdu Hssrc Hr) in Es. by injection Es. }
    by rewrite Eq, Ess.
Qed.
End red.

(** ** One block *)

(** The FEC packet with number [i] of [reds] comes. *)
Definition carries_fec (ssrc hl first_seq_num : Z) (reds : list RedPacket) (i : nat) (a : Arrival) : Prop :=
  exists now r, reds !! i = Some r /\ a = (now, mkRTPHeader ssrc hl (u16 (first_seq_num + Z.of_nat i)), red_data r).

Lemma comes_as_unique fec_pt ssrc a r r' : comes_as fec_pt ssrc a r -> comes_as fec_pt ssrc a r' -> r = r'.
Proof.
  destruct a as [[now header] d]. cbn [comes_as]. intros H H'. destruct (H (new_UlpfecReceiverImpl ssrc) eq_refl) as [fec E], (H' (new_UlpfecReceiverImpl ssrc) eq_refl) as [fec' E'].
  rewrite E in E'. by injection E'.
Qed.

Lemma choose_all {A B} (P : A -> B -> Prop) l : Forall (fun a => exists b, P a b) l -> exists k, Forall2 P l k.
Proof. induction 1 as [|a l [b Hb] Hl [k Hk]]; [exists []; constructor|]. exists (b :: k). by constructor. Qed.

Lemma u16_numbers_NoDup first n : Z.of_nat n <= 65536 -> NoDup (map (fun i => u16 (first + Z.of_nat i)) (seq 0 n)).
Proof.
  intros Hn. apply NoDup_fmap_2_strong; [|apply NoDup_seq]. intros x y Hx%elem_of_seq Hy%elem_of_seq E. apply (u16_inj_near first) in E; lia.
Qed.

Section block.
Context (garbage ssrc red_pt fec_pt first_seq_num hl rate : Z) (t : FecMaskType) (front : Packet) (rest fecs : list Packet) (reds : list RedPacket).
Hypothesis Hred_pt : 0 <= red_pt < 128.
Hypothesis Hfec_pt : 0 <= fec_pt < 128.
Hypothesis Hssrc : is_u32 ssrc.
Hypothesis Hblock : block front rest.
Hypothesis Hgenuine : Forall (genuine ssrc) (front :: rest).
Hypothesis Hrate : 0 <= rate <= 255.
Hypothesis Hsize : Z.of_nat (length (front :: rest)) <= kMaxMediaPackets.
Hypothesis Hcode : EncodeFec (front :: rest) rate 0 false t = Some (0, fecs).
Hypothesis Hfecs : fecs <> [].
Hypothesis Hhl : kRtpHeaderSize <= hl.
Hypothesis Hroom : Forall (fun p => fp_length p + hl + 7 <= IP_PACKET_SIZE) (front :: rest).
Hypothesis Hreds : length reds = length fecs.
Hypothesis Hred : exists last, genuine ssrc last /\ forall i f r, fecs !! i = Some f -> reds !! i = Some r ->
  red_fec (fp_data last) hl red_pt fec_pt (u16 (first_seq_num + Z.of_nat i)) (fp_data f) (fp_length f) (red_data r).
Hypothesis Hnumbers : forall i, (i < length reds)%nat -> u16 (first_seq_num + Z.of_nat i - number front) <= 8191.

Local Abbreviation media := (front :: rest).
Local Abbreviation sent := (sent_in (front :: rest)).

Lemma code_rows : 0 < rate /\ last_place 0 (number front) rest < kMaxMediaPackets /\ exists rows, Forall2 (fec_of front rest) rows fecs /\ Z.of_nat (length fecs) <= kMaxMediaPackets.
Proof.
  pose proof (EncodeFec_outcome front rest rate 0 false t Hblock Hsize Hrate ltac:(cbn [length]; lia)) as H. rewrite Hcode in H.
  pose proof (NumFecPackets_bounds (Z.of_nat (length media)) rate ltac:(cbn [length]; lia) Hrate) as Hnum.
  destruct (Z.eqb_spec rate 0) as [E|E]; [by injection H|]. destruct (Z.leb_spec kMaxMediaPackets (last_place 0 (number front) rest)); [discriminate|].
  destruct H as (rows & fecs' & E' & Hf & _ & Hl). injection E' as <-. split; [lia|]. split; [done|]. exists rows. split; [done|]. lia.
Qed.

Lemma max_payload_le l n : Forall (fun p => payload_len p <= n) l -> 0 <= n -> max_payload l <= n.
Proof. intros Hl Hn. unfold max_payload. induction Hl as [|p l Hp Hl IH]; cbn [fold_right]; lia. Qed.

(** What each packet comes as *)
Definition taken_as (a : Arrival) (r : ReceivedPacket) : Prop :=
  (exists p, p ∈ media /\ carries_media ssrc red_pt fec_pt p a /\ r = mkReceived ssrc (number p) false p) \/
  (exists i f, carries_fec ssrc hl first_seq_num reds i a /\ fecs !! i = Some f /\ r = mkReceived ssrc (u16 (first_seq_num + Z.of_nat i)) true f).

Lemma taken_comes a r : taken_as a r -> comes_as fec_pt ssrc a r.
Proof.
  intros [(p & Hp & Ha & ->)|(i & f & (now & red & Hi & ->) & Hf & ->)].
  - eapply (media_comes ssrc red_pt); [done..| |exact Ha]. pose proof (block_media _ _ Hblock) as Hm. rewrite list.Forall_forall in Hm. by apply Hm.
  - destruct code_rows as (_ & _ & rows & Hrows & _). destruct (Forall2_lookup_r _ _ _ _ _ Hrows Hf) as (row & _ & [Hrow Hover]). destruct Hred as (last & Hlast & Hreds').
    pose proof (selected_media front rest row Hblock) as Hsel. eapply (fec_comes ssrc red_pt fec_pt Hfec_pt); [exact Hover|exact Hsel|exact Hlast|done|done| |by apply Hreds'].
    rewrite (fo_length _ _ _ _ Hover). destruct (header_size row (fo_size _ _ _ _ Hover)) as [_ Hhs].
    assert (Hm : max_payload (selected row (block_placed front rest)) <= IP_PACKET_SIZE - hl - 7 - kRtpHeaderSize); [|unfold kRtpHeaderSize, IP_PACKET_SIZE in *; lia].
    apply list.Forall_cons in Hroom as [Hr1 Hr2]. pose proof (bl_front _ _ Hblock) as [_ Hl1 _]. apply max_payload_le; [|unfold kRtpHeaderSize, IP_PACKET_SIZE in *; lia].
    rewrite <- block_placed_eq. apply Forall_selected. apply list.Forall_cons. split; [unfold payload_len; lia|]. eapply list.Forall_impl; [exact Hr2|]. cbv beta. unfold payload_len. lia.
Qed.

(** One of the packets that can come *)
Definition wire (a : Arrival) : Prop := (exists p, p ∈ media /\ carries_media ssrc red_pt fec_pt p a) \/ exists i, carries_fec ssrc hl first_seq_num reds i a.

Lemma wire_taken a : wire a -> exists r, taken_as a r.
Proof.
  intros [(p & Hp & Ha)|(i & Ha)]; [eexists; left; by exists p|]. destruct Ha as (now & red & Hi & ->). destruct (lookup_lt_is_Some_2 fecs i) as [f Hf]; [apply lookup_lt_Some in Hi; lia|].
  eexists. right. exists i, f. split; [by exists now, red|done].
Qed.

Lemma taken_good a r : taken_as a r -> arrival_good sent r.
Proof.
  destruct code_rows as (_ & Hnear & rows & Hrows & _). intros [(p & Hp & _ & ->)|(i & f & _ & Hf & ->)]; unfold arrival_good; cbn [is_fec rcv_seq_num rcv_pkt].
  - by apply in_stream.
  - destruct (Forall2_lookup_r _ _ _ _ _ Hrows Hf) as (row & _ & Hfec). by eapply fec_of_good.
Qed.

(** The packet [r] that [a] comes as is among those that are decoded. *)
Lemma found arrivals rs (C : Arrival -> Prop) r : Forall2 taken_as arrivals rs -> Exists C arrivals -> (forall a, C a -> taken_as a r) -> r ∈ rs.
Proof.
  intros Hrs Hex HC. apply list.Exists_exists in Hex as (a & Ha & Hc). apply list_elem_of_lookup in Ha as [i Hi]. destruct (Forall2_lookup_l _ _ _ _ _ Hrs Hi) as (r' & Hr' & Ht).
  rewrite (comes_as_unique fec_pt ssrc a r r'); [by eapply list_elem_of_lookup_2|apply taken_comes; by apply HC|by apply taken_comes].
Qed.

Definition fec_numbers : list Z := map (fun i => u16 (first_seq_num + Z.of_nat i)) (seq 0 (length fecs)).

Lemma fec_numbers_lookup i s : fec_numbers !! i = Some s <-> (i < length fecs)%nat /\ s = u16 (first_seq_num + Z.of_nat i).
Proof.
  unfold fec_numbers. change (@map nat Z) with (@fmap list list_fmap nat Z). rewrite list_lookup_fmap. split.
  - intros (k & Hk & ->)%fmap_Some. apply lookup_seq in Hk as [-> Hk]. by split.
  - intros [Hi ->]. by rewrite lookup_seq_lt by done.
Qed.

Lemma taken_arrives a r : taken_as a r -> arrives_of ssrc media fec_numbers fecs r.
Proof.
  intros [(p & Hp & _ & ->)|(i & f & Ha & Hf & ->)]; unfold arrives_of; cbn [is_fec rcv_seq_num rcv_pkt rcv_ssrc]; (split; [done|]); [done|].
  exists i. split; [|done]. apply fec_numbers_lookup. split; [by apply lookup_lt_Some in Hf|done].
Qed.

Lemma block_arrives arrivals lost : Forall wire arrivals -> lost ∈ media ->
  (forall p, p ∈ media -> p <> lost -> Exists (carries_media ssrc red_pt fec_pt p) arrivals) ->
  (forall i, (i < length reds)%nat -> Exists (carries_fec ssrc hl first_seq_num reds i) arrivals) ->
  exists handed st, receive_all garbage fec_pt (new_UlpfecReceiverImpl ssrc) arrivals = Some (handed, st) /\ forall p, p ∈ handed <-> p ∈ media.
Proof.
  intros Hwire Hlost Hmedia Hall. destruct (choose_all taken_as arrivals) as [rs Hrs]; [eapply list.Forall_impl; [exact Hwire|]; apply wire_taken|].
  destruct (receive_all_ready garbage fec_pt ssrc sent) with (handed := @nil Packet) (st := new_UlpfecReceiverImpl ssrc) (arrivals := arrivals) (rs := rs) as (new & st & E & _ & Hsent & Hown & Hrec).
  - intros k p. by apply sent_genuine.
  - apply new_ready.
  - eapply Forall2_impl; [apply taken_comes|exact Hrs].
  - apply list.Forall_lookup_2. intros i r Hr. destruct (Forall2_lookup_r _ _ _ _ _ Hrs Hr) as (a & _ & Ha). by eapply taken_good.
  - exists new, st. split; [exact E|]. assert (Hother : forall p, p ∈ media -> p <> lost -> mkReceived ssrc (number p) false p ∈ rs).
    { intros p Hp Hne. eapply found; [exact Hrs|by apply Hmedia|]. intros a Ha. left. by exists p. }
    intros p. split.
    { intros Hp. rewrite list.Forall_forall in Hsent. destruct (Hsent p Hp) as [k Hk]. by apply sent_in_Some in Hk as [? _]. }
    intros Hp. destruct (decide (number p = number lost)) as [En|En].
    + assert (Ep : p = lost).
      { pose proof (in_stream front rest Hblock p Hp) as H1. pose proof (in_stream front rest Hblock lost Hlost) as H2. unfold from_stream in *. rewrite En in H1. congruence. }
      subst p. destruct code_rows as (Hr0 & Hnear & rows & _ & Hn).
      destruct (lost_packet_recovered garbage ssrc front rest rate 0 false t fec_numbers rs lost Hblock Hgenuine Hnear ltac:(lia) ltac:(cbn [length]; lia)) as (fecs' & E' & H).
      rewrite Hcode in E'. injection E' as <-. destruct H as (n & d & recovered & x & Ed & Hx & _ & <-).
      * unfold fec_numbers. by rewrite length_map, length_seq.
      * apply u16_numbers_NoDup. unfold kMaxMediaPackets in *. lia.
      * apply list.Forall_lookup_2. intros i s [Hi ->]%fec_numbers_lookup. split; [apply u16_range|]. specialize (Hnumbers i ltac:(lia)).
        replace (u16 (u16 (first_seq_num + Z.of_nat i) - number front)) with (u16 (first_seq_num + Z.of_nat i - number front)); [done|]. unfold u16. by rewrite Zminus_mod_idemp_l.
      * apply list.Forall_lookup_2. intros i r Hr. destruct (Forall2_lookup_r _ _ _ _ _ Hrs Hr) as (a & _ & Ha). by eapply taken_arrives.
      * done.
      * intros p Hpm Hne. eexists. split; [by apply Hother|done].
      * intros i s [Hi ->]%fec_numbers_lookup. destruct (lookup_lt_is_Some_2 fecs i Hi) as [f Hf]. exists (mkReceived ssrc (u16 (first_seq_num + Z.of_nat i)) true f).
        split; [|done]. eapply (found _ _ (carries_fec ssrc hl first_seq_num reds i)); [exact Hrs|apply Hall; lia|]. intros a Ha. right. by exists i, f.
      * eapply (Hrec [] n d recovered x); [constructor|exact Ed|exact Hx].
    + exact (Hown _ (Hother p Hp ltac:(congruence)) eq_refl).
Qed.
End block.

(** ** Theorems *)

(** C2. A lost packet comes back: the generator, after any run, holds the code of the media
    packets of a block. These are sent in RED packets, the code is fetched in RED packets
    behind the header of the last media packet, with numbers at most 8191 behind the first
    media packet, and the RED packets have at most 1500 bytes. One media packet is lost;
    the others and the FEC packets come, in any order and any number of times, each
    processed when it comes. Then the receiver, without an access outside of an array, has
    handed over exactly the packets of the block, the lost one included, byte for byte. *)
Theorem protected_block_arrives garbage garbage' ssrc red_pt fec_pt first_seq_num g front rest arrivals lost :
  gen_reachable garbage g -> FecAvailable g = true -> media_packets_ g = front :: rest -> Forall (genuine ssrc) (front :: rest) -> is_u32 ssrc ->
  0 <= red_pt < 128 -> 0 <= fec_pt < 128 -> is_u16 first_seq_num ->
  Forall (fun p => fp_length p + last_media_packet_rtp_header_length_ g + 7 <= 1500) (front :: rest) ->
  exists reds, GetUlpfecPacketsAsRed garbage g red_pt fec_pt first_seq_num = Some (reds, UlpfecGenerator_ResetState g) /\
    ((forall i, (i < length reds)%nat -> u16 (first_seq_num + Z.of_nat i - number front) <= 8191) ->
     Forall (wire ssrc red_pt fec_pt first_seq_num (last_media_packet_rtp_header_length_ g) front rest reds) arrivals -> lost ∈ front :: rest ->
     (forall p, p ∈ front :: rest -> p <> lost -> Exists (carries_media ssrc red_pt fec_pt p) arrivals) ->
     (forall i, (i < length reds)%nat -> Exists (carries_fec ssrc (last_media_packet_rtp_header_length_ g) first_seq_num reds i) arrivals) ->
     exists handed st, receive_all garbage' fec_pt (new_UlpfecReceiverImpl ssrc) arrivals = Some (handed, st) /\ forall p, p ∈ handed <-> p ∈ front :: rest).
Proof.
  intros Hr Hav Hm Hgen Hssrc Hred Hfec Hseq Hroom. pose proof (reachable_ok _ _ Hr) as Hg. destruct (available_last g Hg Hav) as [last Hlast].
  destruct (GetUlpfecPacketsAsRed_ok garbage g red_pt fec_pt first_seq_num last Hg Hlast Hseq) as (reds & E & Hlen & Hreds). exists reds. split; [exact E|].
  intros Hnumbers Hwire Hlost Hmedia Hall. pose proof (go_core _ Hg) as [H1 H2 [H3 _] _ H5 _]. pose proof (H5 last Hlast) as Hhl. rewrite Hm in H1, H2.
  assert (Hne : generated_fec_packets_ g <> []) by (intros E0; unfold FecAvailable in Hav; by rewrite E0 in Hav).
  destruct (go_code _ Hg) as [|Hcode]; [done|]. rewrite Hm in Hcode.
  apply (block_arrives garbage' ssrc red_pt fec_pt first_seq_num (last_media_packet_rtp_header_length_ g) (fec_rate (params_ g)) (fec_mask_type (params_ g)) front rest (generated_fec_packets_ g) reds)
    with (lost := lost); try done; [lia|].
  exists last. split; [|intros i f r Hf Hr'; by apply Hreds]. rewrite Hm in Hlast. apply last_Some_elem_of in Hlast. rewrite list.Forall_forall in Hgen. by apply Hgen.
Qed.

(** ** Example *)

(** The bytes of the RED packet of [p] *)
Definition red_bytes (p : Packet) (hl red_pt : Z) : list Z :=
  map (typed_byte (fp_data p) red_pt) (seqZ 0 hl) ++ [Z.land (get0 (fp_data p) 1) 0x7f] ++ map (get0 (fp_data p)) (seqZ hl (fp_length p - hl)).

Lemma get0_map_from f m n j : 0 <= j < n -> get0 (map f (seqZ m n)) j = f (m + j).
Proof.
  intros Hj. unfold get0, zget. rewrite (proj2 (Z.ltb_ge j 0)) by lia. change (@map Z Z) with (@fmap list list_fmap Z Z). rewrite list_lookup_fmap.
  rewrite (proj2 (lookup_seqZ m n (Z.to_nat j) (m + j))) by lia. done.
Qed.

Lemma red_bytes_media p hl red_pt : 0 <= hl <= fp_length p -> red_media p hl red_pt (red_bytes p hl red_pt).
Proof.
  intros Hhl. assert (Hz : forall f m n, 0 <= n -> zlen (map f (seqZ m n)) = n) by (intros f m n Hn; unfold zlen; rewrite length_map, length_seqZ; lia).
  unfold red_bytes. split.
  - rewrite !zlen_app, !Hz by lia. change (zlen [_]) with 1. lia.
  - intros j Hj. unfold get0 at 1. rewrite zget_app, Hz by lia. rewrite (proj2 (Z.ltb_lt j hl)) by lia. fold (get0 (map (typed_byte (fp_data p) red_pt) (seqZ 0 hl)) j). by rewrite get0_map_from by lia.
  - unfold get0 at 1. rewrite zget_app, Hz by lia. rewrite (proj2 (Z.ltb_ge hl hl)), Z.sub_diag by lia. done.
  - intros j Hj. unfold get0 at 1. rewrite zget_app, Hz by lia. rewrite (proj2 (Z.ltb_ge (j + 1) hl)) by lia. rewrite zget_app. change (zlen [_]) with 1.
    rewrite (proj2 (Z.ltb_ge (j + 1 - hl) 1)) by lia. fold (get0 (map (get0 (fp_data p)) (seqZ hl (fp_length p - hl))) (j + 1 - hl - 1)). rewrite get0_map_from by lia. f_equal. lia.
Qed.

Definition example_params : FecProtectionParams := mkParams 100 1 kFecMaskRandom.

Lemma example_taken m n payload : is_u16 n -> Forall is_u8 payload -> zlen payload <= 1476 ->
  media_ok (example_packet m n payload) /\ Z.testbit (get0 (fp_data (example_packet m n payload)) 1) 7 = m /\ Z.land (get0 (fp_data (example_packet m n payload)) 1) 0x7f = 96.
Proof. intros H1 H2 H3. split; [by destruct (example_genuine m n payload H1 H2 H3)|]. rewrite example_get0 by lia. by destruct m. Qed.

(** The generator with the code of the example: one FEC packet *)
Lemma example_generator : exists g, gen_reachable 0 g /\ FecAvailable g = true /\ media_packets_ g = example_front :: example_rest /\
  last_media_packet_rtp_header_length_ g = 12 /\ length (generated_fec_packets_ g) = 1%nat.
Proof.
  destruct example_block as [Hb Hl]. pose proof (block_media _ _ Hb) as Hm. destruct (proj1 (list.Forall_cons _ _ _) Hm) as [M1 Hm1]. destruct (proj1 (list.Forall_cons _ _ _) Hm1) as [M2 Hm2].
  destruct (proj1 (list.Forall_cons _ _ _) Hm2) as [M3 _].
  pose (g1 := new_UlpfecGenerator <| new_params_ := example_params |> <| min_num_media_packets_ := kMinMediaPackets |>).
  assert (R1 : gen_reachable 0 g1).
  { apply (gr_exec 0 new_UlpfecGenerator (OpParams example_params)); [constructor|cbn; unfold rate_ok; cbn; lia|reflexivity]. }
  assert (Hhead : forall n payload m, kRtpHeaderSize <= 12 <= fp_length (example_packet m n payload)).
  { intros n payload m. cbn [example_packet fp_length]. pose proof (zlen_nonneg payload). unfold kRtpHeaderSize. lia. }
  pose (g2 := g1 <| params_ := example_params |> <| media_packets_ := [example_front] |> <| last_media_packet_rtp_header_length_ := 12 |>).
  assert (Hprefix : block_list [example_front] /\ block_list [example_front; example_packet false 8 [4]]).
  { pose proof (bl_order _ _ Hb) as [D1 _]. split.
    - split; [exact M1|apply list.Forall_nil_2|exact I|cbn [last_place]; lia].
    - split; [exact M1|apply list.Forall_cons_2; [exact M2|apply list.Forall_nil_2]|split; [exact D1|exact I]|]. cbn [last_place].
      pose proof (u16_range (number (example_packet false 8 [4]) - number example_front)) as Hr. unfold is_u16 in Hr. lia. }
  assert (R2 : gen_reachable 0 g2).
  { apply (gr_exec 0 g1 (OpMedia example_front 12) g2 R1); [split; [reflexivity|]; split; [exact M1|]; split; [apply Hhead|exact (proj1 Hprefix)]|].
    cbn [gen_exec]. rewrite (frame_continues g1 example_front 12 eq_refl M1 (Hhead _ _ _) ltac:(reflexivity)); [reflexivity|]. unfold example_front. by rewrite example_get0 by lia. }
  pose (g3 := g2 <| media_packets_ := [example_front; example_packet false 8 [4]] |>).
  assert (R3 : gen_reachable 0 g3).
  { apply (gr_exec 0 g2 (OpMedia (example_packet false 8 [4]) 12) g3 R2); [split; [reflexivity|]; split; [exact M2|]; split; [apply Hhead|exact (proj2 Hprefix)]|].
    cbn [gen_exec]. rewrite (frame_continues g2 (example_packet false 8 [4]) 12 eq_refl M2 (Hhead _ _ _) ltac:(reflexivity)); [reflexivity|]. by rewrite example_get0 by lia. }
  destruct (frame_completes g3 (example_packet true 10 [5; 6]) 12 example_front example_rest (reachable_ok _ _ R3) eq_refl M3 (Hhead _ _ _)) as (g & E & Hav & Hmedia & Hhl & Hpar);
    [reflexivity|reflexivity|exact Hb|by rewrite example_get0 by lia|reflexivity|discriminate|rewrite Hl; reflexivity|].
  exists g. assert (R : gen_reachable 0 g).
  { apply (gr_exec 0 g3 (OpMedia (example_packet true 10 [5; 6]) 12) g R3); [split; [reflexivity|]; split; [exact M3|]; split; [apply Hhead|exact Hb]|]. cbn [gen_exec]. by rewrite E. }
  split_and!; [done..|]. pose proof (reachable_ok _ _ R) as [_ [Hcode|Hcode] _]; [unfold FecAvailable in Hav; by rewrite Hcode in Hav|]. rewrite Hmedia, Hpar in Hcode.
  pose proof (EncodeFec_outcome example_front example_rest 100 0 false kFecMaskRandom Hb ltac:(rewrite example_size; unfold kMaxMediaPackets; lia) ltac:(lia) ltac:(rewrite example_size; lia)) as H.
  rewrite Hl in H. destruct H as (rows & fecs & E' & _ & _ & Hlen). rewrite example_size in Hlen. change (NumFecPackets 3 100) with 1 in Hlen.
  change (fec_rate (params_ g3)) with 100 in Hcode. change (fec_mask_type (params_ g3)) with kFecMaskRandom in Hcode. cbv zeta in Hcode.
  match type of Hcode with EncodeFec ?a ?b ?c ?d ?e = _ => change (EncodeFec (example_front :: example_rest) 100 0 false kFecMaskRandom = Some (0, generated_fec_packets_ g)) in Hcode end.
  rewrite E' in Hcode. injection Hcode as <-. lia.
Qed.

(** Number 8 is lost; the FEC packet comes first. *)
Definition example_media_arrival (p : Packet) : Arrival := (0, mkRTPHeader 7 12 (number p), red_bytes p 12 127).

Lemma example_carries m n payload : carries_media 7 127 125 (example_packet m n payload) (example_media_arrival (example_packet m n payload)).
Proof.
  pose proof (zlen_nonneg payload) as Hz. exists 12. split; [reflexivity|]. split; [cbn [example_packet fp_length]; unfold kRtpHeaderSize; lia|].
  split; [apply red_bytes_media; cbn [example_packet fp_length]; lia|]. rewrite example_get0 by lia. by destruct m.
Qed.

Lemma protected_block_arrives_witness : exists g red, gen_reachable 0 g /\ GetUlpfecPacketsAsRed 0 g 127 125 11 = Some ([red], UlpfecGenerator_ResetState g) /\
  exists handed st, receive_all 0 125 (new_UlpfecReceiverImpl 7)
      [(0, mkRTPHeader 7 12 11, red_data red); example_media_arrival (example_packet true 10 [5; 6]); example_media_arrival example_front] = Some (handed, st) /\
    example_packet false 8 [4] ∈ handed.
Proof.
  destruct example_generator as (g & Hr & Hav & Hm & Hhl & Hlen). destruct example_block as [Hb Hl].
  pose (arrivals := fun red => [(0, mkRTPHeader 7 12 11, red_data red); example_media_arrival (example_packet true 10 [5; 6]); example_media_arrival example_front]).
  assert (Hone : exists red, GetUlpfecPacketsAsRed 0 g 127 125 11 = Some ([red], UlpfecGenerator_ResetState g)).
  { destruct (available_last g (reachable_ok _ _ Hr) Hav) as [last Hlast].
    destruct (GetUlpfecPacketsAsRed_ok 0 g 127 125 11 last (reachable_ok _ _ Hr) Hlast ltac:(unfold is_u16; lia)) as (reds & E & Hlen' & _). rewrite Hlen in Hlen'.
    destruct reds as [|red [|r2 reds]]; cbn [length] in Hlen'; [lia| |lia]. exists red. exact E. }
  destruct Hone as [red E]. exists g, red. split; [exact Hr|]. split; [exact E|].
  destruct (protected_block_arrives 0 0 7 127 125 11 g example_front example_rest (arrivals red) (example_packet false 8 [4]) Hr Hav Hm example_all_genuine
    ltac:(unfold is_u32; lia) ltac:(lia) ltac:(lia) ltac:(unfold is_u16; lia)) as (reds & E' & H).
  - rewrite Hhl. repeat (apply list.Forall_cons_2; [cbn [example_front example_packet fp_length]; unfold zlen; cbn [length]; lia|]). apply list.Forall_nil_2.
  - assert (Ereds : reds = [red]) by (rewrite E in E'; congruence). rewrite Ereds, Hhl in H. destruct H as (handed & st & Er & Hhanded).
    + intros i Hi. cbn [length] in Hi. assert (Ei : i = 0%nat) by lia. rewrite Ei, example_front_number. change (u16 (11 + Z.of_nat 0 - 7)) with 4. lia.
    + apply list.Forall_cons_2; [right; exists 0%nat, 0, red; split; reflexivity|].
      apply list.Forall_cons_2; [left; exists (example_packet true 10 [5; 6]); split; [apply list_elem_of_further, list_elem_of_further, list_elem_of_here|apply example_carries]|].
      apply list.Forall_cons_2; [left; exists example_front; split; [apply list_elem_of_here|apply example_carries]|]. apply list.Forall_nil_2.
    + apply list_elem_of_further, list_elem_of_here.
    + intros p Hp Hne. destruct (elem_of_three _ _ _ _ Hp) as [E1|[E1|E1]]; [|exact (False_ind _ (Hne E1))|]; rewrite E1.
      * apply Exists_cons_tl, Exists_cons_tl, Exists_cons_hd. apply example_carries.
      * apply Exists_cons_tl, Exists_cons_hd. apply example_carries.
    + intros i Hi. cbn [length] in Hi. assert (Ei : i = 0%nat) by lia. rewrite Ei. apply Exists_cons_hd. exists 0, red. split; reflexivity.
    + exists handed, st. split; [exact Er|]. apply Hhanded, list_elem_of_further, list_elem_of_here.
Defined.

(** The generator of the example can be asked for its code. *)
Lemma generator_runs_witness : exists g, FecAvailable g = true /\ EncodeFec (media_packets_ g) (fec_rate (params_ g)) 0 false (fec_mask_type (params_ g)) = Some (0, generated_fec_packets_ g) /\
  exists g', gen_exec 0 g (OpRed 127 125 11) = Some g'.
Proof.
  destruct example_generator as (g & Hr & Hav & _). destruct (generator_runs 0 g Hr) as (H1 & _ & _ & H4). exists g. split; [exact Hav|]. split; [exact (H4 Hav)|].
  apply H1. split; [exact Hav|unfold is_u16; lia].
Defined.
