(* ===== verification/RedSender.v ===== *)
(** * RED packets of media packets

    [RTPSenderVideo::SendVideoPacketAsRedMaybeWithUlpfec] of rtp_sender_video.cc sends a media
    packet in a RED packet and has it protected by [UlpfecGenerator]. What is sent is parsed
    at the other end to the arrivals of FecChannel.v. *)

From S2P Require Import Prelude ByteIo Rtcp CowBuffer RtpExtMap RtpPacket RtpMem RtpLayout RtpBuild RtpRoundtrip.
From S2P Require Import FecPacket FecParity FecRecover RedPacket FecReceiver FecHanded FecGenerator FecChannel.

Open Scope Z_scope.
Open Scope c_scope.

Section sender.
Context `{Alloc}.

(** ** Definitions *)

(** The copy of a packet shares its buffer. *)
Definition RtpPacket_copy (p : RtpPacket.RtpPacket) : RtpPacket.RtpPacket := p <| one_ref_ := false |>.

Definition BuildRedPayload {R} (media_packet : RtpPacket.RtpPacket) : stmt RtpPacket.RtpPacket R unit :=
  let! red_payload := AllocatePayload (kRedForFecHeaderLength + payload_size_ media_packet) in
  match red_payload with
  | None => mem None
  | Some red_payload =>
      WriteAt red_payload [u8 (payload_type_ media_packet)] ;;
      let! media_payload := mem (read_bytes (data media_packet) (payload_offset_ media_packet) (payload_size_ media_packet)) in
      WriteAt (red_payload + kRedForFecHeaderLength) media_payload
  end.

Definition red_copy (media_packet : RtpPacket.RtpPacket) (red_payload_type : Z) : option RtpPacket.RtpPacket :=
  match (BuildRedPayload (R := unit) media_packet ;; SetPayloadType red_payload_type) (RtpPacket_copy media_packet) with
  | Next _ red_packet => Some red_packet
  | _ => None
  end.

(** [RTPSender::AllocateSequenceNumber] on the number of the next packet *)
Definition AllocateSequenceNumber (sequence_number packets_to_send : Z) : Z * Z := (sequence_number, u16 (sequence_number + packets_to_send)).

(** [RTC_CHECK(rtp_packet->Parse(...))] on a copy of the media packet *)
Definition reparse (media_packet : RtpPacket.RtpPacket) (r : RedPacket) : option RtpPacket.RtpPacket :=
  match Parse (R := unit) (red_data r) (RtpPacket_copy media_packet) with
  | Next true rtp_packet => Some rtp_packet
  | _ => None
  end.

(** The FEC packets that are there, with numbers for them *)
Definition fetch_fec (garbage red_payload_type ulpfec_payload_type : Z) (g : UlpfecGenerator) (sequence_number : Z) : option (list RedPacket * UlpfecGenerator * Z) :=
  let num_fec_packets := u16 (NumAvailableFecPackets g) in
  if 0 <? num_fec_packets then
    let '(first_fec_sequence_number, sequence_number) := AllocateSequenceNumber sequence_number num_fec_packets in
    fetched ← GetUlpfecPacketsAsRed garbage g red_payload_type ulpfec_payload_type first_fec_sequence_number;
    let '(fec_packets, g) := (fetched : list RedPacket * UlpfecGenerator) in
    Some (fec_packets, g, sequence_number)
  else Some ([], g, sequence_number).

(** The packets that are given to the network, the generator and the number of the next
    packet. *)
Definition SendVideoPacketAsRedMaybeWithUlpfec (garbage red_payload_type ulpfec_payload_type : Z) (g : UlpfecGenerator) (sequence_number : Z)
    (media_packet : RtpPacket.RtpPacket) (protect_media_packet : bool) : option (list RtpPacket.RtpPacket * UlpfecGenerator * Z) :=
  red_packet ← red_copy media_packet red_payload_type;
  protected ←
    (if 0 <=? ulpfec_payload_type then
       g ← (if protect_media_packet then snd <$> AddRtpPacketAndGenerateFec g (data media_packet) (payload_size_ media_packet) (headers_size media_packet) else Some g);
       fetch_fec garbage red_payload_type ulpfec_payload_type g sequence_number
     else Some ([], g, sequence_number));
  let '(fec_packets, g, sequence_number) := (protected : list RedPacket * UlpfecGenerator * Z) in
  rtp_packets ← mapM (reparse media_packet) fec_packets;
  Some (red_packet :: rtp_packets, g, sequence_number).

(** The members of the header of a received packet that the receiver of RED packets uses *)
Definition GetHeader (p : RtpPacket.RtpPacket) : RTPHeader := mkRTPHeader (RtpPacket.ssrc_ p) (headers_size p) (sequence_number_ p).

(** ** The RED packet of a media packet *)

Lemma red_copy_bytes m red_pt : built m -> padding_size_ m = 0 -> packet_size m + 1 <= capacity m -> 0 <= red_pt < 128 ->
  exists q, red_copy m red_pt = Some q /\ zlen (rtp_bytes q) = packet_size m + 1 /\ Forall is_u8 (rtp_bytes q) /\
    forall j, 0 <= j < packet_size m + 1 -> zget (rtp_bytes q) j =
      if j =? 1 then Some (byte1 (marker_ m) red_pt) else if j <? payload_offset_ m then zget (data m) j else if j =? payload_offset_ m then Some (payload_type_ m) else zget (data m) (j - 1).
Proof.
  intros Hb Hpad Hroom Hpt. pose proof (built_bounds m Hb) as (Hd1 & Hd2 & Hd3 & Hd4). pose proof Hb as [Hwf Hcap Hsz Hps _ Hfh _ _].
  pose proof (fh_pt _ _ _ _ _ _ Hfh) as Hmpt. pose proof (built_byte1 m Hb) as Hbyte1. destruct (byte1_set (marker_ m) (payload_type_ m) red_pt Hmpt Hpt) as (_ & _ & Eset).
  assert (Hsize : packet_size m = payload_offset_ m + payload_size_ m) by (unfold packet_size; lia). destruct Hwf as [Hw Hu].
  assert (Hwp : wp (BuildRedPayload (R := unit) m ;; SetPayloadType red_pt) (RtpPacket_copy m) (fun _ q => zlen (rtp_bytes q) = packet_size m + 1 /\ Forall is_u8 (rtp_bytes q) /\
    forall j, 0 <= j < packet_size m + 1 -> zget (rtp_bytes q) j =
      if j =? 1 then Some (byte1 (marker_ m) red_pt) else if j <? payload_offset_ m then zget (data m) j else if j =? payload_offset_ m then Some (payload_type_ m) else zget (data m) (j - 1))
    (fun _ _ => False)).
  { unfold BuildRedPayload, AllocatePayload, SetPayloadSize, SetPayloadType, RtpPacket_copy, kRedForFecHeaderLength, u64. wp_steps. packet. rewrite !Z.mod_small by lia.
    rewrite (proj2 (Z.ltb_ge _ (payload_offset_ m + 0))) by lia. wp_steps.
    apply SetSize_wp; [by split|packet; lia|]. intros b1 Hb1. pose proof Hb1 as (Hw1 & Hu1 & Hs1 & Hc1 & Hg1). packet. wp_steps. packet.
    rewrite Z.mod_small by lia. rewrite (proj2 (Z.ltb_ge _ (payload_offset_ m + (1 + payload_size_ m)))) by lia. wp_steps.
    apply SetSize_wp; [by split|packet; lia|]. intros b2 Hb2. pose proof Hb2 as (Hw2 & Hu2 & Hs2 & Hc2 & Hg2). packet. wp_steps. packet.
    apply WriteAt_wp; [by split|apply one_u8|lia|packet; rewrite zlen_1; lia|]. intros b3 Hb3. pose proof Hb3 as (Hw3 & Hu3 & Hs3 & Hc3 & Hg3). packet. wp_steps.
    pose proof (read_bytes_Some (data_ (buffer_ m)) (payload_offset_ m) (payload_size_ m) ltac:(lia) Hps ltac:(unfold capacity_ in *; lia)) as Hread.
    eapply wp_mem; [exact Hread|]. set (bs := take _ _) in *. pose proof (proj1 (read_bytes_spec _ _ _ _) Hread) as (_ & Hlbs & _ & Hgbs). wp_steps. packet.
    apply WriteAt_wp; [by split|eapply read_bytes_Forall; [exact Hu|exact Hread]|lia|packet; lia|]. intros b4 Hb4. pose proof Hb4 as (Hw4 & Hu4 & Hs4 & Hc4 & Hg4). packet. wp_steps.
    assert (Hg : forall j, 0 <= j < packet_size m + 1 -> zget (data_ b4) j =
      if j <? payload_offset_ m then zget (data_ (buffer_ m)) j else if j =? payload_offset_ m then Some (payload_type_ m) else zget (data_ (buffer_ m)) (j - 1)).
    { intros j Hj. destruct (Z.ltb_spec j (payload_offset_ m)) as [Hjo|Hjo].
      - rewrite (wrote_out _ _ _ _ _ j Hb4), (wrote_out _ _ _ _ _ j Hb3), Hg2, Hg1; [done|cbn; lia|lia|cbn [solid]; lia|lia|cbn [solid]; lia|lia].
      - destruct (Z.eqb_spec j (payload_offset_ m)) as [->|Hne].
        + rewrite (wrote_out _ _ _ _ _ _ Hb4) by (cbn [solid]; lia). rewrite (wrote_byte _ _ _ _ _ Hb3). by rewrite u8_id by (unfold is_u8; lia).
        + rewrite (wrote_in _ _ _ _ _ j Hb4), Hgbs by lia. f_equal. lia. }
    apply rd_wp; [by split|packet; lia|]. intros v _ Hv. packet. rewrite Hg in Hv by lia. rewrite (proj2 (Z.ltb_lt 1 _)), Hbyte1 in Hv by lia. injection Hv as <-.
    apply WriteAt_wp; [by split|apply one_u8|lia|packet; rewrite zlen_1; lia|]. intros b5 Hb5. pose proof Hb5 as (Hw5 & Hu5 & Hs5 & Hc5 & Hg5). packet. rewrite Eset in Hb5.
    split; [rewrite zlen_content by done; lia|]. split; [by apply content_u8|]. intros j Hj. rewrite zget_content by (done || lia).
    destruct (Z.eqb_spec j 1) as [->|Hj1]; [by apply (wrote_byte _ _ _ _ _ Hb5)|]. rewrite (wrote_out _ _ _ _ _ j Hb5); [by apply Hg|cbn [solid]; lia|rewrite zlen_1; lia]. }
  destruct (wp_run _ _ _ Hwp) as ([] & q & E & Hq). exists q. unfold red_copy. by rewrite E.
Qed.

(** ** Parsing *)

(** The bytes parse as a packet of [ssrc] with number [seq] and a header of [hl] bytes. *)
Definition parses_as (d : list Z) (ssrc hl seq : Z) : Prop :=
  forall q, wf_packet q -> exists q', Parse (R := unit) d q = Next true q' /\ RtpPacket.ssrc_ q' = ssrc /\ payload_offset_ q' = hl /\ sequence_number_ q' = seq /\
    rtp_bytes q' = d /\ wf_packet q'.

(** A packet with the first byte, the extensions and the source of [m] and no padding *)
Lemma like_parses m d marker pt seq : built m -> padding_size_ m = 0 -> Forall is_u8 d -> payload_offset_ m <= zlen d <= 4000 ->
  zget d 0 = zget (data m) 0 -> agree 12 (payload_offset_ m) (data m) d -> fixed_header d marker pt seq (timestamp_ m) (RtpPacket.ssrc_ m) ->
  parses_as d (RtpPacket.ssrc_ m) (payload_offset_ m) seq.
Proof.
  intros Hb Hpad Hu Hlen H0 Ha Hfh. pose proof (built_bounds m Hb) as (Hd1 & _). destruct Hb as [Hwf Hcap Hsz Hps _ _ (cc & Hcc & Hb0 & Hext) _].
  set (b := mkBuffer (zlen d) (d ++ replicate (Z.to_nat (4000 - zlen d)) 0)).
  assert (Hz : zlen (data_ b) = 4000) by (cbn [b data_]; rewrite zlen_app, zlen_replicate; lia).
  assert (Hag : agree 0 (zlen d) d (data_ b)).
  { intros j Hj. cbn [b data_]. rewrite zget_app. by rewrite (proj2 (Z.ltb_lt j (zlen d))) by lia. }
  assert (Hd : rtp_bytes (m <| buffer_ := b |>) = d).
  { unfold rtp_bytes, content. cbn [b set buffer_ size_ data_]. rewrite take_app_le by (unfold zlen; lia). apply take_ge. unfold zlen. lia. }
  set (q := m <| marker_ := marker |> <| payload_type_ := pt |> <| sequence_number_ := seq |> <| payload_size_ := zlen d - payload_offset_ m |> <| buffer_ := b |>).
  assert (Hq : built q).
  { split; unfold q, packet_size; packet; rewrite ?Hpad.
    - split; [unfold wf_buffer, capacity_; packet; rewrite Hz; cbn [b size_]; pose proof (zlen_nonneg d); lia|]. apply list.Forall_app. split; [done|]. apply zeros_u8.
    - unfold capacity_. rewrite Hz. unfold kFixedHeaderSize. lia.
    - cbn [b size_]. lia.
    - lia.
    - unfold is_u8. lia.
    - eapply fixed_header_agree; [|lia|exact Hfh]. eapply agree_weaken; [..|exact Hag]; lia.
    - rewrite Hpad in Hb0. exists cc. split; [done|]. split; [rewrite Hag by lia; congruence|]. eapply extensions_at_agree; [|lia|exact Hext].
      eapply agree_trans; [eapply agree_weaken; [..|exact Ha]; lia|]. eapply agree_weaken; [..|exact Hag]; lia.
    - lia. }
  intros q0 Hq0. destruct (built_parsed q q0 Hq Hq0) as (q' & E & (_ & _ & S3 & _ & S5 & S6 & _ & _ & _ & S10) & _ & Hwf').
  assert (Ed : rtp_bytes q = d) by exact Hd. rewrite Ed in E, S10. exists q'. by split_and!.
Qed.

(** ** Media packets *)

(** The packet as the FEC code has it *)
Definition media_of (m : RtpPacket.RtpPacket) : Packet := mkFp (packet_size m) (rtp_bytes m ++ replicate (Z.to_nat (IP_PACKET_SIZE - packet_size m)) 0).

Section media.
Context (m : RtpPacket.RtpPacket).
Hypothesis Hb : built m.
Hypothesis Hsize : packet_size m <= 1488.

Lemma media_of_get0 j : get0 (fp_data (media_of m)) j = if (0 <=? j) && (j <? packet_size m) then get0 (data m) j else 0.
Proof.
  destruct (sent_bytes m Hb) as (_ & Hz & Ha). unfold media_of. cbn [fp_data]. unfold get0. rewrite zget_app, Hz.
  destruct (Z.leb_spec 0 j) as [Hj|Hj]; cbn [andb].
  - destruct (Z.ltb_spec j (packet_size m)) as [Hjn|Hjn]; [by rewrite Ha by lia|]. unfold zget. rewrite (proj2 (Z.ltb_ge _ 0)) by lia. destruct (_ !! _) eqn:E; [|done].
    by apply lookup_replicate_1 in E as [-> _].
  - pose proof (built_bounds m Hb). rewrite (proj2 (Z.ltb_lt j _)) by lia. unfold zget. by rewrite (proj2 (Z.ltb_lt j 0)) by lia.
Qed.

Lemma media_of_ok : media_ok (media_of m).
Proof.
  destruct (sent_bytes m Hb) as (Hu & Hz & Ha). pose proof (built_bounds m Hb) as (Hd1 & Hd2 & _). split.
  - split; cbn [media_of fp_data]; [rewrite zlen_app, zlen_replicate, Hz; unfold IP_PACKET_SIZE; lia|]. apply list.Forall_app. split; [done|apply zeros_u8].
  - cbn [media_of fp_length]. unfold kRtpHeaderSize, IP_PACKET_SIZE. lia.
  - intros i Hi. rewrite media_of_get0. cbn [media_of fp_length] in Hi. by rewrite (proj2 (Z.ltb_ge i _)), andb_false_r by lia.
Qed.

Lemma media_packet_bytes : packet_bytes (media_of m) = rtp_bytes m.
Proof.
  destruct (sent_bytes m Hb) as (_ & Hz & _). unfold packet_bytes. cbn [media_of fp_length fp_data]. rewrite take_app_le by (unfold zlen in Hz; lia). apply take_ge. unfold zlen in Hz. lia.
Qed.

Lemma media_of_byte j : 0 <= j < packet_size m -> get0 (fp_data (media_of m)) j = get0 (data m) j.
Proof. intros Hj. rewrite media_of_get0. by rewrite (proj2 (Z.leb_le 0 j)), (proj2 (Z.ltb_lt j _)) by lia. Qed.

Lemma header_bytes off n bs j : read_bytes (data m) off n = Some bs -> 0 <= j < n -> off + n <= 12 -> get0 (fp_data (media_of m)) (off + j) = get0 bs j.
Proof.
  intros Hr Hj Hn. pose proof (built_bounds m Hb) as (Hd1 & Hd2 & _). pose proof Hr as (Ho & _)%read_bytes_spec. rewrite media_of_byte by lia. unfold get0.
  by rewrite (read_bytes_get _ _ _ _ j Hr Hj).
Qed.

Lemma media_of_number : number (media_of m) = sequence_number_ m.
Proof.
  pose proof (bu_header m Hb) as [_ Hs _ _ _ Hr _ _]. unfold number. change 3 with (2 + 1). replace 2 with (2 + 0) at 1 by lia. rewrite (header_bytes 2 2 _ 0 Hr), (header_bytes 2 2 _ 1 Hr) by lia.
  unfold is_u16 in Hs. change (get0 (be_bytes 2 (sequence_number_ m)) 0) with (u8 (Z.shiftr (sequence_number_ m) 8)). change (get0 (be_bytes 2 (sequence_number_ m)) 1) with (u8 (Z.shiftr (sequence_number_ m) 0)).
  rewrite Z.shiftr_div_pow2, Z.shiftr_0_r by lia. unfold u8. change (2 ^ 8) with 256. Z.div_mod_to_equations. lia.
Qed.

Lemma media_of_byte1 : get0 (fp_data (media_of m)) 1 = byte1 (marker_ m) (payload_type_ m).
Proof. pose proof (built_bounds m Hb) as (Hd1 & Hd2 & _). rewrite media_of_byte by lia. unfold get0. by rewrite (built_byte1 m Hb). Qed.

Lemma media_of_genuine : genuine (RtpPacket.ssrc_ m) (media_of m).
Proof.
  pose proof (built_bounds m Hb) as (Hd1 & Hd2 & _). destruct (bu_bytes m Hb) as (cc & Hcc & H0 & _). pose proof (bu_header m Hb) as [_ _ _ _ _ _ _ Hr].
  assert (E0 : get0 (fp_data (media_of m)) 0 = byte0 (0 <? padding_size_ m) (0 <? extensions_size_ m) cc) by (rewrite media_of_byte by lia; unfold get0; by rewrite H0).
  destruct (byte0_facts (0 <? padding_size_ m) (0 <? extensions_size_ m) cc Hcc) as (_ & Hv & _). split; [apply media_of_ok|..].
  - rewrite E0. change 7 with (1 + 6). rewrite <- Z.shiftr_spec, Hv by lia. done.
  - rewrite E0. change 6 with (0 + 6). rewrite <- Z.shiftr_spec, Hv by lia. done.
  - intros j Hj. by apply (header_bytes 8 4).
Qed.
End media.

Lemma typed_byte1 marker pt red_pt : 0 <= pt < 128 -> 0 <= red_pt < 128 -> u8 (Z.land (byte1 marker pt) 0x80 + red_pt) = byte1 marker red_pt.
Proof.
  intros Hp Hr. rewrite land_128 by (unfold byte1, is_u8; destruct marker; lia). unfold byte1, u8. change (2 ^ 8) with 256. destruct marker; Z.div_mod_to_equations; lia.
Qed.

Lemma get0_zget_eq d d' j : 0 <= j < zlen d -> 0 <= j < zlen d' -> get0 d j = get0 d' j -> zget d j = zget d' j.
Proof. intros H1 H2 E. by rewrite !get0_zget, E. Qed.

(** The RED packet of a media packet parses, and carries it. *)
Lemma red_copy_sent m red_pt fec_pt : built m -> padding_size_ m = 0 -> packet_size m <= 1488 -> packet_size m + 1 <= capacity m -> 0 <= red_pt < 128 -> payload_type_ m <> fec_pt ->
  exists q, red_copy m red_pt = Some q /\ parses_as (rtp_bytes q) (RtpPacket.ssrc_ m) (payload_offset_ m) (sequence_number_ m) /\
    forall now, carries_media (RtpPacket.ssrc_ m) red_pt fec_pt (media_of m) (now, mkRTPHeader (RtpPacket.ssrc_ m) (payload_offset_ m) (sequence_number_ m), rtp_bytes q).
Proof.
  intros Hb Hpad Hsize Hroom Hpt Hne. destruct (red_copy_bytes m red_pt Hb Hpad Hroom Hpt) as (q & E & Hz & Hu & Hg). exists q. split; [done|].
  pose proof (built_bounds m Hb) as (Hd1 & Hd2 & Hd3 & Hd4). pose proof (bu_header m Hb) as [Hmpt Hs1 Hs2 Hs3 Hb1 Hr2 Hr4 Hr8]. set (d := rtp_bytes q) in *.
  assert (Ha : agree 2 (payload_offset_ m) (data m) d).
  { intros j Hj. rewrite Hg by lia. by rewrite (proj2 (Z.eqb_neq j 1)), (proj2 (Z.ltb_lt j _)) by lia. }
  split.
  - apply (like_parses m d (marker_ m) red_pt); try done; [lia| | |].
    + rewrite Hg by lia. by rewrite (proj2 (Z.ltb_lt 0 _)) by lia.
    + eapply agree_weaken; [..|exact Ha]; lia.
    + split; try done; [rewrite Hg by lia; done|..]; (eapply read_agree; [exact Ha|lia|lia|lia|done]).
  - intros now. exists (payload_offset_ m). split; [by rewrite media_of_number|]. split; [cbn [media_of fp_length]; unfold kRtpHeaderSize; lia|].
    destruct (byte1_facts (marker_ m) (payload_type_ m) Hmpt) as (_ & _ & E7). split; [|by rewrite media_of_byte1, E7 by done].
    assert (Hg0 : forall j, 0 <= j < packet_size m + 1 -> get0 d j =
      if j =? 1 then byte1 (marker_ m) red_pt else if j <? payload_offset_ m then get0 (data m) j else if j =? payload_offset_ m then payload_type_ m else get0 (data m) (j - 1)).
    { intros j Hj. unfold get0. rewrite Hg by done. destruct (j =? 1); [done|]. destruct (j <? _); [done|]. by destruct (j =? _). }
    split; cbn [media_of fp_length] in *.
    + done.
    + intros j Hj. unfold typed_byte. rewrite Hg0 by lia. destruct (Z.eqb_spec j 1) as [->|Hj1]; [by rewrite media_of_byte1, typed_byte1|].
      rewrite (proj2 (Z.ltb_lt j _)) by lia. change (rtp_bytes m ++ _) with (fp_data (media_of m)). by rewrite media_of_byte by (done || lia).
    + rewrite Hg0 by lia. rewrite (proj2 (Z.eqb_neq _ 1)), (proj2 (Z.ltb_ge _ _)), Z.eqb_refl by lia. by rewrite media_of_byte1, E7.
    + intros j Hj. rewrite Hg0 by lia. rewrite (proj2 (Z.eqb_neq _ 1)), (proj2 (Z.ltb_ge _ _)), (proj2 (Z.eqb_neq (j + 1) (payload_offset_ m))) by lia.
      change (rtp_bytes m ++ _) with (fp_data (media_of m)). rewrite media_of_byte by (done || lia). f_equal. lia.
Qed.

(** A FEC packet behind the header of a media packet parses. *)
Lemma red_fec_parses m red_pt fec_pt seq f d : built m -> padding_size_ m = 0 -> packet_size m <= 1488 -> 0 <= red_pt < 128 -> is_u16 seq -> Forall is_u8 (fp_data f) ->
  0 <= fp_length f <= IP_PACKET_SIZE -> red_fec (fp_data (media_of m)) (payload_offset_ m) red_pt fec_pt seq (fp_data f) (fp_length f) d -> parses_as d (RtpPacket.ssrc_ m) (payload_offset_ m) seq.
Proof.
  intros Hb Hpad Hsize Hpt Hseq Hfu Hfl Hd. pose proof (built_bounds m Hb) as (Hd1 & Hd2 & Hd3 & Hd4). pose proof (bu_header m Hb) as [Hmpt Hs1 Hs2 Hs3 Hb1 Hr2 Hr4 Hr8].
  pose proof (media_of_ok m Hb Hsize) as [[_ Hmu] _ _]. pose proof (red_fec_bytes red_pt fec_pt _ _ _ _ _ Hmu Hfu Hd1 Hd) as Hu. destruct Hd as [H1 H2 H3 H4]. unfold IP_PACKET_SIZE in Hfl.
  assert (Hcap : capacity m <= zlen (data m)) by (unfold capacity, capacity_, data; lia).
  assert (Ha : agree 4 (payload_offset_ m) (data m) d).
  { intros j Hj. apply get0_zget_eq; [lia|lia|]. rewrite H2 by lia. rewrite (proj2 (Z.eqb_neq j 1)), (proj2 (Z.ltb_ge j 4)), andb_false_r by lia. apply media_of_byte; [done|lia]. }
  apply (like_parses m d false red_pt); try done; [lia| | |].
  - apply get0_zget_eq; [lia|lia|]. rewrite H2 by lia. apply media_of_byte; [done|lia].
  - eapply agree_weaken; [..|exact Ha]; lia.
  - split; try done.
    + rewrite (get0_zget d 1), H2 by lia. cbn [Z.eqb Pos.eqb]. unfold typed_byte. cbn [Z.eqb Pos.eqb]. rewrite media_of_byte1, typed_byte1 by done.
      destruct (byte1_facts (marker_ m) red_pt Hpt) as (_ & _ & ->). by unfold byte1.
    + apply read_bytes_spec. rewrite zlen_be_bytes. split_and!; [lia|done|lia|]. intros i Hi. rewrite (get0_zget d), (get0_zget (be_bytes 2 seq)) by (rewrite ?zlen_be_bytes; lia). f_equal.
      rewrite H2 by lia. rewrite (proj2 (Z.eqb_neq (2 + i) 1)), (proj2 (Z.leb_le 2 (2 + i))), (proj2 (Z.ltb_lt (2 + i) 4)) by lia. cbn [andb]. f_equal. lia.
    + eapply read_agree; [exact Ha|lia|lia|lia|done].
    + eapply read_agree; [exact Ha|lia|lia|lia|done].
Qed.
End sender.
