(* ===== verification/RedRun.v ===== *)
(** * RED packets: runs of the sender

    Whatever media packets [SendVideoPacketAsRedMaybeWithUlpfec] has sent, the next one is
    sent, the check that its FEC packets parse holds, and the other end parses what the
    receiver of FecReceiver.v takes. *)

From S2P Require Import Prelude ByteIo Rtcp CowBuffer RtpExtMap RtpPacket RtpMem RtpLayout RtpBuild RtpRoundtrip RtpReach.
From S2P Require Import FecPacket FecParity FecMasks FecTables FecChoice FecEncode FecRecover RedPacket FecReceiver FecHanded FecGenerator FecChannel RedSender.

Open Scope Z_scope.
Open Scope c_scope.

Section run.
Context `{Alloc}.
Context (garbage ssrc red_pt fec_pt : Z).
Hypothesis Hred_pt : 0 <= red_pt < 128.
Hypothesis Hfec_pt : 0 <= fec_pt < 128.

(** The media packets of the stream: without padding, with room for the RED header, of at
    most 1488 bytes; when they are protected, their numbers differ along a block. *)
Definition media_allowed (g : UlpfecGenerator) (m : RtpPacket.RtpPacket) (protect : bool) : Prop :=
  reachable m /\ padding_size_ m = 0 /\ packet_size m <= 1488 /\ packet_size m + 1 <= capacity m /\ RtpPacket.ssrc_ m = ssrc /\ payload_type_ m <> fec_pt /\
  (protect = true -> block_list (taken g (media_of m))).

(** The generator between two media packets *)
Inductive sender_reachable : UlpfecGenerator -> Prop :=
  | sr_new : sender_reachable new_UlpfecGenerator
  | sr_params g params : sender_reachable g -> rate_ok params -> sender_reachable (SetFecParameters g params)
  | sr_send g seq m protect out g' seq' : sender_reachable g -> media_allowed g m protect -> is_u16 seq ->
      SendVideoPacketAsRedMaybeWithUlpfec garbage red_pt fec_pt g seq m protect = Some (out, g', seq') -> sender_reachable g'.

(** The last packet of the generator is a packet of the stream. *)
Definition from_media (g : UlpfecGenerator) : Prop := forall last, list.last (media_packets_ g) = Some last ->
  exists m, built m /\ padding_size_ m = 0 /\ packet_size m <= 1488 /\ RtpPacket.ssrc_ m = ssrc /\ last = media_of m /\ last_media_packet_rtp_header_length_ g = payload_offset_ m.

Record sender_ok (g : UlpfecGenerator) : Prop := {
  so_reach : gen_reachable garbage g;
  so_waits : FecAvailable g = false;
  so_media : from_media g;
}.

(** The generator reads the packet in its buffer as if it were alone. *)
Lemma add_in_buffer g m : built m -> packet_size m <= 1488 -> padding_size_ m = 0 ->
  AddRtpPacketAndGenerateFec g (data m) (payload_size_ m) (headers_size m) =
  AddRtpPacketAndGenerateFec g (packet_bytes (media_of m)) (fp_length (media_of m) - headers_size m) (headers_size m).
Proof.
  intros Hb Hsize Hpad. destruct (sent_bytes m Hb) as (_ & Hz & Ha). pose proof (built_bounds m Hb) as (Hd1 & Hd2 & Hd3 & _). pose proof (bu_payload m Hb) as Hps.
  rewrite media_packet_bytes by done. unfold headers_size. cbn [media_of fp_length].
  assert (Hn : packet_size m - payload_offset_ m = payload_size_ m) by (unfold packet_size; lia). rewrite Hn.
  assert (H1 : zget (rtp_bytes m) 1 = zget (data m) 1) by (apply Ha; lia).
  assert (Hcopy : media_copy (data m) (u64 (payload_size_ m + payload_offset_ m)) = media_copy (rtp_bytes m) (u64 (payload_size_ m + payload_offset_ m))).
  { replace (u64 (payload_size_ m + payload_offset_ m)) with (packet_size m) by (unfold u64; rewrite Z.mod_small; unfold packet_size in *; lia).
    assert (Hcap : packet_size m <= zlen (data m)) by (unfold capacity, capacity_, data in *; lia).
    unfold media_copy, copy_bytes. pose proof (read_bytes_Some (data m) 0 (packet_size m) ltac:(lia) ltac:(lia) ltac:(lia)) as Hr.
    rewrite Hr, (read_agree 0 (packet_size m) (data m) (rtp_bytes m) 0 (packet_size m) _ Ha ltac:(lia) ltac:(lia) ltac:(lia) Hr). done. }
  unfold AddRtpPacketAndGenerateFec. by rewrite H1, Hcopy.
Qed.

(** The generator after a media packet *)
Lemma add_media_packet g m (protect : bool) : sender_ok g -> media_allowed g m protect ->
  exists g1, (if protect then gen_exec garbage g (OpMedia (media_of m) (headers_size m)) else Some g) = Some g1 /\
    (if protect then snd <$> AddRtpPacketAndGenerateFec g (data m) (payload_size_ m) (headers_size m) else Some g) = Some g1 /\
    gen_reachable garbage g1 /\ gen_ok g1 /\ from_media g1.
Proof.
  intros [Hr Hw Hm] (Hmr & Hpad & Hsize & Hroom & Hs & Hpt & Hblock). destruct (reachable_built m Hmr) as [Hb _]. pose proof (reachable_ok _ _ Hr) as Hg.
  destruct protect; [|by exists g].
  pose proof (built_bounds m Hb) as (Hd1 & Hd2 & _). pose proof (media_of_ok m Hb Hsize) as Hok.
  assert (Hhl : kRtpHeaderSize <= headers_size m <= fp_length (media_of m)) by (unfold headers_size, kRtpHeaderSize; cbn [media_of fp_length]; lia).
  assert (Hgen : generated_fec_packets_ g = []) by (rewrite FecAvailable_code in Hw; by apply negb_false_iff, bool_decide_eq_true_1 in Hw).
  destruct (AddRtpPacket_ok g (media_of m) (headers_size m) Hg Hgen Hok Hhl (Hblock eq_refl)) as (ret & g1 & E & Hg1 & Hmedia). exists g1. rewrite (add_in_buffer g m Hb Hsize Hpad). cbn [gen_exec]. rewrite E.
  split; [done|]. split; [done|]. split.
  - apply (gr_exec garbage g (OpMedia (media_of m) (headers_size m))); [done|by split_and!; [..|apply Hblock]|cbn [gen_exec]; by rewrite E].
  - split; [done|]. intros last Hlast. destruct Hmedia as [Hnil|[Ht Hh]]; [by rewrite Hnil in Hlast|]. rewrite Ht in Hlast. rewrite Hh. unfold taken, taken_header in *.
    destruct (_ <? kUlpfecMaxMediaPackets); [|by apply Hm]. rewrite last_snoc in Hlast. injection Hlast as <-. by exists m.
Qed.

Lemma reparse_all m reds hl first : built m -> (forall i r, reds !! i = Some r -> parses_as (red_data r) ssrc hl (u16 (first + Z.of_nat i))) ->
  exists fecs, mapM (reparse m) reds = Some fecs /\ Forall2 (fun r p => rtp_bytes p = red_data r) reds fecs.
Proof.
  intros Hb Hp. assert (Hall : Forall (fun r => exists p, reparse m r = Some p /\ rtp_bytes p = red_data r) reds).
  { apply list.Forall_lookup_2. intros i r Hi. destruct (Hp i r Hi (RtpPacket_copy m)) as (p & E & _ & _ & _ & Hd & _); [apply (bu_wf m Hb)|]. exists p. unfold reparse. by rewrite E. }
  clear Hp. induction Hall as [|r reds (p & E & Hd) Hall (fecs & IH & Hf)]; [by exists []|]. exists (p :: fecs). cbn. rewrite E. cbn [mbind option_bind]. rewrite IH. cbn [mbind option_bind]. by split; [|constructor].
Qed.

Lemma sender_step g seq m protect : sender_ok g -> media_allowed g m protect -> is_u16 seq ->
  exists red fecs g' g1 reds, SendVideoPacketAsRedMaybeWithUlpfec garbage red_pt fec_pt g seq m protect = Some (red :: fecs, g', u16 (seq + Z.of_nat (length reds))) /\ sender_ok g' /\
    parses_as (rtp_bytes red) ssrc (headers_size m) (sequence_number_ m) /\
    (forall now, carries_media ssrc red_pt fec_pt (media_of m) (now, mkRTPHeader ssrc (headers_size m) (sequence_number_ m), rtp_bytes red)) /\
    gen_reachable garbage g1 /\ (if protect then gen_exec garbage g (OpMedia (media_of m) (headers_size m)) else Some g) = Some g1 /\
    (if FecAvailable g1 then GetUlpfecPacketsAsRed garbage g1 red_pt fec_pt seq = Some (reds, g') else reds = [] /\ g' = g1) /\
    Forall2 (fun r p => rtp_bytes p = red_data r) reds fecs /\
    (forall i r, reds !! i = Some r -> parses_as (red_data r) ssrc (last_media_packet_rtp_header_length_ g1) (u16 (seq + Z.of_nat i))).
Proof.
  intros Hok Hm Hseq. destruct (add_media_packet g m protect Hok Hm) as (g1 & E1 & E1' & Hr1 & Hg1 & Hfm1).
  destruct Hm as (Hmr & Hpad & Hsize & Hroom & Hs & Hpt & _). destruct (reachable_built m Hmr) as [Hb _]. destruct (red_copy_sent m red_pt fec_pt Hb Hpad Hsize Hroom Hred_pt Hpt) as (red & Ered & Hparse & Hcarry).
  rewrite Hs in Hparse, Hcarry. assert (Hseq0 : u16 seq = seq) by (unfold u16; apply Z.mod_small; exact Hseq).
  assert (Hcases : exists reds g', fetch_fec garbage red_pt fec_pt g1 seq = Some (reds, g', u16 (seq + Z.of_nat (length reds))) /\ sender_ok g' /\
    (if FecAvailable g1 then GetUlpfecPacketsAsRed garbage g1 red_pt fec_pt seq = Some (reds, g') else reds = [] /\ g' = g1) /\
    (forall i r, reds !! i = Some r -> parses_as (red_data r) ssrc (last_media_packet_rtp_header_length_ g1) (u16 (seq + Z.of_nat i)))).
  { destruct (code_shape g1 Hg1) as [Hshape Hcount]. unfold fetch_fec, NumAvailableFecPackets. cbv zeta. rewrite u16_id by (unfold is_u16, kMaxMediaPackets in *; lia).
    destruct (FecAvailable g1) eqn:Hav.
    - destruct (available_last g1 Hg1 Hav) as [last Hlast]. destruct (GetUlpfecPacketsAsRed_ok garbage g1 red_pt fec_pt seq last Hg1 Hlast Hseq) as (reds & Eg & Hlen & Hreds).
      assert (Hpos : 0 < Z.of_nat (length (generated_fec_packets_ g1))) by (unfold FecAvailable in Hav; apply negb_true_iff, Z.eqb_neq in Hav; lia).
      rewrite (proj2 (Z.ltb_lt 0 _) Hpos). cbn [AllocateSequenceNumber]. rewrite Eg. cbn [mbind option_bind]. exists reds, (UlpfecGenerator_ResetState g1).
      rewrite Hlen. split; [done|]. split; [split; [|done|done]|]; [apply (gr_exec garbage g1 (OpRed red_pt fec_pt seq)); [done|by split|cbn [gen_exec]; by rewrite Eg]|]. split; [done|].
      intros i r Hi. destruct (lookup_lt_is_Some_2 (generated_fec_packets_ g1) i) as [f Hf]; [apply lookup_lt_Some in Hi; lia|]. destruct (Hreds i f r Hf Hi) as [Hred _].
      destruct (Hfm1 last Hlast) as (m' & Hb' & Hpad' & Hsize' & Hs' & El & Eh). rewrite El, Eh in Hred. rewrite Eh, <- Hs'.
      rewrite list.Forall_lookup in Hshape. destruct (Hshape i f Hf) as [[_ Hfu] Hfl]. eapply (red_fec_parses m' red_pt fec_pt _ f); try done. apply u16_range.
    - assert (Hnil : generated_fec_packets_ g1 = []) by (rewrite FecAvailable_code in Hav; by apply negb_false_iff, bool_decide_eq_true_1 in Hav).
      rewrite Hnil. exists [], g1. cbn [length Z.of_nat Z.ltb Z.compare]. rewrite Z.add_0_r, Hseq0. split; [done|]. split; [by split|]. split; [done|]. intros i r Hi. by rewrite lookup_nil in Hi. }
  destruct Hcases as (reds & g' & Eprot & Hok' & Hget & Hpar). destruct (reparse_all m reds _ seq Hb Hpar) as (fecs & Efecs & Hf).
  exists red, fecs, g', g1, reds. split; [|by split_and!].
  unfold SendVideoPacketAsRedMaybeWithUlpfec. rewrite Ered. cbn [mbind option_bind]. rewrite (proj2 (Z.leb_le 0 fec_pt)), E1' by lia. cbn [mbind option_bind].
  rewrite Eprot. cbn [mbind option_bind]. rewrite Efecs. done.
Qed.

Lemma sender_reachable_ok g : sender_reachable g -> sender_ok g.
Proof.
  induction 1 as [|g params Hg IH Hp|g seq m protect out g' seq' Hg IH Hm Hseq E].
  - split; [constructor|done|]. intros last Hl. discriminate Hl.
  - destruct IH as [Hr Hw Hfm]. split; [|done|done]. by apply (gr_exec garbage g (OpParams params)).
  - destruct (sender_step g seq m protect IH Hm Hseq) as (red & fecs & g2 & g1 & reds & E' & Hok & _). rewrite E in E'. by injection E' as -> -> ->.
Qed.

(** C6. Media packets are sent in RED packets: after any run of the sender and for the next
    media packet of its stream, no check fails - that every FEC packet parses included. The
    RED packet parses at the other end to a packet that carries the media packet; the FEC
    packets are those of the generator, which has taken the media packet if it is to be
    protected, and parse at the other end to packets of the stream with the header of the
    last protected packet and consecutive numbers. *)
Theorem red_packets_sent g seq m protect : sender_reachable g -> media_allowed g m protect -> is_u16 seq ->
  exists red fecs g' g1 reds, SendVideoPacketAsRedMaybeWithUlpfec garbage red_pt fec_pt g seq m protect = Some (red :: fecs, g', u16 (seq + Z.of_nat (length reds))) /\
    parses_as (rtp_bytes red) ssrc (headers_size m) (sequence_number_ m) /\
    (forall now, carries_media ssrc red_pt fec_pt (media_of m) (now, mkRTPHeader ssrc (headers_size m) (sequence_number_ m), rtp_bytes red)) /\
    gen_reachable garbage g1 /\ (if protect then gen_exec garbage g (OpMedia (media_of m) (headers_size m)) else Some g) = Some g1 /\
    (if FecAvailable g1 then GetUlpfecPacketsAsRed garbage g1 red_pt fec_pt seq = Some (reds, g') else reds = [] /\ g' = g1) /\
    Forall2 (fun r p => rtp_bytes p = red_data r) reds fecs /\
    (forall i r, reds !! i = Some r -> parses_as (red_data r) ssrc (last_media_packet_rtp_header_length_ g1) (u16 (seq + Z.of_nat i))).
Proof.
  intros Hg Hm Hseq. destruct (sender_step g seq m protect (sender_reachable_ok g Hg) Hm Hseq) as (red & fecs & g' & g1 & reds & E & _ & Hrest). by exists red, fecs, g', g1, reds.
Qed.
End run.

(** ** Example *)

Lemma example_media_allowed : media_allowed 0 125 new_UlpfecGenerator (fresh_packet orientation_map 32) true.
Proof.
  pose proof (fresh_reachable orientation_map orientation_reachable) as Hr. destruct (reachable_built _ Hr) as [Hb _].
  split; [exact Hr|]. split; [reflexivity|]. split; [unfold packet_size; cbn; lia|]. split; [vm_compute; discriminate|]. split; [reflexivity|]. split; [discriminate|]. intros _.
  change (taken new_UlpfecGenerator (media_of (fresh_packet orientation_map 32))) with [media_of (fresh_packet orientation_map 32)]. cbn [block_list].
  split; [apply media_of_ok; [exact Hb|unfold packet_size; cbn; lia]|apply list.Forall_nil_2|exact I|cbn [last_place]; lia].
Qed.

Lemma red_packets_sent_witness : exists red fecs g' seq', SendVideoPacketAsRedMaybeWithUlpfec 0 127 125 new_UlpfecGenerator 9 (fresh_packet orientation_map 32) true = Some (red :: fecs, g', seq') /\
  parses_as (rtp_bytes red) 0 12 0.
Proof.
  destruct (red_packets_sent 0 0 127 125 ltac:(lia) ltac:(lia) new_UlpfecGenerator 9 (fresh_packet orientation_map 32) true) as (red & fecs & g' & g1 & reds & E & Hp & _).
  - apply sr_new.
  - apply example_media_allowed.
  - unfold is_u16. lia.
  - exists red, fecs, g'. eexists. split; [exact E|exact Hp].
Defined.
